(* ===== verification/_CoqProject ===== *)
-Q . S2P
Prelude.v
PyString.v
Json.v
Firewall.v
BbContracts.v
BbStorage.v
BbStorageFacts.v
BbAuthorization.v
BbReplica.v
BbReplicaFacts.v
BbInstrumentation.v
BbCoordinator.v
BbCluster.v
BbWriteFacts.v
BbReads.v
BbReadFacts.v
BbViewFacts.v
BbConsistency.v
BbWitness.v
BbProperties.v
OrContracts.v
OrReplica.v
OrRound.v
OrRoundFacts.v
OrRoundSafety.v
OrCoordinator.v
OrCoordinatorFacts.v
OrAdjudication.v
OrLifecycle.v
OrAgreement.v
OrOperations.v
OrWitness.v
OrProperties.v
DsWindowSort.v
DsWindowing.v
DsFrames.v
DsWindowSortFacts.v
SimDevices.v
DsNetwork.v
DsBehavior.v
DsExtraction.v
DsStore.v
DsStoreFacts.v
DsStoreRuns.v
DsPcap.v
DsProperties.v
SimGateway.v
SimFacts.v
AgContracts.v
AgRecords.v
AgCore.v
AgSpecialists.v
AgCommit.v
BsService.v
BsFacts.v
AgLedger.v
AgGateway.v
AgFacts.v
AgLedgerFacts.v
AgWitness.v
AgProperties.v
SimReplay.v
SimReplayFacts.v
SimProperties.v
EvBroker.v
EvReplay.v
EvReplayFacts.v
EvStreams.v
EvProperties.v
WfState.v
WfWindow.v
WfReads.v
WfFacts.v
WfChain.v
WfRuns.v
WfMemory.v
WfInvariant.v
WfLife.v
WfWitness.v
WfProperties.v
