(* ===== verification/Prelude.v ===== *)
(** * Verification of the agentic SOC framework

    The program ([src/], Python) watches a network of IoT devices.  Feature rows
    of a capture are ordered by window and given to a network detector and a
    behaviour profiler; their findings pass a gateway into a device risk model,
    which spreads risk along the topology; an agentic workflow (correlator, risk
    analyst, access controller, action committer) decides per device and window;
    three orchestrators vote on which agent acts next; and findings, outputs and
    actions are written to a Blackboard replicated on three SQLite databases.
    This development models the decision-making parts and proves what they
    promise to each other.

    ** Conventions

    A Python exception is a value: pure code returns [result A], stateful code is
    the state monad with errors [M S A = S -> result A * S] of this file, in which
    a raised exception keeps the state reached so far, as in the source.  Class
    invariants the constructors check (pydantic validators, [__post_init__]) are
    executable [..._validate] functions, run where the code constructs the value.
    Integers are unbounded, as in Python; where SQLite stores them they are
    checked against 64 bits.  Floats are binary64 of the Standard Library's
    [SpecFloat].  Strings are their UTF-8 bytes.  A dictionary is an association
    list where its order can be observed and a [gmap] otherwise.  Clocks, fresh
    identifiers, hooks, failing disks, thread scheduling and the learned models
    are arguments ([CallEnv], [OpEnv], [AdjEnv], [CallClock], ...): theorems hold
    for all of them.  SHA-256, HMAC and float printing are the class [PyRuntime]
    ([PyString.v]); what the proofs need of them is a named hypothesis (injective
    hashes on the values at hand), and [BbWitness.v] has a concrete instance.

    ** Shared files

    - [Prelude.v] (this file): results, the monad, its step lemmas, bounded lists,
      ordered dictionaries, insertion sort, tactics and hints; triples for the
      monad, with a postcondition for exceptions.
    - [PyString.v]: the language: strings, regular expressions of
      the validators, float arithmetic, field constraints.
    - [Json.v]: [blackboard/hashing.py]: canonical JSON and content hashes, with
      the parser that inverts it.
    - [Firewall.v]: [backend/app/contracts/common.py] and the firewalls of the
      Blackboard, the orchestration and the workflow.

    ** The Blackboard ([blackboard/], [backend/app/services/blackboard_service.py])

    - [BbContracts.v] ([contracts.py]): records with derived identity, results.
    - [BbStorage.v] ([storage.py]): one database, its tables as finite maps, every
      transaction with rollback.  [BbStorageFacts.v]: the invariant [db_wf] and the
      append-only log [log_of] a database refines.
    - [BbAuthorization.v] ([authorization.py], [settings.py], [hooks.py]),
      [BbReplica.v] ([replica.py]), [BbInstrumentation.v] ([instrumentation.py]).
    - [BbCoordinator.v], [BbReads.v] ([coordinator.py]): PROPOSE, PREPARE,
      COMMIT or ABORT, quorum reads, repair, committed view.  One operation of a
      coordinator runs at a time, but [BbCluster.v] lets replica steps of any
      number of coordinators interleave; it also holds a Hoare logic for
      coordinator runs.
    - [BbWriteFacts.v], [BbReadFacts.v], [BbViewFacts.v] (also repair),
      [BbConsistency.v] (and the instrumentation): lemmas.
    - [BsService.v] (the service and its snapshot), [BsFacts.v].
    - [BbProperties.v]: agreement of quorums and durability in every
      interleaving; the exact effect of a write; authoritative reads return what
      was committed, and nothing else; a replica refines its log; stored records
      round trip; compare-and-stage; listeners do not interfere; canonical JSON is
      an identity up to key order; the committed view and scans; a repair starts from
      a record a quorum has at its head; bounds.

    ** The orchestration ([orchestration/])

    - [OrContracts.v] ([contracts.py], [hashing.py], [authentication.py]),
      [OrReplica.v] ([replica.py], [policy.py], [hooks.py]),
      [OrRound.v] ([coordinator.py]: the replay cache and one decision round;
      [instrumentation.py]), [OrCoordinator.v] ([coordinator.py]: futures, the
      waiting loop, adjudication, history, lifecycle).
    - [OrRoundFacts.v], [OrRoundSafety.v],
      [OrCoordinatorFacts.v] (a logic for coordinator operations),
      [OrAdjudication.v], [OrLifecycle.v], [OrAgreement.v], [OrOperations.v]:
      lemmas.
    - [OrProperties.v]: one digest per round, decided by two
      authenticated votes; when a message is accepted; decisions say what was
      voted; adjudication always returns, once per round; the replay cache; one
      dishonest orchestrator cannot choose the route, two honest ones decide.

    ** Findings and devices ([pipeline/findings.py], [agents/], [simulation/abm.py])

    - [SimDevices.v] (findings, inventory, evidence, propagation),
      [SimGateway.v] (finding gateway and [srep/device_srep.py]), [SimFacts.v].
    - [SimProperties.v]: every submission is counted once and changes
      exactly its device; propagation ends and only reaches what it should.

    ** From a capture to feature rows ([datasets/datasense/])

    - [DsPcap.v] ([pcap_reader.py]): the bytes of a capture file, classic or PCAPNG, to
      packets.
    - [DsFrames.v] ([frame_decoder.py]): bytes to packet views, over integers.
    - [DsWindowing.v] ([windowing.py], [ordering.py]): the integer grid of windows,
      the watermark of the maximum lateness, and the stream both extractors share:
      a map of live accumulators, those due are finalized in key order.  A stream is
      compared with [group], all arrivals grouped at once.
    - [DsNetwork.v] ([network_features.py], [communication.py]), [DsBehavior.v]
      ([behavior_features.py], [ndjson_reader.py]), [DsExtraction.v]
      ([extraction.py]: the pass over a capture with its presence bitmap and dense
      rectangle, the telemetry pass over sorted events).
    - [DsStore.v] ([feature_store.py], [ExtractionEngine]): writers, states and reader
      on a disk whose operations can fail and whose past states are kept, for a crash
      leaves one of them; [DsStoreFacts.v] (names of parts, what an operation
      touches), [DsStoreRuns.v] (what the writers hold, sessions).
    - [DsWindowSort.v] ([window_sort.py]: the external sort on a store of
      temporary files), [DsWindowSortFacts.v].
    - [DsProperties.v]: the external sort is the stable sort; a pass
      yields what grouping the whole capture would, though it holds a few windows;
      rows fill a rectangle; edges account for every packet; late events are refused
      exactly when they are late; sorted telemetry never is; no bytes crash the capture
      reader or the frame decoder, and both invert a writer; unless a completed session
      is regenerated by force, a crash leaves no session that counts as completed and
      is not, and it leaves other sessions alone up to the pattern of temporary names;
      the store gives back the rows of the passes.

    ** The replay of a session ([simulation/replay.py], [simulation/communication_graph.py])

    - [SimReplay.v]: the aggregate communication graph, and the runner that merges
      the sorted streams and gives each window's rows to the graph, the detector and
      the profiler or the workflow, their findings to the gateway and a step to the
      device model.  Detector, profiler, workflow callback, sink and controller are
      fields of [ReplayRunner].  [SimReplayFacts.v]: lemmas.
    - [SimProperties.v]: the merge is a loop over the windows; what the graph
      holds after a run; the runner's accounts are the gateway's, also with a workflow
      that keeps its own; from a capture to the graph no packet is lost.

    ** The agentic workflow ([agentic_workflow/])

    - [AgContracts.v], [AgRecords.v] ([contracts.py], [firewall.py]), [AgCore.v]
      (readiness, registry, port, policy, hooks, counters), [AgSpecialists.v],
      [AgCommit.v] (committer over the [Ledger] class, in-memory
      ledger), [AgLedger.v] (the ledger over the Blackboard service),
      [AgGateway.v] ([workflow_gateway.py]); facts in [AgFacts.v],
      [AgLedgerFacts.v].
    - [AgProperties.v]: the access policy and its monotonicity; the
      order of agents; what specialists return; one action per key over any
      ledger; the two ledgers; references between outputs; durable actions.

    ** Replays and events ([backend/app/services/])

    - [EvBroker.v] ([event_broker.py], [contracts/events_v1.py]), [EvReplay.v]
      ([replay_controller.py], [contracts/replay_v1.py], [ReplayControl] of
      [simulation/replay.py]): requests, workers and the lifecycle operation as
      interleaved atomic steps; the worker's [checkpoint] line by line, because it
      takes no lock.
    - [EvReplayFacts.v] (the invariant), [EvStreams.v] (numbering, cancellation);
      [EvProperties.v]: what subscribers are given; one live replay, how its state
      changes and when a terminal one is final; increasing numbers; cancellation
      stops the worker when it does not meet the unprotected lines of [checkpoint],
      and what happens when it does.

    ** The workflow service ([backend/app/services/workflow_service.py])

    This is where the parts meet: a window asks the orchestration which agent
    runs, gives findings to the gateway and the device model, runs the
    specialists, and puts every output through the output gateway, the Blackboard
    and the event stream.

    - [WfState.v]: the service, the state of a replay and its windows.  A window
      state is shared between the table, the recent windows and the running
      method, so windows live in a heap and the table holds addresses.
    - [WfWindow.v]: [execute_window].  Its local variables are part of the state,
      because they outlive an exception of an agent.
    - [WfReads.v]: snapshots, actions, [submit_feedback].
    - [WfFacts.v] (what each operation leaves alone; the predicate [core] on a
      running window), [WfChain.v] (the chain of evidence, the loop invariant),
      [WfRuns.v] (a rule for each agent and for the loop), [WfMemory.v] (the table
      of windows, a whole window), [WfInvariant.v], [WfLife.v] (calls
      as steps, what every call keeps).
    - [WfWitness.v] runs a window through all five agents over three orchestrators
      and a fresh Blackboard.  [WfProperties.v]: in every reachable state an
      enforcement leads back to its evidence, on a quorum; a window settles;
      the table of windows; what a feedback rests on.  Two calls of the service do
      not interleave, but other clients of the Blackboard may act between them.

    ** Fuel and bounds

    Loops with a decreasing list are structural.  The others carry fuel, and a
    theorem says that it suffices: the chunked scan ([scan_replica_exact]), the waiting loop of
    [adjudicate] ([adjudicate_always_returns], measure: calls still running and messages still possible),
    the dispatch loop of a window (the source's own bound of six iterations,
    [window_settles]), the breadth-first propagation ([propagation_sound], each device
    enters the queue once), the merge passes and [heapq.merge] ([external_sort_stable]), the runner's loop
    ([replay_batch]: a window takes at least one row).

    ** Not modelled

    Threads inside one coordinator or service (their locks serialise operations),
    the events a write publishes while it runs, the lazy creation of the
    coordinator, SQLite beyond its tables, keys and rollback, the Python [repr]
    inside some messages (abbreviated), spill files of the device history, the
    identity-based [seen] sets of the firewalls.  Training and scoring of the
    detectors, Parquet parts of the feature store, the HTTP layer, scripts and the
    dashboard are outside; [PROJECT.json] lists every part. *)

From Stdlib Require Export ZArith Ascii.
From Stdlib Require Import SpecFloat DecimalString DecimalZ.
From stdpp Require Export base tactics option strings gmap list_numbers sorting list.

#[global] Open Scope Z_scope.

(** ** Exceptions and results *)

(** The exception classes the modelled code raises, catches or reports. *)
Inductive exn_class :=
  | ValueError
  | TypeError
  | KeyError
  | RuntimeError
  | AssertionError
  | OverflowError
  | RecordIntegrityError
  | ValidationError
  | HookUnavailableError
  | SqliteIntegrityError
  | OtherError (name : string).

#[export] Instance exn_class_eq_dec : EqDecision exn_class.
Proof. solve_decision. Defined.

(** [type(exc).__name__]. *)
Definition exn_class_name (c : exn_class) : string :=
  match c with
  | ValueError => "ValueError"
  | TypeError => "TypeError"
  | KeyError => "KeyError"
  | RuntimeError => "RuntimeError"
  | AssertionError => "AssertionError"
  | OverflowError => "OverflowError"
  | RecordIntegrityError => "RecordIntegrityError"
  | ValidationError => "ValidationError"
  | HookUnavailableError => "HookUnavailableError"
  | SqliteIntegrityError => "IntegrityError"
  | OtherError name => name
  end.

(** [except ValueError] also catches the subclasses of [ValueError]. *)
Definition is_value_error (c : exn_class) : bool :=
  match c with
  | ValueError | RecordIntegrityError | ValidationError => true
  | _ => false
  end.

Record exn := Exn { exn_type : exn_class; exn_msg : string }.

#[export] Instance exn_eq_dec : EqDecision exn.
Proof. solve_decision. Defined.

Inductive result (A : Type) :=
  | Ok (a : A)
  | Raise (e : exn).
Arguments Ok {_} _.
Arguments Raise {_} _.

#[export] Instance result_eq_dec `{EqDecision A} : EqDecision (result A).
Proof. solve_decision. Defined.

#[export] Instance result_ret : MRet result := λ A a, Ok a.
#[export] Instance result_bind : MBind result := λ A B f m,
  match m with Ok a => f a | Raise e => Raise e end.
#[export] Instance result_fmap : FMap result := λ A B f m,
  match m with Ok a => Ok (f a) | Raise e => Raise e end.

Definition raise {A} (c : exn_class) (msg : string) : result A :=
  Raise (Exn c msg).

(** [if not b: raise c(msg)]. *)
Definition check (b : bool) (c : exn_class) (msg : string) : result unit :=
  if b then Ok tt else raise c msg.

Definition is_ok {A} (r : result A) : bool :=
  match r with Ok _ => true | Raise _ => false end.

Definition is_some {A} (o : option A) : bool := match o with Some _ => true | None => false end.

Definition of_option {A} (o : option A) (c : exn_class) (msg : string) : result A :=
  match o with Some a => Ok a | None => raise c msg end.

Lemma result_bind_ok {A B} (m : result A) (f : A → result B) b :
  m ≫= f = Ok b ↔ ∃ a, m = Ok a ∧ f a = Ok b.
Proof. destruct m; cbn; naive_solver. Qed.

Lemma check_ok b c msg u : check b c msg = Ok u ↔ b = true.
Proof. destruct b, u; cbn; naive_solver. Qed.

(** Only [ValueError]s of a validator become a pydantic [ValidationError]; the
    first one is kept as its message. *)
Definition as_validation_error (r : result unit) : result unit :=
  match r with
  | Ok _ => Ok tt
  | Raise e => if is_value_error (exn_type e)
               then raise ValidationError (exn_msg e) else Raise e
  end.

Lemma as_validation_error_ok r u : as_validation_error r = Ok u ↔ r = Ok tt.
Proof. destruct r as [[]|e], u; cbn; [done |]. by destruct (is_value_error _). Qed.

(** Run a list of checks in order; the first failure wins. *)
Fixpoint first_error (cs : list (result unit)) : result unit :=
  match cs with
  | [] => Ok tt
  | c :: cs => match c with Ok _ => first_error cs | Raise e => Raise e end
  end.

Lemma first_error_ok cs : first_error cs = Ok tt ↔ Forall (λ c, c = Ok tt) cs.
Proof.
  induction cs as [|[[]|e] cs IH]; cbn.
  - split; [constructor | done].
  - rewrite IH, Forall_cons. naive_solver.
  - rewrite Forall_cons. naive_solver.
Qed.

(** Map a fallible function over a list, left to right. *)
Fixpoint mapM_result {A B} (f : A → result B) (l : list A) : result (list B) :=
  match l with
  | [] => Ok []
  | x :: l => match f x with
      | Ok y => match mapM_result f l with
          | Ok ys => Ok (y :: ys)
          | Raise e => Raise e
          end
      | Raise e => Raise e
      end
  end.

Lemma mapM_result_ok {A B} (f : A → result B) l ys :
  mapM_result f l = Ok ys ↔ Forall2 (λ x y, f x = Ok y) l ys.
Proof.
  revert ys. induction l as [|x l IH]; intros ys; cbn.
  - split; [intros [= <-]; constructor | by inversion 1].
  - destruct (f x) as [y|e] eqn:Hx.
    + destruct (mapM_result f l) as [ys'|e] eqn:Hl.
      * split; [intros [= <-]; constructor; [done | by apply IH] |].
        intros (y' & ys1 & Hy & Hys & ->)%Forall2_cons_inv_l.
        apply IH in Hys. congruence.
      * split; [done |]. intros (y' & ys1 & Hy & Hys & ->)%Forall2_cons_inv_l.
        apply IH in Hys. congruence.
    + split; [done |]. intros (y' & ys1 & Hy & Hys & ->)%Forall2_cons_inv_l. congruence.
Qed.

(** ** State with exceptions

    [M S A]: a computation that reads and writes a state [S] and returns a value
    or raises.  As in Python, the state changes made before an exception
    survive it. *)
Definition M (S A : Type) : Type := S → result A * S.

#[export] Instance M_ret {S} : MRet (M S) := λ A a s, (Ok a, s).
#[export] Instance M_bind {S} : MBind (M S) := λ A B f m s,
  match m s with
  | (Ok a, s') => f a s'
  | (Raise e, s') => (Raise e, s')
  end.

Definition get {S} : M S S := λ s, (Ok s, s).
Definition put {S} (s : S) : M S unit := λ _, (Ok tt, s).
Definition modify {S} (f : S → S) : M S unit := λ s, (Ok tt, f s).
Definition gets {S A} (f : S → A) : M S A := λ s, (Ok (f s), s).
Definition throw {S A} (c : exn_class) (msg : string) : M S A :=
  λ s, (raise c msg, s).
Definition lift {S A} (r : result A) : M S A := λ s, (r, s).
Definition guardM {S} (b : bool) (c : exn_class) (msg : string) : M S unit :=
  λ s, (check b c msg, s).

(** [for x in l: acc = body(x, acc)]. *)
Fixpoint foldM {S A B} (f : B → A → M S B) (acc : B) (l : list A) : M S B :=
  match l with
  | [] => λ s, (Ok acc, s)
  | x :: l => λ s,
      match f acc x s with
      | (Ok acc', s') => foldM f acc' l s'
      | (Raise e, s') => (Raise e, s')
      end
  end.

(** The runs of a sequence that return, and those that raise. *)
Lemma M_bind_ok {S A B} (m : M S A) (f : A → M S B) s b s' :
  (m ≫= f) s = (Ok b, s') ↔ ∃ a s1, m s = (Ok a, s1) ∧ f a s1 = (Ok b, s').
Proof.
  unfold mbind, M_bind. destruct (m s) as [[a|e] s1]; [|naive_solver].
  split; [by intros; exists a, s1 | by intros (a' & s1' & [= <- <-] & ?)].
Qed.

Lemma M_bind_raises {S A B} (m : M S A) (f : A → M S B) s x s' :
  (m ≫= f) s = (Raise x, s') →
  m s = (Raise x, s') ∨ ∃ a s1, m s = (Ok a, s1) ∧ f a s1 = (Raise x, s').
Proof. unfold mbind, M_bind. destruct (m s) as [[a|y] s1]; naive_solver. Qed.

(** ** Bounded deques: [collections.deque(maxlen=n)] *)
Definition push_bounded {A} (maxlen : nat) (x : A) (l : list A) : list A :=
  drop (length (l ++ [x]) - maxlen) (l ++ [x]).

Lemma push_bounded_length {A} n (x : A) l :
  (length (push_bounded n x l) ≤ n)%nat.
Proof. unfold push_bounded. rewrite length_drop. lia. Qed.

Lemma push_bounded_suffix {A} n (x : A) l :
  ∃ k, push_bounded n x l = drop k (l ++ [x]).
Proof. by eexists. Qed.

Lemma push_bounded_last {A} n (x : A) l :
  (0 < n)%nat → last (push_bounded n x l) = Some x.
Proof.
  intros Hn. unfold push_bounded. rewrite length_app; cbn.
  rewrite drop_app_le by lia. by rewrite last_snoc.
Qed.

Lemma push_bounded_room {A} n (x : A) l :
  (length l < n)%nat → push_bounded n x l = l ++ [x].
Proof.
  intros H. unfold push_bounded. rewrite length_app; cbn.
  by replace (length l + 1 - n)%nat with 0%nat by lia.
Qed.

(** ** Slices: [l[start:stop]], negative bounds counting from the end *)
Definition slice_bound (n z : Z) : nat := Z.to_nat (if z <? 0 then Z.max 0 (n + z) else Z.min n z).
Definition py_slice {A} (start stop : Z) (l : list A) : list A :=
  let n := Z.of_nat (length l) in
  take (slice_bound n stop - slice_bound n start) (drop (slice_bound n start) l).

Lemma py_slice_sublist {A} start stop (l : list A) : py_slice start stop l `sublist_of` l.
Proof.
  unfold py_slice. etrans; [apply sublist_take | apply sublist_drop].
Qed.

(** ** Ordered dictionaries

    A Python [dict] or [OrderedDict] whose iteration order is observable:
    assigning an existing key keeps its position, a new key goes last. *)
Section odict.
Context {K V : Type} `{EqDecision K}.
Implicit Types (d : list (K * V)) (k : K) (v : V).

Fixpoint od_get (k : K) (d : list (K * V)) : option V :=
  match d with
  | [] => None
  | (k', v) :: d => if decide (k = k') then Some v else od_get k d
  end.

Fixpoint od_set (k : K) (v : V) (d : list (K * V)) : list (K * V) :=
  match d with
  | [] => [(k, v)]
  | (k', v') :: d =>
      if decide (k = k') then (k, v) :: d else (k', v') :: od_set k v d
  end.

Fixpoint od_del (k : K) (d : list (K * V)) : list (K * V) :=
  match d with
  | [] => []
  | (k', v') :: d => if decide (k = k') then d else (k', v') :: od_del k d
  end.

(** [OrderedDict.move_to_end]. *)
Definition od_move_to_end (k : K) (d : list (K * V)) : list (K * V) :=
  match od_get k d with
  | Some v => od_del k d ++ [(k, v)]
  | None => d
  end.

(** [dict.setdefault]. *)
Definition od_setdefault (k : K) (v : V) (d : list (K * V)) : list (K * V) :=
  match od_get k d with Some _ => d | None => d ++ [(k, v)] end.

Lemma od_get_set k k' v d :
  od_get k (od_set k' v d) = if decide (k = k') then Some v else od_get k d.
Proof.
  induction d as [|[k1 v1] d IH]; cbn; [done |].
  destruct (decide (k' = k1)) as [->|]; cbn; repeat case_decide; naive_solver.
Qed.

Lemma od_get_None k d : od_get k d = None ↔ k ∉ d.*1.
Proof.
  induction d as [|[k1 v1] d IH]; cbn; [set_solver |].
  case_decide; subst; set_solver.
Qed.

Lemma od_get_Some_elem k v d : od_get k d = Some v → (k, v) ∈ d.
Proof.
  induction d as [|[k1 v1] d IH]; cbn; [done |].
  case_decide; intros; simplify_eq; set_solver.
Qed.

Lemma od_elem_get k v d : NoDup d.*1 → (k, v) ∈ d → od_get k d = Some v.
Proof.
  induction d as [|[k1 v1] d IH]; cbn; [set_solver |].
  intros [Hni Hnd]%NoDup_cons [Heq|Hin]%elem_of_cons; simplify_eq.
  - by case_decide.
  - case_decide as Hk; [subst |by apply IH].
    exfalso. apply Hni, (list_elem_of_fmap_2 fst _ _ Hin).
Qed.

Lemma od_set_new k v d : od_get k d = None → od_set k v d = d ++ [(k, v)].
Proof.
  induction d as [|[k1 v1] d IH]; cbn; [done |].
  case_decide; [done |]. intros ?. by rewrite IH.
Qed.

Lemma od_set_keys k v d :
  (od_set k v d).*1 = match od_get k d with Some _ => d.*1 | None => d.*1 ++ [k] end.
Proof.
  induction d as [|[k1 v1] d IH]; cbn; [done |].
  destruct (decide (k = k1)) as [->|Hne]; cbn; [done |].
  rewrite IH. by destruct (od_get k d).
Qed.

Lemma od_set_nodup k v d : NoDup d.*1 → NoDup (od_set k v d).*1.
Proof.
  intros Hnd. rewrite od_set_keys. destruct (od_get k d) eqn:Hg; [done |].
  apply od_get_None in Hg. apply NoDup_app. set_solver by eauto using NoDup_singleton.
Qed.

Lemma od_set_length k v d :
  length (od_set k v d) =
  match od_get k d with Some _ => length d | None => S (length d) end.
Proof.
  rewrite <-(length_fmap fst (od_set k v d)), od_set_keys.
  destruct (od_get k d); [by rewrite length_fmap |].
  rewrite length_app, length_fmap; cbn; lia.
Qed.

(** What holds of every entry. *)
Lemma od_set_Forall (P : K → V → Prop) k v d :
  P k v → Forall (λ kv, P kv.1 kv.2) d → Forall (λ kv, P kv.1 kv.2) (od_set k v d).
Proof.
  intros Hv. induction 1 as [|[k' v'] d Hd Hrest IH]; cbn; [by repeat constructor |].
  case_decide; subst; by constructor.
Qed.

Lemma od_del_sublist k d : od_del k d `sublist_of` d.
Proof. induction d as [|[k' v'] d IH]; cbn; [done |]. case_decide; by constructor. Qed.

Lemma od_del_length k d v : od_get k d = Some v → S (length (od_del k d)) = length d.
Proof.
  induction d as [|[k' v'] d IH]; cbn; [done |]. case_decide; [done |]. cbn. intros Hg. by rewrite IH.
Qed.

Lemma od_move_to_end_Forall (P : K * V → Prop) k d : Forall P d → Forall P (od_move_to_end k d).
Proof.
  intros Hd. unfold od_move_to_end. destruct (od_get k d) as [v|] eqn:Hg; [|done].
  apply Forall_app. split.
  { rewrite Forall_forall in Hd |- *. intros kv Hin. apply Hd, (sublist_subseteq _ _ (od_del_sublist k d)), Hin. }
  apply Forall_singleton. rewrite Forall_forall in Hd. by apply Hd, od_get_Some_elem.
Qed.
End odict.

(** ** Sorting: Python's stable [sorted] *)
Section isort.
Context {A : Type} (leb : A → A → bool).

Fixpoint insert_sorted (x : A) (l : list A) : list A :=
  match l with
  | [] => [x]
  | y :: l' => if leb x y then x :: y :: l' else y :: insert_sorted x l'
  end.

Fixpoint isort (l : list A) : list A :=
  match l with
  | [] => []
  | x :: l' => insert_sorted x (isort l')
  end.

Lemma insert_sorted_perm x l : insert_sorted x l ≡ₚ x :: l.
Proof.
  induction l as [|y l IH]; cbn; [done |].
  destruct (leb x y); [done |]. rewrite IH. by constructor.
Qed.

Lemma isort_perm l : isort l ≡ₚ l.
Proof. induction l as [|x l IH]; cbn; [done |]. by rewrite insert_sorted_perm, IH. Qed.

Lemma elem_of_isort x l : x ∈ isort l ↔ x ∈ l.
Proof. by rewrite isort_perm. Qed.

Lemma isort_length l : length (isort l) = length l.
Proof. by rewrite isort_perm. Qed.

Context (leb_total : ∀ x y, leb x y = true ∨ leb y x = true).
Context (leb_trans : ∀ x y z, leb x y = true → leb y z = true → leb x z = true).

Lemma insert_sorted_sorted x l :
  StronglySorted leb l → StronglySorted leb (insert_sorted x l).
Proof.
  induction 1 as [|y l Hs IH Hall]; cbn; [repeat constructor |].
  destruct (leb x y) eqn:Hxy.
  - constructor; [by constructor |]. constructor; [by rewrite Hxy |].
    eapply Forall_impl; [exact Hall |]. intros z Hyz.
    apply Is_true_true. eapply leb_trans; [exact Hxy | by apply Is_true_true].
  - constructor; [done |]. rewrite insert_sorted_perm. constructor; [|done].
    destruct (leb_total x y); [congruence | by apply Is_true_true].
Qed.

Lemma isort_sorted l : StronglySorted leb (isort l).
Proof. induction l; cbn; [constructor | by apply insert_sorted_sorted]. Qed.

Lemma isort_head x l :
  head (isort l) = Some x → x ∈ l ∧ ∀ y, y ∈ l → leb x y = true ∨ y = x.
Proof.
  intros Hh. pose proof (isort_sorted l) as Hs. pose proof (isort_perm l) as Hp.
  destruct (isort l) as [|z l']; cbn in Hh; [done |]. injection Hh as ->.
  apply StronglySorted_inv in Hs as [_ Hall]. split; [rewrite <-Hp; set_solver |].
  intros y Hy. rewrite <-Hp in Hy. apply elem_of_cons in Hy as [->|Hy]; [by right |].
  rewrite Forall_forall in Hall. left. by apply Is_true_true, Hall.
Qed.

Lemma isort_head_None l : head (isort l) = None ↔ l = [].
Proof.
  pose proof (isort_length l). destruct (isort l), l; cbn in *; naive_solver lia.
Qed.

(** Sorting forgets the input order when equally-ranked elements are equal. *)
Lemma sorted_perm_eq l1 l2 :
  (∀ x y, x ∈ l1 → y ∈ l1 → leb x y = true → leb y x = true → x = y) →
  StronglySorted leb l1 → StronglySorted leb l2 → l1 ≡ₚ l2 → l1 = l2.
Proof.
  revert l2. induction l1 as [|x l1 IH]; intros l2 Hanti Hs1 Hs2 Hp.
  { by apply Permutation_nil_l in Hp. }
  destruct l2 as [|y l2]; [by apply symmetry, Permutation_nil_l in Hp |].
  apply StronglySorted_inv in Hs1 as [Hs1 Hall1].
  apply StronglySorted_inv in Hs2 as [Hs2 Hall2].
  assert (x = y) as ->.
  { assert (Hy : y ∈ x :: l1) by (rewrite Hp; set_solver).
    assert (Hx : x ∈ y :: l2) by (rewrite <-Hp; set_solver).
    apply elem_of_cons in Hy as [->|Hy]; [done |].
    apply elem_of_cons in Hx as [->|Hx]; [done |].
    rewrite Forall_forall in Hall1, Hall2.
    apply Hanti; [set_solver.. | |]; apply Is_true_true; auto. }
  f_equal. apply IH; [set_solver | done.. | by apply Permutation_cons_inv in Hp].
Qed.

Lemma isort_perm_eq l1 l2 :
  (∀ x y, x ∈ l1 → y ∈ l1 → leb x y = true → leb y x = true → x = y) →
  l1 ≡ₚ l2 → isort l1 = isort l2.
Proof.
  intros Hanti Hp. apply sorted_perm_eq.
  - intros x y. rewrite !elem_of_isort. apply Hanti.
  - apply isort_sorted.
  - apply isort_sorted.
  - by rewrite !isort_perm.
Qed.
End isort.

(** ** Counting distinct members of a small universe *)
Lemma quorum_intersect {A} (u l1 l2 : list A) `{EqDecision A} :
  NoDup l1 → NoDup l2 → l1 ⊆ u → l2 ⊆ u →
  (length u < length l1 + length l2)%nat → ∃ x, x ∈ l1 ∧ x ∈ l2.
Proof.
  intros Hd1 Hd2 Hs1 Hs2 Hlt.
  destruct (decide (Exists (.∈ l2) l1)) as [[x [??]]%Exists_exists|Hno]; [by eauto |].
  exfalso. rewrite <-Forall_Exists_neg, Forall_forall in Hno.
  assert (Hnd : NoDup (l1 ++ l2)) by (apply NoDup_app; naive_solver).
  assert (Hsub : l1 ++ l2 ⊆ u) by set_solver.
  assert (Hle : (length (l1 ++ l2) ≤ length u)%nat)
    by (by apply submseteq_length, NoDup_submseteq).
  rewrite length_app in Hle. lia.
Qed.

(** * Triples for state with exceptions

    [hoare P m Q E]: from a state in [P] the computation [m] ends, when it
    returns, in a state [Q] relates to its answer, and, when it raises, in a state
    of [E].  The rules are used for code that catches exceptions of code that
    has already changed the state. *)
Definition hoare {S A} (P : S → Prop) (m : M S A) (Q : A → S → Prop) (E : S → Prop) : Prop :=
  ∀ s out s', P s → m s = (out, s') → match out with Ok a => Q a s' | Raise _ => E s' end.

Section rules.
Context {S : Type}.
Implicit Types (P E : S → Prop).

Lemma h_weaken {A} P P' (Q Q' : A → S → Prop) E E' (m : M S A) :
  hoare P m Q E → (∀ s, P' s → P s) → (∀ a s, Q a s → Q' a s) → (∀ s, E s → E' s) →
  hoare P' m Q' E'.
Proof.
  intros Hm HP HQ HE s out s' Hs Hrun. specialize (Hm s out s' (HP _ Hs) Hrun). destruct out; auto.
Qed.

Lemma h_post {A} P (Q Q' : A → S → Prop) E (m : M S A) :
  hoare P m Q E → (∀ a s, Q a s → Q' a s) → hoare P m Q' E.
Proof. intros Hm HQ. by eapply h_weaken. Qed.

Lemma h_pre {A} P P' (Q : A → S → Prop) E (m : M S A) :
  hoare P m Q E → (∀ s, P' s → P s) → hoare P' m Q E.
Proof. intros Hm HP. by eapply h_weaken. Qed.

Lemma h_ret {A} P (a : A) (Q : A → S → Prop) E : (∀ s, P s → Q a s) → hoare P (mret a) Q E.
Proof. intros HPQ s out s' HP [= <- <-]. by apply HPQ. Qed.

Lemma h_bind {A B} P (R : A → S → Prop) (Q : B → S → Prop) E (m : M S A) (f : A → M S B) :
  hoare P m R E → (∀ a, hoare (R a) (f a) Q E) → hoare P (m ≫= f) Q E.
Proof.
  intros Hm Hf s out s' HP. unfold mbind, M_bind.
  destruct (m s) as [[a|e] s1] eqn:Hms; specialize (Hm _ _ _ HP Hms); [by apply Hf |].
  by intros [= <- <-].
Qed.

(** Sequencing when the first answer is not used. *)
Lemma h_seq {A B} P R (Q : B → S → Prop) E (m : M S A) (m' : M S B) :
  hoare P m (λ _, R) E → hoare R m' Q E → hoare P (m ≫= λ _, m') Q E.
Proof. intros Hm Hm'. by eapply h_bind. Qed.

Lemma h_pure {A} (φ : Prop) P (Q : A → S → Prop) E (m : M S A) :
  (φ → hoare P m Q E) → hoare (λ s, φ ∧ P s) m Q E.
Proof. intros Hm s out s' [Hφ HP]. by apply Hm. Qed.

Lemma h_lift {A} P (r : result A) E :
  (∀ s, P s → E s) → hoare P (lift r) (λ a s, r = Ok a ∧ P s) E.
Proof. intros HE s out s' HP [= <- <-]. destruct r; auto. Qed.

Lemma h_throw {A} P c msg (Q : A → S → Prop) E :
  (∀ s, P s → E s) → hoare P (throw c msg) Q E.
Proof. intros HE s out s' HP [= <- <-]. by apply HE. Qed.

Lemma h_guard P b c msg E :
  (∀ s, P s → E s) → hoare P (guardM b c msg) (λ _ s, b = true ∧ P s) E.
Proof. intros HE s out s' HP [= <- <-]. destruct b; cbn; auto. Qed.

Lemma h_gets {A} P (f : S → A) E : hoare P (gets f) (λ a s, a = f s ∧ P s) E.
Proof. intros s out s' HP [= <- <-]. done. Qed.

Lemma h_modify P P' f E : (∀ s, P s → P' (f s)) → hoare P (modify f) (λ _, P') E.
Proof. intros Hf s out s' HP [= <- <-]. by apply Hf. Qed.

(** A loop with an invariant indexed by what is left to do. *)
Lemma h_foldM {A B} (I : list A → B → S → Prop) E (f : B → A → M S B) l acc :
  (∀ acc x rest, hoare (I (x :: rest) acc) (f acc x) (I rest) E) →
  hoare (I l acc) (foldM f acc l) (I []) E.
Proof.
  intros Hf. revert acc. induction l as [|x l IH]; intros acc; [by apply h_ret |].
  cbn [foldM]. intros s out s' HI. destruct (f acc x s) as [[a|e] s1] eqn:Hfs;
    specialize (Hf acc x l _ _ _ HI Hfs); [by apply IH |]. by intros [= <- <-].
Qed.

(** A loop with a fixed invariant. *)
Lemma h_loop {A B} (P : S → Prop) E (f : B → A → M S B) l acc :
  (∀ acc x, hoare P (f acc x) (λ _, P) E) → hoare P (foldM f acc l) (λ _, P) E.
Proof. intros Hf. apply (h_foldM (λ _ _, P)). intros ac x _. apply Hf. Qed.
End rules.
