(* ===== verification/PyString.v ===== *)
(** * Python strings, integers and floats

    A Python [str] is represented by its UTF-8 bytes.  This file holds the
    string operations of the language that the modelled code uses
    ([len], [strip], [lower], [startswith], slicing, comparison, the [re]
    patterns of identifier validators), integer formatting, binary64 floats
    (on the standard library's [SpecFloat]), and the class of runtime functions
    the model takes as parameters ([hashlib.sha256], [hmac], float printing). *)

From Stdlib Require Import SpecFloat DecimalString DecimalZ.
From S2P Require Import Prelude.

(** ** Order *)

(** Python compares strings by code point; on UTF-8 that is the byte order. *)
Definition str_leb (s t : string) : bool := String.leb s t.

Lemma ascii_compare_trans_lt a b c :
  Ascii.compare a b = Lt → Ascii.compare b c = Lt → Ascii.compare a c = Lt.
Proof. unfold Ascii.compare. rewrite !N.compare_lt_iff. lia. Qed.

Lemma ascii_compare_refl a : Ascii.compare a a = Eq.
Proof. apply N.compare_refl. Qed.

Lemma str_compare_trans s t u c :
  String.compare s t ≠ Gt → String.compare t u ≠ Gt →
  c = String.compare s u → c ≠ Gt.
Proof.
  revert t u c. induction s as [|a s IH]; intros [|b t] [|d u] c; cbn; try congruence.
  destruct (Ascii.compare a b) eqn:Hab; [|clear IH|congruence].
  - apply Ascii.compare_eq_iff in Hab as ->.
    destruct (Ascii.compare b d) eqn:Hbd; [apply IH | congruence..].
  - destruct (Ascii.compare b d) eqn:Hbd; [| |congruence].
    + apply Ascii.compare_eq_iff in Hbd as ->. rewrite Hab. congruence.
    + rewrite (ascii_compare_trans_lt _ _ _ Hab Hbd). congruence.
Qed.

Lemma str_leb_trans s t u :
  str_leb s t = true → str_leb t u = true → str_leb s u = true.
Proof.
  unfold str_leb, String.leb. intros H1 H2.
  destruct (String.compare s u) eqn:Hsu; [done..|].
  exfalso. eapply (str_compare_trans s t u Gt); [| |by rewrite Hsu|done].
  - intros Hg. by rewrite Hg in H1.
  - intros Hg. by rewrite Hg in H2.
Qed.

Lemma str_leb_total s t : str_leb s t = true ∨ str_leb t s = true.
Proof. apply String.leb_total. Qed.

Lemma str_leb_antisym s t : str_leb s t = true → str_leb t s = true → s = t.
Proof. apply String.leb_antisym. Qed.

(** [sorted(strings)]. *)
Definition sort_strings (l : list string) : list string := isort str_leb l.

Lemma sort_strings_perm l : sort_strings l ≡ₚ l.
Proof. apply isort_perm. Qed.

Lemma sort_strings_perm_eq l1 l2 : l1 ≡ₚ l2 → sort_strings l1 = sort_strings l2.
Proof.
  apply isort_perm_eq; eauto using str_leb_total, str_leb_trans, str_leb_antisym.
Qed.

(** ** Characters *)
Definition code (c : ascii) : Z := Z.of_N (N_of_ascii c).
Definition in_range (lo hi : Z) (c : ascii) : bool := (lo <=? code c) && (code c <=? hi).
Definition is_digit (c : ascii) : bool := in_range 48 57 c.
Definition is_upper (c : ascii) : bool := in_range 65 90 c.
Definition is_lower (c : ascii) : bool := in_range 97 122 c.
Definition is_alnum (c : ascii) : bool := is_digit c || is_upper c || is_lower c.
Definition newline : ascii := "010".

Definition chars (s : string) : list ascii := String.list_ascii_of_string s.
Definition unchars (l : list ascii) : string := String.string_of_list_ascii l.

Lemma unchars_chars s : unchars (chars s) = s.
Proof. apply String.string_of_list_ascii_of_string. Qed.

Lemma chars_unchars l : chars (unchars l) = l.
Proof. apply String.list_ascii_of_string_of_list_ascii. Qed.

Lemma chars_app s t : chars (s +:+ t) = chars s ++ chars t.
Proof.
  induction s as [|c s IH]; [done |].
  change (chars (String c (s +:+ t)) = c :: (chars s ++ chars t)).
  rewrite <-IH. done.
Qed.

(** [len(s)]: code points, that is bytes that are not UTF-8 continuations. *)
Definition py_len (s : string) : Z :=
  Z.of_nat (length (filter (λ c, ¬ Is_true (in_range 128 191 c)) (chars s))).

(** ** Whitespace

    [str.strip] removes Unicode whitespace; [ws_prefix] is the number of bytes
    of a whitespace code point at the head of the list, 0 if there is none. *)
Definition ws_prefix (l : list ascii) : nat :=
  match map code l with
  | 194 :: c :: _ => if (c =? 133) || (c =? 160) then 2%nat else 0%nat
  | 225 :: 154 :: 128 :: _ => 3%nat
  | 226 :: 128 :: c :: _ =>
      if ((128 <=? c) && (c <=? 138)) || (c =? 168) || (c =? 169) || (c =? 175)
      then 3%nat else 0%nat
  | 226 :: 129 :: 159 :: _ => 3%nat
  | 227 :: 128 :: 128 :: _ => 3%nat
  | c :: _ => if ((9 <=? c) && (c <=? 13)) || ((28 <=? c) && (c <=? 32)) then 1%nat else 0%nat
  | [] => 0%nat
  end.

(** The same on a reversed list: whitespace at the end of the string. *)
Definition ws_suffix (l : list ascii) : nat :=
  match l with
  | a :: b :: c :: _ =>
      if (ws_prefix [a] =? 1)%nat then 1%nat
      else if (ws_prefix [b; a] =? 2)%nat then 2%nat
      else if (ws_prefix [c; b; a] =? 3)%nat then 3%nat else 0%nat
  | [a; b] =>
      if (ws_prefix [a] =? 1)%nat then 1%nat
      else if (ws_prefix [b; a] =? 2)%nat then 2%nat else 0%nat
  | [a] => if (ws_prefix [a] =? 1)%nat then 1%nat else 0%nat
  | [] => 0%nat
  end.

Fixpoint drop_ws (ws : list ascii → nat) (fuel : nat) (l : list ascii) : list ascii :=
  match fuel with
  | O => l
  | S fuel => match ws l with O => l | S n => drop_ws ws fuel (drop (S n) l) end
  end.

Definition lstrip_chars (l : list ascii) : list ascii := drop_ws ws_prefix (length l) l.
Definition rstrip_chars (l : list ascii) : list ascii :=
  reverse (drop_ws ws_suffix (length l) (reverse l)).
Definition py_strip (s : string) : string :=
  unchars (rstrip_chars (lstrip_chars (chars s))).

(** [not s.strip()]. *)
Definition is_blank (s : string) : bool := bool_decide (py_strip s = "").

(** ** Lower-casing

    Exact on ASCII and on the two other code points whose lower case contains
    an ASCII letter (KELVIN SIGN and LATIN CAPITAL I WITH DOT ABOVE).  Every
    other code point lower-cases to non-ASCII code points and is left as it is:
    the code only compares the result with ASCII words. *)
Definition lower_ascii (c : ascii) : ascii :=
  if is_upper c then ascii_of_N (N_of_ascii c + 32) else c.

Fixpoint lower_chars (l : list ascii) : list ascii :=
  match l with
  | [] => []
  | a :: t =>
      match t with
      | [] => [lower_ascii a]
      | b :: u =>
          if (code a =? 196) && (code b =? 176)
          then "i"%char :: "204"%char :: "135"%char :: lower_chars u
          else match u with
               | c :: r =>
                   if (code a =? 226) && (code b =? 132) && (code c =? 170)
                   then "k"%char :: lower_chars r
                   else lower_ascii a :: lower_chars t
               | [] => lower_ascii a :: lower_chars t
               end
      end
  end.
Definition py_lower (s : string) : string := unchars (lower_chars (chars s)).

(** ** Prefixes and slices *)
Fixpoint startswith (p s : string) : bool :=
  match p, s with
  | EmptyString, _ => true
  | String a p, String b s => Ascii.eqb a b && startswith p s
  | _, EmptyString => false
  end.

(** [s[:n]] on ASCII text. *)
Definition str_take (n : nat) (s : string) : string := String.substring 0 n s.

Definition contains_char (c : ascii) (s : string) : bool :=
  existsb (Ascii.eqb c) (chars s).

(** ** The identifier patterns

    [^F C{0,n}$] under [re.match]/[re.fullmatch]: a first character, then at
    most [n] characters of a class.  Without [fullmatch], [$] also matches just
    before a final newline. *)
Fixpoint id_tail (cls : ascii → bool) (n : nat) (trailing_newline : bool) (l : list ascii) : bool :=
  match l with
  | [] => true
  | c :: r =>
      (match n with O => false | S n => cls c && id_tail cls n trailing_newline r end)
      || (trailing_newline && Ascii.eqb c newline && match r with [] => true | _ => false end)
  end.

Definition id_pattern (cls : ascii → bool) (n : nat) (trailing_newline : bool) (s : string) : bool :=
  match chars s with
  | [] => false
  | c :: r => is_alnum c && id_tail cls n trailing_newline r
  end.

(** A 64-character lower-case hexadecimal digest. *)
Definition is_hex (c : ascii) : bool := is_digit c || in_range 97 102 c.
Definition hex64 (s : string) : bool :=
  (String.length s =? 64)%nat && forallb is_hex (chars s).

Lemma id_tail_length cls n nl l :
  id_tail cls n nl l = true → (length l ≤ S n)%nat.
Proof.
  revert l. induction n as [|n IH]; intros [|c r]; cbn; try lia.
  - rewrite !andb_true_iff. destruct r; cbn; [lia |]. naive_solver.
  - intros [[_ H%IH]%andb_true_iff|H]%orb_true_iff; [lia |].
    rewrite !andb_true_iff in H. destruct r; cbn; [lia | naive_solver].
Qed.

Lemma id_tail_class cls n l :
  id_tail cls n false l = true ↔ (length l ≤ n)%nat ∧ forallb cls l = true.
Proof.
  revert l. induction n as [|n IH]; intros [|c r]; cbn.
  - split; [intros; split; [lia|done] | done].
  - split; [done | lia].
  - split; [intros; split; [lia|done] | done].
  - rewrite orb_false_r, !andb_true_iff, IH. intuition lia.
Qed.

(** ** Integer formatting *)

(** [str(z)]. *)
Definition fmt_int (z : Z) : string := NilZero.string_of_int (Z.to_int z).

(** [int(s)] on the texts [fmt_int] produces. *)
Definition parse_int (s : string) : option Z := Z.of_int <$> NilZero.int_of_string s.

Lemma to_int_not_nil z : Z.to_int z ≠ Decimal.Pos Decimal.Nil ∧ Z.to_int z ≠ Decimal.Neg Decimal.Nil.
Proof.
  destruct z as [|p|p]; cbn; split; try done; intros [= H];
    by apply (DecimalPos.Unsigned.to_uint_nonnil p).
Qed.

Lemma parse_fmt_int z : parse_int (fmt_int z) = Some z.
Proof.
  unfold parse_int, fmt_int. pose proof (to_int_not_nil z) as [H1 H2].
  rewrite NilZero.isi by done. cbn. by rewrite DecimalZ.of_to.
Qed.

#[export] Instance fmt_int_inj : Inj (=) (=) fmt_int.
Proof.
  intros x y Hxy. pose proof (parse_fmt_int x) as Hx.
  rewrite Hxy, parse_fmt_int in Hx. congruence.
Qed.

(** [f"{z:06d}"]. *)
Definition fmt_06d (z : Z) : string :=
  let s := fmt_int (Z.abs z) in
  let pad n := unchars (replicate (n - String.length s) "0"%char) in
  if z <? 0 then "-" +:+ pad 5%nat +:+ s else pad 6%nat +:+ s.

(** [repr(s)]: single quotes, unless the text has a single quote and no double
    quote; exact on ASCII text (non-ASCII bytes are left as they are). *)
Definition hex_lower (n : N) : ascii := ascii_of_N (if (n <? 10)%N then 48 + n else 87 + n).

Definition repr_char (q c : ascii) : list ascii :=
  let n := code c in
  if Ascii.eqb c q || (n =? 92) then ["\"%char; c]
  else if n =? 9 then chars "\t" else if n =? 10 then chars "\n"
  else if n =? 13 then chars "\r"
  else if (n <? 32) || (n =? 127)
  then chars "\x" ++ [hex_lower (N_of_ascii c / 16); hex_lower (N_of_ascii c mod 16)]
  else [c].

Definition py_repr (s : string) : string :=
  let q : ascii := if contains_char "'" s && negb (contains_char "034" s) then "034"%char else "'"%char in
  unchars (q :: concat (map (repr_char q) (chars s)) ++ [q]).

(** [str(list_of_strings)]. *)
Definition repr_list (l : list string) : string :=
  "[" +:+ String.concat ", " (map py_repr l) +:+ "]".

(** 64-bit signed integers, the range of an SQLite [INTEGER] parameter. *)
Definition int64_ok (z : Z) : bool := (- 2 ^ 63 <=? z) && (z <? 2 ^ 63).

(** ** Floats: IEEE 754 binary64 *)
Notation f64 := spec_float.

Definition f_add : f64 → f64 → f64 := SFadd 53 1024.
Definition f_sub : f64 → f64 → f64 := SFsub 53 1024.
Definition f_mul : f64 → f64 → f64 := SFmul 53 1024.
Definition f_opp : f64 → f64 := SFopp.
Definition f_div : f64 → f64 → f64 := SFdiv 53 1024.
Definition f_ltb (x y : f64) : bool := SFltb x y.
Definition f_leb (x y : f64) : bool := SFleb x y.
Definition f_eqb (x y : f64) : bool := SFeqb x y.
Definition f_gtb (x y : f64) : bool := SFltb y x.
Definition f_geb (x y : f64) : bool := SFleb y x.
Definition f_zero : f64 := S754_zero false.
Definition f_one : f64 := S754_finite false 4503599627370496 (-52).
Definition f_half : f64 := S754_finite false 4503599627370496 (-53).

(** [float(z)] for an integer below [2 ^ 53]. *)
Definition f_of_Z (z : Z) : f64 := binary_normalize 53 1024 z 0 false.

Definition f_finite (x : f64) : bool :=
  match x with S754_zero _ | S754_finite _ _ _ => true | _ => false end.

(** [int(round(x))]: the nearest integer, ties to even; 0 on values that have
    none. *)
Definition f_round_int (x : f64) : Z :=
  match x with
  | S754_finite s m e =>
      let z := if s then Z.neg m else Z.pos m in
      if 0 <=? e then z * 2 ^ e
      else
        let d := 2 ^ (- e) in
        let q := z / d in
        match Z.compare (2 * (z mod d)) d with
        | Lt => q
        | Gt => q + 1
        | Eq => if Z.even q then q else q + 1
        end
  | _ => 0
  end.

(** Python's [max(a, b)]: [b] if [b > a], else [a]. *)
Definition f_max (a b : f64) : f64 := if f_gtb b a then b else a.

#[export] Instance f64_eq_dec : EqDecision f64.
Proof. solve_decision. Defined.

(** ** Runtime functions the model takes as parameters

    Cryptography and CPython's float printer: documented functions of the
    runtime, not code of the repository. *)
Class PyRuntime := {
  sha256_hex : string → string;
  (** [hmac.new(key, msg, sha256).hexdigest()] *)
  hmac_sha256_hex : string → string → string;
  (** [repr] of a finite float, as [json.dumps] prints it *)
  float_repr : f64 → string;
  (** [round(x, n)] *)
  float_round : f64 → Z → f64;
  (** [sum(samples)] *)
  float_sum : list f64 → f64;
  (** [x ** n] for an integer [n] *)
  float_pow : f64 → Z → f64;
  (** [float(text)] on a JSON number token *)
  float_parse : string → f64;
  (** [datetime.fromisoformat(text)]: [None] when it raises [ValueError],
      else whether the result carries a UTC offset *)
  fromisoformat_aware : string → option bool;
}.

(** * Field constraints of pydantic models

    The [Field(...)] bounds the contracts of the orchestration and the agentic
    workflow use, as checks that raise the error pydantic would collect. *)
(** ** Field constraints: [Field(min_length=lo, max_length=hi)], [ge=0], [pattern] *)
Definition str_field (name : string) (lo hi : Z) (s : string) : result unit :=
  check ((lo <=? py_len s) && (py_len s <=? hi)) ValueError
    (name +:+ ": string length out of bounds").
Definition opt_str_field (name : string) (hi : Z) (o : option string) : result unit :=
  match o with Some s => str_field name 0 hi s | None => Ok tt end.
Definition ge_field (name : string) (lo z : Z) : result unit :=
  check (lo <=? z) ValueError (name +:+ ": value too small").
Definition opt_nat_field (name : string) (o : option Z) : result unit :=
  match o with Some z => ge_field name 0 z | None => Ok tt end.
Definition digest_field (name s : string) : result unit :=
  check (hex64 s) ValueError (name +:+ ": string does not match the digest pattern").
Definition float_field (name : string) (x : f64) : result unit :=
  check (f_geb x f_zero) ValueError (name +:+ ": value must be at least 0").

(** [Field(ge=0, le=1)], NaN rejected by both comparisons. *)
Definition unit_field (name : string) (x : f64) : result unit :=
  check (f_geb x f_zero && f_leb x f_one) ValueError (name +:+ ": value must be within [0, 1]").
Definition opt_unit_field (name : string) (o : option f64) : result unit :=
  match o with Some x => unit_field name x | None => Ok tt end.

Lemma str_field_ok name lo hi s :
  str_field name lo hi s = Ok tt ↔ lo ≤ py_len s ≤ hi.
Proof. unfold str_field. rewrite check_ok, andb_true_iff, !Z.leb_le. done. Qed.

Lemma unit_field_ok name x :
  unit_field name x = Ok tt ↔ f_leb f_zero x = true ∧ f_leb x f_one = true.
Proof. unfold unit_field. by rewrite check_ok, andb_true_iff. Qed.
