(* ===== verification/Json.v ===== *)
(** * Canonical JSON and content hashes

    Models [blackboard/hashing.py] and the serialization half of
    [orchestration/hashing.py]: [json.dumps] with sorted keys, compact
    separators, [ensure_ascii=False] and [allow_nan=False], [json.loads], and the
    SHA-256 content hash of the canonical text.  The theorems show that the
    canonical text is independent of dictionary insertion order and that it can
    be parsed back to the value it was made from, so equal texts mean equal
    logical content. *)

From Stdlib Require Import SpecFloat DecimalString.
From S2P Require Import Prelude PyString.

#[local] Set Warnings "-register-all".

(** A JSON-serializable Python value; a dict is its items in insertion order. *)
Inductive json :=
  | JNull
  | JBool (b : bool)
  | JInt (z : Z)
  | JFloat (f : f64)
  | JStr (s : string)
  | JList (l : list json)
  | JDict (d : list (string * json)).

Section json_ind.
Context (P : json → Prop).
Context (Hnull : P JNull) (Hbool : ∀ b, P (JBool b)) (Hint : ∀ z, P (JInt z)).
Context (Hfloat : ∀ f, P (JFloat f)) (Hstr : ∀ s, P (JStr s)).
Context (Hlist : ∀ l, Forall P l → P (JList l)).
Context (Hdict : ∀ d, Forall (λ kv, P kv.2) d → P (JDict d)).

Fixpoint json_nested_ind (v : json) : P v :=
  match v with
  | JNull => Hnull
  | JBool b => Hbool b
  | JInt z => Hint z
  | JFloat f => Hfloat f
  | JStr s => Hstr s
  | JList l => Hlist l ((fix go l : Forall P l :=
      match l with
      | [] => List.Forall_nil _
      | v :: l => List.Forall_cons _ _ _ (json_nested_ind v) (go l)
      end) l)
  | JDict d => Hdict d ((fix go d : Forall (λ kv, P kv.2) d :=
      match d with
      | [] => List.Forall_nil _
      | kv :: d => List.Forall_cons _ _ _ (json_nested_ind kv.2) (go d)
      end) d)
  end.
End json_ind.

(** Optional fields of a dumped model. *)
Definition json_opt_str (o : option string) : json :=
  match o with Some s => JStr s | None => JNull end.
Definition json_opt_int (o : option Z) : json :=
  match o with Some z => JInt z | None => JNull end.

#[export] Instance json_eq_dec : EqDecision json.
Proof.
  refine (fix go v w : Decision (v = w) :=
    match v, w with
    | JNull, JNull => left eq_refl
    | JBool b, JBool c => cast_if (decide (b = c))
    | JInt y, JInt z => cast_if (decide (y = z))
    | JFloat f, JFloat g => cast_if (decide (f = g))
    | JStr s, JStr t => cast_if (decide (s = t))
    | JList l, JList k => cast_if (list_eq_dec (dec := go) l k)
    | JDict d, JDict e =>
        cast_if (list_eq_dec (dec := λ p q,
          match p, q with (a, x), (b, y) =>
            match decide (a = b) with
            | left Ha => match go x y with
                | left Hx => left _ | right Hx => right _ end
            | right Ha => right _
            end
          end) d e)
    | _, _ => right _
    end); clear go; abstract congruence.
Defined.

(** ** Printing *)

Definition hex_digit (n : Z) : ascii :=
  ascii_of_N (Z.to_N (if n <? 10 then 48 + n else 87 + n)).

(** The escapes of [json.encoder.ESCAPE_DCT]. *)
Definition escape_char (c : ascii) : list ascii :=
  let n := code c in
  if n =? 34 then chars "\" ++ [c]
  else if n =? 92 then chars "\\"
  else if n =? 8 then chars "\b"
  else if n =? 9 then chars "\t"
  else if n =? 10 then chars "\n"
  else if n =? 12 then chars "\f"
  else if n =? 13 then chars "\r"
  else if n <? 32 then chars "\u00" ++ [hex_digit (n / 16); hex_digit (n mod 16)]
  else [c].

Definition quote : ascii := "034".
Definition enc_str (s : string) : list ascii :=
  quote :: concat (map escape_char (chars s)) ++ [quote].

Fixpoint join_comma (ls : list (list ascii)) : list ascii :=
  match ls with
  | [] => []
  | [l] => l
  | l :: ls => l ++ ","%char :: join_comma ls
  end.

Section with_runtime.
Context `{PyRuntime}.

(** The text of a value, dictionaries in the order they have. *)
Fixpoint enc_raw (v : json) : list ascii :=
  match v with
  | JNull => chars "null"
  | JBool true => chars "true"
  | JBool false => chars "false"
  | JInt z => chars (fmt_int z)
  | JFloat f => chars (float_repr f)
  | JStr s => enc_str s
  | JList l => "["%char :: join_comma (map enc_raw l) ++ ["]"%char]
  | JDict d =>
      "{"%char ::
      join_comma (map (λ kv, enc_str kv.1 ++ ":"%char :: enc_raw kv.2) d) ++ ["}"%char]
  end.

Definition key_leb {A} (p q : string * A) : bool := str_leb p.1 q.1.

(** [sort_keys=True], at every level. *)
Fixpoint sort_keys (v : json) : json :=
  match v with
  | JList l => JList (map sort_keys l)
  | JDict d => JDict (isort key_leb (map (λ kv, (kv.1, sort_keys kv.2)) d))
  | v => v
  end.

(** [allow_nan=False]: every float of the value is finite. *)
Fixpoint json_finite (v : json) : bool :=
  match v with
  | JFloat f => f_finite f
  | JList l => forallb json_finite l
  | JDict d => forallb (λ kv, json_finite kv.2) d
  | _ => true
  end.

Definition canonical_json_str (v : json) : result string :=
  if json_finite v then Ok (unchars (enc_raw (sort_keys v)))
  else raise ValueError "Out of range float values are not JSON compliant".

(** The UTF-8 encoding is the identity on byte strings. *)
Definition canonical_json_bytes (v : json) : result string := canonical_json_str v.

Definition canonical_content_hash (v : json) : result string :=
  sha256_hex <$> canonical_json_bytes v.

(** ** Parsing: [json.loads] *)

Definition is_ws (c : ascii) : bool :=
  let n := code c in (n =? 32) || (n =? 9) || (n =? 10) || (n =? 13).

Fixpoint skip_ws (l : list ascii) : list ascii :=
  match l with
  | c :: r => if is_ws c then skip_ws r else l
  | [] => []
  end.

Fixpoint strip_prefix (p l : list ascii) : option (list ascii) :=
  match p, l with
  | [], _ => Some l
  | a :: p, b :: l => if Ascii.eqb a b then strip_prefix p l else None
  | _ :: _, [] => None
  end.

Definition is_number_char (c : ascii) : bool :=
  is_digit c || Ascii.eqb c "-" || Ascii.eqb c "+" || Ascii.eqb c "."
  || Ascii.eqb c "e" || Ascii.eqb c "E".

Fixpoint span (f : ascii → bool) (l : list ascii) : list ascii * list ascii :=
  match l with
  | c :: r => if f c then let '(a, b) := span f r in (c :: a, b) else ([], l)
  | [] => ([], [])
  end.

(** The canonical decimal text of an integer, or minus zero. *)
Definition int_token (tok : list ascii) : option Z :=
  match parse_int (unchars tok) with
  | Some z => if decide (chars (fmt_int z) = tok) then Some z
              else if decide (tok = chars "-0") then Some 0 else None
  | None => None
  end.

(** An integer part, then a fraction, an exponent, or both. *)
Definition exponent_ok (l : list ascii) : bool :=
  match l with
  | c :: r =>
      (Ascii.eqb c "e" || Ascii.eqb c "E") &&
      match r with
      | s :: d => if Ascii.eqb s "+" || Ascii.eqb s "-"
                  then match d with [] => false | _ => forallb is_digit d end
                  else forallb is_digit r
      | [] => false
      end
  | [] => false
  end.

Definition float_token (tok : list ascii) : bool :=
  let '(ip, rest) := span (λ c, is_digit c || Ascii.eqb c "-") tok in
  match int_token ip, rest with
  | Some _, c :: r =>
      if Ascii.eqb c "." then
        let '(fp, ex) := span is_digit r in
        match fp with
        | [] => false
        | _ => match ex with [] => true | _ => exponent_ok ex end
        end
      else exponent_ok rest
  | _, _ => false
  end.

Definition p_number (tok : list ascii) : option json :=
  match int_token tok with
  | Some z => Some (JInt z)
  | None => if float_token tok then Some (JFloat (float_parse (unchars tok))) else None
  end.

Definition hex_value (c : ascii) : option Z :=
  let n := code c in
  if is_digit c then Some (n - 48)
  else if in_range 97 102 c then Some (n - 87)
  else if in_range 65 70 c then Some (n - 55) else None.

Definition byte (n : Z) : ascii := ascii_of_N (Z.to_N n).

(** The UTF-8 bytes of a code point below U+10000; surrogates have none. *)
Definition utf8 (n : Z) : option (list ascii) :=
  if n <? 128 then Some [byte n]
  else if n <? 2048 then Some [byte (192 + n / 64); byte (128 + n mod 64)]
  else if (55296 <=? n) && (n <=? 57343) then None
  else Some [byte (224 + n / 4096); byte (128 + (n / 64) mod 64); byte (128 + n mod 64)].

Definition unescape (c : ascii) : option ascii :=
  let n := code c in
  if n =? 34 then Some c else if n =? 92 then Some c else if n =? 47 then Some c
  else if n =? 98 then Some (byte 8) else if n =? 102 then Some (byte 12)
  else if n =? 110 then Some (byte 10) else if n =? 114 then Some (byte 13)
  else if n =? 116 then Some (byte 9) else None.

(** The characters of a string literal after its opening quote. *)
Fixpoint p_str (l : list ascii) : option (list ascii * list ascii) :=
  match l with
  | [] => None
  | c :: r =>
      if code c =? 34 then Some ([], r)
      else if code c =? 92 then
        match r with
        | e :: r' =>
            if code e =? 117 then
              match r' with
              | a :: b :: x :: y :: r'' =>
                  match hex_value a, hex_value b, hex_value x, hex_value y with
                  | Some a, Some b, Some x, Some y =>
                      match utf8 (4096 * a + 256 * b + 16 * x + y), p_str r'' with
                      | Some u, Some (s, t) => Some (u ++ s, t)
                      | _, _ => None
                      end
                  | _, _, _, _ => None
                  end
              | _ => None
              end
            else match unescape e, p_str r' with
                 | Some u, Some (s, t) => Some (u :: s, t)
                 | _, _ => None
                 end
        | [] => None
        end
      else if code c <? 32 then None
      else match p_str r with Some (s, t) => Some (c :: s, t) | None => None end
  end.

(** A repeated key keeps its first position and its last value. *)
Definition dict_of (kvs : list (string * json)) : list (string * json) :=
  foldl (λ d kv, od_set kv.1 kv.2 d) [] kvs.

Fixpoint p_value (fuel : nat) (l : list ascii) : option (json * list ascii) :=
  match fuel with
  | O => None
  | S n =>
      match skip_ws l with
      | [] => None
      | c :: r =>
          if code c =? 34 then
            match p_str r with Some (s, t) => Some (JStr (unchars s), t) | None => None end
          else if code c =? 91 then
            match skip_ws r with
            | d :: r' =>
                if code d =? 93 then Some (JList [], r')
                else match p_elems n r with Some (vs, t) => Some (JList vs, t) | None => None end
            | [] => None
            end
          else if code c =? 123 then
            match skip_ws r with
            | d :: r' =>
                if code d =? 125 then Some (JDict [], r')
                else match p_members n r with
                     | Some (kvs, t) => Some (JDict (dict_of kvs), t)
                     | None => None
                     end
            | [] => None
            end
          else if is_number_char c then
            let '(tok, t) := span is_number_char (c :: r) in
            match p_number tok with Some v => Some (v, t) | None => None end
          else match strip_prefix (chars "null") (c :: r) with
          | Some t => Some (JNull, t)
          | None => match strip_prefix (chars "true") (c :: r) with
          | Some t => Some (JBool true, t)
          | None => match strip_prefix (chars "false") (c :: r) with
          | Some t => Some (JBool false, t)
          | None => None
          end end end
      end
  end
  with p_elems (fuel : nat) (l : list ascii) : option (list json * list ascii) :=
  match fuel with
  | O => None
  | S n =>
      match p_value n l with
      | Some (v, t) =>
          match skip_ws t with
          | c :: t' =>
              if code c =? 44 then
                match p_elems n t' with Some (vs, u) => Some (v :: vs, u) | None => None end
              else if code c =? 93 then Some ([v], t') else None
          | [] => None
          end
      | None => None
      end
  end
  with p_members (fuel : nat) (l : list ascii) : option (list (string * json) * list ascii) :=
  match fuel with
  | O => None
  | S n =>
      match skip_ws l with
      | q :: r =>
          if code q =? 34 then
            match p_str r with
            | Some (k, t) =>
                match skip_ws t with
                | c :: t' =>
                    if code c =? 58 then
                      match p_value n t' with
                      | Some (v, u) =>
                          match skip_ws u with
                          | e :: u' =>
                              if code e =? 44 then
                                match p_members n u' with
                                | Some (kvs, w) => Some ((unchars k, v) :: kvs, w)
                                | None => None
                                end
                              else if code e =? 125 then Some ([(unchars k, v)], u') else None
                          | [] => None
                          end
                      | None => None
                      end
                    else None
                | [] => None
                end
            | None => None
            end
          else None
      | [] => None
      end
  end.

(** The fuel is the length of the text: every level of nesting and every
    element consumes at least one character (see [json_size_length]). *)
Definition json_loads (s : string) : result json :=
  let l := chars s in
  match p_value (S (length l)) l with
  | Some (v, t) => match skip_ws t with
      | [] => Ok v
      | _ => raise (OtherError "JSONDecodeError") "Extra data"
      end
  | None => raise (OtherError "JSONDecodeError") "Expecting value"
  end.

End with_runtime.

(** ** Well-formed values *)

(** Python dictionaries have unique keys. *)
Fixpoint json_wf (v : json) : bool :=
  match v with
  | JList l => forallb json_wf l
  | JDict d => bool_decide (NoDup d.*1) && forallb (λ kv, json_wf kv.2) d
  | _ => true
  end.

(** Python's [==] on values of the same types: dictionaries compare by lookup,
    whatever their insertion order. *)
Inductive json_same : json → json → Prop :=
  | same_refl v : json_same v v
  | same_list l k : Forall2 json_same l k → json_same (JList l) (JList k)
  | same_dict d e :
      (∀ k v, od_get k d = Some v → ∃ w, od_get k e = Some w ∧ json_same v w) →
      (∀ k, od_get k d = None → od_get k e = None) →
      json_same (JDict d) (JDict e).

Section facts.
Context `{PyRuntime}.

(** The float printer is faithful on [f]: the text is a JSON number with a
    fraction or an exponent, and it reads back as [f]. *)
Definition float_ok (f : f64) : bool :=
  let tok := chars (float_repr f) in
  forallb is_number_char tok && float_token tok &&
  bool_decide (int_token tok = None) && bool_decide (float_parse (float_repr f) = f).

Fixpoint json_floats_ok (v : json) : bool :=
  match v with
  | JFloat f => float_ok f
  | JList l => forallb json_floats_ok l
  | JDict d => forallb (λ kv, json_floats_ok kv.2) d
  | _ => true
  end.

(** *** Key order *)

Lemma key_leb_total {A} (p q : string * A) : key_leb p q = true ∨ key_leb q p = true.
Proof. apply str_leb_total. Qed.
Lemma key_leb_trans {A} (p q r : string * A) :
  key_leb p q = true → key_leb q r = true → key_leb p r = true.
Proof. apply str_leb_trans. Qed.

Lemma nodup_key_eq {A} (l : list (string * A)) p q :
  NoDup l.*1 → p ∈ l → q ∈ l → p.1 = q.1 → p = q.
Proof.
  destruct p as [a x], q as [b y]; cbn. intros Hnd Hp Hq ->.
  apply (od_elem_get _ _ _ Hnd) in Hp, Hq. congruence.
Qed.

Lemma isort_keys_perm {A} (l k : list (string * A)) :
  NoDup l.*1 → l ≡ₚ k → isort key_leb l = isort key_leb k.
Proof.
  intros Hnd. apply isort_perm_eq; eauto using key_leb_total, key_leb_trans.
  intros x y Hx Hy H1 H2. eapply nodup_key_eq; [done..|].
  by apply str_leb_antisym.
Qed.

Lemma wf_dict d : json_wf (JDict d) = true →
  NoDup d.*1 ∧ Forall (λ kv, json_wf kv.2 = true) d.
Proof.
  cbn. intros [Hnd%bool_decide_eq_true Hall]%andb_true_iff. split; [done |].
  apply Forall_forall. intros kv Hkv. rewrite forallb_forall in Hall.
  by apply Hall, list_elem_of_In.
Qed.

Lemma forallb_Forall {A} (f : A → bool) l : forallb f l = true ↔ Forall (λ x, f x = true) l.
Proof.
  rewrite forallb_forall, Forall_forall. by setoid_rewrite list_elem_of_In.
Qed.

Lemma map_key_fst {A B} (f : A → B) (d : list (string * A)) :
  (map (λ kv, (kv.1, f kv.2)) d).*1 = d.*1.
Proof. induction d as [|[k v] d IH]; cbn; [done |]. by f_equal. Qed.

Lemma elem_map_key {A B} (f : A → B) (d : list (string * A)) k y :
  (k, y) ∈ map (λ kv, (kv.1, f kv.2)) d ↔ ∃ x, y = f x ∧ (k, x) ∈ d.
Proof.
  rewrite list_elem_of_In, in_map_iff. split.
  - intros ([k' x] & [= <- <-] & Hin). exists x. by rewrite list_elem_of_In.
  - intros (x & -> & Hin). exists (k, x). by rewrite <-list_elem_of_In.
Qed.

Lemma same_sort_keys v w :
  json_wf v = true → json_wf w = true → json_same v w → sort_keys v = sort_keys w.
Proof.
  revert w. induction v as [| | | | |l IH|d IH] using json_nested_ind;
    intros w Hv Hw Hs; inversion Hs as [?|?? Hall|?? H1 H2]; subst; try done; cbn.
  - f_equal. cbn in Hv, Hw. apply forallb_Forall in Hv, Hw. clear Hs.
    induction Hall as [|x y l k Hxy Hall IHl]; [done |]; cbn.
    apply Forall_cons in IH as [IHx IH], Hv as [Hx Hv], Hw as [Hy Hw].
    f_equal; [by apply IHx | by apply IHl].
  - apply wf_dict in Hv as [Hnd Hv], Hw as [Hnd' Hw]. f_equal.
    apply isort_keys_perm; [by rewrite map_key_fst |].
    apply NoDup_Permutation; [eapply NoDup_fmap_1; by rewrite map_key_fst.. |].
    rewrite Forall_forall in IH, Hv, Hw.
    intros [k y]. rewrite !elem_map_key. split.
    + intros (x & -> & Hin). destruct (H1 k x) as (z & Hz & Hxz); [by apply od_elem_get |].
      apply od_get_Some_elem in Hz as Hz'. exists z. split; [|done].
      apply (IH (k, x) Hin); [apply (Hv _ Hin) | apply (Hw _ Hz') | done].
    + intros (z & -> & Hin). destruct (od_get k d) as [x|] eqn:Hx.
      * destruct (H1 k x Hx) as (z' & Hz' & Hxz).
        apply od_get_Some_elem in Hx. apply od_get_Some_elem in Hz' as Hz''.
        rewrite (od_elem_get _ _ _ Hnd' Hin) in Hz'. injection Hz' as ->.
        exists x. split; [|done]. symmetry.
        apply (IH (k, x) Hx); [apply (Hv _ Hx) | apply (Hw _ Hin) | done].
      * apply H2 in Hx. by rewrite (od_elem_get _ _ _ Hnd' Hin) in Hx.
Qed.

Lemma sort_keys_same v w :
  json_wf v = true → json_wf w = true → sort_keys v = sort_keys w → json_same v w.
Proof.
  revert w. induction v as [| | | | |l IH|d IH] using json_nested_ind;
    intros w Hv Hw Hs; destruct w as [| | | | |k|e]; cbn in Hs; simplify_eq; try constructor.
  - rename Hs into Heq. cbn in Hv, Hw. apply forallb_Forall in Hv, Hw.
    revert k Heq Hw. induction IH as [|x l Hx IH IHl]; intros [|y k] Heq Hw; cbn in Heq;
      simplify_eq; constructor; apply Forall_cons in Hv as [??], Hw as [??]; auto.
  - rename Hs into Heq. apply wf_dict in Hv as [Hnd Hv], Hw as [Hnd' Hw].
    rewrite Forall_forall in IH, Hv, Hw.
    intros k x Hx%od_get_Some_elem.
    assert (Hin : (k, sort_keys x) ∈ map (λ kv, (kv.1, sort_keys kv.2)) e).
    { rewrite <-(elem_of_isort key_leb), <-Heq, elem_of_isort, elem_map_key. eauto. }
    apply elem_map_key in Hin as (y & Hxy & Hy).
    exists y. split; [by apply od_elem_get |].
    apply (IH (k, x)); [done | apply (Hv _ Hx) | apply (Hw _ Hy) | done].
  - rename Hs into Heq. intros k. rewrite !od_get_None.
    assert (Hp : d.*1 ≡ₚ e.*1).
    { rewrite <-(map_key_fst sort_keys d), <-(map_key_fst sort_keys e).
      rewrite <-(isort_perm key_leb (map _ d)), Heq, isort_perm. done. }
    by rewrite Hp.
Qed.

End facts.

(** ** Parsing back *)
Section roundtrip.
Context `{PyRuntime}.

(** What may follow a value: nothing, or a character no number contains. *)
Definition delim (r : list ascii) : Prop :=
  match r with [] => True | c :: _ => is_number_char c = false end.

(** How a printed value starts. *)
Definition starts_value (l : list ascii) : Prop :=
  match l with
  | [] => False
  | c :: _ => is_ws c = false ∧ code c ≠ 93 ∧ code c ≠ 125
  end.

Lemma number_char_start c :
  is_number_char c = true →
  is_ws c = false ∧ code c ≠ 34 ∧ code c ≠ 91 ∧ code c ≠ 93 ∧ code c ≠ 123 ∧ code c ≠ 125.
Proof. destruct c as [[] [] [] [] [] [] [] []]; vm_compute; intuition discriminate. Qed.

Lemma skip_ws_start l r : starts_value l → skip_ws (l ++ r) = l ++ r.
Proof. destruct l as [|c l]; cbn; [done |]. by intros [-> _]. Qed.

Lemma skip_ws_cons c t : is_ws c = false → skip_ws (c :: t) = c :: t.
Proof. cbn. by intros ->. Qed.

Lemma span_app f l r :
  forallb f l = true → match r with [] => True | c :: _ => f c = false end →
  span f (l ++ r) = (l, r).
Proof.
  intros Hl Hr. induction l as [|c l IH]; cbn in *.
  - destruct r as [|c r]; cbn; [done |]. by rewrite Hr.
  - apply andb_true_iff in Hl as [-> Hl]. by rewrite IH.
Qed.

Lemma uint_chars u : forallb is_digit (chars (NilEmpty.string_of_uint u)) = true.
Proof. induction u; cbn; done. Qed.

Lemma fmt_int_chars z : forallb is_number_char (chars (fmt_int z)) = true.
Proof.
  assert (Hu : ∀ u, forallb is_number_char (chars (NilZero.string_of_uint u)) = true).
  { intros u. assert (forallb is_digit (chars (NilZero.string_of_uint u)) = true) as Hd.
    { destruct u; try apply (uint_chars (_ u)); done. }
    apply forallb_Forall. apply forallb_Forall in Hd.
    eapply Forall_impl; [exact Hd |]. intros c Hc. unfold is_number_char. by rewrite Hc. }
  unfold fmt_int. destruct (Z.to_int z) as [u|u]; cbn; [apply Hu |].
  apply Hu.
Qed.

Lemma fmt_int_nonempty z : chars (fmt_int z) ≠ [].
Proof.
  intros Hc. pose proof (parse_fmt_int z) as Hp.
  rewrite <-(unchars_chars (fmt_int z)), Hc in Hp. done.
Qed.

Lemma int_token_fmt z : int_token (chars (fmt_int z)) = Some z.
Proof.
  unfold int_token. rewrite unchars_chars, parse_fmt_int. by rewrite decide_True.
Qed.

Lemma p_str_escape c t :
  p_str (escape_char c ++ t) =
  match p_str t with Some (s, u) => Some (c :: s, u) | None => None end.
Proof. destruct c as [[] [] [] [] [] [] [] []]; reflexivity. Qed.

Lemma p_str_enc cs r :
  p_str (concat (map escape_char cs) ++ quote :: r) = Some (cs, r).
Proof.
  induction cs as [|c cs IH]; [done |].
  cbn [map concat]. by rewrite <-app_assoc, p_str_escape, IH.
Qed.

(** The fuel a value needs. *)
Fixpoint json_size (v : json) : nat :=
  match v with
  | JList l => S (sum_list_with (λ v, S (json_size v)) l)
  | JDict d => S (sum_list_with (λ kv, S (json_size kv.2)) d)
  | _ => 1
  end.

Definition number_text (tok : list ascii) : Prop :=
  forallb is_number_char tok = true ∧ tok ≠ [].

Lemma p_value_number n tok r v :
  number_text tok → p_number tok = Some v → delim r →
  p_value (S n) (tok ++ r) = Some (v, r).
Proof.
  intros [Hn Hne] Hv Hr. destruct tok as [|c tok]; [done |].
  pose proof Hn as Hc. cbn in Hc. apply andb_true_iff in Hc as [Hc _].
  pose proof (number_char_start c Hc) as (Hws & H1 & H2 & H3 & H4 & H5).
  cbn [p_value]. change ((c :: tok) ++ r) with (c :: (tok ++ r)). cbn [skip_ws]. rewrite Hws.
  rewrite (proj2 (Z.eqb_neq _ _) H1), (proj2 (Z.eqb_neq _ _) H2), (proj2 (Z.eqb_neq _ _) H4).
  rewrite Hc. change (c :: tok ++ r) with ((c :: tok) ++ r).
  by rewrite span_app, Hv by done.
Qed.

Lemma float_text f :
  float_ok f = true → number_text (chars (float_repr f)) ∧
  p_number (chars (float_repr f)) = Some (JFloat f).
Proof.
  unfold float_ok. rewrite !andb_true_iff, !bool_decide_eq_true.
  intros [[[Hn Ht] Hi] Hp]. split.
  - split; [done |]. intros Hc. by rewrite Hc in Ht.
  - unfold p_number. by rewrite Hi, Ht, unchars_chars, Hp.
Qed.

Lemma enc_starts v : json_floats_ok v = true → starts_value (enc_raw v).
Proof.
  assert (Hnum : ∀ tok, number_text tok → starts_value tok).
  { intros [|c tok] [Hn Hne]; [done |]. cbn in *.
    apply andb_true_iff in Hn as [Hc _]. apply number_char_start in Hc; tauto. }
  destruct v as [|[]|z|f|s|l|d]; try done.
  - intros _. apply Hnum. split; [apply fmt_int_chars | apply fmt_int_nonempty].
  - intros Hf. by apply Hnum, float_text.
Qed.

Lemma enc_nonempty v : json_floats_ok v = true → (1 ≤ length (enc_raw v))%nat.
Proof. intros Hv%enc_starts. destruct (enc_raw v); cbn in *; [done | lia]. Qed.

Lemma join_comma_cons x ls :
  ls ≠ [] → join_comma (x :: ls) = x ++ ","%char :: join_comma ls.
Proof. by destruct ls. Qed.

Lemma json_size_length v :
  json_floats_ok v = true → (json_size v ≤ length (enc_raw v))%nat.
Proof.
  induction v as [|b|z|f|s|l IH|d IH] using json_nested_ind; intros Hv;
    try (by apply enc_nonempty); cbn [json_size enc_raw];
    rewrite length_cons, length_app; cbn [length].
  - cbn in Hv. apply forallb_Forall in Hv.
    assert (Hl : l = [] ∨
      (sum_list_with (λ v, S (json_size v)) l ≤ S (length (join_comma (map enc_raw l))))%nat);
      [|destruct Hl as [->|]; cbn; lia].
    induction l as [|x l IHl]; [by left | right].
    apply Forall_cons in IH as [Hx IH], Hv as [Hfx Hv].
    destruct (IHl IH Hv) as [->|Hle]; [cbn in *; specialize (Hx Hfx); lia |].
    destruct l as [|y l]; [cbn in *; specialize (Hx Hfx); lia |].
    cbn [map] in *. rewrite join_comma_cons by done. rewrite length_app, length_cons.
    cbn [sum_list_with] in *. specialize (Hx Hfx). lia.
  - cbn in Hv. apply forallb_Forall in Hv.
    set (item := λ kv : string * json, enc_str kv.1 ++ ":"%char :: enc_raw kv.2).
    assert (Hitem : ∀ kv, (length (enc_raw kv.2) ≤ length (item kv))%nat).
    { intros kv. unfold item. rewrite length_app, length_cons. lia. }
    assert (Hl : d = [] ∨
      (sum_list_with (λ kv, S (json_size kv.2)) d ≤ S (length (join_comma (map item d))))%nat);
      [|destruct Hl as [->|]; cbn; lia].
    induction d as [|x d IHl]; [by left | right].
    apply Forall_cons in IH as [Hx IH], Hv as [Hfx Hv].
    specialize (Hx Hfx). specialize (Hitem x) as Hi.
    destruct (IHl IH Hv) as [->|Hle]; [cbn in *; lia |].
    destruct d as [|y d]; [cbn in *; lia |].
    cbn [map] in *. rewrite join_comma_cons by done. rewrite length_app, length_cons.
    cbn [sum_list_with] in *. lia.
Qed.

(** [p_value] reads back what [enc_raw] wrote, whatever follows. *)
Definition reads (v : json) : Prop :=
  ∀ n r, (json_size v ≤ n)%nat → delim r → p_value n (enc_raw v ++ r) = Some (v, r).

Lemma p_elems_enc l :
  l ≠ [] → Forall reads l → Forall (λ v, json_floats_ok v = true) l →
  ∀ n r, (sum_list_with (λ v, S (json_size v)) l ≤ n)%nat →
  p_elems n (join_comma (map enc_raw l) ++ "]"%char :: r) = Some (l, r).
Proof.
  induction l as [|v l IHl]; [done |]. intros _ HF Hf n r Hn.
  apply Forall_cons in HF as [Hv HF], Hf as [Hfv Hf].
  cbn [sum_list_with] in Hn. destruct n as [|n]; [lia |]. cbn [p_elems].
  destruct l as [|w l].
  - cbn [map join_comma]. rewrite Hv by (done || lia). done.
  - change (map enc_raw (v :: w :: l)) with (enc_raw v :: map enc_raw (w :: l)).
    rewrite join_comma_cons by done. rewrite <-app_assoc, <-app_comm_cons.
    rewrite Hv by (done || lia).
    rewrite skip_ws_cons by done. change (code ","%char =? 44) with true. cbn match.
    by rewrite IHl by (done || lia).
Qed.

Lemma p_members_enc d :
  d ≠ [] → Forall (λ kv, reads kv.2) d →
  ∀ n r, (sum_list_with (λ kv, S (json_size kv.2)) d ≤ n)%nat →
  p_members n
    (join_comma (map (λ kv, enc_str kv.1 ++ ":"%char :: enc_raw kv.2) d) ++ "}"%char :: r)
  = Some (d, r).
Proof.
  induction d as [|[k v] d IHd]; [done |]. intros _ HF n r Hn.
  apply Forall_cons in HF as [Hv HF]. cbn [snd] in Hv.
  cbn [sum_list_with snd] in Hn. destruct n as [|n]; [lia |].
  assert (Hitem : ∀ t c, is_ws c = false → is_number_char c = false →
    p_members (S n) ((enc_str k ++ ":"%char :: enc_raw v) ++ c :: t) =
    if code c =? 44 then
      match p_members n t with Some (kvs, w) => Some ((k, v) :: kvs, w) | None => None end
    else if code c =? 125 then Some ([(k, v)], t) else None).
  { intros t c Hc Hc'. unfold enc_str. cbn [p_members].
    rewrite <-!app_assoc, <-!app_comm_cons. cbn [app].
    rewrite skip_ws_cons by done. change (code quote =? 34) with true. cbn match.
    rewrite <-app_assoc; cbn [app]. rewrite p_str_enc.
    rewrite skip_ws_cons by done.
    change (code ":"%char =? 58) with true. cbn match.
    rewrite Hv by (done || lia). cbn [skip_ws]. rewrite Hc.
    by rewrite unchars_chars. }
  destruct d as [|w d].
  - cbn [map join_comma]. cbn [fst snd]. by rewrite Hitem.
  - cbn [map]. rewrite join_comma_cons by done. cbn [fst snd].
    rewrite <-(app_assoc _ (","%char :: _)), <-app_comm_cons, Hitem by done.
    change (code ","%char =? 44) with true. cbn match.
    change (_ :: map ?f d) with (map f (w :: d)).
    by rewrite IHd by (done || lia).
Qed.

Lemma dict_of_nodup d : NoDup d.*1 → dict_of d = d.
Proof.
  intros Hnd. unfold dict_of.
  assert (Hgen : ∀ acc, NoDup (acc ++ d).*1 →
    foldl (λ d kv, od_set kv.1 kv.2 d) acc d = acc ++ d); [|by apply (Hgen [])].
  clear Hnd. induction d as [|[k v] d IH]; intros acc Hnd; cbn; [by rewrite app_nil_r |].
  rewrite fmap_app, fmap_cons in Hnd. cbn in Hnd.
  rewrite od_set_new.
  - rewrite IH, <-app_assoc; [done |]. by rewrite <-app_assoc, fmap_app.
  - apply od_get_None. apply NoDup_app in Hnd as (_ & Hd & _). set_solver.
Qed.

Lemma enc_reads v :
  json_wf v = true → json_floats_ok v = true → reads v.
Proof.
  induction v as [|b|z|f|s|l IH|d IH] using json_nested_ind;
    intros Hwf Hf n r Hn Hr; cbn [json_size] in Hn; (destruct n as [|n]; [lia |]).
  - done.
  - by destruct b.
  - cbn [enc_raw]. apply p_value_number; [split | | done].
    + apply fmt_int_chars.
    + apply fmt_int_nonempty.
    + unfold p_number. by rewrite int_token_fmt.
  - cbn [enc_raw]. apply float_text in Hf as [??]. by apply p_value_number.
  - cbn [enc_raw]. unfold enc_str. cbn [app p_value skip_ws].
    change (is_ws quote) with false. cbn match. change (code quote =? 34) with true. cbn match.
    rewrite <-app_assoc; cbn [app]. by rewrite p_str_enc, unchars_chars.
  - cbn in Hwf, Hf. apply forallb_Forall in Hwf, Hf.
    destruct l as [|v l]; [done |].
    assert (Hs : starts_value (join_comma (map enc_raw (v :: l)))).
    { apply Forall_cons in Hf as [Hv%enc_starts _]. cbn [map].
      destruct (enc_raw v) as [|c t]; [done |]. by destruct (map enc_raw l). }
    assert (HF : Forall reads (v :: l)).
    { rewrite Forall_forall in *. intros x Hx. auto. }
    pose proof (p_elems_enc (v :: l) ltac:(done) HF Hf n r ltac:(lia)) as Hp.
    cbn [enc_raw]. rewrite <-app_comm_cons, <-app_assoc. cbn [app].
    destruct (join_comma (map enc_raw (v :: l))) as [|c t] eqn:Hj; [done |].
    destruct Hs as (Hws & H93 & _). cbn [p_value skip_ws].
    change (is_ws "["%char) with false. cbn match.
    change (code "["%char =? 34) with false. change (code "["%char =? 91) with true. cbn match.
    rewrite <-app_comm_cons in *. cbn [skip_ws]. rewrite Hws.
    rewrite (proj2 (Z.eqb_neq _ _) H93). by rewrite Hp.
  - apply wf_dict in Hwf as [Hnd Hwf]. cbn in Hf. apply forallb_Forall in Hf.
    destruct d as [|[k v] d]; [done |].
    assert (HF : Forall (λ kv, reads kv.2) ((k, v) :: d)).
    { rewrite Forall_forall in *. intros x Hx. auto. }
    pose proof (p_members_enc ((k, v) :: d) ltac:(done) HF n r ltac:(lia)) as Hp.
    cbn [enc_raw]. rewrite <-app_comm_cons, <-app_assoc. cbn [app].
    set (j := join_comma _) in *.
    assert (Hj : ∃ t, j = quote :: t).
    { subst j. cbn [map fst snd]. destruct (map _ d); cbn; eauto. }
    destruct Hj as [t Hj]. rewrite Hj in *. cbn [p_value skip_ws].
    change (is_ws "{"%char) with false. cbn match.
    change (code "{"%char =? 34) with false. change (code "{"%char =? 91) with false.
    change (code "{"%char =? 123) with true. cbn match.
    rewrite <-app_comm_cons in *. rewrite skip_ws_cons by done.
    change (code quote =? 125) with false. cbn match. by rewrite Hp, dict_of_nodup.
Qed.

Lemma loads_enc v :
  json_wf v = true → json_floats_ok v = true → json_loads (unchars (enc_raw v)) = Ok v.
Proof.
  intros Hwf Hf. unfold json_loads. rewrite chars_unchars.
  pose proof (enc_reads v Hwf Hf (S (length (enc_raw v))) []) as Hr.
  rewrite app_nil_r in Hr. rewrite Hr; [done | | done].
  pose proof (json_size_length v Hf). lia.
Qed.

(** Sorting the keys preserves well-formedness. *)
Lemma sort_keys_wf v : json_wf v = true → json_wf (sort_keys v) = true.
Proof.
  induction v as [| | | | |l IH|d IH] using json_nested_ind; intros Hwf; try done.
  - cbn in *. apply forallb_Forall in Hwf. apply forallb_Forall.
    rewrite Forall_forall in *. intros x Hx. apply list_elem_of_In, in_map_iff in Hx as (y & <- & Hy).
    apply list_elem_of_In in Hy. auto.
  - apply wf_dict in Hwf as [Hnd Hwf]. cbn. apply andb_true_iff. split.
    + apply bool_decide_eq_true. by rewrite (fmap_Permutation fst _ _ (isort_perm _ _)), map_key_fst.
    + apply forallb_Forall. rewrite (isort_perm _ _). rewrite Forall_forall in *.
      intros [k y] (x & -> & Hx)%elem_map_key. cbn. apply (IH (k, x)); auto.
Qed.

Lemma sort_keys_forall (f : f64 → bool) (p : json → bool) :
  (∀ v, p v = match v with
    | JFloat x => f x
    | JList l => forallb p l
    | JDict d => forallb (λ kv, p kv.2) d
    | _ => true end) →
  ∀ v, p (sort_keys v) = p v.
Proof.
  intros Hp v. induction v as [| | | | |l IH|d IH] using json_nested_ind; try done; cbn.
  - rewrite (Hp (JList (map _ _))), (Hp (JList l)).
    induction IH as [|x l Hx _ IHl]; cbn; [done |]. by rewrite Hx, IHl.
  - rewrite (Hp (JDict (isort _ _))), (Hp (JDict d)).
    apply eq_true_iff_eq. rewrite !forallb_Forall, (isort_perm _ _), !Forall_forall.
    rewrite Forall_forall in IH. split.
    + intros Hall [k x] Hx. pose proof (IH (k, x) Hx) as Hk. cbn in Hk |- *.
      rewrite <-Hk. apply (Hall (k, sort_keys x)), elem_map_key. eauto.
    + intros Hall [k y] (x & -> & Hx)%elem_map_key.
      pose proof (IH (k, x) Hx) as Hk. cbn in Hk |- *. rewrite Hk. apply (Hall (k, x) Hx).
Qed.

Lemma sort_keys_floats v : json_floats_ok (sort_keys v) = json_floats_ok v.
Proof. apply (sort_keys_forall float_ok). by intros []. Qed.

Lemma loads_canonical v s :
  json_wf v = true → json_floats_ok v = true → canonical_json_str v = Ok s →
  json_loads s = Ok (sort_keys v).
Proof.
  unfold canonical_json_str. destruct (json_finite v); [|done].
  intros Hwf Hf [= <-]. apply loads_enc; [by apply sort_keys_wf | by rewrite sort_keys_floats].
Qed.

Lemma sort_keys_idem v : json_wf v = true → sort_keys (sort_keys v) = sort_keys v.
Proof.
  induction v as [| | | | |l IH|d IH] using json_nested_ind; intros Hwf; try done; cbn.
  - f_equal. cbn in Hwf. apply forallb_Forall in Hwf. rewrite map_map.
    apply map_ext_in. rewrite Forall_forall in *. intros x Hx%list_elem_of_In. auto.
  - apply wf_dict in Hwf as [Hnd Hwf]. f_equal.
    set (d' := map _ d). symmetry. transitivity (isort key_leb (isort key_leb d')).
    + apply isort_keys_perm; [by unfold d'; rewrite map_key_fst |]. by rewrite isort_perm.
    + f_equal. transitivity (map id (isort key_leb d')); [symmetry; apply map_id |].
      apply map_ext_in. intros [k y]. rewrite <-list_elem_of_In, elem_of_isort.
      intros (x & -> & Hx)%elem_map_key. unfold id; cbn. f_equal.
      rewrite Forall_forall in IH, Hwf. symmetry. apply (IH (k, x) Hx), (Hwf (k, x) Hx).
Qed.

Lemma same_sort v : json_wf v = true → json_same v (sort_keys v).
Proof.
  intros Hwf. apply sort_keys_same; [done | by apply sort_keys_wf |].
  by rewrite sort_keys_idem.
Qed.

End roundtrip.
