(* ===== verification/Firewall.v ===== *)
(** * Ground-truth firewalls

    Models the recursive forbidden-key checks of
    [backend/app/contracts/common.py], [blackboard/contracts.py],
    [orchestration/firewall.py] and [agentic_workflow/firewall.py] on
    JSON-like trees (dictionaries, lists, scalars).  Values are trees, so the
    [seen] sets of object identities, which only cut sharing and cycles, have no
    counterpart. *)

From S2P Require Import Prelude PyString Json.

(** ** Shared checker: [backend/app/contracts/common.py] *)

Definition FORBIDDEN_GROUND_TRUTH_KEYS : list string :=
  ["label"; "label1"; "label2"; "label3"; "label4"; "label_full"; "is_attack";
   "attack"; "attack_category"; "attack_name"; "attack_names"; "target";
   "targets"; "target_device"; "whole_network_target"; "ground_truth"].

Definition COMPOUND_FORBIDDEN_TOKENS : list string :=
  filter (λ k, k ≠ "attack") FORBIDDEN_GROUND_TRUTH_KEYS.

Definition str_in (s : string) (l : list string) : bool := bool_decide (s ∈ l).

(** [re.split] on runs of characters outside [a-z0-9], empty pieces dropped. *)
Definition is_token_char (c : ascii) : bool := is_digit c || is_lower c.

Fixpoint token_pieces (acc : list ascii) (l : list ascii) : list string :=
  match l with
  | [] => match acc with [] => [] | _ => [unchars (reverse acc)] end
  | c :: r =>
      if is_token_char c then token_pieces (c :: acc) r
      else match acc with
           | [] => token_pieces [] r
           | _ => unchars (reverse acc) :: token_pieces [] r
           end
  end.
Definition tokens (s : string) : list string := token_pieces [] (chars s).

Definition key_hits_forbidden (key : string) : bool :=
  let lowered := py_lower (py_strip key) in
  if str_in lowered FORBIDDEN_GROUND_TRUTH_KEYS then true
  else existsb (λ t, str_in t COMPOUND_FORBIDDEN_TOKENS) (tokens lowered).

(** The paths of the dictionary keys that satisfy [hit]; at most the first 500
    items of every list are visited. *)
Definition LIST_SCAN_LIMIT : nat := 500.

Section walk.
Context (hit : string → bool).

Definition key_path (path k : string) : string := path +:+ "." +:+ k.
Definition index_path (path : string) (i : nat) : string :=
  path +:+ "[" +:+ fmt_int (Z.of_nat i) +:+ "]".

Fixpoint walk_keys (path : string) (v : json) : list string :=
  match v with
  | JDict d =>
      (fix go d := match d with
       | [] => []
       | (k, v) :: d =>
           (if hit k then [key_path path k] else [])
           ++ walk_keys (key_path path k) v ++ go d
       end) d
  | JList l =>
      (fix go i l := match l with
       | [] => []
       | v :: l =>
           if (i <? LIST_SCAN_LIMIT)%nat
           then walk_keys (index_path path i) v ++ go (S i) l else []
       end) 0%nat l
  | _ => []
  end.
End walk.

Definition find_ground_truth_violations (value : json) (path : string) : list string :=
  walk_keys key_hits_forbidden path value.

(** [f"{violations[:10]}"]. *)
Definition repr_paths (l : list string) : string :=
  repr_list (take 10 l).

Definition leakage_message (what : string) (violations : list string) : string :=
  "ground-truth leakage in " +:+ what +:+ " at: " +:+ repr_paths violations.

Definition assert_no_ground_truth (value : json) (what : string) : result unit :=
  match find_ground_truth_violations value "$" with
  | [] => Ok tt
  | vs => raise ValueError (leakage_message what vs)
  end.

(** ** Blackboard extension: [blackboard/contracts.py] *)

Definition BLACKBOARD_EXTRA_FORBIDDEN_KEYS : list string :=
  ["scenario_id"; "scenario_name"; "scenario_ids"; "scenario_names"; "filename"].

Definition extra_hits (keys : list string) (k : string) : bool :=
  str_in (py_lower (py_strip k)) keys.

Definition walk_extra_forbidden_keys (value : json) (path : string) : list string :=
  walk_keys (extra_hits BLACKBOARD_EXTRA_FORBIDDEN_KEYS) path value.

Definition find_blackboard_firewall_violations (value : json) (path : string) : list string :=
  find_ground_truth_violations value path ++ walk_extra_forbidden_keys value path.

Definition assert_blackboard_firewall (value : json) (what : string) : result unit :=
  match find_blackboard_firewall_violations value "$" with
  | [] => Ok tt
  | vs => raise ValueError (leakage_message what vs)
  end.

(** ** Agentic workflow: [agentic_workflow/firewall.py] *)

Definition AGENTIC_EXTRA_FORBIDDEN_KEYS : list string :=
  ["scenario_id"; "scenario_name"; "scenario_ids"; "scenario_names"; "filename"].

Definition walk_extra (value : json) (path : string) : list string :=
  walk_keys (extra_hits AGENTIC_EXTRA_FORBIDDEN_KEYS) path value.

Definition find_agentic_firewall_violations (value : json) (path : string) : list string :=
  find_ground_truth_violations value path ++ walk_extra value path.

Definition assert_agentic_safe (value : json) (what : string) : result unit :=
  match find_agentic_firewall_violations value "$" with
  | [] => Ok tt
  | vs => raise ValueError (leakage_message what vs)
  end.

(** ** Orchestration: [orchestration/firewall.py] *)

Definition ORCHESTRATION_FORBIDDEN_KEYS : list string :=
  FORBIDDEN_GROUND_TRUTH_KEYS ++
  ["scenario_id"; "scenario_name"; "scenario_ids"; "scenario_names"; "filename"].
Definition MAX_COLLECTION_ITEMS : nat := 500.
Definition MAX_NESTING_DEPTH : nat := 20.

(** Unlike the shared checker, too deep or too large values are themselves
    violations. *)
Fixpoint orchestration_walk (path : string) (depth : nat) (v : json) : list string :=
  if (MAX_NESTING_DEPTH <? depth)%nat then [path +:+ ".__excessive_depth__"]
  else match v with
  | JDict d =>
      if (MAX_COLLECTION_ITEMS <? length d)%nat then [path +:+ ".__oversized_collection__"]
      else (fix go d := match d with
            | [] => []
            | (k, v) :: d =>
                (if extra_hits ORCHESTRATION_FORBIDDEN_KEYS k then [key_path path k] else [])
                ++ orchestration_walk (key_path path k) (S depth) v ++ go d
            end) d
  | JList l =>
      if (MAX_COLLECTION_ITEMS <? length l)%nat then [path +:+ ".__oversized_collection__"]
      else (fix go i l := match l with
            | [] => []
            | v :: l => orchestration_walk (index_path path i) (S depth) v ++ go (S i) l
            end) 0%nat l
  | _ => []
  end.

(** The violations form a set, reported in sorted order. *)
Definition find_orchestration_ground_truth (value : json) : list string :=
  sort_strings (remove_dups
    (find_ground_truth_violations value "$" ++ orchestration_walk "$" 0 value)).

Definition assert_orchestration_safe (value : json) (what : string) : result unit :=
  match find_orchestration_ground_truth value with
  | [] => Ok tt
  | vs => raise ValueError (leakage_message what vs)
  end.

(** ** What the checks establish *)

(** [key_at scan v k]: a dictionary inside [v] has the key [k]; list positions
    are limited by [scan]. *)
Inductive key_at (scan : nat → Prop) : json → string → Prop :=
  | key_here d k v : (k, v) ∈ d → key_at scan (JDict d) k
  | key_in_value d k' v k : (k', v) ∈ d → key_at scan v k → key_at scan (JDict d) k
  | key_in_item l i v k :
      l !! i = Some v → scan i → key_at scan v k → key_at scan (JList l) k.

(** Nesting depth and collection sizes. *)
Fixpoint json_depth (v : json) : nat :=
  match v with
  | JList l => foldr (λ v n, Nat.max (S (json_depth v)) n) 0%nat l
  | JDict d => foldr (λ kv n, Nat.max (S (json_depth kv.2)) n) 0%nat d
  | _ => 0
  end.

Fixpoint json_small (bound : nat) (v : json) : Prop :=
  match v with
  | JList l => (length l ≤ bound)%nat ∧ foldr (λ v P, json_small bound v ∧ P) True l
  | JDict d => (length d ≤ bound)%nat ∧ foldr (λ kv P, json_small bound kv.2 ∧ P) True d
  | _ => True
  end.

Lemma walk_keys_dict hit path d :
  walk_keys hit path (JDict d) = [] ↔
  ∀ k v, (k, v) ∈ d → hit k = false ∧ walk_keys hit (key_path path k) v = [].
Proof.
  induction d as [|[k v] d IH]; [cbn; set_solver |].
  change (walk_keys hit path (JDict ((k, v) :: d))) with
    ((if hit k then [key_path path k] else []) ++
     walk_keys hit (key_path path k) v ++ walk_keys hit path (JDict d)).
  rewrite !app_nil, IH. split.
  - intros (Hk & Hv & Hd) k' v' [[= -> ->]|Hin]%elem_of_cons; [|by apply Hd].
    split; [by destruct (hit k) | done].
  - intros Hall. destruct (Hall k v) as [Hk Hv]; [set_solver |]. rewrite Hk.
    split_and!; [done..|]. intros k' v' Hin. apply Hall. set_solver.
Qed.

Fixpoint walk_items (hit : string → bool) (path : string) (i : nat) (l : list json) : list string :=
  match l with
  | [] => []
  | v :: l =>
      if (i <? LIST_SCAN_LIMIT)%nat
      then walk_keys hit (index_path path i) v ++ walk_items hit path (S i) l else []
  end.

Lemma walk_keys_list hit path l : walk_keys hit path (JList l) = walk_items hit path 0 l.
Proof.
  cbn [walk_keys]. generalize 0%nat as i.
  induction l as [|v l IH]; intros i; [done |]. cbn [walk_items]. by rewrite <-IH.
Qed.

Lemma walk_items_nil hit path i l :
  walk_items hit path i l = [] ↔
  ∀ j v, l !! j = Some v → (i + j < LIST_SCAN_LIMIT)%nat →
  walk_keys hit (index_path path (i + j)) v = [].
Proof.
  revert i. induction l as [|v l IH]; intros i; cbn [walk_items]; [done |].
  destruct (Nat.ltb_spec i LIST_SCAN_LIMIT) as [Hlt|Hge].
  - rewrite app_nil, IH. split.
    + intros [Hv Hl] [|j] w Hw Hj; cbn in Hw; simplify_eq.
      * by rewrite Nat.add_0_r.
      * replace (i + S j)%nat with (S i + j)%nat by lia. apply Hl; [done | lia].
    + intros Hall. split.
      * rewrite <-(Nat.add_0_r i). apply (Hall 0%nat); [done | lia].
      * intros j w Hw Hj. replace (S i + j)%nat with (i + S j)%nat by lia.
        apply Hall; [done | lia].
  - split; [|done]. intros _ j w _ Hj. lia.
Qed.

Abbreviation scanned := (λ i, (i < LIST_SCAN_LIMIT)%nat).

Lemma walk_keys_nil hit path v :
  walk_keys hit path v = [] ↔ ∀ k, key_at scanned v k → hit k = false.
Proof.
  revert path. induction v as [| | | | |l IH|d IH] using json_nested_ind; intros path;
    try (split; [intros _ k Hk; inversion Hk | done]).
  - rewrite walk_keys_list, walk_items_nil. rewrite Forall_lookup in IH. split.
    + intros Hall k Hk. inversion Hk as [| |? i v ? Hv Hi Hk']; subst.
      eapply (IH i v Hv); [|exact Hk']. by apply Hall.
    + intros Hall i v Hv Hi. apply (IH i v Hv). intros k Hk. apply Hall.
      by eapply key_in_item.
  - rewrite walk_keys_dict. rewrite Forall_forall in IH. split.
    + intros Hall k Hk. inversion Hk as [? ? v Hin|? k' v ? Hin Hk'|]; subst.
      * by apply (Hall k v).
      * apply (IH (k', v) Hin (key_path path k')); [by apply Hall | done].
    + intros Hall k v Hin. split; [apply Hall; by econstructor |].
      apply (IH (k, v) Hin). intros k' Hk'. apply Hall. by eapply key_in_value.
Qed.

Lemma orchestration_walk_unfold path depth v :
  (depth ≤ MAX_NESTING_DEPTH)%nat →
  orchestration_walk path depth v =
  match v with
  | JDict d =>
      if (MAX_COLLECTION_ITEMS <? length d)%nat then [path +:+ ".__oversized_collection__"]
      else concat (map (λ kv,
        (if extra_hits ORCHESTRATION_FORBIDDEN_KEYS kv.1 then [key_path path kv.1] else [])
        ++ orchestration_walk (key_path path kv.1) (S depth) kv.2) d)
  | JList l =>
      if (MAX_COLLECTION_ITEMS <? length l)%nat then [path +:+ ".__oversized_collection__"]
      else concat (imap (λ i v, orchestration_walk (index_path path i) (S depth) v) l)
  | _ => []
  end.
Proof.
  intros Hd. destruct v as [| | | | |l|d]; cbn [orchestration_walk];
    (destruct (Nat.ltb_spec MAX_NESTING_DEPTH depth); [lia |]); try done.
  - destruct (_ <? _)%nat; [done |]. clear.
    assert (Hgen : ∀ i, (fix go i l := match l with
            | [] => []
            | v :: l => orchestration_walk (index_path path i) (S depth) v ++ go (S i) l
            end) i l = concat (imap (λ j v, orchestration_walk (index_path path (i + j)) (S depth) v) l)).
    { induction l as [|v l IH]; intros i; [done |]. rewrite IH, imap_cons; cbn.
      rewrite Nat.add_0_r. do 2 f_equal. apply imap_ext. intros j w _; cbn.
      by rewrite Nat.add_succ_r. }
    apply (Hgen 0%nat).
  - destruct (_ <? _)%nat; [done |]. clear.
    induction d as [|[k v] d IH]; [done |]. cbn [map concat]. by rewrite IH, <-app_assoc.
Qed.

Lemma concat_nil {A} (ls : list (list A)) : concat ls = [] ↔ Forall (λ l, l = []) ls.
Proof.
  induction ls as [|l ls IH]; cbn; [split; [constructor | done] |].
  by rewrite app_nil, IH, Forall_cons.
Qed.

Lemma orchestration_walk_nil path depth v :
  orchestration_walk path depth v = [] →
  (depth + json_depth v ≤ MAX_NESTING_DEPTH)%nat ∧
  json_small MAX_COLLECTION_ITEMS v ∧
  ∀ k, key_at (λ _, True) v k → extra_hits ORCHESTRATION_FORBIDDEN_KEYS k = false.
Proof.
  revert path depth. induction v as [| | | | |l IH|d IH] using json_nested_ind;
    intros path depth Hw;
    (destruct (decide (depth ≤ MAX_NESTING_DEPTH)%nat) as [Hd|Hd];
     [|exfalso; revert Hw; cbn [orchestration_walk];
       destruct (Nat.ltb_spec MAX_NESTING_DEPTH depth); [done | lia]]);
    try (split_and!; [cbn; lia | done | by inversion 1]).
  - rewrite orchestration_walk_unfold in Hw by done.
    destruct (Nat.ltb_spec MAX_COLLECTION_ITEMS (length l)) as [|Hlen]; [done |].
    apply concat_nil in Hw. rewrite Forall_lookup in Hw. rewrite Forall_lookup in IH.
    assert (Hall : ∀ i v, l !! i = Some v → _) by
      (intros i v Hv; apply (IH i v Hv _ _ (Hw i _ (proj2 (list_lookup_imap_Some _ _ _ _)
        (ex_intro _ v (conj Hv eq_refl)))))).
    split_and!.
    + assert (H1 : Forall (λ v, (S depth + json_depth v ≤ MAX_NESTING_DEPTH)%nat) l)
        by (apply Forall_lookup; intros i v Hv; by destruct (Hall i v Hv)).
      clear -H1 Hd. induction H1; cbn in *; lia.
    + split; [done |].
      assert (H1 : Forall (json_small MAX_COLLECTION_ITEMS) l)
        by (apply Forall_lookup; intros i v Hv; by destruct (Hall i v Hv) as (?&?&?)).
      clear -H1. induction H1; cbn; auto.
    + intros k Hk. inversion Hk as [| |? i v ? Hv _ Hk']; subst.
      by apply (Hall i v Hv).
  - rewrite orchestration_walk_unfold in Hw by done.
    destruct (Nat.ltb_spec MAX_COLLECTION_ITEMS (length d)) as [|Hlen]; [done |].
    apply concat_nil in Hw. rewrite Forall_forall in Hw. rewrite Forall_forall in IH.
    assert (Hall : ∀ kv, kv ∈ d →
      extra_hits ORCHESTRATION_FORBIDDEN_KEYS kv.1 = false ∧
      orchestration_walk (key_path path kv.1) (S depth) kv.2 = []).
    { intros kv Hkv. specialize (Hw _ (list_elem_of_fmap_2 _ _ _ Hkv)). cbn in Hw.
      apply app_nil in Hw as [Hh Hv]. split; [by destruct (extra_hits _ _) | done]. }
    split_and!.
    + assert (H1 : Forall (λ kv, (S depth + json_depth kv.2 ≤ MAX_NESTING_DEPTH)%nat) d)
        by (apply Forall_forall; intros kv Hkv; by eapply IH, Hall).
      clear -H1 Hd. induction H1; cbn in *; lia.
    + split; [done |].
      assert (H1 : Forall (λ kv, json_small MAX_COLLECTION_ITEMS kv.2) d)
        by (apply Forall_forall; intros kv Hkv; by eapply IH, Hall).
      clear -H1. induction H1; cbn; auto.
    + intros k Hk. inversion Hk as [? ? v Hin|? k' v ? Hin Hk'|]; subst.
      * by apply (Hall (k, v)).
      * by eapply (IH (k', v) Hin _ _ (proj2 (Hall _ Hin))).
Qed.

(** ** The checks do not depend on the order of dictionary keys *)
Lemma key_at_sort scan v k : key_at scan (sort_keys v) k → key_at scan v k.
Proof.
  revert k. induction v as [| | | | |l IH|d IH] using json_nested_ind; intros k Hk; try done.
  - inversion Hk as [| |? i w ? Hw Hi Hk']; subst. change (map sort_keys l) with (sort_keys <$> l) in Hw.
    apply list_lookup_fmap_Some in Hw as (v & -> & Hv).
    rewrite Forall_lookup in IH. eapply key_in_item; [exact Hv | done | by eapply IH].
  - inversion Hk as [? ? w Hin|? k' w ? Hin Hk'|]; subst;
      apply elem_of_isort, elem_map_key in Hin as (v & -> & Hin).
    + by eapply key_here.
    + rewrite Forall_forall in IH. eapply key_in_value; [exact Hin |]. by apply (IH (k', v)).
Qed.

Lemma walk_keys_sort hit path path' v :
  walk_keys hit path v = [] → walk_keys hit path' (sort_keys v) = [].
Proof. rewrite !walk_keys_nil. eauto using key_at_sort. Qed.

Lemma assert_blackboard_firewall_ok v what :
  assert_blackboard_firewall v what = Ok tt ↔
  ∀ k, key_at scanned v k →
    key_hits_forbidden k = false ∧ extra_hits BLACKBOARD_EXTRA_FORBIDDEN_KEYS k = false.
Proof.
  unfold assert_blackboard_firewall, find_blackboard_firewall_violations,
    find_ground_truth_violations, walk_extra_forbidden_keys.
  destruct (_ ++ _) eqn:Hv.
  - apply app_nil in Hv as [Hg He]. rewrite walk_keys_nil in Hg, He. naive_solver.
  - split; [done |]. intros Hall. exfalso.
    assert (Hn : ∀ (l1 l2 : list string), l1 = [] → l2 = [] → l1 ++ l2 ≠ s :: l)
      by (by intros ?? -> ->).
    eapply Hn; [| |exact Hv]; apply walk_keys_nil; naive_solver.
Qed.

Lemma assert_blackboard_firewall_sort v what what' :
  assert_blackboard_firewall v what = Ok tt →
  assert_blackboard_firewall (sort_keys v) what' = Ok tt.
Proof. rewrite !assert_blackboard_firewall_ok. eauto using key_at_sort. Qed.
