(* ===== verification/BbContracts.v ===== *)
(** * Blackboard record and result contracts

    Models [blackboard/contracts.py]: the immutable record with its derived
    identity ([content_hash], [record_id]), its validators, the proposal draft,
    and the acknowledgement and result types the coordinator exchanges. *)

From S2P Require Import Prelude PyString Json Firewall.

Definition BLACKBOARD_RECORD_SCHEMA_VERSION : string := "blackboard_record_v1".

(** ** Record types *)
Inductive BlackboardRecordType :=
  | NETWORK_FINDING_RECORD
  | BEHAVIOR_FINDING_RECORD
  | DEVICE_STATE_RECORD
  | DEVICE_RISK_SNAPSHOT_RECORD
  | DEVICE_ONLY_SREP_RECORD
  | SYSTEM_RECORD
  | THREAT_CORRELATION_RECORD
  | RISK_RECOMMENDATION_RECORD
  | ACCESS_RECOMMENDATION_RECORD
  | ENFORCEMENT_DECISION_RECORD
  | CONFIRMED_FEEDBACK_RECORD.

#[export] Instance record_type_eq_dec : EqDecision BlackboardRecordType.
Proof. solve_decision. Defined.

Definition RECORD_TYPES : list BlackboardRecordType :=
  [NETWORK_FINDING_RECORD; BEHAVIOR_FINDING_RECORD; DEVICE_STATE_RECORD;
   DEVICE_RISK_SNAPSHOT_RECORD; DEVICE_ONLY_SREP_RECORD; SYSTEM_RECORD;
   THREAT_CORRELATION_RECORD; RISK_RECOMMENDATION_RECORD;
   ACCESS_RECOMMENDATION_RECORD; ENFORCEMENT_DECISION_RECORD;
   CONFIRMED_FEEDBACK_RECORD].

Definition record_type_value (t : BlackboardRecordType) : string :=
  match t with
  | NETWORK_FINDING_RECORD => "NETWORK_FINDING_RECORD"
  | BEHAVIOR_FINDING_RECORD => "BEHAVIOR_FINDING_RECORD"
  | DEVICE_STATE_RECORD => "DEVICE_STATE_RECORD"
  | DEVICE_RISK_SNAPSHOT_RECORD => "DEVICE_RISK_SNAPSHOT_RECORD"
  | DEVICE_ONLY_SREP_RECORD => "DEVICE_ONLY_SREP_RECORD"
  | SYSTEM_RECORD => "SYSTEM_RECORD"
  | THREAT_CORRELATION_RECORD => "THREAT_CORRELATION_RECORD"
  | RISK_RECOMMENDATION_RECORD => "RISK_RECOMMENDATION_RECORD"
  | ACCESS_RECOMMENDATION_RECORD => "ACCESS_RECOMMENDATION_RECORD"
  | ENFORCEMENT_DECISION_RECORD => "ENFORCEMENT_DECISION_RECORD"
  | CONFIRMED_FEEDBACK_RECORD => "CONFIRMED_FEEDBACK_RECORD"
  end.

(** [BlackboardRecordType(value)]. *)
Definition record_type_of_value (s : string) : result BlackboardRecordType :=
  match filter (λ t, record_type_value t = s) RECORD_TYPES with
  | t :: _ => Ok t
  | [] => raise ValueError (py_repr s +:+ " is not a valid BlackboardRecordType")
  end.

Lemma record_type_of_value_ok t : record_type_of_value (record_type_value t) = Ok t.
Proof. by destruct t. Qed.

#[export] Instance record_type_value_inj : Inj (=) (=) record_type_value.
Proof.
  intros t u Htu. pose proof (record_type_of_value_ok t) as Ht.
  rewrite Htu, record_type_of_value_ok in Ht. congruence.
Qed.

(** ** The record *)
Record BlackboardRecordV1 := mk_record {
  r_schema_version : string;
  r_record_id : string;
  r_record_key : string;
  r_record_type : BlackboardRecordType;
  r_record_version : Z;
  r_logical_timestamp : option string;
  r_window_id : option Z;
  r_author_id : string;
  r_source_component : string;
  r_payload : list (string * json);
  r_provenance : list (string * json);
  r_content_hash : string;
}.

#[export] Instance record_eq_dec : EqDecision BlackboardRecordV1.
Proof. solve_decision. Defined.

(** ** Scalar validators *)
Definition is_key_char (c : ascii) : bool :=
  is_alnum c || Ascii.eqb c "." || Ascii.eqb c "_" || Ascii.eqb c ":"
  || Ascii.eqb c "/" || Ascii.eqb c "-".

(** [_RECORD_KEY_RE.match(v)]: [match], not [fullmatch]. *)
Definition RECORD_KEY_RE (v : string) : bool := id_pattern is_key_char 127 true v.

Definition key_shape (v : string) : result unit :=
  check (RECORD_KEY_RE v) ValueError
    "record_key must match ^[A-Za-z0-9][A-Za-z0-9._:/-]{0,127}$".

Definition check_identifier (name value : string) : result unit :=
  if is_blank value then raise ValueError (name +:+ " must be a non-empty string")
  else check (py_len value <=? 128) ValueError (name +:+ " must be at most 128 characters").

Definition version_positive (v : Z) : result unit :=
  check (1 <=? v) ValueError "record_version must be an integer >= 1".

Definition window_non_negative (v : option Z) : result unit :=
  match v with
  | Some w => check (0 <=? w) ValueError "window_id must be an integer >= 0 when present"
  | None => Ok tt
  end.

Definition opaque_hexish (name v : string) : result unit :=
  check (negb (bool_decide (v = ""))) ValueError (name +:+ " must be a non-empty string").

Definition supported_schema (v : string) : result unit :=
  check (bool_decide (v = BLACKBOARD_RECORD_SCHEMA_VERSION)) ValueError
    ("unsupported schema_version " +:+ py_repr v).

Section contracts.
Context `{PyRuntime}.

Definition validate_utc_timestamp (ts_utc : string) : result unit :=
  let text := py_strip ts_utc in
  let n := String.length text in
  let normalized :=
    if bool_decide (String.substring (n - 1) 1 text = "Z")
    then str_take (n - 1) text +:+ "+00:00" else text in
  match fromisoformat_aware normalized with
  | None => raise ValueError ("Invalid isoformat string: " +:+ py_repr normalized)
  | Some aware => check aware ValueError "timestamp must carry an explicit UTC offset"
  end.

Definition logical_ts (v : option string) : result unit :=
  match v with Some ts => validate_utc_timestamp ts | None => Ok tt end.

(** ** Hashed projection and identity *)
Definition HASHED_FIELDS : list string :=
  ["schema_version"; "record_key"; "record_type"; "record_version";
   "logical_timestamp"; "window_id"; "author_id"; "source_component";
   "payload"; "provenance"].

Definition derive_record_id (record_key : string) (record_version : Z) (content_hash : string)
    : string :=
  record_key +:+ "#v" +:+ fmt_int record_version +:+ "#" +:+ str_take 12 content_hash.

Definition hashed_field_dict (schema_version record_key : string)
    (record_type : BlackboardRecordType) (record_version : Z)
    (logical_timestamp : option string) (window_id : option Z)
    (author_id source_component : string)
    (payload provenance : list (string * json)) : list (string * json) :=
  [("schema_version", JStr schema_version);
   ("record_key", JStr record_key);
   ("record_type", JStr (record_type_value record_type));
   ("record_version", JInt record_version);
   ("logical_timestamp", json_opt_str logical_timestamp);
   ("window_id", json_opt_int window_id);
   ("author_id", JStr author_id);
   ("source_component", JStr source_component);
   ("payload", JDict payload);
   ("provenance", JDict provenance)].

(** [{k: fields[k] for k in HASHED_FIELDS}], hashed. *)
Definition compute_content_hash (fields : list (string * json)) : result string :=
  projection ← mapM_result
    (λ k, v ← of_option (od_get k fields) KeyError (py_repr k); Ok (k, v))
    HASHED_FIELDS;
  canonical_content_hash (JDict projection).

Definition record_fields (r : BlackboardRecordV1) : list (string * json) :=
  hashed_field_dict (r_schema_version r) (r_record_key r) (r_record_type r)
    (r_record_version r) (r_logical_timestamp r) (r_window_id r) (r_author_id r)
    (r_source_component r) (r_payload r) (r_provenance r).

Definition verify_record_integrity (r : BlackboardRecordV1) : result unit :=
  expected_hash ← compute_content_hash (record_fields r);
  if decide (r_content_hash r = expected_hash) then
    let expected_id :=
      derive_record_id (r_record_key r) (r_record_version r) expected_hash in
    check (bool_decide (r_record_id r = expected_id)) RecordIntegrityError
      ("record_id mismatch: stored=" +:+ py_repr (r_record_id r) +:+ " expected="
       +:+ py_repr expected_id)
  else raise RecordIntegrityError
    ("content_hash mismatch for " +:+ py_repr (r_record_key r) +:+ ": stored="
     +:+ py_repr (r_content_hash r) +:+ " computed=" +:+ py_repr expected_hash).

(** ** Construction: field validators in declaration order, then the model
    validator. *)
Definition record_field_validators (r : BlackboardRecordV1) : list (result unit) :=
  [supported_schema (r_schema_version r);
   opaque_hexish "record_id" (r_record_id r);
   key_shape (r_record_key r);
   version_positive (r_record_version r);
   logical_ts (r_logical_timestamp r);
   window_non_negative (r_window_id r);
   check_identifier "author_id" (r_author_id r);
   check_identifier "source_component" (r_source_component r);
   assert_blackboard_firewall (JDict (r_payload r)) "payload";
   assert_blackboard_firewall (JDict (r_provenance r)) "provenance";
   opaque_hexish "content_hash" (r_content_hash r)].

Definition model_validate (r : BlackboardRecordV1) : result BlackboardRecordV1 :=
  _ ← as_validation_error (first_error (record_field_validators r));
  _ ← as_validation_error (verify_record_integrity r);
  Ok r.

(** [build_record]; [record_type] may be the enum or its text.  The constructed
    record takes the default [schema_version], the hash the argument. *)
Definition build_record (record_key : string) (record_type : BlackboardRecordType + string)
    (record_version : Z) (author_id source_component : string)
    (payload provenance : list (string * json))
    (logical_timestamp : option string) (window_id : option Z) (schema_version : string)
    : result BlackboardRecordV1 :=
  rtype ← match record_type with inl t => Ok t | inr s => record_type_of_value s end;
  let fields := hashed_field_dict schema_version record_key rtype record_version
    logical_timestamp window_id author_id source_component payload provenance in
  content_hash ←
    match compute_content_hash fields with
    | Ok h => Ok h
    | Raise e =>
        if is_value_error (exn_type e) || bool_decide (exn_type e = TypeError)
        then raise ValueError
          ("record content is not canonically serializable: " +:+ exn_msg e)
        else Raise e
    end;
  model_validate
    (mk_record BLACKBOARD_RECORD_SCHEMA_VERSION
       (derive_record_id record_key record_version content_hash)
       record_key rtype record_version logical_timestamp window_id author_id
       source_component payload provenance content_hash).

(** [record.model_dump()]. *)
Definition record_dump (r : BlackboardRecordV1) : json :=
  JDict
    [("schema_version", JStr (r_schema_version r));
     ("record_id", JStr (r_record_id r));
     ("record_key", JStr (r_record_key r));
     ("record_type", JStr (record_type_value (r_record_type r)));
     ("record_version", JInt (r_record_version r));
     ("logical_timestamp", json_opt_str (r_logical_timestamp r));
     ("window_id", json_opt_int (r_window_id r));
     ("author_id", JStr (r_author_id r));
     ("source_component", JStr (r_source_component r));
     ("payload", JDict (r_payload r));
     ("provenance", JDict (r_provenance r));
     ("content_hash", JStr (r_content_hash r))].

Definition ensure_record_size (r : BlackboardRecordV1) (max_bytes : Z) : result unit :=
  text ← canonical_json_str (record_dump r);
  let size := Z.of_nat (String.length text) in
  check (size <=? max_bytes) ValueError
    ("record canonical size " +:+ fmt_int size +:+ " exceeds limit " +:+ fmt_int max_bytes
     +:+ " bytes").

(** ** Proposal draft *)
Record BlackboardRecordDraft := mk_draft {
  d_record_key : string;
  d_record_type : BlackboardRecordType;
  d_record_version : Z;
  d_logical_timestamp : option string;
  d_window_id : option Z;
  d_author_id : string;
  d_source_component : string;
  d_payload : list (string * json);
  d_provenance : list (string * json);
}.

Definition validate_draft (d : BlackboardRecordDraft) : result BlackboardRecordDraft :=
  _ ← as_validation_error (first_error
    [key_shape (d_record_key d);
     version_positive (d_record_version d);
     logical_ts (d_logical_timestamp d);
     check_identifier "author_id" (d_author_id d);
     check_identifier "source_component" (d_source_component d);
     assert_blackboard_firewall (JDict (d_payload d)) "payload";
     assert_blackboard_firewall (JDict (d_provenance d)) "provenance"]);
  Ok d.

Definition to_record (d : BlackboardRecordDraft) : result BlackboardRecordV1 :=
  build_record (d_record_key d) (inl (d_record_type d)) (d_record_version d)
    (d_author_id d) (d_source_component d) (d_payload d) (d_provenance d)
    (d_logical_timestamp d) (d_window_id d) BLACKBOARD_RECORD_SCHEMA_VERSION.

End contracts.

(** ** Acknowledgements *)
Inductive AckStatus :=
  | ACK_PREPARED
  | ACK_COMMITTED
  | ABORTED
  | REJECT_STALE
  | REJECT_CONFLICT
  | REJECT_SCHEMA
  | REJECT_INTEGRITY
  | REJECT_AUTHORIZATION
  | UNAVAILABLE
  | STORAGE_ERROR.

#[export] Instance ack_status_eq_dec : EqDecision AckStatus.
Proof. solve_decision. Defined.

Definition ack_status_value (s : AckStatus) : string :=
  match s with
  | ACK_PREPARED => "ACK_PREPARED"
  | ACK_COMMITTED => "ACK_COMMITTED"
  | ABORTED => "ABORTED"
  | REJECT_STALE => "REJECT_STALE"
  | REJECT_CONFLICT => "REJECT_CONFLICT"
  | REJECT_SCHEMA => "REJECT_SCHEMA"
  | REJECT_INTEGRITY => "REJECT_INTEGRITY"
  | REJECT_AUTHORIZATION => "REJECT_AUTHORIZATION"
  | UNAVAILABLE => "UNAVAILABLE"
  | STORAGE_ERROR => "STORAGE_ERROR"
  end.

Record ReplicaAckV1 := mk_ack {
  a_operation_id : string;
  a_replica_id : string;
  a_operation_kind : string;
  a_ack_status : AckStatus;
  a_reason : option string;
  a_record_id : option string;
  a_record_key : option string;
  a_record_version : option Z;
  a_content_hash : option string;
  a_current_version_at_replica : option Z;
  a_logical_timestamp : option string;
  a_latency_ms : f64;
  a_observed_at_utc : string;
}.

(** ** Write results *)
Inductive WriteOutcome :=
  | COMMITTED
  | PARTIAL_COMMIT
  | REJECTED_STALE
  | REJECTED_CONFLICT
  | REJECTED_SCHEMA
  | REJECTED_AUTHORIZATION
  | FAILED_QUORUM
  | FAILED_STORAGE.

#[export] Instance write_outcome_eq_dec : EqDecision WriteOutcome.
Proof. solve_decision. Defined.

Definition write_outcome_value (o : WriteOutcome) : string :=
  match o with
  | COMMITTED => "COMMITTED"
  | PARTIAL_COMMIT => "PARTIAL_COMMIT"
  | REJECTED_STALE => "REJECTED_STALE"
  | REJECTED_CONFLICT => "REJECTED_CONFLICT"
  | REJECTED_SCHEMA => "REJECTED_SCHEMA"
  | REJECTED_AUTHORIZATION => "REJECTED_AUTHORIZATION"
  | FAILED_QUORUM => "FAILED_QUORUM"
  | FAILED_STORAGE => "FAILED_STORAGE"
  end.

Inductive ReplicationSyncState :=
  | SYNCED
  | DIVERGENT_REQUIRES_RECONCILIATION
  | NOT_PREPARED
  | SYNC_ABORTED
  | SYNC_UNAVAILABLE.

#[export] Instance sync_state_eq_dec : EqDecision ReplicationSyncState.
Proof. solve_decision. Defined.

Record WriteResultV1 := mk_write_result {
  w_operation_id : string;
  w_outcome : WriteOutcome;
  w_reason : option string;
  w_principal : string;
  w_record_id : option string;
  w_record_key : option string;
  w_record_type : option string;
  w_record_version : option Z;
  w_content_hash : option string;
  w_acks : list ReplicaAckV1;
  w_replica_sync : list (string * ReplicationSyncState);
  w_started_at_utc : string;
  w_completed_at_utc : string;
  w_duration_ms : f64;
}.

(** ** Read results *)
Inductive ReadOutcome :=
  | CONSISTENT
  | DEGRADED_CONSISTENT
  | NOT_FOUND
  | INSUFFICIENT_QUORUM
  | INCONSISTENT
  | READ_UNAVAILABLE
  | AUTHORIZATION_REJECTED.

#[export] Instance read_outcome_eq_dec : EqDecision ReadOutcome.
Proof. solve_decision. Defined.

Record ReplicaReadObservationV1 := mk_public_obs {
  po_replica_id : string;
  po_responded : bool;
  po_found : bool;
  po_record_version : option Z;
  po_content_hash : option string;
  po_detail : option string;
}.

Record ReadResultV1 := mk_read_result {
  rd_read_operation_id : string;
  rd_principal : string;
  rd_record_key : string;
  rd_requested_version : option Z;
  rd_outcome : ReadOutcome;
  rd_record : option BlackboardRecordV1;
  rd_reason : option string;
  rd_observations : list ReplicaReadObservationV1;
  rd_divergent_replicas : list string;
  rd_unavailable_replicas : list string;
  rd_duration_ms : f64;
}.

(** ** Facts *)
Section facts.
Context `{PyRuntime}.

Lemma compute_content_hash_fields sv k t v lt w a s p pv :
  let d := hashed_field_dict sv k t v lt w a s p pv in
  compute_content_hash d = canonical_content_hash (JDict d).
Proof. reflexivity. Qed.

Lemma content_hash_eq r :
  compute_content_hash (record_fields r) = canonical_content_hash (JDict (record_fields r)).
Proof. reflexivity. Qed.

Lemma verify_ok r :
  verify_record_integrity r = Ok tt ↔
  compute_content_hash (record_fields r) = Ok (r_content_hash r) ∧
  r_record_id r = derive_record_id (r_record_key r) (r_record_version r) (r_content_hash r).
Proof.
  unfold verify_record_integrity. destruct (compute_content_hash _) as [h|e]; cbn.
  - case_decide as Hh; [subst h |].
    + rewrite check_ok, bool_decide_eq_true. naive_solver.
    + naive_solver.
  - naive_solver.
Qed.

Lemma model_validate_ok r r' :
  model_validate r = Ok r' ↔
  r' = r ∧ Forall (λ c, c = Ok tt) (record_field_validators r) ∧
  verify_record_integrity r = Ok tt.
Proof.
  unfold model_validate, as_validation_error, raise. rewrite <-first_error_ok.
  destruct (first_error _) as [[]|e], (verify_record_integrity r) as [[]|e']; cbn;
    repeat destruct (is_value_error _); cbn; naive_solver.
Qed.

Lemma build_record_ok k t v a s p pv lt w sv r :
  build_record k (inl t) v a s p pv lt w sv = Ok r →
  record_fields r = hashed_field_dict BLACKBOARD_RECORD_SCHEMA_VERSION k t v lt w a s p pv ∧
  Forall (λ c, c = Ok tt) (record_field_validators r) ∧
  verify_record_integrity r = Ok tt.
Proof.
  unfold build_record. rewrite result_bind_ok. intros (? & [= <-] & Hb).
  rewrite result_bind_ok in Hb. destruct Hb as (h & _ & (-> & Hf & Hv)%model_validate_ok).
  done.
Qed.

Lemma to_record_fields d r :
  to_record d = Ok r →
  r_record_key r = d_record_key d ∧ r_record_version r = d_record_version d ∧
  r_payload r = d_payload d ∧ r_provenance r = d_provenance d.
Proof.
  intros (Hf & _ & _)%build_record_ok. unfold record_fields, hashed_field_dict in Hf.
  by injection Hf.
Qed.

(** A record whose payload and provenance are dictionaries that print
    faithfully. *)
Definition record_json_ok (r : BlackboardRecordV1) : bool :=
  json_wf (JDict (r_payload r)) && json_wf (JDict (r_provenance r)) &&
  json_floats_ok (JDict (r_payload r)) && json_floats_ok (JDict (r_provenance r)).

Lemma record_fields_wf r : record_json_ok r = true → json_wf (JDict (record_fields r)) = true.
Proof.
  unfold record_json_ok. rewrite !andb_true_iff. intros [[[Hp Hv] _] _].
  change (bool_decide (NoDup (record_fields r).*1) &&
          forallb (λ kv, json_wf kv.2) (record_fields r) = true).
  unfold record_fields, hashed_field_dict. apply andb_true_iff. split; [done |].
  cbn [forallb snd]. rewrite Hp, Hv.
  by destruct (r_logical_timestamp r), (r_window_id r).
Qed.

Lemma record_fields_floats r :
  record_json_ok r = true → json_floats_ok (JDict (record_fields r)) = true.
Proof.
  unfold record_json_ok. rewrite !andb_true_iff. intros [[_ Hp] Hv].
  change (forallb (λ kv, json_floats_ok kv.2) (record_fields r) = true).
  unfold record_fields, hashed_field_dict. cbn [forallb snd]. rewrite Hp, Hv.
  by destruct (r_logical_timestamp r), (r_window_id r).
Qed.

End facts.
