(* ===== verification/BbStorage.v ===== *)
(** * One replica's database

    Models [blackboard/storage.py]: the three tables of a replica's SQLite file
    and the transactions on them.  A table is a finite map from its primary key
    to its row.  Every transaction returns its outcome and the new database, or
    raises; [in_transaction] is the [_Tx] context manager, which rolls back on an
    exception. *)

From S2P Require Import Prelude PyString Json.

(** ** Tables *)
Record CommittedRow := mk_row {
  cr_record_key : string;
  cr_record_version : Z;
  cr_record_id : string;
  cr_record_type : string;
  cr_schema_version : string;
  cr_logical_timestamp : option string;
  cr_window_id : option Z;
  cr_author_id : string;
  cr_source_component : string;
  cr_payload_json : string;
  cr_provenance_json : string;
  cr_content_hash : string;
  cr_operation_id : string;
  cr_committed_at_utc : string;
}.

Record PendingRow := mk_pending {
  pr_record_id : string;
  pr_content_hash : string;
  pr_operation_id : string;
  pr_record_json : string;
  pr_created_at_utc : string;
  pr_created_epoch : f64;
}.

#[export] Instance committed_row_eq_dec : EqDecision CommittedRow.
Proof. solve_decision. Defined.
#[export] Instance pending_row_eq_dec : EqDecision PendingRow.
Proof. solve_decision. Defined.

Record ReplicaDatabase := mk_db {
  db_committed : gmap (string * Z) CommittedRow;
  db_heads : gmap string Z;
  db_pending : gmap (string * Z) PendingRow;
  db_meta : gmap string string;
}.

Definition STORAGE_SCHEMA_VERSION : string := "blackboard_store_v1".

(** [_initialise] on a new file, and again on an existing one. *)
Definition initialise (replica_id : string) (db : ReplicaDatabase) : ReplicaDatabase :=
  mk_db (db_committed db) (db_heads db) (db_pending db)
    (<["replica_id" := replica_id]> (<["storage_schema" := STORAGE_SCHEMA_VERSION]> (db_meta db))).

Definition new_database (replica_id : string) : ReplicaDatabase :=
  initialise replica_id (mk_db ∅ ∅ ∅ ∅).

Inductive PrepareOutcome :=
  | PREPARED
  | PREPARED_LEASE_TAKEOVER
  | PREPARE_REJECT_STALE
  | PREPARE_REJECT_AHEAD
  | PREPARE_REJECT_CONFLICT.

#[export] Instance prepare_outcome_eq_dec : EqDecision PrepareOutcome.
Proof. solve_decision. Defined.

Record PrepareResult := mk_prepare_result {
  p_outcome : PrepareOutcome;
  p_current_version : option Z;
  p_conflicting_operation_id : option string;
}.

Inductive CommitOutcome := COMMIT_DONE | UNKNOWN_OPERATION | REFUSED_NON_FORWARD.

#[export] Instance commit_outcome_eq_dec : EqDecision CommitOutcome.
Proof. solve_decision. Defined.

Definition commit_outcome_value (o : CommitOutcome) : string :=
  match o with
  | COMMIT_DONE => "COMMITTED"
  | UNKNOWN_OPERATION => "UNKNOWN_OPERATION"
  | REFUSED_NON_FORWARD => "REFUSED_NON_FORWARD"
  end.

Inductive UpsertStatus := INSERTED | IDENTICAL | REFUSED.

#[export] Instance upsert_status_eq_dec : EqDecision UpsertStatus.
Proof. solve_decision. Defined.

Record UpsertExternalResult := mk_upsert { u_status : UpsertStatus; u_detail : option string }.

(** ** Transactions *)

(** Commit on normal exit, roll back on an exception. *)
Definition in_transaction {A} (body : ReplicaDatabase → result (A * ReplicaDatabase))
    (db : ReplicaDatabase) : result A * ReplicaDatabase :=
  match body db with
  | Ok (a, db') => (Ok a, db')
  | Raise e => (Raise e, db)
  end.

(** Binding a Python integer to an SQLite parameter. *)
Definition bind_int (z : Z) : result unit :=
  check (int64_ok z) OverflowError "Python int too large to convert to SQLite INTEGER".

Definition head_of (db : ReplicaDatabase) (record_key : string) : Z :=
  default 0 (db_heads db !! record_key).

Definition set_pending (f : gmap (string * Z) PendingRow → gmap (string * Z) PendingRow)
    (db : ReplicaDatabase) : ReplicaDatabase :=
  mk_db (db_committed db) (db_heads db) (f (db_pending db)) (db_meta db).

(** [INSERT INTO committed_records]: the primary key and the unique index on
    [record_id] refuse duplicates. *)
Definition insert_committed (row : CommittedRow) (db : ReplicaDatabase)
    : result ReplicaDatabase :=
  _ ← bind_int (cr_record_version row);
  _ ← match cr_window_id row with Some w => bind_int w | None => Ok tt end;
  let slot := (cr_record_key row, cr_record_version row) in
  if decide (is_Some (db_committed db !! slot)) then
    raise SqliteIntegrityError
      "UNIQUE constraint failed: committed_records.record_key, committed_records.record_version"
  else if decide (map_Exists (λ _ r, cr_record_id r = cr_record_id row) (db_committed db)) then
    raise SqliteIntegrityError "UNIQUE constraint failed: committed_records.record_id"
  else
    Ok (mk_db (<[slot := row]> (db_committed db)) (db_heads db) (db_pending db) (db_meta db)).

(** [INSERT INTO key_heads ... ON CONFLICT DO UPDATE]. *)
Definition upsert_head (record_key : string) (version : Z) (db : ReplicaDatabase)
    : ReplicaDatabase :=
  mk_db (db_committed db) (<[record_key := version]> (db_heads db)) (db_pending db) (db_meta db).

(** ** Reads *)
Definition get_head_version (db : ReplicaDatabase) (record_key : string) : option Z :=
  db_heads db !! record_key.

Definition get_committed_row (db : ReplicaDatabase) (record_key : string) (record_version : Z)
    : result (option CommittedRow) :=
  _ ← bind_int record_version;
  Ok (db_committed db !! (record_key, record_version)).

Definition rows_of_key (db : ReplicaDatabase) (record_key : string) : list CommittedRow :=
  filter (λ r, cr_record_key r = record_key) (map_to_list (db_committed db)).*2.

(** [ORDER BY record_version DESC LIMIT 1]. *)
Definition get_head_row (db : ReplicaDatabase) (record_key : string) : option CommittedRow :=
  head (isort (λ r s, cr_record_version s <=? cr_record_version r) (rows_of_key db record_key)).

Definition get_pending_row (db : ReplicaDatabase) (record_key : string) (record_version : Z)
    : result (option PendingRow) :=
  _ ← bind_int record_version;
  Ok (db_pending db !! (record_key, record_version)).

(** SQLite's [LIKE] on ASCII text: [%] any run, [_] any character, letters
    without case. *)
Fixpoint like_chars (p l : list ascii) : bool :=
  match p with
  | [] => match l with [] => true | _ => false end
  | c :: p' =>
      if Ascii.eqb c "%" then
        (fix any l := like_chars p' l || match l with [] => false | _ :: l => any l end) l
      else match l with
           | [] => false
           | d :: l' =>
               (Ascii.eqb c "_" || Ascii.eqb (lower_ascii c) (lower_ascii d)) && like_chars p' l'
           end
  end.

(** [record_key LIKE key_prefix || '%']. *)
Definition like_prefix (key_prefix record_key : string) : bool :=
  like_chars (chars key_prefix ++ ["%"%char]) (chars record_key).

Definition prefix_rows (db : ReplicaDatabase) (key_prefix : option string) : list CommittedRow :=
  let rows := (map_to_list (db_committed db)).*2 in
  match key_prefix with
  | None => rows
  | Some p => filter (λ r, Is_true (like_prefix p (cr_record_key r))) rows
  end.

Definition count_committed (db : ReplicaDatabase) (key_prefix : option string) : Z :=
  Z.of_nat (length (prefix_rows db key_prefix)).

Definition row_leb (r s : CommittedRow) : bool :=
  match String.compare (cr_record_key r) (cr_record_key s) with
  | Lt => true
  | Gt => false
  | Eq => cr_record_version r <=? cr_record_version s
  end.

(** Key ascending, version ascending; the limit is clamped to [[0, 10000]]. *)
Definition iter_committed_rows (db : ReplicaDatabase) (key_prefix : option string)
    (limit offset : Z) : list CommittedRow :=
  let limit := Z.max 0 (Z.min limit 10000) in
  let offset := Z.max 0 offset in
  take (Z.to_nat limit) (drop (Z.to_nat offset) (isort row_leb (prefix_rows db key_prefix))).

Definition count_pending (db : ReplicaDatabase) : Z := Z.of_nat (size (db_pending db)).

(** ** Lifecycle transitions *)

(** Compare-and-stage of one proposal. *)
Definition prepare_insert (record_key : string) (record_version : Z)
    (record_id content_hash operation_id record_json created_at_utc : string)
    (now_epoch lease_seconds : f64) (db : ReplicaDatabase)
    : result (PrepareResult * ReplicaDatabase) :=
  let head := head_of db record_key in
  let slot := (record_key, record_version) in
  let staged := mk_pending record_id content_hash operation_id record_json
                  created_at_utc now_epoch in
  if record_version <=? head then
    Ok (mk_prepare_result PREPARE_REJECT_STALE (Some head) None, db)
  else if negb (record_version =? head + 1) then
    Ok (mk_prepare_result PREPARE_REJECT_AHEAD (Some head) None, db)
  else
    _ ← bind_int record_version;
    match db_pending db !! slot with
    | Some pending =>
        if decide (pr_record_id pending = record_id) then
          let restaged := mk_pending (pr_record_id pending) (pr_content_hash pending)
                            operation_id (pr_record_json pending) created_at_utc now_epoch in
          Ok (mk_prepare_result PREPARED (Some head) None,
              set_pending (insert slot restaged) db)
        else
          let age := f_sub now_epoch (pr_created_epoch pending) in
          if f_gtb age lease_seconds then
            Ok (mk_prepare_result PREPARED_LEASE_TAKEOVER (Some head) None,
                set_pending (λ t, <[slot := staged]> (delete slot t)) db)
          else
            Ok (mk_prepare_result PREPARE_REJECT_CONFLICT (Some head)
                  (Some (pr_operation_id pending)), db)
    | None =>
        Ok (mk_prepare_result PREPARED (Some head) None, set_pending (insert slot staged) db)
    end.

(** Column values read from the staged JSON object. *)
Definition text_field (staged : list (string * json)) (k : string) : result string :=
  match od_get k staged with
  | Some (JStr s) => Ok s
  | Some _ => raise SqliteIntegrityError ("NOT NULL constraint failed: committed_records." +:+ k)
  | None => raise KeyError (py_repr k)
  end.

Definition opt_text_field (staged : list (string * json)) (k : string) : result (option string) :=
  match od_get k staged with
  | Some (JStr s) => Ok (Some s)
  | Some JNull | None => Ok None
  | Some _ => raise (OtherError "ProgrammingError") ("Error binding parameter " +:+ k)
  end.

Definition opt_int_field (staged : list (string * json)) (k : string) : result (option Z) :=
  match od_get k staged with
  | Some (JInt z) => Ok (Some z)
  | Some JNull | None => Ok None
  | Some _ => raise (OtherError "ProgrammingError") ("Error binding parameter " +:+ k)
  end.

Definition int_field (staged : list (string * json)) (k : string) : result Z :=
  match od_get k staged with
  | Some (JInt z) => Ok z
  | Some _ => raise TypeError "int() argument must be a string, a bytes-like object or a real number"
  | None => raise KeyError (py_repr k)
  end.

Definition staged_row (staged : list (string * json)) (operation_id committed_at_utc : string)
    : result CommittedRow :=
  key ← text_field staged "record_key";
  version ← int_field staged "record_version";
  record_id ← text_field staged "record_id";
  record_type ← text_field staged "record_type";
  schema_version ← text_field staged "schema_version";
  logical_timestamp ← opt_text_field staged "logical_timestamp";
  window_id ← opt_int_field staged "window_id";
  author_id ← text_field staged "author_id";
  source_component ← text_field staged "source_component";
  payload_json ← text_field staged "payload_json";
  provenance_json ← text_field staged "provenance_json";
  content_hash ← text_field staged "content_hash";
  Ok (mk_row key version record_id record_type schema_version logical_timestamp window_id
        author_id source_component payload_json provenance_json content_hash
        operation_id committed_at_utc).

Section storage.
Context `{PyRuntime}.

(** [json.loads(pending["record_json"])] as a dictionary. *)
Definition load_staged (record_json : string) : result (list (string * json)) :=
  v ← json_loads record_json;
  match v with
  | JDict d => Ok d
  | _ => raise TypeError "list indices must be integers or slices, not str"
  end.

(** Move a prepared proposal into committed state. *)
Definition commit_promote (record_key : string) (record_version : Z)
    (record_id operation_id committed_at_utc : string) (db : ReplicaDatabase)
    : result (CommitOutcome * ReplicaDatabase) :=
  let slot := (record_key, record_version) in
  _ ← bind_int record_version;
  match db_pending db !! slot with
  | None => Ok (UNKNOWN_OPERATION, db)
  | Some pending =>
      if negb (bool_decide (pr_operation_id pending = operation_id))
         || negb (bool_decide (pr_record_id pending = record_id))
      then Ok (UNKNOWN_OPERATION, db)
      else if negb (record_version =? head_of db record_key + 1)
      then Ok (REFUSED_NON_FORWARD, db)
      else
        staged ← load_staged (pr_record_json pending);
        let db := set_pending (delete slot) db in
        row ← staged_row staged operation_id committed_at_utc;
        db ← insert_committed row db;
        Ok (COMMIT_DONE, upsert_head record_key record_version db)
  end.

(** Remove a pending proposal; with an operation id, only that operation's. *)
Definition abort_pending (record_key : string) (record_version : Z)
    (operation_id : option string) (db : ReplicaDatabase) : result (bool * ReplicaDatabase) :=
  let slot := (record_key, record_version) in
  _ ← bind_int record_version;
  match db_pending db !! slot with
  | None => Ok (false, db)
  | Some pending =>
      let mine := match operation_id with
                  | None => true
                  | Some op => bool_decide (pr_operation_id pending = op)
                  end in
      if mine then Ok (true, set_pending (delete slot) db) else Ok (false, db)
  end.

(** Explicit repair: absent or identical, and strictly forward. *)
Definition upsert_committed_external (record_values : CommittedRow) (db : ReplicaDatabase)
    : result (UpsertExternalResult * ReplicaDatabase) :=
  let key := cr_record_key record_values in
  let version := cr_record_version record_values in
  _ ← bind_int version;
  match db_committed db !! (key, version) with
  | Some existing =>
      if decide (cr_record_id existing = cr_record_id record_values)
      then Ok (mk_upsert IDENTICAL None, db)
      else Ok (mk_upsert REFUSED (Some "different content already committed at slot"), db)
  | None =>
      let head := head_of db key in
      if negb (version =? head + 1) then
        Ok (mk_upsert REFUSED
              (Some ("non-forward insert (local head=" +:+ fmt_int head +:+ ")")), db)
      else
        db ← insert_committed record_values db;
        Ok (mk_upsert INSERTED None,
            set_pending (delete (key, version)) (upsert_head key version db))
  end.

End storage.
