(* ===== verification/BbStorageFacts.v ===== *)
(** * Facts about one replica's database

    The well-formedness invariant of [BbStorage.ReplicaDatabase], the
    append-only log it refines, and the lemmas the replica and the coordinator
    use about each transaction. *)

From S2P Require Import Prelude PyString Json BbStorage.

Section facts.
Context `{PyRuntime}.

(** ** Invariant *)

(** The staged JSON of a pending row is the JSON of the slot it waits for. *)
Definition staged_matches (k : string) (v : Z) (record_id content_hash record_json : string)
    : Prop :=
  ∃ d, load_staged record_json = Ok d ∧
    text_field d "record_key" = Ok k ∧ int_field d "record_version" = Ok v ∧
    text_field d "record_id" = Ok record_id ∧ text_field d "content_hash" = Ok content_hash.

Record db_wf (db : ReplicaDatabase) : Prop := {
  wf_slot k v r : db_committed db !! (k, v) = Some r →
    cr_record_key r = k ∧ cr_record_version r = v;
  wf_dense k v : is_Some (db_committed db !! (k, v)) ↔ 1 ≤ v ≤ head_of db k;
  wf_head k h : db_heads db !! k = Some h → 1 ≤ h;
  wf_pending k v p : db_pending db !! (k, v) = Some p →
    v = head_of db k + 1 ∧
    staged_matches k v (pr_record_id p) (pr_content_hash p) (pr_record_json p);
}.

Lemma head_of_nonneg db k : db_wf db → 0 ≤ head_of db k.
Proof.
  intros Hwf. unfold head_of. destruct (db_heads db !! k) eqn:Hh; cbn; [|done].
  apply (wf_head _ Hwf) in Hh. lia.
Qed.

Lemma new_database_wf replica_id : db_wf (new_database replica_id).
Proof.
  constructor; unfold head_of; cbn; try (intros *; by rewrite lookup_empty).
  intros k v. rewrite !lookup_empty; cbn. split; [by intros [] | lia].
Qed.

(** ** The abstract log of a key: its committed rows in version order *)
Definition key_log (db : ReplicaDatabase) (k : string) : list CommittedRow :=
  omap (λ v, db_committed db !! (k, v)) (seqZ 1 (head_of db k)).

(** What a transaction may do to the logs: nothing, or append one row. *)
Definition log_same (db db' : ReplicaDatabase) : Prop :=
  db_committed db' = db_committed db ∧ db_heads db' = db_heads db.

Definition log_appends (r : CommittedRow) (db db' : ReplicaDatabase) : Prop :=
  cr_record_version r = head_of db (cr_record_key r) + 1 ∧
  db_committed db' = <[(cr_record_key r, cr_record_version r) := r]> (db_committed db) ∧
  db_heads db' = <[cr_record_key r := cr_record_version r]> (db_heads db).

Lemma log_same_refl db : log_same db db.
Proof. done. Qed.

Lemma log_same_head db db' k : log_same db db' → head_of db' k = head_of db k.
Proof. intros [_ Hh]. unfold head_of. by rewrite Hh. Qed.

Lemma log_appends_head r db db' k :
  log_appends r db db' →
  head_of db' k = if decide (k = cr_record_key r) then head_of db k + 1 else head_of db k.
Proof.
  intros (Hv & _ & Hh). unfold head_of in *. rewrite Hh.
  case_decide as Hk; [subst k; by rewrite lookup_insert_eq; cbn |].
  by rewrite lookup_insert_ne.
Qed.

Lemma key_log_same db db' k : log_same db db' → key_log db' k = key_log db k.
Proof.
  intros Hs. unfold key_log. rewrite (log_same_head _ _ _ Hs). by destruct Hs as [-> _].
Qed.

Lemma seqZ_snoc m n : 0 ≤ n → seqZ m (n + 1) = seqZ m n ++ [m + n].
Proof.
  intros. by rewrite seqZ_app by lia.
Qed.

Lemma key_log_appends r db db' k :
  db_wf db → log_appends r db db' →
  key_log db' k = key_log db k ++ (if decide (k = cr_record_key r) then [r] else []).
Proof.
  intros Hwf Ha. unfold key_log. rewrite (log_appends_head _ _ _ _ Ha).
  destruct Ha as (Hv & -> & _). case_decide as Hk.
  - subst k. rewrite seqZ_snoc by (by apply head_of_nonneg). rewrite omap_app. f_equal.
    + apply list_omap_ext, Forall2_same_length_lookup_2; [done |].
      intros i x y Hx Hy. rewrite Hx in Hy. injection Hy as <-.
      apply list_elem_of_lookup_2, elem_of_seqZ in Hx.
      apply lookup_insert_ne. intros [= ?]. lia.
    + cbn. rewrite (Z.add_comm 1), <-Hv, lookup_insert_eq. done.
  - rewrite app_nil_r. apply list_omap_ext, Forall2_same_length_lookup_2; [done |].
    intros i x y Hx Hy. rewrite Hx in Hy. injection Hy as <-.
    apply lookup_insert_ne. intros [= ?]. done.
Qed.

Lemma key_log_length db k : db_wf db → length (key_log db k) = Z.to_nat (head_of db k).
Proof.
  intros Hwf. unfold key_log.
  assert (Hall : Forall (λ v, is_Some (db_committed db !! (k, v))) (seqZ 1 (head_of db k))).
  { apply Forall_forall. intros v [? ?]%elem_of_seqZ. apply (wf_dense _ Hwf). lia. }
  rewrite <-(length_seqZ 1 (head_of db k)).
  induction Hall as [|v l [r Hr] _ IH]; cbn; [done |]. rewrite Hr; cbn. by f_equal.
Qed.

(** ** Transactions *)
Lemma bind_int_ok z u : bind_int z = Ok u ↔ int64_ok z = true.
Proof. apply check_ok. Qed.

Lemma insert_committed_ok row db db' :
  insert_committed row db = Ok db' →
  db_committed db !! (cr_record_key row, cr_record_version row) = None ∧
  map_Forall (λ _ r, cr_record_id r ≠ cr_record_id row) (db_committed db) ∧
  int64_ok (cr_record_version row) = true ∧
  db' = mk_db (<[(cr_record_key row, cr_record_version row) := row]> (db_committed db))
    (db_heads db) (db_pending db) (db_meta db).
Proof.
  unfold insert_committed. rewrite result_bind_ok. intros (u & Hb%bind_int_ok & Hi).
  rewrite result_bind_ok in Hi. destruct Hi as (? & _ & Hi).
  case_decide as Hs; [done |]. case_decide as Hu; [done |]. injection Hi as <-.
  rewrite <-eq_None_not_Some in Hs. split_and!; try done.
  intros i r Hr Hid. apply Hu. by exists i, r.
Qed.

(** Any pending-table change that keeps [wf_pending] keeps the invariant. *)
Lemma set_pending_wf f db :
  db_wf db →
  (∀ k v p, f (db_pending db) !! (k, v) = Some p →
    v = head_of db k + 1 ∧
    staged_matches k v (pr_record_id p) (pr_content_hash p) (pr_record_json p)) →
  db_wf (set_pending f db).
Proof. intros [] Hp. by constructor. Qed.

Lemma delete_pending_wf slot db : db_wf db → db_wf (set_pending (delete slot) db).
Proof.
  intros Hwf. apply set_pending_wf; [done |].
  intros k v p [_ Hp]%lookup_delete_Some. by apply (wf_pending _ Hwf).
Qed.

Lemma insert_pending_wf k v p db :
  db_wf db → v = head_of db k + 1 →
  staged_matches k v (pr_record_id p) (pr_content_hash p) (pr_record_json p) →
  db_wf (set_pending (insert (k, v) p) db).
Proof.
  intros Hwf Hv Hm. apply set_pending_wf; [done |].
  intros k' v' p' [[[= <- <-] <-]|[_ Hp]]%lookup_insert_Some; [done |].
  by apply (wf_pending _ Hwf).
Qed.

(** Appending a row to the log of its key and clearing its pending slot. *)
Lemma append_wf r db db' :
  db_wf db → log_appends r db db' →
  db_pending db' = delete (cr_record_key r, cr_record_version r) (db_pending db) →
  db_wf db'.
Proof.
  intros Hwf Ha Hp. pose proof (log_appends_head _ _ _ (cr_record_key r) Ha) as Hhd.
  rewrite decide_True in Hhd by done.
  pose proof (head_of_nonneg _ (cr_record_key r) Hwf) as Hnn.
  destruct (Ha) as (Hv & Hc & Hh). constructor.
  - intros k v r'. rewrite Hc. intros [[[= <- <-] <-]|[_ Hr]]%lookup_insert_Some; [done |].
    by apply (wf_slot _ Hwf).
  - intros k v. rewrite Hc, (log_appends_head _ _ _ _ Ha).
    destruct (decide ((cr_record_key r, cr_record_version r) = (k, v))) as [[= <- <-]|Hne].
    + rewrite lookup_insert_eq, decide_True by done. split; [lia | by eexists].
    + rewrite lookup_insert_ne by done. rewrite (wf_dense _ Hwf).
      case_decide as Hk; [|done]. subst k.
      assert (v ≠ cr_record_version r) by congruence. lia.
  - intros k h. rewrite Hh. intros [[<- <-]|[_ Hk]]%lookup_insert_Some; [lia |].
    by apply (wf_head _ Hwf) in Hk.
  - intros k v p. rewrite Hp. intros [Hne Hk]%lookup_delete_Some.
    apply (wf_pending _ Hwf) in Hk as [-> Hm]. split; [|done].
    rewrite (log_appends_head _ _ _ _ Ha). case_decide; [|done]. subst k. congruence.
Qed.

(** *** [prepare_insert] *)
Lemma prepare_insert_same k v id h op rj at_utc now lease db out db' :
  prepare_insert k v id h op rj at_utc now lease db = Ok (out, db') → log_same db db'.
Proof.
  unfold prepare_insert. repeat case_match; cbn; try (intros; simplify_eq; done).
  all: rewrite result_bind_ok; intros (? & _ & Hr); by simplify_eq.
Qed.

Lemma prepare_insert_wf k v id h op rj at_utc now lease db out db' :
  db_wf db → staged_matches k v id h rj →
  prepare_insert k v id h op rj at_utc now lease db = Ok (out, db') → db_wf db'.
Proof.
  intros Hwf Hm. unfold prepare_insert.
  destruct (v <=? _) eqn:Hle; [intros; by simplify_eq |].
  destruct (v =? _) eqn:Heq; cbn; [|intros; by simplify_eq].
  apply Z.eqb_eq in Heq. rewrite result_bind_ok. intros (? & _ & Hr). revert Hr.
  destruct (db_pending db !! (k, v)) as [p|] eqn:Hp.
  - pose proof (wf_pending _ Hwf _ _ _ Hp) as [_ Hpm]. repeat case_match; intros; simplify_eq.
    + by apply insert_pending_wf.
    + apply set_pending_wf; [done |].
      intros k' v' p' [[[= <- <-] <-]|[_ Hp']]%lookup_insert_Some; [done |].
      apply lookup_delete_Some in Hp' as [_ ?]. by apply (wf_pending _ Hwf).
    + done.
  - intros [= <- <-]. by apply insert_pending_wf.
Qed.

(** A prepared slot holds exactly this operation and record id. *)
Lemma prepare_insert_prepared k v id h op rj at_utc now lease db out db' :
  prepare_insert k v id h op rj at_utc now lease db = Ok (out, db') →
  p_outcome out = PREPARED ∨ p_outcome out = PREPARED_LEASE_TAKEOVER →
  v = head_of db k + 1 ∧
  ∃ p, db_pending db' !! (k, v) = Some p ∧ pr_operation_id p = op ∧ pr_record_id p = id.
Proof.
  unfold prepare_insert.
  destruct (v <=? _) eqn:Hle; [by intros [= <- _] [] |].
  destruct (v =? _) eqn:Heq; cbn; [|by intros [= <- _] []].
  apply Z.eqb_eq in Heq. rewrite result_bind_ok. intros (? & _ & Hr) Ho. split; [done |].
  destruct (db_pending db !! (k, v)) as [p|]; [case_decide; [|case_match]|];
    simplify_eq; cbn in *; try (by destruct Ho);
    eexists; rewrite lookup_insert_eq; by split_and!.
Qed.

(** *** [commit_promote] *)
Lemma staged_row_fields d op at_utc row :
  staged_row d op at_utc = Ok row →
  text_field d "record_key" = Ok (cr_record_key row) ∧
  int_field d "record_version" = Ok (cr_record_version row) ∧
  text_field d "record_id" = Ok (cr_record_id row) ∧
  text_field d "content_hash" = Ok (cr_content_hash row) ∧
  cr_operation_id row = op ∧ cr_committed_at_utc row = at_utc.
Proof.
  unfold staged_row. intros Hs.
  repeat (rewrite result_bind_ok in Hs; destruct Hs as (? & ? & Hs)).
  injection Hs as <-. cbn. by split_and!.
Qed.

Lemma commit_promote_done k v id op at_utc db db' :
  db_wf db →
  commit_promote k v id op at_utc db = Ok (COMMIT_DONE, db') →
  ∃ p d row, db_pending db !! (k, v) = Some p ∧ pr_operation_id p = op ∧ pr_record_id p = id ∧
    load_staged (pr_record_json p) = Ok d ∧ staged_row d op at_utc = Ok row ∧
    cr_record_key row = k ∧ cr_record_version row = v ∧ cr_record_id row = id ∧
    cr_content_hash row = pr_content_hash p ∧
    log_appends row db db' ∧ db_pending db' = delete (k, v) (db_pending db).
Proof.
  intros Hwf. unfold commit_promote. rewrite result_bind_ok. intros (? & _ & Hc).
  destruct (db_pending db !! (k, v)) as [p|] eqn:Hp; [|done].
  destruct (_ || _) eqn:Hne; [done |].
  apply orb_false_iff in Hne as
    [Hop%negb_false_iff%bool_decide_eq_true Hid%negb_false_iff%bool_decide_eq_true].
  destruct (v =? _) eqn:Hv; cbn in Hc; [|done]. apply Z.eqb_eq in Hv.
  rewrite result_bind_ok in Hc. destruct Hc as (d & Hd & Hc).
  rewrite result_bind_ok in Hc. destruct Hc as (row & Hrow & Hc).
  rewrite result_bind_ok in Hc. destruct Hc as (db1 & Hi & Hc). injection Hc as <-.
  pose proof (wf_pending _ Hwf _ _ _ Hp) as [_ (d' & Hd' & Hk' & Hv' & Hid' & Hh')].
  assert (d' = d) as -> by congruence.
  destruct (staged_row_fields _ _ _ _ Hrow) as (Hk & Hvv & Hi' & Hh & Ho & _).
  assert (cr_record_key row = k) as Ek by congruence.
  assert (cr_record_version row = v) as Ev by congruence.
  apply insert_committed_ok in Hi as (_ & _ & _ & ->).
  exists p, d, row. split_and!; try congruence; [|done].
  unfold log_appends; cbn. by rewrite Ek, Ev.
Qed.

Lemma commit_promote_other k v id op at_utc db out db' :
  commit_promote k v id op at_utc db = Ok (out, db') → out ≠ COMMIT_DONE → db' = db.
Proof.
  unfold commit_promote. rewrite result_bind_ok. intros (? & _ & Hc) Ho.
  repeat case_match; simplify_eq; try done.
  rewrite result_bind_ok in Hc. destruct Hc as (d & _ & Hc).
  rewrite result_bind_ok in Hc. destruct Hc as (row & _ & Hc).
  rewrite result_bind_ok in Hc. destruct Hc as (db1 & _ & Hc). by simplify_eq.
Qed.

(** *** [abort_pending] *)
Lemma abort_pending_spec k v op db removed db' :
  abort_pending k v op db = Ok (removed, db') →
  log_same db db' ∧
  (if removed then
     db_pending db' = delete (k, v) (db_pending db) ∧
     ∃ p, db_pending db !! (k, v) = Some p ∧
       match op with None => True | Some o => pr_operation_id p = o end
   else db' = db).
Proof.
  unfold abort_pending. rewrite result_bind_ok. intros (? & _ & Hc).
  destruct (db_pending db !! (k, v)) as [p|] eqn:Hp; [|by simplify_eq].
  destruct op as [o|]; [case_bool_decide|]; simplify_eq; try done;
    (split; [done |]; split; [done | by eexists]).
Qed.

Lemma abort_pending_wf k v op db removed db' :
  db_wf db → abort_pending k v op db = Ok (removed, db') → db_wf db'.
Proof.
  intros Hwf. unfold abort_pending. rewrite result_bind_ok. intros (? & _ & Hc).
  repeat case_match; simplify_eq; eauto using delete_pending_wf.
Qed.

(** *** [upsert_committed_external] *)
Lemma upsert_inserted row db db' out :
  upsert_committed_external row db = Ok (out, db') → u_status out = INSERTED →
  log_appends row db db' ∧
  db_pending db' = delete (cr_record_key row, cr_record_version row) (db_pending db).
Proof.
  unfold upsert_committed_external. rewrite result_bind_ok. intros (? & _ & Hc) Hs.
  repeat case_match; simplify_eq; try done.
  match goal with H : negb _ = false |- _ => apply negb_false_iff, Z.eqb_eq in H as Hv end.
  rewrite result_bind_ok in Hc. destruct Hc as (db1 & Hi & Hc). injection Hc as <- <-.
  apply insert_committed_ok in Hi as (_ & _ & _ & ->). by split_and!.
Qed.

Lemma upsert_not_inserted row db db' out :
  upsert_committed_external row db = Ok (out, db') → u_status out ≠ INSERTED →
  db' = db ∧ (u_status out = IDENTICAL → ∃ r,
    db_committed db !! (cr_record_key row, cr_record_version row) = Some r ∧
    cr_record_id r = cr_record_id row).
Proof.
  unfold upsert_committed_external. rewrite result_bind_ok. intros (? & _ & Hc) Hs.
  repeat case_match; simplify_eq; cbn; try by eauto.
  rewrite result_bind_ok in Hc. destruct Hc as (db1 & Hi & Hc). by simplify_eq.
Qed.

(** ** Reads *)
Lemma elem_of_rows_of_key db k r :
  db_wf db →
  r ∈ rows_of_key db k ↔ db_committed db !! (k, cr_record_version r) = Some r.
Proof.
  intros Hwf. unfold rows_of_key. rewrite list_elem_of_filter, list_elem_of_fmap. split.
  - intros (Hk & [[k' v] r'] & -> & Hin%elem_of_map_to_list). cbn in *.
    destruct (wf_slot _ Hwf _ _ _ Hin) as [Hk' Hv]. by rewrite Hv, <-Hk, Hk'.
  - intros Hr. destruct (wf_slot _ Hwf _ _ _ Hr) as [Hk _]. split; [done |].
    exists ((k, cr_record_version r), r). by rewrite elem_of_map_to_list.
Qed.

(** [ORDER BY record_version DESC LIMIT 1] agrees with the heads table. *)
Lemma get_head_row_committed db k :
  db_wf db → get_head_row db k = db_committed db !! (k, head_of db k).
Proof.
  intros Hwf. unfold get_head_row.
  assert (Htot : ∀ r s, (cr_record_version s <=? cr_record_version r) = true ∨
                        (cr_record_version r <=? cr_record_version s) = true)
    by (intros; rewrite !Z.leb_le; lia).
  assert (Htr : ∀ r s t, (cr_record_version s <=? cr_record_version r) = true →
                         (cr_record_version t <=? cr_record_version s) = true →
                         (cr_record_version t <=? cr_record_version r) = true)
    by (intros *; rewrite !Z.leb_le; lia).
  destruct (head (isort _ _)) as [r|] eqn:Hh.
  - apply isort_head in Hh as [Hin Hmax]; [|done..].
    apply (elem_of_rows_of_key _ _ _ Hwf) in Hin.
    assert (Hb : 1 ≤ cr_record_version r ≤ head_of db k)
      by (apply (wf_dense _ Hwf); by eexists).
    assert (is_Some (db_committed db !! (k, head_of db k))) as [r' Hr']
      by (apply (wf_dense _ Hwf); lia).
    destruct (wf_slot _ Hwf _ _ _ Hr') as [_ Hv'].
    assert (r' ∈ rows_of_key db k) as Hin'
      by (apply (elem_of_rows_of_key _ _ _ Hwf); by rewrite Hv').
    destruct (Hmax _ Hin') as [Hle%Z.leb_le|Heq]; [|congruence].
    assert (cr_record_version r = head_of db k) as Heq by lia. by rewrite <-Heq, Hin.
  - apply isort_head_None in Hh. destruct (db_committed db !! _) as [r|] eqn:Hr; [|done].
    destruct (wf_slot _ Hwf _ _ _ Hr) as [_ Hv].
    assert (r ∈ rows_of_key db k) as Hin
      by (apply (elem_of_rows_of_key _ _ _ Hwf); by rewrite Hv).
    rewrite Hh in Hin. set_solver.
Qed.

End facts.

Create HintDb bb_store.
#[export] Hint Resolve new_database_wf delete_pending_wf log_same_refl : bb_store.
