(* ===== verification/BbAuthorization.v ===== *)
(** * Blackboard authorization, settings and hooks

    Models [blackboard/authorization.py] (the [Authorizer] protocol and its two
    implementations), [blackboard/settings.py] and [blackboard/hooks.py] (the
    seams through which an evaluation harness may fail an operation or
    substitute a record at one replica). *)

From S2P Require Import Prelude PyString Json BbContracts.

(** ** Authorization *)
Inductive BlackboardOperation := OP_READ | OP_WRITE.

#[export] Instance blackboard_operation_eq_dec : EqDecision BlackboardOperation.
Proof. solve_decision. Defined.

Definition blackboard_operation_value (o : BlackboardOperation) : string :=
  match o with OP_READ => "READ" | OP_WRITE => "WRITE" end.

Record AuthzRequest := mk_authz_request {
  rq_principal : string;
  rq_operation : BlackboardOperation;
  rq_record_type : option string;
  rq_record_key : option string;
}.

Record AuthorizationDecision := mk_decision {
  dc_allowed : bool;
  dc_policy_id : string;
  dc_reason : string;
}.

(** The [Authorizer] protocol: an injected policy, which may itself raise. *)
Class Authorizer (A : Type) := decide_request : A → AuthzRequest → result AuthorizationDecision.

Definition ALLOW_ALL_POLICY_ID : string := "allow_all_dev_v1".
Definition PRINCIPAL_POLICY_ID : string := "principal_policy_v1".

Inductive AllowAllDevelopmentAuthorizer := AllowAll.

Definition allow_all_decide (request : AuthzRequest) : AuthorizationDecision :=
  mk_decision true ALLOW_ALL_POLICY_ID "development default policy allows all operations".

#[export] Instance allow_all_authorizer : Authorizer AllowAllDevelopmentAuthorizer :=
  λ _ request, Ok (allow_all_decide request).

Record PrincipalPolicyAuthorizer := mk_principal_policy {
  pp_grants : gmap string (list BlackboardOperation);
}.

Definition principal_decide (self : PrincipalPolicyAuthorizer) (request : AuthzRequest)
    : AuthorizationDecision :=
  match pp_grants self !! rq_principal request with
  | None => mk_decision false PRINCIPAL_POLICY_ID
      ("unknown principal " +:+ py_repr (rq_principal request))
  | Some ops =>
      if decide (rq_operation request ∈ ops)
      then mk_decision true PRINCIPAL_POLICY_ID "principal grants satisfied"
      else mk_decision false PRINCIPAL_POLICY_ID
        ("principal " +:+ py_repr (rq_principal request) +:+ " lacks "
         +:+ blackboard_operation_value (rq_operation request) +:+ " permission")
  end.

#[export] Instance principal_authorizer : Authorizer PrincipalPolicyAuthorizer :=
  λ self request, Ok (principal_decide self request).

Lemma principal_decide_allowed self request :
  dc_allowed (principal_decide self request) = true ↔
  ∃ ops, pp_grants self !! rq_principal request = Some ops ∧ rq_operation request ∈ ops.
Proof.
  unfold principal_decide. destruct (pp_grants self !! _) as [ops|]; [|naive_solver].
  case_decide; naive_solver.
Qed.

(** ** Settings *)
Definition DEFAULT_REPLICA_IDS : list string := ["replica_a"; "replica_b"; "replica_c"].

Record BlackboardSettings := mk_settings {
  max_record_canonical_bytes : Z;
  recent_operations_limit : Z;
  recent_rejections_limit : Z;
  latency_samples_limit : Z;
  pending_lease_seconds : f64;
  quorum_size : Z;
  committed_scan_max_rows : Z;
  committed_scan_chunk_size : Z;
}.

Definition default_settings : BlackboardSettings :=
  mk_settings 262144 256 64 512 (f_of_Z 300) 2 10000 1000.

(** [__post_init__]. *)
Definition settings_post_init (s : BlackboardSettings) : result BlackboardSettings :=
  _ ← check (1 <=? max_record_canonical_bytes s) ValueError
        "max_record_canonical_bytes must be >= 1";
  _ ← check (1 <=? recent_operations_limit s) ValueError "recent_operations_limit must be >= 1";
  _ ← check (1 <=? recent_rejections_limit s) ValueError "recent_rejections_limit must be >= 1";
  _ ← check (1 <=? latency_samples_limit s) ValueError "latency_samples_limit must be >= 1";
  _ ← check (negb (f_leb (pending_lease_seconds s) f_zero)) ValueError
        "pending_lease_seconds must be > 0";
  _ ← check (1 <=? quorum_size s) ValueError "quorum_size must be >= 1";
  _ ← check (1 <=? committed_scan_max_rows s) ValueError "committed_scan_max_rows must be >= 1";
  _ ← check (1 <=? committed_scan_chunk_size s) ValueError "committed_scan_chunk_size must be >= 1";
  Ok s.

(** ** Fault hooks *)
Inductive HookPoint := BLACKBOARD_WRITE | BLACKBOARD_READ | REPLICA_WRITE.
Inductive ReplicaOperationKind := PREPARE | COMMIT | ABORT | EXTERNAL_UPSERT | READ.

#[export] Instance operation_kind_eq_dec : EqDecision ReplicaOperationKind.
Proof. solve_decision. Defined.

Definition operation_kind_value (k : ReplicaOperationKind) : string :=
  match k with
  | PREPARE => "PREPARE"
  | COMMIT => "COMMIT"
  | ABORT => "ABORT"
  | EXTERNAL_UPSERT => "EXTERNAL_UPSERT"
  | READ => "READ"
  end.

Record HookContext := mk_hook_context {
  hc_hook_point : HookPoint;
  hc_operation_id : option string;
  hc_replica_id : option string;
  hc_operation_kind : option ReplicaOperationKind;
  hc_principal : option string;
  hc_record_key : option string;
  hc_record_id : option string;
}.

(** What [intercept_record] returns: [None], a record, or another object. *)
Inductive Substitute :=
  | NoSubstitute
  | SubstituteRecord (record : BlackboardRecordV1)
  | SubstituteOther.

Record BlackboardFaultHooks := mk_hooks {
  observe : HookContext → result unit;
  intercept_record : HookContext → BlackboardRecordV1 → result Substitute;
}.

Definition PassThroughHooks : BlackboardFaultHooks :=
  mk_hooks (λ _, Ok tt) (λ _ _, Ok NoSubstitute).
