(* ===== verification/BbReplica.v ===== *)
(** * One independent replica

    Models [blackboard/replica.py]: the storage projection of a record and its
    inverse [row_to_record], and the replica state machine with its four
    lifecycle operations.  Everything a call takes from outside the replica
    (hooks, clock, a fault of the storage engine) is its [CallEnv]. *)

From S2P Require Import Prelude PyString Json Firewall BbContracts BbStorage BbAuthorization.

Definition DEFAULT_MAX_RECORD_BYTES : Z := 262144.

(** ** Storage projection *)
Section projection.
Context `{PyRuntime}.

Definition full_record_fields (record : BlackboardRecordV1)
    (payload_json provenance_json : string) : list (string * json) :=
  [("schema_version", JStr (r_schema_version record));
   ("record_id", JStr (r_record_id record));
   ("record_key", JStr (r_record_key record));
   ("record_type", JStr (record_type_value (r_record_type record)));
   ("record_version", JInt (r_record_version record));
   ("logical_timestamp", json_opt_str (r_logical_timestamp record));
   ("window_id", json_opt_int (r_window_id record));
   ("author_id", JStr (r_author_id record));
   ("source_component", JStr (r_source_component record));
   ("payload_json", JStr payload_json);
   ("provenance_json", JStr provenance_json);
   ("content_hash", JStr (r_content_hash record))].

Definition full_record_json (record : BlackboardRecordV1) : result string :=
  payload_json ← canonical_json_str (JDict (r_payload record));
  provenance_json ← canonical_json_str (JDict (r_provenance record));
  canonical_json_str (JDict (full_record_fields record payload_json provenance_json)).

(** The columns, and the full-record JSON [record_json]. *)
Definition record_to_storage_values (record : BlackboardRecordV1)
    (operation_id committed_at_utc : string) : result (CommittedRow * string) :=
  payload_json ← canonical_json_str (JDict (r_payload record));
  provenance_json ← canonical_json_str (JDict (r_provenance record));
  record_json ← full_record_json record;
  Ok (mk_row (r_record_key record) (r_record_version record) (r_record_id record)
        (record_type_value (r_record_type record)) (r_schema_version record)
        (r_logical_timestamp record) (r_window_id record) (r_author_id record)
        (r_source_component record) payload_json provenance_json (r_content_hash record)
        operation_id committed_at_utc, record_json).

(** [json.loads] of a column that pydantic then requires to be a dictionary. *)
Definition loads_dict (field text : string) : result (list (string * json)) :=
  v ← json_loads text;
  match v with
  | JDict d => Ok d
  | _ => raise ValidationError (field +:+ ": Input should be a valid dictionary")
  end.

Definition row_to_record (row : CommittedRow) : result BlackboardRecordV1 :=
  payload ← loads_dict "payload" (cr_payload_json row);
  provenance ← loads_dict "provenance" (cr_provenance_json row);
  record_type ←
    match record_type_of_value (cr_record_type row) with
    | Ok t => Ok t
    | Raise e => raise ValidationError (exn_msg e)
    end;
  record ← model_validate
    (mk_record (cr_schema_version row) (cr_record_id row) (cr_record_key row) record_type
       (cr_record_version row) (cr_logical_timestamp row) (cr_window_id row)
       (cr_author_id row) (cr_source_component row) payload provenance (cr_content_hash row));
  payload_text ← canonical_json_str (JDict payload);
  provenance_text ← canonical_json_str (JDict provenance);
  if bool_decide (payload_text = cr_payload_json row)
     && bool_decide (provenance_text = cr_provenance_json row)
  then Ok record
  else raise RecordIntegrityError ("stored serialization drift for " +:+ cr_record_id row).

End projection.

(** ** The replica *)
Inductive ReplicaHealth := HEALTHY | HEALTH_UNAVAILABLE | DIVERGED.

#[export] Instance replica_health_eq_dec : EqDecision ReplicaHealth.
Proof. solve_decision. Defined.

Definition replica_health_value (h : ReplicaHealth) : string :=
  match h with
  | HEALTHY => "HEALTHY"
  | HEALTH_UNAVAILABLE => "UNAVAILABLE"
  | DIVERGED => "DIVERGED"
  end.

Record BlackboardReplica := mk_replica {
  replica_id : string;
  replica_db : ReplicaDatabase;
  max_record_bytes : Z;
  replica_lease_seconds : f64;
  divergence_history_limit : nat;
  health : ReplicaHealth;
  unavailable_reason : option string;
  divergence_history : list string;
  last_error : option string;
  storage_error_count : Z;
  prepared_count : Z;
  committed_count : Z;
  aborted_count : Z;
}.

(** A replica opened on the database its file holds. *)
Definition new_replica (rid : string) (db : ReplicaDatabase) (max_bytes : Z) (lease : f64)
    (history_limit : nat) : BlackboardReplica :=
  mk_replica rid (initialise rid db) max_bytes lease history_limit HEALTHY None [] None 0 0 0 0.

Definition with_db (db : ReplicaDatabase) (r : BlackboardReplica) : BlackboardReplica :=
  mk_replica (replica_id r) db (max_record_bytes r) (replica_lease_seconds r)
    (divergence_history_limit r) (health r) (unavailable_reason r) (divergence_history r)
    (last_error r) (storage_error_count r) (prepared_count r) (committed_count r)
    (aborted_count r).

Definition with_health (h : ReplicaHealth) (reason : option string) (history : list string)
    (r : BlackboardReplica) : BlackboardReplica :=
  mk_replica (replica_id r) (replica_db r) (max_record_bytes r) (replica_lease_seconds r)
    (divergence_history_limit r) h reason history
    (last_error r) (storage_error_count r) (prepared_count r) (committed_count r)
    (aborted_count r).

Definition with_counts (err : option string) (errors prepared committed aborted : Z)
    (r : BlackboardReplica) : BlackboardReplica :=
  mk_replica (replica_id r) (replica_db r) (max_record_bytes r) (replica_lease_seconds r)
    (divergence_history_limit r) (health r) (unavailable_reason r) (divergence_history r)
    err errors prepared committed aborted.

Definition note_prepared (r : BlackboardReplica) : BlackboardReplica :=
  with_counts (last_error r) (storage_error_count r) (prepared_count r + 1)
    (committed_count r) (aborted_count r) r.
Definition note_committed (r : BlackboardReplica) : BlackboardReplica :=
  with_counts (last_error r) (storage_error_count r) (prepared_count r)
    (committed_count r + 1) (aborted_count r) r.
Definition note_aborted (r : BlackboardReplica) : BlackboardReplica :=
  with_counts (last_error r) (storage_error_count r) (prepared_count r)
    (committed_count r) (aborted_count r + 1) r.
Definition set_last_error (err : string) (r : BlackboardReplica) : BlackboardReplica :=
  with_counts (Some err) (storage_error_count r) (prepared_count r)
    (committed_count r) (aborted_count r) r.
Definition note_storage_error (err : string) (r : BlackboardReplica) : BlackboardReplica :=
  with_counts (Some err) (storage_error_count r + 1) (prepared_count r)
    (committed_count r) (aborted_count r) r.

(** *** Health *)
Definition set_unavailable (reason : string) (r : BlackboardReplica) : BlackboardReplica :=
  with_health HEALTH_UNAVAILABLE (Some reason) (divergence_history r) r.

Definition set_available (r : BlackboardReplica) : BlackboardReplica :=
  with_health HEALTHY None (divergence_history r) r.

Definition mark_diverged (detail : string) (r : BlackboardReplica) : BlackboardReplica :=
  with_health DIVERGED (unavailable_reason r)
    (push_bounded (divergence_history_limit r) detail (divergence_history r)) r.

Definition clear_divergence (r : BlackboardReplica) : BlackboardReplica :=
  match health r with
  | DIVERGED => with_health HEALTHY (unavailable_reason r) (divergence_history r) r
  | _ => r
  end.

(** ** One call *)

(** What a call takes from its surroundings.  [ce_storage] is a fault of the
    storage engine, which rolls the transaction back. *)
Record CallEnv := mk_call_env {
  ce_hooks : BlackboardFaultHooks;
  ce_storage : option exn;
  ce_now_utc : string;
  ce_now_epoch : f64;
  ce_observed_at_utc : string;
  ce_latency_ms : f64;
}.

(** [reason or default]. *)
Definition or_text (o : option string) (default_text : string) : string :=
  match o with
  | Some s => if bool_decide (s = "") then default_text else s
  | None => default_text
  end.

Definition exn_text (e : exn) : string := exn_class_name (exn_type e) +:+ ": " +:+ exn_msg e.

Definition replica_ctx (r : BlackboardReplica) (operation_id : string)
    (kind : ReplicaOperationKind) (record : option BlackboardRecordV1) : HookContext :=
  mk_hook_context REPLICA_WRITE (Some operation_id) (Some (replica_id r)) (Some kind) None
    (r_record_key <$> record) (r_record_id <$> record).

Definition base_ack (env : CallEnv) (r : BlackboardReplica) (operation_id : string)
    (kind : ReplicaOperationKind) (status : AckStatus) (record : option BlackboardRecordV1)
    (reason : option string) (current_version_at_replica : option Z) : ReplicaAckV1 :=
  mk_ack operation_id (replica_id r) (operation_kind_value kind) status reason
    (r_record_id <$> record) (r_record_key <$> record) (r_record_version <$> record)
    (r_content_hash <$> record) current_version_at_replica
    (record ≫= r_logical_timestamp) (ce_latency_ms env) (ce_observed_at_utc env).

(** A storage transaction of the call; a fault leaves the database as it was. *)
Definition storage_call {A} (env : CallEnv)
    (op : ReplicaDatabase → result (A * ReplicaDatabase)) : M BlackboardReplica A := λ r,
  match ce_storage env with
  | Some e => (Raise e, r)
  | None => let '(out, db) := in_transaction op (replica_db r) in (out, with_db db r)
  end.

(** [except HookUnavailableError] then [except Exception], around a body. *)
Definition handle_call (env : CallEnv) (operation_id : string) (kind : ReplicaOperationKind)
    (record : option BlackboardRecordV1) (out : result ReplicaAckV1 * BlackboardReplica)
    : ReplicaAckV1 * BlackboardReplica :=
  match out with
  | (Ok ack, r) => (ack, r)
  | (Raise e, r) =>
      if decide (exn_type e = HookUnavailableError)
      then (base_ack env r operation_id kind UNAVAILABLE record
              (Some ("hook simulated unavailability: " +:+ exn_msg e)) None, r)
      else
        let r := note_storage_error (exn_text e) r in
        (base_ack env r operation_id kind STORAGE_ERROR record (last_error r) None, r)
  end.

Section operations.
Context `{PyRuntime}.

(** *** PREPARE *)
Definition fmt_opt_int (o : option Z) : string :=
  match o with Some z => fmt_int z | None => "None" end.
Definition fmt_opt_str (o : option string) : string := default "None" o.

Definition prepare_outcome_ack (env : CallEnv) (operation_id : string)
    (staged : BlackboardRecordV1) (res : PrepareResult) : M BlackboardReplica ReplicaAckV1 := λ r,
  let ack := base_ack env r operation_id PREPARE in
  match p_outcome res with
  | PREPARED => (Ok (ack ACK_PREPARED (Some staged) None None), note_prepared r)
  | PREPARED_LEASE_TAKEOVER =>
      (Ok (ack ACK_PREPARED (Some staged) (Some "took over expired pending lease") None),
       note_prepared r)
  | PREPARE_REJECT_STALE =>
      (Ok (ack REJECT_STALE (Some staged)
         (Some ("current committed version is " +:+ fmt_opt_int (p_current_version res)))
         (p_current_version res)), r)
  | PREPARE_REJECT_AHEAD =>
      (Ok (ack REJECT_SCHEMA (Some staged)
         (Some ("expected_version ahead of committed state (current="
                +:+ fmt_opt_int (p_current_version res) +:+ ")"))
         (p_current_version res)), r)
  | PREPARE_REJECT_CONFLICT =>
      (Ok (ack REJECT_CONFLICT (Some staged)
         (Some ("a different proposal holds this (key, next-version) slot (pending operation "
                +:+ fmt_opt_str (p_conflicting_operation_id res) +:+ ")"))
         (p_current_version res)), r)
  end.

(** The firewall and size checks of the staged record. *)
Definition staged_checks (max_bytes : Z) (staged : BlackboardRecordV1) : result unit :=
  _ ← assert_blackboard_firewall (JDict (r_payload staged)) "payload";
  _ ← assert_blackboard_firewall (JDict (r_provenance staged)) "provenance";
  ensure_record_size staged max_bytes.

Definition prepare_staged (env : CallEnv) (operation_id : string)
    (staged : BlackboardRecordV1) : M BlackboardReplica ReplicaAckV1 := λ r,
  let ack := base_ack env r operation_id PREPARE in
  match verify_record_integrity staged with
  | Raise e =>
      if decide (exn_type e = RecordIntegrityError)
      then (Ok (ack REJECT_INTEGRITY (Some staged)
                  (Some ("integrity verification failed: " +:+ exn_msg e)) None), r)
      else (Raise e, r)
  | Ok _ =>
      match staged_checks (max_record_bytes r) staged with
      | Raise e =>
          if is_value_error (exn_type e)
          then (Ok (ack REJECT_SCHEMA (Some staged) (Some (exn_msg e)) None), r)
          else (Raise e, r)
      | Ok _ =>
          match full_record_json staged with
          | Raise e => (Raise e, r)
          | Ok record_json =>
              (res ← storage_call env
                 (prepare_insert (r_record_key staged) (r_record_version staged)
                    (r_record_id staged) (r_content_hash staged) operation_id record_json
                    (ce_now_utc env) (ce_now_epoch env) (replica_lease_seconds r));
               prepare_outcome_ack env operation_id staged res) r
          end
      end
  end.

Definition prepare (env : CallEnv) (operation_id : string) (record : BlackboardRecordV1)
    (r : BlackboardReplica) : ReplicaAckV1 * BlackboardReplica :=
  let ctx := replica_ctx r operation_id PREPARE (Some record) in
  let handle := handle_call env operation_id PREPARE in
  if decide (health r = HEALTH_UNAVAILABLE) then
    (base_ack env r operation_id PREPARE UNAVAILABLE (Some record)
       (Some (or_text (unavailable_reason r) "replica marked unavailable")) None, r)
  else
    match observe (ce_hooks env) ctx with
    | Raise e => handle (Some record) (Raise e, r)
    | Ok _ =>
        match intercept_record (ce_hooks env) ctx record with
        | Raise e => handle (Some record) (Raise e, r)
        | Ok SubstituteOther =>
            (base_ack env r operation_id PREPARE REJECT_SCHEMA None
               (Some "staged object is not a BlackboardRecordV1") None, r)
        | Ok NoSubstitute => handle (Some record) (prepare_staged env operation_id record r)
        | Ok (SubstituteRecord staged) =>
            handle (Some staged) (prepare_staged env operation_id staged r)
        end
    end.

(** *** COMMIT *)
Definition commit_outcome_ack (env : CallEnv) (operation_id : string)
    (record : BlackboardRecordV1) (outcome : CommitOutcome)
    : M BlackboardReplica ReplicaAckV1 := λ r,
  match outcome with
  | COMMIT_DONE =>
      (Ok (base_ack env r operation_id COMMIT ACK_COMMITTED (Some record) None None),
       note_committed r)
  | _ =>
      let r := set_last_error
        ("commit could not find matching prepared intent ("
         +:+ commit_outcome_value outcome +:+ ")") r in
      (Ok (base_ack env r operation_id COMMIT STORAGE_ERROR (Some record) (last_error r) None), r)
  end.

Definition commit_body (env : CallEnv) (operation_id : string) (record : BlackboardRecordV1)
    : M BlackboardReplica ReplicaAckV1 := λ r,
  match observe (ce_hooks env) (replica_ctx r operation_id COMMIT (Some record)) with
  | Raise e => (Raise e, r)
  | Ok _ =>
      (outcome ← storage_call env
         (commit_promote (r_record_key record) (r_record_version record) (r_record_id record)
            operation_id (ce_now_utc env));
       commit_outcome_ack env operation_id record outcome) r
  end.

Definition commit (env : CallEnv) (operation_id : string) (record : BlackboardRecordV1)
    (r : BlackboardReplica) : ReplicaAckV1 * BlackboardReplica :=
  if decide (health r = HEALTH_UNAVAILABLE) then
    (base_ack env r operation_id COMMIT UNAVAILABLE (Some record)
       (Some (or_text (unavailable_reason r) "replica marked unavailable")) None, r)
  else handle_call env operation_id COMMIT (Some record) (commit_body env operation_id record r).

(** *** ABORT *)
Definition abort_outcome_ack (env : CallEnv) (operation_id : string) (removed : bool)
    : M BlackboardReplica ReplicaAckV1 := λ r,
  (Ok (base_ack env r operation_id ABORT ABORTED None
         (if removed then None else Some "no matching pending row (idempotent)") None),
   note_aborted r).

Definition abort_body (env : CallEnv) (operation_id record_key : string) (record_version : Z)
    : M BlackboardReplica ReplicaAckV1 := λ r,
  let ctx := mk_hook_context REPLICA_WRITE (Some operation_id) (Some (replica_id r))
               (Some ABORT) None (Some record_key) None in
  match observe (ce_hooks env) ctx with
  | Raise e => (Raise e, r)
  | Ok _ =>
      (removed ← storage_call env
         (abort_pending record_key record_version (Some operation_id));
       abort_outcome_ack env operation_id removed) r
  end.

Definition abort (env : CallEnv) (operation_id record_key : string) (record_version : Z)
    (r : BlackboardReplica) : ReplicaAckV1 * BlackboardReplica :=
  if decide (health r = HEALTH_UNAVAILABLE) then
    (base_ack env r operation_id ABORT UNAVAILABLE None
       (Some (or_text (unavailable_reason r) "replica marked unavailable")) None, r)
  else handle_call env operation_id ABORT None
         (abort_body env operation_id record_key record_version r).

(** *** Committed-state reads *)
Definition replica_get_committed_row (r : BlackboardReplica) (record_key : string)
    (record_version : option Z) : result (option CommittedRow) :=
  match record_version with
  | None => Ok (get_head_row (replica_db r) record_key)
  | Some v => BbStorage.get_committed_row (replica_db r) record_key v
  end.

(** *** Explicit repair *)
Definition upsert_outcome_ack (env : CallEnv) (operation_id : string)
    (record : BlackboardRecordV1) (res : UpsertExternalResult)
    : M BlackboardReplica ReplicaAckV1 := λ r,
  let ack status reason :=
    base_ack env r operation_id EXTERNAL_UPSERT status (Some record) (Some reason) None in
  match u_status res with
  | INSERTED => (Ok (ack ACK_COMMITTED "inserted by explicit reconciliation"), r)
  | IDENTICAL => (Ok (ack ACK_COMMITTED "already identical"), r)
  | REFUSED => (Ok (ack REJECT_CONFLICT (or_text (u_detail res) "external upsert refused")), r)
  end.

Definition upsert_body (env : CallEnv) (operation_id : string) (record : BlackboardRecordV1)
    : M BlackboardReplica ReplicaAckV1 := λ r,
  match observe (ce_hooks env) (replica_ctx r operation_id EXTERNAL_UPSERT (Some record)) with
  | Raise e => (Raise e, r)
  | Ok _ =>
      (_ ← lift (verify_record_integrity record);
       values ← lift (record_to_storage_values record operation_id (ce_now_utc env));
       res ← storage_call env (upsert_committed_external values.1);
       upsert_outcome_ack env operation_id record res) r
  end.

Definition upsert_external (env : CallEnv) (operation_id : string) (record : BlackboardRecordV1)
    (r : BlackboardReplica) : ReplicaAckV1 * BlackboardReplica :=
  if decide (health r = HEALTH_UNAVAILABLE) then
    (base_ack env r operation_id EXTERNAL_UPSERT UNAVAILABLE (Some record)
       (Some (or_text (unavailable_reason r) "replica marked unavailable")) None, r)
  else handle_call env operation_id EXTERNAL_UPSERT (Some record)
         (upsert_body env operation_id record r).

End operations.
