(* ===== verification/BbReplicaFacts.v ===== *)
(** * Facts about a replica

    The storage round trip of a record, and what each replica operation does to
    the replica's database: the lemmas the coordinator's theorems rest on. *)

From S2P Require Import Prelude PyString Json Firewall BbContracts BbStorage BbStorageFacts BbAuthorization.
From S2P Require Import BbReplica.

Section roundtrip.
Context `{PyRuntime}.

(** ** The stored form of a record: dictionaries with sorted keys *)
Definition sort_dict (d : list (string * json)) : list (string * json) :=
  isort key_leb (map (λ kv, (kv.1, sort_keys kv.2)) d).

Definition normalise_record (r : BlackboardRecordV1) : BlackboardRecordV1 :=
  mk_record (r_schema_version r) (r_record_id r) (r_record_key r) (r_record_type r)
    (r_record_version r) (r_logical_timestamp r) (r_window_id r) (r_author_id r)
    (r_source_component r) (sort_dict (r_payload r)) (sort_dict (r_provenance r))
    (r_content_hash r).

(** A record as pydantic accepts it. *)
Definition record_valid (r : BlackboardRecordV1) : Prop := model_validate r = Ok r.

Lemma canonical_sorted v : json_wf v = true →
  canonical_json_str (sort_keys v) = canonical_json_str v.
Proof.
  intros Hwf. unfold canonical_json_str.
  rewrite (sort_keys_forall f_finite json_finite) by (by intros []).
  by rewrite sort_keys_idem.
Qed.

Lemma record_json_ok_parts r :
  record_json_ok r = true →
  json_wf (JDict (r_payload r)) = true ∧ json_wf (JDict (r_provenance r)) = true ∧
  json_floats_ok (JDict (r_payload r)) = true ∧ json_floats_ok (JDict (r_provenance r)) = true.
Proof. unfold record_json_ok. rewrite !andb_true_iff. tauto. Qed.

Lemma sort_keys_dict_ext d e :
  map (λ kv, (kv.1, sort_keys kv.2)) d = map (λ kv, (kv.1, sort_keys kv.2)) e →
  sort_keys (JDict d) = sort_keys (JDict e).
Proof. intros Hm. cbn [sort_keys]. by rewrite Hm. Qed.

Lemma normalise_fields r :
  record_json_ok r = true →
  sort_keys (JDict (record_fields (normalise_record r))) = sort_keys (JDict (record_fields r)).
Proof.
  intros (Hp & Hv & _ & _)%record_json_ok_parts. apply sort_keys_dict_ext.
  unfold record_fields, hashed_field_dict. cbn [map fst snd].
  change (JDict (r_payload (normalise_record r))) with (sort_keys (JDict (r_payload r))).
  change (JDict (r_provenance (normalise_record r))) with (sort_keys (JDict (r_provenance r))).
  by rewrite !sort_keys_idem.
Qed.

Lemma normalise_hash r :
  record_json_ok r = true →
  compute_content_hash (record_fields (normalise_record r)) =
  compute_content_hash (record_fields r).
Proof.
  intros Hok. rewrite !content_hash_eq.
  unfold canonical_content_hash, canonical_json_bytes, canonical_json_str.
  assert (Hf : ∀ v, json_finite v = json_finite (sort_keys v))
    by (intros v; symmetry; apply (sort_keys_forall f_finite json_finite); by intros []).
  by rewrite (Hf (JDict (record_fields (normalise_record r)))), (Hf (JDict (record_fields r))),
    normalise_fields.
Qed.

Lemma normalise_valid r :
  record_json_ok r = true → record_valid r → record_valid (normalise_record r).
Proof.
  intros Hok (_ & Hf & Hv)%model_validate_ok. apply model_validate_ok. split; [done |].
  apply verify_ok in Hv as [Hh Hid]. split.
  - unfold record_field_validators in *. rewrite !Forall_cons in *.
    destruct Hf as (?&?&?&?&?&?&?&?&Hp&Hpv&?&_). split_and!; try done.
    + by apply (assert_blackboard_firewall_sort (JDict (r_payload r)) "payload").
    + by apply (assert_blackboard_firewall_sort (JDict (r_provenance r)) "provenance").
  - apply verify_ok. by rewrite normalise_hash.
Qed.

Lemma loads_dict_canonical field d s :
  json_wf (JDict d) = true → json_floats_ok (JDict d) = true →
  canonical_json_str (JDict d) = Ok s →
  loads_dict field s = Ok (sort_dict d) ∧ canonical_json_str (JDict (sort_dict d)) = Ok s.
Proof.
  intros Hwf Hf Hs. unfold loads_dict. rewrite (loads_canonical _ _ Hwf Hf Hs).
  split; [done |]. rewrite <-Hs. by apply (canonical_sorted (JDict d)).
Qed.

(** A stored record reads back as its normal form. *)
Lemma storage_roundtrip r op at_utc row rj :
  record_json_ok r = true → record_valid r →
  record_to_storage_values r op at_utc = Ok (row, rj) →
  row_to_record row = Ok (normalise_record r).
Proof.
  intros Hok Hvalid Hs. pose proof (record_json_ok_parts _ Hok) as (Hp & Hv & Hpf & Hvf).
  unfold record_to_storage_values in Hs.
  rewrite result_bind_ok in Hs. destruct Hs as (pj & Hpj & Hs).
  rewrite result_bind_ok in Hs. destruct Hs as (vj & Hvj & Hs).
  rewrite result_bind_ok in Hs. destruct Hs as (rj' & _ & Hs). injection Hs as <- <-.
  destruct (loads_dict_canonical "payload" _ _ Hp Hpf Hpj) as [Hl1 Hc1].
  destruct (loads_dict_canonical "provenance" _ _ Hv Hvf Hvj) as [Hl2 Hc2].
  unfold row_to_record; cbn. rewrite Hl1; cbn. rewrite Hl2; cbn.
  rewrite record_type_of_value_ok; cbn.
  pose proof (normalise_valid _ Hok Hvalid) as Hn. unfold record_valid, normalise_record in Hn.
  rewrite Hn; cbn. rewrite Hc1; cbn. rewrite Hc2; cbn. by rewrite !bool_decide_true.
Qed.

(** ** The staged JSON *)
Lemma full_record_loads r pj vj rj :
  canonical_json_str (JDict (full_record_fields r pj vj)) = Ok rj →
  load_staged rj = Ok (sort_dict (full_record_fields r pj vj)).
Proof.
  intros Hc. unfold load_staged.
  rewrite (loads_canonical (JDict (full_record_fields r pj vj)) rj); [done | | | done].
  - unfold full_record_fields. destruct (r_logical_timestamp r), (r_window_id r); reflexivity.
  - unfold full_record_fields. destruct (r_logical_timestamp r), (r_window_id r); reflexivity.
Qed.

(** The row promoted from the staged JSON is the row of the storage projection. *)
Lemma staged_row_projection r rj op at_utc :
  full_record_json r = Ok rj →
  ∃ d row, load_staged rj = Ok d ∧ staged_row d op at_utc = Ok row ∧
    record_to_storage_values r op at_utc = Ok (row, rj).
Proof.
  intros Hf. pose proof Hf as Hf'. unfold full_record_json in Hf.
  rewrite result_bind_ok in Hf. destruct Hf as (pj & Hpj & Hf).
  rewrite result_bind_ok in Hf. destruct Hf as (vj & Hvj & Hf).
  apply full_record_loads in Hf as Hl.
  eexists _, _. split; [exact Hl |]. split; cycle 1.
  - unfold record_to_storage_values. rewrite Hpj; cbn. rewrite Hvj; cbn. by rewrite Hf'.
  - destruct r as [? ? ? ? ? lt w ? ? ? ? ?]. by destruct lt, w.
Qed.

Lemma full_record_matches r rj :
  full_record_json r = Ok rj →
  staged_matches (r_record_key r) (r_record_version r) (r_record_id r) (r_content_hash r) rj.
Proof.
  intros Hf. destruct (staged_row_projection r rj "" "" Hf) as (d & row & Hl & Hs & Hv).
  apply staged_row_fields in Hs as (Hk & Hver & Hid & Hh & _).
  unfold record_to_storage_values in Hv. 
  rewrite result_bind_ok in Hv. destruct Hv as (pj & _ & Hv).
  rewrite result_bind_ok in Hv. destruct Hv as (vj & _ & Hv).
  rewrite result_bind_ok in Hv. destruct Hv as (rj' & _ & Hv). injection Hv as <- <-.
  by exists d.
Qed.

End roundtrip.

(** ** Operations *)

(** What no lifecycle operation changes. *)
Record op_frame (r r' : BlackboardReplica) : Prop := {
  frame_id : replica_id r' = replica_id r;
  frame_health : health r' = health r;
  frame_reason : unavailable_reason r' = unavailable_reason r;
  frame_history : divergence_history r' = divergence_history r;
  frame_bytes : max_record_bytes r' = max_record_bytes r;
  frame_lease : replica_lease_seconds r' = replica_lease_seconds r;
}.

Create HintDb bb_replica.

#[export] Instance op_frame_preorder : PreOrder op_frame.
Proof.
  split; [by constructor |]. intros r1 r2 r3 [] []. constructor; congruence.
Qed.

Lemma frame_counts e a b c d r : op_frame r (with_counts e a b c d r).
Proof. by constructor. Qed.
Lemma frame_db db r : op_frame r (with_db db r).
Proof. by constructor. Qed.
#[export] Hint Resolve frame_counts frame_db : bb_replica.

Lemma with_db_id r : with_db (replica_db r) r = r.
Proof. by destruct r. Qed.

Definition failure_status (s : AckStatus) : Prop := s = UNAVAILABLE ∨ s = STORAGE_ERROR.

Lemma handle_call_spec env op k rec out r ack r' :
  handle_call env op k rec (out, r) = (ack, r') →
  (out = Ok ack ∧ r' = r) ∨
  (op_frame r r' ∧ replica_db r' = replica_db r ∧ failure_status (a_ack_status ack) ∧
   a_replica_id ack = replica_id r).
Proof.
  destruct out as [a|e]; cbn; [intros [= <- <-]; by left |].
  case_decide; intros [= <- <-]; right; unfold failure_status; cbn; naive_solver eauto with bb_replica.
Qed.

Lemma storage_call_spec {A} env (f : ReplicaDatabase → result (A * ReplicaDatabase)) r out r' :
  storage_call env f r = (out, r') →
  (∃ e, out = Raise e ∧ r' = r) ∨
  (∃ a db, out = Ok a ∧ f (replica_db r) = Ok (a, db) ∧ r' = with_db db r).
Proof.
  unfold storage_call, in_transaction. destruct (ce_storage env) as [e|].
  - intros [= <- <-]. left. by exists e.
  - destruct (f (replica_db r)) as [[a db]|e]; intros [= <- <-]; [right | left];
      eauto 10 using with_db_id.
Qed.

(** A storage call followed by the acknowledgement of its outcome. *)
Lemma bind_storage_spec {A} env (f : ReplicaDatabase → result (A * ReplicaDatabase))
    (k : A → M BlackboardReplica ReplicaAckV1) r out r' :
  (a ← storage_call env f; k a) r = (out, r') →
  (∃ e, out = Raise e ∧ r' = r) ∨
  (∃ a db, f (replica_db r) = Ok (a, db) ∧ k a (with_db db r) = (out, r')).
Proof.
  unfold mbind, M_bind. destruct (storage_call env f r) as [o r1] eqn:Hs.
  apply storage_call_spec in Hs as [(e & -> & ->)|(a & db & -> & Hf & ->)].
  - intros [= <- <-]. left. by exists e.
  - intros Hk. right. by exists a, db.
Qed.

Section operations.
Context `{PyRuntime}.

Definition replica_wf (r : BlackboardReplica) : Prop := db_wf (replica_db r).

(** The slot of a committed record at a replica. *)
Definition committed_slot (r : BlackboardReplica) (k : string) (v : Z) : option CommittedRow :=
  db_committed (replica_db r) !! (k, v).

(** What an acknowledgement of a prepared proposal promises. *)
Record prepared_at (op : string) (ack : ReplicaAckV1) (staged : BlackboardRecordV1)
    (r r' : BlackboardReplica) : Prop := {
  pa_integrity : verify_record_integrity staged = Ok tt;
  pa_version : r_record_version staged = head_of (replica_db r) (r_record_key staged) + 1;
  pa_pending : ∃ p, db_pending (replica_db r') !! (r_record_key staged, r_record_version staged) = Some p
    ∧ pr_operation_id p = op ∧ pr_record_id p = r_record_id staged;
  pa_id : a_record_id ack = Some (r_record_id staged);
  pa_key : a_record_key ack = Some (r_record_key staged);
  pa_ver : a_record_version ack = Some (r_record_version staged);
  pa_hash : a_content_hash ack = Some (r_content_hash staged);
}.

Lemma prepare_staged_spec env op staged r out r' :
  prepare_staged env op staged r = (out, r') →
  op_frame r r' ∧ log_same (replica_db r) (replica_db r') ∧ (replica_wf r → replica_wf r') ∧
  (∀ ack, out = Ok ack → a_replica_id ack = replica_id r ∧
    (a_ack_status ack = ACK_PREPARED → prepared_at op ack staged r r')).
Proof.
  unfold prepare_staged. intros Hp.
  destruct (verify_record_integrity staged) as [[]|e] eqn:Hv.
  2: { case_decide; simplify_eq; split_and!; try done; intros; simplify_eq; by cbn. }
  destruct (staged_checks _ staged) as [[]|e].
  2: { destruct (is_value_error _); simplify_eq; split_and!; try done; intros; simplify_eq; by cbn. }
  destruct (full_record_json staged) as [rj|e] eqn:Hj; [|simplify_eq; by split_and!].
  apply bind_storage_spec in Hp as [(e & -> & ->)|(res & db & Hi & Hk)]; [by split_and! |].
  pose proof (prepare_insert_same _ _ _ _ _ _ _ _ _ _ _ _ Hi) as Hsame.
  assert (Hwf : replica_wf r → db_wf db)
    by (intros; eapply prepare_insert_wf; eauto using full_record_matches).
  unfold prepare_outcome_ack in Hk.
  destruct (p_outcome res) eqn:Ho; injection Hk as <- <-; unfold note_prepared;
    (split; [by constructor |]); (split; [done |]); (split; [done |]); intros ack [= <-];
    (split; [done |]); cbn; try done; intros _;
    (destruct (prepare_insert_prepared _ _ _ _ _ _ _ _ _ _ _ _ Hi) as [Hver Hpend]; [by auto |]);
    by constructor.
Qed.

Lemma prepare_spec env op record r ack r' :
  prepare env op record r = (ack, r') →
  op_frame r r' ∧ log_same (replica_db r) (replica_db r') ∧ (replica_wf r → replica_wf r') ∧
  a_replica_id ack = replica_id r ∧
  (a_ack_status ack = ACK_PREPARED → health r ≠ HEALTH_UNAVAILABLE ∧
     ∃ staged, prepared_at op ack staged r r').
Proof.
  unfold prepare. case_decide as Hh; [intros [= <- <-]; by split_and! |].
  assert (Hgen : ∀ out rec r1 staged, prepare_staged env op staged r = (out, r1) →
    handle_call env op PREPARE rec (out, r1) = (ack, r') →
    op_frame r r' ∧ log_same (replica_db r) (replica_db r') ∧ (replica_wf r → replica_wf r') ∧
    a_replica_id ack = replica_id r ∧
    (a_ack_status ack = ACK_PREPARED → health r ≠ HEALTH_UNAVAILABLE ∧
       ∃ staged, prepared_at op ack staged r r')).
  { intros out rec r1 staged (Hf & Hs & Hw & Hack)%prepare_staged_spec Hc.
    apply handle_call_spec in Hc as [[-> ->]|(Hf' & Hdb & Hst & Hid)].
    - destruct (Hack _ eq_refl). split_and!; eauto.
    - unfold replica_wf in *. rewrite Hdb.
      split_and!; [by etrans | done.. | | by destruct Hst as [-> | ->]].
      rewrite Hid. by apply frame_id. }
  assert (Hexc : ∀ e rec, handle_call env op PREPARE rec (Raise e, r) = (ack, r') →
    op_frame r r' ∧ log_same (replica_db r) (replica_db r') ∧ (replica_wf r → replica_wf r') ∧
    a_replica_id ack = replica_id r ∧
    (a_ack_status ack = ACK_PREPARED → health r ≠ HEALTH_UNAVAILABLE ∧
       ∃ staged, prepared_at op ack staged r r')).
  { intros e rec [[? ?]|(Hf & Hdb & Hst & Hid)]%handle_call_spec; [done |].
    unfold replica_wf, log_same. rewrite Hdb. split_and!; try done. by destruct Hst as [-> | ->]. }
  destruct (observe _ _); [|by apply Hexc].
  destruct (intercept_record _ _ _) as [[|staged|]|]; [| | |by apply Hexc].
  - destruct (prepare_staged env op record r) as [out r1] eqn:Hp. eauto.
  - destruct (prepare_staged env op staged r) as [out r1] eqn:Hp. eauto.
  - intros [= <- <-]. by split_and!.
Qed.

(** With pass-through hooks the staged record is the proposed one. *)
Lemma prepare_passthrough env op record r ack r' :
  ce_hooks env = PassThroughHooks →
  prepare env op record r = (ack, r') → a_ack_status ack = ACK_PREPARED →
  prepared_at op ack record r r'.
Proof.
  intros Hh. unfold prepare. case_decide; [by intros [= <- <-] |]. rewrite Hh; cbn.
  destruct (prepare_staged env op record r) as [out r1] eqn:Hp.
  apply prepare_staged_spec in Hp as (_ & _ & _ & Hack).
  intros [[-> ->]|(_ & _ & Hst & _)]%handle_call_spec Ha; [by apply Hack |].
  destruct Hst; congruence.
Qed.

(** On a free slot the staged JSON is that of the proposed record. *)
Lemma prepare_stages env op record r ack r' :
  ce_hooks env = PassThroughHooks →
  db_pending (replica_db r) !! (r_record_key record, r_record_version record) = None →
  prepare env op record r = (ack, r') → a_ack_status ack = ACK_PREPARED →
  ∃ p, db_pending (replica_db r') !! (r_record_key record, r_record_version record) = Some p ∧
    full_record_json record = Ok (pr_record_json p).
Proof.
  intros Hh Hfree. unfold prepare. case_decide; [by intros [= <- <-] |]. rewrite Hh; cbn.
  destruct (prepare_staged env op record r) as [out r1] eqn:Hp.
  intros [[-> ->]|(_ & _ & Hst & _)]%handle_call_spec Ha; [|destruct Hst; congruence].
  unfold prepare_staged in Hp.
  destruct (verify_record_integrity record) as [[]|e];
    [|case_decide; simplify_eq; done].
  destruct (staged_checks _ record) as [[]|e]; [|destruct (is_value_error _); simplify_eq; done].
  destruct (full_record_json record) as [rj|e] eqn:Hj; [|done].
  apply bind_storage_spec in Hp as [(e & ? & ?)|(res & db & Hi & Hk)]; [done |].
  unfold prepare_insert in Hi. cbv zeta in Hi. rewrite Hfree in Hi.
  destruct (r_record_version record <=? _) eqn:Hle; [simplify_eq; by injection Hk as <- <- |].
  destruct (negb _) eqn:Hn; [simplify_eq; by injection Hk as <- <- |].
  rewrite result_bind_ok in Hi. destruct Hi as (u & _ & [= <- <-]).
  injection Hk as <- <-. cbn. eexists. by rewrite lookup_insert_eq.
Qed.

(** What a committed acknowledgement promises. *)
Record committed_by (op : string) (record : BlackboardRecordV1) (r r' : BlackboardReplica)
    (row : CommittedRow) : Prop := {
  cb_appends : log_appends row (replica_db r) (replica_db r');
  cb_pending : db_pending (replica_db r') =
    delete (r_record_key record, r_record_version record) (db_pending (replica_db r));
  cb_staged : ∃ p, db_pending (replica_db r) !! (r_record_key record, r_record_version record) = Some p
    ∧ pr_operation_id p = op ∧ pr_record_id p = r_record_id record
    ∧ cr_content_hash row = pr_content_hash p
    ∧ ∃ d at_utc, load_staged (pr_record_json p) = Ok d ∧ staged_row d op at_utc = Ok row;
  cb_key : cr_record_key row = r_record_key record;
  cb_version : cr_record_version row = r_record_version record;
  cb_id : cr_record_id row = r_record_id record;
}.

Lemma committed_by_wf op record r r' row :
  replica_wf r → committed_by op record r r' row → replica_wf r'.
Proof.
  intros Hwf []. eapply append_wf; [done..|]. congruence.
Qed.

Lemma committed_by_slot op record r r' row :
  committed_by op record r r' row →
  committed_slot r' (r_record_key record) (r_record_version record) = Some row.
Proof.
  intros [(_ & Hc & _) _ _ Hk Hv _]. unfold committed_slot. rewrite Hc, Hk, Hv.
  by apply lookup_insert_eq.
Qed.

Lemma commit_spec env op record r ack r' :
  replica_wf r → commit env op record r = (ack, r') →
  op_frame r r' ∧ a_replica_id ack = replica_id r ∧
  (a_ack_status ack = ACK_COMMITTED →
     health r ≠ HEALTH_UNAVAILABLE ∧ (∃ row, committed_by op record r r' row) ∧
     a_record_id ack = Some (r_record_id record) ∧
     a_content_hash ack = Some (r_content_hash record)) ∧
  (a_ack_status ack ≠ ACK_COMMITTED →
     replica_db r' = replica_db r ∧ failure_status (a_ack_status ack)).
Proof.
  intros Hwf. unfold commit, failure_status.
  case_decide as Hh; [intros [= <- <-]; cbn; split_and!; try done; by auto |].
  destruct (commit_body env op record r) as [out r1] eqn:Hb.
  intros Hc. unfold commit_body in Hb.
  destruct (observe _ _) as [u|e].
  2: { injection Hb as <- <-. apply handle_call_spec in Hc as [[? ?]|(Hf & Hdb & Hst & Hid)]; [done |].
       split_and!; try done. destruct Hst; congruence. }
  apply bind_storage_spec in Hb as [(e & -> & ->)|(out' & db & Hi & Hk)].
  { apply handle_call_spec in Hc as [[? ?]|(Hf & Hdb & Hst & Hid)]; [done |].
    split_and!; try done. destruct Hst; congruence. }
  unfold commit_outcome_ack in Hk. destruct (decide (out' = COMMIT_DONE)) as [->|Hne].
  - injection Hk as <- <-. injection Hc as <- <-; cbn.
    apply commit_promote_done in Hi as
      (p & d & row & Hp & Hop & Hid & Hd & Hrow & Hk & Hv & Hrid & Hrh & Ha & Hpd); [|done].
    split_and!; try done. intros _. split_and!; try done.
    exists row. constructor; try done. exists p. split_and!; try congruence. by exists d, (ce_now_utc env).
  - apply commit_promote_other in Hi as ->; [|done].
    destruct out'; [done | |]; injection Hk as <- <-; injection Hc as <- <-;
      rewrite with_db_id; split_and!; try done; intros _; split; [done | by right | done | by right].
Qed.

Lemma abort_spec env op k v r ack r' :
  abort env op k v r = (ack, r') →
  op_frame r r' ∧ a_replica_id ack = replica_id r ∧
  log_same (replica_db r) (replica_db r') ∧ (replica_wf r → replica_wf r') ∧
  (a_ack_status ack = ABORTED ∨ failure_status (a_ack_status ack)) ∧
  (a_ack_status ack = ABORTED → ∀ p, db_pending (replica_db r') !! (k, v) = Some p →
     pr_operation_id p ≠ op).
Proof.
  unfold abort, failure_status. case_decide as Hh; [intros [= <- <-]; cbn; split_and!; try done; by auto |].
  destruct (abort_body env op k v r) as [out r1] eqn:Hb. intros Hc. unfold abort_body in Hb.
  assert (Hexc : ∀ e, handle_call env op ABORT None (Raise e, r) = (ack, r') →
    op_frame r r' ∧ a_replica_id ack = replica_id r ∧
    log_same (replica_db r) (replica_db r') ∧ (replica_wf r → replica_wf r') ∧
    (a_ack_status ack = ABORTED ∨ failure_status (a_ack_status ack)) ∧
    (a_ack_status ack = ABORTED → ∀ p, db_pending (replica_db r') !! (k, v) = Some p →
       pr_operation_id p ≠ op)).
  { intros e [[? ?]|(Hf & Hdb & Hst & Hid)]%handle_call_spec; [done |].
    unfold replica_wf, log_same. rewrite Hdb. split_and!; try done; [by right |].
    by destruct Hst as [-> | ->]. }
  destruct (observe _ _) as [u|e]; [|injection Hb as <- <-; by eapply Hexc].
  apply bind_storage_spec in Hb as [(e & -> & ->)|(removed & db & Hi & Hk)]; [by eapply Hexc |].
  unfold abort_outcome_ack in Hk. injection Hk as <- <-. injection Hc as <- <-.
  pose proof (abort_pending_spec _ _ _ _ _ _ Hi) as [Hs Hr].
  split; [by constructor |]. do 2 (split; [done |]). split; [|split; [by left |]].
  - intros Hwf. eapply (abort_pending_wf _ _ _ _ _ _ Hwf), Hi.
  - intros _ p. cbn. unfold abort_pending in Hi. rewrite result_bind_ok in Hi.
    destruct Hi as (? & _ & Hi). destruct (db_pending (replica_db r) !! (k, v)) as [q|] eqn:Hq;
      [case_bool_decide|]; simplify_eq; cbn; rewrite ?lookup_delete_eq; congruence.
Qed.

Lemma upsert_external_spec env op record r ack r' :
  replica_wf r → upsert_external env op record r = (ack, r') →
  op_frame r r' ∧ a_replica_id ack = replica_id r ∧ replica_wf r' ∧
  (log_same (replica_db r) (replica_db r') ∨
   ∃ row, log_appends row (replica_db r) (replica_db r')) ∧
  (a_ack_status ack = ACK_COMMITTED → ∃ row,
     committed_slot r' (r_record_key record) (r_record_version record) = Some row ∧
     cr_record_id row = r_record_id record).
Proof.
  intros Hwf. unfold upsert_external. case_decide as Hh; [intros [= <- <-]; cbn; split_and!; try done; by left |].
  destruct (upsert_body env op record r) as [out r1] eqn:Hb. intros Hc. unfold upsert_body in Hb.
  assert (Hexc : ∀ e, handle_call env op EXTERNAL_UPSERT (Some record) (Raise e, r) = (ack, r') →
    op_frame r r' ∧ a_replica_id ack = replica_id r ∧ replica_wf r' ∧
    (log_same (replica_db r) (replica_db r') ∨
     ∃ row, log_appends row (replica_db r) (replica_db r')) ∧
    (a_ack_status ack = ACK_COMMITTED → ∃ row,
       committed_slot r' (r_record_key record) (r_record_version record) = Some row ∧
       cr_record_id row = r_record_id record)).
  { intros e [[? ?]|(Hf & Hdb & Hst & Hid)]%handle_call_spec; [done |].
    unfold replica_wf, log_same. rewrite Hdb. split_and!; try done; [by left |].
    by destruct Hst as [-> | ->]. }
  destruct (observe _ _) as [u|e]; [|injection Hb as <- <-; by eapply Hexc].
  unfold mbind at 1, M_bind at 1, lift in Hb.
  destruct (verify_record_integrity record) as [[]|e]; [|injection Hb as <- <-; by eapply Hexc].
  unfold mbind at 1, M_bind at 1 in Hb.
  destruct (record_to_storage_values record op _) as [[row rj]|e] eqn:Hv;
    [|injection Hb as <- <-; by eapply Hexc].
  apply bind_storage_spec in Hb as [(e & -> & ->)|(res & db & Hi & Hk)]; [by eapply Hexc |].
  unfold record_to_storage_values in Hv.
  rewrite result_bind_ok in Hv. destruct Hv as (pj & _ & Hv).
  rewrite result_bind_ok in Hv. destruct Hv as (vj & _ & Hv).
  rewrite result_bind_ok in Hv. destruct Hv as (rj' & _ & Hv).
  assert (cr_record_key row = r_record_key record ∧ cr_record_version row = r_record_version record
    ∧ cr_record_id row = r_record_id record) as (Hk1 & Hv1 & Hid1) by (by injection Hv as <- <-).
  clear Hv. unfold upsert_outcome_ack in Hk. cbn [fst] in Hi.
  destruct (decide (u_status res = INSERTED)) as [Hs|Hs].
  - rewrite Hs in Hk. injection Hk as <- <-. injection Hc as <- <-.
    apply upsert_inserted in Hi as [Ha Hp]; [|done].
    split_and!; [by constructor | done | | right; by exists row | intros _].
    + by eapply append_wf.
    + exists row. split; [|done]. destruct Ha as (_ & Hcm & _).
      unfold committed_slot; cbn. rewrite Hcm, Hk1, Hv1. by apply lookup_insert_eq.
  - apply upsert_not_inserted in Hi as [-> Hident]; [|done]. rewrite with_db_id in Hk.
    destruct (u_status res); [done | |]; injection Hk as <- <-; injection Hc as <- <-;
      split_and!; try done; [by left | | by left].
    intros _. destruct Hident as (r2 & Hr2 & Hid2); [done |]. exists r2.
    unfold committed_slot. rewrite <-Hk1, <-Hv1, <-Hid1. done.
Qed.

End operations.
