(* ===== verification/BbInstrumentation.v ===== *)
(** * Blackboard instrumentation

    Models [blackboard/instrumentation.py]: counters, bounded latency series and
    the two bounded history rings, and the invariant that a COMMITTED result
    carries two compatible committed acknowledgements. *)

From S2P Require Import Prelude PyString Json BbContracts.

(** ** Latency series: [deque(maxlen=limit)] of samples *)
Definition latency_record (limit : nat) (ms : f64) (samples : list f64) : list f64 :=
  push_bounded limit ms samples.

Record LatencySnapshot := mk_latency_snapshot {
  ls_count : Z;
  ls_p50_ms : f64;
  ls_p95_ms : f64;
  ls_max_ms : f64;
  ls_mean_ms : f64;
}.

(** [min(count - 1, max(0, int(round(p * (count - 1)))))]. *)
Definition pct_index (p : f64) (count : nat) : nat :=
  let c := Z.of_nat count - 1 in
  Z.to_nat (Z.min c (Z.max 0 (f_round_int (f_mul p (f_of_Z c))))).

(** 0.95 *)
Definition f_095 : f64 := SpecFloat.S754_finite false 8556839292003942 (-53).

Section snapshot.
Context `{PyRuntime}.

(** [None] for an empty series ([{"count": 0}]). *)
Definition latency_snapshot (samples : list f64) : option LatencySnapshot :=
  let sorted := isort (λ x y, negb (f_ltb y x)) samples in
  match last sorted with
  | None => None
  | Some top =>
      let count := length sorted in
      let pct p := float_round (nth (pct_index p count) sorted f_zero) 3 in
      Some (mk_latency_snapshot (Z.of_nat count) (pct f_half) (pct f_095) (float_round top 3)
              (float_round (f_div (float_sum sorted) (f_of_Z (Z.of_nat count))) 3))
  end.
End snapshot.

(** ** Counters and rings *)
Definition COUNTER_KEYS : list string :=
  ["writes_started"; "committed"; "committed_with_divergence"; "partial_commit";
   "rejected_stale"; "rejected_conflict"; "rejected_schema"; "rejected_integrity";
   "rejected_authorization"; "failed_quorum"; "failed_storage"; "listener_errors";
   "aborts_issued"; "resyncs_applied"; "resyncs_refused"; "reads_started";
   "read_consistent"; "read_degraded_consistent"; "read_not_found";
   "read_insufficient_quorum"; "read_inconsistent"; "read_unavailable";
   "read_authorization_rejected"].

Record BlackboardInstrumentation := mk_instr {
  i_latency_limit : nat;
  i_operations_limit : nat;
  i_rejections_limit : nat;
  i_counters : list (string * Z);
  i_write_series : list f64;
  i_read_series : list f64;
  i_replica_series : list (string * list f64);
  i_recent_operations : list (list (string * json));
  i_recent_rejections : list (list (string * json));
}.

Definition new_instrumentation (latency operations rejections : nat) : BlackboardInstrumentation :=
  mk_instr latency operations rejections (map (λ k, (k, 0)) COUNTER_KEYS) [] [] [] [] [].

Definition with_counters (cs : list (string * Z)) (i : BlackboardInstrumentation)
    : BlackboardInstrumentation :=
  mk_instr (i_latency_limit i) (i_operations_limit i) (i_rejections_limit i) cs
    (i_write_series i) (i_read_series i) (i_replica_series i) (i_recent_operations i)
    (i_recent_rejections i).

(** [if key in self._counters: self._counters[key] += 1]. *)
Definition increment (key : string) (i : BlackboardInstrumentation) : BlackboardInstrumentation :=
  match od_get key (i_counters i) with
  | Some n => with_counters (od_set key (n + 1) (i_counters i)) i
  | None => i
  end.

Definition counter (key : string) (i : BlackboardInstrumentation) : Z :=
  default 0 (od_get key (i_counters i)).

Definition observe_replica_latency (rid operation_kind : string) (status_ok : bool) (ms : f64)
    (i : BlackboardInstrumentation) : BlackboardInstrumentation :=
  let key := "replica[" +:+ rid +:+ "]." +:+ py_lower operation_kind in
  let key := if status_ok then key else key +:+ ".unhealthy" in
  let samples := default [] (od_get key (i_replica_series i)) in
  mk_instr (i_latency_limit i) (i_operations_limit i) (i_rejections_limit i) (i_counters i)
    (i_write_series i) (i_read_series i)
    (od_set key (latency_record (i_latency_limit i) ms samples) (i_replica_series i))
    (i_recent_operations i) (i_recent_rejections i).

(** The compatible committed acknowledgements of a result. *)
Definition durable_acks (record_id content_hash : option string) (acks : list ReplicaAckV1)
    : list ReplicaAckV1 :=
  filter (λ a, a_ack_status a = ACK_COMMITTED ∧ a_record_id a = record_id
               ∧ a_content_hash a = content_hash) acks.

Definition result_diverged (res : WriteResultV1) : bool :=
  existsb (λ kv, bool_decide (kv.2 = DIVERGENT_REQUIRES_RECONCILIATION)) (w_replica_sync res).

Definition counter_for_outcome (outcome : WriteOutcome) (divergence : bool) : string :=
  match outcome with
  | COMMITTED => if divergence then "committed_with_divergence" else "committed"
  | PARTIAL_COMMIT => "partial_commit"
  | REJECTED_STALE => "rejected_stale"
  | REJECTED_CONFLICT => "rejected_conflict"
  | REJECTED_SCHEMA => "rejected_schema"
  | REJECTED_AUTHORIZATION => "rejected_authorization"
  | FAILED_QUORUM => "failed_quorum"
  | FAILED_STORAGE => "failed_storage"
  end.

Section results.
Context `{PyRuntime}.

Definition operation_summary (res : WriteResultV1) : list (string * json) :=
  [("operation_id", JStr (w_operation_id res));
   ("outcome", JStr (write_outcome_value (w_outcome res)));
   ("record_key", json_opt_str (w_record_key res));
   ("record_version", json_opt_int (w_record_version res));
   ("content_hash", json_opt_str (w_content_hash res));
   ("duration_ms", JFloat (float_round (w_duration_ms res) 3));
   ("at_utc", JStr (w_completed_at_utc res))].

Definition record_write_result (res : WriteResultV1) : M BlackboardInstrumentation unit := λ i,
  let outcome := w_outcome res in
  let durable := durable_acks (w_record_id res) (w_content_hash res) (w_acks res) in
  if bool_decide (outcome = COMMITTED) && (length durable <? 2)%nat then
    (raise AssertionError
       ("invariant violated: COMMITTED with " +:+ fmt_int (Z.of_nat (length durable))
        +:+ " compatible ACK_COMMITTED (operation " +:+ w_operation_id res +:+ ")"), i)
  else
    let summary := operation_summary res in
    let rejected := negb (bool_decide (outcome = COMMITTED)) in
    let i := increment (counter_for_outcome outcome (result_diverged res)) i in
    let i := if rejected && existsb (λ a, bool_decide (a_ack_status a = REJECT_INTEGRITY)) (w_acks res)
             then increment "rejected_integrity" i else i in
    (Ok tt, mk_instr (i_latency_limit i) (i_operations_limit i) (i_rejections_limit i)
       (i_counters i)
       (latency_record (i_latency_limit i) (w_duration_ms res) (i_write_series i))
       (i_read_series i) (i_replica_series i)
       (push_bounded (i_operations_limit i) summary (i_recent_operations i))
       (if rejected
        then push_bounded (i_rejections_limit i)
               (od_set "reason" (json_opt_str (w_reason res)) summary) (i_recent_rejections i)
        else i_recent_rejections i)).
End results.

Definition counter_for_read (outcome : ReadOutcome) : string :=
  match outcome with
  | CONSISTENT => "read_consistent"
  | DEGRADED_CONSISTENT => "read_degraded_consistent"
  | NOT_FOUND => "read_not_found"
  | INSUFFICIENT_QUORUM => "read_insufficient_quorum"
  | INCONSISTENT => "read_inconsistent"
  | READ_UNAVAILABLE => "read_unavailable"
  | AUTHORIZATION_REJECTED => "read_authorization_rejected"
  end.

Definition record_read (outcome : ReadOutcome) (duration_ms : f64) (i : BlackboardInstrumentation)
    : BlackboardInstrumentation :=
  let i := increment (counter_for_read outcome) i in
  mk_instr (i_latency_limit i) (i_operations_limit i) (i_rejections_limit i) (i_counters i)
    (i_write_series i) (latency_record (i_latency_limit i) duration_ms (i_read_series i))
    (i_replica_series i) (i_recent_operations i) (i_recent_rejections i).

Definition note_operation (summary : list (string * json)) (i : BlackboardInstrumentation)
    : BlackboardInstrumentation :=
  mk_instr (i_latency_limit i) (i_operations_limit i) (i_rejections_limit i) (i_counters i)
    (i_write_series i) (i_read_series i) (i_replica_series i)
    (push_bounded (i_operations_limit i) summary (i_recent_operations i)) (i_recent_rejections i).

(** ** Bounds *)

(** Every ring is within its limit, and the counters are the declared ones. *)
Record instr_bounded (i : BlackboardInstrumentation) : Prop := {
  ib_write : (length (i_write_series i) ≤ i_latency_limit i)%nat;
  ib_read : (length (i_read_series i) ≤ i_latency_limit i)%nat;
  ib_series : Forall (λ kv, (length kv.2 ≤ i_latency_limit i)%nat) (i_replica_series i);
  ib_operations : (length (i_recent_operations i) ≤ i_operations_limit i)%nat;
  ib_rejections : (length (i_recent_rejections i) ≤ i_rejections_limit i)%nat;
  ib_counters : (i_counters i).*1 = COUNTER_KEYS;
  ib_nonneg : Forall (λ kv, 0 ≤ kv.2) (i_counters i);
}.

Lemma od_set_forall {A} (P : A → Prop) k v (d : list (string * A)) :
  P v → Forall (λ kv, P kv.2) d → Forall (λ kv, P kv.2) (od_set k v d).
Proof.
  intros Hv. induction 1 as [|[k' v'] d Hx Hd IH]; cbn; [by repeat constructor |].
  case_decide; by constructor.
Qed.

Lemma od_get_forall {A} (P : A → Prop) k v (d : list (string * A)) :
  Forall (λ kv, P kv.2) d → od_get k d = Some v → P v.
Proof. intros Hd Hg%od_get_Some_elem. rewrite Forall_forall in Hd. by apply (Hd (k, v)). Qed.

Lemma increment_bounded k i : instr_bounded i → instr_bounded (increment k i).
Proof.
  intros Hb. unfold increment. destruct (od_get k _) eqn:Hg; [|done]. destruct Hb.
  constructor; cbn; try done.
  - by rewrite od_set_keys, Hg.
  - apply (od_set_forall (λ z, 0 ≤ z)); [|done].
    pose proof (od_get_forall (λ z, 0 ≤ z) _ _ _ ib_nonneg0 Hg) as Hz. cbn in Hz. lia.
Qed.

Lemma observe_latency_bounded rid kind ok ms i :
  instr_bounded i → instr_bounded (observe_replica_latency rid kind ok ms i).
Proof.
  intros []. constructor; cbn; try done.
  apply (od_set_forall (λ l, (length l ≤ i_latency_limit i)%nat)); [|done].
  apply push_bounded_length.
Qed.

Lemma record_read_bounded o ms i : instr_bounded i → instr_bounded (record_read o ms i).
Proof.
  intros Hb. apply (increment_bounded (counter_for_read o)) in Hb as [].
  constructor; cbn; try done. apply push_bounded_length.
Qed.

Lemma note_operation_bounded s i : instr_bounded i → instr_bounded (note_operation s i).
Proof. intros []. constructor; cbn; try done. apply push_bounded_length. Qed.

Lemma record_write_result_bounded `{PyRuntime} res i :
  instr_bounded i → instr_bounded (record_write_result res i).2.
Proof.
  intros Hb. unfold record_write_result. destruct (_ && _); [done |].
  apply (increment_bounded (counter_for_outcome (w_outcome res) (result_diverged res))) in Hb.
  destruct (negb _ && existsb _ _) eqn:E; [apply (increment_bounded "rejected_integrity") in Hb|];
    destruct Hb; constructor; cbn; try done; try apply push_bounded_length;
    destruct (negb _); try done; apply push_bounded_length.
Qed.
