(* ===== verification/BbCoordinator.v ===== *)
(** * The three-replica coordinator

    Models [blackboard/coordinator.py]: quorum evaluation, the write lifecycle
    PROPOSE / PREPARE / COMMIT or ABORT, quorum reads, explicit repair, and the
    merged committed view.  What one operation takes from outside (fresh
    identifier, clock, hooks, storage faults, listener) is its [OpEnv]. *)

From S2P Require Import Prelude PyString Json BbContracts BbStorage BbAuthorization BbReplica.
From S2P Require Import BbInstrumentation.

(** ** Quorum evaluation *)
Inductive QuorumVerdict := QUORUM_MET | INSUFFICIENT | INCOMPATIBLE.

#[export] Instance quorum_verdict_eq_dec : EqDecision QuorumVerdict.
Proof. solve_decision. Defined.

Record QuorumDecision := mk_quorum {
  q_decision : QuorumVerdict;
  q_compatible_replica_ids : list string;
  q_group_record_id : option string;
  q_group_content_hash : option string;
  q_group_sizes : list (Z * string);
}.

(** [groups.setdefault(key, []).append(x)]. *)
Definition group_add {K X} `{EqDecision K} (key : K) (x : X) (groups : list (K * list X))
    : list (K * list X) :=
  od_set key (default [] (od_get key groups) ++ [x]) groups.

Definition AckKey : Type := string * string * Z * string.

Definition ack_key (a : ReplicaAckV1) : option AckKey :=
  match a_ack_status a with
  | ACK_PREPARED =>
      rid ← a_record_id a; key ← a_record_key a; v ← a_record_version a; h ← a_content_hash a;
      Some (rid, key, v, h)
  | _ => None
  end.

Definition ack_groups (acks : list ReplicaAckV1) : list (AckKey * list ReplicaAckV1) :=
  foldl (λ groups a, match ack_key a with Some k => group_add k a groups | None => groups end)
    [] acks.

(** [sorted(groups.items(), key=lambda kv: (-len(kv[1]), tag(kv[0])))]. *)
Definition group_leb {K X} (tag : K → string) (g h : K * list X) : bool :=
  (length h.2 <? length g.2)%nat
  || ((length h.2 =? length g.2)%nat && str_leb (tag g.1) (tag h.1)).

Definition evaluate_quorum (acks : list ReplicaAckV1) (required : Z) : QuorumDecision :=
  let ordered := isort (group_leb (λ k : AckKey, k.2)) (ack_groups acks) in
  let sizes := map (λ g, (Z.of_nat (length g.2), g.1.2)) ordered in
  match ordered with
  | [] => mk_quorum INSUFFICIENT [] None None sizes
  | (best_key, best_members) :: rest =>
      if required <=? Z.of_nat (length best_members) then
        mk_quorum QUORUM_MET (map a_replica_id best_members)
          (Some best_key.1.1.1) (Some best_key.2) sizes
      else match rest with
           | _ :: _ => mk_quorum INCOMPATIBLE [] None None sizes
           | [] => mk_quorum INSUFFICIENT [] None None sizes
           end
  end.

(** ** Coordinator state *)
Record BlackboardCoordinator := mk_coordinator {
  co_replicas : list BlackboardReplica;
  co_settings : BlackboardSettings;
  co_instrumentation : BlackboardInstrumentation;
  co_op_counter : Z;
}.

Definition replica_ids (c : BlackboardCoordinator) : list string :=
  map replica_id (co_replicas c).

(** [__init__]; an injected instrumentation replaces the default one. *)
Definition new_coordinator (replicas : list BlackboardReplica) (settings : BlackboardSettings)
    (instrumentation : option BlackboardInstrumentation) : result BlackboardCoordinator :=
  _ ← check (length replicas =? 3)%nat ValueError
        ("the Blackboard requires exactly three replicas, got "
         +:+ fmt_int (Z.of_nat (length replicas)));
  let ids := map replica_id replicas in
  _ ← check (bool_decide (NoDup ids)) ValueError
        ("replica identities must be unique, got " +:+ repr_list ids);
  let instr := default
    (new_instrumentation (Z.to_nat (BbAuthorization.latency_samples_limit settings))
       (Z.to_nat (BbAuthorization.recent_operations_limit settings))
       (Z.to_nat (BbAuthorization.recent_rejections_limit settings))) instrumentation in
  Ok (mk_coordinator replicas settings instr 1).

Definition CM (A : Type) : Type := M BlackboardCoordinator A.

Definition with_replicas (rs : list BlackboardReplica) (c : BlackboardCoordinator)
    : BlackboardCoordinator :=
  mk_coordinator rs (co_settings c) (co_instrumentation c) (co_op_counter c).
Definition with_instrumentation (i : BlackboardInstrumentation) (c : BlackboardCoordinator)
    : BlackboardCoordinator :=
  mk_coordinator (co_replicas c) (co_settings c) i (co_op_counter c).

(** Run an instrumentation update. *)
Definition instrument (f : BlackboardInstrumentation → BlackboardInstrumentation) : CM unit :=
  modify (λ c, with_instrumentation (f (co_instrumentation c)) c).

Definition instrumentM {A} (f : M BlackboardInstrumentation A) : CM A := λ c,
  let '(out, i) := f (co_instrumentation c) in (out, with_instrumentation i c).

(** [_replica(replica_id)], and a call on it; identities are unique, so an
    identity stands for the object. *)
Definition find_replica (rid : string) (rs : list BlackboardReplica) : option BlackboardReplica :=
  head (filter (λ r, replica_id r = rid) rs).

Definition set_replica (rid : string) (r' : BlackboardReplica) (rs : list BlackboardReplica)
    : list BlackboardReplica :=
  map (λ r, if decide (replica_id r = rid) then r' else r) rs.

Definition on_replica {A} (rid : string) (f : BlackboardReplica → A * BlackboardReplica) : CM A :=
  λ c,
  match find_replica rid (co_replicas c) with
  | None => (raise KeyError (py_repr rid), c)
  | Some r => let '(a, r') := f r in (Ok a, with_replicas (set_replica rid r' (co_replicas c)) c)
  end.

Definition get_replica (rid : string) : CM BlackboardReplica := on_replica rid (λ r, (r, r)).

(** ** Surroundings of one operation *)
Record OpEnv := mk_op_env {
  oe_uuid_hex : string;
  oe_observe : HookContext → result unit;
  oe_calls : string → ReplicaOperationKind → CallEnv;
  oe_started_at_utc : string;
  oe_completed_at_utc : string;
  oe_duration_ms : f64;
}.

(** [f"{prefix}-{next(self._op_counter):06d}-{new_operation_id()[:12]}"]. *)
Definition new_op_id (env : OpEnv) (prefix : string) : CM string := λ c,
  (Ok (prefix +:+ "-" +:+ fmt_06d (co_op_counter c) +:+ "-" +:+ str_take 12 (oe_uuid_hex env)),
   mk_coordinator (co_replicas c) (co_settings c) (co_instrumentation c) (co_op_counter c + 1)).

(** ** Listener *)
Inductive ListenerInfo :=
  | ProposedInfo (identity : list (string * json))
  | PreparedInfo (ack : ReplicaAckV1).

(** The identity dictionary of the PROPOSED phase; it has no payload. *)
Definition proposed_identity (operation_id : string) (record : BlackboardRecordV1)
    : list (string * json) :=
  [("operation_id", JStr operation_id);
   ("record_id", JStr (r_record_id record));
   ("record_key", JStr (r_record_key record));
   ("record_type", JStr (record_type_value (r_record_type record)));
   ("record_version", JInt (r_record_version record));
   ("content_hash", JStr (r_content_hash record));
   ("author_id", JStr (r_author_id record));
   ("source_component", JStr (r_source_component record));
   ("logical_timestamp", json_opt_str (r_logical_timestamp record));
   ("window_id", json_opt_int (r_window_id record))].

Definition Listener : Type := string → ListenerInfo → result unit.

(** A failing listener is counted and isolated. *)
Definition notify_listener (listener : option Listener) (phase : string) (info : ListenerInfo)
    : CM unit :=
  match listener with
  | None => mret tt
  | Some f => match f phase info with
      | Ok _ => mret tt
      | Raise _ => instrument (increment "listener_errors")
      end
  end.

(** [float(ack.latency_ms or 0.0)]. *)
Definition or_zero (x : f64) : f64 := if f_eqb x f_zero then f_zero else x.

Definition latency_healthy (s : AckStatus) : bool :=
  match s with ACK_PREPARED | ACK_COMMITTED | ABORTED => true | _ => false end.

Definition observe_replicas_latency (acks : list ReplicaAckV1) : CM unit :=
  instrument (λ i, foldl (λ i a,
    observe_replica_latency (a_replica_id a) (py_lower (a_operation_kind a))
      (latency_healthy (a_ack_status a)) (or_zero (a_latency_ms a)) i) i acks).

Section coordinator.
Context `{PyRuntime} {Auth : Type} `{Authorizer Auth}.

(** ** Write path *)
Definition write_result (env : OpEnv) (operation_id principal : string) (outcome : WriteOutcome)
    (reason : option string) (record : option BlackboardRecordV1) (acks : list ReplicaAckV1)
    (replica_sync : list (string * ReplicationSyncState)) : CM WriteResultV1 :=
  let res := mk_write_result operation_id outcome reason principal
    (r_record_id <$> record) (r_record_key <$> record)
    (record_type_value ∘ r_record_type <$> record) (r_record_version <$> record)
    (r_content_hash <$> record) acks replica_sync (oe_started_at_utc env)
    (oe_completed_at_utc env) (oe_duration_ms env) in
  _ ← instrumentM (record_write_result res);
  mret res.

(** PREPARE on every replica, notifying after each. *)
Definition prepare_all (env : OpEnv) (listener : option Listener) (operation_id : string)
    (record : BlackboardRecordV1) (ids : list string) : CM (list ReplicaAckV1) :=
  foldM (λ acks rid,
    ack ← on_replica rid (prepare (oe_calls env rid PREPARE) operation_id record);
    _ ← notify_listener listener "PREPARED" (PreparedInfo ack);
    mret (acks ++ [ack])) [] ids.

Definition is_prepared (a : ReplicaAckV1) : bool := bool_decide (a_ack_status a = ACK_PREPARED).

Definition opt_max (l : list Z) : option Z :=
  match l with [] => None | x :: l => Some (foldl Z.max x l) end.

Definition rejection_mapping (s : AckStatus) : option WriteOutcome :=
  match s with
  | REJECT_STALE => Some REJECTED_STALE
  | REJECT_CONFLICT => Some REJECTED_CONFLICT
  | REJECT_SCHEMA => Some REJECTED_SCHEMA
  | REJECT_INTEGRITY => Some REJECTED_SCHEMA
  | REJECT_AUTHORIZATION => Some REJECTED_AUTHORIZATION
  | _ => None
  end.

(** The first non-empty reason. *)
Definition first_reason (acks : list ReplicaAckV1) (default_text : string) : string :=
  default default_text (head (omap (λ a,
    r ← a_reason a; if bool_decide (r = "") then None else Some r) acks)).

Definition classify_total_rejection (prepare_acks : list ReplicaAckV1) : WriteOutcome * string :=
  let statuses := remove_dups (map a_ack_status prepare_acks) in
  let terminal := filter (λ s, s ≠ UNAVAILABLE ∧ s ≠ STORAGE_ERROR) statuses in
  let mixed := (FAILED_QUORUM, "mixed rejection statuses across replicas: "
                  +:+ repr_list (sort_strings (map ack_status_value statuses))) in
  match terminal with
  | [] => (FAILED_QUORUM, "no responsive replica could prepare the proposal")
  | [REJECT_STALE] =>
      let current := opt_max (map (λ a, default 0 (a_current_version_at_replica a))
        (filter (λ a, a_ack_status a = REJECT_STALE) prepare_acks)) in
      (REJECTED_STALE, "proposal is stale; current committed version is " +:+ fmt_opt_int current)
  | [status] =>
      match rejection_mapping status with
      | Some outcome =>
          let terminal_acks := filter (λ a, a_ack_status a ∈ terminal) prepare_acks in
          (outcome, ack_status_value status +:+ ": "
             +:+ first_reason terminal_acks (ack_status_value status))
      | None => mixed
      end
  | _ => mixed
  end.

Definition abort_on (env : OpEnv) (operation_id record_key : string) (record_version : Z)
    (rid : string) : CM ReplicaAckV1 :=
  on_replica rid (abort (oe_calls env rid ABORT) operation_id record_key record_version).

Definition abort_prepared (env : OpEnv) (operation_id : string) (record : BlackboardRecordV1)
    (prepare_acks : list ReplicaAckV1) : CM (list ReplicaAckV1) :=
  foldM (λ acks ack,
    if is_prepared ack then
      a ← abort_on env operation_id (r_record_key record) (r_record_version record)
            (a_replica_id ack);
      mret (acks ++ [a])
    else mret acks) [] prepare_acks.

Definition abort_unprepared (env : OpEnv) (operation_id : string)
    (prepare_acks : list ReplicaAckV1) : CM (list ReplicaAckV1) :=
  foldM (λ acks ack,
    if is_prepared ack then mret acks
    else match a_record_key ack, a_record_version ack with
         | Some k, Some v =>
             a ← abort_on env operation_id k v (a_replica_id ack);
             mret (acks ++ [a])
         | _, _ => mret acks
         end) [] prepare_acks.

(** The first entry of a replica stays ([dict.setdefault]). *)
Definition sync_map_after_failure (all_acks : list ReplicaAckV1)
    : list (string * ReplicationSyncState) :=
  foldl (λ sync a,
    od_setdefault (a_replica_id a)
      (match a_ack_status a with
       | ABORTED => SYNC_ABORTED
       | UNAVAILABLE => SYNC_UNAVAILABLE
       | _ => NOT_PREPARED
       end) sync) [] all_acks.

(** *** The COMMIT phase *)
Record CommitPhase := mk_commit_phase {
  cp_commit_acks : list ReplicaAckV1;
  cp_loser_abort_acks : list ReplicaAckV1;
  cp_replica_sync : list (string * ReplicationSyncState);
}.

Definition missed_commit_detail (operation_id : string) (record : BlackboardRecordV1)
    (status : AckStatus) : string :=
  "missed commit op=" +:+ operation_id +:+ " key=" +:+ r_record_key record +:+ " v="
  +:+ fmt_int (r_record_version record) +:+ " status=" +:+ ack_status_value status.

Definition commit_member (env : OpEnv) (operation_id : string) (record : BlackboardRecordV1)
    (winning_ids : list string) (ph : CommitPhase) (ack : ReplicaAckV1) : CM CommitPhase :=
  let rid := a_replica_id ack in
  if negb (is_prepared ack) then
    mret (mk_commit_phase (cp_commit_acks ph) (cp_loser_abort_acks ph)
      (od_set rid (if bool_decide (a_ack_status ack = UNAVAILABLE)
                   then SYNC_UNAVAILABLE else NOT_PREPARED) (cp_replica_sync ph)))
  else if negb (bool_decide (rid ∈ winning_ids)) then
    l_ack ← abort_on env operation_id (r_record_key record) (r_record_version record) rid;
    mret (mk_commit_phase (cp_commit_acks ph) (cp_loser_abort_acks ph ++ [l_ack])
      (od_set rid (if bool_decide (a_ack_status l_ack = ABORTED)
                   then SYNC_ABORTED else SYNC_UNAVAILABLE) (cp_replica_sync ph)))
  else
    c_ack ← on_replica rid (commit (oe_calls env rid COMMIT) operation_id record);
    if bool_decide (a_ack_status c_ack = ACK_COMMITTED) then
      mret (mk_commit_phase (cp_commit_acks ph ++ [c_ack]) (cp_loser_abort_acks ph)
        (od_set rid SYNCED (cp_replica_sync ph)))
    else
      _ ← on_replica rid (λ r, (tt, mark_diverged
            (missed_commit_detail operation_id record (a_ack_status c_ack)) r));
      mret (mk_commit_phase (cp_commit_acks ph ++ [c_ack]) (cp_loser_abort_acks ph)
        (od_set rid DIVERGENT_REQUIRES_RECONCILIATION (cp_replica_sync ph))).

Definition durable_commits (record : BlackboardRecordV1) (commit_acks : list ReplicaAckV1)
    : list ReplicaAckV1 :=
  durable_acks (Some (r_record_id record)) (Some (r_content_hash record)) commit_acks.

(** The outcome needs a committed quorum, not only a prepared one. *)
Definition commit_outcome (required : Z) (record : BlackboardRecordV1) (winning_ids : list string)
    (prepare_acks commit_acks : list ReplicaAckV1) : WriteOutcome * option string :=
  let durable := durable_commits record commit_acks in
  let n_durable := Z.of_nat (length durable) in
  if required <=? n_durable then (COMMITTED, None)
  else if n_durable =? 1 then
    let committed := map a_replica_id durable in
    let failed := map a_replica_id
      (filter (λ a, a_replica_id a ∈ winning_ids ∧ a_replica_id a ∉ committed) prepare_acks) in
    (PARTIAL_COMMIT, Some ("partial/indeterminate commit: " +:+ fmt_int n_durable +:+ " of "
       +:+ fmt_int required +:+ " required commit acknowledgements succeeded (committed="
       +:+ repr_list committed +:+ ", failed=" +:+ repr_list failed
       +:+ "); state requires reconciliation"))
  else (FAILED_STORAGE, Some "quorum prepared but zero replicas completed the commit phase").

Definition commit_phase (env : OpEnv) (operation_id principal : string)
    (record : BlackboardRecordV1) (quorum : QuorumDecision) (prepare_acks : list ReplicaAckV1)
    : CM WriteResultV1 :=
  let winning_ids := q_compatible_replica_ids quorum in
  ph ← foldM (commit_member env operation_id record winning_ids)
         (mk_commit_phase [] [] []) prepare_acks;
  _ ← observe_replicas_latency (cp_commit_acks ph);
  _ ← observe_replicas_latency (cp_loser_abort_acks ph);
  _ ← instrument (increment "aborts_issued");
  cleanup_acks ← abort_unprepared env operation_id prepare_acks;
  _ ← observe_replicas_latency cleanup_acks;
  required ← gets (quorum_size ∘ co_settings);
  let '(outcome, reason) :=
    commit_outcome required record winning_ids prepare_acks (cp_commit_acks ph) in
  write_result env operation_id principal outcome reason (Some record)
    (prepare_acks ++ cp_commit_acks ph ++ cp_loser_abort_acks ph ++ cleanup_acks)
    (cp_replica_sync ph).

Definition abort_phase (env : OpEnv) (operation_id principal : string)
    (record : BlackboardRecordV1) (quorum : QuorumDecision) (prepare_acks : list ReplicaAckV1)
    : CM WriteResultV1 :=
  abort_acks ← abort_prepared env operation_id record prepare_acks;
  _ ← instrument (increment "aborts_issued");
  _ ← observe_replicas_latency abort_acks;
  write_result env operation_id principal FAILED_QUORUM
    (Some (if decide (q_decision quorum = INCOMPATIBLE)
           then "incompatible prepared acknowledgements cannot form a quorum"
           else "insufficient compatible prepared acknowledgements"))
    (Some record) (prepare_acks ++ abort_acks)
    (sync_map_after_failure (prepare_acks ++ abort_acks)).

(** Everything under the write lock. *)
Definition replicate (env : OpEnv) (listener : option Listener)
    (operation_id principal : string) (record : BlackboardRecordV1) : CM WriteResultV1 :=
  _ ← notify_listener listener "PROPOSED" (ProposedInfo (proposed_identity operation_id record));
  ids ← gets replica_ids;
  prepare_acks ← prepare_all env listener operation_id record ids;
  _ ← observe_replicas_latency prepare_acks;
  match filter (λ a, Is_true (is_prepared a)) prepare_acks with
  | [] =>
      let '(outcome, reason) := classify_total_rejection prepare_acks in
      write_result env operation_id principal outcome (Some reason) (Some record) prepare_acks
        (map (λ rid, (rid, NOT_PREPARED)) ids)
  | _ :: _ =>
      required ← gets (quorum_size ∘ co_settings);
      let quorum := evaluate_quorum prepare_acks required in
      if decide (q_decision quorum = QUORUM_MET)
      then commit_phase env operation_id principal record quorum prepare_acks
      else abort_phase env operation_id principal record quorum prepare_acks
  end.

(** What a caller may propose. *)
Inductive Proposal :=
  | ProposeDraft (draft : BlackboardRecordDraft)
  | ProposeRecord (record : BlackboardRecordV1)
  | ProposeOther.

Definition proposal_record (max_bytes : Z) (draft : Proposal) : result BlackboardRecordV1 :=
  record ← match draft with
           | ProposeDraft d => to_record d
           | ProposeRecord r => Ok r
           | ProposeOther => raise TypeError "draft must be BlackboardRecordDraft or record"
           end;
  _ ← ensure_record_size record max_bytes;
  Ok record.

Definition propose (auth : Auth) (env : OpEnv) (listener : option Listener)
    (draft : Proposal) (principal : string) : CM WriteResultV1 :=
  operation_id ← new_op_id env "bbw";
  _ ← instrument (increment "writes_started");
  max_bytes ← gets (max_record_canonical_bytes ∘ co_settings);
  if is_blank principal then
    write_result env operation_id principal REJECTED_AUTHORIZATION
      (Some "principal must be a non-empty string") None [] []
  else match proposal_record max_bytes draft with
  | Raise e =>
      write_result env operation_id principal REJECTED_SCHEMA (Some (exn_text e)) None [] []
  | Ok record =>
      decision ← lift (decide_request auth (mk_authz_request principal OP_WRITE
        (Some (record_type_value (r_record_type record))) (Some (r_record_key record))));
      if negb (dc_allowed decision) then
        write_result env operation_id principal REJECTED_AUTHORIZATION
          (Some (dc_policy_id decision +:+ ": " +:+ dc_reason decision)) (Some record) [] []
      else
        _ ← lift (oe_observe env (mk_hook_context BLACKBOARD_WRITE (Some operation_id) None None
              (Some principal) (Some (r_record_key record)) (Some (r_record_id record))));
        replicate env listener operation_id principal record
  end.

End coordinator.
