(* ===== verification/BbCluster.v ===== *)
(** * The cluster as a transition system

    Steps of the three replicas, taken in any order and by any number of
    coordinators: [replica_step] is one operation of one replica, [cluster_step]
    one such step in a list of replicas.  Committed rows only accumulate, which
    with quorum intersection gives agreement.  [runs] relates a computation of
    the coordinator to the steps it takes. *)

From S2P Require Import Prelude PyString Json BbContracts BbStorage BbStorageFacts BbAuthorization BbReplica.
From S2P Require Import BbReplicaFacts BbInstrumentation BbCoordinator.

Lemma head_None_iff {A} (l : list A) : head l = None ↔ l = [].
Proof. by destruct l. Qed.

Section groups.
Context {K X : Type} `{EqDecision K} (key : X → option K).

Definition group_all (l : list X) : list (K * list X) :=
  foldl (λ groups x, match key x with Some k => group_add k x groups | None => groups end) [] l.

Definition members (k : K) (l : list X) : list X := filter (λ x, key x = Some k) l.

Lemma group_all_snoc l x :
  group_all (l ++ [x]) =
  match key x with Some k => group_add k x (group_all l) | None => group_all l end.
Proof. unfold group_all. by rewrite foldl_app. Qed.

Lemma members_snoc k l x :
  members k (l ++ [x]) = members k l ++ (if decide (key x = Some k) then [x] else []).
Proof. unfold members. by rewrite filter_app. Qed.

(** The group of a key is the sublist of the elements with that key. *)
Lemma group_all_get l k :
  od_get k (group_all l) = match members k l with [] => None | g => Some g end.
Proof.
  induction l as [|x l IH] using rev_ind; [done |].
  rewrite group_all_snoc, members_snoc. destruct (key x) as [k'|] eqn:Hk.
  - unfold group_add. rewrite od_get_set. destruct (decide (k = k')) as [->|Hne].
    + rewrite decide_True by done. rewrite IH. destruct (members k' l); done.
    + rewrite decide_False by congruence. rewrite app_nil_r. done.
  - rewrite decide_False by done. by rewrite app_nil_r.
Qed.

Lemma group_all_nodup l : NoDup (group_all l).*1.
Proof.
  induction l as [|x l IH] using rev_ind; [constructor |].
  rewrite group_all_snoc. destruct (key x); [|done]. by apply od_set_nodup.
Qed.

Lemma elem_of_group_all l k g :
  (k, g) ∈ group_all l ↔ g = members k l ∧ g ≠ [].
Proof.
  pose proof (group_all_get l k) as Hg. split.
  - intros Hin. rewrite (od_elem_get _ _ _ (group_all_nodup l) Hin) in Hg.
    destruct (members k l); [done |]. by injection Hg as ->.
  - intros [-> Hne]. apply od_get_Some_elem. rewrite Hg. by destruct (members k l).
Qed.

Lemma members_elem k l x : x ∈ members k l ↔ key x = Some k ∧ x ∈ l.
Proof. apply (list_elem_of_filter (λ x, key x = Some k)). Qed.

Context (tag : K → string).

Lemma group_leb_total (g h : K * list X) : group_leb tag g h = true ∨ group_leb tag h g = true.
Proof.
  unfold group_leb. destruct (Nat.ltb_spec (length h.2) (length g.2)); [by left |].
  destruct (Nat.ltb_spec (length g.2) (length h.2)); [by right |].
  assert (length h.2 = length g.2) as -> by lia. rewrite Nat.eqb_refl. apply str_leb_total.
Qed.

Lemma group_leb_trans (g h i : K * list X) :
  group_leb tag g h = true → group_leb tag h i = true → group_leb tag g i = true.
Proof.
  unfold group_leb. rewrite !orb_true_iff, !andb_true_iff, !Nat.ltb_lt, !Nat.eqb_eq.
  intros [?|[? ?]] [?|[? ?]]; try (left; lia). right. split; [lia |]. by eapply str_leb_trans.
Qed.

(** The group ranked first is a largest one. *)
Lemma best_group l k g rest :
  isort (group_leb tag) (group_all l) = (k, g) :: rest →
  g = members k l ∧ g ≠ [] ∧ ∀ k', (length (members k' l) ≤ length g)%nat.
Proof.
  intros Hs. assert (Hh : head (isort (group_leb tag) (group_all l)) = Some (k, g)) by (by rewrite Hs).
  apply isort_head in Hh as [Hin Hmax]; [|apply group_leb_total | apply group_leb_trans].
  apply elem_of_group_all in Hin as [Hg Hne]. split_and!; [done..|]. intros k'.
  destruct (members k' l) as [|x m] eqn:Hm; [cbn; lia |].
  assert (Hin' : (k', x :: m) ∈ group_all l) by (by apply elem_of_group_all).
  destruct (Hmax _ Hin') as [Hle|Heq]; [|by injection Heq as -> ->].
  unfold group_leb in Hle. cbn [snd fst] in Hle.
  rewrite orb_true_iff, andb_true_iff, Nat.ltb_lt, Nat.eqb_eq in Hle. lia.
Qed.

Lemma no_group l :
  isort (group_leb tag) (group_all l) = [] ↔ ∀ x, x ∈ l → key x = None.
Proof.
  rewrite <-head_None_iff, isort_head_None by (apply group_leb_total || apply group_leb_trans). split.
  - intros Hn x Hx. destruct (key x) as [k|] eqn:Hk; [|done]. exfalso.
    assert (Hm : x ∈ members k l) by (by apply members_elem).
    destruct (members k l) as [|y m] eqn:Hmk; [set_solver |].
    assert (Hin : (k, y :: m) ∈ group_all l) by (by apply elem_of_group_all).
    rewrite Hn in Hin. set_solver.
  - intros Hall. destruct (group_all l) as [|[k g] gs] eqn:Hg; [done |]. exfalso.
    assert (Hin : (k, g) ∈ group_all l) by (rewrite Hg; set_solver).
    apply elem_of_group_all in Hin as [-> Hne].
    destruct (members k l) as [|x m] eqn:Hm; [done |].
    assert (Hx : x ∈ members k l) by (rewrite Hm; set_solver).
    apply members_elem in Hx as [Hk Hx]. rewrite (Hall _ Hx) in Hk. done.
Qed.
End groups.

(** ** [evaluate_quorum] *)
Lemma evaluate_quorum_met acks required :
  q_decision (evaluate_quorum acks required) = QUORUM_MET →
  ∃ k, q_compatible_replica_ids (evaluate_quorum acks required) =
         map a_replica_id (members ack_key k acks) ∧
    q_group_record_id (evaluate_quorum acks required) = Some k.1.1.1 ∧
    q_group_content_hash (evaluate_quorum acks required) = Some k.2 ∧
    required ≤ Z.of_nat (length (members ack_key k acks)) ∧ members ack_key k acks ≠ [] ∧
    ∀ k', (length (members ack_key k' acks) ≤ length (members ack_key k acks))%nat.
Proof.
  unfold evaluate_quorum. cbv zeta. change (ack_groups acks) with (group_all ack_key acks).
  destruct (isort _ _) as [|[k g] rest] eqn:Hs; [done |].
  apply best_group in Hs as (-> & Hne & Hmax).
  destruct (Z.leb_spec required (Z.of_nat (length (members ack_key k acks))));
    [|destruct rest; done].
  intros _. exists k. by split_and!.
Qed.

Lemma evaluate_quorum_not_met acks required :
  q_decision (evaluate_quorum acks required) ≠ QUORUM_MET →
  q_compatible_replica_ids (evaluate_quorum acks required) = [] ∧
  ∀ k, members ack_key k acks = [] ∨ Z.of_nat (length (members ack_key k acks)) < required.
Proof.
  unfold evaluate_quorum. cbv zeta. change (ack_groups acks) with (group_all ack_key acks).
  destruct (isort _ _) as [|[k g] rest] eqn:Hs.
  - intros _. split; [done |]. intros k. left.
    rewrite (no_group ack_key (λ k : AckKey, k.2)) in Hs.
    destruct (members ack_key k acks) as [|a m] eqn:Hm; [done |].
    assert (Ha : a ∈ members ack_key k acks) by (rewrite Hm; set_solver).
    apply members_elem in Ha as [Hk Ha]. rewrite (Hs _ Ha) in Hk. done.
  - apply best_group in Hs as (-> & Hne & Hmax).
    destruct (Z.leb_spec required (Z.of_nat (length (members ack_key k acks)))) as [|Hlt]; [done |].
    destruct rest; intros _; (split; [done |]); intros k'; right; specialize (Hmax k'); lia.
Qed.

(** * The cluster as a transition system

    Steps of the three replicas, taken in any order and by any number of
    coordinators: [replica_step] is one operation of one replica, [cluster_step]
    one such step in a list of replicas.  Committed rows only accumulate, which
    with quorum intersection gives agreement.  [runs] relates a computation of
    the coordinator to the steps it takes. *)
Section cluster.
Context `{PyRuntime}.

(** ** Steps *)
Inductive replica_step : BlackboardReplica → BlackboardReplica → Prop :=
  | step_prepare env op record r ack r' :
      prepare env op record r = (ack, r') → replica_step r r'
  | step_commit env op record r ack r' :
      commit env op record r = (ack, r') → replica_step r r'
  | step_abort env op k v r ack r' :
      abort env op k v r = (ack, r') → replica_step r r'
  | step_upsert env op record r ack r' :
      upsert_external env op record r = (ack, r') → replica_step r r'
  | step_mark_diverged detail r : replica_step r (mark_diverged detail r)
  | step_clear_divergence r : replica_step r (clear_divergence r)
  | step_set_unavailable reason r : replica_step r (set_unavailable reason r)
  | step_set_available r : replica_step r (set_available r)
  | step_restart r max_bytes lease limit :
      replica_step r (new_replica (replica_id r) (replica_db r) max_bytes lease limit).

Definition cluster_step (rs rs' : list BlackboardReplica) : Prop :=
  ∃ i r r', rs !! i = Some r ∧ replica_step r r' ∧ rs' = <[i := r']> rs.

Definition cluster_wf (rs : list BlackboardReplica) : Prop := Forall replica_wf rs.

(** ** What a step preserves *)

(** Same identity, and every committed row is still there. *)
Record replica_le (r r' : BlackboardReplica) : Prop := {
  le_id : replica_id r' = replica_id r;
  le_rows : db_committed (replica_db r) ⊆ db_committed (replica_db r');
}.

#[export] Instance replica_le_preorder : PreOrder replica_le.
Proof.
  split; [by constructor |]. intros r1 r2 r3 [H1 S1] [H2 S2].
  constructor; [congruence | by etrans].
Qed.

Lemma log_same_rows db db' : log_same db db' → db_committed db ⊆ db_committed db'.
Proof. by intros [-> _]. Qed.

Lemma log_appends_rows row db db' :
  db_wf db → log_appends row db db' → db_committed db ⊆ db_committed db'.
Proof.
  intros Hwf (Hv & -> & _). apply insert_subseteq.
  destruct (db_committed db !! _) as [row'|] eqn:Hr; [|done].
  assert (1 ≤ cr_record_version row ≤ head_of db (cr_record_key row))
    by (apply (wf_dense _ Hwf); by eexists).
  lia.
Qed.

(** A step keeps the invariant and either leaves the logs alone or appends one
    row to one of them. *)
Lemma replica_step_effect r r' :
  replica_step r r' → replica_wf r →
  replica_wf r' ∧ replica_id r' = replica_id r ∧
  (log_same (replica_db r) (replica_db r') ∨
   ∃ row, log_appends row (replica_db r) (replica_db r')).
Proof.
  intros Hs Hwf. destruct Hs as [env op record r ack r' Hp|env op record r ack r' Hp
    |env op k v r ack r' Hp|env op record r ack r' Hp|d r|r|reason r|r|r mb l lim].
  - apply prepare_spec in Hp as (Hf & Hsame & Hw & _).
    split_and!; [by apply Hw | by apply frame_id | by left].
  - apply commit_spec in Hp as (Hf & _ & Hc & Hn); [|done].
    destruct (decide (a_ack_status ack = ACK_COMMITTED)) as [Ha|Ha].
    + destruct (Hc Ha) as (_ & [row Hrow] & _).
      split_and!; [by eapply committed_by_wf | by apply frame_id |].
      right. exists row. by destruct Hrow.
    + destruct (Hn Ha) as [Hdb _]. unfold replica_wf, log_same. rewrite Hdb.
      split_and!; [done | by apply frame_id | by left].
  - apply abort_spec in Hp as (Hf & _ & Hsame & Hw & _).
    split_and!; [by apply Hw | by apply frame_id | by left].
  - apply upsert_external_spec in Hp as (Hf & _ & Hw & Heff & _); [|done].
    split_and!; [done | by apply frame_id | done].
  - split_and!; [done.. | by left].
  - unfold clear_divergence. destruct (health r); split_and!; try done; by left.
  - split_and!; [done.. | by left].
  - split_and!; [done.. | by left].
  - split_and!; [|done | by left]. destruct Hwf. by constructor.
Qed.

Lemma replica_step_le r r' : replica_step r r' → replica_wf r → replica_wf r' ∧ replica_le r r'.
Proof.
  intros Hs Hwf. destruct (replica_step_effect _ _ Hs Hwf) as (Hwf' & Hid & Hl).
  split; [done |]. constructor; [done |].
  destruct Hl as [Hl|[row Hl]]; [by apply log_same_rows | by eapply log_appends_rows].
Qed.

Lemma cluster_steps_le rs rs' :
  rtc cluster_step rs rs' → cluster_wf rs → cluster_wf rs' ∧ Forall2 replica_le rs rs'.
Proof.
  unfold cluster_wf. induction 1 as [rs|rs rs1 rs2 (i & r & r' & Hi & Hs & ->) _ IH]; intros Hwf.
  { split; [done |]. reflexivity. }
  assert (replica_wf r) as Hr by (by eapply Forall_lookup_1).
  destruct (replica_step_le _ _ Hs Hr) as [Hr' Hle].
  destruct IH as [Hwf2 Hle2]; [by apply Forall_insert |]. split; [done |].
  etrans; [|exact Hle2]. rewrite <-(list_insert_id rs i r) at 1 by done.
  apply Forall2_insert; [|done]. reflexivity.
Qed.

(** ** Holding a row *)

(** The replica [rid] has committed [record_id] at slot [(k, v)]. *)
Definition holds (rs : list BlackboardReplica) (k : string) (v : Z) (record_id rid : string) : Prop :=
  ∃ r row, r ∈ rs ∧ replica_id r = rid ∧ committed_slot r k v = Some row ∧
    cr_record_id row = record_id.

(** At least [quorum] distinct replicas have. *)
Definition committed_on (rs : list BlackboardReplica) (quorum : Z) (k : string) (v : Z)
    (record_id : string) : Prop :=
  ∃ rids, NoDup rids ∧ quorum ≤ Z.of_nat (length rids) ∧
    Forall (holds rs k v record_id) rids.

Lemma holds_mono rs rs' k v id rid :
  Forall2 replica_le rs rs' → holds rs k v id rid → holds rs' k v id rid.
Proof.
  intros Hle (r & row & Hr & Hid & Hs & Hrow).
  apply list_elem_of_lookup in Hr as [i Hi].
  destruct (Forall2_lookup_l _ _ _ _ _ Hle Hi) as (r' & Hi' & [Hid' Hsub]).
  exists r', row. split_and!; [by eapply list_elem_of_lookup_2 | congruence | | done].
  by eapply lookup_weaken.
Qed.

Lemma committed_on_mono rs rs' q k v id :
  Forall2 replica_le rs rs' → committed_on rs q k v id → committed_on rs' q k v id.
Proof.
  intros Hle (rids & Hnd & Hq & Hall). exists rids. split_and!; [done.. |].
  eapply Forall_impl; [exact Hall |]. intros rid. by apply holds_mono.
Qed.

Lemma holds_id rs k v id rid : holds rs k v id rid → rid ∈ map replica_id rs.
Proof. intros (r & _ & Hr & <- & _). by apply list_elem_of_fmap_2. Qed.

Lemma holds_unique rs k v id1 id2 rid :
  NoDup (map replica_id rs) → holds rs k v id1 rid → holds rs k v id2 rid → id1 = id2.
Proof.
  intros Hnd (r1 & row1 & Hr1 & Hid1 & Hs1 & <-) (r2 & row2 & Hr2 & Hid2 & Hs2 & <-).
  assert (r1 = r2) as ->; [|congruence].
  apply list_elem_of_lookup in Hr1 as [i Hi], Hr2 as [j Hj].
  assert (i = j) as ->; [|congruence].
  eapply NoDup_lookup; [exact Hnd | |]; rewrite list_lookup_fmap;
    [rewrite Hi; cbn; by f_equal | rewrite Hj; cbn; congruence].
Qed.

(** Two quorums agree on the record of a slot. *)
Lemma committed_on_agree rs q k v id1 id2 :
  NoDup (map replica_id rs) → Z.of_nat (length rs) < 2 * q →
  committed_on rs q k v id1 → committed_on rs q k v id2 → id1 = id2.
Proof.
  intros Hnd Hq (l1 & Hn1 & Hl1 & Hf1) (l2 & Hn2 & Hl2 & Hf2).
  rewrite Forall_forall in Hf1, Hf2.
  destruct (quorum_intersect (map replica_id rs) l1 l2) as (rid & H1 & H2); [done | done | | | |].
  - intros x Hx. by eapply holds_id, Hf1.
  - intros x Hx. by eapply holds_id, Hf2.
  - rewrite length_map. lia.
  - eapply holds_unique; [done | by apply Hf1 | by apply Hf2].
Qed.

Lemma replica_le_ids rs rs' : Forall2 replica_le rs rs' → map replica_id rs' = map replica_id rs.
Proof. induction 1 as [|r r' rs rs' [Hid _] _ IH]; cbn; [done |]. by rewrite Hid, IH. Qed.

End cluster.

(** * Reasoning about coordinator computations

    A small Hoare logic for the coordinator monad.  [triple P m Q]: from any
    well-formed cluster in [P], [m] only takes [cluster_step]s, if it returns
    [a] the cluster is in [Q a], and if it raises the exception satisfies
    [raises].  Assertions are about the replicas; instrumentation and counters
    are framed away. *)
Section triples.
Context `{PyRuntime} (settings : BlackboardSettings) (ids : list string).
Context (raises : exn → Prop).

Abbreviation assertion := (list BlackboardReplica → Prop).

Definition coord_ok (c : BlackboardCoordinator) : Prop :=
  co_settings c = settings ∧ replica_ids c = ids ∧ NoDup ids ∧ cluster_wf (co_replicas c).

Definition triple {A} (P : assertion) (m : CM A) (Q : A → assertion) : Prop :=
  ∀ c out c', coord_ok c → P (co_replicas c) → m c = (out, c') →
    rtc cluster_step (co_replicas c) (co_replicas c') ∧ co_settings c' = settings ∧
    match out with Ok a => Q a (co_replicas c') | Raise e => raises e end.

Lemma coord_ok_steps c c' :
  coord_ok c → rtc cluster_step (co_replicas c) (co_replicas c') → co_settings c' = settings →
  coord_ok c'.
Proof.
  intros (Hs & Hi & Hnd & Hwf) Hr Hs'. destruct (cluster_steps_le _ _ Hr Hwf) as [Hwf' Hle].
  split_and!; [done | | done..]. unfold replica_ids in *. by rewrite (replica_le_ids _ _ Hle).
Qed.

Lemma triple_ret {A} (P : assertion) (a : A) (Q : A → assertion) :
  (∀ rs, P rs → Q a rs) → triple P (mret a) Q.
Proof. intros HPQ c out c' (Hs & _) HP [= <- <-]. split_and!; [done..|]. by apply HPQ. Qed.

Lemma triple_bind {A B} (P : assertion) (R : A → assertion) (Q : B → assertion)
    (m : CM A) (f : A → CM B) :
  triple P m R → (∀ a, triple (R a) (f a) Q) → triple P (m ≫= f) Q.
Proof.
  intros Hm Hf c out c' Hok HP. unfold mbind, M_bind.
  destruct (m c) as [[a|e] c1] eqn:Hmc; destruct (Hm _ _ _ Hok HP Hmc) as (Hr & Hs & HR).
  - intros Hfc. assert (Hok1 : coord_ok c1) by (by eapply coord_ok_steps).
    destruct (Hf a _ _ _ Hok1 HR Hfc) as (Hr' & Hs' & HQ).
    split_and!; [by etrans | done | done].
  - intros [= <- <-]. by split_and!.
Qed.

Lemma triple_weaken {A} (P P' : assertion) (Q Q' : A → assertion) m :
  (∀ rs, P' rs → P rs) → (∀ a rs, Q a rs → Q' a rs) → triple P m Q → triple P' m Q'.
Proof.
  intros HP HQ Hm c out c' Hok HP' Hmc.
  destruct (Hm _ _ _ Hok (HP _ HP') Hmc) as (Hr & Hs & Ha). split_and!; [done..|].
  destruct out; auto.
Qed.

Lemma triple_post {A} (P : assertion) (Q Q' : A → assertion) m :
  (∀ a rs, Q a rs → Q' a rs) → triple P m Q → triple P m Q'.
Proof. intros HQ. by apply triple_weaken. Qed.

Lemma triple_pre {A} (P P' : assertion) (Q : A → assertion) m :
  (∀ rs, P' rs → P rs) → triple P m Q → triple P' m Q.
Proof. intros HP. by apply triple_weaken. Qed.

(** Use a pure part of the precondition, or what a well-formed coordinator says
    about a known list of replicas. *)
Lemma triple_pure {A} (φ : Prop) (P : assertion) (m : CM A) (Q : A → assertion) :
  (φ → triple P m Q) → triple (λ rs, φ ∧ P rs) m Q.
Proof. intros Hm c out c' Hok [Hφ HP]. by apply (Hm Hφ). Qed.

Lemma triple_known {A} rs1 (m : CM A) (Q : A → assertion) :
  (map replica_id rs1 = ids → NoDup ids → cluster_wf rs1 → triple (λ rs, rs = rs1) m Q) →
  triple (λ rs, rs = rs1) m Q.
Proof.
  intros Hm c out c' Hok Hrs. pose proof Hok as (_ & Hi & Hnd & Hwf).
  unfold replica_ids in Hi. rewrite Hrs in Hi, Hwf. by apply Hm.
Qed.

Lemma triple_raise {A} (P : assertion) (e : exn) (Q : A → assertion) :
  raises e → triple P (λ c, (Raise e, c)) Q.
Proof. intros He c out c' (Hs & _) _ [= <- <-]. by split_and!. Qed.

Lemma triple_lift {A} (P : assertion) (r : result A) (Q : A → assertion) :
  (∀ a rs, r = Ok a → P rs → Q a rs) → (∀ e, r = Raise e → raises e) → triple P (lift r) Q.
Proof.
  intros HQ HX c out c' (Hs & _) HP [= <- <-]. split_and!; [done..|]. destruct r; auto.
Qed.

Lemma triple_gets_settings {A} (P : assertion) (f : BlackboardSettings → A) :
  triple P (gets (f ∘ co_settings)) (λ a rs, a = f settings ∧ P rs).
Proof.
  intros c out c' (Hs & _) HP [= <- <-]. do 2 (split; [done |]). cbn. by rewrite Hs.
Qed.

Lemma triple_gets_ids (P : assertion) : triple P (gets replica_ids) (λ a rs, a = ids ∧ P rs).
Proof.
  intros c out c' (Hs & Hi & _) HP [= <- <-]. by split_and!.
Qed.

Lemma triple_instrument (P : assertion) f : triple P (instrument f) (λ _, P).
Proof. intros c out c' (Hs & _) HP [= <- <-]. by split_and!. Qed.

Lemma triple_instrumentM {A} (P : assertion) (f : M BlackboardInstrumentation A) :
  (∀ i e i', f i = (Raise e, i') → raises e) → triple P (instrumentM f) (λ _, P).
Proof.
  intros HX c out c' (Hs & _) HP. unfold instrumentM. destruct (f _) as [o i] eqn:Hf.
  intros [= <- <-]. split_and!; [done..|]. destruct o; [done | by eapply HX].
Qed.

Lemma triple_new_op_id (P : assertion) env prefix : triple P (new_op_id env prefix) (λ _, P).
Proof. intros c out c' (Hs & _) HP [= <- <-]. by split_and!. Qed.

Lemma triple_notify (P : assertion) l phase info : triple P (notify_listener l phase info) (λ _, P).
Proof.
  unfold notify_listener. destruct l as [f|]; [|by apply triple_ret].
  destruct (f phase info); [by apply triple_ret | apply triple_instrument].
Qed.

Lemma triple_foldM {A B} (I : list A → B → assertion) (f : B → A → CM B) l :
  (∀ pre x post acc, l = pre ++ x :: post → triple (I pre acc) (f acc x) (I (pre ++ [x]))) →
  ∀ acc, triple (I [] acc) (foldM f acc l) (I l).
Proof.
  intros Hstep. assert (Hgen : ∀ post pre acc, l = pre ++ post →
    triple (I pre acc) (foldM f acc post) (I l)); [|intros acc; by apply (Hgen l [])].
  induction post as [|x post IH]; intros pre acc Hl; cbn.
  - rewrite app_nil_r in Hl. subst pre. by apply triple_ret.
  - change (triple (I pre acc) (f acc x ≫= λ acc', foldM f acc' post) (I l)).
    apply (triple_bind _ (I (pre ++ [x]))); [by eapply Hstep |].
    intros acc'. apply IH. by rewrite <-app_assoc.
Qed.

(** *** Replica calls *)
Lemma set_replica_insert rs i r rid r' :
  NoDup (map replica_id rs) → rs !! i = Some r → replica_id r = rid →
  set_replica rid r' rs = <[i := r']> rs.
Proof.
  revert i. induction rs as [|s rs IH]; intros i Hnd Hi Hid; [done |].
  cbn in Hnd. apply NoDup_cons in Hnd as [Hni Hnd]. destruct i as [|i]; cbn in *.
  - injection Hi as ->. rewrite decide_True by done. f_equal.
    clear IH. induction rs as [|t rs IH]; cbn; [done |].
    apply NoDup_cons in Hnd as [_ Hnd]. cbn in Hni. rewrite elem_of_cons in Hni.
    rewrite decide_False by (intros Ht; apply Hni; left; congruence). f_equal.
    apply IH; [by intros ?; apply Hni; right | done].
  - rewrite decide_False; [f_equal; by eapply IH |].
    intros Hs. apply Hni. rewrite Hs, <-Hid.
    apply list_elem_of_fmap_2, (list_elem_of_lookup_2 _ _ _ Hi).
Qed.

Lemma find_replica_lookup rs rid r :
  find_replica rid rs = Some r → ∃ i, rs !! i = Some r ∧ replica_id r = rid.
Proof.
  unfold find_replica. intros Hf. assert (Hin : r ∈ filter (λ r, replica_id r = rid) rs).
  { destruct (filter _ rs); [done |]. injection Hf as ->. set_solver. }
  apply list_elem_of_filter in Hin as [Hid Hin].
  apply list_elem_of_lookup in Hin as [i Hi]. by exists i.
Qed.

Lemma find_replica_None rs rid : find_replica rid rs = None → rid ∉ map replica_id rs.
Proof.
  unfold find_replica. intros Hf [r [-> Hr]]%list_elem_of_fmap.
  assert (Hin : r ∈ filter (λ s, replica_id s = replica_id r) rs)
    by (by apply list_elem_of_filter).
  destruct (filter _ rs); [set_solver | done].
Qed.

Lemma triple_on_replica {A} (P : assertion) (Q : A → assertion) rid
    (f : BlackboardReplica → A * BlackboardReplica) :
  (∀ rs i r a r', rs !! i = Some r → replica_id r = rid → P rs → replica_wf r →
     NoDup (map replica_id rs) → f r = (a, r') →
     (r' = r ∨ replica_step r r') ∧ Q a (<[i := r']> rs)) →
  rid ∈ ids → triple P (on_replica rid f) Q.
Proof.
  intros Hf Hrid c out c' (Hs & Hi & Hnd & Hwf) HP. unfold on_replica.
  destruct (find_replica rid (co_replicas c)) as [r|] eqn:Hr.
  2: { exfalso. rewrite <-Hi in Hrid. by apply find_replica_None in Hr. }
  apply find_replica_lookup in Hr as (i & Hlk & Hid).
  destruct (f r) as [a r'] eqn:Hfr. intros [= <- <-]. cbn.
  assert (Hnd' : NoDup (map replica_id (co_replicas c))) by (unfold replica_ids in Hi; by rewrite Hi).
  rewrite (set_replica_insert _ i r) by done.
  destruct (Hf _ i r a r' Hlk Hid HP) as [Hstep HQ]; [by eapply Forall_lookup_1 | done..|].
  split; [|done].
  destruct Hstep as [->|Hstep]; [by rewrite list_insert_id |].
  apply rtc_once. by exists i, r, r'.
Qed.

(** A call that is one step of the replica keeps every monotone assertion. *)
Definition monotone (P : assertion) : Prop :=
  ∀ rs rs', Forall2 replica_le rs rs' → P rs → P rs'.

Lemma insert_le rs i r r' :
  rs !! i = Some r → replica_le r r' → Forall2 replica_le rs (<[i := r']> rs).
Proof.
  intros Hi Hle. rewrite <-(list_insert_id rs i r) at 1 by done.
  apply Forall2_insert; [reflexivity | done].
Qed.

Lemma triple_on_replica_mono {A} (P : assertion) rid (f : BlackboardReplica → A * BlackboardReplica) :
  monotone P →
  (∀ r a r', f r = (a, r') → r' = r ∨ replica_step r r') →
  rid ∈ ids → triple P (on_replica rid f) (λ _, P).
Proof.
  intros Hmono Hf. apply triple_on_replica. clear -Hmono Hf. intros rs i r a r' Hi Hid HP Hwf _ Hfr.
  destruct (Hf _ _ _ Hfr) as [->|Hstep].
  - rewrite list_insert_id by done. by split; [left |].
  - split; [by right |]. eapply Hmono; [|exact HP]. eapply insert_le; [done |].
    by apply replica_step_le.
Qed.

Lemma triple_get_replica (P : assertion) rid :
  rid ∈ ids → triple P (get_replica rid) (λ _, P).
Proof.
  apply triple_on_replica. intros rs i r a r' Hi Hid HP Hwf _ [= <- <-].
  rewrite list_insert_id by done. by split; [left |].
Qed.

End triples.
