(* ===== verification/BbWriteFacts.v ===== *)
(** * What a write does to the cluster

    [wrote] states the effect of a write on the three logs; the triples carry
    it through PREPARE, COMMIT and ABORT up to [propose]. *)

From S2P Require Import Prelude PyString Json BbContracts BbStorage BbStorageFacts BbAuthorization BbReplica.
From S2P Require Import BbReplicaFacts BbInstrumentation BbCoordinator BbCluster.

Section effect.
Context `{PyRuntime}.

(** The row a write stores carries the identity of its record. *)
Definition row_is (key : option string) (version : option Z) (record_id : option string)
    (row : CommittedRow) : Prop :=
  Some (cr_record_key row) = key ∧ Some (cr_record_version row) = version ∧
  Some (cr_record_id row) = record_id.

(** From [rs0] to [rs]: the replicas [rids] appended one row each, the others
    have the logs they had. *)
Definition wrote (is_row : CommittedRow → Prop) (rids : list string)
    (rs0 rs : list BlackboardReplica) : Prop :=
  Forall2 (λ r0 r, replica_id r = replica_id r0 ∧
    if decide (replica_id r0 ∈ rids)
    then ∃ row, is_row row ∧ log_appends row (replica_db r0) (replica_db r)
    else log_same (replica_db r0) (replica_db r)) rs0 rs.

Lemma wrote_refl is_row rs : wrote is_row [] rs rs.
Proof.
  unfold wrote. induction rs as [|r rs IH]; constructor; [|done].
  split; [done |]. by rewrite decide_False by set_solver.
Qed.

Lemma log_same_trans db1 db2 db3 : log_same db1 db2 → log_same db2 db3 → log_same db1 db3.
Proof. intros [H1 H2] [H3 H4]. split; congruence. Qed.

Lemma log_appends_same row db1 db2 db3 :
  log_appends row db1 db2 → log_same db2 db3 → log_appends row db1 db3.
Proof. intros (H1 & H2 & H3) [H4 H5]. split_and!; congruence. Qed.

Lemma log_same_appends row db1 db2 db3 :
  log_same db1 db2 → log_appends row db2 db3 → log_appends row db1 db3.
Proof.
  intros Hs (H1 & H2 & H3). rewrite (log_same_head _ _ _ Hs) in H1.
  destruct Hs as [H4 H5]. split_and!; congruence.
Qed.

Lemma wrote_lookup is_row rids rs0 rs i r :
  wrote is_row rids rs0 rs → rs !! i = Some r →
  ∃ r0, rs0 !! i = Some r0 ∧ replica_id r = replica_id r0 ∧
    if decide (replica_id r0 ∈ rids)
    then ∃ row, is_row row ∧ log_appends row (replica_db r0) (replica_db r)
    else log_same (replica_db r0) (replica_db r).
Proof. intros Hw Hi. destruct (Forall2_lookup_r _ _ _ _ _ Hw Hi) as (r0 & ? & ? & ?). eauto. Qed.

(** A call that leaves the logs alone. *)
Lemma wrote_same is_row rids rs0 rs i r r' :
  wrote is_row rids rs0 rs → rs !! i = Some r → replica_id r' = replica_id r →
  log_same (replica_db r) (replica_db r') → wrote is_row rids rs0 (<[i := r']> rs).
Proof.
  intros Hw Hi Hid Hs. destruct (wrote_lookup _ _ _ _ _ _ Hw Hi) as (r0 & H0 & Hid0 & He).
  unfold wrote. rewrite <-(list_insert_id rs0 i r0) by done.
  apply Forall2_insert; [done |]. split; [congruence |]. case_decide.
  - destruct He as (row & Hrow & Ha). exists row. split; [done |]. by eapply log_appends_same.
  - by eapply log_same_trans.
Qed.

(** A call that appends a row at a replica that had not written yet. *)
Lemma wrote_append is_row rids rs0 rs i r r' row :
  NoDup (map replica_id rs) →
  wrote is_row rids rs0 rs → rs !! i = Some r → replica_id r' = replica_id r →
  replica_id r ∉ rids → is_row row → log_appends row (replica_db r) (replica_db r') →
  wrote is_row (rids ++ [replica_id r]) rs0 (<[i := r']> rs).
Proof.
  intros Hnd Hw Hi Hid Hni Hrow Ha.
  destruct (wrote_lookup _ _ _ _ _ _ Hw Hi) as (r0 & H0 & Hid0 & He).
  apply Forall2_same_length_lookup_2.
  { rewrite length_insert. by eapply Forall2_length. }
  intros j s s' Hj Hj'. destruct (decide (i = j)) as [<-|Hne].
  - rewrite list_lookup_insert_eq in Hj' by (by eapply lookup_lt_Some).
    simplify_eq. split; [congruence |]. rewrite decide_False in He by congruence.
    rewrite decide_True by set_solver. exists row. split; [done |]. by eapply log_same_appends.
  - rewrite list_lookup_insert_ne in Hj' by done.
    destruct (wrote_lookup _ _ _ _ _ _ Hw Hj') as (s0 & Hs0 & Hsid & Hse).
    assert (s0 = s) as -> by congruence. split; [done |].
    assert (replica_id s ≠ replica_id r).
    { intros Heq. apply Hne. eapply NoDup_lookup; [exact Hnd | |];
        rewrite list_lookup_fmap; [by rewrite Hi | rewrite Hj'; cbn; congruence]. }
    destruct (decide (replica_id s ∈ rids)).
    + by rewrite decide_True by set_solver.
    + by rewrite decide_False by set_solver.
Qed.

(** The written replicas hold the row. *)
Lemma wrote_holds k v id rids rs0 rs :
  wrote (row_is (Some k) (Some v) (Some id)) rids rs0 rs → rids ⊆ map replica_id rs0 →
  Forall (holds rs k v id) rids.
Proof.
  intros Hw Hsub. apply Forall_forall. intros rid Hrid.
  specialize (Hsub _ Hrid). apply list_elem_of_fmap in Hsub as (r0 & -> & Hr0).
  apply list_elem_of_lookup in Hr0 as [i Hi].
  destruct (Forall2_lookup_l _ _ _ _ _ Hw Hi) as (r & Hr & Hid & He).
  rewrite decide_True in He by done. destruct He as (row & (Ek & Ev & Ei) & _ & Hc & _).
  injection Ek as Ek. injection Ev as Ev. injection Ei as Ei.
  exists r, row. split_and!; [by eapply list_elem_of_lookup_2 | done | | done].
  unfold committed_slot. rewrite Hc, Ek, Ev. by apply lookup_insert_eq.
Qed.

End effect.

Section write.
Context `{PyRuntime} {Auth : Type} `{Authorizer Auth}.
Context (settings : BlackboardSettings) (ids : list string) (raises : exn → Prop).
Context (Hids : NoDup ids) (rs0 : list BlackboardReplica).

Abbreviation triple := (triple settings ids raises).

(** ** PREPARE *)
Lemma triple_prepare_all is_row rids env listener op record :
  triple (wrote is_row rids rs0) (prepare_all env listener op record ids)
    (λ acks rs, wrote is_row rids rs0 rs ∧ map a_replica_id acks = ids).
Proof.
  eapply triple_weaken; [| |apply (triple_foldM _ _ _
    (λ pre (acks : list ReplicaAckV1) rs, wrote is_row rids rs0 rs ∧ map a_replica_id acks = pre))].
  - done.
  - done.
  - intros pre rid post acks Hl. eapply triple_bind.
    { eapply (triple_on_replica _ _ _ _
        (λ ack rs, (wrote is_row rids rs0 rs ∧ map a_replica_id acks = pre) ∧ a_replica_id ack = rid)).
      - intros rs i r ack r' Hi Hid [Hw Hm] Hwf _ Hp.
        split; [right; by econstructor |].
        apply prepare_spec in Hp as (Hf & Hs & _ & Hack & _).
        split_and!; [|done|congruence]. eapply wrote_same; [done.. | by apply frame_id | done].
      - rewrite Hl. set_solver. }
    intros ack. eapply triple_bind; [apply triple_notify |].
    intros u. apply triple_ret. intros rs [[Hw Hm] <-]. split; [done |].
    by rewrite map_app, Hm.
Qed.

(** ** ABORT *)
Lemma triple_abort_on is_row rids env op k v rid :
  rid ∈ ids →
  triple (wrote is_row rids rs0) (abort_on env op k v rid) (λ _, wrote is_row rids rs0).
Proof.
  intros Hrid. apply triple_on_replica; [|done].
  intros rs i r ack r' Hi Hid Hw Hwf _ Ha. split; [right; by econstructor |].
  apply abort_spec in Ha as (Hf & _ & Hs & _).
  eapply wrote_same; [done.. | by apply frame_id | done].
Qed.

Lemma acks_in_ids (acks pre post : list ReplicaAckV1) a :
  map a_replica_id acks = ids → acks = pre ++ a :: post → a_replica_id a ∈ ids.
Proof. intros <- ->. rewrite map_app; cbn. set_solver. Qed.

Lemma triple_abort_prepared is_row rids env op record acks :
  map a_replica_id acks = ids →
  triple (wrote is_row rids rs0) (abort_prepared env op record acks) (λ _, wrote is_row rids rs0).
Proof.
  intros Hm. eapply (triple_foldM _ _ _ (λ _ _, wrote is_row rids rs0)).
  intros pre a post acc Hl. destruct (is_prepared a); [|by apply triple_ret].
  eapply triple_bind; [apply triple_abort_on; by eapply acks_in_ids |].
  intros ack. by apply triple_ret.
Qed.

Lemma triple_abort_unprepared is_row rids env op acks :
  map a_replica_id acks = ids →
  triple (wrote is_row rids rs0) (abort_unprepared env op acks) (λ _, wrote is_row rids rs0).
Proof.
  intros Hm. eapply (triple_foldM _ _ _ (λ _ _, wrote is_row rids rs0)).
  intros pre a post acc Hl. destruct (is_prepared a); [by apply triple_ret |].
  destruct (a_record_key a), (a_record_version a); try by apply triple_ret.
  eapply triple_bind; [apply triple_abort_on; by eapply acks_in_ids |].
  intros ack. by apply triple_ret.
Qed.

(** ** COMMIT *)
Definition record_row (record : BlackboardRecordV1) : CommittedRow → Prop :=
  row_is (Some (r_record_key record)) (Some (r_record_version record)) (Some (r_record_id record)).

(** The replicas that acknowledged the commit. *)
Definition durable_ids (record : BlackboardRecordV1) (ph : CommitPhase) : list string :=
  map a_replica_id (durable_commits record (cp_commit_acks ph)).

Record commit_inv (record : BlackboardRecordV1) (pre : list ReplicaAckV1) (ph : CommitPhase)
    (rs : list BlackboardReplica) : Prop := {
  ci_wrote : wrote (record_row record) (durable_ids record ph) rs0 rs;
  ci_sub : map a_replica_id (cp_commit_acks ph) `sublist_of` map a_replica_id pre;
}.

Lemma filter_map_sublist {A B} (f : A → B) (P : A → Prop) `{∀ x, Decision (P x)} l :
  map f (filter P l) `sublist_of` map f l.
Proof.
  induction l as [|x l IH]; [done |]. rewrite filter_cons. case_decide; cbn; by constructor.
Qed.

Lemma durable_ids_sub record pre ph rs :
  commit_inv record pre ph rs → durable_ids record ph `sublist_of` map a_replica_id pre.
Proof. intros [_ Hs]. etrans; [apply filter_map_sublist | exact Hs]. Qed.

Lemma commit_inv_skip record pre ack ph rs commit_acks loser sync :
  commit_acks = cp_commit_acks ph →
  commit_inv record pre ph rs → commit_inv record (pre ++ [ack]) (mk_commit_phase commit_acks loser sync) rs.
Proof.
  intros -> [Hw Hs]. constructor; [done |]. cbn. rewrite map_app. by apply sublist_inserts_r.
Qed.

Lemma durable_commits_app record acks ack :
  durable_commits record (acks ++ [ack]) =
  durable_commits record acks ++
  if decide (a_ack_status ack = ACK_COMMITTED ∧ a_record_id ack = Some (r_record_id record)
             ∧ a_content_hash ack = Some (r_content_hash record)) then [ack] else [].
Proof. unfold durable_commits, durable_acks. by rewrite filter_app. Qed.

Lemma triple_commit_member env op record winning acks pre ack post ph :
  map a_replica_id acks = ids → acks = pre ++ ack :: post →
  triple (commit_inv record pre ph) (commit_member env op record winning ph ack)
    (commit_inv record (pre ++ [ack])).
Proof.
  intros Hm Hl. pose proof (acks_in_ids _ _ _ _ Hm Hl) as Hrid. unfold commit_member.
  destruct (is_prepared ack); cbn [negb].
  2: { apply triple_ret. intros rs Hi. by eapply commit_inv_skip. }
  destruct (bool_decide (_ ∈ winning)); cbn [negb].
  2: { eapply triple_bind with (R := λ _, commit_inv record pre ph).
       - apply triple_on_replica; [|done].
         intros rs i r a r' Hi Hid [Hw Hs] Hwf _ Ha. split; [right; by econstructor |].
         apply abort_spec in Ha as (Hf & _ & Hsame & _). constructor; [|done].
         eapply wrote_same; [done.. | by apply frame_id | done].
       - intros a. apply triple_ret. intros rs Hi. by eapply commit_inv_skip. }
  apply (triple_bind _ _ _ _ (λ c_ack rs,
    ∀ loser sync, commit_inv record (pre ++ [ack])
      (mk_commit_phase (cp_commit_acks ph ++ [c_ack]) loser sync) rs)).
  { apply triple_on_replica; [|done].
    intros rs i r c_ack r' Hi Hid Hinv Hwf Hnd Hc. split; [right; by econstructor |].
    intros loser sync. pose proof (durable_ids_sub _ _ _ _ Hinv) as Hdur. destruct Hinv as [Hw Hs].
    assert (Hni : replica_id r ∉ durable_ids record ph).
    { rewrite Hid. intros Hin. rewrite <-Hm, Hl, map_app in Hids. cbn in Hids.
      apply NoDup_app in Hids as (_ & Hdis & _).
      apply (Hdis (a_replica_id ack)); [|set_solver].
      by eapply sublist_subseteq. }
    apply commit_spec in Hc as (Hf & Hcid & Hyes & Hno); [|done].
    constructor; [|cbn; rewrite !map_app; cbn; apply sublist_app; [done |]; by rewrite Hcid, Hid].
    unfold durable_ids. cbn [cp_commit_acks]. rewrite durable_commits_app. case_decide as Hdec.
    - destruct (Hyes (proj1 Hdec)) as (_ & [row Hrow] & _). rewrite map_app; cbn.
      rewrite Hcid. eapply wrote_append; [done.. | by apply frame_id | done | | by destruct Hrow].
      unfold record_row, row_is. destruct Hrow as [_ _ _ -> -> ->]. done.
    - rewrite app_nil_r. destruct (decide (a_ack_status c_ack = ACK_COMMITTED)) as [Hst|Hst].
      + destruct (Hyes Hst) as (_ & _ & H1 & H2). by destruct Hdec.
      + destruct (Hno Hst) as [Hdb _].
        eapply wrote_same; [done.. | by apply frame_id |]. unfold log_same. by rewrite Hdb. }
  intros c_ack. destruct (bool_decide (_ = ACK_COMMITTED)).
  { apply triple_ret. intros rs Hi. apply Hi. }
  apply (triple_bind _ _ _ _ (λ (_ : unit) rs,
    ∀ loser sync, commit_inv record (pre ++ [ack])
      (mk_commit_phase (cp_commit_acks ph ++ [c_ack]) loser sync) rs)).
  { apply triple_on_replica; [|done].
    intros rs i r u r' Hi Hid Hinv Hwf _ [= <- <-]. split; [right; constructor |].
    intros loser sync. destruct (Hinv loser sync) as [Hw Hs]. constructor; [|done].
    by eapply wrote_same. }
  intros u. apply triple_ret. intros rs Hi. apply Hi.
Qed.

(** ** Results *)

(** How many replicas wrote, by outcome. *)
Definition outcome_rids (quorum : Z) (outcome : WriteOutcome) (rids : list string) : Prop :=
  match outcome with
  | COMMITTED => quorum ≤ Z.of_nat (length rids)
  | PARTIAL_COMMIT => length rids = 1%nat ∧ 1 < quorum
  | FAILED_STORAGE => Z.of_nat (length rids) < quorum ∧ length rids ≠ 1%nat
  | _ => rids = []
  end.

Definition write_post (res : WriteResultV1) (rs : list BlackboardReplica) : Prop :=
  ∃ rids, NoDup rids ∧ rids ⊆ ids ∧
    wrote (row_is (w_record_key res) (w_record_version res) (w_record_id res)) rids rs0 rs ∧
    outcome_rids (quorum_size settings) (w_outcome res) rids.

Context (Hassert : quorum_size settings < 2 → ∀ e, exn_type e = AssertionError → raises e).

Lemma record_write_result_raises res i e i' :
  record_write_result res i = (Raise e, i') →
  exn_type e = AssertionError ∧ w_outcome res = COMMITTED ∧
  (length (durable_acks (w_record_id res) (w_content_hash res) (w_acks res)) < 2)%nat.
Proof.
  unfold record_write_result. destruct (_ && _) eqn:Hc; [|done].
  apply andb_true_iff in Hc as [Ho%bool_decide_eq_true Hl%Nat.ltb_lt].
  by intros [= <- <-].
Qed.

Lemma triple_write_result (P : list BlackboardReplica → Prop) env op principal outcome reason
    record acks sync :
  (outcome = COMMITTED → 2 ≤ quorum_size settings →
   (2 ≤ length (durable_acks (r_record_id <$> record) (r_content_hash <$> record) acks))%nat) →
  triple P (write_result env op principal outcome reason record acks sync)
    (λ res rs, P rs ∧ w_outcome res = outcome ∧ w_record_key res = r_record_key <$> record ∧
       w_record_version res = r_record_version <$> record ∧
       w_record_id res = r_record_id <$> record ∧ w_acks res = acks ∧ w_replica_sync res = sync).
Proof.
  intros Hd. eapply triple_bind.
  - apply triple_instrumentM. intros i e i' (He & Ho & Hl)%record_write_result_raises.
    apply Hassert; [|done]. destruct (decide (2 ≤ quorum_size settings)) as [Hq|]; [|lia].
    exfalso. by apply (proj1 (Nat.lt_nge _ _) Hl), Hd.
  - intros u. apply triple_ret. done.
Qed.

(** A result without writes. *)
Lemma triple_write_nothing is_row env op principal outcome reason record acks sync :
  outcome_rids (quorum_size settings) outcome [] → outcome ≠ COMMITTED →
  triple (wrote is_row [] rs0) (write_result env op principal outcome reason record acks sync)
    write_post.
Proof.
  intros Ho Hne. eapply triple_post; [|by apply triple_write_result].
  intros res rs (Hw & Hout & _). exists []. rewrite Hout.
  split_and!; [constructor | set_solver | | done].
  eapply Forall2_impl; [exact Hw |]. intros r0 r [Hid He]. split; [done |].
  by rewrite !decide_False in * by set_solver.
Qed.

Lemma commit_outcome_rids record winning prepare_acks ph :
  outcome_rids (quorum_size settings)
    (commit_outcome (quorum_size settings) record winning prepare_acks (cp_commit_acks ph)).1
    (durable_ids record ph).
Proof.
  unfold commit_outcome, durable_ids. cbv zeta.
  destruct (Z.leb_spec (quorum_size settings)
    (Z.of_nat (length (durable_commits record (cp_commit_acks ph))))) as [Hle|Hgt]; cbn;
    [by rewrite length_map |].
  destruct (Z.eqb_spec (Z.of_nat (length (durable_commits record (cp_commit_acks ph)))) 1); cbn;
    rewrite length_map; lia.
Qed.

Lemma commit_outcome_committed record winning prepare_acks acks :
  (commit_outcome (quorum_size settings) record winning prepare_acks acks).1 = COMMITTED →
  quorum_size settings ≤ Z.of_nat (length (durable_commits record acks)).
Proof.
  unfold commit_outcome. cbv zeta. destruct (Z.leb_spec (quorum_size settings)
    (Z.of_nat (length (durable_commits record acks)))); [done |]. by destruct (_ =? 1).
Qed.

Lemma triple_commit_phase env op principal record quorum acks :
  map a_replica_id acks = ids →
  triple (wrote (record_row record) [] rs0)
    (commit_phase env op principal record quorum acks) write_post.
Proof.
  intros Hm. unfold commit_phase.
  apply (triple_bind _ _ _ _ (λ ph rs, wrote (record_row record) (durable_ids record ph) rs0 rs ∧
    NoDup (durable_ids record ph) ∧ durable_ids record ph ⊆ ids)).
  { eapply triple_weaken; [| |apply (triple_foldM _ _ _ (commit_inv record))].
    - intros rs Hw. by constructor.
    - intros ph rs Hinv. pose proof (durable_ids_sub _ _ _ _ Hinv) as Hsub. rewrite Hm in Hsub.
      split_and!; [by destruct Hinv | by eapply sublist_NoDup | by apply sublist_subseteq].
    - intros pre ack post ph Hl. by eapply triple_commit_member. }
  intros ph. eapply triple_bind; [apply triple_instrument |]. intros u1.
  eapply triple_bind; [apply triple_instrument |]. intros u2.
  eapply triple_bind; [apply triple_instrument |]. intros u3. cbn.
  apply (triple_bind _ _ _ _ (λ (_ : list ReplicaAckV1) rs,
    wrote (record_row record) (durable_ids record ph) rs0 rs ∧
    NoDup (durable_ids record ph) ∧ durable_ids record ph ⊆ ids)).
  { intros c out c' Hok (Hw & Hnd & Hsub) Hc.
    destruct (triple_abort_unprepared (record_row record) (durable_ids record ph) env op acks Hm
      c out c' Hok Hw Hc) as (? & ? & ?).
    split_and!; [done..|]. by destruct out. }
  intros cleanup. eapply triple_bind; [apply triple_instrument |]. intros u4.
  eapply triple_bind; [apply triple_gets_settings |]. intros required. cbn.
  intros c out c' Hok [-> (Hw & Hnd & Hsub)]. revert c out c' Hok Hw.
  pose proof (commit_outcome_rids record (q_compatible_replica_ids quorum) acks ph) as Hrids.
  pose proof (commit_outcome_committed record (q_compatible_replica_ids quorum) acks
    (cp_commit_acks ph)) as Hcom.
  destruct (commit_outcome _ _ _ _ _) as [outcome reason]; cbn in *.
  eapply triple_weaken; [intros rs Hw; exact Hw | |apply triple_write_result].
  - intros res rs (Hw & Hout & Hk & Hv & Hi & _). exists (durable_ids record ph).
    rewrite Hk, Hv, Hi, Hout. by split_and!.
  - intros Ho Hq. specialize (Hcom Ho). unfold durable_acks. rewrite !filter_app, !length_app.
    change (filter _ (cp_commit_acks ph)) with (durable_commits record (cp_commit_acks ph)). lia.
Qed.

Lemma triple_abort_phase env op principal record quorum acks :
  map a_replica_id acks = ids →
  triple (wrote (record_row record) [] rs0)
    (abort_phase env op principal record quorum acks) write_post.
Proof.
  intros Hm. unfold abort_phase. eapply triple_bind; [by apply triple_abort_prepared |].
  intros abort_acks. eapply triple_bind; [apply triple_instrument |]. intros u1.
  eapply triple_bind; [apply triple_instrument |]. intros u2. by apply triple_write_nothing.
Qed.

Lemma classify_outcome acks :
  outcome_rids (quorum_size settings) (classify_total_rejection acks).1 [] ∧
  (classify_total_rejection acks).1 ≠ COMMITTED.
Proof.
  unfold classify_total_rejection. cbv zeta.
  destruct (filter _ (remove_dups _)) as [|[] [|]]; cbn; by split.
Qed.

Lemma triple_replicate env listener op principal record :
  triple (wrote (record_row record) [] rs0)
    (replicate env listener op principal record) write_post.
Proof.
  unfold replicate. eapply triple_bind; [apply triple_notify |]. intros u0.
  eapply triple_bind; [apply triple_gets_ids |]. intros ids'. cbn.
  intros c out c' Hok [-> Hw]. revert c out c' Hok Hw.
  eapply triple_bind; [apply triple_prepare_all |]. intros acks. cbn.
  eapply triple_bind; [apply triple_instrument |]. intros u1. cbn.
  intros c out c' Hok [Hw Hm]. revert c out c' Hok Hw.
  destruct (filter _ acks) as [|a rest].
  - pose proof (classify_outcome acks) as [Ho Hne].
    destruct (classify_total_rejection acks) as [outcome reason]. by apply triple_write_nothing.
  - eapply triple_bind; [apply triple_gets_settings |]. intros required. cbn.
    intros c out c' Hok [-> Hw]. revert c out c' Hok Hw.
    case_decide; [by apply triple_commit_phase | by apply triple_abort_phase].
Qed.

Lemma triple_propose auth env listener draft principal :
  (∀ rq e, decide_request auth rq = Raise e → raises e) →
  (∀ ctx e, oe_observe env ctx = Raise e → raises e) →
  triple (λ rs, rs = rs0) (propose auth env listener draft principal) write_post.
Proof.
  intros Hauth Hhook. unfold propose.
  eapply triple_weaken with (P := wrote (λ _, True) [] rs0); [| done |].
  { intros rs ->. apply wrote_refl. }
  eapply triple_bind; [apply triple_new_op_id |]. intros op.
  eapply triple_bind; [apply triple_instrument |]. intros u0.
  eapply triple_bind; [apply triple_gets_settings |]. intros max_bytes. cbn.
  intros c out c' Hok [-> Hw]. revert c out c' Hok Hw.
  destruct (is_blank principal); [by apply triple_write_nothing |].
  destruct (proposal_record _ _) as [record|e]; [|by apply triple_write_nothing].
  eapply triple_bind.
  { apply triple_lift with (Q := λ _, wrote (λ _, True) [] rs0); [done | apply Hauth]. }
  intros decision. destruct (negb _); [by apply triple_write_nothing |].
  eapply triple_bind.
  { apply triple_lift with (Q := λ _, wrote (λ _, True) [] rs0); [done | apply Hhook]. }
  intros u. eapply triple_weaken; [| |apply triple_replicate]; [|done].
  intros rs Hw. eapply Forall2_impl; [exact Hw |]. intros r0 r [Hid He]. split; [done |].
  by rewrite !decide_False in * by set_solver.
Qed.

End write.
