(* ===== verification/BbReads.v ===== *)
(** * Quorum reads, repair and the committed view

    Models the read side of [blackboard/coordinator.py]: observing each
    replica, [_read], [resync_replicas_from_majority], the head hint, and the
    bounded, quorum-filtered [committed_view]. *)

From S2P Require Import Prelude PyString Json BbContracts BbStorage BbAuthorization BbReplica.
From S2P Require Import BbInstrumentation BbCoordinator.

(** ** Observations *)
Record Observation := mk_obs {
  ob_replica_id : string;
  ob_responded : bool;
  ob_found : bool;
  ob_record_version : option Z;
  ob_content_hash : option string;
  ob_record : option BlackboardRecordV1;
  ob_detail : option string;
}.

Definition public_observation (o : Observation) : ReplicaReadObservationV1 :=
  mk_public_obs (ob_replica_id o) (ob_responded o) (ob_found o) (ob_record_version o)
    (ob_content_hash o) (ob_detail o).

(** [(o.record_version or 0, o.content_hash or "")]. *)
Definition obs_key (o : Observation) : Z * string :=
  (default 0 (ob_record_version o), default "" (ob_content_hash o)).

Definition obs_groups (present : list Observation) : list ((Z * string) * list Observation) :=
  foldl (λ groups o, group_add (obs_key o) o groups) [] present.

Definition ordered_groups (present : list Observation) : list ((Z * string) * list Observation) :=
  isort (group_leb snd) (obs_groups present).

Section reads.
Context `{PyRuntime} {Auth : Type} `{Authorizer Auth}.

(** A read of committed state may fail in the storage engine. *)
Definition read_call (env : CallEnv) (r : BlackboardReplica) (record_key : string)
    (record_version : option Z) : result (option CommittedRow) :=
  match ce_storage env with
  | Some e => Raise e
  | None => replica_get_committed_row r record_key record_version
  end.

Definition observe_replica (env : CallEnv) (record_key : string) (record_version : option Z)
    (r : BlackboardReplica) : Observation :=
  let rid := replica_id r in
  if decide (health r = HEALTH_UNAVAILABLE) then
    mk_obs rid false false None None None
      (Some (or_text (unavailable_reason r) "marked unavailable"))
  else match read_call env r record_key record_version with
  | Raise e => mk_obs rid false false None None None (Some (exn_text e))
  | Ok None => mk_obs rid true false None None None None
  | Ok (Some row) =>
      match row_to_record row with
      | Raise e =>
          mk_obs rid true false None None None
            (Some ("integrity: stored record failed verification (" +:+ exn_msg e +:+ ")"))
      | Ok record =>
          mk_obs rid true true (Some (r_record_version record)) (Some (r_content_hash record))
            (Some record) None
      end
  end.

(** ** Reads *)
Record ReadCtx := mk_read_ctx {
  rc_op : string;
  rc_principal : string;
  rc_key : string;
  rc_version : option Z;
}.

(** [finish]. *)
Definition finish_read (env : OpEnv) (ctx : ReadCtx) (outcome : ReadOutcome)
    (record : option BlackboardRecordV1) (reason : option string)
    (observations : list ReplicaReadObservationV1) (divergent unavailable : list string)
    : CM ReadResultV1 :=
  _ ← instrument (record_read outcome (oe_duration_ms env));
  mret (mk_read_result (rc_op ctx) (rc_principal ctx) (rc_key ctx) (rc_version ctx) outcome
          record reason observations divergent unavailable (oe_duration_ms env)).

Definition mark_on (rid detail : string) : CM unit :=
  on_replica rid (λ r, (tt, mark_diverged detail r)).

(** Replicas whose stored row failed verification. *)
Definition mark_integrity_failures (read_op : string) (observations : list Observation)
    : CM unit :=
  foldM (λ _ o,
    match ob_detail o with
    | Some d =>
        if negb (bool_decide (d = "")) && startswith "integrity" d
        then mark_on (ob_replica_id o)
               ("stored-record integrity failure op=" +:+ read_op +:+ ": " +:+ d)
        else mret tt
    | None => mret tt
    end) tt observations.

Definition fmt_value (v : option Z) (h : option string) : string :=
  "v" +:+ fmt_opt_int v +:+ "/" +:+ fmt_opt_str h.

Definition divergence_detail (ctx : ReadCtx) (best : Z * string) (o : Observation) : string :=
  if ob_found o then
    "read divergence op=" +:+ rc_op ctx +:+ " key=" +:+ rc_key ctx +:+ " observed="
    +:+ fmt_value (ob_record_version o) (ob_content_hash o) +:+ " majority="
    +:+ fmt_value (Some best.1) (Some best.2)
  else
    "read lag op=" +:+ rc_op ctx +:+ " key=" +:+ rc_key ctx
    +:+ ": no committed value while majority holds " +:+ fmt_value (Some best.1) (Some best.2).

Definition mark_divergent (ctx : ReadCtx) (best : Z * string) (observations : list Observation)
    (divergent_ids : list string) : CM unit :=
  foldM (λ _ rid,
    match head (filter (λ o, ob_replica_id o = rid) observations) with
    | Some o => mark_on rid (divergence_detail ctx best o)
    | None => throw (OtherError "StopIteration") ""
    end) tt divergent_ids.

Definition DEGRADED_ABSENCE : string :=
  "absence confirmed by responding majority only; some replicas unavailable".
Definition DEGRADED_VALUE : string :=
  "compatible majority returned; some replicas unavailable/divergent/lagging".

(** The decision of [_read] from the observations. *)
Definition decide_read (env : OpEnv) (ctx : ReadCtx) (required : Z) (total : nat)
    (observations : list Observation) : CM ReadResultV1 :=
  let public := map public_observation observations in
  let responses := filter (λ o, Is_true (ob_responded o)) observations in
  let present := filter (λ o, Is_true (ob_found o)) responses in
  let absent := filter (λ o, ¬ Is_true (ob_found o)) responses in
  let unavailable := map ob_replica_id (filter (λ o, ¬ Is_true (ob_responded o)) observations) in
  let n := Z.of_nat (length responses) in
  let no_authority outcome reason divergent :=
    finish_read env ctx outcome None (Some reason) public divergent unavailable in
  match responses, ordered_groups present with
  | [], _ => no_authority READ_UNAVAILABLE "no replica responded" []
  | _, [] =>
      if required <=? n then
        finish_read env ctx NOT_FOUND None
          (if (length responses =? total)%nat then None else Some DEGRADED_ABSENCE)
          public [] unavailable
      else no_authority INSUFFICIENT_QUORUM
             ("absence confirmed by only " +:+ fmt_int n +:+ " of " +:+ fmt_int required
              +:+ " required replicas") []
  | _, (best_key, best_group) :: _ =>
      let best_size := length best_group in
      let divergent :=
        map ob_replica_id (filter (λ o, obs_key o ≠ best_key) present)
        ++ map ob_replica_id absent in
      let record := head best_group ≫= ob_record in
      _ ← mark_integrity_failures (rc_op ctx) observations;
      if n <? required then
        no_authority INSUFFICIENT_QUORUM
          ("only " +:+ fmt_int n +:+ " of " +:+ fmt_int required
           +:+ " required replicas responded; a value cannot be confirmed") divergent
      else if (best_size =? length responses)%nat && (length responses =? total)%nat then
        finish_read env ctx CONSISTENT record None public [] []
      else if required <=? Z.of_nat best_size then
        _ ← mark_divergent ctx best_key observations divergent;
        finish_read env ctx DEGRADED_CONSISTENT record (Some DEGRADED_VALUE) public divergent
          unavailable
      else no_authority INCONSISTENT "no compatible majority across replicas" divergent
  end.

Definition observe_all (env : OpEnv) (record_key : string) (record_version : option Z)
    (ids : list string) : CM (list Observation) :=
  foldM (λ acc rid,
    r ← get_replica rid;
    mret (acc ++ [observe_replica (oe_calls env rid READ) record_key record_version r])) [] ids.

Definition read (auth : Auth) (env : OpEnv) (principal record_key : string)
    (record_version : option Z) : CM ReadResultV1 :=
  read_op ← new_op_id env "bbr";
  _ ← instrument (increment "reads_started");
  let ctx := mk_read_ctx read_op principal record_key record_version in
  let rejected reason := finish_read env ctx AUTHORIZATION_REJECTED None (Some reason) [] [] [] in
  if is_blank principal then rejected "principal must be a non-empty string"
  else
    decision ← lift (decide_request auth
      (mk_authz_request principal OP_READ None (Some record_key)));
    if negb (dc_allowed decision)
    then rejected (dc_policy_id decision +:+ ": " +:+ dc_reason decision)
    else
      _ ← lift (oe_observe env (mk_hook_context BLACKBOARD_READ (Some read_op) None None
            (Some principal) (Some record_key) None));
      ids ← gets replica_ids;
      observations ← observe_all env record_key record_version ids;
      required ← gets (quorum_size ∘ co_settings);
      decide_read env ctx required (length ids) observations.

Definition read_latest (auth : Auth) (env : OpEnv) (principal record_key : string)
    : CM ReadResultV1 := read auth env principal record_key None.

Definition read_version (auth : Auth) (env : OpEnv) (principal record_key : string) (v : Z)
    : CM ReadResultV1 := read auth env principal record_key (Some v).

(** ** Explicit repair *)
Definition read_internal_majority (env : OpEnv) (record_key : string)
    : CM (option BlackboardRecordV1) :=
  ids ← gets replica_ids;
  observations ← observe_all env record_key None ids;
  required ← gets (quorum_size ∘ co_settings);
  let present := filter (λ o, Is_true (ob_responded o && ob_found o)) observations in
  match ordered_groups present with
  | [] => mret None
  | (_, best_group) :: _ =>
      if Z.of_nat (length best_group) <? required then mret None
      else mret (head best_group ≫= ob_record)
  end.

Record ResyncReport := mk_resync {
  rs_repair_operation_id : string;
  rs_status : string;
  rs_reason : option string;
  rs_source : option (string * Z * string);
  rs_replicas : list (string * string);
}.

Record ResyncAcc := mk_resync_acc { ra_report : list (string * string); ra_applied : Z; ra_refused : Z }.

(** One target of a repair: upsert, then read the head back. *)
Definition resync_one (env : OpEnv) (repair_op record_key : string) (probe : BlackboardRecordV1)
    (acc : ResyncAcc) (rid : string) : CM ResyncAcc :=
  ack ← on_replica rid (upsert_external (oe_calls env rid EXTERNAL_UPSERT) repair_op probe);
  r ← get_replica rid;
  let head_row := match read_call (oe_calls env rid READ) r record_key None with
                  | Ok row => row | Raise _ => None end in
  let aligned := match head_row with
                 | Some row => bool_decide (cr_record_id row = r_record_id probe)
                 | None => false
                 end in
  let report text := od_set rid text (ra_report acc) in
  if bool_decide (a_ack_status ack = ACK_COMMITTED) && aligned then
    _ ← on_replica rid (λ r, (tt, clear_divergence r));
    mret (mk_resync_acc (report ("REPAIRED (" +:+ fmt_opt_str (a_reason ack) +:+ ")"))
            (ra_applied acc + 1) (ra_refused acc))
  else if aligned && bool_decide (a_ack_status ack = ACK_COMMITTED) then
    _ ← on_replica rid (λ r, (tt, clear_divergence r));
    mret (mk_resync_acc (report "REPAIRED (already identical)")
            (ra_applied acc + 1) (ra_refused acc))
  else
    let ahead := match head_row with
                 | Some row => if r_record_version probe <? cr_record_version row
                               then Some (cr_record_version row) else None
                 | None => None
                 end in
    match ahead with
    | Some v =>
        _ ← mark_on rid ("resync op=" +:+ repair_op +:+ " key=" +:+ record_key +:+ ": head v"
              +:+ fmt_int v +:+ " ahead of majority head v" +:+ fmt_int (r_record_version probe)
              +:+ "; committed data preserved");
        mret (mk_resync_acc
          (report ("PRESERVED_DIVERGENT_HEAD (local head v" +:+ fmt_int v +:+ " kept)"))
          (ra_applied acc) (ra_refused acc + 1))
    | None =>
        mret (mk_resync_acc
          (report ("REFUSED (" +:+ ack_status_value (a_ack_status ack) +:+ ": "
                   +:+ fmt_opt_str (a_reason ack) +:+ ")"))
          (ra_applied acc) (ra_refused acc + 1))
    end.

Definition resync_replicas_from_majority (auth : Auth) (env : OpEnv)
    (principal record_key : string) (targets : option (list string)) : CM ResyncReport :=
  repair_op ← new_op_id env "bbs";
  decision ← lift (decide_request auth
    (mk_authz_request principal OP_WRITE None (Some record_key)));
  if negb (dc_allowed decision) then
    mret (mk_resync repair_op "AUTHORIZATION_REJECTED"
      (Some (dc_policy_id decision +:+ ": " +:+ dc_reason decision)) None [])
  else
    probe ← read_internal_majority env record_key;
    match probe with
    | None =>
        mret (mk_resync repair_op "NO_MAJORITY_SOURCE"
          (Some "no compatible majority exists to repair from") None [])
    | Some probe =>
        ids ← gets replica_ids;
        let targets := default ids targets in
        _ ← foldM (λ _ rid, _ ← get_replica rid; mret tt) tt targets;
        acc ← foldM (resync_one env repair_op record_key probe) (mk_resync_acc [] 0 0) targets;
        _ ← (if 0 <? ra_applied acc then instrument (increment "resyncs_applied") else mret tt);
        _ ← (if 0 <? ra_refused acc then instrument (increment "resyncs_refused") else mret tt);
        let status := if (0 <? ra_applied acc) && negb (0 <? ra_refused acc) then "REPAIRED"
                      else if 0 <? ra_applied acc then "PARTIAL" else "REFUSED" in
        mret (mk_resync repair_op status None
          (Some (r_record_id probe, r_record_version probe, r_content_hash probe))
          (ra_report acc))
    end.

(** ** Reporting *)
Record HealthReport := mk_health_report {
  hr_health : string;
  hr_unavailable_reason : option string;
  hr_storage_error_count : Z;
  hr_last_error : option string;
  hr_divergence_history : list string;
}.

Definition replica_health (c : BlackboardCoordinator) : list (string * HealthReport) :=
  foldl (λ out r, od_set (replica_id r)
    (mk_health_report (replica_health_value (health r)) (unavailable_reason r)
       (storage_error_count r) (last_error r) (divergence_history r)) out) [] (co_replicas c).

(** Operational head hint from the first responsive replica. *)
Fixpoint head_version_of (env : OpEnv) (record_key : string) (rs : list BlackboardReplica)
    : result Z :=
  match rs with
  | [] => Ok 0
  | r :: rs =>
      if decide (health r = HEALTH_UNAVAILABLE) then head_version_of env record_key rs
      else
        row ← read_call (oe_calls env (replica_id r) READ) r record_key None;
        match row with
        | Some row => Ok (cr_record_version row)
        | None => Ok 0
        end
  end.

Definition head_version (env : OpEnv) (record_key : string) : CM Z := λ c,
  (head_version_of env record_key (co_replicas c), c).

(** ** The committed view *)

(** The chunked scan of one replica: rows, and whether it ran out of them. *)
Fixpoint scan_loop (fuel : nat) (db : ReplicaDatabase) (key_prefix : option string)
    (chunk_size scan_max_rows : Z) (rows : list CommittedRow) (offset : Z)
    : list CommittedRow * bool :=
  match fuel with
  | O => (rows, false)
  | S fuel =>
      let n := Z.of_nat (length rows) in
      if n <? scan_max_rows then
        let fetch_limit := Z.min chunk_size (scan_max_rows - n) in
        let chunk := iter_committed_rows db key_prefix fetch_limit offset in
        let rows := rows ++ chunk in
        let offset := offset + Z.of_nat (length chunk) in
        if Z.of_nat (length chunk) <? fetch_limit then (rows, true)
        else scan_loop fuel db key_prefix chunk_size scan_max_rows rows offset
      else (rows, false)
  end.

(** At most [scan_max_rows] iterations fetch a row each. *)
Definition scan_replica (db : ReplicaDatabase) (key_prefix : option string)
    (chunk_size scan_max_rows : Z) : list CommittedRow * bool :=
  let '(rows, exhausted) :=
    scan_loop (S (Z.to_nat scan_max_rows)) db key_prefix chunk_size scan_max_rows [] 0 in
  let truncated := negb exhausted &&
    match iter_committed_rows db key_prefix 1 (Z.of_nat (length rows)) with
    | [] => false
    | _ :: _ => true
    end in
  (rows, truncated).

Definition RowKey : Type := string * Z * string.
Definition row_key (row : CommittedRow) : RowKey :=
  (cr_record_key row, cr_record_version row, cr_record_id row).

Definition row_key_leb (k l : RowKey) : bool :=
  match String.compare k.1.1 l.1.1 with
  | Lt => true
  | Gt => false
  | Eq => match Z.compare k.1.2 l.1.2 with
          | Lt => true
          | Gt => false
          | Eq => str_leb k.2 l.2
          end
  end.

(** The replicas that hold each row identity. *)
Definition view_support (per_replica : list (string * list CommittedRow))
    : list (RowKey * list string) :=
  foldl (λ support entry, foldl (λ support row,
    let members := default [] (od_get (row_key row) support) in
    od_set (row_key row)
      (if decide (entry.1 ∈ members) then members else members ++ [entry.1]) support)
    support entry.2) [] per_replica.

Definition view_sample (per_replica : list (string * list CommittedRow))
    : list (RowKey * CommittedRow) :=
  foldl (λ sample entry, foldl (λ sample row, od_setdefault (row_key row) row sample)
    sample entry.2) [] per_replica.

Record ViewItem := mk_view_item {
  vi_record_key : string;
  vi_record_type : string;
  vi_record_version : Z;
  vi_record_id : string;
  vi_content_hash : string;
  vi_author_id : string;
  vi_source_component : string;
  vi_logical_timestamp : option string;
  vi_window_id : option Z;
  vi_supporting_replicas : list string;
}.

Record CommittedView := mk_view {
  v_items : list ViewItem;
  v_total_verified : Z;
  v_unverified_excluded : Z;
  v_responsive_replicas : list string;
  v_truncated : bool;
  v_truncated_replicas : list string;
  v_scanned_rows_per_replica : list (string * Z);
  v_max_rows_per_replica : Z;
  v_chunk_size : Z;
}.

Definition view_item (support : list (RowKey * list string)) (sample : list (RowKey * CommittedRow))
    (k : RowKey) : option ViewItem :=
  row ← od_get k sample;
  Some (mk_view_item (cr_record_key row) (cr_record_type row) (cr_record_version row)
    (cr_record_id row) (cr_content_hash row) (cr_author_id row) (cr_source_component row)
    (cr_logical_timestamp row) (cr_window_id row)
    (sort_strings (default [] (od_get k support)))).

(** A fault of the storage engine under a scan escapes as its exception and has
    no view; the model is of the scans that complete. *)
Definition committed_view (c : BlackboardCoordinator) (key_prefix : option string)
    (limit offset : Z) (scan_max_rows : option Z) : CommittedView :=
  let scan_max_rows := default (committed_scan_max_rows (co_settings c)) scan_max_rows in
  let chunk_size := committed_scan_chunk_size (co_settings c) in
  let scanned := map (λ r, (replica_id r,
      scan_replica (replica_db r) key_prefix chunk_size scan_max_rows))
    (filter (λ r, health r ≠ HEALTH_UNAVAILABLE) (co_replicas c)) in
  let per_replica := map (λ s, (s.1, s.2.1)) scanned in
  let truncated := map fst (filter (λ s, Is_true s.2.2) scanned) in
  let support := view_support per_replica in
  let verified := filter (λ kv, Is_true (quorum_size (co_settings c) <=? Z.of_nat (length kv.2)))
                    support in
  let ordered_keys := isort row_key_leb (map fst verified) in
  mk_view
    (omap (view_item verified (view_sample per_replica)) (py_slice offset (offset + limit) ordered_keys))
    (Z.of_nat (length ordered_keys))
    (Z.of_nat (length support) - Z.of_nat (length verified))
    (sort_strings (map fst per_replica))
    (negb (bool_decide (truncated = []))) truncated
    (map (λ s, (s.1, Z.of_nat (length s.2))) per_replica)
    scan_max_rows chunk_size.

End reads.
