(* ===== verification/BbReadFacts.v ===== *)
(** * Facts about reads, repair and the committed view *)

From S2P Require Import Prelude PyString Json BbContracts BbStorage BbStorageFacts BbAuthorization BbReplica.
From S2P Require Import BbReplicaFacts BbInstrumentation BbCoordinator BbCluster BbReads.

(** ** The verdict of a read, without its effects *)
Definition responses (obs : list Observation) : list Observation :=
  filter (λ o, Is_true (ob_responded o)) obs.
Definition present (obs : list Observation) : list Observation :=
  filter (λ o, Is_true (ob_found o)) (responses obs).

Definition read_verdict (required : Z) (total : nat) (obs : list Observation)
    : ReadOutcome * option BlackboardRecordV1 :=
  let n := length (responses obs) in
  match responses obs, ordered_groups (present obs) with
  | [], _ => (READ_UNAVAILABLE, None)
  | _, [] => (if required <=? Z.of_nat n then NOT_FOUND else INSUFFICIENT_QUORUM, None)
  | _, (_, group) :: _ =>
      let record := head group ≫= ob_record in
      if Z.of_nat n <? required then (INSUFFICIENT_QUORUM, None)
      else if (length group =? n)%nat && (n =? total)%nat then (CONSISTENT, record)
      else if required <=? Z.of_nat (length group) then (DEGRADED_CONSISTENT, record)
      else (INCONSISTENT, None)
  end.

Definition okey (o : Observation) : option (Z * string) := Some (obs_key o).

Lemma ordered_groups_all obs :
  ordered_groups obs = isort (group_leb snd) (group_all okey obs).
Proof. reflexivity. Qed.

(** Observations that answer the same. *)
Definition supporters (k : Z * string) (obs : list Observation) : list Observation :=
  members okey k (present obs).

Lemma read_verdict_authoritative required total obs outcome record :
  read_verdict required total obs = (outcome, record) →
  outcome = CONSISTENT ∨ outcome = DEGRADED_CONSISTENT →
  ∃ k o, record = ob_record o ∧ o ∈ supporters k obs ∧
    required ≤ Z.of_nat (length (supporters k obs)) ∧
    (outcome = CONSISTENT →
       length (supporters k obs) = total ∧ length (responses obs) = total).
Proof.
  unfold read_verdict, supporters. cbv zeta. rewrite ordered_groups_all.
  destruct (responses obs) as [|r0 rs0] eqn:Hr; [by intros [= <- <-] [] |].
  destruct (isort _ _) as [|[k g] rest] eqn:Hs.
  { intros [= <- <-]. destruct (_ <=? _); by intros []. }
  apply best_group in Hs as (-> & Hne & Hmax).
  destruct (members okey k (present obs)) as [|o m] eqn:Hm; [done |].
  destruct (Z.ltb_spec (Z.of_nat (length (r0 :: rs0))) required) as [|Hreq];
    [by intros [= <- <-] [] |].
  destruct (_ && _) eqn:Hall.
  - apply andb_true_iff in Hall as [H1%Nat.eqb_eq H2%Nat.eqb_eq].
    intros [= <- <-] _. exists k, o. rewrite Hm. cbn [head]. split_and!; [done | set_solver | lia |].
    intros _. lia.
  - destruct (Z.leb_spec required (Z.of_nat (length (o :: m)))).
    + intros [= <- <-] _. exists k, o. rewrite Hm. split_and!; [done | set_solver | lia | done].
    + by intros [= <- <-] [].
Qed.

Lemma read_verdict_no_record required total obs outcome record :
  read_verdict required total obs = (outcome, record) →
  outcome ≠ CONSISTENT → outcome ≠ DEGRADED_CONSISTENT → record = None.
Proof.
  unfold read_verdict. cbv zeta. repeat case_match; intros; simplify_eq; done.
Qed.

Lemma read_verdict_not_found required total obs record :
  read_verdict required total obs = (NOT_FOUND, record) →
  present obs = [] ∧ required ≤ Z.of_nat (length (responses obs)).
Proof.
  unfold read_verdict. cbv zeta. rewrite ordered_groups_all.
  destruct (responses obs) as [|r0 rs0] eqn:Hr; [done |].
  destruct (isort _ _) as [|[k g] rest] eqn:Hs; [|repeat case_match; done].
  pose proof (proj1 (no_group okey snd (present obs)) Hs) as Hn. destruct (Z.leb_spec required (Z.of_nat (length (r0 :: rs0))));
    [|done].
  intros _. split; [|lia]. destruct (present obs) as [|o m]; [done |].
  discriminate (Hn o). set_solver.
Qed.

(** The record a repair starts from, as [read_internal_majority] picks it. *)
Definition majority_probe (required : Z) (obs : list Observation) : option BlackboardRecordV1 :=
  match ordered_groups (filter (λ o, Is_true (ob_responded o && ob_found o)) obs) with
  | [] => None
  | (_, best_group) :: _ =>
      if Z.of_nat (length best_group) <? required then None else head best_group ≫= ob_record
  end.

(** It is the record of a group of answers that agree and are a quorum. *)
Lemma majority_probe_group required obs rec :
  majority_probe required obs = Some rec →
  ∃ key group, group `sublist_of` obs ∧ required ≤ Z.of_nat (length group) ∧
    (∀ o, o ∈ group → ob_found o = true ∧ obs_key o = key) ∧
    ∃ o, o ∈ group ∧ ob_record o = Some rec.
Proof.
  unfold majority_probe. rewrite ordered_groups_all.
  destruct (isort _ _) as [|[key g] rest] eqn:Hs; [done |].
  apply best_group in Hs as (-> & Hne & _).
  destruct (Z.ltb_spec (Z.of_nat (length (members okey key
    (filter (λ o, Is_true (ob_responded o && ob_found o)) obs)))) required); [done |].
  intros Hrec. eexists key, _. split_and!; [|eassumption| |].
  - etrans; [apply sublist_filter | apply sublist_filter].
  - intros o [Hk Ho]%members_elem. injection Hk as Hk.
    apply list_elem_of_filter in Ho as [Hf _]. apply Is_true_true, andb_true_iff in Hf. tauto.
  - destruct (members okey key _) as [|o m]; [done |]. exists o. split; [set_solver | done].
Qed.

Section facts.
Context `{PyRuntime} {Auth : Type} `{Authorizer Auth}.

(** ** One observation *)
Lemma observe_found env k v r o :
  observe_replica env k v r = o → ob_found o = true →
  ob_responded o = true ∧ health r ≠ HEALTH_UNAVAILABLE ∧ ob_replica_id o = replica_id r ∧
  ∃ row rec, replica_get_committed_row r k v = Ok (Some row) ∧ row_to_record row = Ok rec ∧
    ob_record o = Some rec ∧ ob_record_version o = Some (r_record_version rec) ∧
    ob_content_hash o = Some (r_content_hash rec).
Proof.
  unfold observe_replica, read_call. intros <-.
  case_decide; [done |]. destruct (ce_storage env); [done |].
  destruct (replica_get_committed_row r k v) as [[row|]|] eqn:Hg; [|done..].
  destruct (row_to_record row) as [rec|] eqn:Hr; [|done]. intros _. cbn. split_and!; try done.
  by exists row, rec.
Qed.

Lemma observe_id env k v r : ob_replica_id (observe_replica env k v r) = replica_id r.
Proof. unfold observe_replica. repeat case_match; done. Qed.

(** A verified row reads as the record of its slot. *)
Lemma row_to_record_fields row rec :
  row_to_record row = Ok rec →
  r_record_key rec = cr_record_key row ∧ r_record_version rec = cr_record_version row ∧
  r_record_id rec = cr_record_id row ∧ r_content_hash rec = cr_content_hash row ∧
  record_valid rec.
Proof.
  unfold row_to_record. intros Hr.
  rewrite result_bind_ok in Hr. destruct Hr as (p & _ & Hr).
  rewrite result_bind_ok in Hr. destruct Hr as (pv & _ & Hr).
  rewrite result_bind_ok in Hr. destruct Hr as (t & _ & Hr).
  rewrite result_bind_ok in Hr. destruct Hr as (rec' & Hm & Hr).
  rewrite result_bind_ok in Hr. destruct Hr as (pt & _ & Hr).
  rewrite result_bind_ok in Hr. destruct Hr as (pvt & _ & Hr).
  destruct (_ && _); [|done]. injection Hr as <-.
  pose proof Hm as Hm'. apply model_validate_ok in Hm' as (-> & _). by split_and!.
Qed.

(** A committed row of a well-formed replica sits at its slot. *)
Lemma get_committed_slot r k v row :
  replica_wf r → replica_get_committed_row r k v = Ok (Some row) →
  cr_record_key row = k ∧ committed_slot r k (cr_record_version row) = Some row ∧
  match v with Some v => cr_record_version row = v
             | None => cr_record_version row = head_of (replica_db r) k end.
Proof.
  intros Hwf. unfold replica_get_committed_row. destruct v as [v|].
  - unfold BbStorage.get_committed_row. rewrite result_bind_ok. intros (u & _ & [= Hs]).
    destruct (wf_slot _ Hwf _ _ _ Hs) as [Hk Hv]. rewrite Hv. by split_and!.
  - intros [= Hs]. rewrite (get_head_row_committed _ _ Hwf) in Hs.
    destruct (wf_slot _ Hwf _ _ _ Hs) as [Hk Hv]. rewrite Hv. by split_and!.
Qed.

(** ** Computations *)
Section runs.
Context (settings : BlackboardSettings) (ids : list string) (raises : exn → Prop).
Context (rs1 : list BlackboardReplica).
Abbreviation triple := (triple settings ids raises).

Definition observations (env : OpEnv) (k : string) (v : option Z) : list Observation :=
  map (λ r, observe_replica (oe_calls env (replica_id r) READ) k v r) rs1.

Lemma triple_observe_all env k v :
  triple (λ rs, rs = rs1) (observe_all env k v ids)
    (λ obs rs, rs = rs1 ∧ obs = observations env k v).
Proof.
  apply triple_known. intros Hi Hnd _.
  eapply triple_weaken; [| |apply (triple_foldM _ _ _ (λ pre obs rs, rs = rs1 ∧
    obs = map (λ r, observe_replica (oe_calls env (replica_id r) READ) k v r)
            (take (length pre) rs1)))].
  - intros rs ->. done.
  - intros obs rs [-> ->]. split; [done |]. by rewrite <-Hi, length_map, firstn_all.
  - intros pre rid post acc Hl.
    apply (triple_bind _ _ _ _ (λ r rs, (rs = rs1 ∧
      acc = map (λ r, observe_replica (oe_calls env (replica_id r) READ) k v r)
              (take (length pre) rs1)) ∧ rs1 !! length pre = Some r ∧ replica_id r = rid)).
    + apply triple_on_replica; [|rewrite Hl; set_solver].
      intros rs i r a r' Hlk Hid [-> Hacc] _ Hnd' [= <- <-].
      rewrite list_insert_id by done. split; [by left |]. split_and!; [done..| |done].
      assert (i = length pre) as <-; [|done].
      eapply NoDup_lookup; [exact Hnd | |].
      * rewrite <-Hi, list_lookup_fmap, Hlk. cbn. by rewrite Hid.
      * rewrite Hl. by apply list_lookup_middle.
    + intros r. apply triple_ret. intros rs [[-> ->] [Hlk <-]]. split; [done |].
      rewrite length_app, Nat.add_comm; cbn. by rewrite (take_S_r _ _ _ Hlk), map_app.
Qed.

Lemma triple_finish_read (P : list BlackboardReplica → Prop) env ctx outcome record reason obs div un :
  triple P (finish_read env ctx outcome record reason obs div un)
    (λ res rs, P rs ∧ rd_outcome res = outcome ∧ rd_record res = record).
Proof.
  eapply triple_bind; [apply triple_instrument |]. intros u. by apply triple_ret.
Qed.

(** Marking a replica as diverged is a step that keeps every committed row. *)
Lemma triple_mark_on (P : list BlackboardReplica → Prop) rid detail :
  monotone P → rid ∈ ids → triple P (mark_on rid detail) (λ _, P).
Proof.
  intros Hm Hr. apply triple_on_replica_mono; [done | | done].
  intros r a r' [= <- <-]. right. constructor.
Qed.

Lemma triple_mark_integrity (P : list BlackboardReplica → Prop) op obs :
  monotone P → map ob_replica_id obs ⊆ ids → triple P (mark_integrity_failures op obs) (λ _, P).
Proof.
  intros Hm Hsub. eapply (triple_foldM _ _ _ (λ _ (_ : unit), P)).
  intros pre o post acc Hl. destruct (ob_detail o); [|by apply triple_ret].
  destruct (_ && _); [|by apply triple_ret]. apply triple_mark_on; [done |].
  apply Hsub. rewrite Hl, map_app; cbn. set_solver.
Qed.

Lemma triple_mark_divergent (P : list BlackboardReplica → Prop) ctx best obs div :
  monotone P → map ob_replica_id obs ⊆ ids → div ⊆ map ob_replica_id obs →
  triple P (mark_divergent ctx best obs div) (λ _, P).
Proof.
  intros Hm Hsub Hdiv. eapply (triple_foldM _ _ _ (λ _ (_ : unit), P)).
  intros pre rid post acc Hl.
  assert (Hin : rid ∈ map ob_replica_id obs) by (apply Hdiv; rewrite Hl; set_solver).
  destruct (head _) as [o|] eqn:Ho; [apply triple_mark_on; [done | by apply Hsub] |].
  exfalso. apply head_None_iff in Ho. apply list_elem_of_fmap in Hin as (o & -> & Hin).
  assert (Hf : o ∈ filter (λ o', ob_replica_id o' = ob_replica_id o) obs)
    by (by apply list_elem_of_filter).
  rewrite Ho in Hf. set_solver.
Qed.

Lemma filter_subset {A} (P : A → Prop) `{∀ x, Decision (P x)} (l : list A) : filter P l ⊆ l.
Proof. intros x. rewrite list_elem_of_filter. naive_solver. Qed.

Lemma map_subset {A B} (f : A → B) l l' : l ⊆ l' → map f l ⊆ map f l'.
Proof.
  intros Hs y (x & -> & Hx)%list_elem_of_fmap. apply list_elem_of_fmap_2. by apply Hs.
Qed.

Lemma triple_decide_read (P : list BlackboardReplica → Prop) env ctx required total obs :
  monotone P → map ob_replica_id obs ⊆ ids →
  triple P (decide_read env ctx required total obs)
    (λ res rs, P rs ∧ (rd_outcome res, rd_record res) = read_verdict required total obs).
Proof.
  intros Hm Hsub. unfold decide_read, read_verdict. cbv zeta.
  change (filter (λ o, Is_true (ob_responded o)) obs) with (responses obs).
  change (filter (λ o, Is_true (ob_found o)) (responses obs)) with (present obs).
  destruct (responses obs) as [|r0 rs0] eqn:Hr.
  { eapply triple_post; [|apply triple_finish_read]. by intros res rs (? & -> & ->). }
  destruct (ordered_groups (present obs)) as [|[k g] rest].
  { destruct (_ <=? _); (eapply triple_post; [|apply triple_finish_read]);
      by intros res rs (? & -> & ->). }
  eapply triple_bind; [by apply triple_mark_integrity |]. intros u.
  destruct (_ <? required).
  { eapply triple_post; [|apply triple_finish_read]. by intros res rs (? & -> & ->). }
  destruct (_ && _).
  { eapply triple_post; [|apply triple_finish_read]. by intros res rs (? & -> & ->). }
  destruct (required <=? _).
  - eapply triple_bind.
    + apply triple_mark_divergent; [done..|]. rewrite <-map_app. apply map_subset.
      assert (Hresp : r0 :: rs0 ⊆ obs) by (rewrite <-Hr; apply filter_subset).
      intros o [Ho|Ho]%elem_of_app; apply filter_subset in Ho.
      * unfold present in Ho. rewrite Hr in Ho. apply filter_subset in Ho. by apply Hresp.
      * by apply Hresp.
    + intros u2. eapply triple_post; [|apply triple_finish_read].
      by intros res rs (? & -> & ->).
  - eapply triple_post; [|apply triple_finish_read]. by intros res rs (? & -> & ->).
Qed.

(** What [read] returns: a rejection, or the verdict on the replicas' answers. *)
Lemma triple_read auth env principal k v :
  (∀ rq e, decide_request auth rq = Raise e → raises e) →
  (∀ ctx e, oe_observe env ctx = Raise e → raises e) →
  triple (λ rs, rs = rs1) (read auth env principal k v)
    (λ res rs, Forall2 replica_le rs1 rs ∧
       ((rd_outcome res = AUTHORIZATION_REJECTED ∧ rd_record res = None) ∨
        (rd_outcome res, rd_record res) =
          read_verdict (quorum_size settings) (length ids) (observations env k v))).
Proof.
  intros Hauth Hhook. unfold read.
  eapply triple_bind; [apply triple_new_op_id |]. intros op.
  eapply triple_bind; [apply triple_instrument |]. intros u0. cbn.
  destruct (is_blank principal).
  { eapply triple_post; [|apply triple_finish_read].
    intros res rs (-> & -> & ->). split; [reflexivity | by left]. }
  eapply triple_bind.
  { apply triple_lift with (Q := λ _ rs, rs = rs1); [done | apply Hauth]. }
  intros decision. destruct (negb _).
  { eapply triple_post; [|apply triple_finish_read].
    intros res rs (-> & -> & ->). split; [reflexivity | by left]. }
  eapply triple_bind.
  { apply triple_lift with (Q := λ _ rs, rs = rs1); [done | apply Hhook]. }
  intros u1. apply triple_known. intros Hi _ _.
  eapply triple_bind; [apply triple_gets_ids |]. intros ids'. apply triple_pure. intros ->.
  eapply triple_bind; [apply triple_observe_all |]. intros obs.
  eapply triple_bind; [apply triple_gets_settings |]. intros required.
  apply triple_pure. intros ->.
  apply (triple_pre _ _ _ (λ rs, obs = observations env k v ∧ Forall2 replica_le rs1 rs));
    [intros rs [-> ->]; split; [done | reflexivity] |].
  apply triple_pure. intros ->.
  eapply triple_post; [|apply triple_decide_read].
  - intros res rs [Hle Hv]. by split; [|right].
  - intros rs rs' Hle HP. by etrans.
  - unfold observations. rewrite map_map, <-Hi. intros x Hx.
    erewrite map_ext in Hx; [exact Hx |]. intros r. apply observe_id.
Qed.

End runs.
End facts.
