(* ===== verification/BbViewFacts.v ===== *)
(** * Facts about repair and the committed view *)

From S2P Require Import Prelude PyString Json BbContracts BbStorage BbStorageFacts BbAuthorization BbReplica.
From S2P Require Import BbReplicaFacts BbInstrumentation BbCoordinator BbCluster BbReads BbReadFacts.

(** ** The chunked scan *)

(** The rows of the scan, all of them, in its order. *)
Definition all_rows (db : ReplicaDatabase) (key_prefix : option string) : list CommittedRow :=
  isort row_leb (prefix_rows db key_prefix).

Lemma iter_rows db p limit offset :
  0 ≤ limit ≤ 10000 → 0 ≤ offset →
  iter_committed_rows db p limit offset =
  take (Z.to_nat limit) (drop (Z.to_nat offset) (all_rows db p)).
Proof.
  intros Hl Ho. unfold iter_committed_rows.
  by rewrite Z.min_l, !Z.max_r by lia.
Qed.

Lemma take_drop_snoc {A} n m (l : list A) : take n l ++ take m (drop n l) = take (n + m) l.
Proof. by rewrite take_take_drop. Qed.

(** The loop reads the first [max] rows, and says whether it saw the end. *)
Lemma scan_loop_spec db p chunk max fuel rows :
  1 ≤ chunk ≤ 10000 → 0 ≤ max →
  rows = take (length rows) (all_rows db p) → Z.of_nat (length rows) ≤ max →
  (Z.to_nat max < fuel + length rows)%nat →
  let '(out, exhausted) := scan_loop fuel db p chunk max rows (Z.of_nat (length rows)) in
  out = take (Z.to_nat max) (all_rows db p) ∧
  (exhausted = true → (length (all_rows db p) ≤ Z.to_nat max)%nat) ∧
  (exhausted = false → length out = Z.to_nat max).
Proof.
  intros Hc Hm. revert rows. induction fuel as [|fuel IH]; intros rows Hrows Hlen Hfuel; [lia |].
  cbn [scan_loop]. cbv zeta.
  destruct (Z.ltb_spec (Z.of_nat (length rows)) max) as [Hlt|Hge].
  2: { assert (length rows = Z.to_nat max) as Heq by lia.
       split_and!; [by rewrite Hrows, Heq | done | done]. }
  set (limit := Z.min chunk (max - Z.of_nat (length rows))).
  rewrite iter_rows by lia. rewrite Nat2Z.id.
  set (got := take (Z.to_nat limit) (drop (length rows) (all_rows db p))).
  assert (Hgot : length got = Nat.min (Z.to_nat limit) (length (all_rows db p) - length rows))
    by (unfold got; by rewrite length_take, length_drop).
  assert (Hle : (length rows ≤ length (all_rows db p))%nat).
  { rewrite Hrows, length_take. lia. }
  assert (Happ : rows ++ got = take (length rows + Z.to_nat limit) (all_rows db p)).
  { rewrite Hrows at 1. apply take_drop_snoc. }
  destruct (Z.ltb_spec (Z.of_nat (length got)) limit) as [Hshort|Hfull].
  - assert (Hall : (length (all_rows db p) ≤ length rows + Z.to_nat limit)%nat) by lia.
    rewrite Happ, !take_ge by lia. split_and!; [done | lia | done].
  - assert (Hlg : length got = Z.to_nat limit) by lia.
    assert (Hl2 : length (rows ++ got) = (length rows + Z.to_nat limit)%nat)
      by (by rewrite length_app, Hlg).
    replace (Z.of_nat (length rows) + Z.of_nat (length got))
      with (Z.of_nat (length (rows ++ got))) by (rewrite length_app; lia).
    apply IH; [by rewrite Hl2, <-Happ | rewrite Hl2; lia | rewrite Hl2; lia].
Qed.

Lemma scan_replica_spec db p chunk max :
  1 ≤ chunk ≤ 10000 → 0 ≤ max →
  scan_replica db p chunk max =
  (take (Z.to_nat max) (all_rows db p), bool_decide (Z.to_nat max < length (all_rows db p))%nat).
Proof.
  intros Hc Hm. unfold scan_replica.
  pose proof (scan_loop_spec db p chunk max (S (Z.to_nat max)) [] Hc Hm) as Hs.
  cbn [length] in Hs. specialize (Hs eq_refl ltac:(lia) ltac:(lia)). cbn [Z.of_nat] in Hs.
  destruct (scan_loop _ _ _ _ _ _ _) as [out exhausted]. destruct Hs as (-> & Ht & Hf). f_equal.
  destruct exhausted; cbn.
  - symmetry. apply bool_decide_eq_false. specialize (Ht eq_refl). lia.
  - rewrite (Hf eq_refl). rewrite iter_rows by lia.
    rewrite Nat2Z.id. change (Z.to_nat 1) with 1%nat.
    destruct (decide (Z.to_nat max < length (all_rows db p))%nat) as [Hlt|Hge].
    + rewrite bool_decide_true by done.
      destruct (drop (Z.to_nat max) (all_rows db p)) as [|x l] eqn:Hd; [|done].
      apply (f_equal length) in Hd. rewrite length_drop in Hd. cbn in Hd. lia.
    + rewrite bool_decide_false by done. by rewrite drop_ge by lia.
Qed.

(** ** Support *)
Definition support_rows (rid : string) (rows : list CommittedRow) (s : list (RowKey * list string))
    : list (RowKey * list string) :=
  foldl (λ support row,
    let members := default [] (od_get (row_key row) support) in
    od_set (row_key row) (if decide (rid ∈ members) then members else members ++ [rid]) support)
    s rows.

Definition supports (s : list (RowKey * list string)) (k : RowKey) (rid : string) : Prop :=
  rid ∈ default [] (od_get k s).

Definition support_ok (s : list (RowKey * list string)) : Prop :=
  NoDup s.*1 ∧ ∀ k, NoDup (default [] (od_get k s)).

Lemma support_rows_spec rid rows s :
  support_ok s →
  support_ok (support_rows rid rows s) ∧
  ∀ k x, supports (support_rows rid rows s) k x ↔
         supports s k x ∨ (x = rid ∧ k ∈ map row_key rows).
Proof.
  revert s. induction rows as [|row rows IH]; intros s Hok; cbn; [split; [done | set_solver] |].
  set (s' := od_set _ _ s).
  assert (Hget : ∀ k, od_get k s' = if decide (k = row_key row)
    then Some (let m := default [] (od_get (row_key row) s) in
               if decide (rid ∈ m) then m else m ++ [rid]) else od_get k s)
    by (intros k; apply od_get_set).
  assert (Hok' : support_ok s').
  { destruct Hok as [Hk Hm]. split; [by apply od_set_nodup |]. intros k. rewrite Hget.
    case_decide; [|apply Hm]. cbn. case_decide; [apply Hm |].
    apply NoDup_app. split_and!; [apply Hm | set_solver | apply NoDup_singleton]. }
  destruct (IH s' Hok') as [Hok2 Hs]. split; [done |]. intros k x.
  unfold support_rows in Hs. rewrite Hs. unfold supports. rewrite Hget.
  destruct (decide (k = row_key row)) as [->|Hne]; cbn; [case_decide; set_solver | set_solver].
Qed.

Lemma view_support_spec per_replica :
  support_ok (view_support per_replica) ∧
  ∀ k rid, supports (view_support per_replica) k rid ↔
    ∃ rows, (rid, rows) ∈ per_replica ∧ k ∈ map row_key rows.
Proof.
  assert (Hgen : ∀ s, support_ok s →
    let s' := foldl (λ s entry, support_rows entry.1 entry.2 s) s per_replica in
    support_ok s' ∧ ∀ k rid, supports s' k rid ↔
      supports s k rid ∨ ∃ rows, (rid, rows) ∈ per_replica ∧ k ∈ map row_key rows).
  { induction per_replica as [|[rid0 rows0] l IH]; intros s Hok; cbn;
      [split; [done | set_solver] |].
    destruct (support_rows_spec rid0 rows0 s Hok) as [Hok1 H1].
    destruct (IH _ Hok1) as [Hok2 H2]. split; [done |]. intros k rid.
    rewrite H2, H1. setoid_rewrite elem_of_cons. naive_solver. }
  destruct (Hgen []) as [Hok Hs]; [split; [constructor | intros k; constructor] |].
  split; [done |]. intros k rid. rewrite (Hs k rid). unfold supports; cbn. set_solver.
Qed.

Section view.
Context `{PyRuntime}.

(** ** The view: every item is supported by a quorum *)
Definition responsive (c : BlackboardCoordinator) : list BlackboardReplica :=
  filter (λ r, health r ≠ HEALTH_UNAVAILABLE) (co_replicas c).

Lemma view_item_spec support sample k item :
  view_item support sample k = Some item →
  vi_supporting_replicas item ≡ₚ default [] (od_get k support) ∧
  ∃ row, od_get k sample = Some row ∧ vi_record_key item = cr_record_key row ∧
    vi_record_version item = cr_record_version row ∧ vi_record_id item = cr_record_id row ∧
    vi_content_hash item = cr_content_hash row.
Proof.
  unfold view_item. intros Hv. apply bind_Some in Hv as (row & Hrow & [= <-]). cbn.
  split; [apply sort_strings_perm | by exists row].
Qed.

Lemma view_sample_spec per_replica k row :
  od_get k (view_sample per_replica) = Some row →
  row_key row = k ∧ ∃ rid rows, (rid, rows) ∈ per_replica ∧ row ∈ rows.
Proof.
  unfold view_sample.
  assert (Hrows : ∀ rows s k row,
    od_get k (foldl (λ sample row, od_setdefault (row_key row) row sample) s rows) = Some row →
    od_get k s = Some row ∨ (row_key row = k ∧ row ∈ rows)).
  { clear. induction rows as [|r rows IH]; intros s k row Hg; cbn in *; [by left |].
    apply IH in Hg as [Hg|[Hk Hin]]; [|right; set_solver].
    unfold od_setdefault in Hg. destruct (od_get (row_key r) s) eqn:Hr; [by left |].
    rewrite <-(od_set_new (row_key r) r s Hr), od_get_set in Hg.
    case_decide; [right; simplify_eq; set_solver | by left]. }
  assert (Hgen : ∀ (l : list (string * list CommittedRow)) (s : list (RowKey * CommittedRow)),
    od_get k (foldl (λ sample entry,
      foldl (λ sample row, od_setdefault (row_key row) row sample) sample entry.2) s l) = Some row →
    od_get k s = Some row ∨ (row_key row = k ∧ ∃ rid rows, (rid, rows) ∈ l ∧ row ∈ rows)).
  { induction l as [|[rid rows] l IH]; intros s Hg; cbn in *; [by left |].
    apply IH in Hg as [Hg|(Hk & rid' & rows' & Hin & Hrow)].
    - apply Hrows in Hg as [Hg|[Hk Hin]]; [by left |]. right. split; [done |].
      exists rid, rows. set_solver.
    - right. split; [done |]. exists rid', rows'. set_solver. }
  intros Hg. by destruct (Hgen per_replica [] Hg) as [|?].
Qed.

Lemma committed_view_supported c p limit offset max item :
  NoDup (replica_ids c) →
  item ∈ v_items (committed_view c p limit offset max) →
  NoDup (vi_supporting_replicas item) ∧
  quorum_size (co_settings c) ≤ Z.of_nat (length (vi_supporting_replicas item)) ∧
  ∀ rid, rid ∈ vi_supporting_replicas item →
    ∃ r row, r ∈ responsive c ∧ replica_id r = rid ∧
      row ∈ (scan_replica (replica_db r) p (committed_scan_chunk_size (co_settings c))
               (default (committed_scan_max_rows (co_settings c)) max)).1 ∧
      row_key row = (vi_record_key item, vi_record_version item, vi_record_id item).
Proof.
  intros _ Hin. unfold committed_view in Hin. cbn [v_items] in Hin.
  set (per := map (λ s, (s.1, s.2.1)) _) in Hin.
  set (verified := filter _ (view_support per)) in Hin.
  apply list_elem_of_omap in Hin as (k & Hk & Hv).
  assert (Hkin : k ∈ map fst verified).
  { rewrite <-(elem_of_isort row_key_leb). eapply sublist_subseteq; [apply py_slice_sublist | exact Hk]. }
  destruct (view_support_spec per) as [[Hnd Hmem] Hsup].
  apply list_elem_of_fmap in Hkin as ([k' members] & -> & Hver).
  assert (Hver' := Hver). apply list_elem_of_filter in Hver' as [Hq Hin].
  apply Is_true_true, Z.leb_le in Hq. cbn in *.
  assert (Hget : od_get k' (view_support per) = Some members) by (by apply od_elem_get).
  assert (Hgetv : od_get k' verified = Some members).
  { apply od_elem_get; [|done]. eapply sublist_NoDup; [exact Hnd |].
    apply fmap_sublist, sublist_filter. }
  apply view_item_spec in Hv as [Hp (row & Hrow & Ek & Ev & Ei & _)].
  rewrite Hgetv in Hp. cbn in Hp. apply view_sample_spec in Hrow as [Hrk _].
  specialize (Hmem k'). rewrite Hget in Hmem. cbn in Hmem.
  split_and!; [by rewrite Hp | by rewrite Hp |]. intros rid Hrid. rewrite Hp in Hrid.
  assert (Hs : supports (view_support per) k' rid) by (unfold supports; by rewrite Hget).
  apply Hsup in Hs as (rows & Hper & Hrows). unfold per in Hper.
  rewrite map_map in Hper. apply list_elem_of_fmap in Hper as (r & [= -> ->] & Hr).
  apply list_elem_of_fmap in Hrows as (row' & Hrk' & Hrow').
  exists r, row'. split_and!; [done..|]. rewrite <-Hrk', <-Hrk, Ek, Ev, Ei. done.
Qed.

End view.

(** * Facts about explicit repair

    [resync_replicas_from_majority] only appends; the source it names is the one
    [majority_probe] picks; and a REPAIRED report means every target has it at its
    head. *)
Section repair.
Context `{PyRuntime} {Auth : Type} `{Authorizer Auth}.
Context (settings : BlackboardSettings) (ids : list string) (raises : exn → Prop).
Abbreviation triple := (triple settings ids raises).

(** The replica [rid] has [record_id] at the head of [k]. *)
Definition aligned (rs : list BlackboardReplica) (k record_id rid : string) : Prop :=
  ∃ r row, r ∈ rs ∧ replica_id r = rid ∧ get_head_row (replica_db r) k = Some row ∧
    cr_record_id row = record_id.

(** The replica [rid] has the record [source], by id, version and content hash, at
    the head of [k]. *)
Definition at_head (rs : list BlackboardReplica) (k : string) (source : string * Z * string)
    (rid : string) : Prop :=
  ∃ r row, r ∈ rs ∧ replica_id r = rid ∧ get_head_row (replica_db r) k = Some row ∧
    (cr_record_id row, cr_record_version row, cr_content_hash row) = source.

(** At least [quorum] distinct replicas have. *)
Definition majority_head (rs : list BlackboardReplica) (quorum : Z) (k : string)
    (source : string * Z * string) : Prop :=
  ∃ rids, NoDup rids ∧ quorum ≤ Z.of_nat (length rids) ∧ Forall (at_head rs k source) rids.

(** What a report names as its source. *)
Definition source_of (rec : BlackboardRecordV1) : string * Z * string :=
  (r_record_id rec, r_record_version rec, r_content_hash rec).

(** The targets handled so far, except [but], are aligned unless one refused. *)
Definition aligned_but (but : string → Prop) (k record_id : string) (done_ids : list string)
    (acc : ResyncAcc) (rs : list BlackboardReplica) : Prop :=
  0 ≤ ra_refused acc ∧
  (ra_refused acc = 0 → ∀ x, x ∈ done_ids → ¬ but x → aligned rs k record_id x).

Lemma aligned_insert_other rs i r r' k id x :
  rs !! i = Some r → replica_id r ≠ x → aligned rs k id x → aligned (<[i := r']> rs) k id x.
Proof.
  intros Hi Hne (s & row & Hs & Hid & Hrow & Hrid). exists s, row. split_and!; try done.
  apply list_elem_of_lookup in Hs as [j Hj]. apply list_elem_of_lookup. exists j.
  rewrite list_lookup_insert_ne; [done |]. intros ->. congruence.
Qed.

Lemma aligned_insert_same_db rs i r r' k id x :
  rs !! i = Some r → replica_id r' = replica_id r → replica_db r' = replica_db r →
  aligned rs k id x → aligned (<[i := r']> rs) k id x.
Proof.
  intros Hi Hid Hdb (s & row & Hs & Hsid & Hrow & Hrid).
  apply list_elem_of_lookup in Hs as [j Hj]. destruct (decide (i = j)) as [<-|Hne].
  - simplify_eq. exists r', row. split_and!; [|done| |done].
    + apply list_elem_of_lookup. exists i. rewrite list_lookup_insert_eq; [done |].
      by eapply lookup_lt_Some.
    + by rewrite Hdb.
  - exists s, row. split_and!; [|done..]. apply list_elem_of_lookup. exists j.
    by rewrite list_lookup_insert_ne.
Qed.

(** A change of health only. *)
Lemma triple_health (P : list BlackboardReplica → Prop) rid f :
  (∀ rs i r, rs !! i = Some r → P rs → P (<[i := f r]> rs)) →
  (∀ r, replica_step r (f r)) → rid ∈ ids →
  triple P (on_replica rid (λ r, (tt, f r))) (λ _, P).
Proof.
  intros HP Hs Hr. apply triple_on_replica; [|done].
  intros rs i r a r' Hi Hid Hrs _ _ [= <- <-]. split; [by right | by apply HP].
Qed.

Lemma triple_resync_one env op k probe pre acc rid :
  rid ∈ ids →
  triple (aligned_but (λ _, False) k (r_record_id probe) pre acc)
    (resync_one env op k probe acc rid)
    (aligned_but (λ _, False) k (r_record_id probe) (pre ++ [rid])).
Proof.
  intros Hrid. unfold resync_one.
  set (but := λ x : string, x = rid).
  set (I := aligned_but but k (r_record_id probe) pre acc).
  assert (Hdb : ∀ f, (∀ r, replica_id (f r) = replica_id r) →
    (∀ r, replica_db (f r) = replica_db r) → ∀ rs i r, rs !! i = Some r →
    I rs ∧ aligned rs k (r_record_id probe) rid →
    I (<[i := f r]> rs) ∧ aligned (<[i := f r]> rs) k (r_record_id probe) rid).
  { intros f Hid Hd rs i r Hi [[Hn Ha] Hal].
    split; [split; [done |]; intros Hz x Hx Hb|];
      (eapply aligned_insert_same_db; [exact Hi | apply Hid | apply Hd |]); [by apply Ha | done]. }
  assert (Hclear : triple (λ rs, I rs ∧ aligned rs k (r_record_id probe) rid)
    (on_replica rid (λ r, (tt, clear_divergence r)))
    (λ _ rs, I rs ∧ aligned rs k (r_record_id probe) rid)).
  { apply (triple_health _ rid clear_divergence); [|constructor|done].
    apply Hdb; intros r; unfold clear_divergence; by destruct (health r). }
  eapply triple_bind.
  { eapply (triple_on_replica _ _ _ _ (λ _, I)); [|done].
    intros rs i r ack r' Hi Hid [Hn Ha] _ _ Hu. split; [right; by econstructor |].
    split; [done |]. intros Hz x Hx Hb.
    eapply aligned_insert_other; [exact Hi | | apply (Ha Hz x Hx); tauto].
    intros Heq. apply Hb. unfold but. congruence. }
  intros ack. eapply (triple_bind _ _ _ _
    (λ r rs, I rs ∧ r ∈ rs ∧ replica_id r = rid)).
  { apply triple_on_replica; [|done]. intros rs i r a r' Hi Hid HI _ _ [= <- <-].
    rewrite list_insert_id by done. split; [by left |]. split_and!; [done | | done].
    by eapply list_elem_of_lookup_2. }
  intros r. cbv zeta.
  set (head_row := match read_call _ _ _ _ with Ok row => row | Raise _ => None end).
  assert (Hfin : ∀ rep, triple (λ rs, I rs ∧ aligned rs k (r_record_id probe) rid)
    (mret (mk_resync_acc rep (ra_applied acc + 1) (ra_refused acc)))
    (aligned_but (λ _, False) k (r_record_id probe) (pre ++ [rid]))).
  { intros rep. apply triple_ret. intros rs [[Hn Ha] Hal]. split; [done |].
    intros Hz x Hx _. destruct (decide (x = rid)) as [->|Hne]; [done |].
    apply Ha; [done | set_solver | done]. }
  assert (Hrefuse : ∀ rep, triple I (mret (mk_resync_acc rep (ra_applied acc) (ra_refused acc + 1)))
    (aligned_but (λ _, False) k (r_record_id probe) (pre ++ [rid]))).
  { intros rep. apply triple_ret. intros rs [Hn _]. split; cbn; lia. }
  set (al := match head_row with Some row => _ | None => false end).
  assert (Hal : al = true → ∀ rs, I rs ∧ r ∈ rs ∧ replica_id r = rid →
    I rs ∧ aligned rs k (r_record_id probe) rid).
  { unfold al. destruct head_row as [row|] eqn:Hhr; [|done].
    intros Heq%bool_decide_eq_true rs (HI & Hr & Hid). split; [done |].
    exists r, row. split_and!; [done..| |done].
    unfold head_row, read_call in Hhr. destruct (ce_storage _); [done |].
    cbn in Hhr. exact Hhr. }
  destruct (bool_decide (a_ack_status ack = ACK_COMMITTED)) eqn:Hack; cbn [andb].
  - destruct al; cbn [andb].
    + eapply triple_pre; [by apply Hal |].
      eapply triple_bind; [exact Hclear | intros u; apply Hfin].
    + rewrite andb_false_l || idtac. eapply triple_pre; [intros rs (HI & _); exact HI |].
      destruct (match head_row with Some row => _ | None => None end); [|apply Hrefuse].
      eapply triple_bind; [|intros u; apply Hrefuse].
      apply triple_health; [|constructor|done].
      intros rs i s Hi [Hn Ha]. split; [done |]. intros Hz x Hx Hb.
      eapply aligned_insert_same_db; [done..|]. by apply Ha.
  - rewrite andb_false_r. eapply triple_pre; [intros rs (HI & _); exact HI |].
    destruct (match head_row with Some row => _ | None => None end); [|apply Hrefuse].
    eapply triple_bind; [|intros u; apply Hrefuse].
    apply triple_health; [|constructor|done].
    intros rs i s Hi [Hn Ha]. split; [done |]. intros Hz x Hx Hb.
    eapply aligned_insert_same_db; [done..|]. by apply Ha.
Qed.

Definition resync_targets (targets : option (list string)) : list string := default ids targets.

(** The source of a repair, from the answers of every replica. *)
Lemma triple_read_internal_majority rs1 env k :
  triple (λ rs, rs = rs1) (read_internal_majority env k)
    (λ probe rs, rs = rs1 ∧
       probe = majority_probe (quorum_size settings) (observations rs1 env k None)).
Proof.
  unfold read_internal_majority, majority_probe. eapply triple_bind; [apply triple_gets_ids |].
  intros ids'. apply triple_pure. intros ->.
  eapply triple_bind; [apply triple_observe_all |]. intros obs.
  eapply triple_bind; [apply triple_gets_settings |]. intros q.
  apply triple_pure. intros ->. cbv zeta.
  apply (triple_pre _ _ _ (λ rs, obs = observations rs1 env k None ∧ rs = rs1));
    [by intros rs [-> ->] |].
  apply triple_pure. intros ->.
  destruct (ordered_groups _) as [|[kk g] rest]; [by apply triple_ret |].
  destruct (_ <? _); by apply triple_ret.
Qed.

(** The whole repair. *)
Lemma triple_resync rs1 auth env principal k targets :
  (∀ rq e, decide_request auth rq = Raise e → raises e) →
  resync_targets targets ⊆ ids →
  triple (λ rs, rs = rs1) (resync_replicas_from_majority auth env principal k targets)
    (λ rep rs,
       (∀ source, rs_source rep = Some source → ∃ probe, source = source_of probe ∧
          majority_probe (quorum_size settings) (observations rs1 env k None) = Some probe) ∧
       (rs_status rep = "REPAIRED" → ∃ id v h, rs_source rep = Some (id, v, h) ∧
          ∀ rid, rid ∈ resync_targets targets → aligned rs k id rid)).
Proof.
  intros Hauth Hsub. unfold resync_replicas_from_majority.
  eapply triple_bind; [apply triple_new_op_id |]. intros op. cbn.
  eapply triple_bind.
  { apply triple_lift with (Q := λ _ rs, rs = rs1); [done | apply Hauth]. }
  intros decision. destruct (negb _); [by apply triple_ret |].
  eapply triple_bind; [apply triple_read_internal_majority |].
  intros probe. cbv beta.
  apply (triple_pre _ _ _ (λ rs, probe = majority_probe (quorum_size settings)
    (observations rs1 env k None) ∧ rs = rs1)); [by intros rs [-> ->] |].
  apply triple_pure. intros Hprobe. destruct probe as [probe|]; [|by apply triple_ret].
  eapply triple_bind; [apply triple_gets_ids |]. intros ids'. apply triple_pure. intros ->.
  change (default ids targets) with (resync_targets targets). cbv zeta.
  eapply (triple_bind _ _ _ _ (λ _ rs, rs = rs1)).
  { eapply (triple_foldM _ _ _ (λ _ (_ : unit) rs, rs = rs1)). intros pre rid post u Hl.
    eapply triple_bind; [apply triple_get_replica, Hsub; rewrite Hl; set_solver |].
    intros r. by apply triple_ret. }
  intros u. eapply (triple_bind _ _ _ _
    (aligned_but (λ _, False) k (r_record_id probe) (resync_targets targets))).
  { eapply triple_pre; [|apply (triple_foldM _ _ _ (aligned_but (λ _, False) k (r_record_id probe)))].
    - intros rs _. split; [done | set_solver].
    - intros pre rid post acc Hl. apply triple_resync_one. apply Hsub. rewrite Hl. set_solver. }
  intros acc. eapply triple_bind.
  { destruct (0 <? _); [apply triple_instrument | apply triple_ret; intros rs Hrs; exact Hrs]. }
  intros u1. cbn. eapply triple_bind.
  { destruct (0 <? ra_refused acc); [apply triple_instrument | apply triple_ret; intros rs Hrs; exact Hrs]. }
  intros u2. cbn. apply triple_ret. intros rs [Hn Ha].
  split; [intros source [= <-]; by exists probe |]. intros Hst.
  exists (r_record_id probe), (r_record_version probe), (r_content_hash probe).
  split; [done |]. intros rid Hr. apply Ha; [|done|tauto].
  cbn in Hst. destruct (Z.ltb_spec 0 (ra_refused acc)); [|lia].
  rewrite andb_false_r in Hst. by destruct (_ <? _).
Qed.

End repair.
