(* ===== verification/BbConsistency.v ===== *)
(** * Observability and consistency lemmas

    The phase listener of a write can only change the [listener_errors] counter, and
    every coordinator operation keeps the bounds of the instrumentation; then how the
    answers of a read and the results of a write relate to the rows the replicas
    hold. *)

From S2P Require Import Prelude PyString Json Firewall BbContracts BbStorage BbStorageFacts BbAuthorization.
From S2P Require Import BbReplica BbReplicaFacts BbInstrumentation BbCoordinator BbCluster BbWriteFacts.
From S2P Require Import BbReads BbReadFacts BbViewFacts.

(** ** Equality up to the listener-error counter *)
Definition same_counters (i j : BlackboardInstrumentation) : Prop :=
  (i_counters i).*1 = (i_counters j).*1 ∧
  ∀ k, k ≠ "listener_errors" → od_get k (i_counters i) = od_get k (i_counters j).

Record instr_eqv (i j : BlackboardInstrumentation) : Prop := {
  ie_counters : same_counters i j;
  ie_rest : with_counters [] i = with_counters [] j;
}.

#[export] Instance instr_eqv_equivalence : Equivalence instr_eqv.
Proof.
  split.
  - by intros i.
  - intros i j [[H1 H2] H3]. split; [|done]. split; [done |]. intros k Hk. by rewrite H2.
  - intros i j l [[H1 H2] H3] [[H4 H5] H6]. split; [|congruence]. split; [congruence |].
    intros k Hk. by rewrite H2, H5.
Qed.

Lemma keys_mem (d e : list (string * Z)) k :
  d.*1 = e.*1 → is_Some (od_get k d) ↔ is_Some (od_get k e).
Proof.
  intros He. rewrite <-!not_eq_None_Some, !od_get_None. by rewrite He.
Qed.

#[export] Instance increment_proper k : Proper (instr_eqv ==> instr_eqv) (increment k).
Proof.
  intros i j [[Hk Hc] Hr]. unfold increment.
  pose proof (keys_mem _ _ k Hk) as Hm.
  destruct (od_get k (i_counters i)) as [n|] eqn:Hi, (od_get k (i_counters j)) as [m|] eqn:Hj.
  - split; [|destruct i, j; cbn in *; by injection Hr as -> -> -> -> -> -> -> ->]. split.
    + cbn. by rewrite !od_set_keys, Hi, Hj.
    + intros k' Hk'. cbn. rewrite !od_get_set. case_decide; [|by apply Hc]. subst.
      rewrite Hc in Hi by done. congruence.
  - destruct Hm as [Hm _]. destruct Hm; by eauto.
  - destruct Hm as [_ Hm]. destruct Hm; by eauto.
  - by split.
Qed.

Lemma increment_listener_errors i : instr_eqv (increment "listener_errors" i) i.
Proof.
  unfold increment. destruct (od_get _ _) eqn:Hg; [|done]. split; [|done]. split.
  - cbn. by rewrite od_set_keys, Hg.
  - intros k Hk. cbn. rewrite od_get_set. by case_decide.
Qed.

(** Updates of the other fields only. *)
Lemma eqv_rest i j : instr_eqv i j → ∀ (f : BlackboardInstrumentation → BlackboardInstrumentation),
  (∀ i, i_counters (f i) = i_counters i) →
  (∀ i, with_counters [] (f i) = with_counters [] (f (with_counters [] i))) →
  instr_eqv (f i) (f j).
Proof.
  intros [[H1 H2] H3] f Hc Hw. split; [split; intros *; rewrite !Hc; auto |].
  by rewrite Hw, H3, <-Hw.
Qed.

#[export] Instance observe_latency_proper rid kind ok ms :
  Proper (instr_eqv ==> instr_eqv) (observe_replica_latency rid kind ok ms).
Proof. intros i j Hij. by apply (eqv_rest _ _ Hij). Qed.

Lemma record_write_result_proper `{PyRuntime} res i j :
  instr_eqv i j →
  (record_write_result res i).1 = (record_write_result res j).1 ∧
  instr_eqv (record_write_result res i).2 (record_write_result res j).2.
Proof.
  intros Hij. unfold record_write_result. destruct (_ && (_ <? 2)%nat); [by split |].
  split; [done |].
  set (f := λ i, mk_instr (i_latency_limit i) (i_operations_limit i) (i_rejections_limit i)
    (i_counters i) (latency_record (i_latency_limit i) (w_duration_ms res) (i_write_series i))
    (i_read_series i) (i_replica_series i)
    (push_bounded (i_operations_limit i) (operation_summary res) (i_recent_operations i))
    (if negb (bool_decide (w_outcome res = COMMITTED))
     then push_bounded (i_rejections_limit i)
            (od_set "reason" (json_opt_str (w_reason res)) (operation_summary res))
            (i_recent_rejections i)
     else i_recent_rejections i)).
  assert (Hf : ∀ i j, instr_eqv i j → instr_eqv (f i) (f j)) by (intros i' j' H'; by apply (eqv_rest _ _ H')).
  pose proof (increment_proper (counter_for_outcome (w_outcome res) (result_diverged res)) _ _ Hij) as H1.
  destruct (_ && existsb _ _).
  - apply Hf. by apply increment_proper.
  - by apply Hf.
Qed.

(** Coordinators equal up to that counter. *)
Record coord_eqv (c d : BlackboardCoordinator) : Prop := {
  ce_replicas : co_replicas c = co_replicas d;
  ce_settings : co_settings c = co_settings d;
  ce_counter : co_op_counter c = co_op_counter d;
  ce_instr : instr_eqv (co_instrumentation c) (co_instrumentation d);
}.

#[export] Instance coord_eqv_equivalence : Equivalence coord_eqv.
Proof.
  split.
  - by intros c.
  - intros c d []. split; [done..|]. by symmetry.
  - intros c d e [] []. split; [congruence..|]. by etrans.
Qed.

(** Two computations that give the same value from equivalent coordinators. *)
Definition rel {A} (m n : CM A) : Prop :=
  ∀ c d, coord_eqv c d → (m c).1 = (n d).1 ∧ coord_eqv (m c).2 (n d).2.

Create HintDb bb_rel.

Lemma rel_ret {A} (a : A) : rel (mret a) (mret a).
Proof. by intros c d. Qed.

Lemma rel_bind {A B} (m n : CM A) (f g : A → CM B) :
  rel m n → (∀ a, rel (f a) (g a)) → rel (m ≫= f) (n ≫= g).
Proof.
  intros Hm Hf c d Hcd. unfold mbind, M_bind. destruct (Hm c d Hcd) as [H1 H2].
  destruct (m c) as [[a|e] c'], (n d) as [[a'|e'] d']; cbn in *; simplify_eq; [|done].
  by apply Hf.
Qed.

Lemma rel_lift {A} (r : result A) : rel (lift r) (lift r).
Proof. by intros c d. Qed.

Lemma rel_gets_settings {A} (f : BlackboardSettings → A) :
  rel (gets (f ∘ co_settings)) (gets (f ∘ co_settings)).
Proof. intros c d []. split; [cbn; congruence | by split]. Qed.

Lemma rel_gets_ids : rel (gets replica_ids) (gets replica_ids).
Proof. intros c d []. split; [cbn; unfold replica_ids; congruence | by split]. Qed.

Lemma rel_instrument f : Proper (instr_eqv ==> instr_eqv) f → rel (instrument f) (instrument f).
Proof. intros Hf c d []. split; [done |]. split; cbn; [done..|]. by apply Hf. Qed.

Lemma rel_on_replica {A} rid (f : BlackboardReplica → A * BlackboardReplica) :
  rel (on_replica rid f) (on_replica rid f).
Proof.
  intros c d [Hr Hs Hn Hi]. unfold on_replica. rewrite Hr. destruct (find_replica _ _); [|by split].
  destruct (f _). by split.
Qed.

Lemma rel_new_op_id env p : rel (new_op_id env p) (new_op_id env p).
Proof. intros c d [Hr Hs Hn Hi]. unfold new_op_id. rewrite Hn. by split. Qed.

(** The listener disappears. *)
Lemma rel_notify l phase info : rel (notify_listener l phase info) (mret tt).
Proof.
  unfold notify_listener. destruct l as [f|]; [|apply rel_ret].
  destruct (f phase info); [apply rel_ret |]. intros c d []. split; [done |].
  split; cbn; [done..|]. by rewrite increment_listener_errors.
Qed.

Lemma rel_foldM {A B} (f g : B → A → CM B) l acc :
  (∀ acc x, rel (f acc x) (g acc x)) → rel (foldM f acc l) (foldM g acc l).
Proof.
  intros Hf. revert acc. induction l as [|x l IH]; intros acc; [by intros c d |].
  change (rel (f acc x ≫= λ a, foldM f a l) (g acc x ≫= λ a, foldM g a l)).
  apply rel_bind; [done | intros a; apply IH].
Qed.

#[export] Instance foldl_latency_proper acks :
  Proper (instr_eqv ==> instr_eqv) (λ i, foldl (λ i a,
    observe_replica_latency (a_replica_id a) (py_lower (a_operation_kind a))
      (latency_healthy (a_ack_status a)) (or_zero (a_latency_ms a)) i) i acks).
Proof.
  induction acks as [|a acks IH]; intros i j Hij; [done |]. cbn. apply IH.
  by apply observe_latency_proper.
Qed.

#[export] Hint Resolve rel_ret rel_lift rel_gets_settings rel_gets_ids rel_on_replica
  rel_new_op_id : bb_rel.
#[export] Hint Extern 1 (rel (instrument _) (instrument _)) =>
  apply rel_instrument; apply _ : bb_rel.

(** One structural step of a proof that a computation relates to itself. *)
Ltac rel_step :=
  match goal with
  | |- rel (_ ≫= _) (_ ≫= _) => apply rel_bind; [|intros ?]
  | |- rel (foldM _ _ _) (foldM _ _ _) => apply rel_foldM; intros ? ?
  | |- rel (if ?b then _ else _) _ => destruct b
  | |- rel (match ?x with _ => _ end) _ => destruct x
  | |- rel (let '(_, _) := ?x in _) _ => destruct x
  | |- rel _ _ => solve [auto with bb_rel]
  end.

Section rel.
Context `{PyRuntime} {Auth : Type} `{Authorizer Auth}.

Lemma rel_write_result env op p o reason r acks sync :
  rel (write_result env op p o reason r acks sync) (write_result env op p o reason r acks sync).
Proof.
  unfold write_result. apply rel_bind; [|intros; apply rel_ret].
  intros c d [Hr Hs Hn Hi]. unfold instrumentM.
  match goal with |- context [record_write_result ?res _] =>
    destruct (record_write_result_proper res _ _ Hi) as [H1 H2];
    destruct (record_write_result res (co_instrumentation c)),
      (record_write_result res (co_instrumentation d)) end.
  by split.
Qed.

Lemma rel_latency acks :
  rel (observe_replicas_latency acks) (observe_replicas_latency acks).
Proof. apply rel_instrument, _. Qed.

#[local] Hint Resolve rel_write_result rel_latency : bb_rel.

Lemma rel_abort_on env op k v rid : rel (abort_on env op k v rid) (abort_on env op k v rid).
Proof. apply rel_on_replica. Qed.
#[local] Hint Resolve rel_abort_on : bb_rel.

Lemma rel_commit_phase env op p r q acks :
  rel (commit_phase env op p r q acks) (commit_phase env op p r q acks).
Proof. unfold commit_phase, commit_member, abort_unprepared. repeat rel_step. Qed.

Lemma rel_abort_phase env op p r q acks :
  rel (abort_phase env op p r q acks) (abort_phase env op p r q acks).
Proof. unfold abort_phase, abort_prepared. repeat rel_step. Qed.
#[local] Hint Resolve rel_commit_phase rel_abort_phase : bb_rel.

Lemma rel_replicate env l op p r :
  rel (replicate env l op p r) (replicate env None op p r).
Proof.
  unfold replicate. apply rel_bind; [apply rel_notify | intros []].
  apply rel_bind; [apply rel_gets_ids | intros ids].
  apply rel_bind; [|intros acks; repeat rel_step].
  unfold prepare_all. apply rel_foldM. intros acc rid.
  apply rel_bind; [apply rel_on_replica | intros ack].
  apply rel_bind; [apply rel_notify | intros []; apply rel_ret].
Qed.
#[local] Hint Resolve rel_replicate : bb_rel.

(** A write with a listener is the write without it, up to the counter. *)
Lemma rel_propose auth env l draft p :
  rel (propose auth env l draft p) (propose auth env None draft p).
Proof. unfold propose. repeat rel_step. Qed.

End rel.

(** ** Bounds *)

(** [pres m]: [m] keeps the bounds of the instrumentation. *)
Definition pres {A} (m : CM A) : Prop :=
  ∀ c, instr_bounded (co_instrumentation c) → instr_bounded (co_instrumentation (m c).2).

Create HintDb bb_pres.

Lemma pres_ret {A} (a : A) : pres (mret a).
Proof. by intros c. Qed.
Lemma pres_lift {A} (r : result A) : pres (lift r).
Proof. by intros c. Qed.
Lemma pres_gets {A} (f : BlackboardCoordinator → A) : pres (gets f).
Proof. by intros c. Qed.
Lemma pres_throw {A} e msg : pres (throw e msg : CM A).
Proof. by intros c. Qed.
Lemma pres_new_op_id env p : pres (new_op_id env p).
Proof. by intros c. Qed.

Lemma pres_bind {A B} (m : CM A) (f : A → CM B) :
  pres m → (∀ a, pres (f a)) → pres (m ≫= f).
Proof.
  intros Hm Hf c Hc. unfold mbind, M_bind. specialize (Hm c Hc).
  destruct (m c) as [[a|e] c']; [by apply Hf | done].
Qed.

Lemma pres_foldM {A B} (f : B → A → CM B) l acc :
  (∀ acc x, pres (f acc x)) → pres (foldM f acc l).
Proof.
  intros Hf. revert acc. induction l as [|x l IH]; intros acc; [by intros c |].
  change (pres (f acc x ≫= λ a, foldM f a l)). apply pres_bind; [done | intros a; apply IH].
Qed.

Lemma pres_on_replica {A} rid (f : BlackboardReplica → A * BlackboardReplica) :
  pres (on_replica rid f).
Proof.
  intros c Hc. unfold on_replica. destruct (find_replica _ _); [|done]. by destruct (f _).
Qed.

Lemma pres_instrument f :
  (∀ i, instr_bounded i → instr_bounded (f i)) → pres (instrument f).
Proof. intros Hf c Hc. by apply Hf. Qed.

#[export] Hint Resolve pres_ret pres_lift pres_gets pres_throw pres_new_op_id
  pres_on_replica increment_bounded record_read_bounded : bb_pres.
#[export] Hint Extern 1 (pres (instrument _)) => apply pres_instrument : bb_pres.

Ltac pres_step :=
  match goal with
  | |- pres (_ ≫= _) => apply pres_bind; [|intros ?]
  | |- pres (foldM _ _ _) => apply pres_foldM; intros ? ?
  | |- pres (if ?b then _ else _) => destruct b
  | |- pres (match ?x with _ => _ end) => destruct x
  | |- pres (let '(_, _) := ?x in _) => destruct x
  | |- pres _ => solve [auto with bb_pres]
  end.

Section pres.
Context `{PyRuntime} {Auth : Type} `{Authorizer Auth}.

Lemma pres_notify l phase info : pres (notify_listener l phase info).
Proof. unfold notify_listener. repeat pres_step. Qed.

Lemma pres_latency acks : pres (observe_replicas_latency acks).
Proof.
  apply pres_instrument. intros i. revert i.
  induction acks as [|a acks IH]; intros i Hi; [done |]. cbn. apply IH.
  by apply observe_latency_bounded.
Qed.

Lemma pres_write_result env op p o reason r acks sync :
  pres (write_result env op p o reason r acks sync).
Proof.
  unfold write_result. apply pres_bind; [|intros; apply pres_ret].
  intros c Hc. unfold instrumentM.
  match goal with |- context [record_write_result ?res ?i] =>
    pose proof (record_write_result_bounded res i Hc); destruct (record_write_result res i) end.
  done.
Qed.
#[local] Hint Resolve pres_notify pres_latency pres_write_result : bb_pres.

Lemma pres_propose auth env l draft p : pres (propose auth env l draft p).
Proof.
  unfold propose, replicate, prepare_all, commit_phase, commit_member, abort_phase,
    abort_prepared, abort_unprepared, abort_on. repeat pres_step.
Qed.

Lemma pres_read auth env p k v : pres (read auth env p k v).
Proof.
  unfold read, observe_all, get_replica, decide_read, finish_read, mark_integrity_failures,
    mark_divergent, mark_on. repeat pres_step.
Qed.

Lemma pres_resync auth env p k targets : pres (resync_replicas_from_majority auth env p k targets).
Proof.
  unfold resync_replicas_from_majority, read_internal_majority, observe_all, resync_one,
    get_replica, mark_on. repeat pres_step.
Qed.
End pres.

(** * Consistency lemmas *)
Section consistency.
Context `{PyRuntime} {Auth : Type} `{Authorizer Auth}.
Context (settings : BlackboardSettings) (ids : list string).

(** ** Writes *)

(** A COMMITTED result comes from a quorum of replicas that hold the record. *)
Lemma write_post_committed rs0 rs res :
  map replica_id rs0 = ids → 1 ≤ quorum_size settings →
  write_post settings ids rs0 res rs → w_outcome res = COMMITTED →
  ∃ k v id, w_record_key res = Some k ∧ w_record_version res = Some v ∧
    w_record_id res = Some id ∧ committed_on rs (quorum_size settings) k v id.
Proof.
  intros Hi Hq (rids & Hnd & Hsub & Hw & Ho) Hout. rewrite Hout in Ho. cbn in Ho.
  destruct rids as [|rid rids]; [cbn in Ho; lia |].
  assert (Hrid : rid ∈ map replica_id rs0) by (rewrite Hi; apply Hsub; set_solver).
  apply list_elem_of_fmap in Hrid as (r0 & -> & Hr0).
  apply list_elem_of_lookup in Hr0 as [i Hlk].
  destruct (Forall2_lookup_l _ _ _ _ _ Hw Hlk) as (r & Hr & _ & He).
  rewrite decide_True in He by set_solver. destruct He as (row & (Ek & Ev & Ei) & _).
  exists (cr_record_key row), (cr_record_version row), (cr_record_id row).
  split_and!; [done..|]. exists (replica_id r0 :: rids). split_and!; [done..|].
  rewrite <-Ek, <-Ev, <-Ei in Hw. eapply wrote_holds; [exact Hw | by rewrite Hi].
Qed.

(** ** Reads *)
Lemma observations_ids rs1 env k v :
  map ob_replica_id (observations rs1 env k v) = map replica_id rs1.
Proof. unfold observations. rewrite map_map. apply map_ext. intros r. apply observe_id. Qed.

Lemma supporters_spec rs1 env k v key o :
  o ∈ supporters key (observations rs1 env k v) →
  ∃ r, r ∈ rs1 ∧ o = observe_replica (oe_calls env (replica_id r) READ) k v r ∧
    ob_found o = true ∧ obs_key o = key.
Proof.
  intros [Hk Ho]%members_elem. injection Hk as Hk.
  apply list_elem_of_filter in Ho as [Hf Ho]. apply list_elem_of_filter in Ho as [_ Ho].
  apply list_elem_of_fmap in Ho as (r & -> & Hr). exists r. split_and!; [done..| |done].
  by apply Is_true_true.
Qed.

(** One found answer: the row it read. *)
Lemma found_holds rs1 env k v r o rec :
  cluster_wf rs1 → r ∈ rs1 →
  o = observe_replica (oe_calls env (replica_id r) READ) k v r → ob_found o = true →
  ob_record o = Some rec →
  obs_key o = (r_record_version rec, r_content_hash rec) ∧ record_valid rec ∧
  r_record_key rec = k ∧ (∀ v', v = Some v' → r_record_version rec = v') ∧
  holds rs1 k (r_record_version rec) (r_record_id rec) (replica_id r).
Proof.
  intros Hwf Hr Ho Hf Hrec. symmetry in Ho.
  destruct (observe_found _ _ _ _ _ Ho Hf) as (_ & _ & _ & row & rec' & Hg & Hrow & Hor & Hov & Hoh).
  assert (rec' = rec) as -> by congruence.
  destruct (row_to_record_fields _ _ Hrow) as (Hk & Hv & Hid & Hh & Hval).
  assert (Hrwf : replica_wf r) by (unfold cluster_wf in Hwf; rewrite Forall_forall in Hwf; auto).
  destruct (get_committed_slot _ _ _ _ Hrwf Hg) as (Hrk & Hslot & Hver).
  split_and!; [|done|congruence| |].
  - unfold obs_key. by rewrite Hov, Hoh.
  - intros v' ->. congruence.
  - exists r, row. rewrite Hv. by split_and!.
Qed.

(** Valid records with the same key, version and content hash have one identity. *)
Lemma record_identity rec1 rec2 :
  record_valid rec1 → record_valid rec2 → r_record_key rec1 = r_record_key rec2 →
  r_record_version rec1 = r_record_version rec2 → r_content_hash rec1 = r_content_hash rec2 →
  r_record_id rec1 = r_record_id rec2.
Proof.
  intros (_ & _ & [_ H1]%verify_ok)%model_validate_ok (_ & _ & [_ H2]%verify_ok)%model_validate_ok.
  congruence.
Qed.

Lemma sublist_map {A B} (f : A → B) l l' : l `sublist_of` l' → map f l `sublist_of` map f l'.
Proof. apply fmap_sublist. Qed.

Lemma supporters_sublist key obs : supporters key obs `sublist_of` obs.
Proof.
  unfold supporters, members, present, responses.
  etrans; [apply sublist_filter |]. etrans; apply sublist_filter.
Qed.

Lemma responses_sublist obs : responses obs `sublist_of` obs.
Proof. apply sublist_filter. Qed.

(** A record that is returned is committed on a quorum. *)
Lemma read_record_committed rs1 env k v total outcome rec :
  map replica_id rs1 = ids → NoDup ids → cluster_wf rs1 →
  read_verdict (quorum_size settings) total (observations rs1 env k v) = (outcome, Some rec) →
  (outcome = CONSISTENT ∨ outcome = DEGRADED_CONSISTENT) ∧
  record_valid rec ∧ r_record_key rec = k ∧ (∀ v', v = Some v' → r_record_version rec = v') ∧
  committed_on rs1 (quorum_size settings) k (r_record_version rec) (r_record_id rec).
Proof.
  intros Hi Hnd Hwf Hv.
  assert (Hout : outcome = CONSISTENT ∨ outcome = DEGRADED_CONSISTENT).
  { destruct (decide (outcome = CONSISTENT)); [by left |].
    destruct (decide (outcome = DEGRADED_CONSISTENT)); [by right |].
    by apply read_verdict_no_record in Hv. }
  split; [done |].
  destruct (read_verdict_authoritative _ _ _ _ _ Hv Hout) as (key & o & Hrec & Ho & Hq & _).
  destruct (supporters_spec _ _ _ _ _ _ Ho) as (r & Hr & Heq & Hf & Hkey).
  destruct (found_holds _ _ _ _ _ _ rec Hwf Hr Heq Hf) as (Hok & Hval & Hk & Hver & _); [done |].
  split_and!; [done..|].
  exists (map ob_replica_id (supporters key (observations rs1 env k v))). split_and!.
  - eapply sublist_NoDup; [|apply sublist_map, supporters_sublist].
    by rewrite observations_ids, Hi.
  - by rewrite length_map.
  - apply Forall_forall. intros rid Hrid. apply list_elem_of_fmap in Hrid as (o' & -> & Ho').
    destruct (supporters_spec _ _ _ _ _ _ Ho') as (r' & Hr' & Heq' & Hf' & Hkey').
    destruct (observe_found _ _ _ _ _ (eq_sym Heq') Hf') as (_ & _ & Hid & row' & rec' & _ & _ & Hor & _).
    destruct (found_holds _ _ _ _ _ _ rec' Hwf Hr' Heq' Hf' Hor) as (Hok' & Hval' & Hk' & _ & Hh).
    rewrite Hid. assert (Heqk : (r_record_version rec', r_content_hash rec')
      = (r_record_version rec, r_content_hash rec)) by congruence.
    injection Heqk as Hv1 Hh1.
    rewrite <-Hv1, <-(record_identity rec' rec); [done.. | congruence | done | done].
Qed.

(** The source of a repair is a valid record of the key that a quorum of distinct
    replicas has at its head, so that it is committed on a quorum. *)
Lemma majority_probe_heads rs1 env k probe :
  map replica_id rs1 = ids → NoDup ids → cluster_wf rs1 →
  majority_probe (quorum_size settings) (observations rs1 env k None) = Some probe →
  majority_head rs1 (quorum_size settings) k (source_of probe) ∧
  committed_on rs1 (quorum_size settings) k (r_record_version probe) (r_record_id probe).
Proof.
  intros Hi Hnd Hwf (key & group & Hsub & Hq & Hkey & op & Hop & Hrec)%majority_probe_group.
  assert (Hall : ∀ o, o ∈ group → ∃ r row rec, r ∈ rs1 ∧ ob_replica_id o = replica_id r ∧
    get_head_row (replica_db r) k = Some row ∧ row_to_record row = Ok rec ∧
    ob_record o = Some rec ∧ obs_key o = (r_record_version rec, r_content_hash rec) ∧
    r_record_key rec = k ∧ holds rs1 k (r_record_version rec) (r_record_id rec) (replica_id r)).
  { intros o Ho. destruct (Hkey _ Ho) as [Hf _].
    assert (Hin : o ∈ observations rs1 env k None) by (by eapply sublist_subseteq).
    apply list_elem_of_fmap in Hin as (r & Heq & Hr).
    destruct (observe_found _ _ _ _ _ (eq_sym Heq) Hf) as (_ & _ & Hid & row & rec & Hg & Hrow & Hor & _).
    destruct (found_holds _ _ _ _ _ _ rec Hwf Hr Heq Hf Hor) as (Hok & _ & Hk & _ & Hh).
    injection Hg as Hg. by exists r, row, rec. }
  assert (Hsame : ∀ o, o ∈ group → at_head rs1 k (source_of probe) (ob_replica_id o) ∧
    holds rs1 k (r_record_version probe) (r_record_id probe) (ob_replica_id o)).
  { destruct (Hall _ Hop) as (r0 & row0 & rec0 & _ & _ & _ & Hrow0 & Hor0 & Hk0 & Hkk0 & _).
    assert (rec0 = probe) as -> by congruence.
    intros o Ho. destruct (Hall _ Ho) as (r & row & rec & Hr & -> & Hg & Hrow & _ & Hok & Hkk & Hh).
    destruct (Hkey _ Ho) as [_ H1], (Hkey _ Hop) as [_ H2].
    assert (Heq : (r_record_version rec, r_content_hash rec)
      = (r_record_version probe, r_content_hash probe)) by congruence.
    injection Heq as Hv Hc.
    destruct (row_to_record_fields _ _ Hrow) as (_ & Ev & Eid & Eh & Hval).
    destruct (row_to_record_fields _ _ Hrow0) as (_ & _ & _ & _ & Hval0).
    assert (Hid : r_record_id rec = r_record_id probe) by (apply record_identity; [done.. | congruence | done | done]).
    split; [|by rewrite <-Hv, <-Hid].
    exists r, row. split_and!; [done..|]. unfold source_of. congruence. }
  assert (Hnds : NoDup (map ob_replica_id group)).
  { eapply sublist_NoDup; [|apply sublist_map, Hsub]. by rewrite observations_ids, Hi. }
  split; exists (map ob_replica_id group); (split_and!; [done | by rewrite length_map |]);
    apply Forall_forall; intros rid Hrid; apply list_elem_of_fmap in Hrid as (o & -> & Ho);
    by apply Hsame.
Qed.

(** A quorum that holds a verifiable row makes NOT_FOUND impossible. *)
Lemma committed_not_absent rs1 env k v id total record :
  map replica_id rs1 = ids → NoDup ids → Z.of_nat (length ids) < 2 * quorum_size settings →
  committed_on rs1 (quorum_size settings) k v id →
  (∀ r row, r ∈ rs1 → committed_slot r k v = Some row → is_ok (row_to_record row) = true) →
  read_verdict (quorum_size settings) total (observations rs1 env k (Some v)) ≠ (NOT_FOUND, record).
Proof.
  intros Hi Hnd Hq (rids & Hndr & Hl & Hall) Hver Hv.
  apply read_verdict_not_found in Hv as [Hnone Hresp].
  set (obs := observations rs1 env k (Some v)) in *.
  rewrite Forall_forall in Hall.
  destruct (quorum_intersect ids (map ob_replica_id (responses obs)) rids) as (rid & H1 & H2);
    [| done | | | |].
  - eapply sublist_NoDup; [|apply sublist_map, responses_sublist]. unfold obs.
    by rewrite observations_ids, Hi.
  - intros x Hx. rewrite <-Hi, <-(observations_ids rs1 env k (Some v)). fold obs.
    eapply sublist_subseteq; [apply sublist_map, responses_sublist | exact Hx].
  - intros x Hx. rewrite <-Hi. by eapply holds_id, Hall.
  - rewrite length_map. lia.
  - destruct (Hall _ H2) as (r & row & Hr & Hid & Hslot & _).
    apply list_elem_of_fmap in H1 as (o & Hoid & Ho).
    assert (Ho' := Ho). apply list_elem_of_filter in Ho' as [Hres Hobs].
    apply list_elem_of_fmap in Hobs as (r' & Heq & Hr').
    assert (r' = r) as ->.
    { apply list_elem_of_lookup in Hr as [i Hri], Hr' as [j Hrj].
      assert (i = j) as <-; [|congruence].
      assert (Hid' : replica_id r' = rid) by (by rewrite Hoid, Heq, observe_id).
      rewrite <-Hi in Hnd. eapply (NoDup_lookup _ i j rid); [exact Hnd | |].
      - rewrite list_lookup_fmap, Hri. cbn. by rewrite Hid.
      - rewrite list_lookup_fmap, Hrj. cbn. by rewrite Hid'. }
    assert (Hf : ob_found o = false).
    { destruct (ob_found o) eqn:Hf; [|done]. exfalso.
      assert (Hp : o ∈ present obs) by (apply list_elem_of_filter; rewrite Hf; by split).
      rewrite Hnone in Hp. set_solver. }
    specialize (Hver r row Hr Hslot).
    apply Is_true_true in Hres. rewrite Heq in Hf, Hres. revert Hf Hres.
    unfold observe_replica, read_call. case_decide; [done |].
    destruct (ce_storage _); [done |]. cbn [replica_get_committed_row].
    unfold BbStorage.get_committed_row. unfold mbind, result_bind.
    destruct (bind_int v); [|done]. unfold committed_slot in Hslot. rewrite Hslot.
    by destruct (row_to_record row).
Qed.

(** ** The view *)
Lemma scanned_committed db p chunk max row :
  1 ≤ chunk ≤ 10000 → 0 ≤ max → row ∈ (scan_replica db p chunk max).1 →
  ∃ slot, db_committed db !! slot = Some row.
Proof.
  intros Hc Hm Hin. rewrite scan_replica_spec in Hin by done. cbn in Hin.
  assert (Hall : row ∈ all_rows db p).
  { eapply sublist_subseteq; [apply sublist_take | exact Hin]. }
  unfold all_rows in Hall. rewrite elem_of_isort in Hall.
  assert (Hl : row ∈ (map_to_list (db_committed db)).*2).
  { unfold prefix_rows in Hall. destruct p; [|done].
    by apply list_elem_of_filter in Hall as [_ Hall]. }
  apply list_elem_of_fmap in Hl as ([slot r] & -> & Hs).
  exists slot. by apply elem_of_map_to_list.
Qed.

End consistency.
