(* ===== verification/BbWitness.v ===== *)
(** * A concrete run

    A runtime with a simple checksum in the place of SHA-256, a three-replica
    Blackboard with empty stores, and the write and read the witnesses of the
    properties evaluate. *)

From S2P Require Import Prelude PyString Json BbContracts BbStorage BbStorageFacts BbAuthorization BbReplica.
From S2P Require Import BbReplicaFacts BbInstrumentation BbCoordinator BbCluster BbWriteFacts BbReads.
From S2P Require Import BbReadFacts BbConsistency.

Definition toy_digest (s : string) : string :=
  let mask := Z.ones 48 in
  let n := foldl (λ n c, Z.land (n * 257 + code c + 1) mask) 7 (chars s) in
  unchars (map (λ i, hex_lower (Z.to_N (Z.land (Z.shiftr n (4 * Z.of_nat i)) 15))) (seq 0 12))
    +:+ "0000000000000000000000000000000000000000000000000000".

#[export] Instance toy_runtime : PyRuntime := {
  sha256_hex := toy_digest;
  hmac_sha256_hex key msg := toy_digest (key +:+ "|" +:+ msg);
  float_repr f := "0.0";
  float_round x n := x;
  float_sum l := foldl f_add f_zero l;
  float_pow x n := Nat.iter (Z.to_nat n) (f_mul x) f_one;
  float_parse s := f_zero;
  fromisoformat_aware s := Some true;
}.

Definition t0_utc : string := "2024-01-01T00:00:00Z".

Definition call_env : CallEnv :=
  mk_call_env PassThroughHooks None t0_utc (f_of_Z 1000) t0_utc f_zero.

Definition op_env : OpEnv :=
  mk_op_env "0123456789abcdef0123456789abcdef" (λ _, Ok tt) (λ _ _, call_env) t0_utc t0_utc f_zero.

Definition fresh_replica (rid : string) : BlackboardReplica :=
  new_replica rid (new_database rid) DEFAULT_MAX_RECORD_BYTES (f_of_Z 300) 16.

Definition fresh_replicas : list BlackboardReplica := map fresh_replica DEFAULT_REPLICA_IDS.

Definition coordinator0 : BlackboardCoordinator :=
  mk_coordinator fresh_replicas default_settings (new_instrumentation 512 256 64) 1.

Definition draft1 : BlackboardRecordDraft :=
  mk_draft "net/1" NETWORK_FINDING_RECORD 1 None (Some 3) "agent" "network"
    [("score", JInt 4)] [("b", JStr "x"); ("a", JNull)].

Lemma fresh_wf rid : replica_wf (fresh_replica rid).
Proof. by destruct (new_database_wf rid). Qed.

Lemma fresh_ok : coord_ok default_settings DEFAULT_REPLICA_IDS coordinator0.
Proof.
  split_and!; [done | done | |].
  - apply (bool_decide_unpack _). by vm_compute.
  - unfold cluster_wf, coordinator0, fresh_replicas; cbn. auto using fresh_wf.
Qed.

(** *** The write, the read, and one replica's part, evaluated *)
Definition dummy_write : WriteResultV1 :=
  mk_write_result "" FAILED_STORAGE None "" None None None None None [] [] "" "" f_zero.
Definition dummy_read : ReadResultV1 :=
  mk_read_result "" "" "" None READ_UNAVAILABLE None None [] [] [] f_zero.
Definition dummy_record : BlackboardRecordV1 :=
  mk_record "" "" "" SYSTEM_RECORD 0 None None "" "" [] [] "".
Definition dummy_row : CommittedRow :=
  mk_row "" 0 "" "" "" None None "" "" "" "" "" "" "".

Definition ok_or {A} (d : A) (r : result A) : A := match r with Ok a => a | Raise _ => d end.

Definition record1 : BlackboardRecordV1 := Eval vm_compute in ok_or dummy_record (to_record draft1).

Definition write1_res : WriteResultV1 := Eval vm_compute in
  ok_or dummy_write (propose AllowAll op_env None (ProposeDraft draft1) "alice" coordinator0).1.
Definition after1 : BlackboardCoordinator := Eval vm_compute in
  (propose AllowAll op_env None (ProposeDraft draft1) "alice" coordinator0).2.

Lemma write1_run :
  propose AllowAll op_env None (ProposeDraft draft1) "alice" coordinator0 = (Ok write1_res, after1).
Proof. vm_compute. reflexivity. Qed.

Definition read1_res : ReadResultV1 := Eval vm_compute in
  ok_or dummy_read (read AllowAll op_env "bob" "net/1" (Some 1) after1).1.
Definition after_read1 : BlackboardCoordinator := Eval vm_compute in
  (read AllowAll op_env "bob" "net/1" (Some 1) after1).2.

Lemma read1_run : read AllowAll op_env "bob" "net/1" (Some 1) after1 = (Ok read1_res, after_read1).
Proof. vm_compute. reflexivity. Qed.

Definition replica_a : BlackboardReplica := Eval vm_compute in fresh_replica "replica_a".
Definition prepare1_ack : ReplicaAckV1 := Eval vm_compute in
  (prepare call_env "op-1" record1 replica_a).1.
Definition prepared1 : BlackboardReplica := Eval vm_compute in
  (prepare call_env "op-1" record1 replica_a).2.
Definition commit1_ack : ReplicaAckV1 := Eval vm_compute in
  (commit call_env "op-1" record1 prepared1).1.
Definition committed1 : BlackboardReplica := Eval vm_compute in
  (commit call_env "op-1" record1 prepared1).2.

Lemma prepare1_run : prepare call_env "op-1" record1 replica_a = (prepare1_ack, prepared1).
Proof. vm_compute. reflexivity. Qed.
Lemma commit1_run : commit call_env "op-1" record1 prepared1 = (commit1_ack, committed1).
Proof. vm_compute. reflexivity. Qed.
Lemma replica_a_wf : replica_wf replica_a.
Proof. exact (fresh_wf "replica_a"). Qed.

(** The row the commit stored. *)
Definition row1 : CommittedRow := Eval vm_compute in
  default dummy_row (committed_slot committed1 "net/1" 1).

(** *** What the run established *)
Lemma write1_steps :
  rtc cluster_step (co_replicas coordinator0) (co_replicas after1) ∧
  co_settings after1 = default_settings ∧
  write_post default_settings DEFAULT_REPLICA_IDS fresh_replicas write1_res (co_replicas after1).
Proof.
  pose proof fresh_ok as (_ & _ & Hnd & _).
  apply (triple_propose (Auth := AllowAllDevelopmentAuthorizer) default_settings
    DEFAULT_REPLICA_IDS (λ _, True) Hnd fresh_replicas ltac:(done) AllowAll op_env None
    (ProposeDraft draft1) "alice" ltac:(done) ltac:(done) coordinator0 (Ok write1_res) after1
    fresh_ok eq_refl write1_run).
Qed.

Lemma write1_coord_ok : coord_ok default_settings DEFAULT_REPLICA_IDS after1.
Proof.
  destruct write1_steps as (H1 & H2 & _).
  exact (coord_ok_steps default_settings DEFAULT_REPLICA_IDS coordinator0 after1 fresh_ok H1 H2).
Qed.

Lemma write1_quorum :
  committed_on (co_replicas after1) 2 "net/1" 1 (r_record_id record1).
Proof.
  destruct write1_steps as (_ & _ & Hpost).
  destruct (write_post_committed default_settings DEFAULT_REPLICA_IDS fresh_replicas _ _
    eq_refl ltac:(done) Hpost eq_refl) as (k & v & id & Hk & Hv & Hid & Hc).
  injection Hk as <-. injection Hv as <-. injection Hid as <-. exact Hc.
Qed.

(** Every row of the slot verifies. *)
Definition slot_verifies (r : BlackboardReplica) : bool :=
  match committed_slot r "net/1" 1 with
  | Some row => is_ok (row_to_record row)
  | None => true
  end.

Lemma write1_verifies r row :
  r ∈ co_replicas after1 → committed_slot r "net/1" 1 = Some row →
  is_ok (row_to_record row) = true.
Proof.
  assert (Hall : forallb slot_verifies (co_replicas after1) = true)
    by (vm_compute; reflexivity).
  intros Hr Hs. rewrite forallb_forall in Hall. apply list_elem_of_In in Hr.
  specialize (Hall r Hr). unfold slot_verifies in Hall. by rewrite Hs in Hall.
Qed.
