(* ===== verification/BbProperties.v ===== *)
(** * Properties of the Blackboard

    Agreement and durability of the replicated log, the effect of a write, the
    authority of a read, storage integrity, and the bounds of what is kept in
    memory.  The witnesses evaluate the concrete run of [BbWitness]. *)

From S2P Require Import Prelude PyString Json Firewall BbContracts BbStorage BbStorageFacts BbAuthorization.
From S2P Require Import BbReplica BbReplicaFacts BbInstrumentation BbCoordinator BbCluster BbWriteFacts.
From S2P Require Import BbReads BbReadFacts BbViewFacts BbConsistency BbWitness.

Section properties.
Context `{PyRuntime} {Auth : Type} `{Authorizer Auth}.


(** C6: A write through the coordinator, with a quorum of at least two and an
    authorizer and coordinator hook that answer, always returns a result; it
    only takes replica steps; and there is a set of replicas that appended
    exactly one row, carrying the record's key, version and id, while every
    other replica's committed log is unchanged.  The set has a quorum exactly
    when the result is COMMITTED; it is one replica for PARTIAL_COMMIT, empty
    for every rejection and for FAILED_QUORUM, and for FAILED_STORAGE smaller
    than a quorum and not of size one, where the result does not say how many
    (with quorum size three it can be two). *)
Theorem propose_effect settings ids auth env listener draft principal c out c' :
  coord_ok settings ids c → 2 ≤ quorum_size settings →
  (∀ rq, is_ok (decide_request auth rq) = true) → (∀ ctx, is_ok (oe_observe env ctx) = true) →
  propose auth env listener draft principal c = (out, c') →
  ∃ res, out = Ok res ∧ rtc cluster_step (co_replicas c) (co_replicas c') ∧
    write_post settings ids (co_replicas c) res (co_replicas c').
Proof.
  intros Hok Hq Ha Hh Hp. pose proof Hok as (_ & _ & Hnd & _).
  destruct (triple_propose settings ids (λ _, False) Hnd (co_replicas c) ltac:(lia)
    auth env listener draft principal) with (c := c) (out := out) (c' := c')
    as (Hr & _ & Hpost); [| |done..|].
  - intros rq e He. specialize (Ha rq). by rewrite He in Ha.
  - intros ctx e He. specialize (Hh ctx). by rewrite He in Hh.
  - destruct out as [res|e]; [by exists res | done].
Qed.

(** C7: Read after write.  After a write that returned COMMITTED, and after any
    further steps of the cluster, a read of that version through any coordinator
    over the same replicas never returns another record: an authoritative
    answer carries the committed record id. *)
Theorem read_after_commit settings ids auth env listener draft principal c res c1 auth2 env2
    principal2 c2 rres c3 k v :
  coord_ok settings ids c → 1 ≤ quorum_size settings →
  Z.of_nat (length ids) < 2 * quorum_size settings →
  propose auth env listener draft principal c = (Ok res, c1) → w_outcome res = COMMITTED →
  w_record_key res = Some k → w_record_version res = Some v →
  rtc cluster_step (co_replicas c1) (co_replicas c2) → coord_ok settings ids c2 →
  read auth2 env2 principal2 k (Some v) c2 = (Ok rres, c3) →
  ∀ rec, rd_record rres = Some rec → w_record_id res = Some (r_record_id rec).
Proof.
  intros Hok Hq Hqq Hp Ho Hk Hv Hsteps Hok2 Hr rec Hrec.
  pose proof Hok as (_ & Hi & Hnd & Hwf). pose proof Hok2 as (_ & Hi2 & _ & Hwf2).
  destruct (triple_propose settings ids (λ _, True) Hnd (co_replicas c) ltac:(done)
    auth env listener draft principal ltac:(done) ltac:(done) _ _ _ Hok eq_refl Hp)
    as (Hr1 & _ & Hpost).
  destruct (write_post_committed settings ids _ _ _ Hi Hq Hpost Ho) as (k' & v' & id & Ek & Ev & Eid & Hc).
  assert (k' = k) as -> by congruence. assert (v' = v) as -> by congruence.
  rewrite Eid. f_equal. destruct (triple_read settings ids (λ _, True) (co_replicas c2) auth2 env2 principal2 k (Some v)
    ltac:(done) ltac:(done) _ _ _ Hok2 eq_refl Hr) as (_ & _ & _ & [[_ Hn]|Hver]); [congruence |].
  rewrite Hrec in Hver. symmetry in Hver.
  destruct (read_record_committed settings ids _ _ _ _ _ _ _ Hi2 Hnd Hwf2 Hver)
    as (_ & _ & _ & Hvv & Hc2).
  rewrite (Hvv v eq_refl) in Hc2.
  destruct (cluster_steps_le _ _ Hr1 Hwf) as [Hwf1 _].
  destruct (cluster_steps_le _ _ Hsteps Hwf1) as [_ Hle2].
  eapply (committed_on_agree (co_replicas c2)); [| |by eapply committed_on_mono | exact Hc2].
  - unfold replica_ids in Hi2. by rewrite Hi2.
  - rewrite <-(length_map replica_id). unfold replica_ids in Hi2. by rewrite Hi2.
Qed.

(** C8: A read only returns a record when it answers CONSISTENT or
    DEGRADED_CONSISTENT, and then the record passes every validator, belongs to
    the key (and version) asked for, and is committed on a quorum of replicas. *)
Theorem read_authority settings ids auth env principal k v c res c' rec :
  coord_ok settings ids c → read auth env principal k v c = (Ok res, c') →
  rd_record res = Some rec →
  (rd_outcome res = CONSISTENT ∨ rd_outcome res = DEGRADED_CONSISTENT) ∧
  record_valid rec ∧ r_record_key rec = k ∧ (∀ v', v = Some v' → r_record_version rec = v') ∧
  committed_on (co_replicas c) (quorum_size settings) k (r_record_version rec) (r_record_id rec).
Proof.
  intros Hok Hr Hrec. pose proof Hok as (_ & Hi & Hnd & Hwf).
  destruct (triple_read settings ids (λ _, True) (co_replicas c) auth env principal k v
    ltac:(done) ltac:(done) _ _ _ Hok eq_refl Hr) as (_ & _ & _ & [[_ Hn]|Hver]); [congruence |].
  rewrite Hrec in Hver. symmetry in Hver.
  by apply (read_record_committed settings ids _ _ _ _ _ _ _ Hi Hnd Hwf Hver).
Qed.

(** A quorum commit is never read as absent: while a majority quorum holds a
    slot, and the stored rows of that slot still verify, a read of that version
    does not answer NOT_FOUND, whatever replicas are down. *)
Theorem committed_never_not_found settings ids auth env principal k v id c res c' :
  coord_ok settings ids c → Z.of_nat (length ids) < 2 * quorum_size settings →
  committed_on (co_replicas c) (quorum_size settings) k v id →
  (∀ r row, r ∈ co_replicas c → committed_slot r k v = Some row → is_ok (row_to_record row) = true) →
  read auth env principal k (Some v) c = (Ok res, c') →
  rd_outcome res ≠ NOT_FOUND.
Proof.
  intros Hok Hq Hc Hver Hr Ho. pose proof Hok as (_ & Hi & Hnd & _).
  destruct (triple_read settings ids (λ _, True) (co_replicas c) auth env principal k (Some v)
    ltac:(done) ltac:(done) _ _ _ Hok eq_refl Hr) as (_ & _ & _ & [[Hn _]|Hv]); [congruence |].
  rewrite Ho in Hv. symmetry in Hv.
  by apply (committed_not_absent settings ids _ env _ _ _ _ _ Hi Hnd Hq Hc Hver) in Hv.
Qed.

(** C9: Refinement of one replica to an append-only log per key: every step
    (prepare, commit, abort, repair, health change, restart, under any hooks and
    storage faults) keeps the store's invariant, and the abstract log of every
    key is unchanged, except that at most one key's log gets one row appended. *)
Theorem replica_step_log r r' :
  replica_step r r' → replica_wf r →
  replica_wf r' ∧
  ((∀ k, key_log (replica_db r') k = key_log (replica_db r) k) ∨
   ∃ row, ∀ k, key_log (replica_db r') k =
     key_log (replica_db r) k ++ (if decide (k = cr_record_key row) then [row] else [])).
Proof.
  intros Hs Hwf. destruct (replica_step_effect _ _ Hs Hwf) as (Hwf' & _ & [Hl|[row Hl]]).
  - split; [done |]. left. intros k. by apply key_log_same.
  - split; [done |]. right. exists row. intros k. by apply key_log_appends.
Qed.

(** C10: Storage round trip: a valid record that was prepared on a free slot and
    committed reads back from the replica's table, through all the integrity
    checks, as the same record with sorted dictionary keys. *)
Theorem stored_record_roundtrip env env2 op record r ack r1 ack2 r2 :
  replica_wf r → ce_hooks env = PassThroughHooks →
  record_json_ok record = true → record_valid record →
  db_pending (replica_db r) !! (r_record_key record, r_record_version record) = None →
  prepare env op record r = (ack, r1) → a_ack_status ack = ACK_PREPARED →
  commit env2 op record r1 = (ack2, r2) → a_ack_status ack2 = ACK_COMMITTED →
  ∃ row, committed_slot r2 (r_record_key record) (r_record_version record) = Some row ∧
    row_to_record row = Ok (normalise_record record).
Proof.
  intros Hwf Hh Hj Hval Hfree Hp Ha Hc Ha2.
  destruct (prepare_stages _ _ _ _ _ _ Hh Hfree Hp Ha) as (p & Hpend & Hfull).
  apply prepare_spec in Hp as (_ & _ & Hwf1 & _).
  apply commit_spec in Hc as (_ & _ & Hyes & _); [|by apply Hwf1].
  destruct (Hyes Ha2) as (_ & [row Hrow] & _). exists row.
  split; [by eapply committed_by_slot |].
  destruct (cb_staged _ _ _ _ _ Hrow) as (p' & Hp' & _ & _ & _ & d & at_utc & Hd & Hs).
  assert (p' = p) as -> by congruence.
  destruct (staged_row_projection record _ op at_utc Hfull) as (d' & row' & Hd' & Hs' & Hv).
  assert (d' = d) as -> by congruence. assert (row' = row) as -> by congruence.
  by eapply storage_roundtrip.
Qed.

(** Tampering is detected: a stored row only reads back when its content hash
    is the hash of the record it decodes to, its record id is derived from that
    hash, both JSON columns are byte for byte the canonical text, and the
    firewall holds. *)
Theorem row_to_record_integrity row rec :
  row_to_record row = Ok rec →
  canonical_content_hash (JDict (record_fields rec)) = Ok (cr_content_hash row) ∧
  cr_record_id row =
    derive_record_id (cr_record_key row) (cr_record_version row) (cr_content_hash row) ∧
  canonical_json_str (JDict (r_payload rec)) = Ok (cr_payload_json row) ∧
  canonical_json_str (JDict (r_provenance rec)) = Ok (cr_provenance_json row) ∧
  assert_blackboard_firewall (JDict (r_payload rec)) "payload" = Ok tt.
Proof.
  intros Hr. destruct (row_to_record_fields _ _ Hr) as (Hk & Hv & Hid & Hh & Hval).
  apply model_validate_ok in Hval as (_ & Hf & [Hhash Hder]%verify_ok).
  rewrite content_hash_eq in Hhash. rewrite <-Hk, <-Hv, <-Hid, <-Hh.
  assert (Hfw : assert_blackboard_firewall (JDict (r_payload rec)) "payload" = Ok tt).
  { unfold record_field_validators in Hf. by decompose_Forall_hyps. }
  unfold row_to_record in Hr.
  repeat (rewrite result_bind_ok in Hr; destruct Hr as (? & ? & Hr)).
  destruct (_ && _) eqn:Ht; [|done]. injection Hr as <-.
  apply andb_true_iff in Ht as [Hp%bool_decide_eq_true Hpv%bool_decide_eq_true].
  match goal with Hm : model_validate _ = Ok _ |- _ => apply model_validate_ok in Hm as (-> & _) end.
  cbn in *. split_and!; congruence.
Qed.

(** Quorum evaluation: the decision is QUORUM_MET exactly when some identity
    (id, key, version, hash) has at least the required number of prepared
    acknowledgements; the winners are then exactly the acknowledgements of one
    largest identity, and otherwise nobody wins. *)
Theorem evaluate_quorum_spec acks required :
  let q := evaluate_quorum acks required in
  (q_decision q = QUORUM_MET ↔
     ∃ k, members ack_key k acks ≠ [] ∧ required ≤ Z.of_nat (length (members ack_key k acks))) ∧
  (if decide (q_decision q = QUORUM_MET)
   then ∃ k, q_compatible_replica_ids q = map a_replica_id (members ack_key k acks) ∧
     q_group_record_id q = Some k.1.1.1 ∧ q_group_content_hash q = Some k.2 ∧
     ∀ k', (length (members ack_key k' acks) ≤ length (members ack_key k acks))%nat
   else q_compatible_replica_ids q = []).
Proof.
  cbv zeta. case_decide as Hd.
  - destruct (evaluate_quorum_met _ _ Hd) as (k & Hi & Hr & Hh & Hq & Hne & Hmax).
    split; [split; [by exists k | done] | by exists k].
  - destruct (evaluate_quorum_not_met _ _ Hd) as [Hi Hn]. split; [|done].
    split; [done |]. intros (k & Hne & Hq). destruct (Hn k); [done | lia].
Qed.

(** Compare-and-stage: on a well-formed store a proposal for a slot is stale
    exactly at or below the head, ahead exactly beyond the next version, a
    conflict exactly when another record holds the next slot under an unexpired
    lease, and prepared otherwise; a rejection changes nothing, and no outcome
    touches committed rows. *)
Theorem prepare_insert_cas k v id h op rj at_utc now lease db out db' :
  db_wf db → prepare_insert k v id h op rj at_utc now lease db = Ok (out, db') →
  let head := head_of db k in
  let held := match db_pending db !! (k, v) with
              | Some p => negb (bool_decide (pr_record_id p = id))
                          && negb (f_gtb (f_sub now (pr_created_epoch p)) lease)
              | None => false
              end in
  log_same db db' ∧
  (p_outcome out = PREPARE_REJECT_STALE ↔ v ≤ head) ∧
  (p_outcome out = PREPARE_REJECT_AHEAD ↔ head + 1 < v) ∧
  (p_outcome out = PREPARE_REJECT_CONFLICT ↔ v = head + 1 ∧ held = true) ∧
  (if decide (p_outcome out = PREPARED ∨ p_outcome out = PREPARED_LEASE_TAKEOVER)
   then ∃ p, db_pending db' !! (k, v) = Some p ∧ pr_operation_id p = op ∧ pr_record_id p = id
   else db' = db).
Proof.
  intros Hwf Hi. pose proof (prepare_insert_same _ _ _ _ _ _ _ _ _ _ _ _ Hi) as Hs.
  pose proof (prepare_insert_prepared _ _ _ _ _ _ _ _ _ _ _ _ Hi) as Hp.
  cbv zeta. split; [done |]. unfold prepare_insert in Hi. cbv zeta in Hi.
  destruct (Z.leb_spec v (head_of db k)) as [Hle|Hgt].
  { injection Hi as <- <-. cbn. rewrite decide_False by naive_solver. repeat split; naive_solver lia. }
  destruct (Z.eqb_spec v (head_of db k + 1)) as [->|Hne]; cbn [negb] in Hi.
  2: { injection Hi as <- <-. cbn. rewrite decide_False by naive_solver.
       repeat split; naive_solver lia. }
  rewrite result_bind_ok in Hi. destruct Hi as (u & _ & Hi).
  destruct (db_pending db !! _) as [p|] eqn:Hpend.
  - case_decide as Hid.
    + injection Hi as <- <-. cbn in *. rewrite bool_decide_true by done.
      rewrite decide_True by naive_solver. split_and!; [split; [done | lia].. | | by apply Hp; left].
      split; [done | by intros [_ ?]].
    + rewrite bool_decide_false by done. destruct (f_gtb _ lease); injection Hi as <- <-; cbn in *.
      * rewrite decide_True by naive_solver.
        split_and!; [split; [done | lia].. | | by apply Hp; right]. split; [done | by intros [_ ?]].
      * rewrite decide_False by naive_solver. split_and!; [split; [done | lia].. | done | done].
  - injection Hi as <- <-. cbn in *. rewrite decide_True by naive_solver.
    split_and!; [split; [done | lia].. | | by apply Hp; left]. split; [done | by intros [_ ?]].
Qed.

(** A listener, even one that always raises, cannot influence the protocol:
    the write returns the same result and leaves the same replicas, settings and
    counters as without it, except for the [listener_errors] counter. *)
Theorem listener_noninterference auth env listener draft principal c :
  (propose auth env listener draft principal c).1 = (propose auth env None draft principal c).1 ∧
  coord_eqv (propose auth env listener draft principal c).2
    (propose auth env None draft principal c).2.
Proof. by apply rel_propose. Qed.

(** C11: The canonical text identifies content: two JSON values have the same
    canonical text exactly when Python considers them equal, whatever the order
    of their keys. *)
Theorem canonical_json_identity v w s t :
  json_wf v = true → json_wf w = true → json_floats_ok v = true → json_floats_ok w = true →
  canonical_json_str v = Ok s → canonical_json_str w = Ok t →
  s = t ↔ json_same v w.
Proof.
  intros Hv Hw Hfv Hfw Hs Ht. split.
  - intros ->. pose proof (loads_canonical _ _ Hv Hfv Hs) as H1.
    rewrite (loads_canonical _ _ Hw Hfw Ht) in H1. apply sort_keys_same; [done..|congruence].
  - intros Hsame. unfold canonical_json_str in Hs, Ht.
    rewrite (same_sort_keys _ _ Hv Hw Hsame) in Hs.
    destruct (json_finite v), (json_finite w); simplify_eq; done.
Qed.

(** C12: The committed view only lists quorum-backed rows: every item names a set
    of distinct responsive replicas, at least a quorum, that hold a committed
    row with exactly the item's key, version and record id. *)
Theorem committed_view_quorum settings ids c p limit offset max item :
  coord_ok settings ids c → 1 ≤ committed_scan_chunk_size settings ≤ 10000 →
  0 ≤ default (committed_scan_max_rows settings) max →
  item ∈ v_items (committed_view c p limit offset max) →
  NoDup (vi_supporting_replicas item) ∧
  quorum_size settings ≤ Z.of_nat (length (vi_supporting_replicas item)) ∧
  Forall (holds (responsive c) (vi_record_key item) (vi_record_version item) (vi_record_id item))
    (vi_supporting_replicas item).
Proof.
  intros (Hs & Hi & Hnd & Hwf) Hc Hm Hin. rewrite <-Hi in Hnd.
  destruct (committed_view_supported c p limit offset max item Hnd Hin) as (Hn & Hq & Hall).
  rewrite Hs in Hq, Hall. split_and!; [done..|]. apply Forall_forall. intros rid Hrid.
  destruct (Hall rid Hrid) as (r & row & Hr & Hid & Hrow & Hk).
  apply scanned_committed in Hrow as [[k' v'] Hslot]; [|done..].
  assert (Hrwf : replica_wf r).
  { apply list_elem_of_filter in Hr as [_ Hr]. unfold cluster_wf in Hwf.
    rewrite Forall_forall in Hwf. auto. }
  destruct (wf_slot _ Hrwf _ _ _ Hslot) as [<- <-]. injection Hk as Ek Ev Ei.
  exists r, row. rewrite <-Ek, <-Ev, <-Ei. by split_and!.
Qed.

(** The chunked scan of a replica terminates with exactly the first
    [scan_max_rows] rows of the ordered table, and reports truncation exactly
    when rows remain, provided a chunk is at most the storage layer's own limit
    of 10000 rows. *)
Theorem scan_replica_exact db p chunk max :
  1 ≤ chunk ≤ 10000 → 0 ≤ max →
  scan_replica db p chunk max =
  (take (Z.to_nat max) (all_rows db p), bool_decide (Z.to_nat max < length (all_rows db p))%nat).
Proof. apply scan_replica_spec. Qed.

(** C13: Explicit repair: it returns and it only takes replica steps (so it never
    removes or replaces a committed row).  Whenever the report names a source
    record, at least [quorum_size] distinct replicas had exactly that record
    (id, version and content hash) at the head of the key when the repair began,
    and hold it committed afterwards; and a REPAIRED report names a source, and
    every target replica has it at the head of the key. *)
Theorem resync_repaired settings ids auth env principal k targets c out c' :
  coord_ok settings ids c → (∀ rq, is_ok (decide_request auth rq) = true) →
  default ids targets ⊆ ids →
  resync_replicas_from_majority auth env principal k targets c = (out, c') →
  ∃ rep, out = Ok rep ∧ rtc cluster_step (co_replicas c) (co_replicas c') ∧
    (∀ id v h, rs_source rep = Some (id, v, h) →
       majority_head (co_replicas c) (quorum_size settings) k (id, v, h) ∧
       committed_on (co_replicas c') (quorum_size settings) k v id) ∧
    (rs_status rep = "REPAIRED" → ∃ id v h, rs_source rep = Some (id, v, h) ∧
       ∀ rid, rid ∈ default ids targets → aligned (co_replicas c') k id rid).
Proof.
  intros Hok Ha Hsub Hr. pose proof Hok as (_ & Hi & Hnd & Hwf).
  destruct (triple_resync settings ids (λ _, False) (co_replicas c) auth env principal k targets)
    with (c := c) (out := out) (c' := c') as (Hst & _ & Hpost); [|done..|].
  { intros rq e He. specialize (Ha rq). by rewrite He in Ha. }
  destruct out as [rep|]; [|done]. destruct Hpost as [Hsrc Hrep]. exists rep.
  split_and!; [done..| |done]. intros id v h (probe & [= -> -> ->] & Hp)%Hsrc.
  destruct (majority_probe_heads settings ids _ _ _ _ Hi Hnd Hwf Hp) as [Hh Hc]. split; [done |].
  destruct (cluster_steps_le _ _ Hst Hwf) as [_ Hle]. by eapply committed_on_mono.
Qed.

(** Bounded memory: writes, reads and repairs keep every latency series and
    history ring within its limit, and the counters non-negative and exactly the
    declared ones. *)
Theorem instrumentation_bounded auth env listener draft principal k v targets c :
  instr_bounded (co_instrumentation c) →
  instr_bounded (co_instrumentation (propose auth env listener draft principal c).2) ∧
  instr_bounded (co_instrumentation (read auth env principal k v c).2) ∧
  instr_bounded (co_instrumentation (resync_replicas_from_majority auth env principal k targets c).2).
Proof. intros Hb. split_and!; [by apply pres_propose | by apply pres_read | by apply pres_resync]. Qed.

(** The Blackboard firewall accepts a value exactly when no dictionary key
    anywhere in it, within the first 500 items of each list, is a forbidden one. *)
Theorem blackboard_firewall_spec v what :
  assert_blackboard_firewall v what = Ok tt ↔
  ∀ k, key_at scanned v k →
    key_hits_forbidden k = false ∧ extra_hits BLACKBOARD_EXTRA_FORBIDDEN_KEYS k = false.
Proof. apply assert_blackboard_firewall_ok. Qed.

End properties.


Lemma propose_effect_witness :
  ∃ res, Ok write1_res = Ok res ∧ rtc cluster_step (co_replicas coordinator0) (co_replicas after1) ∧
    write_post default_settings DEFAULT_REPLICA_IDS fresh_replicas res (co_replicas after1).
Proof.
  apply (propose_effect (Auth := AllowAllDevelopmentAuthorizer) default_settings DEFAULT_REPLICA_IDS AllowAll op_env None
    (ProposeDraft draft1) "alice" coordinator0 (Ok write1_res) after1).
  - apply fresh_ok.
  - by vm_compute.
  - done.
  - done.
  - exact write1_run.
Defined.

Lemma read_after_commit_witness :
  ∃ rec, rd_record read1_res = Some rec ∧ w_record_id write1_res = Some (r_record_id rec).
Proof.
  exists (default dummy_record (rd_record read1_res)). split; [reflexivity |].
  apply (read_after_commit (Auth := AllowAllDevelopmentAuthorizer) default_settings DEFAULT_REPLICA_IDS AllowAll op_env None
    (ProposeDraft draft1) "alice" coordinator0 write1_res after1 AllowAll op_env "bob"
    after1 read1_res after_read1 "net/1" 1).
  - apply fresh_ok.
  - by vm_compute.
  - by vm_compute.
  - exact write1_run.
  - reflexivity.
  - reflexivity.
  - reflexivity.
  - constructor.
  - apply write1_coord_ok.
  - exact read1_run.
  - reflexivity.
Defined.

Lemma read_authority_witness : ∃ rec, rd_record read1_res = Some rec ∧
  committed_on (co_replicas after1) 2 "net/1" (r_record_version rec) (r_record_id rec).
Proof.
  exists (default dummy_record (rd_record read1_res)). split; [reflexivity |].
  apply (read_authority (Auth := AllowAllDevelopmentAuthorizer) default_settings DEFAULT_REPLICA_IDS AllowAll op_env "bob" "net/1" (Some 1)
    after1 read1_res after_read1 _ write1_coord_ok read1_run eq_refl).
Defined.

Lemma committed_never_not_found_witness : rd_outcome read1_res ≠ NOT_FOUND.
Proof.
  apply (committed_never_not_found (Auth := AllowAllDevelopmentAuthorizer) default_settings DEFAULT_REPLICA_IDS AllowAll op_env "bob"
    "net/1" 1 (r_record_id record1) after1 read1_res after_read1).
  - apply write1_coord_ok.
  - by vm_compute.
  - apply write1_quorum.
  - apply write1_verifies.
  - exact read1_run.
Defined.

Lemma replica_step_log_witness : replica_wf prepared1 ∧
  ((∀ k, key_log (replica_db prepared1) k = key_log (replica_db replica_a) k) ∨
   ∃ row, ∀ k, key_log (replica_db prepared1) k =
     key_log (replica_db replica_a) k
     ++ (if decide (k = cr_record_key row) then [row] else [])).
Proof.
  apply replica_step_log.
  - eapply (step_prepare call_env "op-1" record1). exact prepare1_run.
  - apply replica_a_wf.
Defined.

Lemma stored_record_roundtrip_witness :
  ∃ row, committed_slot committed1 (r_record_key record1) (r_record_version record1) = Some row ∧
    row_to_record row = Ok (normalise_record record1).
Proof.
  apply (stored_record_roundtrip call_env call_env "op-1" record1 replica_a
    prepare1_ack prepared1 commit1_ack committed1).
  - apply replica_a_wf.
  - done.
  - by vm_compute.
  - by vm_compute.
  - by vm_compute.
  - exact prepare1_run.
  - by vm_compute.
  - exact commit1_run.
  - by vm_compute.
Defined.

Lemma row_to_record_integrity_witness :
  canonical_content_hash (JDict (record_fields (normalise_record record1))) = Ok (cr_content_hash row1).
Proof.
  refine (proj1 (row_to_record_integrity row1 (normalise_record record1) _)).
  vm_compute. reflexivity.
Defined.

Lemma prepare_insert_cas_witness :
  ∃ out db', prepare_insert "k" 1 "id" "h" "op" "{}" t0_utc (f_of_Z 1) (f_of_Z 300)
      (new_database "replica_a") = Ok (out, db') ∧
    log_same (new_database "replica_a") db' ∧ (p_outcome out = PREPARE_REJECT_STALE ↔ 1 ≤ 0).
Proof.
  eexists _, _. split; [reflexivity |].
  match goal with |- log_same _ ?db ∧ (p_outcome ?out = _ ↔ _) =>
    pose proof (prepare_insert_cas "k" 1 "id" "h" "op" "{}" t0_utc (f_of_Z 1) (f_of_Z 300)
      (new_database "replica_a") out db (new_database_wf _) eq_refl) as (H1 & H2 & _) end.
  split; [exact H1 | exact H2].
Defined.

Lemma canonical_json_identity_witness :
  json_same (JDict [("a", JInt 1); ("b", JNull)]) (JDict [("b", JNull); ("a", JInt 1)]).
Proof.
  refine (proj1 (canonical_json_identity (JDict [("a", JInt 1); ("b", JNull)])
    (JDict [("b", JNull); ("a", JInt 1)]) _ _ eq_refl eq_refl eq_refl eq_refl eq_refl eq_refl) _).
  by vm_compute.
Defined.

Definition item1 : ViewItem := Eval vm_compute in
  default (mk_view_item "" "" 0 "" "" "" "" None None [])
    (head (v_items (committed_view after1 None 10 0 None))).
Lemma view1_run : v_items (committed_view after1 None 10 0 None) = [item1].
Proof. vm_compute. reflexivity. Qed.

Lemma committed_view_quorum_witness :
  NoDup (vi_supporting_replicas item1) ∧
  quorum_size default_settings ≤ Z.of_nat (length (vi_supporting_replicas item1)) ∧
  Forall (holds (responsive after1) (vi_record_key item1) (vi_record_version item1)
    (vi_record_id item1)) (vi_supporting_replicas item1).
Proof.
  apply (committed_view_quorum default_settings DEFAULT_REPLICA_IDS after1 None 10 0 None item1).
  - apply write1_coord_ok.
  - by vm_compute.
  - by vm_compute.
  - rewrite view1_run. apply list_elem_of_here.
Defined.

Lemma scan_replica_exact_witness :
  scan_replica (new_database "replica_a") None 1000 10000 =
  (take (Z.to_nat 10000) (all_rows (new_database "replica_a") None),
   bool_decide (Z.to_nat 10000 < length (all_rows (new_database "replica_a") None))%nat).
Proof. apply scan_replica_exact; lia. Defined.

Definition resync1_rep : ResyncReport := Eval vm_compute in
  ok_or (mk_resync "" "" None None [])
    (resync_replicas_from_majority AllowAll op_env "op" "net/1" None after1).1.
Definition after_resync1 : BlackboardCoordinator := Eval vm_compute in
  (resync_replicas_from_majority AllowAll op_env "op" "net/1" None after1).2.
Lemma resync1_run : resync_replicas_from_majority AllowAll op_env "op" "net/1" None after1 =
  (Ok resync1_rep, after_resync1).
Proof. vm_compute. reflexivity. Qed.

Lemma resync_repaired_witness : rs_status resync1_rep = "REPAIRED" ∧
  ∃ rep, Ok resync1_rep = Ok rep ∧
  rtc cluster_step (co_replicas after1) (co_replicas after_resync1) ∧
  (∀ id v h, rs_source rep = Some (id, v, h) →
     majority_head (co_replicas after1) 2 "net/1" (id, v, h) ∧
     committed_on (co_replicas after_resync1) 2 "net/1" v id) ∧
  (rs_status rep = "REPAIRED" → ∃ id v h, rs_source rep = Some (id, v, h) ∧
     ∀ rid, rid ∈ DEFAULT_REPLICA_IDS → aligned (co_replicas after_resync1) "net/1" id rid).
Proof.
  split; [reflexivity |].
  apply (resync_repaired (Auth := AllowAllDevelopmentAuthorizer) default_settings
    DEFAULT_REPLICA_IDS AllowAll op_env "op" "net/1" None after1 (Ok resync1_rep) after_resync1).
  - apply write1_coord_ok.
  - done.
  - done.
  - exact resync1_run.
Defined.

Lemma new_instrumentation_bounded a b c : instr_bounded (new_instrumentation a b c).
Proof.
  constructor; cbn; try lia; try done; repeat (constructor; [cbn; lia |]); constructor.
Qed.

Lemma instrumentation_bounded_witness : instr_bounded (co_instrumentation
  (propose AllowAll op_env None (ProposeDraft draft1) "alice" coordinator0).2).
Proof.
  refine (proj1 (instrumentation_bounded (Auth := AllowAllDevelopmentAuthorizer) AllowAll
    op_env None (ProposeDraft draft1) "alice" "net/1" None None coordinator0 _)). apply new_instrumentation_bounded.
Defined.
