(* ===== verification/OrContracts.v ===== *)
(** * Orchestration contracts and messages

    Models [orchestration/hashing.py] and [orchestration/authentication.py] (second
    part) and [orchestration/contracts.py]: routes, requests, signed proposals and
    votes, rejections, summaries and decisions, each with the dictionary its
    [model_dump()] gives and the validation its constructor runs.  The constant
    [schema_version] and [algorithm] fields are printed by the dumps and have no
    record field. *)

From S2P Require Import Prelude PyString Json Firewall.

Definition ORCHESTRATOR_IDS : list string :=
  ["orchestrator_a"; "orchestrator_b"; "orchestrator_c"].
Definition REQUIRED_QUORUM : nat := 2.
Definition MAX_REQUEST_CANONICAL_BYTES : Z := 65536.

(** [_ID_PATTERN.fullmatch(value)]. *)
Definition is_opaque_char (c : ascii) : bool :=
  is_alnum c || Ascii.eqb c "_" || Ascii.eqb c "." || Ascii.eqb c ":" || Ascii.eqb c "-".
Definition ID_PATTERN (value : string) : bool := id_pattern is_opaque_char 127 false value.

(** ** Routes and requests *)
Record CandidateRouteV1 := mk_route {
  cr_route_id : string;
  cr_priority : Z;
}.

#[export] Instance route_eq_dec : EqDecision CandidateRouteV1.
Proof. solve_decision. Defined.

Definition validate_route (c : CandidateRouteV1) : result unit :=
  first_error
    [str_field "route_id" 1 128 (cr_route_id c);
     check (ID_PATTERN (cr_route_id c)) ValueError "route_id must be an opaque bounded identifier";
     check ((0 <=? cr_priority c) && (cr_priority c <=? 1000000)) ValueError
       "priority: value out of bounds"].

Definition route_dump (c : CandidateRouteV1) : json :=
  JDict [("schema_version", JStr "orchestration_candidate_route_v1");
         ("route_id", JStr (cr_route_id c));
         ("priority", JInt (cr_priority c))].

Record OrchestrationRequestV1 := mk_request {
  rq_request_id : string;
  rq_request_version : Z;
  rq_round_id : string;
  rq_decision_kind : string;
  rq_candidate_routes : list CandidateRouteV1;
  rq_logical_timestamp : option string;
  rq_window_id : option Z;
  rq_scope_id : option string;
  rq_source_component : string;
  rq_provenance : list (string * json);
}.

#[export] Instance request_eq_dec : EqDecision OrchestrationRequestV1.
Proof. solve_decision. Defined.

Definition route_ids (r : OrchestrationRequestV1) : list string :=
  map cr_route_id (rq_candidate_routes r).

(** The dump, its routes given separately: [request_digest] sorts them. *)
Definition request_dump_with (routes : list CandidateRouteV1) (r : OrchestrationRequestV1)
    : json :=
  JDict [("schema_version", JStr "orchestration_request_v1");
         ("request_id", JStr (rq_request_id r));
         ("request_version", JInt (rq_request_version r));
         ("round_id", JStr (rq_round_id r));
         ("decision_kind", JStr (rq_decision_kind r));
         ("candidate_routes", JList (map route_dump routes));
         ("logical_timestamp", json_opt_str (rq_logical_timestamp r));
         ("window_id", json_opt_int (rq_window_id r));
         ("scope_id", json_opt_str (rq_scope_id r));
         ("source_component", JStr (rq_source_component r));
         ("provenance", JDict (rq_provenance r))].

Definition request_dump (r : OrchestrationRequestV1) : json :=
  request_dump_with (rq_candidate_routes r) r.

(** ** Authentication metadata *)
Record AuthenticationMetadataV1 := mk_auth {
  au_key_id : string;
  au_tag : string;
}.

#[export] Instance auth_eq_dec : EqDecision AuthenticationMetadataV1.
Proof. solve_decision. Defined.

Definition validate_auth (a : AuthenticationMetadataV1) : result unit :=
  first_error [str_field "key_id" 1 64 (au_key_id a); digest_field "tag" (au_tag a)].

(** The header that is signed: everything but the tag. *)
Definition auth_header (key_id : string) : list (string * json) :=
  [("schema_version", JStr "orchestrator_message_auth_v1");
   ("algorithm", JStr "HMAC-SHA256");
   ("key_id", JStr key_id)].
Definition auth_dump (a : AuthenticationMetadataV1) : list (string * json) :=
  auth_header (au_key_id a) ++ [("tag", JStr (au_tag a))].

(** ** Proposals *)
Record OrchestratorProposalV1 := mk_proposal {
  pr_message_id : string;
  pr_request_id : string;
  pr_request_version : Z;
  pr_round_id : string;
  pr_request_digest : string;
  pr_orchestrator_id : string;
  pr_proposed_route_id : string;
  pr_proposal_digest : string;
  pr_message_hash : string;
  pr_logical_timestamp : option string;
  pr_window_id : option Z;
  pr_policy_id : string;
  pr_policy_version : string;
  pr_rationale_code : string;
  pr_sender_sequence : Z;
  pr_produced_at_utc : string;
  pr_provenance : list (string * json);
  pr_authentication : AuthenticationMetadataV1;
}.

Definition proposal_dump (p : OrchestratorProposalV1) : list (string * json) :=
  [("schema_version", JStr "orchestrator_proposal_v1");
   ("message_id", JStr (pr_message_id p));
   ("request_id", JStr (pr_request_id p));
   ("request_version", JInt (pr_request_version p));
   ("round_id", JStr (pr_round_id p));
   ("request_digest", JStr (pr_request_digest p));
   ("orchestrator_id", JStr (pr_orchestrator_id p));
   ("proposed_route_id", JStr (pr_proposed_route_id p));
   ("proposal_digest", JStr (pr_proposal_digest p));
   ("message_hash", JStr (pr_message_hash p));
   ("logical_timestamp", json_opt_str (pr_logical_timestamp p));
   ("window_id", json_opt_int (pr_window_id p));
   ("policy_id", JStr (pr_policy_id p));
   ("policy_version", JStr (pr_policy_version p));
   ("rationale_code", JStr (pr_rationale_code p));
   ("sender_sequence", JInt (pr_sender_sequence p));
   ("produced_at_utc", JStr (pr_produced_at_utc p));
   ("provenance", JDict (pr_provenance p));
   ("authentication", JDict (auth_dump (pr_authentication p)))].

(** ** Votes *)
Inductive VoteValue := APPROVE | REJECT | ABSTAIN.

#[export] Instance vote_value_eq_dec : EqDecision VoteValue.
Proof. solve_decision. Defined.

Definition vote_value_text (v : VoteValue) : string :=
  match v with APPROVE => "APPROVE" | REJECT => "REJECT" | ABSTAIN => "ABSTAIN" end.

Record OrchestratorVoteV1 := mk_vote {
  vt_message_id : string;
  vt_request_id : string;
  vt_request_version : Z;
  vt_round_id : string;
  vt_request_digest : string;
  vt_orchestrator_id : string;
  vt_selected_proposal_digest : string;
  vt_vote : VoteValue;
  vt_sender_sequence : Z;
  vt_message_hash : string;
  vt_logical_timestamp : option string;
  vt_window_id : option Z;
  vt_reason_code : string;
  vt_produced_at_utc : string;
  vt_provenance : list (string * json);
  vt_authentication : AuthenticationMetadataV1;
}.

Definition vote_dump (v : OrchestratorVoteV1) : list (string * json) :=
  [("schema_version", JStr "orchestrator_vote_v1");
   ("message_id", JStr (vt_message_id v));
   ("request_id", JStr (vt_request_id v));
   ("request_version", JInt (vt_request_version v));
   ("round_id", JStr (vt_round_id v));
   ("request_digest", JStr (vt_request_digest v));
   ("orchestrator_id", JStr (vt_orchestrator_id v));
   ("selected_proposal_digest", JStr (vt_selected_proposal_digest v));
   ("vote", JStr (vote_value_text (vt_vote v)));
   ("sender_sequence", JInt (vt_sender_sequence v));
   ("message_hash", JStr (vt_message_hash v));
   ("logical_timestamp", json_opt_str (vt_logical_timestamp v));
   ("window_id", json_opt_int (vt_window_id v));
   ("reason_code", JStr (vt_reason_code v));
   ("produced_at_utc", JStr (vt_produced_at_utc v));
   ("provenance", JDict (vt_provenance v));
   ("authentication", JDict (auth_dump (vt_authentication v)))].

Section validation.
Context `{PyRuntime}.

Definition within_byte_bound (v : json) (msg : string) : result unit :=
  encoded ← canonical_json_bytes v;
  check (Z.of_nat (String.length encoded) <=? MAX_REQUEST_CANONICAL_BYTES) ValueError msg.

(** [OrchestrationRequestV1(...)]: the field constraints, then
    [validate_content], which only runs when they hold. *)
Definition validate_content (r : OrchestrationRequestV1) : result unit :=
  first_error
    [check (bool_decide (NoDup (route_ids r))) ValueError "candidate route IDs must be unique";
     check (forallb ID_PATTERN [rq_request_id r; rq_round_id r; rq_decision_kind r]) ValueError
       "request identifiers must be bounded opaque IDs";
     assert_orchestration_safe (request_dump r) "OrchestrationRequestV1";
     within_byte_bound (request_dump r) "orchestration request exceeds canonical byte bound"].

Definition request_validate (r : OrchestrationRequestV1) : result unit :=
  _ ← as_validation_error (first_error
    ([str_field "request_id" 1 128 (rq_request_id r);
      ge_field "request_version" 1 (rq_request_version r);
      str_field "round_id" 1 128 (rq_round_id r);
      str_field "decision_kind" 1 64 (rq_decision_kind r)]
     ++ map validate_route (rq_candidate_routes r) ++
     [check (let n := length (rq_candidate_routes r) in (1 <=? n)%nat && (n <=? 32)%nat)
        ValueError "candidate_routes: between 1 and 32 items";
      opt_str_field "logical_timestamp" 128 (rq_logical_timestamp r);
      opt_nat_field "window_id" (rq_window_id r);
      opt_str_field "scope_id" 128 (rq_scope_id r);
      str_field "source_component" 1 128 (rq_source_component r)]));
  as_validation_error (validate_content r).

(** [OrchestratorProposalV1(...)]. *)
Definition proposal_validate (p : OrchestratorProposalV1) : result unit :=
  _ ← as_validation_error (first_error
    [str_field "message_id" 1 128 (pr_message_id p);
     str_field "request_id" 1 128 (pr_request_id p);
     ge_field "request_version" 1 (pr_request_version p);
     str_field "round_id" 1 128 (pr_round_id p);
     digest_field "request_digest" (pr_request_digest p);
     str_field "orchestrator_id" 1 64 (pr_orchestrator_id p);
     str_field "proposed_route_id" 1 128 (pr_proposed_route_id p);
     digest_field "proposal_digest" (pr_proposal_digest p);
     digest_field "message_hash" (pr_message_hash p);
     opt_str_field "logical_timestamp" 128 (pr_logical_timestamp p);
     opt_nat_field "window_id" (pr_window_id p);
     str_field "policy_id" 1 128 (pr_policy_id p);
     str_field "policy_version" 1 64 (pr_policy_version p);
     str_field "rationale_code" 1 128 (pr_rationale_code p);
     ge_field "sender_sequence" 0 (pr_sender_sequence p);
     str_field "produced_at_utc" 1 64 (pr_produced_at_utc p);
     validate_auth (pr_authentication p)]);
  as_validation_error (first_error
    [assert_orchestration_safe (JDict (proposal_dump p)) "OrchestratorProposalV1";
     within_byte_bound (JDict (proposal_dump p))
       "orchestrator proposal exceeds canonical byte bound"]).

(** [OrchestratorVoteV1(...)]. *)
Definition vote_validate (v : OrchestratorVoteV1) : result unit :=
  _ ← as_validation_error (first_error
    [str_field "message_id" 1 128 (vt_message_id v);
     str_field "request_id" 1 128 (vt_request_id v);
     ge_field "request_version" 1 (vt_request_version v);
     str_field "round_id" 1 128 (vt_round_id v);
     digest_field "request_digest" (vt_request_digest v);
     str_field "orchestrator_id" 1 64 (vt_orchestrator_id v);
     digest_field "selected_proposal_digest" (vt_selected_proposal_digest v);
     ge_field "sender_sequence" 0 (vt_sender_sequence v);
     digest_field "message_hash" (vt_message_hash v);
     opt_str_field "logical_timestamp" 128 (vt_logical_timestamp v);
     opt_nat_field "window_id" (vt_window_id v);
     str_field "reason_code" 1 128 (vt_reason_code v);
     str_field "produced_at_utc" 1 64 (vt_produced_at_utc v);
     validate_auth (vt_authentication v)]);
  as_validation_error (first_error
    [assert_orchestration_safe (JDict (vote_dump v)) "OrchestratorVoteV1";
     within_byte_bound (JDict (vote_dump v)) "orchestrator vote exceeds canonical byte bound"]).
End validation.

(** ** Rejections, summaries, decisions *)
Inductive MessagePhase := PHASE_PROPOSAL | PHASE_VOTE | PHASE_ROUND.

Definition phase_text (p : MessagePhase) : string :=
  match p with PHASE_PROPOSAL => "PROPOSAL" | PHASE_VOTE => "VOTE" | PHASE_ROUND => "ROUND" end.

Record MessageRejectionV1 := mk_rejection {
  rj_phase : MessagePhase;
  rj_reason_code : string;
  rj_orchestrator_id : option string;
  rj_message_id : option string;
  rj_detail : string;
}.

Definition rejection_dump (r : MessageRejectionV1) : list (string * json) :=
  [("schema_version", JStr "orchestrator_message_rejection_v1");
   ("phase", JStr (phase_text (rj_phase r)));
   ("reason_code", JStr (rj_reason_code r));
   ("orchestrator_id", json_opt_str (rj_orchestrator_id r));
   ("message_id", json_opt_str (rj_message_id r));
   ("detail", JStr (rj_detail r))].

Record ProposalSummaryV1 := mk_proposal_summary {
  ps_orchestrator_id : string;
  ps_message_id : string;
  ps_proposed_route_id : string;
  ps_proposal_digest : string;
  ps_message_hash : string;
  ps_authentication_verified : bool;
  ps_policy_id : string;
  ps_policy_version : string;
  ps_rationale_code : string;
  ps_latency_ms : f64;
}.

Definition proposal_summary_dump (s : ProposalSummaryV1) : json :=
  JDict [("orchestrator_id", JStr (ps_orchestrator_id s));
         ("message_id", JStr (ps_message_id s));
         ("proposed_route_id", JStr (ps_proposed_route_id s));
         ("proposal_digest", JStr (ps_proposal_digest s));
         ("message_hash", JStr (ps_message_hash s));
         ("authentication_verified", JBool (ps_authentication_verified s));
         ("policy_id", JStr (ps_policy_id s));
         ("policy_version", JStr (ps_policy_version s));
         ("rationale_code", JStr (ps_rationale_code s));
         ("latency_ms", JFloat (ps_latency_ms s))].

Record VoteSummaryV1 := mk_vote_summary {
  vs_orchestrator_id : string;
  vs_message_id : string;
  vs_selected_proposal_digest : string;
  vs_vote : VoteValue;
  vs_message_hash : string;
  vs_authentication_verified : bool;
  vs_reason_code : string;
  vs_latency_ms : f64;
}.

Definition vote_summary_dump (s : VoteSummaryV1) : json :=
  JDict [("orchestrator_id", JStr (vs_orchestrator_id s));
         ("message_id", JStr (vs_message_id s));
         ("selected_proposal_digest", JStr (vs_selected_proposal_digest s));
         ("vote", JStr (vote_value_text (vs_vote s)));
         ("message_hash", JStr (vs_message_hash s));
         ("authentication_verified", JBool (vs_authentication_verified s));
         ("reason_code", JStr (vs_reason_code s));
         ("latency_ms", JFloat (vs_latency_ms s))].

Inductive OrchestrationOutcome :=
  | DECIDED | NO_QUORUM | TIMED_OUT | INSUFFICIENT_RESPONSES | REJECTED_REQUEST.

#[export] Instance orchestration_outcome_eq_dec : EqDecision OrchestrationOutcome.
Proof. solve_decision. Defined.

Definition orchestration_outcome_text (o : OrchestrationOutcome) : string :=
  match o with
  | DECIDED => "DECIDED"
  | NO_QUORUM => "NO_QUORUM"
  | TIMED_OUT => "TIMED_OUT"
  | INSUFFICIENT_RESPONSES => "INSUFFICIENT_RESPONSES"
  | REJECTED_REQUEST => "REJECTED_REQUEST"
  end.

Record OrchestrationDecisionV1 := mk_or_decision {
  dec_decision_id : string;
  dec_request_id : string;
  dec_request_version : Z;
  dec_round_id : string;
  dec_request_digest : string;
  dec_outcome : OrchestrationOutcome;
  dec_selected_route_id : option string;
  dec_selected_proposal_digest : option string;
  dec_proposal_summaries : list ProposalSummaryV1;
  dec_vote_summaries : list VoteSummaryV1;
  dec_rejections : list MessageRejectionV1;
  dec_supporting_orchestrators : list string;
  dec_disagreeing_orchestrators : list string;
  dec_timed_out_orchestrators : list string;
  dec_delayed_orchestrators : list string;
  dec_omitted_orchestrators : list string;
  dec_unavailable_orchestrators : list string;
  dec_quorum_formed : bool;
  dec_quorum_latency_ms : option f64;
  dec_decision_latency_ms : f64;
  dec_reason : string;
  dec_logical_timestamp : option string;
  dec_window_id : option Z;
  dec_completed_at_utc : string;
  dec_provenance : list (string * json);
}.

Definition json_strs (l : list string) : json := JList (map JStr l).

Definition decision_dump (d : OrchestrationDecisionV1) : json :=
  JDict
   [("schema_version", JStr "orchestration_decision_v1");
    ("decision_id", JStr (dec_decision_id d));
    ("request_id", JStr (dec_request_id d));
    ("request_version", JInt (dec_request_version d));
    ("round_id", JStr (dec_round_id d));
    ("request_digest", JStr (dec_request_digest d));
    ("outcome", JStr (orchestration_outcome_text (dec_outcome d)));
    ("selected_route_id", json_opt_str (dec_selected_route_id d));
    ("selected_proposal_digest", json_opt_str (dec_selected_proposal_digest d));
    ("required_quorum", JInt (Z.of_nat REQUIRED_QUORUM));
    ("proposal_summaries", JList (map proposal_summary_dump (dec_proposal_summaries d)));
    ("vote_summaries", JList (map vote_summary_dump (dec_vote_summaries d)));
    ("rejections", JList (map (JDict ∘ rejection_dump) (dec_rejections d)));
    ("supporting_orchestrators", json_strs (dec_supporting_orchestrators d));
    ("disagreeing_orchestrators", json_strs (dec_disagreeing_orchestrators d));
    ("timed_out_orchestrators", json_strs (dec_timed_out_orchestrators d));
    ("delayed_orchestrators", json_strs (dec_delayed_orchestrators d));
    ("omitted_orchestrators", json_strs (dec_omitted_orchestrators d));
    ("unavailable_orchestrators", json_strs (dec_unavailable_orchestrators d));
    ("quorum_formed", JBool (dec_quorum_formed d));
    ("quorum_latency_ms", match dec_quorum_latency_ms d with Some x => JFloat x | None => JNull end);
    ("decision_latency_ms", JFloat (dec_decision_latency_ms d));
    ("reason", JStr (dec_reason d));
    ("logical_timestamp", json_opt_str (dec_logical_timestamp d));
    ("window_id", json_opt_int (dec_window_id d));
    ("completed_at_utc", JStr (dec_completed_at_utc d));
    ("provenance", JDict (dec_provenance d))].

(** [not value] on an optional string: [None] and [''] are false. *)
Definition truthy_str (o : option string) : bool :=
  match o with Some s => negb (bool_decide (s = "")) | None => false end.


Definition consistent_outcome (d : OrchestrationDecisionV1) : result unit :=
  _ ← (if bool_decide (dec_outcome d = DECIDED)
       then check (dec_quorum_formed d && truthy_str (dec_selected_route_id d)) ValueError
              "DECIDED requires a selected route and quorum"
       else check (negb (is_some (dec_selected_route_id d)
                         || is_some (dec_selected_proposal_digest d))) ValueError
              "non-decisions cannot carry a selected route");
  assert_orchestration_safe (decision_dump d) "OrchestrationDecisionV1".

(** [OrchestrationDecisionV1(...)], its summaries built just before. *)
Definition decision_validate (d : OrchestrationDecisionV1) : result unit :=
  _ ← as_validation_error (first_error
    (map (float_field "latency_ms" ∘ ps_latency_ms) (dec_proposal_summaries d)
     ++ map (float_field "latency_ms" ∘ vs_latency_ms) (dec_vote_summaries d)
     ++ [match dec_quorum_latency_ms d with
         | Some x => float_field "quorum_latency_ms" x | None => Ok tt end;
         float_field "decision_latency_ms" (dec_decision_latency_ms d);
         opt_nat_field "window_id" (dec_window_id d)]));
  as_validation_error (consistent_outcome d).

(** * Orchestration message hashing and authentication

    Models [orchestration/hashing.py] and [orchestration/authentication.py]: the
    logical digests of requests and proposals, the signed content of a message,
    and the HMAC authenticator and verifier.  The operations the verifier and
    the decision round use on proposals and votes alike (duck typing in the
    source) are the class [SignedMessage]. *)
(** ** What a signed message offers *)
Class SignedMessage (A : Type) := {
  m_orchestrator_id : A → string;
  m_message_id : A → string;
  m_message_hash : A → string;
  m_authentication : A → AuthenticationMetadataV1;
  m_request_id : A → string;
  m_request_version : A → Z;
  m_round_id : A → string;
  m_request_digest : A → string;
  (** [message.model_dump(mode="json")] *)
  m_dump : A → list (string * json);
}.

#[export] Instance proposal_message : SignedMessage OrchestratorProposalV1 := {
  m_orchestrator_id := pr_orchestrator_id;
  m_message_id := pr_message_id;
  m_message_hash := pr_message_hash;
  m_authentication := pr_authentication;
  m_request_id := pr_request_id;
  m_request_version := pr_request_version;
  m_round_id := pr_round_id;
  m_request_digest := pr_request_digest;
  m_dump := proposal_dump;
}.

#[export] Instance vote_message : SignedMessage OrchestratorVoteV1 := {
  m_orchestrator_id := vt_orchestrator_id;
  m_message_id := vt_message_id;
  m_message_hash := vt_message_hash;
  m_authentication := vt_authentication;
  m_request_id := vt_request_id;
  m_request_version := vt_request_version;
  m_round_id := vt_round_id;
  m_request_digest := vt_request_digest;
  m_dump := vote_dump;
}.

(** ** Message content *)

(** [dict(data.pop("authentication", {}) or {})]. *)
Definition auth_of (data : list (string * json)) : list (string * json) :=
  match od_get "authentication" data with Some (JDict a) => a | _ => [] end.

(** Everything but the message hash and the tag. *)
Definition message_content (data : list (string * json)) : list (string * json) :=
  let auth := od_del "tag" (auth_of data) in
  od_set "authentication" (JDict auth)
    (od_del "authentication" (od_del "message_hash" data)).

Definition route_leb (a b : CandidateRouteV1) : bool := str_leb (cr_route_id a) (cr_route_id b).

Section hashing.
Context `{PyRuntime}.

Definition canonical_hash (v : json) : result string := canonical_content_hash v.

(** The routes are hashed in the order of their identifiers. *)
Definition request_digest (r : OrchestrationRequestV1) : result string :=
  canonical_hash (request_dump_with (isort route_leb (rq_candidate_routes r)) r).

Definition proposal_semantics (request_id : string) (request_version : Z)
    (round_id request_digest_value proposed_route_id : string) : json :=
  JDict [("schema_version", JStr "orchestrator_proposal_semantics_v1");
         ("request_id", JStr request_id);
         ("request_version", JInt request_version);
         ("round_id", JStr round_id);
         ("request_digest", JStr request_digest_value);
         ("proposed_route_id", JStr proposed_route_id)].

Definition proposal_digest (request_id : string) (request_version : Z)
    (round_id request_digest_value proposed_route_id : string) : result string :=
  canonical_hash (proposal_semantics request_id request_version round_id
    request_digest_value proposed_route_id).

Definition message_hash (data : list (string * json)) : result string :=
  canonical_hash (JDict (message_content data)).

(** The HMAC tag of a message under a key. *)
Definition message_tag (key : string) (data : list (string * json)) : result string :=
  hmac_sha256_hex key <$> canonical_json_bytes (JDict (message_content data)).

(** ** Signing *)
Record MessageAuthenticator := mk_authenticator {
  ma_orchestrator_id : string;
  ma_key : string;
}.

Definition new_authenticator (orchestrator_id key : string) : result MessageAuthenticator :=
  _ ← check (16 <=? Z.of_nat (String.length key)) ValueError
        "message authentication keys must be at least 16 bytes";
  Ok (mk_authenticator orchestrator_id key).

Definition sign_fields (self : MessageAuthenticator) (fields : list (string * json))
    : result (string * AuthenticationMetadataV1) :=
  let content := od_set "authentication" (JDict (auth_header (ma_orchestrator_id self))) fields in
  digest ← message_hash content;
  tag ← message_tag (ma_key self) content;
  let auth := mk_auth (ma_orchestrator_id self) tag in
  _ ← as_validation_error (validate_auth auth);
  Ok (digest, auth).

(** ** Verification *)
Record MessageVerifier := mk_verifier { mv_keys : gmap string string }.

Definition verify {A} `{SignedMessage A} (self : MessageVerifier) (message : A)
    : result (bool * string) :=
  let sender := m_orchestrator_id message in
  let auth := m_authentication message in
  match mv_keys self !! sender with
  | None => Ok (false, "UNKNOWN_ORCHESTRATOR")
  | Some key =>
      if negb (bool_decide (au_key_id auth = sender))
      then Ok (false, "AUTH_IDENTITY_MISMATCH")
      else
        expected_hash ← message_hash (m_dump message);
        if negb (bool_decide (expected_hash = m_message_hash message))
        then Ok (false, "MESSAGE_HASH_MISMATCH")
        else
          expected_tag ← message_tag key (m_dump message);
          if negb (bool_decide (expected_tag = au_tag auth))
          then Ok (false, "AUTHENTICATION_FAILED")
          else Ok (true, "AUTHENTICATED")
  end.

(** ** Facts *)

(** [authentic]: what a verified message is known to be. *)
Definition authentic {A} `{SignedMessage A} (keys : gmap string string) (m : A) : Prop :=
  ∃ key, keys !! m_orchestrator_id m = Some key ∧
    au_key_id (m_authentication m) = m_orchestrator_id m ∧
    message_hash (m_dump m) = Ok (m_message_hash m) ∧
    message_tag key (m_dump m) = Ok (au_tag (m_authentication m)).

Lemma verify_authentic {A} `{SignedMessage A} self (m : A) reason :
  verify self m = Ok (true, reason) ↔ reason = "AUTHENTICATED" ∧ authentic (mv_keys self) m.
Proof.
  unfold verify, authentic.
  destruct (mv_keys self !! _) as [key|]; [|split; [done | by intros (_ & ? & ? & _)]].
  case_bool_decide as Hid; cbn; [|split; [done | intros (_ & ? & _ & ? & _); congruence]].
  destruct (message_hash _) as [h|e]; cbn; [|split; [done | by intros (_ & ? & _ & _ & ? & _)]].
  case_bool_decide as Hh; cbn;
    [|split; [done | intros (_ & ? & _ & _ & [= ?] & _); congruence]].
  destruct (message_tag key _) as [t|e] eqn:Ht; cbn;
    [|split; [done | intros (_ & ? & [= ->] & _ & _ & ?); congruence]].
  case_bool_decide as Htag; cbn;
    [|split; [done | intros (_ & ? & [= ->] & _ & _ & ?); congruence]].
  split.
  - intros [= <-]. split; [done |]. exists key. split_and!; congruence.
  - by intros (-> & _).
Qed.

(** The four reasons of a failed verification. *)
Lemma verify_reason {A} `{SignedMessage A} self (m : A) b reason :
  verify self m = Ok (b, reason) →
  reason ∈ ["AUTHENTICATED"; "UNKNOWN_ORCHESTRATOR"; "AUTH_IDENTITY_MISMATCH";
            "MESSAGE_HASH_MISMATCH"; "AUTHENTICATION_FAILED"].
Proof.
  unfold verify. destruct (mv_keys self !! _) as [key|]; [|intros [= <- <-]; set_solver].
  case_bool_decide; cbn; [|intros [= <- <-]; set_solver].
  destruct (message_hash _) as [h|e]; cbn; [|done].
  case_bool_decide; cbn; [|intros [= <- <-]; set_solver].
  destruct (message_tag key _) as [t|e]; cbn; [|done].
  case_bool_decide; cbn; intros [= <- <-]; set_solver.
Qed.

(** Routes are compared by identifier only, and identifiers are unique. *)
Lemma route_sort_perm (l k : list CandidateRouteV1) :
  NoDup (map cr_route_id l) → l ≡ₚ k → isort route_leb l = isort route_leb k.
Proof.
  intros Hnd Hp. apply isort_perm_eq; [| |  | exact Hp].
  - intros x y. apply str_leb_total.
  - intros x y z. apply str_leb_trans.
  - intros x y Hx Hy H1 H2. pose proof (str_leb_antisym _ _ H1 H2) as Heq.
    apply list_elem_of_lookup in Hx as [i Hi], Hy as [j Hj].
    assert (i = j) as ->; [|congruence].
    eapply NoDup_lookup; [exact Hnd | |];
      rewrite list_lookup_fmap; [by rewrite Hi | rewrite Hj; cbn; by rewrite Heq].
Qed.

Lemma request_digest_perm (r r' : OrchestrationRequestV1) :
  NoDup (route_ids r) → rq_candidate_routes r ≡ₚ rq_candidate_routes r' →
  (∀ routes, request_dump_with routes r = request_dump_with routes r') →
  request_digest r = request_digest r'.
Proof.
  intros Hnd Hp Hd. unfold request_digest.
  by rewrite Hd, (route_sort_perm _ _ Hnd Hp).
Qed.

(** The content that was signed is the content that is verified. *)
Lemma canonical_dict_perm (d e : list (string * json)) :
  NoDup d.*1 → d ≡ₚ e → canonical_json_bytes (JDict d) = canonical_json_bytes (JDict e).
Proof.
  intros Hnd Hp. unfold canonical_json_bytes, canonical_json_str.
  assert (Hf : json_finite (JDict d) = json_finite (JDict e)).
  { cbn. apply eq_bool_prop_intro. rewrite !Is_true_true, !forallb_forall.
    by setoid_rewrite <-list_elem_of_In; setoid_rewrite Hp. }
  rewrite Hf. destruct (json_finite (JDict e)); [|done]. do 2 f_equal.
  cbn [sort_keys]. do 2 f_equal. apply isort_keys_perm.
  - by rewrite map_key_fst.
  - by rewrite Hp.
Qed.
End hashing.
