(* ===== verification/OrReplica.v ===== *)
(** * One orchestrator

    Models [orchestration/policy.py], [orchestration/hooks.py] and
    [orchestration/replica.py]: the routing policy, and the replica that signs
    one proposal and one vote per round.  What a worker call takes from outside
    (the hook, the fresh message identifier, the clock) is its [WorkerEnv]. *)

From S2P Require Import Prelude PyString Json OrContracts.

(** ** Routing policy *)

(** The [RoutingPolicy] protocol; [policy_propose] gives a route and a rationale. *)
Record RoutingPolicy := mk_policy {
  policy_id : string;
  policy_version : string;
  policy_propose : OrchestrationRequestV1 → result (string * string);
}.

(** [(a.priority, a.route_id) < (b.priority, b.route_id)]. *)
Definition route_ltb (a b : CandidateRouteV1) : bool :=
  (cr_priority a <? cr_priority b)
  || ((cr_priority a =? cr_priority b) && negb (str_leb (cr_route_id b) (cr_route_id a))).

(** [min(...)]: the first of the least elements. *)
Definition min_route (l : list CandidateRouteV1) : option CandidateRouteV1 :=
  match l with
  | [] => None
  | x :: l => Some (foldl (λ best y, if route_ltb y best then y else best) x l)
  end.

Definition priority_propose (request : OrchestrationRequestV1) : result (string * string) :=
  candidate ← of_option (min_route (rq_candidate_routes request)) ValueError
    "min() iterable argument is empty";
  Ok (cr_route_id candidate, "MIN_PRIORITY_ROUTE_ID_TIEBREAK").

Definition DeterministicPriorityPolicy : RoutingPolicy :=
  mk_policy "stage6_deterministic_priority" "1" priority_propose.

(** ** Hooks *)
Inductive OrchestratorHookPoint := ORCHESTRATOR_MESSAGE | ORCHESTRATOR_VOTE.

Record OrchestratorHookContext := mk_or_hook_context {
  ohc_hook_point : OrchestratorHookPoint;
  ohc_orchestrator_id : string;
  ohc_request_id : string;
  ohc_round_id : string;
}.

Definition OrchestratorOmissionError : exn_class := OtherError "OrchestratorOmissionError".
Definition OrchestratorUnavailableError : exn_class := OtherError "OrchestratorUnavailableError".

Record WorkerEnv := mk_worker_env {
  we_observe : OrchestratorHookContext → result unit;
  we_message_id : string;
  we_utc_now : string;
}.

(** The production hook. *)
Definition observe_pass_through (context : OrchestratorHookContext) : result unit := Ok tt.

(** ** State *)
Inductive RecentOutcome :=
  | ProposalOutcome (request_id route_id : string)
  | VoteOutcome (request_id proposal_digest : string).

Record OrchestratorReplica := mk_orchestrator {
  orr_orchestrator_id : string;
  orr_policy : RoutingPolicy;
  orr_authenticator : MessageAuthenticator;
  orr_available : bool;
  orr_sender_sequence : Z;
  orr_messages_proposed : Z;
  orr_votes_issued : Z;
  orr_authentication_failures_observed : Z;
  orr_timeouts : Z;
  orr_omissions : Z;
  orr_last_error : option string;
  orr_recent_outcomes : list RecentOutcome;
  orr_recent_outcomes_limit : Z;
}.

Definition new_orchestrator (orchestrator_id key : string) (policy : option RoutingPolicy)
    (recent_outcomes_limit : Z) : result OrchestratorReplica :=
  _ ← check (1 <=? recent_outcomes_limit) ValueError "recent_outcomes_limit must be positive";
  authenticator ← new_authenticator orchestrator_id key;
  Ok (mk_orchestrator orchestrator_id (default DeterministicPriorityPolicy policy) authenticator
        true 0 0 0 0 0 0 None [] recent_outcomes_limit).

Definition with_availability (available : bool) (last_error : option string)
    (r : OrchestratorReplica) : OrchestratorReplica :=
  mk_orchestrator (orr_orchestrator_id r) (orr_policy r) (orr_authenticator r) available
    (orr_sender_sequence r) (orr_messages_proposed r) (orr_votes_issued r)
    (orr_authentication_failures_observed r) (orr_timeouts r) (orr_omissions r) last_error
    (orr_recent_outcomes r) (orr_recent_outcomes_limit r).

Definition with_counts (proposed votes auth_failures timeouts omissions : Z)
    (r : OrchestratorReplica) : OrchestratorReplica :=
  mk_orchestrator (orr_orchestrator_id r) (orr_policy r) (orr_authenticator r) (orr_available r)
    (orr_sender_sequence r) (orr_messages_proposed r + proposed) (orr_votes_issued r + votes)
    (orr_authentication_failures_observed r + auth_failures) (orr_timeouts r + timeouts)
    (orr_omissions r + omissions) (orr_last_error r) (orr_recent_outcomes r)
    (orr_recent_outcomes_limit r).

Definition with_sequence (n : Z) (r : OrchestratorReplica) : OrchestratorReplica :=
  mk_orchestrator (orr_orchestrator_id r) (orr_policy r) (orr_authenticator r) (orr_available r)
    n (orr_messages_proposed r) (orr_votes_issued r) (orr_authentication_failures_observed r)
    (orr_timeouts r) (orr_omissions r) (orr_last_error r) (orr_recent_outcomes r)
    (orr_recent_outcomes_limit r).

Definition note_outcome (o : RecentOutcome) (r : OrchestratorReplica) : OrchestratorReplica :=
  mk_orchestrator (orr_orchestrator_id r) (orr_policy r) (orr_authenticator r) (orr_available r)
    (orr_sender_sequence r) (orr_messages_proposed r) (orr_votes_issued r)
    (orr_authentication_failures_observed r) (orr_timeouts r) (orr_omissions r)
    (orr_last_error r)
    (push_bounded (Z.to_nat (orr_recent_outcomes_limit r)) o (orr_recent_outcomes r))
    (orr_recent_outcomes_limit r).

Definition set_last_error (e : option string) (r : OrchestratorReplica) : OrchestratorReplica :=
  with_availability (orr_available r) e r.

(** ** Administration and evidence *)
Definition set_available (available : bool) (r : OrchestratorReplica) : OrchestratorReplica :=
  with_availability available (if available then None else orr_last_error r) r.

Definition next_sequence : M OrchestratorReplica Z := λ r,
  (Ok (orr_sender_sequence r), with_sequence (orr_sender_sequence r + 1) r).

Definition note_timeout (r : OrchestratorReplica) : OrchestratorReplica :=
  set_last_error (Some "TIMEOUT") (with_counts 0 0 0 1 0 r).
Definition note_delay (r : OrchestratorReplica) : OrchestratorReplica :=
  set_last_error (Some "DELAYED_AFTER_QUORUM") r.
Definition note_authentication_failure (r : OrchestratorReplica) : OrchestratorReplica :=
  with_counts 0 0 1 0 0 r.
Definition note_omission (detail : string) (r : OrchestratorReplica) : OrchestratorReplica :=
  set_last_error (Some detail) (with_counts 0 0 0 0 1 r).

Record OrchestratorStatus := mk_orchestrator_status {
  os_orchestrator_id : string;
  os_health : string;
  os_available : bool;
  os_messages_proposed : Z;
  os_votes_issued : Z;
  os_authentication_failures_observed : Z;
  os_timeouts : Z;
  os_omissions : Z;
  os_last_error : option string;
  os_recent_outcomes : list RecentOutcome;
  os_recent_outcomes_limit : Z;
}.

Definition orchestrator_status (r : OrchestratorReplica) : OrchestratorStatus :=
  mk_orchestrator_status (orr_orchestrator_id r)
    (if negb (orr_available r) then "UNAVAILABLE"
     else if truthy_str (orr_last_error r) then "DEGRADED" else "HEALTHY")
    (orr_available r) (orr_messages_proposed r) (orr_votes_issued r)
    (orr_authentication_failures_observed r) (orr_timeouts r) (orr_omissions r)
    (orr_last_error r) (orr_recent_outcomes r) (orr_recent_outcomes_limit r).

(** ** Worker calls *)
Section worker.
Context `{PyRuntime}.

Definition ensure_available : M OrchestratorReplica unit := λ r,
  if orr_available r then (Ok tt, r)
  else (raise OrchestratorUnavailableError (orr_orchestrator_id r),
        set_last_error (Some "UNAVAILABLE") r).

Definition observe_hook (env : WorkerEnv) (point : OrchestratorHookPoint)
    (request : OrchestrationRequestV1) : M OrchestratorReplica unit := λ r,
  (we_observe env (mk_or_hook_context point (orr_orchestrator_id r) (rq_request_id request)
     (rq_round_id request)), r).

Definition message_provenance (request : OrchestrationRequestV1) : list (string * json) :=
  [("source_component", JStr "orchestration.replica");
   ("request_source_component", JStr (rq_source_component request))].

(** The unsigned fields, in the order the source writes them. *)
Definition proposal_fields (env : WorkerEnv) (request : OrchestrationRequestV1)
    (self : OrchestratorReplica) (req_digest semantic_digest route_id rationale : string)
    (sequence : Z) : list (string * json) :=
  [("schema_version", JStr "orchestrator_proposal_v1");
   ("message_id", JStr (we_message_id env));
   ("request_id", JStr (rq_request_id request));
   ("request_version", JInt (rq_request_version request));
   ("round_id", JStr (rq_round_id request));
   ("request_digest", JStr req_digest);
   ("orchestrator_id", JStr (orr_orchestrator_id self));
   ("proposed_route_id", JStr route_id);
   ("proposal_digest", JStr semantic_digest);
   ("logical_timestamp", json_opt_str (rq_logical_timestamp request));
   ("window_id", json_opt_int (rq_window_id request));
   ("policy_id", JStr (policy_id (orr_policy self)));
   ("policy_version", JStr (policy_version (orr_policy self)));
   ("rationale_code", JStr rationale);
   ("sender_sequence", JInt sequence);
   ("produced_at_utc", JStr (we_utc_now env));
   ("provenance", JDict (message_provenance request))].

(** [OrchestratorProposalV1( **fields, ...)]. *)
Definition proposal_of (env : WorkerEnv) (request : OrchestrationRequestV1)
    (self : OrchestratorReplica) (req_digest semantic_digest route_id rationale : string)
    (sequence : Z) (full_hash : string) (auth : AuthenticationMetadataV1)
    : OrchestratorProposalV1 :=
  mk_proposal (we_message_id env) (rq_request_id request) (rq_request_version request)
    (rq_round_id request) req_digest (orr_orchestrator_id self) route_id semantic_digest full_hash
    (rq_logical_timestamp request) (rq_window_id request) (policy_id (orr_policy self))
    (policy_version (orr_policy self)) rationale sequence (we_utc_now env)
    (message_provenance request) auth.

Definition orchestrator_propose (env : WorkerEnv) (request : OrchestrationRequestV1)
    : M OrchestratorReplica OrchestratorProposalV1 :=
  _ ← ensure_available;
  _ ← observe_hook env ORCHESTRATOR_MESSAGE request;
  self ← get;
  '(route_id, rationale) ← lift (policy_propose (orr_policy self) request);
  req_digest ← lift (request_digest request);
  semantic_digest ← lift (proposal_digest (rq_request_id request) (rq_request_version request)
    (rq_round_id request) req_digest route_id);
  sequence ← next_sequence;
  let fields := proposal_fields env request self req_digest semantic_digest route_id rationale
    sequence in
  '(full_hash, auth) ← lift (sign_fields (orr_authenticator self) fields);
  let proposal := proposal_of env request self req_digest semantic_digest route_id rationale
    sequence full_hash auth in
  _ ← lift (proposal_validate proposal);
  _ ← modify (λ r, note_outcome (ProposalOutcome (rq_request_id request) route_id)
                     (with_counts 1 0 0 0 0 r));
  mret proposal.

Definition vote_fields (env : WorkerEnv) (request : OrchestrationRequestV1)
    (self : OrchestratorReplica) (req_digest selected : string) (sequence : Z)
    : list (string * json) :=
  [("schema_version", JStr "orchestrator_vote_v1");
   ("message_id", JStr (we_message_id env));
   ("request_id", JStr (rq_request_id request));
   ("request_version", JInt (rq_request_version request));
   ("round_id", JStr (rq_round_id request));
   ("request_digest", JStr req_digest);
   ("orchestrator_id", JStr (orr_orchestrator_id self));
   ("selected_proposal_digest", JStr selected);
   ("vote", JStr (vote_value_text APPROVE));
   ("sender_sequence", JInt sequence);
   ("logical_timestamp", json_opt_str (rq_logical_timestamp request));
   ("window_id", json_opt_int (rq_window_id request));
   ("reason_code", JStr "INDEPENDENT_POLICY_MATCH");
   ("produced_at_utc", JStr (we_utc_now env));
   ("provenance", JDict (message_provenance request))].

Definition vote_of (env : WorkerEnv) (request : OrchestrationRequestV1)
    (self : OrchestratorReplica) (req_digest selected : string) (sequence : Z)
    (full_hash : string) (auth : AuthenticationMetadataV1) : OrchestratorVoteV1 :=
  mk_vote (we_message_id env) (rq_request_id request) (rq_request_version request)
    (rq_round_id request) req_digest (orr_orchestrator_id self) selected APPROVE sequence
    full_hash (rq_logical_timestamp request) (rq_window_id request) "INDEPENDENT_POLICY_MATCH"
    (we_utc_now env) (message_provenance request) auth.

(** The vote is always an approval of the proposal the caller passes. *)
Definition orchestrator_vote (env : WorkerEnv) (request : OrchestrationRequestV1)
    (proposal : OrchestratorProposalV1) : M OrchestratorReplica OrchestratorVoteV1 :=
  _ ← ensure_available;
  _ ← observe_hook env ORCHESTRATOR_VOTE request;
  self ← get;
  req_digest ← lift (request_digest request);
  sequence ← next_sequence;
  let fields := vote_fields env request self req_digest (pr_proposal_digest proposal) sequence in
  '(full_hash, auth) ← lift (sign_fields (orr_authenticator self) fields);
  let vote := vote_of env request self req_digest (pr_proposal_digest proposal) sequence
    full_hash auth in
  _ ← lift (vote_validate vote);
  _ ← modify (λ r, note_outcome
        (VoteOutcome (rq_request_id request) (pr_proposal_digest proposal))
        (with_counts 0 1 0 0 0 r));
  mret vote.

(** The proposal and the vote of a round, one after the other; the latencies the
    source also returns are clock readings. *)
Definition execute_round (env_p env_v : WorkerEnv) (request : OrchestrationRequestV1)
    : M OrchestratorReplica (OrchestratorProposalV1 * OrchestratorVoteV1) :=
  proposal ← orchestrator_propose env_p request;
  vote ← orchestrator_vote env_v request proposal;
  mret (proposal, vote).
End worker.

(** * What an orchestrator sends

    A worker call keeps the replica's identity and key; the proposal or vote it
    returns is validated, is about the request it was called with, and verifies
    under the replica's key: signing and verifying are inverse. *)
Section replica.
Context `{PyRuntime}.

(** What no call changes. *)
Definition same_identity (r r' : OrchestratorReplica) : Prop :=
  orr_orchestrator_id r' = orr_orchestrator_id r ∧ orr_policy r' = orr_policy r ∧
  orr_authenticator r' = orr_authenticator r ∧ orr_available r' = orr_available r.

(** ** Signing *)

(** The fields of a message: no message hash, no authentication. *)
Definition unsigned (fields : list (string * json)) : Prop :=
  od_get "message_hash" fields = None ∧ od_get "authentication" fields = None.

Lemma od_del_absent {A} (k : string) (d : list (string * A)) : od_get k d = None → od_del k d = d.
Proof.
  induction d as [|[k' v] d IH]; cbn; [done |]. case_decide; [done |]. intros Hg. by rewrite IH.
Qed.

Lemma message_content_signed fields key_id :
  unsigned fields →
  message_content (od_set "authentication" (JDict (auth_header key_id)) fields) =
  fields ++ [("authentication", JDict (auth_header key_id))].
Proof.
  intros [Hm Ha]. unfold message_content, auth_of.
  rewrite (od_set_new _ _ fields) by done.
  assert (Hg : ∀ v, od_get "authentication" (fields ++ [("authentication", v)]) = Some v).
  { intros v. rewrite <-od_set_new by done. rewrite od_get_set. by case_decide. }
  assert (Hd : ∀ v : json, od_del "authentication" (fields ++ [("authentication", v)]) = fields).
  { intros v. clear Hm Hg. induction fields as [|[k x] l IH]; cbn in *; [done |].
    case_decide; [done |]. by rewrite IH. }
  rewrite Hg. rewrite (od_del_absent "message_hash").
  - rewrite Hd, od_set_new by done. done.
  - clear Hg Hd Ha. induction fields as [|[k x] l IH]; cbn in *; [done |].
    case_decide; [done |]. by apply IH.
Qed.

Lemma sign_fields_ok auth fields h a :
  sign_fields auth fields = Ok (h, a) →
  let content := od_set "authentication" (JDict (auth_header (ma_orchestrator_id auth))) fields in
  au_key_id a = ma_orchestrator_id auth ∧ message_hash content = Ok h ∧
  message_tag (ma_key auth) content = Ok (au_tag a).
Proof.
  unfold sign_fields. cbn zeta. intros (h' & Hh & Hr)%result_bind_ok.
  apply result_bind_ok in Hr as (t & Ht & Hr). apply result_bind_ok in Hr as (u & _ & [= <- <-]).
  done.
Qed.

(** A dump whose content is the signed content, in any order, is authentic. *)
Lemma signed_authentic {A} `{SignedMessage A} (keys : gmap string string) auth fields h a (m : A) :
  sign_fields auth fields = Ok (h, a) → unsigned fields → NoDup fields.*1 →
  keys !! m_orchestrator_id m = Some (ma_key auth) →
  m_orchestrator_id m = ma_orchestrator_id auth →
  m_message_hash m = h → m_authentication m = a →
  message_content (m_dump m) ≡ₚ fields ++ [("authentication", JDict (auth_header (au_key_id a)))] →
  authentic keys m.
Proof.
  intros Hs Hu Hnd Hk Hid Hh Ha Hp. destruct (sign_fields_ok _ _ _ _ Hs) as (Hkid & Hhash & Htag).
  exists (ma_key auth). split; [done |]. rewrite Ha, Hh, Hkid. split; [done |].
  assert (Hnd' : NoDup (fields ++ [("authentication", JDict (auth_header (au_key_id a)))]).*1).
  { destruct Hu as [_ Ha']. rewrite <-od_set_new by done. by apply od_set_nodup. }
  assert (Heq : canonical_json_bytes (JDict (message_content (m_dump m))) =
    canonical_json_bytes (JDict (message_content
      (od_set "authentication" (JDict (auth_header (ma_orchestrator_id auth))) fields)))).
  { symmetry. rewrite message_content_signed, <-Hkid by done. by apply canonical_dict_perm. }
  unfold message_hash, message_tag, canonical_hash, canonical_content_hash in *.
  by rewrite Heq.
Qed.

(** ** The two calls *)

(** A replica whose authenticator carries its own identity, as [__init__] makes it. *)
Definition replica_wf (r : OrchestratorReplica) : Prop :=
  ma_orchestrator_id (orr_authenticator r) = orr_orchestrator_id r.

Definition knows_key (keys : gmap string string) (r : OrchestratorReplica) : Prop :=
  keys !! orr_orchestrator_id r = Some (ma_key (orr_authenticator r)).

Record proposal_sent (r : OrchestratorReplica) (req : OrchestrationRequestV1)
    (p : OrchestratorProposalV1) : Prop := {
  pt_valid : proposal_validate p = Ok tt;
  pt_sender : pr_orchestrator_id p = orr_orchestrator_id r;
  pt_request : pr_request_id p = rq_request_id req;
  pt_version : pr_request_version p = rq_request_version req;
  pt_round : pr_round_id p = rq_round_id req;
  pt_digest : request_digest req = Ok (pr_request_digest p);
  pt_route : ∃ rationale, policy_propose (orr_policy r) req = Ok (pr_proposed_route_id p, rationale);
  pt_semantic : proposal_digest (pr_request_id p) (pr_request_version p) (pr_round_id p)
    (pr_request_digest p) (pr_proposed_route_id p) = Ok (pr_proposal_digest p);
  pt_authentic : ∀ keys, replica_wf r → knows_key keys r → authentic keys p;
}.

Record vote_sent (r : OrchestratorReplica) (req : OrchestrationRequestV1)
    (p : OrchestratorProposalV1) (v : OrchestratorVoteV1) : Prop := {
  vs_valid : vote_validate v = Ok tt;
  vs_sender : vt_orchestrator_id v = orr_orchestrator_id r;
  vs_request : vt_request_id v = rq_request_id req;
  vs_version : vt_request_version v = rq_request_version req;
  vs_round : vt_round_id v = rq_round_id req;
  vs_digest : request_digest req = Ok (vt_request_digest v);
  vs_selected : vt_selected_proposal_digest v = pr_proposal_digest p;
  vs_approves : vt_vote v = APPROVE;
  vs_authentic : ∀ keys, replica_wf r → knows_key keys r → authentic keys v;
}.

(** The verified content of the proposal that is sent. *)
Lemma proposal_content env req self rd sd route rationale n h a :
  message_content (proposal_dump (proposal_of env req self rd sd route rationale n h a)) =
  proposal_fields env req self rd sd route rationale n
    ++ [("authentication", JDict (auth_header (au_key_id a)))].
Proof. reflexivity. Qed.

Lemma vote_content env req self rd sel n h a :
  message_content (vote_dump (vote_of env req self rd sel n h a)) ≡ₚ
  vote_fields env req self rd sel n ++ [("authentication", JDict (auth_header (au_key_id a)))].
Proof. reflexivity. Qed.

Lemma M_bind_inv {S A B} (m : M S A) (f : A → M S B) s out s' :
  (m ≫= f) s = (out, s') →
  (∃ a s1, m s = (Ok a, s1) ∧ f a s1 = (out, s')) ∨ (∃ e, m s = (Raise e, s') ∧ out = Raise e).
Proof.
  unfold mbind, M_bind. destruct (m s) as [[a|e] s1]; [left; by exists a, s1 |].
  intros [= <- <-]. right. by exists e.
Qed.

Lemma same_identity_refl r : same_identity r r.
Proof. by split_and!. Qed.

Lemma ensure_available_run r out r' :
  ensure_available r = (out, r') →
  same_identity r r' ∧ (out = Ok tt → r' = r ∧ orr_available r = true).
Proof.
  unfold ensure_available. destruct (orr_available r) eqn:Ha; intros [= <- <-];
    split; try done; by split_and!.
Qed.

Lemma fields_nodup {A} (l : list (string * A)) :
  bool_decide (NoDup l.*1) = true → NoDup l.*1.
Proof. apply bool_decide_eq_true. Qed.

(** The part both calls share: availability, hook, reading the replica. *)
Lemma prologue_run {A} env point req (k : OrchestratorReplica → M OrchestratorReplica A) r out r' :
  (_ ← ensure_available; _ ← observe_hook env point req; self ← get; k self) r = (out, r') →
  (same_identity r r' ∧ ∃ e, out = Raise e) ∨ (orr_available r = true ∧ k r r = (out, r')).
Proof.
  intros Hrun. apply M_bind_inv in Hrun as [(u & r1 & H1 & Hrun)|(e & H1 & ->)].
  2:{ left. apply ensure_available_run in H1 as [Hs _]. split; [done | by exists e]. }
  apply ensure_available_run in H1 as [_ Hr]. destruct u. destruct (Hr eq_refl) as [-> Ha].
  apply M_bind_inv in Hrun as [(u & r2 & [= _ <-] & Hrun)|(e & [= _ <-] & ->)].
  - right. split; [done |]. exact Hrun.
  - left. split; [by split_and! | by exists e].
Qed.

Lemma lift_run {S A B} (r : result A) (k : A → M S B) s out s' :
  (a ← lift r; k a) s = (out, s') →
  (∃ a, r = Ok a ∧ k a s = (out, s')) ∨ (∃ e, r = Raise e ∧ out = Raise e ∧ s' = s).
Proof.
  unfold mbind, M_bind, lift. destruct r; intros Hrun; [left; by eexists |].
  injection Hrun as <- <-. right. by eexists.
Qed.

Lemma propose_run env req r out r' :
  orchestrator_propose env req r = (out, r') →
  same_identity r r' ∧ match out with Ok p => proposal_sent r req p | Raise _ => True end.
Proof.
  intros Hrun. unfold orchestrator_propose in Hrun.
  apply prologue_run in Hrun as [[Hs [e ->]]|[_ Hrun]]; [by split |].
  apply lift_run in Hrun as [([route rationale] & Hpol & Hrun)|(e & _ & -> & ->)];
    [|split; [apply same_identity_refl | done]].
  apply lift_run in Hrun as [(rd & Hrd & Hrun)|(e & _ & -> & ->)];
    [|split; [apply same_identity_refl | done]].
  apply lift_run in Hrun as [(sd & Hsd & Hrun)|(e & _ & -> & ->)];
    [|split; [apply same_identity_refl | done]].
  unfold mbind at 1, M_bind, next_sequence in Hrun.
  apply lift_run in Hrun as [([h a] & Hsign & Hrun)|(e & _ & -> & ->)];
    [|split; [by split_and! | done]].
  apply lift_run in Hrun as [([] & Hval & Hrun)|(e & _ & -> & ->)];
    [|split; [by split_and! | done]].
  injection Hrun as <- <-. split; [by split_and! |]. constructor; try done; [by eexists |].
  intros keys Hwf Hk. eapply signed_authentic; [exact Hsign | by split | | exact Hk | done.. |].
  - by apply fields_nodup.
  - by rewrite proposal_content.
Qed.

Lemma vote_run env req p r out r' :
  orchestrator_vote env req p r = (out, r') →
  same_identity r r' ∧ match out with Ok v => vote_sent r req p v | Raise _ => True end.
Proof.
  intros Hrun. unfold orchestrator_vote in Hrun.
  apply prologue_run in Hrun as [[Hs [e ->]]|[_ Hrun]]; [by split |].
  apply lift_run in Hrun as [(rd & Hrd & Hrun)|(e & _ & -> & ->)];
    [|split; [apply same_identity_refl | done]].
  unfold mbind at 1, M_bind, next_sequence in Hrun.
  apply lift_run in Hrun as [([h a] & Hsign & Hrun)|(e & _ & -> & ->)];
    [|split; [by split_and! | done]].
  apply lift_run in Hrun as [([] & Hval & Hrun)|(e & _ & -> & ->)];
    [|split; [by split_and! | done]].
  injection Hrun as <- <-. split; [by split_and! |]. constructor; try done.
  intros keys Hwf Hk. eapply signed_authentic; [exact Hsign | by split | | exact Hk | done.. |].
  - by apply fields_nodup.
  - by rewrite vote_content.
Qed.

Lemma digest_field_nonempty name s u : digest_field name s = Ok u → s ≠ "".
Proof. intros Hd ->. apply check_ok in Hd. done. Qed.

Lemma proposal_digest_nonempty p : proposal_validate p = Ok tt → pr_proposal_digest p ≠ "".
Proof.
  unfold proposal_validate. intros (u & Hf & _)%result_bind_ok.
  apply as_validation_error_ok, first_error_ok in Hf. rewrite !Forall_cons in Hf.
  destruct Hf as (_ & _ & _ & _ & _ & _ & _ & Hd & _). by eapply digest_field_nonempty.
Qed.
End replica.
