(* ===== verification/OrRound.v ===== *)
(** * Decision rounds

    Models [orchestration/instrumentation.py] and, from
    [orchestration/coordinator.py], [BoundedReplayCache] and [DecisionRound]: the
    messages a round accepts, its rejection evidence, the two-of-three approval
    quorum and the decision built from it.  A round shares the replay cache and
    the instrumentation with every other round, so its operations run on a
    [RoundWorld] that holds all three. *)

From S2P Require Import Prelude PyString Json OrContracts OrReplica.

(** ** Instrumentation *)
Definition OR_COUNTERS : list string :=
  ["rounds_started"; "decisions_reached"; "no_quorum"; "timed_out"; "insufficient_responses";
   "proposals_received"; "proposals_rejected"; "votes_received"; "votes_rejected";
   "authentication_failures"; "duplicate_messages"; "conflicting_votes";
   "orchestrator_timeouts"; "orchestrator_delays"; "orchestrator_omissions";
   "orchestrator_disagreements"].

Record OrchestrationInstrumentation := mk_or_instr {
  oi_latency_limit : nat;
  oi_rejection_limit : nat;
  oi_counters : list (string * Z);
  oi_latencies : list (string * list f64);
  oi_rejections : list (list (string * json));
}.

Definition new_or_instrumentation (latency_limit rejection_limit : Z)
    : result OrchestrationInstrumentation :=
  _ ← check ((1 <=? latency_limit) && (1 <=? rejection_limit)) ValueError
        "instrumentation bounds must be positive";
  Ok (mk_or_instr (Z.to_nat latency_limit) (Z.to_nat rejection_limit)
        (map (λ k, (k, 0)) OR_COUNTERS)
        (map (λ k, (k, [])) ["proposal_ms"; "vote_ms"; "quorum_ms"; "decision_ms"]) []).

Definition or_increment (name : string) (amount : Z) : M OrchestrationInstrumentation unit := λ i,
  match od_get name (oi_counters i) with
  | None => (raise KeyError (py_repr name), i)
  | Some n => (Ok tt, mk_or_instr (oi_latency_limit i) (oi_rejection_limit i)
      (od_set name (n + amount) (oi_counters i)) (oi_latencies i) (oi_rejections i))
  end.

Definition or_latency (name : string) (milliseconds : f64) : M OrchestrationInstrumentation unit :=
  λ i,
  match od_get name (oi_latencies i) with
  | None => (raise KeyError (py_repr name), i)
  | Some l => (Ok tt, mk_or_instr (oi_latency_limit i) (oi_rejection_limit i) (oi_counters i)
      (od_set name (push_bounded (oi_latency_limit i) milliseconds l) (oi_latencies i))
      (oi_rejections i))
  end.

Definition or_rejection (evidence : list (string * json)) : M OrchestrationInstrumentation unit :=
  λ i, (Ok tt, mk_or_instr (oi_latency_limit i) (oi_rejection_limit i) (oi_counters i)
    (oi_latencies i) (push_bounded (oi_rejection_limit i) evidence (oi_rejections i))).

Record LatencySummary := mk_latency_summary {
  sm_count : Z;
  sm_mean_ms : f64;
  sm_p50_ms : f64;
  sm_p95_ms : f64;
  sm_max_ms : f64;
}.

(** 0.95 *)
Definition p95 : f64 := SpecFloat.S754_finite false 8556839292003942 (-53).

Record InstrumentationSnapshot := mk_or_snapshot {
  sn_counters : list (string * Z);
  sn_latencies : list (string * option LatencySummary);
  sn_recent_rejections : list (list (string * json));
  sn_bounds : nat * nat;
}.

Section snapshot.
Context `{PyRuntime}.

(** [None] is the summary [{"count": 0}] of no samples. *)
Definition latency_summary (values : list f64) : option LatencySummary :=
  let sorted := isort (λ x y, negb (f_ltb y x)) values in
  match last sorted with
  | None => None
  | Some top =>
      let count := Z.of_nat (length sorted) in
      let percentile p := nth (Z.to_nat (Z.min (count - 1)
        (f_round_int (f_mul p (f_of_Z (count - 1)))))) sorted f_zero in
      Some (mk_latency_summary count
        (float_round (f_div (float_sum sorted) (f_of_Z count)) 3)
        (float_round (percentile f_half) 3) (float_round (percentile p95) 3)
        (float_round top 3))
  end.

Definition or_snapshot (i : OrchestrationInstrumentation) : InstrumentationSnapshot :=
  mk_or_snapshot (oi_counters i) (map (λ kv, (kv.1, latency_summary kv.2)) (oi_latencies i))
    (oi_rejections i) (oi_latency_limit i, oi_rejection_limit i).
End snapshot.

(** ** Replay cache *)
Record BoundedReplayCache := mk_cache {
  rc_limit : nat;
  rc_entries : list ((string * string) * string);
}.

Definition new_replay_cache (limit : Z) : result BoundedReplayCache :=
  _ ← check (1 <=? limit) ValueError "replay cache limit must be positive";
  Ok (mk_cache (Z.to_nat limit) []).

Inductive ReplayVerdict := NEW | DUPLICATE | CONFLICT.

#[export] Instance replay_verdict_eq_dec : EqDecision ReplayVerdict.
Proof. solve_decision. Defined.

(** [while len(entries) > limit: entries.popitem(last=False)]. *)
Definition evict_oldest {A} (limit : nat) (l : list A) : list A := drop (length l - limit) l.

Definition observe_replay (sender message_id content_hash : string) (c : BoundedReplayCache)
    : ReplayVerdict * BoundedReplayCache :=
  let key := (sender, message_id) in
  match od_get key (rc_entries c) with
  | Some existing =>
      (if bool_decide (existing = content_hash) then DUPLICATE else CONFLICT,
       mk_cache (rc_limit c) (od_move_to_end key (rc_entries c)))
  | None =>
      (NEW, mk_cache (rc_limit c)
              (evict_oldest (rc_limit c) (od_set key content_hash (rc_entries c))))
  end.

(** ** Round state *)
Record DecisionRound := mk_round {
  dr_request : OrchestrationRequestV1;
  dr_request_digest : string;
  dr_keys : MessageVerifier;
  dr_proposals : list (string * OrchestratorProposalV1);
  dr_votes : list (string * OrchestratorVoteV1);
  dr_rejections : list MessageRejectionV1;
  dr_unavailable : gset string;
  dr_omitted : gset string;
  dr_timed_out : gset string;
  dr_delayed : gset string;
  dr_proposal_latencies : gmap string f64;
  dr_vote_latencies : gmap string f64;
  dr_quorum_digest : option string;
  dr_quorum_at : option f64;
  dr_terminal : bool;
  dr_started_at : f64;
}.

Definition with_messages (proposals : list (string * OrchestratorProposalV1))
    (votes : list (string * OrchestratorVoteV1)) (quorum_digest : option string)
    (quorum_at : option f64) (r : DecisionRound) : DecisionRound :=
  mk_round (dr_request r) (dr_request_digest r) (dr_keys r) proposals votes (dr_rejections r)
    (dr_unavailable r) (dr_omitted r) (dr_timed_out r) (dr_delayed r) (dr_proposal_latencies r)
    (dr_vote_latencies r) quorum_digest quorum_at (dr_terminal r) (dr_started_at r).

Definition with_rejections (l : list MessageRejectionV1) (r : DecisionRound) : DecisionRound :=
  mk_round (dr_request r) (dr_request_digest r) (dr_keys r) (dr_proposals r) (dr_votes r) l
    (dr_unavailable r) (dr_omitted r) (dr_timed_out r) (dr_delayed r) (dr_proposal_latencies r)
    (dr_vote_latencies r) (dr_quorum_digest r) (dr_quorum_at r) (dr_terminal r)
    (dr_started_at r).

Definition with_presence (unavailable omitted timed_out delayed : gset string)
    (r : DecisionRound) : DecisionRound :=
  mk_round (dr_request r) (dr_request_digest r) (dr_keys r) (dr_proposals r) (dr_votes r)
    (dr_rejections r) unavailable omitted timed_out delayed (dr_proposal_latencies r)
    (dr_vote_latencies r) (dr_quorum_digest r) (dr_quorum_at r) (dr_terminal r)
    (dr_started_at r).

Definition with_latencies (p v : gmap string f64) (r : DecisionRound) : DecisionRound :=
  mk_round (dr_request r) (dr_request_digest r) (dr_keys r) (dr_proposals r) (dr_votes r)
    (dr_rejections r) (dr_unavailable r) (dr_omitted r) (dr_timed_out r) (dr_delayed r) p v
    (dr_quorum_digest r) (dr_quorum_at r) (dr_terminal r) (dr_started_at r).

Definition with_terminal (b : bool) (r : DecisionRound) : DecisionRound :=
  mk_round (dr_request r) (dr_request_digest r) (dr_keys r) (dr_proposals r) (dr_votes r)
    (dr_rejections r) (dr_unavailable r) (dr_omitted r) (dr_timed_out r) (dr_delayed r)
    (dr_proposal_latencies r) (dr_vote_latencies r) (dr_quorum_digest r) (dr_quorum_at r) b
    (dr_started_at r).

Record RoundWorld := mk_world {
  rw_round : DecisionRound;
  rw_cache : BoundedReplayCache;
  rw_instr : OrchestrationInstrumentation;
}.

Definition RM (A : Type) : Type := M RoundWorld A.

Definition on_round (f : DecisionRound → DecisionRound) : RM unit :=
  modify (λ w, mk_world (f (rw_round w)) (rw_cache w) (rw_instr w)).
Definition on_instr {A} (f : M OrchestrationInstrumentation A) : RM A := λ w,
  let '(out, i) := f (rw_instr w) in (out, mk_world (rw_round w) (rw_cache w) i).
Definition on_cache {A} (f : BoundedReplayCache → A * BoundedReplayCache) : RM A := λ w,
  let '(a, c) := f (rw_cache w) in (Ok a, mk_world (rw_round w) c (rw_instr w)).
Definition this_round : RM DecisionRound := gets rw_round.

Definition REJECTION_EVIDENCE_LIMIT : nat := 64.
Definition AUTHENTICATION_REASONS : list string :=
  ["AUTHENTICATION_FAILED"; "AUTH_IDENTITY_MISMATCH"; "UNKNOWN_ORCHESTRATOR";
   "MESSAGE_HASH_MISMATCH"].

Section rounds.
Context `{PyRuntime}.

Definition new_round_state (request : OrchestrationRequestV1) (verifier : MessageVerifier)
    (started_at : f64) : result DecisionRound :=
  digest ← request_digest request;
  Ok (mk_round request digest verifier [] [] [] ∅ ∅ ∅ ∅ ∅ ∅ None None false started_at).

(** [_reject]. *)
Definition reject {A} `{SignedMessage A} (phase : MessagePhase) (reason : string) (message : A)
    (detail : string) : RM string :=
  let evidence := mk_rejection phase reason (Some (m_orchestrator_id message))
    (Some (m_message_id message)) detail in
  _ ← on_round (λ r, with_rejections
        (push_bounded REJECTION_EVIDENCE_LIMIT evidence (dr_rejections r)) r);
  _ ← on_instr (or_rejection (rejection_dump evidence));
  _ ← on_instr (or_increment
        (match phase with PHASE_PROPOSAL => "proposals_rejected" | _ => "votes_rejected" end) 1);
  _ ← (if bool_decide (reason ∈ AUTHENTICATION_REASONS)
       then on_instr (or_increment "authentication_failures" 1) else mret tt);
  mret reason.

(** [_binding_reason]. *)
Definition binding_reason {A} `{SignedMessage A} (r : DecisionRound) (message : A)
    : option string :=
  if negb (bool_decide (m_orchestrator_id message ∈ ORCHESTRATOR_IDS))
  then Some "UNKNOWN_ORCHESTRATOR"
  else if negb (bool_decide (m_request_id message = rq_request_id (dr_request r)))
  then Some "WRONG_REQUEST"
  else if negb (bool_decide (m_request_version message = rq_request_version (dr_request r)))
  then Some "WRONG_REQUEST_VERSION"
  else if negb (bool_decide (m_round_id message = rq_round_id (dr_request r)))
  then Some "WRONG_ROUND"
  else if negb (bool_decide (m_request_digest message = dr_request_digest r))
  then Some "WRONG_REQUEST_DIGEST"
  else None.

Definition screened_out {A} `{SignedMessage A} (phase : MessagePhase) (reason : string)
    (message : A) (detail : string) : RM (option string) :=
  reason ← reject phase reason message detail; mret (Some reason).

(** The checks both phases start with: [None] lets the message through. *)
Definition screen {A} `{SignedMessage A} (phase : MessagePhase) (message : A)
    : RM (option string) :=
  r ← this_round;
  if dr_terminal r then screened_out phase "LATE_MESSAGE" message "round is terminal"
  else if negb (bool_decide (m_orchestrator_id message ∈ ORCHESTRATOR_IDS))
  then screened_out phase "UNKNOWN_ORCHESTRATOR" message "unknown sender"
  else
    '(authenticated, auth_reason) ← lift (verify (dr_keys r) message);
    if negb (authenticated : bool)
    then screened_out phase auth_reason message "message integrity failed"
    else match binding_reason r message with
         | Some reason => screened_out phase reason message "request binding mismatch"
         | None => mret None
         end.

Definition duplicate : RM string :=
  _ ← on_instr (or_increment "duplicate_messages" 1); mret "DUPLICATE".

Definition accept_proposal (message : OrchestratorProposalV1) : RM string :=
  screened ← screen PHASE_PROPOSAL message;
  match screened with
  | Some reason => mret reason
  | None =>
      r ← this_round;
      if negb (bool_decide (pr_proposed_route_id message ∈ route_ids (dr_request r)))
      then reject PHASE_PROPOSAL "UNKNOWN_ROUTE" message "route not declared"
      else
        expected_semantic ← lift (proposal_digest (pr_request_id message)
          (pr_request_version message) (pr_round_id message) (pr_request_digest message)
          (pr_proposed_route_id message));
        if negb (bool_decide (pr_proposal_digest message = expected_semantic))
        then reject PHASE_PROPOSAL "PROPOSAL_DIGEST_MISMATCH" message
               "semantic proposal digest is inconsistent"
        else
          replay ← on_cache (observe_replay (pr_orchestrator_id message) (pr_message_id message)
            (pr_message_hash message));
          match replay with
          | DUPLICATE => duplicate
          | CONFLICT => reject PHASE_PROPOSAL "CONFLICTING_MESSAGE_ID" message
              "message identity reused with different content"
          | NEW =>
              match od_get (pr_orchestrator_id message) (dr_proposals r) with
              | Some prior =>
                  if bool_decide (pr_message_hash prior = pr_message_hash message)
                  then duplicate
                  else reject PHASE_PROPOSAL "CONFLICTING_PROPOSAL" message
                         "sender already proposed in this round"
              | None =>
                  _ ← on_round (λ r, with_messages
                        (od_set (pr_orchestrator_id message) message (dr_proposals r))
                        (dr_votes r) (dr_quorum_digest r) (dr_quorum_at r) r);
                  _ ← on_instr (or_increment "proposals_received" 1);
                  mret "ACCEPTED"
              end
          end
  end.

(** [Counter(...)]: the approvals per digest, in order of first occurrence. *)
Definition count_add (digest : string) (counts : list (string * nat)) : list (string * nat) :=
  od_set digest (S (default 0%nat (od_get digest counts))) counts.

Definition approvals (votes : list (string * OrchestratorVoteV1)) : list (string * nat) :=
  foldl (λ counts kv, if bool_decide (vt_vote kv.2 = APPROVE)
                      then count_add (vt_selected_proposal_digest kv.2) counts else counts)
    [] votes.

(** The loop over the counter; a digest is set once and never replaced. *)
Definition update_quorum (now : f64) (r : DecisionRound) : DecisionRound :=
  foldl (λ r dc,
    if (REQUIRED_QUORUM <=? dc.2)%nat && negb (is_some (dr_quorum_digest r))
    then with_messages (dr_proposals r) (dr_votes r) (Some dc.1) (Some now) r
    else r) r (approvals (dr_votes r)).

Definition known_digests (r : DecisionRound) : list string :=
  map (λ kv, pr_proposal_digest kv.2) (dr_proposals r).

Definition accept_vote (now : f64) (message : OrchestratorVoteV1) : RM string :=
  screened ← screen PHASE_VOTE message;
  match screened with
  | Some reason => mret reason
  | None =>
      r ← this_round;
      if negb (bool_decide (vt_selected_proposal_digest message ∈ known_digests r))
      then reject PHASE_VOTE "UNKNOWN_PROPOSAL_DIGEST" message
             "vote does not reference an accepted proposal"
      else
        replay ← on_cache (observe_replay (vt_orchestrator_id message) (vt_message_id message)
          (vt_message_hash message));
        match replay with
        | DUPLICATE => duplicate
        | CONFLICT => reject PHASE_VOTE "CONFLICTING_MESSAGE_ID" message
            "message identity reused with different content"
        | NEW =>
            match od_get (vt_orchestrator_id message) (dr_votes r) with
            | Some prior =>
                if bool_decide (vt_message_hash prior = vt_message_hash message)
                then duplicate
                else
                  _ ← on_instr (or_increment "conflicting_votes" 1);
                  reject PHASE_VOTE "CONFLICTING_VOTE" message
                    "sender attempted more than one effective vote"
            | None =>
                _ ← on_round (λ r, with_messages (dr_proposals r)
                      (od_set (vt_orchestrator_id message) message (dr_votes r))
                      (dr_quorum_digest r) (dr_quorum_at r) r);
                _ ← on_instr (or_increment "votes_received" 1);
                _ ← on_round (update_quorum now);
                mret "ACCEPTED"
            end
        end
  end.

Definition close_round (r : DecisionRound) : DecisionRound := with_terminal true r.

(** ** The decision *)
Definition supports (digest : option string) (v : OrchestratorVoteV1) : bool :=
  truthy_str digest && bool_decide (vt_vote v = APPROVE)
  && bool_decide (Some (vt_selected_proposal_digest v) = digest).

Definition disagrees (digest : option string) (n_votes : nat) (v : OrchestratorVoteV1) : bool :=
  negb (bool_decide (vt_vote v = APPROVE))
  || (is_some digest && negb (bool_decide (Some (vt_selected_proposal_digest v) = digest)))
  || (negb (is_some digest) && (1 <? n_votes)%nat).

Definition senders_where (p : OrchestratorVoteV1 → bool)
    (votes : list (string * OrchestratorVoteV1)) : list string :=
  sort_strings (map fst (filter (λ kv, Is_true (p kv.2)) votes)).

Definition proposal_summary (r : DecisionRound) (p : OrchestratorProposalV1) : ProposalSummaryV1 :=
  mk_proposal_summary (pr_orchestrator_id p) (pr_message_id p) (pr_proposed_route_id p)
    (pr_proposal_digest p) (pr_message_hash p) true (pr_policy_id p) (pr_policy_version p)
    (pr_rationale_code p) (default f_zero (dr_proposal_latencies r !! pr_orchestrator_id p)).

Definition vote_summary (r : DecisionRound) (v : OrchestratorVoteV1) : VoteSummaryV1 :=
  mk_vote_summary (vt_orchestrator_id v) (vt_message_id v) (vt_selected_proposal_digest v)
    (vt_vote v) (vt_message_hash v) true (vt_reason_code v)
    (default f_zero (dr_vote_latencies r !! vt_orchestrator_id v)).

(** [max(0.0, (later - earlier) * 1000.0)]. *)
Definition elapsed_ms (later earlier : f64) : f64 :=
  f_max f_zero (f_mul (f_sub later earlier) (f_of_Z 1000)).

(** [next(... for proposal in proposals if digest matches)]. *)
Definition selected_route (digest : string) (r : DecisionRound) : result string :=
  of_option
    (head (map (λ kv, pr_proposed_route_id kv.2)
       (filter (λ kv, pr_proposal_digest kv.2 = digest) (dr_proposals r))))
    (OtherError "StopIteration") "".

(** Route, outcome and reason. *)
Definition round_verdict (r : DecisionRound)
    : result (option string * OrchestrationOutcome * string) :=
  if truthy_str (dr_quorum_digest r) then
    route ← selected_route (default "" (dr_quorum_digest r)) r;
    Ok (Some route, DECIDED, "TWO_OF_THREE_AUTHENTICATED_APPROVAL_QUORUM")
  else if negb (bool_decide (dr_timed_out r = ∅)) then
    Ok (None, TIMED_OUT, "DEADLINE_WITHOUT_QUORUM")
  else if (length (dr_votes r) <? REQUIRED_QUORUM)%nat then
    Ok (None, INSUFFICIENT_RESPONSES, "FEWER_THAN_TWO_USABLE_VOTES")
  else Ok (None, NO_QUORUM, "NO_PROPOSAL_RECEIVED_TWO_DISTINCT_APPROVALS").

Definition sorted_set (s : gset string) : list string := sort_strings (elements s).

Definition decision_of (r : DecisionRound) (decision_id : string) (now : f64)
    (completed_at_utc : string) (route : option string) (outcome : OrchestrationOutcome)
    (reason : string) : OrchestrationDecisionV1 :=
  let digest := dr_quorum_digest r in
  let n_votes := length (dr_votes r) in
  mk_or_decision decision_id (rq_request_id (dr_request r)) (rq_request_version (dr_request r))
    (rq_round_id (dr_request r)) (dr_request_digest r) outcome route digest
    (map (λ kv, proposal_summary r kv.2) (dr_proposals r))
    (map (λ kv, vote_summary r kv.2) (dr_votes r))
    (dr_rejections r)
    (senders_where (supports digest) (dr_votes r))
    (senders_where (disagrees digest n_votes) (dr_votes r))
    (sorted_set (dr_timed_out r)) (sorted_set (dr_delayed r)) (sorted_set (dr_omitted r))
    (sorted_set (dr_unavailable r))
    (is_some digest)
    (at_ ← dr_quorum_at r; Some (elapsed_ms at_ (dr_started_at r)))
    (elapsed_ms now (dr_started_at r)) reason
    (rq_logical_timestamp (dr_request r)) (rq_window_id (dr_request r)) completed_at_utc
    [("source_component", JStr "orchestration.coordinator");
     ("request_source_component", JStr (rq_source_component (dr_request r)));
     ("history_persistence", JStr "bounded_in_memory_only")].

Definition build_decision (decision_id : string) (now : f64) (completed_at_utc : string)
    : RM OrchestrationDecisionV1 :=
  _ ← on_round (with_terminal true);
  r ← this_round;
  '(route, outcome, reason) ← lift (round_verdict r);
  let decision := decision_of r decision_id now completed_at_utc route outcome reason in
  _ ← lift (decision_validate decision);
  mret decision.
End rounds.
