(* ===== verification/OrRoundFacts.v ===== *)
(** * Invariant of a decision round

    What every reachable round state satisfies: one authenticated proposal and
    one authenticated vote per orchestrator, all bound to the round's request,
    and a quorum digest exactly when two of them approve it. *)

From S2P Require Import Prelude PyString Json Firewall OrContracts OrReplica OrRound.

(** ** Counting approvals *)
Definition approves (digest : string) (kv : string * OrchestratorVoteV1) : Prop :=
  vt_vote kv.2 = APPROVE ∧ vt_selected_proposal_digest kv.2 = digest.

#[export] Instance approves_dec digest kv : Decision (approves digest kv).
Proof. unfold approves. apply _. Defined.

(** The orchestrators whose vote approves [digest]. *)
Definition approvers (digest : string) (votes : list (string * OrchestratorVoteV1)) : list string :=
  map fst (filter (approves digest) votes).

Create HintDb or_round.

Section rounds.
Context `{PyRuntime}.

Lemma approvals_snoc votes kv :
  approvals (votes ++ [kv]) =
    if bool_decide (vt_vote kv.2 = APPROVE)
    then count_add (vt_selected_proposal_digest kv.2) (approvals votes) else approvals votes.
Proof. unfold approvals. by rewrite foldl_app. Qed.

Lemma approvers_app digest v1 v2 :
  approvers digest (v1 ++ v2) = approvers digest v1 ++ approvers digest v2.
Proof. unfold approvers. by rewrite filter_app, map_app. Qed.

Lemma approvers_single digest kv :
  approvers digest [kv] = if decide (approves digest kv) then [kv.1] else [].
Proof. unfold approvers. rewrite filter_cons, filter_nil. by case_decide. Qed.

Lemma elem_of_approvers digest votes s :
  s ∈ approvers digest votes ↔ ∃ v, (s, v) ∈ votes ∧ approves digest (s, v).
Proof.
  unfold approvers. rewrite list_elem_of_In, in_map_iff. setoid_rewrite <-list_elem_of_In.
  setoid_rewrite list_elem_of_filter. split.
  - intros ([s' v] & <- & ? & ?). by exists v.
  - intros (v & ? & ?). by exists (s, v).
Qed.

Lemma approvers_sublist digest votes : approvers digest votes `sublist_of` votes.*1.
Proof. apply (fmap_sublist fst), sublist_filter. Qed.

Lemma approvers_nodup digest votes : NoDup votes.*1 → NoDup (approvers digest votes).
Proof. intros Hnd. eapply sublist_NoDup; [exact Hnd | apply approvers_sublist]. Qed.

Lemma approvals_count votes digest :
  default 0%nat (od_get digest (approvals votes)) = length (approvers digest votes).
Proof.
  induction votes as [|kv votes IH] using rev_ind; [done |].
  rewrite approvals_snoc, approvers_app, length_app, approvers_single, <-IH.
  unfold approves. case_bool_decide as Hv.
  - unfold count_add. rewrite od_get_set.
    destruct (decide (digest = vt_selected_proposal_digest kv.2)) as [->|Hne].
    + rewrite decide_True by done. cbn. lia.
    + rewrite decide_False by naive_solver. cbn. lia.
  - rewrite decide_False by naive_solver. cbn. lia.
Qed.

Lemma approvals_nodup votes : NoDup (approvals votes).*1.
Proof.
  induction votes as [|kv votes IH] using rev_ind; [constructor |].
  rewrite approvals_snoc. case_bool_decide; [|done]. by apply od_set_nodup.
Qed.

(** ** The quorum loop *)
Lemma update_quorum_fold now l r :
  let r' := foldl (λ r (dc : string * nat),
    if (REQUIRED_QUORUM <=? dc.2)%nat && negb (is_some (dr_quorum_digest r))
    then with_messages (dr_proposals r) (dr_votes r) (Some dc.1) (Some now) r else r) r l in
  (∃ q a, r' = with_messages (dr_proposals r) (dr_votes r) q a r) ∧
  dr_quorum_digest r' =
    match dr_quorum_digest r with
    | Some d => Some d
    | None => fst <$> head (filter (λ dc, (REQUIRED_QUORUM ≤ dc.2)%nat) l)
    end.
Proof.
  revert r. induction l as [|[d n] l IH]; intros r; cbn [foldl fst snd].
  - split; [|by destruct (dr_quorum_digest r)].
    exists (dr_quorum_digest r), (dr_quorum_at r). by destruct r.
  - destruct (Nat.leb_spec REQUIRED_QUORUM n) as [Hn|Hn]; cbn [andb].
    + rewrite filter_cons_True by (cbn; lia).
      destruct (dr_quorum_digest r) as [q|] eqn:Hq; cbn [negb is_some].
      * destruct (IH r) as [H1 H2]. rewrite Hq in H2. done.
      * destruct (IH (with_messages (dr_proposals r) (dr_votes r) (Some d) (Some now) r))
          as [(q & a & Heq) H2].
        split; [by exists q, a; rewrite Heq; destruct r | exact H2].
    + rewrite filter_cons_False by (cbn; lia). apply IH.
Qed.

Lemma update_quorum_shape now r :
  ∃ q a, update_quorum now r = with_messages (dr_proposals r) (dr_votes r) q a r.
Proof. apply (update_quorum_fold now (approvals (dr_votes r)) r). Qed.

Lemma update_quorum_digest now r :
  (∀ d, dr_quorum_digest r = Some d → (2 ≤ length (approvers d (dr_votes r)))%nat) →
  ∀ d, dr_quorum_digest (update_quorum now r) = Some d →
    (2 ≤ length (approvers d (dr_votes r)))%nat.
Proof.
  intros Hold d. unfold update_quorum.
  destruct (update_quorum_fold now (approvals (dr_votes r)) r) as [_ ->].
  destruct (dr_quorum_digest r) as [q|]; [by intros [= <-]; apply Hold |].
  intros (dc & Hd & Hhead)%fmap_Some. subst.
  assert (Hin : dc ∈ filter (λ dc, (REQUIRED_QUORUM ≤ dc.2)%nat) (approvals (dr_votes r)))
    by (destruct (filter _ _); cbn in *; [done | simplify_eq; set_solver]).
  apply list_elem_of_filter in Hin as [Hge Hin]. destruct dc as [d n]; cbn in *.
  rewrite <-approvals_count.
  by rewrite (od_elem_get d n _ (approvals_nodup _) Hin).
Qed.

Lemma update_quorum_reached now r d :
  (2 ≤ length (approvers d (dr_votes r)))%nat →
  is_Some (dr_quorum_digest (update_quorum now r)).
Proof.
  intros Hge. unfold update_quorum.
  destruct (update_quorum_fold now (approvals (dr_votes r)) r) as [_ ->].
  destruct (dr_quorum_digest r) as [q|]; [by eexists |].
  rewrite <-approvals_count in Hge.
  destruct (od_get d (approvals (dr_votes r))) as [n|] eqn:Hg; [|cbn in Hge; lia].
  apply od_get_Some_elem in Hg.
  assert (Hin : (d, n) ∈ filter (λ dc, (REQUIRED_QUORUM ≤ dc.2)%nat) (approvals (dr_votes r)))
    by (by apply list_elem_of_filter).
  destruct (filter _ _); cbn; [set_solver | by eexists].
Qed.

(** ** Instrumentation and replay cache *)
Definition LATENCY_NAMES : list string := ["proposal_ms"; "vote_ms"; "quorum_ms"; "decision_ms"].

(** Every counter exists, and nothing exceeds its bound. *)
Record or_instr_ok (i : OrchestrationInstrumentation) : Prop := {
  ik_counters : (oi_counters i).*1 = OR_COUNTERS;
  ik_latencies : (oi_latencies i).*1 = LATENCY_NAMES;
  ik_samples : Forall (λ kv, (length kv.2 ≤ oi_latency_limit i)%nat) (oi_latencies i);
  ik_rejections : (length (oi_rejections i) ≤ oi_rejection_limit i)%nat;
}.

Lemma od_get_known {A} k (d : list (string * A)) ks : d.*1 = ks → k ∈ ks → is_Some (od_get k d).
Proof.
  intros <- Hk. destruct (od_get k d) eqn:Hg; [by eexists |]. by apply od_get_None in Hg.
Qed.

Lemma od_set_known {A} k v (d : list (string * A)) ks :
  d.*1 = ks → k ∈ ks → (od_set k v d).*1 = ks.
Proof. intros Hd Hk. rewrite od_set_keys. by destruct (od_get_known k d ks Hd Hk) as [? ->]. Qed.

Lemma or_increment_ok name n i :
  or_instr_ok i → name ∈ OR_COUNTERS →
  ∃ i', or_increment name n i = (Ok tt, i') ∧ or_instr_ok i'.
Proof.
  intros [Hc Hl Hs Hr] Hn. unfold or_increment.
  destruct (od_get_known name _ _ Hc Hn) as [x ->]. eexists. split; [done |].
  constructor; cbn; [by apply od_set_known | done..].
Qed.

Lemma or_latency_ok name x i :
  or_instr_ok i → name ∈ LATENCY_NAMES →
  ∃ i', or_latency name x i = (Ok tt, i') ∧ or_instr_ok i'.
Proof.
  intros [Hc Hl Hs Hr] Hn. unfold or_latency.
  destruct (od_get_known name _ _ Hl Hn) as [l Hg]. rewrite Hg. eexists. split; [done |].
  constructor; cbn; [done | by apply od_set_known | | done].
  apply Forall_forall. intros [k s] Hin. apply od_elem_get in Hin.
  - rewrite od_get_set in Hin. case_decide; simplify_eq; [apply push_bounded_length |].
    rewrite Forall_forall in Hs. by apply (Hs (k, s)), od_get_Some_elem.
  - rewrite (od_set_known _ _ _ _ Hl Hn). apply (bool_decide_eq_true_1 (NoDup LATENCY_NAMES)). done.
Qed.

Lemma or_rejection_ok e i :
  or_instr_ok i → ∃ i', or_rejection e i = (Ok tt, i') ∧ or_instr_ok i'.
Proof.
  intros [Hc Hl Hs Hr]. eexists. split; [done |]. constructor; cbn; try done.
  apply push_bounded_length.
Qed.

Record cache_ok (c : BoundedReplayCache) : Prop := {
  ck_bounded : (length (rc_entries c) ≤ rc_limit c)%nat;
  ck_nodup : NoDup (rc_entries c).*1;
}.

Lemma od_del_keys {K V} `{EqDecision K} (k : K) (d : list (K * V)) : (od_del k d).*1 `sublist_of` d.*1.
Proof.
  induction d as [|[k' v] d IH]; cbn; [done |]. case_decide; [by constructor |]. by constructor.
Qed.

Lemma od_del_not_in {K V} `{EqDecision K} (k : K) (d : list (K * V)) :
  NoDup d.*1 → k ∉ (od_del k d).*1.
Proof.
  induction d as [|[k' v] d IH]; cbn; [set_solver |]. intros [Hni Hnd]%NoDup_cons.
  case_decide; subst; [done |]. cbn. set_solver.
Qed.

Lemma od_move_to_end_nodup {K V} `{EqDecision K} (k : K) (d : list (K * V)) :
  NoDup d.*1 → NoDup (od_move_to_end k d).*1.
Proof.
  intros Hnd. unfold od_move_to_end. destruct (od_get k d); [|done].
  rewrite fmap_app. apply NoDup_app. split_and!.
  - eapply sublist_NoDup; [exact Hnd | apply od_del_keys].
  - cbn. pose proof (od_del_not_in k d Hnd). set_solver.
  - apply NoDup_singleton.
Qed.

Lemma observe_replay_ok s m h c : cache_ok c → cache_ok (observe_replay s m h c).2.
Proof.
  intros [Hb Hnd]. unfold observe_replay.
  destruct (od_get (s, m) (rc_entries c)) eqn:Hg; constructor; cbn [snd rc_limit rc_entries].
  - unfold od_move_to_end. rewrite Hg, length_app. cbn.
    pose proof (od_del_length _ _ _ Hg). lia.
  - by apply od_move_to_end_nodup.
  - unfold evict_oldest. rewrite length_drop. lia.
  - unfold evict_oldest. rewrite fmap_drop. eapply sublist_NoDup; [|apply sublist_drop].
    by apply od_set_nodup.
Qed.

(** ** What the shared screen lets through *)
Record world_ok (w : RoundWorld) : Prop := {
  wk_instr : or_instr_ok (rw_instr w);
  wk_cache : cache_ok (rw_cache w);
}.

(** A message of this round: known sender, authentic, bound to the request. *)
Record bound_to {A} `{SignedMessage A} (r : DecisionRound) (m : A) : Prop := {
  bt_sender : m_orchestrator_id m ∈ ORCHESTRATOR_IDS;
  bt_authentic : authentic (mv_keys (dr_keys r)) m;
  bt_request : m_request_id m = rq_request_id (dr_request r);
  bt_version : m_request_version m = rq_request_version (dr_request r);
  bt_round : m_round_id m = rq_round_id (dr_request r);
  bt_digest : m_request_digest m = dr_request_digest r;
}.

Lemma binding_reason_None {A} `{SignedMessage A} r (m : A) :
  authentic (mv_keys (dr_keys r)) m → binding_reason r m = None ↔ bound_to r m.
Proof.
  intros Hauth. unfold binding_reason. repeat case_bool_decide; cbn [negb];
    (split; [try done; by intros _ | intros []; try done; congruence]).
Qed.

(** A step that at most adds rejection evidence, counters or replay entries. *)
Record quiet (w w' : RoundWorld) : Prop := {
  qu_round : ∃ l, rw_round w' = with_rejections l (rw_round w) ∧
    ((length (dr_rejections (rw_round w)) ≤ REJECTION_EVIDENCE_LIMIT)%nat →
     (length l ≤ REJECTION_EVIDENCE_LIMIT)%nat);
  qu_ok : world_ok w';
}.

Lemma quiet_refl w : world_ok w → quiet w w.
Proof. intros Hw. constructor; [|done]. exists (dr_rejections (rw_round w)). by destruct w as [[]]. Qed.

Lemma quiet_trans w1 w2 w3 : quiet w1 w2 → quiet w2 w3 → quiet w1 w3.
Proof.
  intros [(l & Hl & Hn) _] [(k & Hk & Hm) ?]. constructor; [|done].
  exists k. rewrite Hk, Hl. split; [done |]. intros Hb. apply Hm. rewrite Hl. by apply Hn.
Qed.

Lemma quiet_cache w c : world_ok w → cache_ok c → quiet w (mk_world (rw_round w) c (rw_instr w)).
Proof.
  intros [Hi Hc] Hc'. constructor; [|by constructor].
  exists (dr_rejections (rw_round w)). by destruct w as [[]].
Qed.

Lemma on_instr_ok {A} (f : M OrchestrationInstrumentation A) a i' w :
  world_ok w → f (rw_instr w) = (Ok a, i') → or_instr_ok i' →
  ∃ w', on_instr f w = (Ok a, w') ∧ quiet w w' ∧ rw_cache w' = rw_cache w.
Proof.
  intros [Hi Hc] Hf Hi'. unfold on_instr. rewrite Hf. eexists. split; [done |]. split; [|done].
  constructor; [|by constructor]. exists (dr_rejections (rw_round w)). by destruct w as [[]].
Qed.

Lemma increment_quiet name n w :
  world_ok w → name ∈ OR_COUNTERS →
  ∃ w', on_instr (or_increment name n) w = (Ok tt, w') ∧ quiet w w' ∧ rw_cache w' = rw_cache w.
Proof.
  intros Hw Hn. destruct (or_increment_ok name n _ (wk_instr _ Hw) Hn) as (i' & Hf & Hi').
  by apply (on_instr_ok _ tt i').
Qed.

Lemma reject_quiet {A} `{SignedMessage A} phase reason (m : A) detail w :
  world_ok w →
  ∃ w', reject phase reason m detail w = (Ok reason, w') ∧ quiet w w' ∧ rw_cache w' = rw_cache w.
Proof.
  intros Hw. unfold reject, mbind, M_bind, on_round, modify.
  set (evidence := mk_rejection _ _ _ _ _).
  set (w1 := mk_world _ (rw_cache w) (rw_instr w)).
  assert (Hq1 : quiet w w1).
  { constructor; [|by destruct Hw; constructor]. eexists. split; [done |].
    intros _. apply push_bounded_length. }
  destruct (or_rejection_ok (rejection_dump evidence) (rw_instr w1) (wk_instr _ (qu_ok _ _ Hq1)))
    as (i2 & Hf2 & Hi2).
  destruct (on_instr_ok _ _ _ w1 (qu_ok _ _ Hq1) Hf2 Hi2) as (w2 & -> & Hq2 & Hc2).
  destruct (increment_quiet (match phase with PHASE_PROPOSAL => "proposals_rejected"
    | _ => "votes_rejected" end) 1 w2 (qu_ok _ _ Hq2)) as (w3 & -> & Hq3 & Hc3).
  { destruct phase; set_solver. }
  case_bool_decide.
  - destruct (increment_quiet "authentication_failures" 1 w3 (qu_ok _ _ Hq3)) as (w4 & -> & Hq4 & Hc4).
    { set_solver. }
    exists w4. split; [done |]. split; [|by rewrite Hc4, Hc3, Hc2].
    eauto using quiet_trans.
  - exists w3. split; [done |]. split; [|by rewrite Hc3, Hc2]. eauto using quiet_trans.
Qed.

Lemma duplicate_quiet w :
  world_ok w →
  ∃ w', duplicate w = (Ok "DUPLICATE", w') ∧ quiet w w' ∧ rw_cache w' = rw_cache w.
Proof.
  intros Hw. unfold duplicate, mbind, M_bind.
  destruct (increment_quiet "duplicate_messages" 1 w Hw) as (w' & -> & ? & ?); [set_solver |].
  by exists w'.
Qed.

(** The reasons a message is turned away with. *)
Definition REASONS : list string :=
  ["LATE_MESSAGE"; "UNKNOWN_ORCHESTRATOR"; "AUTH_IDENTITY_MISMATCH"; "MESSAGE_HASH_MISMATCH";
   "AUTHENTICATION_FAILED"; "WRONG_REQUEST"; "WRONG_REQUEST_VERSION"; "WRONG_ROUND";
   "WRONG_REQUEST_DIGEST"; "UNKNOWN_ROUTE"; "PROPOSAL_DIGEST_MISMATCH"; "DUPLICATE";
   "CONFLICTING_MESSAGE_ID"; "CONFLICTING_PROPOSAL"; "UNKNOWN_PROPOSAL_DIGEST";
   "CONFLICTING_VOTE"].

(** The screen stops a message, quietly, or lets it through unchanged. *)
Lemma screen_spec {A} `{SignedMessage A} phase (m : A) w out w' :
  world_ok w → screen phase m w = (out, w') →
  match out with
  | Ok (Some reason) => reason ∈ REASONS ∧ quiet w w'
  | Ok None => w' = w ∧ dr_terminal (rw_round w) = false ∧ bound_to (rw_round w) m
  | Raise _ => w' = w
  end.
Proof.
  intros Hw. unfold screen, screened_out, mbind, M_bind, this_round, gets.
  destruct (dr_terminal (rw_round w)) eqn:Hterm.
  { destruct (reject_quiet phase "LATE_MESSAGE" m "round is terminal" w Hw) as (w1 & -> & ? & _).
    intros [= <- <-]. split; [set_solver | done]. }
  case_bool_decide as Hid; cbn [negb].
  2:{ destruct (reject_quiet phase "UNKNOWN_ORCHESTRATOR" m "unknown sender" w Hw)
        as (w1 & -> & ? & _). intros [= <- <-]. split; [set_solver | done]. }
  unfold lift. destruct (verify (dr_keys (rw_round w)) m) as [[b reason]|e] eqn:Hv; [|naive_solver].
  destruct b; cbn [negb].
  - apply verify_authentic in Hv as [_ Hauth].
    pose proof (binding_reason_None (rw_round w) m Hauth) as Hb.
    destruct (binding_reason (rw_round w) m) as [br|] eqn:Hbr.
    + destruct (reject_quiet phase br m "request binding mismatch" w Hw) as (w1 & -> & ? & _).
      intros [= <- <-]. split; [|done]. revert Hbr. unfold binding_reason.
      repeat case_bool_decide; cbn [negb]; intros; simplify_eq; set_solver.
    + intros [= <- <-]. split_and!; [done..|]. by apply Hb.
  - pose proof (verify_reason _ _ _ _ Hv) as Hr.
    destruct (reject_quiet phase reason m "message integrity failed" w Hw) as (w1 & -> & ? & _).
    intros [= <- <-]. split; [|done].
    assert (reason ≠ "AUTHENTICATED").
    { intros ->. unfold verify in Hv. destruct (mv_keys _ !! _); [|done].
      case_bool_decide; [|done]. cbn in Hv. destruct (message_hash _); [|done]. cbn in Hv.
      case_bool_decide; [|done]. cbn in Hv. destruct (message_tag _ _); [|done]. cbn in Hv.
      by case_bool_decide. }
    set_solver.
Qed.

Lemma screen_pass {A} `{SignedMessage A} phase (m : A) w :
  dr_terminal (rw_round w) = false → bound_to (rw_round w) m → screen phase m w = (Ok None, w).
Proof.
  intros Ht Hb. unfold screen, mbind, M_bind, this_round, gets, lift. rewrite Ht.
  rewrite bool_decide_true by apply Hb. cbn [negb].
  assert (verify (dr_keys (rw_round w)) m = Ok (true, "AUTHENTICATED")) as ->.
  { apply verify_authentic. split; [done | apply Hb]. }
  cbn [negb]. by rewrite (proj2 (binding_reason_None _ _ (bt_authentic _ _ Hb)) Hb).
Qed.

(** ** Acceptance *)
Definition digest_matches (p : OrchestratorProposalV1) : Prop :=
  proposal_digest (pr_request_id p) (pr_request_version p) (pr_round_id p) (pr_request_digest p)
    (pr_proposed_route_id p) = Ok (pr_proposal_digest p).

(** A proposal the round may count. *)
Record good_proposal (r : DecisionRound) (p : OrchestratorProposalV1) : Prop := {
  gp_bound : bound_to r p;
  gp_route : pr_proposed_route_id p ∈ route_ids (dr_request r);
  gp_digest : digest_matches p;
}.

(** A vote the round may count. *)
Record good_vote (r : DecisionRound) (v : OrchestratorVoteV1) : Prop := {
  gv_bound : bound_to r v;
  gv_known : vt_selected_proposal_digest v ∈ known_digests r;
}.

Lemma reject_run {A} `{SignedMessage A} phase reason (m : A) detail w out w' :
  world_ok w → reject phase reason m detail w = (out, w') → out = Ok reason ∧ quiet w w'.
Proof.
  intros Hw Hrun. destruct (reject_quiet phase reason m detail w Hw) as (w1 & Hr & Hq & _).
  by rewrite Hr in Hrun; injection Hrun as <- <-.
Qed.

Lemma duplicate_run w out w' :
  world_ok w → duplicate w = (out, w') → out = Ok "DUPLICATE" ∧ quiet w w'.
Proof.
  intros Hw Hrun. destruct (duplicate_quiet w Hw) as (w1 & Hr & Hq & _).
  by rewrite Hr in Hrun; injection Hrun as <- <-.
Qed.

Lemma observe_replay_inv s m h c :
  (observe_replay s m h c).1 = NEW ↔ od_get (s, m) (rc_entries c) = None.
Proof.
  unfold observe_replay. destruct (od_get (s, m) (rc_entries c)); cbn; [|done].
  case_bool_decide; done.
Qed.

(** The replay cache does not hold the message's identity. *)
Definition unseen {A} `{SignedMessage A} (m : A) (c : BoundedReplayCache) : Prop :=
  od_get (m_orchestrator_id m, m_message_id m) (rc_entries c) = None.

(** How a message is turned away: anything but ["ACCEPTED"], quietly. *)
Definition turned_away (out : result string) (w w' : RoundWorld) : Prop :=
  out ≠ Ok "ACCEPTED" ∧ quiet w w'.

Lemma reject_away {A} `{SignedMessage A} phase reason (m : A) detail w out w' :
  world_ok w → reject phase reason m detail w = (out, w') → reason ≠ "ACCEPTED" →
  turned_away out w w'.
Proof.
  intros Hw Hrun Hne. apply reject_run in Hrun as [-> Hq]; [|done]. split; [congruence | done].
Qed.

Lemma duplicate_away w out w' :
  world_ok w → duplicate w = (out, w') → turned_away out w w'.
Proof. intros Hw Hrun. apply duplicate_run in Hrun as [-> Hq]; [by split | done]. Qed.

Lemma away_trans out w w1 w' : quiet w w1 → turned_away out w1 w' → turned_away out w w'.
Proof. intros Hq [? ?]. split; [done | by eapply quiet_trans]. Qed.

Hint Resolve duplicate_away quiet_refl : or_round.
Hint Extern 2 (turned_away _ _ _) =>
  match goal with
  | Hr : reject ?phase ?reason ?m ?detail ?w = (?out, ?w') |- _ =>
      apply (reject_away phase reason m detail w out w'); [assumption | exact Hr | discriminate]
  end : or_round.

(** The replay check both phases end with. *)
Lemma replay_spec {A} `{SignedMessage A} phase (m : A) sender mid h (k : RM string) w out w' :
  world_ok w →
  (replay ← on_cache (observe_replay sender mid h);
   match replay with
   | DUPLICATE => duplicate
   | CONFLICT => reject phase "CONFLICTING_MESSAGE_ID" m
       "message identity reused with different content"
   | NEW => k
   end) w = (out, w') →
  turned_away out w w' ∨
  od_get (sender, mid) (rc_entries (rw_cache w)) = None ∧
  ∃ w1, quiet w w1 ∧ rw_round w1 = rw_round w ∧ k w1 = (out, w').
Proof.
  intros Hw. unfold mbind, M_bind, on_cache.
  pose proof (observe_replay_inv sender mid h (rw_cache w)) as Hinv.
  pose proof (observe_replay_ok sender mid h _ (wk_cache _ Hw)) as Hcache.
  destruct (observe_replay _ _ _ _) as [verdict c]. cbn [fst snd] in Hcache, Hinv.
  pose proof (quiet_cache _ _ Hw Hcache) as Hq. pose proof (qu_ok _ _ Hq).
  destruct verdict; intros Hrun; [|left; apply (away_trans _ _ _ _ Hq); eauto with or_round..].
  right. split; [by apply Hinv |]. by exists (mk_world (rw_round w) c (rw_instr w)).
Qed.

(** Recording a message, then counting it. *)
Lemma record_run (f : DecisionRound → DecisionRound) name (k : RM string) w out w' :
  world_ok w → name ∈ OR_COUNTERS →
  (_ ← on_round f; _ ← on_instr (or_increment name 1); k) w = (out, w') →
  ∃ i, or_instr_ok i ∧ k (mk_world (f (rw_round w)) (rw_cache w) i) = (out, w').
Proof.
  intros [Hi Hc] Hn. unfold mbind, M_bind, on_round, modify, on_instr. cbn [rw_instr].
  destruct (or_increment_ok name 1 _ Hi Hn) as (i & -> & Hi'). by exists i.
Qed.

Lemma accept_proposal_spec p w out w' :
  world_ok w → accept_proposal p w = (out, w') →
  turned_away out w w' ∨
  (out = Ok "ACCEPTED" ∧ dr_terminal (rw_round w) = false ∧ good_proposal (rw_round w) p ∧
   od_get (pr_orchestrator_id p) (dr_proposals (rw_round w)) = None ∧
   rw_round w' = with_messages (od_set (pr_orchestrator_id p) p (dr_proposals (rw_round w)))
     (dr_votes (rw_round w)) (dr_quorum_digest (rw_round w)) (dr_quorum_at (rw_round w))
     (rw_round w) ∧ world_ok w' ∧ unseen p (rw_cache w)).
Proof.
  intros Hw Hrun. unfold accept_proposal in Hrun. unfold mbind at 1, M_bind in Hrun.
  destruct (screen PHASE_PROPOSAL p w) as [s w1] eqn:Hs.
  pose proof (screen_spec _ _ _ _ _ Hw Hs) as Hspec. destruct s as [[reason|]|e].
  { injection Hrun as <- <-. destruct Hspec as [Hr Hq]. left. split; [|done].
    intros [= ->]. revert Hr. clear. set_solver. }
  2:{ injection Hrun as <- <-. subst. left. split; [done | by apply quiet_refl]. }
  destruct Hspec as (-> & Hterm & Hbound). unfold mbind at 1, M_bind, this_round, gets in Hrun.
  case_bool_decide as Hroute; cbn [negb] in Hrun; [|left; eauto with or_round].
  unfold mbind at 1, M_bind, lift in Hrun.
  destruct (proposal_digest _ _ _ _ _) as [d|e] eqn:Hd;
    [|injection Hrun as <- <-; left; split; eauto with or_round].
  case_bool_decide as Hdig; cbn [negb] in Hrun; [|left; eauto with or_round].
  apply replay_spec in Hrun as [?|(Hnew & w1 & Hq & Hr1 & Hrun)]; [by left | | done].
  pose proof (qu_ok _ _ Hq) as Hw1.
  destruct (od_get (pr_orchestrator_id p) (dr_proposals (rw_round w))) as [prior|] eqn:Hprior.
  { left. apply (away_trans _ _ _ _ Hq). case_bool_decide; eauto with or_round. }
  right. apply record_run in Hrun as (i & Hi & [= <- <-]); [|done | set_solver].
  split_and!; [done | done | | done | by rewrite <-Hr1 | by destruct Hw1; constructor | done].
  constructor; [done | done | unfold digest_matches; congruence].
Qed.

Lemma accept_vote_spec now v w out w' :
  world_ok w → accept_vote now v w = (out, w') →
  turned_away out w w' ∨
  (out = Ok "ACCEPTED" ∧ dr_terminal (rw_round w) = false ∧ good_vote (rw_round w) v ∧
   od_get (vt_orchestrator_id v) (dr_votes (rw_round w)) = None ∧
   rw_round w' = update_quorum now (with_messages (dr_proposals (rw_round w))
     (od_set (vt_orchestrator_id v) v (dr_votes (rw_round w)))
     (dr_quorum_digest (rw_round w)) (dr_quorum_at (rw_round w)) (rw_round w)) ∧ world_ok w' ∧
   unseen v (rw_cache w)).
Proof.
  intros Hw Hrun. unfold accept_vote in Hrun. unfold mbind at 1, M_bind in Hrun.
  destruct (screen PHASE_VOTE v w) as [s w1] eqn:Hs.
  pose proof (screen_spec _ _ _ _ _ Hw Hs) as Hspec. destruct s as [[reason|]|e].
  { injection Hrun as <- <-. destruct Hspec as [Hr Hq]. left. split; [|done].
    intros [= ->]. revert Hr. clear. set_solver. }
  2:{ injection Hrun as <- <-. subst. left. split; [done | by apply quiet_refl]. }
  destruct Hspec as (-> & Hterm & Hbound). unfold mbind at 1, M_bind, this_round, gets in Hrun.
  case_bool_decide as Hknown; cbn [negb] in Hrun; [|left; eauto with or_round].
  apply replay_spec in Hrun as [?|(Hnew & w1 & Hq & Hr1 & Hrun)]; [by left | | done].
  pose proof (qu_ok _ _ Hq) as Hw1.
  destruct (od_get (vt_orchestrator_id v) (dr_votes (rw_round w))) as [prior|] eqn:Hprior.
  { left. apply (away_trans _ _ _ _ Hq). case_bool_decide; [eauto with or_round |].
    unfold mbind, M_bind in Hrun.
    destruct (increment_quiet "conflicting_votes" 1 w1 Hw1) as (w2 & Hinc & Hq2 & _); [set_solver |].
    rewrite Hinc in Hrun. pose proof (qu_ok _ _ Hq2).
    apply (away_trans _ _ _ _ Hq2). eauto with or_round. }
  right. apply record_run in Hrun as (i & Hi & [= <- <-]); [|done | set_solver].
  split_and!; [done | done | done | done | by rewrite <-Hr1 | by destruct Hw1; constructor | done].
Qed.
End rounds.
