(* ===== verification/OrRoundSafety.v ===== *)
(** * Safety of a decision round

    The round as a transition system: messages, presence and latency marks,
    closing, deciding, and what other rounds do to the shared replay cache and
    instrumentation.  Every reachable round satisfies [round_ok], and its history
    only grows ([round_le]). *)

From S2P Require Import Prelude PyString Json Firewall OrContracts OrReplica OrRound OrRoundFacts.

Section safety.
Context `{PyRuntime}.

Definition nonneg (l : gmap string f64) : Prop :=
  map_Forall (λ _ x, f_geb x f_zero = true) l.

Record round_ok (r : DecisionRound) : Prop := {
  ro_request : request_validate (dr_request r) = Ok tt;
  ro_digest : request_digest (dr_request r) = Ok (dr_request_digest r);
  ro_proposals_nodup : NoDup (dr_proposals r).*1;
  ro_votes_nodup : NoDup (dr_votes r).*1;
  ro_proposals : ∀ s p, (s, p) ∈ dr_proposals r → s = pr_orchestrator_id p ∧ good_proposal r p;
  ro_votes : ∀ s v, (s, v) ∈ dr_votes r → s = vt_orchestrator_id v ∧ good_vote r v;
  ro_quorum : ∀ d, dr_quorum_digest r = Some d ↔
    (REQUIRED_QUORUM ≤ length (approvers d (dr_votes r)))%nat;
  ro_nonempty : Forall (λ d, d ≠ "") (known_digests r);
  ro_rejections : (length (dr_rejections r) ≤ REJECTION_EVIDENCE_LIMIT)%nat;
  ro_presence : dr_unavailable r ∪ dr_omitted r ∪ dr_timed_out r ∪ dr_delayed r
    ⊆ list_to_set ORCHESTRATOR_IDS;
  ro_latencies : nonneg (dr_proposal_latencies r) ∧ nonneg (dr_vote_latencies r);
}.

(** What a round keeps. *)
Record round_le (r r' : DecisionRound) : Prop := {
  le_request : dr_request r' = dr_request r;
  le_digest : dr_request_digest r' = dr_request_digest r;
  le_keys : dr_keys r' = dr_keys r;
  le_started : dr_started_at r' = dr_started_at r;
  le_proposals : dr_proposals r `prefix_of` dr_proposals r';
  le_votes : dr_votes r `prefix_of` dr_votes r';
  le_quorum : ∀ d, dr_quorum_digest r = Some d → dr_quorum_digest r' = Some d;
  le_terminal : dr_terminal r = true → dr_terminal r' = true ∧
    dr_proposals r' = dr_proposals r ∧ dr_votes r' = dr_votes r ∧
    dr_quorum_digest r' = dr_quorum_digest r;
}.

#[export] Instance round_le_preorder : PreOrder round_le.
Proof.
  split.
  - intros r. by constructor.
  - intros r1 r2 r3 [] []. constructor; try congruence; try (by etrans); [naive_solver |].
    intros Ht. destruct le_terminal0 as (Ht2 & E1 & E2 & E3); [done |].
    destruct le_terminal1 as (Ht3 & F1 & F2 & F3); [done |]. split_and!; congruence.
Qed.

Lemma approvers_universe r d : round_ok r → approvers d (dr_votes r) ⊆ ORCHESTRATOR_IDS.
Proof.
  intros Hr s (v & Hin & _)%elem_of_approvers. destruct (ro_votes _ Hr _ _ Hin) as [-> Hg].
  apply Hg.
Qed.

(** Two digests cannot both have two of the three votes. *)
Lemma approvers_unique (votes : list (string * OrchestratorVoteV1)) d d' :
  NoDup votes.*1 → votes.*1 ⊆ ORCHESTRATOR_IDS →
  (REQUIRED_QUORUM ≤ length (approvers d votes))%nat →
  (REQUIRED_QUORUM ≤ length (approvers d' votes))%nat → d = d'.
Proof.
  intros Hnd Hsub H1 H2. unfold REQUIRED_QUORUM in *.
  destruct (quorum_intersect ORCHESTRATOR_IDS (approvers d votes) (approvers d' votes))
    as (s & Hs & Hs').
  - by apply approvers_nodup.
  - by apply approvers_nodup.
  - intros x Hx. apply Hsub. eapply elem_of_submseteq; [exact Hx |].
    apply sublist_submseteq, approvers_sublist.
  - intros x Hx. apply Hsub. eapply elem_of_submseteq; [exact Hx |].
    apply sublist_submseteq, approvers_sublist.
  - cbn. lia.
  - apply elem_of_approvers in Hs as (v & Hv & _ & <-), Hs' as (v' & Hv' & _ & <-).
    apply od_elem_get in Hv, Hv'; [|done..]. cbn. congruence.
Qed.

Lemma votes_universe r : round_ok r → (dr_votes r).*1 ⊆ ORCHESTRATOR_IDS.
Proof.
  intros Hr s Hs. apply list_elem_of_fmap in Hs as ([s' v] & -> & Hin).
  destruct (ro_votes _ Hr _ _ Hin) as [-> Hg]. apply Hg.
Qed.

Lemma round_quorum_unique r d d' :
  round_ok r → (REQUIRED_QUORUM ≤ length (approvers d (dr_votes r)))%nat →
  (REQUIRED_QUORUM ≤ length (approvers d' (dr_votes r)))%nat → d = d'.
Proof.
  intros Hr. apply approvers_unique; [apply Hr | by apply votes_universe].
Qed.

(** ** Updates that keep the invariant *)
Lemma good_proposal_same r r' p :
  dr_request r' = dr_request r → dr_request_digest r' = dr_request_digest r →
  dr_keys r' = dr_keys r → good_proposal r p → good_proposal r' p.
Proof.
  intros E1 E2 E3 [[] ? ?]. constructor; [constructor | |]; rewrite ?E1, ?E2, ?E3; done.
Qed.

Lemma good_vote_mono r r' v :
  dr_request r' = dr_request r → dr_request_digest r' = dr_request_digest r →
  dr_keys r' = dr_keys r → dr_proposals r `prefix_of` dr_proposals r' →
  good_vote r v → good_vote r' v.
Proof.
  intros E1 E2 E3 [k Hk] [[] Hkn]. constructor; [constructor; rewrite ?E1, ?E2, ?E3; done |].
  unfold known_digests in *. rewrite Hk, map_app. set_solver.
Qed.

(** A round that differs only in evidence, presence, latencies and closing. *)
Lemma round_ok_frame r l u o t d p v b :
  round_ok r → (length l ≤ REJECTION_EVIDENCE_LIMIT)%nat → nonneg p → nonneg v →
  u ∪ o ∪ t ∪ d ⊆ list_to_set ORCHESTRATOR_IDS →
  (dr_terminal r = true → b = true) →
  let r' := with_terminal b (with_latencies p v (with_presence u o t d (with_rejections l r))) in
  round_ok r' ∧ round_le r r'.
Proof.
  intros [] Hl Hp Hv Hids Hb. split.
  - constructor; try done. + intros s x Hin. destruct (ro_proposals0 s x Hin) as [-> Hg].
    split; [done |]. by apply (good_proposal_same r).
    + intros s x Hin. destruct (ro_votes0 s x Hin) as [-> Hg]. split; [done |].
      by apply (good_vote_mono r).
  - constructor; try done. cbn. intros Ht. by split_and!; [apply Hb|..].
Qed.

Lemma quiet_round w w' :
  quiet w w' → round_ok (rw_round w) → round_ok (rw_round w') ∧ round_le (rw_round w) (rw_round w').
Proof.
  intros [(l & Hl & Hb) _] Hr. rewrite Hl.
  pose proof (round_ok_frame (rw_round w) l (dr_unavailable (rw_round w)) (dr_omitted (rw_round w))
    (dr_timed_out (rw_round w)) (dr_delayed (rw_round w)) (dr_proposal_latencies (rw_round w))
    (dr_vote_latencies (rw_round w)) (dr_terminal (rw_round w)) Hr (Hb (ro_rejections _ Hr))
    (proj1 (ro_latencies _ Hr)) (proj2 (ro_latencies _ Hr)) (ro_presence _ Hr) id) as Hframe.
  by destruct (rw_round w).
Qed.

Lemma add_proposal_ok r p :
  round_ok r → good_proposal r p → od_get (pr_orchestrator_id p) (dr_proposals r) = None →
  dr_terminal r = false → pr_proposal_digest p ≠ "" →
  let r' := with_messages (od_set (pr_orchestrator_id p) p (dr_proposals r)) (dr_votes r)
    (dr_quorum_digest r) (dr_quorum_at r) r in
  round_ok r' ∧ round_le r r'.
Proof.
  intros [] Hg Hnew Ht Hne. cbn zeta. rewrite od_set_new by done. split.
  - constructor; try done; cbn.
    + rewrite <-od_set_new by done. by apply od_set_nodup.
    + intros s x [Hin|Hin]%elem_of_app.
      * destruct (ro_proposals0 s x Hin) as [-> Hgx]. split; [done |]. by apply (good_proposal_same r).
      * apply list_elem_of_singleton in Hin as [= -> ->]. split; [done |].
        by apply (good_proposal_same r).
    + intros s x Hin. destruct (ro_votes0 s x Hin) as [-> Hgx]. split; [done |].
      eapply good_vote_mono; [| | | |exact Hgx]; try done. cbn. by eexists.
    + unfold known_digests. cbn. rewrite map_app. apply Forall_app. split; [done |].
      by repeat constructor.
  - constructor; try done; cbn; [by eexists | congruence].
Qed.

Lemma add_vote_ok now r v :
  round_ok r → good_vote r v → od_get (vt_orchestrator_id v) (dr_votes r) = None →
  dr_terminal r = false →
  let r' := update_quorum now (with_messages (dr_proposals r)
    (od_set (vt_orchestrator_id v) v (dr_votes r)) (dr_quorum_digest r) (dr_quorum_at r) r) in
  round_ok r' ∧ round_le r r'.
Proof.
  intros Hr Hg Hnew Ht. cbn zeta. rewrite od_set_new by done.
  set (votes := dr_votes r ++ _). set (r1 := with_messages _ votes _ _ r).
  assert (Hnd : NoDup votes.*1).
  { subst votes. rewrite <-od_set_new by done. apply od_set_nodup, Hr. }
  assert (Hvotes : ∀ s x, (s, x) ∈ votes → s = vt_orchestrator_id x ∧ good_vote r x).
  { intros s x [Hin|Hin]%elem_of_app; [by apply (ro_votes _ Hr) |].
    by apply list_elem_of_singleton in Hin as [= -> ->]. }
  assert (Hmono : ∀ d, (length (approvers d (dr_votes r)) ≤ length (approvers d votes))%nat).
  { intros d. subst votes. rewrite approvers_app, length_app. lia. }
  assert (Hold : ∀ d, dr_quorum_digest r = Some d → (2 ≤ length (approvers d votes))%nat).
  { intros d Hd. apply (ro_quorum _ Hr) in Hd. pose proof (Hmono d). unfold REQUIRED_QUORUM in Hd. lia. }
  pose proof (update_quorum_digest now r1 Hold) as Hq.
  pose proof (update_quorum_reached now r1) as Hreach. cbn [r1 dr_votes with_messages] in Hq, Hreach.
  assert (Hkeep : ∀ d, dr_quorum_digest r = Some d → dr_quorum_digest (update_quorum now r1) = Some d).
  { intros d Hd. unfold update_quorum.
    destruct (update_quorum_fold now (approvals (dr_votes r1)) r1) as [_ ->]. cbn. by rewrite Hd. }
  destruct (update_quorum_shape now r1) as (q & a & Heq). rewrite Heq in *.
  cbn [dr_quorum_digest with_messages] in *. destruct Hr. split.
  - constructor; try done; cbn.
    + intros s x Hin. destruct (ro_proposals0 s x Hin) as [-> Hgx]. split; [done |].
      by apply (good_proposal_same r).
    + intros s x Hin. destruct (Hvotes s x Hin) as [-> Hgx]. split; [done |].
      by apply (good_vote_mono r).
    + intros d. split; [apply Hq |]. intros Hge. destruct (Hreach d Hge) as [d' Hd'].
      rewrite Hd'. f_equal. eapply approvers_unique; [exact Hnd | | by apply Hq | exact Hge].
      intros s Hs. apply list_elem_of_fmap in Hs as ([s' x] & -> & Hin).
      destruct (Hvotes _ _ Hin) as [-> Hgx]. apply Hgx.
  - constructor; try done; cbn; [by eexists | congruence].
Qed.
End safety.

(** * Decisions

    [build_decision] on a well-formed round: it always returns (every validator
    of the decision contract, the firewall included, accepts what a round
    produces), and the decision says exactly what the votes say. *)
(** ** Values the orchestration firewall accepts *)
Definition safe_key (k : string) : bool :=
  negb (key_hits_forbidden k) && negb (extra_hits ORCHESTRATION_FORBIDDEN_KEYS k).

(** [clean n v]: accepted at any path, nesting at most [n] deep. *)
Definition clean (n : nat) (v : json) : Prop :=
  (∀ path, walk_keys key_hits_forbidden path v = []) ∧
  ∀ path depth, (depth + n ≤ MAX_NESTING_DEPTH)%nat → orchestration_walk path depth v = [].

Lemma clean_scalar n v :
  match v with JList _ | JDict _ => False | _ => True end → clean n v.
Proof.
  intros Hv. split; [by destruct v |]. intros path depth Hd.
  destruct v; try done; cbn [orchestration_walk];
    destruct (Nat.ltb_spec MAX_NESTING_DEPTH depth); (done || lia).
Qed.

Lemma clean_dict n d :
  (length d ≤ MAX_COLLECTION_ITEMS)%nat →
  Forall (λ kv, safe_key kv.1 = true ∧ clean n kv.2) d → clean (S n) (JDict d).
Proof.
  intros Hlen Hall. rewrite Forall_forall in Hall. split.
  - intros path. apply walk_keys_dict. intros k v Hin. destruct (Hall _ Hin) as [Hk [Hw _]].
    apply andb_true_iff in Hk as [Hk%negb_true_iff _]. by split.
  - intros path depth Hd. cbn [orchestration_walk].
    destruct (Nat.ltb_spec MAX_NESTING_DEPTH depth); [lia |].
    destruct (Nat.ltb_spec MAX_COLLECTION_ITEMS (length d)); [lia |]. clear Hlen H0.
    induction d as [|[k v] d IH]; [done |].
    destruct (Hall (k, v)) as [Hk [_ Hw]]; [set_solver |].
    apply andb_true_iff in Hk as [_ Hk%negb_true_iff]. cbn [fst] in Hk. rewrite Hk, Hw by (cbn; lia).
    cbn. apply IH. intros kv Hin. apply Hall. set_solver.
Qed.

Lemma clean_list n l :
  (length l ≤ MAX_COLLECTION_ITEMS)%nat → Forall (clean n) l → clean (S n) (JList l).
Proof.
  intros Hlen Hall. split.
  - intros path. rewrite walk_keys_list, walk_items_nil. intros j v Hj _.
    by apply (Forall_lookup_1 _ _ _ _ Hall Hj).
  - intros path depth Hd. cbn [orchestration_walk].
    destruct (Nat.ltb_spec MAX_NESTING_DEPTH depth); [lia |].
    destruct (Nat.ltb_spec MAX_COLLECTION_ITEMS (length l)); [lia |]. clear Hlen H0.
    generalize 0%nat as i. induction Hall as [|v l [_ Hv] Hall IH]; intros i; [done |].
    rewrite Hv by lia. cbn. apply IH.
Qed.

Lemma clean_map {A} n (f : A → json) l :
  (length l ≤ MAX_COLLECTION_ITEMS)%nat → (∀ x, clean n (f x)) → clean (S n) (JList (map f l)).
Proof.
  intros Hlen Hf. apply clean_list; [by rewrite length_map |].
  apply Forall_forall. intros v Hin. apply list_elem_of_In, in_map_iff in Hin as (x & <- & _). done.
Qed.

Lemma clean_safe n v what :
  (n ≤ MAX_NESTING_DEPTH)%nat → clean n v → assert_orchestration_safe v what = Ok tt.
Proof.
  intros Hn [Hw Ho]. unfold assert_orchestration_safe, find_orchestration_ground_truth,
    find_ground_truth_violations. by rewrite Hw, Ho.
Qed.

Lemma clean_weaken n m v : (n ≤ m)%nat → clean n v → clean m v.
Proof. intros Hle [Hw Ho]. split; [done |]. intros path depth Hd. apply Ho. lia. Qed.

Lemma clean_opt_str n o : clean n (json_opt_str o).
Proof. by destruct o; apply clean_scalar. Qed.
Lemma clean_opt_int n o : clean n (json_opt_int o).
Proof. by destruct o; apply clean_scalar. Qed.

#[local] Opaque clean.

(** A literal dictionary: check each key by evaluation, each value by [tac]. *)
Ltac clean_items tac :=
  apply clean_dict; [by apply Nat.leb_le; vm_compute |];
  repeat (apply Forall_cons; split; [split; [vm_compute; reflexivity | cbn [snd]; tac] |]);
  apply Forall_nil_2.

Ltac clean_leaf :=
  first [apply clean_opt_str | apply clean_opt_int | apply clean_scalar; exact I].

Lemma clean_proposal_summary s : clean 1 (proposal_summary_dump s).
Proof. clean_items clean_leaf. Qed.
Lemma clean_vote_summary s : clean 1 (vote_summary_dump s).
Proof. clean_items clean_leaf. Qed.
Lemma clean_rejection r : clean 1 (JDict (rejection_dump r)).
Proof. clean_items clean_leaf. Qed.
Lemma clean_strs l : (length l ≤ MAX_COLLECTION_ITEMS)%nat → clean 1 (json_strs l).
Proof. intros Hl. apply clean_map; [done |]. intros s. by apply clean_scalar. Qed.

(** The lists of a decision are short. *)
Record short_decision (d : OrchestrationDecisionV1) : Prop := {
  sd_lists : Forall (λ n, (n ≤ MAX_COLLECTION_ITEMS)%nat)
    [length (dec_proposal_summaries d); length (dec_vote_summaries d); length (dec_rejections d);
     length (dec_supporting_orchestrators d); length (dec_disagreeing_orchestrators d);
     length (dec_timed_out_orchestrators d); length (dec_delayed_orchestrators d);
     length (dec_omitted_orchestrators d); length (dec_unavailable_orchestrators d)];
  sd_provenance : clean 1 (JDict (dec_provenance d));
}.

Lemma clean_decision d : short_decision d → clean 3 (decision_dump d).
Proof.
  intros [Hl Hp]. rewrite !Forall_cons in Hl.
  destruct Hl as (H1 & H2 & H3 & H4 & H5 & H6 & H7 & H8 & H9 & _).
  assert (Hs : ∀ l, (length l ≤ MAX_COLLECTION_ITEMS)%nat → clean 2 (json_strs l))
    by (intros l Hl; apply (clean_weaken 1), clean_strs, Hl; by apply Nat.leb_le).
  apply (clean_weaken 1) with (m := 2%nat) in Hp; [|by apply Nat.leb_le].
  assert (Hps : clean 2 (JList (map proposal_summary_dump (dec_proposal_summaries d))))
    by (apply (clean_map 1), clean_proposal_summary; exact H1).
  assert (Hvs : clean 2 (JList (map vote_summary_dump (dec_vote_summaries d))))
    by (apply (clean_map 1), clean_vote_summary; exact H2).
  assert (Hrj : clean 2 (JList (map (JDict ∘ rejection_dump) (dec_rejections d))))
    by (apply (clean_map 1), clean_rejection; exact H3).
  apply Hs in H4, H5, H6, H7, H8, H9. clear Hs H1 H2 H3.
  unfold decision_dump. clean_items ltac:(first
    [assumption | clean_leaf | destruct (dec_quorum_latency_ms d); apply clean_scalar; exact I]).
Qed.

Section decisions.
Context `{PyRuntime}.

(** ** What a valid request gives *)
Lemma request_parts r :
  request_validate r = Ok tt →
  NoDup (route_ids r) ∧ rq_candidate_routes r ≠ [] ∧
  opt_nat_field "window_id" (rq_window_id r) = Ok tt ∧
  ∀ route, route ∈ route_ids r → route ≠ "".
Proof.
  unfold request_validate. intros (u & Hf & Hc)%result_bind_ok.
  apply as_validation_error_ok, first_error_ok in Hf.
  apply as_validation_error_ok in Hc. unfold validate_content in Hc. apply first_error_ok in Hc.
  apply Forall_cons in Hc as [Hnd%check_ok _]. apply bool_decide_eq_true in Hnd.
  rewrite !Forall_app, Forall_fmap in Hf. destruct Hf as (_ & Hroutes & Hrest).
  apply Forall_cons in Hrest as [Hlen%check_ok Hrest].
  apply Forall_cons in Hrest as [_ Hrest]. apply Forall_cons in Hrest as [Hwin _].
  split_and!; [done | | done |].
  - intros Hnil. by rewrite Hnil in Hlen.
  - intros route (c & -> & Hin)%list_elem_of_fmap He. rewrite Forall_forall in Hroutes.
    specialize (Hroutes c Hin). unfold compose, validate_route in Hroutes.
    apply first_error_ok, Forall_cons in Hroutes as [Hl%check_ok _].
    by rewrite He in Hl.
Qed.

(** ** Latencies are not negative *)
Lemma f_max_nonneg x : f_geb (f_max f_zero x) f_zero = true.
Proof.
  unfold f_max, f_gtb, f_geb. destruct (SpecFloat.SFltb f_zero x) eqn:Hlt; [|done].
  unfold SpecFloat.SFltb in Hlt. unfold SpecFloat.SFleb.
  by destruct (SpecFloat.SFcompare f_zero x) as [[]|].
Qed.

Lemma default_nonneg l (k : string) : nonneg l → f_geb (default f_zero (l !! k)) f_zero = true.
Proof. intros Hl. destruct (l !! k) as [x|] eqn:Hx; [by apply (Hl k x) | done]. Qed.

(** ** The verdict *)
Lemma selected_route_spec r d :
  round_ok r → dr_quorum_digest r = Some d →
  ∃ s p, (s, p) ∈ dr_proposals r ∧ pr_proposal_digest p = d ∧
    selected_route d r = Ok (pr_proposed_route_id p).
Proof.
  intros Hr Hd. apply (ro_quorum _ Hr) in Hd.
  destruct (approvers d (dr_votes r)) as [|s l] eqn:Ha; [cbn in Hd; unfold REQUIRED_QUORUM in Hd; lia |].
  assert (Hs : s ∈ approvers d (dr_votes r)) by (rewrite Ha; set_solver).
  apply elem_of_approvers in Hs as (v & Hv & _ & Hsel). cbn in Hsel.
  destruct (ro_votes _ Hr _ _ Hv) as [_ [_ Hk]]. rewrite Hsel in Hk.
  unfold known_digests in Hk. apply list_elem_of_fmap in Hk as (kv & Hdig & Hin).
  unfold selected_route.
  assert (Hf : kv ∈ filter (λ kv, pr_proposal_digest kv.2 = d) (dr_proposals r))
    by (by apply list_elem_of_filter).
  destruct (filter _ _) as [|[s' p] l'] eqn:Hfl; [set_solver |].
  assert (Hin' : (s', p) ∈ filter (λ kv, pr_proposal_digest kv.2 = d) (dr_proposals r))
    by (rewrite Hfl; set_solver).
  apply list_elem_of_filter in Hin' as [Hd' Hin'].
  by exists s', p.
Qed.

Lemma quorum_digest_nonempty r d : round_ok r → dr_quorum_digest r = Some d → d ≠ "".
Proof.
  intros Hr Hd. destruct (selected_route_spec r d Hr Hd) as (s & p & Hin & <- & _).
  pose proof (ro_nonempty _ Hr) as Hne. rewrite Forall_forall in Hne. apply Hne.
  unfold known_digests. apply list_elem_of_fmap. by exists (s, p).
Qed.

(** The four outcomes, by quorum, deadline and number of votes. *)
Definition verdict_spec (r : DecisionRound) (route : option string)
    (outcome : OrchestrationOutcome) : Prop :=
  match dr_quorum_digest r with
  | Some d => outcome = DECIDED ∧ ∃ s p, (s, p) ∈ dr_proposals r ∧ pr_proposal_digest p = d ∧
      route = Some (pr_proposed_route_id p)
  | None => route = None ∧
      outcome = if decide (dr_timed_out r = ∅)
                then if decide (length (dr_votes r) < REQUIRED_QUORUM)%nat
                     then INSUFFICIENT_RESPONSES else NO_QUORUM
                else TIMED_OUT
  end.

Lemma round_verdict_spec r :
  round_ok r →
  ∃ route outcome reason, round_verdict r = Ok (route, outcome, reason) ∧
    verdict_spec r route outcome.
Proof.
  intros Hr. unfold round_verdict, verdict_spec.
  destruct (dr_quorum_digest r) as [d|] eqn:Hd; cbn [truthy_str default].
  - rewrite bool_decide_false by (by eapply quorum_digest_nonempty). cbn [negb].
    destruct (selected_route_spec r d Hr Hd) as (s & p & Hin & Hdig & Hsel).
    cbn [from_option id]. rewrite Hsel. cbn.
    do 3 eexists. split; [done |]. split; [done |]. by exists s, p.
  - unfold bool_decide. destruct (decide_rel (=) (dr_timed_out r) ∅), (decide (dr_timed_out r = ∅));
      try done; cbn [negb]; [|by do 3 eexists].
    destruct (Nat.ltb_spec (length (dr_votes r)) REQUIRED_QUORUM);
      destruct (decide (length (dr_votes r) < REQUIRED_QUORUM)%nat); try lia; by do 3 eexists.
Qed.

(** ** The decision's lists are short *)
Lemma ids_short (l : list string) : NoDup l → l ⊆ ORCHESTRATOR_IDS → (length l ≤ 3)%nat.
Proof.
  intros Hnd Hsub. change 3%nat with (length ORCHESTRATOR_IDS).
  by apply submseteq_length, NoDup_submseteq.
Qed.

Lemma proposals_short r : round_ok r → (length (dr_proposals r) ≤ 3)%nat.
Proof.
  intros Hr. rewrite <-(length_fmap fst). apply ids_short; [apply Hr |].
  intros s ([s' p] & -> & Hin)%list_elem_of_fmap.
  destruct (ro_proposals _ Hr _ _ Hin) as [-> Hg]. apply Hg.
Qed.

Lemma votes_short r : round_ok r → (length (dr_votes r) ≤ 3)%nat.
Proof.
  intros Hr. rewrite <-(length_fmap fst). apply ids_short; [apply Hr | by apply votes_universe].
Qed.

Lemma senders_where_short p votes : (length (senders_where p votes) ≤ length votes)%nat.
Proof.
  unfold senders_where. rewrite sort_strings_perm, length_map. apply length_filter.
Qed.

Lemma sorted_set_short (s : gset string) :
  s ⊆ list_to_set ORCHESTRATOR_IDS → (length (sorted_set s) ≤ 3)%nat.
Proof.
  intros Hs. unfold sorted_set. rewrite sort_strings_perm.
  apply ids_short; [apply NoDup_elements |]. set_solver.
Qed.

Lemma short_decision_of r id now utc route outcome reason :
  round_ok r → short_decision (decision_of r id now utc route outcome reason).
Proof.
  intros Hr. assert (H3 : (3 ≤ MAX_COLLECTION_ITEMS)%nat) by (by apply Nat.leb_le).
  assert (H64 : (REJECTION_EVIDENCE_LIMIT ≤ MAX_COLLECTION_ITEMS)%nat) by (by apply Nat.leb_le).
  pose proof (proposals_short r Hr). pose proof (votes_short r Hr).
  pose proof (ro_rejections _ Hr). pose proof (ro_presence _ Hr) as Hp.
  constructor; cbn -[Nat.le MAX_COLLECTION_ITEMS].
  - repeat (apply Forall_cons; split); try apply Forall_nil_2; rewrite ?length_map;
      [lia | lia | lia | | | | | |].
    1,2: etrans; [apply senders_where_short | lia].
    all: etrans; [apply sorted_set_short; set_solver | exact H3].
  - clean_items clean_leaf.
Qed.

Lemma decision_valid r id now utc route outcome reason :
  round_ok r → verdict_spec r route outcome →
  decision_validate (decision_of r id now utc route outcome reason) = Ok tt.
Proof.
  intros Hr Hv. destruct (ro_latencies _ Hr) as [Hlp Hlv].
  destruct (request_parts _ (ro_request _ Hr)) as (_ & _ & Hwin & Hroute).
  unfold decision_validate. apply result_bind_ok. exists tt. split.
  - apply as_validation_error_ok, first_error_ok. rewrite !Forall_app. cbn [decision_of
      dec_proposal_summaries dec_vote_summaries]. rewrite !Forall_fmap. split_and!.
    + apply Forall_forall. intros kv _. apply check_ok, default_nonneg, Hlp.
    + apply Forall_forall. intros kv _. apply check_ok, default_nonneg, Hlv.
    + repeat constructor; [|apply check_ok, f_max_nonneg | exact Hwin]. cbn.
      destruct (dr_quorum_at r); [|done]. apply check_ok, f_max_nonneg.
  - apply as_validation_error_ok. unfold consistent_outcome. apply result_bind_ok. exists tt. split.
    + unfold verdict_spec in Hv. cbn [dec_outcome dec_quorum_formed dec_selected_route_id
        dec_selected_proposal_digest decision_of].
      destruct (dr_quorum_digest r) as [d|].
      * destruct Hv as (-> & s & p & Hin & _ & ->). rewrite bool_decide_true by done.
        apply check_ok. cbn. apply negb_true_iff, bool_decide_eq_false. apply Hroute.
        by apply (ro_proposals _ Hr s p).
      * destruct Hv as [-> ->]. rewrite bool_decide_false; [done |]. by repeat case_decide.
    + apply (clean_safe 3); [by apply Nat.leb_le |]. by apply clean_decision, short_decision_of.
Qed.

Lemma with_terminal_ok r :
  round_ok r → round_ok (with_terminal true r) ∧ round_le r (with_terminal true r).
Proof.
  intros Hr. destruct (round_ok_frame r (dr_rejections r) (dr_unavailable r) (dr_omitted r)
    (dr_timed_out r) (dr_delayed r) (dr_proposal_latencies r) (dr_vote_latencies r) true)
    as [H1 H2]; [done | apply Hr.. | done |]. by destruct r.
Qed.

(** [build_decision] closes the round and returns a decision that reports it. *)
Lemma build_decision_run id now utc w :
  round_ok (rw_round w) →
  ∃ route outcome reason,
    verdict_spec (rw_round w) route outcome ∧
    build_decision id now utc w =
      (Ok (decision_of (rw_round w) id now utc route outcome reason),
       mk_world (with_terminal true (rw_round w)) (rw_cache w) (rw_instr w)).
Proof.
  intros Hr. destruct (with_terminal_ok _ Hr) as [Hr' _].
  destruct (round_verdict_spec _ Hr') as (route & outcome & reason & Hv & Hspec).
  exists route, outcome, reason. split; [done |].
  unfold build_decision, mbind, M_bind, on_round, modify, this_round, gets, lift. cbn [rw_round].
  rewrite Hv. rewrite decision_valid by done. done.
Qed.
End decisions.
