(* ===== verification/OrCoordinator.v ===== *)
(** * The orchestration coordinator

    Models [OrchestrationCoordinator] of [orchestration/coordinator.py].  Each
    replica has a single-worker executor; its calls are futures.  When a future
    completes, in which order a batch of completed futures is visited, what the
    monotonic clock reads and which queued futures a [cancel()] still stops are
    the environment's choice: [AdjEnv] gives them by counting the observation
    points (waits and checks) and the clock readings of the coordinator.  A
    worker call runs atomically when its future completes; it only touches its
    own replica. *)

From S2P Require Import Prelude PyString Json OrContracts OrReplica OrRound.

(** ** Futures *)
Inductive WorkerTask :=
  | TaskPropose (request : OrchestrationRequestV1)
  | TaskVote (request : OrchestrationRequestV1) (proposal : OrchestratorProposalV1).

Inductive Message :=
  | MsgProposal (p : OrchestratorProposalV1)
  | MsgVote (v : OrchestratorVoteV1).

Inductive FutureState :=
  | FRunning (rid : string) (task : WorkerTask)
  | FDone (out : result Message)
  | FCancelled.

Definition future_done (f : option FutureState) : bool :=
  match f with Some (FRunning _ _) => false | _ => true end.

(** ** Coordinator state *)
Definition RoundKey : Type := string * Z * string.

Definition round_key (request : OrchestrationRequestV1) : RoundKey :=
  (rq_request_id request, rq_request_version request, rq_round_id request).

Record OrchestrationCoordinator := mk_or_coordinator {
  oc_replicas : list OrchestratorReplica;
  oc_verifier : MessageVerifier;
  oc_instrumentation : OrchestrationInstrumentation;
  oc_replay_cache : BoundedReplayCache;
  oc_round_history_limit : Z;
  oc_rounds : list (RoundKey * DecisionRound);
  oc_active_keys : gset RoundKey;
  oc_futures : gmap nat FutureState;
  oc_next_future : nat;
  oc_inflight : gmap string nat;
  oc_closed : bool;
  (** clock readings and observation points so far *)
  oc_ticks : nat;
  oc_points : nat;
}.

Definition or_replica_ids (replicas : list OrchestratorReplica) : list string :=
  map orr_orchestrator_id replicas.

(** [__init__].  The replicas are values here, so two of them are never the same
    object. *)
Definition new_or_coordinator (replicas : list OrchestratorReplica) (keys : gmap string string)
    (replay_cache_limit round_history_limit : Z)
    (instrumentation : option OrchestrationInstrumentation) : result OrchestrationCoordinator :=
  _ ← check ((length replicas =? 3)%nat
             && bool_decide (list_to_set (or_replica_ids replicas)
                             =@{gset string} list_to_set ORCHESTRATOR_IDS)) ValueError
        "exact orchestrator identities required";
  _ ← check (bool_decide (dom keys =@{gset string} list_to_set ORCHESTRATOR_IDS)) ValueError
        "one independent authentication key per orchestrator is required";
  _ ← check (1 <=? round_history_limit) ValueError "round_history_limit must be positive";
  instr ← match instrumentation with Some i => Ok i | None => new_or_instrumentation 256 64 end;
  cache ← new_replay_cache replay_cache_limit;
  Ok (mk_or_coordinator replicas (mk_verifier keys) instr cache round_history_limit [] ∅ ∅ 0 ∅
        false 0 0).

Definition OM (A : Type) : Type := M OrchestrationCoordinator A.

(** *** State updates *)
Definition set_shared (rounds : list (RoundKey * DecisionRound)) (cache : BoundedReplayCache)
    (instr : OrchestrationInstrumentation) (c : OrchestrationCoordinator)
    : OrchestrationCoordinator :=
  mk_or_coordinator (oc_replicas c) (oc_verifier c) instr cache (oc_round_history_limit c)
    rounds (oc_active_keys c) (oc_futures c) (oc_next_future c) (oc_inflight c) (oc_closed c)
    (oc_ticks c) (oc_points c).

Definition set_workers (replicas : list OrchestratorReplica) (futures : gmap nat FutureState)
    (next : nat) (inflight : gmap string nat) (c : OrchestrationCoordinator)
    : OrchestrationCoordinator :=
  mk_or_coordinator replicas (oc_verifier c) (oc_instrumentation c) (oc_replay_cache c)
    (oc_round_history_limit c) (oc_rounds c) (oc_active_keys c) futures next inflight
    (oc_closed c) (oc_ticks c) (oc_points c).

Definition set_control (active : gset RoundKey) (closed : bool) (ticks points : nat)
    (c : OrchestrationCoordinator) : OrchestrationCoordinator :=
  mk_or_coordinator (oc_replicas c) (oc_verifier c) (oc_instrumentation c) (oc_replay_cache c)
    (oc_round_history_limit c) (oc_rounds c) active (oc_futures c) (oc_next_future c)
    (oc_inflight c) closed ticks points.

Definition set_active (active : gset RoundKey) (c : OrchestrationCoordinator)
    : OrchestrationCoordinator :=
  set_control active (oc_closed c) (oc_ticks c) (oc_points c) c.

(** *** Lenses *)
Definition with_instr {A} (f : M OrchestrationInstrumentation A) : OM A := λ c,
  let '(out, i) := f (oc_instrumentation c) in
  (out, set_shared (oc_rounds c) (oc_replay_cache c) i c).

(** Run a round operation on the round object stored under [key]. *)
Definition with_round {A} (key : RoundKey) (f : RM A) : OM A := λ c,
  match od_get key (oc_rounds c) with
  | None => (raise KeyError "round", c)
  | Some r =>
      let '(out, w) := f (mk_world r (oc_replay_cache c) (oc_instrumentation c)) in
      (out, set_shared (od_set key (rw_round w) (oc_rounds c)) (rw_cache w) (rw_instr w) c)
  end.

Definition update_replica (rid : string) (f : OrchestratorReplica → OrchestratorReplica)
    (rs : list OrchestratorReplica) : list OrchestratorReplica :=
  map (λ r, if decide (orr_orchestrator_id r = rid) then f r else r) rs.

Definition on_orchestrator (rid : string) (f : OrchestratorReplica → OrchestratorReplica) : OM unit :=
  modify (λ c, set_workers (update_replica rid f (oc_replicas c)) (oc_futures c)
                 (oc_next_future c) (oc_inflight c) c).

Definition find_orchestrator (rid : string) (rs : list OrchestratorReplica)
    : option OrchestratorReplica :=
  head (filter (λ r, orr_orchestrator_id r = rid) rs).

(** [try: m except Exception as e: h(e)], [try: m finally: f]. *)
Definition try_except {A} (m : OM A) (h : exn → OM A) : OM A := λ c,
  match m c with
  | (Ok a, c') => (Ok a, c')
  | (Raise e, c') => h e c'
  end.

Definition try_finally {A} (m : OM A) (f : OM unit) : OM A := λ c,
  let '(out, c') := m c in
  match f c' with
  | (Ok _, c'') => (out, c'')
  | (Raise e, c'') => (Raise e, c'')
  end.

(** ** Surroundings of one adjudication *)
Record AdjEnv := mk_adj_env {
  (** the k-th reading of the monotonic clock *)
  ae_clock : nat → f64;
  (** the futures that complete before the k-th observation point, each with the
      surroundings of its worker call; their order is the order in which the
      batch is visited *)
  ae_events : nat → list (nat * WorkerEnv);
  (** the futures that had not started when they are cancelled *)
  ae_unstarted : list nat;
  ae_decision_id : string;
  ae_utc_now : string;
}.

Definition tick (env : AdjEnv) : OM f64 := λ c,
  (Ok (ae_clock env (oc_ticks c)),
   set_control (oc_active_keys c) (oc_closed c) (S (oc_ticks c)) (oc_points c) c).

Section coordinator.
Context `{PyRuntime}.

(** ** Workers *)
Definition run_task (env : WorkerEnv) (task : WorkerTask) : M OrchestratorReplica Message :=
  match task with
  | TaskPropose request => p ← orchestrator_propose env request; mret (MsgProposal p)
  | TaskVote request proposal => v ← orchestrator_vote env request proposal; mret (MsgVote v)
  end.

(** [_clear_inflight]. *)
Definition clear_inflight (rid : string) (fid : nat) (inflight : gmap string nat)
    : gmap string nat :=
  if bool_decide (inflight !! rid = Some fid) then delete rid inflight else inflight.

(** A running future completes: its task runs, its done callback fires. *)
Definition complete (fid : nat) (env : WorkerEnv) (c : OrchestrationCoordinator)
    : OrchestrationCoordinator :=
  match oc_futures c !! fid with
  | Some (FRunning rid task) =>
      match find_orchestrator rid (oc_replicas c) with
      | Some r =>
          let '(out, r') := run_task env task r in
          set_workers (update_replica rid (λ _, r') (oc_replicas c))
            (<[fid := FDone out]> (oc_futures c)) (oc_next_future c)
            (clear_inflight rid fid (oc_inflight c)) c
      | None => c
      end
  | _ => c
  end.

(** Pass an observation point: what completed before it. *)
Definition observe_point (env : AdjEnv) : OM (list nat) := λ c,
  let events := ae_events env (oc_points c) in
  let c' := foldl (λ c fe, complete fe.1 fe.2 c) c events in
  (Ok (map fst events),
   set_control (oc_active_keys c') (oc_closed c') (oc_ticks c') (S (oc_points c)) c').

(** The done futures of [pending], in the order of [order] first. *)
Definition done_among (order pending : list nat) (c : OrchestrationCoordinator) : list nat :=
  let done_ := filter (λ f, Is_true (future_done (oc_futures c !! f))) pending in
  remove_dups (filter (.∈ done_) order) ++ filter (.∉ order) done_.

Definition wait_done (env : AdjEnv) (pending : list nat) : OM (list nat) :=
  order ← observe_point env;
  gets (done_among order pending).

(** [_submit]. *)
Definition submit (rid : string) (task : WorkerTask) : OM (option nat) := λ c,
  match oc_inflight c !! rid with
  | Some prior =>
      if negb (future_done (oc_futures c !! prior)) then (Ok None, c)
      else if oc_closed c then (raise RuntimeError "cannot schedule new futures after shutdown", c)
      else let n := oc_next_future c in
        (Ok (Some n), set_workers (oc_replicas c) (<[n := FRunning rid task]> (oc_futures c)) (S n)
           (<[rid := n]> (oc_inflight c)) c)
  | None =>
      if oc_closed c then (raise RuntimeError "cannot schedule new futures after shutdown", c)
      else let n := oc_next_future c in
        (Ok (Some n), set_workers (oc_replicas c) (<[n := FRunning rid task]> (oc_futures c)) (S n)
           (<[rid := n]> (oc_inflight c)) c)
  end.

(** [_inflight_for]; the prior future may have completed since [_submit]. *)
Definition inflight_for (env : AdjEnv) (rid : string) : OM (option nat) :=
  _ ← observe_point env;
  gets (λ c, match oc_inflight c !! rid with
             | Some f => if future_done (oc_futures c !! f) then None else Some f
             | None => None
             end).

(** [future.cancel()]: it stops a future that has not started. *)
Definition cancel_future (env : AdjEnv) (fid : nat) : OM unit := modify (λ c,
  match oc_futures c !! fid with
  | Some (FRunning rid _) =>
      if bool_decide (fid ∈ ae_unstarted env) then
        set_workers (oc_replicas c) (<[fid := FCancelled]> (oc_futures c)) (oc_next_future c)
          (clear_inflight rid fid (oc_inflight c)) c
      else c
  | _ => c
  end).

(** ** Rounds *)

(** The eviction loop of [new_round]; it stops at an active round. *)
Fixpoint evict_rounds (fuel : nat) (limit : Z) (active : gset RoundKey)
    (rounds : list (RoundKey * DecisionRound)) : list (RoundKey * DecisionRound) :=
  match fuel, rounds with
  | S fuel, (k, _) :: rest =>
      if limit <? Z.of_nat (length rounds) then
        if bool_decide (k ∈ active) then rounds else evict_rounds fuel limit active rest
      else rounds
  | _, _ => rounds
  end.

(** [new_round]: the round of the request's key, created if there is none. *)
Definition new_round (env : AdjEnv) (request : OrchestrationRequestV1) : OM unit :=
  let key := round_key request in
  c ← get;
  match od_get key (oc_rounds c) with
  | Some existing =>
      digest ← lift (request_digest request);
      guardM (bool_decide (dr_request_digest existing = digest)) ValueError
        "round identity reused with different request content"
  | None =>
      now ← tick env;
      round_state ← lift (new_round_state request (oc_verifier c) now);
      modify (λ c, let rounds := od_set key round_state (oc_rounds c) in
        set_shared (evict_rounds (length rounds) (oc_round_history_limit c) (oc_active_keys c) rounds)
          (oc_replay_cache c) (oc_instrumentation c) c)
  end.

Definition round_at (key : RoundKey) : OM DecisionRound := with_round key this_round.

(** [preflight]. *)
Definition preflight (env : AdjEnv) (request : OrchestrationRequestV1) : OM unit :=
  let key := round_key request in
  _ ← new_round env request;
  r ← round_at key;
  c ← get;
  guardM (negb (dr_terminal r || bool_decide (key ∈ oc_active_keys c))) ValueError
    "request/version/round is already active or terminal".

(** *** Presence marks *)
Definition mark_unavailable (key : RoundKey) (rid : string) : OM unit :=
  with_round key (on_round (λ r, with_presence ({[rid]} ∪ dr_unavailable r) (dr_omitted r)
    (dr_timed_out r) (dr_delayed r) r)).

Definition mark_omitted (key : RoundKey) (rid detail : string) : OM unit :=
  _ ← with_round key (on_round (λ r, with_presence (dr_unavailable r) ({[rid]} ∪ dr_omitted r)
    (dr_timed_out r) (dr_delayed r) r));
  _ ← on_orchestrator rid (note_omission detail);
  with_instr (or_increment "orchestrator_omissions" 1).

Definition mark_timed_out (key : RoundKey) (rid : string) : OM unit :=
  _ ← with_round key (on_round (λ r, with_presence (dr_unavailable r) (dr_omitted r)
    ({[rid]} ∪ dr_timed_out r) (dr_delayed r) r));
  _ ← on_orchestrator rid note_timeout;
  with_instr (or_increment "orchestrator_timeouts" 1).

Definition mark_delayed (key : RoundKey) (rid : string) : OM unit :=
  _ ← with_round key (on_round (λ r, with_presence (dr_unavailable r) (dr_omitted r)
    (dr_timed_out r) ({[rid]} ∪ dr_delayed r) r));
  _ ← on_orchestrator rid note_delay;
  with_instr (or_increment "orchestrator_delays" 1).

(** ** Consuming completed futures *)

(** The three dictionaries of [adjudicate], keyed by future: the replica and,
    for this round's own calls, the clock reading at submission. *)
Record Phases := mk_phases {
  ph_proposals : list (nat * (string * f64));
  ph_votes : list (nat * (string * f64));
  ph_busy : list (nat * string);
}.

Definition note_if_unauthenticated (rid status : string) : OM unit :=
  if bool_decide (status ∈ ["AUTHENTICATION_FAILED"; "AUTH_IDENTITY_MISMATCH";
                            "MESSAGE_HASH_MISMATCH"])
  then on_orchestrator rid note_authentication_failure else mret tt.

Definition consume_proposal (env : AdjEnv) (key : RoundKey) (request : OrchestrationRequestV1)
    (rid : string) (latency_ms : f64) (p : OrchestratorProposalV1) (ph : Phases) : OM Phases :=
  status ← with_round key (accept_proposal p);
  _ ← note_if_unauthenticated rid status;
  _ ← with_round key (on_round (λ r, with_latencies
        (<[rid := latency_ms]> (dr_proposal_latencies r)) (dr_vote_latencies r) r));
  _ ← with_instr (or_latency "proposal_ms" latency_ms);
  if bool_decide (status = "ACCEPTED") then
    vote_future ← submit rid (TaskVote request p);
    match vote_future with
    | None => _ ← mark_delayed key rid; mret ph
    | Some f =>
        now ← tick env;
        mret (mk_phases (ph_proposals ph) (od_set f (rid, now) (ph_votes ph)) (ph_busy ph))
    end
  else mret ph.

Definition consume_vote (env : AdjEnv) (key : RoundKey) (rid : string) (latency_ms : f64)
    (v : OrchestratorVoteV1) (ph : Phases) : OM Phases :=
  now ← tick env;
  status ← with_round key (accept_vote now v);
  _ ← note_if_unauthenticated rid status;
  _ ← with_round key (on_round (λ r, with_latencies (dr_proposal_latencies r)
        (<[rid := latency_ms]> (dr_vote_latencies r)) r));
  _ ← with_instr (or_latency "vote_ms" latency_ms);
  mret ph.

(** [future.result()]. *)
Definition future_result (fid : nat) : OM Message := λ c,
  match oc_futures c !! fid with
  | Some (FDone out) => (out, c)
  | _ => (raise (OtherError "CancelledError") "", c)
  end.

(** What a failed call leaves: unavailable, omitted with its own message, or
    omitted with the exception's class. *)
Definition consume_failure (key : RoundKey) (rid : string) (e : exn) : OM unit :=
  if bool_decide (exn_type e = OrchestratorUnavailableError) then mark_unavailable key rid
  else if bool_decide (exn_type e = OrchestratorOmissionError)
  then mark_omitted key rid (if bool_decide (exn_msg e = "") then "OMITTED" else exn_msg e)
  else mark_omitted key rid (exn_class_name (exn_type e)).

(** One iteration of [_consume_phases].  A future of the proposal dictionary is a
    [propose] call and one of the vote dictionary a [vote] call, so the last
    case does not arise. *)
Definition consume_future (env : AdjEnv) (key : RoundKey) (request : OrchestrationRequestV1)
    (ph : Phases) (fid : nat) : OM Phases :=
  let proposal_context := od_get fid (ph_proposals ph) in
  let vote_context := od_get fid (ph_votes ph) in
  let ph' := mk_phases (od_del fid (ph_proposals ph)) (od_del fid (ph_votes ph)) (ph_busy ph) in
  match (match proposal_context with Some x => Some x | None => vote_context end) with
  | None => mret ph'
  | Some (rid, started) =>
      try_except
        (message ← future_result fid;
         now ← tick env;
         let latency_ms := elapsed_ms now started in
         match is_some proposal_context, message with
         | true, MsgProposal p => consume_proposal env key request rid latency_ms p ph'
         | false, MsgVote v => consume_vote env key rid latency_ms v ph'
         | _, _ => throw (OtherError "AttributeError") ""
         end)
        (λ e, _ ← consume_failure key rid e; mret ph')
  end.

Definition consume_phases (env : AdjEnv) (key : RoundKey) (request : OrchestrationRequestV1)
    (ph : Phases) (futures : list nat) : OM Phases :=
  foldM (consume_future env key request) ph futures.

(** ** Adjudication *)

(** Submit a proposal call to every available replica; one that is still busy
    with an earlier round is waited for. *)
Definition submit_all (env : AdjEnv) (key : RoundKey) (request : OrchestrationRequestV1)
    (ids : list string) : OM Phases :=
  foldM (λ ph rid,
    c ← get;
    if negb (default false (orr_available <$> find_orchestrator rid (oc_replicas c))) then
      _ ← mark_unavailable key rid; mret ph
    else
      future ← submit rid (TaskPropose request);
      match future with
      | None =>
          prior ← inflight_for env rid;
          mret (match prior with
                | Some f => mk_phases (ph_proposals ph) (ph_votes ph) (od_set f rid (ph_busy ph))
                | None => ph
                end)
      | Some f =>
          now ← tick env;
          mret (mk_phases (od_set f (rid, now) (ph_proposals ph)) (ph_votes ph) (ph_busy ph))
      end) (mk_phases [] [] []) ids.

(** Replicas that finished their earlier call get this round's. *)
Definition resubmit_busy (env : AdjEnv) (request : OrchestrationRequestV1) (ph : Phases)
    (completed : list nat) : OM Phases :=
  foldM (λ ph prior,
    match od_get prior (ph_busy ph) with
    | None => mret ph
    | Some rid =>
        let ph := mk_phases (ph_proposals ph) (ph_votes ph) (od_del prior (ph_busy ph)) in
        new_future ← submit rid (TaskPropose request);
        match new_future with
        | None => mret ph
        | Some f =>
            now ← tick env;
            mret (mk_phases (od_set f (rid, now) (ph_proposals ph)) (ph_votes ph) (ph_busy ph))
        end
    end) ph completed.

Definition own_futures (ph : Phases) : list nat := (ph_proposals ph).*1 ++ (ph_votes ph).*1.
Definition pending_futures (ph : Phases) : list nat := own_futures ph ++ (ph_busy ph).*1.

(** What a future still owes: a busy one a proposal and a vote, a proposal a
    vote. *)
Definition phase_measure (ph : Phases) : nat :=
  (3 * length (ph_busy ph) + 2 * length (ph_proposals ph) + length (ph_votes ph))%nat.

(** The waiting loop; [None] would be a fuel that was too small. *)
Fixpoint wait_loop (fuel : nat) (env : AdjEnv) (key : RoundKey)
    (request : OrchestrationRequestV1) (deadline : f64) (ph : Phases) : OM (option Phases) :=
  match fuel with
  | O => mret None
  | S fuel =>
      r ← round_at key;
      if (match pending_futures ph with [] => true | _ => false end)
         || is_some (dr_quorum_digest r)
      then mret (Some ph)
      else
        now ← tick env;
        if f_leb (f_sub deadline now) f_zero then mret (Some ph)
        else
          completed ← wait_done env (pending_futures ph);
          match completed with
          | [] => mret (Some ph)
          | _ =>
              ph ← consume_phases env key request ph completed;
              ph ← resubmit_busy env request ph completed;
              wait_loop fuel env key request deadline ph
          end
  end.

(** The replicas that still owe an answer, each once. *)
Definition pending_replicas (ph : Phases) : list string :=
  remove_dups (map (λ x, x.2.1) (ph_proposals ph) ++ map (λ x, x.2.1) (ph_votes ph)
               ++ (ph_busy ph).*2).

(** What follows the loop: late results, then the replicas that did not answer. *)
Definition finish_round (env : AdjEnv) (key : RoundKey) (request : OrchestrationRequestV1)
    (deadline : f64) (ph : Phases) : OM unit :=
  completed_now ← wait_done env (own_futures ph);
  ph ← consume_phases env key request ph completed_now;
  now ← tick env;
  _ ← foldM (λ _ rid, if f_geb now deadline then mark_timed_out key rid
                      else mark_delayed key rid) tt (pending_replicas ph);
  foldM (λ _ f, cancel_future env f) tt (own_futures ph).

Definition run_round (env : AdjEnv) (key : RoundKey) (request : OrchestrationRequestV1)
    (deadline : f64) : OM unit :=
  c ← get;
  ph ← submit_all env key request (or_replica_ids (oc_replicas c));
  looped ← wait_loop (S (phase_measure ph)) env key request deadline ph;
  finish_round env key request deadline (default ph looped).

(** The [finally] clause. *)
Definition release_round (key : RoundKey) : OM unit :=
  _ ← with_round key (on_round close_round);
  modify (λ c, set_active (oc_active_keys c ∖ {[key]}) c).

(** Under the lock: the round must be open, then its key is active. *)
Definition claim_round (env : AdjEnv) (request : OrchestrationRequestV1) : OM unit :=
  let key := round_key request in
  c ← get;
  _ ← guardM (negb (oc_closed c)) ValueError "coordinator is closed";
  _ ← new_round env request;
  r ← round_at key;
  _ ← guardM (negb (dr_terminal r)) ValueError "request/version/round is already terminal";
  modify (λ c, set_active ({[key]} ∪ oc_active_keys c) c).

Definition outcome_counter (o : OrchestrationOutcome) : string :=
  match o with
  | DECIDED => "decisions_reached"
  | NO_QUORUM => "no_quorum"
  | TIMED_OUT => "timed_out"
  | _ => "insufficient_responses"
  end.

Definition report_decision (env : AdjEnv) (key : RoundKey) : OM OrchestrationDecisionV1 :=
  now ← tick env;
  decision ← with_round key (build_decision (ae_decision_id env) now (ae_utc_now env));
  _ ← with_instr (or_latency "decision_ms" (dec_decision_latency_ms decision));
  _ ← match dec_quorum_latency_ms decision with
      | Some x => with_instr (or_latency "quorum_ms" x)
      | None => mret tt
      end;
  _ ← with_instr (or_increment (outcome_counter (dec_outcome decision)) 1);
  _ ← with_instr (or_increment "orchestrator_disagreements"
        (Z.of_nat (length (dec_disagreeing_orchestrators decision))));
  mret decision.

(** [adjudicate]. *)
Definition adjudicate (env : AdjEnv) (request : OrchestrationRequestV1) (timeout_seconds : f64)
    : OM OrchestrationDecisionV1 :=
  if f_leb timeout_seconds f_zero || f_gtb timeout_seconds (f_of_Z 30)
  then throw ValueError "timeout_seconds must be in (0, 30]"
  else
    let key := round_key request in
    _ ← claim_round env request;
    _ ← with_instr (or_increment "rounds_started" 1);
    now ← tick env;
    _ ← try_finally (run_round env key request (f_add now timeout_seconds)) (release_round key);
    report_decision env key.

(** [shutdown]; the executors' queued futures that [cancel_futures=True] stops
    are the environment's. *)
Definition shutdown (env : AdjEnv) : OM unit :=
  c ← get;
  if oc_closed c then mret tt
  else
    _ ← modify (λ c, set_control (oc_active_keys c) true (oc_ticks c) (oc_points c) c);
    foldM (λ _ f, cancel_future env f) tt (map fst (map_to_list (oc_futures c))).
End coordinator.
