(* ===== verification/OrCoordinatorFacts.v ===== *)
(** * The coordinator's invariant, and a logic for its operations

    [coord_wf] is what every coordinator state satisfies; [coord_le] is what an
    operation of one adjudication may do to it.  [runs] and [may] are total
    correctness statements about coordinator operations: both guarantee a result
    and the invariant, [runs] also that no exception escapes. *)

From S2P Require Import Prelude PyString Json OrContracts OrReplica OrRound OrRoundFacts OrRoundSafety.
From S2P Require Import OrCoordinator.

Section coordinator.
Context `{PyRuntime}.

(** ** Invariant *)
Definition future_ok (f : FutureState) : Prop :=
  match f with
  | FDone (Ok (MsgProposal p)) => pr_proposal_digest p ≠ ""
  | _ => True
  end.

Record coord_wf (c : OrchestrationCoordinator) : Prop := {
  cw_ids : list_to_set (or_replica_ids (oc_replicas c)) =@{gset string} list_to_set ORCHESTRATOR_IDS;
  cw_instr : or_instr_ok (oc_instrumentation c);
  cw_cache : cache_ok (oc_replay_cache c);
  cw_limit : 1 ≤ oc_round_history_limit c;
  cw_nodup : NoDup (oc_rounds c).*1;
  cw_rounds : ∀ k r, (k, r) ∈ oc_rounds c →
    round_ok r ∧ k = round_key (dr_request r) ∧ dr_keys r = oc_verifier c;
  cw_futures : map_Forall (λ _ f, future_ok f) (oc_futures c);
}.

Record coord_le (c c' : OrchestrationCoordinator) : Prop := {
  cl_ids : or_replica_ids (oc_replicas c') = or_replica_ids (oc_replicas c);
  cl_verifier : oc_verifier c' = oc_verifier c;
  cl_limit : oc_round_history_limit c' = oc_round_history_limit c;
  cl_active : oc_active_keys c' = oc_active_keys c;
  cl_closed : oc_closed c' = oc_closed c;
  cl_keys : (oc_rounds c').*1 = (oc_rounds c).*1;
  cl_rounds : ∀ k r, od_get k (oc_rounds c) = Some r →
    ∃ r', od_get k (oc_rounds c') = Some r' ∧ round_le r r';
}.

#[export] Instance coord_le_preorder : PreOrder coord_le.
Proof.
  split.
  - intros c. constructor; try done. intros k r Hr. exists r. by split.
  - intros c1 c2 c3 [] []. constructor; try congruence. intros k r Hr.
    destruct (cl_rounds0 k r Hr) as (r2 & Hr2 & ?). destruct (cl_rounds1 k r2 Hr2) as (r3 & ? & ?).
    exists r3. split; [done | by etrans].
Qed.

(** ** Operations of one adjudication *)

(** The coordinator is open and has the round under work. *)
Record at_work (key : RoundKey) (c : OrchestrationCoordinator) : Prop := {
  aw_wf : coord_wf c;
  aw_open : oc_closed c = false;
  aw_round : is_Some (od_get key (oc_rounds c));
}.

Definition may (key : RoundKey) {A} (m : OM A) (Q : A → Prop) : Prop :=
  ∀ c, at_work key c → ∃ out c', m c = (out, c') ∧ at_work key c' ∧ coord_le c c' ∧
    match out with Ok a => Q a | Raise _ => True end.

Definition runs (key : RoundKey) {A} (m : OM A) (Q : A → Prop) : Prop :=
  ∀ c, at_work key c → ∃ a c', m c = (Ok a, c') ∧ at_work key c' ∧ coord_le c c' ∧ Q a.

Lemma runs_may key {A} (m : OM A) Q : runs key m Q → may key m Q.
Proof. intros Hm c Hc. destruct (Hm c Hc) as (a & c' & ? & ? & ? & ?). by exists (Ok a), c'. Qed.

Lemma runs_weaken key {A} (m : OM A) (Q R : A → Prop) :
  runs key m Q → (∀ a, Q a → R a) → runs key m R.
Proof. intros Hm HQR c Hc. destruct (Hm c Hc) as (a & c' & ? & ? & ? & ?). exists a, c'. auto. Qed.

Lemma runs_ret key {A} (a : A) (Q : A → Prop) : Q a → runs key (mret a) Q.
Proof. intros HQ c Hc. by exists a, c. Qed.

Lemma runs_bind key {A B} (m : OM A) (f : A → OM B) Q R :
  runs key m Q → (∀ a, Q a → runs key (f a) R) → runs key (m ≫= f) R.
Proof.
  intros Hm Hf c Hc. destruct (Hm c Hc) as (a & c1 & E & Hc1 & Hle & HQ).
  destruct (Hf a HQ c1 Hc1) as (b & c2 & E2 & Hc2 & Hle2 & HR).
  exists b, c2. unfold mbind, M_bind. rewrite E, E2. split_and!; [done | done | by etrans | done].
Qed.

Lemma may_bind key {A B} (m : OM A) (f : A → OM B) Q R :
  may key m Q → (∀ a, Q a → may key (f a) R) → may key (m ≫= f) R.
Proof.
  intros Hm Hf c Hc. destruct (Hm c Hc) as ([a|e] & c1 & E & Hc1 & Hle & HQ).
  - destruct (Hf a HQ c1 Hc1) as (b & c2 & E2 & Hc2 & Hle2 & HR).
    exists b, c2. unfold mbind, M_bind. rewrite E, E2. split_and!; [done | done | by etrans | done].
  - exists (Raise e), c1. unfold mbind, M_bind. rewrite E. by split_and!.
Qed.

Lemma runs_gets key {A} (f : OrchestrationCoordinator → A) (Q : A → Prop) :
  (∀ c, at_work key c → Q (f c)) → runs key (gets f) Q.
Proof. intros HQ c Hc. exists (f c), c. split_and!; [done | done | done | by apply HQ]. Qed.

Lemma runs_foldM key {A B} (f : B → A → OM B) (P : B → Prop) acc l :
  P acc → (∀ b x, x ∈ l → P b → runs key (f b x) P) → runs key (foldM f acc l) P.
Proof.
  revert acc. induction l as [|x l IH]; intros acc HP Hf.
  - by apply runs_ret.
  - intros c Hc. destruct (Hf acc x ltac:(set_solver) HP c Hc) as (b & c1 & E & Hc1 & Hle & HP1).
    destruct (IH b HP1 ltac:(intros; apply Hf; [set_solver | done]) c1 Hc1)
      as (b2 & c2 & E2 & Hc2 & Hle2 & HP2).
    exists b2, c2. cbn [foldM]. rewrite E, E2. split_and!; [done | done | by etrans | done].
Qed.

(** [except Exception] makes a computation that may raise one that does not. *)
Lemma runs_try key {A} (m : OM A) (h : exn → OM A) Q :
  may key m Q → (∀ e, runs key (h e) Q) → runs key (try_except m h) Q.
Proof.
  intros Hm Hh c Hc. unfold try_except. destruct (Hm c Hc) as ([a|e] & c1 & -> & Hc1 & Hle & HQ).
  - by exists a, c1.
  - destruct (Hh e c1 Hc1) as (b & c2 & -> & Hc2 & Hle2 & HR).
    exists b, c2. split_and!; [done | done | by etrans | done].
Qed.

(** ** Frame: updates of the workers and of the control fields *)
Lemma coord_frame key c c' :
  at_work key c → or_replica_ids (oc_replicas c') = or_replica_ids (oc_replicas c) →
  oc_verifier c' = oc_verifier c → oc_instrumentation c' = oc_instrumentation c →
  oc_replay_cache c' = oc_replay_cache c →
  oc_round_history_limit c' = oc_round_history_limit c → oc_rounds c' = oc_rounds c →
  oc_active_keys c' = oc_active_keys c → oc_closed c' = oc_closed c →
  map_Forall (λ _ f, future_ok f) (oc_futures c') → at_work key c' ∧ coord_le c c'.
Proof.
  intros [[] ? ?] E1 E2 E3 E4 E5 E6 E7 E8 Hf. split.
  - constructor; [constructor | congruence | by rewrite E6]; rewrite ?E1, ?E2, ?E3, ?E4, ?E5, ?E6; done.
  - constructor; rewrite ?E6; try done. intros k r Hr. exists r. by split.
Qed.

Lemma update_replica_ids rid f rs :
  (∀ r, orr_orchestrator_id (f r) = orr_orchestrator_id r ∨ orr_orchestrator_id (f r) = rid) →
  or_replica_ids (update_replica rid f rs) = or_replica_ids rs.
Proof.
  intros Hf. unfold or_replica_ids, update_replica. rewrite map_map. apply map_ext.
  intros r. case_decide as Hr; [|done]. destruct (Hf r); congruence.
Qed.

Lemma runs_on_orchestrator key rid f :
  (∀ r, orr_orchestrator_id (f r) = orr_orchestrator_id r) →
  runs key (on_orchestrator rid f) (λ _, True).
Proof.
  intros Hf c Hc. eexists tt, _. split; [done |].
  destruct (coord_frame key c (set_workers (update_replica rid f (oc_replicas c)) (oc_futures c)
    (oc_next_future c) (oc_inflight c) c) Hc) as [??]; try done; [|by apply Hc].
  apply update_replica_ids. by left.
Qed.

Lemma runs_tick key env : runs key (tick env) (λ _, True).
Proof.
  intros c Hc. eexists _, _. split; [done |].
  destruct (coord_frame key c (set_control (oc_active_keys c) (oc_closed c) (S (oc_ticks c))
    (oc_points c) c) Hc) as [??]; try done. by apply Hc.
Qed.

(** ** Workers *)
Lemma find_orchestrator_id rid rs r : find_orchestrator rid rs = Some r → orr_orchestrator_id r = rid.
Proof.
  unfold find_orchestrator. intros Hh.
  assert (Hin : r ∈ filter (λ r, orr_orchestrator_id r = rid) rs)
    by (destruct (filter _ _); [done | cbn in Hh; simplify_eq; set_solver]).
  by apply list_elem_of_filter in Hin as [? _].
Qed.

Lemma run_task_ok env task r out r' :
  run_task env task r = (out, r') →
  orr_orchestrator_id r' = orr_orchestrator_id r ∧ future_ok (FDone out).
Proof.
  destruct task; cbn [run_task]; intros Hrun;
    apply M_bind_inv in Hrun as [(m & r1 & Hm & [= <- <-])|(e & Hm & ->)].
  - apply propose_run in Hm as [[Hid _] Hp]. split; [done |]. apply proposal_digest_nonempty, Hp.
  - apply propose_run in Hm as [[Hid _] _]. by split.
  - apply vote_run in Hm as [[Hid _] _]. by split.
  - apply vote_run in Hm as [[Hid _] _]. by split.
Qed.

Lemma complete_frame key fid env c :
  at_work key c → at_work key (complete fid env c) ∧ coord_le c (complete fid env c).
Proof.
  intros Hc. unfold complete.
  destruct (oc_futures c !! fid) as [[rid task|out|]|] eqn:Hf; try by split.
  destruct (find_orchestrator rid (oc_replicas c)) as [r|] eqn:Hr; [|by split].
  destruct (run_task env task r) as [out r'] eqn:Hrun.
  apply run_task_ok in Hrun as [Hid Hok]. apply find_orchestrator_id in Hr.
  apply coord_frame; try done.
  - apply update_replica_ids. intros x. right. congruence.
  - apply map_Forall_insert_2; [done | apply Hc].
Qed.

Lemma runs_observe_point key env : runs key (observe_point env) (λ _, True).
Proof.
  intros c Hc. unfold observe_point. eexists _, _. split; [done |].
  assert (Hfold : ∀ l c0, at_work key c0 →
    at_work key (foldl (λ c (fe : nat * WorkerEnv), complete fe.1 fe.2 c) c0 l) ∧
    coord_le c0 (foldl (λ c fe, complete fe.1 fe.2 c) c0 l)).
  { induction l as [|fe l IH]; intros c0 Hc0; cbn [foldl]; [by split |].
    destruct (complete_frame key fe.1 fe.2 c0 Hc0) as [H1 L1]. destruct (IH _ H1) as [H2 L2].
    split; [done | by etrans]. }
  destruct (Hfold (ae_events env (oc_points c)) c Hc) as [H1 L1].
  set (c1 := foldl _ _ _) in *.
  destruct (coord_frame key c1 (set_control (oc_active_keys c1) (oc_closed c1) (oc_ticks c1)
    (S (oc_points c)) c1) H1) as [H2 L2]; try done; [apply H1 |].
  split_and!; [done | by etrans | done].
Qed.

Lemma runs_submit key rid task : runs key (submit rid task) (λ _, True).
Proof.
  intros c Hc.
  assert (Hnew : ∃ a c', ((Ok (Some (oc_next_future c)), set_workers (oc_replicas c)
      (<[oc_next_future c := FRunning rid task]> (oc_futures c)) (S (oc_next_future c))
      (<[rid := oc_next_future c]> (oc_inflight c)) c)
      : result (option nat) * OrchestrationCoordinator) = (Ok a, c') ∧
    at_work key c' ∧ coord_le c c' ∧ True).
  { eexists _, _. split; [done |].
    destruct (coord_frame key c (set_workers (oc_replicas c)
      (<[oc_next_future c := FRunning rid task]> (oc_futures c)) (S (oc_next_future c))
      (<[rid := oc_next_future c]> (oc_inflight c)) c) Hc) as [??]; try done.
    apply map_Forall_insert_2; [done | apply Hc]. }
  unfold submit. rewrite (aw_open _ _ Hc).
  destruct (oc_inflight c !! rid) as [prior|]; [|exact Hnew].
  destruct (negb _); [|exact Hnew]. by eexists None, c.
Qed.

Lemma runs_cancel key env fid : runs key (cancel_future env fid) (λ _, True).
Proof.
  intros c Hc. unfold cancel_future, modify. eexists tt, _. split; [done |].
  destruct (oc_futures c !! fid) as [[rid task|out|]|]; try by split_and!.
  case_bool_decide; [|by split_and!].
  destruct (coord_frame key c (set_workers (oc_replicas c) (<[fid := FCancelled]> (oc_futures c))
    (oc_next_future c) (clear_inflight rid fid (oc_inflight c)) c) Hc) as [??]; try done.
  apply map_Forall_insert_2; [done | apply Hc].
Qed.

(** ** Round operations under the coordinator *)
Definition round_may {A} (f : RM A) (Q : A → Prop) : Prop :=
  ∀ w out w', world_ok w → round_ok (rw_round w) → f w = (out, w') →
    world_ok w' ∧ round_ok (rw_round w') ∧ round_le (rw_round w) (rw_round w') ∧
    match out with Ok a => Q a | Raise _ => True end.

Definition never_raises {A} (f : RM A) : Prop :=
  ∀ w, world_ok w → round_ok (rw_round w) → ∃ a w', f w = (Ok a, w').

Lemma od_set_same_keys {K V} `{EqDecision K} (k : K) (v v0 : V) d :
  od_get k d = Some v0 → (od_set k v d).*1 = d.*1.
Proof. intros Hg. rewrite od_set_keys. by rewrite Hg. Qed.

Lemma elem_of_od_set {K V} `{EqDecision K} (k k' : K) (v x v0 : V) d :
  NoDup d.*1 → od_get k d = Some v0 → (k', x) ∈ od_set k v d →
  (k' = k ∧ x = v) ∨ (k', x) ∈ d.
Proof.
  intros Hnd Hg Hin. apply od_elem_get in Hin; [|by rewrite (od_set_same_keys k v v0 d Hg)].
  rewrite od_get_set in Hin. case_decide; simplify_eq; [by left |]. right. by apply od_get_Some_elem.
Qed.

(** Replacing the round object by a later state of it. *)
Lemma shared_frame key c r r' cache instr :
  at_work key c → od_get key (oc_rounds c) = Some r → or_instr_ok instr → cache_ok cache →
  round_ok r' → round_le r r' →
  let c' := set_shared (od_set key r' (oc_rounds c)) cache instr c in
  at_work key c' ∧ coord_le c c'.
Proof.
  intros [[] ? ?] Hg Hi Hc Hr' Hle. cbn zeta.
  assert (Hkeys : (od_set key r' (oc_rounds c)).*1 = (oc_rounds c).*1)
    by (by eapply od_set_same_keys). split.
  - constructor; [constructor; cbn; rewrite ?Hkeys; try done | done |].
    + intros k x Hin. destruct (elem_of_od_set _ _ _ _ _ _ cw_nodup0 Hg Hin) as [[-> ->]|Hin'];
        [|by apply cw_rounds0].
      apply od_get_Some_elem in Hg. destruct (cw_rounds0 _ _ Hg) as (_ & -> & Hk).
      split_and!; [done | by rewrite (le_request _ _ Hle) | by rewrite (le_keys _ _ Hle)].
    + cbn. rewrite od_get_set, decide_True by done. by eexists.
  - constructor; try done. intros k x Hx. cbn. rewrite od_get_set.
    destruct (decide (k = key)) as [->|]; [|exists x; by split].
    exists r'. rewrite Hg in Hx. by simplify_eq.
Qed.

Lemma may_with_round key {A} (f : RM A) Q : round_may f Q → may key (with_round key f) Q.
Proof.
  intros Hf c Hc. unfold with_round. destruct (aw_round _ _ Hc) as [r Hr]. rewrite Hr.
  destruct (f _) as [out w'] eqn:Hrun.
  destruct (cw_rounds _ (aw_wf _ _ Hc) key r) as (Hok & _); [by apply od_get_Some_elem |].
  destruct (Hf _ _ _ (Build_world_ok (mk_world r _ _) (cw_instr _ (aw_wf _ _ Hc)) (cw_cache _ (aw_wf _ _ Hc)))
    Hok Hrun) as ([Hi Hca] & Hok' & Hle & HQ).
  destruct (shared_frame key c r (rw_round w') (rw_cache w') (rw_instr w') Hc Hr Hi Hca Hok' Hle).
  by exists out, (set_shared (od_set key (rw_round w') (oc_rounds c)) (rw_cache w') (rw_instr w') c).
Qed.

Lemma runs_with_round key {A} (f : RM A) Q :
  round_may f Q → never_raises f → runs key (with_round key f) Q.
Proof.
  intros Hf Hn c Hc. destruct (may_with_round key f Q Hf c Hc) as (out & c' & E & ? & ? & HQ).
  destruct out as [a|e]; [by exists a, c' |]. exfalso. unfold with_round in E.
  destruct (aw_round _ _ Hc) as [r Hr]. rewrite Hr in E.
  destruct (cw_rounds _ (aw_wf _ _ Hc) key r) as (Hok & _); [by apply od_get_Some_elem |].
  destruct (Hn (mk_world r (oc_replay_cache c) (oc_instrumentation c))) as (a & w' & Hrun);
    [by constructor; apply (aw_wf _ _ Hc) | done |].
  by rewrite Hrun in E.
Qed.

Lemma round_may_on_round f :
  (∀ r, round_ok r → round_ok (f r) ∧ round_le r (f r)) →
  round_may (on_round f) (λ _, True).
Proof.
  intros Hf w out w' [Hi Hc] Hr [= <- <-]. destruct (Hf _ Hr). split_and!; try done.
Qed.

Lemma never_on_round f : never_raises (on_round f).
Proof. intros w _ _. by eexists tt, _. Qed.

Lemma runs_on_round key f :
  (∀ r, round_ok r → round_ok (f r) ∧ round_le r (f r)) →
  runs key (with_round key (on_round f)) (λ _, True).
Proof. intros Hf. apply runs_with_round; [by apply round_may_on_round | apply never_on_round]. Qed.

Lemma round_may_proposal p : pr_proposal_digest p ≠ "" → round_may (accept_proposal p) (λ _, True).
Proof.
  intros Hne w out w' Hw Hr Hrun.
  destruct (accept_proposal_spec p w out w' Hw Hrun) as [[_ Hq]|(-> & Ht & Hg & Hnew & Hrw & Hw' & _)].
  - destruct (quiet_round _ _ Hq Hr). split_and!; [apply Hq | done | done | by destruct out].
  - rewrite Hrw. by destruct (add_proposal_ok _ p Hr Hg Hnew Ht Hne).
Qed.

Lemma round_may_vote now v : round_may (accept_vote now v) (λ _, True).
Proof.
  intros w out w' Hw Hr Hrun.
  destruct (accept_vote_spec now v w out w' Hw Hrun) as [[_ Hq]|(-> & Ht & Hg & Hnew & Hrw & Hw' & _)].
  - destruct (quiet_round _ _ Hq Hr). split_and!; [apply Hq | done | done | by destruct out].
  - rewrite Hrw. by destruct (add_vote_ok now _ v Hr Hg Hnew Ht).
Qed.

Lemma round_may_this : round_may this_round (λ _, True).
Proof. intros w out w' Hw Hr [= <- <-]. by split_and!. Qed.

Lemma runs_round_at key : runs key (round_at key) (λ _, True).
Proof.
  apply runs_with_round; [apply round_may_this |]. intros w _ _. by eexists _, _.
Qed.

(** ** Instrumentation *)
Lemma runs_instr key f :
  (∀ i, or_instr_ok i → ∃ i', f i = (Ok tt, i') ∧ or_instr_ok i') →
  runs key (with_instr f) (λ _, True).
Proof.
  intros Hf c Hc. unfold with_instr. destruct (aw_round _ _ Hc) as [r Hr].
  destruct (Hf _ (cw_instr _ (aw_wf _ _ Hc))) as (i' & -> & Hi').
  exists tt. eexists. split; [done |].
  destruct Hc as [[] ? ?]. split_and!; [|constructor; try done | done].
  - by constructor; [constructor | |].
  - intros k x Hx. exists x. by split.
Qed.

Lemma runs_increment key name n :
  name ∈ OR_COUNTERS → runs key (with_instr (or_increment name n)) (λ _, True).
Proof. intros Hn. apply runs_instr. intros i Hi. by apply or_increment_ok. Qed.

Lemma runs_latency key name x :
  name ∈ LATENCY_NAMES → runs key (with_instr (or_latency name x)) (λ _, True).
Proof. intros Hn. apply runs_instr. intros i Hi. by apply or_latency_ok. Qed.

(** ** Presence and latency marks *)
Lemma presence_ok r u o t d :
  round_ok r → u ∪ o ∪ t ∪ d ⊆ list_to_set ORCHESTRATOR_IDS →
  round_ok (with_presence u o t d r) ∧ round_le r (with_presence u o t d r).
Proof.
  intros Hr Hs. destruct (round_ok_frame r (dr_rejections r) u o t d (dr_proposal_latencies r)
    (dr_vote_latencies r) (dr_terminal r)) as [H1 H2]; try done; apply Hr.
Qed.

Lemma latencies_ok r p v :
  round_ok r → nonneg p → nonneg v →
  round_ok (with_latencies p v r) ∧ round_le r (with_latencies p v r).
Proof.
  intros Hr Hp Hv. destruct (round_ok_frame r (dr_rejections r) (dr_unavailable r) (dr_omitted r)
    (dr_timed_out r) (dr_delayed r) p v (dr_terminal r)) as [H1 H2]; try done; apply Hr.
Qed.

Lemma runs_mark_unavailable key rid :
  rid ∈ ORCHESTRATOR_IDS → runs key (mark_unavailable key rid) (λ _, True).
Proof.
  intros Hid. apply runs_on_round. intros r Hr. apply presence_ok; [done |].
  pose proof (ro_presence _ Hr). set_solver.
Qed.

Lemma runs_mark key rid f g name :
  (∀ r, round_ok r → round_ok (f r) ∧ round_le r (f r)) →
  (∀ r, orr_orchestrator_id (g r) = orr_orchestrator_id r) → name ∈ OR_COUNTERS →
  runs key (_ ← with_round key (on_round f); _ ← on_orchestrator rid g;
            with_instr (or_increment name 1)) (λ _, True).
Proof.
  intros Hf Hg Hn. eapply runs_bind; [by apply runs_on_round |]. intros _ _.
  eapply runs_bind; [by apply runs_on_orchestrator |]. intros _ _. by apply runs_increment.
Qed.

Lemma runs_mark_omitted key rid detail :
  rid ∈ ORCHESTRATOR_IDS → runs key (mark_omitted key rid detail) (λ _, True).
Proof.
  intros Hid. apply runs_mark; [|done | set_solver]. intros r Hr. apply presence_ok; [done |].
  pose proof (ro_presence _ Hr). set_solver.
Qed.

Lemma runs_mark_timed_out key rid :
  rid ∈ ORCHESTRATOR_IDS → runs key (mark_timed_out key rid) (λ _, True).
Proof.
  intros Hid. apply runs_mark; [|done | set_solver]. intros r Hr. apply presence_ok; [done |].
  pose proof (ro_presence _ Hr). set_solver.
Qed.

Lemma runs_mark_delayed key rid :
  rid ∈ ORCHESTRATOR_IDS → runs key (mark_delayed key rid) (λ _, True).
Proof.
  intros Hid. apply runs_mark; [|done | set_solver]. intros r Hr. apply presence_ok; [done |].
  pose proof (ro_presence _ Hr). set_solver.
Qed.

Lemma runs_note key rid status : runs key (note_if_unauthenticated rid status) (λ _, True).
Proof.
  unfold note_if_unauthenticated. case_bool_decide; [|by apply runs_ret].
  by apply runs_on_orchestrator.
Qed.
End coordinator.
