(* ===== verification/OrAdjudication.v ===== *)
(** * Adjudication

    The waiting loop of [adjudicate] terminates, no exception escapes from the
    work on a round, and the round ends closed. *)

From S2P Require Import Prelude PyString Json OrContracts OrReplica OrRound OrRoundFacts OrRoundSafety.
From S2P Require Import OrCoordinator OrCoordinatorFacts.

Section adjudication.
Context `{PyRuntime}.
Context (env : AdjEnv) (key : RoundKey) (request : OrchestrationRequestV1).

(** Every replica a phase dictionary names is one of the three. *)
Record ph_ok (ph : Phases) : Prop := {
  pk_proposals : Forall (λ x, x.2.1 ∈ ORCHESTRATOR_IDS) (ph_proposals ph);
  pk_votes : Forall (λ x, x.2.1 ∈ ORCHESTRATOR_IDS) (ph_votes ph);
  pk_busy : Forall (λ x, x.2 ∈ ORCHESTRATOR_IDS) (ph_busy ph);
}.

(** ** Dictionaries *)
Lemma Forall_od_set {K V} `{EqDecision K} (P : V → Prop) (k : K) v d :
  Forall (λ x, P x.2) d → P v → Forall (λ x, P x.2) (od_set k v d).
Proof.
  intros Hd Hv. induction Hd as [|[k' v'] d Hx Hd IH]; cbn; [by repeat constructor |].
  case_decide; by constructor.
Qed.

Lemma Forall_od_del {K V} `{EqDecision K} (P : K * V → Prop) (k : K) d :
  Forall P d → Forall P (od_del k d).
Proof. induction 1 as [|[k' v'] d Hx Hd IH]; cbn; [done |]. case_decide; [done | by constructor]. Qed.

Lemma od_del_length_le {K V} `{EqDecision K} (k : K) (d : list (K * V)) :
  (length (od_del k d) ≤ length d)%nat.
Proof. induction d as [|[k' v'] d IH]; cbn; [done |]. case_decide; cbn; lia. Qed.

Lemma od_set_length_le {K V} `{EqDecision K} (k : K) v (d : list (K * V)) :
  (length (od_set k v d) ≤ S (length d))%nat.
Proof. rewrite od_set_length. destruct (od_get k d); lia. Qed.

Lemma od_get_value {K V} `{EqDecision K} (P : V → Prop) (k : K) d v :
  Forall (λ x, P x.2) d → od_get k d = Some v → P v.
Proof. intros Hd Hg. rewrite Forall_forall in Hd. by apply (Hd (k, v)), od_get_Some_elem. Qed.

Lemma od_get_in {K V} `{EqDecision K} (k : K) (d : list (K * V)) :
  k ∈ d.*1 → is_Some (od_get k d).
Proof. intros Hk. destruct (od_get k d) eqn:Hg; [by eexists |]. by apply od_get_None in Hg. Qed.

(** ** One completed future *)

(** What [consume_future] does to the phases: the future is gone, a vote may
    have been submitted in its place. *)
Definition consumed (ph ph' : Phases) : Prop :=
  ph_ok ph' ∧ ph_busy ph' = ph_busy ph ∧
  (length (ph_proposals ph') ≤ length (ph_proposals ph))%nat ∧
  (length (ph_votes ph') ≤ length (ph_votes ph))%nat.

(** Possibly one vote future more. *)
Definition plus_vote (ph ph' : Phases) : Prop :=
  ph_ok ph' ∧ ph_busy ph' = ph_busy ph ∧ ph_proposals ph' = ph_proposals ph ∧
  (length (ph_votes ph') ≤ S (length (ph_votes ph)))%nat.

Lemma may_consume_proposal rid latency_ms p ph :
  ph_ok ph → rid ∈ ORCHESTRATOR_IDS → f_geb latency_ms f_zero = true →
  pr_proposal_digest p ≠ "" →
  may key (consume_proposal env key request rid latency_ms p ph) (plus_vote ph).
Proof.
  intros Hph Hid Hlat Hp. unfold consume_proposal.
  assert (Hsame : plus_vote ph ph) by (split_and!; try done; lia).
  eapply may_bind; [by apply may_with_round, round_may_proposal |]. intros status _.
  apply runs_may. eapply runs_bind; [apply runs_note |]. intros _ _.
  eapply runs_bind.
  { apply runs_on_round. intros r Hr. apply latencies_ok; [done | | apply (ro_latencies _ Hr)].
    apply map_Forall_insert_2; [done | apply (ro_latencies _ Hr)]. }
  intros _ _. eapply runs_bind; [apply runs_latency; set_solver |]. intros _ _.
  case_bool_decide; [|by apply runs_ret].
  eapply runs_bind; [apply runs_submit |]. intros [f|] _.
  - eapply runs_bind; [apply runs_tick |]. intros now _. apply runs_ret.
    destruct Hph. split_and!; cbn; [constructor; cbn; try done | done | done | apply od_set_length_le].
    by apply (Forall_od_set (λ x : string * f64, x.1 ∈ ORCHESTRATOR_IDS)).
  - eapply runs_bind; [by apply runs_mark_delayed |]. intros _ _. by apply runs_ret.
Qed.

Lemma may_consume_vote rid latency_ms v ph :
  f_geb latency_ms f_zero = true →
  may key (consume_vote env key rid latency_ms v ph) (λ ph', ph' = ph).
Proof.
  intros Hlat. unfold consume_vote.
  eapply may_bind; [apply runs_may, runs_tick |]. intros now _.
  eapply may_bind; [apply may_with_round, round_may_vote |]. intros status _.
  apply runs_may. eapply runs_bind; [apply runs_note |]. intros _ _.
  eapply runs_bind.
  { apply runs_on_round. intros r Hr. apply latencies_ok; [done | apply (ro_latencies _ Hr) |].
    apply map_Forall_insert_2; [done | apply (ro_latencies _ Hr)]. }
  intros _ _. eapply runs_bind; [apply runs_latency; set_solver |]. intros _ _.
  by apply runs_ret.
Qed.

Lemma may_future_result fid :
  may key (future_result fid) (λ m, match m with MsgProposal p => pr_proposal_digest p ≠ ""
                                     | MsgVote _ => True end).
Proof.
  intros c Hc. unfold future_result. destruct (oc_futures c !! fid) as [f|] eqn:Hf.
  - pose proof (cw_futures _ (aw_wf _ _ Hc) _ _ Hf) as Hok.
    destruct f as [rid task|out|]; eexists _, c; (split; [done |]); split_and!; try done.
  - by eexists _, c.
Qed.

Lemma runs_consume_failure rid e :
  rid ∈ ORCHESTRATOR_IDS → runs key (consume_failure key rid e) (λ _, True).
Proof.
  intros Hid. unfold consume_failure. repeat case_bool_decide;
    first [by apply runs_mark_unavailable | by apply runs_mark_omitted].
Qed.

Lemma runs_consume_future ph fid :
  ph_ok ph →
  runs key (consume_future env key request ph fid) (λ ph', ph_ok ph' ∧ ph_busy ph' = ph_busy ph ∧
    (phase_measure ph' ≤ phase_measure ph)%nat ∧
    (fid ∈ own_futures ph → (phase_measure ph' < phase_measure ph)%nat)).
Proof.
  intros Hph. unfold consume_future, phase_measure, own_futures.
  set (ph1 := mk_phases _ _ _).
  assert (Hph1 : ph_ok ph1) by (destruct Hph; constructor; cbn; by try apply Forall_od_del).
  pose proof (od_del_length_le fid (ph_proposals ph)) as Hlp.
  pose proof (od_del_length_le fid (ph_votes ph)) as Hlv.
  destruct (od_get fid (ph_proposals ph)) as [[rid started]|] eqn:Hp; cbn [is_some].
  - pose proof (od_get_value (λ x : string * f64, x.1 ∈ ORCHESTRATOR_IDS) _ _ _
      (pk_proposals _ Hph) Hp) as Hid.
    pose proof (od_del_length _ _ _ Hp) as Hdel. apply (runs_weaken _ _ (plus_vote ph1)).
    + apply runs_try.
      * eapply may_bind; [apply may_future_result |]. intros m Hm.
        eapply may_bind; [apply runs_may, runs_tick |]. intros now _.
        destruct m as [p|v]; [apply may_consume_proposal; [done..| apply f_max_nonneg | done] |].
        intros c Hc. by eexists _, c.
      * intros e. eapply runs_bind; [by apply runs_consume_failure |]. intros _ _.
        apply runs_ret. split_and!; try done. lia.
    + intros ph' (? & Hb & Hpp & Hv). subst ph1. rewrite Hb, Hpp. cbn in *. split_and!; [done | done | lia | lia].
  - destruct (od_get fid (ph_votes ph)) as [[rid started]|] eqn:Hv.
    + pose proof (od_get_value (λ x : string * f64, x.1 ∈ ORCHESTRATOR_IDS) _ _ _
        (pk_votes _ Hph) Hv) as Hid.
      pose proof (od_del_length _ _ _ Hv) as Hdel. apply (runs_weaken _ _ (λ ph', ph' = ph1)).
      * apply runs_try.
        -- eapply may_bind; [apply may_future_result |]. intros m Hm.
           eapply may_bind; [apply runs_may, runs_tick |]. intros now _.
           destruct m as [p|v]; [intros c Hc; by eexists _, c |].
           apply may_consume_vote, f_max_nonneg.
        -- intros e. eapply runs_bind; [by apply runs_consume_failure |]. intros _ _. by apply runs_ret.
      * intros ph' ->. cbn. split_and!; [done | done | lia | lia].
    + apply runs_ret. cbn. split_and!; [done | done | lia |]. intros Hin. exfalso.
      apply od_get_None in Hp, Hv. set_solver.
Qed.

Lemma runs_consume_phases futures ph :
  ph_ok ph →
  runs key (consume_phases env key request ph futures) (λ ph', ph_ok ph' ∧ ph_busy ph' = ph_busy ph ∧
    (phase_measure ph' ≤ phase_measure ph)%nat ∧
    (match futures with f :: _ => f ∈ own_futures ph → (phase_measure ph' < phase_measure ph)%nat
                      | [] => True end)).
Proof.
  unfold consume_phases. intros Hph.
  assert (Hrest : ∀ l ph0, ph_ok ph0 → runs key (foldM (consume_future env key request) ph0 l)
    (λ ph', ph_ok ph' ∧ ph_busy ph' = ph_busy ph0 ∧ (phase_measure ph' ≤ phase_measure ph0)%nat)).
  { intros l ph0 Hph0. apply runs_foldM; [by split_and! |]. intros ph' f _ (Hok & Hb & Hm).
    eapply runs_weaken; [by apply runs_consume_future |]. cbv beta.
    intros ph'' (? & ? & ? & _). split_and!; [done | congruence | lia]. }
  destruct futures as [|f futures].
  - by apply runs_ret.
  - apply (runs_bind key (consume_future env key request ph f)
      (λ ph1, foldM (consume_future env key request) ph1 futures) _ _ (runs_consume_future ph f Hph)).
    intros ph1 (Hok & Hb & Hm & Hlt). eapply runs_weaken; [by apply Hrest |].
    cbv beta. intros ph' (? & Hb' & Hm'). split_and!; [done | congruence | lia |]. intros Hin. specialize (Hlt Hin). lia.
Qed.

(** ** Replicas that were busy *)
Lemma runs_resubmit_one ph prior :
  ph_ok ph →
  runs key (match od_get prior (ph_busy ph) with
    | None => mret ph
    | Some rid =>
        let ph := mk_phases (ph_proposals ph) (ph_votes ph) (od_del prior (ph_busy ph)) in
        new_future ← submit rid (TaskPropose request);
        match new_future with
        | None => mret ph
        | Some f =>
            now ← tick env;
            mret (mk_phases (od_set f (rid, now) (ph_proposals ph)) (ph_votes ph) (ph_busy ph))
        end
    end) (λ ph', ph_ok ph' ∧ (phase_measure ph' ≤ phase_measure ph)%nat ∧
      (prior ∈ (ph_busy ph).*1 → (phase_measure ph' < phase_measure ph)%nat)).
Proof.
  intros Hph. destruct (od_get prior (ph_busy ph)) as [rid|] eqn:Hb.
  - pose proof (od_get_value (λ x, x ∈ ORCHESTRATOR_IDS) _ _ _ (pk_busy _ Hph) Hb) as Hid.
    pose proof (od_del_length _ _ _ Hb) as Hdel. cbn zeta.
    assert (Hok : ph_ok (mk_phases (ph_proposals ph) (ph_votes ph) (od_del prior (ph_busy ph))))
      by (destruct Hph; constructor; cbn; by try apply Forall_od_del).
    eapply runs_bind; [apply runs_submit |]. intros [f|] _.
    + eapply runs_bind; [apply runs_tick |]. intros now _. apply runs_ret.
      pose proof (od_set_length_le f (rid, now) (ph_proposals ph)).
      unfold phase_measure. cbn. split_and!; [|lia|lia].
      destruct Hok; constructor; cbn; try done.
      by apply (Forall_od_set (λ x : string * f64, x.1 ∈ ORCHESTRATOR_IDS)).
    + apply runs_ret. unfold phase_measure. cbn. split_and!; [done | lia | lia].
  - apply runs_ret. split_and!; [done | lia |]. intros Hin. by apply od_get_None in Hb.
Qed.

Lemma runs_resubmit completed ph :
  ph_ok ph →
  runs key (resubmit_busy env request ph completed) (λ ph', ph_ok ph' ∧
    (phase_measure ph' ≤ phase_measure ph)%nat ∧
    (match completed with f :: _ => f ∈ (ph_busy ph).*1 → (phase_measure ph' < phase_measure ph)%nat
                        | [] => True end)).
Proof.
  unfold resubmit_busy. intros Hph.
  match goal with |- runs _ (foldM ?f _ _) _ => set (step := f) end.
  assert (Hrest : ∀ l ph0, ph_ok ph0 → runs key (foldM step ph0 l)
    (λ ph', ph_ok ph' ∧ (phase_measure ph' ≤ phase_measure ph0)%nat)).
  { intros l ph0 Hph0. apply runs_foldM; [by split_and! |]. intros ph' f _ (Hok & Hm).
    eapply runs_weaken; [by apply runs_resubmit_one |]. cbv beta.
    intros ph'' (? & ? & _). split_and!; [done | lia]. }
  destruct completed as [|f completed].
  - by apply runs_ret.
  - apply (runs_bind key (step ph f) (λ ph1, foldM step ph1 completed) _ _ (runs_resubmit_one ph f Hph)).
    intros ph1 (Hok & Hm & Hlt). eapply runs_weaken; [by apply Hrest |].
    cbv beta. intros ph' (? & Hm'). split_and!; [done | lia |]. intros Hin. specialize (Hlt Hin). lia.
Qed.

(** ** The waiting loop *)
Lemma runs_wait_done pending :
  runs key (wait_done env pending) (λ l, ∀ f, f ∈ l → f ∈ pending).
Proof.
  unfold wait_done. eapply runs_bind; [apply runs_observe_point |]. intros order _.
  apply runs_gets. intros c _ f. unfold done_among. rewrite elem_of_app, elem_of_remove_dups.
  rewrite !list_elem_of_filter. naive_solver.
Qed.

Lemma runs_wait_loop fuel deadline ph :
  ph_ok ph → (phase_measure ph < fuel)%nat →
  runs key (wait_loop fuel env key request deadline ph) (λ o, ∃ ph', o = Some ph' ∧ ph_ok ph').
Proof.
  revert ph. induction fuel as [|fuel IH]; intros ph Hph Hm; [lia |]. cbn [wait_loop].
  eapply runs_bind; [apply runs_round_at |]. intros r _.
  destruct (_ || _); [apply runs_ret; by eauto |].
  eapply runs_bind; [apply runs_tick |]. intros now _.
  destruct (f_leb _ _); [apply runs_ret; by eauto |].
  eapply runs_bind; [apply runs_wait_done |]. intros [|f completed] Hin; [apply runs_ret; by eauto |].
  eapply runs_bind; [by apply runs_consume_phases |]. intros ph1 (Hok1 & Hb1 & Hm1 & Hlt1).
  eapply runs_bind; [by apply runs_resubmit |]. intros ph2 (Hok2 & Hm2 & Hlt2).
  apply IH; [done |]. specialize (Hin f ltac:(set_solver)).
  unfold pending_futures in Hin. rewrite Hb1 in Hlt2.
  apply elem_of_app in Hin as [Hin|Hin]; [specialize (Hlt1 Hin) | specialize (Hlt2 Hin)]; lia.
Qed.

Lemma pending_replicas_ids ph rid : ph_ok ph → rid ∈ pending_replicas ph → rid ∈ ORCHESTRATOR_IDS.
Proof.
  intros [Hp Hv Hb]. unfold pending_replicas. rewrite elem_of_remove_dups, !elem_of_app.
  pose proof (proj1 (Forall_forall _ _) Hp) as Fp. pose proof (proj1 (Forall_forall _ _) Hv) as Fv.
  pose proof (proj1 (Forall_forall _ _) Hb) as Fb.
  intros [Hin|[Hin|Hin]]; apply list_elem_of_fmap in Hin as (x & -> & Hx); auto.
Qed.

Lemma runs_finish deadline ph : ph_ok ph → runs key (finish_round env key request deadline ph) (λ _, True).
Proof.
  intros Hph. unfold finish_round. eapply runs_bind; [apply runs_wait_done |]. intros done_ _.
  eapply runs_bind; [by apply runs_consume_phases |]. intros ph1 (Hok & _).
  eapply runs_bind; [apply runs_tick |]. intros now _.
  eapply runs_bind.
  { apply (runs_foldM key _ (λ _, True)); [done |]. intros _ rid Hin _.
    pose proof (pending_replicas_ids _ _ Hok Hin).
    destruct (f_geb _ _); [by apply runs_mark_timed_out | by apply runs_mark_delayed]. }
  intros _ _. apply (runs_foldM key _ (λ _, True)); [done |]. intros _ f _ _. apply runs_cancel.
Qed.

Lemma runs_submit_all ids :
  (∀ rid, rid ∈ ids → rid ∈ ORCHESTRATOR_IDS) →
  runs key (submit_all env key request ids) ph_ok.
Proof.
  intros Hids. apply runs_foldM; [by repeat constructor |]. intros ph rid Hin Hph.
  specialize (Hids rid Hin). apply (runs_bind key get _ (λ _, True)).
  { intros c Hc. by exists c, c. }
  intros c _. destruct (negb _).
  - eapply runs_bind; [by apply runs_mark_unavailable |]. intros _ _. by apply runs_ret.
  - eapply runs_bind; [apply runs_submit |]. intros [f|] _.
    + eapply runs_bind; [apply runs_tick |]. intros now _. apply runs_ret.
      destruct Hph. constructor; cbn; try done.
      by apply (Forall_od_set (λ x : string * f64, x.1 ∈ ORCHESTRATOR_IDS)).
    + eapply (runs_bind key _ _ (λ _, True)).
      { unfold inflight_for. eapply runs_bind; [apply runs_observe_point |]. intros _ _. by apply runs_gets. }
      intros [f|] _; apply runs_ret; [|done]. destruct Hph. constructor; cbn; try done.
      by apply (Forall_od_set (λ x, x ∈ ORCHESTRATOR_IDS)).
Qed.

(** The work on a round neither fails nor runs out of fuel. *)
Lemma runs_round deadline : runs key (run_round env key request deadline) (λ _, True).
Proof.
  unfold run_round. apply (runs_bind key get _
    (λ c, ∀ rid, rid ∈ or_replica_ids (oc_replicas c) → rid ∈ ORCHESTRATOR_IDS)).
  { intros c Hc. exists c, c. split_and!; [done | done | done |]. intros rid Hin.
    pose proof (cw_ids _ (aw_wf _ _ Hc)). set_solver. }
  intros c Hids. eapply runs_bind; [by apply runs_submit_all |]. intros ph Hph.
  eapply runs_bind; [apply runs_wait_loop; [done | lia] |]. intros o (ph' & -> & Hph').
  by apply runs_finish.
Qed.
End adjudication.
