(* ===== verification/OrLifecycle.v ===== *)
(** * The life of a round in the coordinator

    Claiming a round, working on it, releasing it and reporting its decision:
    the specification of [new_round] and [adjudicate] between quiescent states
    (no round active, history within its limit). *)

From S2P Require Import Prelude PyString Json OrContracts OrReplica OrRound OrRoundFacts OrRoundSafety.
From S2P Require Import OrCoordinator OrCoordinatorFacts OrAdjudication.

Section lifecycle.
Context `{PyRuntime}.

(** ** Eviction *)
Lemma evict_drop fuel limit active rounds :
  1 ≤ limit → ∃ n, evict_rounds fuel limit active rounds = drop n rounds ∧
    (n = 0 ∨ n < length rounds)%nat.
Proof.
  intros Hl. revert rounds. induction fuel as [|fuel IH]; intros rounds; [exists 0%nat; by auto |].
  destruct rounds as [|[k r] rest]; [exists 0%nat; by auto |]. cbn [evict_rounds].
  destruct (Z.ltb_spec limit (Z.of_nat (length ((k, r) :: rest)))) as [Hlt|]; [|exists 0%nat; by auto].
  case_bool_decide; [exists 0%nat; by auto |].
  destruct (IH rest) as (n & Heq & Hn). exists (S n). split; [done |]. cbn in *. lia.
Qed.

Lemma evict_length fuel limit rounds :
  1 ≤ limit → (length rounds ≤ fuel)%nat →
  Z.of_nat (length (evict_rounds fuel limit ∅ rounds)) ≤ limit.
Proof.
  intros Hl. revert rounds. induction fuel as [|fuel IH]; intros rounds Hf.
  { destruct rounds; cbn in *; lia. }
  destruct rounds as [|[k r] rest]; [cbn; lia |]. cbn [evict_rounds].
  destruct (Z.ltb_spec limit (Z.of_nat (length ((k, r) :: rest)))) as [Hlt|]; [|done].
  rewrite bool_decide_false by set_solver. apply IH. cbn in Hf. lia.
Qed.

(** A key of the remaining rounds keeps its round. *)
Lemma od_get_drop {K V} `{EqDecision K} n (k : K) (d : list (K * V)) v :
  NoDup d.*1 → od_get k (drop n d) = Some v → od_get k d = Some v.
Proof.
  intros Hnd Hg. apply od_get_Some_elem in Hg. apply od_elem_get; [done |].
  by eapply elem_of_submseteq, sublist_submseteq, sublist_drop.
Qed.

Lemma od_get_last {K V} `{EqDecision K} n (k : K) (d : list (K * V)) v :
  NoDup (d ++ [(k, v)]).*1 → (n = 0 ∨ n < length (d ++ [(k, v)]))%nat →
  od_get k (drop n (d ++ [(k, v)])) = Some v.
Proof.
  intros Hnd Hn. apply od_elem_get.
  - rewrite fmap_drop. eapply sublist_NoDup; [exact Hnd | apply sublist_drop].
  - rewrite length_app in Hn. cbn in Hn. rewrite drop_app_le by lia. set_solver.
Qed.

(** ** Quiescent states *)
Record quiescent (c : OrchestrationCoordinator) : Prop := {
  qs_wf : coord_wf c;
  qs_idle : oc_active_keys c = ∅;
  qs_history : Z.of_nat (length (oc_rounds c)) ≤ oc_round_history_limit c;
}.

(** Only the round of [key] is new; older rounds that are still held moved on. *)
Definition history_le (key : RoundKey) (c c' : OrchestrationCoordinator) : Prop :=
  ∀ k r', od_get k (oc_rounds c') = Some r' →
    match od_get k (oc_rounds c) with Some r => round_le r r' | None => k = key end.

(** A round nobody has touched. *)
Definition fresh_round (r : DecisionRound) : Prop :=
  dr_proposals r = [] ∧ dr_votes r = [] ∧ dr_quorum_digest r = None ∧ dr_terminal r = false.

Record same_coord (c c' : OrchestrationCoordinator) : Prop := {
  sc_ids : or_replica_ids (oc_replicas c') = or_replica_ids (oc_replicas c);
  sc_verifier : oc_verifier c' = oc_verifier c;
  sc_limit : oc_round_history_limit c' = oc_round_history_limit c;
  sc_closed : oc_closed c' = oc_closed c;
}.

Lemma same_trans c1 c2 c3 : same_coord c1 c2 → same_coord c2 c3 → same_coord c1 c3.
Proof. intros [] []. constructor; congruence. Qed.

Lemma same_le c c' : coord_le c c' → same_coord c c'.
Proof. by intros []. Qed.

Lemma same_active c a : same_coord c (set_active a c).
Proof. done. Qed.

Lemma canonical_json_error v e : canonical_json_str v = Raise e → exn_type e = ValueError.
Proof. unfold canonical_json_str. destruct (json_finite v); [done |]. by intros [= <-]. Qed.

Lemma request_digest_error r e : request_digest r = Raise e → exn_type e = ValueError.
Proof.
  unfold request_digest, canonical_hash, canonical_content_hash, canonical_json_bytes.
  destruct (canonical_json_str _) as [t|e'] eqn:Hc; [done |]. intros [= <-].
  by eapply canonical_json_error.
Qed.

Lemma fresh_round_ok request verifier now r :
  request_validate request = Ok tt → new_round_state request verifier now = Ok r →
  round_ok r ∧ fresh_round r ∧ dr_request r = request ∧ dr_keys r = verifier.
Proof.
  intros Hv Hn. apply result_bind_ok in Hn as (digest & Hd & [= <-]).
  split_and!; try done. constructor; cbn; try done; try apply NoDup_nil_2; try set_solver.
  - intros d. split; [done |]. cbn. unfold REQUIRED_QUORUM. lia.
  - unfold REJECTION_EVIDENCE_LIMIT. lia.
Qed.

Lemma set_control_quiescent c ticks points :
  quiescent c → quiescent (set_control (oc_active_keys c) (oc_closed c) ticks points c).
Proof. intros [[] ? ?]. by constructor; [constructor|..]. Qed.

(** ** [new_round] *)
Lemma new_round_run env request c out c' :
  quiescent c → request_validate request = Ok tt → new_round env request c = (out, c') →
  quiescent c' ∧ same_coord c c' ∧ history_le (round_key request) c c' ∧
  match out with
  | Ok _ => ∃ r, od_get (round_key request) (oc_rounds c') = Some r ∧
      request_digest request = Ok (dr_request_digest r) ∧
      (od_get (round_key request) (oc_rounds c) = Some r ∨
       od_get (round_key request) (oc_rounds c) = None ∧ fresh_round r)
  | Raise e => exn_type e = ValueError
  end.
Proof.
  intros Hq Hv Hrun. unfold new_round in Hrun. unfold mbind at 1, M_bind, get in Hrun.
  destruct (od_get (round_key request) (oc_rounds c)) as [r|] eqn:Hg.
  - assert (Hsame : quiescent c ∧ same_coord c c ∧ history_le (round_key request) c c).
    { split_and!; [done | by constructor |]. intros k r' Hk. by rewrite Hk. }
    destruct Hsame as (? & ? & ?).
    apply lift_run in Hrun as [(d & Hd & Hrun)|(e & He & -> & ->)].
    + injection Hrun as <- <-. case_bool_decide as Heq; cbn [check raise]; split_and!; try done.
      exists r. split_and!; [done | congruence | by left].
    + split_and!; try done. by eapply request_digest_error.
  - unfold mbind at 1, M_bind, tick in Hrun. set (c1 := set_control _ _ _ _ c) in Hrun.
    assert (Hq1 : quiescent c1) by (by apply set_control_quiescent).
    apply lift_run in Hrun as [(r & Hr & Hrun)|(e & He & -> & ->)].
    2:{ split_and!; [done | by constructor | intros k r' Hk; cbn in Hk; by rewrite Hk |].
        unfold new_round_state in He. destruct (request_digest request) eqn:Hd; [done |].
        cbn in He. simplify_eq. by eapply request_digest_error. }
    injection Hrun as <- <-. destruct (fresh_round_ok _ _ _ _ Hv Hr) as (Hok & Hfresh & Hreq & Hkeys).
    pose proof (qs_wf _ Hq) as Hwf. pose proof (cw_limit _ Hwf) as Hlimit.
    cbn. rewrite (qs_idle _ Hq).
    rewrite od_set_new by done.
    assert (Hnd : NoDup (oc_rounds c ++ [(round_key request, r)]).*1).
    { rewrite <-od_set_new by done. apply od_set_nodup, Hwf. }
    destruct (evict_drop (length (oc_rounds c ++ [(round_key request, r)]))
      (oc_round_history_limit c) ∅ (oc_rounds c ++ [(round_key request, r)]) Hlimit)
      as (n & Hev & Hn).
    pose proof (evict_length (length (oc_rounds c ++ [(round_key request, r)]))
      (oc_round_history_limit c) (oc_rounds c ++ [(round_key request, r)]) Hlimit (le_n _)) as Hlen.
    rewrite Hev in Hlen. split_and!.
    + constructor; [constructor; try apply Hwf | apply Hq | by cbn; rewrite Hev]; cbn; rewrite Hev.
      * rewrite fmap_drop. eapply sublist_NoDup; [exact Hnd | apply sublist_drop].
      * intros k x Hin. assert (Hin' : (k, x) ∈ oc_rounds c ++ [(round_key request, r)])
          by (by eapply elem_of_submseteq, sublist_submseteq, sublist_drop).
        apply elem_of_app in Hin' as [Hin'|Hin'%list_elem_of_singleton]; [by apply (cw_rounds _ Hwf) |].
        injection Hin' as -> ->. split_and!; [done | by rewrite Hreq | done].
    + by constructor.
    + intros k x Hk. cbn in Hk. rewrite Hev in Hk. apply od_get_drop in Hk; [|done].
      rewrite <-od_set_new, od_get_set in Hk by done. case_decide; subst; [by rewrite Hg |].
      by rewrite Hk.
    + exists r. rewrite Hev. split_and!; [by apply od_get_last | | by right].
      unfold new_round_state in Hr. by apply result_bind_ok in Hr as (d & Hd & [= <-]).
Qed.

(** ** Claiming *)
Record claimed (request : OrchestrationRequestV1) (c c' : OrchestrationCoordinator) : Prop := {
  cd_work : at_work (round_key request) c';
  cd_active : oc_active_keys c' = {[round_key request]};
  cd_history : Z.of_nat (length (oc_rounds c')) ≤ oc_round_history_limit c';
  cd_same : same_coord c c';
  cd_le : history_le (round_key request) c c';
  cd_round : ∃ r, od_get (round_key request) (oc_rounds c') = Some r ∧ dr_terminal r = false ∧
    request_digest request = Ok (dr_request_digest r) ∧
    (od_get (round_key request) (oc_rounds c) = Some r ∨
     od_get (round_key request) (oc_rounds c) = None ∧ fresh_round r);
}.

Lemma with_round_this key c r :
  od_get key (oc_rounds c) = Some r → round_at key c = (Ok r, c).
Proof.
  intros Hg. unfold round_at, with_round. rewrite Hg. cbn. f_equal.
  assert (Hset : od_set key r (oc_rounds c) = oc_rounds c); [|rewrite Hset; by destruct c].
  clear - Hg. induction (oc_rounds c) as [|[k x] d IH]; cbn in *; [done |].
  case_decide; simplify_eq; [done |]. by rewrite IH.
Qed.

Lemma claim_run env request c out c' :
  quiescent c → request_validate request = Ok tt → claim_round env request c = (out, c') →
  match out with
  | Ok _ => claimed request c c' ∧ oc_closed c = false
  | Raise e => exn_type e = ValueError ∧ quiescent c' ∧ same_coord c c' ∧
      history_le (round_key request) c c'
  end.
Proof.
  intros Hq Hv Hrun. unfold claim_round in Hrun. unfold mbind at 1, M_bind, get in Hrun.
  apply M_bind_inv in Hrun as [(u & c1 & Hg & Hrun)|(e & Hg & ->)].
  2:{ unfold guardM, check, raise in Hg. destruct (oc_closed c); cbn in Hg; simplify_eq.
      split_and!; [done | done | by constructor |]. intros k r Hk. by rewrite Hk. }
  assert (oc_closed c = false ∧ c1 = c) as [Hopen ->].
  { unfold guardM, check, raise in Hg. destruct (oc_closed c); cbn in Hg; by simplify_eq. }
  apply M_bind_inv in Hrun as [(u2 & c2 & Hn & Hrun)|(e & Hn & ->)];
    apply (new_round_run _ _ _ _ _ Hq Hv) in Hn as (Hq2 & Hsame & Hle & Hout); [|by split_and!].
  destruct Hout as (r & Hr & Hd & Horigin).
  unfold mbind at 1, M_bind in Hrun. rewrite (with_round_this _ _ _ Hr) in Hrun.
  apply M_bind_inv in Hrun as [(u3 & c3 & Hg3 & Hrun)|(e & Hg3 & ->)];
    unfold guardM, check, raise in Hg3; destruct (dr_terminal r) eqn:Ht; cbn in Hg3; simplify_eq.
  - injection Hrun as <- <-. split; [|done].
    constructor; try done; [| | apply Hq2 | by destruct Hsame; constructor | by exists r].
    + destruct Hq2 as [[] ? ?]. constructor; [by constructor | | by eexists].
      cbn. by rewrite (sc_closed _ _ Hsame).
    + cbn. rewrite (qs_idle _ Hq2). set_solver.
  - by split_and!.
Qed.

(** ** Reporting *)

(** [reports r d]: the decision says what the round's votes say. *)
Definition reports (r : DecisionRound) (d : OrchestrationDecisionV1) : Prop :=
  ∃ id now utc route outcome reason,
    verdict_spec r route outcome ∧ d = decision_of r id now utc route outcome reason.

Lemma outcome_counter_known o : outcome_counter o ∈ OR_COUNTERS.
Proof. destruct o; set_solver. Qed.

Lemma report_run env key c :
  at_work key c →
  ∃ d c' r, report_decision env key c = (Ok d, c') ∧ at_work key c' ∧ coord_le c c' ∧
    od_get key (oc_rounds c) = Some r ∧ reports r d ∧
    ∃ r', od_get key (oc_rounds c') = Some r' ∧ round_le (with_terminal true r) r'.
Proof.
  intros Hc. unfold report_decision.
  destruct (runs_tick key env c Hc) as (now & c1 & Ht & Hc1 & Hle1 & _).
  unfold mbind at 1, M_bind. rewrite Ht.
  assert (Hr1 : oc_rounds c1 = oc_rounds c) by (by injection Ht as _ <-).
  destruct (aw_round _ _ Hc1) as [r Hr].
  destruct (cw_rounds _ (aw_wf _ _ Hc1) key r) as (Hok & _); [by apply od_get_Some_elem |].
  set (w := mk_world r (oc_replay_cache c1) (oc_instrumentation c1)).
  destruct (build_decision_run (ae_decision_id env) now (ae_utc_now env) w Hok)
    as (route & outcome & reason & Hv & Hb). cbn [rw_round rw_cache rw_instr w] in Hb, Hv.
  destruct (with_terminal_ok _ Hok) as [Hok' Hle'].
  destruct (shared_frame key c1 r _ _ _ Hc1 Hr (cw_instr _ (aw_wf _ _ Hc1))
    (cw_cache _ (aw_wf _ _ Hc1)) Hok' Hle') as [Hc2 Hle2].
  set (c2 := set_shared (od_set key (with_terminal true r) (oc_rounds c1)) (oc_replay_cache c1)
    (oc_instrumentation c1) c1) in *.
  set (d := decision_of r _ _ _ _ _ _) in Hb.
  unfold mbind at 1, M_bind, with_round at 1. rewrite Hr.
  change (mk_world r (oc_replay_cache c1) (oc_instrumentation c1)) with w. rewrite Hb.
  change (set_shared _ _ _ c1) with c2.
  assert (Htail : runs key (
    _ ← with_instr (or_latency "decision_ms" (dec_decision_latency_ms d));
    _ ← match dec_quorum_latency_ms d with
        | Some x => with_instr (or_latency "quorum_ms" x) | None => mret tt end;
    _ ← with_instr (or_increment (outcome_counter (dec_outcome d)) 1);
    _ ← with_instr (or_increment "orchestrator_disagreements"
          (Z.of_nat (length (dec_disagreeing_orchestrators d))));
    mret d) (λ d', d' = d)).
  { eapply runs_bind; [apply runs_latency; set_solver |]. intros _ _.
    eapply (runs_bind key _ _ (λ _, True)).
    { destruct (dec_quorum_latency_ms d); [apply runs_latency; set_solver | by apply runs_ret]. }
    intros _ _. eapply runs_bind; [apply runs_increment, outcome_counter_known |]. intros _ _.
    eapply runs_bind; [apply runs_increment; set_solver |]. intros _ _. by apply runs_ret. }
  destruct (Htail c2 Hc2) as (d' & c3 & E & Hc3 & Hle3 & ->).
  exists d, c3, r. split_and!; [exact E | done | by etrans; [exact Hle1 | etrans] | congruence | |].
  - by exists (ae_decision_id env), now, (ae_utc_now env), route, outcome, reason.
  - apply (cl_rounds _ _ Hle3). subst c2. cbn. rewrite od_get_set. by case_decide.
Qed.

(** ** [adjudicate] *)
Lemma close_round_ok r : round_ok r → round_ok (close_round r) ∧ round_le r (close_round r).
Proof. apply with_terminal_ok. Qed.

Lemma release_run key c :
  at_work key c →
  ∃ c1 c', with_round key (on_round close_round) c = (Ok tt, c1) ∧ release_round key c = (Ok tt, c') ∧
    at_work key c1 ∧ coord_le c c1 ∧ c' = set_active (oc_active_keys c1 ∖ {[key]}) c1 ∧
    ∃ r, od_get key (oc_rounds c') = Some r ∧ dr_terminal r = true.
Proof.
  intros Hc. destruct (runs_on_round key close_round close_round_ok c Hc) as ([] & c1 & E & Hc1 & Hle & _).
  exists c1. eexists. split_and!; [done | | done | done | reflexivity |].
  - unfold release_round, mbind, M_bind. by rewrite E.
  - unfold with_round in E. destruct (aw_round _ _ Hc) as [r Hr]. rewrite Hr in E.
    injection E as <-. exists (close_round r). cbn. rewrite od_get_set. by case_decide.
Qed.

Lemma set_active_work key a c : at_work key c → at_work key (set_active a c).
Proof. intros [[] ? ?]. by constructor; [constructor |..]. Qed.

(** From a claimed round to its decision. *)
Lemma work_run env request deadline c :
  at_work (round_key request) c →
  ∃ d c' c1 r r', 
    (_ ← try_finally (run_round env (round_key request) request deadline)
           (release_round (round_key request));
     report_decision env (round_key request)) c = (Ok d, c') ∧
    at_work (round_key request) c' ∧ coord_le c c1 ∧
    coord_le (set_active (oc_active_keys c1 ∖ {[round_key request]}) c1) c' ∧
    dr_terminal r = true ∧ round_ok r ∧ reports r d ∧
    od_get (round_key request) (oc_rounds c') = Some r' ∧ round_le r r'.
Proof.
  set (key := round_key request). intros Hc.
  destruct (runs_round env key request deadline c Hc) as ([] & c0 & E0 & Hc0 & Hle0 & _).
  destruct (release_run key c0 Hc0) as (c1 & c2 & _ & E2 & Hc1 & Hle1 & -> & r & Hr & Ht).
  assert (Hc2 : at_work key (set_active (oc_active_keys c1 ∖ {[key]}) c1)) by (by apply set_active_work).
  destruct (report_run env key _ Hc2) as (d & c3 & r0 & E3 & Hc3 & Hle3 & Hr0 & Hrep & r' & Hr' & Hle').
  rewrite Hr in Hr0. injection Hr0 as <-.
  exists d, c3, c1, r, r'. split_and!; [| done | by etrans | done | done | | done | done |].
  - unfold mbind, M_bind, try_finally. rewrite E0, E2. exact E3.
  - by destruct (cw_rounds _ (aw_wf _ _ Hc2) key r) as (? & _); [apply od_get_Some_elem |].
  - etrans; [|exact Hle']. apply with_terminal_ok.
    by destruct (cw_rounds _ (aw_wf _ _ Hc2) key r) as (? & _); [apply od_get_Some_elem |].
Qed.

Lemma history_le_coord key c c1 c2 :
  history_le key c c1 → coord_le c1 c2 → history_le key c c2.
Proof.
  intros Hh Hle k r' Hr'.
  destruct (od_get k (oc_rounds c1)) as [r1|] eqn:Hr1.
  - destruct (cl_rounds _ _ Hle k r1 Hr1) as (r2 & Hr2 & Hle2). simplify_eq.
    specialize (Hh k r1 Hr1). destruct (od_get k (oc_rounds c)); [by etrans | done].
  - exfalso. apply od_get_None in Hr1. apply Hr1. rewrite <-(cl_keys _ _ Hle).
    apply od_get_Some_elem in Hr'. by apply (list_elem_of_fmap_2 fst) in Hr'.
Qed.

Definition adjudicated (request : OrchestrationRequestV1) (c' : OrchestrationCoordinator)
    (d : OrchestrationDecisionV1) : Prop :=
  ∃ r r', dr_terminal r = true ∧ round_ok r ∧ reports r d ∧
    dr_keys r = oc_verifier c' ∧ request_digest request = Ok (dr_request_digest r) ∧
    round_key (dr_request r) = round_key request ∧
    od_get (round_key request) (oc_rounds c') = Some r' ∧ round_le r r'.

Lemma adjudicate_run env request timeout c out c' :
  quiescent c → request_validate request = Ok tt →
  adjudicate env request timeout c = (out, c') →
  quiescent c' ∧ same_coord c c' ∧ history_le (round_key request) c c' ∧
  match out with
  | Ok d => adjudicated request c' d
  | Raise e => exn_type e = ValueError
  end.
Proof.
  intros Hq Hv Hrun. unfold adjudicate in Hrun.
  destruct (_ || _).
  { injection Hrun as <- <-. split_and!; [done | by constructor | | done]. intros k r Hk. by rewrite Hk. }
  apply M_bind_inv in Hrun as [(u & c1 & Hclaim & Hrun)|(e & Hclaim & ->)];
    apply (claim_run _ _ _ _ _ Hq Hv) in Hclaim; [|naive_solver].
  destruct Hclaim as [[Hw Hact Hhist Hsame Hle (r1 & Hr1 & _ & Hd1 & _)] Hopen].
  apply M_bind_inv in Hrun as [(u2 & c2 & Hinc & Hrun)|(e & Hinc & ->)];
    destruct (runs_increment (round_key request) "rounds_started" 1 ltac:(set_solver) c1 Hw)
      as (u3 & c3 & E3 & Hw3 & Hle3 & _); rewrite E3 in Hinc; simplify_eq.
  apply M_bind_inv in Hrun as [(now & c4 & Ht & Hrun)|(e & Ht & ->)];
    destruct (runs_tick (round_key request) env c2 Hw3) as (now' & c5 & E5 & Hw5 & Hle5 & _);
    rewrite E5 in Ht; simplify_eq.
  destruct (work_run env request (f_add now timeout) c4 Hw5)
    as (d & c6 & c7 & r & r' & E & Hw6 & Hle7 & Hle6 & Hterm & Hok & Hrep & Hr' & Hler).
  rewrite E in Hrun. injection Hrun as <- <-.
  assert (Hl : coord_le c1 c7) by (by do 2 (etrans; [eassumption |])).
  assert (Hidle : oc_active_keys c6 = ∅).
  { rewrite (cl_active _ _ Hle6). cbn. rewrite (cl_active _ _ Hl), Hact. set_solver. }
  assert (Hrounds : history_le (round_key request) c c6).
  { apply (history_le_coord _ _ (set_active (oc_active_keys c7 ∖ {[round_key request]}) c7));
      [exact (history_le_coord _ _ _ _ Hle Hl) | done]. }
  split_and!; [constructor; [apply Hw6 | done |] | | done |].
  - rewrite (cl_limit _ _ Hle6), <-(length_fmap fst (oc_rounds c6)), (cl_keys _ _ Hle6). cbn.
    by rewrite (cl_keys _ _ Hl), length_fmap, (cl_limit _ _ Hl).
  - apply (same_trans _ _ _ Hsame), (same_trans _ _ _ (same_le _ _ Hl)).
    exact (same_trans _ _ _ (same_active c7 _) (same_le _ _ Hle6)).
  - destruct (cl_rounds _ _ Hl _ _ Hr1) as (r7 & Hr7 & Hle17).
    destruct (cl_rounds _ _ Hle6 _ _ Hr7) as (r6 & Hr6 & Hle76). rewrite Hr' in Hr6. injection Hr6 as <-.
    destruct (cw_rounds _ (aw_wf _ _ Hw6) (round_key request) r') as (_ & Hkey & Hkeys);
      [by apply od_get_Some_elem |].
    exists r, r'. split_and!; try done.
    + by rewrite <-(le_keys _ _ Hler).
    + rewrite <-(le_digest _ _ Hler), (le_digest _ _ Hle76), (le_digest _ _ Hle17). done.
    + by rewrite Hkey, (le_request _ _ Hler).
Qed.
End lifecycle.
