(* ===== verification/OrAgreement.v ===== *)
(** * Agreement and liveness of a round

    The round as a transition system and what holds along its histories; when a
    message is accepted; and what honest orchestrators bring about. *)

From S2P Require Import Prelude PyString Json OrContracts OrReplica OrRound OrRoundFacts OrRoundSafety.
From S2P Require Import OrCoordinator OrCoordinatorFacts OrLifecycle.

Section agreement.
Context `{PyRuntime}.

(** ** Histories

    A round takes messages (any message a validated contract can hold, forged
    ones included), is marked, closed and decided, while other rounds change the
    shared replay cache and instrumentation. *)
Inductive round_step : RoundWorld → RoundWorld → Prop :=
  | step_proposal p out w w' :
      proposal_validate p = Ok tt → accept_proposal p w = (out, w') → round_step w w'
  | step_vote now v out w w' : accept_vote now v w = (out, w') → round_step w w'
  | step_decide id now utc out w w' : build_decision id now utc w = (out, w') → round_step w w'
  | step_close w : round_step w (mk_world (close_round (rw_round w)) (rw_cache w) (rw_instr w))
  | step_presence u o t d w :
      u ∪ o ∪ t ∪ d ⊆ list_to_set ORCHESTRATOR_IDS →
      round_step w (mk_world (with_presence u o t d (rw_round w)) (rw_cache w) (rw_instr w))
  | step_latencies p v w :
      nonneg p → nonneg v →
      round_step w (mk_world (with_latencies p v (rw_round w)) (rw_cache w) (rw_instr w))
  | step_shared c i w :
      cache_ok c → or_instr_ok i → round_step w (mk_world (rw_round w) c i).

Lemma round_step_safe w w' :
  round_step w w' → world_ok w → round_ok (rw_round w) →
  world_ok w' ∧ round_ok (rw_round w') ∧ round_le (rw_round w) (rw_round w').
Proof.
  intros Hs Hw Hr. destruct Hs as [p out w w' Hval Hrun|now v out w w' Hrun|id now utc out w w' Hrun
    |w|u o t d w Hsub|p v w Hp Hv|c i w Hc Hi].
  - destruct (round_may_proposal p (proposal_digest_nonempty p Hval) w out w' Hw Hr Hrun) as (?&?&?&_).
    done.
  - by destruct (round_may_vote now v w out w' Hw Hr Hrun) as (?&?&?&_).
  - destruct (build_decision_run id now utc w Hr) as (route & outcome & reason & _ & E).
    rewrite E in Hrun. injection Hrun as <- <-. split; [by destruct Hw; constructor |].
    by apply with_terminal_ok.
  - split; [by destruct Hw; constructor |]. by apply with_terminal_ok.
  - split; [by destruct Hw; constructor |]. by apply presence_ok.
  - split; [by destruct Hw; constructor |]. by apply latencies_ok.
  - split; [by constructor | by split].
Qed.

Lemma round_steps_safe w w' :
  rtc round_step w w' → world_ok w → round_ok (rw_round w) →
  world_ok w' ∧ round_ok (rw_round w') ∧ round_le (rw_round w) (rw_round w').
Proof.
  induction 1 as [w|w1 w2 w3 Hs _ IH]; intros Hw Hr; [by split_and! |].
  destruct (round_step_safe _ _ Hs Hw Hr) as (Hw2 & Hr2 & Hle).
  destruct (IH Hw2 Hr2) as (? & ? & ?). split_and!; [done | done | by etrans].
Qed.

(** ** When a message is accepted *)
(** Whatever the cache observes, other messages are only forgotten. *)
Lemma observe_replay_other s m h c s' m' :
  cache_ok c → (s', m') ≠ (s, m) → od_get (s', m') (rc_entries c) = None →
  od_get (s', m') (rc_entries (observe_replay s m h c).2) = None.
Proof.
  intros [_ Hnd] Hne Hn. apply od_get_None. apply od_get_None in Hn.
  unfold observe_replay. destruct (od_get (s, m) (rc_entries c)) as [h'|] eqn:Hg; cbn [snd rc_entries].
  - unfold od_move_to_end. rewrite Hg, fmap_app. intros [Hin|Hin]%elem_of_app; [|set_solver].
    apply Hn. eapply elem_of_submseteq; [exact Hin |]. apply sublist_submseteq, od_del_keys.
  - unfold evict_oldest. rewrite fmap_drop, od_set_new by done. rewrite fmap_app. intros Hin.
    assert (Hin' : (s', m') ∈ (rc_entries c).*1 ++ [(s, m)])
      by (by eapply elem_of_submseteq, sublist_submseteq, sublist_drop).
    set_solver.
Qed.

Lemma replay_new {A} `{SignedMessage A} phase (m : A) sender mid h (k : RM string) w :
  od_get (sender, mid) (rc_entries (rw_cache w)) = None →
  (replay ← on_cache (observe_replay sender mid h);
   match replay with
   | DUPLICATE => duplicate
   | CONFLICT => reject phase "CONFLICTING_MESSAGE_ID" m
       "message identity reused with different content"
   | NEW => k
   end) w =
  k (mk_world (rw_round w) (observe_replay sender mid h (rw_cache w)).2 (rw_instr w)).
Proof.
  intros Hu. apply (observe_replay_inv _ _ h) in Hu.
  unfold mbind, M_bind, on_cache. destruct (observe_replay _ _ _ _) as [v c]. cbn in *. by subst.
Qed.

Lemma accept_proposal_accepts p w :
  world_ok w → dr_terminal (rw_round w) = false → good_proposal (rw_round w) p →
  unseen p (rw_cache w) → od_get (pr_orchestrator_id p) (dr_proposals (rw_round w)) = None →
  ∃ w', accept_proposal p w = (Ok "ACCEPTED", w') ∧
    rw_round w' = with_messages (od_set (pr_orchestrator_id p) p (dr_proposals (rw_round w)))
      (dr_votes (rw_round w)) (dr_quorum_digest (rw_round w)) (dr_quorum_at (rw_round w))
      (rw_round w) ∧
    rw_cache w' = (observe_replay (pr_orchestrator_id p) (pr_message_id p) (pr_message_hash p)
      (rw_cache w)).2 ∧ world_ok w'.
Proof.
  intros Hw Ht [Hb Hroute Hdig] Hu Hnew. unfold accept_proposal. unfold mbind at 1, M_bind.
  rewrite screen_pass by done. unfold mbind at 1, M_bind, this_round, gets.
  rewrite bool_decide_true by done. cbn [negb].
  unfold mbind at 1, M_bind, lift. unfold digest_matches in Hdig. rewrite Hdig.
  rewrite bool_decide_true by done. cbn [negb].
  rewrite (replay_new PHASE_PROPOSAL p) by exact Hu. rewrite Hnew.
  unfold mbind, M_bind, on_round, modify, on_instr. cbn [rw_instr rw_round rw_cache].
  destruct (or_increment_ok "proposals_received" 1 _ (wk_instr _ Hw)) as (i & -> & Hi); [set_solver |].
  eexists. split_and!; [done | done | done |]. constructor; [done |].
  apply observe_replay_ok, (wk_cache _ Hw).
Qed.

Lemma accept_vote_accepts now v w :
  world_ok w → dr_terminal (rw_round w) = false → good_vote (rw_round w) v →
  unseen v (rw_cache w) → od_get (vt_orchestrator_id v) (dr_votes (rw_round w)) = None →
  ∃ w', accept_vote now v w = (Ok "ACCEPTED", w') ∧
    rw_round w' = update_quorum now (with_messages (dr_proposals (rw_round w))
      (od_set (vt_orchestrator_id v) v (dr_votes (rw_round w)))
      (dr_quorum_digest (rw_round w)) (dr_quorum_at (rw_round w)) (rw_round w)) ∧
    rw_cache w' = (observe_replay (vt_orchestrator_id v) (vt_message_id v) (vt_message_hash v)
      (rw_cache w)).2 ∧ world_ok w'.
Proof.
  intros Hw Ht [Hb Hk] Hu Hnew. unfold accept_vote. unfold mbind at 1, M_bind.
  rewrite screen_pass by done. unfold mbind at 1, M_bind, this_round, gets.
  rewrite bool_decide_true by done. cbn [negb].
  rewrite (replay_new PHASE_VOTE v) by exact Hu. rewrite Hnew.
  unfold mbind, M_bind, on_round, modify, on_instr. cbn [rw_instr rw_round rw_cache].
  destruct (or_increment_ok "votes_received" 1 _ (wk_instr _ Hw)) as (i & -> & Hi); [set_solver |].
  eexists. split_and!; [done | done | done |]. constructor; [done |].
  apply observe_replay_ok, (wk_cache _ Hw).
Qed.

(** ** Honest messages are good *)
Lemma sent_proposal_good r a req p routes :
  round_ok r → replica_wf a → knows_key (mv_keys (dr_keys r)) a →
  orr_orchestrator_id a ∈ ORCHESTRATOR_IDS → proposal_sent a req p →
  req = dr_request r → route_ids req = routes → pr_proposed_route_id p ∈ routes →
  good_proposal r p.
Proof.
  intros Hr Hwf Hk Hid Hs -> <- Hroute. pose proof (ro_digest _ Hr) as Hd.
  constructor; [|done | apply (pt_semantic _ _ _ Hs)].
  constructor; cbn; [by rewrite (pt_sender _ _ _ Hs) | by apply (pt_authentic _ _ _ Hs) | apply Hs..|].
  pose proof (pt_digest _ _ _ Hs). congruence.
Qed.

Lemma sent_vote_good r a req p v :
  round_ok r → replica_wf a → knows_key (mv_keys (dr_keys r)) a →
  orr_orchestrator_id a ∈ ORCHESTRATOR_IDS → vote_sent a req p v → req = dr_request r →
  pr_proposal_digest p ∈ known_digests r → good_vote r v.
Proof.
  intros Hr Hwf Hk Hid Hs -> Hknown. pose proof (ro_digest _ Hr) as Hd.
  constructor; [|by rewrite (vs_selected _ _ _ _ Hs)].
  constructor; cbn; [by rewrite (vs_sender _ _ _ _ Hs) | by apply (vs_authentic _ _ _ _ Hs)
    | apply Hs..|].
  pose proof (vs_digest _ _ _ _ Hs). congruence.
Qed.

(** ** The policy *)
Definition route_min (c : CandidateRouteV1) (l : list CandidateRouteV1) : Prop :=
  c ∈ l ∧ ∀ x, x ∈ l → route_ltb x c = false.

Lemma route_ltb_trans a b c : route_ltb a b = true → route_ltb b c = true → route_ltb a c = true.
Proof.
  unfold route_ltb. rewrite !orb_true_iff, !andb_true_iff, !Z.ltb_lt, !Z.eqb_eq, !negb_true_iff.
  intros [H1|[E1 S1]] [H2|[E2 S2]]; [left; lia | left; lia | left; lia |].
  right. split; [lia |]. destruct (str_leb (cr_route_id c) (cr_route_id a)) eqn:Hca; [|done].
  destruct (str_leb_total (cr_route_id b) (cr_route_id c)) as [Hbc|Hcb]; [|congruence].
  rewrite (str_leb_trans _ _ _ Hbc Hca) in S1. done.
Qed.

Lemma route_ltb_irrefl a : route_ltb a a = false.
Proof.
  unfold route_ltb. rewrite Z.ltb_irrefl, Z.eqb_refl. cbn.
  destruct (str_leb_total (cr_route_id a) (cr_route_id a)) as [->| ->]; done.
Qed.

(** Not less in either order: same priority, same identifier. *)
Lemma route_ltb_total a b :
  route_ltb a b = false → route_ltb b a = false → cr_route_id a = cr_route_id b.
Proof.
  unfold route_ltb. rewrite !orb_false_iff, !andb_false_iff, !Z.ltb_ge, !Z.eqb_neq, !negb_false_iff.
  intros [H1 [H2|H2]] [H3 [H4|H4]]; try lia. by apply str_leb_antisym.
Qed.

Lemma min_route_fold (best : CandidateRouteV1) l seen :
  route_min best seen →
  route_min (foldl (λ best y, if route_ltb y best then y else best) best l) (seen ++ l).
Proof.
  revert best seen. induction l as [|y l IH]; intros best seen [Hin Hmin]; cbn [foldl].
  { by rewrite app_nil_r. }
  replace (seen ++ y :: l) with ((seen ++ [y]) ++ l) by (by rewrite <-app_assoc).
  apply IH. destruct (route_ltb y best) eqn:Hlt.
  - split; [set_solver |]. intros x [Hx|Hx%list_elem_of_singleton]%elem_of_app.
    + destruct (route_ltb x y) eqn:Hxy; [|done].
      rewrite <-(Hmin x Hx). symmetry. by eapply route_ltb_trans.
    + subst. apply route_ltb_irrefl.
  - split; [set_solver |]. intros x [Hx|Hx%list_elem_of_singleton]%elem_of_app; [by apply Hmin | by subst].
Qed.

Lemma min_route_spec l : match min_route l with Some c => route_min c l | None => l = [] end.
Proof.
  destruct l as [|x l]; cbn [min_route]; [done |]. apply (min_route_fold x l [x]).
  split; [set_solver |]. intros y ->%list_elem_of_singleton. apply route_ltb_irrefl.
Qed.

(** The policy's choice depends on the set of routes only. *)
Lemma min_route_perm l k : l ≡ₚ k → cr_route_id <$> min_route l = cr_route_id <$> min_route k.
Proof.
  intros Hp. pose proof (min_route_spec l) as Hl. pose proof (min_route_spec k) as Hk.
  destruct (min_route l) as [a|], (min_route k) as [b|]; cbn.
  - destruct Hl as [Hain Ha], Hk as [Hbin Hb]. f_equal.
    apply route_ltb_total; [apply Hb; by rewrite <-Hp | apply Ha; by rewrite Hp].
  - subst. apply Permutation_nil_r in Hp. subst. destruct Hl as [Hin _]. set_solver.
  - subst. apply Permutation_nil_l in Hp. subst. destruct Hk as [Hin _]. set_solver.
  - done.
Qed.

(** ** Honest orchestrators *)

(** [honest_call r ep ev req p v]: what an honest orchestrator contributes to a
    round on [req]. *)
Record honest_call (keys : gmap string string) (req : OrchestrationRequestV1)
    (a : OrchestratorReplica) (p : OrchestratorProposalV1) (v : OrchestratorVoteV1) : Prop := {
  hc_wf : replica_wf a;
  hc_key : knows_key keys a;
  hc_id : orr_orchestrator_id a ∈ ORCHESTRATOR_IDS;
  hc_proposal : ∃ env a', orchestrator_propose env req a = (Ok p, a');
  hc_vote : ∃ env a1 a', same_identity a a1 ∧ orchestrator_vote env req p a1 = (Ok v, a');
}.

Lemma same_identity_wf a a1 keys :
  same_identity a a1 → replica_wf a → knows_key keys a → replica_wf a1 ∧ knows_key keys a1.
Proof.
  intros (Hid & _ & Ha & _) Hwf Hk. unfold replica_wf, knows_key in *. rewrite Hid, Ha. done.
Qed.

Lemma honest_sends keys req a p v :
  honest_call keys req a p v → proposal_sent a req p ∧
  ∃ a1, same_identity a a1 ∧ vote_sent a1 req p v.
Proof.
  intros [_ _ _ (e & a' & Hp) (e2 & a1 & a2 & Hs & Hv)].
  apply propose_run in Hp as [_ Hp]. apply vote_run in Hv as [_ Hv].
  split; [done |]. by exists a1.
Qed.

(** The two sides of an honest call as the round sees them. *)
Lemma honest_good_proposal r req a p v route :
  round_ok r → dr_request r = req → honest_call (mv_keys (dr_keys r)) req a p v →
  policy_propose (orr_policy a) req = route → (∀ x y, route = Ok (x, y) → x ∈ route_ids req) →
  good_proposal r p ∧ pr_orchestrator_id p = orr_orchestrator_id a ∧ proposal_validate p = Ok tt.
Proof.
  intros Hr Hreq Hc Hpol Hin. destruct (honest_sends _ _ _ _ _ Hc) as [Hp _].
  split_and!; [| apply Hp..].
  eapply sent_proposal_good; [done | apply Hc.. | exact Hp | done | done |].
  destruct (pt_route _ _ _ Hp) as [y Hy]. rewrite Hpol in Hy. by eapply Hin.
Qed.

Lemma honest_good_vote r req a p v :
  round_ok r → dr_request r = req → honest_call (mv_keys (dr_keys r)) req a p v →
  pr_proposal_digest p ∈ known_digests r →
  good_vote r v ∧ vt_orchestrator_id v = orr_orchestrator_id a ∧ vt_vote v = APPROVE ∧
  vt_selected_proposal_digest v = pr_proposal_digest p.
Proof.
  intros Hr Hreq Hc Hk. destruct (honest_sends _ _ _ _ _ Hc) as (_ & a1 & Hs & Hv).
  pose proof Hs as (Hid & _).
  destruct (same_identity_wf _ _ (mv_keys (dr_keys r)) Hs) as [Hwf Hkey]; [apply Hc..|].
  split_and!; [| rewrite <-Hid; apply Hv | apply Hv..].
  eapply sent_vote_good; [done | done | done | rewrite Hid; apply Hc | exact Hv | done | done].
Qed.

(** The proposal digest is a function of the request and the route. *)
Lemma proposal_digest_of_route r p q :
  good_proposal r p → good_proposal r q → pr_proposed_route_id p = pr_proposed_route_id q →
  pr_proposal_digest p = pr_proposal_digest q.
Proof.
  intros [Hp _ Hdp] [Hq _ Hdq] Hroute. unfold digest_matches in *.
  pose proof (bt_request _ _ Hp) as E1. pose proof (bt_version _ _ Hp) as E2.
  pose proof (bt_round _ _ Hp) as E3. pose proof (bt_digest _ _ Hp) as E4.
  pose proof (bt_request _ _ Hq) as F1. pose proof (bt_version _ _ Hq) as F2.
  pose proof (bt_round _ _ Hq) as F3. pose proof (bt_digest _ _ Hq) as F4. cbn in *.
  rewrite E1, E2, E3, E4, Hroute in Hdp. rewrite F1, F2, F3, F4 in Hdq. congruence.
Qed.

Lemma accept_run_ok {A} (f : RM A) out w w' :
  round_may f (λ _, True) → world_ok w → round_ok (rw_round w) → f w = (out, w') →
  world_ok w' ∧ round_ok (rw_round w').
Proof. intros Hf Hw Hr Hrun. by destruct (Hf w out w' Hw Hr Hrun) as (? & ? & _). Qed.

(** Both proposals are recorded. *)
Lemma two_proposals w req a1 p1 v1 a2 p2 v2 route reason1 reason2 :
  world_ok w → round_ok (rw_round w) → fresh_round (rw_round w) → dr_request (rw_round w) = req →
  honest_call (mv_keys (dr_keys (rw_round w))) req a1 p1 v1 →
  honest_call (mv_keys (dr_keys (rw_round w))) req a2 p2 v2 →
  orr_orchestrator_id a1 ≠ orr_orchestrator_id a2 →
  policy_propose (orr_policy a1) req = Ok (route, reason1) →
  policy_propose (orr_policy a2) req = Ok (route, reason2) → route ∈ route_ids req →
  unseen p1 (rw_cache w) → unseen p2 (rw_cache w) →
  ∃ w2, (_ ← accept_proposal p1; accept_proposal p2) w = (Ok "ACCEPTED", w2) ∧
    world_ok w2 ∧ round_ok (rw_round w2) ∧
    rw_round w2 = with_messages [(orr_orchestrator_id a1, p1); (orr_orchestrator_id a2, p2)] []
      None (dr_quorum_at (rw_round w)) (rw_round w) ∧
    (∀ s m, (s, m) ≠ (orr_orchestrator_id a1, pr_message_id p1) →
       (s, m) ≠ (orr_orchestrator_id a2, pr_message_id p2) →
       od_get (s, m) (rc_entries (rw_cache w)) = None →
       od_get (s, m) (rc_entries (rw_cache w2)) = None).
Proof.
  intros Hw Hr (Hfp & Hfv & Hfq & Hft) Hreq H1 H2 Hne Hpol1 Hpol2 Hroute Hu1 Hu2.
  destruct (honest_good_proposal _ _ _ _ _ _ Hr Hreq H1 Hpol1) as (Hg1 & Hs1 & Hval1); [naive_solver |].
  destruct (honest_good_proposal _ _ _ _ _ _ Hr Hreq H2 Hpol2) as (Hg2 & Hs2 & Hval2); [naive_solver |].
  destruct (accept_proposal_accepts p1 w Hw Hft Hg1 Hu1) as (w1 & E1 & Hr1 & Hc1 & Hw1);
    [by rewrite Hfp |].
  destruct (accept_run_ok _ _ _ _ (round_may_proposal p1 (proposal_digest_nonempty _ Hval1)) Hw Hr E1)
    as [_ Hok1].
  assert (Hu2' : unseen p2 (rw_cache w1)).
  { unfold unseen. rewrite Hc1. apply observe_replay_other; [apply Hw | | done].
    cbn. rewrite Hs1, Hs2. congruence. }
  destruct (accept_proposal_accepts p2 w1 Hw1) as (w2 & E2 & Hr2 & Hc2 & Hw2);
    [by rewrite Hr1 | | done | |].
  { rewrite Hr1. by apply (good_proposal_same (rw_round w)). }
  { rewrite Hr1, Hfp. cbn. rewrite Hs1, Hs2. by case_decide. }
  destruct (accept_run_ok _ _ _ _ (round_may_proposal p2 (proposal_digest_nonempty _ Hval2)) Hw1 Hok1 E2)
    as [_ Hok2].
  exists w2. split_and!; [by unfold mbind, M_bind; rewrite E1 | done | done | |].
  - rewrite Hr2, Hr1, Hfp, Hfv, Hfq. cbn. rewrite Hs1, Hs2. by case_decide.
  - intros s m Hsm1 Hsm2 Hn. rewrite Hc2. apply observe_replay_other; [apply Hw1 | by rewrite Hs2 |].
    rewrite Hc1. apply observe_replay_other; [apply Hw | by rewrite Hs1 | done].
Qed.

(** Two approvals of one digest are a quorum. *)
Lemma two_votes now1 now2 w v1 v2 d :
  world_ok w → round_ok (rw_round w) → dr_terminal (rw_round w) = false →
  dr_votes (rw_round w) = [] → good_vote (rw_round w) v1 → good_vote (rw_round w) v2 →
  vt_orchestrator_id v1 ≠ vt_orchestrator_id v2 → vt_vote v1 = APPROVE → vt_vote v2 = APPROVE →
  vt_selected_proposal_digest v1 = d → vt_selected_proposal_digest v2 = d →
  unseen v1 (rw_cache w) → unseen v2 (rw_cache w) →
  ∃ w2, (_ ← accept_vote now1 v1; accept_vote now2 v2) w = (Ok "ACCEPTED", w2) ∧
    world_ok w2 ∧ round_ok (rw_round w2) ∧ dr_proposals (rw_round w2) = dr_proposals (rw_round w) ∧
    dr_quorum_digest (rw_round w2) = Some d.
Proof.
  intros Hw Hr Ht Hv Hg1 Hg2 Hne Ha1 Ha2 Hd1 Hd2 Hu1 Hu2.
  destruct (accept_vote_accepts now1 v1 w Hw Ht Hg1 Hu1) as (w1 & E1 & Hr1 & Hc1 & Hw1);
    [by rewrite Hv |].
  destruct (accept_run_ok _ _ _ _ (round_may_vote now1 v1) Hw Hr E1) as [_ Hok1].
  destruct (update_quorum_shape now1 (with_messages (dr_proposals (rw_round w))
    (od_set (vt_orchestrator_id v1) v1 (dr_votes (rw_round w))) (dr_quorum_digest (rw_round w))
    (dr_quorum_at (rw_round w)) (rw_round w))) as (q & a & Hq).
  rewrite Hq in Hr1.
  destruct (accept_vote_accepts now2 v2 w1 Hw1) as (w2 & E2 & Hr2 & Hc2 & Hw2).
  { by rewrite Hr1. }
  { rewrite Hr1. by apply (good_vote_mono (rw_round w)). }
  { unfold unseen. rewrite Hc1. apply observe_replay_other; [apply Hw | | done]. cbn. congruence. }
  { rewrite Hr1. cbn. rewrite Hv. cbn. by case_decide. }
  destruct (accept_run_ok _ _ _ _ (round_may_vote now2 v2) Hw1 Hok1 E2) as [_ Hok2].
  exists w2. split_and!; [by unfold mbind, M_bind; rewrite E1 | done | done | |].
  - rewrite Hr2. destruct (update_quorum_shape now2 (with_messages (dr_proposals (rw_round w1))
      (od_set (vt_orchestrator_id v2) v2 (dr_votes (rw_round w1))) (dr_quorum_digest (rw_round w1))
      (dr_quorum_at (rw_round w1)) (rw_round w1))) as (q2 & a2 & ->). cbn. by rewrite Hr1.
  - apply (ro_quorum _ Hok2). rewrite Hr2.
    destruct (update_quorum_shape now2 (with_messages (dr_proposals (rw_round w1))
      (od_set (vt_orchestrator_id v2) v2 (dr_votes (rw_round w1))) (dr_quorum_digest (rw_round w1))
      (dr_quorum_at (rw_round w1)) (rw_round w1))) as (q2 & a2 & ->). cbn [dr_votes with_messages].
    rewrite Hr1. cbn [dr_votes with_messages]. rewrite Hv. cbn [od_set].
    rewrite decide_False by done. unfold approvers.
    rewrite !filter_cons_True by (by split). rewrite filter_nil. cbn. unfold REQUIRED_QUORUM. lia.
Qed.

(** Two honest orchestrators with one policy carry the round to that policy's
    route. *)
Lemma honest_pair w req a1 p1 v1 a2 p2 v2 route reason1 reason2 now1 now2 id now utc :
  world_ok w → round_ok (rw_round w) → fresh_round (rw_round w) → dr_request (rw_round w) = req →
  honest_call (mv_keys (dr_keys (rw_round w))) req a1 p1 v1 →
  honest_call (mv_keys (dr_keys (rw_round w))) req a2 p2 v2 →
  orr_orchestrator_id a1 ≠ orr_orchestrator_id a2 →
  policy_propose (orr_policy a1) req = Ok (route, reason1) →
  policy_propose (orr_policy a2) req = Ok (route, reason2) → route ∈ route_ids req →
  unseen p1 (rw_cache w) → unseen p2 (rw_cache w) → unseen v1 (rw_cache w) → unseen v2 (rw_cache w) →
  pr_message_id p1 ≠ vt_message_id v1 → pr_message_id p2 ≠ vt_message_id v2 →
  ∃ d w', (_ ← accept_proposal p1; _ ← accept_proposal p2; _ ← accept_vote now1 v1;
           _ ← accept_vote now2 v2; build_decision id now utc) w = (Ok d, w') ∧
    dec_outcome d = DECIDED ∧ dec_selected_route_id d = Some route.
Proof.
  intros Hw Hr Hf Hreq H1 H2 Hne Hpol1 Hpol2 Hroute Hup1 Hup2 Huv1 Huv2 Hm1 Hm2.
  destruct (two_proposals w req a1 p1 v1 a2 p2 v2 route reason1 reason2 Hw Hr Hf Hreq H1 H2 Hne Hpol1
    Hpol2 Hroute Hup1 Hup2) as (w2 & E & Hw2 & Hr2 & Hround & Hother).
  assert (Hreq2 : dr_request (rw_round w2) = req) by (by rewrite Hround).
  assert (H1' : honest_call (mv_keys (dr_keys (rw_round w2))) req a1 p1 v1) by (by rewrite Hround).
  assert (H2' : honest_call (mv_keys (dr_keys (rw_round w2))) req a2 p2 v2) by (by rewrite Hround).
  assert (Hk : known_digests (rw_round w2) = [pr_proposal_digest p1; pr_proposal_digest p2])
    by (by rewrite Hround).
  destruct (honest_good_proposal _ _ _ _ _ _ Hr2 Hreq2 H1' Hpol1) as (Hgp1 & Hsp1 & _); [naive_solver |].
  destruct (honest_good_proposal _ _ _ _ _ _ Hr2 Hreq2 H2' Hpol2) as (Hgp2 & Hsp2 & _); [naive_solver |].
  destruct (honest_sends _ _ _ _ _ H1) as [Hsent1 _]. destruct (honest_sends _ _ _ _ _ H2) as [Hsent2 _].
  destruct (pt_route _ _ _ Hsent1) as [y1 Hy1], (pt_route _ _ _ Hsent2) as [y2 Hy2].
  assert (Hrt1 : pr_proposed_route_id p1 = route) by congruence.
  assert (Hrt2 : pr_proposed_route_id p2 = route) by congruence.
  assert (Hdig : pr_proposal_digest p1 = pr_proposal_digest p2)
    by (apply (proposal_digest_of_route _ _ _ Hgp1 Hgp2); congruence).
  destruct (honest_good_vote _ _ _ _ _ Hr2 Hreq2 H1') as (Hg1 & Hs1 & Ha1 & Hd1);
    [rewrite Hk, elem_of_cons; by left |].
  destruct (honest_good_vote _ _ _ _ _ Hr2 Hreq2 H2') as (Hg2 & Hs2 & Ha2 & Hd2);
    [rewrite Hk, !elem_of_cons; right; by left |].
  destruct (two_votes now1 now2 w2 v1 v2 (pr_proposal_digest p1)) as (w4 & E4 & Hw4 & Hr4 & Hp4 & Hq4);
    try done; try congruence.
  { rewrite Hround. apply Hf. }
  { by rewrite Hround. }
  { apply Hother; cbn; [congruence | congruence | done]. }
  { apply Hother; cbn; [congruence | congruence | done]. }
  destruct (build_decision_run id now utc w4 Hr4) as (rt & outcome & reason & Hv & Eb).
  unfold verdict_spec in Hv. rewrite Hq4 in Hv. destruct Hv as (-> & s & p & Hin & _ & ->).
  rewrite Hp4, Hround in Hin. cbn in Hin.
  eexists _, _. split.
  - unfold mbind, M_bind in E, E4 |- *. destruct (accept_proposal p1 w) as [[x1|] w1]; [|done].
    rewrite E. destruct (accept_vote now1 v1 w2) as [[x3|] w3]; [|done]. rewrite E4. exact Eb.
  - split; [done |]. cbn. f_equal.
    apply elem_of_cons in Hin as [Hin|Hin%list_elem_of_singleton]; by simplify_eq.
Qed.

(** When two of the three orchestrators only vote for [digest], nothing else can
    reach the quorum. *)
Lemma honest_votes_win r h1 h2 digest d :
  round_ok r → h1 ≠ h2 → h1 ∈ ORCHESTRATOR_IDS → h2 ∈ ORCHESTRATOR_IDS →
  (∀ s v, s = h1 ∨ s = h2 → (s, v) ∈ dr_votes r → vt_selected_proposal_digest v = digest) →
  dr_quorum_digest r = Some d → d = digest.
Proof.
  intros Hr Hne H1 H2 Hvotes Hq. apply (ro_quorum _ Hr) in Hq. unfold REQUIRED_QUORUM in Hq.
  destruct (quorum_intersect ORCHESTRATOR_IDS [h1; h2] (approvers d (dr_votes r)))
    as (s & Hs & Ha).
  - apply NoDup_cons. split; [set_solver | apply NoDup_singleton].
  - apply approvers_nodup, Hr.
  - set_solver.
  - by apply approvers_universe.
  - cbn. lia.
  - apply elem_of_approvers in Ha as (v & Hin & _ & <-). apply (Hvotes s v); [set_solver | done].
Qed.
End agreement.
