(* ===== verification/OrOperations.v ===== *)
(** * All operations of the orchestration coordinator

    The public operations as one step relation, the invariant every operation
    keeps, when a round can be claimed, and what a second adjudication of the
    same key does. *)

From S2P Require Import Prelude PyString Json OrContracts OrReplica OrRound OrRoundFacts OrRoundSafety.
From S2P Require Import OrCoordinator OrCoordinatorFacts OrAdjudication OrLifecycle.

Section operations.
Context `{PyRuntime}.

(** What callers may do, in any order, one operation at a time. *)
Inductive coordinator_step : OrchestrationCoordinator → OrchestrationCoordinator → Prop :=
  | op_adjudicate env request timeout out c c' :
      request_validate request = Ok tt →
      adjudicate env request timeout c = (out, c') → coordinator_step c c'
  | op_new_round env request out c c' :
      request_validate request = Ok tt → new_round env request c = (out, c') → coordinator_step c c'
  | op_preflight env request out c c' :
      request_validate request = Ok tt → preflight env request c = (out, c') → coordinator_step c c'
  | op_shutdown env out c c' : shutdown env c = (out, c') → coordinator_step c c'
  | op_set_available rid b c :
      coordinator_step c (set_workers (update_replica rid (OrReplica.set_available b) (oc_replicas c))
        (oc_futures c) (oc_next_future c) (oc_inflight c) c)
  | op_complete fid env c : coordinator_step c (complete fid env c).

Lemma workers_quiescent c replicas futures next inflight :
  quiescent c → or_replica_ids replicas = or_replica_ids (oc_replicas c) →
  map_Forall (λ _ f, future_ok f) futures →
  quiescent (set_workers replicas futures next inflight c).
Proof.
  intros [[] Hi Hh] Hids Hf. constructor; [constructor | done | done]; try done. cbn [oc_replicas set_workers]. by rewrite Hids.
Qed.

Lemma control_quiescent c closed ticks points :
  quiescent c → quiescent (set_control (oc_active_keys c) closed ticks points c).
Proof. intros [[] ? ?]. by constructor; [constructor|..]. Qed.

Lemma complete_quiescent fid env c : quiescent c → quiescent (complete fid env c).
Proof.
  intros Hq. unfold complete. destruct (oc_futures c !! fid) as [[rid task|out|]|]; try done.
  destruct (find_orchestrator rid (oc_replicas c)) as [r|] eqn:Hr; [|done].
  destruct (run_task env task r) as [out r'] eqn:Hrun.
  apply run_task_ok in Hrun as [Hid Hok]. apply find_orchestrator_id in Hr.
  apply workers_quiescent; [done | |].
  - apply update_replica_ids. intros x. right. congruence.
  - apply map_Forall_insert_2; [done | apply Hq].
Qed.

Lemma cancel_quiescent env l c :
  quiescent c → ∃ c', foldM (λ _ f, cancel_future env f) tt l c = (Ok tt, c') ∧ quiescent c'.
Proof.
  revert c. induction l as [|f l IH]; intros c Hq; [by exists c |]. cbn [foldM].
  unfold cancel_future at 1, modify. apply IH.
  destruct (oc_futures c !! f) as [[rid task|out|]|]; try done. case_bool_decide; [|done].
  apply workers_quiescent; [done | done |]. apply map_Forall_insert_2; [done | apply Hq].
Qed.

Lemma preflight_run env request out c c' :
  quiescent c → request_validate request = Ok tt → preflight env request c = (out, c') →
  quiescent c' ∧ match out with Ok _ => True | Raise e => exn_type e = ValueError end.
Proof.
  intros Hq Hv Hrun. unfold preflight in Hrun.
  apply M_bind_inv in Hrun as [(u & c1 & Hn & Hrun)|(e & Hn & ->)];
    apply (new_round_run _ _ _ _ _ Hq Hv) in Hn as (Hq1 & _ & _ & Hout); [|by split].
  destruct Hout as (r & Hr & _). unfold mbind at 1, M_bind in Hrun.
  rewrite (with_round_this _ _ _ Hr) in Hrun. unfold mbind, M_bind, get, guardM, check, raise in Hrun.
  destruct (negb _); injection Hrun as <- <-; by split.
Qed.

Lemma coordinator_step_quiescent c c' : coordinator_step c c' → quiescent c → quiescent c'.
Proof.
  intros Hs Hq. destruct Hs as [env request timeout out c c' Hv Hrun|env request out c c' Hv Hrun
    |env request out c c' Hv Hrun|env out c c' Hrun|rid b c|fid env c].
  - by apply (adjudicate_run _ _ _ _ _ _ Hq Hv) in Hrun as (? & _).
  - by apply (new_round_run _ _ _ _ _ Hq Hv) in Hrun as (? & _).
  - by apply (preflight_run _ _ _ _ _ Hq Hv) in Hrun as [? _].
  - unfold shutdown in Hrun. unfold mbind at 1, M_bind, get in Hrun.
    destruct (oc_closed c); [by injection Hrun as <- <- |].
    unfold mbind, M_bind, modify in Hrun.
    set (c1 := set_control (oc_active_keys c) true (oc_ticks c) (oc_points c) c) in Hrun.
    destruct (cancel_quiescent env (map fst (map_to_list (oc_futures c))) c1) as (c2 & E & Hq2).
    { by apply control_quiescent. }
    rewrite E in Hrun. by injection Hrun as <- <-.
  - apply workers_quiescent; [done | | apply Hq]. apply update_replica_ids. by left.
  - by apply complete_quiescent.
Qed.

(** ** A valid request is always hashable, so an open round can be claimed *)
Lemma finite_routes rs : json_finite (JList (map route_dump rs)) = true.
Proof. cbn. induction rs as [|r rs IH]; cbn; [done | exact IH]. Qed.

Lemma request_finite r :
  request_validate r = Ok tt → forallb (λ kv, json_finite kv.2) (rq_provenance r) = true.
Proof.
  intros (u & _ & Hc)%result_bind_ok. apply as_validation_error_ok, first_error_ok in Hc.
  rewrite !Forall_cons in Hc. destruct Hc as (_ & _ & _ & Hb & _).
  apply result_bind_ok in Hb as (text & Ht & _).
  unfold canonical_json_bytes, canonical_json_str in Ht.
  destruct (json_finite (request_dump r)) eqn:Hf; [|done]. unfold request_dump, request_dump_with in Hf.
  cbn [json_finite forallb snd fst] in Hf. rewrite !andb_true_iff in Hf. cbn in Hf. tauto.
Qed.

Lemma request_digest_total r :
  request_validate r = Ok tt → ∃ digest, request_digest r = Ok digest.
Proof.
  intros Hp%request_finite. unfold request_digest, canonical_hash, canonical_content_hash,
    canonical_json_bytes, canonical_json_str.
  assert (json_finite (request_dump_with (isort route_leb (rq_candidate_routes r)) r) = true) as ->;
    [|by eexists].
  pose proof (finite_routes (isort route_leb (rq_candidate_routes r))) as Hr.
  unfold request_dump_with. cbn [json_finite forallb snd fst] in Hr |- *. rewrite Hr, Hp. cbn.
  by destruct (rq_logical_timestamp r), (rq_window_id r), (rq_scope_id r).
Qed.

(** An accepted timeout, an open coordinator, an unused key. *)
Lemma adjudicate_returns env request timeout c :
  quiescent c → request_validate request = Ok tt → oc_closed c = false →
  od_get (round_key request) (oc_rounds c) = None →
  f_leb timeout f_zero || f_gtb timeout (f_of_Z 30) = false →
  ∃ d c', adjudicate env request timeout c = (Ok d, c').
Proof.
  intros Hq Hv Hopen Hnew Ht. unfold adjudicate. rewrite Ht.
  destruct (claim_round env request c) as [out c1] eqn:Hclaim.
  pose proof (claim_run _ _ _ _ _ Hq Hv Hclaim) as Hc. destruct out as [u|e].
  - destruct Hc as [[Hw Hact Hhist Hsame Hle (r1 & Hr1 & _ & Hd1 & _)] _].
    unfold mbind at 1, M_bind. rewrite Hclaim.
    destruct (runs_increment (round_key request) "rounds_started" 1 ltac:(set_solver) c1 Hw)
      as ([] & c2 & E2 & Hw2 & _).
    unfold mbind at 1, M_bind. rewrite E2.
    destruct (runs_tick (round_key request) env c2 Hw2) as (now & c3 & E3 & Hw3 & _).
    unfold mbind at 1, M_bind. rewrite E3.
    destruct (work_run env request (f_add now timeout) c3 Hw3) as (d & c4 & _ & _ & _ & E & _).
    by exists d, c4.
  - exfalso. unfold claim_round in Hclaim. unfold mbind at 1, M_bind, get in Hclaim.
    apply M_bind_inv in Hclaim as [(u & c2 & Hg & Hclaim)|(e' & Hg & _)];
      unfold guardM, check in Hg; rewrite Hopen in Hg; cbn in Hg; simplify_eq.
    assert (Hnr : ∃ c3, new_round env request c2 = (Ok tt, c3)).
    { unfold new_round. unfold mbind at 1, M_bind, get. rewrite Hnew.
      destruct (request_digest_total _ Hv) as [digest Hd].
      unfold mbind, M_bind, tick, lift, new_round_state, modify. rewrite Hd. cbn. by eexists. }
    destruct Hnr as [c3 Hnr]. pose proof (new_round_run _ _ _ _ _ Hq Hv Hnr) as (_ & _ & _ & r & Hr & _ & Ho).
    destruct Ho as [Ho|[_ (_ & _ & _ & Hterm)]]; [congruence |].
    unfold mbind at 1, M_bind in Hclaim. rewrite Hnr in Hclaim.
    unfold mbind at 1, M_bind in Hclaim. rewrite (with_round_this _ _ _ Hr) in Hclaim.
    unfold mbind, M_bind, guardM, check, modify in Hclaim. rewrite Hterm in Hclaim. done.
Qed.

(** ** A new coordinator *)
Lemma new_or_instrumentation_ok i :
  new_or_instrumentation 256 64 = Ok i → or_instr_ok i.
Proof. intros [= <-]. constructor; try done; [repeat constructor | cbn; lia]. Qed.

Lemma new_coordinator_quiescent replicas keys cache_limit history_limit instr c :
  new_or_coordinator replicas keys cache_limit history_limit instr = Ok c →
  match instr with Some i => or_instr_ok i | None => True end → quiescent c.
Proof.
  unfold new_or_coordinator. intros (u1 & Hids & Hc)%result_bind_ok Hi.
  apply result_bind_ok in Hc as (u2 & _ & Hc). apply result_bind_ok in Hc as (u3 & Hl & Hc).
  apply result_bind_ok in Hc as (i & Hinstr & Hc). apply result_bind_ok in Hc as (cache & Hcache & Hc).
  injection Hc as <-. apply check_ok in Hids, Hl. apply andb_true_iff in Hids as [_ Hids].
  apply bool_decide_eq_true in Hids. apply Z.leb_le in Hl.
  constructor; [constructor | done | cbn; lia]; try done; cbn.
  - destruct instr; [by simplify_eq | by apply new_or_instrumentation_ok].
  - unfold new_replay_cache in Hcache. apply result_bind_ok in Hcache as (? & _ & [= <-]).
    constructor; [cbn; lia | apply NoDup_nil_2].
  - apply NoDup_nil_2.
  - set_solver.
Qed.

(** The same request with its routes in another order. *)
Definition with_routes (routes : list CandidateRouteV1) (r : OrchestrationRequestV1)
    : OrchestrationRequestV1 :=
  mk_request (rq_request_id r) (rq_request_version r) (rq_round_id r) (rq_decision_kind r) routes
    (rq_logical_timestamp r) (rq_window_id r) (rq_scope_id r) (rq_source_component r)
    (rq_provenance r).

(** ** No second decision *)
Lemma adjudicate_terminal env request timeout c r :
  quiescent c → od_get (round_key request) (oc_rounds c) = Some r → dr_terminal r = true →
  ∃ e, adjudicate env request timeout c = (Raise e, c) ∧ exn_type e = ValueError.
Proof.
  intros Hq Hr Ht. unfold adjudicate. destruct (_ || _); [by eexists |].
  unfold claim_round, new_round. unfold mbind, M_bind, get, guardM, check, raise.
  destruct (oc_closed c); cbn [negb]; [by eexists |]. rewrite Hr. unfold lift.
  destruct (request_digest request) as [digest|e] eqn:Hd.
  - case_bool_decide; [|by eexists]. rewrite (with_round_this _ _ _ Hr), Ht. cbn. by eexists.
  - exists e. split; [done |]. by eapply request_digest_error.
Qed.
End operations.

(** * What the replay cache remembers and what a decision says

    How long an observed message identity stays in the cache, and the meaning of
    a decision in terms of the round's votes and proposals. *)
(** ** Replay cache *)
Lemma observe_limit s m h c : rc_limit (observe_replay s m h c).2 = rc_limit c.
Proof. unfold observe_replay. by destruct (od_get _ _). Qed.

(** Observations of ((sender, message id), content hash), in order. *)
Definition observe_each (later : list ((string * string) * string)) (c : BoundedReplayCache)
    : BoundedReplayCache :=
  foldl (λ c o, (observe_replay o.1.1 o.1.2 o.2 c).2) c later.

(** The observed identity is the newest entry. *)
Lemma observe_last s m h c :
  cache_ok c → (0 < rc_limit c)%nat →
  ∃ pre h', rc_entries (observe_replay s m h c).2 = pre ++ [((s, m), h')].
Proof.
  intros _ Hl. unfold observe_replay. destruct (od_get (s, m) (rc_entries c)) as [h'|] eqn:Hg; cbn.
  - unfold od_move_to_end. rewrite Hg. by eexists _, h'.
  - rewrite od_set_new by done. unfold evict_oldest. rewrite length_app. cbn.
    rewrite drop_app_le by lia. by eexists _, h.
Qed.

(** Deleting another key, or dropping from the front, moves nothing towards the
    front past [post]. *)
Lemma od_del_split {K V} `{EqDecision K} (k k' : K) (v : V) pre post :
  k' ≠ k → ∃ pre' post', od_del k' (pre ++ (k, v) :: post) = pre' ++ (k, v) :: post' ∧
    (length post' ≤ length post)%nat ∧ ((k' ∈ post.*1) → k' ∉ pre.*1 → length post' < length post)%nat.
Proof.
  intros Hne. induction pre as [|[k1 v1] pre IH]; cbn [app od_del].
  - rewrite decide_False by done. exists [], (od_del k' post). split; [done |].
    clear. induction post as [|[k1 v1] post IH]; cbn; [set_solver by lia |].
    case_decide; cbn; [split; [lia | intros; lia] |].
    destruct IH as [IH1 IH2]. split; [lia |]. intros [?|Hin]%elem_of_cons Hn; [done |].
    specialize (IH2 Hin Hn). lia.
  - case_decide as Hk; [exists pre, post; split_and!; [done | lia | set_solver] |].
    destruct IH as (pre' & post' & -> & Hl & Hs). exists ((k1, v1) :: pre'), post'.
    split_and!; [done | done |]. intros Hin Hn. apply Hs; set_solver.
Qed.

(** One more observation of another identity: at most one step towards the front. *)
Lemma observe_keeps o c k h pre post :
  cache_ok c → o.1 ≠ k → rc_entries c = pre ++ (k, h) :: post → (S (length post) < rc_limit c)%nat →
  ∃ pre' post', rc_entries (observe_replay o.1.1 o.1.2 o.2 c).2 = pre' ++ (k, h) :: post' ∧
    (length post' ≤ S (length post))%nat.
Proof.
  intros Hc Hne Hsplit Hl. destruct o as [[s m] h']. unfold observe_replay. cbn [fst snd] in *.
  destruct (od_get (s, m) (rc_entries c)) as [v|] eqn:Hg; cbn [snd rc_entries].
  - unfold od_move_to_end. rewrite Hg, Hsplit.
    destruct (od_del_split k (s, m) h pre post Hne) as (pre' & post' & -> & Hp & _).
    exists pre', (post' ++ [((s, m), v)]). rewrite length_app. cbn. split; [|lia].
    by rewrite <-app_assoc.
  - rewrite od_set_new, Hsplit by done. unfold evict_oldest.
    rewrite !length_app. cbn [length]. rewrite <-app_assoc. cbn [app].
    exists (drop (length pre + S (length post) + 1 - rc_limit c) pre), (post ++ [((s, m), h')]).
    split; [|rewrite length_app; cbn; lia]. apply drop_app_le. lia.
Qed.

Lemma observe_each_keeps later k h pre post c :
  cache_ok c → k ∉ map fst later → rc_entries c = pre ++ (k, h) :: post →
  (length later + length post < rc_limit c)%nat →
  od_get k (rc_entries (observe_each later c)) = Some h.
Proof.
  revert c pre post. induction later as [|o later IH]; intros c pre post Hc Hk Hs Hl.
  { cbn. apply od_elem_get; [apply Hc | rewrite Hs; set_solver]. }
  cbn in Hk, Hl. apply not_elem_of_cons in Hk as [Hne Hk].
  destruct (observe_keeps o c k h pre post) as (pre' & post' & Hs' & Hp); [done | done | done | lia |].
  apply (IH _ pre' post'); [by apply observe_replay_ok | done | done |].
  rewrite observe_limit. lia.
Qed.

(** ** Approvals *)
Lemma two_distinct {A} `{EqDecision A} (l : list A) :
  NoDup l → (2 ≤ length l)%nat ↔ ∃ x y, x ≠ y ∧ x ∈ l ∧ y ∈ l.
Proof.
  intros Hnd. split.
  - destruct l as [|x [|y l]]; cbn; [lia | lia |]. intros _. exists x, y.
    apply NoDup_cons in Hnd as [Hni _]. set_solver.
  - intros (x & y & Hne & Hx & Hy). destruct l as [|a [|b l]]; cbn; [set_solver | | lia].
    apply list_elem_of_singleton in Hx, Hy. congruence.
Qed.

Lemma two_approvals d (votes : list (string * OrchestratorVoteV1)) :
  NoDup votes.*1 →
  (REQUIRED_QUORUM ≤ length (approvers d votes))%nat ↔
  ∃ s1 v1 s2 v2, s1 ≠ s2 ∧ (s1, v1) ∈ votes ∧ (s2, v2) ∈ votes ∧
    vt_vote v1 = APPROVE ∧ vt_vote v2 = APPROVE ∧
    vt_selected_proposal_digest v1 = d ∧ vt_selected_proposal_digest v2 = d.
Proof.
  intros Hnd. unfold REQUIRED_QUORUM. rewrite two_distinct by (by apply approvers_nodup).
  setoid_rewrite elem_of_approvers. unfold approves. split.
  - intros (s1 & s2 & Hne & (v1 & ? & ? & ?) & (v2 & ? & ? & ?)). by exists s1, v1, s2, v2.
  - intros (s1 & v1 & s2 & v2 & ? & ? & ? & ? & ? & ? & ?). exists s1, s2. eauto 10.
Qed.

Lemma known_digest_proposal r d :
  d ∈ known_digests r → ∃ s p, (s, p) ∈ dr_proposals r ∧ pr_proposal_digest p = d.
Proof.
  intros ([s p] & -> & Hin)%list_elem_of_fmap. by exists s, p.
Qed.

(** Nothing that counts changed. *)
Definition same_messages (w w' : RoundWorld) : Prop :=
  dr_proposals (rw_round w') = dr_proposals (rw_round w) ∧
  dr_votes (rw_round w') = dr_votes (rw_round w) ∧
  dr_quorum_digest (rw_round w') = dr_quorum_digest (rw_round w) ∧
  dr_terminal (rw_round w') = dr_terminal (rw_round w).

Section decisions.
Context `{PyRuntime}.

Lemma quiet_same w w' : quiet w w' → same_messages w w'.
Proof. intros [(l & Hl & _) _]. unfold same_messages. by rewrite Hl. Qed.

(** ** The meaning of a decision *)
Definition approved (digest : string) (v : OrchestratorVoteV1) : Prop :=
  vt_vote v = APPROVE ∧ vt_selected_proposal_digest v = digest.

(** [decides_quorum r d]: what [d] says is what the votes of [r] say. *)
Definition decides_quorum (r : DecisionRound) (d : OrchestrationDecisionV1) : Prop :=
  match dr_quorum_digest r with
  | Some digest =>
      dec_outcome d = DECIDED ∧ dec_quorum_formed d = true ∧
      dec_selected_proposal_digest d = Some digest ∧
      (∃ s p, (s, p) ∈ dr_proposals r ∧ pr_proposal_digest p = digest ∧
         dec_selected_route_id d = Some (pr_proposed_route_id p) ∧
         pr_proposed_route_id p ∈ route_ids (dr_request r)) ∧
      (2 ≤ length (dec_supporting_orchestrators d))%nat ∧
      NoDup (dec_supporting_orchestrators d) ∧
      ∀ s, s ∈ dec_supporting_orchestrators d ↔ ∃ v, (s, v) ∈ dr_votes r ∧ approved digest v
  | None =>
      dec_quorum_formed d = false ∧ dec_selected_route_id d = None ∧
      dec_supporting_orchestrators d = [] ∧
      dec_outcome d = if decide (dr_timed_out r = ∅)
                      then if decide (length (dr_votes r) < REQUIRED_QUORUM)%nat
                           then INSUFFICIENT_RESPONSES else NO_QUORUM
                      else TIMED_OUT
  end.

Lemma supports_approved digest v :
  digest ≠ "" → supports (Some digest) v = true ↔ approved digest v.
Proof.
  intros Hne. unfold supports, approved, truthy_str. rewrite bool_decide_false by done.
  cbn [negb andb]. rewrite andb_true_iff, !bool_decide_eq_true. naive_solver.
Qed.

Lemma supporters_perm digest votes :
  digest ≠ "" → senders_where (supports (Some digest)) votes ≡ₚ approvers digest votes.
Proof.
  intros Hne. unfold senders_where. rewrite sort_strings_perm. apply (fmap_Permutation fst).
  apply reflexive_eq, list_filter_iff. intros [s v]. cbn [snd].
  rewrite Is_true_true. by apply supports_approved.
Qed.

Lemma decides_reported r id now utc route outcome reason :
  round_ok r → verdict_spec r route outcome →
  decides_quorum r (decision_of r id now utc route outcome reason).
Proof.
  intros Hr Hv. unfold decides_quorum, verdict_spec in *.
  destruct (dr_quorum_digest r) as [digest|] eqn:Hq.
  - destruct Hv as (-> & s & p & Hin & Hd & ->).
    assert (Hne : digest ≠ "") by (by eapply quorum_digest_nonempty).
    pose proof (supporters_perm digest (dr_votes r) Hne) as Hp.
    unfold decision_of. rewrite Hq.
    cbn [dec_outcome dec_quorum_formed dec_selected_proposal_digest dec_selected_route_id
      dec_supporting_orchestrators]. split_and!; try done.
    + exists s, p. split_and!; try done. by apply (ro_proposals _ Hr _ _ Hin).
    + rewrite Hp. by apply (ro_quorum _ Hr).
    + rewrite Hp. apply approvers_nodup, Hr.
    + intros s'. rewrite Hp, elem_of_approvers. unfold approves, approved. cbn. naive_solver.
  - destruct Hv as [-> ->]. unfold decision_of. rewrite Hq. cbn. split_and!; try done.
    unfold senders_where. replace (filter _ (dr_votes r)) with (@nil (string * OrchestratorVoteV1));
      [done |]. clear. induction (dr_votes r) as [|kv l IH]; [done |].
    rewrite filter_cons_False by (by intros []). exact IH.
Qed.
End decisions.
