(* ===== verification/OrWitness.v ===== *)
(** * A concrete adjudication

    Three orchestrators, one request with two routes, and an adjudication in
    which all three propose and two votes arrive.  The runs are computed once
    and used by the witnesses of the properties. *)

From S2P Require Import Prelude PyString Json BbWitness OrContracts OrReplica OrRound OrRoundFacts.
From S2P Require Import OrRoundSafety OrCoordinator OrCoordinatorFacts OrLifecycle OrAgreement.

Definition request1 : OrchestrationRequestV1 :=
  mk_request "req-1" 1 "round-1" "ROUTE" [mk_route "fast" 2; mk_route "safe" 1]
    None (Some 3) None "pipeline" [].

Definition key_of (id : string) : string := "0123456789abcdef-" +:+ id.

Definition keys1 : gmap string string :=
  list_to_map (map (λ id, (id, key_of id)) ORCHESTRATOR_IDS).

Definition orchestrator1 (id : string) : OrchestratorReplica :=
  mk_orchestrator id DeterministicPriorityPolicy (mk_authenticator id (key_of id)) true
    0 0 0 0 0 0 None [] 32.

Lemma orchestrator1_new id : id ∈ ORCHESTRATOR_IDS →
  new_orchestrator id (key_of id) None 32 = Ok (orchestrator1 id).
Proof.
  intros Hid. unfold ORCHESTRATOR_IDS in Hid.
  repeat (apply elem_of_cons in Hid as [->|Hid]; [done |]). by apply not_elem_of_nil in Hid.
Qed.

Definition instr1 : OrchestrationInstrumentation :=
  mk_or_instr 256 64 (map (λ k, (k, 0)) OR_COUNTERS)
    (map (λ k, (k, [])) ["proposal_ms"; "vote_ms"; "quorum_ms"; "decision_ms"]) [].

Definition or_coordinator1 : OrchestrationCoordinator :=
  mk_or_coordinator (map orchestrator1 ORCHESTRATOR_IDS) (mk_verifier keys1) instr1 (mk_cache 512 [])
    128 [] ∅ ∅ 0 ∅ false 0 0.

Lemma or_coordinator1_new :
  new_or_coordinator (map orchestrator1 ORCHESTRATOR_IDS) keys1 512 128 None = Ok or_coordinator1.
Proof. vm_compute. reflexivity. Qed.

Lemma instr1_ok : or_instr_ok instr1.
Proof. constructor; try done; [repeat constructor | cbn; lia]. Qed.

Lemma cache1_ok : cache_ok (mk_cache 512 []).
Proof. constructor; [cbn; lia | apply NoDup_nil_2]. Qed.

Lemma or_coordinator1_quiescent : quiescent or_coordinator1.
Proof.
  constructor; [constructor | done | done]; try done; [apply instr1_ok | apply cache1_ok | |].
  - apply NoDup_nil_2.
  - set_solver.
Qed.

Lemma request1_valid : request_validate request1 = Ok tt.
Proof. vm_compute. reflexivity. Qed.

Definition worker_env (mid : string) : WorkerEnv := mk_worker_env observe_pass_through mid t0_utc.

(** All three proposals complete at the first wait, two votes at the second. *)
Definition adj_env1 : AdjEnv :=
  mk_adj_env (λ _, f_zero)
    (λ k, match k with
          | 0%nat => [(0, worker_env "p-a"); (1, worker_env "p-b"); (2, worker_env "p-c")]
          | 1%nat => [(4, worker_env "v-b"); (3, worker_env "v-a")]
          | _ => []
          end%nat) [] "decision-1" t0_utc.

Definition adj1_result : result OrchestrationDecisionV1 * OrchestrationCoordinator :=
  Eval vm_compute in adjudicate adj_env1 request1 f_one or_coordinator1.

(** ** A fresh round and the messages of two orchestrators *)
Definition round0 : DecisionRound := Eval vm_compute in
  ok_or (mk_round request1 "" (mk_verifier keys1) [] [] [] ∅ ∅ ∅ ∅ ∅ ∅ None None false f_zero)
    (new_round_state request1 (mk_verifier keys1) f_zero).
Lemma round0_run : new_round_state request1 (mk_verifier keys1) f_zero = Ok round0.
Proof. vm_compute. reflexivity. Qed.

Definition world0 : RoundWorld := mk_world round0 (mk_cache 512 []) instr1.

Lemma world0_ok : world_ok world0.
Proof. constructor; [apply instr1_ok | apply cache1_ok]. Qed.

Lemma round0_ok : round_ok round0 ∧ fresh_round round0.
Proof.
  destruct (fresh_round_ok _ _ _ _ request1_valid round0_run) as (? & ? & _). done.
Qed.

Definition no_auth : AuthenticationMetadataV1 := mk_auth "" "".
Definition no_proposal : OrchestratorProposalV1 :=
  mk_proposal "" "" 0 "" "" "" "" "" "" None None "" "" "" 0 "" [] no_auth.
Definition no_vote : OrchestratorVoteV1 :=
  mk_vote "" "" 0 "" "" "" "" APPROVE 0 "" None None "" "" [] no_auth.

Definition orch_a : OrchestratorReplica := orchestrator1 "orchestrator_a".
Definition orch_b : OrchestratorReplica := orchestrator1 "orchestrator_b".

Definition proposal_a : OrchestratorProposalV1 := Eval vm_compute in
  ok_or no_proposal (orchestrator_propose (worker_env "p-a") request1 orch_a).1.
Definition after_a : OrchestratorReplica := Eval vm_compute in
  (orchestrator_propose (worker_env "p-a") request1 orch_a).2.
Lemma proposal_a_run :
  orchestrator_propose (worker_env "p-a") request1 orch_a = (Ok proposal_a, after_a).
Proof. vm_compute. reflexivity. Qed.

Definition proposal_b : OrchestratorProposalV1 := Eval vm_compute in
  ok_or no_proposal (orchestrator_propose (worker_env "p-b") request1 orch_b).1.
Definition after_b : OrchestratorReplica := Eval vm_compute in
  (orchestrator_propose (worker_env "p-b") request1 orch_b).2.
Lemma proposal_b_run :
  orchestrator_propose (worker_env "p-b") request1 orch_b = (Ok proposal_b, after_b).
Proof. vm_compute. reflexivity. Qed.

Definition vote_a : OrchestratorVoteV1 := Eval vm_compute in
  ok_or no_vote (orchestrator_vote (worker_env "v-a") request1 proposal_a after_a).1.
Definition vote_b : OrchestratorVoteV1 := Eval vm_compute in
  ok_or no_vote (orchestrator_vote (worker_env "v-b") request1 proposal_b after_b).1.

Lemma honest_a : honest_call keys1 request1 orch_a proposal_a vote_a.
Proof.
  constructor; [done | by vm_compute | by apply (bool_decide_unpack _); vm_compute | |].
  - exists (worker_env "p-a"), after_a. apply proposal_a_run.
  - exists (worker_env "v-a"), after_a. eexists. split; [by split_and! |].
    vm_compute. reflexivity.
Qed.

Lemma honest_b : honest_call keys1 request1 orch_b proposal_b vote_b.
Proof.
  constructor; [done | by vm_compute | by apply (bool_decide_unpack _); vm_compute | |].
  - exists (worker_env "p-b"), after_b. apply proposal_b_run.
  - exists (worker_env "v-b"), after_b. eexists. split; [by split_and! |].
    vm_compute. reflexivity.
Qed.

(** Both proposals, then both votes. *)
Definition world1 : RoundWorld := Eval vm_compute in (accept_proposal proposal_a world0).2.
Definition world2 : RoundWorld := Eval vm_compute in (accept_proposal proposal_b world1).2.
Definition world3 : RoundWorld := Eval vm_compute in (accept_vote f_zero vote_a world2).2.
Definition world4 : RoundWorld := Eval vm_compute in (accept_vote f_zero vote_b world3).2.

Lemma world4_steps : rtc round_step world0 world4.
Proof.
  apply rtc_l with world1.
  { apply (step_proposal proposal_a (Ok "ACCEPTED")); vm_compute; reflexivity. }
  apply rtc_l with world2.
  { apply (step_proposal proposal_b (Ok "ACCEPTED")); vm_compute; reflexivity. }
  apply rtc_l with world3.
  { apply (step_vote f_zero vote_a (Ok "ACCEPTED")). vm_compute. reflexivity. }
  apply rtc_once, (step_vote f_zero vote_b (Ok "ACCEPTED")). vm_compute. reflexivity.
Qed.

Lemma world4_ok : world_ok world4 ∧ round_ok (rw_round world4).
Proof.
  destruct (round_steps_safe _ _ world4_steps world0_ok (proj1 round0_ok)) as (? & ? & _). done.
Qed.

(** ** Two adjudications of one request *)
Definition decision1 : OrchestrationDecisionV1 := Eval vm_compute in
  match adj1_result.1 with
  | Ok d => d
  | Raise _ => decision_of round0 "" f_zero "" None NO_QUORUM ""
  end.
Definition after_adj1 : OrchestrationCoordinator := Eval vm_compute in adj1_result.2.

Lemma adj1_run : adjudicate adj_env1 request1 f_one or_coordinator1 = (Ok decision1, after_adj1).
Proof. vm_compute. reflexivity. Qed.

Lemma after_adj1_quiescent : quiescent after_adj1.
Proof.
  by destruct (adjudicate_run _ _ _ _ _ _ or_coordinator1_quiescent request1_valid adj1_run).
Qed.

Definition held_round1 : DecisionRound := Eval vm_compute in
  default round0 (od_get (round_key request1) (oc_rounds after_adj1)).
Lemma held_round1_run : od_get (round_key request1) (oc_rounds after_adj1) = Some held_round1.
Proof. vm_compute. reflexivity. Qed.
