(* ===== verification/OrProperties.v ===== *)
(** * Properties of the orchestration

    The theorems about decision rounds and the coordinator that runs them, each
    with a concrete instance.  The numbering continues that of the Blackboard's
    properties. *)

From S2P Require Import Prelude PyString Json BbWitness OrContracts OrReplica OrRound OrRoundFacts.
From S2P Require Import OrRoundSafety OrCoordinator OrCoordinatorFacts OrAdjudication OrLifecycle.
From S2P Require Import OrAgreement OrOperations OrWitness.

Section properties.
Context `{PyRuntime}.

(** C14: agreement.  In any history of a round, with forged, repeated, late and
    conflicting messages and with other rounds running, the round has a quorum
    digest exactly when two different orchestrators have a recorded approval of
    it; every recorded vote is authenticated under its sender's key, bound to
    this request, and for a recorded proposal of a declared route; and a quorum
    digest, once there, is never lost or replaced. *)
Theorem round_agreement w w' :
  world_ok w → round_ok (rw_round w) → rtc round_step w w' →
  let r := rw_round w' in
  (∀ d, dr_quorum_digest r = Some d ↔
     ∃ s1 v1 s2 v2, s1 ≠ s2 ∧ (s1, v1) ∈ dr_votes r ∧ (s2, v2) ∈ dr_votes r ∧
       vt_vote v1 = APPROVE ∧ vt_vote v2 = APPROVE ∧
       vt_selected_proposal_digest v1 = d ∧ vt_selected_proposal_digest v2 = d) ∧
  (∀ s v, (s, v) ∈ dr_votes r → s = vt_orchestrator_id v ∧ s ∈ ORCHESTRATOR_IDS ∧
     verify (dr_keys r) v = Ok (true, "AUTHENTICATED") ∧
     vt_request_digest v = dr_request_digest r ∧
     ∃ s' p, (s', p) ∈ dr_proposals r ∧ pr_proposal_digest p = vt_selected_proposal_digest v ∧
       verify (dr_keys r) p = Ok (true, "AUTHENTICATED") ∧
       pr_proposed_route_id p ∈ route_ids (dr_request (rw_round w))) ∧
  (∀ d, dr_quorum_digest (rw_round w) = Some d → dr_quorum_digest r = Some d) ∧
  (dr_terminal (rw_round w) = true →
     dr_votes r = dr_votes (rw_round w) ∧ dr_quorum_digest r = dr_quorum_digest (rw_round w)).
Proof.
  intros Hw Hr Hsteps. destruct (round_steps_safe _ _ Hsteps Hw Hr) as (_ & Hr' & Hle).
  split_and!.
  - intros d. rewrite (ro_quorum _ Hr' d). apply two_approvals, Hr'.
  - intros s v Hin. destruct (ro_votes _ Hr' _ _ Hin) as [-> [Hb Hk]].
    split_and!; [done | apply Hb | by apply verify_authentic, conj, Hb | apply Hb |].
    destruct (known_digest_proposal _ _ Hk) as (s' & p & Hp & Hd). exists s', p.
    destruct (ro_proposals _ Hr' _ _ Hp) as [_ Hg]. split_and!; [done | done | |].
    + apply verify_authentic, conj, Hg. done.
    + rewrite <-(le_request _ _ Hle). apply Hg.
  - apply Hle.
  - intros Ht. by destruct (le_terminal _ _ Hle Ht) as (_ & _ & ? & ?).
Qed.

(** Which messages count.  A vote (a proposal) is accepted exactly when the
    round is open, the message is from a known orchestrator, authenticated, bound
    to the request and about a recorded proposal (a declared route, with the right
    digest), its identity is not in the replay cache and its sender has not voted
    (proposed) yet; any other message gets another answer and leaves proposals,
    votes, quorum and the terminal flag as they were. *)
Theorem message_accepted_iff p now v w :
  world_ok w →
  (dr_terminal (rw_round w) = false ∧ good_proposal (rw_round w) p ∧ unseen p (rw_cache w) ∧
     od_get (pr_orchestrator_id p) (dr_proposals (rw_round w)) = None ↔
   (accept_proposal p w).1 = Ok "ACCEPTED") ∧
  (dr_terminal (rw_round w) = false ∧ good_vote (rw_round w) v ∧ unseen v (rw_cache w) ∧
     od_get (vt_orchestrator_id v) (dr_votes (rw_round w)) = None ↔
   (accept_vote now v w).1 = Ok "ACCEPTED") ∧
  ((accept_proposal p w).1 ≠ Ok "ACCEPTED" → same_messages w (accept_proposal p w).2) ∧
  ((accept_vote now v w).1 ≠ Ok "ACCEPTED" → same_messages w (accept_vote now v w).2).
Proof.
  intros Hw.
  destruct (accept_proposal p w) as [o1 w1] eqn:E1, (accept_vote now v w) as [o2 w2] eqn:E2.
  pose proof (accept_proposal_spec _ _ _ _ Hw E1) as S1.
  pose proof (accept_vote_spec _ _ _ _ _ Hw E2) as S2. cbn [fst snd]. split_and!.
  - split; [|destruct S1 as [[? _]|S1]; naive_solver].
    intros (Ht & Hg & Hu & Hn). destruct (accept_proposal_accepts p w Hw Ht Hg Hu Hn) as (? & E & _).
    congruence.
  - split; [|destruct S2 as [[? _]|S2]; naive_solver].
    intros (Ht & Hg & Hu & Hn). destruct (accept_vote_accepts now v w Hw Ht Hg Hu Hn) as (? & E & _).
    congruence.
  - intros Hne. destruct S1 as [[_ Hq]|S1]; [by apply quiet_same | naive_solver].
  - intros Hne. destruct S2 as [[_ Hq]|S2]; [by apply quiet_same | naive_solver].
Qed.

(** The decision.  Building the decision of a well-formed round always
    succeeds and closes the round; the decision passes its own validation, is
    DECIDED exactly when the round has a quorum, then selects a recorded proposal
    with the quorum's digest and lists every approving orchestrator, at least
    two; without a quorum it selects no route, and the outcome tells whether
    orchestrators timed out, too few voted or the votes disagreed. *)
Theorem build_decision_sound id now utc w :
  round_ok (rw_round w) →
  ∃ d, build_decision id now utc w =
      (Ok d, mk_world (with_terminal true (rw_round w)) (rw_cache w) (rw_instr w)) ∧
    decision_validate d = Ok tt ∧ decides_quorum (rw_round w) d.
Proof.
  intros Hr. destruct (build_decision_run id now utc w Hr) as (route & outcome & reason & Hv & E).
  eexists. split_and!; [exact E | by apply decision_valid | by apply decides_reported].
Qed.

(** C15: the coordinator's decisions are quorum decisions.  From any quiescent
    coordinator and a valid request, [adjudicate] returns or raises ValueError
    and leaves the coordinator quiescent; a returned decision is about this
    request, was built from a closed round held under the request's key, and if
    it is DECIDED two different orchestrators hold recorded approvals,
    authenticated under the coordinator's keys, of one declared route. *)
Theorem adjudicate_sound env request timeout c out c' :
  quiescent c → request_validate request = Ok tt →
  adjudicate env request timeout c = (out, c') →
  quiescent c' ∧
  match out with
  | Raise e => exn_type e = ValueError
  | Ok d => ∃ r r', od_get (round_key request) (oc_rounds c') = Some r' ∧ dr_terminal r' = true ∧
      dr_proposals r' = dr_proposals r ∧ dr_votes r' = dr_votes r ∧
      request_digest request = Ok (dec_request_digest d) ∧ decides_quorum r d ∧
      ∀ s v, (s, v) ∈ dr_votes r → verify (oc_verifier c) v = Ok (true, "AUTHENTICATED")
  end.
Proof.
  intros Hq Hv Hrun.
  destruct (adjudicate_run _ _ _ _ _ _ Hq Hv Hrun) as (Hq' & Hs & _ & Hout). split; [done |].
  destruct out as [d|e]; [|done].
  destruct Hout as (r & r' & Ht & Hr & (id & now & utc & route & outcome & reason & Hvs & ->) & Hk
    & Hd & _ & Hg & Hle).
  destruct (le_terminal _ _ Hle Ht) as (Ht' & Hp & Hvt & Hqd).
  exists r, r'. split_and!; [done | done | done | done | exact Hd | by apply decides_reported |].
  intros s v Hin. destruct (ro_votes _ Hr _ _ Hin) as [_ Hgv].
  apply verify_authentic, conj; [done |]. rewrite <-(sc_verifier _ _ Hs), <-Hk. apply Hgv.
Qed.

(** One decision per key.  Once the coordinator holds a closed round for the
    request's key, another [adjudicate] of that key, with the same or another
    request, raises ValueError and changes nothing. *)
Theorem adjudicate_once env request timeout c r :
  quiescent c → od_get (round_key request) (oc_rounds c) = Some r → dr_terminal r = true →
  ∃ e, adjudicate env request timeout c = (Raise e, c) ∧ exn_type e = ValueError.
Proof. apply adjudicate_terminal. Qed.

(** The replay cache is bounded and remembers.  Observing a message keeps at
    most [limit] distinct identities; the answer is NEW exactly for an identity
    that is not held and CONFLICT exactly for one held with other content; and
    after an observation, fewer than [limit] later observations of other
    identities never make the cache forget it. *)
Theorem replay_cache_spec s m h c later :
  cache_ok c → (length later < rc_limit c)%nat → (s, m) ∉ map fst later →
  let c1 := (observe_replay s m h c).2 in
  cache_ok c1 ∧ (length (rc_entries c1) ≤ rc_limit c)%nat ∧
  ((observe_replay s m h c).1 = NEW ↔ od_get (s, m) (rc_entries c) = None) ∧
  ((observe_replay s m h c).1 = CONFLICT ↔
     ∃ h', od_get (s, m) (rc_entries c) = Some h' ∧ h' ≠ h) ∧
  od_get (s, m) (rc_entries (observe_each later c1)) = od_get (s, m) (rc_entries c1) ∧
  is_Some (od_get (s, m) (rc_entries c1)).
Proof.
  intros Hc Hlen Hnot. cbn zeta. pose proof (observe_replay_ok s m h c Hc) as Hc1.
  pose proof (observe_last s m h c Hc ltac:(lia)) as (pre & h' & Hlast). split_and!.
  - done.
  - rewrite <-(observe_limit s m h c). apply Hc1.
  - apply observe_replay_inv.
  - unfold observe_replay. destruct (od_get (s, m) (rc_entries c)) as [h0|]; cbn;
      [case_bool_decide|]; naive_solver.
  - rewrite (observe_each_keeps later (s, m) h' pre [] _ Hc1 Hnot Hlast) by (rewrite ?observe_limit; cbn; lia).
    symmetry. apply od_elem_get; [apply Hc1 | rewrite Hlast; set_solver].
  - exists h'. apply od_elem_get; [apply Hc1 | rewrite Hlast; set_solver].
Qed.

(** What an orchestrator signs verifies.  A proposal or vote a replica
    returns passes its contract's validation, carries the request's binding, and
    is AUTHENTICATED by every verifier that holds the replica's key; the call
    leaves identity, key, policy and availability as they were. *)
Theorem signed_message_verifies keys env request r :
  replica_wf r → knows_key keys r →
  (∀ p r', orchestrator_propose env request r = (Ok p, r') →
     same_identity r r' ∧ proposal_validate p = Ok tt ∧
     pr_orchestrator_id p = orr_orchestrator_id r ∧
     request_digest request = Ok (pr_request_digest p) ∧
     verify (mk_verifier keys) p = Ok (true, "AUTHENTICATED")) ∧
  (∀ p v r', orchestrator_vote env request p r = (Ok v, r') →
     same_identity r r' ∧ vote_validate v = Ok tt ∧
     vt_orchestrator_id v = orr_orchestrator_id r ∧
     vt_selected_proposal_digest v = pr_proposal_digest p ∧
     request_digest request = Ok (vt_request_digest v) ∧
     verify (mk_verifier keys) v = Ok (true, "AUTHENTICATED")).
Proof.
  intros Hwf Hk. split.
  - intros p r' [Hid Hs]%propose_run. split_and!; [done | apply Hs..|].
    apply verify_authentic, conj; [done |]. by apply Hs.
  - intros p v r' [Hid Hs]%vote_run. split_and!; [done | apply Hs..|].
    apply verify_authentic, conj; [done |]. by apply Hs.
Qed.

(** The order of the candidate routes does not matter.  For a valid request,
    listing its routes in another order changes neither the request digest nor
    the route the deterministic policy proposes. *)
Theorem route_order_irrelevant request routes :
  request_validate request = Ok tt → rq_candidate_routes request ≡ₚ routes →
  request_digest (with_routes routes request) = request_digest request ∧
  fst <$> priority_propose (with_routes routes request)
    = fst <$> priority_propose request.
Proof.
  intros Hv Hp. destruct (request_parts _ Hv) as (Hnd & _). split.
  - symmetry. by apply request_digest_perm.
  - unfold priority_propose. cbn [rq_candidate_routes with_routes].
    pose proof (min_route_perm _ _ Hp) as Hm.
    destruct (min_route (rq_candidate_routes request)), (min_route routes); cbn in *; congruence.
Qed.

(** One faulty orchestrator cannot decide alone.  If two different
    orchestrators only voted for proposals of [route], and [route] is the only
    declared route with its proposal digest (no hash collision), every decision
    the round builds either selects [route] or selects nothing. *)
Theorem honest_majority_route w h1 h2 route digest id now utc d w' :
  round_ok (rw_round w) → h1 ≠ h2 → h1 ∈ ORCHESTRATOR_IDS → h2 ∈ ORCHESTRATOR_IDS →
  (∀ s v, s = h1 ∨ s = h2 → (s, v) ∈ dr_votes (rw_round w) →
     vt_selected_proposal_digest v = digest) →
  (∀ x, x ∈ route_ids (dr_request (rw_round w)) →
     proposal_digest (rq_request_id (dr_request (rw_round w)))
       (rq_request_version (dr_request (rw_round w))) (rq_round_id (dr_request (rw_round w)))
       (dr_request_digest (rw_round w)) x = Ok digest → x = route) →
  build_decision id now utc w = (Ok d, w') →
  dec_outcome d = DECIDED ∧ dec_selected_route_id d = Some route ∨
  dec_outcome d ≠ DECIDED ∧ dec_selected_route_id d = None.
Proof.
  intros Hr Hne H1 H2 Hvotes Hcoll Hb.
  destruct (build_decision_run id now utc w Hr) as (rt & outcome & reason & Hv & E).
  rewrite E in Hb. injection Hb as <- _. unfold verdict_spec in Hv.
  destruct (dr_quorum_digest (rw_round w)) as [q|] eqn:Hq.
  - destruct Hv as (-> & s & p & Hin & Hd & ->). left. split; [done |]. cbn. f_equal.
    destruct (ro_proposals _ Hr _ _ Hin) as [_ [Hb Hroute Hdig]]. apply Hcoll; [done |].
    pose proof (honest_votes_win _ h1 h2 digest q Hr Hne H1 H2 Hvotes Hq) as ->.
    destruct Hb as [_ _ E1 E2 E3 E4]. cbn in E1, E2, E3, E4.
    by rewrite <-E1, <-E2, <-E3, <-E4, <-Hd.
  - destruct Hv as [-> ->]. right. split; [by repeat case_decide | done].
Qed.

(** Two honest orchestrators suffice.  When two different orchestrators
    propose and vote honestly on a fresh round with one policy, delivering their
    two proposals and then their two votes decides the round for that policy's
    route, whatever the third one does or fails to do. *)
Theorem honest_pair_decides w a1 p1 v1 a2 p2 v2 route reason1 reason2 now1 now2 id now utc :
  world_ok w → round_ok (rw_round w) → fresh_round (rw_round w) →
  honest_call (mv_keys (dr_keys (rw_round w))) (dr_request (rw_round w)) a1 p1 v1 →
  honest_call (mv_keys (dr_keys (rw_round w))) (dr_request (rw_round w)) a2 p2 v2 →
  orr_orchestrator_id a1 ≠ orr_orchestrator_id a2 →
  policy_propose (orr_policy a1) (dr_request (rw_round w)) = Ok (route, reason1) →
  policy_propose (orr_policy a2) (dr_request (rw_round w)) = Ok (route, reason2) →
  route ∈ route_ids (dr_request (rw_round w)) →
  unseen p1 (rw_cache w) → unseen p2 (rw_cache w) → unseen v1 (rw_cache w) → unseen v2 (rw_cache w) →
  pr_message_id p1 ≠ vt_message_id v1 → pr_message_id p2 ≠ vt_message_id v2 →
  ∃ d w', (_ ← accept_proposal p1; _ ← accept_proposal p2; _ ← accept_vote now1 v1;
           _ ← accept_vote now2 v2; build_decision id now utc) w = (Ok d, w') ∧
    dec_outcome d = DECIDED ∧ dec_selected_route_id d = Some route.
Proof. intros. by eapply (honest_pair w (dr_request (rw_round w)) a1 p1 v1 a2 p2 v2). Qed.

(** C16: [adjudicate] returns.  An open coordinator that holds no round for the
    key of a valid request always returns a decision, within the timeouts the
    source accepts, whatever the orchestrators do and whenever their calls
    complete: the waiting loop ends, and no error escapes. *)
Theorem adjudicate_always_returns env request timeout c :
  quiescent c → request_validate request = Ok tt → oc_closed c = false →
  od_get (round_key request) (oc_rounds c) = None →
  f_leb timeout f_zero || f_gtb timeout (f_of_Z 30) = false →
  ∃ d c', adjudicate env request timeout c = (Ok d, c') ∧ decision_validate d = Ok tt.
Proof.
  intros Hq Hv Hopen Hnew Ht.
  destruct (adjudicate_returns env request timeout c Hq Hv Hopen Hnew Ht) as (d & c' & E).
  exists d, c'. split; [done |].
  destruct (adjudicate_run _ _ _ _ _ _ Hq Hv E)
    as (_ & _ & _ & r & r' & _ & Hr & (? & ? & ? & ? & ? & ? & Hvs & ->) & _).
  by apply decision_valid.
Qed.

(** C17: the coordinator's invariant.  From a new coordinator, any sequence of
    operations (adjudications, round openings, preflights, a shutdown, replicas
    becoming unavailable or available, calls completing late) keeps: no round
    active between operations, at most [round_history_limit] rounds, one round
    per key, each round well-formed and checked with the coordinator's keys, and
    the replay cache within its limit. *)
Theorem coordinator_invariant replicas keys cache_limit history_limit instr c0 c :
  new_or_coordinator replicas keys cache_limit history_limit instr = Ok c0 →
  match instr with Some i => or_instr_ok i | None => True end →
  rtc coordinator_step c0 c →
  oc_active_keys c = ∅ ∧ Z.of_nat (length (oc_rounds c)) ≤ oc_round_history_limit c ∧
  NoDup (oc_rounds c).*1 ∧ cache_ok (oc_replay_cache c) ∧
  ∀ k r, (k, r) ∈ oc_rounds c → round_ok r ∧ k = round_key (dr_request r) ∧
    dr_keys r = oc_verifier c.
Proof.
  intros Hnew Hi Hsteps. assert (Hq : quiescent c).
  { pose proof (new_coordinator_quiescent _ _ _ _ _ _ Hnew Hi) as Hq. clear Hnew Hi.
    induction Hsteps; eauto using coordinator_step_quiescent. }
  destruct Hq as [[] ? ?]. by split_and!.
Qed.
End properties.

(** * Concrete instances *)

Lemma round_agreement_witness :
  dr_quorum_digest (rw_round world4) = Some (pr_proposal_digest proposal_a).
Proof.
  refine (proj2 (proj1 (round_agreement world0 world4 _ _ _) (pr_proposal_digest proposal_a)) _).
  - apply world0_ok.
  - apply round0_ok.
  - apply world4_steps.
  - exists "orchestrator_a", vote_a, "orchestrator_b", vote_b.
    split_and!; [done | apply list_elem_of_here | apply list_elem_of_further, list_elem_of_here | done..].
Defined.

Lemma message_accepted_iff_witness :
  dr_terminal (rw_round world2) = false ∧ good_vote (rw_round world2) vote_a ∧
  unseen vote_a (rw_cache world2) ∧
  od_get (vt_orchestrator_id vote_a) (dr_votes (rw_round world2)) = None.
Proof.
  refine (proj2 (proj1 (proj2 (message_accepted_iff proposal_a f_zero vote_a world2 _))) _).
  - constructor; [|constructor; [cbn; lia |]].
    + constructor; try done; [repeat constructor | cbn; lia].
    + by apply (bool_decide_unpack _); vm_compute.
  - vm_compute. reflexivity.
Defined.

Lemma build_decision_sound_witness : ∃ d,
  build_decision "decision-1" f_zero t0_utc world4 =
    (Ok d, mk_world (with_terminal true (rw_round world4)) (rw_cache world4) (rw_instr world4)) ∧
  decision_validate d = Ok tt ∧ decides_quorum (rw_round world4) d.
Proof. apply (build_decision_sound "decision-1" f_zero t0_utc world4), world4_ok. Defined.

Lemma adjudicate_sound_witness : quiescent after_adj1.
Proof.
  refine (proj1 (adjudicate_sound adj_env1 request1 f_one or_coordinator1 (Ok decision1) after_adj1
    _ _ _)).
  - apply or_coordinator1_quiescent.
  - apply request1_valid.
  - apply adj1_run.
Defined.

Lemma adjudicate_once_witness : ∃ e,
  adjudicate adj_env1 request1 f_one after_adj1 = (Raise e, after_adj1) ∧ exn_type e = ValueError.
Proof.
  apply (adjudicate_once adj_env1 request1 f_one after_adj1 held_round1).
  - apply after_adj1_quiescent.
  - apply held_round1_run.
  - vm_compute. reflexivity.
Defined.

Lemma replay_cache_spec_witness :
  cache_ok (observe_replay "orchestrator_a" "m1" "h1" (mk_cache 512 [])).2.
Proof.
  refine (proj1 (replay_cache_spec "orchestrator_a" "m1" "h1" (mk_cache 512 [])
    [(("orchestrator_a", "m2"), "h2")] _ _ _)).
  - apply cache1_ok.
  - cbn. lia.
  - cbn. set_solver.
Defined.

Lemma signed_message_verifies_witness :
  verify (mk_verifier keys1) proposal_a = Ok (true, "AUTHENTICATED").
Proof.
  refine (proj2 (proj2 (proj2 (proj2 (proj1 (signed_message_verifies keys1 (worker_env "p-a") request1
    orch_a _ _) proposal_a after_a _))))).
  - done.
  - by vm_compute.
  - apply proposal_a_run.
Defined.

Lemma route_order_irrelevant_witness :
  request_digest (with_routes [mk_route "safe" 1; mk_route "fast" 2] request1)
  = request_digest request1.
Proof.
  refine (proj1 (route_order_irrelevant request1 [mk_route "safe" 1; mk_route "fast" 2] _ _)).
  - apply request1_valid.
  - cbn. apply Permutation_swap.
Defined.

Definition decision4 : OrchestrationDecisionV1 := Eval vm_compute in
  ok_or decision1 (build_decision "decision-1" f_zero t0_utc world4).1.
Definition world5 : RoundWorld := Eval vm_compute in
  (build_decision "decision-1" f_zero t0_utc world4).2.
Lemma decision4_run : build_decision "decision-1" f_zero t0_utc world4 = (Ok decision4, world5).
Proof. vm_compute. reflexivity. Qed.

Lemma honest_majority_route_witness :
  dec_outcome decision4 = DECIDED ∧ dec_selected_route_id decision4 = Some "safe" ∨
  dec_outcome decision4 ≠ DECIDED ∧ dec_selected_route_id decision4 = None.
Proof.
  apply (honest_majority_route world4 "orchestrator_a" "orchestrator_b" "safe"
    (pr_proposal_digest proposal_a) "decision-1" f_zero t0_utc decision4 world5).
  - apply world4_ok.
  - done.
  - by apply (bool_decide_unpack _).
  - by apply (bool_decide_unpack _).
  - intros s v _ Hin. cbn in Hin. repeat (apply elem_of_cons in Hin as [[= _ ->]|Hin]; [done |]).
    by apply not_elem_of_nil in Hin.
  - intros x Hin. cbn in Hin. repeat (apply elem_of_cons in Hin as [->|Hin]); [| done |].
    + vm_compute. discriminate.
    + by apply not_elem_of_nil in Hin.
  - apply decision4_run.
Defined.

Lemma honest_pair_decides_witness : ∃ d w',
  (_ ← accept_proposal proposal_a; _ ← accept_proposal proposal_b; _ ← accept_vote f_zero vote_a;
   _ ← accept_vote f_zero vote_b; build_decision "decision-1" f_zero t0_utc) world0 = (Ok d, w') ∧
  dec_outcome d = DECIDED ∧ dec_selected_route_id d = Some "safe".
Proof.
  apply (honest_pair_decides world0 orch_a proposal_a vote_a orch_b proposal_b vote_b "safe"
    "MIN_PRIORITY_ROUTE_ID_TIEBREAK" "MIN_PRIORITY_ROUTE_ID_TIEBREAK" f_zero f_zero "decision-1"
    f_zero t0_utc).
  - apply world0_ok.
  - apply round0_ok.
  - apply round0_ok.
  - apply honest_a.
  - apply honest_b.
  - done.
  - done.
  - done.
  - by apply (bool_decide_unpack _); vm_compute.
  - done.
  - done.
  - done.
  - done.
  - done.
  - done.
Defined.

Lemma adjudicate_always_returns_witness : ∃ d c',
  adjudicate adj_env1 request1 f_one or_coordinator1 = (Ok d, c') ∧ decision_validate d = Ok tt.
Proof.
  apply (adjudicate_always_returns adj_env1 request1 f_one or_coordinator1).
  - apply or_coordinator1_quiescent.
  - apply request1_valid.
  - done.
  - done.
  - by vm_compute.
Defined.

Lemma coordinator_invariant_witness :
  oc_active_keys after_adj1 = ∅ ∧
  Z.of_nat (length (oc_rounds after_adj1)) ≤ oc_round_history_limit after_adj1.
Proof.
  pose proof (coordinator_invariant (map orchestrator1 ORCHESTRATOR_IDS) keys1 512 128 None
    or_coordinator1 after_adj1 or_coordinator1_new I
    (rtc_once _ _ (op_adjudicate adj_env1 request1 f_one (Ok decision1) or_coordinator1 after_adj1
      request1_valid adj1_run))) as (H1 & H2 & _).
  split; [exact H1 | exact H2].
Defined.
