(* ===== verification/DsWindowSort.v ===== *)
(** * External sort by window

    Models [datasets/datasense/window_sort.py]: the bounded-memory merge sort that
    orders feature rows by window.  The temporary directory is a map from paths to
    the rows of the file: a row printed as a JSON line reads back as the row.  A
    path is its name's kind and numbers.  The iterator is consumed to its end. *)

From S2P Require Import Prelude PyString Json.

(** A feature row: its integer [window_id] and the rest of the dictionary. *)
Record Row := mk_sort_row {
  row_window_id : Z;
  row_fields : list (string * json);
}.

Inductive TempPath :=
  | ChunkPath (number : nat)
  | MergedPath (pass_no group_index : nat).

#[export] Instance temp_path_eq_dec : EqDecision TempPath.
Proof. solve_decision. Defined.
#[export] Instance temp_path_countable : Countable TempPath.
Proof.
  refine (inj_countable' (λ p, match p with ChunkPath n => inl n | MergedPath a b => inr (a, b) end)
    (λ x, match x with inl n => ChunkPath n | inr (a, b) => MergedPath a b end) _).
  by intros [].
Defined.

Record WindowSorter := mk_sorter {
  ws_chunk_rows : nat;
  ws_merge_fan_in : nat;
  ws_files : gmap TempPath (list Row);
  ws_chunks : list TempPath;
  ws_live_paths : gset TempPath;
  ws_inversions : Z;
  ws_max_inversion_windows : Z;
  ws_rows_seen : Z;
  ws_total_chunks_written : Z;
  ws_merge_passes : nat;
  ws_final_level_size : nat;
  ws_open_readers : nat;
  ws_max_open_readers : nat;
  ws_last_wid : option Z;
  ws_buffer : list Row;
  ws_consumed : bool;
}.

Definition new_sorter (chunk_rows merge_fan_in : Z) : result WindowSorter :=
  _ ← check (1 <=? chunk_rows) ValueError "chunk_rows must be >= 1";
  Ok (mk_sorter (Z.to_nat chunk_rows) (Z.to_nat (Z.max 2 merge_fan_in)) ∅ [] ∅ 0 0 0 0 0 0 0 0
        None [] false).

Definition SM (A : Type) : Type := M WindowSorter A.

(** ** Files *)
Definition with_files (f : gmap TempPath (list Row) → gmap TempPath (list Row))
    (live : gset TempPath → gset TempPath) : SM unit :=
  modify (λ s, mk_sorter (ws_chunk_rows s) (ws_merge_fan_in s) (f (ws_files s)) (ws_chunks s)
    (live (ws_live_paths s)) (ws_inversions s) (ws_max_inversion_windows s) (ws_rows_seen s)
    (ws_total_chunks_written s) (ws_merge_passes s) (ws_final_level_size s) (ws_open_readers s)
    (ws_max_open_readers s) (ws_last_wid s) (ws_buffer s) (ws_consumed s)).

Definition write_file (p : TempPath) (rows : list Row) : SM unit := with_files <[p := rows]> id.
Definition unlink_quietly (ps : list TempPath) : SM unit :=
  with_files (λ m, foldr delete m ps) id.
Definition read_file (p : TempPath) : SM (list Row) := λ s,
  (of_option (ws_files s !! p) (OtherError "FileNotFoundError") "no such file", s).

Fixpoint read_files (ps : list TempPath) : SM (list (list Row)) :=
  match ps with
  | [] => mret []
  | p :: ps => rows ← read_file p; rest ← read_files ps; mret (rows :: rest)
  end.

(** ** Feeding *)
Definition window_leb (x y : Row) : bool := row_window_id x <=? row_window_id y.

Definition spill : SM unit := λ s,
  match ws_buffer s with
  | [] => (Ok tt, s)
  | buffer =>
      let path := ChunkPath (length (ws_chunks s)) in
      (Ok tt, mk_sorter (ws_chunk_rows s) (ws_merge_fan_in s)
        (<[path := isort window_leb buffer]> (ws_files s)) (ws_chunks s ++ [path])
        ({[path]} ∪ ws_live_paths s) (ws_inversions s) (ws_max_inversion_windows s)
        (ws_rows_seen s) (ws_total_chunks_written s + 1) (ws_merge_passes s)
        (ws_final_level_size s) (ws_open_readers s) (ws_max_open_readers s) (ws_last_wid s) []
        (ws_consumed s))
  end.

(** The part of [add] before the buffer is spilled. *)
Definition add_row (row : Row) (s : WindowSorter) : WindowSorter :=
  let wid := row_window_id row in
  let back := match ws_last_wid s with
              | Some last => if wid <? last then Some (last - wid) else None
              | None => None
              end in
  mk_sorter (ws_chunk_rows s) (ws_merge_fan_in s) (ws_files s) (ws_chunks s) (ws_live_paths s)
    (ws_inversions s + (if is_some back then 1 else 0))
    (match back with
     | Some d => Z.max (ws_max_inversion_windows s) d
     | None => ws_max_inversion_windows s
     end)
    (ws_rows_seen s + 1) (ws_total_chunks_written s) (ws_merge_passes s) (ws_final_level_size s)
    (ws_open_readers s) (ws_max_open_readers s) (Some wid) (ws_buffer s ++ [row]) (ws_consumed s).

Definition add (row : Row) : SM unit :=
  _ ← modify (add_row row);
  full ← gets (λ s, (ws_chunk_rows s <=? length (ws_buffer s))%nat);
  if full : bool then spill else mret tt.

Fixpoint add_all (rows : list Row) : SM unit :=
  match rows with
  | [] => mret tt
  | row :: rows => _ ← add row; add_all rows
  end.

(** ** [heapq.merge]: the least head, of the first iterable that has it *)
Fixpoint take_min (ls : list (list Row)) : option (Row * list (list Row)) :=
  match ls with
  | [] => None
  | [] :: ls =>
      match take_min ls with Some (r, ls') => Some (r, [] :: ls') | None => None end
  | (x :: l) :: ls =>
      match take_min ls with
      | Some (r, ls') => if window_leb x r then Some (x, l :: ls) else Some (r, (x :: l) :: ls')
      | None => Some (x, l :: ls)
      end
  end.

Fixpoint heap_merge_fuel (fuel : nat) (ls : list (list Row)) : list Row :=
  match fuel with
  | O => []
  | S fuel =>
      match take_min ls with
      | Some (r, ls') => r :: heap_merge_fuel fuel ls'
      | None => []
      end
  end.

Definition heap_merge (ls : list (list Row)) : list Row :=
  heap_merge_fuel (length (concat ls)) ls.

(** ** Merging *)
Definition set_readers (open_ : nat → nat) : SM unit :=
  modify (λ s, let n := open_ (ws_open_readers s) in
    mk_sorter (ws_chunk_rows s) (ws_merge_fan_in s) (ws_files s) (ws_chunks s) (ws_live_paths s)
      (ws_inversions s) (ws_max_inversion_windows s) (ws_rows_seen s) (ws_total_chunks_written s)
      (ws_merge_passes s) (ws_final_level_size s) n (Nat.max (ws_max_open_readers s) n)
      (ws_last_wid s) (ws_buffer s) (ws_consumed s)).
Definition open_tracked (n : nat) : SM unit := set_readers (λ k, (k + n)%nat).
Definition close_readers (n : nat) : SM unit := set_readers (λ k, (k - n)%nat).

(** [_grouped]: [items[i:i + size]] for every multiple [i] of [size]. *)
Fixpoint grouped_fuel {A} (fuel size : nat) (items : list A) : list (list A) :=
  match fuel, items with
  | S fuel, _ :: _ => take size items :: grouped_fuel fuel size (drop size items)
  | _, _ => []
  end.
Definition grouped {A} (size : nat) (items : list A) : list (list A) :=
  grouped_fuel (length items) size items.

(** One group: a single chunk is kept, several are merged into a new file. *)
Definition merge_group (pass_no group_index : nat) (group : list TempPath) : SM TempPath :=
  match group with
  | [p] => mret p
  | _ =>
      let merged_path := MergedPath pass_no group_index in
      _ ← open_tracked (length group);
      _ ← write_file merged_path [];
      readers ← read_files group;
      _ ← write_file merged_path (heap_merge readers);
      _ ← close_readers (length group);
      _ ← unlink_quietly group;
      _ ← with_files id (λ live, {[merged_path]} ∪ (live ∖ list_to_set group));
      mret merged_path
  end.

Fixpoint merge_groups (pass_no group_index : nat) (groups : list (list TempPath))
    : SM (list TempPath) :=
  match groups with
  | [] => mret []
  | group :: groups =>
      p ← merge_group pass_no group_index group;
      next_level ← merge_groups pass_no (S group_index) groups;
      mret (p :: next_level)
  end.

(** [while len(levels) > self.merge_fan_in]: a pass makes the level shorter. *)
Fixpoint merge_levels (fuel pass_no : nat) (levels : list TempPath) : SM (nat * list TempPath) :=
  match fuel with
  | O => mret (pass_no, levels)
  | S fuel =>
      fan_in ← gets ws_merge_fan_in;
      if (length levels <=? fan_in)%nat then mret (pass_no, levels)
      else next_level ← merge_groups pass_no 0 (grouped fan_in levels);
           merge_levels fuel (S pass_no) next_level
  end.

Definition set_merge_stats (passes final_size : nat) : SM unit :=
  modify (λ s, mk_sorter (ws_chunk_rows s) (ws_merge_fan_in s) (ws_files s) (ws_chunks s)
    (ws_live_paths s) (ws_inversions s) (ws_max_inversion_windows s) (ws_rows_seen s)
    (ws_total_chunks_written s) passes final_size (ws_open_readers s) (ws_max_open_readers s)
    (ws_last_wid s) (ws_buffer s) (ws_consumed s)).

Definition set_consumed : SM unit :=
  modify (λ s, mk_sorter (ws_chunk_rows s) (ws_merge_fan_in s) (ws_files s) (ws_chunks s)
    (ws_live_paths s) (ws_inversions s) (ws_max_inversion_windows s) (ws_rows_seen s)
    (ws_total_chunks_written s) (ws_merge_passes s) (ws_final_level_size s) (ws_open_readers s)
    (ws_max_open_readers s) (ws_last_wid s) (ws_buffer s) true).

(** [try: ... finally: unlink what is live]. *)
Definition unlink_live : SM unit := λ s,
  with_files (λ m, foldr delete m (elements (ws_live_paths s))) (λ _, ∅) s.
Definition finally_unlink {A} (m : SM A) : SM A := λ s,
  let '(out, s') := m s in (out, (unlink_live s').2).

Definition merge_all : SM (list Row) :=
  chunks ← gets ws_chunks;
  match chunks with
  | [] => gets (λ s, isort window_leb (ws_buffer s))
  | _ =>
      '(pass_no, levels) ← merge_levels (length chunks) 0 chunks;
      _ ← set_merge_stats pass_no (length levels);
      _ ← open_tracked (length levels);
      final_readers ← read_files levels;
      _ ← close_readers (length levels);
      mret (heap_merge final_readers)
  end.

Definition iter_sorted : SM (list Row) :=
  consumed ← gets ws_consumed;
  if consumed : bool then throw RuntimeError "WindowSorter already consumed"
  else _ ← set_consumed; _ ← spill; finally_unlink merge_all.

Definition cleanup : SM unit := λ s,
  let s1 := (unlink_live s).2 in
  (Ok tt, mk_sorter (ws_chunk_rows s1) (ws_merge_fan_in s1) (foldr delete (ws_files s1) (ws_chunks s1))
    [] (ws_live_paths s1) (ws_inversions s1) (ws_max_inversion_windows s1) (ws_rows_seen s1)
    (ws_total_chunks_written s1) (ws_merge_passes s1) (ws_final_level_size s1) (ws_open_readers s1)
    (ws_max_open_readers s1) (ws_last_wid s1) (ws_buffer s1) (ws_consumed s1)).

(** ** The wrappers *)
Definition iter_sorted_by_window (rows : list Row) (chunk_rows merge_fan_in : Z)
    : result (list Row * WindowSorter) :=
  s ← new_sorter chunk_rows merge_fan_in;
  let '(out, s) := (_ ← add_all rows; iter_sorted) s in
  sorted ← out;
  Ok (sorted, (cleanup s).2).

(** One sorter per tag, created at the tag's first row; each has its own
    directory. *)
Fixpoint feed_tagged (chunk_rows : Z) (tagged : list (string * Row))
    (sorters : list (string * WindowSorter)) : result (list (string * WindowSorter)) :=
  match tagged with
  | [] => Ok sorters
  | (tag, row) :: tagged =>
      s ← match od_get tag sorters with Some s => Ok s | None => new_sorter chunk_rows 8 end;
      let '(out, s) := add row s in
      _ ← out;
      feed_tagged chunk_rows tagged (od_set tag s sorters)
  end.
Definition iter_sorted_tagged (tagged : list (string * Row)) (chunk_rows : Z)
    : result (list (string * WindowSorter) * list (string * (result (list Row) * WindowSorter))) :=
  sorters ← feed_tagged chunk_rows tagged [];
  Ok (sorters, map (λ kv, (kv.1, iter_sorted kv.2)) sorters).
