(* ===== verification/DsWindowing.v ===== *)
(** * Window grid, event-time watermark and windowed streaming

    Models [datasets/datasense/windowing.py] (the integer-nanosecond grid and its
    pre-start policy, the UTC stamps of a window) and
    [datasets/datasense/ordering.py] (the maximum-lateness watermark), and states
    the streaming discipline the three extractors share: an event is dropped
    before the watermark sees it, refused because its window was finalized, or
    contributed to the accumulators of its window; accumulators whose window the
    watermark has passed are emitted in key order.  [WindowManager] is the
    interface an extractor implements; what it gives a client is proved here once
    against [group], the batch definition that looks at all the events at once. *)

From Stdlib Require Import SpecFloat.
From S2P Require Import Prelude PyString Json.

(** ** Time stamps *)
Definition NS_PER_SECOND : Z := 1000000000.

(** [datetime(1970, 1, 1) + timedelta(days=days)]: year, month and day of the
    proleptic Gregorian calendar, in eras of 400 years that start in March. *)
Definition civil_of_days (days : Z) : Z * Z * Z :=
  let z := days + 719468 in
  let era := z / 146097 in
  let doe := z mod 146097 in
  let yoe := (doe - doe / 1460 + doe / 36524 - doe / 146096) / 365 in
  let doy := doe - (365 * yoe + yoe / 4 - yoe / 100) in
  let mp := (5 * doy + 2) / 153 in
  let m := if mp <? 10 then mp + 3 else mp - 9 in
  (yoe + era * 400 + (if m <=? 2 then 1 else 0), m, doy - (153 * mp + 2) / 5 + 1).

(** [f"{z:0nd}"] for a non-negative [z]. *)
Definition fmt_pad (n : nat) (z : Z) : string :=
  let s := fmt_int z in unchars (replicate (n - String.length s) "0"%char) +:+ s.

(** [iso_utc_from_ns]: a [datetime] covers the years 1 to 9999; [strftime("%Y")] does
    not pad. *)
Definition iso_utc_from_ns (ts_ns : Z) : result string :=
  let seconds := ts_ns / NS_PER_SECOND in
  let remainder := ts_ns mod NS_PER_SECOND in
  let days := seconds / 86400 in
  let sod := seconds mod 86400 in
  if (days <? -719162) || (2932896 <? days) then raise OverflowError "date value out of range"
  else
    let '(y, m, d) := civil_of_days days in
    let microsecond := remainder / 1000 in
    Ok (fmt_int y +:+ "-" +:+ fmt_pad 2 m +:+ "-" +:+ fmt_pad 2 d +:+ "T"
        +:+ fmt_pad 2 (sod / 3600) +:+ ":" +:+ fmt_pad 2 (sod / 60 mod 60) +:+ ":"
        +:+ fmt_pad 2 (sod mod 60) +:+ "." +:+ fmt_pad 3 (microsecond / 1000) +:+ "Z").

Example iso_leap_day : iso_utc_from_ns 1709251199999999999 = Ok "2024-02-29T23:59:59.999Z".
Proof. reflexivity. Qed.
Example iso_before_epoch : iso_utc_from_ns (-1) = Ok "1969-12-31T23:59:59.999Z".
Proof. reflexivity. Qed.

(** ** The grid *)
Inductive Disposition := in_grid | prestart_snapped | prestart_negative.

#[export] Instance disposition_eq_dec : EqDecision Disposition.
Proof. solve_decision. Defined.

Record WindowGrid := mk_grid {
  wg_scenario_start_ns : Z;
  wg_window_seconds : f64;
}.

Definition new_grid (scenario_start_ns : Z) (window_seconds : f64) : result WindowGrid :=
  if f_leb window_seconds f_zero then raise ValueError "window_seconds must be positive"
  else Ok (mk_grid scenario_start_ns window_seconds).

Definition window_ns (g : WindowGrid) : Z :=
  f_round_int (f_mul (wg_window_seconds g) (f_of_Z NS_PER_SECOND)).

Definition window_id (g : WindowGrid) (ts_ns : Z) : Z := (ts_ns - wg_scenario_start_ns g) / window_ns g.

Definition assign (g : WindowGrid) (clock_tolerance_ns ts_ns : Z) : Z * Disposition :=
  let raw_wid := window_id g ts_ns in
  if 0 <=? raw_wid then (raw_wid, in_grid)
  else
    let displacement := wg_scenario_start_ns g - ts_ns in
    if (0 <=? displacement) && (displacement <=? clock_tolerance_ns) then (0, prestart_snapped)
    else (raw_wid, prestart_negative).

Definition window_bounds (g : WindowGrid) (wid : Z) : Z * Z :=
  let start := wg_scenario_start_ns g + wid * window_ns g in (start, start + window_ns g).

(** An event lies in the bounds of its window, or was snapped into the first one. *)
Lemma assign_bounds g tol ts wid d :
  0 < window_ns g → assign g tol ts = (wid, d) →
  match d with
  | prestart_snapped => wid = 0 ∧ wg_scenario_start_ns g - tol ≤ ts < wg_scenario_start_ns g
  | in_grid => 0 ≤ wid ∧ (window_bounds g wid).1 ≤ ts < (window_bounds g wid).2
  | prestart_negative => wid < 0 ∧ (window_bounds g wid).1 ≤ ts < (window_bounds g wid).2 ∧
                         (ts < wg_scenario_start_ns g - tol)
  end.
Proof.
  unfold assign, window_bounds, window_id. cbn [fst snd]. intros Hw.
  pose proof (Z.div_mod (ts - wg_scenario_start_ns g) (window_ns g)) as Hd.
  pose proof (Z.mod_pos_bound (ts - wg_scenario_start_ns g) (window_ns g) Hw) as Hm.
  set (q := (ts - wg_scenario_start_ns g) / window_ns g) in *.
  destruct (Z.leb_spec 0 q); [intros [= <- <-]; lia |].
  assert (ts < wg_scenario_start_ns g) by nia.
  destruct (Z.leb_spec 0 (wg_scenario_start_ns g - ts)); cbn; [|lia].
  destruct (Z.leb_spec (wg_scenario_start_ns g - ts) tol); intros [= <- <-]; lia.
Qed.

(** The grid keeps the order of events. *)
Lemma assign_mono g tol t1 t2 :
  0 < window_ns g → t1 ≤ t2 → (assign g tol t1).1 ≤ (assign g tol t2).1.
Proof.
  intros Hw Ht. unfold assign.
  assert (Hq : window_id g t1 ≤ window_id g t2) by (apply Z.div_le_mono; lia).
  assert (Hn : ∀ t, window_id g t < 0 → t < wg_scenario_start_ns g).
  { intros t H. unfold window_id in H. destruct (Z.lt_ge_cases t (wg_scenario_start_ns g)); [done |].
    pose proof (Z.div_pos (t - wg_scenario_start_ns g) (window_ns g)). lia. }
  destruct (Z.leb_spec 0 (window_id g t1)), (Z.leb_spec 0 (window_id g t2)); cbn; try lia;
    repeat match goal with |- context [if ?b then _ else _] => destruct b eqn:? end; cbn; try lia.
  rewrite andb_true_iff, andb_false_iff in *. specialize (Hn t2). lia.
Qed.

(** ** The watermark *)
Record WatermarkTracker := mk_tracker {
  tr_window_ns : Z;
  tr_lateness_windows : Z;
  tr_max_wid_seen : option Z;
  tr_min_wid_seen : option Z;
  tr_finalized_floor : option Z;
  tr_max_ts_ns : option Z;
  tr_max_observed_lateness_ns : Z;
}.

Definition new_tracker (window_ns max_event_lateness_ns : Z) : result WatermarkTracker :=
  if window_ns <=? 0 then raise ValueError "window_ns must be positive"
  else if max_event_lateness_ns <? 0 then raise ValueError "max_event_lateness_ns must be non-negative"
  else Ok (mk_tracker window_ns (- ((- max_event_lateness_ns) / window_ns)) None None None None 0).

Definition EventOlderThanWatermarkError : exn_class := OtherError "EventOlderThanWatermarkError".

Definition below_floor (wid : Z) (t : WatermarkTracker) : bool :=
  match tr_finalized_floor t with Some f => wid <? f | None => false end.

Definition ensure_acceptable (wid : Z) (what : string) (t : WatermarkTracker) : result unit :=
  match tr_finalized_floor t with
  | Some f =>
      if wid <? f then
        raise EventOlderThanWatermarkError
          (what +:+ " belongs to window " +:+ fmt_int wid +:+ ", but all windows < " +:+ fmt_int f
           +:+ " are already finalized (max_lateness="
           +:+ fmt_int (tr_lateness_windows t * tr_window_ns t)
           +:+ " ns). Failing explicitly rather than losing the event.")
      else Ok tt
  | None => Ok tt
  end.

(** [observe]: the new tracker, and whether the floor moved. *)
Definition observe (ts_ns wid : Z) (t : WatermarkTracker) : bool * WatermarkTracker :=
  let max_wid := match tr_max_wid_seen t with
                 | Some m => if m <? wid then wid else m | None => wid end in
  let min_wid := match tr_min_wid_seen t with
                 | Some m => if wid <? m then wid else m | None => wid end in
  let max_ts := match tr_max_ts_ns t with
                | Some m => if m <? ts_ns then ts_ns else m | None => ts_ns end in
  let lateness := max_ts - ts_ns in
  let max_late := if tr_max_observed_lateness_ns t <? lateness then lateness
                  else tr_max_observed_lateness_ns t in
  let new_floor := max_wid - tr_lateness_windows t in
  let advanced := match tr_finalized_floor t with Some f => f <? new_floor | None => true end in
  (advanced,
   mk_tracker (tr_window_ns t) (tr_lateness_windows t) (Some max_wid) (Some min_wid)
     (if advanced then Some new_floor else tr_finalized_floor t) (Some max_ts) max_late).

(** [due_windows]: the inclusive range to finalize now; taking it raises the lowest
    window seen to the floor. *)
Definition due_windows (t : WatermarkTracker) : option (Z * Z) * WatermarkTracker :=
  match tr_finalized_floor t, tr_min_wid_seen t with
  | Some floor, Some lo =>
      let hi := floor - 1 in
      if hi <? lo then (None, t)
      else (Some (lo, hi),
            mk_tracker (tr_window_ns t) (tr_lateness_windows t) (tr_max_wid_seen t) (Some floor)
              (Some floor) (tr_max_ts_ns t) (tr_max_observed_lateness_ns t))
  | _, _ => (None, t)
  end.

(** What every operation keeps: the floor is the highest window seen less the
    lateness, and no window seen is above the highest. *)
Record tracker_ok (t : WatermarkTracker) : Prop := {
  tko_width : 0 < tr_window_ns t;
  tko_lateness : 0 ≤ tr_lateness_windows t;
  tko_floor : tr_finalized_floor t = (λ m, m - tr_lateness_windows t) <$> tr_max_wid_seen t;
  tko_min : match tr_min_wid_seen t, tr_max_wid_seen t with
            | Some lo, Some hi => lo ≤ hi | None, None => True | _, _ => False end;
}.

Lemma new_tracker_ok w l t : new_tracker w l = Ok t → tracker_ok t ∧ tr_max_wid_seen t = None.
Proof.
  unfold new_tracker. destruct (Z.leb_spec w 0) as [|Hw]; [done |].
  destruct (Z.ltb_spec l 0) as [|Hl]; [done |].
  intros [= <-]. split; [|done]. split; cbn; [done | | done | done].
  assert (- l / w ≤ 0); [|lia]. apply Z.div_le_upper_bound; lia.
Qed.

Lemma observe_ok ts wid t : tracker_ok t → tracker_ok (observe ts wid t).2.
Proof.
  intros [Hw Hk Hf Hm]. unfold observe. cbn [snd]. split; cbn; [done | done | |].
  - destruct (tr_max_wid_seen t) as [m|] eqn:Hmax; rewrite Hf; cbn; [|done].
    destruct (Z.ltb_spec m wid), (Z.ltb_spec (m - tr_lateness_windows t) (wid - tr_lateness_windows t));
      try lia; [done |]. by rewrite Z.ltb_irrefl.
  - destruct (tr_max_wid_seen t), (tr_min_wid_seen t); try done; cbn; try lia;
    repeat match goal with |- context [Z.ltb ?a ?b] => destruct (Z.ltb_spec a b) end; lia.
Qed.

Lemma due_windows_ok t : tracker_ok t → tracker_ok (due_windows t).2.
Proof.
  intros Ht. pose proof Ht as [Hw Hk Hf Hm]. unfold due_windows.
  destruct (tr_finalized_floor t) as [f|] eqn:Hfl; [|done].
  destruct (tr_min_wid_seen t) as [lo|]; [|done].
  destruct (Z.ltb_spec (f - 1) lo); [done |]. cbn.
  destruct (tr_max_wid_seen t) as [m|]; cbn in Hf; [|done]. injection Hf as ->.
  split; cbn; try done. lia.
Qed.

Lemma ensure_acceptable_spec wid what t :
  ensure_acceptable wid what t = Ok tt ∧ below_floor wid t = false ∨
  (∃ e, ensure_acceptable wid what t = Raise e ∧ exn_type e = EventOlderThanWatermarkError) ∧
  below_floor wid t = true.
Proof.
  unfold ensure_acceptable, below_floor. destruct (tr_finalized_floor t) as [f|]; [|by left].
  destruct (wid <? f); [|by left]. right. split; [by eexists | done].
Qed.

(** ** Keys: tuples that start with the window *)
Section lex.
Context {A B : Type} (la : A → A → bool) (lb : B → B → bool).

(** Comparison of pairs, first components first. *)
Definition lex_leb (x y : A * B) : bool :=
  la x.1 y.1 && (negb (la y.1 x.1) || lb x.2 y.2).

Context (la_total : ∀ x y, la x y = true ∨ la y x = true).
Context (la_trans : ∀ x y z, la x y = true → la y z = true → la x z = true).
Context (la_antisym : ∀ x y, la x y = true → la y x = true → x = y).
Context (lb_total : ∀ x y, lb x y = true ∨ lb y x = true).
Context (lb_trans : ∀ x y z, lb x y = true → lb y z = true → lb x z = true).
Context (lb_antisym : ∀ x y, lb x y = true → lb y x = true → x = y).

Lemma lex_leb_true x y : lex_leb x y = true ↔ la x.1 y.1 = true ∧ (la y.1 x.1 = true → lb x.2 y.2 = true).
Proof.
  unfold lex_leb. rewrite andb_true_iff, orb_true_iff, negb_true_iff.
  destruct (la y.1 x.1); naive_solver.
Qed.

Lemma lex_leb_total x y : lex_leb x y = true ∨ lex_leb y x = true.
Proof.
  rewrite !lex_leb_true. destruct (la x.1 y.1) eqn:H1, (la y.1 x.1) eqn:H2.
  - destruct (lb_total x.2 y.2); naive_solver.
  - left. naive_solver.
  - right. naive_solver.
  - destruct (la_total x.1 y.1); congruence.
Qed.

Lemma lex_leb_trans x y z : lex_leb x y = true → lex_leb y z = true → lex_leb x z = true.
Proof.
  rewrite !lex_leb_true. intros [H1 H2] [H3 H4]. split; [by eapply la_trans |].
  intros Hzx. eapply lb_trans; [apply H2 | apply H4]; by eapply la_trans.
Qed.

Lemma lex_leb_antisym x y : lex_leb x y = true → lex_leb y x = true → x = y.
Proof.
  rewrite !lex_leb_true. intros [H1 H2] [H3 H4]. destruct x, y; cbn in *.
  f_equal; [by apply la_antisym | apply lb_antisym; auto].
Qed.
End lex.

(** The dictionary keys of the extractors: ordered, by window first. *)
Class WindowKey (Key : Type) `{Countable Key} := {
  key_wid : Key → Z;
  key_leb : Key → Key → bool;
  key_leb_total : ∀ x y, key_leb x y = true ∨ key_leb y x = true;
  key_leb_trans : ∀ x y z, key_leb x y = true → key_leb y z = true → key_leb x z = true;
  key_leb_antisym : ∀ x y, key_leb x y = true → key_leb y x = true → x = y;
  key_leb_wid : ∀ x y, key_leb x y = true → key_wid x ≤ key_wid y;
}.

Lemma Z_leb_total x y : (x <=? y) = true ∨ (y <=? x) = true.
Proof. lia. Qed.
Lemma Z_leb_trans x y z : (x <=? y) = true → (y <=? z) = true → (x <=? z) = true.
Proof. lia. Qed.
Lemma Z_leb_antisym x y : (x <=? y) = true → (y <=? x) = true → x = y.
Proof. lia. Qed.

(** [(window_id, device_name)] *)
#[export, refine] Instance device_key : WindowKey (Z * string) := {
  key_wid := fst;
  key_leb := lex_leb Z.leb str_leb;
}.
Proof.
  - apply lex_leb_total; eauto using Z_leb_total, str_leb_total.
  - apply lex_leb_trans; eauto using Z_leb_trans, str_leb_trans.
  - apply lex_leb_antisym; eauto using Z_leb_antisym, str_leb_antisym.
  - intros x y [H _]%lex_leb_true. lia.
Defined.

(** [(window_id, src_entity, dst_entity)] *)
#[export, refine] Instance edge_key : WindowKey (Z * string * string) := {
  key_wid k := k.1.1;
  key_leb := lex_leb (lex_leb Z.leb str_leb) str_leb;
}.
Proof.
  - apply lex_leb_total; eauto using lex_leb_total, Z_leb_total, str_leb_total.
  - apply lex_leb_trans; eauto using lex_leb_trans, Z_leb_trans, str_leb_trans.
  - apply lex_leb_antisym; eauto using lex_leb_antisym, Z_leb_antisym, str_leb_antisym.
  - intros x y [[H _]%lex_leb_true _]%lex_leb_true. lia.
Defined.

(** ** The windowed stream *)
Section stream.
Context `{WindowKey Key} {Acc : Type}.
Implicit Types (m : gmap Key Acc) (k : Key).

Definition entry_leb (x y : Key * Acc) : bool := key_leb x.1 y.1.

(** [sorted(d)] and [[d[k] for k in sorted(d)]]. *)
Definition sorted_keys m : list Key := isort key_leb (map_to_list m).*1.
Definition sorted_entries m : list (Key * Acc) := isort entry_leb (map_to_list m).

(** The live accumulators and the watermark of an extractor. *)
Record Live := mk_live {
  lv_windows : gmap Key Acc;
  lv_tracker : WatermarkTracker;
}.

(** What one event does to one accumulator: the one it starts from when the key is
    new, and the update. *)
Record Contribution := mk_contribution {
  cb_key : Key;
  cb_new : Acc;
  cb_update : Acc → Acc;
}.

(** An event as the streaming discipline sees it. *)
Inductive Arrival :=
  | Ignored
  | Timed (ts_ns wid : Z) (cs : list Contribution).

Definition contribute m (c : Contribution) : gmap Key Acc :=
  <[cb_key c := cb_update c (default (cb_new c) (m !! cb_key c))]> m.

Definition in_range (lo hi : Z) (k : Key) : bool := (lo <=? key_wid k) && (key_wid k <=? hi).

(** The entries that are due, in key order, and what stays live. *)
Definition live_finalize (l : Live) : list (Key * Acc) * Live :=
  match due_windows (lv_tracker l) with
  | (None, t) => ([], mk_live (lv_windows l) t)
  | (Some (lo, hi), t) =>
      (sorted_entries (filter (λ ka, in_range lo hi ka.1) (lv_windows l)),
       mk_live (filter (λ ka, ¬ in_range lo hi ka.1) (lv_windows l)) t)
  end.

(** One event: [None] when its window was finalized before it came. *)
Definition live_step (e : Arrival) (l : Live) : option (list (Key * Acc) * Live) :=
  match e with
  | Ignored => Some ([], l)
  | Timed ts wid cs =>
      if below_floor wid (lv_tracker l) then None
      else
        let t := (observe ts wid (lv_tracker l)).2 in
        match cs with
        | [] => Some ([], mk_live (lv_windows l) t)
        | _ => Some (live_finalize (mk_live (foldl contribute (lv_windows l) cs) t))
        end
  end.

Fixpoint live_run (es : list Arrival) (l : Live) : option (list (Key * Acc) * Live) :=
  match es with
  | [] => Some ([], l)
  | e :: es =>
      match live_step e l with
      | Some (out, l1) =>
          match live_run es l1 with Some (out', l2) => Some (out ++ out', l2) | None => None end
      | None => None
      end
  end.

(** The batch reading of a stream: every contribution, in order of arrival, to the
    accumulator of its key. *)
Definition arrival_contributions (e : Arrival) : list Contribution :=
  match e with Ignored => [] | Timed _ _ cs => cs end.
Definition group (es : list Arrival) : gmap Key Acc :=
  foldl contribute ∅ (es ≫= arrival_contributions).

Definition timed_wids (es : list Arrival) : list Z :=
  es ≫= λ e, match e with Ignored => [] | Timed _ wid _ => [wid] end.

(** An event contributes to its own window only. *)
Definition arrival_ok (e : Arrival) : Prop :=
  match e with Ignored => True | Timed _ wid cs => Forall (λ c, key_wid (cb_key c) = wid) cs end.

(** *** Sorted entries *)
Lemma entry_leb_total x y : entry_leb x y = true ∨ entry_leb y x = true.
Proof. apply key_leb_total. Qed.
Lemma entry_leb_trans x y z : entry_leb x y = true → entry_leb y z = true → entry_leb x z = true.
Proof. apply key_leb_trans. Qed.

Lemma key_wid_leb x y : key_wid x < key_wid y → key_leb x y = true.
Proof. intros Hlt. destruct (key_leb_total x y) as [|Hyx%key_leb_wid]; [done | lia]. Qed.

Lemma sorted_entries_perm m : sorted_entries m ≡ₚ map_to_list m.
Proof. apply isort_perm. Qed.

Lemma sorted_entries_sorted m : StronglySorted entry_leb (sorted_entries m).
Proof. apply isort_sorted; [apply entry_leb_total | apply entry_leb_trans]. Qed.

Lemma elem_of_sorted_entries m k a : (k, a) ∈ sorted_entries m ↔ m !! k = Some a.
Proof. by rewrite sorted_entries_perm, elem_of_map_to_list. Qed.

Lemma sorted_entries_empty : sorted_entries ∅ = [].
Proof. unfold sorted_entries. by rewrite map_to_list_empty. Qed.

Lemma map_insert_sorted k a (l : list (Key * Acc)) :
  (insert_sorted entry_leb (k, a) l).*1 = insert_sorted key_leb k l.*1.
Proof.
  induction l as [|[k' a'] l IH]; cbn; [done |]. unfold entry_leb at 1; cbn.
  destruct (key_leb k k'); cbn; by rewrite ?IH.
Qed.

Lemma sorted_keys_nodup m : NoDup (sorted_keys m).
Proof. unfold sorted_keys. rewrite isort_perm. apply NoDup_fst_map_to_list. Qed.
Lemma sorted_keys_sorted m : StronglySorted key_leb (sorted_keys m).
Proof. apply isort_sorted; [apply key_leb_total | apply key_leb_trans]. Qed.
Lemma elem_of_sorted_keys m k : k ∈ sorted_keys m ↔ is_Some (m !! k).
Proof.
  unfold sorted_keys. rewrite elem_of_isort, list_elem_of_fmap. split.
  - intros ([k' a] & -> & ?%elem_of_map_to_list). eauto.
  - intros [a Ha]. exists (k, a). by rewrite elem_of_map_to_list.
Qed.
Lemma sorted_entries_keys m : (sorted_entries m).*1 = sorted_keys m.
Proof.
  unfold sorted_entries, sorted_keys. induction (map_to_list m) as [|[k a] l IH]; cbn; [done |].
  by rewrite map_insert_sorted, IH.
Qed.

(** A sorted list of entries is determined by the map it makes. *)
Lemma sorted_entries_unique m l :
  l ≡ₚ map_to_list m → StronglySorted entry_leb l → l = sorted_entries m.
Proof.
  intros Hp Hs. apply (sorted_perm_eq entry_leb entry_leb_total entry_leb_trans); [| done | apply sorted_entries_sorted |].
  - intros [k a] [k' a'] Hx Hy Hxy Hyx. rewrite Hp in Hx, Hy.
    apply elem_of_map_to_list in Hx, Hy. unfold entry_leb in *; cbn in *.
    assert (k = k') as <- by by apply key_leb_antisym. congruence.
  - by rewrite Hp, sorted_entries_perm.
Qed.

Lemma sorted_app (l1 l2 : list (Key * Acc)) :
  StronglySorted entry_leb l1 → StronglySorted entry_leb l2 →
  (∀ x y, x ∈ l1 → y ∈ l2 → key_wid x.1 < key_wid y.1) → StronglySorted entry_leb (l1 ++ l2).
Proof.
  induction 1 as [|x l1 Hs IH Hall]; cbn; intros Hs2 Hlt; [done |].
  constructor.
  - apply IH; [done |]. intros; apply Hlt; set_solver.
  - apply Forall_app. split; [done |]. apply Forall_forall. intros y Hy.
    apply Is_true_true, key_wid_leb, Hlt; set_solver.
Qed.

(** *** Contributions *)
Lemma lookup_contribute m c k :
  contribute m c !! k =
    if decide (k = cb_key c) then Some (cb_update c (default (cb_new c) (m !! k))) else m !! k.
Proof. unfold contribute. case_decide; subst; by simplify_map_eq. Qed.

(** Contributions to keys a prefix map does not hold go past it. *)
Lemma contribute_union m1 m2 cs :
  Forall (λ c, m1 !! cb_key c = None) cs →
  foldl contribute (m1 ∪ m2) cs = m1 ∪ foldl contribute m2 cs.
Proof.
  revert m2. induction cs as [|c cs IH]; intros m2; cbn; [done |].
  intros [Hc Hcs]%Forall_cons. rewrite <-IH by done. f_equal. apply map_eq. intros k.
  rewrite lookup_contribute. case_decide as Hk; [subst k |].
  - rewrite lookup_union_r by done.
    rewrite lookup_union_r by done. by rewrite lookup_contribute, decide_True.
  - rewrite !lookup_union. by rewrite lookup_contribute, decide_False.
Qed.

Lemma contribute_keys (P : Key → Prop) m cs :
  map_Forall (λ k _, P k) m → Forall (λ c, P (cb_key c)) cs →
  map_Forall (λ k _, P k) (foldl contribute m cs).
Proof.
  revert m. induction cs as [|c cs IH]; intros m Hm; cbn; [done |].
  intros [Hc Hcs]%Forall_cons. apply IH; [|done]. by apply map_Forall_insert_2.
Qed.

(** *** The run of a stream

    [out] was emitted, [l] is live and [es] has arrived: what was emitted is sorted,
    lies below every live window, and together with the live entries is the batch. *)
Record streamed (es : list Arrival) (out : list (Key * Acc)) (l : Live) : Prop := {
  st_tracker : tracker_ok (lv_tracker l);
  st_sorted : StronglySorted entry_leb out;
  st_nodup : NoDup out.*1;
  st_group : list_to_map out ∪ lv_windows l = group es;
  st_bounds : ∃ b, Forall (λ ka, key_wid ka.1 < b) out ∧
    map_Forall (λ k _, b ≤ key_wid k) (lv_windows l) ∧
    match tr_finalized_floor (lv_tracker l) with
    | Some f => b ≤ f
    | None => out = [] ∧ lv_windows l = ∅
    end;
  st_seen : map_Forall (λ k _, match tr_min_wid_seen (lv_tracker l), tr_max_wid_seen (lv_tracker l) with
    | Some lo, Some hi => lo ≤ key_wid k ≤ hi | _, _ => False end) (lv_windows l);
}.

Lemma streamed_start t : tracker_ok t → tr_max_wid_seen t = None → streamed [] [] (mk_live ∅ t).
Proof.
  intros Ht Hm. split; cbn; [done | constructor | constructor | apply map_union_empty | |apply map_Forall_empty].
  exists 0. split_and!; [done | apply map_Forall_empty |].
  by rewrite (tko_floor _ Ht), Hm.
Qed.

(** A finalization takes every window below the floor. *)
Lemma live_finalize_streamed es out l :
  streamed es out l → is_Some (tr_finalized_floor (lv_tracker l)) →
  streamed es (out ++ (live_finalize l).1) (live_finalize l).2.
Proof.
  intros [Ht Hs Hnd Hg (b & Hout & Hw & Hb) Hseen] [f Hf]. unfold live_finalize.
  pose proof (due_windows_ok _ Ht) as Ht2. unfold due_windows in *. rewrite Hf in *.
  destruct (tr_min_wid_seen (lv_tracker l)) as [lo|] eqn:Hlo.
  2:{ cbn. rewrite app_nil_r. split; cbn; rewrite ?Hlo; try done. exists b. by rewrite Hf. }
  destruct (Z.ltb_spec (f - 1) lo) as [Hlt|Hle]; cbn in *.
  { rewrite app_nil_r. split; cbn; rewrite ?Hlo; try done. exists b. by rewrite Hf. }
  pose proof (tko_floor _ Ht) as Hfl. rewrite Hf in Hfl.
  destruct (tr_max_wid_seen (lv_tracker l)) as [mx|] eqn:Hmx; cbn in Hfl; [|done].
  injection Hfl as Hfl. pose proof (tko_lateness _ Ht) as HK.
  set (W := lv_windows l) in *.
  set (due := filter (λ ka, in_range lo (f - 1) ka.1) W).
  set (rest := filter (λ ka, ¬ in_range lo (f - 1) ka.1) W).
  assert (Hdue : ∀ k a, due !! k = Some a → W !! k = Some a ∧ key_wid k ≤ f - 1).
  { intros k a [Hk Hr]%map_lookup_filter_Some. split; [done |].
    apply Is_true_true in Hr. unfold in_range in Hr. cbn in Hr. lia. }
  assert (Hrest : ∀ k a, rest !! k = Some a → W !! k = Some a ∧ f ≤ key_wid k).
  { intros k a [Hk Hr]%map_lookup_filter_Some. split; [done |].
    pose proof (Hseen k a Hk) as Hk2. cbn in Hk2. unfold in_range in Hr. cbn in Hr.
    destruct (Z.lt_ge_cases (key_wid k) f); [|lia]. exfalso. apply Hr, Is_true_true. lia. }
  split; cbn.
  - done.
  - apply sorted_app; [done | apply sorted_entries_sorted |]. intros [k a] [k' a'] Hin Hin'.
    apply elem_of_sorted_entries in Hin'. apply Hdue in Hin' as [Hin' _].
    rewrite Forall_forall in Hout. apply Hout in Hin. cbn in *.
    pose proof (Hw k' a' Hin'). cbn in *. lia.
  - rewrite fmap_app, sorted_entries_keys. apply NoDup_app. split_and!; [done | |].
    + intros k Hk Hk'. apply list_elem_of_fmap in Hk as ([k1 a] & -> & Hk). cbn in *.
      rewrite <-sorted_entries_keys in Hk'. apply list_elem_of_fmap in Hk' as ([k2 a'] & Hkk & Hk').
      cbn in Hkk. subst k2. apply elem_of_sorted_entries, Hdue in Hk' as [Hk' _].
      rewrite Forall_forall in Hout. apply Hout in Hk. cbn in Hk. pose proof (Hw k1 a' Hk'). cbn in *. lia.
    + apply sorted_keys_nodup.
  - rewrite list_to_map_app, <-Hg. etrans; [symmetry; apply map_union_assoc |]. f_equal.
    assert (list_to_map (sorted_entries due) = due) as ->.
    { etrans; [|apply list_to_map_to_list]. apply list_to_map_proper; [|apply sorted_entries_perm].
      rewrite sorted_entries_keys. apply sorted_keys_nodup. }
    apply map_filter_union_complement.
  - exists f. split_and!; [| | done].
    + apply Forall_app. split.
      * eapply Forall_impl; [exact Hout |]. cbn. intros; lia.
      * apply Forall_forall. intros [k a] [_ Hk]%elem_of_sorted_entries%Hdue. cbn. lia.
    + intros k a [Hk Hge]%Hrest. pose proof (Hseen k a Hk) as Hk2. cbn in Hk2. lia.
  - intros k a [Hk Hge]%Hrest. pose proof (Hseen k a Hk) as Hk2. cbn in *. lia.
Qed.

Lemma below_floor_false wid t f :
  below_floor wid t = false → tr_finalized_floor t = Some f → f ≤ wid.
Proof. unfold below_floor. intros Hb Hf. rewrite Hf in Hb. lia. Qed.

(** The floor and the highest window after an observation. *)
Lemma observe_floor ts wid t :
  tracker_ok t → below_floor wid t = false →
  let t' := (observe ts wid t).2 in
  ∃ lo mx, tr_finalized_floor t' = Some (mx - tr_lateness_windows t) ∧
    tr_max_wid_seen t' = Some mx ∧ tr_min_wid_seen t' = Some lo ∧
    mx = match tr_max_wid_seen t with Some m => Z.max m wid | None => wid end ∧
    lo = match tr_min_wid_seen t with Some m => Z.min m wid | None => wid end ∧
    mx - tr_lateness_windows t ≤ wid ≤ mx ∧
    (∀ f, tr_finalized_floor t = Some f → f ≤ mx - tr_lateness_windows t).
Proof.
  intros Ht Hb t'. pose proof (observe_ok ts wid t Ht) as Ht'. pose proof (tko_floor _ Ht') as Hf'.
  pose proof (tko_floor _ Ht) as Hf. pose proof (tko_lateness _ Ht) as HK.
  fold t' in Hf'. rewrite Hf'. unfold t' at 1 2 3. cbn.
  eexists _, _. split; [done |]. split; [done |]. split; [done |].
  split; [destruct (tr_max_wid_seen t) as [m|]; [destruct (Z.ltb_spec m wid); lia | done] |].
  split; [destruct (tr_min_wid_seen t) as [m|]; [destruct (Z.ltb_spec wid m); lia | done] |].
  unfold below_floor in Hb. destruct (tr_max_wid_seen t) as [m|]; rewrite Hf in *; cbn in *;
    [|split; [lia | done]].
  destruct (Z.ltb_spec m wid); (split; [lia |]); intros f [= <-]; lia.
Qed.

(** What arrived with an accepted event, before the finalization. *)
Lemma contribute_streamed es out l ts wid cs :
  arrival_ok (Timed ts wid cs) → streamed es out l → below_floor wid (lv_tracker l) = false →
  streamed (es ++ [Timed ts wid cs]) out
    (mk_live (foldl contribute (lv_windows l) cs) (observe ts wid (lv_tracker l)).2).
Proof.
  intros He [Ht Hs Hnd Hg (b & Hout & Hw & Hb) Hseen] Hbf. cbn in He.
  pose proof (observe_floor ts wid _ Ht Hbf) as (lo & mx & Hf & Hmx & Hlo & Emx & Elo & Hwid & Hfl).
  assert (Hb' : ∃ b', Forall (λ ka, key_wid ka.1 < b') out ∧ b' ≤ mx - tr_lateness_windows (lv_tracker l) ∧
    map_Forall (λ k _, b' ≤ key_wid k) (lv_windows l) ∧ b' ≤ wid).
  { destruct (tr_finalized_floor (lv_tracker l)) as [f|] eqn:Hff.
    - exists b. specialize (Hfl f eq_refl). pose proof (below_floor_false _ _ _ Hbf Hff).
      split_and!; [done | lia | done | lia].
    - destruct Hb as [-> ->]. exists (mx - tr_lateness_windows (lv_tracker l)).
      split_and!; [done | lia | apply map_Forall_empty | lia]. }
  clear b Hout Hw Hb. destruct Hb' as (b & Hout & Hbm & Hw & Hbw).
  split; cbn [lv_windows lv_tracker]; rewrite ?Hf, ?Hlo, ?Hmx; [by apply observe_ok | done | done | | |].
  - unfold group in *. rewrite bind_app, foldl_app, <-Hg. cbn. rewrite app_nil_r.
    symmetry. apply contribute_union. eapply Forall_impl; [exact He |]. intros c Hc.
    apply not_elem_of_list_to_map. intros Hin. apply list_elem_of_fmap in Hin as (ka & Hka & Hin).
    rewrite Forall_forall in Hout. apply Hout in Hin. rewrite <-Hka, Hc in Hin. lia.
  - exists b. split_and!; [done | | done]. apply (contribute_keys (λ k, b ≤ key_wid k)); [done |].
    eapply Forall_impl; [exact He |]. by cbn; intros c ->.
  - apply (contribute_keys (λ k, lo ≤ key_wid k ≤ mx)).
    + intros k a Hk. pose proof (Hseen k a Hk) as Hk2. cbn in Hk2.
      destruct (tr_min_wid_seen (lv_tracker l)), (tr_max_wid_seen (lv_tracker l)); try done. lia.
    + eapply Forall_impl; [exact He |]. cbn. intros c ->.
      destruct (tr_min_wid_seen (lv_tracker l)); lia.
Qed.

Lemma live_step_streamed es out l e out' l' :
  arrival_ok e → streamed es out l → live_step e l = Some (out', l') →
  streamed (es ++ [e]) (out ++ out') l'.
Proof.
  intros He Hst. destruct e as [|ts wid cs]; cbn.
  { intros [= <- <-]. rewrite app_nil_r. destruct Hst. split; try done.
    unfold group in *. by rewrite bind_app, app_nil_r. }
  destruct (below_floor wid (lv_tracker l)) eqn:Hbf; [done |]. intros Hstep.
  pose proof (contribute_streamed _ _ _ ts wid cs He Hst Hbf) as Hst'.
  destruct cs as [|c cs]; [injection Hstep as <- <-; by rewrite app_nil_r |].
  set (l1 := mk_live _ _) in Hst'. change (Some (live_finalize l1) = Some (out', l')) in Hstep.
  injection Hstep as Hstep. pose proof (live_finalize_streamed _ _ l1 Hst') as Hfin.
  rewrite Hstep in Hfin. apply Hfin.
  pose proof (observe_floor ts wid _ (st_tracker _ _ _ Hst) Hbf) as (lo & mx & Hf & _).
  unfold l1. cbn [lv_tracker]. by rewrite Hf.
Qed.

Lemma live_run_streamed es es' out l out' l' :
  Forall arrival_ok es' → streamed es out l → live_run es' l = Some (out', l') →
  streamed (es ++ es') (out ++ out') l'.
Proof.
  revert es out l out'. induction es' as [|e es' IH]; intros es out l out' Hok Hst; cbn.
  { intros [= <- <-]. by rewrite !app_nil_r. }
  apply Forall_cons in Hok as [He Hok].
  destruct (live_step e l) as [[o1 l1]|] eqn:Hs; [|done].
  destruct (live_run es' l1) as [[o2 l2]|] eqn:Hr; [|done]. intros [= <- <-].
  rewrite (assoc_L (++)), cons_middle, (assoc_L (++)). eapply IH; [done | | exact Hr].
  by eapply live_step_streamed.
Qed.

(** What a stream that ran emitted, with what finishing it emits, is the batch. *)
Lemma streamed_entries es out l :
  streamed es out l → out ++ sorted_entries (lv_windows l) = sorted_entries (group es).
Proof.
  intros [Ht Hs Hnd Hg (b & Hout & Hw & Hb) Hseen].
  assert (Hlt : ∀ x y, x ∈ out → y ∈ sorted_entries (lv_windows l) → key_wid x.1 < key_wid y.1).
  { intros x [k a] Hx Hy%elem_of_sorted_entries. rewrite Forall_forall in Hout.
    apply Hout in Hx. pose proof (Hw k a Hy). cbn in *. lia. }
  apply sorted_entries_unique.
  - apply NoDup_Permutation; [| apply NoDup_map_to_list |].
    + apply NoDup_app. split_and!; [by eapply NoDup_fmap_1 | |].
      * intros x Hx Hx'. specialize (Hlt x x Hx Hx'). lia.
      * rewrite sorted_entries_perm. apply NoDup_map_to_list.
    + intros [k a]. rewrite elem_of_app, elem_of_sorted_entries, elem_of_map_to_list, <-Hg.
      rewrite lookup_union_Some_raw, elem_of_list_to_map by done.
      assert (lv_windows l !! k = Some a → list_to_map (M := gmap Key Acc) out !! k = None); [|naive_solver].
      intros Hk. apply not_elem_of_list_to_map. intros ([k' a'] & -> & Hin)%list_elem_of_fmap.
      specialize (Hlt _ (k', a) Hin). rewrite elem_of_sorted_entries in Hlt.
      specialize (Hlt Hk). cbn in Hlt. lia.
  - apply sorted_app; [done | apply sorted_entries_sorted | done].
Qed.

(** *** The live windows span the lateness *)
Definition narrow (l : Live) : Prop :=
  ∃ b, map_Forall (λ k _, b ≤ key_wid k ≤ b + tr_lateness_windows (lv_tracker l)) (lv_windows l).

Lemma live_finalize_narrow es out l :
  streamed es out l → is_Some (tr_finalized_floor (lv_tracker l)) → narrow (live_finalize l).2.
Proof.
  intros Hst [f Hf]. pose proof (live_finalize_streamed es out l Hst (ex_intro _ f Hf)) as Hst2.
  exists f. intros k a Hk. pose proof (tko_floor _ (st_tracker _ _ _ Hst)) as Hfl. rewrite Hf in Hfl.
  destruct (tr_max_wid_seen (lv_tracker l)) as [mx|] eqn:Hmx; cbn in Hfl; [|done]. injection Hfl as Hfl.
  pose proof (st_seen _ _ _ Hst2 k a Hk) as Hk2. cbn in Hk2. unfold live_finalize, due_windows in *.
  rewrite Hf in *. destruct (tr_min_wid_seen (lv_tracker l)) as [lo|] eqn:Hlo; cbn in *;
    [|by rewrite Hlo in Hk2].
  destruct (Z.ltb_spec (f - 1) lo); cbn in *; rewrite ?Hmx, ?Hlo in Hk2; lia.
Qed.

Lemma live_step_narrow es out l e out' l' :
  arrival_ok e → streamed es out l → narrow l → live_step e l = Some (out', l') → narrow l'.
Proof.
  intros He Hst Hn. destruct e as [|ts wid cs]; cbn; [by intros [= <- <-] |].
  destruct (below_floor wid (lv_tracker l)) eqn:Hbf; [done |]. intros Hstep.
  pose proof (contribute_streamed _ _ _ ts wid cs He Hst Hbf) as Hst'.
  destruct cs as [|c cs]; [by injection Hstep as <- <- |].
  set (l1 := mk_live _ _) in Hst'. change (Some (live_finalize l1) = Some (out', l')) in Hstep.
  injection Hstep as Hstep. pose proof (live_finalize_narrow _ _ l1 Hst') as Hfin.
  rewrite Hstep in Hfin. apply Hfin.
  pose proof (observe_floor ts wid _ (st_tracker _ _ _ Hst) Hbf) as (lo & mx & Hf & _).
  unfold l1. cbn [lv_tracker]. by rewrite Hf.
Qed.

Lemma live_run_narrow es es' out l out' l' :
  Forall arrival_ok es' → streamed es out l → narrow l → live_run es' l = Some (out', l') → narrow l'.
Proof.
  revert es out l out'. induction es' as [|e es' IH]; intros es out l out' Hok Hst Hn; cbn.
  { by intros [= <- <-]. }
  apply Forall_cons in Hok as [He Hok].
  destruct (live_step e l) as [[o1 l1]|] eqn:Hs; [|done].
  destruct (live_run es' l1) as [[o2 l2]|] eqn:Hr; [|done]. intros [= <- <-].
  eapply IH; [done | | | exact Hr]; [by eapply live_step_streamed | by eapply live_step_narrow].
Qed.

(** *** Which streams run *)

(** No event is more than [K] windows behind one that came before it. *)
Definition in_order (K : Z) (wids : list Z) : Prop := StronglySorted (λ w w', w - K ≤ w') wids.

Lemma due_windows_same t :
  tr_max_wid_seen (due_windows t).2 = tr_max_wid_seen t ∧
  tr_lateness_windows (due_windows t).2 = tr_lateness_windows t.
Proof.
  unfold due_windows. destruct (tr_finalized_floor t), (tr_min_wid_seen t); try done.
  by case_match.
Qed.

Lemma live_finalize_tracker l : lv_tracker (live_finalize l).2 = (due_windows (lv_tracker l)).2.
Proof. unfold live_finalize. by destruct (due_windows _) as [[[]|] ?]. Qed.

Lemma live_step_tracker ts wid cs l :
  tracker_ok (lv_tracker l) →
  match live_step (Timed ts wid cs) l with
  | None => ∃ m : Z, tr_max_wid_seen (lv_tracker l) = Some m ∧ wid < m - tr_lateness_windows (lv_tracker l)
  | Some (_, l') =>
      tracker_ok (lv_tracker l') ∧ tr_lateness_windows (lv_tracker l') = tr_lateness_windows (lv_tracker l) ∧
      (∀ m : Z, tr_max_wid_seen (lv_tracker l) = Some m → m - tr_lateness_windows (lv_tracker l) ≤ wid) ∧
      tr_max_wid_seen (lv_tracker l') =
        Some (match tr_max_wid_seen (lv_tracker l) with Some m => Z.max m wid | None => wid end)
  end.
Proof.
  intros Ht. pose proof (tko_floor _ Ht) as Hf. unfold live_step.
  destruct (below_floor wid (lv_tracker l)) eqn:Hbf.
  { unfold below_floor in Hbf. rewrite Hf in Hbf.
    destruct (tr_max_wid_seen (lv_tracker l)) as [m|]; cbn in Hbf; [|done]. exists m. split; [done | lia]. }
  pose proof (observe_floor ts wid _ Ht Hbf) as (lo & mx & _ & Hmx & _ & Emx & _ & _ & _).
  pose proof (observe_ok ts wid _ Ht) as Ht'.
  assert (Hm : ∀ m : Z, tr_max_wid_seen (lv_tracker l) = Some m → m - tr_lateness_windows (lv_tracker l) ≤ wid).
  { intros m Hm. unfold below_floor in Hbf. rewrite Hf, Hm in Hbf. cbn in Hbf. lia. }
  destruct cs as [|c cs]; [cbn [lv_tracker]; rewrite Hmx; split_and!; congruence || done |].
  set (l1 := mk_live _ _). rewrite (surjective_pairing (live_finalize l1)).
  rewrite live_finalize_tracker. destruct (due_windows_same (lv_tracker l1)) as [-> ->].
  split_and!; [by apply due_windows_ok | done | done |]. unfold l1. cbn [lv_tracker]. congruence.
Qed.

Lemma live_run_lateness es l out l' :
  tracker_ok (lv_tracker l) → live_run es l = Some (out, l') →
  tr_lateness_windows (lv_tracker l') = tr_lateness_windows (lv_tracker l).
Proof.
  revert l out. induction es as [|e es IH]; intros l out Ht; cbn [live_run]; [by intros [= _ <-] |].
  destruct e as [|ts wid cs].
  { cbn [live_step]. destruct (live_run es l) as [[o2 l2]|] eqn:Hr; [|done]. intros [= _ <-]. by eapply IH. }
  pose proof (live_step_tracker ts wid cs l Ht) as Hs.
  destruct (live_step _ l) as [[o1 l1]|]; [|done]. destruct Hs as (Ht1 & <- & _).
  destruct (live_run es l1) as [[o2 l2]|] eqn:Hr; [|done]. intros [= _ <-]. by eapply IH.
Qed.

Lemma live_run_accepts es l :
  tracker_ok (lv_tracker l) →
  is_Some (live_run es l) ↔
  in_order (tr_lateness_windows (lv_tracker l)) (timed_wids es) ∧
  (∀ m : Z, tr_max_wid_seen (lv_tracker l) = Some m →
        Forall (λ w, m - tr_lateness_windows (lv_tracker l) ≤ w) (timed_wids es)).
Proof.
  unfold in_order. revert l. induction es as [|e es IH]; intros l Ht.
  { cbn. split; [intros _; split; [constructor | done] | done]. }
  destruct e as [|ts wid cs].
  { cbn [live_run live_step]. change (timed_wids (Ignored :: es)) with (timed_wids es).
    rewrite <-(IH l Ht). split; intros [x Hx]; destruct (live_run es l) as [[]|]; done. }
  pose proof (live_step_tracker ts wid cs l Ht) as Hstep. cbn [live_run].
  change (timed_wids (Timed ts wid cs :: es)) with (wid :: timed_wids es).
  destruct (live_step (Timed ts wid cs) l) as [[o1 l1]|].
  - destruct Hstep as (Ht1 & HK & Hm & Hmx). specialize (IH l1 Ht1). rewrite HK in IH.
    assert (is_Some (live_run es l1) ↔
      in_order (tr_lateness_windows (lv_tracker l)) (wid :: timed_wids es) ∧
      (∀ m : Z, tr_max_wid_seen (lv_tracker l) = Some m →
        Forall (λ w, m - tr_lateness_windows (lv_tracker l) ≤ w) (wid :: timed_wids es))) as <-.
    + rewrite IH. unfold in_order. rewrite Hmx. split.
      * intros [Hs Hall]. specialize (Hall _ eq_refl). split.
        { constructor; [done |]. eapply Forall_impl; [exact Hall |]. cbn. intros w.
          destruct (tr_max_wid_seen (lv_tracker l)); lia. }
        intros m Hm'. constructor; [by apply Hm |]. rewrite Hm' in Hall.
        eapply Forall_impl; [exact Hall |]. cbn. intros; lia.
      * intros [[Hs Hall]%StronglySorted_inv Hfl]. split; [done |]. intros m [= <-].
        destruct (tr_max_wid_seen (lv_tracker l)) as [m|]; [|done].
        specialize (Hfl m eq_refl). apply Forall_cons in Hfl as [_ Hfl].
        rewrite Forall_forall in Hall, Hfl |- *. intros w Hw. specialize (Hall w Hw). specialize (Hfl w Hw). lia.
    + split; intros [x Hx]; destruct (live_run es l1) as [[]|]; done.
  - destruct Hstep as (m & Hm & Hlt). split; [by intros [] |]. intros [_ Hfl].
    specialize (Hfl m Hm). apply Forall_cons in Hfl as [Hfl _]. lia.
Qed.
End stream.

Arguments Live _ {_ _} _.
Arguments Contribution _ _ : clear implicits.
Arguments Arrival _ _ : clear implicits.
Arguments mk_live {_ _ _ _} _ _.
Arguments mk_contribution {_ _} _ _ _.
Arguments Ignored {_ _}.
Arguments Timed {_ _} _ _ _.

(** ** Facts about a batch *)
Definition zsum (l : list Z) : Z := foldr Z.add 0 l.

Arguments zsum : simpl never.

Lemma zsum_cons z l : zsum (z :: l) = z + zsum l.
Proof. done. Qed.

Lemma zsum_app l1 l2 : zsum (l1 ++ l2) = zsum l1 + zsum l2.
Proof. unfold zsum. induction l1 as [|z l1 IH]; cbn; lia. Qed.

Lemma zsum_perm l1 l2 : l1 ≡ₚ l2 → zsum l1 = zsum l2.
Proof. unfold zsum. induction 1; cbn; lia. Qed.

Section batch.
Context `{WindowKey Key} {Acc : Type}.
Implicit Types (m : gmap Key Acc) (c : Contribution Key Acc) (f : Acc → Z).

Definition all_contributions (es : list (Arrival Key Acc)) : list (Contribution Key Acc) :=
  es ≫= arrival_contributions.

(** What every update keeps holds of every accumulator. *)
Lemma group_forall (P : Key → Acc → Prop) es :
  (∀ c, c ∈ all_contributions es → P (cb_key c) (cb_update c (cb_new c)) ∧
        ∀ a, P (cb_key c) a → P (cb_key c) (cb_update c a)) →
  map_Forall P (group es).
Proof.
  unfold group. fold (all_contributions es). generalize (all_contributions es). intros cs Hcs.
  assert (Hm : map_Forall P (∅ : gmap Key Acc)) by apply map_Forall_empty. revert Hm Hcs.
  generalize (∅ : gmap Key Acc). induction cs as [|c cs IH]; intros m Hm Hcs; cbn; [done |].
  apply IH; [|set_solver]. unfold contribute. apply map_Forall_insert_2; [|done].
  destruct (Hcs c) as [Hnew Hupd]; [set_solver |].
  destruct (m !! cb_key c) as [a|] eqn:Ha; cbn; [apply Hupd, (Hm _ _ Ha) | done].
Qed.

(** The keys are those contributed to. *)
Lemma group_dom es k : is_Some (group es !! k) ↔ ∃ c, c ∈ all_contributions es ∧ cb_key c = k.
Proof.
  unfold group. fold (all_contributions es). generalize (all_contributions es). intros cs.
  assert (∀ m, is_Some (foldl contribute m cs !! k) ↔ is_Some (m !! k) ∨ ∃ c, c ∈ cs ∧ cb_key c = k) as ->.
  { induction cs as [|c cs IH]; intros m; cbn; [set_solver |]. rewrite IH, lookup_contribute.
    case_decide as Hk; [|set_solver]. split; [|eauto]. intros _. right. exists c. set_solver. }
  rewrite lookup_empty. split; [intros [[]|]; done | by right].
Qed.

Definition msum f m : Z := zsum (map (λ ka, f ka.2) (map_to_list m)).

Lemma msum_insert f m k a : m !! k = None → msum f (<[k := a]> m) = f a + msum f m.
Proof.
  intros Hk. unfold msum. by rewrite (zsum_perm _ _ (fmap_Permutation _ _ _ (map_to_list_insert m k a Hk))).
Qed.

Lemma msum_update f m k a b : m !! k = Some a → msum f (<[k := b]> m) = msum f m + f b - f a.
Proof.
  intros Ha. rewrite <-(insert_delete_eq m k b).
  rewrite <-(insert_delete_id m k a Ha) at 2.
  rewrite !msum_insert by apply lookup_delete_eq. lia.
Qed.

(** A total that every update raises by its share is the sum of the shares. *)
Lemma group_sum f (share : Contribution Key Acc → Z) es :
  (∀ c, c ∈ all_contributions es → f (cb_new c) = 0 ∧ ∀ a, f (cb_update c a) = f a + share c) →
  msum f (group es) = zsum (map share (all_contributions es)).
Proof.
  unfold group. fold (all_contributions es). generalize (all_contributions es). intros cs Hcs.
  assert (∀ m, msum f (foldl contribute m cs) = msum f m + zsum (map share cs)) as ->.
  { induction cs as [|c cs IH]; intros m; cbn; [change (zsum []) with 0; lia |].
    rewrite IH, zsum_cons by set_solver.
    destruct (Hcs c) as [Hnew Hupd]; [set_solver |]. unfold contribute.
    destruct (m !! cb_key c) as [a|] eqn:Ha; cbn.
    - rewrite (msum_update _ _ _ a) by done. rewrite Hupd. lia.
    - rewrite msum_insert, Hupd, Hnew by done. lia. }
  unfold msum. rewrite map_to_list_empty. cbn. change (zsum []) with 0. lia.
Qed.

Lemma msum_sorted f m : msum f m = zsum (map (λ ka, f ka.2) (sorted_entries m)).
Proof. apply zsum_perm. apply fmap_Permutation. symmetry. apply sorted_entries_perm. Qed.

Lemma sorted_entries_nodup m : NoDup (sorted_entries m).*1.
Proof. rewrite sorted_entries_keys. apply sorted_keys_nodup. Qed.
End batch.

(** ** What the extractors share

    The counters of an extractor are a dictionary that starts with all its keys. *)
Definition Counters : Type := gmap string Z.

Definition new_counters (names : list string) : Counters := list_to_map (map (λ n, (n, 0)) names).
Definition count_of (name : string) (c : Counters) : Z := default 0 (c !! name).
(** [c[name] += n] and [c[name] = max(c[name], z)] *)
Definition bump (name : string) (n : Z) (c : Counters) : Counters := <[name := count_of name c + n]> c.
Definition raise_to (name : string) (z : Z) (c : Counters) : Counters :=
  if count_of name c <? z then <[name := z]> c else c.

(** The prefix of every [add]: the window, the pre-start and lateness counters, the
    refusal of an event that comes too late, and the watermark. *)
Definition admit_event (g : WindowGrid) (clock_tolerance_ns : Z) (what : string) (ts_ns : Z)
    : M (WatermarkTracker * Counters) Z := λ td,
  let '(t, d) := td in
  let '(wid, disposition) := assign g clock_tolerance_ns ts_ns in
  let d := match disposition with
           | prestart_snapped =>
               raise_to "prestart_snapped_max_displacement_ns" (wg_scenario_start_ns g - ts_ns)
                 (bump "prestart_snapped_events" 1 d)
           | prestart_negative => bump "prestart_negative_events" 1 d
           | in_grid => d
           end in
  let d := match tr_max_wid_seen t with
           | Some m => if wid <? m then bump "late_events" 1 d else d
           | None => d
           end in
  match ensure_acceptable wid what t with
  | Raise e => (Raise e, (t, d))
  | Ok _ =>
      let t := (observe ts_ns wid t).2 in
      (Ok wid, (t, <["max_observed_lateness_ns" := tr_max_observed_lateness_ns t]> d))
  end.

Lemma admit_event_spec g tol what ts t d :
  let wid := (assign g tol ts).1 in
  ∃ d', (admit_event g tol what ts (t, d) = (Ok wid, ((observe ts wid t).2, d')) ∧ below_floor wid t = false) ∨
    (∃ e, admit_event g tol what ts (t, d) = (Raise e, (t, d')) ∧ exn_type e = EventOlderThanWatermarkError ∧
       below_floor wid t = true).
Proof.
  cbv zeta. unfold admit_event. destruct (assign g tol ts) as [wid disp]. cbn [fst].
  destruct (ensure_acceptable_spec wid what t) as [[-> Hb]|[(e & -> & He) Hb]]; eexists;
    [left | right; exists e]; split_and!; done.
Qed.

(** Computations that do not raise the watermark's error: what turns an accumulator
    into a row. *)
Definition never_late {A} (r : result A) : Prop :=
  ∀ e, r = Raise e → exn_type e ≠ EventOlderThanWatermarkError.

Create HintDb never_late.

Lemma never_late_ok {A} (a : A) : never_late (Ok a).
Proof. intros e [=]. Qed.
Lemma never_late_raise {A} c msg : c ≠ EventOlderThanWatermarkError → never_late (A := A) (raise c msg).
Proof. by intros Hc e [= <-]. Qed.
Lemma never_late_bind {A B} (m : result A) (f : A → result B) :
  never_late m → (∀ a, never_late (f a)) → never_late (m ≫= f).
Proof. intros Hm Hf e He. destruct m as [a|e']; [exact (Hf a e He) | injection He as <-; exact (Hm e' eq_refl)]. Qed.
Lemma never_late_if {A} (b : bool) (r1 r2 : result A) :
  never_late r1 → never_late r2 → never_late (if b then r1 else r2).
Proof. by destruct b. Qed.
#[export] Hint Resolve never_late_ok never_late_bind never_late_if : never_late.
#[export] Hint Extern 1 (never_late (raise _ _)) => (by apply never_late_raise) : never_late.

Lemma iso_never_late ts : never_late (iso_utc_from_ns ts).
Proof.
  unfold iso_utc_from_ns. cbv zeta. destruct (_ || _); [by apply never_late_raise |].
  destruct (civil_of_days _) as [[y m] d]. apply never_late_ok.
Qed.
#[export] Hint Resolve iso_never_late : never_late.

Section rows.
Context `{WindowKey Key} {Acc Row : Type} (fin : Acc → result Row).

(** [[self.finalize(self.windows.pop(k)) for k in keys]] *)
Fixpoint pop_rows (es : list (Key * Acc)) (m : gmap Key Acc) : result (list Row) * gmap Key Acc :=
  match es with
  | [] => (Ok [], m)
  | (k, a) :: es =>
      match fin a with
      | Raise e => (Raise e, delete k m)
      | Ok r =>
          match pop_rows es (delete k m) with
          | (Ok rs, m') => (Ok (r :: rs), m')
          | (Raise e, m') => (Raise e, m')
          end
      end
  end.

Definition finalize_due_rows (l : Live Key Acc) : result (list Row) * Live Key Acc :=
  match due_windows (lv_tracker l) with
  | (None, t) => (Ok [], mk_live (lv_windows l) t)
  | (Some (lo, hi), t) =>
      let due := filter (λ ka, in_range lo hi ka.1) (lv_windows l) in
      let '(r, m) := pop_rows (sorted_entries due) (lv_windows l) in
      (r, mk_live m t)
  end.

(** [[self.finalize(self.windows[k]) for k in sorted(self.windows)]] *)
Definition finish_rows (m : gmap Key Acc) : result (list Row) :=
  mapM_result (λ ka, fin ka.2) (sorted_entries m).

Definition finalized (ka : Key * Acc) (r : Row) : Prop := fin ka.2 = Ok r.

(** Finalizing only removes accumulators, whatever it meets. *)
Lemma pop_rows_shrinks es m : (pop_rows es m).2 ⊆ m.
Proof.
  revert m. induction es as [|[k a] es IH]; intros m; cbn; [done |].
  assert (Hd : delete k m ⊆ m) by apply delete_subseteq.
  destruct (fin a); [|done]. specialize (IH (delete k m)).
  destruct (pop_rows es (delete k m)) as [[]]; cbn in *; by trans (delete k m).
Qed.

Lemma finalize_due_rows_shrinks l : lv_windows (finalize_due_rows l).2 ⊆ lv_windows l.
Proof.
  unfold finalize_due_rows. destruct (due_windows _) as [[[lo hi]|] t]; [|done].
  pose proof (pop_rows_shrinks (sorted_entries (filter (λ ka, in_range lo hi ka.1) (lv_windows l))) (lv_windows l)).
  by destruct (pop_rows _ _).
Qed.

Lemma pop_rows_spec es m r m' :
  pop_rows es m = (r, m') →
  match r with
  | Ok rows => Forall2 finalized es rows ∧ m' = foldr (λ ka m, delete ka.1 m) m es
  | Raise e => ∃ a, fin a = Raise e
  end.
Proof.
  revert m r m'. induction es as [|[k a] es IH]; intros m r m'; cbn; [by intros [= <- <-] |].
  destruct (fin a) as [row|e] eqn:Hfin; [|intros [= <- <-]; eauto].
  destruct (pop_rows es (delete k m)) as [[rows|e] m1] eqn:Hp; intros [= <- <-]; apply IH in Hp; [|done].
  destruct Hp as [Hrows ->]. split; [by constructor |]. clear. revert m.
  induction es as [|[k' a'] es IH]; intros m; cbn; [done |]. rewrite IH. apply delete_delete.
Qed.

Lemma delete_entries (P : Key * Acc → Prop) `{∀ x, Decision (P x)} (m : gmap Key Acc) :
  foldr (λ ka m, delete ka.1 m) m (sorted_entries (filter P m)) = filter (λ ka, ¬ P ka) m.
Proof.
  apply map_eq. intros k.
  assert (∀ (es : list (Key * Acc)), foldr (λ ka m, delete ka.1 m) m es !! k =
    if decide (k ∈ es.*1) then None else m !! k) as ->.
  { induction es as [|[k' a'] es IH]; cbn; [by case_decide; set_solver |].
    destruct (decide (k = k')) as [->|Hne].
    - rewrite lookup_delete_eq, decide_True; [done | set_solver].
    - rewrite lookup_delete_ne, IH by done. repeat case_decide; set_solver. }
  assert (Hin : k ∈ (sorted_entries (filter P m)).*1 ↔ is_Some (filter P m !! k)).
  { rewrite list_elem_of_fmap. split.
    - intros ([k' a] & -> & Ha%elem_of_sorted_entries). by exists a.
    - intros [a Ha]. exists (k, a). by rewrite elem_of_sorted_entries. }
  rewrite map_lookup_filter. case_decide as Hd.
  - apply Hin in Hd as [a [Ha Hp]%map_lookup_filter_Some]. rewrite Ha. cbn.
    by rewrite option_guard_False by naive_solver.
  - destruct (m !! k) as [a|] eqn:Ha; [|done]. cbn. rewrite option_guard_True; [done |].
    intros Hp. apply Hd, Hin. exists a. by apply map_lookup_filter_Some.
Qed.

(** The finalization the code does is that of the stream. *)
Lemma finalize_due_rows_spec l r l' :
  finalize_due_rows l = (r, l') →
  match r with
  | Ok rows => Forall2 finalized (live_finalize l).1 rows ∧ l' = (live_finalize l).2
  | Raise e => ∃ a, fin a = Raise e
  end.
Proof.
  unfold finalize_due_rows, live_finalize.
  destruct (due_windows (lv_tracker l)) as [[[lo hi]|] t]; [|by intros [= <- <-]].
  destruct (pop_rows _ _) as [r1 m1] eqn:Hp. intros [= <- <-]. apply pop_rows_spec in Hp.
  destruct r1 as [rows|e]; [|done]. destruct Hp as [Hrows ->]. split; [done |].
  by rewrite delete_entries.
Qed.

Lemma finish_rows_ok m rows :
  finish_rows m = Ok rows → Forall2 finalized (sorted_entries m) rows.
Proof. apply mapM_result_ok. Qed.

Lemma mapM_result_raise {A B} (f : A → result B) l e : mapM_result f l = Raise e → ∃ a, f a = Raise e.
Proof.
  induction l as [|a l IH]; cbn; [done |]. destruct (f a) eqn:Hf; [|intros [= <-]; eauto].
  destruct (mapM_result f l); [done |]. intros [= <-]. by apply IH.
Qed.
End rows.

(** ** The extractor interface

    What a windowed extractor promises: its [add] is the discipline above on the
    arrival an event amounts to, the rows it returns are those of the emitted
    accumulators, an event is refused as too old exactly when its window was
    finalized, and [finish] emits everything live. *)
Record WindowManager (St Ev Key Acc Row : Type) `{WindowKey Key} := mk_manager {
  wm_add : Ev → M St (list Row);
  wm_finish : M St (list Row);
  wm_live : St → Live Key Acc;
  wm_arrival : Ev → Arrival Key Acc;
  wm_emits : Key * Acc → Row → Prop;
  wm_arrival_ok : ∀ e, arrival_ok (wm_arrival e);
  wm_add_ok : ∀ e s rows s', wm_add e s = (Ok rows, s') →
    ∃ out, live_step (wm_arrival e) (wm_live s) = Some (out, wm_live s') ∧ Forall2 wm_emits out rows;
  wm_add_late : ∀ e s, live_step (wm_arrival e) (wm_live s) = None ↔
    ∃ x s', wm_add e s = (Raise x, s') ∧ exn_type x = EventOlderThanWatermarkError;
  wm_finish_ok : ∀ s rows s', wm_finish s = (Ok rows, s') →
    Forall2 wm_emits (sorted_entries (lv_windows (wm_live s))) rows;
  wm_finish_late : ∀ s x s', wm_finish s = (Raise x, s') → exn_type x ≠ EventOlderThanWatermarkError;
}.
Arguments wm_add {_ _ _ _ _ _ _ _} _ _.
Arguments wm_finish {_ _ _ _ _ _ _ _} _.
Arguments wm_live {_ _ _ _ _ _ _ _} _ _.
Arguments wm_arrival {_ _ _ _ _ _ _ _} _ _.
Arguments wm_emits {_ _ _ _ _ _ _ _} _ _ _.
Arguments wm_finish_late {_ _ _ _ _ _ _ _} _ _ _ _ _.

Section client.
Context {St Ev Key Acc Row : Type} `{WindowKey Key} (wm : WindowManager St Ev Key Acc Row).

(** [for event in events: yield from manager.add(event)], then
    [yield from manager.finish()]. *)
Fixpoint feed (es : list Ev) : M St (list Row) :=
  match es with
  | [] => mret []
  | e :: es => rows ← wm_add wm e; rest ← feed es; mret (rows ++ rest)
  end.
Definition extract (es : list Ev) : M St (list Row) :=
  rows ← feed es; last_rows ← wm_finish wm; mret (rows ++ last_rows).

(** A manager that has seen nothing. *)
Definition fresh (s : St) : Prop :=
  lv_windows (wm_live wm s) = ∅ ∧ tracker_ok (lv_tracker (wm_live wm s)) ∧
  tr_max_wid_seen (lv_tracker (wm_live wm s)) = None.

Definition lateness_of (s : St) : Z := tr_lateness_windows (lv_tracker (wm_live wm s)).

Lemma feed_ok es s rows s' :
  feed es s = (Ok rows, s') →
  ∃ out, live_run (map (wm_arrival wm) es) (wm_live wm s) = Some (out, wm_live wm s') ∧
         Forall2 (wm_emits wm) out rows.
Proof.
  revert s rows. induction es as [|e es IH]; intros s rows; cbn.
  { intros [= <- <-]. by exists []. }
  intros (r1 & s1 & H1 & (r2 & s2 & H2 & [= <- <-])%M_bind_ok)%M_bind_ok.
  apply wm_add_ok in H1 as (o1 & Hs1 & Hr1). apply IH in H2 as (o2 & Hs2 & Hr2).
  exists (o1 ++ o2). rewrite Hs1, Hs2. split; [done | by apply Forall2_app].
Qed.

(** The watermark refuses an event: every event before it was in order. *)
Lemma feed_late es s x s' :
  feed es s = (Raise x, s') → exn_type x = EventOlderThanWatermarkError →
  live_run (map (wm_arrival wm) es) (wm_live wm s) = None.
Proof.
  intros Hf Hx. revert s Hf. induction es as [|e es IH]; intros s; cbn; [done |].
  intros [H1|(r1 & s1 & H1 & [H2|(r2 & s2 & H2 & [=])]%M_bind_raises)]%M_bind_raises.
  - assert (live_step (wm_arrival wm e) (wm_live wm s) = None) as ->; [|done].
    apply wm_add_late. eauto.
  - apply wm_add_ok in H1 as (o1 & -> & _). by rewrite (IH s1 H2).
Qed.

Lemma arrivals_ok es : Forall arrival_ok (map (wm_arrival wm) es).
Proof. apply Forall_forall. intros a (e & -> & _)%list_elem_of_fmap. apply wm_arrival_ok. Qed.

Lemma fresh_streamed s : fresh s → streamed [] [] (wm_live wm s) ∧ narrow (wm_live wm s).
Proof.
  destruct (wm_live wm s) as [w t] eqn:Hl. unfold fresh. rewrite Hl. cbn. intros (-> & Ht & Hm).
  split; [by apply streamed_start | exists 0; apply map_Forall_empty].
Qed.

(** Streaming is batch: the rows, in order, are those of the events grouped all at
    once and taken in key order; and the stream was in order. *)
Lemma extract_batch es s rows s' :
  fresh s → extract es s = (Ok rows, s') →
  Forall2 (wm_emits wm) (sorted_entries (group (map (wm_arrival wm) es))) rows ∧
  in_order (lateness_of s) (timed_wids (map (wm_arrival wm) es)).
Proof.
  intros Hf (r1 & s1 & H1 & (r2 & s2 & H2 & [= <- <-])%M_bind_ok)%M_bind_ok.
  apply feed_ok in H1 as (out & Hrun & Hr1). apply wm_finish_ok in H2.
  pose proof (fresh_streamed s Hf) as [Hst _]. split.
  - pose proof (live_run_streamed _ _ _ _ _ _ (arrivals_ok es) Hst Hrun) as Hst1. cbn in Hst1.
    rewrite <-(streamed_entries _ _ _ Hst1). by apply Forall2_app.
  - apply live_run_accepts; [apply Hf |]. by rewrite Hrun.
Qed.

(** The live accumulators after any number of accepted events: they span at most
    [K + 1] windows, and each has received one of the events. *)
Lemma feed_live es s rows s' :
  fresh s → feed es s = (Ok rows, s') →
  ∃ b, map_Forall (λ k _, b ≤ key_wid k ≤ b + lateness_of s ∧
    ∃ c, c ∈ all_contributions (map (wm_arrival wm) es) ∧ cb_key c = k) (lv_windows (wm_live wm s')).
Proof.
  intros Hf (out & Hrun & _)%feed_ok. pose proof (fresh_streamed s Hf) as [Hst Hn].
  pose proof (live_run_streamed _ _ _ _ _ _ (arrivals_ok es) Hst Hrun) as Hst1. cbn [app] in Hst1.
  pose proof (live_run_lateness _ _ _ _ (st_tracker _ _ _ Hst) Hrun) as HK.
  eapply live_run_narrow in Hn as [b Hb]; [|apply arrivals_ok | exact Hst | exact Hrun].
  exists b. intros k a Hk. unfold lateness_of. rewrite <-HK. split; [by apply (Hb k a) |].
  apply group_dom. rewrite <-(st_group _ _ _ Hst1). apply lookup_union_is_Some. right. eauto.
Qed.

(** The watermark refuses only streams that are out of order. *)
Lemma extract_late es s x s' :
  fresh s → extract es s = (Raise x, s') → exn_type x = EventOlderThanWatermarkError →
  ¬ in_order (lateness_of s) (timed_wids (map (wm_arrival wm) es)).
Proof.
  intros (_ & Ht & Hm) Hx Hold Hin.
  assert (Hnone : live_run (map (wm_arrival wm) es) (wm_live wm s) = None).
  { apply M_bind_raises in Hx as [H1|(r1 & s1 & H1 & [H2|(r2 & s2 & H2 & [=])]%M_bind_raises)].
    - by eapply feed_late.
    - by apply wm_finish_late in H2. }
  assert (is_Some (live_run (map (wm_arrival wm) es) (wm_live wm s))) as [? ?]; [|congruence].
  apply live_run_accepts; [done |]. split; [done |]. intros m Hm'. congruence.
Qed.

(** What a session says of the order of its events. *)
Definition judged (K : Z) (wids : list Z) (r : result (list Row)) : Prop :=
  match r with
  | Ok _ => in_order K wids
  | Raise x => exn_type x = EventOlderThanWatermarkError → ¬ in_order K wids
  end.

Lemma extract_judged es s :
  fresh s → judged (lateness_of s) (timed_wids (map (wm_arrival wm) es)) (extract es s).1.
Proof.
  intros Hf. destruct (extract es s) as [[rows|x] s'] eqn:Hx; cbn.
  - by apply extract_batch in Hx as [_ Hx].
  - intros Hold. by eapply extract_late.
Qed.
End client.

(** A family of windows and names holds few accumulators. *)
Lemma keys_within {A} (m : gmap (Z * string) A) b K names :
  0 ≤ K → map_Forall (λ k _, b ≤ k.1 ≤ b + K ∧ k.2 ∈ names) m →
  Z.of_nat (size m) ≤ (K + 1) * Z.of_nat (length names).
Proof.
  intros HK Hm.
  assert (Hsub : (map_to_list m).*1 ⊆+ cprod (seqZ b (K + 1)) names).
  { apply NoDup_submseteq; [apply NoDup_fst_map_to_list |].
    intros k ([k' a] & -> & Hk%elem_of_map_to_list)%list_elem_of_fmap.
    destruct (Hm _ _ Hk) as [Hb Hn]. apply list_elem_of_cprod. split; [|done].
    apply elem_of_seqZ. cbn. lia. }
  apply submseteq_length in Hsub.
  rewrite length_fmap, length_map_to_list, list_cprod_list_prod, length_prod, length_seqZ in Hsub. lia.
Qed.

Lemma new_tracker_lateness w l t : new_tracker w l = Ok t → tr_lateness_windows t = - (- l / w).
Proof.
  unfold new_tracker. destruct (Z.leb_spec w 0); [done |]. destruct (Z.ltb_spec l 0); [done |].
  by intros [= <-].
Qed.
