(* ===== verification/DsFrames.v ===== *)
(** * Frame decoding

    Models [datasets/datasense/frame_decoder.py]: the header fields of a captured
    Ethernet frame (Ethernet II and 802.3 SNAP framing, VLAN tags, ARP, IPv4,
    IPv6, TCP with its options, UDP, ICMP).  A frame is the list of its bytes; an
    index out of range raises [IndexError] and [struct.unpack] of a slice of the
    wrong length [struct.error], as in Python.  The two loops (VLAN tags, TCP
    options) have fuel and raise when it runs out; [decode_frame_reads] shows that
    no frame makes the decoder raise. *)

From S2P Require Import Prelude PyString Json.

Definition ETHERTYPE_IPV4 : Z := 2048.
Definition ETHERTYPE_ARP : Z := 2054.
Definition ETHERTYPE_VLAN : Z := 33024.
Definition ETHERTYPE_QINQ : Z := 34984.
Definition ETHERTYPE_IPV6 : Z := 34525.
Definition BROADCAST_MAC : string := "ff:ff:ff:ff:ff:ff".

(** ** Reading bytes *)
Definition IndexError : exn_class := OtherError "IndexError".
Definition struct_error : exn_class := OtherError "error".
Definition out_of_fuel {A} : result A := raise (OtherError "out of fuel") "loop".

Definition byte_at (buf : list Z) (i : Z) : result Z :=
  of_option (if i <? 0 then None else buf !! Z.to_nat i) IndexError "index out of range".

Definition be16 (hi lo : Z) : Z := Z.lor (Z.shiftl hi 8) lo.

(** [struct.unpack(">H...", raw)]: big-endian 16-bit words. *)
Fixpoint be_words (raw : list Z) : option (list Z) :=
  match raw with
  | [] => Some []
  | hi :: lo :: raw => cons (be16 hi lo) <$> be_words raw
  | _ => None
  end.
Definition unpack_words (count : nat) (raw : list Z) : result (list Z) :=
  match be_words raw with
  | Some ws => if (length ws =? count)%nat then Ok ws else raise struct_error "unpack"
  | None => raise struct_error "unpack"
  end.
Definition unpack_H (raw : list Z) : result Z :=
  ws ← unpack_words 1 raw;
  match ws with [a] => Ok a | _ => raise ValueError "unpack" end.
Definition unpack_HH (raw : list Z) : result (Z * Z) :=
  ws ← unpack_words 2 raw;
  match ws with [a; b] => Ok (a, b) | _ => raise ValueError "unpack" end.
Definition unpack_HHH (raw : list Z) : result (Z * Z * Z) :=
  ws ← unpack_words 3 raw;
  match ws with [a; b; c] => Ok (a, b, c) | _ => raise ValueError "unpack" end.

(** [f"{b:02x}"] and [f"{w:x}"] on a 16-bit word. *)
Definition hex_byte (b : Z) : string := unchars [hex_digit (b / 16); hex_digit (b mod 16)].
Definition hex_word (w : Z) : string :=
  let digits := [hex_digit (w / 4096); hex_digit (w / 256 mod 16); hex_digit (w / 16 mod 16);
                 hex_digit (w mod 16)] in
  unchars (drop (if w <? 16 then 3%nat else if w <? 256 then 2%nat else if w <? 4096 then 1%nat else 0%nat) digits).

Definition join (sep : string) (parts : list string) : string :=
  match parts with
  | [] => ""
  | p :: parts => foldl (λ acc q, acc +:+ sep +:+ q) p parts
  end.

Definition format_mac (raw : list Z) : string := join ":" (map hex_byte raw).
Definition format_ipv4 (raw : list Z) : string := join "." (map fmt_int raw).

Example format_mac_ex : format_mac [0; 26; 255; 1; 2; 160] = "00:1a:ff:01:02:a0".
Proof. reflexivity. Qed.
Example hex_word_ex : map hex_word [0; 15; 16; 8193; 65535] = ["0"; "f"; "10"; "2001"; "ffff"].
Proof. reflexivity. Qed.

(** ** The decoded view *)
Record FrameView := mk_view {
  fv_src_mac : string;
  fv_dst_mac : string;
  fv_l2_header_len : Z;
  fv_is_etherII : bool;
  fv_vlan_tags : Z;
  fv_l3_proto : string;
  fv_ethertype : option Z;
  fv_src_ip : option string;
  fv_dst_ip : option string;
  fv_ttl : option Z;
  fv_ip_total_len : option Z;
  fv_ip_header_len : option Z;
  fv_ip_df : bool;
  fv_ip_mf : bool;
  fv_ip_frag_offset : Z;
  fv_sport : option Z;
  fv_dport : option Z;
  fv_tcp_flags : option Z;
  fv_tcp_window : option Z;
  fv_tcp_header_len : option Z;
  fv_udp_length : option Z;
  fv_icmp_type : option Z;
  fv_mss : option Z;
  fv_arp_sender_mac : option string;
  fv_arp_sender_ip : option string;
  fv_arp_target_mac : option string;
  fv_arp_target_ip : option string;
}.

Definition new_view (src_mac dst_mac : string) : FrameView :=
  mk_view src_mac dst_mac 14 true 0 "other" None None None None None None false false 0
    None None None None None None None None None None None None.

(** [n or default] *)
Definition or_default (o : option Z) (d : Z) : Z :=
  match o with Some n => if n =? 0 then d else n | None => d end.

Definition is_icmp (proto : string) : bool := bool_decide (proto = "icmp") || bool_decide (proto = "icmpv6").

Definition header_length (v : FrameView) : Z :=
  let total := fv_l2_header_len v + or_default (fv_ip_header_len v) 0 in
  if bool_decide (fv_l3_proto v = "tcp") then total + or_default (fv_tcp_header_len v) 20
  else if bool_decide (fv_l3_proto v = "udp") then total + 8
  else if is_icmp (fv_l3_proto v) then total + 8
  else total.

Definition payload_length (v : FrameView) : Z :=
  let ip_header := or_default (fv_ip_header_len v) 0 in
  match fv_ip_total_len v with
  | None => 0
  | Some total =>
      let inner := total - ip_header in
      if bool_decide (fv_l3_proto v = "tcp") then Z.max 0 (inner - or_default (fv_tcp_header_len v) 20)
      else if bool_decide (fv_l3_proto v = "udp")
      then Z.max 0 (Z.min (inner - 8) (or_default (fv_udp_length v) (inner + 8) - 8))
      else if is_icmp (fv_l3_proto v) then Z.max 0 (inner - 8)
      else Z.max 0 inner
  end.

(** ** Assignments to the view *)
Definition set_link (etherII : bool) (l2 vlan : Z) (v : FrameView) : FrameView :=
  mk_view (fv_src_mac v) (fv_dst_mac v) l2 etherII vlan (fv_l3_proto v) (fv_ethertype v)
    (fv_src_ip v) (fv_dst_ip v) (fv_ttl v) (fv_ip_total_len v) (fv_ip_header_len v) (fv_ip_df v)
    (fv_ip_mf v) (fv_ip_frag_offset v) (fv_sport v) (fv_dport v) (fv_tcp_flags v) (fv_tcp_window v)
    (fv_tcp_header_len v) (fv_udp_length v) (fv_icmp_type v) (fv_mss v) (fv_arp_sender_mac v)
    (fv_arp_sender_ip v) (fv_arp_target_mac v) (fv_arp_target_ip v).
Definition set_proto (ethertype : option Z) (proto : string) (v : FrameView) : FrameView :=
  mk_view (fv_src_mac v) (fv_dst_mac v) (fv_l2_header_len v) (fv_is_etherII v) (fv_vlan_tags v) proto
    ethertype (fv_src_ip v) (fv_dst_ip v) (fv_ttl v) (fv_ip_total_len v) (fv_ip_header_len v)
    (fv_ip_df v) (fv_ip_mf v) (fv_ip_frag_offset v) (fv_sport v) (fv_dport v) (fv_tcp_flags v)
    (fv_tcp_window v) (fv_tcp_header_len v) (fv_udp_length v) (fv_icmp_type v) (fv_mss v)
    (fv_arp_sender_mac v) (fv_arp_sender_ip v) (fv_arp_target_mac v) (fv_arp_target_ip v).
Definition set_arp (sha spa tha tpa : string) (v : FrameView) : FrameView :=
  mk_view (fv_src_mac v) (fv_dst_mac v) (fv_l2_header_len v) (fv_is_etherII v) (fv_vlan_tags v)
    (fv_l3_proto v) (fv_ethertype v) (Some spa) (Some tpa) (fv_ttl v) (fv_ip_total_len v)
    (fv_ip_header_len v) (fv_ip_df v) (fv_ip_mf v) (fv_ip_frag_offset v) (fv_sport v) (fv_dport v)
    (fv_tcp_flags v) (fv_tcp_window v) (fv_tcp_header_len v) (fv_udp_length v) (fv_icmp_type v)
    (fv_mss v) (Some sha) (Some spa) (Some tha) (Some tpa).
Definition set_ip (header_len total_len ttl : Z) (df mf : bool) (frag : Z) (src dst : string)
    (v : FrameView) : FrameView :=
  mk_view (fv_src_mac v) (fv_dst_mac v) (fv_l2_header_len v) (fv_is_etherII v) (fv_vlan_tags v)
    (fv_l3_proto v) (fv_ethertype v) (Some src) (Some dst) (Some ttl) (Some total_len)
    (Some header_len) df mf frag (fv_sport v) (fv_dport v) (fv_tcp_flags v) (fv_tcp_window v)
    (fv_tcp_header_len v) (fv_udp_length v) (fv_icmp_type v) (fv_mss v) (fv_arp_sender_mac v)
    (fv_arp_sender_ip v) (fv_arp_target_mac v) (fv_arp_target_ip v).
Definition set_transport (sport dport flags window header_len udp_len icmp mss : option Z)
    (v : FrameView) : FrameView :=
  mk_view (fv_src_mac v) (fv_dst_mac v) (fv_l2_header_len v) (fv_is_etherII v) (fv_vlan_tags v)
    (fv_l3_proto v) (fv_ethertype v) (fv_src_ip v) (fv_dst_ip v) (fv_ttl v) (fv_ip_total_len v)
    (fv_ip_header_len v) (fv_ip_df v) (fv_ip_mf v) (fv_ip_frag_offset v) sport dport flags window
    header_len udp_len icmp mss (fv_arp_sender_mac v) (fv_arp_sender_ip v) (fv_arp_target_mac v)
    (fv_arp_target_ip v).

(** ** Transport *)

(** [while pos + 1 < opt_end]: the TCP options; the last MSS option wins. *)
Fixpoint tcp_options (fuel : nat) (buf : list Z) (opt_end pos : Z) (mss : option Z) : result (option Z) :=
  match fuel with
  | O => out_of_fuel
  | S fuel =>
      if pos + 1 <? opt_end then
        kind ← byte_at buf pos;
        if kind =? 0 then Ok mss
        else if kind =? 1 then tcp_options fuel buf opt_end (pos + 1) mss
        else if opt_end <=? pos + 1 then Ok mss
        else
          olen ← byte_at buf (pos + 1);
          if olen <? 2 then Ok mss
          else
            mss' ← (if (kind =? 2) && (olen =? 4) && (pos + 4 <=? opt_end)
                    then Some <$> unpack_H (py_slice (pos + 2) (pos + 4) buf)
                    else Ok mss);
            tcp_options fuel buf opt_end (pos + olen) mss'
      else Ok mss
  end.

Definition py_len_of (buf : list Z) : Z := Z.of_nat (length buf).

Definition decode_l4 (view : FrameView) (buf : list Z) (offset : Z) : result FrameView :=
  let proto := fv_l3_proto view in
  if bool_decide (proto = "tcp") && (offset + 20 <=? py_len_of buf) then
    ports ← unpack_HH (py_slice offset (offset + 4) buf);
    window ← unpack_H (py_slice (offset + 14) (offset + 16) buf);
    flags ← byte_at buf (offset + 13);
    off_byte ← byte_at buf (offset + 12);
    let data_off := Z.land (Z.shiftr off_byte 4) 15 * 4 in
    let opt_end := Z.min (offset + data_off) (py_len_of buf) in
    let pos := offset + 20 in
    mss ← tcp_options (S (Z.to_nat (opt_end - pos))) buf opt_end pos (fv_mss view);
    Ok (set_transport (Some ports.1) (Some ports.2) (Some flags) (Some window) (Some data_off)
          (fv_udp_length view) (fv_icmp_type view) mss view)
  else if bool_decide (proto = "udp") && (offset + 8 <=? py_len_of buf) then
    words ← unpack_HHH (py_slice offset (offset + 6) buf);
    let '(sport, dport, ulen) := words in
    Ok (set_transport (Some sport) (Some dport) (fv_tcp_flags view) (fv_tcp_window view)
          (fv_tcp_header_len view) (Some ulen) (fv_icmp_type view) (fv_mss view) view)
  else if is_icmp proto && (offset + 2 <=? py_len_of buf) then
    ty ← byte_at buf offset;
    Ok (set_transport (fv_sport view) (fv_dport view) (fv_tcp_flags view) (fv_tcp_window view)
          (fv_tcp_header_len view) (fv_udp_length view) (Some ty) (fv_mss view) view)
  else Ok view.

(** ** Network layer *)
Definition ipv4_proto (n : Z) : string :=
  if n =? 6 then "tcp" else if n =? 17 then "udp" else if n =? 1 then "icmp" else "other".
Definition ipv6_proto (n : Z) : string :=
  if n =? 6 then "tcp" else if n =? 17 then "udp" else if n =? 58 then "icmpv6" else "other".

Definition decode_arp (view : FrameView) (buf : list Z) (offset : Z) : FrameView :=
  let view := set_proto (fv_ethertype view) "arp" view in
  if offset + 28 <=? py_len_of buf then
    set_arp (format_mac (py_slice (offset + 8) (offset + 14) buf))
      (format_ipv4 (py_slice (offset + 14) (offset + 18) buf))
      (format_mac (py_slice (offset + 18) (offset + 24) buf))
      (format_ipv4 (py_slice (offset + 24) (offset + 28) buf)) view
  else view.

Definition decode_ipv4 (view : FrameView) (buf : list Z) (offset : Z) : result FrameView :=
  if py_len_of buf <? offset + 20 then Ok view
  else
    let ip := py_slice offset (offset + 20) buf in
    version_ihl ← byte_at ip 0;
    if negb (Z.shiftr version_ihl 4 =? 4) then Ok view
    else
      let ihl := Z.land version_ihl 15 * 4 in
      total_len ← unpack_H (py_slice 2 4 ip);
      flags_frag ← unpack_H (py_slice 6 8 ip);
      ttl ← byte_at ip 8;
      proto ← byte_at ip 9;
      let frag := Z.land flags_frag 8191 in
      let view := set_ip ihl total_len ttl (negb (Z.land flags_frag 16384 =? 0))
                    (negb (Z.land flags_frag 8192 =? 0)) frag
                    (format_ipv4 (py_slice 12 16 ip)) (format_ipv4 (py_slice 16 20 ip)) view in
      let view := set_proto (fv_ethertype view) (ipv4_proto proto) view in
      if frag =? 0 then decode_l4 view buf (offset + ihl)
      else Ok (set_proto (fv_ethertype view) "other" view).

(** [":".join(f"{ip6[i] << 8 | ip6[i+1]:x}" for i in range(start, stop, 2))] *)
Fixpoint format_ipv6 (ip6 : list Z) (i : Z) (count : nat) : result (list string) :=
  match count with
  | O => Ok []
  | S count =>
      hi ← byte_at ip6 i;
      lo ← byte_at ip6 (i + 1);
      rest ← format_ipv6 ip6 (i + 2) count;
      Ok (hex_word (be16 hi lo) :: rest)
  end.

Definition decode_ipv6 (view : FrameView) (buf : list Z) (offset : Z) : result FrameView :=
  if py_len_of buf <? offset + 40 then Ok view
  else
    let ip6 := py_slice offset (offset + 40) buf in
    payload_len ← unpack_H (py_slice 4 6 ip6);
    next_hdr ← byte_at ip6 6;
    hop_limit ← byte_at ip6 7;
    src ← format_ipv6 ip6 8 8;
    dst ← format_ipv6 ip6 24 8;
    let view := set_ip 40 (40 + payload_len) hop_limit (fv_ip_df view) (fv_ip_mf view)
                  (fv_ip_frag_offset view) (join ":" src) (join ":" dst) view in
    let view := set_proto (fv_ethertype view) (ipv6_proto next_hdr) view in
    decode_l4 view buf (offset + 40).

(** ** Link layer *)
Definition is_vlan (etype : Z) : bool := (etype =? ETHERTYPE_VLAN) || (etype =? ETHERTYPE_QINQ).

(** [while etype in (VLAN, QINQ)]: [inl] when the tag is cut off and the view is
    returned as it is. *)
Fixpoint vlan_tags (fuel : nat) (view : FrameView) (buf : list Z) (etype offset : Z)
    : result (FrameView + FrameView * Z * Z) :=
  match fuel with
  | O => out_of_fuel
  | S fuel =>
      if is_vlan etype then
        let view := set_link (fv_is_etherII view) (fv_l2_header_len view) (fv_vlan_tags view + 1) view in
        if py_len_of buf <? offset + 4 then Ok (inl view)
        else
          etype ← unpack_H (py_slice (offset + 2) (offset + 4) buf);
          let offset := offset + 4 in
          vlan_tags fuel (set_link (fv_is_etherII view) offset (fv_vlan_tags view) view) buf etype offset
      else Ok (inr (view, etype, offset))
  end.

(** The EtherType and the offset of the payload; [inl] when 802.3 framing hides
    them. *)
Definition link_payload (view : FrameView) (buf : list Z) (type_or_len : Z)
    : result (FrameView + FrameView * Z * Z) :=
  if type_or_len <=? 1500 then
    let view := set_link false (fv_l2_header_len view) (fv_vlan_tags view) view in
    if py_len_of buf <? 18 then Ok (inl (set_proto None (fv_l3_proto view) view))
    else
      dsap ← byte_at buf 14;
      ssap ← byte_at buf 15;
      control ← byte_at buf 16;
      if (dsap =? 170) && (ssap =? 170) && (control =? 3) && (22 <=? py_len_of buf) then
        snap_etype ← unpack_H (py_slice 20 22 buf);
        if bool_decide (py_slice 17 20 buf = [0; 0; 0])
        then Ok (inr (set_link false 22 (fv_vlan_tags view) view, snap_etype, 22))
        else Ok (inl (set_proto None (fv_l3_proto view) view))
      else Ok (inl (set_proto None (fv_l3_proto view) view))
  else Ok (inr (view, type_or_len, 14)).

Definition decode_payload (view : FrameView) (buf : list Z) (etype offset : Z) : result FrameView :=
  let view := set_proto (Some etype) (fv_l3_proto view) view in
  if etype =? ETHERTYPE_ARP then Ok (decode_arp view buf offset)
  else if etype =? ETHERTYPE_IPV4 then decode_ipv4 view buf offset
  else if etype =? ETHERTYPE_IPV6 then decode_ipv6 view buf offset
  else Ok view.

Definition decode_frame (buf : list Z) : result (option FrameView) :=
  if py_len_of buf <? 14 then Ok None
  else
    let dst_raw := py_slice 0 6 buf in
    let src_raw := py_slice 6 12 buf in
    type_or_len ← unpack_H (py_slice 12 14 buf);
    let view := new_view (format_mac src_raw) (format_mac dst_raw) in
    link ← link_payload view buf type_or_len;
    match link with
    | inl view => Ok (Some view)
    | inr (view, etype, offset) =>
        tagged ← vlan_tags (S (length buf)) view buf etype offset;
        match tagged with
        | inl view => Ok (Some view)
        | inr (view, etype, offset) => Some <$> decode_payload view buf etype offset
        end
    end.

(** ** What the decoder reads *)

(** A byte, and an optional field below a bound. *)
Definition is_byte (b : Z) : Prop := 0 ≤ b < 256.
Definition opt_below (n : Z) (o : option Z) : Prop :=
  match o with Some z => 0 ≤ z < n | None => True end.

(** [r] returns, with a value that satisfies [Q]. *)
Definition yields {A} (r : result A) (Q : A → Prop) : Prop := ∃ a, r = Ok a ∧ Q a.

Lemma yields_ok {A} (a : A) (Q : A → Prop) : Q a → yields (Ok a) Q.
Proof. by exists a. Qed.

Lemma yields_bind {A B} (r : result A) (f : A → result B) (P : A → Prop) (Q : B → Prop) :
  yields r P → (∀ a, P a → yields (f a) Q) → yields (r ≫= f) Q.
Proof. intros (a & -> & Ha) Hf. apply (Hf a Ha). Qed.

Lemma yields_fmap {A B} (r : result A) (f : A → B) (P : A → Prop) (Q : B → Prop) :
  yields r P → (∀ a, P a → Q (f a)) → yields (f <$> r) Q.
Proof. intros (a & -> & Ha) Hf. exists (f a). auto. Qed.

Lemma yields_weaken {A} (r : result A) (P Q : A → Prop) :
  yields r P → (∀ a, P a → Q a) → yields r Q.
Proof. intros (a & -> & Ha) HPQ. exists a. auto. Qed.

Lemma py_slice_length {A} a b (l : list A) :
  0 ≤ a ≤ b → b ≤ Z.of_nat (length l) → Z.of_nat (length (py_slice a b l)) = b - a.
Proof.
  intros Ha Hb. unfold py_slice, slice_bound. rewrite length_take, length_drop.
  destruct (Z.ltb_spec a 0), (Z.ltb_spec b 0); lia.
Qed.

Section bytes.
Context (buf : list Z) (Hbuf : Forall is_byte buf).

Lemma slice_bytes a b : Forall is_byte (py_slice a b buf).
Proof. unfold py_slice. by apply Forall_take, Forall_drop. Qed.

Lemma byte_at_returns i : 0 ≤ i < py_len_of buf → yields (byte_at buf i) is_byte.
Proof.
  unfold py_len_of. intros Hi. unfold byte_at. destruct (Z.ltb_spec i 0); [lia |].
  destruct (lookup_lt_is_Some_2 buf (Z.to_nat i)) as [b Hb]; [lia |]. rewrite Hb.
  apply yields_ok. by eapply Forall_lookup_1.
Qed.
End bytes.

Lemma be16_sum hi lo : is_byte lo → be16 hi lo = hi * 256 + lo.
Proof.
  unfold is_byte, be16. intros Hl. rewrite Z.shiftl_mul_pow2 by lia. change (2 ^ 8) with 256.
  symmetry. rewrite <-Z.add_lor_land.
  assert (Z.land (hi * 256) lo = 0) as ->; [|lia].
  apply Z.bits_inj'. intros n Hn. rewrite Z.land_spec, Z.bits_0.
  change 256 with (2 ^ 8). destruct (Z.lt_ge_cases n 8); [by rewrite Z.mul_pow2_bits_low |].
  rewrite (Z.bits_above_log2 lo n); [apply andb_false_r | lia |].
  destruct (Z.eq_dec lo 0) as [->|]; [cbn; lia |].
  enough (Z.log2 lo < 8) by lia. apply Z.log2_lt_pow2; lia.
Qed.

Lemma be16_range hi lo : is_byte hi → is_byte lo → 0 ≤ be16 hi lo < 65536.
Proof. intros Hh Hl. rewrite be16_sum by done. unfold is_byte in *. lia. Qed.

Lemma be_words_returns raw n :
  Forall is_byte raw → length raw = (2 * n)%nat →
  ∃ ws, be_words raw = Some ws ∧ length ws = n ∧ Forall (λ w, 0 ≤ w < 65536) ws.
Proof.
  revert raw. induction n as [|n IH]; intros raw Hraw Hlen.
  { destruct raw; [|cbn in Hlen; lia]. by exists []. }
  destruct raw as [|hi [|lo raw]]; cbn in Hlen; try lia.
  apply Forall_cons in Hraw as [Hh [Hl Hraw]%Forall_cons].
  destruct (IH raw Hraw) as (ws & Hws & Hn & Hall); [lia |].
  exists (be16 hi lo :: ws). cbn. rewrite Hws. split; [done |]. cbn. split; [by rewrite Hn |].
  constructor; [by apply be16_range | done].
Qed.

Lemma unpack_words_returns raw n :
  Forall is_byte raw → Z.of_nat (length raw) = 2 * Z.of_nat n →
  yields (unpack_words n raw) (λ ws, length ws = n ∧ Forall (λ w, 0 ≤ w < 65536) ws).
Proof.
  intros Hraw Hlen. destruct (be_words_returns raw n Hraw) as (ws & Hws & Hn & Hall); [lia |].
  unfold unpack_words. rewrite Hws, Hn, Nat.eqb_refl. by apply yields_ok.
Qed.

Section words.
Context (buf : list Z) (Hbuf : Forall is_byte buf) (a : Z).

Lemma unpack_H_returns :
  0 ≤ a → a + 2 ≤ py_len_of buf → yields (unpack_H (py_slice a (a + 2) buf)) (λ w, 0 ≤ w < 65536).
Proof.
  intros Ha Hb. eapply yields_bind.
  - apply (unpack_words_returns _ 1); [by apply slice_bytes |]. rewrite py_slice_length; unfold py_len_of in *; lia.
  - intros [|w []] [Hn Hall]; try done. apply Forall_cons in Hall as [Hw _]. by apply yields_ok.
Qed.

Lemma unpack_HH_returns :
  0 ≤ a → a + 4 ≤ py_len_of buf →
  yields (unpack_HH (py_slice a (a + 4) buf)) (λ w, 0 ≤ w.1 < 65536 ∧ 0 ≤ w.2 < 65536).
Proof.
  intros Ha Hb. eapply yields_bind.
  - apply (unpack_words_returns _ 2); [by apply slice_bytes |]. rewrite py_slice_length; unfold py_len_of in *; lia.
  - intros [|w [|w2 []]] [Hn Hall]; try done. repeat apply Forall_cons in Hall as [? Hall]. by apply yields_ok.
Qed.

Lemma unpack_HHH_returns :
  0 ≤ a → a + 6 ≤ py_len_of buf →
  yields (unpack_HHH (py_slice a (a + 6) buf))
    (λ w, 0 ≤ w.1.1 < 65536 ∧ 0 ≤ w.1.2 < 65536 ∧ 0 ≤ w.2 < 65536).
Proof.
  intros Ha Hb. eapply yields_bind.
  - apply (unpack_words_returns _ 3); [by apply slice_bytes |]. rewrite py_slice_length; unfold py_len_of in *; lia.
  - intros [|w [|w2 [|w3 []]]] [Hn Hall]; try done.
    repeat apply Forall_cons in Hall as [? Hall]. by apply yields_ok.
Qed.
End words.

Definition L3_PROTOS : list string := ["tcp"; "udp"; "icmp"; "icmpv6"; "arp"; "other"].

(** A transport header belongs to its protocol and its fields fit their widths. *)
Record transport_ok (v : FrameView) : Prop := {
  tv_sport : opt_below 65536 (fv_sport v);
  tv_dport : opt_below 65536 (fv_dport v);
  tv_flags : opt_below 256 (fv_tcp_flags v);
  tv_window : opt_below 65536 (fv_tcp_window v);
  tv_header : opt_below 61 (fv_tcp_header_len v);
  tv_udp : opt_below 65536 (fv_udp_length v);
  tv_icmp : opt_below 256 (fv_icmp_type v);
  tv_mss : opt_below 65536 (fv_mss v);
  tv_ports_proto : is_some (fv_sport v) → fv_l3_proto v ∈ ["tcp"; "udp"];
  tv_tcp_proto : is_some (fv_tcp_flags v) → fv_l3_proto v = "tcp";
}.

(** The view of a frame of [n] bytes. *)
Record view_ok (n : Z) (v : FrameView) : Prop := {
  vw_proto : fv_l3_proto v ∈ L3_PROTOS;
  vw_l2 : 14 ≤ fv_l2_header_len v ≤ n;
  vw_vlan : 0 ≤ fv_vlan_tags v ∧ 4 * fv_vlan_tags v ≤ n;
  vw_ihl : opt_below 61 (fv_ip_header_len v);
  vw_total : opt_below 65576 (fv_ip_total_len v);
  vw_ttl : opt_below 256 (fv_ttl v);
  vw_frag : 0 ≤ fv_ip_frag_offset v < 8192;
  vw_frag_other : fv_ip_frag_offset v ≠ 0 → fv_l3_proto v = "other";
  vw_ip : is_some (fv_ttl v) → is_some (fv_src_ip v) ∧ is_some (fv_dst_ip v);
  vw_transport : transport_ok v;
}.

(** No transport field has been read yet. *)
Definition no_transport (v : FrameView) : Prop :=
  fv_sport v = None ∧ fv_dport v = None ∧ fv_tcp_flags v = None ∧ fv_tcp_window v = None ∧
  fv_tcp_header_len v = None ∧ fv_udp_length v = None ∧ fv_icmp_type v = None ∧ fv_mss v = None.

Lemma no_transport_ok v : no_transport v → transport_ok v.
Proof.
  destruct v. unfold no_transport. cbn. intros (-> & -> & -> & -> & -> & -> & -> & ->). by split.
Qed.

Lemma land_15 x : 0 ≤ x → 0 ≤ Z.land x 15 < 16.
Proof. intros Hx. change 15 with (Z.ones 4). rewrite Z.land_ones by done. by apply Z.mod_pos_bound. Qed.

Lemma land_8191 x : 0 ≤ x → 0 ≤ Z.land x 8191 < 8192.
Proof. intros Hx. change 8191 with (Z.ones 13). rewrite Z.land_ones by done. by apply Z.mod_pos_bound. Qed.

(** The option loop ends: each turn moves at least one byte on. *)
Lemma tcp_options_returns buf fuel opt_end pos mss :
  Forall is_byte buf → 0 ≤ pos → opt_end ≤ py_len_of buf → opt_below 65536 mss →
  Z.max 0 (opt_end - pos) < Z.of_nat fuel →
  yields (tcp_options fuel buf opt_end pos mss) (opt_below 65536).
Proof.
  intros Hbuf. revert pos mss.
  induction fuel as [|fuel IH]; intros pos mss Hpos Hend Hmss Hfuel; cbn [tcp_options]; [lia |].
  destruct (Z.ltb_spec (pos + 1) opt_end) as [Hin|]; [|by apply yields_ok].
  eapply yields_bind; [apply byte_at_returns; [done | lia] |]. intros kind Hkind.
  destruct (Z.eqb_spec kind 0); [by apply yields_ok |].
  destruct (Z.eqb_spec kind 1); [apply IH; try done; lia |].
  destruct (Z.leb_spec opt_end (pos + 1)); [lia |].
  eapply yields_bind; [apply byte_at_returns; [done | lia] |]. intros olen Holen. unfold is_byte in *.
  destruct (Z.ltb_spec olen 2); [by apply yields_ok |].
  eapply (yields_bind _ _ (opt_below 65536)).
  - destruct ((kind =? 2) && (olen =? 4) && (pos + 4 <=? opt_end)) eqn:Hm; [|by apply yields_ok].
    rewrite !andb_true_iff in Hm. replace (pos + 4) with (pos + 2 + 2) by lia.
    eapply yields_fmap; [apply unpack_H_returns; [done | lia | lia] |]. done.
  - intros mss' Hmss'. apply IH; try done; lia.
Qed.

Lemma decode_l4_returns v buf offset n :
  Forall is_byte buf → 0 ≤ offset → view_ok n v → no_transport v → fv_ip_frag_offset v = 0 →
  yields (decode_l4 v buf offset) (view_ok n).
Proof.
  intros Hbuf Hoff Hv Hno Hfrag. pose proof Hno as (_ & _ & Hfl & Hwi & Hhl & Hul & Hic & Hms).
  destruct Hv. unfold decode_l4.
  destruct (bool_decide (fv_l3_proto v = "tcp") && (offset + 20 <=? py_len_of buf)) eqn:Ht.
  { apply andb_true_iff in Ht as [Hp%bool_decide_eq_true Hlen%Z.leb_le].
    eapply yields_bind; [apply unpack_HH_returns; [done | lia | lia] |]. intros ports Hports.
    replace (offset + 16) with (offset + 14 + 2) by lia.
    eapply yields_bind; [apply unpack_H_returns; [done | lia | lia] |]. intros window Hwin.
    eapply yields_bind; [apply byte_at_returns; [done | lia] |]. intros flags Hflags.
    eapply yields_bind; [apply byte_at_returns; [done | lia] |]. intros ob Hob. unfold is_byte in *.
    pose proof (land_15 (Z.shiftr ob 4)) as Hland. rewrite Z.shiftr_nonneg in Hland.
    eapply yields_bind; [apply tcp_options_returns; [done | lia | lia | by rewrite Hms | lia] |].
    intros mss Hmss. apply yields_ok. split; cbn; try done.
    split; cbn; rewrite ?Hul, ?Hic, ?Hp; try done; try lia; set_solver. }
  destruct (bool_decide (fv_l3_proto v = "udp") && (offset + 8 <=? py_len_of buf)) eqn:Hu.
  { apply andb_true_iff in Hu as [Hp%bool_decide_eq_true Hlen%Z.leb_le].
    eapply yields_bind; [apply unpack_HHH_returns; [done | lia | lia] |]. intros [[sp dp] ul] (? & ? & ?).
    apply yields_ok. cbn in *. split; cbn; try done.
    split; cbn; rewrite ?Hfl, ?Hwi, ?Hhl, ?Hic, ?Hms, ?Hp; try done. set_solver. }
  destruct (is_icmp (fv_l3_proto v) && (offset + 2 <=? py_len_of buf)) eqn:Hi.
  { apply andb_true_iff in Hi as [Hp Hlen%Z.leb_le].
    eapply yields_bind; [apply byte_at_returns; [done | lia] |]. intros ty Hty. apply yields_ok.
    destruct vw_transport0. split; cbn; try done; by split. }
  by apply yields_ok.
Qed.

Lemma decode_arp_ok v buf offset n :
  view_ok n v → no_transport v → fv_ip_frag_offset v = 0 → fv_ttl v = None → view_ok n (decode_arp v buf offset).
Proof.
  intros Hv Hno Hfrag Httl. destruct Hv. unfold decode_arp. pose proof (no_transport_ok v Hno) as [].
  destruct Hno as (H1 & H2 & H3 & H4 & H5 & H6 & H7 & H8).
  assert ("arp" ∈ L3_PROTOS) by (by apply (bool_decide_eq_true_1 _)).
  destruct (offset + 28 <=? py_len_of buf); split; cbn; rewrite ?Httl; try done; try (by rewrite Hfrag);
    by split; cbn; rewrite ?H1, ?H2, ?H3, ?H4, ?H5, ?H6, ?H7, ?H8.
Qed.

Lemma ipv4_proto_in n : ipv4_proto n ∈ L3_PROTOS.
Proof. unfold ipv4_proto, L3_PROTOS. repeat case_match; set_solver. Qed.
Lemma ipv6_proto_in n : ipv6_proto n ∈ L3_PROTOS.
Proof. unfold ipv6_proto, L3_PROTOS. repeat case_match; set_solver. Qed.

(** Where the network header is read into: nothing of the network or the transport
    is known. *)
Record link_view (n : Z) (v : FrameView) : Prop := {
  lk_view : view_ok n v;
  lk_transport : no_transport v;
  lk_frag : fv_ip_frag_offset v = 0;
  lk_ttl : fv_ttl v = None;
  lk_proto : fv_l3_proto v = "other";
}.

(** Both IP versions: the fields are read, then the transport. *)
Lemma ip_fields_returns v buf n ihl total ttl df mf frag src dst proto offset :
  Forall is_byte buf → link_view n v → 0 ≤ offset → 0 ≤ ihl < 61 → 0 ≤ total < 65576 → 0 ≤ ttl < 256 →
  0 ≤ frag < 8192 → proto ∈ L3_PROTOS →
  let v1 := set_proto (fv_ethertype v) proto (set_ip ihl total ttl df mf frag src dst v) in
  yields (if frag =? 0 then decode_l4 v1 buf offset else Ok (set_proto (fv_ethertype v1) "other" v1))
    (view_ok n).
Proof.
  intros Hbuf [[] Hno Hfr Httl Hpr] Hoff Hihl Htot Httl' Hfrag Hproto v1.
  destruct (Z.eqb_spec frag 0) as [->|Hne].
  - apply decode_l4_returns; try done. split; cbn; try done. by apply no_transport_ok.
  - assert ("other" ∈ L3_PROTOS) by (by apply (bool_decide_eq_true_1 _)).
    apply yields_ok. split; cbn; try done. by apply no_transport_ok.
Qed.

Lemma decode_ipv4_returns v buf offset n :
  Forall is_byte buf → 0 ≤ offset → link_view n v → yields (decode_ipv4 v buf offset) (view_ok n).
Proof.
  intros Hbuf Hoff Hv. unfold decode_ipv4.
  destruct (Z.ltb_spec (py_len_of buf) (offset + 20)); [by apply yields_ok, Hv |].
  set (ip := py_slice offset (offset + 20) buf).
  assert (Hip : Forall is_byte ip) by by apply slice_bytes.
  assert (Hlen : py_len_of ip = 20).
  { unfold py_len_of, ip. rewrite py_slice_length; unfold py_len_of in *; lia. }
  eapply yields_bind; [apply byte_at_returns; [done | lia] |]. intros vi Hvi. unfold is_byte in *.
  destruct (negb _); [by apply yields_ok, Hv |].
  eapply yields_bind; [apply (unpack_H_returns ip Hip 2); lia |]. intros total Htot.
  eapply yields_bind; [apply (unpack_H_returns ip Hip 6); lia |]. intros ff Hff.
  eapply yields_bind; [apply byte_at_returns; [done | lia] |]. intros ttl Httl.
  eapply yields_bind; [apply byte_at_returns; [done | lia] |]. intros proto Hproto. unfold is_byte in *.
  pose proof (land_15 vi). pose proof (land_8191 ff).
  apply (ip_fields_returns v buf n (Z.land vi 15 * 4) total ttl (negb (Z.land ff 16384 =? 0))
    (negb (Z.land ff 8192 =? 0)) (Z.land ff 8191) (format_ipv4 (py_slice 12 16 ip))
    (format_ipv4 (py_slice 16 20 ip)) (ipv4_proto proto)); try done; try lia. apply ipv4_proto_in.
Qed.

Lemma format_ipv6_returns ip6 i count :
  Forall is_byte ip6 → 0 ≤ i → i + 2 * Z.of_nat count ≤ py_len_of ip6 →
  yields (format_ipv6 ip6 i count) (λ l, length l = count).
Proof.
  intros Hip. revert i. induction count as [|count IH]; intros i Hi Hle; cbn [format_ipv6]; [by apply yields_ok |].
  eapply yields_bind; [apply byte_at_returns; [done | lia] |]. intros hi _.
  eapply yields_bind; [apply byte_at_returns; [done | lia] |]. intros lo _.
  eapply yields_bind; [apply IH; lia |]. intros rest Hrest. apply yields_ok. cbn. by rewrite Hrest.
Qed.

Lemma decode_ipv6_returns v buf offset n :
  Forall is_byte buf → 0 ≤ offset → link_view n v → yields (decode_ipv6 v buf offset) (view_ok n).
Proof.
  intros Hbuf Hoff Hv. unfold decode_ipv6.
  destruct (Z.ltb_spec (py_len_of buf) (offset + 40)); [by apply yields_ok, Hv |].
  set (ip := py_slice offset (offset + 40) buf).
  assert (Hip : Forall is_byte ip) by by apply slice_bytes.
  assert (Hlen : py_len_of ip = 40).
  { unfold py_len_of, ip. rewrite py_slice_length; unfold py_len_of in *; lia. }
  eapply yields_bind; [apply (unpack_H_returns ip Hip 4); lia |]. intros plen Hplen.
  eapply yields_bind; [apply byte_at_returns; [done | lia] |]. intros nh Hnh.
  eapply yields_bind; [apply byte_at_returns; [done | lia] |]. intros hl Hhl. unfold is_byte in *.
  eapply yields_bind; [apply format_ipv6_returns; [done | lia | cbn; lia] |]. intros src _.
  eapply yields_bind; [apply format_ipv6_returns; [done | lia | cbn; lia] |]. intros dst _.
  pose proof (ip_fields_returns v buf n 40 (40 + plen) hl (fv_ip_df v) (fv_ip_mf v)
    (fv_ip_frag_offset v) (join ":" src) (join ":" dst) (ipv6_proto nh) (offset + 40)) as Hret.
  cbv zeta in Hret. rewrite (lk_frag _ _ Hv) in Hret |- *.
  apply Hret; try done; try lia. apply ipv6_proto_in.
Qed.

Lemma set_link_view n v b l2 vlan :
  link_view n v → 14 ≤ l2 ≤ n → 0 ≤ vlan → 4 * vlan ≤ n → link_view n (set_link b l2 vlan v).
Proof. intros [[] ? ? ? ?] ? ? ?. split; try done. split; try done. by destruct vw_transport0; split. Qed.

Lemma set_ethertype_view n v e : link_view n v → link_view n (set_proto e (fv_l3_proto v) v).
Proof. intros [[] ? ? ? ?]. split; try done. split; try done. by destruct vw_transport0; split. Qed.

(** The tags are within the frame, so their loop ends. *)
Lemma vlan_tags_returns fuel v buf etype offset :
  Forall is_byte buf → link_view (py_len_of buf) v → 14 ≤ offset ≤ py_len_of buf →
  4 * fv_vlan_tags v + 4 ≤ offset → py_len_of buf - offset < Z.of_nat fuel →
  yields (vlan_tags fuel v buf etype offset)
    (λ r, match r with
          | inl v' => link_view (py_len_of buf) v'
          | inr (v', _, offset') => link_view (py_len_of buf) v' ∧ 14 ≤ offset'
          end).
Proof.
  intros Hbuf. revert v etype offset.
  induction fuel as [|fuel IH]; intros v etype offset Hv Hoff Hvl Hfuel; cbn [vlan_tags]; [lia |].
  destruct (is_vlan etype); [|apply yields_ok; split; [done | lia]].
  pose proof (vw_l2 _ _ (lk_view _ _ Hv)) as Hl2. pose proof (vw_vlan _ _ (lk_view _ _ Hv)) as Hvlan.
  assert (Hv1 : link_view (py_len_of buf)
    (set_link (fv_is_etherII v) (fv_l2_header_len v) (fv_vlan_tags v + 1) v)).
  { apply set_link_view; try done; lia. }
  destruct (Z.ltb_spec (py_len_of buf) (offset + 4)); [by apply yields_ok |].
  replace (offset + 4) with (offset + 2 + 2) at 1 by lia.
  eapply yields_bind; [apply unpack_H_returns; [done | lia | lia] |]. intros etype' _.
  apply IH; [| lia | cbn; lia | lia]. apply set_link_view; [done | lia | cbn; lia | cbn; lia].
Qed.

Lemma link_payload_returns v buf type_or_len :
  Forall is_byte buf → link_view (py_len_of buf) v → 14 ≤ py_len_of buf → fv_vlan_tags v = 0 →
  yields (link_payload v buf type_or_len)
    (λ r, match r with
          | inl v' => link_view (py_len_of buf) v'
          | inr (v', _, offset') => link_view (py_len_of buf) v' ∧ 14 ≤ offset' ≤ py_len_of buf ∧ fv_vlan_tags v' = 0
          end).
Proof.
  intros Hbuf Hv Hlen Hvl. unfold link_payload.
  pose proof (vw_l2 _ _ (lk_view _ _ Hv)) as Hl2.
  destruct (type_or_len <=? 1500); [|apply yields_ok; split; [done | split; [lia | done]]].
  assert (Hv1 : link_view (py_len_of buf) (set_link false (fv_l2_header_len v) (fv_vlan_tags v) v)).
  { apply set_link_view; try done; lia. }
  destruct (Z.ltb_spec (py_len_of buf) 18); [by apply yields_ok, set_ethertype_view |].
  eapply yields_bind; [apply byte_at_returns; [done | lia] |]. intros dsap _.
  eapply yields_bind; [apply byte_at_returns; [done | lia] |]. intros ssap _.
  eapply yields_bind; [apply byte_at_returns; [done | lia] |]. intros control _.
  destruct ((dsap =? 170) && _ && _ && _) eqn:Hsnap; [|by apply yields_ok, set_ethertype_view].
  rewrite !andb_true_iff in Hsnap. destruct Hsnap as [_ Hlen22%Z.leb_le].
  eapply yields_bind; [apply (unpack_H_returns buf Hbuf 20); lia |]. intros snap _.
  case_bool_decide; [|by apply yields_ok, set_ethertype_view].
  apply yields_ok. split; [|split; [lia | done]]. apply set_link_view; try done; cbn; lia.
Qed.

(** Any frame decodes. *)
Lemma decode_frame_returns buf :
  Forall is_byte buf →
  yields (decode_frame buf) (λ o,
    match o with None => py_len_of buf < 14 | Some v => 14 ≤ py_len_of buf ∧ view_ok (py_len_of buf) v end).
Proof.
  intros Hbuf. unfold decode_frame.
  destruct (Z.ltb_spec (py_len_of buf) 14) as [|Hlen]; [by apply yields_ok |].
  eapply yields_bind; [apply (unpack_H_returns buf Hbuf 12); lia |]. intros tl _.
  set (v0 := new_view _ _).
  assert (Hv0 : link_view (py_len_of buf) v0).
  { split; try done. split; cbn; try done; try lia. by apply (bool_decide_eq_true_1 _). }
  eapply yields_bind; [by apply link_payload_returns |].
  intros [v|[[v etype] offset]]; [intros Hv; apply yields_ok; split; [done | apply Hv] |].
  intros (Hv & Hoff & Hvl). eapply yields_bind.
  { apply vlan_tags_returns; [done | exact Hv | done | lia |]. unfold py_len_of. lia. }
  intros [v1|[[v1 etype1] offset1]]; [intros Hv1; apply yields_ok; split; [done | apply Hv1] |].
  intros (Hv1 & Hoff1). eapply (yields_fmap _ _ (view_ok (py_len_of buf))); [|done].
  apply (set_ethertype_view _ _ (Some etype1)) in Hv1. unfold decode_payload.
  destruct (etype1 =? ETHERTYPE_ARP).
  { apply yields_ok, decode_arp_ok; apply Hv1. }
  destruct (etype1 =? ETHERTYPE_IPV4); [apply decode_ipv4_returns; [done | lia | done] |].
  destruct (etype1 =? ETHERTYPE_IPV6); [apply decode_ipv6_returns; [done | lia | done] |].
  apply yields_ok, Hv1.
Qed.

(** The lengths derived from a view. *)
Lemma view_ok_lengths n v :
  view_ok n v → 0 ≤ payload_length v < 65576 ∧
                fv_l2_header_len v ≤ header_length v ≤ fv_l2_header_len v + 120.
Proof.
  intros []. destruct vw_transport0. unfold payload_length, header_length.
  assert (Hihl : 0 ≤ or_default (fv_ip_header_len v) 0 ≤ 60).
  { unfold or_default. destruct (fv_ip_header_len v) as [z|]; cbn in *; [|lia]. destruct (Z.eqb_spec z 0); lia. }
  assert (Hthl : 0 ≤ or_default (fv_tcp_header_len v) 20 ≤ 60).
  { unfold or_default. destruct (fv_tcp_header_len v) as [z|]; cbn in *; [|lia]. destruct (Z.eqb_spec z 0); lia. }
  split.
  - destruct (fv_ip_total_len v) as [total|]; cbn in *; [|lia].
    repeat match goal with |- context [if ?b then _ else _] => destruct b end; lia.
  - repeat match goal with |- context [if ?b then _ else _] => destruct b end; lia.
Qed.

(** ** A reference encoder

    Ethernet II with any number of VLAN tags, IPv4 with options (not a later fragment)
    and TCP with options: the frame of given header fields, in the layout of the
    standards. *)
Definition enc16 (w : Z) : list Z := [w / 256; w mod 256].

(** The type fields and the tags between them: each tag follows its own type. *)
Fixpoint enc_types (tags : list (Z * Z)) (etype : Z) : list Z :=
  match tags with
  | [] => enc16 etype
  | (tpid, tci) :: tags => enc16 tpid ++ enc16 tci ++ enc_types tags etype
  end.

Record Ipv4Header := mk_ipv4 {
  i4_tos : Z;
  i4_total : Z;
  i4_ident : Z;
  i4_df : bool;
  i4_mf : bool;
  i4_ttl : Z;
  i4_csum : Z;
  i4_src : Z * Z * Z * Z;
  i4_dst : Z * Z * Z * Z;
  i4_options : list Z;
}.

Definition addr_bytes (a : Z * Z * Z * Z) : list Z := let '(a1, a2, a3, a4) := a in [a1; a2; a3; a4].
Definition flags_frag (h : Ipv4Header) : Z :=
  (if i4_df h then 16384 else 0) + (if i4_mf h then 8192 else 0).
Definition ihl_bytes (h : Ipv4Header) : Z := 20 + py_len_of (i4_options h).

Definition enc_ipv4 (h : Ipv4Header) (proto : Z) : list Z :=
  [64 + ihl_bytes h / 4; i4_tos h] ++ enc16 (i4_total h) ++ enc16 (i4_ident h) ++ enc16 (flags_frag h)
  ++ [i4_ttl h; proto] ++ enc16 (i4_csum h) ++ addr_bytes (i4_src h) ++ addr_bytes (i4_dst h)
  ++ i4_options h.

Inductive TcpOption :=
  | OptNop
  | OptData (kind : Z) (data : list Z).

Definition enc_option (o : TcpOption) : list Z :=
  match o with OptNop => [1] | OptData kind data => kind :: 2 + py_len_of data :: data end.
Definition enc_options (os : list TcpOption) : list Z := os ≫= enc_option.

(** The MSS the options announce, the last one if there are several. *)
Definition mss_of (mss : option Z) (o : TcpOption) : option Z :=
  match o with
  | OptData kind [hi; lo] => if kind =? 2 then Some (be16 hi lo) else mss
  | _ => mss
  end.

Record TcpHeader := mk_tcp {
  tc_sport : Z;
  tc_dport : Z;
  tc_seq : Z * Z;
  tc_ack : Z * Z;
  tc_flags : Z;
  tc_window : Z;
  tc_csum : Z;
  tc_urgent : Z;
  tc_options : list TcpOption;
  tc_padding : list Z;
}.

(** The option area: the options, then an end-of-options byte and filling. *)
Definition option_area (h : TcpHeader) : list Z := enc_options (tc_options h) ++ tc_padding h.
Definition data_offset (h : TcpHeader) : Z := 20 + py_len_of (option_area h).

Definition enc_tcp (h : TcpHeader) : list Z :=
  enc16 (tc_sport h) ++ enc16 (tc_dport h) ++ enc16 (tc_seq h).1 ++ enc16 (tc_seq h).2
  ++ enc16 (tc_ack h).1 ++ enc16 (tc_ack h).2 ++ [data_offset h / 4 * 16; tc_flags h]
  ++ enc16 (tc_window h) ++ enc16 (tc_csum h) ++ enc16 (tc_urgent h) ++ option_area h.

Definition enc_frame (dst src : list Z) (tags : list (Z * Z)) (ip : Ipv4Header) (tcp : TcpHeader)
    (payload : list Z) : list Z :=
  dst ++ src ++ enc_types tags ETHERTYPE_IPV4 ++ enc_ipv4 ip 6 ++ enc_tcp tcp ++ payload.

(** What the frame means. *)
Definition view_of (dst src : list Z) (tags : list (Z * Z)) (ip : Ipv4Header) (tcp : TcpHeader) : FrameView :=
  let n := Z.of_nat (length tags) in
  mk_view (format_mac src) (format_mac dst) (14 + 4 * n) true n "tcp" (Some ETHERTYPE_IPV4)
    (Some (format_ipv4 (addr_bytes (i4_src ip)))) (Some (format_ipv4 (addr_bytes (i4_dst ip))))
    (Some (i4_ttl ip)) (Some (i4_total ip)) (Some (ihl_bytes ip)) (i4_df ip) (i4_mf ip) 0
    (Some (tc_sport tcp)) (Some (tc_dport tcp)) (Some (tc_flags tcp)) (Some (tc_window tcp))
    (Some (data_offset tcp)) None None (foldl mss_of None (tc_options tcp)) None None None None.

Definition is_word (w : Z) : Prop := 0 ≤ w < 65536.

Record ipv4_ok (h : Ipv4Header) : Prop := {
  i4o_total : is_word (i4_total h);
  i4o_options : py_len_of (i4_options h) mod 4 = 0 ∧ py_len_of (i4_options h) ≤ 40;
}.

Definition option_wf (o : TcpOption) : Prop :=
  match o with
  | OptNop => True
  | OptData kind data => kind ≠ 0 ∧ kind ≠ 1
  end.

Record tcp_ok (h : TcpHeader) : Prop := {
  tco_sport : is_word (tc_sport h);
  tco_dport : is_word (tc_dport h);
  tco_window : is_word (tc_window h);
  tco_options : Forall option_wf (tc_options h);
  tco_padding : match tc_padding h with [] => True | b :: _ => b = 0 end;
  tco_area : py_len_of (option_area h) mod 4 = 0 ∧ py_len_of (option_area h) ≤ 40;
}.

(** *** Reading past a prefix *)
Lemma py_slice_app (p l : list Z) a b :
  0 ≤ a → 0 ≤ b → py_slice (py_len_of p + a) (py_len_of p + b) (p ++ l) = py_slice a b l.
Proof.
  intros Ha Hb. unfold py_len_of, py_slice, slice_bound. rewrite length_app.
  repeat match goal with |- context [Z.ltb ?x ?y] => destruct (Z.ltb_spec x y); [lia |] end.
  rewrite drop_app, (drop_ge p) by lia. cbn. f_equal; [lia |]. f_equal. lia.
Qed.

Lemma byte_at_app p l i : 0 ≤ i → byte_at (p ++ l) (py_len_of p + i) = byte_at l i.
Proof.
  intros Hi. unfold py_len_of, byte_at. destruct (Z.ltb_spec (Z.of_nat (length p) + i) 0), (Z.ltb_spec i 0); try lia.
  rewrite lookup_app_r by lia. do 2 f_equal. lia.
Qed.

Lemma byte_at_mid p x l : byte_at (p ++ x :: l) (py_len_of p) = Ok x.
Proof. rewrite <-(Z.add_0_r (py_len_of p)). by rewrite byte_at_app. Qed.

Lemma byte_at_next p x y l : byte_at (p ++ x :: y :: l) (py_len_of p + 1) = Ok y.
Proof. by rewrite byte_at_app. Qed.

Lemma py_slice_skip (x : Z) l a b : 1 ≤ a → 1 ≤ b → py_slice a b (x :: l) = py_slice (a - 1) (b - 1) l.
Proof.
  intros Ha Hb. pose proof (py_slice_app [x] l (a - 1) (b - 1)) as Hs. change (py_len_of [x]) with 1 in Hs.
  cbn [app] in Hs. rewrite <-Hs by lia. f_equal; lia.
Qed.

Lemma py_slice_0 {A} (p l : list A) n : n = Z.of_nat (length p) → py_slice 0 n (p ++ l) = p.
Proof.
  intros ->. unfold py_slice, slice_bound. rewrite length_app.
  destruct (Z.ltb_spec (Z.of_nat (length p)) 0), (Z.ltb_spec 0 0); try lia.
  replace (Z.to_nat (Z.min (Z.of_nat (length p + length l)) 0)) with 0%nat by lia. rewrite drop_0.
  rewrite take_app_le by lia. apply take_ge. lia.
Qed.

Lemma py_slice_at p m l a b : a = py_len_of p → b = a + py_len_of m → py_slice a b (p ++ m ++ l) = m.
Proof.
  intros -> ->. rewrite <-(Z.add_0_r (py_len_of p)) at 1. pose proof (Zle_0_nat (length m)).
  rewrite py_slice_app by (unfold py_len_of; lia). by apply py_slice_0.
Qed.

Lemma be16_enc w : is_word w → be16 (w / 256) (w mod 256) = w.
Proof. unfold is_word. intros Hw. pose proof (Z.div_mod w 256). pose proof (Z.mod_pos_bound w 256). rewrite be16_sum; unfold is_byte; lia. Qed.

(** *** The TCP options *)
Lemma enc_option_length o : 1 ≤ py_len_of (enc_option o).
Proof. unfold py_len_of. destruct o; cbn [enc_option length]; lia. Qed.

Lemma enc_options_cons o os : enc_options (o :: os) = enc_option o ++ enc_options os.
Proof. done. Qed.

Lemma py_len_app l1 l2 : py_len_of (l1 ++ l2) = py_len_of l1 + py_len_of l2.
Proof. unfold py_len_of. rewrite length_app. lia. Qed.

Lemma py_len_cons x l : py_len_of (x :: l) = 1 + py_len_of l.
Proof. unfold py_len_of. cbn [length]. lia. Qed.

Lemma py_len_nonneg l : 0 ≤ py_len_of l.
Proof. unfold py_len_of. lia. Qed.

Lemma tcp_options_enc fuel pre os pad rest mss :
  Forall option_wf os → match pad with [] => True | b :: _ => b = 0 end →
  py_len_of (enc_options os ++ pad) < Z.of_nat fuel →
  tcp_options fuel (pre ++ (enc_options os ++ pad) ++ rest)
    (py_len_of pre + py_len_of (enc_options os ++ pad)) (py_len_of pre) mss
  = Ok (foldl mss_of mss os).
Proof.
  intros Hos Hpad. revert fuel pre mss.
  induction Hos as [|o os Ho Hos IH]; intros fuel pre mss Hfuel;
    (destruct fuel as [|fuel]; [unfold py_len_of in Hfuel; lia |]).
  { cbn [enc_options mbind list_bind app foldl] in *. cbn [tcp_options].
    destruct (Z.ltb_spec (py_len_of pre + 1) (py_len_of pre + py_len_of pad)) as [Hlt|]; [|done].
    destruct pad as [|b pad]; [change (py_len_of []) with 0 in Hlt; lia |]. subst b.
    cbn [app]. by rewrite byte_at_mid. }
  rewrite enc_options_cons in *. pose proof (enc_option_length o) as Hlen.
  rewrite <-!app_assoc in *. rewrite !py_len_app in *.
  pose proof (py_len_nonneg (enc_options os)). pose proof (py_len_nonneg pad).
  assert (Hnext : ∀ mss', tcp_options fuel (pre ++ enc_option o ++ enc_options os ++ pad ++ rest)
    (py_len_of pre + (py_len_of (enc_option o) + (py_len_of (enc_options os) + py_len_of pad)))
    (py_len_of pre + py_len_of (enc_option o)) mss' = Ok (foldl mss_of mss' os)).
  { intros mss'. specialize (IH fuel (pre ++ enc_option o) mss'). rewrite <-!app_assoc, !py_len_app in IH.
    rewrite <-IH by lia. f_equal; lia. }
  destruct o as [|kind data]; cbn [enc_option app foldl mss_of] in *.
  - rewrite py_len_cons in *. cbn [tcp_options].
    destruct (Z.ltb_spec (py_len_of pre + 1)
      (py_len_of pre + (1 + py_len_of [] + (py_len_of (enc_options os) + py_len_of pad)))) as [Hlt|Hge].
    + rewrite byte_at_mid. cbn [mbind result_bind Z.eqb Pos.eqb]. by rewrite <-Hnext.
    + destruct os as [|o os]; [done |]. rewrite enc_options_cons, py_len_app in Hge.
      pose proof (enc_option_length o). pose proof (py_len_nonneg (enc_options os)).
      pose proof (py_len_nonneg []). lia.
  - rewrite !py_len_cons in *. pose proof (py_len_nonneg data) as Hd. destruct Ho as [Hk0 Hk1].
    cbn [tcp_options]. rewrite (proj2 (Z.ltb_lt _ _)) by lia.
    rewrite byte_at_mid, byte_at_next. cbn [mbind result_bind].
    rewrite (proj2 (Z.eqb_neq kind 0)), (proj2 (Z.eqb_neq kind 1)) by done.
    rewrite (proj2 (Z.leb_gt _ _)) by lia.
    rewrite (proj2 (Z.ltb_ge _ _)) by lia.
    replace (py_len_of pre + (2 + py_len_of data)) with (py_len_of pre + (1 + (1 + py_len_of data))) by lia.
    destruct ((kind =? 2) && (2 + py_len_of data =? 4) && _) eqn:Hm.
    + rewrite !andb_true_iff in Hm. destruct Hm as [[->%Z.eqb_eq Hl%Z.eqb_eq] _].
      destruct data as [|hi [|lo [|x data]]]; unfold py_len_of in Hl; cbn [length] in Hl; try lia.
      rewrite py_slice_app by lia.
      rewrite (py_slice_at [2; 2 + py_len_of [hi; lo]] [hi; lo] (enc_options os ++ pad ++ rest)) by done.
      change (Some <$> unpack_H [hi; lo]) with (Ok (Some (be16 hi lo))). cbn [mbind result_bind].
      by rewrite Hnext.
    + cbn [mbind result_bind]. rewrite Hnext. f_equal. f_equal.
      destruct data as [|hi [|lo [|x data]]]; try done. destruct (Z.eqb_spec kind 2); [|done]. subst.
      change (py_len_of [hi; lo]) with 2 in *. cbn in Hm. apply Z.leb_gt in Hm. lia.
Qed.

(** *** The tags *)
Definition first_type (tags : list (Z * Z)) (etype : Z) : Z :=
  match tags with [] => etype | (tpid, _) :: _ => tpid end.
Definition after_type (tags : list (Z * Z)) (etype : Z) : list Z :=
  match tags with [] => [] | (_, tci) :: tags => enc16 tci ++ enc_types tags etype end.

Lemma enc_types_split tags etype :
  enc_types tags etype = enc16 (first_type tags etype) ++ after_type tags etype.
Proof. by destruct tags as [|[]]. Qed.

Definition tag_ok (t : Z * Z) : Prop := is_vlan t.1 = true.

Lemma is_vlan_word t : is_vlan t = true → is_word t.
Proof. unfold is_vlan, is_word, ETHERTYPE_VLAN, ETHERTYPE_QINQ. lia. Qed.

Lemma first_type_word tags etype : Forall tag_ok tags → is_word etype → is_word (first_type tags etype).
Proof. intros [|[] ? H] He; [done |]. by apply is_vlan_word. Qed.

Lemma set_link_id v : set_link (fv_is_etherII v) (fv_l2_header_len v) (fv_vlan_tags v) v = v.
Proof. by destruct v. Qed.

Lemma vlan_tags_enc tags fuel v pre etype rest :
  Forall tag_ok tags → is_vlan etype = false → is_word etype → (length tags < fuel)%nat →
  fv_l2_header_len v = py_len_of pre →
  vlan_tags fuel v (pre ++ after_type tags etype ++ rest) (first_type tags etype) (py_len_of pre)
  = Ok (inr (set_link (fv_is_etherII v) (py_len_of pre + 4 * Z.of_nat (length tags))
               (fv_vlan_tags v + Z.of_nat (length tags)) v,
             etype, py_len_of pre + 4 * Z.of_nat (length tags))).
Proof.
  intros Htags He Hw. revert fuel v pre.
  induction Htags as [|[tpid tci] tags Ht Htags IH]; intros fuel v pre Hfuel Hl2;
    (destruct fuel as [|fuel]; [cbn in Hfuel; lia |]); cbn [vlan_tags first_type after_type].
  { rewrite He. cbn [length]. change (Z.of_nat 0) with 0. rewrite Z.mul_0_r, !Z.add_0_r, <-Hl2.
    by rewrite set_link_id. }
  unfold tag_ok in Ht. cbn [fst] in Ht. rewrite Ht.
  rewrite (enc_types_split tags). pose proof (first_type_word tags etype Htags Hw) as Hfw.
  set (ty := first_type tags etype) in *.
  replace (py_len_of (pre ++ _) <? _) with false.
  2:{ symmetry. apply Z.ltb_ge. rewrite !py_len_app. change (py_len_of (enc16 _)) with 2.
      pose proof (py_len_nonneg (after_type tags etype)). pose proof (py_len_nonneg rest). lia. }
  rewrite <-!app_assoc, (app_assoc pre).
  rewrite (py_slice_at (pre ++ enc16 tci) (enc16 ty) (after_type tags etype ++ rest));
    [| by rewrite py_len_app | change (py_len_of (enc16 ty)) with 2; lia].
  change (unpack_H (enc16 ty)) with (Ok (be16 (ty / 256) (ty mod 256))). rewrite be16_enc by done.
  cbn [mbind result_bind].
  assert (Hpre : py_len_of pre + 4 = py_len_of ((pre ++ enc16 tci) ++ enc16 ty)).
  { rewrite !py_len_app. change (py_len_of (enc16 _)) with 2. lia. }
  rewrite Hpre, (app_assoc (pre ++ enc16 tci)).
  rewrite IH; [| cbn in Hfuel; lia | done]. cbn [set_link fv_is_etherII fv_vlan_tags].
  rewrite <-Hpre.
  assert (py_len_of pre + 4 + 4 * Z.of_nat (length tags)
    = py_len_of pre + 4 * Z.of_nat (length ((tpid, tci) :: tags))) as -> by (cbn [length]; lia).
  assert (fv_vlan_tags v + 1 + Z.of_nat (length tags)
    = fv_vlan_tags v + Z.of_nat (length ((tpid, tci) :: tags))) as -> by (cbn [length]; lia).
  done.
Qed.

(** *** The IPv4 header and the transport *)
Lemma words_of_options n :
  0 ≤ n → n mod 4 = 0 → n ≤ 40 →
  (20 + n) / 4 = 5 + n / 4 ∧ 20 + n = (5 + n / 4) * 4 ∧ n / 4 ∈ [0; 1; 2; 3; 4; 5; 6; 7; 8; 9; 10].
Proof.
  intros Hn Hm Hle. pose proof (Z.div_mod n 4 ltac:(lia)) as Hd.
  split; [replace (20 + n) with (5 * 4 + n) by lia; by rewrite Z.div_add_l |].
  split; [lia |]. repeat rewrite elem_of_cons. lia.
Qed.

Lemma ihl_nibble h :
  ipv4_ok h → Z.shiftr (64 + ihl_bytes h / 4) 4 = 4 ∧ Z.land (64 + ihl_bytes h / 4) 15 * 4 = ihl_bytes h.
Proof.
  intros [_ [Hm Hle]]. unfold ihl_bytes.
  destruct (words_of_options _ (py_len_nonneg (i4_options h)) Hm Hle) as (-> & -> & Hq).
  repeat (apply elem_of_cons in Hq as [->|Hq]; [done |]). by apply elem_of_nil in Hq.
Qed.

Lemma flags_frag_bits h :
  Z.land (flags_frag h) 8191 = 0 ∧ negb (Z.land (flags_frag h) 16384 =? 0) = i4_df h ∧
  negb (Z.land (flags_frag h) 8192 =? 0) = i4_mf h ∧ is_word (flags_frag h).
Proof. unfold flags_frag, is_word. by destruct (i4_df h), (i4_mf h). Qed.

Lemma data_offset_nibble h :
  tcp_ok h → Z.land (Z.shiftr (data_offset h / 4 * 16) 4) 15 * 4 = data_offset h.
Proof.
  intros [_ _ _ _ _ [Hm Hle]]. unfold data_offset.
  destruct (words_of_options _ (py_len_nonneg (option_area h)) Hm Hle) as (-> & -> & Hq).
  repeat (apply elem_of_cons in Hq as [->|Hq]; [done |]). by apply elem_of_nil in Hq.
Qed.

(** The fixed parts of the headers. *)
Definition tcp_fixed (h : TcpHeader) : list Z :=
  enc16 (tc_sport h) ++ enc16 (tc_dport h) ++ enc16 (tc_seq h).1 ++ enc16 (tc_seq h).2
  ++ enc16 (tc_ack h).1 ++ enc16 (tc_ack h).2 ++ [data_offset h / 4 * 16; tc_flags h]
  ++ enc16 (tc_window h) ++ enc16 (tc_csum h) ++ enc16 (tc_urgent h).

Lemma enc_tcp_fixed h : enc_tcp h = tcp_fixed h ++ option_area h.
Proof. done. Qed.

Lemma py_slice_prefix (l rest : list Z) a b :
  0 ≤ a → 0 ≤ b → b ≤ py_len_of l → py_slice a b (l ++ rest) = py_slice a b l.
Proof.
  unfold py_len_of. intros Ha Hb Hl. unfold py_slice, slice_bound. rewrite length_app.
  destruct (Z.ltb_spec a 0), (Z.ltb_spec b 0); try lia.
  replace (Z.to_nat (Z.min (Z.of_nat (length l + length rest)) b)) with (Z.to_nat b) by lia.
  replace (Z.to_nat (Z.min (Z.of_nat (length l)) b)) with (Z.to_nat b) by lia.
  destruct (Z.le_gt_cases b a).
  { replace (Z.to_nat b - _)%nat with 0%nat by lia. replace (Z.to_nat b - _)%nat with 0%nat by lia. done. }
  replace (Z.to_nat (Z.min (Z.of_nat (length l + length rest)) a)) with (Z.to_nat a) by lia.
  replace (Z.to_nat (Z.min (Z.of_nat (length l)) a)) with (Z.to_nat a) by lia.
  rewrite drop_app_le by lia. rewrite take_app_le; [done |]. rewrite length_drop. lia.
Qed.

Lemma byte_at_prefix (l rest : list Z) i :
  0 ≤ i < py_len_of l → byte_at (l ++ rest) i = byte_at l i.
Proof.
  unfold py_len_of, byte_at. intros Hi. destruct (Z.ltb_spec i 0); [done |].
  by rewrite lookup_app_l by lia.
Qed.

Lemma decode_l4_enc v pre h payload :
  tcp_ok h → fv_l3_proto v = "tcp" → no_transport v →
  decode_l4 v (pre ++ enc_tcp h ++ payload) (py_len_of pre) =
  Ok (set_transport (Some (tc_sport h)) (Some (tc_dport h)) (Some (tc_flags h)) (Some (tc_window h))
        (Some (data_offset h)) None None (foldl mss_of None (tc_options h)) v).
Proof.
  intros Ht Hp (_ & _ & _ & _ & _ & Hul & Hic & Hms). pose proof (data_offset_nibble h Ht) as Hnib.
  destruct Ht as [Hs Hd Hw Hos Hpad [_ Hle]]. unfold decode_l4.
  rewrite Hp, bool_decide_true, Hul, Hic, Hms by done. rewrite enc_tcp_fixed, <-app_assoc.
  assert (Hfix : py_len_of (tcp_fixed h) = 20) by done.
  assert (Hlen : py_len_of (pre ++ tcp_fixed h ++ option_area h ++ payload)
    = py_len_of pre + data_offset h + py_len_of payload).
  { rewrite !py_len_app, Hfix. unfold data_offset. lia. }
  pose proof (py_len_nonneg payload) as Hpl. pose proof (py_len_nonneg (option_area h)) as Hn.
  assert (Ho : data_offset h = 20 + py_len_of (option_area h)) by done. rewrite Hlen.
  rewrite (proj2 (Z.leb_le _ _)) by lia. cbn [andb].
  replace (py_slice (py_len_of pre) (py_len_of pre + 4) _) with (py_slice 0 4 (tcp_fixed h)).
  2:{ rewrite <-(Z.add_0_r (py_len_of pre)) at 1. rewrite py_slice_app by lia.
      by rewrite py_slice_prefix. }
  replace (py_slice (py_len_of pre + 14) (py_len_of pre + 16) _) with (py_slice 14 16 (tcp_fixed h)).
  2:{ rewrite py_slice_app by lia. by rewrite py_slice_prefix. }
  rewrite !byte_at_app, !byte_at_prefix by (rewrite ?Hfix; lia).
  change (unpack_HH (py_slice 0 4 (tcp_fixed h))) with
    (Ok (be16 (tc_sport h / 256) (tc_sport h mod 256), be16 (tc_dport h / 256) (tc_dport h mod 256))).
  change (unpack_H (py_slice 14 16 (tcp_fixed h))) with
    (Ok (be16 (tc_window h / 256) (tc_window h mod 256))).
  change (byte_at (tcp_fixed h) 13) with (Ok (tc_flags h)).
  change (byte_at (tcp_fixed h) 12) with (Ok (data_offset h / 4 * 16)).
  rewrite !be16_enc by done. cbn [mbind result_bind fst snd]. rewrite Hnib.
  rewrite Z.min_l by lia. rewrite app_assoc. unfold option_area.
  replace (py_len_of pre + 20) with (py_len_of (pre ++ tcp_fixed h)) by (rewrite py_len_app; lia).
  replace (py_len_of pre + data_offset h) with
    (py_len_of (pre ++ tcp_fixed h) + py_len_of (enc_options (tc_options h) ++ tc_padding h))
    by (rewrite py_len_app; unfold option_area in Ho; lia).
  rewrite tcp_options_enc; [done | done | done | lia].
Qed.

Definition ipv4_fixed (h : Ipv4Header) (proto : Z) : list Z :=
  [64 + ihl_bytes h / 4; i4_tos h] ++ enc16 (i4_total h) ++ enc16 (i4_ident h) ++ enc16 (flags_frag h)
  ++ [i4_ttl h; proto] ++ enc16 (i4_csum h) ++ addr_bytes (i4_src h) ++ addr_bytes (i4_dst h).

Lemma enc_ipv4_fixed h proto : enc_ipv4 h proto = ipv4_fixed h proto ++ i4_options h.
Proof. unfold enc_ipv4, ipv4_fixed. by rewrite <-!app_assoc. Qed.

Lemma ipv4_fixed_reads h proto :
  py_len_of (ipv4_fixed h proto) = 20 ∧
  byte_at (ipv4_fixed h proto) 0 = Ok (64 + ihl_bytes h / 4) ∧
  py_slice 2 4 (ipv4_fixed h proto) = enc16 (i4_total h) ∧
  py_slice 6 8 (ipv4_fixed h proto) = enc16 (flags_frag h) ∧
  byte_at (ipv4_fixed h proto) 8 = Ok (i4_ttl h) ∧
  byte_at (ipv4_fixed h proto) 9 = Ok proto ∧
  py_slice 12 16 (ipv4_fixed h proto) = addr_bytes (i4_src h) ∧
  py_slice 16 20 (ipv4_fixed h proto) = addr_bytes (i4_dst h).
Proof. unfold ipv4_fixed. by destruct (i4_src h) as [[[]]], (i4_dst h) as [[[]]]. Qed.

Lemma py_len_enc_ipv4 h proto : py_len_of (enc_ipv4 h proto) = ihl_bytes h.
Proof. rewrite enc_ipv4_fixed, py_len_app. by rewrite (proj1 (ipv4_fixed_reads h proto)). Qed.

Lemma unpack_enc16 w : is_word w → unpack_H (enc16 w) = Ok w.
Proof.
  intros Hw. change (unpack_H (enc16 w)) with (Ok (be16 (w / 256) (w mod 256))). by rewrite be16_enc.
Qed.

Lemma decode_ipv4_enc v pre h rest :
  ipv4_ok h →
  decode_ipv4 v (pre ++ enc_ipv4 h 6 ++ rest) (py_len_of pre) =
  decode_l4
    (set_proto (fv_ethertype v) "tcp"
       (set_ip (ihl_bytes h) (i4_total h) (i4_ttl h) (i4_df h) (i4_mf h) 0
          (format_ipv4 (addr_bytes (i4_src h))) (format_ipv4 (addr_bytes (i4_dst h))) v))
    (pre ++ enc_ipv4 h 6 ++ rest) (py_len_of pre + ihl_bytes h).
Proof.
  intros Hh. destruct (ihl_nibble h Hh) as [Hv Hi]. destruct (flags_frag_bits h) as (Hf & Hdf & Hmf & Hfw).
  destruct (ipv4_fixed_reads h 6) as (Hlen & R1 & R2 & R3 & R4 & R5 & R6 & R7). unfold decode_ipv4.
  replace (py_len_of _ <? py_len_of pre + 20) with false.
  2:{ symmetry. apply Z.ltb_ge. rewrite enc_ipv4_fixed, !py_len_app, Hlen.
      pose proof (py_len_nonneg (i4_options h)). pose proof (py_len_nonneg rest). lia. }
  replace (py_slice (py_len_of pre) (py_len_of pre + 20) _) with (ipv4_fixed h 6).
  2:{ rewrite enc_ipv4_fixed, <-app_assoc. symmetry. apply py_slice_at; [done | by rewrite Hlen]. }
  rewrite R1. cbn [mbind result_bind]. rewrite Hv. cbn [Z.eqb Pos.eqb negb].
  rewrite R2, R3, R4, R5, R6, R7, !unpack_enc16 by first [done | apply Hh]. cbn [mbind result_bind].
  by rewrite Hf, Hdf, Hmf, Hi.
Qed.

Lemma after_type_length tags etype : py_len_of (after_type tags etype) = 4 * Z.of_nat (length tags).
Proof.
  destruct tags as [|[a b] tags]; [done |]. cbn [after_type]. rewrite py_len_app.
  change (py_len_of (enc16 b)) with 2.
  assert (py_len_of (enc_types tags etype) = 2 + 4 * Z.of_nat (length tags)) as ->; [|cbn [length]; lia].
  clear. induction tags as [|[a b] tags IH]; [done |]. cbn [enc_types]. rewrite !py_len_app, IH.
  change (py_len_of (enc16 a)) with 2. change (py_len_of (enc16 b)) with 2. cbn [length]. lia.
Qed.

(** The payload of the last type field. *)
Lemma decode_payload_enc v pre ip tcp payload :
  ipv4_ok ip → tcp_ok tcp → no_transport v →
  decode_payload v (pre ++ enc_ipv4 ip 6 ++ enc_tcp tcp ++ payload) ETHERTYPE_IPV4 (py_len_of pre) =
  Ok (set_transport (Some (tc_sport tcp)) (Some (tc_dport tcp)) (Some (tc_flags tcp))
        (Some (tc_window tcp)) (Some (data_offset tcp)) None None (foldl mss_of None (tc_options tcp))
        (set_proto (Some ETHERTYPE_IPV4) "tcp"
           (set_ip (ihl_bytes ip) (i4_total ip) (i4_ttl ip) (i4_df ip) (i4_mf ip) 0
              (format_ipv4 (addr_bytes (i4_src ip))) (format_ipv4 (addr_bytes (i4_dst ip))) v))).
Proof.
  intros Hip Htcp Hno. unfold decode_payload. cbn [Z.eqb Pos.eqb ETHERTYPE_IPV4 ETHERTYPE_ARP].
  rewrite decode_ipv4_enc by done. rewrite <-(py_len_enc_ipv4 ip 6), <-py_len_app, app_assoc.
  by rewrite decode_l4_enc.
Qed.

(** Decoding an encoded frame gives back its header fields. *)
Lemma decode_enc_frame dst src tags ip tcp payload :
  length dst = 6%nat → length src = 6%nat → Forall tag_ok tags → ipv4_ok ip → tcp_ok tcp →
  decode_frame (enc_frame dst src tags ip tcp payload) = Ok (Some (view_of dst src tags ip tcp)).
Proof.
  intros Hdst Hsrc Htags Hip Htcp. unfold decode_frame, enc_frame.
  set (rest := enc_ipv4 ip 6 ++ enc_tcp tcp ++ payload).
  rewrite enc_types_split, <-!app_assoc. set (ty := first_type tags ETHERTYPE_IPV4).
  pose proof (first_type_word tags ETHERTYPE_IPV4 Htags ltac:(done)) as Hty.
  set (buf := dst ++ src ++ enc16 ty ++ after_type tags ETHERTYPE_IPV4 ++ rest).
  assert (Hd : py_len_of dst = 6) by (unfold py_len_of; lia).
  assert (Hs : py_len_of src = 6) by (unfold py_len_of; lia).
  assert (Hlen : 14 + 4 * Z.of_nat (length tags) ≤ py_len_of buf).
  { unfold buf. rewrite !py_len_app, Hd, Hs. change (py_len_of (enc16 ty)) with 2.
    rewrite after_type_length.
    pose proof (py_len_nonneg rest). lia. }
  rewrite (proj2 (Z.ltb_ge _ _)) by lia.
  assert (py_slice 0 6 buf = dst) as -> by (apply py_slice_0; unfold py_len_of in Hd; lia).
  assert (py_slice 6 12 buf = src) as -> by (apply py_slice_at; lia).
  assert (py_slice 12 14 buf = enc16 ty) as ->.
  { unfold buf. rewrite (app_assoc dst). apply py_slice_at; [rewrite py_len_app; lia | done]. }
  rewrite unpack_enc16 by done. cbn [mbind result_bind]. unfold link_payload.
  assert (Hbig : 1500 < ty).
  { unfold ty. destruct Htags as [|[a b] tags' Ht]; [done |]. cbn.
    unfold tag_ok, is_vlan, ETHERTYPE_VLAN, ETHERTYPE_QINQ in Ht. cbn in Ht. lia. }
  rewrite (proj2 (Z.leb_gt _ _)) by lia. cbn [mbind result_bind].
  set (pre := dst ++ src ++ enc16 ty).
  assert (Hpre : py_len_of pre = 14) by (unfold pre; rewrite !py_len_app, Hd, Hs; done).
  assert (Hbuf : buf = pre ++ after_type tags ETHERTYPE_IPV4 ++ rest).
  { unfold buf, pre. by rewrite <-!app_assoc. }
  rewrite Hbuf, <-Hpre. unfold ty. rewrite vlan_tags_enc; [| done | done | done | | by rewrite Hpre].
  2:{ rewrite <-Hbuf. unfold py_len_of in Hlen. lia. }
  cbn [mbind result_bind].
  replace (py_len_of pre + 4 * Z.of_nat (length tags)) with
    (py_len_of (pre ++ after_type tags ETHERTYPE_IPV4)) by by rewrite py_len_app, after_type_length.
  rewrite app_assoc. unfold rest. rewrite decode_payload_enc by done. cbn [fmap result_fmap].
  rewrite py_len_app, after_type_length, Hpre. done.
Qed.
