(* ===== verification/DsWindowSortFacts.v ===== *)
(** * The external sort is the stable sort

    A sorted list is determined by its rows of each window in order, so a stable
    merge of sorted chunks is the stable sort of all rows; and what the merging
    passes do to the temporary files and the open readers. *)

From S2P Require Import Prelude PyString Json DsWindowSort.

(** ** Stable order *)
Abbreviation of_window w := (filter (λ r, row_window_id r = w)).
Abbreviation sorted := (StronglySorted window_leb).

Definition same_rows (l1 l2 : list Row) : Prop := ∀ w, of_window w l1 = of_window w l2.

#[export] Instance same_rows_equiv : Equivalence same_rows.
Proof. split; [done | by intros x y H w | by intros x y z H1 H2 w; rewrite H1]. Qed.
#[export] Instance app_same_rows : Proper (same_rows ==> same_rows ==> same_rows) (@app Row).
Proof. intros x x' Hx y y' Hy w. by rewrite !filter_app, Hx, Hy. Qed.

Lemma window_leb_spec x y : Is_true (window_leb x y) ↔ row_window_id x ≤ row_window_id y.
Proof. unfold window_leb. by rewrite Is_true_true, Z.leb_le. Qed.

Lemma window_leb_total x y : window_leb x y = true ∨ window_leb y x = true.
Proof. unfold window_leb. rewrite !Z.leb_le. lia. Qed.
Lemma window_leb_trans x y z : window_leb x y = true → window_leb y z = true → window_leb x z = true.
Proof. unfold window_leb. rewrite !Z.leb_le. lia. Qed.

Lemma of_window_none w l : Forall (λ r, row_window_id r ≠ w) l → of_window w l = [].
Proof. induction 1 as [|r l Hr _ IH]; [done |]. by rewrite filter_cons_False. Qed.

Lemma sorted_cons x l : sorted (x :: l) ↔ sorted l ∧ Forall (λ r, row_window_id x ≤ row_window_id r) l.
Proof.
  split.
  - intros [Hs Hx]%StronglySorted_inv. split; [done |].
    eapply Forall_impl; [exact Hx |]. intros r. apply window_leb_spec.
  - intros [Hs Hx]. constructor; [done |]. eapply Forall_impl; [exact Hx |]. intros r. apply window_leb_spec.
Qed.

(** The least window of a sorted list with a given content. *)
Lemma sorted_head_le x l1 y l2 :
  sorted (x :: l1) → same_rows (x :: l1) (y :: l2) → row_window_id x ≤ row_window_id y.
Proof.
  intros [_ Hx]%sorted_cons Hsame. specialize (Hsame (row_window_id y)).
  assert (Hy : y ∈ of_window (row_window_id y) (x :: l1)).
  { rewrite Hsame. apply list_elem_of_filter. set_solver. }
  apply list_elem_of_filter in Hy as [_ [->|Hy]%elem_of_cons]; [done |].
  rewrite Forall_forall in Hx. by apply Hx.
Qed.

Lemma sorted_same_eq l1 l2 : sorted l1 → sorted l2 → same_rows l1 l2 → l1 = l2.
Proof.
  revert l2. induction l1 as [|x l1 IH]; intros [|y l2] H1 H2 Hsame; [done | | |].
  - specialize (Hsame (row_window_id y)). by rewrite filter_cons_True in Hsame.
  - specialize (Hsame (row_window_id x)). by rewrite filter_cons_True in Hsame.
  - assert (Hk : row_window_id x = row_window_id y).
    { apply (anti_symm (≤)); [by eapply sorted_head_le |]. by eapply sorted_head_le, symmetry. }
    assert (x = y) as ->.
    { specialize (Hsame (row_window_id x)). rewrite !filter_cons_True in Hsame by done. by injection Hsame. }
    f_equal. apply sorted_cons in H1 as [H1 _], H2 as [H2 _]. apply IH; [done | done |].
    intros w. specialize (Hsame w). rewrite !filter_cons in Hsame. case_decide; [|done]. by injection Hsame.
Qed.

Lemma insert_same x l : same_rows (insert_sorted window_leb x l) (x :: l).
Proof.
  induction l as [|y l IH]; cbn; [done |]. destruct (window_leb x y) eqn:Hxy; [done |].
  apply Z.leb_gt in Hxy. intros w. specialize (IH w). rewrite (filter_cons _ y), IH, !filter_cons.
  repeat case_decide; done || lia.
Qed.

Lemma isort_same l : same_rows (isort window_leb l) l.
Proof.
  induction l as [|x l IH]; cbn; [done |]. intros w. rewrite (insert_same x _ w), !filter_cons.
  case_decide; by rewrite (IH w).
Qed.

Lemma isort_window_sorted l : sorted (isort window_leb l).
Proof. apply isort_sorted; [apply window_leb_total | apply window_leb_trans]. Qed.

Lemma stable_unique l rows : sorted l → same_rows l rows → l = isort window_leb rows.
Proof.
  intros Hs Hsame. apply sorted_same_eq; [done | apply isort_window_sorted |].
  by rewrite Hsame, isort_same.
Qed.

(** ** The merge *)
Lemma take_min_spec ls :
  Forall sorted ls →
  match take_min ls with
  | None => concat ls = []
  | Some (r, ls') => Forall sorted ls' ∧
      Forall (λ x, row_window_id r ≤ row_window_id x) (concat ls) ∧
      same_rows (concat ls) (r :: concat ls') ∧ length (concat ls) = S (length (concat ls'))
  end.
Proof.
  induction 1 as [|l ls Hl Hls IH]; cbn; [done |]. destruct l as [|x l].
  - destruct (take_min ls) as [[r ls']|]; [|done]. cbn. destruct IH as (? & ? & ? & ?).
    split_and!; [by constructor | done..].
  - apply sorted_cons in Hl as [Hl Hx].
    assert (Hxx : Forall (λ y, row_window_id x ≤ row_window_id y) (x :: l)) by (by constructor).
    destruct (take_min ls) as [[r ls']|].
    + destruct IH as (Hs & Hr & Hsame & Hlen). destruct (window_leb x r) eqn:Hxr.
      * apply Z.leb_le in Hxr. cbn. split_and!; [by constructor | | done | done].
        change (x :: l ++ concat ls) with ((x :: l) ++ concat ls).
        apply Forall_app. split; [done |]. eapply Forall_impl; [exact Hr |]. cbn. lia.
      * apply Z.leb_gt in Hxr. cbn. split_and!.
        -- constructor; [by apply sorted_cons | done].
        -- change (x :: l ++ concat ls) with ((x :: l) ++ concat ls).
           apply Forall_app. split; [|done]. eapply Forall_impl; [exact Hxx |]. cbn. lia.
        -- change (x :: l ++ ?c) with ((x :: l) ++ c). intros w.
           rewrite (filter_app _ (x :: l)), (Hsame w).
           destruct (decide (row_window_id r = w)) as [Hw|Hw].
           ++ rewrite !(filter_cons_True _ r), filter_app by done.
              rewrite (of_window_none w (x :: l)); [done |].
              eapply Forall_impl; [exact Hxx |]. cbn. lia.
           ++ by rewrite !(filter_cons_False _ r), filter_app by done.
        -- rewrite !length_app, Hlen. lia.
    + cbn. rewrite IH. split_and!; [by constructor | by rewrite app_nil_r | done | done].
Qed.

Lemma heap_merge_spec ls :
  Forall sorted ls → sorted (heap_merge ls) ∧ same_rows (heap_merge ls) (concat ls).
Proof.
  unfold heap_merge. remember (length (concat ls)) as n eqn:Hn.
  revert ls Hn. induction n as [|n IH]; intros ls Hn Hls; cbn.
  { split; [constructor |]. by destruct (concat ls). }
  pose proof (take_min_spec ls Hls) as Hm. destruct (take_min ls) as [[r ls']|].
  - destruct Hm as (Hs & Hr & Hsame & Hlen). destruct (IH ls') as [Hs' Hsame']; [lia | done |].
    split.
    + apply sorted_cons. split; [done |]. apply Forall_forall. intros x Hx.
      assert (Hx' : x ∈ concat ls).
      { assert (Hw : x ∈ of_window (row_window_id x) (concat ls)); [|by apply list_elem_of_filter in Hw as [_ ?]].
        rewrite (Hsame _), filter_cons, <-(Hsame' _). case_decide; [apply list_elem_of_further |];
          by apply list_elem_of_filter. }
      rewrite Forall_forall in Hr. by apply Hr.
    + intros w. rewrite (Hsame w), !filter_cons. by case_decide; rewrite (Hsame' w).
  - by rewrite Hm in Hn.
Qed.

(** ** Groups *)
Lemma grouped_fuel_spec {A} fuel n (l : list A) :
  (1 ≤ n)%nat → (length l ≤ fuel)%nat →
  concat (grouped_fuel fuel n l) = l ∧
  Forall (λ g, g ≠ [] ∧ (length g ≤ n)%nat) (grouped_fuel fuel n l) ∧
  (length (grouped_fuel fuel n l) ≤ length l)%nat.
Proof.
  intros Hn. revert l. induction fuel as [|fuel IH]; intros [|x l] Hl; cbn [grouped_fuel]; try done.
  { cbn in Hl. lia. }
  destruct (IH (drop n (x :: l))) as (Hc & Hf & Hlen).
  { rewrite length_drop. cbn in *. lia. }
  split_and!.
  - cbn [concat]. by rewrite Hc, take_drop.
  - constructor; [|done]. rewrite length_take. split; [|lia]. by destruct n; [lia |].
  - cbn [length]. rewrite length_drop in Hlen. cbn in Hlen. lia.
Qed.

Lemma grouped_spec {A} n (l : list A) :
  (1 ≤ n)%nat →
  concat (grouped n l) = l ∧ Forall (λ g, g ≠ [] ∧ (length g ≤ n)%nat) (grouped n l).
Proof. intros Hn. destruct (grouped_fuel_spec (length l) n l) as (? & ? & _); done. Qed.

(** A pass makes the level shorter. *)
Lemma grouped_shorter {A} n (l : list A) :
  (2 ≤ n)%nat → (n < length l)%nat → (length (grouped n l) < length l)%nat.
Proof.
  intros Hn Hl. unfold grouped. destruct l as [|x l]; [cbn in Hl; lia |]. cbn [length grouped_fuel].
  destruct (grouped_fuel_spec (length l) n (drop n (x :: l))) as (_ & _ & Hlen); [lia | |];
    rewrite length_drop in *; cbn [length] in *; lia.
Qed.

(** ** Files *)
Definition has_files (s : WindowSorter) (ps : list TempPath) (cs : list (list Row)) : Prop :=
  Forall2 (λ p c, ws_files s !! p = Some c) ps cs.

(** Every file is live. *)
Definition tidy (s : WindowSorter) : Prop := dom (ws_files s) ⊆ ws_live_paths s.

Lemma read_files_run ps cs s : has_files s ps cs → read_files ps s = (Ok cs, s).
Proof.
  induction 1 as [|p c ps cs Hp _ IH]; cbn; [done |]. unfold mbind, M_bind, read_file.
  rewrite Hp. cbn. by rewrite IH.
Qed.

Lemma delete_all_lookup {A} (ps : list TempPath) (m : gmap TempPath A) q :
  foldr delete m ps !! q = if decide (q ∈ ps) then None else m !! q.
Proof.
  induction ps as [|p ps IH]; cbn [foldr]; [by rewrite decide_False by set_solver |].
  destruct (decide (q = p)) as [->|Hne].
  - rewrite lookup_delete_eq. by rewrite decide_True by set_solver.
  - rewrite lookup_delete_ne, IH by done.
    destruct (decide (q ∈ ps)); [rewrite decide_True by set_solver | rewrite decide_False by set_solver]; done.
Qed.

Lemma has_files_frame s s' ps cs :
  (∀ p, p ∈ ps → ws_files s' !! p = ws_files s !! p) → has_files s ps cs → has_files s' ps cs.
Proof.
  intros Hf. induction 1 as [|p c ps cs Hp _ IH]; [constructor |].
  constructor; [rewrite Hf; set_solver |]. apply IH. set_solver.
Qed.

(** What a merging step keeps. *)
Record merge_step (s s' : WindowSorter) : Prop := {
  mg_fan_in : ws_merge_fan_in s' = ws_merge_fan_in s;
  mg_counts : ws_rows_seen s' = ws_rows_seen s ∧ ws_inversions s' = ws_inversions s ∧
    ws_consumed s' = ws_consumed s;
  mg_open : ws_open_readers s' = ws_open_readers s;
  mg_max : (ws_max_open_readers s' ≤
    Nat.max (ws_max_open_readers s) (ws_open_readers s + ws_merge_fan_in s))%nat;
  mg_tidy : tidy s → tidy s';
}.

#[export] Instance merge_step_preorder : PreOrder merge_step.
Proof.
  split.
  - intros s. constructor; done || lia.
  - intros s1 s2 s3 [F1 (C1 & C2 & C3) O1 M1 T1] [F2 (C4 & C5 & C6) O2 M2 T2].
    constructor; [congruence | split_and!; congruence | congruence | lia | auto].
Qed.

(** The steps on a group of several chunks, as one change of the state. *)
Lemma merge_many_run pass_no g p1 p2 group cs s :
  let ps := p1 :: p2 :: group in
  let m := MergedPath pass_no g in
  m ∉ ps → has_files s ps cs →
  merge_group pass_no g ps s =
    (Ok m, mk_sorter (ws_chunk_rows s) (ws_merge_fan_in s)
       (foldr delete (<[m := heap_merge cs]> (<[m := []]> (ws_files s))) ps) (ws_chunks s)
       ({[m]} ∪ (ws_live_paths s ∖ list_to_set ps)) (ws_inversions s) (ws_max_inversion_windows s)
       (ws_rows_seen s) (ws_total_chunks_written s) (ws_merge_passes s) (ws_final_level_size s)
       (ws_open_readers s + length ps - length ps)
       (Nat.max (Nat.max (ws_max_open_readers s) (ws_open_readers s + length ps))
          (ws_open_readers s + length ps - length ps))
       (ws_last_wid s) (ws_buffer s) (ws_consumed s)).
Proof.
  intros ps m Hfresh Hfiles.
  assert (Hread : ∀ s', ws_files s' = <[m := []]> (ws_files s) → read_files ps s' = (Ok cs, s')).
  { intros s' Hs'. apply read_files_run. eapply has_files_frame, Hfiles.
    intros p Hp. rewrite Hs', lookup_insert_ne; [done | by intros <-]. }
  unfold merge_group, ps. cbv iota. fold ps m. unfold mbind, M_bind.
  destruct s. cbn in *. rewrite Hread by done. reflexivity.
Qed.

Lemma merge_group_run pass_no g group cs s :
  group ≠ [] → (length group ≤ ws_merge_fan_in s)%nat → MergedPath pass_no g ∉ group →
  has_files s group cs → Forall sorted cs →
  ∃ p c s', merge_group pass_no g group s = (Ok p, s') ∧ merge_step s s' ∧
    ws_files s' !! p = Some c ∧ sorted c ∧ same_rows c (concat cs) ∧
    (p ∈ group ∨ p = MergedPath pass_no g) ∧
    ∀ q, q ∉ group → q ≠ MergedPath pass_no g → ws_files s' !! q = ws_files s !! q.
Proof.
  intros Hne Hlen Hfresh Hfiles Hsorted. set (m := MergedPath pass_no g) in *.
  destruct group as [|p1 [|p2 group]]; [done | |].
  { inversion Hfiles as [|? c ? cs' Hp Hrest]; subst. inversion Hrest; subst.
    exists p1, c, s. apply Forall_cons in Hsorted as [Hc _].
    split_and!; [done | done | done | done | cbn; by rewrite app_nil_r | left; set_solver | done]. }
  destruct (heap_merge_spec cs Hsorted) as [Hhs Hsame].
  rewrite (merge_many_run pass_no g p1 p2 group cs s Hfresh Hfiles). fold m.
  set (ps := p1 :: p2 :: group) in *. rewrite Nat.add_sub. eexists m, (heap_merge cs), _.
  split; [reflexivity |]. split; [|split_and!; [|done | done | by right |]].
  - constructor; cbn [ws_merge_fan_in ws_rows_seen ws_inversions ws_consumed ws_open_readers
      ws_max_open_readers]; [done | done | done | lia |]. unfold tidy. cbn [ws_files ws_live_paths].
    intros Ht q Hq.
    apply elem_of_dom in Hq as [c Hq]. rewrite (delete_all_lookup ps) in Hq.
    case_decide as Hin; [done |]. destruct (decide (q = m)) as [->|Hqm]; [set_solver |].
    rewrite !lookup_insert_ne in Hq by done. apply elem_of_union_r, elem_of_difference.
    split; [apply Ht, elem_of_dom; by eexists |]. by rewrite elem_of_list_to_set.
  - cbn [ws_files]. rewrite (delete_all_lookup ps), decide_False by done. apply lookup_insert_eq.
  - intros q Hq Hqm. cbn [ws_files]. rewrite (delete_all_lookup ps), decide_False by done.
    by rewrite !lookup_insert_ne by done.
Qed.

(** *** A pass *)
Lemma merge_groups_run pass_no groups : ∀ g css s,
  Forall (λ group, group ≠ [] ∧ (length group ≤ ws_merge_fan_in s)%nat) groups →
  NoDup (concat groups) → (∀ i, (g ≤ i)%nat → MergedPath pass_no i ∉ concat groups) →
  Forall2 (has_files s) groups css → Forall (Forall sorted) css →
  ∃ ps cs s', merge_groups pass_no g groups s = (Ok ps, s') ∧ merge_step s s' ∧
    length ps = length groups ∧ NoDup ps ∧ has_files s' ps cs ∧ Forall sorted cs ∧
    same_rows (concat cs) (concat (concat css)) ∧
    (∀ p, p ∈ ps → p ∈ concat groups ∨ ∃ i, (g ≤ i)%nat ∧ p = MergedPath pass_no i) ∧
    ∀ q, q ∉ concat groups → (∀ i, (g ≤ i)%nat → q ≠ MergedPath pass_no i) →
      ws_files s' !! q = ws_files s !! q.
Proof.
  induction groups as [|group groups IH]; intros g css s Hg Hnd Hfresh Hfiles Hsorted.
  { inversion Hfiles; subst. exists [], [], s.
    split_and!; try done; try constructor; set_solver. }
  inversion Hfiles as [|? cs1 ? css' Hf1 Hfrest]; subst.
  apply Forall_cons in Hg as [[Hne Hlen] Hg], Hsorted as [Hs1 Hsorted].
  cbn [concat] in Hnd, Hfresh. apply NoDup_app in Hnd as (Hnd1 & Hdis & Hnd).
  destruct (merge_group_run pass_no g group cs1 s Hne Hlen) as
    (p & c & s1 & Hrun1 & Hst1 & Hp & Hcs & Hsame1 & Hpin & Hframe1); [|done | done |].
  { intros Hin. apply (Hfresh g (le_n g)). set_solver. }
  assert (Hrest : ∀ q, q ∈ concat groups → ws_files s1 !! q = ws_files s !! q).
  { intros q Hq. apply Hframe1; [set_solver |]. intros ->. apply (Hfresh g (le_n g)). set_solver. }
  destruct (IH (S g) css' s1) as (ps & cs & s2 & Hrun2 & Hst2 & Hl & Hndp & Hps & Hcss & Hsame2 & Hin2 & Hframe2).
  - by rewrite (mg_fan_in _ _ Hst1).
  - done.
  - intros i Hi Hin. apply (Hfresh i); [lia | set_solver].
  - clear -Hfrest Hrest. induction Hfrest as [|gr cr groups css Hh _ IH]; [constructor |].
    constructor; [eapply has_files_frame, Hh; set_solver | apply IH; set_solver].
  - done.
  - assert (Hpo : p ∉ concat groups ∧ ∀ i, (S g ≤ i)%nat → p ≠ MergedPath pass_no i).
    { destruct Hpin as [Hpin|Hpin]; [|subst p]; split.
      - set_solver.
      - intros i Hi ->. apply (Hfresh i); [lia | set_solver].
      - intros Hin. apply (Hfresh g (le_n g)). set_solver.
      - intros i Hi [= ->]. lia. }
    exists (p :: ps), (c :: cs), s2. cbn [merge_groups concat]. unfold mbind, M_bind. rewrite Hrun1, Hrun2.
    split_and!; [done | by etrans | cbn; by rewrite Hl | | | by constructor | | |].
    + constructor; [|done]. intros Hin. destruct (Hin2 p Hin) as [?|(i & Hi & ->)]; [by destruct Hpo |].
      by destruct (proj2 Hpo i Hi).
    + constructor; [|done]. rewrite Hframe2; [done | apply Hpo | apply Hpo].
    + cbn [concat]. by rewrite concat_app, Hsame1, Hsame2.
    + intros q [->|Hq]%elem_of_cons.
      * destruct Hpin as [?|Hpin]; [left; set_solver | right; by exists g].
      * destruct (Hin2 q Hq) as [?|(i & Hi & ->)]; [left; set_solver | right; exists i; split; [lia | done]].
    + intros q Hq Hi. rewrite Hframe2; [apply Hframe1 | |].
      * set_solver.
      * apply Hi. done.
      * set_solver.
      * intros i Hi'. apply Hi. lia.
Qed.

(** *** The passes *)
Lemma has_files_concat s groups cs :
  has_files s (concat groups) cs → ∃ css, Forall2 (has_files s) groups css ∧ concat css = cs.
Proof.
  revert cs. induction groups as [|gr groups IH]; intros cs Hf.
  { inversion Hf; subst. exists []. split; [constructor | done]. }
  cbn in Hf. apply Forall2_app_inv_l in Hf as (c1 & c2 & H1 & H2 & ->).
  destruct (IH c2 H2) as (css & Hc & <-). exists (c1 :: css). split; [by constructor | done].
Qed.

Lemma merge_levels_run fuel : ∀ pass_no levels cs s,
  (2 ≤ ws_merge_fan_in s)%nat → (length levels ≤ fuel)%nat → NoDup levels →
  (∀ a b, MergedPath a b ∈ levels → (a < pass_no)%nat) → has_files s levels cs → Forall sorted cs →
  ∃ n ps cs' s', merge_levels fuel pass_no levels s = (Ok (n, ps), s') ∧ merge_step s s' ∧
    (length ps ≤ ws_merge_fan_in s)%nat ∧ has_files s' ps cs' ∧ Forall sorted cs' ∧
    same_rows (concat cs') (concat cs).
Proof.
  induction fuel as [|fuel IH]; intros pass_no levels cs s Hf Hlen Hnd Hold Hfiles Hsorted.
  { exists pass_no, levels, cs, s. split_and!; done || lia. }
  cbn [merge_levels]. unfold mbind, M_bind, gets at 1.
  destruct (Nat.leb_spec (length levels) (ws_merge_fan_in s)) as [Hle|Hgt].
  { exists pass_no, levels, cs, s. split_and!; done. }
  set (f := ws_merge_fan_in s) in *.
  destruct (grouped_spec f levels) as [Hcat Hgr]; [lia |].
  destruct (has_files_concat s (grouped f levels) cs) as (css & Hcss & <-); [by rewrite Hcat |].
  destruct (merge_groups_run pass_no (grouped f levels) 0 css s) as
    (ps & cs1 & s1 & Hrun & Hst & Hl & Hndp & Hps & Hcs1 & Hsame & Hin & _).
  - done.
  - by rewrite Hcat.
  - intros i _ Hi. rewrite Hcat in Hi. specialize (Hold _ _ Hi). lia.
  - done.
  - by apply Forall_concat.
  - rewrite Hrun. pose proof (grouped_shorter f levels Hf Hgt).
    destruct (IH (S pass_no) ps cs1 s1) as (n & ps' & cs' & s2 & Hrun2 & Hst2 & Hl2 & Hps2 & Hcs2 & Hsame2).
    + by rewrite (mg_fan_in _ _ Hst).
    + lia.
    + done.
    + intros a b Hab. destruct (Hin _ Hab) as [Hab'|(i & _ & [= -> ->])]; [|lia].
      rewrite Hcat in Hab'. specialize (Hold _ _ Hab'). lia.
    + done.
    + done.
    + exists n, ps', cs', s2. rewrite Hrun2. rewrite (mg_fan_in _ _ Hst) in Hl2.
      split_and!; [done | by etrans | done | done | done | by rewrite Hsame2].
Qed.

(** ** Feeding *)
Fixpoint inversions (rows : list Row) : Z :=
  match rows with
  | x :: (y :: _) as tail => (if row_window_id y <? row_window_id x then 1 else 0) + inversions tail
  | _ => 0
  end.

Lemma inversions_snoc rows r :
  inversions (rows ++ [r]) = inversions rows +
    match last rows with
    | Some x => if row_window_id r <? row_window_id x then 1 else 0
    | None => 0
    end.
Proof.
  induction rows as [|x [|y rows] IH]; [done | cbn; lia |].
  change ((x :: y :: rows) ++ [r]) with (x :: y :: (rows ++ [r])).
  change (inversions (x :: y :: (rows ++ [r]))) with
    ((if row_window_id y <? row_window_id x then 1 else 0) + inversions ((y :: rows) ++ [r])).
  rewrite IH. change (last (x :: y :: rows)) with (last (y :: rows)).
  change (inversions (x :: y :: rows)) with
    ((if row_window_id y <? row_window_id x then 1 else 0) + inversions (y :: rows)). lia.
Qed.

(** The sorter after [rows] were added. *)
Record fed (rows : list Row) (s : WindowSorter) : Prop := {
  fd_content : ∃ cs, has_files s (ws_chunks s) cs ∧ Forall sorted cs ∧
    same_rows (concat cs ++ ws_buffer s) rows;
  fd_names : ws_chunks s = map ChunkPath (seq 0 (length (ws_chunks s)));
  fd_tidy : tidy s;
  fd_fan_in : (2 ≤ ws_merge_fan_in s)%nat;
  fd_rows : ws_rows_seen s = Z.of_nat (length rows);
  fd_inversions : ws_inversions s = inversions rows;
  fd_last : ws_last_wid s = row_window_id <$> last rows;
  fd_readers : ws_open_readers s = 0%nat ∧ ws_max_open_readers s = 0%nat;
  fd_fresh : ws_consumed s = false;
}.

Lemma new_sorter_fed chunk_rows fan_in s :
  new_sorter chunk_rows fan_in = Ok s →
  fed [] s ∧ ws_buffer s = [] ∧ Z.of_nat (ws_chunk_rows s) = chunk_rows ∧
  Z.of_nat (ws_merge_fan_in s) = Z.max 2 fan_in.
Proof.
  unfold new_sorter. intros (u & Hc & [= <-])%result_bind_ok. apply check_ok, Z.leb_le in Hc.
  split; [constructor; cbn; try done |].
  - exists []. split_and!; [constructor | constructor | done].
  - lia.
  - cbn. split_and!; [done | lia | lia].
Qed.

Lemma add_row_fed row rows s : fed rows s → fed (rows ++ [row]) (add_row row s).
Proof.
  intros [Hc Hn Ht Hf Hr Hi Hl Hre Hco]. constructor; try done; cbn.
  - destruct Hc as (cs & ? & ? & Hsame). exists cs. split_and!; [done | done |].
    by rewrite app_assoc, Hsame.
  - rewrite Hr, length_app. cbn. lia.
  - rewrite Hi, inversions_snoc, Hl. destruct (last rows) as [x|]; cbn; [|lia].
    by destruct (_ <? _).
  - by rewrite last_snoc.
Qed.

(** A spill keeps what was fed and empties the buffer. *)
Lemma spill_fed rows s :
  fed rows s → ∃ s', spill s = (Ok tt, s') ∧ fed rows s' ∧ ws_buffer s' = [] ∧
    ws_chunk_rows s' = ws_chunk_rows s ∧ ws_merge_fan_in s' = ws_merge_fan_in s.
Proof.
  intros Hfed. unfold spill. destruct (ws_buffer s) as [|b buffer] eqn:Hb; [by exists s |].
  eexists. split; [reflexivity |]. split; [|done].
  destruct Hfed as [(cs & Hfiles & Hs & Hsame) Hn Ht Hf Hr Hi Hl Hre Hco].
  set (path := ChunkPath (length (ws_chunks s))).
  assert (Hnew : path ∉ ws_chunks s).
  { intros Hin. rewrite Hn in Hin. apply list_elem_of_fmap in Hin as (n & [= Heq] & Hin%elem_of_seq).
    lia. }
  constructor; cbn [ws_chunks ws_buffer ws_files ws_merge_fan_in ws_rows_seen ws_inversions ws_last_wid
    ws_open_readers ws_max_open_readers ws_consumed]; try done.
  - exists (cs ++ [isort window_leb (b :: buffer)]). split_and!.
    + apply Forall2_app.
      * eapply Forall2_impl; [apply Forall2_same_length_lookup_2; [by eapply Forall2_length |] |].
        { intros i p c Hp Hc. apply (Forall2_lookup_lr _ _ _ _ _ _ Hfiles Hp) in Hc.
          instantiate (1 := λ p c, p ∈ ws_chunks s ∧ ws_files s !! p = Some c).
          split; [by eapply list_elem_of_lookup_2 | done]. }
        intros p c [Hin Hp]. cbn. rewrite lookup_insert_ne; [done | by intros <-].
      * constructor; [apply lookup_insert_eq | constructor].
    + apply Forall_app. split; [done |]. constructor; [apply isort_window_sorted | constructor].
    + rewrite concat_app. cbn [concat]. rewrite !app_nil_r, isort_same. by rewrite <-Hsame, Hb.
  - rewrite length_app, seq_app, map_app. cbn. by rewrite <-Hn.
  - unfold tidy in *. cbn. rewrite dom_insert. set_solver.
Qed.

Lemma add_fed row rows s :
  fed rows s → (length (ws_buffer s) < ws_chunk_rows s)%nat →
  ∃ s', add row s = (Ok tt, s') ∧ fed (rows ++ [row]) s' ∧
    (length (ws_buffer s') < ws_chunk_rows s')%nat ∧
    ws_chunk_rows s' = ws_chunk_rows s ∧ ws_merge_fan_in s' = ws_merge_fan_in s.
Proof.
  intros Hfed Hb. pose proof (add_row_fed row rows s Hfed) as Hfed'.
  unfold add, mbind, M_bind, modify, gets.
  destruct (Nat.leb_spec (ws_chunk_rows (add_row row s)) (length (ws_buffer (add_row row s)))) as [Hle|Hgt].
  - destruct (spill_fed _ _ Hfed') as (s' & Hrun & Hs' & He & Hc & Hf). exists s'.
    rewrite He, Hc. cbn in *. split_and!; [done | done | lia | done | done].
  - exists (add_row row s). split_and!; done.
Qed.

Lemma add_all_fed rows : ∀ before s,
  fed before s → (length (ws_buffer s) < ws_chunk_rows s)%nat →
  ∃ s', add_all rows s = (Ok tt, s') ∧ fed (before ++ rows) s' ∧
    (length (ws_buffer s') < ws_chunk_rows s')%nat ∧
    ws_chunk_rows s' = ws_chunk_rows s ∧ ws_merge_fan_in s' = ws_merge_fan_in s.
Proof.
  induction rows as [|row rows IH]; intros before s Hfed Hb; cbn [add_all].
  { exists s. rewrite app_nil_r. by split_and!. }
  destruct (add_fed row before s Hfed Hb) as (s1 & Hrun & Hfed1 & Hb1 & Hc1 & Hf1).
  destruct (IH _ s1 Hfed1 Hb1) as (s2 & Hrun2 & Hfed2 & Hb2 & Hc2 & Hf2).
  exists s2. unfold mbind, M_bind. rewrite Hrun. rewrite <-app_assoc in Hfed2.
  split_and!; [done | done | done | congruence | congruence].
Qed.

(** ** The sorted stream *)
Lemma spill_consumed_run rows s :
  fed rows s → ∃ s', (_ ← set_consumed; spill) s = (Ok tt, s') ∧
    (∃ cs, has_files s' (ws_chunks s') cs ∧ Forall sorted cs ∧ same_rows (concat cs) rows) ∧
    ws_chunks s' = map ChunkPath (seq 0 (length (ws_chunks s'))) ∧ ws_buffer s' = [] ∧
    tidy s' ∧ ws_merge_fan_in s' = ws_merge_fan_in s ∧ ws_open_readers s' = 0%nat ∧
    ws_max_open_readers s' = 0%nat ∧ ws_consumed s' = true ∧
    ws_rows_seen s' = ws_rows_seen s ∧ ws_inversions s' = ws_inversions s.
Proof.
  intros Hfed. destruct (spill_fed rows s Hfed) as (s1 & Hrun & [Hc Hn Ht Hf Hr Hi Hl Hre Hco] & Hb & _ & Hfan).
  exists (set_consumed s1).2. split; [|cbn; destruct Hc as (cs & Hfs & Hs & Hsame); split_and!].
  - unfold spill in *. unfold mbind, M_bind, set_consumed, modify in *. cbn [ws_buffer ws_chunks] in *.
    destruct (ws_buffer s) eqn:Hbs; injection Hrun as <-; [|reflexivity].
    cbn in *. by rewrite Hbs.
  - exists cs. rewrite Hb, app_nil_r in Hsame. split_and!; done.
  - done.
  - done.
  - done.
  - done.
  - apply Hre.
  - apply Hre.
  - done.
  - rewrite Hr. destruct Hfed as [_ _ _ _ -> _ _ _ _]. done.
  - rewrite Hi. destruct Hfed as [_ _ _ _ _ -> _ _ _]. done.
Qed.

Lemma merge_all_run s cs rows :
  (2 ≤ ws_merge_fan_in s)%nat → ws_chunks s = map ChunkPath (seq 0 (length (ws_chunks s))) →
  has_files s (ws_chunks s) cs → Forall sorted cs → same_rows (concat cs) rows →
  ws_buffer s = [] → ws_open_readers s = 0%nat → ws_max_open_readers s = 0%nat →
  ∃ s', merge_all s = (Ok (isort window_leb rows), s') ∧ merge_step s s'.
Proof.
  intros Hf Hn Hfiles Hsorted Hsame Hb Ho Hm. unfold merge_all, mbind, M_bind, gets at 1.
  destruct (ws_chunks s) as [|c chunks] eqn:Hch.
  { exists s. split; [|reflexivity]. unfold gets. rewrite Hb.
    inversion Hfiles; subst. rewrite <-(stable_unique [] rows); done || constructor. }
  destruct (merge_levels_run (length (c :: chunks)) 0 (c :: chunks) cs s) as
    (n & ps & cs' & s1 & Hrun & Hst & Hl & Hps & Hcs' & Hsame'); try done.
  - rewrite Hn. apply NoDup_fmap; [by intros ?? [= ->] | apply NoDup_seq].
  - intros a b Hab. rewrite Hn in Hab. by apply list_elem_of_fmap in Hab as (? & ? & _).
  - rewrite Hrun. unfold set_merge_stats, open_tracked, close_readers, set_readers, modify.
    rewrite (read_files_run ps cs') by done. eexists. split.
    + destruct (heap_merge_spec cs' Hcs') as [Hhs Hhsame].
      rewrite (stable_unique (heap_merge cs') rows); [reflexivity | done |]. by rewrite Hhsame, Hsame'.
    + etrans; [exact Hst |]. destruct Hst as [F1 (C1 & C2 & C3) O1 M1 T1].
      constructor; cbn; try done; rewrite ?F1 in *; lia.
Qed.

(** The iterator yields the stable sort of what was fed, and leaves no file. *)
Lemma iter_sorted_run rows s :
  fed rows s → ∃ s', iter_sorted s = (Ok (isort window_leb rows), s') ∧ ws_files s' = ∅ ∧
    ws_live_paths s' = ∅ ∧ ws_open_readers s' = 0%nat ∧
    (ws_max_open_readers s' ≤ ws_merge_fan_in s)%nat ∧ ws_consumed s' = true ∧
    ws_rows_seen s' = Z.of_nat (length rows) ∧ ws_inversions s' = inversions rows.
Proof.
  intros Hfed. destruct (spill_consumed_run rows s Hfed) as
    (s1 & Hrun & (cs & Hfs & Hs & Hsame) & Hn & Hb & Ht & Hfan & Ho & Hm & Hc & Hr & Hi).
  destruct (merge_all_run s1 cs rows) as (s2 & Hrun2 & [F1 (C1 & C2 & C3) O1 M1 T1]); try done.
  { rewrite Hfan. apply Hfed. }
  exists (unlink_live s2).2. split_and!.
  - unfold iter_sorted, mbind, M_bind, gets. rewrite (fd_fresh _ _ Hfed). cbv beta iota.
    change (set_consumed s) with (Ok tt, (set_consumed s).2). cbv beta iota.
    unfold mbind, M_bind in Hrun. change (set_consumed s) with (Ok tt, (set_consumed s).2) in Hrun.
    cbv beta iota in Hrun. rewrite Hrun. unfold finally_unlink. by rewrite Hrun2.
  - cbn. apply map_eq. intros p. rewrite delete_all_lookup, lookup_empty. case_decide as Hp; [done |].
    apply not_elem_of_dom. intros Hd. apply Hp, elem_of_elements. by apply (T1 Ht).
  - done.
  - cbn. congruence.
  - cbn. lia.
  - cbn. congruence.
  - cbn. rewrite C1, Hr. apply Hfed.
  - cbn. rewrite C2, Hi. apply Hfed.
Qed.
