(* ===== verification/SimDevices.v ===== *)
(** * Findings, devices and the device risk model

    Models [pipeline/findings.py] (the findings of the detector and the profiler),
    [datasets/datasense/devices.py] (the inventory) and
    [simulation/abm.py] (the device ABM): static identity, evidence per device,
    and the propagation of risk along the topology.  The topology is a networkx
    graph: only [nx.all_neighbors] is used of it, as the argument [neighbors].
    The optional on-disk copy of the history is not modelled. *)

From Stdlib Require Import SpecFloat.
From S2P Require Import Prelude PyString Json BbContracts.

Definition NETWORK_FINDING_TYPE : string := "NetworkFinding".
Definition BEHAVIOR_FINDING_TYPE : string := "BehaviorFinding".

Definition FINDING_PROVENANCE_WHITELIST : list string :=
  ["session_trace"; "source_mode"; "model_id"; "feature_schema_version"; "extractor_version";
   "store_root"; "artifact_path"].

(** [_check_probability]: NaN fails both comparisons. *)
Definition check_probability (name : string) (value : f64) : result unit :=
  check (f_leb f_zero value && f_leb value f_one) ValueError (name +:+ " must be within [0, 1]").

Definition validate_provenance (provenance : list (string * json)) : result unit :=
  let illegal := sort_strings (remove_dups
    (filter (λ k, k ∉ FINDING_PROVENANCE_WHITELIST) provenance.*1)) in
  check (bool_decide (illegal = [])) ValueError
    ("provenance contains non-whitelisted keys " +:+ repr_list illegal
     +:+ "; ground truth must never travel inside findings").

Record NetworkFinding := mk_network_finding {
  nf_entity_id : string;
  nf_window_id : Z;
  nf_timestamp_utc : string;
  nf_attack_probability : f64;
  nf_predicted_class : string;
  nf_confidence : f64;
  nf_source_model : string;
  nf_provenance : list (string * json);
}.

Record BehaviorFinding := mk_behavior_finding {
  bf_entity_id : string;
  bf_window_id : Z;
  bf_timestamp_utc : string;
  bf_deviation_score : f64;
  bf_profile_type : string;
  bf_confidence : f64;
  bf_explanation : string;
  bf_source_model : string;
  bf_provenance : list (string * json);
}.

Definition non_empty (name s : string) : result unit :=
  check (negb (bool_decide (s = ""))) ValueError (name +:+ " must be a non-empty string").

Section findings.
Context `{PyRuntime}.

(** [_validate_timestamp] is the Blackboard's [validate_utc_timestamp], line for
    line. *)
Definition validate_timestamp (ts_utc : string) : result unit := validate_utc_timestamp ts_utc.

Definition network_finding_validate (f : NetworkFinding) : result unit :=
  first_error
    [non_empty "entity_id" (nf_entity_id f);
     validate_timestamp (nf_timestamp_utc f);
     check_probability "attack_probability" (nf_attack_probability f);
     check_probability "confidence" (nf_confidence f);
     check (bool_decide (nf_predicted_class f ∈ ["benign"; "attack"])) ValueError
       "predicted_class must be 'benign' or 'attack'";
     non_empty "source_model" (nf_source_model f);
     validate_provenance (nf_provenance f)].

Definition behavior_finding_validate (f : BehaviorFinding) : result unit :=
  first_error
    [non_empty "entity_id" (bf_entity_id f);
     validate_timestamp (bf_timestamp_utc f);
     check_probability "deviation_score" (bf_deviation_score f);
     check_probability "confidence" (bf_confidence f);
     check (bool_decide (bf_profile_type f ∈ ["continuous"; "sparse"; "degenerate"])) ValueError
       ("profile_type must be continuous|sparse|degenerate "
        +:+ "(unsupported devices never emit behaviour findings)");
     non_empty "explanation" (bf_explanation f);
     non_empty "source_model" (bf_source_model f);
     validate_provenance (bf_provenance f)].
End findings.

(** ** Attributes, as duck-typed consumers read them *)
Record FindingObject := mk_finding_object {
  fo_entity_id : option string;
  fo_window_id : option Z;
  fo_finding_type : option string;
  fo_predicted_class : option string;
  fo_confidence : option f64;
  fo_deviation_score : option f64;
  (** [vars(f)] *)
  fo_vars : list (string * json);
}.

Definition network_object (f : NetworkFinding) : FindingObject :=
  mk_finding_object (Some (nf_entity_id f)) (Some (nf_window_id f)) (Some NETWORK_FINDING_TYPE)
    (Some (nf_predicted_class f)) (Some (nf_confidence f)) None
    [("entity_id", JStr (nf_entity_id f)); ("window_id", JInt (nf_window_id f));
     ("timestamp_utc", JStr (nf_timestamp_utc f));
     ("attack_probability", JFloat (nf_attack_probability f));
     ("predicted_class", JStr (nf_predicted_class f)); ("confidence", JFloat (nf_confidence f));
     ("source_model", JStr (nf_source_model f)); ("provenance", JDict (nf_provenance f));
     ("finding_type", JStr NETWORK_FINDING_TYPE)].

Definition behavior_object (f : BehaviorFinding) : FindingObject :=
  mk_finding_object (Some (bf_entity_id f)) (Some (bf_window_id f)) (Some BEHAVIOR_FINDING_TYPE)
    None (Some (bf_confidence f)) (Some (bf_deviation_score f))
    [("entity_id", JStr (bf_entity_id f)); ("window_id", JInt (bf_window_id f));
     ("timestamp_utc", JStr (bf_timestamp_utc f));
     ("deviation_score", JFloat (bf_deviation_score f));
     ("profile_type", JStr (bf_profile_type f)); ("confidence", JFloat (bf_confidence f));
     ("explanation", JStr (bf_explanation f)); ("source_model", JStr (bf_source_model f));
     ("provenance", JDict (bf_provenance f)); ("finding_type", JStr BEHAVIOR_FINDING_TYPE)].

(** * Devices and the device risk model

    Models [datasets/datasense/devices.py] (the inventory) and
    [simulation/abm.py] (the device ABM): static identity, evidence per device,
    and the propagation of risk along the topology.  The topology is a networkx
    graph: only [nx.all_neighbors] is used of it, as the argument [neighbors].
    The optional on-disk copy of the history is not modelled. *)
(** ** Inventory *)
Definition CONTINUOUS_SENSORS : list string :=
  ["weather-sensor"; "sound-sensor"; "vibration-sensor"; "light-sensor"; "gas-sensor";
   "steam-sensor"; "soil-sensor"; "ultrasonic-sensor"; "accelerometer-sensor"].
Definition SPARSE_SENSORS : list string :=
  ["motion-sensor"; "rfid-sensor"; "flame-sensor"; "proximity-collision-sensor"].
Definition DEGENERATE_SENSORS : list string := ["water-sensor"].

Definition replace_dashes (s : string) : string :=
  unchars (map (λ c, if Ascii.eqb c "-" then ":"%char else c) (chars s)).

Definition normalize_mac (mac : option string) : option string :=
  match mac with
  | None => None
  | Some m => if bool_decide (m = "") then None else Some (replace_dashes (py_lower (py_strip m)))
  end.

Record DeviceRecord := mk_device {
  dv_device_name : string;
  dv_mac : string;
  dv_ip : string;
  dv_role : string;
  dv_type : string;
  dv_main_topic : string;
}.

Record DeviceInventory := mk_inventory {
  iv_records : list DeviceRecord;
  iv_by_name : gmap string DeviceRecord;
  iv_by_mac : gmap string DeviceRecord;
  iv_by_ip : gmap string DeviceRecord;
}.

(** [d.setdefault(k, v)] *)
Definition map_setdefault {V} (k : string) (v : V) (m : gmap string V) : gmap string V :=
  match m !! k with Some _ => m | None => <[k := v]> m end.

Definition new_inventory (records : list DeviceRecord) : DeviceInventory :=
  mk_inventory records
    (foldl (λ m rec, <[dv_device_name rec := rec]> m) ∅ records)
    (foldl (λ m rec, map_setdefault (py_lower (dv_mac rec)) rec m) ∅ records)
    (foldl (λ m rec, map_setdefault (dv_ip rec) rec m) ∅ records).

Definition resolve_device (mac ip : option string) (inv : DeviceInventory) : option DeviceRecord :=
  match normalize_mac mac ≫= λ norm, iv_by_mac inv !! norm with
  | Some hit => Some hit
  | None =>
      match ip with
      | None => None
      | Some i => if bool_decide (i = "") then None else iv_by_ip inv !! py_strip i
      end
  end.

Lemma foldl_lookup_in {A} (key : A → string) (put : string → A → gmap string A → gmap string A) records m k rec :
  (∀ k v m k' v', put k v m !! k' = Some v' → m !! k' = Some v' ∨ v' = v) →
  foldl (λ m rec, put (key rec) rec m) m records !! k = Some rec → m !! k = Some rec ∨ rec ∈ records.
Proof.
  intros Hput. revert m. induction records as [|r records IH]; intros m; cbn; [by left |].
  intros [[?| ->]%Hput|]%IH; set_solver.
Qed.

(** The inventory resolves to its own records. *)
Lemma resolve_device_in records mac ip rec :
  resolve_device mac ip (new_inventory records) = Some rec → rec ∈ records.
Proof.
  assert (Hput : ∀ k (v : DeviceRecord) m k' v', map_setdefault k v m !! k' = Some v' → m !! k' = Some v' ∨ v' = v).
  { intros k v m k' v'. unfold map_setdefault. destruct (m !! k) eqn:E; [by left |].
    rewrite lookup_insert_Some. naive_solver. }
  assert (Hin : ∀ key k, foldl (λ m rec, map_setdefault (key rec) rec m) ∅ records !! k = Some rec → rec ∈ records).
  { intros key k H%(foldl_lookup_in key map_setdefault); [|exact Hput].
    destruct H as [H|H]; [by rewrite lookup_empty in H | done]. }
  unfold resolve_device, new_inventory. cbn [iv_by_mac iv_by_ip].
  destruct (normalize_mac mac ≫= _) as [hit|] eqn:Hm.
  - intros [= <-]. apply bind_Some in Hm as (norm & _ & Hm). by apply (Hin (λ rec, py_lower (dv_mac rec))) in Hm.
  - destruct ip as [i|]; [|done]. case_bool_decide; [done |]. apply (Hin dv_ip).
Qed.

Definition behavior_profile_for (device_name : string) (inv : DeviceInventory) : string :=
  match iv_by_name inv !! device_name with
  | None => "unsupported"
  | Some rec =>
      if negb (bool_decide (dv_role rec = "sensor")) then "unsupported"
      else if bool_decide (device_name ∈ DEGENERATE_SENSORS) then "degenerate"
      else if bool_decide (device_name ∈ SPARSE_SENSORS) then "sparse"
      else if bool_decide (device_name ∈ CONTINUOUS_SENSORS) then "continuous"
      else "unsupported"
  end.

Definition sensor_names (inv : DeviceInventory) : list string :=
  map dv_device_name (filter (λ r, dv_role r = "sensor") (iv_records inv)).

(** ** Device state *)
Record DeviceState := mk_device_state {
  ds_node_id : string;
  ds_role : string;
  ds_device_type : string;
  ds_ip : string;
  ds_mac : string;
  ds_is_protected_asset : bool;
  ds_is_attacker : bool;
  ds_behavior_supported : bool;
  ds_behavior_profile_type : option string;
  ds_network_risk : option f64;
  ds_behavior_risk : option f64;
  ds_network_observed : bool;
  ds_behavior_observed : bool;
  ds_propagated_risk : f64;
  ds_systemic_risk : f64;
  ds_operational : bool;
  ds_compromised : bool;
  ds_last_network_update : option string;
  ds_last_behavior_update : option string;
  ds_last_network_window : option Z;
  ds_last_behavior_window : option Z;
}.

Definition initial_state (inv : DeviceInventory) (rec : DeviceRecord) : DeviceState :=
  let supported := bool_decide (dv_role rec = "sensor") in
  mk_device_state (dv_device_name rec) (dv_role rec) (dv_type rec) (dv_ip rec) (dv_mac rec)
    (negb (bool_decide (dv_role rec ∈ ["attacker"; "cloud"])))
    (bool_decide (dv_role rec = "attacker")) supported
    (if supported then Some (behavior_profile_for (dv_device_name rec) inv) else None)
    None None false false f_zero f_zero true false None None None None.

Definition with_network (risk : f64) (ts : string) (window : Z) (compromised : bool)
    (s : DeviceState) : DeviceState :=
  mk_device_state (ds_node_id s) (ds_role s) (ds_device_type s) (ds_ip s) (ds_mac s)
    (ds_is_protected_asset s) (ds_is_attacker s) (ds_behavior_supported s)
    (ds_behavior_profile_type s) (Some risk) (ds_behavior_risk s) true (ds_behavior_observed s)
    (ds_propagated_risk s) (ds_systemic_risk s) (ds_operational s) compromised (Some ts)
    (ds_last_behavior_update s) (Some window) (ds_last_behavior_window s).

Definition with_behavior (risk : f64) (ts : string) (window : Z) (s : DeviceState) : DeviceState :=
  mk_device_state (ds_node_id s) (ds_role s) (ds_device_type s) (ds_ip s) (ds_mac s)
    (ds_is_protected_asset s) (ds_is_attacker s) (ds_behavior_supported s)
    (ds_behavior_profile_type s) (ds_network_risk s) (Some risk) (ds_network_observed s) true
    (ds_propagated_risk s) (ds_systemic_risk s) (ds_operational s) (ds_compromised s)
    (ds_last_network_update s) (Some ts) (ds_last_network_window s) (Some window).

Definition with_risk (propagated systemic : f64) (s : DeviceState) : DeviceState :=
  mk_device_state (ds_node_id s) (ds_role s) (ds_device_type s) (ds_ip s) (ds_mac s)
    (ds_is_protected_asset s) (ds_is_attacker s) (ds_behavior_supported s)
    (ds_behavior_profile_type s) (ds_network_risk s) (ds_behavior_risk s) (ds_network_observed s)
    (ds_behavior_observed s) propagated systemic (ds_operational s) (ds_compromised s)
    (ds_last_network_update s) (ds_last_behavior_update s) (ds_last_network_window s)
    (ds_last_behavior_window s).

(** ** The ABM *)
Record SrepParams := mk_srep_params {
  sp_propagation_weight : f64;
  sp_hop_decay : f64;
  sp_max_hops : Z;
  sp_criticality : list (string * f64);
  sp_default_criticality : f64;
}.

Record NodeSnapshot := mk_node_snapshot {
  ns_nr : option f64;
  ns_br : option f64;
  ns_pr : f64;
  ns_sr : f64;
  ns_comp : bool;
}.

Record AbmSnapshot := mk_abm_snapshot {
  as_step : Z;
  as_window_id : option Z;
  as_recorded_at : string;
  as_states : list (string * NodeSnapshot);
  as_defended_blast_radius : f64;
}.

Record DeviceABM := mk_abm {
  abm_inventory : DeviceInventory;
  abm_params : SrepParams;
  abm_history_limit : nat;
  abm_states : list (string * DeviceState);
  abm_history : list AbmSnapshot;
  abm_current_window_id : option Z;
  abm_steps : Z;
}.

Definition DATASENSE_ABM_HISTORY_LIMIT : Z := 256.

Definition new_abm (inv : DeviceInventory) (params : SrepParams) (history_limit : option Z)
    : DeviceABM :=
  let limit := match history_limit with
               | Some n => if n =? 0 then DATASENSE_ABM_HISTORY_LIMIT else n
               | None => DATASENSE_ABM_HISTORY_LIMIT
               end in
  mk_abm inv params (Z.to_nat limit)
    (foldl (λ d rec, od_set (dv_device_name rec) (initial_state inv rec) d) [] (iv_records inv))
    [] None 0.

Definition set_states (states : list (string * DeviceState)) (a : DeviceABM) : DeviceABM :=
  mk_abm (abm_inventory a) (abm_params a) (abm_history_limit a) states (abm_history a)
    (abm_current_window_id a) (abm_steps a).
Definition set_window (w : option Z) (a : DeviceABM) : DeviceABM :=
  mk_abm (abm_inventory a) (abm_params a) (abm_history_limit a) (abm_states a) (abm_history a)
    w (abm_steps a).

Definition abm_resolve (entity_id : string) (a : DeviceABM) : option DeviceState :=
  od_get entity_id (abm_states a).

(** [max(self.current_window_id or w, w)]: a window id 0 is falsy too. *)
Definition advance_window (w : Z) (cur : option Z) : Z :=
  match cur with
  | Some c => if c =? 0 then w else Z.max c w
  | None => w
  end.

Definition apply_network_evidence (f : NetworkFinding) : M DeviceABM unit := λ a,
  match od_get (nf_entity_id f) (abm_states a) with
  | None => (raise KeyError (py_repr (nf_entity_id f)), a)
  | Some s =>
      let compromised := ds_compromised s
        || (ds_is_protected_asset s && f_geb (nf_attack_probability f) f_half) in
      (Ok tt, set_window (Some (advance_window (nf_window_id f) (abm_current_window_id a)))
        (set_states (od_set (nf_entity_id f)
           (with_network (nf_attack_probability f) (nf_timestamp_utc f) (nf_window_id f)
              compromised s) (abm_states a)) a))
  end.

Definition apply_behavior_evidence (f : BehaviorFinding) : M DeviceABM unit := λ a,
  match od_get (bf_entity_id f) (abm_states a) with
  | None => (raise KeyError (py_repr (bf_entity_id f)), a)
  | Some s =>
      if negb (ds_behavior_supported s)
      then (raise ValueError ("behavior evidence for unsupported device " +:+ bf_entity_id f), a)
      else (Ok tt, set_window (Some (advance_window (bf_window_id f) (abm_current_window_id a)))
        (set_states (od_set (bf_entity_id f)
           (with_behavior (bf_deviation_score f) (bf_timestamp_utc f) (bf_window_id f) s)
           (abm_states a)) a))
  end.

(** 1e-9 *)
Definition f_1e_9 : f64 := S754_finite false 4835703278458517 (-82).

(** [x or 0.0] *)
Definition or_zero (o : option f64) : f64 :=
  match o with Some x => if f_eqb x f_zero then f_zero else x | None => f_zero end.

(** [max] of the risks that are present. *)
Definition direct_risk (s : DeviceState) : option f64 :=
  match ds_network_risk s, ds_behavior_risk s with
  | Some n, Some b => Some (f_max n b)
  | Some n, None => Some n
  | None, Some b => Some b
  | None, None => None
  end.

Section propagation.
Context `{PyRuntime}.
(** [nx.all_neighbors(self.topology, node)] *)
Variable neighbors : string → result (list string).

Definition propagation_sources (states : list (string * DeviceState)) : list (string * f64) :=
  omap (λ ns : string * DeviceState,
    if negb (ds_is_protected_asset ns.2) then None
    else let direct := f_max (or_zero (ds_network_risk ns.2)) (default f_zero (ds_behavior_risk ns.2)) in
         if f_gtb direct f_zero then Some (ns.1, direct) else None) states.

(** One search from a source: the queue, the visited nodes, the new risks. *)
Record Spread := mk_spread {
  sd_frontier : list (string * f64 * Z);
  sd_visited : gset string;
  sd_propagated : gmap string f64;
}.

Definition push_neighbor (p : SrepParams) (states : list (string * DeviceState)) (r : f64)
    (hops : Z) (s : Spread) (neighbor : string) : Spread :=
  if bool_decide (neighbor ∈ sd_visited s) then s
  else match od_get neighbor states with
  | None => s
  | Some st =>
      if negb (ds_is_protected_asset st) then s
      else
        let pushed := f_mul (f_mul r (sp_propagation_weight p))
                        (float_pow (sp_hop_decay p) (hops + 1)) in
        if f_leb pushed f_1e_9 then s
        else
          let prior := default f_zero (sd_propagated s !! neighbor) in
          mk_spread (sd_frontier s ++ [(neighbor, pushed, hops + 1)])
            ({[neighbor]} ∪ sd_visited s)
            (if f_gtb pushed prior then <[neighbor := pushed]> (sd_propagated s)
             else sd_propagated s)
  end.

(** [while frontier]: every node enters the queue at most once. *)
Fixpoint spread_loop (fuel : nat) (p : SrepParams) (states : list (string * DeviceState))
    (s : Spread) : result Spread :=
  match fuel with
  | O => Ok s
  | S fuel =>
      match sd_frontier s with
      | [] => Ok s
      | (node, r, hops) :: rest =>
          let s := mk_spread rest (sd_visited s) (sd_propagated s) in
          if sp_max_hops p <=? hops then spread_loop fuel p states s
          else match neighbors node with
               | Raise e => Raise e
               | Ok ns => spread_loop fuel p states (foldl (push_neighbor p states r hops) s ns)
               end
      end
  end.

Definition spread_fuel (states : list (string * DeviceState)) : nat := S (S (length states)).

Fixpoint spread_all (p : SrepParams) (states : list (string * DeviceState))
    (sources : list (string * f64)) (propagated : gmap string f64) : result (gmap string f64) :=
  match sources with
  | [] => Ok propagated
  | (src, risk) :: sources =>
      s ← spread_loop (spread_fuel states) p states (mk_spread [(src, risk, 0)] {[src]} propagated);
      spread_all p states sources (sd_propagated s)
  end.

Definition refresh_risk (propagated : gmap string f64) (ns : string * DeviceState)
    : string * DeviceState :=
  let p := default f_zero (propagated !! ns.1) in
  (ns.1, with_risk p (match direct_risk ns.2 with Some d => f_max d p | None => p end) ns.2).

Definition abm_propagate : M DeviceABM unit := λ a,
  match spread_all (abm_params a) (abm_states a) (propagation_sources (abm_states a)) ∅ with
  | Raise e => (Raise e, a)
  | Ok propagated => (Ok tt, set_states (map (refresh_risk propagated) (abm_states a)) a)
  end.

(** ** Reports *)
Definition criticality (p : SrepParams) (role : string) : f64 :=
  default (sp_default_criticality p) (od_get role (sp_criticality p)).

Definition defended_blast_radius (a : DeviceABM) : f64 :=
  float_round (foldl (λ total (ns : string * DeviceState),
    if ds_is_attacker ns.2 || negb (ds_is_protected_asset ns.2) then total
    else f_add total (f_mul (ds_systemic_risk ns.2) (criticality (abm_params a) (ds_role ns.2))))
    f_zero (abm_states a)) 6.

Definition abm_snapshot (recorded_at : string) (a : DeviceABM) : AbmSnapshot :=
  mk_abm_snapshot (abm_steps a) (abm_current_window_id a) recorded_at
    (map (λ ns, (ns.1, mk_node_snapshot (ds_network_risk ns.2) (ds_behavior_risk ns.2)
       (float_round (ds_propagated_risk ns.2) 6) (float_round (ds_systemic_risk ns.2) 6)
       (ds_compromised ns.2))) (abm_states a))
    (defended_blast_radius a).

Definition record_step (recorded_at : string) : M DeviceABM AbmSnapshot := λ a,
  let a := mk_abm (abm_inventory a) (abm_params a) (abm_history_limit a) (abm_states a)
             (abm_history a) (abm_current_window_id a) (abm_steps a + 1) in
  let snap := abm_snapshot recorded_at a in
  (Ok snap, mk_abm (abm_inventory a) (abm_params a) (abm_history_limit a) (abm_states a)
     (push_bounded (abm_history_limit a) snap (abm_history a)) (abm_current_window_id a)
     (abm_steps a)).

Record NodeDigest := mk_node_digest {
  nd_network_risk : option f64;
  nd_behavior_risk : option f64;
  nd_propagated_risk : f64;
  nd_systemic_risk : f64;
  nd_behavior_supported : bool;
  nd_behavior_observed : bool;
  nd_network_observed : bool;
  nd_is_attacker : bool;
  nd_is_protected_asset : bool;
}.

Definition node_digest (s : DeviceState) : NodeDigest :=
  mk_node_digest (ds_network_risk s) (ds_behavior_risk s) (ds_propagated_risk s)
    (ds_systemic_risk s) (ds_behavior_supported s) (ds_behavior_observed s)
    (ds_network_observed s) (ds_is_attacker s) (ds_is_protected_asset s).

Record FinalDigest := mk_final_digest {
  fd_steps : Z;
  fd_last_window_id : option Z;
  fd_defended_blast_radius : f64;
  fd_compromised_protected : list string;
  fd_state : list (string * NodeDigest);
}.

Definition final_digest (a : DeviceABM) : FinalDigest :=
  mk_final_digest (abm_steps a) (abm_current_window_id a) (defended_blast_radius a)
    (sort_strings (map fst (filter (λ ns : string * DeviceState,
       Is_true (ds_compromised ns.2 && ds_is_protected_asset ns.2)) (abm_states a))))
    (map (λ ns, (ns.1, node_digest ns.2)) (abm_states a)).
End propagation.
