(* ===== verification/DsNetwork.v ===== *)
(** * Network features and communication edges

    Models [datasets/datasense/network_features.py] (running statistics, the
    per-device window accumulator, its manager and rows) and
    [datasets/datasense/communication.py] (directed edges, endpoint resolution, the
    live-edge capacity).  Both managers are [WindowManager]s.  A feature row is the
    dictionary the code builds, in its order.  The attributes a manager never
    assigns after its construction are its configuration. *)

From Stdlib Require Import SpecFloat.
From S2P Require Import Prelude PyString Json DsWindowing DsFrames SimDevices.

(** ** Running statistics *)
Record OnlineStats := mk_stats {
  os_n : Z;
  os_mean : f64;
  os_m2 : f64;
  os_mn : option f64;
  os_mx : option f64;
}.

Definition new_stats : OnlineStats := mk_stats 0 f_zero f_zero None None.

Definition stats_add (v : f64) (s : OnlineStats) : OnlineStats :=
  let n := os_n s + 1 in
  let delta := f_sub v (os_mean s) in
  let mean := f_add (os_mean s) (f_div delta (f_of_Z n)) in
  let m2 := f_add (os_m2 s) (f_mul delta (f_sub v mean)) in
  mk_stats n mean m2
    (match os_mn s with Some m => if f_ltb v m then Some v else Some m | None => Some v end)
    (match os_mx s with Some m => if f_gtb v m then Some v else Some m | None => Some v end).

Definition stats_add_int (z : Z) : OnlineStats → OnlineStats := stats_add (f_of_Z z).
Definition stats_add_opt (o : option Z) (s : OnlineStats) : OnlineStats :=
  match o with Some z => stats_add_int z s | None => s end.

Definition math_sqrt (x : f64) : result f64 :=
  if f_ltb x f_zero then raise ValueError "math domain error" else Ok (SFsqrt 53 1024 x).

(** [as_tuple]: average, maximum, minimum and deviation. *)
Definition as_tuple (s : OnlineStats) : result (option f64 * option f64 * option f64 * option f64) :=
  if os_n s =? 0 then Ok (None, None, None, None)
  else
    std ← (if 2 <=? os_n s then math_sqrt (f_div (os_m2 s) (f_of_Z (os_n s - 1))) else Ok f_zero);
    Ok (Some (os_mean s), os_mx s, os_mn s, Some std).

(** [x / 1e9] of an integer number of nanoseconds. *)
Definition ns_to_seconds (ns : Z) : f64 := f_div (f_of_Z ns) (f_of_Z NS_PER_SECOND).

(** ** Counters and sets of an accumulator *)
Definition incr (k : string) (c : gmap string Z) : gmap string Z := <[k := default 0 (c !! k) + 1]> c.
Definition incr_if (b : bool) (k : string) (c : gmap string Z) : gmap string Z :=
  if b then incr k c else c.

(** [filter(None, (a, b))]: the non-empty strings *)
Definition truthy (o : option string) : bool :=
  match o with Some s => negb (bool_decide (s = "")) | None => false end.
Definition add_truthy (o : option string) (s : gset string) : gset string :=
  match o with Some x => if truthy o then {[x]} ∪ s else s | None => s end.
Definition add_opt {A} `{Countable A} (o : option A) (s : gset A) : gset A :=
  match o with Some x => {[x]} ∪ s | None => s end.

Definition endswith (p s : string) : bool :=
  let n := length (chars s) in let k := length (chars p) in
  (k <=? n)%nat && bool_decide (drop (n - k) (chars s) = chars p).

(** ** The device accumulator *)
Record DeviceWindowAccumulator := mk_acc {
  ac_device_name : string;
  ac_window_id : Z;
  ac_packets_src : Z;
  ac_packets_dst : Z;
  ac_packets_involving : Z;
  ac_last_ts_ns : option Z;
  ac_time_deltas : OnlineStats;
  ac_ips_src : gset string;
  ac_ips_dst : gset string;
  ac_peer_macs : gset string;
  ac_ports_src : gset Z;
  ac_ports_dst : gset Z;
  ac_proto_counts : gmap string Z;
  ac_tcp_flags : gmap string Z;
  ac_fragmented_packets : Z;
  ac_packet_size : OnlineStats;
  ac_wire_size : OnlineStats;
  ac_ip_length : OnlineStats;
  ac_header_length : OnlineStats;
  ac_payload_length : OnlineStats;
  ac_ttl_stats : OnlineStats;
  ac_tcp_window_stats : OnlineStats;
  ac_mss_values : gset Z;
  ac_observed_ips_all : gset string;
  ac_observed_ips_src : gset string;
  ac_observed_ips_dst : gset string;
  ac_observed_macs_all : gset string;
  ac_observed_ports_all : gset string;
  ac_observed_protocols_all : gset string;
  ac_attacker_contact : bool;
  ac_broadcast_seen : bool;
  ac_multicast_seen : bool;
}.

Definition new_acc (device_name : string) (window_id : Z) : DeviceWindowAccumulator :=
  mk_acc device_name window_id 0 0 0 None new_stats ∅ ∅ ∅ ∅ ∅ ∅ ∅ 0 new_stats new_stats new_stats
    new_stats new_stats new_stats new_stats ∅ ∅ ∅ ∅ ∅ ∅ ∅ false false false.

(** What the manager is constructed with. *)
Record NetworkConfig := mk_net_config {
  nc_grid : WindowGrid;
  nc_scenario_id : string;
  nc_inventory : DeviceInventory;
  nc_attacker_names : gset string;
  nc_clock_tolerance_ns : Z;
  nc_active_window_capacity : Z;
}.

(** Some known attacker is an endpoint of the packet. *)
Definition attacker_contact (cfg : NetworkConfig) (view : FrameView) : bool :=
  existsb (λ name,
    match iv_by_name (nc_inventory cfg) !! name with
    | None => false
    | Some rec =>
        bool_decide (fv_src_ip view = Some (dv_ip rec)) || bool_decide (fv_dst_ip view = Some (dv_ip rec))
        || bool_decide (dv_mac rec = fv_src_mac view) || bool_decide (dv_mac rec = fv_dst_mac view)
    end) (elements (nc_attacker_names cfg)).

Definition flag_set (flags bit : Z) : bool := negb (Z.land flags bit =? 0).

Definition count_flags (view : FrameView) (c : gmap string Z) : gmap string Z :=
  match fv_tcp_flags view with
  | Some flags =>
      if bool_decide (fv_l3_proto view = "tcp") then
        incr_if (flag_set flags 32) "urg" (incr_if (flag_set flags 8) "psh"
          (incr_if (flag_set flags 4) "rst" (incr_if (flag_set flags 1) "fin"
            (incr_if (flag_set flags 16) "ack" (incr_if (flag_set flags 2) "syn" c)))))
      else c
  | None => c
  end.

(** [_update] *)
Definition update_device (cfg : NetworkConfig) (as_src as_dst : bool) (view : FrameView)
    (caplen wirelen ts_ns : Z) (acc : DeviceWindowAccumulator) : DeviceWindowAccumulator :=
  let one (b : bool) := if b then 1 else 0 in
  let add_mac m s := if bool_decide (m = "") then s else {[m]} ∪ s in
  let broadcast := bool_decide (fv_dst_mac view = BROADCAST_MAC) in
  let macs := add_mac (fv_dst_mac view) (add_mac (fv_src_mac view) (ac_observed_macs_all acc)) in
  let peers := if as_src then {[fv_dst_mac view]} ∪ ac_peer_macs acc else ac_peer_macs acc in
  let obs_ports := if as_src then add_opt (fmt_int <$> fv_sport view) (ac_observed_ports_all acc)
                   else ac_observed_ports_all acc in
  mk_acc (ac_device_name acc) (ac_window_id acc)
    (ac_packets_src acc + one as_src) (ac_packets_dst acc + one as_dst) (ac_packets_involving acc + 1)
    (Some ts_ns)
    (match ac_last_ts_ns acc with
     | Some last_ts => stats_add (ns_to_seconds (ts_ns - last_ts)) (ac_time_deltas acc)
     | None => ac_time_deltas acc
     end)
    (add_truthy (fv_src_ip view) (ac_ips_src acc)) (add_truthy (fv_dst_ip view) (ac_ips_dst acc))
    (if as_dst then {[fv_src_mac view]} ∪ peers else peers)
    (if as_src then add_opt (fv_sport view) (ac_ports_src acc) else ac_ports_src acc)
    (if as_dst then add_opt (fv_dport view) (ac_ports_dst acc) else ac_ports_dst acc)
    (incr (fv_l3_proto view) (ac_proto_counts acc)) (count_flags view (ac_tcp_flags acc))
    (ac_fragmented_packets acc + one (fv_ip_mf view || (0 <? fv_ip_frag_offset view)))
    (stats_add_int caplen (ac_packet_size acc)) (stats_add_int wirelen (ac_wire_size acc))
    (stats_add_opt (fv_ip_total_len view) (ac_ip_length acc))
    (stats_add_int (header_length view) (ac_header_length acc))
    (stats_add_int (payload_length view) (ac_payload_length acc))
    (stats_add_opt (fv_ttl view) (ac_ttl_stats acc))
    (stats_add_opt (fv_tcp_window view) (ac_tcp_window_stats acc))
    (add_opt (fv_mss view) (ac_mss_values acc))
    (add_truthy (fv_dst_ip view) (add_truthy (fv_src_ip view) (ac_observed_ips_all acc)))
    (add_truthy (fv_src_ip view) (ac_observed_ips_src acc))
    (add_truthy (fv_dst_ip view) (ac_observed_ips_dst acc))
    (if broadcast then {[fv_dst_mac view]} ∪ macs else macs)
    (if as_dst then add_opt (fmt_int <$> fv_dport view) obs_ports else obs_ports)
    ({[fv_l3_proto view]} ∪ ac_observed_protocols_all acc)
    (ac_attacker_contact acc || attacker_contact cfg view)
    (ac_broadcast_seen acc || broadcast)
    (ac_multicast_seen acc ||
       match fv_dst_ip view with Some ip => truthy (Some ip) && endswith ".255" ip | None => false end).

(** ** Rows *)
Definition FeatureRow : Type := list (string * json).

Definition LIST_METADATA_CAP : nat := 64.
Definition jstrs (l : list string) : json := JList (map JStr l).
Definition capped (s : gset string) : json := jstrs (take LIST_METADATA_CAP (sort_strings (elements s))).
Definition jfloat_opt (o : option f64) : json := match o with Some x => JFloat x | None => JNull end.
Definition jint_opt (o : option Z) : json := match o with Some z => JInt z | None => JNull end.
Definition jsize {A} `{Countable A} (s : gset A) : json := JInt (Z.of_nat (size s)).
Definition jcount (k : string) (c : gmap string Z) : json := JInt (default 0 (c !! k)).

(** The four features of a statistic: [name_avg], [name_max], [name_min], [name_std]. *)
Definition stat_fields (name : string) (t : option f64 * option f64 * option f64 * option f64) : FeatureRow :=
  let '(avg, mx, mn, std) := t in
  [(name +:+ "_avg", jfloat_opt avg); (name +:+ "_max", jfloat_opt mx);
   (name +:+ "_min", jfloat_opt mn); (name +:+ "_std", jfloat_opt std)].

Definition set_min (s : gset Z) : option Z :=
  match elements s with [] => None | z :: l => Some (foldl Z.min z l) end.
Definition set_max (s : gset Z) : option Z :=
  match elements s with [] => None | z :: l => Some (foldl Z.max z l) end.

Definition key_fields (scenario_id device_name : string) (window_id : Z) (start_utc end_utc : string) : FeatureRow :=
  [("scenario_id", JStr scenario_id); ("device_id", JStr device_name); ("window_id", JInt window_id);
   ("window_start_utc", JStr start_utc); ("window_end_utc", JStr end_utc)].

(** [finalize] *)
Definition finalize_device (cfg : NetworkConfig) (acc : DeviceWindowAccumulator) : result FeatureRow :=
  let '(start_ns, end_ns) := window_bounds (nc_grid cfg) (ac_window_id acc) in
  start_utc ← iso_utc_from_ns start_ns;
  end_utc ← iso_utc_from_ns end_ns;
  td ← as_tuple (ac_time_deltas acc);
  ps ← as_tuple (ac_packet_size acc);
  ws ← as_tuple (ac_wire_size acc);
  il ← as_tuple (ac_ip_length acc);
  hl ← as_tuple (ac_header_length acc);
  pl ← as_tuple (ac_payload_length acc);
  tl ← as_tuple (ac_ttl_stats acc);
  tw ← as_tuple (ac_tcp_window_stats acc);
  let pc := ac_proto_counts acc in
  let tf := ac_tcp_flags acc in
  Ok (key_fields (nc_scenario_id cfg) (ac_device_name acc) (ac_window_id acc) start_utc end_utc ++
    [("network_observed", JBool true); ("behavior_observed", JBool false);
     ("behavior_supported",
        JBool (negb (bool_decide (behavior_profile_for (ac_device_name acc) (nc_inventory cfg) = "unsupported"))));
     ("packets_all_count", JInt (ac_packets_involving acc)); ("packets_src_count", JInt (ac_packets_src acc));
     ("packets_dst_count", JInt (ac_packets_dst acc))] ++
    stat_fields "time_delta" td ++
    [("unique_ips_all_count", jsize (ac_ips_src acc ∪ ac_ips_dst acc));
     ("unique_ips_src_count", jsize (ac_ips_src acc)); ("unique_ips_dst_count", jsize (ac_ips_dst acc));
     ("unique_peer_count", jsize (ac_peer_macs acc));
     ("ports_all_count", jsize (ac_ports_src acc ∪ ac_ports_dst acc));
     ("ports_src_count", jsize (ac_ports_src acc)); ("ports_dst_count", jsize (ac_ports_dst acc));
     ("proto_tcp_count", jcount "tcp" pc); ("proto_udp_count", jcount "udp" pc);
     ("proto_icmp_count", JInt (default 0 (pc !! "icmp") + default 0 (pc !! "icmpv6")));
     ("proto_arp_count", jcount "arp" pc); ("proto_other_count", jcount "other" pc);
     ("protocol_diversity", JInt (Z.of_nat (size pc)));
     ("tcp_syn_count", jcount "syn" tf); ("tcp_ack_count", jcount "ack" tf);
     ("tcp_fin_count", jcount "fin" tf); ("tcp_rst_count", jcount "rst" tf);
     ("tcp_psh_count", jcount "psh" tf); ("tcp_urg_count", jcount "urg" tf);
     ("fragmented_packet_count", JInt (ac_fragmented_packets acc))] ++
    stat_fields "packet_size" ps ++ stat_fields "wire_size" ws ++ stat_fields "ip_length" il ++
    stat_fields "header_length" hl ++ stat_fields "payload_length" pl ++ stat_fields "ttl" tl ++
    stat_fields "tcp_window" tw ++
    [("mss_observed_min", jint_opt (set_min (ac_mss_values acc)));
     ("mss_observed_max", jint_opt (set_max (ac_mss_values acc)));
     ("observed_ips_all", capped (ac_observed_ips_all acc));
     ("observed_ips_src", capped (ac_observed_ips_src acc));
     ("observed_ips_dst", capped (ac_observed_ips_dst acc));
     ("observed_macs_all", capped (ac_observed_macs_all acc));
     ("observed_ports_all", capped (ac_observed_ports_all acc));
     ("observed_protocols_all", capped (ac_observed_protocols_all acc));
     ("attacker_contact_observed", JBool (ac_attacker_contact acc));
     ("broadcast_mac_observed", JBool (ac_broadcast_seen acc));
     ("multicast_ip_observed", JBool (ac_multicast_seen acc))]).

(** ** The schema of a network row *)
Definition KEY_FIELDS : list string :=
  ["scenario_id"; "device_id"; "window_id"; "window_start_utc"; "window_end_utc"].
Definition MASK_FIELDS : list string :=
  ["network_observed"; "behavior_observed"; "behavior_supported"].
Definition NETWORK_MODEL_FEATURES : list string :=
  ["packets_all_count"; "packets_src_count"; "packets_dst_count"; "time_delta_avg";
   "time_delta_max"; "time_delta_min"; "time_delta_std"; "unique_ips_all_count";
   "unique_ips_src_count"; "unique_ips_dst_count"; "unique_peer_count"; "ports_all_count";
   "ports_src_count"; "ports_dst_count"; "proto_tcp_count"; "proto_udp_count";
   "proto_icmp_count"; "proto_arp_count"; "proto_other_count"; "protocol_diversity";
   "tcp_syn_count"; "tcp_ack_count"; "tcp_fin_count"; "tcp_rst_count"; "tcp_psh_count";
   "tcp_urg_count"; "fragmented_packet_count"; "packet_size_avg"; "packet_size_max";
   "packet_size_min"; "packet_size_std"; "wire_size_avg"; "wire_size_max"; "wire_size_min";
   "wire_size_std"; "ip_length_avg"; "ip_length_max"; "ip_length_min"; "ip_length_std";
   "header_length_avg"; "header_length_max"; "header_length_min"; "header_length_std";
   "payload_length_avg"; "payload_length_max"; "payload_length_min"; "payload_length_std";
   "ttl_avg"; "ttl_max"; "ttl_min"; "ttl_std"; "tcp_window_avg"; "tcp_window_max";
   "tcp_window_min"; "tcp_window_std"; "mss_observed_min"; "mss_observed_max"].
Definition NETWORK_GRAPH_METADATA_FIELDS : list string :=
  ["observed_ips_all"; "observed_ips_src"; "observed_ips_dst"; "observed_macs_all";
   "observed_ports_all"; "observed_protocols_all"; "attacker_contact_observed";
   "broadcast_mac_observed"; "multicast_ip_observed"].

(** A row has the fields of the schema, in its order. *)
Definition network_fields : list string :=
  KEY_FIELDS ++ MASK_FIELDS ++ NETWORK_MODEL_FEATURES ++ NETWORK_GRAPH_METADATA_FIELDS.

(** [empty_network_row] *)
Definition empty_network_row (scenario_id device_name : string) (window_id : Z) (grid : WindowGrid)
    : result FeatureRow :=
  let '(start_ns, end_ns) := window_bounds grid window_id in
  start_utc ← iso_utc_from_ns start_ns;
  end_utc ← iso_utc_from_ns end_ns;
  Ok (key_fields scenario_id device_name window_id start_utc end_utc ++
    map (λ name, (name, JBool false)) MASK_FIELDS ++
    map (λ name, (name, JNull)) NETWORK_MODEL_FEATURES ++
    map (λ name, (name, if startswith "observed_" name then JList [] else JBool false))
      NETWORK_GRAPH_METADATA_FIELDS).

Lemma stat_fields_keys name t :
  (stat_fields name t).*1 = map (λ s, name +:+ s) ["_avg"; "_max"; "_min"; "_std"].
Proof. by destruct t as [[[]]]. Qed.

Lemma finalize_device_fields cfg acc row :
  finalize_device cfg acc = Ok row →
  row.*1 = network_fields ∧ od_get "device_id" row = Some (JStr (ac_device_name acc)) ∧
  od_get "window_id" row = Some (JInt (ac_window_id acc)) ∧
  od_get "packets_all_count" row = Some (JInt (ac_packets_involving acc)) ∧
  od_get "network_observed" row = Some (JBool true).
Proof.
  unfold finalize_device. destruct (window_bounds _ _) as [s e]. intros H.
  do 10 (apply result_bind_ok in H as (? & _ & H)). injection H as <-.
  repeat match goal with t : (_ * _ * _ * _)%type |- _ => destruct t as [[[] ] ] end. done.
Qed.

Lemma empty_network_row_fields sc dev wid g row :
  empty_network_row sc dev wid g = Ok row →
  row.*1 = network_fields ∧ od_get "device_id" row = Some (JStr dev) ∧
  od_get "window_id" row = Some (JInt wid) ∧ od_get "network_observed" row = Some (JBool false).
Proof.
  unfold empty_network_row. destruct (window_bounds _ _) as [s e]. intros H.
  do 2 (apply result_bind_ok in H as (? & _ & H)). by injection H as <-.
Qed.

(** ** The network manager *)
Record NetworkWindowManager := mk_net_manager {
  nm_windows : gmap (Z * string) DeviceWindowAccumulator;
  nm_tracker : WatermarkTracker;
  nm_diagnostics : Counters;
}.

Definition net_diagnostics : Counters :=
  new_counters ["packets_total"; "packets_without_timestamp"; "prestart_snapped_events";
    "prestart_snapped_max_displacement_ns"; "prestart_negative_events"; "late_events";
    "max_observed_lateness_ns"; "capacity_peak_usage"; "unresolved_endpoint_packets";
    "undecodable_frames"].

Definition new_network_manager (grid : WindowGrid) (max_event_lateness_ns : Z) : result NetworkWindowManager :=
  tracker ← new_tracker (window_ns grid) max_event_lateness_ns;
  Ok (mk_net_manager ∅ tracker net_diagnostics).

(** One packet as the capture reader hands it over. *)
Record PacketEvent := mk_packet {
  pk_ts_ns : option Z;
  pk_view : FrameView;
  pk_caplen : Z;
  pk_wirelen : Z;
}.

(** The participants of a packet, by MAC or else by IP. *)
Definition participants (cfg : NetworkConfig) (view : FrameView) : list (DeviceRecord * bool * bool) :=
  let resolve mac ip := resolve_device mac ip (nc_inventory cfg) in
  let src_mac := resolve (Some (fv_src_mac view)) None in
  let dst_mac := resolve (Some (fv_dst_mac view)) None in
  let '(src_dev, dst_dev) :=
    match src_mac, dst_mac with
    | None, None => (resolve None (fv_src_ip view), resolve None (fv_dst_ip view))
    | _, _ => (src_mac, dst_mac)
    end in
  match src_dev, dst_dev with
  | None, None => []
  | Some src, Some dst =>
      if bool_decide (dv_device_name src = dv_device_name dst) then [(dst, true, true)]
      else [(src, true, false); (dst, false, true)]
  | Some src, None => [(src, true, false)]
  | None, Some dst => [(dst, false, true)]
  end.

Definition packet_contributions (cfg : NetworkConfig) (wid ts_ns : Z) (p : PacketEvent)
    : list (Contribution (Z * string) DeviceWindowAccumulator) :=
  map (λ d, let '(dev, is_src, is_dst) := d in
         mk_contribution (wid, dv_device_name dev) (new_acc (dv_device_name dev) wid)
           (update_device cfg is_src is_dst (pk_view p) (pk_caplen p) (pk_wirelen p) ts_ns))
    (participants cfg (pk_view p)).

Definition NM (A : Type) : Type := M NetworkWindowManager A.

Definition net_finalize_due (cfg : NetworkConfig) : NM (list FeatureRow) := λ s,
  let '(r, l) := finalize_due_rows (finalize_device cfg) (mk_live (nm_windows s) (nm_tracker s)) in
  (r, mk_net_manager (lv_windows l) (lv_tracker l) (nm_diagnostics s)).

(** [add_packet] *)
Definition add_packet (cfg : NetworkConfig) (p : PacketEvent) : NM (list FeatureRow) := λ s,
  let d := bump "packets_total" 1 (nm_diagnostics s) in
  match pk_ts_ns p with
  | None => (Ok [], mk_net_manager (nm_windows s) (nm_tracker s) (bump "packets_without_timestamp" 1 d))
  | Some ts_ns =>
      match admit_event (nc_grid cfg) (nc_clock_tolerance_ns cfg) "network packet" ts_ns (nm_tracker s, d) with
      | (Raise e, (t, d)) => (Raise e, mk_net_manager (nm_windows s) t d)
      | (Ok wid, (t, d)) =>
          match packet_contributions cfg wid ts_ns p with
          | [] => (Ok [], mk_net_manager (nm_windows s) t (bump "unresolved_endpoint_packets" 1 d))
          | cs =>
              let windows := foldl contribute (nm_windows s) cs in
              let d := raise_to "capacity_peak_usage" (Z.of_nat (size windows)) d in
              net_finalize_due cfg (mk_net_manager windows t d)
          end
      end
  end.

Definition net_finish (cfg : NetworkConfig) : NM (list FeatureRow) := λ s,
  match finish_rows (finalize_device cfg) (nm_windows s) with
  | Ok rows => (Ok rows, mk_net_manager ∅ (nm_tracker s) (nm_diagnostics s))
  | Raise e => (Raise e, s)
  end.

(** *** The manager streams *)
Definition net_live (s : NetworkWindowManager) : Live (Z * string) DeviceWindowAccumulator :=
  mk_live (nm_windows s) (nm_tracker s).

Definition net_arrival (cfg : NetworkConfig) (p : PacketEvent)
    : Arrival (Z * string) DeviceWindowAccumulator :=
  match pk_ts_ns p with
  | None => Ignored
  | Some ts_ns =>
      let wid := (assign (nc_grid cfg) (nc_clock_tolerance_ns cfg) ts_ns).1 in
      Timed ts_ns wid (packet_contributions cfg wid ts_ns p)
  end.

Lemma as_tuple_never_late s : never_late (as_tuple s).
Proof. unfold as_tuple, math_sqrt. auto with never_late. Qed.
#[export] Hint Resolve as_tuple_never_late : never_late.

Lemma finalize_device_never_late cfg acc : never_late (finalize_device cfg acc).
Proof.
  unfold finalize_device. destruct (window_bounds _ _) as [s e]. cbv zeta.
  repeat (apply never_late_bind; [auto with never_late | intros ?]). apply never_late_ok.
Qed.

Lemma net_arrival_ok cfg p : arrival_ok (net_arrival cfg p).
Proof.
  unfold net_arrival, arrival_ok. destruct (pk_ts_ns p) as [ts|]; [|done].
  unfold packet_contributions. apply Forall_fmap, Forall_forall. by intros [[dev a] b] _.
Qed.

(** One packet is one step of the stream. *)
Lemma add_packet_live cfg p s :
  match add_packet cfg p s with
  | (Ok rows, s') => ∃ out, live_step (net_arrival cfg p) (net_live s) = Some (out, net_live s') ∧
                            Forall2 (finalized (finalize_device cfg)) out rows
  | (Raise e, _) => exn_type e = EventOlderThanWatermarkError ↔
                    live_step (net_arrival cfg p) (net_live s) = None
  end.
Proof.
  unfold add_packet, net_arrival. destruct (pk_ts_ns p) as [ts|]; [|by exists []].
  set (wid := (assign _ _ _).1). set (d0 := bump _ _ _).
  destruct (admit_event_spec (nc_grid cfg) (nc_clock_tolerance_ns cfg) "network packet" ts (nm_tracker s) d0)
    as (d' & [[-> Hb]|(e & -> & He & Hb)]); fold wid in Hb |- *; cbn [live_step net_live lv_tracker lv_windows];
    rewrite Hb; [|done].
  destruct (packet_contributions cfg wid ts p) as [|c cs]; [by exists [] |].
  unfold net_finalize_due. cbn [nm_windows nm_tracker nm_diagnostics].
  set (l := mk_live _ _). destruct (finalize_due_rows (finalize_device cfg) l) as [r l'] eqn:Hf.
  apply finalize_due_rows_spec in Hf. destruct r as [rows|e].
  - destruct Hf as [Hrows ->]. exists (live_finalize l).1. split; [|done].
    unfold net_live. cbn [nm_windows nm_tracker]. f_equal. by destruct (live_finalize l) as [? []].
  - destruct Hf as [a Ha]. split; [|done]. intros Hl. by apply finalize_device_never_late in Ha.
Qed.

Lemma net_finish_live cfg s :
  match net_finish cfg s with
  | (Ok rows, s') => Forall2 (finalized (finalize_device cfg)) (sorted_entries (nm_windows s)) rows
  | (Raise e, _) => exn_type e ≠ EventOlderThanWatermarkError
  end.
Proof.
  unfold net_finish. destruct (finish_rows _ _) as [rows|e] eqn:Hf.
  - by apply finish_rows_ok.
  - apply mapM_result_raise in Hf as [ka Ha]. by apply finalize_device_never_late in Ha.
Qed.

Definition network_manager (cfg : NetworkConfig)
    : WindowManager NetworkWindowManager PacketEvent (Z * string) DeviceWindowAccumulator FeatureRow.
Proof.
  refine (mk_manager _ _ _ _ _ _ _ _ (add_packet cfg) (net_finish cfg) net_live (net_arrival cfg)
    (finalized (finalize_device cfg)) (net_arrival_ok cfg) _ _ _ _).
  - intros p s rows s' Hadd. pose proof (add_packet_live cfg p s) as H. by rewrite Hadd in H.
  - intros p s. pose proof (add_packet_live cfg p s) as H.
    destruct (add_packet cfg p s) as [[rows|e] s']; [destruct H as (out & -> & _) |]; naive_solver.
  - intros s rows s' Hf. pose proof (net_finish_live cfg s) as H. by rewrite Hf in H.
  - intros s e s' Hf. pose proof (net_finish_live cfg s) as H. by rewrite Hf in H.
Defined.

Lemma new_network_manager_fresh cfg grid lateness s :
  new_network_manager grid lateness = Ok s → fresh (network_manager cfg) s.
Proof.
  intros (t & Ht & [= <-])%result_bind_ok. apply new_tracker_ok in Ht as [Hok Hm]. by split.
Qed.

(** The participants are devices of the inventory. *)
Lemma participants_in records cfg view x :
  nc_inventory cfg = new_inventory records → x ∈ participants cfg view → x.1.1 ∈ records.
Proof.
  intros Hinv. unfold participants. rewrite Hinv.
  assert (Hone : ∀ mac ip dev, resolve_device mac ip (new_inventory records) = Some dev → dev ∈ records)
    by (intros *; apply resolve_device_in).
  assert (Hpair : ∀ s d : option DeviceRecord,
    (∀ dev, s = Some dev → dev ∈ records) → (∀ dev, d = Some dev → dev ∈ records) →
    x ∈ match s, d with
        | None, None => []
        | Some src, Some dst =>
            if bool_decide (dv_device_name src = dv_device_name dst) then [(dst, true, true)]
            else [(src, true, false); (dst, false, true)]
        | Some src, None => [(src, true, false)]
        | None, Some dst => [(dst, false, true)]
        end → x.1.1 ∈ records).
  { intros [src|] [dst|] Hsrc Hdst; [case_bool_decide | | |]; rewrite ?elem_of_cons, ?elem_of_nil;
      intros Hx; destruct_or?; subst; cbn; eauto; done. }
  cbv zeta. set (rs := resolve_device (Some (fv_src_mac view)) _ _).
  set (rd := resolve_device (Some (fv_dst_mac view)) _ _).
  set (src_ip := resolve_device None (fv_src_ip view) _). set (dst_ip := resolve_device None (fv_dst_ip view) _).
  destruct rs as [s|] eqn:H1, rd as [d|] eqn:H2;
    [apply (Hpair (Some s) (Some d)) | apply (Hpair (Some s) None) | apply (Hpair None (Some d)) | apply (Hpair src_ip dst_ip)];
    intros dev Hdev; try (injection Hdev as <-); by try (eapply Hone; eassumption).
Qed.

Lemma net_names cfg ps records k :
  nc_inventory cfg = new_inventory records →
  (∃ c, c ∈ all_contributions (map (net_arrival cfg) ps) ∧ cb_key c = k) → k.2 ∈ map dv_device_name records.
Proof.
  intros Hinv (c & Hc & <-). apply list_elem_of_bind in Hc as (a & Hc & (p & -> & Hp)%list_elem_of_fmap).
  unfold net_arrival in Hc. destruct (pk_ts_ns p) as [ts|]; cbn in Hc; [|set_solver].
  apply list_elem_of_fmap in Hc as (x & -> & Hx%(participants_in records)); [|done].
  destruct x as [[dev i] o]. cbn in *. by apply list_elem_of_fmap_2.
Qed.

(** ** Communication edges *)
Definition RESOLVED_MAC : string := "resolved_mac".
Definition RESOLVED_IP : string := "resolved_ip".
Definition EXTERNAL : string := "external".
Definition BROADCAST : string := "broadcast".
Definition MULTICAST : string := "multicast".
Definition PORT_CAP : nat := 32.

Definition CapacityExceededError : exn_class := OtherError "CapacityExceededError".

(** [int(text)] on ASCII text: a sign, then digits with single underscores between. *)
Fixpoint int_digits (l : list ascii) (acc : Z) (need_digit : bool) : option Z :=
  match l with
  | [] => if need_digit then None else Some acc
  | c :: l =>
      if is_digit c then int_digits l (acc * 10 + (code c - 48)) false
      else if Ascii.eqb c "_" && negb need_digit then int_digits l acc true
      else None
  end.
Definition py_int (s : string) : option Z :=
  match chars (py_strip s) with
  | "-"%char :: l => Z.opp <$> int_digits l 0 true
  | "+"%char :: l => int_digits l 0 true
  | l => int_digits l 0 true
  end.

(** [text.split(".")[0]] *)
Fixpoint before_dot (l : list ascii) : list ascii :=
  match l with
  | [] => []
  | c :: l => if Ascii.eqb c "." then [] else c :: before_dot l
  end.

Definition is_multicast_ipv4 (ip : option string) : bool :=
  match ip with
  | None => false
  | Some ip =>
      if bool_decide (ip = "") then false
      else match py_int (unchars (before_dot (chars ip))) with
           | Some first => (224 <=? first) && (first <=? 239)
           | None => false
           end
  end.

Example multicast_ex : map is_multicast_ipv4 [Some "239.1.2.3"; Some "192.168.0.255"; Some "ff02:0:0:0:0:0:0:1"]
  = [true; false; false].
Proof. reflexivity. Qed.

Record CommunicationEdgeAccumulator := mk_edge {
  ed_window_id : Z;
  ed_src_entity_id : string;
  ed_dst_entity_id : string;
  ed_src_resolution_status : string;
  ed_dst_resolution_status : string;
  ed_src_mac : option string;
  ed_dst_mac : option string;
  ed_src_ip : option string;
  ed_dst_ip : option string;
  ed_packet_count : Z;
  ed_captured_byte_count : Z;
  ed_wire_byte_count : Z;
  ed_first_ts_ns : option Z;
  ed_last_ts_ns : option Z;
  ed_protocol_counts : gmap string Z;
  ed_src_ports : gset Z;
  ed_dst_ports : gset Z;
  ed_src_ports_truncated : bool;
  ed_dst_ports_truncated : bool;
  ed_broadcast_seen : bool;
  ed_multicast_seen : bool;
}.

Definition new_edge (wid : Z) (src dst src_status dst_status : string) : CommunicationEdgeAccumulator :=
  mk_edge wid src dst src_status dst_status None None None None 0 0 0 None None ∅ ∅ ∅ false false false false.

(** [EndpointResolver.resolve] *)
Definition resolve_endpoint (inv : DeviceInventory) (mac ip : option string) : string * string :=
  let norm := normalize_mac mac in
  if bool_decide (norm = Some BROADCAST_MAC) then (BROADCAST, BROADCAST)
  else
    match norm ≫= λ n, iv_by_mac inv !! n with
    | Some rec => (dv_device_name rec, RESOLVED_MAC)
    | None =>
        let external := match norm with
          | Some n => ("mac:" +:+ n, EXTERNAL)
          | None => match ip with
                    | Some i => if truthy ip then ("ip:" +:+ i, EXTERNAL) else ("unknown", EXTERNAL)
                    | None => ("unknown", EXTERNAL)
                    end
          end in
        match ip with
        | Some i =>
            if truthy ip then
              if is_multicast_ipv4 ip then (MULTICAST, MULTICAST)
              else match iv_by_ip inv !! py_strip i with
                   | Some rec => (dv_device_name rec, RESOLVED_IP)
                   | None => external
                   end
            else external
        | None => external
        end
    end.

(** A port set takes no new port once it is full. *)
Definition add_port (port : option Z) (ports : gset Z) (truncated : bool) : gset Z * bool :=
  match port with
  | None => (ports, truncated)
  | Some p =>
      if (size ports <? PORT_CAP)%nat || bool_decide (p ∈ ports) then ({[p]} ∪ ports, truncated)
      else (ports, true)
  end.

Definition or_truthy (new old : option string) : option string := if truthy new then new else old.

(** [_update] *)
Definition update_edge (view : FrameView) (caplen wirelen ts_ns : Z) (e : CommunicationEdgeAccumulator)
    : CommunicationEdgeAccumulator :=
  let src_ports := add_port (fv_sport view) (ed_src_ports e) (ed_src_ports_truncated e) in
  let dst_ports := add_port (fv_dport view) (ed_dst_ports e) (ed_dst_ports_truncated e) in
  mk_edge (ed_window_id e) (ed_src_entity_id e) (ed_dst_entity_id e) (ed_src_resolution_status e)
    (ed_dst_resolution_status e)
    (or_truthy (Some (fv_src_mac view)) (ed_src_mac e)) (or_truthy (Some (fv_dst_mac view)) (ed_dst_mac e))
    (or_truthy (fv_src_ip view) (ed_src_ip e)) (or_truthy (fv_dst_ip view) (ed_dst_ip e))
    (ed_packet_count e + 1) (ed_captured_byte_count e + caplen) (ed_wire_byte_count e + wirelen)
    (match ed_first_ts_ns e with Some f => if ts_ns <? f then Some ts_ns else Some f | None => Some ts_ns end)
    (match ed_last_ts_ns e with Some l => if l <? ts_ns then Some ts_ns else Some l | None => Some ts_ns end)
    (incr (fv_l3_proto view) (ed_protocol_counts e))
    src_ports.1 dst_ports.1 src_ports.2 dst_ports.2
    (ed_broadcast_seen e || bool_decide (fv_dst_mac view = BROADCAST_MAC))
    (ed_multicast_seen e || is_multicast_ipv4 (fv_dst_ip view)).

Definition COMMUNICATION_FIELDS : list string :=
  ["scenario_id"; "window_id"; "window_start_utc"; "window_end_utc"; "src_entity_id"; "dst_entity_id";
   "src_resolution_status"; "dst_resolution_status"; "src_mac"; "dst_mac"; "src_ip"; "dst_ip";
   "packet_count"; "captured_byte_count"; "wire_byte_count"; "first_timestamp_utc";
   "last_timestamp_utc"; "protocols"; "protocol_packet_counts"; "src_ports"; "dst_ports";
   "src_ports_truncated"; "dst_ports_truncated"; "broadcast_indicator"; "multicast_indicator";
   "raw_source"; "extractor_version"; "schema_version"].

Definition stamp (ts : option Z) : result string :=
  match ts with Some t => iso_utc_from_ns t | None => raise TypeError "int() argument must not be None" end.

Definition sorted_ints (s : gset Z) : list Z := isort Z.leb (elements s).

(** [finalize] *)
Definition finalize_edge (grid : WindowGrid) (scenario_id : string) (e : CommunicationEdgeAccumulator)
    : result FeatureRow :=
  let '(start_ns, end_ns) := window_bounds grid (ed_window_id e) in
  let protocols := sort_strings (elements (dom (ed_protocol_counts e))) in
  start_utc ← iso_utc_from_ns start_ns;
  end_utc ← iso_utc_from_ns end_ns;
  first_utc ← stamp (ed_first_ts_ns e);
  last_utc ← stamp (ed_last_ts_ns e);
  Ok [("scenario_id", JStr scenario_id); ("window_id", JInt (ed_window_id e));
      ("window_start_utc", JStr start_utc); ("window_end_utc", JStr end_utc);
      ("src_entity_id", JStr (ed_src_entity_id e)); ("dst_entity_id", JStr (ed_dst_entity_id e));
      ("src_resolution_status", JStr (ed_src_resolution_status e));
      ("dst_resolution_status", JStr (ed_dst_resolution_status e));
      ("src_mac", json_opt_str (ed_src_mac e)); ("dst_mac", json_opt_str (ed_dst_mac e));
      ("src_ip", json_opt_str (ed_src_ip e)); ("dst_ip", json_opt_str (ed_dst_ip e));
      ("packet_count", JInt (ed_packet_count e));
      ("captured_byte_count", JInt (ed_captured_byte_count e));
      ("wire_byte_count", JInt (ed_wire_byte_count e));
      ("first_timestamp_utc", JStr first_utc); ("last_timestamp_utc", JStr last_utc);
      ("protocols", jstrs protocols);
      ("protocol_packet_counts", JList (map (λ p, jcount p (ed_protocol_counts e)) protocols));
      ("src_ports", JList (map JInt (sorted_ints (ed_src_ports e))));
      ("dst_ports", JList (map JInt (sorted_ints (ed_dst_ports e))));
      ("src_ports_truncated", JBool (ed_src_ports_truncated e));
      ("dst_ports_truncated", JBool (ed_dst_ports_truncated e));
      ("broadcast_indicator", JBool (ed_broadcast_seen e));
      ("multicast_indicator", JBool (ed_multicast_seen e));
      ("raw_source", JStr "pcap"); ("extractor_version", JStr "datasense_raw_extractor_v2");
      ("schema_version", JStr "communication_feature_schema_v1")].

(** ** The communication manager *)
Record CommConfig := mk_comm_config {
  cc_grid : WindowGrid;
  cc_scenario_id : string;
  cc_inventory : DeviceInventory;
  cc_clock_tolerance_ns : Z;
  cc_active_window_capacity : Z;
}.

Definition new_comm_config (grid : WindowGrid) (scenario_id : string) (inv : DeviceInventory)
    (clock_tolerance_ns active_window_capacity : Z) : CommConfig :=
  mk_comm_config grid scenario_id inv clock_tolerance_ns (Z.max 1 active_window_capacity).

Record CommunicationWindowManager := mk_comm_manager {
  cm_edges : gmap (Z * string * string) CommunicationEdgeAccumulator;
  cm_tracker : WatermarkTracker;
  cm_diagnostics : Counters;
}.

Definition comm_diagnostics : Counters :=
  new_counters ["packets_seen"; "packets_without_timestamp"; "edges_created";
    "unresolved_endpoint_packets"; "prestart_snapped_events"; "prestart_snapped_max_displacement_ns";
    "prestart_negative_events"; "late_events"; "max_observed_lateness_ns"; "capacity_peak_usage";
    "capacity_exceeded_events"].

Definition new_communication_manager (grid : WindowGrid) (max_event_lateness_ns : Z)
    : result CommunicationWindowManager :=
  tracker ← new_tracker (window_ns grid) max_event_lateness_ns;
  Ok (mk_comm_manager ∅ tracker comm_diagnostics).

Definition CM (A : Type) : Type := M CommunicationWindowManager A.

(** The two resolved endpoints of a packet. *)
Definition endpoints (cfg : CommConfig) (view : FrameView) : (string * string) * (string * string) :=
  (resolve_endpoint (cc_inventory cfg) (Some (fv_src_mac view)) (fv_src_ip view),
   resolve_endpoint (cc_inventory cfg) (Some (fv_dst_mac view)) (fv_dst_ip view)).

Definition edge_contribution (cfg : CommConfig) (wid ts_ns : Z) (p : PacketEvent)
    : Contribution (Z * string * string) CommunicationEdgeAccumulator :=
  let '((src, src_status), (dst, dst_status)) := endpoints cfg (pk_view p) in
  mk_contribution (wid, src, dst) (new_edge wid src dst src_status dst_status)
    (update_edge (pk_view p) (pk_caplen p) (pk_wirelen p) ts_ns).

Definition comm_finalize_due (cfg : CommConfig) : CM (list FeatureRow) := λ s,
  let '(r, l) := finalize_due_rows (finalize_edge (cc_grid cfg) (cc_scenario_id cfg))
                   (mk_live (cm_edges s) (cm_tracker s)) in
  (r, mk_comm_manager (lv_windows l) (lv_tracker l) (cm_diagnostics s)).

Definition capacity_message (live_edges capacity window_id : Z) : string :=
  "live communication-edge accumulators (" +:+ fmt_int live_edges +:+ ") exceeded active_window_capacity ("
  +:+ fmt_int capacity +:+ ") while inserting an edge in window " +:+ fmt_int window_id
  +:+ ". Session aborted without data loss; increase the capacity or reduce max_event_lateness.".

(** [add_packet] *)
Definition comm_add_packet (cfg : CommConfig) (p : PacketEvent) : CM (list FeatureRow) := λ s,
  let d := bump "packets_seen" 1 (cm_diagnostics s) in
  match pk_ts_ns p with
  | None => (Ok [], mk_comm_manager (cm_edges s) (cm_tracker s) (bump "packets_without_timestamp" 1 d))
  | Some ts_ns =>
      match admit_event (cc_grid cfg) (cc_clock_tolerance_ns cfg) "communication packet" ts_ns (cm_tracker s, d) with
      | (Raise e, (t, d)) => (Raise e, mk_comm_manager (cm_edges s) t d)
      | (Ok wid, (t, d)) =>
          let '((src, src_status), (dst, dst_status)) := endpoints cfg (pk_view p) in
          let d := if bool_decide (src_status = EXTERNAL) && bool_decide (dst_status = EXTERNAL)
                   then bump "unresolved_endpoint_packets" 1 d else d in
          let live := Z.of_nat (size (cm_edges s)) in
          let edges := contribute (cm_edges s) (edge_contribution cfg wid ts_ns p) in
          match cm_edges s !! (wid, src, dst) with
          | Some _ => comm_finalize_due cfg (mk_comm_manager edges t d)
          | None =>
              if cc_active_window_capacity cfg <=? live then
                (raise CapacityExceededError (capacity_message live (cc_active_window_capacity cfg) wid),
                 mk_comm_manager (cm_edges s) t (bump "capacity_exceeded_events" 1 d))
              else
                let d := raise_to "capacity_peak_usage" (live + 1) (bump "edges_created" 1 d) in
                comm_finalize_due cfg (mk_comm_manager edges t d)
          end
      end
  end.

Definition comm_finish (cfg : CommConfig) : CM (list FeatureRow) := λ s,
  match finish_rows (finalize_edge (cc_grid cfg) (cc_scenario_id cfg)) (cm_edges s) with
  | Ok rows => (Ok rows, mk_comm_manager ∅ (cm_tracker s) (cm_diagnostics s))
  | Raise e => (Raise e, s)
  end.

Lemma finalize_edge_fields grid sc e row :
  finalize_edge grid sc e = Ok row →
  row.*1 = COMMUNICATION_FIELDS ∧ od_get "window_id" row = Some (JInt (ed_window_id e)) ∧
  od_get "src_entity_id" row = Some (JStr (ed_src_entity_id e)) ∧
  od_get "dst_entity_id" row = Some (JStr (ed_dst_entity_id e)) ∧
  od_get "packet_count" row = Some (JInt (ed_packet_count e)) ∧
  od_get "captured_byte_count" row = Some (JInt (ed_captured_byte_count e)) ∧
  od_get "wire_byte_count" row = Some (JInt (ed_wire_byte_count e)).
Proof.
  unfold finalize_edge. destruct (window_bounds _ _) as [s e']. intros H.
  do 4 (apply result_bind_ok in H as (? & _ & H)). by injection H as <-.
Qed.

Lemma finalize_edge_never_late grid sc e : never_late (finalize_edge grid sc e).
Proof.
  unfold finalize_edge. destruct (window_bounds _ _) as [s e']. cbv zeta.
  assert (∀ o, never_late (stamp o)) by (intros [|]; cbn; auto with never_late).
  repeat (apply never_late_bind; [auto with never_late | intros ?]). apply never_late_ok.
Qed.

(** *** The manager streams *)
Definition comm_live (s : CommunicationWindowManager)
    : Live (Z * string * string) CommunicationEdgeAccumulator := mk_live (cm_edges s) (cm_tracker s).

Definition comm_arrival (cfg : CommConfig) (p : PacketEvent)
    : Arrival (Z * string * string) CommunicationEdgeAccumulator :=
  match pk_ts_ns p with
  | None => Ignored
  | Some ts_ns =>
      let wid := (assign (cc_grid cfg) (cc_clock_tolerance_ns cfg) ts_ns).1 in
      Timed ts_ns wid [edge_contribution cfg wid ts_ns p]
  end.

Lemma comm_arrival_ok cfg p : arrival_ok (comm_arrival cfg p).
Proof.
  unfold comm_arrival, arrival_ok. destruct (pk_ts_ns p); [|done]. constructor; [|done].
  unfold edge_contribution. by destruct (endpoints _ _) as [[] []].
Qed.

Definition edge_row (cfg : CommConfig) : (Z * string * string) * CommunicationEdgeAccumulator → FeatureRow → Prop :=
  finalized (finalize_edge (cc_grid cfg) (cc_scenario_id cfg)).

Lemma comm_finalize_due_live cfg s :
  match comm_finalize_due cfg s with
  | (Ok rows, s') => Forall2 (edge_row cfg) (live_finalize (comm_live s)).1 rows ∧
                     comm_live s' = (live_finalize (comm_live s)).2
  | (Raise e, _) => exn_type e ≠ EventOlderThanWatermarkError
  end.
Proof.
  unfold comm_finalize_due. fold (comm_live s).
  destruct (finalize_due_rows _ (comm_live s)) as [r l'] eqn:Hf.
  apply finalize_due_rows_spec in Hf. destruct r as [rows|e].
  - destruct Hf as [Hrows ->]. split; [done |]. by destruct (live_finalize _) as [? []].
  - destruct Hf as [a Ha]. by apply finalize_edge_never_late in Ha.
Qed.

Lemma comm_add_packet_live cfg p s :
  match comm_add_packet cfg p s with
  | (Ok rows, s') => ∃ out, live_step (comm_arrival cfg p) (comm_live s) = Some (out, comm_live s') ∧
                            Forall2 (edge_row cfg) out rows
  | (Raise e, _) => exn_type e = EventOlderThanWatermarkError ↔
                    live_step (comm_arrival cfg p) (comm_live s) = None
  end.
Proof.
  unfold comm_add_packet, comm_arrival. destruct (pk_ts_ns p) as [ts|]; [|by exists []].
  set (wid := (assign _ _ _).1). set (d0 := bump _ _ _).
  destruct (admit_event_spec (cc_grid cfg) (cc_clock_tolerance_ns cfg) "communication packet" ts (cm_tracker s) d0)
    as (d' & [[-> Hb]|(e & -> & He & Hb)]); fold wid in Hb |- *; cbn [live_step comm_live lv_tracker lv_windows];
    rewrite Hb; [|done].
  destruct (endpoints cfg (pk_view p)) as [[src ss] [dst ds]] eqn:Hends.
  assert (Hfin : ∀ d, match comm_finalize_due cfg (mk_comm_manager
      (contribute (cm_edges s) (edge_contribution cfg wid ts p)) (observe ts wid (cm_tracker s)).2 d) with
    | (Ok rows, s') => ∃ out, Some (live_finalize (mk_live
          (foldl contribute (cm_edges s) [edge_contribution cfg wid ts p])
          (observe ts wid (cm_tracker s)).2)) = Some (out, comm_live s') ∧ Forall2 (edge_row cfg) out rows
    | (Raise e, _) => exn_type e = EventOlderThanWatermarkError ↔ Some (live_finalize (mk_live
          (foldl contribute (cm_edges s) [edge_contribution cfg wid ts p])
          (observe ts wid (cm_tracker s)).2)) = None
    end).
  { intros d. set (s1 := mk_comm_manager _ _ _). pose proof (comm_finalize_due_live cfg s1) as H.
    change (mk_live _ _) with (comm_live s1).
    destruct (comm_finalize_due cfg s1) as [[rows|e] s']; [|naive_solver].
    destruct H as [Hrows Hl]. exists (live_finalize (comm_live s1)).1. split; [|done].
    rewrite Hl. by destruct (live_finalize _). }
  destruct (cm_edges s !! (wid, src, dst)); [apply Hfin |].
  destruct (_ <=? _); [|apply Hfin]. by split.
Qed.

(** The capacity bounds the live edges, whatever the outcome. *)
Lemma comm_add_packet_capacity cfg p s :
  Z.of_nat (size (cm_edges s)) ≤ cc_active_window_capacity cfg →
  Z.of_nat (size (cm_edges (comm_add_packet cfg p s).2)) ≤ cc_active_window_capacity cfg.
Proof.
  intros Hs. unfold comm_add_packet. destruct (pk_ts_ns p) as [ts|]; [|done].
  destruct (admit_event _ _ _ _ _) as [[wid|e] [t d]]; [|done].
  destruct (endpoints cfg (pk_view p)) as [[src ss] [dst ds]] eqn:Hends.
  assert (Hfin : ∀ d, Z.of_nat (size (contribute (cm_edges s) (edge_contribution cfg wid ts p)))
      ≤ cc_active_window_capacity cfg →
    Z.of_nat (size (cm_edges (comm_finalize_due cfg (mk_comm_manager
      (contribute (cm_edges s) (edge_contribution cfg wid ts p)) t d)).2)) ≤ cc_active_window_capacity cfg).
  { intros d' Hc. unfold comm_finalize_due. cbn [cm_edges cm_tracker cm_diagnostics].
    set (l := mk_live _ _).
    pose proof (finalize_due_rows_shrinks (finalize_edge (cc_grid cfg) (cc_scenario_id cfg)) l) as Hsub.
    destruct (finalize_due_rows _ l) as [r l']. cbn in *. apply map_subseteq_size in Hsub. lia. }
  assert (Hkey : cb_key (edge_contribution cfg wid ts p) = (wid, src, dst)).
  { unfold edge_contribution. by rewrite Hends. }
  destruct (cm_edges s !! (wid, src, dst)) as [a|] eqn:Hk.
  - apply Hfin. unfold contribute. rewrite Hkey, map_size_insert_Some; eauto.
  - destruct (Z.leb_spec (cc_active_window_capacity cfg) (Z.of_nat (size (cm_edges s)))); [done |].
    apply Hfin. unfold contribute. rewrite Hkey, map_size_insert_None by done. lia.
Qed.

Definition communication_manager (cfg : CommConfig)
    : WindowManager CommunicationWindowManager PacketEvent (Z * string * string)
        CommunicationEdgeAccumulator FeatureRow.
Proof.
  refine (mk_manager _ _ _ _ _ _ _ _ (comm_add_packet cfg) (comm_finish cfg) comm_live (comm_arrival cfg)
    (edge_row cfg) (comm_arrival_ok cfg) _ _ _ _).
  - intros p s rows s' Hadd. pose proof (comm_add_packet_live cfg p s) as H. by rewrite Hadd in H.
  - intros p s. pose proof (comm_add_packet_live cfg p s) as H.
    destruct (comm_add_packet cfg p s) as [[rows|e] s']; [destruct H as (out & -> & _) |]; naive_solver.
  - intros s rows s'. unfold comm_finish. destruct (finish_rows _ _) as [rows'|e] eqn:Hf; [|done].
    intros [= <- <-]. by apply finish_rows_ok.
  - intros s e s'. unfold comm_finish. destruct (finish_rows _ _) as [rows'|e'] eqn:Hf; [done |].
    intros [= <- <-]. apply mapM_result_raise in Hf as [ka Ha]. by apply finalize_edge_never_late in Ha.
Defined.

Lemma new_communication_manager_fresh cfg grid lateness s :
  new_communication_manager grid lateness = Ok s → fresh (communication_manager cfg) s.
Proof.
  intros (t & Ht & [= <-])%result_bind_ok. apply new_tracker_ok in Ht as [Hok Hm]. by split.
Qed.

Lemma comm_feed_capacity cfg ps s :
  Z.of_nat (size (cm_edges s)) ≤ cc_active_window_capacity cfg →
  Z.of_nat (size (cm_edges (feed (communication_manager cfg) ps s).2)) ≤ cc_active_window_capacity cfg.
Proof.
  revert s. induction ps as [|p ps IH]; intros s Hs; [done |].
  apply (comm_add_packet_capacity _ p) in Hs. cbn [feed wm_add communication_manager].
  unfold mbind, M_bind. destruct (comm_add_packet cfg p s) as [[rows|e] s1]; [|done].
  cbn [snd] in Hs. apply IH in Hs. destruct (feed (communication_manager cfg) ps s1) as [[rest|e] s2]; exact Hs.
Qed.

(** ** What the rows say of the packets *)
Definition row_int (name : string) (row : FeatureRow) : Z :=
  match od_get name row with Some (JInt z) => z | _ => 0 end.
Definition row_str (name : string) (row : FeatureRow) : string :=
  match od_get name row with Some (JStr s) => s | _ => "" end.

(** The packets with a time stamp, with their window. *)
Definition timed_packets (cfg : CommConfig) (ps : list PacketEvent) : list (Z * PacketEvent) :=
  ps ≫= λ p, match pk_ts_ns p with
             | Some ts => [((assign (cc_grid cfg) (cc_clock_tolerance_ns cfg) ts).1, p)]
             | None => []
             end.

Definition packet_edge (cfg : CommConfig) (wp : Z * PacketEvent) : Z * string * string :=
  let '((src, _), (dst, _)) := endpoints cfg (pk_view wp.2) in (wp.1, src, dst).

Definition edge_of_row (row : FeatureRow) : Z * string * string :=
  (row_int "window_id" row, row_str "src_entity_id" row, row_str "dst_entity_id" row).

(** The contributions of a capture are those of its timed packets. *)
Lemma comm_contributions cfg ps c :
  c ∈ all_contributions (map (comm_arrival cfg) ps) ↔
  ∃ p ts, p ∈ ps ∧ pk_ts_ns p = Some ts ∧
    c = edge_contribution cfg (assign (cc_grid cfg) (cc_clock_tolerance_ns cfg) ts).1 ts p.
Proof.
  unfold all_contributions. rewrite list_elem_of_bind. setoid_rewrite list_elem_of_fmap.
  unfold comm_arrival. split.
  - intros (a & Hc & p & -> & Hp). destruct (pk_ts_ns p) as [ts|] eqn:Hts; cbn in Hc; [|set_solver].
    apply list_elem_of_singleton in Hc. eauto.
  - intros (p & ts & Hp & Hts & ->). eexists. split; [|exists p; split; [done | done]].
    rewrite Hts. cbn. set_solver.
Qed.

Lemma edge_contribution_key cfg wid ts p : cb_key (edge_contribution cfg wid ts p) = packet_edge cfg (wid, p).
Proof. unfold edge_contribution, packet_edge. cbn [snd fst]. by destruct (endpoints cfg (pk_view p)) as [[] []]. Qed.

Lemma comm_shares cfg ps (g : PacketEvent → Z) (h : Contribution (Z * string * string) CommunicationEdgeAccumulator → Z) :
  (∀ wid ts p, h (edge_contribution cfg wid ts p) = g p) →
  zsum (map h (all_contributions (map (comm_arrival cfg) ps))) = zsum (map (g ∘ snd) (timed_packets cfg ps)).
Proof.
  intros Hh. unfold all_contributions, timed_packets. induction ps as [|p ps IH]; [done |].
  cbn [map]. rewrite !bind_cons, !map_app, !zsum_app, <-IH. apply Z.add_cancel_r.
  unfold comm_arrival. destruct (pk_ts_ns p); [|done].
  cbn [arrival_contributions map compose snd]. by rewrite !zsum_cons, Hh.
Qed.

Section edges.
Context (cfg : CommConfig) (ps : list PacketEvent).
Let edges := group (map (comm_arrival cfg) ps).

Lemma edges_total (f : CommunicationEdgeAccumulator → Z) (g : PacketEvent → Z) :
  (∀ wid ts p a, f (cb_new (edge_contribution cfg wid ts p)) = 0 ∧
     f (cb_update (edge_contribution cfg wid ts p) a) = f a + g p) →
  msum f edges = zsum (map (g ∘ snd) (timed_packets cfg ps)).
Proof.
  intros Hf. pose (share := λ c : Contribution (Z * string * string) CommunicationEdgeAccumulator, f (cb_update c (cb_new c))).
  assert (Hshare : ∀ wid ts p, share (edge_contribution cfg wid ts p) = g p).
  { intros wid ts p. unfold share.
    destruct (Hf wid ts p (cb_new (edge_contribution cfg wid ts p))) as [H0 ->]. lia. }
  unfold edges. rewrite (group_sum f share); [by apply comm_shares |].
  intros c (p & ts & Hp & Hts & ->)%comm_contributions.
  rewrite Hshare. split; [apply (Hf _ _ _ (cb_new (edge_contribution cfg 0 ts p))) | apply Hf].
Qed.

Lemma edges_keyed : map_Forall (λ k e, (ed_window_id e, ed_src_entity_id e, ed_dst_entity_id e) = k) edges.
Proof.
  apply group_forall. intros c (p & ts & Hp & Hts & ->)%comm_contributions.
  unfold edge_contribution. destruct (endpoints _ _) as [[] []]. cbn. split; [done |]. by intros a Ha.
Qed.

Lemma edges_observed k : is_Some (edges !! k) ↔ ∃ wp, wp ∈ timed_packets cfg ps ∧ packet_edge cfg wp = k.
Proof.
  unfold edges. rewrite group_dom. setoid_rewrite comm_contributions.
  unfold timed_packets. setoid_rewrite list_elem_of_bind. split.
  - intros (c & (p & ts & Hp & Hts & ->) & <-). rewrite edge_contribution_key. eexists. split; [|done].
    exists p. split; [|done]. rewrite Hts. set_solver.
  - intros ([wid p] & (p' & Hin & Hp) & <-). destruct (pk_ts_ns p') as [ts|] eqn:Hts; [|set_solver].
    apply list_elem_of_singleton in Hin. injection Hin as -> <-. eexists. split; [by eauto 6 |].
    apply edge_contribution_key.
Qed.

(** The rows of the edges. *)
Lemma edge_rows rows :
  Forall2 (edge_row cfg) (sorted_entries edges) rows →
  map edge_of_row rows = sorted_keys edges ∧
  zsum (map (row_int "packet_count") rows) = Z.of_nat (length (timed_packets cfg ps)) ∧
  zsum (map (row_int "captured_byte_count") rows) = zsum (map (pk_caplen ∘ snd) (timed_packets cfg ps)) ∧
  zsum (map (row_int "wire_byte_count") rows) = zsum (map (pk_wirelen ∘ snd) (timed_packets cfg ps)).
Proof.
  intros Hrows.
  assert (Hmap : ∀ (B : Type) (g : FeatureRow → B) (h : (Z * string * string) * CommunicationEdgeAccumulator → B),
    (∀ ka r, edges !! ka.1 = Some ka.2 → edge_row cfg ka r → g r = h ka) → map g rows = map h (sorted_entries edges)).
  { intros B g h Hgh.
    assert (Hin : ∀ ka, ka ∈ sorted_entries edges → edges !! ka.1 = Some ka.2)
      by (by intros [k a] ?%elem_of_sorted_entries).
    revert Hin. induction Hrows as [|ka r es rs Hr Hrs IH]; intros Hin; cbn; [done |].
    rewrite (Hgh ka r), IH; [done | set_solver | apply Hin; set_solver | done]. }
  rewrite (Hmap _ edge_of_row fst).
  2:{ intros [k a] r Hk (_ & H1 & H2 & H3 & _)%finalize_edge_fields. unfold edge_of_row, row_int, row_str.
      rewrite H1, H2, H3. cbn in *. by apply (edges_keyed k a). }
  rewrite (Hmap _ (row_int "packet_count") (λ ka, ed_packet_count ka.2)).
  2:{ intros [k a] r Hk (_ & _ & _ & _ & H1 & _)%finalize_edge_fields. unfold row_int. by rewrite H1. }
  rewrite (Hmap _ (row_int "captured_byte_count") (λ ka, ed_captured_byte_count ka.2)).
  2:{ intros [k a] r Hk (_ & _ & _ & _ & _ & H1 & _)%finalize_edge_fields. unfold row_int. by rewrite H1. }
  rewrite (Hmap _ (row_int "wire_byte_count") (λ ka, ed_wire_byte_count ka.2)).
  2:{ intros [k a] r Hk (_ & _ & _ & _ & _ & _ & H1)%finalize_edge_fields. unfold row_int. by rewrite H1. }
  split_and!.
  - apply sorted_entries_keys.
  - rewrite <-(msum_sorted ed_packet_count), (edges_total _ (λ _, 1)).
    2:{ intros wid ts p a. unfold edge_contribution. by destruct (endpoints _ _) as [[] []]. }
    generalize (timed_packets cfg ps). induction l as [|x l IH]; [done |].
    cbn [map length]. rewrite zsum_cons, IH. cbn. lia.
  - rewrite <-(msum_sorted ed_captured_byte_count), (edges_total _ pk_caplen); [done |].
    intros wid ts p a. unfold edge_contribution. by destruct (endpoints _ _) as [[] []].
  - rewrite <-(msum_sorted ed_wire_byte_count), (edges_total _ pk_wirelen); [done |].
    intros wid ts p a. unfold edge_contribution. by destruct (endpoints _ _) as [[] []].
Qed.
End edges.
