(* ===== verification/DsBehavior.v ===== *)
(** * Behaviour features

    Models [datasets/datasense/behavior_features.py]: the per-sensor window
    accumulator over MQTT telemetry, the statistics of its time-sorted sequence, the
    device history behind the cross-window gap, and the manager, which is a
    [WindowManager].  An event has the types its dataclass declares; its message
    value is any JSON value.  [sum] of floats comes from [PyRuntime], [math.log2] is
    the parameter [math_log2]. *)

From Stdlib Require Import SpecFloat.
From S2P Require Import Prelude PyString Json DsWindowing DsFrames SimDevices DsNetwork.

Definition BEHAVIOR_COMMON_FEATURES : list string :=
  ["messages_count"; "inter_message_delta_avg"; "inter_message_delta_max";
   "inter_message_delta_min"; "inter_message_delta_std"; "seconds_since_previous_event";
   "topics_active_count"; "topic_entropy"; "top_topic_message_share"; "numeric_messages_count";
   "array_messages_count"; "string_messages_count"; "qos_levels_distinct_count";
   "retained_messages_count"; "duplicate_messages_count"; "distinct_message_ids_count";
   "value_change_transitions_count"; "burst_max_messages_per_second";
   "active_fraction_of_window"].
Definition CONTINUOUS_PROFILE_FEATURES : list string :=
  ["value_avg"; "value_max"; "value_min"; "value_std"; "value_last"; "value_delta_abs_avg";
   "value_delta_abs_max"; "value_delta_abs_min"; "value_delta_abs_std"; "array_length_avg";
   "array_length_max"; "array_length_min"; "string_values_distinct_count";
   "constant_value_stream"].
Definition SPARSE_PROFILE_FEATURES : list string :=
  ["event_present"; "binary_state_flip_count"; "last_event_offset_seconds"].
Definition BEHAVIOR_GRAPH_METADATA_FIELDS : list string :=
  ["observed_topics"; "observed_applications"; "telemetry_source_mac"; "telemetry_source_ip";
   "internal_device_name"].

Definition TOPIC_CAP : nat := 64.
Definition TS_LIST_CAP : Z := 100000.

(** The binary logarithm of the platform. *)
Class LibM := { math_log2 : f64 → f64 }.

(** ** Telemetry events *)
Record MqttEvent := mk_event {
  me_ts_ns : Z;
  me_internal_device_name : option string;
  me_application : option string;
  me_ip : option string;
  me_mac : option string;
  me_full_id : option string;
  me_topic : option string;
  me_message_type : option string;
  me_message_value : json;
  me_qos : option Z;
  me_retained : option bool;
  me_duplicate : option bool;
  me_message_id : option Z;
  me_line_number : Z;
}.

(** What of a message enters the event sequence. *)
Inductive SeqValue := SeqFloat (x : f64) | SeqText (s : string).
Definition SeqItem : Type := Z * string * option SeqValue.

(** ** [bisect.insort] *)
Section bisect.
Context {A : Type} (lt : A → A → result bool).

(** The index after the last element the binary search does not find above [x]. *)
Fixpoint bisect_right (fuel : nat) (x : A) (l : list A) (lo hi : nat) : result nat :=
  match fuel with
  | O => Ok lo
  | S fuel =>
      if (lo <? hi)%nat then
        let mid := ((lo + hi) / 2)%nat in
        match l !! mid with
        | None => Ok lo
        | Some y =>
            match lt x y with
            | Ok true => bisect_right fuel x l lo mid
            | Ok false => bisect_right fuel x l (S mid) hi
            | Raise e => Raise e
            end
        end
      else Ok lo
  end.

Definition insort (x : A) (l : list A) : result (list A) :=
  match bisect_right (S (length l)) x l 0 (length l) with
  | Ok i => Ok (take i l ++ x :: drop i l)
  | Raise e => Raise e
  end.
End bisect.

Definition insort_int (z : Z) (l : list Z) : list Z :=
  match insort (λ x y, Ok (x <? y)) z l with Ok l' => l' | Raise _ => l end.

(** Python's [<] on two sequence items: tuples are compared at their first
    difference. *)
Definition item_ltb (x y : SeqItem) : result bool :=
  let '(t1, k1, v1) := x in
  let '(t2, k2, v2) := y in
  if negb (t1 =? t2) then Ok (t1 <? t2)
  else if negb (bool_decide (k1 = k2)) then Ok (str_leb k1 k2)
  else match v1, v2 with
       | None, None => Ok false
       | Some (SeqFloat a), Some (SeqFloat b) => Ok (negb (f_eqb a b) && f_ltb a b)
       | Some (SeqText a), Some (SeqText b) => Ok (negb (bool_decide (a = b)) && str_leb a b)
       | _, _ => raise TypeError "'<' not supported between instances of the two types"
       end.

(** ** The accumulator *)
Record BehaviorWindowAccumulator := mk_bacc {
  ba_device_name : string;
  ba_window_id : Z;
  ba_messages : Z;
  ba_last_ts_ns : option Z;
  ba_ts_list : list Z;
  ba_ts_overflow : bool;
  ba_event_seq : list SeqItem;
  ba_seq_overflow : bool;
  ba_topic_counts : list (string * Z);
  ba_type_counts : gmap string Z;
  ba_qos_levels : gset Z;
  ba_retained_count : Z;
  ba_duplicate_count : Z;
  ba_message_ids : gset Z;
  ba_array_len_stats : OnlineStats;
  ba_string_values : gset string;
  ba_distinct_numeric_values : list f64;
  ba_second_bins : gmap Z Z;
  ba_topics_meta : gset string;
  ba_apps_meta : gset string;
  ba_src_mac : option string;
  ba_src_ip : option string;
  ba_internal_name : option string;
}.

Definition new_bacc (device_name : string) (window_id : Z) : BehaviorWindowAccumulator :=
  mk_bacc device_name window_id 0 None [] false [] false [] ∅ ∅ 0 0 ∅ new_stats ∅ [] ∅ ∅ ∅ None None None.

Definition od_incr (k : string) (d : list (string * Z)) : list (string * Z) :=
  od_set k (default 0 (od_get k d) + 1) d.

(** [float(z)] of any integer *)
Definition float_of_int (z : Z) : result f64 :=
  if f_finite (f_of_Z z) then Ok (f_of_Z z) else raise OverflowError "int too large to convert to float".

(** [[float(v) for v in value if isinstance(v, (int, float))]] *)
Fixpoint numeric_entries (l : list json) : result (list f64) :=
  match l with
  | [] => Ok []
  | JBool b :: l => cons (f_of_Z (if b then 1 else 0)) <$> numeric_entries l
  | JInt z :: l => x ← float_of_int z; cons x <$> numeric_entries l
  | JFloat x :: l => cons x <$> numeric_entries l
  | _ :: l => numeric_entries l
  end.

Section manager.
Context `{PyRuntime} `{LibM}.

(** The kind of a message value and what enters the sequence. *)
Definition classify_value (value : json) : result (string * option SeqValue) :=
  match value with
  | JBool b => Ok ("numeric", Some (SeqFloat (f_of_Z (if b then 1 else 0))))
  | JInt z => x ← float_of_int z; Ok ("numeric", Some (SeqFloat x))
  | JFloat x => Ok ("numeric", Some (SeqFloat x))
  | JStr s =>
      let t := py_strip s in
      Ok ("string", if bool_decide (t = "") then None else Some (SeqText t))
  | JList l =>
      xs ← numeric_entries l;
      Ok ("array", match xs with
                   | [] => None
                   | _ => Some (SeqFloat (f_div (float_sum xs) (f_of_Z (Z.of_nat (length xs)))))
                   end)
  | _ => Ok ("unknown", None)
  end.

(** [str(seq_value)[:64]], by code points. *)
Fixpoint cp_take (n : nat) (l : list ascii) : list ascii :=
  match l with
  | [] => []
  | c :: l =>
      if (128 <=? code c) && (code c <? 192) then c :: cp_take n l
      else match n with O => [] | S n => c :: cp_take n l end
  end.

Definition add_float (x : f64) (l : list f64) : list f64 := if existsb (f_eqb x) l then l else l ++ [x].

Definition message_type_key (mtype : option string) : string :=
  let m := py_lower (default "" mtype) in if bool_decide (m = "") then "unknown" else m.

(** [_update] up to the message value. *)
Definition update_fields (window_start_ns : Z) (ev : MqttEvent) (acc : BehaviorWindowAccumulator)
    : BehaviorWindowAccumulator :=
  let ts := me_ts_ns ev in
  let room := Z.of_nat (length (ba_ts_list acc)) <? TS_LIST_CAP in
  let bin_index := (ts - window_start_ns) / 1000000000 in
  let named (o : option string) {A} (f : string → A → A) (a : A) :=
    match o with Some s => if bool_decide (s = "") then a else f s a | None => a end in
  mk_bacc (ba_device_name acc) (ba_window_id acc) (ba_messages acc + 1)
    (Some (match ba_last_ts_ns acc with Some l => Z.max l ts | None => ts end))
    (if room then insort_int ts (ba_ts_list acc) else ba_ts_list acc)
    (if room then ba_ts_overflow acc else true)
    (ba_event_seq acc) (ba_seq_overflow acc)
    (named (me_topic ev) od_incr (ba_topic_counts acc))
    (incr (message_type_key (me_message_type ev)) (ba_type_counts acc))
    (add_opt (me_qos ev) (ba_qos_levels acc))
    (ba_retained_count acc + (if default false (me_retained ev) then 1 else 0))
    (ba_duplicate_count acc + (if default false (me_duplicate ev) then 1 else 0))
    (add_opt (me_message_id ev) (ba_message_ids acc))
    (ba_array_len_stats acc) (ba_string_values acc) (ba_distinct_numeric_values acc)
    (<[bin_index := default 0 (ba_second_bins acc !! bin_index) + 1]> (ba_second_bins acc))
    (add_truthy (me_topic ev) (ba_topics_meta acc)) (add_truthy (me_application ev) (ba_apps_meta acc))
    (or_truthy (py_lower <$> me_mac ev) (ba_src_mac acc)) (or_truthy (me_ip ev) (ba_src_ip acc))
    (or_truthy (me_internal_device_name ev) (ba_internal_name acc)).

(** The fields the value goes to. *)
Definition update_value (value : json) (kind : string) (seq_value : option SeqValue)
    (acc : BehaviorWindowAccumulator) : BehaviorWindowAccumulator :=
  mk_bacc (ba_device_name acc) (ba_window_id acc) (ba_messages acc) (ba_last_ts_ns acc) (ba_ts_list acc)
    (ba_ts_overflow acc) (ba_event_seq acc) (ba_seq_overflow acc) (ba_topic_counts acc)
    (ba_type_counts acc) (ba_qos_levels acc) (ba_retained_count acc) (ba_duplicate_count acc)
    (ba_message_ids acc)
    (match value with
     | JList l => stats_add_int (Z.of_nat (length l)) (ba_array_len_stats acc)
     | _ => ba_array_len_stats acc
     end)
    (match seq_value with
     | Some (SeqText t) => {[unchars (cp_take 64 (chars t))]} ∪ ba_string_values acc
     | _ => ba_string_values acc
     end)
    (match seq_value with
     | Some (SeqFloat x) => if bool_decide (kind = "numeric") then add_float x (ba_distinct_numeric_values acc)
                            else ba_distinct_numeric_values acc
     | _ => ba_distinct_numeric_values acc
     end)
    (ba_second_bins acc) (ba_topics_meta acc) (ba_apps_meta acc) (ba_src_mac acc) (ba_src_ip acc)
    (ba_internal_name acc).

Definition set_event_seq (seq : list SeqItem) (overflow : bool) (acc : BehaviorWindowAccumulator)
    : BehaviorWindowAccumulator :=
  mk_bacc (ba_device_name acc) (ba_window_id acc) (ba_messages acc) (ba_last_ts_ns acc) (ba_ts_list acc)
    (ba_ts_overflow acc) seq overflow (ba_topic_counts acc) (ba_type_counts acc) (ba_qos_levels acc)
    (ba_retained_count acc) (ba_duplicate_count acc) (ba_message_ids acc) (ba_array_len_stats acc)
    (ba_string_values acc) (ba_distinct_numeric_values acc) (ba_second_bins acc) (ba_topics_meta acc)
    (ba_apps_meta acc) (ba_src_mac acc) (ba_src_ip acc) (ba_internal_name acc).

(** [_update]: what it leaves in the accumulator, also when it raises. *)
Definition update_sensor (window_start_ns : Z) (ev : MqttEvent) (acc : BehaviorWindowAccumulator)
    : result unit * BehaviorWindowAccumulator :=
  let acc := update_fields window_start_ns ev acc in
  match classify_value (me_message_value ev) with
  | Raise e => (Raise e, acc)
  | Ok (kind, seq_value) =>
      let acc := update_value (me_message_value ev) kind seq_value acc in
      if Z.of_nat (length (ba_event_seq acc)) <? TS_LIST_CAP then
        match insort item_ltb (me_ts_ns ev, kind, seq_value) (ba_event_seq acc) with
        | Ok seq => (Ok tt, set_event_seq seq (ba_seq_overflow acc) acc)
        | Raise e => (Raise e, acc)
        end
      else (Ok tt, set_event_seq (ba_event_seq acc) true acc)
  end.

(** ** Statistics of the sorted sequence *)
Definition topic_entropy (counts : list (string * Z)) : option f64 :=
  let total := zsum (map snd counts) in
  if (total <=? 0) || (length counts <=? 1)%nat then (if 0 <? total then Some f_zero else None)
  else Some (foldl (λ entropy c, let p := f_div (f_of_Z c) (f_of_Z total) in
                                 f_sub entropy (f_mul p (math_log2 p))) f_zero (map snd counts)).

Fixpoint delta_stats_from (earlier : Z) (l : list Z) (s : OnlineStats) : OnlineStats :=
  match l with
  | [] => s
  | later :: l => delta_stats_from later l (stats_add (ns_to_seconds (later - earlier)) s)
  end.
Definition delta_stats (sorted_ts : list Z) : OnlineStats :=
  match sorted_ts with [] => new_stats | t :: l => delta_stats_from t l new_stats end.

Record SequenceStats := mk_seq_stats {
  ss_transitions : Z;
  ss_binary_flips : Z;
  ss_delta_abs : OnlineStats;
  ss_last : option SeqValue;
}.

Definition is_binary (x : f64) : bool := f_eqb x f_zero || f_eqb x f_one.
Definition BINARY_TEXTS : list string := ["0"; "1"; "true"; "false"; "True"; "False"].

(** One turn of [_sequence_stats]; [ss_last] is [None] until a value was seen. *)
Definition sequence_step (s : SequenceStats) (item : SeqItem) : SequenceStats :=
  match item.2 with
  | None => s
  | Some v =>
      match ss_last s with
      | None => mk_seq_stats (ss_transitions s) (ss_binary_flips s) (ss_delta_abs s) (Some v)
      | Some (SeqFloat y) =>
          match v with
          | SeqFloat x =>
              let delta := SFabs (f_sub x y) in
              let moved := negb (f_eqb delta f_zero) in
              mk_seq_stats (ss_transitions s + if moved then 1 else 0)
                (ss_binary_flips s + if moved && is_binary y && is_binary x then 1 else 0)
                (stats_add delta (ss_delta_abs s)) (Some v)
          | SeqText t =>
              mk_seq_stats (ss_transitions s + 1)
                (ss_binary_flips s + if bool_decide (t ∈ BINARY_TEXTS) then 1 else 0)
                (ss_delta_abs s) (Some v)
          end
      | Some (SeqText u) =>
          let changed := match v with SeqText t => negb (bool_decide (t = u)) | SeqFloat _ => true end in
          let binary := match v with SeqText t => bool_decide (t ∈ BINARY_TEXTS) | SeqFloat _ => false end in
          mk_seq_stats (ss_transitions s + if changed then 1 else 0)
            (ss_binary_flips s + if changed && binary then 1 else 0) (ss_delta_abs s) (Some v)
      end
  end.
Definition sequence_stats (seq : list SeqItem) : SequenceStats :=
  foldl sequence_step (mk_seq_stats 0 0 new_stats None) seq.

Definition value_stats (seq : list SeqItem) : OnlineStats :=
  foldl (λ s item, match item with
                   | (_, kind, Some (SeqFloat x)) => if bool_decide (kind = "numeric") then stats_add x s else s
                   | _ => s
                   end) new_stats seq.

(** ** Rows *)
Record BehaviorConfig := mk_beh_config {
  bc_grid : WindowGrid;
  bc_scenario_id : string;
  bc_inventory : DeviceInventory;
  bc_clock_tolerance_ns : Z;
  bc_active_window_capacity : Z;
}.

Definition int_ratio (a b : Z) : f64 := f_div (f_of_Z a) (f_of_Z b).
Definition max_values (l : list Z) : option Z := match l with [] => None | z :: l => Some (foldl Z.max z l) end.
Definition bin_counts (m : gmap Z Z) : list Z := (map_to_list m).*2.

Definition common_block (cfg : BehaviorConfig) (gap : option f64) (acc : BehaviorWindowAccumulator)
    (d : option f64 * option f64 * option f64 * option f64) : list json :=
  let '(d_avg, d_max, d_min, d_std) := d in
  let seconds_seen := Z.max 1 (Z.of_nat (size (ba_second_bins acc))) in
  [JInt (ba_messages acc); jfloat_opt d_avg; jfloat_opt d_max; jfloat_opt d_min; jfloat_opt d_std;
   jfloat_opt gap; JInt (Z.of_nat (length (ba_topic_counts acc)));
   jfloat_opt (topic_entropy (ba_topic_counts acc));
   jfloat_opt ((λ top, int_ratio top (ba_messages acc)) <$> max_values (map snd (ba_topic_counts acc)));
   jcount "numeric" (ba_type_counts acc); jcount "array" (ba_type_counts acc);
   jcount "string" (ba_type_counts acc); jsize (ba_qos_levels acc); JInt (ba_retained_count acc);
   JInt (ba_duplicate_count acc); jsize (ba_message_ids acc);
   JInt (ss_transitions (sequence_stats (ba_event_seq acc)));
   jint_opt (max_values (bin_counts (ba_second_bins acc)));
   JFloat (f_div (f_of_Z seconds_seen) (f_max f_1e_9 (wg_window_seconds (bc_grid cfg))))].

Definition constant_stream (acc : BehaviorWindowAccumulator) : bool :=
  (length (ba_distinct_numeric_values acc) <=? 1)%nat && (0 <? default 0 (ba_type_counts acc !! "numeric")).

Definition continuous_block (degenerate : bool) (acc : BehaviorWindowAccumulator)
    (v da al : option f64 * option f64 * option f64 * option f64) : list json :=
  let '(v_avg, v_max, v_min, v_std) := v in
  let '(da_avg, da_max, da_min, da_std) := da in
  let '(al_avg, al_max, al_min, _) := al in
  [jfloat_opt v_avg; jfloat_opt v_max; jfloat_opt v_min; jfloat_opt v_std;
   match ss_last (sequence_stats (ba_event_seq acc)) with Some (SeqFloat x) => JFloat x | _ => JNull end;
   jfloat_opt da_avg; jfloat_opt da_max; jfloat_opt da_min; jfloat_opt da_std;
   jfloat_opt al_avg; jfloat_opt al_max; jfloat_opt al_min; jsize (ba_string_values acc);
   JBool (degenerate || constant_stream acc)].

Definition sparse_block (start_ns : Z) (acc : BehaviorWindowAccumulator) : list json :=
  [JBool (0 <? ba_messages acc); JInt (ss_binary_flips (sequence_stats (ba_event_seq acc)));
   jfloat_opt ((λ t, ns_to_seconds (t - start_ns)) <$> last (ba_ts_list acc))].

Definition capped_topics (s : gset string) : json := jstrs (take TOPIC_CAP (sort_strings (elements s))).

(** [finalize], for a given cross-window gap. *)
Definition finalize_sensor (cfg : BehaviorConfig) (gap : option f64) (acc : BehaviorWindowAccumulator)
    : result FeatureRow :=
  let '(start_ns, end_ns) := window_bounds (bc_grid cfg) (ba_window_id acc) in
  let profile := behavior_profile_for (ba_device_name acc) (bc_inventory cfg) in
  start_utc ← iso_utc_from_ns start_ns;
  end_utc ← iso_utc_from_ns end_ns;
  d ← as_tuple (delta_stats (ba_ts_list acc));
  v ← as_tuple (value_stats (ba_event_seq acc));
  al ← as_tuple (ba_array_len_stats acc);
  da ← as_tuple (ss_delta_abs (sequence_stats (ba_event_seq acc)));
  let degenerate := bool_decide (profile = "degenerate") in
  let continuous := bool_decide (profile = "continuous") || degenerate in
  let sparse := bool_decide (profile = "sparse") in
  Ok (key_fields (bc_scenario_id cfg) (ba_device_name acc) (ba_window_id acc) start_utc end_utc ++
    [("network_observed", JBool false); ("behavior_observed", JBool true);
     ("behavior_supported", JBool true); ("behavior_profile", JStr profile)] ++
    zip BEHAVIOR_COMMON_FEATURES (common_block cfg gap acc d) ++
    zip CONTINUOUS_PROFILE_FEATURES
      (if continuous then continuous_block degenerate acc v da al
       else replicate (length CONTINUOUS_PROFILE_FEATURES) JNull) ++
    zip SPARSE_PROFILE_FEATURES
      (if negb continuous && sparse then sparse_block start_ns acc
       else replicate (length SPARSE_PROFILE_FEATURES) JNull) ++
    [("observed_topics", capped_topics (ba_topics_meta acc));
     ("observed_applications", capped_topics (ba_apps_meta acc));
     ("telemetry_source_mac", json_opt_str (ba_src_mac acc));
     ("telemetry_source_ip", json_opt_str (ba_src_ip acc));
     ("internal_device_name", json_opt_str (ba_internal_name acc))]).

Definition behavior_fields : list string :=
  KEY_FIELDS ++ MASK_FIELDS ++ ["behavior_profile"] ++ BEHAVIOR_COMMON_FEATURES ++
  CONTINUOUS_PROFILE_FEATURES ++ SPARSE_PROFILE_FEATURES ++ BEHAVIOR_GRAPH_METADATA_FIELDS.

(** [empty_behavior_row] *)
Definition empty_behavior_row (scenario_id device_name : string) (window_id : Z) (grid : WindowGrid)
    (behavior_supported : bool) : result FeatureRow :=
  let '(start_ns, end_ns) := window_bounds grid window_id in
  start_utc ← iso_utc_from_ns start_ns;
  end_utc ← iso_utc_from_ns end_ns;
  Ok (key_fields scenario_id device_name window_id start_utc end_utc ++
    [("network_observed", JBool false); ("behavior_observed", JBool false);
     ("behavior_supported", JBool behavior_supported); ("behavior_profile", JNull)] ++
    map (λ name, (name, JNull))
      (BEHAVIOR_COMMON_FEATURES ++ CONTINUOUS_PROFILE_FEATURES ++ SPARSE_PROFILE_FEATURES) ++
    map (λ name, (name, if startswith "observed_" name then JList [] else JNull))
      BEHAVIOR_GRAPH_METADATA_FIELDS).

Lemma finalize_sensor_fields cfg gap acc row :
  finalize_sensor cfg gap acc = Ok row →
  row.*1 = behavior_fields ∧ od_get "device_id" row = Some (JStr (ba_device_name acc)) ∧
  od_get "window_id" row = Some (JInt (ba_window_id acc)) ∧
  od_get "messages_count" row = Some (JInt (ba_messages acc)) ∧
  od_get "seconds_since_previous_event" row = Some (jfloat_opt gap).
Proof.
  unfold finalize_sensor. destruct (window_bounds _ _) as [s e]. intros Hf. cbv zeta in Hf.
  do 6 (apply result_bind_ok in Hf as (? & _ & Hf)). injection Hf as <-.
  repeat match goal with t : (_ * _ * _ * _)%type |- _ => destruct t as [[[] ] ] end.
  destruct (bool_decide (_ = "continuous") || _); [done |].
  by destruct (bool_decide (_ = "sparse")).
Qed.

(** ** The manager *)
Record BehaviorWindowManager := mk_beh_manager {
  bm_windows : gmap (Z * string) BehaviorWindowAccumulator;
  bm_tracker : WatermarkTracker;
  bm_history : gmap string (list Z);
  bm_diagnostics : Counters;
}.

Definition beh_diagnostics : Counters :=
  new_counters ["messages_valid_total"; "events_applied_to_accumulators"; "messages_ignored_unsupported";
    "unresolved_telemetry_sources"; "prestart_snapped_events"; "prestart_snapped_max_displacement_ns";
    "prestart_negative_events"; "late_events"; "max_observed_lateness_ns"; "capacity_peak_usage"].

Definition new_behavior_manager (grid : WindowGrid) (max_event_lateness_ns : Z) : result BehaviorWindowManager :=
  tracker ← new_tracker (window_ns grid) max_event_lateness_ns;
  Ok (mk_beh_manager ∅ tracker ∅ beh_diagnostics).

Definition BM (A : Type) : Type := M BehaviorWindowManager A.

(** [_cross_window_gap] *)
Definition cross_window_gap (history : gmap string (list Z)) (acc : BehaviorWindowAccumulator) : option f64 :=
  match ba_ts_list acc with
  | [] => None
  | first :: _ =>
      match filter (λ ts, ts < first) (default [] (history !! ba_device_name acc)) with
      | [] => None
      | t :: earlier => Some (ns_to_seconds (first - foldl Z.max t earlier))
      end
  end.

(** [_prune_history] *)
Definition prune_history (grid : WindowGrid) (finalized_upto_wid : Z) (history : gmap string (list Z))
    : gmap string (list Z) :=
  let keep_from_ns := (window_bounds grid (finalized_upto_wid + 1)).1 in
  omap (λ h, match filter (λ ts, keep_from_ns ≤ ts) h with [] => None | pruned => Some pruned end) history.

Definition finalize_in (cfg : BehaviorConfig) (history : gmap string (list Z))
    (acc : BehaviorWindowAccumulator) : result FeatureRow :=
  finalize_sensor cfg (cross_window_gap history acc) acc.

Definition beh_finalize_due (cfg : BehaviorConfig) : BM (list FeatureRow) := λ s,
  let due := (due_windows (bm_tracker s)).1 in
  let '(r, l) := finalize_due_rows (finalize_in cfg (bm_history s)) (mk_live (bm_windows s) (bm_tracker s)) in
  let history := match r, due with
                 | Ok _, Some (_, hi) => prune_history (bc_grid cfg) hi (bm_history s)
                 | _, _ => bm_history s
                 end in
  (r, mk_beh_manager (lv_windows l) (lv_tracker l) history (bm_diagnostics s)).

Definition supported_profile (profile : string) : bool :=
  bool_decide (profile ∈ ["continuous"; "sparse"; "degenerate"]).

(** The sensor an event counts for, if any. *)
Definition event_sensor (cfg : BehaviorConfig) (ev : MqttEvent) : option DeviceRecord :=
  match resolve_device (me_mac ev) (me_ip ev) (bc_inventory cfg) with
  | Some rec =>
      if supported_profile (behavior_profile_for (dv_device_name rec) (bc_inventory cfg)) then Some rec else None
  | None => None
  end.

(** [add_event] *)
Definition add_event (cfg : BehaviorConfig) (ev : MqttEvent) : BM (list FeatureRow) := λ s,
  let d := bump "messages_valid_total" 1 (bm_diagnostics s) in
  let with_diag d := mk_beh_manager (bm_windows s) (bm_tracker s) (bm_history s) d in
  match resolve_device (me_mac ev) (me_ip ev) (bc_inventory cfg) with
  | None => (Ok [], with_diag (bump "unresolved_telemetry_sources" 1 d))
  | Some rec =>
      let name := dv_device_name rec in
      if negb (supported_profile (behavior_profile_for name (bc_inventory cfg)))
      then (Ok [], with_diag (bump "messages_ignored_unsupported" 1 d))
      else
        match admit_event (bc_grid cfg) (bc_clock_tolerance_ns cfg) "telemetry event" (me_ts_ns ev)
                (bm_tracker s, d) with
        | (Raise e, (t, d)) => (Raise e, mk_beh_manager (bm_windows s) t (bm_history s) d)
        | (Ok wid, (t, d)) =>
            let key := (wid, name) in
            let acc := default (new_bacc name wid) (bm_windows s !! key) in
            let live := Z.of_nat (size (<[key := acc]> (bm_windows s))) in
            let d := match bm_windows s !! key with
                     | None => raise_to "capacity_peak_usage" live d
                     | Some _ => d
                     end in
            let '(r, acc) := update_sensor (window_bounds (bc_grid cfg) wid).1 ev acc in
            let history := <[name := insort_int (me_ts_ns ev) (default [] (bm_history s !! name))]> (bm_history s) in
            let windows := <[key := acc]> (bm_windows s) in
            match r with
            | Raise e => (Raise e, mk_beh_manager windows t history d)
            | Ok _ =>
                beh_finalize_due cfg
                  (mk_beh_manager windows t history (bump "events_applied_to_accumulators" 1 d))
            end
        end
  end.

Definition beh_finish (cfg : BehaviorConfig) : BM (list FeatureRow) := λ s,
  match finish_rows (finalize_in cfg (bm_history s)) (bm_windows s) with
  | Ok rows => (Ok rows, mk_beh_manager ∅ (bm_tracker s) (bm_history s) (bm_diagnostics s))
  | Raise e => (Raise e, s)
  end.

(** *** The manager streams *)
Definition beh_live (s : BehaviorWindowManager) : Live (Z * string) BehaviorWindowAccumulator :=
  mk_live (bm_windows s) (bm_tracker s).

Definition beh_arrival (cfg : BehaviorConfig) (ev : MqttEvent) : Arrival (Z * string) BehaviorWindowAccumulator :=
  match event_sensor cfg ev with
  | None => Ignored
  | Some rec =>
      let wid := (assign (bc_grid cfg) (bc_clock_tolerance_ns cfg) (me_ts_ns ev)).1 in
      Timed (me_ts_ns ev) wid
        [mk_contribution (wid, dv_device_name rec) (new_bacc (dv_device_name rec) wid)
           (λ acc, (update_sensor (window_bounds (bc_grid cfg) wid).1 ev acc).2)]
  end.

(** A row is that of its accumulator, for the gap found when it was emitted. *)
Definition sensor_row (cfg : BehaviorConfig) (ka : (Z * string) * BehaviorWindowAccumulator) (r : FeatureRow) : Prop :=
  ∃ gap, finalize_sensor cfg gap ka.2 = Ok r.

Lemma finalize_sensor_never_late cfg gap acc : never_late (finalize_sensor cfg gap acc).
Proof.
  unfold finalize_sensor. destruct (window_bounds _ _) as [s e]. cbv zeta.
  repeat (apply never_late_bind; [auto with never_late | intros ?]). apply never_late_ok.
Qed.

Lemma float_of_int_never_late z : never_late (float_of_int z).
Proof. unfold float_of_int. auto with never_late. Qed.

Lemma numeric_entries_never_late l : never_late (numeric_entries l).
Proof.
  assert (Hcons : ∀ (x : f64) (r : result (list f64)), never_late r → never_late (cons x <$> r)).
  { intros x [a|e] Hr e'; cbn; [done |]. intros [= <-]. by apply Hr. }
  induction l as [|[] l IH]; cbn; auto with never_late.
  apply never_late_bind; [apply float_of_int_never_late | auto].
Qed.

Lemma item_ltb_never_late x y : never_late (item_ltb x y).
Proof.
  unfold item_ltb. destruct x as [[t1 k1] v1], y as [[t2 k2] v2].
  repeat apply never_late_if; auto with never_late.
  destruct v1 as [[]|], v2 as [[]|]; auto with never_late.
Qed.

Lemma insort_never_late x l : never_late (insort item_ltb x l).
Proof.
  assert (Hb : ∀ fuel lo hi, never_late (bisect_right item_ltb fuel x l lo hi)).
  { induction fuel as [|fuel IH]; intros lo hi; cbn [bisect_right]; [apply never_late_ok |].
    destruct (lo <? hi)%nat; [|apply never_late_ok]. destruct (l !! _) as [y|]; [|apply never_late_ok].
    pose proof (item_ltb_never_late x y) as Hlt.
    destruct (item_ltb x y) as [[]|e]; [apply IH | apply IH |]. intros e' [= <-]. by apply Hlt. }
  unfold insort. specialize (Hb (S (length l)) 0%nat (length l)).
  destruct (bisect_right _ _ _ _ _ _) as [i|e]; [apply never_late_ok |]. intros e' [= <-]. by apply Hb.
Qed.

Lemma update_sensor_never_late start ev acc : never_late (update_sensor start ev acc).1.
Proof.
  unfold update_sensor. destruct (classify_value (me_message_value ev)) as [[kind sv]|e] eqn:Hc.
  - destruct (_ <? _); [|apply never_late_ok].
    pose proof (insort_never_late (me_ts_ns ev, kind, sv)
      (ba_event_seq (update_value (me_message_value ev) kind sv (update_fields start ev acc)))) as Hi.
    destruct (insort _ _ _) as [seq|e]; [apply never_late_ok |]. cbn. intros e' [= <-]. by apply Hi.
  - cbn. intros e' [= <-]. revert Hc. unfold classify_value.
    destruct (me_message_value ev) as [| | z | | |l|]; cbn; try done.
    + intros Hc. refine (never_late_bind _ _ (float_of_int_never_late z) _ e Hc). auto with never_late.
    + intros Hc. refine (never_late_bind _ _ (numeric_entries_never_late l) _ e Hc). auto with never_late.
Qed.

Lemma beh_arrival_ok cfg ev : arrival_ok (beh_arrival cfg ev).
Proof. unfold beh_arrival, arrival_ok. destruct (event_sensor cfg ev); [|done]. by constructor. Qed.

Lemma beh_rows cfg history es rows :
  Forall2 (finalized (finalize_in cfg history)) es rows → Forall2 (sensor_row cfg) es rows.
Proof. intros Hr. eapply Forall2_impl; [exact Hr |]. intros ka r Hf. by eexists. Qed.

Lemma add_event_live cfg ev s :
  match add_event cfg ev s with
  | (Ok rows, s') => ∃ out, live_step (beh_arrival cfg ev) (beh_live s) = Some (out, beh_live s') ∧
                            Forall2 (sensor_row cfg) out rows
  | (Raise e, _) => exn_type e = EventOlderThanWatermarkError ↔
                    live_step (beh_arrival cfg ev) (beh_live s) = None
  end.
Proof.
  unfold add_event, beh_arrival, event_sensor.
  destruct (resolve_device _ _ _) as [rec|]; [|by exists []].
  destruct (supported_profile _); cbn [negb]; [|by exists []].
  set (wid := (assign _ _ _).1). set (d0 := bump _ _ _). set (name := dv_device_name rec).
  destruct (admit_event_spec (bc_grid cfg) (bc_clock_tolerance_ns cfg) "telemetry event" (me_ts_ns ev)
    (bm_tracker s) d0) as (d' & [[-> Hb]|(e & -> & He & Hb)]); fold wid in Hb |- *;
    cbn [live_step beh_live lv_tracker lv_windows]; rewrite Hb; [|done].
  set (acc := default (new_bacc name wid) (bm_windows s !! (wid, name))).
  pose proof (update_sensor_never_late (window_bounds (bc_grid cfg) wid).1 ev acc) as Hnl.
  cbn [foldl]. unfold contribute. cbn [cb_key cb_update cb_new]. fold acc.
  destruct (update_sensor _ ev acc) as [[u|e] acc']; cbn [fst snd] in *.
  2:{ split; [|done]. intros He. by apply (Hnl e) in He. }
  unfold beh_finalize_due. cbn [bm_windows bm_tracker bm_history bm_diagnostics].
  set (l := mk_live _ _). destruct (finalize_due_rows _ l) as [r l'] eqn:Hf.
  apply finalize_due_rows_spec in Hf. destruct r as [rows|e].
  - destruct Hf as [Hrows ->]. exists (live_finalize l).1. split; [|by eapply beh_rows].
    unfold beh_live. cbn [bm_windows bm_tracker]. f_equal. by destruct (live_finalize l) as [? []].
  - destruct Hf as [a Ha]. split; [|done]. intros Hl. by apply finalize_sensor_never_late in Ha.
Qed.

Lemma sensor_names_in cfg es records k :
  bc_inventory cfg = new_inventory records →
  (∃ c, c ∈ all_contributions (map (beh_arrival cfg) es) ∧ cb_key c = k) → k.2 ∈ map dv_device_name records.
Proof.
  intros Hinv (c & Hc & <-). apply list_elem_of_bind in Hc as (a & Hc & (ev & -> & _)%list_elem_of_fmap).
  unfold beh_arrival, event_sensor in Hc. rewrite Hinv in Hc.
  destruct (resolve_device _ _ _) as [rec|] eqn:Hr; [|cbn in Hc; set_solver].
  destruct (supported_profile _); [|cbn in Hc; set_solver].
  apply list_elem_of_singleton in Hc as ->. cbn. apply list_elem_of_fmap_2.
  by eapply resolve_device_in.
Qed.

Definition behavior_manager (cfg : BehaviorConfig)
    : WindowManager BehaviorWindowManager MqttEvent (Z * string) BehaviorWindowAccumulator FeatureRow.
Proof.
  refine (mk_manager _ _ _ _ _ _ _ _ (add_event cfg) (beh_finish cfg) beh_live (beh_arrival cfg)
    (sensor_row cfg) (beh_arrival_ok cfg) _ _ _ _).
  - intros p s rows s' Hadd. pose proof (add_event_live cfg p s) as Hl. by rewrite Hadd in Hl.
  - intros p s. pose proof (add_event_live cfg p s) as Hl.
    destruct (add_event cfg p s) as [[rows|e] s']; [destruct Hl as (out & -> & _) |]; naive_solver.
  - intros s rows s'. unfold beh_finish. destruct (finish_rows _ _) as [rows'|e] eqn:Hf; [|done].
    intros [= <- <-]. apply finish_rows_ok in Hf. by eapply beh_rows.
  - intros s e s'. unfold beh_finish. destruct (finish_rows _ _) as [rows'|e'] eqn:Hf; [done |].
    intros [= <- <-]. apply mapM_result_raise in Hf as [ka Ha]. by apply finalize_sensor_never_late in Ha.
Defined.

Lemma new_behavior_manager_fresh cfg grid lateness s :
  new_behavior_manager grid lateness = Ok s → fresh (behavior_manager cfg) s.
Proof.
  intros (t & Ht & [= <-])%result_bind_ok. apply new_tracker_ok in Ht as [Hok Hm]. by split.
Qed.
End manager.
