(* ===== verification/DsExtraction.v ===== *)
(** * Session extraction

    Models the row streams of [datasets/datasense/extraction.py]: the presence
    bitmap, the single pass over a capture that feeds the network and the
    communication managers, and the dense fill with empty rows.  A generator that is
    consumed to its end is a computation that appends what it yields to its state,
    so what was yielded before an exception is kept.  The capture reader hands over
    its records as a list. *)

From S2P Require Import Prelude PyString Json DsWindowSort DsWindowing DsFrames DsWindowSortFacts SimDevices.
From S2P Require Import DsNetwork DsBehavior.

(** ** The presence bitmap *)
Record PresenceBitmap := mk_bitmap {
  pb_map : gmap string (list Z);
  pb_negative : gset (string * Z);
}.

Definition empty_bitmap : PresenceBitmap := mk_bitmap ∅ ∅.

Definition byte_or (i : nat) (bits : Z) (arr : list Z) : list Z := alter (λ b, Z.lor b bits) i arr.

Definition mark (device : string) (window_id : Z) (p : PresenceBitmap) : PresenceBitmap :=
  if window_id <? 0 then mk_bitmap (pb_map p) ({[(device, window_id)]} ∪ pb_negative p)
  else
    let arr := default [] (pb_map p !! device) in
    let byte_index := Z.to_nat (window_id / 8) in
    let bit := window_id mod 8 in
    let arr := if (length arr <=? byte_index)%nat
               then arr ++ replicate (byte_index - length arr + 1) 0 else arr in
    mk_bitmap (<[device := byte_or byte_index (Z.shiftl 1 bit) arr]> (pb_map p)) (pb_negative p).

Definition has (device : string) (window_id : Z) (p : PresenceBitmap) : bool :=
  if window_id <? 0 then bool_decide ((device, window_id) ∈ pb_negative p)
  else
    match pb_map p !! device with
    | None => false
    | Some arr =>
        let byte_index := Z.to_nat (window_id / 8) in
        let bit := window_id mod 8 in
        match arr !! byte_index with
        | None => false
        | Some b => negb (Z.land b (Z.shiftl 1 bit) =? 0)
        end
    end.

Definition bitmap_devices (p : PresenceBitmap) : list string :=
  sort_strings (elements (dom (pb_map p) ∪ set_map fst (pb_negative p))).

(** The set a bitmap stands for. *)
Definition marked (p : PresenceBitmap) (device : string) (window_id : Z) : Prop :=
  has device window_id p = true.

Lemma land_bit b k : 0 ≤ k → negb (Z.land b (Z.shiftl 1 k) =? 0) = Z.testbit b k.
Proof.
  intros Hk. rewrite Z.shiftl_1_l. apply eq_true_iff_eq. rewrite negb_true_iff, Z.eqb_neq. split.
  - intros Hne. destruct (Z.testbit b k) eqn:Hb; [done |]. exfalso. apply Hne.
    apply Z.bits_inj'. intros n Hn. rewrite Z.land_spec, Z.bits_0.
    destruct (Z.eq_dec n k) as [->|]; [by rewrite Hb |].
    by rewrite Z.pow2_bits_false, andb_false_r.
  - intros Hb Hz. assert (Z.testbit (Z.land b (2 ^ k)) k = true) as Ht.
    { rewrite Z.land_spec, Hb, Z.pow2_bits_true; [done | lia]. }
    by rewrite Hz, Z.bits_0 in Ht.
Qed.

(** The byte at an index of a window array, zero past its end. *)
Definition byte_of (p : PresenceBitmap) (device : string) (i : nat) : Z :=
  default 0 (default [] (pb_map p !! device) !! i).

Lemma has_testbit device w p :
  0 ≤ w → has device w p = Z.testbit (byte_of p device (Z.to_nat (w / 8))) (w mod 8).
Proof.
  intros Hw. unfold has, byte_of. destruct (Z.ltb_spec w 0); [lia |].
  destruct (pb_map p !! device) as [arr|]; cbn; [|by rewrite Z.bits_0].
  destruct (arr !! _) as [b|]; cbn; [|by rewrite Z.bits_0].
  apply land_bit. by apply Z.mod_pos_bound.
Qed.

Lemma extend_lookup (arr : list Z) i j :
  default 0 ((if (length arr <=? i)%nat then arr ++ replicate (i - length arr + 1) 0 else arr) !! j)
  = default 0 (arr !! j).
Proof.
  destruct (Nat.leb_spec (length arr) i); [|done].
  destruct (Nat.lt_ge_cases j (length arr)); [by rewrite lookup_app_l |].
  rewrite lookup_app_r by done. rewrite (lookup_ge_None_2 arr j) by done.
  destruct (replicate _ 0 !! (j - length arr)%nat) as [z|] eqn:Hz; [|done].
  apply lookup_replicate in Hz as [-> _]. done.
Qed.

Lemma byte_of_mark device w p device' i :
  0 ≤ w →
  byte_of (mark device w p) device' i =
    if bool_decide (device = device') && (Z.to_nat (w / 8) =? i)%nat
    then Z.lor (byte_of p device' i) (Z.shiftl 1 (w mod 8)) else byte_of p device' i.
Proof.
  intros Hw. unfold byte_of, mark. destruct (Z.ltb_spec w 0); [lia |]. cbn [pb_map].
  destruct (decide (device = device')) as [<-|Hne].
  2:{ rewrite lookup_insert_ne by done. by rewrite bool_decide_false. }
  rewrite lookup_insert_eq, bool_decide_true by done. cbn [from_option id andb].
  set (arr := default [] (pb_map p !! device)). set (i0 := Z.to_nat (w / 8)).
  unfold byte_or. destruct (Nat.eqb_spec i0 i) as [<-|Hne].
  - rewrite list_lookup_alter_eq. rewrite <-(extend_lookup arr i0 i0).
    destruct (lookup_lt_is_Some_2 (if (length arr <=? i0)%nat
      then arr ++ replicate (i0 - length arr + 1) 0 else arr) i0) as [b Hb].
    { destruct (Nat.leb_spec (length arr) i0); [|done]. rewrite length_app, length_replicate. lia. }
    by rewrite Hb.
  - by rewrite list_lookup_alter_ne, extend_lookup.
Qed.

(** Marking adds exactly one pair. *)
Lemma has_mark device w p device' w' :
  has device' w' (mark device w p) = bool_decide (device = device') && (w =? w') || has device' w' p.
Proof.
  destruct (Z.lt_ge_cases w 0) as [Hneg|Hw].
  - unfold mark, has. rewrite (proj2 (Z.ltb_lt w 0)) by done. cbn [pb_map pb_negative].
    destruct (Z.ltb_spec w' 0).
    + repeat case_bool_decide; destruct (Z.eqb_spec w w'); cbn; try done; set_solver.
    + destruct (Z.eqb_spec w w'); [lia |]. by rewrite andb_false_r.
  - destruct (Z.lt_ge_cases w' 0) as [Hneg'|Hw'].
    { unfold mark, has. rewrite (proj2 (Z.ltb_ge w 0)) by done. rewrite (proj2 (Z.ltb_lt w' 0)) by done.
      destruct (Z.eqb_spec w w'); [lia |]. by rewrite andb_false_r. }
    rewrite !has_testbit, byte_of_mark by done. case_bool_decide; cbn [andb orb]; [|done].
    pose proof (Z.mod_pos_bound w 8). pose proof (Z.mod_pos_bound w' 8).
    destruct (Nat.eqb_spec (Z.to_nat (w / 8)) (Z.to_nat (w' / 8))) as [He|He].
    + rewrite Z.lor_spec, Z.shiftl_1_l, Z.pow2_bits_eqb by lia. rewrite orb_comm. f_equal.
      apply Z2Nat.inj in He; [|apply Z.div_pos; lia..].
      pose proof (Z.div_mod w 8). pose proof (Z.div_mod w' 8).
      destruct (Z.eqb_spec w w'), (Z.eqb_spec (w mod 8) (w' mod 8)); try done; try congruence; lia.
    + destruct (Z.eqb_spec w w') as [->|]; done.
Qed.

Lemma has_empty device w : has device w empty_bitmap = false.
Proof. unfold has, empty_bitmap. cbn [pb_map pb_negative]. destruct (w <? 0); [by rewrite bool_decide_false by set_solver |]. by rewrite lookup_empty. Qed.

Lemma elem_of_bitmap_devices device p :
  (∃ w, has device w p = true) → device ∈ bitmap_devices p.
Proof.
  intros [w Hw]. unfold bitmap_devices, sort_strings. apply elem_of_isort, elem_of_elements. unfold has in Hw.
  destruct (w <? 0).
  - apply bool_decide_eq_true in Hw. apply elem_of_union_r, elem_of_map. by exists (device, w).
  - destruct (pb_map p !! device) eqn:Hd; [|done]. apply elem_of_union_l, elem_of_dom. by eexists.
Qed.

(** ** The pass over a capture *)
Record PcapRecord := mk_pcap_record {
  pr_ts_ns : option Z;
  pr_data : list Z;
  pr_caplen : Z;
  pr_wirelen : Z;
}.

Record PcapRun := mk_pcap_run {
  pn_net : NetworkWindowManager;
  pn_comm : CommunicationWindowManager;
  pn_presence : PresenceBitmap;
  pn_edges : gset (Z * string * string);
  pn_first_ts_ns : option Z;
  pn_last_ts_ns : option Z;
  pn_yielded : list (string * FeatureRow);
}.

Definition PM (A : Type) : Type := M PcapRun A.

Definition with_net {A} (m : NM A) : PM A := λ s,
  let '(r, n) := m (pn_net s) in
  (r, mk_pcap_run n (pn_comm s) (pn_presence s) (pn_edges s) (pn_first_ts_ns s) (pn_last_ts_ns s) (pn_yielded s)).
Definition with_comm {A} (m : CM A) : PM A := λ s,
  let '(r, c) := m (pn_comm s) in
  (r, mk_pcap_run (pn_net s) c (pn_presence s) (pn_edges s) (pn_first_ts_ns s) (pn_last_ts_ns s) (pn_yielded s)).

(** [row["device_id"], row["window_id"]] *)
Definition row_key (row : FeatureRow) : string * Z := (row_str "device_id" row, row_int "window_id" row).

Definition yield_network (rows : list FeatureRow) : PM unit := modify (λ s,
  mk_pcap_run (pn_net s) (pn_comm s)
    (foldl (λ p row, mark (row_key row).1 (row_key row).2 p) (pn_presence s) rows)
    (pn_edges s) (pn_first_ts_ns s) (pn_last_ts_ns s) (pn_yielded s ++ map (pair "network") rows)).
Definition yield_communication (rows : list FeatureRow) : PM unit := modify (λ s,
  mk_pcap_run (pn_net s) (pn_comm s) (pn_presence s)
    (list_to_set (map edge_of_row rows) ∪ pn_edges s) (pn_first_ts_ns s) (pn_last_ts_ns s)
    (pn_yielded s ++ map (pair "communication") rows)).
(** Filling rows are not marked. *)
Definition yield_fill (row : FeatureRow) : PM unit := modify (λ s,
  mk_pcap_run (pn_net s) (pn_comm s) (pn_presence s) (pn_edges s) (pn_first_ts_ns s) (pn_last_ts_ns s)
    (pn_yielded s ++ [("network", row)])).

Definition count_undecodable : PM unit := with_net (modify (λ n,
  mk_net_manager (nm_windows n) (nm_tracker n) (bump "undecodable_frames" 1 (nm_diagnostics n)))).

Definition see_timestamp (ts : Z) : PM unit := modify (λ s,
  mk_pcap_run (pn_net s) (pn_comm s) (pn_presence s) (pn_edges s)
    (Some (default ts (pn_first_ts_ns s))) (Some ts) (pn_yielded s)).

(** One record of the capture. *)
Definition take_record (ncfg : NetworkConfig) (ccfg : CommConfig) (rec : PcapRecord) : PM unit :=
  view ← lift (decode_frame (pr_data rec));
  match pr_ts_ns rec, view with
  | None, _ => mret tt
  | Some _, None => count_undecodable
  | Some ts, Some view =>
      _ ← see_timestamp ts;
      let packet := mk_packet (Some ts) view (pr_caplen rec) (pr_wirelen rec) in
      rows ← with_net (add_packet ncfg packet);
      _ ← yield_network rows;
      edge_rows ← with_comm (comm_add_packet ccfg packet);
      yield_communication edge_rows
  end.

Fixpoint take_records (ncfg : NetworkConfig) (ccfg : CommConfig) (recs : list PcapRecord) : PM unit :=
  match recs with
  | [] => mret tt
  | rec :: recs => _ ← take_record ncfg ccfg rec; take_records ncfg ccfg recs
  end.

(** [_protected_inventory_names], [_supported_sensor_names] *)
Definition protected_inventory_names (inv : DeviceInventory) : list string :=
  map dv_device_name
    (filter (λ rec, negb (bool_decide (dv_role rec ∈ ["attacker"; "cloud"]))) (iv_records inv)).
Definition supported_sensor_names (inv : DeviceInventory) : list string :=
  map dv_device_name
    (filter (λ rec, negb (bool_decide (behavior_profile_for (dv_device_name rec) inv = "unsupported")))
       (iv_records inv)).

(** The pairs of a rectangle with no row yet, in its order. *)
Definition missing (devices : list string) (lo hi : Z) (p : PresenceBitmap) : list (string * Z) :=
  devices ≫= λ d, map (pair d) (filter (λ w, has d w p = false) (seqZ lo (hi + 1 - lo))).

(** [min(seen or 0, 0)] and [max(seen or 0, 0)] *)
Definition min_window (t : WatermarkTracker) : Z := Z.min (default 0 (tr_min_wid_seen t)) 0.
Definition max_window (t : WatermarkTracker) : Z := Z.max (default 0 (tr_max_wid_seen t)) 0.

Definition network_universe (inv : DeviceInventory) (p : PresenceBitmap) : list string :=
  sort_strings (elements (list_to_set (bitmap_devices p) ∪ list_to_set (protected_inventory_names inv) : gset string)).

Fixpoint fill_network (cfg : NetworkConfig) (pairs : list (string * Z)) : PM unit :=
  match pairs with
  | [] => mret tt
  | (d, w) :: pairs =>
      row ← lift (empty_network_row (nc_scenario_id cfg) d w (nc_grid cfg));
      _ ← yield_fill row;
      fill_network cfg pairs
  end.

Definition fill_missing (cfg : NetworkConfig) : PM unit := λ s,
  let t := nm_tracker (pn_net s) in
  fill_network cfg (missing (network_universe (nc_inventory cfg) (pn_presence s)) (min_window t) (max_window t)
                      (pn_presence s)) s.

(** [generate] *)
Definition generate_pcap (ncfg : NetworkConfig) (ccfg : CommConfig) (recs : list PcapRecord) : PM unit :=
  _ ← take_records ncfg ccfg recs;
  rows ← with_net (net_finish ncfg);
  _ ← yield_network rows;
  edge_rows ← with_comm (comm_finish ccfg);
  _ ← yield_communication edge_rows;
  fill_missing ncfg.

Definition START_VALIDATION_TOLERANCE_NS : Z := 5000000000.

(** What [collect] receives. *)
Record PcapCollect := mk_pcap_collect {
  pc_network_diagnostics : Counters;
  pc_communication_diagnostics : Counters;
  pc_edge_count : Z;
  pc_max_window_id : Z;
  pc_min_window_id : Z;
  pc_first_last : option (Z * Z);
  pc_start_validated : option bool;
}.

Definition collect_pcap (cfg : NetworkConfig) (s : PcapRun) : PcapCollect :=
  mk_pcap_collect (nm_diagnostics (pn_net s)) (cm_diagnostics (pn_comm s)) (Z.of_nat (size (pn_edges s)))
    (max_window (nm_tracker (pn_net s))) (min_window (nm_tracker (pn_net s)))
    (match pn_first_ts_ns s, pn_last_ts_ns s with Some a, Some b => Some (a, b) | _, _ => None end)
    ((λ first, Z.abs (first - wg_scenario_start_ns (nc_grid cfg)) <=? START_VALIDATION_TOLERANCE_NS)
       <$> pn_first_ts_ns s).

(** [iter_pcap_feature_rows]: the stream of a session and what it leaves; the
    capture is [None] when the file does not exist. *)
Record SessionInput := mk_session {
  si_scenario_id : string;
  si_capture : option (list PcapRecord);
  si_session_start_ns : option Z;
}.

Record ExtractionSettings := mk_settings {
  es_window_seconds : f64;
  es_clock_tolerance_ns : Z;
  es_max_event_lateness_ns : Z;
  es_active_window_capacity : Z;
}.

Definition attacker_names (inv : DeviceInventory) : gset string :=
  list_to_set (map dv_device_name (filter (λ rec, dv_role rec = "attacker") (iv_records inv))).

Definition net_config (set : ExtractionSettings) (grid : WindowGrid) (sc : string) (inv : DeviceInventory) : NetworkConfig :=
  mk_net_config grid sc inv (attacker_names inv) (es_clock_tolerance_ns set) (Z.max 1 (es_active_window_capacity set)).
Definition comm_config (set : ExtractionSettings) (grid : WindowGrid) (sc : string) (inv : DeviceInventory) : CommConfig :=
  new_comm_config grid sc inv (es_clock_tolerance_ns set) (es_active_window_capacity set).

Definition iter_pcap_feature_rows (session : SessionInput) (inv : DeviceInventory) (set : ExtractionSettings)
    : result (result PcapCollect * list (string * FeatureRow)) :=
  match si_capture session with
  | None => raise (OtherError "FileNotFoundError") ("raw pcap missing for " +:+ si_scenario_id session)
  | Some recs =>
      match si_session_start_ns session with
      | None => raise ValueError ("scenario start unknown for " +:+ si_scenario_id session)
      | Some start =>
          grid ← new_grid start (es_window_seconds set);
          net ← new_network_manager grid (es_max_event_lateness_ns set);
          comm ← new_communication_manager grid (es_max_event_lateness_ns set);
          let ncfg := net_config set grid (si_scenario_id session) inv in
          let ccfg := comm_config set grid (si_scenario_id session) inv in
          let '(r, s) := generate_pcap ncfg ccfg recs (mk_pcap_run net comm empty_bitmap ∅ None None []) in
          Ok ((λ _, collect_pcap ncfg s) <$> r, pn_yielded s)
      end
  end.

Definition rows_tagged (tag : string) (rows : list (string * FeatureRow)) : list FeatureRow :=
  omap (λ tr, if bool_decide (tr.1 = tag) then Some tr.2 else None) rows.

(** [iter_network_rows_direct], [iter_communication_rows] *)
Definition iter_network_rows_direct (rows : list (string * FeatureRow)) : list FeatureRow := rows_tagged "network" rows.
Definition iter_communication_rows (rows : list (string * FeatureRow)) : list FeatureRow :=
  rows_tagged "communication" rows.

(** ** What the pass yields *)

(** The packets of a capture: the records with a time stamp that decode. *)
Definition packets_of (recs : list PcapRecord) : list PacketEvent :=
  recs ≫= λ rec,
    match pr_ts_ns rec, decode_frame (pr_data rec) with
    | Some ts, Ok (Some view) => [mk_packet (Some ts) view (pr_caplen rec) (pr_wirelen rec)]
    | _, _ => []
    end.

Lemma rows_tagged_app tag l1 l2 : rows_tagged tag (l1 ++ l2) = rows_tagged tag l1 ++ rows_tagged tag l2.
Proof. unfold rows_tagged. by rewrite omap_app. Qed.

Lemma rows_tagged_pair tag tag' rows :
  rows_tagged tag (map (pair tag') rows) = if bool_decide (tag' = tag) then rows else [].
Proof.
  unfold rows_tagged. induction rows as [|r rows IH]; cbn; [by case_bool_decide |].
  case_bool_decide; [by rewrite IH | done].
Qed.

Lemma has_marks rows p d w :
  has d w (foldl (λ p row, mark (row_key row).1 (row_key row).2 p) p rows) = true ↔
  (d, w) ∈ map row_key rows ∨ has d w p = true.
Proof.
  revert p. induction rows as [|r rows IH]; intros p; cbn [foldl map]; [set_solver |].
  rewrite IH, has_mark, orb_true_iff, andb_true_iff, bool_decide_eq_true, Z.eqb_eq.
  rewrite elem_of_cons, (surjective_pairing (row_key r)). cbn. naive_solver congruence.
Qed.

Lemma with_net_inv {A} (m : NM A) s a s' :
  with_net m s = (Ok a, s') →
  ∃ n, m (pn_net s) = (Ok a, n) ∧
    s' = mk_pcap_run n (pn_comm s) (pn_presence s) (pn_edges s) (pn_first_ts_ns s) (pn_last_ts_ns s) (pn_yielded s).
Proof. unfold with_net. destruct (m (pn_net s)) as [r n]. intros [= -> <-]. eauto. Qed.

Lemma with_comm_inv {A} (m : CM A) s a s' :
  with_comm m s = (Ok a, s') →
  ∃ c, m (pn_comm s) = (Ok a, c) ∧
    s' = mk_pcap_run (pn_net s) c (pn_presence s) (pn_edges s) (pn_first_ts_ns s) (pn_last_ts_ns s) (pn_yielded s).
Proof. unfold with_comm. destruct (m (pn_comm s)) as [r c]. intros [= -> <-]. eauto. Qed.

Section pass.
Context (ncfg : NetworkConfig) (ccfg : CommConfig).

(** [seen] has been processed: each manager has streamed it, and what was yielded
    with each tag are the rows of what it emitted. *)
Record passed (seen : list PacketEvent) (s : PcapRun) : Prop := {
  pa_net : ∃ out, streamed (map (net_arrival ncfg) seen) out (net_live (pn_net s)) ∧
    Forall2 (finalized (finalize_device ncfg)) out (rows_tagged "network" (pn_yielded s));
  pa_comm : ∃ out, streamed (map (comm_arrival ccfg) seen) out (comm_live (pn_comm s)) ∧
    Forall2 (edge_row ccfg) out (rows_tagged "communication" (pn_yielded s));
  pa_presence : ∀ d w, has d w (pn_presence s) = true ↔
    (d, w) ∈ map row_key (rows_tagged "network" (pn_yielded s));
  pa_edges : pn_edges s = list_to_set (map edge_of_row (rows_tagged "communication" (pn_yielded s)));
}.

Lemma take_record_passed seen rec s s' :
  passed seen s → take_record ncfg ccfg rec s = (Ok tt, s') → passed (seen ++ packets_of [rec]) s'.
Proof.
  intros [Hnet Hcomm Hpres Hedges]. unfold take_record, packets_of. cbn [mbind list_bind].
  intros (view & s0 & [= Hdec <-] & Hrest)%M_bind_ok. rewrite Hdec.
  destruct (pr_ts_ns rec) as [ts|]; [|by injection Hrest as <-; rewrite !app_nil_r].
  destruct view as [view|].
  2:{ injection Hrest as <-. rewrite !app_nil_r. by split. }
  rewrite app_nil_r. set (p := mk_packet _ _ _ _) in *.
  apply M_bind_ok in Hrest as ([] & s1 & [= <-] & Hrest).
  apply M_bind_ok in Hrest as (nrows & s2 & (n' & Hn & ->)%with_net_inv & Hrest).
  cbn [pn_net pn_comm pn_presence pn_edges pn_first_ts_ns pn_last_ts_ns pn_yielded] in Hn.
  pose proof (add_packet_live ncfg p (pn_net s)) as Hlive. rewrite Hn in Hlive.
  destruct Hlive as (nout & Hnstep & Hnrows).
  apply M_bind_ok in Hrest as ([] & s3 & [= <-] & Hrest).
  apply M_bind_ok in Hrest as (crows & s4 & (c' & Hc & ->)%with_comm_inv & Hrest).
  cbn [pn_net pn_comm pn_presence pn_edges pn_first_ts_ns pn_last_ts_ns pn_yielded] in Hc.
  pose proof (comm_add_packet_live ccfg p (pn_comm s)) as Hlive. rewrite Hc in Hlive.
  destruct Hlive as (cout & Hcstep & Hcrows).
  injection Hrest as <-. destruct Hnet as (out1 & Hs1 & Hr1). destruct Hcomm as (out2 & Hs2 & Hr2).
  split; cbn [pn_net pn_comm pn_presence pn_edges pn_yielded]; rewrite ?map_app, ?rows_tagged_app, ?rows_tagged_pair;
    cbn [bool_decide]; rewrite ?bool_decide_true, ?bool_decide_false, ?app_nil_r by done.
  - exists (out1 ++ nout). split; [|by apply Forall2_app].
    eapply live_step_streamed; [apply net_arrival_ok | exact Hs1 | exact Hnstep].
  - exists (out2 ++ cout). split; [|by apply Forall2_app].
    eapply live_step_streamed; [apply comm_arrival_ok | exact Hs2 | exact Hcstep].
  - intros d w. rewrite has_marks, Hpres, map_app, elem_of_app. tauto.
  - by rewrite Hedges, map_app, list_to_set_app_L, union_comm_L.
Qed.

Lemma take_records_passed recs seen s s' :
  passed seen s → take_records ncfg ccfg recs s = (Ok tt, s') → passed (seen ++ packets_of recs) s'.
Proof.
  revert seen s. induction recs as [|rec recs IH]; intros seen s Hs; cbn.
  { intros [= <-]. by rewrite app_nil_r. }
  intros ([] & s1 & H1 & H2)%M_bind_ok. apply (take_record_passed _ _ _ _ Hs) in H1.
  apply (IH _ _ H1) in H2. unfold packets_of in *. cbn [mbind list_bind] in *.
  by rewrite app_nil_r, <-app_assoc in H2.
Qed.

(** The filling appends the empty rows of its pairs. *)
Lemma fill_network_rows pairs s s' :
  fill_network ncfg pairs s = (Ok tt, s') →
  ∃ rows, pn_yielded s' = pn_yielded s ++ map (pair "network") rows ∧
    Forall2 (λ dw row, empty_network_row (nc_scenario_id ncfg) dw.1 dw.2 (nc_grid ncfg) = Ok row) pairs rows ∧
    pn_net s' = pn_net s ∧ pn_comm s' = pn_comm s ∧ pn_presence s' = pn_presence s ∧ pn_edges s' = pn_edges s.
Proof.
  revert s. induction pairs as [|[d w] pairs IH]; intros s; cbn.
  { intros [= <-]. exists []. by rewrite app_nil_r. }
  intros (row & s1 & [= Hrow <-] & ([] & s2 & [= <-] & H2)%M_bind_ok)%M_bind_ok.
  apply IH in H2 as (rows & Hy & Hrows & Hn & Hc & Hp & He). cbn in *.
  exists (row :: rows). rewrite Hy, <-app_assoc. split; [done |]. split; [by constructor |]. done.
Qed.

(** The whole pass: the rows of the two batches, then the empty rows that are missing. *)
Lemma generate_pcap_rows recs s s' :
  passed [] s → generate_pcap ncfg ccfg recs s = (Ok tt, s') →
  let packets := packets_of recs in
  ∃ observed filled t p,
    rows_tagged "network" (pn_yielded s') = observed ++ filled ∧
    Forall2 (finalized (finalize_device ncfg)) (sorted_entries (group (map (net_arrival ncfg) packets))) observed ∧
    Forall2 (edge_row ccfg) (sorted_entries (group (map (comm_arrival ccfg) packets)))
      (rows_tagged "communication" (pn_yielded s')) ∧
    Forall2 (λ dw row, empty_network_row (nc_scenario_id ncfg) dw.1 dw.2 (nc_grid ncfg) = Ok row)
      (missing (network_universe (nc_inventory ncfg) p) (min_window t) (max_window t) p) filled ∧
    (∀ d w, has d w p = true ↔ (d, w) ∈ map row_key observed) ∧ nm_tracker (pn_net s') = t ∧
    pn_presence s' = p ∧
    pn_edges s' = list_to_set (map edge_of_row (rows_tagged "communication" (pn_yielded s'))).
Proof.
  intros Hs. unfold generate_pcap. intros ([] & s1 & H1 & H)%M_bind_ok.
  apply (take_records_passed _ _ _ _ Hs) in H1. cbn [app] in H1. destruct H1 as [Hnet Hcomm Hpres Hedges].
  apply M_bind_ok in H as (nrows & s2 & (n' & Hn & ->)%with_net_inv & H).
  pose proof (net_finish_live ncfg (pn_net s1)) as Hlive. rewrite Hn in Hlive.
  apply M_bind_ok in H as ([] & s3 & [= <-] & H).
  apply M_bind_ok in H as (crows & s4 & (c' & Hc & ->)%with_comm_inv & H).
  cbn [pn_net pn_comm pn_presence pn_edges pn_first_ts_ns pn_last_ts_ns pn_yielded] in Hc.
  assert (Hcrows : Forall2 (edge_row ccfg) (sorted_entries (cm_edges (pn_comm s1))) crows).
  { unfold comm_finish in Hc. destruct (finish_rows _ _) eqn:Hf; [|done]. injection Hc as <- _.
    by apply finish_rows_ok in Hf. }
  apply M_bind_ok in H as ([] & s5 & [= <-] & H).
  apply fill_network_rows in H as (filled & Hy & Hfilled & Hnn & Hcc & Hpp & Hee).
  cbn [pn_net pn_comm pn_presence pn_edges pn_first_ts_ns pn_last_ts_ns pn_yielded] in *.
  destruct Hnet as (out1 & Hs1 & Hr1). destruct Hcomm as (out2 & Hs2 & Hr2).
  exists (rows_tagged "network" (pn_yielded s1) ++ nrows), filled. eexists _, _.
  rewrite Hy, !rows_tagged_app, !rows_tagged_pair, !bool_decide_true, !bool_decide_false, !app_nil_r by done.
  split; [done |]. split.
  { rewrite <-(streamed_entries _ _ _ Hs1). by apply Forall2_app. }
  split.
  { rewrite <-(streamed_entries _ _ _ Hs2). by apply Forall2_app. }
  split; [exact Hfilled |]. split.
  { intros d w. rewrite has_marks, Hpres, map_app, elem_of_app. tauto. }
  split; [by rewrite Hnn | split; [by rewrite Hpp |]].
  by rewrite Hee, Hedges, map_app, list_to_set_app_L, union_comm_L.
Qed.
End pass.

(** *** The dense rectangle *)
Lemma elem_of_missing devices lo hi p d w :
  (d, w) ∈ missing devices lo hi p ↔ d ∈ devices ∧ lo ≤ w ≤ hi ∧ has d w p = false.
Proof.
  unfold missing. rewrite list_elem_of_bind. split.
  - intros (d' & (w' & [= <- <-] & [Hp Hw]%list_elem_of_filter)%list_elem_of_fmap & Hd).
    apply elem_of_seqZ in Hw. split_and!; [done | lia | lia | done].
  - intros (Hd & Hw & Hp). exists d. split; [|done]. apply list_elem_of_fmap. exists w. split; [done |].
    apply list_elem_of_filter. split; [done |]. apply elem_of_seqZ. lia.
Qed.

Lemma missing_nodup devices lo hi p : NoDup devices → NoDup (missing devices lo hi p).
Proof.
  unfold missing. induction 1 as [|d devices Hd Hnd IH]; [constructor |].
  rewrite bind_cons. apply NoDup_app. split_and!; [| | done].
  - apply NoDup_fmap_2; [by intros ? ? [=] |]. apply NoDup_filter, NoDup_seqZ.
  - intros [d' w] (? & [= <- <-] & _)%list_elem_of_fmap Hin.
    apply elem_of_missing in Hin as (Hin & _). done.
Qed.

Lemma network_universe_nodup inv p : NoDup (network_universe inv p).
Proof. unfold network_universe, sort_strings. rewrite isort_perm. apply NoDup_elements. Qed.

Lemma update_device_key cfg a b view cl wl ts acc :
  ac_device_name (update_device cfg a b view cl wl ts acc) = ac_device_name acc ∧
  ac_window_id (update_device cfg a b view cl wl ts acc) = ac_window_id acc.
Proof. done. Qed.

Lemma net_keyed cfg ps :
  map_Forall (λ k a, ac_device_name a = k.2 ∧ ac_window_id a = k.1) (group (map (net_arrival cfg) ps)).
Proof.
  apply group_forall. intros c Hc. unfold all_contributions in Hc.
  apply list_elem_of_bind in Hc as (e & Hc & (p & -> & Hp)%list_elem_of_fmap).
  unfold net_arrival in Hc. destruct (pk_ts_ns p) as [ts|]; cbn in Hc; [|set_solver].
  unfold packet_contributions in Hc. apply list_elem_of_fmap in Hc as ([[dev x] y] & -> & _).
  cbn [cb_key cb_new cb_update]. split; [apply update_device_key |]. intros a Ha.
  destruct (update_device_key cfg x y (pk_view p) (pk_caplen p) (pk_wirelen p) ts a) as [-> ->]. done.
Qed.

(** A packet of window [dw.2] has device [dw.1] as a participant. *)
Definition device_seen (cfg : NetworkConfig) (ps : list PacketEvent) (dw : string * Z) : Prop :=
  ∃ p ts x, p ∈ ps ∧ pk_ts_ns p = Some ts ∧
    (assign (nc_grid cfg) (nc_clock_tolerance_ns cfg) ts).1 = dw.2 ∧
    x ∈ participants cfg (pk_view p) ∧ dv_device_name x.1.1 = dw.1.

Lemma net_observed cfg ps k :
  k ∈ sorted_keys (group (map (net_arrival cfg) ps)) ↔ device_seen cfg ps (k.2, k.1).
Proof.
  rewrite elem_of_sorted_keys, group_dom. unfold all_contributions. setoid_rewrite list_elem_of_bind. split.
  - intros (c & (a & Hc & (p & -> & Hp)%list_elem_of_fmap) & <-). unfold net_arrival in Hc.
    destruct (pk_ts_ns p) as [ts|] eqn:Hts; cbn in Hc; [|set_solver].
    apply list_elem_of_fmap in Hc as (x & -> & Hx). exists p, ts, x.
    destruct x as [[dev i] o]. done.
  - intros (p & ts & [[dev i] o] & Hp & Hts & Hw & Hx & Hd). cbn in Hw, Hd.
    eexists. split.
    { exists (net_arrival cfg p). split; [|apply list_elem_of_fmap; eauto].
      unfold net_arrival. rewrite Hts. cbn [arrival_contributions]. unfold packet_contributions.
      apply list_elem_of_fmap. exists (dev, i, o). split; [reflexivity | done]. }
    cbn [cb_key]. rewrite Hw, Hd. by destruct k.
Qed.

(** The keys of the network rows of a batch. *)
Lemma network_row_keys cfg ps rows :
  Forall2 (finalized (finalize_device cfg)) (sorted_entries (group (map (net_arrival cfg) ps))) rows →
  map row_key rows = map (λ k, (k.2, k.1)) (sorted_keys (group (map (net_arrival cfg) ps))) ∧
  Forall (λ row, row.*1 = network_fields ∧ od_get "network_observed" row = Some (JBool true)) rows.
Proof.
  rewrite <-sorted_entries_keys. pose proof (net_keyed cfg ps) as Hkey.
  set (m := group _) in *.
  assert (Hin : ∀ ka, ka ∈ sorted_entries m → m !! ka.1 = Some ka.2)
    by (by intros [k a] ?%elem_of_sorted_entries).
  revert Hin. generalize (sorted_entries m). intros es Hin.
  induction 1 as [|[k a] r es rs Hr Hrs IH]; [done |].
  destruct IH as [IH1 IH2]; [set_solver |].
  apply finalize_device_fields in Hr as (Hf & Hd & Hw & _ & Ho). cbn in *.
  destruct (Hkey k a) as [Hn Hwid]; [apply (Hin (k, a)); set_solver |].
  split; [|by constructor]. rewrite IH1. f_equal. unfold row_key, row_str, row_int. rewrite Hd, Hw.
  by rewrite Hn, Hwid.
Qed.

(** The keys of the rows that fill the rectangle. *)
Lemma filled_keys sc grid pairs rows :
  Forall2 (λ dw row, empty_network_row sc dw.1 dw.2 grid = Ok row) pairs rows →
  map row_key rows = pairs ∧
  Forall (λ row, row.*1 = network_fields ∧ od_get "network_observed" row = Some (JBool false)) rows.
Proof.
  induction 1 as [|[d w] r ps rs Hr Hrs [IH1 IH2]]; [done |].
  apply empty_network_row_fields in Hr as (Hf & Hd & Hw & Ho). cbn in *.
  split; [|by constructor]. rewrite IH1. unfold row_key, row_str, row_int. by rewrite Hd, Hw.
Qed.

Lemma elem_of_universe inv p d : d ∈ protected_inventory_names inv → d ∈ network_universe inv p.
Proof. intros Hd. unfold network_universe, sort_strings. apply elem_of_isort, elem_of_elements. set_solver. Qed.

(** ** The telemetry stream *)

(** [datetime.fromisoformat(text)] as microseconds since the epoch, [None] when it
    raises [ValueError]. *)
Class IsoFormat := { fromisoformat_us : string → option Z }.

Section telemetry.
Context `{PyRuntime} `{LibM} `{IsoFormat}.

(** [epoch_ns_from_iso] *)
Definition epoch_ns_from_iso (value : string) : result Z :=
  let text := py_strip value in
  let l := chars text in
  let text :=
    match reverse l with
    | c :: front => if Ascii.eqb c "Z" || Ascii.eqb c "z" then unchars (reverse front) +:+ "+00:00" else text
    | [] => text
    end in
  match fromisoformat_us text with
  | Some us => Ok (us * 1000)
  | None => raise ValueError "Invalid isoformat string"
  end.

(** [_clean] on a string or [None] *)
Definition clean (o : option string) : option string :=
  match o with
  | Some s => let t := py_strip s in if bool_decide (t = "") then None else Some t
  | None => None
  end.

(** [sortable]: the event as a row of the external sorter. *)
Definition payload_of (ev : MqttEvent) : list (string * json) :=
  [("ts_ns", JInt (me_ts_ns ev)); ("internal_device_name", json_opt_str (me_internal_device_name ev));
   ("application", json_opt_str (me_application ev)); ("ip", json_opt_str (me_ip ev));
   ("mac", json_opt_str (me_mac ev)); ("full_id", json_opt_str (me_full_id ev));
   ("topic", json_opt_str (me_topic ev)); ("message_type", json_opt_str (me_message_type ev));
   ("message_value", me_message_value ev); ("qos", jint_opt (me_qos ev));
   ("retained", match me_retained ev with Some b => JBool b | None => JNull end);
   ("duplicate", match me_duplicate ev with Some b => JBool b | None => JNull end);
   ("message_id", jint_opt (me_message_id ev))].

Definition sortable (grid : WindowGrid) (clock_tolerance_ns : Z) (ev : MqttEvent) : Row :=
  mk_sort_row (assign grid clock_tolerance_ns (me_ts_ns ev)).1 [("payload", JDict (payload_of ev))].

Definition field (name : string) (p : list (string * json)) : json := default JNull (od_get name p).
Definition str_of (j : json) : option string := match j with JStr s => Some s | _ => None end.
Definition int_of (j : json) : option Z := match j with JInt z => Some z | _ => None end.
Definition bool_of (j : json) : option bool := match j with JBool b => Some b | _ => None end.

(** The event rebuilt from a sorted row: its object is printed and parsed again by
    [parse_telemetry_line], on fields of the declared types. *)
Definition reparse (row : Row) : result MqttEvent :=
  match field "payload" (row_fields row) with
  | JDict p =>
      ts ← of_option (int_of (field "ts_ns" p)) KeyError "ts_ns";
      text ← iso_utc_from_ns ts;
      ts_ns ← epoch_ns_from_iso text;
      let str name := clean (str_of (field name p)) in
      Ok (mk_event ts_ns (str "internal_device_name") (str "application") (str "ip") (str "mac")
            (str "full_id") (str "topic") (str "message_type") (field "message_value" p)
            (int_of (field "qos" p)) (bool_of (field "retained" p)) (bool_of (field "duplicate" p))
            (int_of (field "message_id" p)) 0)
  | _ => raise KeyError "payload"
  end.

Record BehaviorRun := mk_behavior_run {
  br_manager : BehaviorWindowManager;
  br_sorter : WindowSorter;
  br_presence : PresenceBitmap;
  br_yielded : list FeatureRow;
}.

Definition RM (A : Type) : Type := M BehaviorRun A.

Definition with_manager {A} (m : BM A) : RM A := λ s,
  let '(r, b) := m (br_manager s) in (r, mk_behavior_run b (br_sorter s) (br_presence s) (br_yielded s)).
Definition with_sorter {A} (m : SM A) : RM A := λ s,
  let '(r, w) := m (br_sorter s) in (r, mk_behavior_run (br_manager s) w (br_presence s) (br_yielded s)).
Definition yield_behavior (rows : list FeatureRow) : RM unit := modify (λ s,
  mk_behavior_run (br_manager s) (br_sorter s)
    (foldl (λ p row, mark (row_key row).1 (row_key row).2 p) (br_presence s) rows) (br_yielded s ++ rows)).
Definition yield_behavior_fill (row : FeatureRow) : RM unit := modify (λ s,
  mk_behavior_run (br_manager s) (br_sorter s) (br_presence s) (br_yielded s ++ [row])).

(** [for item in sorter.iter_sorted(): ...] *)
Fixpoint take_rows (cfg : BehaviorConfig) (rows : list Row) : RM unit :=
  match rows with
  | [] => mret tt
  | row :: rows =>
      ev ← lift (reparse row);
      out ← with_manager (add_event cfg ev);
      _ ← yield_behavior out;
      take_rows cfg rows
  end.

(** [try: ... finally: sorter.cleanup()] *)
Definition finally_cleanup (m : RM unit) : RM unit := λ s,
  let '(r, s') := m s in (r, ((with_sorter cleanup) s').2).

Fixpoint fill_behavior (cfg : BehaviorConfig) (pairs : list (string * Z)) : RM unit :=
  match pairs with
  | [] => mret tt
  | (d, w) :: pairs =>
      row ← lift (empty_behavior_row (bc_scenario_id cfg) d w (bc_grid cfg) true);
      _ ← yield_behavior_fill row;
      fill_behavior cfg pairs
  end.

Definition fill_sensors (cfg : BehaviorConfig) : RM unit := λ s,
  let t := bm_tracker (br_manager s) in
  match tr_max_wid_seen t with
  | None => (Ok tt, s)
  | Some _ =>
      fill_behavior cfg (missing (supported_sensor_names (bc_inventory cfg)) (min_window t) (max_window t)
                           (br_presence s)) s
  end.

(** [generate] of [iter_behavior_rows], on the events the reader parses. *)
Definition generate_behavior (cfg : BehaviorConfig) (events : list MqttEvent) : RM unit :=
  _ ← finally_cleanup
        (_ ← with_sorter (add_all (map (sortable (bc_grid cfg) (bc_clock_tolerance_ns cfg)) events));
         sorted ← with_sorter iter_sorted;
         _ ← take_rows cfg sorted;
         _ ← with_sorter cleanup;
         rows ← with_manager (beh_finish cfg);
         yield_behavior rows);
  fill_sensors cfg.

Definition iter_behavior_rows (scenario_id : string) (session_start_ns : Z) (inv : DeviceInventory)
    (set : ExtractionSettings) (events : list MqttEvent) : result (result unit * BehaviorRun) :=
  grid ← new_grid session_start_ns (es_window_seconds set);
  manager ← new_behavior_manager grid (es_max_event_lateness_ns set);
  sorter ← new_sorter 50000 8;
  let cfg := mk_beh_config grid scenario_id inv (es_clock_tolerance_ns set) (Z.max 1 (es_active_window_capacity set)) in
  Ok (generate_behavior cfg events (mk_behavior_run manager sorter empty_bitmap [])).

(** *** Reading an event back *)
Definition floor_ms (ts : Z) : Z := ts / 1000000 * 1000000.

(** [strftime] and [fromisoformat] agree on the stamp of an event. *)
Definition stamp_reads (ev : MqttEvent) : Prop :=
  ∃ text, iso_utc_from_ns (me_ts_ns ev) = Ok text ∧ epoch_ns_from_iso text = Ok (floor_ms (me_ts_ns ev)).

Lemma str_of_opt o : str_of (json_opt_str o) = o.
Proof. by destruct o. Qed.
Lemma int_of_opt o : int_of (jint_opt o) = o.
Proof. by destruct o. Qed.
Lemma bool_of_opt o : bool_of (match o with Some b => JBool b | None => JNull end) = o.
Proof. by destruct o. Qed.

(** The event as the manager gets it: truncated to the millisecond, cleaned. *)
Definition reread (ev : MqttEvent) : MqttEvent :=
  mk_event (floor_ms (me_ts_ns ev)) (clean (me_internal_device_name ev)) (clean (me_application ev))
    (clean (me_ip ev)) (clean (me_mac ev)) (clean (me_full_id ev)) (clean (me_topic ev))
    (clean (me_message_type ev)) (me_message_value ev) (me_qos ev) (me_retained ev) (me_duplicate ev)
    (me_message_id ev) 0.

Lemma reparse_sortable grid tol ev : stamp_reads ev → reparse (sortable grid tol ev) = Ok (reread ev).
Proof.
  intros (text & Ht & He). unfold reparse, sortable. cbn [row_fields field].
  change (field "payload" _) with (JDict (payload_of ev)). cbn [of_option].
  change (int_of (field "ts_ns" (payload_of ev))) with (Some (me_ts_ns ev)).
  cbn [of_option mbind result_bind]. rewrite Ht. cbn [mbind result_bind]. rewrite He. cbn [mbind result_bind].
  unfold reread. f_equal. f_equal; first [apply (f_equal clean), str_of_opt | apply int_of_opt | apply bool_of_opt | done].
Qed.

(** Truncation moves an event back by at most one window. *)
Lemma assign_floor grid tol ts :
  0 ≤ tol → tol + 1000000 ≤ window_ns grid →
  (assign grid tol ts).1 - 1 ≤ (assign grid tol (floor_ms ts)).1 ≤ (assign grid tol ts).1.
Proof.
  intros Htol Hw. pose proof (Z.div_mod ts 1000000) as Hd. pose proof (Z.mod_pos_bound ts 1000000) as Hm.
  assert (Hf : ts - 1000000 < floor_ms ts ≤ ts) by (unfold floor_ms; lia).
  split; [|apply assign_mono; lia]. unfold assign.
  assert (Hq : window_id grid ts - 1 ≤ window_id grid (floor_ms ts) ≤ window_id grid ts).
  { unfold window_id. split; [|apply Z.div_le_mono; lia].
    assert ((ts - wg_scenario_start_ns grid) / window_ns grid - 1
      = (ts - wg_scenario_start_ns grid + (-1) * window_ns grid) / window_ns grid) as ->.
    { rewrite Z.div_add; lia. }
    apply Z.div_le_mono; lia. }
  assert (Hnear : wg_scenario_start_ns grid - tol ≤ ts → -1 ≤ window_id grid (floor_ms ts)).
  { intros Hts. unfold window_id. apply Z.div_le_lower_bound; lia. }
  destruct (Z.leb_spec 0 (window_id grid ts)) as [H1'|H1'],
    (Z.leb_spec 0 (window_id grid (floor_ms ts))) as [H2'|H2']; cbn [fst]; try lia.
  - destruct (_ && _); cbn; lia.
  - assert (Hsnap : ∀ t, (0 <=? wg_scenario_start_ns grid - t) && (wg_scenario_start_ns grid - t <=? tol) = true
      ↔ wg_scenario_start_ns grid - tol ≤ t ≤ wg_scenario_start_ns grid) by (intros t; lia).
    pose proof (Hsnap ts) as Hs1.
    destruct ((0 <=? wg_scenario_start_ns grid - ts) && _), (_ && _); cbn; naive_solver lia.
Qed.

(** *** The sorted events reach the manager *)
Lemma take_rows_cons cfg row rows s :
  take_rows cfg (row :: rows) s =
  match reparse row with
  | Raise e => (Raise e, s)
  | Ok ev =>
      match add_event cfg ev (br_manager s) with
      | (Raise e, b) => (Raise e, mk_behavior_run b (br_sorter s) (br_presence s) (br_yielded s))
      | (Ok out, b) =>
          take_rows cfg rows (mk_behavior_run b (br_sorter s)
            (foldl (λ p row, mark (row_key row).1 (row_key row).2 p) (br_presence s) out) (br_yielded s ++ out))
      end
  end.
Proof.
  cbn [take_rows]. unfold mbind, M_bind, lift, with_manager. destruct (reparse row) as [ev|e]; [|done].
  by destruct (add_event cfg ev (br_manager s)) as [[out|e] b].
Qed.

(** Reading the rows back feeds the manager with the reread events. *)
Lemma take_rows_feed cfg grid tol evs s :
  Forall stamp_reads evs →
  match feed (behavior_manager cfg) (map reread evs) (br_manager s) with
  | (Ok rows, b) => ∃ p, take_rows cfg (map (sortable grid tol) evs) s
      = (Ok tt, mk_behavior_run b (br_sorter s) p (br_yielded s ++ rows)) ∧
      ∀ d w, has d w p = true ↔ (d, w) ∈ map row_key rows ∨ has d w (br_presence s) = true
  | (Raise e, _) => ∃ s', take_rows cfg (map (sortable grid tol) evs) s = (Raise e, s')
  end.
Proof.
  intros Hevs. revert s. induction Hevs as [|ev evs Hev Hevs IH]; intros s.
  { exists (br_presence s). destruct s. cbn. rewrite app_nil_r. split; [done |]. set_solver. }
  cbn [map]. rewrite take_rows_cons, reparse_sortable by done. cbn [feed].
  change (wm_add (behavior_manager cfg)) with (add_event cfg). unfold mbind, M_bind.
  destruct (add_event cfg (reread ev) (br_manager s)) as [[rows|e] b]; [|by eexists].
  specialize (IH (mk_behavior_run b (br_sorter s)
    (foldl (λ p row, mark (row_key row).1 (row_key row).2 p) (br_presence s) rows) (br_yielded s ++ rows))).
  cbn [br_manager br_sorter br_presence br_yielded] in IH.
  destruct (feed (behavior_manager cfg) (map reread evs) b) as [[rest|e] b']; [|done].
  destruct IH as (p & Hrun & Hp). exists p. rewrite Hrun. cbn. rewrite <-app_assoc.
  split; [done |]. intros d w. rewrite Hp, has_marks, map_app, elem_of_app. tauto.
Qed.

Lemma sorted_weaken {A} (R S : A → A → Prop) l :
  (∀ a b, R a b → S a b) → StronglySorted R l → StronglySorted S l.
Proof.
  intros HRS. induction 1 as [|a l Hl IH Hall]; constructor; [done |].
  eapply Forall_impl; [exact Hall | auto].
Qed.

(** The events in the order the sorter returns them. *)
Lemma sorted_events grid tol events :
  ∃ evs, evs ≡ₚ events ∧ isort window_leb (map (sortable grid tol) events) = map (sortable grid tol) evs ∧
    StronglySorted (λ a b, (assign grid tol (me_ts_ns a)).1 ≤ (assign grid tol (me_ts_ns b)).1) evs.
Proof.
  set (leb := λ a b, window_leb (sortable grid tol a) (sortable grid tol b)).
  exists (isort leb events). split; [apply isort_perm |]. split.
  - assert (Hins : ∀ x l, insert_sorted window_leb (sortable grid tol x) (map (sortable grid tol) l)
      = map (sortable grid tol) (insert_sorted leb x l)).
    { intros x l. induction l as [|y l IH]; cbn; [done |]. unfold leb at 1.
      destruct (window_leb _ _); cbn; [done | by rewrite IH]. }
    induction events as [|x l IH]; cbn; [done |]. by rewrite IH, Hins.
  - assert (Hs : StronglySorted leb (isort leb events)).
    { apply isort_sorted; unfold leb, window_leb; intros; lia. }
    eapply sorted_weaken; [|exact Hs]. intros a b Hab%Is_true_true. unfold leb, window_leb in Hab. cbn in Hab. lia.
Qed.

(** Sorted events are in order for the watermark, whatever the truncation does. *)
Lemma sorted_in_order cfg K evs :
  0 ≤ bc_clock_tolerance_ns cfg → bc_clock_tolerance_ns cfg + 1000000 ≤ window_ns (bc_grid cfg) → 1 ≤ K →
  StronglySorted (λ a b, (assign (bc_grid cfg) (bc_clock_tolerance_ns cfg) (me_ts_ns a)).1
                       ≤ (assign (bc_grid cfg) (bc_clock_tolerance_ns cfg) (me_ts_ns b)).1) evs →
  in_order K (timed_wids (map (beh_arrival cfg) (map reread evs))).
Proof.
  intros Htol Hw HK. unfold in_order. set (g := bc_grid cfg) in *. set (tol := bc_clock_tolerance_ns cfg) in *.
  assert (Hone : ∀ ev w, w ∈ timed_wids [beh_arrival cfg (reread ev)] →
    (assign g tol (me_ts_ns ev)).1 - 1 ≤ w ≤ (assign g tol (me_ts_ns ev)).1).
  { intros ev w. unfold timed_wids, beh_arrival. cbn. destruct (event_sensor cfg (reread ev)); [|set_solver].
    cbn. intros [->|[]%elem_of_nil]%elem_of_cons. apply assign_floor; done. }
  induction 1 as [|ev evs Hs IH Hall]; cbn [map]; [constructor |].
  change (timed_wids (beh_arrival cfg (reread ev) :: map (beh_arrival cfg) (map reread evs)))
    with (timed_wids ([beh_arrival cfg (reread ev)] ++ map (beh_arrival cfg) (map reread evs))).
  unfold timed_wids in *. rewrite bind_app.
  assert (Hrest : ∀ w, w ∈ (map (beh_arrival cfg) (map reread evs)) ≫=
      (λ e, match e with Ignored => [] | Timed _ wid _ => [wid] end) →
    (assign g tol (me_ts_ns ev)).1 - 1 ≤ w).
  { intros w (a & Hin & (ev1 & -> & (ev2 & -> & Hev2)%list_elem_of_fmap)%list_elem_of_fmap)%list_elem_of_bind.
    rewrite Forall_forall in Hall. specialize (Hall ev2 Hev2).
    specialize (Hone ev2 w). cbn in Hone. rewrite app_nil_r in Hone. specialize (Hone Hin). lia. }
  specialize (Hone ev). cbn in Hone |- *. rewrite app_nil_r in Hone.
  destruct (beh_arrival cfg (reread ev)) as [|ts wid cs]; cbn in *; [done |].
  constructor; [done |]. apply Forall_forall. intros w Hin. specialize (Hrest w Hin).
  specialize (Hone wid). destruct Hone as [_ Hle]; [set_solver |]. lia.
Qed.

Lemma fill_behavior_rows cfg pairs s r s' :
  fill_behavior cfg pairs s = (r, s') →
  never_late r ∧
  (r = Ok tt → ∃ rows, br_yielded s' = br_yielded s ++ rows ∧
    Forall2 (λ dw row, empty_behavior_row (bc_scenario_id cfg) dw.1 dw.2 (bc_grid cfg) true = Ok row) pairs rows).
Proof.
  revert s. induction pairs as [|[d w] pairs IH]; intros s; cbn [fill_behavior].
  { intros [= <- <-]. split; [apply never_late_ok |]. intros _. exists []. by rewrite app_nil_r. }
  unfold mbind, M_bind, lift.
  assert (Hrow : never_late (empty_behavior_row (bc_scenario_id cfg) d w (bc_grid cfg) true)).
  { unfold empty_behavior_row. destruct (window_bounds _ _). auto with never_late. }
  destruct (empty_behavior_row _ d w _ true) as [row|e] eqn:He.
  2:{ intros [= <- <-]. split; [intros e1 [= <-]; by apply Hrow | intros [=]]. }
  cbn. intros Hrun. apply IH in Hrun as [Hnl Hok]. split; [done |]. intros Hr.
  destruct (Hok Hr) as (rows & Hy & Hrows). cbn in Hy. exists (row :: rows).
  rewrite Hy, <-app_assoc. split; [done |]. by constructor.
Qed.

(** The rows of a complete telemetry stream: those of the sorted, reread events, then
    the empty rows of the sensors that are missing. *)
Definition behavior_rows_of (cfg : BehaviorConfig) (evs : list MqttEvent) (yielded : list FeatureRow) : Prop :=
  ∃ observed filled lo hi p,
    yielded = observed ++ filled ∧
    Forall2 (sensor_row cfg) (sorted_entries (group (map (beh_arrival cfg) (map reread evs)))) observed ∧
    (∀ d w, has d w p = true ↔ (d, w) ∈ map row_key observed) ∧
    (filled = [] ∨
     Forall2 (λ dw row, empty_behavior_row (bc_scenario_id cfg) dw.1 dw.2 (bc_grid cfg) true = Ok row)
       (missing (supported_sensor_names (bc_inventory cfg)) lo hi p) filled).

Lemma generate_behavior_spec cfg events b0 w0 r s' :
  Forall stamp_reads events → 0 ≤ bc_clock_tolerance_ns cfg →
  bc_clock_tolerance_ns cfg + 1000000 ≤ window_ns (bc_grid cfg) →
  fresh (behavior_manager cfg) b0 → 1 ≤ lateness_of (behavior_manager cfg) b0 →
  fed [] w0 → (length (ws_buffer w0) < ws_chunk_rows w0)%nat →
  generate_behavior cfg events (mk_behavior_run b0 w0 empty_bitmap []) = (r, s') →
  never_late r ∧
  ∃ evs, evs ≡ₚ events ∧
    StronglySorted (λ a b, (assign (bc_grid cfg) (bc_clock_tolerance_ns cfg) (me_ts_ns a)).1
                         ≤ (assign (bc_grid cfg) (bc_clock_tolerance_ns cfg) (me_ts_ns b)).1) evs ∧
    (r = Ok tt → behavior_rows_of cfg evs (br_yielded s')).
Proof.
  intros Hevents Htol Hw Hfresh HK Hfed Hbuf Hgen.
  set (grid := bc_grid cfg) in *. set (tol := bc_clock_tolerance_ns cfg) in *.
  destruct (sorted_events grid tol events) as (evs & Hperm & Hsort & Hsorted).
  destruct (add_all_fed (map (sortable grid tol) events) [] w0 Hfed Hbuf) as (w1 & Hadd & Hfed1 & _).
  destruct (iter_sorted_run _ w1 Hfed1) as (w2 & Hiter & _). cbn [app] in Hiter. rewrite Hsort in Hiter.
  assert (Hevs : Forall stamp_reads evs) by by rewrite Hperm.
  pose proof (sorted_in_order cfg _ evs Htol Hw HK Hsorted) as Hord.
  set (s2 := mk_behavior_run b0 w2 empty_bitmap []).
  pose proof (take_rows_feed cfg grid tol evs s2 Hevs) as Htake. cbn [br_manager s2] in Htake.
  assert (Hbody : ∀ f : list Row → RM unit,
    (_ ← with_sorter (add_all (map (sortable grid tol) events)); sorted ← with_sorter iter_sorted; f sorted)
      (mk_behavior_run b0 w0 empty_bitmap []) = f (map (sortable grid tol) evs) s2).
  { intros f. unfold mbind, M_bind, with_sorter. cbn. rewrite Hadd. cbn. by rewrite Hiter. }
  unfold generate_behavior in Hgen. unfold mbind at 1, M_bind at 1 in Hgen.
  unfold finally_cleanup in Hgen. fold grid tol in Hgen. rewrite Hbody in Hgen. clear Hbody.
  destruct (feed (behavior_manager cfg) (map reread evs) b0) as [[rows|e] b] eqn:Hfeed.
  2:{ destruct Htake as (s3 & Ht). unfold mbind, M_bind in Hgen. rewrite Ht in Hgen.
      injection Hgen as <- <-. split.
      - intros e' [= <-] Hold. apply (extract_late (behavior_manager cfg) (map reread evs) b0 e b Hfresh); [|done..].
        unfold extract, mbind, M_bind. by rewrite Hfeed.
      - exists evs. split; [done | split; [done | intros [=]]]. }
  destruct Htake as (p & Ht & Hp). unfold mbind, M_bind in Hgen. rewrite Ht in Hgen.
  cbn [with_sorter br_sorter br_manager br_presence br_yielded] in Hgen.
  assert (Hclean : ∀ st, ∃ w, with_sorter cleanup st
    = (Ok tt, mk_behavior_run (br_manager st) w (br_presence st) (br_yielded st))).
  { intros st. by eexists. }
  edestruct Hclean as (w3 & Hc3). rewrite Hc3 in Hgen. clear Hc3. cbn [br_manager br_presence br_yielded] in Hgen.
  unfold with_manager at 1 in Hgen. cbn [br_manager br_sorter br_presence br_yielded] in Hgen.
  destruct (beh_finish cfg b) as [[last_rows|e] b2] eqn:Hfin.
  2:{ injection Hgen as <- <-. split.
      - intros e' [= <-] Hold. by apply (wm_finish_late (behavior_manager cfg) _ _ _ Hfin).
      - exists evs. split; [done | split; [done | intros [=]]]. }
  assert (Hex : extract (behavior_manager cfg) (map reread evs) b0 = (Ok (rows ++ last_rows), b2)).
  { unfold extract, mbind, M_bind. rewrite Hfeed.
    change (wm_finish (behavior_manager cfg)) with (beh_finish cfg). by rewrite Hfin. }
  apply extract_batch in Hex as [Hrows _]; [|done].
  unfold yield_behavior, modify in Hgen. edestruct Hclean as (w4 & Hc4). rewrite Hc4 in Hgen. clear Hc4.
  cbn [br_manager br_sorter br_presence br_yielded snd s2 app] in Hgen.
  set (p2 := foldl _ p last_rows) in *.
  assert (Hp2 : ∀ d w, has d w p2 = true ↔ (d, w) ∈ map row_key (rows ++ last_rows)).
  { intros d w. unfold p2. rewrite has_marks, Hp, map_app, elem_of_app. cbn [br_presence s2].
    rewrite has_empty. intuition congruence. }
  unfold fill_sensors in Hgen. cbn [br_manager br_presence] in Hgen.
  destruct (tr_max_wid_seen (bm_tracker b2)).
  - apply fill_behavior_rows in Hgen as [Hnl Hok]. split; [done |]. exists evs.
    split; [done | split; [done |]]. intros Hr. destruct (Hok Hr) as (filled & Hy & Hfilled). cbn in Hy.
    exists (rows ++ last_rows), filled. do 3 eexists. split; [exact Hy |]. split; [exact Hrows |].
    split; [exact Hp2 | right; exact Hfilled].
  - injection Hgen as <- <-. split; [apply never_late_ok |]. exists evs. split; [done | split; [done |]].
    intros _. exists (rows ++ last_rows), []. exists 0, 0, p2. cbn. rewrite app_nil_r.
    split; [done | split; [exact Hrows | split; [exact Hp2 | by left]]].
Qed.
End telemetry.
