(* ===== verification/DsStore.v ===== *)
(** * The feature store and the extraction engine

    Models [datasets/datasense/feature_store.py] (JSON-lines parts) and
    [ExtractionEngine] of [datasets/datasense/extraction.py]: buffered writers into
    temporary directories, their renaming into place, the state file of a session, the
    reader, the decision to skip, run or regenerate, and the extraction of a session.

    The disk is its directories by modality and name, the state files and the
    manifest; a directory lists its files and a part is its rows.  Every operation that
    changes the disk may fail, and the disks passed through are recorded: a crash
    leaves one of them.  Reads do not fail.  A state file that is written beside its
    target and renamed over it shows only as that last step.  Parquet parts, row groups,
    the paths, stamps and diagnostics in a state, and what the manifest says besides
    event and session are left out, and so are file names that are glob patterns. *)

From Stdlib Require Import SpecFloat.
From S2P Require Import Prelude PyString Json SimDevices DsWindowing DsNetwork DsBehavior DsExtraction.

(** ** Schemas *)
Definition is_count_field (f : string) : bool := endswith "_count" f.
Definition NETWORK_COUNT_FEATURES : list string := filter (λ f, is_count_field f = true) NETWORK_MODEL_FEATURES.
Definition NETWORK_STAT_FEATURES : list string :=
  filter (λ f, (is_count_field f = false) ∧ String.prefix "mss_observed" f = false) NETWORK_MODEL_FEATURES.
Definition NETWORK_LIST_META : list string :=
  filter (λ f, String.prefix "observed_" f = true) NETWORK_GRAPH_METADATA_FIELDS.
Definition NETWORK_BOOL_META : list string :=
  filter (λ f, String.prefix "observed_" f = false) NETWORK_GRAPH_METADATA_FIELDS.

Definition TEXT_KEYS : list string := ["scenario_id"; "device_id"; "window_start_utc"; "window_end_utc"].

(** The columns of [NETWORK_FIELD_TYPES]. *)
Definition network_columns : list string :=
  TEXT_KEYS ++ ["window_id"] ++ MASK_FIELDS ++ NETWORK_COUNT_FEATURES ++ NETWORK_STAT_FEATURES
  ++ ["mss_observed_min"; "mss_observed_max"] ++ NETWORK_LIST_META ++ NETWORK_BOOL_META.

Definition BEHAVIOR_INT_FIELDS : list string :=
  ["messages_count"; "topics_active_count"; "numeric_messages_count"; "array_messages_count";
   "string_messages_count"; "qos_levels_distinct_count"; "retained_messages_count";
   "duplicate_messages_count"; "distinct_message_ids_count"; "value_change_transitions_count";
   "burst_max_messages_per_second"; "string_values_distinct_count"; "binary_state_flip_count"].
Definition BEHAVIOR_BOOL_FIELDS : list string := ["constant_value_stream"; "event_present"].
Definition BEHAVIOR_FLOAT_FIELDS : list string :=
  filter (λ f, (f ∉ BEHAVIOR_INT_FIELDS) ∧ (f ∉ BEHAVIOR_BOOL_FIELDS))
    (BEHAVIOR_COMMON_FEATURES ++ CONTINUOUS_PROFILE_FEATURES ++ SPARSE_PROFILE_FEATURES).
Definition BEHAVIOR_LIST_META : list string := ["observed_topics"; "observed_applications"].
Definition BEHAVIOR_STR_META : list string := ["telemetry_source_mac"; "telemetry_source_ip"; "internal_device_name"].

(** The columns of [BEHAVIOR_FIELD_TYPES]. *)
Definition behavior_columns : list string :=
  TEXT_KEYS ++ ["window_id"] ++ MASK_FIELDS ++ ["behavior_profile"] ++ BEHAVIOR_INT_FIELDS
  ++ BEHAVIOR_FLOAT_FIELDS ++ BEHAVIOR_BOOL_FIELDS ++ BEHAVIOR_LIST_META ++ BEHAVIOR_STR_META.

Definition field_names (modality : string) : result (gset string) :=
  if bool_decide (modality = "network") then Ok (list_to_set network_columns)
  else if bool_decide (modality = "behavior") then Ok (list_to_set behavior_columns)
  else if bool_decide (modality = "communication") then Ok (list_to_set COMMUNICATION_FIELDS)
  else raise ValueError ("unknown modality " +:+ modality).

Definition REQUIRED_VERSIONS : gmap string string := list_to_map
  [("extractor", "datasense_raw_extractor_v2"); ("network_schema", "network_feature_schema_v1");
   ("behavior_schema", "behavior_feature_schema_v1");
   ("communication_schema", "communication_feature_schema_v1");
   ("session_catalog", "datasense_session_catalog_v1")].

Definition MODALITIES : list string := ["network"; "behavior"; "communication"].

(** ** The disk *)
Definition Directory : Type := list (string * list FeatureRow).

Record SessionState := mk_session_state {
  ss_status : string;
  ss_window_seconds : option f64;
  ss_clock_alignment_tolerance_ns : option Z;
  ss_max_event_lateness_ns : option Z;
  ss_versions : gmap string string;
  ss_record_counts : gmap string Z;
  ss_error : option string;
}.

Record Disk := mk_disk {
  dk_dirs : gmap (string * string) Directory;
  dk_states : gmap string SessionState;
  dk_manifest : list (string * string);
}.

Definition on_dirs (f : gmap (string * string) Directory → gmap (string * string) Directory) (d : Disk) : Disk :=
  mk_disk (f (dk_dirs d)) (dk_states d) (dk_manifest d).
Definition set_state (sid : string) (st : SessionState) (d : Disk) : Disk :=
  mk_disk (dk_dirs d) (<[sid := st]> (dk_states d)) (dk_manifest d).
Definition log_event (e : string * string) (d : Disk) : Disk :=
  mk_disk (dk_dirs d) (dk_states d) (dk_manifest d ++ [e]).

(** A writer: its target, its buffer and its counters. *)
Record FeatureStoreWriter := mk_writer {
  wr_scenario_id : string;
  wr_modality : string;
  wr_uid : string;
  wr_buffer_rows : Z;
  wr_fields : gset string;
  wr_buffer : list FeatureRow;
  wr_part_index : Z;
  wr_rows_written : Z;
}.
Definition tmp_prefix (sid : string) : string := ".tmp-" +:+ sid +:+ "-".
Definition tmp_dir (wr : FeatureStoreWriter) : string * string :=
  (wr_modality wr, tmp_prefix (wr_scenario_id wr) +:+ wr_uid wr).
Definition final_dir (wr : FeatureStoreWriter) : string * string := (wr_modality wr, wr_scenario_id wr).

(** The disk, those before it, the number of operations so far, and the writers. *)
Record World := mk_world {
  w_disk : Disk;
  w_past : list Disk;
  w_ops : nat;
  w_writers : gmap string FeatureStoreWriter;
}.
Definition FS (A : Type) : Type := M World A.

Definition OSError : exn_class := OtherError "OSError".
Definition FileNotFoundError : exn_class := OtherError "FileNotFoundError".
Definition IncompatibleSchemaError : exn_class := OtherError "IncompatibleSchemaError".

(** [f"part-{i:05d}.jsonl"]: at least five digits. *)
Definition digit_char (d : Z) : ascii := ascii_of_N (Z.to_N (48 + d)).
Fixpoint decimal_digits (n : nat) (z : Z) : string :=
  match n with
  | O => ""
  | S n => String (digit_char (z / 10 ^ Z.of_nat n)) (decimal_digits n (z mod 10 ^ Z.of_nat n))
  end.
Fixpoint width (fuel n : nat) (z : Z) : nat :=
  match fuel with
  | O => n
  | S fuel => if z <? 10 ^ Z.of_nat n then n else width fuel (S n) z
  end.
Definition pad5 (z : Z) : string := decimal_digits (width (Z.to_nat (Z.log2 z)) 5 z) z.
Definition part_name (i : Z) : string := "part-" +:+ pad5 i +:+ ".jsonl".

Section store.
Context (faults : nat → bool).

(** An operation on the disk: it fails, or it is done. *)
Definition disk_op (f : Disk → Disk) : FS unit := λ w,
  if faults (w_ops w) then (raise OSError "disk", mk_world (w_disk w) (w_past w) (S (w_ops w)) (w_writers w))
  else (Ok tt, mk_world (f (w_disk w)) (w_past w ++ [f (w_disk w)]) (S (w_ops w)) (w_writers w)).

Fixpoint each {A} (f : A → FS unit) (l : list A) : FS unit :=
  match l with [] => mret tt | x :: l => _ ← f x; each f l end.

(** [ignore_errors=True] *)
Definition ignore_errors (m : FS unit) : FS unit := λ w, (Ok tt, (m w).2).

Definition dir_at (k : string * string) (w : World) : option Directory := dk_dirs (w_disk w) !! k.
Definition exists_dir (k : string * string) (w : World) : bool := bool_decide (is_Some (dir_at k w)).

Definition unlink (k : string * string) (f : string) : FS unit := disk_op (on_dirs (alter (od_del f) k)).
Definition rmdir (k : string * string) : FS unit :=
  dir ← gets (dir_at k);
  match dir with
  | Some [] => disk_op (on_dirs (delete k))
  | _ => throw OSError "rmdir"
  end.

(** [shutil.rmtree]: the files one by one, then the directory. *)
Definition rmtree (k : string * string) : FS unit :=
  dir ← gets (dir_at k);
  _ ← each (unlink k) (default [] dir).*1;
  rmdir k.
Definition rmtree_ignoring (k : string * string) : FS unit :=
  dir ← gets (dir_at k);
  _ ← each (λ f, ignore_errors (unlink k f)) (default [] dir).*1;
  ignore_errors (rmdir k).

(** [mkdir(parents=True, exist_ok=True)] *)
Definition mkdir (k : string * string) : FS unit := disk_op (on_dirs (λ ds, <[k := default [] (ds !! k)]> ds)).

(** A file of a directory opened for writing, and a line appended to it. *)
Definition open_file (k : string * string) (f : string) : FS unit :=
  there ← gets (exists_dir k);
  _ ← guardM there FileNotFoundError "No such file or directory";
  disk_op (on_dirs (alter (od_setdefault f []) k)).
Definition append_line (k : string * string) (f : string) (row : FeatureRow) : FS unit :=
  disk_op (on_dirs (alter (λ dir, od_set f (default [] (od_get f dir) ++ [row]) dir) k)).

(** [os.rename] of a directory: not over one with files. *)
Definition rename_dir (src dst : string * string) : FS unit :=
  w ← gets id;
  match dir_at src w, dir_at dst w with
  | None, _ => throw FileNotFoundError "No such file or directory"
  | _, Some (_ :: _) => throw OSError "Directory not empty"
  | Some dir, _ => disk_op (on_dirs (λ ds, <[dst := dir]> (delete src ds)))
  end.

(** ** Writers *)
Definition writer (m : string) : FS FeatureStoreWriter :=
  w ← gets id; lift (of_option (w_writers w !! m) KeyError m).
Definition set_writer (m : string) (wr : FeatureStoreWriter) : FS unit := modify (λ w,
  mk_world (w_disk w) (w_past w) (w_ops w) (<[m := wr]> (w_writers w))).

Definition new_writer (sid m uid : string) (buffer_rows : Z) : result FeatureStoreWriter :=
  fields ← field_names m; Ok (mk_writer sid m uid (Z.max 1 buffer_rows) fields [] 0 0).

Definition with_buffer (buffer : list FeatureRow) (wr : FeatureStoreWriter) : FeatureStoreWriter :=
  mk_writer (wr_scenario_id wr) (wr_modality wr) (wr_uid wr) (wr_buffer_rows wr) (wr_fields wr) buffer
    (wr_part_index wr) (wr_rows_written wr).
Definition part_written (n : Z) (wr : FeatureStoreWriter) : FeatureStoreWriter :=
  mk_writer (wr_scenario_id wr) (wr_modality wr) (wr_uid wr) (wr_buffer_rows wr) (wr_fields wr) (wr_buffer wr)
    (wr_part_index wr + 1) (wr_rows_written wr + n).

Definition flush (m : string) : FS unit :=
  wr ← writer m;
  match wr_buffer wr with
  | [] => mret tt
  | rows =>
      _ ← set_writer m (with_buffer [] wr);
      let part := part_name (wr_part_index wr) in
      _ ← open_file (tmp_dir wr) part;
      _ ← each (append_line (tmp_dir wr) part) rows;
      set_writer m (part_written (Z.of_nat (length rows)) (with_buffer [] wr))
  end.

Definition write_row (m : string) (row : FeatureRow) : FS unit :=
  wr ← writer m;
  let keys : gset string := list_to_set row.*1 in
  _ ← guardM (bool_decide (wr_fields wr ⊆ keys)) ValueError (m +:+ " row missing required fields");
  _ ← guardM (bool_decide (keys ⊆ wr_fields wr)) ValueError (m +:+ " row has unexpected fields");
  let buffer := wr_buffer wr ++ [row] in
  _ ← set_writer m (with_buffer buffer wr);
  if wr_buffer_rows wr <=? Z.of_nat (length buffer) then flush m else mret tt.

Definition write_rows (m : string) (rows : list FeatureRow) : FS unit := each (write_row m) rows.

Definition MARKER : string := "_FINALIZING".

Definition finalize (m : string) : FS unit :=
  _ ← flush m;
  wr ← writer m;
  _ ← mkdir (tmp_dir wr);
  _ ← open_file (tmp_dir wr) MARKER;
  there ← gets (exists_dir (final_dir wr));
  _ ← (if there : bool then rmtree (final_dir wr) else mret tt);
  _ ← unlink (tmp_dir wr) MARKER;
  rename_dir (tmp_dir wr) (final_dir wr).

Definition abort (m : string) : FS unit :=
  _ ← flush m;
  wr ← writer m;
  there ← gets (exists_dir (tmp_dir wr));
  if there : bool then rmtree_ignoring (tmp_dir wr) else mret tt.

(** [try: body; except Exception: failed; raise], and [done] after a body that returns. *)
Definition on_exit {A B} (body : FS A) (done : A → FS B) (failed : exn → FS unit) : FS B := λ w,
  match body w with
  | (Ok a, w') => done a w'
  | (Raise e, w') => (_ ← failed e; lift (Raise e)) w'
  end.

(** [with writer: body] *)
Definition with_writer {A} (m : string) (body : FS A) : FS A :=
  wr ← writer m;
  _ ← mkdir (tmp_dir wr);
  on_exit body
    (λ a, there ← gets (exists_dir (tmp_dir wr));
          _ ← (if there : bool then finalize m else mret tt);
          mret a)
    (λ _, abort m).

(** ** States and reading *)
Definition save_atomic (sid : string) (st : SessionState) : FS unit :=
  _ ← disk_op id; disk_op (set_state sid st).
Definition manifest_append (event sid : string) : FS unit := disk_op (log_event (event, sid)).
End store.

(** [_iter_parts] *)
Definition part_files (dir : Directory) : list string :=
  sort_strings (filter (λ f, String.prefix "part-" f = true) dir.*1).
Definition iter_parts (d : Disk) (sid m : string) : result (list FeatureRow) :=
  match dk_dirs d !! (m, sid) with
  | None => raise FileNotFoundError ("no stored " +:+ m +:+ " output for " +:+ sid)
  | Some dir => Ok (part_files dir ≫= λ f, default [] (od_get f dir))
  end.

Definition check_compatible (d : Disk) (sid : string) : result SessionState :=
  match dk_states d !! sid with
  | None => raise FileNotFoundError ("no extraction state for " +:+ sid)
  | Some st =>
      _ ← check (bool_decide (ss_status st = "completed")) IncompatibleSchemaError (sid +:+ " extraction is not complete");
      _ ← check (bool_decide (map_Forall (λ k v, ss_versions st !! k = Some v) REQUIRED_VERSIONS))
            IncompatibleSchemaError (sid +:+ " version mismatch");
      _ ← check (bool_decide (is_Some (ss_window_seconds st))) IncompatibleSchemaError (sid +:+ " state lacks window_seconds");
      Ok st
  end.

(** [iter_records] *)
Definition iter_records (d : Disk) (sid m : string) : result (list FeatureRow) :=
  _ ← check (bool_decide (m ∈ MODALITIES)) ValueError ("unknown modality " +:+ m);
  _ ← check_compatible d sid;
  iter_parts d sid m.
Definition iter_network_window_ids (d : Disk) (sid : string) : result (list Z) :=
  rows ← iter_parts d sid "network";
  mapM (λ row, match od_get "window_id" row with
               | Some (JInt z) => Ok z
               | _ => raise KeyError "window_id"
               end) rows.
Definition count_records (d : Disk) (sid m : string) : result Z :=
  rows ← iter_parts d sid m; Ok (Z.of_nat (length rows)).

(** ** The engine *)
Record EngineSettings := mk_engine {
  en_window_seconds : f64;
  en_clock_tolerance_ns : Z;
  en_max_event_lateness_ns : Z;
  en_output_buffer_rows : Z;
  en_force_regenerate : bool;
}.

Inductive Resume := Skip | Run | Regenerate.

Definition window_matches (st : SessionState) (seconds : f64) : bool :=
  f_ltb (SFabs (f_sub (default (f_of_Z (-1)) (ss_window_seconds st)) seconds)) f_1e_9.

Definition decide_resume (d : Disk) (sid : string) (en : EngineSettings) : result (Resume * string) :=
  let present (m : string) := bool_decide (is_Some (dk_dirs d !! (m, sid))) in
  match dk_states d !! sid with
  | None =>
      if existsb present MODALITIES then Ok (Regenerate, "output present without extraction state")
      else Ok (Run, "no prior state")
  | Some st =>
      if negb (bool_decide (ss_status st = "completed")) then Ok (Run, "prior state status=" +:+ ss_status st)
      else if bool_decide (ss_versions st = REQUIRED_VERSIONS) && window_matches st (en_window_seconds en)
              && (default (-1) (ss_clock_alignment_tolerance_ns st) =? en_clock_tolerance_ns en)
              && (default (-1) (ss_max_event_lateness_ns st) =? en_max_event_lateness_ns en)
              && forallb present MODALITIES
      then Ok (Skip, "complete and compatible")
      else if en_force_regenerate en then Ok (Regenerate, "forced regeneration despite mismatch")
      else raise IncompatibleSchemaError (sid +:+ ": completed state incompatible")
  end.

Section engine.
Context (faults : nat → bool) (uid : string → string) (en : EngineSettings).

(** [cleanup_partial_output] *)
Definition remove_final (sid m : string) : FS unit :=
  there ← gets (exists_dir (m, sid));
  if there : bool then rmtree faults (m, sid) else mret tt.
Definition stale_dirs (sid m : string) (w : World) : list (string * string) :=
  filter (λ k, k.1 = m ∧ String.prefix (tmp_prefix sid) k.2 = true) (map_to_list (dk_dirs (w_disk w))).*1.
Definition remove_stale (sid m : string) : FS unit :=
  stale ← gets (stale_dirs sid m);
  each (rmtree_ignoring faults) stale.
Definition cleanup_partial_output (sid : string) : FS unit :=
  _ ← each (remove_final sid) MODALITIES;
  each (remove_stale sid) MODALITIES.

(** The rows of a modality that are buffered by the engine, and the rows counted. *)
Record Batches := mk_batches {
  bt_buffers : gmap string (list FeatureRow);
  bt_counts : gmap string Z;
}.
Definition batches0 : Batches :=
  mk_batches (list_to_map (map (λ m, (m, [])) MODALITIES)) (list_to_map (map (λ m, (m, 0)) MODALITIES)).

(** The rows of the buffer go to the writer, and are counted. *)
Definition write_batch (m : string) (rows : list FeatureRow) (b : Batches) : FS Batches :=
  _ ← write_rows faults m rows;
  mret (mk_batches (<[m := []]> (bt_buffers b))
          (<[m := default 0 (bt_counts b !! m) + Z.of_nat (length rows)]> (bt_counts b))).

Definition take_row (m : string) (row : FeatureRow) (b : Batches) : FS Batches :=
  buffer ← lift (of_option (bt_buffers b !! m) KeyError m);
  let buffer := buffer ++ [row] in
  if en_output_buffer_rows en <=? Z.of_nat (length buffer) then write_batch m buffer b
  else mret (mk_batches (<[m := buffer]> (bt_buffers b)) (bt_counts b)).

Fixpoint take_stream (rows : list (string * FeatureRow)) (b : Batches) : FS Batches :=
  match rows with
  | [] => mret b
  | (m, row) :: rows => b ← take_row m row b; take_stream rows b
  end.

Definition drain_batch (m : string) (b : Batches) : FS Batches :=
  write_batch m (default [] (bt_buffers b !! m)) b.

(** A stream of rows: its outcome and what it yields; or no stream at all. *)
Definition RowStream (A : Type) : Type := result (result unit * list A).

Definition take_all {A} (tag : A → string * FeatureRow) (rows : RowStream A) (b : Batches) : FS Batches :=
  '(outcome, rows) ← lift rows;
  b ← take_stream (map tag rows) b;
  _ ← lift outcome;
  mret b.

(** The body of [_extract_into_store]. *)
Definition extract_rows (pcap : RowStream (string * FeatureRow)) (telemetry : RowStream FeatureRow) : FS Batches :=
  b ← take_all id pcap batches0;
  b ← drain_batch "network" b;
  b ← drain_batch "communication" b;
  b ← take_all (pair "behavior") telemetry b;
  drain_batch "behavior" b.

Definition make_writer (sid m : string) : FS unit :=
  wr ← lift (new_writer sid m (uid m) (en_output_buffer_rows en)); set_writer m wr.

Definition extract_into_store (sid : string)
    (pcap : RowStream (string * FeatureRow)) (telemetry : RowStream FeatureRow) : FS Batches :=
  _ ← modify (λ w, mk_world (w_disk w) (w_past w) (w_ops w) ∅);
  _ ← each (make_writer sid) MODALITIES;
  with_writer faults "network" (with_writer faults "behavior" (with_writer faults "communication"
    (extract_rows pcap telemetry))).

Definition started_state (prior : option SessionState) : SessionState :=
  mk_session_state "in_progress" (Some (en_window_seconds en)) (Some (en_clock_tolerance_ns en))
    (Some (en_max_event_lateness_ns en)) REQUIRED_VERSIONS
    (match prior with Some st => ss_record_counts st | None => ∅ end) None.
Definition failed_state (e : exn) (st : SessionState) : SessionState :=
  mk_session_state "failed" (ss_window_seconds st) (ss_clock_alignment_tolerance_ns st)
    (ss_max_event_lateness_ns st) (ss_versions st) (ss_record_counts st)
    (Some (exn_class_name (exn_type e) +:+ ": " +:+ exn_msg e)).
Definition completed_state (counts : gmap string Z) (st : SessionState) : SessionState :=
  mk_session_state "completed" (ss_window_seconds st) (ss_clock_alignment_tolerance_ns st)
    (ss_max_event_lateness_ns st) (ss_versions st) (counts ∪ ss_record_counts st) (ss_error st).

Definition prepare_disk (sid : string) (action : Resume) (reason : string) : FS unit :=
  let regenerate := match action with Regenerate => true | _ => false end in
  if regenerate || negb (bool_decide (reason = "no prior state"))
  then _ ← cleanup_partial_output sid;
       if regenerate then manifest_append faults "regenerate" sid else mret tt
  else mret tt.

(** [run_session] from its first save on. *)
Definition complete_session (sid : string) (b : Batches) (st : SessionState) : FS SessionState :=
  let st := completed_state (bt_counts b) st in
  _ ← save_atomic faults sid st;
  _ ← manifest_append faults "completed" sid;
  mret st.
Definition start_session (sid : string) (st : SessionState)
    (pcap : RowStream (string * FeatureRow)) (telemetry : RowStream FeatureRow) : FS SessionState :=
  _ ← save_atomic faults sid st;
  _ ← manifest_append faults "start" sid;
  on_exit (extract_into_store sid pcap telemetry)
    (λ b, complete_session sid b st)
    (λ e, _ ← save_atomic faults sid (failed_state e st);
          manifest_append faults "failed" sid).

(** [run_session] *)
Definition run_session (sid : string)
    (pcap : RowStream (string * FeatureRow)) (telemetry : RowStream FeatureRow) : FS SessionState :=
  w ← gets id;
  '(action, reason) ← lift (decide_resume (w_disk w) sid en);
  let prior := dk_states (w_disk w) !! sid in
  match action with
  | Skip => mret (default (started_state None) prior)
  | _ => _ ← prepare_disk sid action reason; start_session sid (started_state prior) pcap telemetry
  end.
End engine.
