(* ===== verification/DsStoreFacts.v ===== *)
(** * The feature store: parts and frames

    The names of parts are distinct and, below 100000, sorted, so a directory of parts
    is read back in order; and what an operation on one session and modality can touch. *)

From Stdlib Require Import SpecFloat.
From S2P Require Import Prelude PyString Json DsWindowSort DsWindowing DsWindowSortFacts SimDevices DsNetwork.
From S2P Require Import DsBehavior DsExtraction.
From S2P Require Import DsStore.

(** ** Names *)
Lemma decimal_digits_length n z : String.length (decimal_digits n z) = n.
Proof. revert z. induction n as [|n IH]; intros z; cbn; [done | by rewrite IH]. Qed.

Lemma str_length_app s t : String.length (s +:+ t) = (String.length s + String.length t)%nat.
Proof. induction s as [|a s IH]; simpl; [done | by rewrite IH]. Qed.

Lemma str_compare_refl s : String.compare s s = Eq.
Proof. induction s as [|a s IH]; cbn; [done |]. by rewrite ascii_compare_refl. Qed.

Lemma digit_char_compare a b :
  0 ≤ a < 10 → 0 ≤ b < 10 → Ascii.compare (digit_char a) (digit_char b) = (a ?= b).
Proof.
  intros Ha Hb. unfold Ascii.compare, digit_char. rewrite !N_ascii_embedding by lia.
  rewrite <-N2Z.inj_compare, !Z2N.id by lia. apply Z.add_compare_mono_l.
Qed.

Lemma decimal_digits_order n a b s t :
  0 ≤ a → a < b → b < 10 ^ Z.of_nat n →
  String.compare (decimal_digits n a +:+ s) (decimal_digits n b +:+ t) = Lt.
Proof.
  revert a b. induction n as [|n IH]; intros a b Ha Hab Hb.
  { change (10 ^ Z.of_nat 0) with 1 in Hb. lia. }
  rewrite Nat2Z.inj_succ, Z.pow_succ_r in Hb by lia. set (p := 10 ^ Z.of_nat n) in *.
  change (match Ascii.compare (digit_char (a / p)) (digit_char (b / p)) with
          | Eq => String.compare (decimal_digits n (a mod p) +:+ s) (decimal_digits n (b mod p) +:+ t)
          | c => c end = Lt).
  assert (Hp : 0 < p) by (apply Z.pow_pos_nonneg; lia).
  pose proof (Z.div_mod a p). pose proof (Z.div_mod b p).
  pose proof (Z.mod_pos_bound a p Hp). pose proof (Z.mod_pos_bound b p Hp).
  rewrite digit_char_compare by (split; [by apply Z.div_pos; lia | apply Z.div_lt_upper_bound; lia]).
  destruct (Z.compare_spec (a / p) (b / p)) as [He|He|He]; [| done | exfalso; nia].
  apply IH; [lia | nia | lia].
Qed.

Lemma width_enough fuel n z :
  0 ≤ z → z < 10 ^ (Z.of_nat n + Z.of_nat fuel) → z < 10 ^ Z.of_nat (width fuel n z).
Proof.
  revert n. induction fuel as [|fuel IH]; intros n Hz Hlt; cbn [width].
  { by rewrite Z.add_0_r in Hlt. }
  destruct (Z.ltb_spec z (10 ^ Z.of_nat n)); [done |]. apply IH; [done |].
  by replace (Z.of_nat (S n) + Z.of_nat fuel) with (Z.of_nat n + Z.of_nat (S fuel)) by lia.
Qed.

Lemma pad5_enough z : 0 ≤ z → z < 10 ^ Z.of_nat (width (Z.to_nat (Z.log2 z)) 5 z).
Proof.
  intros Hz. apply width_enough; [done |]. rewrite Z2Nat.id by apply Z.log2_nonneg.
  destruct (Z.eq_dec z 0) as [->|]; [by vm_compute |].
  pose proof (Z.log2_spec z). pose proof (Z.log2_nonneg z).
  assert (2 ^ Z.succ (Z.log2 z) ≤ 10 ^ Z.succ (Z.log2 z)) by (apply Z.pow_le_mono_l; lia).
  assert (10 ^ Z.succ (Z.log2 z) ≤ 10 ^ (Z.of_nat 5 + Z.log2 z)) by (apply Z.pow_le_mono_r; lia). lia.
Qed.

Lemma part_name_inj a b : 0 ≤ a → 0 ≤ b → part_name a = part_name b → a = b.
Proof.
  intros Ha Hb Heq. injection Heq as Heq.
  change (pad5 a +:+ ".jsonl" = pad5 b +:+ ".jsonl") in Heq. pose proof (f_equal String.length Heq) as Hl.
  rewrite !str_length_app in Hl. unfold pad5 in Hl. rewrite !decimal_digits_length in Hl.
  apply Nat.add_cancel_r in Hl. unfold pad5 in Heq. rewrite Hl in Heq.
  pose proof (pad5_enough a Ha) as HA. rewrite Hl in HA. pose proof (pad5_enough b Hb) as HB.
  destruct (Z.lt_trichotomy a b) as [Hlt|[->|Hlt]]; [|done|].
  - pose proof (decimal_digits_order _ a b ".jsonl" ".jsonl" Ha Hlt HB) as Hc.
    by rewrite Heq, str_compare_refl in Hc.
  - pose proof (decimal_digits_order _ b a ".jsonl" ".jsonl" Hb Hlt HA) as Hc.
    by rewrite Heq, str_compare_refl in Hc.
Qed.

Lemma part_name_order a b : 0 ≤ a → a < b → b < 100000 → str_leb (part_name a) (part_name b) = true.
Proof.
  intros Ha Hab Hb.
  assert (Hw : ∀ z, 0 ≤ z < 100000 → width (Z.to_nat (Z.log2 z)) 5 z = 5%nat).
  { intros z Hz. destruct (Z.to_nat _); cbn [width]; [done |]. destruct (Z.ltb_spec z (10 ^ Z.of_nat 5)); [done | lia]. }
  unfold str_leb, String.leb, part_name, pad5. rewrite !Hw by lia.
  change (match String.compare (decimal_digits 5 a +:+ ".jsonl") (decimal_digits 5 b +:+ ".jsonl") with
          | Gt => false | _ => true end = true).
  by rewrite decimal_digits_order.
Qed.

(** The names of the first parts. *)
Definition parts (n : nat) : list string := map (λ i, part_name (Z.of_nat i)) (seq 0 n).

Lemma parts_S n : parts (S n) = parts n ++ [part_name (Z.of_nat n)].
Proof. unfold parts. by rewrite seq_S, map_app. Qed.

Lemma elem_of_parts f n : f ∈ parts n ↔ ∃ i, f = part_name (Z.of_nat i) ∧ (i < n)%nat.
Proof.
  unfold parts. rewrite list_elem_of_fmap. setoid_rewrite elem_of_seq.
  split; intros (i & -> & ?); exists i; (split; [done | lia]).
Qed.

Lemma parts_fresh n : part_name (Z.of_nat n) ∉ parts n.
Proof. intros (i & Hi & Hlt)%elem_of_parts. apply part_name_inj in Hi; lia. Qed.

Lemma parts_nodup n : NoDup (parts n).
Proof.
  induction n as [|n IH]; [constructor |]. rewrite parts_S. apply NoDup_app. split; [done |].
  split; [|apply NoDup_singleton]. intros x Hx ->%list_elem_of_singleton. by apply (parts_fresh n).
Qed.

Lemma prefix_app s t : String.prefix s (s +:+ t) = true.
Proof.
  induction s as [|a s IH]; [by destruct t |].
  change (match ascii_dec a a with left _ => String.prefix s (s +:+ t) | right _ => false end = true).
  by destruct (ascii_dec a a).
Qed.

Lemma list_filter_all {A} (P : A → Prop) `{∀ x, Decision (P x)} (l : list A) :
   (∀ x, x ∈ l → P x) → filter P l = l.
Proof.
  induction l as [|x l IH]; intros Hl; [done |]. rewrite filter_cons_True by (apply Hl; set_solver).
  f_equal. apply IH. set_solver.
Qed.

Lemma parts_prefix n : filter (λ f, String.prefix "part-" f = true) (parts n) = parts n.
Proof.
  apply list_filter_all. intros f (i & -> & _)%elem_of_parts. apply prefix_app.
Qed.

Lemma marker_not_part n : MARKER ∉ parts n.
Proof. by intros (i & Hi & _)%elem_of_parts. Qed.

Lemma parts_sorted n : Z.of_nat n ≤ 100000 → StronglySorted str_leb (parts n).
Proof.
  intros Hn. induction n as [|n IH]; [constructor |]. rewrite parts_S. specialize (IH ltac:(lia)).
  assert (Hle : Forall (λ f, str_leb f (part_name (Z.of_nat n))) (parts n)).
  { apply Forall_forall. intros f (i & -> & Hi)%elem_of_parts. apply Is_true_true.
    apply part_name_order; lia. }
  revert Hle IH. generalize (parts n). intros l Hle. induction 1 as [|x l Hs IH Hx]; cbn.
  - repeat constructor.
  - apply Forall_cons in Hle as [Hxn Hle]. constructor; [by apply IH |]. apply Forall_app. split; [done |].
    by constructor.
Qed.

Lemma sort_parts n : Z.of_nat n ≤ 100000 → sort_strings (parts n) = parts n.
Proof.
  intros Hn. unfold sort_strings. apply (sorted_perm_eq str_leb str_leb_total str_leb_trans).
  - intros x y _ _. apply str_leb_antisym.
  - apply isort_sorted; [apply str_leb_total | exact str_leb_trans].
  - by apply parts_sorted.
  - apply isort_perm.
Qed.

(** *** A directory of parts *)
Lemma bind_keys (dir : Directory) :
  NoDup dir.*1 → (dir.*1 ≫= λ f, default [] (od_get f dir)) = concat dir.*2.
Proof.
  intros Hnd. assert (H : ∀ l, l ⊆ dir → (l.*1 ≫= λ f, default [] (od_get f dir)) = concat l.*2).
  { induction l as [|[f rows] l IH]; intros Hl; [done |]. cbn.
    rewrite (od_elem_get f rows dir) by (done || apply Hl; set_solver). cbn.
    f_equal. apply IH. set_solver. }
  by apply H.
Qed.

(** The directory of a finalized modality: its parts, full but the last. *)
Record stored (size : Z) (dir : Directory) (rows : list FeatureRow) : Prop := {
  st_names : dir.*1 = parts (length dir);
  st_rows : concat dir.*2 = rows;
  st_full : Z.of_nat (length dir) * size < Z.of_nat (length rows) + size;
}.

(** Reading it gives its rows, in order when the parts are fewer than 100000. *)
Lemma stored_read size dir rows :
  stored size dir rows →
  ∃ rows', (part_files dir ≫= λ f, default [] (od_get f dir)) = rows' ∧ rows' ≡ₚ rows ∧
    (Z.of_nat (length rows) ≤ 100000 * size → rows' = rows).
Proof.
  intros [Hn Hr Hf]. eexists. split; [done |]. unfold part_files. rewrite Hn, parts_prefix.
  assert (Hb : (parts (length dir) ≫= λ f, default [] (od_get f dir)) = rows).
  { rewrite <-Hn, bind_keys, Hr; [done |]. rewrite Hn. apply parts_nodup. }
  split.
  - rewrite <-Hb. by rewrite sort_strings_perm.
  - intros Hlen. by rewrite sort_parts by nia.
Qed.

(** ** What an operation touches

    [steps R m]: the world after [m], whatever its outcome, is related to the one
    before.  [along R] asks it of every disk the operation passes through. *)
Definition along (R : Disk → Disk → Prop) (w w' : World) : Prop :=
  ∃ new, w_past w' = w_past w ++ new ∧ Forall (R (w_disk w)) (w_disk w' :: new).

#[export] Instance along_preorder R `{!PreOrder R} : PreOrder (along R).
Proof.
  split.
  - intros w. exists []. rewrite app_nil_r. split; [done |]. by repeat constructor.
  - intros w1 w2 w3 (n1 & H1 & [D1 F1]%Forall_cons) (n2 & H2 & F2).
    exists (n1 ++ n2). rewrite H2, H1, app_assoc. split; [done |].
    assert (Forall (R (w_disk w1)) (w_disk w3 :: n2)) as [D2 F2']%Forall_cons
      by (eapply Forall_impl; [exact F2 |]; intros d; by apply transitivity).
    constructor; [done |]. by apply Forall_app.
Qed.

Lemma along_mono (R R' : Disk → Disk → Prop) w w' : (∀ d d', R d d' → R' d d') → along R w w' → along R' w w'.
Proof. intros HR (n & H & F). exists n. split; [done |]. eapply Forall_impl; eauto. Qed.

Definition steps {A} (R : World → World → Prop) (m : FS A) : Prop := ∀ w, R w (m w).2.

Section steps.
Context (R : World → World → Prop) `{!PreOrder R}.

Lemma steps_bind {A B} (m : FS A) (f : A → FS B) : steps R m → (∀ a, steps R (f a)) → steps R (m ≫= f).
Proof.
  intros Hm Hf w. specialize (Hm w). unfold mbind, M_bind. destruct (m w) as [[a|e] w']; [|done].
  etrans; [exact Hm | apply Hf].
Qed.

Lemma steps_ret {A} (a : A) : steps R (mret a).
Proof. by intros w. Qed.
Lemma steps_gets {A} (f : World → A) : steps R (gets f).
Proof. by intros w. Qed.
Lemma steps_lift {A} (r : result A) : steps R (lift r).
Proof. by intros w. Qed.
Lemma steps_throw {A} c msg : steps R (throw (A := A) c msg).
Proof. by intros w. Qed.
Lemma steps_guard b c msg : steps R (guardM b c msg).
Proof. by intros w. Qed.
Lemma steps_ignore (m : FS unit) : steps R m → steps R (ignore_errors m).
Proof. intros Hm w. apply (Hm w). Qed.
Lemma steps_if {A} (b : bool) (m m' : FS A) : steps R m → steps R m' → steps R (if b then m else m').
Proof. by destruct b. Qed.
Lemma steps_each {A} (f : A → FS unit) l : (∀ x, x ∈ l → steps R (f x)) → steps R (each f l).
Proof.
  induction l as [|x l IH]; intros Hf; [apply steps_ret |]. cbn [each].
  apply steps_bind; [apply Hf; set_solver | intros _; apply IH; set_solver].
Qed.
Lemma steps_on_exit {A B} (body : FS A) (done : A → FS B) failed :
  steps R body → (∀ a, steps R (done a)) → (∀ e, steps R (failed e)) → steps R (on_exit body done failed).
Proof.
  intros Hb Hd Hf w. specialize (Hb w). unfold on_exit. destruct (body w) as [[a|e] w'].
  - etrans; [exact Hb | apply Hd].
  - etrans; [exact Hb |]. apply (steps_bind (failed e) _ (Hf e)). intros _. apply steps_lift.
Qed.
End steps.

Lemma steps_mono {A} (R R' : World → World → Prop) (m : FS A) :
  (∀ w w', R w w' → R' w w') → steps R m → steps R' m.
Proof. intros HR Hm w. apply HR, Hm. Qed.

Lemma steps_disk_op faults (R : Disk → Disk → Prop) `{!PreOrder R} f :
  (∀ d, R d (f d)) → steps (along R) (disk_op faults f).
Proof.
  intros Hf w. unfold disk_op. destruct (faults _); cbn.
  - exists []. rewrite app_nil_r. split; [done |]. by repeat constructor.
  - exists [f (w_disk w)]. split; [done |]. by repeat constructor.
Qed.

(** *** Directories and states

    [quiet P]: the states stand, and only directories in [P] change. *)
Definition quiet (P : string * string → Prop) (d d' : Disk) : Prop :=
  dk_states d' = dk_states d ∧ ∀ k, ¬ P k → dk_dirs d' !! k = dk_dirs d !! k.

#[export] Instance quiet_preorder P : PreOrder (quiet P).
Proof.
  split.
  - by intros d.
  - intros d1 d2 d3 [H1 D1] [H2 D2]. split; [congruence |]. intros k Hk. by rewrite D2, D1.
Qed.

Lemma quiet_mono (P P' : string * string → Prop) d d' : (∀ k, P k → P' k) → quiet P d d' → quiet P' d d'.
Proof. intros HP [Hs Hd]. split; [done |]. intros k Hk. apply Hd. auto. Qed.

Section quiet.
Context (faults : nat → bool) (P : string * string → Prop).
Implicit Types (k : string * string).

Lemma quiet_op f :
  (∀ ds k, ¬ P k → f ds !! k = ds !! k) → steps (along (quiet P)) (disk_op faults (on_dirs f)).
Proof. intros Hf. apply steps_disk_op; [apply _ |]. intros d. split; [done |]. apply Hf. Qed.

Lemma quiet_alter f k : P k → steps (along (quiet P)) (disk_op faults (on_dirs (alter f k))).
Proof. intros Hk. apply quiet_op. intros ds k' Hk'. apply lookup_alter_ne. by intros ->. Qed.

Lemma quiet_rmdir k : P k → steps (along (quiet P)) (rmdir faults k).
Proof.
  intros Hk. unfold rmdir. apply steps_bind; [apply _ | apply steps_gets, _ |]. intros [[|]|]; try apply steps_throw, _.
  apply quiet_op. intros ds k' Hk'. apply lookup_delete_ne. by intros ->.
Qed.

Lemma quiet_rmtree k : P k → steps (along (quiet P)) (rmtree faults k).
Proof.
  intros Hk. unfold rmtree. apply steps_bind; [apply _ | apply steps_gets, _ | intros dir].
  apply steps_bind; [apply _ | | intros _; by apply quiet_rmdir].
  apply steps_each; [apply _ |]. intros f _. by apply quiet_alter.
Qed.

Lemma quiet_rmtree_ignoring k : P k → steps (along (quiet P)) (rmtree_ignoring faults k).
Proof.
  intros Hk. unfold rmtree_ignoring. apply steps_bind; [apply _ | apply steps_gets, _ | intros dir].
  apply steps_bind; [apply _ | | intros _; apply steps_ignore; by apply quiet_rmdir].
  apply steps_each; [apply _ |]. intros f _. apply steps_ignore. by apply quiet_alter.
Qed.

Lemma quiet_mkdir k : P k → steps (along (quiet P)) (mkdir faults k).
Proof. intros Hk. apply quiet_op. intros ds k' Hk'. apply lookup_insert_ne. by intros ->. Qed.

Lemma quiet_open k f : P k → steps (along (quiet P)) (open_file faults k f).
Proof.
  intros Hk. unfold open_file. apply steps_bind; [apply _ | apply steps_gets, _ | intros b].
  apply steps_bind; [apply _ | apply steps_guard, _ | intros _]. by apply quiet_alter.
Qed.

Lemma quiet_rename src dst : P src → P dst → steps (along (quiet P)) (rename_dir faults src dst).
Proof.
  intros Hs Hd. unfold rename_dir. apply steps_bind; [apply _ | apply steps_gets, _ | intros w].
  destruct (dir_at src w); [|apply steps_throw, _]. destruct (dir_at dst w) as [[|]|]; try apply steps_throw, _.
  all: apply quiet_op; intros ds k' Hk'; rewrite lookup_insert_ne, lookup_delete_ne; [done | by intros -> | by intros ->].
Qed.
End quiet.

(** *** The directories the code reaches by the name of a session: the final ones, and
    whatever matches the pattern [.tmp-<session>-*].  The pattern is looser than it
    looks: [.tmp-a-b-3f2a] matches it for the session [a] as well as for [a-b]. *)
Definition reached (sid : string) (k : string * string) : Prop :=
  k.2 = sid ∨ String.prefix (tmp_prefix sid) k.2 = true.

Lemma tmp_reached sid m uid : reached sid (m, tmp_prefix sid +:+ uid).
Proof. right. apply prefix_app. Qed.

Lemma prefix_split p s : String.prefix p s = true → ∃ r, s = p +:+ r.
Proof.
  revert s. induction p as [|a p IH]; intros s Hp; [by exists s |]. destruct s as [|b s]; [done |]. cbn in Hp.
  destruct (ascii_dec a b) as [->|]; [|done]. destruct (IH _ Hp) as [r ->]. by exists r.
Qed.
Lemma chars_inj s t : chars s = chars t → s = t.
Proof. intros Heq. by rewrite <-(unchars_chars s), Heq, unchars_chars. Qed.

Definition dash_free (u : string) : Prop := "-"%char ∉ chars u.

(** The temporary directory of another session is out of reach, unless that session's
    name is this one's with a dash and more. *)
Lemma tmp_apart sid s u :
  s ≠ sid → String.prefix (sid +:+ "-") s = false → dash_free u →
  String.prefix (tmp_prefix sid) (tmp_prefix s +:+ u) = false.
Proof.
  intros Hne Hs Hu. apply not_true_iff_false. intros [r Hr]%prefix_split.
  apply (f_equal chars) in Hr. unfold tmp_prefix in Hr. rewrite !chars_app in Hr.
  rewrite <-!app_assoc in Hr. apply app_inv_head in Hr.
  change (chars "-") with ["-"%char] in Hr.
  apply app_eq_app in Hr as (l & [[H1 H2]|[H1 H2]]); destruct l as [|c l].
  - apply Hne, chars_inj. by rewrite H1, app_nil_r.
  - injection H2 as <- _. apply not_true_iff_false in Hs. apply Hs. clear Hs.
    replace s with ((sid +:+ "-") +:+ unchars l); [apply prefix_app |].
    apply chars_inj. rewrite !chars_app, chars_unchars, H1, <-app_assoc. done.
  - apply Hne, chars_inj. by rewrite H1, app_nil_r.
  - injection H2 as <- H2. apply Hu. rewrite H2. set_solver.
Qed.

Lemma tmp_not_final sid uid : tmp_prefix sid +:+ uid ≠ sid.
Proof.
  intros Heq%(f_equal String.length). unfold tmp_prefix in Heq. rewrite !str_length_app in Heq.
  change (String.length ".tmp-") with 5%nat in Heq. lia.
Qed.

(** [frame ms]: writers outside [ms] stand, and of the disk only the directories of
    the session in the modalities [ms] change. *)
Section frame.
Context (faults : nat → bool) (sid : string).

Definition named (w : World) : Prop :=
  map_Forall (λ m wr, wr_modality wr = m ∧ wr_scenario_id wr = sid) (w_writers w).

Definition within (ms : string → Prop) (k : string * string) : Prop := ms k.1 ∧ reached sid k.

Definition frame (ms : string → Prop) (w w' : World) : Prop :=
  named w → named w' ∧ (∀ m, ¬ ms m → w_writers w' !! m = w_writers w !! m) ∧ along (quiet (within ms)) w w'.

#[export] Instance frame_preorder ms : PreOrder (frame ms).
Proof.
  split.
  - by intros w Hw.
  - intros w1 w2 w3 H1 H2 Hw. destruct (H1 Hw) as (Hn1 & Hw1 & Ha1). destruct (H2 Hn1) as (Hn2 & Hw2 & Ha2).
    split; [done |]. split; [intros m Hm; by rewrite Hw2, Hw1 | by etrans].
Qed.

Lemma frame_mono (ms ms' : string → Prop) w w' : (∀ m, ms m → ms' m) → frame ms w w' → frame ms' w w'.
Proof.
  intros Hms HF Hw. destruct (HF Hw) as (Hn & Hws & Ha). split; [done |]. split; [auto |].
  eapply along_mono; [|exact Ha]. intros d d'. apply quiet_mono. intros k [? ?]. by split; auto.
Qed.

(** Disk operations leave the writers alone. *)
Definition same_writers (w w' : World) : Prop := w_writers w' = w_writers w.
#[export] Instance same_writers_preorder : PreOrder same_writers.
Proof. unfold same_writers. split; [by intros w | intros x y z; congruence]. Qed.

Lemma writers_disk_op f : steps same_writers (disk_op faults f).
Proof. intros w. unfold disk_op. by destruct (faults _). Qed.

Lemma frame_disk {A} ms (m : FS A) :
  steps same_writers m → steps (along (quiet (within ms))) m → steps (frame ms) m.
Proof.
  intros Hw Ha w Hn. specialize (Hw w). unfold same_writers in Hw. unfold named. rewrite Hw.
  split; [done |]. split; [done | apply Ha].
Qed.
End frame.

Create HintDb steps.
#[export] Hint Extern 0 (PreOrder _) => apply _ : steps.
#[export] Hint Resolve steps_ret steps_gets steps_lift steps_throw steps_guard writers_disk_op : steps.

(** Programs of disk operations, by their shape. *)
Ltac walk :=
  repeat match goal with
    | |- steps _ _ => solve [auto with steps]
    | |- steps _ (_ ≫= _) => apply steps_bind; [apply _ | | intros ?]
    | |- steps _ (each _ _) => apply steps_each; [apply _ | intros ? ?]
    | |- steps _ (ignore_errors _) => apply steps_ignore
    | |- steps _ (match ?x with _ => _ end) => destruct x
    end.

Lemma writers_unlink faults k f : steps same_writers (unlink faults k f).
Proof. unfold unlink. walk. Qed.
Lemma writers_rmdir faults k : steps same_writers (rmdir faults k).
Proof. unfold rmdir. walk. Qed.
Lemma writers_mkdir faults k : steps same_writers (mkdir faults k).
Proof. unfold mkdir. walk. Qed.
Lemma writers_open_file faults k f : steps same_writers (open_file faults k f).
Proof. unfold open_file. walk. Qed.
Lemma writers_append_line faults k f row : steps same_writers (append_line faults k f row).
Proof. unfold append_line. walk. Qed.
Lemma writers_rename faults k k' : steps same_writers (rename_dir faults k k').
Proof. unfold rename_dir. walk. Qed.
#[export] Hint Resolve writers_unlink writers_rmdir writers_mkdir writers_open_file writers_append_line writers_rename : steps.
Lemma writers_rmtree faults k : steps same_writers (rmtree faults k).
Proof. unfold rmtree. walk. Qed.
Lemma writers_rmtree_ignoring faults k : steps same_writers (rmtree_ignoring faults k).
Proof. unfold rmtree_ignoring. walk. Qed.
#[export] Hint Resolve writers_rmtree writers_rmtree_ignoring : steps.

(** *** The operations of a writer *)
Section writer_frames.
Context (faults : nat → bool) (sid : string).

#[local] Hint Resolve quiet_alter quiet_rmdir quiet_rmtree quiet_rmtree_ignoring quiet_mkdir quiet_open quiet_rename : steps.

Lemma frame_mkdir ms k : within sid ms k → steps (frame sid ms) (mkdir faults k).
Proof. intros Hk. apply frame_disk; auto with steps. Qed.
Lemma frame_open ms k f : within sid ms k → steps (frame sid ms) (open_file faults k f).
Proof. intros Hk. apply frame_disk; auto with steps. Qed.
Lemma frame_append ms k f row : within sid ms k → steps (frame sid ms) (append_line faults k f row).
Proof. intros Hk. apply frame_disk; [|unfold append_line]; auto with steps. Qed.
Lemma frame_unlink ms k f : within sid ms k → steps (frame sid ms) (unlink faults k f).
Proof. intros Hk. apply frame_disk; [|unfold unlink]; auto with steps. Qed.
Lemma frame_rmtree ms k : within sid ms k → steps (frame sid ms) (rmtree faults k).
Proof. intros Hk. apply frame_disk; auto with steps. Qed.
Lemma frame_rmtree_ignoring ms k : within sid ms k → steps (frame sid ms) (rmtree_ignoring faults k).
Proof. intros Hk. apply frame_disk; auto with steps. Qed.
Lemma frame_rename ms k k' : within sid ms k → within sid ms k' → steps (frame sid ms) (rename_dir faults k k').
Proof. intros Hk Hk'. apply frame_disk; auto with steps. Qed.

Lemma frame_writer {A} ms m (f : FeatureStoreWriter → FS A) :
  (∀ wr, wr_modality wr = m → wr_scenario_id wr = sid → steps (frame sid ms) (f wr)) →
  steps (frame sid ms) (writer m ≫= f).
Proof.
  intros Hf w. unfold writer, gets, lift, mbind, M_bind. cbn.
  destruct (w_writers w !! m) as [wr|] eqn:Hm; cbn; [|done].
  intros Hn. destruct (Hn m wr Hm) as [? ?]. by apply Hf.
Qed.

Lemma frame_set_writer (ms : string → Prop) m wr :
  ms m → wr_modality wr = m → wr_scenario_id wr = sid → steps (frame sid ms) (set_writer m wr).
Proof.
  intros Hm Hmod Hsid w Hn. cbn. split.
  - apply map_Forall_insert_2; [done | exact Hn].
  - split; [intros m' Hm'; apply lookup_insert_ne; by intros -> |].
    exists []. rewrite app_nil_r. split; [done |]. by repeat constructor.
Qed.

Lemma tmp_within ms wr : wr_scenario_id wr = sid → ms (wr_modality wr) → within sid ms (tmp_dir wr).
Proof. intros <- Hm. split; [done | apply tmp_reached]. Qed.
Lemma final_within ms wr : wr_scenario_id wr = sid → ms (wr_modality wr) → within sid ms (final_dir wr).
Proof. intros <- Hm. split; [done | by left]. Qed.

#[local] Hint Resolve frame_mkdir frame_open frame_append frame_unlink frame_rmtree frame_rmtree_ignoring
  frame_rename frame_set_writer tmp_within final_within : steps.
Context (ms : string → Prop) (m : string) (Hm : ms m).

Lemma frame_flush : steps (frame sid ms) (flush faults m).
Proof. unfold flush. apply frame_writer. intros wr Hmod Hsid.
  assert (ms (wr_modality wr)) by (by rewrite Hmod). walk. Qed.
#[local] Hint Resolve frame_flush : steps.

Lemma frame_write_rows rows : steps (frame sid ms) (write_rows faults m rows).
Proof.
  unfold write_rows. apply steps_each; [apply _ |]. intros row _. unfold write_row.
  apply frame_writer. intros wr Hmod Hsid. walk.
Qed.

Lemma frame_finalize : steps (frame sid ms) (finalize faults m).
Proof.
  unfold finalize. apply steps_bind; [apply _ | apply frame_flush | intros _].
  apply frame_writer. intros wr Hmod Hsid.
  assert (ms (wr_modality wr)) by (by rewrite Hmod). walk.
Qed.

Lemma frame_abort : steps (frame sid ms) (abort faults m).
Proof.
  unfold abort. apply steps_bind; [apply _ | apply frame_flush | intros _].
  apply frame_writer. intros wr Hmod Hsid.
  assert (ms (wr_modality wr)) by (by rewrite Hmod). walk.
Qed.

Lemma frame_with_writer {A} (body : FS A) : steps (frame sid ms) body → steps (frame sid ms) (with_writer faults m body).
Proof.
  intros Hbody. unfold with_writer. apply frame_writer. intros wr Hmod Hsid.
  assert (ms (wr_modality wr)) by (by rewrite Hmod). walk.
  apply steps_on_exit; [apply _ | done | |]; intros ?; [| apply frame_abort].
  apply steps_bind; [apply _ | apply steps_gets, _ | intros b].
  apply steps_bind; [apply _ | destruct b; [apply frame_finalize | apply steps_ret, _] | intros _]. apply steps_ret, _.
Qed.
End writer_frames.

(** The whole of an extraction stays in the directories of its session. *)
Definition any (m : string) : Prop := True.

Section extraction_frame.
Context (faults : nat → bool) (uid : string → string) (en : EngineSettings) (sid : string).

Lemma frame_take_stream rows b : steps (frame sid any) (take_stream faults en rows b).
Proof.
  revert b. induction rows as [|[m row] rows IH]; intros b; cbn [take_stream]; [apply steps_ret, _ |].
  apply steps_bind; [apply _ | | intros b'; apply IH]. unfold take_row, write_batch. walk. by apply frame_write_rows.
Qed.

Lemma frame_take_all {A} (tag : A → string * FeatureRow) rows b : steps (frame sid any) (take_all faults en tag rows b).
Proof.
  unfold take_all. apply steps_bind; [apply _ | apply steps_lift, _ | intros [outcome l]].
  apply steps_bind; [apply _ | apply frame_take_stream | intros b']. walk.
Qed.

Lemma frame_drain m b : steps (frame sid any) (drain_batch faults m b).
Proof. unfold drain_batch, write_batch. walk. by apply frame_write_rows. Qed.

Lemma frame_extract_rows pcap telemetry : steps (frame sid any) (extract_rows faults en pcap telemetry).
Proof.
  unfold extract_rows. repeat (apply steps_bind; [apply _ | first [apply frame_take_all | apply frame_drain] | intros ?]).
  apply frame_drain.
Qed.

Lemma make_writers_run w :
  ∃ f : string → gset string,
  (∀ m, m ∈ MODALITIES → field_names m = Ok (f m)) ∧
  each (make_writer uid en sid) MODALITIES (mk_world (w_disk w) (w_past w) (w_ops w) ∅) =
  (Ok tt, mk_world (w_disk w) (w_past w) (w_ops w)
    (let wr m := mk_writer sid m (uid m) (Z.max 1 (en_output_buffer_rows en)) (f m) [] 0 0 in
     <["communication" := wr "communication"]> (<["behavior" := wr "behavior"]> (<["network" := wr "network"]> ∅)))).
Proof.
  exists (λ m, match field_names m with Ok s => s | Raise _ => ∅ end). split; [|done].
  intros m Hm. repeat (apply elem_of_cons in Hm as [->|Hm]; [done |]). by apply not_elem_of_nil in Hm.
Qed.
End extraction_frame.
