(* ===== verification/DsStoreRuns.v ===== *)
(** * The feature store: what an extraction leaves on disk

    What the writers hold at each point of an extraction up to the directories it puts
    in place, what is read back from them, and the disks a session passes through,
    with faults and without. *)

From Stdlib Require Import SpecFloat.
From S2P Require Import Prelude PyString Json DsWindowSort DsWindowing DsWindowSortFacts SimDevices DsNetwork.
From S2P Require Import DsBehavior DsExtraction DsStore DsStoreFacts.

(** ** What the writers hold

    Triples for runs in which an exception implies [Ex]: anything, or a disk that
    failed. *)
Definition columns (m : string) : gset string := match field_names m with Ok s => s | Raise _ => ∅ end.

(** A row with exactly the columns of its modality. *)
Definition accepted (m : string) (row : FeatureRow) : Prop := list_to_set row.*1 = columns m.

Definition flushed (wr : FeatureStoreWriter) : FeatureStoreWriter :=
  match wr_buffer wr with
  | [] => wr
  | rows => part_written (Z.of_nat (length rows)) (with_buffer [] wr)
  end.
Definition flushed_dir (wr : FeatureStoreWriter) (dir : Directory) : Directory :=
  match wr_buffer wr with [] => dir | rows => dir ++ [(part_name (wr_part_index wr), rows)] end.

Lemma od_get_snoc {V} (f : string) (v : V) d : f ∉ d.*1 → od_get f (d ++ [(f, v)]) = Some v.
Proof.
  induction d as [|[f' v'] d IH]; cbn; intros Hf; [by rewrite decide_True |].
  rewrite decide_False by set_solver. apply IH. set_solver.
Qed.
Lemma od_set_snoc {V} (f : string) (v v' : V) d : f ∉ d.*1 → od_set f v' (d ++ [(f, v)]) = d ++ [(f, v')].
Proof.
  induction d as [|[f1 v1] d IH]; cbn; intros Hf; [by rewrite decide_True |].
  rewrite decide_False by set_solver. f_equal. apply IH. set_solver.
Qed.
Lemma od_del_snoc {V} (f : string) (v : V) d : f ∉ d.*1 → od_del f (d ++ [(f, v)]) = d.
Proof.
  induction d as [|[f1 v1] d IH]; cbn; intros Hf; [by rewrite decide_True |].
  rewrite decide_False by set_solver. f_equal. apply IH. set_solver.
Qed.

Section runs.
Context (faults : nat → bool) (sid : string) (uid : string → string) (size : Z) (Hsize : 1 ≤ size).
Context (Ex : Prop) (Hfault : ∀ n, faults n = true → Ex).
#[local] Notation triple P m Q := (hoare P m Q (λ _, Ex)).

(** After an operation on the disk, the writers are the same. *)
Lemma t_op (P P' : World → Prop) f :
  (∀ w past ops, P w → P' (mk_world (f (w_disk w)) past ops (w_writers w))) →
  triple P (disk_op faults f) (λ _, P').
Proof.
  intros HP w out w' Hw. unfold disk_op. destruct (faults (w_ops w)) eqn:Hf; intros [= <- <-]; [by eapply Hfault | by apply HP].
Qed.

Lemma t_writer {A} P m wr (f : FeatureStoreWriter → FS A) Q :
  (∀ w, P w → w_writers w !! m = Some wr) → triple P (f wr) Q → triple P (writer m ≫= f) Q.
Proof.
  intros Hm Hf w out w' Hw. unfold writer, gets, lift, mbind, M_bind. cbn. rewrite (Hm w Hw). cbn. by apply Hf.
Qed.

Lemma t_gets {A B} P (g : World → A) a (f : A → FS B) Q :
  (∀ w, P w → g w = a) → triple P (f a) Q → triple P (gets g ≫= f) Q.
Proof. intros Hg Hf w out w' Hw. unfold gets, mbind, M_bind. rewrite (Hg w Hw). by apply Hf. Qed.

Lemma t_true (P : World → Prop) c msg : triple P (guardM true c msg) (λ _, P).
Proof. by intros w out w' Hw [= <- <-]. Qed.

Lemma t_set_writer (P P' : World → Prop) m wr :
  (∀ w, P w → P' (mk_world (w_disk w) (w_past w) (w_ops w) (<[m := wr]> (w_writers w)))) →
  triple P (set_writer m wr) (λ _, P').
Proof. intros HP. by apply h_modify. Qed.

Lemma t_on_exit {A B} P (body : FS A) R (done : A → FS B) failed Q :
  triple P body R → (∀ a, triple (R a) (done a) Q) → triple P (on_exit body done failed) Q.
Proof.
  intros Hb Hd w out w' Hw. unfold on_exit. destruct (body w) as [[a|e] w1] eqn:Hbw; specialize (Hb _ _ _ Hw Hbw).
  - by apply Hd.
  - unfold mbind, M_bind, lift. destruct (failed e w1) as [[]]; by intros [= <- <-].
Qed.

(** The writer of [m] is [wr] and its temporary directory has the files [dir]. *)
Definition held (m : string) (wr : FeatureStoreWriter) (dir : Directory) (w : World) : Prop :=
  w_writers w !! m = Some wr ∧ dir_at (tmp_dir wr) w = Some dir.

Lemma t_edit m wr dir dir' f :
  f dir = dir' → triple (held m wr dir) (disk_op faults (on_dirs (alter f (tmp_dir wr)))) (λ _, held m wr dir').
Proof.
  intros <-. apply t_op. intros w past ops [Hw Hd]. split; [done |].
  unfold dir_at in *. cbn. by rewrite lookup_alter_eq, Hd.
Qed.

Lemma t_open m wr dir f :
  f ∉ dir.*1 → triple (held m wr dir) (open_file faults (tmp_dir wr) f) (λ _, held m wr (dir ++ [(f, [])])).
Proof.
  intros Hf. unfold open_file. apply (t_gets _ _ true).
  { intros w [_ Hd]. unfold exists_dir. by rewrite Hd. }
  eapply h_seq; [by apply t_true |]. apply t_edit. unfold od_setdefault. by rewrite (proj2 (od_get_None f dir) Hf).
Qed.

Lemma t_append m wr dir f rows rows' :
  f ∉ dir.*1 →
  triple (held m wr (dir ++ [(f, rows)])) (each (append_line faults (tmp_dir wr) f) rows')
    (λ _, held m wr (dir ++ [(f, rows ++ rows')])).
Proof.
  intros Hf. revert rows. induction rows' as [|row rows' IH]; intros rows; cbn [each].
  { apply h_ret. by rewrite app_nil_r. }
  eapply h_seq; [by apply t_edit |]. rewrite od_get_snoc, od_set_snoc by done. cbn.
  eapply h_post; [apply IH |]. intros ? w. cbn. by rewrite <-app_assoc.
Qed.

Lemma t_flush m wr dir :
  part_name (wr_part_index wr) ∉ dir.*1 →
  triple (held m wr dir) (flush faults m) (λ _, held m (flushed wr) (flushed_dir wr dir)).
Proof.
  intros Hf. unfold flush. apply (t_writer _ _ wr); [by intros w [] |]. unfold flushed, flushed_dir.
  destruct (wr_buffer wr) as [|row rows]; [by apply h_ret |]. set (wr1 := with_buffer [] wr).
  eapply h_seq; [apply (t_set_writer _ (held m wr1 dir)); intros w [Hw Hd]; split; [by apply lookup_insert_eq | exact Hd] |].
  eapply h_seq; [by apply (t_open m wr1) |]. eapply h_seq; [by apply (t_append m wr1) |].
  apply t_set_writer. intros w [Hw Hd]. split; [by apply lookup_insert_eq | exact Hd].
Qed.

(** *** A writer that was given [rows] *)
Record writing (m : string) (wr : FeatureStoreWriter) (dir : Directory) (rows : list FeatureRow) : Prop := {
  wt_modality : wr_modality wr = m;
  wt_session : wr_scenario_id wr = sid;
  wt_uid : wr_uid wr = uid m;
  wt_size : wr_buffer_rows wr = size;
  wt_fields : wr_fields wr = columns m;
  wt_index : wr_part_index wr = Z.of_nat (length dir);
  wt_names : dir.*1 = parts (length dir);
  wt_full : Forall (λ p, Z.of_nat (length p.2) = size) dir;
  wt_room : Z.of_nat (length (wr_buffer wr)) < size;
  wt_rows : concat dir.*2 ++ wr_buffer wr = rows;
}.

Lemma full_length (dir : Directory) :
  Forall (λ p, Z.of_nat (length p.2) = size) dir → Z.of_nat (length (concat dir.*2)) = Z.of_nat (length dir) * size.
Proof. induction 1 as [|[f rows] dir Hp _ IH]; cbn; [done |]. rewrite length_app. cbn in Hp. lia. Qed.

Lemma writing_stored m wr dir rows : writing m wr dir rows → stored size (flushed_dir wr dir) rows.
Proof.
  intros [_ _ _ _ _ Hi Hn Hfull Hroom <-]. pose proof (full_length dir Hfull) as Hl. unfold flushed_dir.
  destruct (wr_buffer wr) as [|row buf] eqn:Hb.
  - split; [done | by rewrite app_nil_r |]. rewrite app_nil_r. lia.
  - split.
    + rewrite fmap_app, length_app, Nat.add_1_r, parts_S, Hn, Hi. done.
    + rewrite fmap_app, concat_app. cbn. by rewrite app_nil_r.
    + rewrite !length_app. cbn in *. lia.
Qed.

(** Where a modality stands: its writer made, open with the rows it was given, or its
    directory in place. *)
Inductive standing := Fresh | Writing (rows : list FeatureRow) | Done (rows : list FeatureRow).

Definition holds (m : string) (s : standing) (w : World) : Prop :=
  match s with
  | Fresh => ∃ wr, w_writers w !! m = Some wr ∧ dir_at (tmp_dir wr) w = None ∧ writing m wr [] []
  | Writing rows => ∃ wr dir, held m wr dir w ∧ writing m wr dir rows
  | Done rows => ∃ dir, dir_at (m, sid) w = Some dir ∧ stored size dir rows
  end.

Lemma h_ex {A B} (P : A → World → Prop) (m : FS B) Q :
  (∀ a, triple (P a) m Q) → triple (λ w, ∃ a, P a w) m Q.
Proof. intros H w out w' [a Hw]. by apply (H a). Qed.

Lemma t_writing {A} m rows (op : FS A) Q :
  (∀ wr dir, writing m wr dir rows → triple (held m wr dir) op Q) → triple (holds m (Writing rows)) op Q.
Proof. intros H w out w' (wr & dir & Hh & Hw). by apply (H wr dir Hw). Qed.

Lemma t_raise {A} (P : World → Prop) (op : FS A) Q : Ex → (∀ w, P w → ∃ e w', op w = (Raise e, w')) → triple P op Q.
Proof. intros Hex Hop w out w' Hw Hrun. destruct (Hop w Hw) as (e & w1 & He). rewrite He in Hrun. by injection Hrun as <- <-. Qed.

Lemma t_guard (P : World → Prop) (φ : Prop) `{!Decision φ} c msg (Q : Prop) :
  Q ∨ Ex → (Q → φ) → triple P (guardM (bool_decide φ) c msg) (λ _ w, φ ∧ P w).
Proof.
  intros HQ HQφ w out w' Hw. unfold guardM, check. case_bool_decide as Hφ; intros [= <- <-]; [done |].
  destruct HQ; [|done]. tauto.
Qed.

Lemma t_write_row m row rows :
  accepted m row ∨ Ex →
  triple (holds m (Writing rows)) (write_row faults m row) (λ _, holds m (Writing (rows ++ [row]))).
Proof.
  intros Hrow. apply t_writing. intros wr dir [Hm Hs Hu Hsz Hfd Hi Hn Hfull Hroom Hrows].
  unfold write_row. apply (t_writer _ _ wr); [by intros w [] |].
  eapply h_seq; [eapply h_post; [apply (t_guard _ _ _ _ (accepted m row)); [done | rewrite Hfd; unfold accepted; set_solver] | by intros ? ? [_ ?]] |].
  eapply h_seq; [eapply h_post; [apply (t_guard _ _ _ _ (accepted m row)); [done | rewrite Hfd; unfold accepted; set_solver] | by intros ? ? [_ ?]] |].
  set (wr1 := with_buffer (wr_buffer wr ++ [row]) wr).
  eapply h_seq; [apply (t_set_writer _ (held m wr1 dir)); intros w [Hw Hd]; split; [by apply lookup_insert_eq | exact Hd] |].
  rewrite Hsz. pose proof (length_app (wr_buffer wr) [row]) as Hlen. cbn in Hlen.
  destruct (Z.leb_spec size (Z.of_nat (length (wr_buffer wr ++ [row])))) as [Hge|Hlt].
  - eapply h_post; [apply t_flush; rewrite Hn; cbn [wr1 with_buffer wr_part_index]; rewrite Hi; apply parts_fresh |].
    intros ? w Hh. exists (flushed wr1), (flushed_dir wr1 dir). split; [done |]. clear Hh.
    destruct (wr_buffer wr ++ [row]) as [|r0 buf] eqn:Hb; [by apply app_eq_nil in Hb as [_ ?] |].
    assert (Hbuf : wr_buffer wr1 = r0 :: buf) by done. unfold flushed, flushed_dir. rewrite Hbuf.
    split; cbn [part_written with_buffer wr1 wr_modality wr_scenario_id wr_uid wr_buffer_rows wr_fields wr_buffer wr_part_index]; try done.
    + rewrite length_app. cbn. lia.
    + rewrite fmap_app, length_app, Nat.add_1_r, parts_S, Hn, Hi. done.
    + apply Forall_app. split; [done |]. constructor; [|constructor]. cbn in *. lia.
    + cbn. lia.
    + rewrite fmap_app, concat_app, <-Hrows, <-(app_assoc _ (wr_buffer wr)), Hb. cbn. by rewrite !app_nil_r.
  - apply h_ret. intros w Hh. exists wr1, dir. split; [done |].
    split; cbn [wr1 with_buffer wr_modality wr_scenario_id wr_uid wr_buffer_rows wr_fields wr_buffer wr_part_index]; try done.
    by rewrite app_assoc, Hrows.
Qed.

Lemma t_write_rows m new rows :
  Forall (λ row, accepted m row ∨ Ex) new →
  triple (holds m (Writing rows)) (write_rows faults m new) (λ _, holds m (Writing (rows ++ new))).
Proof.
  intros Hnew. revert rows. unfold write_rows. induction Hnew as [|row new Hrow _ IH]; intros rows; cbn [each].
  { apply h_ret. by rewrite app_nil_r. }
  eapply h_seq; [by apply t_write_row |]. eapply h_post; [apply IH |]. intros ? w. cbn. by rewrite <-app_assoc.
Qed.

(** *** Removing a directory, and renaming one *)
Definition steady (k : string * string) (F : World → Prop) : Prop :=
  ∀ w past ops g, F w → (∀ ds k', k' ≠ k → g ds !! k' = ds !! k') →
    F (mk_world (on_dirs g (w_disk w)) past ops (w_writers w)).

Lemma held_steady m wr dir k : k ≠ tmp_dir wr → steady k (held m wr dir).
Proof. intros Hk w past ops g [Hw Hd] Hg. split; [done |]. unfold dir_at in *. cbn. by rewrite Hg. Qed.

Lemma t_rmtree k F :
  steady k F → triple (λ w, F w ∧ exists_dir k w = true) (rmtree faults k) (λ _ w, F w ∧ dir_at k w = None).
Proof.
  intros HF. unfold rmtree.
  assert (Hloop : ∀ old, triple (λ w, F w ∧ dir_at k w = Some old)
    (each (unlink faults k) old.*1) (λ _ w, F w ∧ dir_at k w = Some [])).
  { induction old as [|[f rows] old IH]; cbn [each fmap list_fmap]; [by apply h_ret |].
    eapply h_seq; [|apply IH]. apply t_op. intros w past ops [Hw Hk]. split.
    - apply HF; [done |]. intros ds k' Hne. by apply lookup_alter_ne.
    - unfold dir_at in *. cbn [w_disk dk_dirs on_dirs]. rewrite lookup_alter_eq, Hk. cbn. by rewrite decide_True. }
  assert (Hrm : triple (λ w, F w ∧ dir_at k w = Some []) (rmdir faults k) (λ _ w, F w ∧ dir_at k w = None)).
  { unfold rmdir. apply (t_gets _ _ (Some [])); [by intros ? [_ ?] |].
    apply t_op. intros w past ops [Hw Hk]. split; [|apply lookup_delete_eq].
    apply HF; [done |]. intros ds k' Hne. by apply lookup_delete_ne. }
  intros w out w' [Hh Hex]. unfold exists_dir in Hex. apply bool_decide_eq_true in Hex as [old Hold].
  unfold gets, mbind at 1, M_bind at 1. cbn. rewrite Hold. cbn [default from_option id].
  exact (h_seq _ _ _ _ _ _ (Hloop old) Hrm w out w' (conj Hh Hold)).
Qed.

Lemma t_finalize m rows :
  triple (holds m (Writing rows)) (finalize faults m) (λ _, holds m (Done rows)).
Proof.
  apply t_writing. intros wr dir Hwr. pose proof (writing_stored m wr dir rows Hwr) as Hst.
  destruct Hwr as [Hm Hs Hu _ _ Hi Hn _ _ _]. unfold finalize.
  eapply h_seq; [apply t_flush; rewrite Hn, Hi; apply parts_fresh |].
  set (wr1 := flushed wr). set (dir1 := flushed_dir wr dir) in *.
  assert (Hwr1 : tmp_dir wr1 = tmp_dir wr ∧ final_dir wr1 = (m, sid)).
  { unfold wr1, flushed, final_dir. rewrite <-Hm, <-Hs. by destruct (wr_buffer wr). }
  destruct Hwr1 as [Htmp Hfin]. rewrite Hfin || idtac.
  assert (Hne : (m, sid) ≠ tmp_dir wr1).
  { rewrite Htmp. unfold tmp_dir. rewrite Hs. intros [= _ Heq]. by apply (tmp_not_final sid (wr_uid wr)). }
  apply (t_writer _ _ wr1); [by intros w [] |]. rewrite Hfin.
  eapply h_seq; [apply (t_op _ (held m wr1 dir1)) |].
  { intros w past ops [Hw Hd]. unfold held, dir_at in *. cbn [w_writers w_disk dk_dirs on_dirs]. split; [exact Hw |].
    etrans; [apply lookup_insert_eq |]. exact (f_equal (λ o, Some (default [] o)) Hd). }
  assert (Hmk : MARKER ∉ dir1.*1) by (rewrite (st_names _ _ _ Hst); apply marker_not_part).
  eapply h_seq; [by apply t_open |].
  eapply (h_bind _ (λ b w, held m wr1 (dir1 ++ [(MARKER, [])]) w ∧ exists_dir (m, sid) w = b)).
  { intros w out w' Hw [= <- <-]. done. }
  intros b. eapply (h_seq _ (λ w, held m wr1 (dir1 ++ [(MARKER, [])]) w ∧ dir_at (m, sid) w = None)).
  { destruct b; [by apply t_rmtree, held_steady |]. apply h_ret. intros w [Hh Hb]. split; [done |].
    unfold exists_dir in Hb. apply bool_decide_eq_false in Hb. by apply eq_None_not_Some. }
  eapply (h_seq _ (λ w, held m wr1 dir1 w ∧ dir_at (m, sid) w = None)).
  { apply t_op. intros w past ops [[Hw Hd] Hk]. unfold held, dir_at in *. cbn [w_writers w_disk dk_dirs on_dirs].
    rewrite lookup_alter_eq, lookup_alter_ne, Hd by done. cbn. by rewrite od_del_snoc. }
  intros w out w' [[Hw Hd] Hk] Hrun. unfold rename_dir, gets, id, mbind, M_bind in Hrun.
  cbv beta iota in Hrun. rewrite Hd, Hk in Hrun.
  refine (t_op (λ w, dir_at (tmp_dir wr1) w = Some dir1) (holds m (Done rows)) _ _ w out w' Hd Hrun).
  intros w1 past ops _. exists dir1. split; [|done]. unfold dir_at. cbn. by rewrite lookup_insert_eq.
Qed.

(** *** All modalities at once *)
Definition all (F : string → standing) (w : World) : Prop :=
  named sid w ∧ ∀ m, m ∈ MODALITIES → holds m (F m) w.

Lemma all_ext F F' w : (∀ m, m ∈ MODALITIES → F m = F' m) → all F w → all F' w.
Proof. intros HF [Hn Ha]. split; [done |]. intros m Hm. rewrite <-HF by done. by apply Ha. Qed.

Lemma frame_dir ms w w' m name :
  named sid w → frame sid ms w w' → ¬ ms m → dir_at (m, name) w' = dir_at (m, name) w.
Proof.
  intros Hn HF Hm. destruct (HF Hn) as (_ & _ & new & _ & [[_ Hd] _]%Forall_cons). apply Hd.
  by intros [? _].
Qed.

Lemma holds_frame ms m s w w' : named sid w → frame sid ms w w' → ¬ ms m → holds m s w → holds m s w'.
Proof.
  intros Hn HF Hm. pose proof (λ name, frame_dir ms w w' m name Hn HF Hm) as Hdir.
  destruct (HF Hn) as (_ & Hws & _). specialize (Hws m Hm).
  destruct s as [|rows|rows]; cbn [holds].
  - intros (wr & Hwr & Hd & Hwt). exists wr. split_and!; [congruence | | done].
    pose proof (wt_modality _ _ _ _ Hwt) as Hmod. revert Hd. unfold tmp_dir. by rewrite Hmod, Hdir.
  - intros (wr & dir & [Hwr Hd] & Hwt). exists wr, dir. split; [|done]. split; [congruence |].
    pose proof (wt_modality _ _ _ _ Hwt) as Hmod. revert Hd. unfold tmp_dir. by rewrite Hmod, Hdir.
  - intros (dir & Hd & Hst). exists dir. split; [by rewrite Hdir | done].
Qed.

(** An operation on one modality, among all. *)
Lemma t_all {A} m F (Q : A → standing) (op : FS A) :
  m ∈ MODALITIES → triple (holds m (F m)) op (λ a, holds m (Q a)) → steps (frame sid (eq m)) op →
  triple (all F) op (λ a, all (λ m', if decide (m' = m) then Q a else F m')).
Proof.
  intros Hm Hop Hfr w out w' [Hn Ha] Hrun. pose proof (Hop w out w' (Ha m Hm) Hrun) as Hout.
  specialize (Hfr w). rewrite Hrun in Hfr. destruct out as [a|e]; [|done].
  split; [by apply Hfr |]. intros m' Hm'. case_decide as He; [by subst |].
  apply (holds_frame (eq m) m' _ w); [done | done | congruence | by apply Ha].
Qed.

(** The modalities before their writers are entered, after those are left, and between. *)
Definition stage (fresh done : list string) (f : string → list FeatureRow) (m : string) : standing :=
  if decide (m ∈ fresh) then Fresh else if decide (m ∈ done) then Done (f m) else Writing (f m).

Lemma t_enter m wr :
  triple (λ w, holds m Fresh w ∧ w_writers w !! m = Some wr) (mkdir faults (tmp_dir wr)) (λ _, holds m (Writing [])).
Proof.
  apply t_op. intros w past ops [(wr' & Hw & Hd & Hwt) Hwr]. assert (wr' = wr) as -> by congruence.
  exists wr, []. split; [|done]. split; [done |]. unfold dir_at in *. cbn [w_disk on_dirs dk_dirs].
  etrans; [apply lookup_insert_eq |]. exact (f_equal (λ o, Some (default [] o)) Hd).
Qed.

Lemma t_enter_all m wr fresh :
  m ∈ MODALITIES → m ∉ fresh → writing m wr [] [] →
  triple (λ w, all (stage (m :: fresh) [] (λ _, [])) w ∧ w_writers w !! m = Some wr) (mkdir faults (tmp_dir wr))
    (λ _, all (stage fresh [] (λ _, []))).
Proof.
  intros Hm Hfr Hwt w out w' [[Hn Ha] Hwr] Hrun.
  assert (Htmp : within sid (eq m) (tmp_dir wr)).
  { apply tmp_within; [by apply Hwt | symmetry; by apply Hwt]. }
  pose proof (t_enter m wr w out w') as He. pose proof (frame_mkdir faults sid (eq m) (tmp_dir wr) Htmp w) as HF.
  rewrite Hrun in HF. specialize (Ha m Hm) as Hfm. unfold stage in Hfm. rewrite decide_True in Hfm by set_solver.
  specialize (He (conj Hfm Hwr) Hrun). destruct out; [|done]. split; [by apply HF |]. intros m' Hm'. unfold stage.
  destruct (decide (m' = m)) as [->|Hne]; [by rewrite decide_False, decide_False by set_solver |].
  specialize (Ha m' Hm'). apply (holds_frame (eq m) m' _ w); [done | done | congruence |].
  unfold stage in Ha. destruct (decide (m' ∈ fresh)); [by rewrite decide_True in Ha by set_solver |].
  rewrite decide_False in Ha by set_solver. done.
Qed.

(** The writer of a modality that is not entered yet. *)
Lemma t_fresh {A} m F (op : FS A) Q :
  m ∈ MODALITIES → F m = Fresh →
  (∀ wr, writing m wr [] [] → triple (λ w, all F w ∧ w_writers w !! m = Some wr) op Q) → triple (all F) op Q.
Proof.
  intros Hm HF Hop w out w' Hall Hrun. pose proof (proj2 Hall m Hm) as Hh. rewrite HF in Hh.
  destruct Hh as (wr & Hwr & _ & Hwt). by apply (Hop wr Hwt w).
Qed.

Lemma t_with_writer {A} m (body : FS A) fresh done (φ : A → (string → list FeatureRow) → Prop) :
  m ∈ MODALITIES → m ∉ fresh → m ∉ done →
  triple (all (stage fresh [] (λ _, []))) body (λ a w, ∃ f, φ a f ∧ all (stage [] done f) w) →
  triple (all (stage (m :: fresh) [] (λ _, []))) (with_writer faults m body)
    (λ a w, ∃ f, φ a f ∧ all (stage [] (m :: done) f) w).
Proof.
  intros Hm Hfr Hdn Hbody.
  apply (t_fresh m); [done | unfold stage; by rewrite decide_True by set_solver |]. intros wr Hwt.
  unfold with_writer. apply (t_writer _ _ wr); [by intros w [] |].
  eapply h_seq; [by apply t_enter_all |].
  eapply t_on_exit; [exact Hbody |]. intros a. apply h_ex. intros f. apply h_pure. intros Hφ.
  assert (Hst : stage [] done f m = Writing (f m)) by (unfold stage; by rewrite decide_False, decide_False by set_solver).
  apply (t_gets _ _ true).
  { intros w [_ Ha]. specialize (Ha m Hm). rewrite Hst in Ha. destruct Ha as (wr' & dir & [_ Hd] & Hwt').
    unfold exists_dir. replace (tmp_dir wr) with (tmp_dir wr') by (unfold tmp_dir; destruct Hwt, Hwt'; congruence).
    by rewrite Hd. }
  eapply h_seq.
  - apply (t_all m _ (λ _, Done (f m))); [done | rewrite Hst; apply t_finalize | by apply frame_finalize].
  - apply h_ret. intros w Hw. exists f. split; [done |]. eapply all_ext; [|exact Hw]. intros m' Hm'. cbn. unfold stage.
    rewrite (decide_False (P := m' ∈ [])), (decide_False (P := m' ∈ [])) by set_solver.
    destruct (decide (m' = m)) as [->|]; [by rewrite decide_True by set_solver |].
    destruct (decide (m' ∈ done)); [by rewrite decide_True by set_solver | by rewrite decide_False by set_solver].
Qed.

(** *** The buffers of the engine *)
Context (en : EngineSettings).

Definition pick (m : string) (rows : list (string * FeatureRow)) : list FeatureRow :=
  (filter (λ x, x.1 = m) rows).*2.

Definition good (x : string * FeatureRow) : Prop := x.1 ∈ MODALITIES ∧ accepted x.1 x.2.

(** The writers have [f], the buffers the rest of the rows [g] received. *)
Definition tally (g f : string → list FeatureRow) (b : Batches) : Prop :=
  (∀ m, m ∉ MODALITIES → bt_buffers b !! m = None) ∧
  ∀ m, m ∈ MODALITIES → ∃ buf, bt_buffers b !! m = Some buf ∧ f m ++ buf = g m ∧
    bt_counts b !! m = Some (Z.of_nat (length (f m))) ∧ Forall (λ row, accepted m row ∨ Ex) buf.

Definition running (g : string → list FeatureRow) (b : Batches) (w : World) : Prop :=
  ∃ f, tally g f b ∧ all (λ m, Writing (f m)) w.

Definition put_at (m : string) (rows : list FeatureRow) (f : string → list FeatureRow) (m' : string) : list FeatureRow :=
  if decide (m' = m) then rows else f m'.

(** Writing out a buffer [buf] that ends with the rows not yet written of [m]. *)
Lemma t_write_batch m buf g f b :
  m ∈ MODALITIES → tally g f b → Forall (λ row, accepted m row ∨ Ex) buf →
  triple (all (λ m, Writing (f m))) (write_batch faults m buf b)
    (λ b' w, running (put_at m (f m ++ buf) g) b' w ∧
       bt_buffers b' = <[m := []]> (bt_buffers b)).
Proof.
  intros Hm [Hnone Ht] Hbuf. unfold write_batch. eapply h_seq.
  { apply (t_all m _ (λ _, Writing (f m ++ buf))); [done | by apply t_write_rows | by apply frame_write_rows]. }
  apply h_ret. intros w Hw. split; [|done]. exists (put_at m (f m ++ buf) f). split.
  - split; cbn [bt_buffers bt_counts].
    + intros m' Hm'. rewrite lookup_insert_ne by congruence. by apply Hnone.
    + intros m' Hm'. destruct (Ht m' Hm') as (buf' & Hb & Hg & Hc & Hf). unfold put_at.
      destruct (decide (m' = m)) as [->|Hne].
      * exists []. rewrite !lookup_insert_eq, app_nil_r, Hc. cbn. rewrite length_app. split_and!; try done. f_equal. lia.
      * exists buf'. by rewrite !lookup_insert_ne by congruence.
  - eapply all_ext; [|exact Hw]. intros m' _. cbn. unfold put_at. by case_decide; subst.
Qed.

Lemma running_ext g g' b w : (∀ m, m ∈ MODALITIES → g m = g' m) → running g b w → running g' b w.
Proof.
  intros Hg (f & [Hn Ht] & Hw). exists f. split; [|done]. split; [done |]. intros m Hm.
  destruct (Ht m Hm) as (buf & ? & ? & ?). exists buf. by rewrite <-Hg.
Qed.

Lemma t_running {A} g b (op : FS A) Q :
  (∀ f, tally g f b → triple (all (λ m, Writing (f m))) op Q) → triple (running g b) op Q.
Proof. intros H w out w' (f & Ht & Hw). by apply (H f Ht). Qed.

Lemma t_take_row m row b g :
  good (m, row) ∨ Ex →
  triple (running g b) (take_row faults en m row b)
    (λ b' w, running (put_at m (g m ++ [row]) g) b' w ∧
       ∀ m', m' ≠ m → bt_buffers b' !! m' = bt_buffers b !! m').
Proof.
  intros Hgood. apply t_running. intros f [Hnone Ht]. unfold take_row.
  destruct (decide (m ∈ MODALITIES)) as [Hm|Hm].
  2:{ rewrite (Hnone m Hm). destruct Hgood as [[? _]|Hex]; [done |]. by intros w out w' _ [= <- <-]. }
  destruct (Ht m Hm) as (buf & Hb & Hg & Hc & Hf). rewrite Hb. cbn [of_option].
  assert (Hf' : Forall (λ row, accepted m row ∨ Ex) (buf ++ [row])).
  { apply Forall_app. split; [done |]. constructor; [|constructor]. destruct Hgood as [[_ ?]|]; auto. }
  intros w out w' Hw. unfold lift, mbind at 1, M_bind at 1. cbv beta iota.
  destruct (_ <=? _).
  - intros Hrun. pose proof (t_write_batch m (buf ++ [row]) g f b Hm (conj Hnone Ht) Hf' w out w' Hw Hrun) as Hout.
    destruct out as [b'|]; [|done]. destruct Hout as [Hr Hbuf]. split.
    + eapply running_ext; [|exact Hr]. intros m' _. unfold put_at. by rewrite app_assoc, Hg.
    + intros m' Hne. rewrite Hbuf. by apply lookup_insert_ne.
  - intros [= <- <-]. split; [|intros m' Hne; by apply lookup_insert_ne]. exists f. split; [|done]. split; cbn.
    + intros m' Hm'. rewrite lookup_insert_ne by congruence. by apply Hnone.
    + intros m' Hm'. unfold put_at. case_decide as He; [subst m'|].
      * exists (buf ++ [row]). rewrite lookup_insert_eq. split_and!; try done. by rewrite app_assoc, Hg.
      * rewrite lookup_insert_ne by congruence. by apply Ht.
Qed.

Lemma t_take_stream rows b g :
  Forall (λ x, good x ∨ Ex) rows →
  triple (running g b) (take_stream faults en rows b)
    (λ b' w, running (λ m, g m ++ pick m rows) b' w ∧
       ∀ m, m ∉ rows.*1 → bt_buffers b' !! m = bt_buffers b !! m).
Proof.
  intros Hrows. revert b g. induction Hrows as [|[m row] rows Hrow _ IH]; intros b g; cbn [take_stream].
  { apply h_ret. intros w Hw. split; [|done]. eapply running_ext; [|exact Hw]. intros m _. by rewrite app_nil_r. }
  eapply h_bind; [by apply t_take_row |]. intros b1 w out w' [Hw Hb1] Hrun.
  pose proof (IH b1 _ w out w' Hw Hrun) as Hout. destruct out as [b'|]; [|done]. destruct Hout as [Hr Hb]. split.
  - eapply running_ext; [|exact Hr]. intros m' _. unfold put_at, pick.
    destruct (decide (m' = m)) as [->|Hne].
    + rewrite filter_cons_True by done. cbn. by rewrite <-app_assoc.
    + by rewrite filter_cons_False by (cbn; congruence).
  - intros m' Hm'. cbn in Hm'. rewrite Hb, Hb1; set_solver.
Qed.

Lemma t_drain m b g :
  m ∈ MODALITIES →
  triple (running g b) (drain_batch faults m b) (λ b' w, running g b' w ∧ bt_buffers b' = <[m := []]> (bt_buffers b)).
Proof.
  intros Hm. apply t_running. intros f Ht. destruct (proj2 Ht m Hm) as (buf & Hb & Hg & _ & Hf).
  unfold drain_batch. rewrite Hb. cbn [default from_option id].
  eapply h_post; [by apply t_write_batch |]. intros b' w [Hr Hbuf]. split; [|done].
  eapply running_ext; [|exact Hr]. intros m' _. unfold put_at. case_decide as He; [subst; by rewrite Hg | done].
Qed.

(** The streams that end well, with rows the writers accept. *)
Definition clean (pcap : RowStream (string * FeatureRow)) (telemetry : RowStream FeatureRow) : Prop :=
  (∃ rows, pcap = Ok (Ok tt, rows) ∧ Forall good rows) ∧
  (∃ rows, telemetry = Ok (Ok tt, rows) ∧ Forall (accepted "behavior") rows).

Lemma t_take_all {A} (tag : A → string * FeatureRow) stream b g :
  (∃ rows, stream = Ok (Ok tt, rows) ∧ Forall good (map tag rows)) ∨ Ex →
  triple (running g b) (take_all faults en tag stream b)
    (λ b' w, ∃ rows, stream = Ok (Ok tt, rows) ∧ running (λ m, g m ++ pick m (map tag rows)) b' w ∧
       ∀ m, m ∉ (map tag rows).*1 → bt_buffers b' !! m = bt_buffers b !! m).
Proof.
  intros Hs. unfold take_all.
  destruct stream as [[outcome rows]|e].
  2:{ destruct Hs as [(? & ? & _)|]; [done |]. by intros w out w' _ [= <- <-]. }
  assert (Hg : Forall (λ x, good x ∨ Ex) (map tag rows)).
  { destruct Hs as [(? & [= _ <-] & Hg)|]; [eapply Forall_impl; [exact Hg |]; auto | by apply Forall_true; auto]. }
  eapply (h_bind _ (λ a w, a = (outcome, rows) ∧ running g b w)); [by intros w out w' Hw [= <- <-] |].
  intros [o l]. apply h_pure. intros [= -> ->]. eapply h_bind; [by apply t_take_stream |]. intros b'.
  destruct outcome as [[]|e].
  - eapply (h_seq _ _ _ _ _ _ (h_ret _ tt (λ _, _) _ (λ s H, H))). apply h_ret. intros w [Hr Hb]. by exists rows.
  - destruct Hs as [(? & [=] & _)|]. by intros w out w' _ [= <- <-].
Qed.

(** What an extraction that returns has counted and written. *)
Definition extracted (pcap : RowStream (string * FeatureRow)) (telemetry : RowStream FeatureRow)
    (b : Batches) (f : string → list FeatureRow) : Prop :=
  ∃ ps ts, pcap = Ok (Ok tt, ps) ∧ telemetry = Ok (Ok tt, ts) ∧
  ∀ m, m ∈ MODALITIES →
    f m = pick m (ps ++ map (pair "behavior") ts) ∧ bt_counts b !! m = Some (Z.of_nat (length (f m))).

Lemma pick_app m l1 l2 : pick m (l1 ++ l2) = pick m l1 ++ pick m l2.
Proof. unfold pick. by rewrite filter_app, fmap_app. Qed.

Lemma start_running w : all (stage [] [] (λ _, [])) w → running (λ _, []) batches0 w.
Proof.
  intros Hw. exists (λ _, []). split; [|eapply all_ext; [|exact Hw]; done]. split.
  - intros m Hm. unfold batches0. cbn. rewrite !lookup_insert_ne by set_solver. apply lookup_empty.
  - intros m Hm. exists []. repeat (apply elem_of_cons in Hm as [->|Hm]; [by repeat constructor |]). by apply not_elem_of_nil in Hm.
Qed.

Lemma h_pure_r {A} (ψ : Prop) (P : World → Prop) (op : FS A) Q : (ψ → triple P op Q) → triple (λ w, P w ∧ ψ) op Q.
Proof. intros H w out w' [Hw Hψ]. by apply (H Hψ). Qed.

Lemma t_extract_rows pcap telemetry :
  clean pcap telemetry ∨ Ex →
  triple (all (stage [] [] (λ _, []))) (extract_rows faults en pcap telemetry)
    (λ b w, ∃ f, extracted pcap telemetry b f ∧ all (stage [] [] f) w).
Proof.
  intros Hclean. unfold extract_rows.
  eapply h_bind; [eapply h_pre; [apply (t_take_all id pcap) | apply start_running] |].
  { destruct Hclean as [[(rows & -> & ?) _]|]; [left | by right]. exists rows. by rewrite map_id. }
  intros b1. apply h_ex. intros ps. apply h_pure. intros Hps. apply h_pure_r. intros _.
  eapply h_bind; [apply t_drain; set_solver |]. intros b2. apply h_pure_r. intros Hb2.
  eapply h_bind; [apply t_drain; set_solver |]. intros b3. apply h_pure_r. intros Hb3.
  eapply h_bind; [apply (t_take_all (pair "behavior") telemetry) |].
  { destruct Hclean as [[_ (rows & -> & Hr)]|]; [left | by right]. exists rows. split; [done |].
    apply Forall_map. eapply Forall_impl; [exact Hr |]. intros row Hrow. split; [by right; left | exact Hrow]. }
  intros b4. apply h_ex. intros ts. apply h_pure. intros Hts. apply h_pure_r. intros Hb4.
  eapply h_post; [apply t_drain; set_solver |]. intros b5 w [(f & [_ Ht] & Hw) Hb5]. exists f. split; [|done].
  exists ps, ts. split; [done |]. split; [done |]. intros m Hm. destruct (Ht m Hm) as (buf & Hb & Hg & Hc & _).
  assert (buf = []) as ->; [|split; [|done]].
  - assert (Htags : ∀ m, m ≠ "behavior" → m ∉ (map (pair "behavior") ts).*1).
    { intros m' Hne (x & -> & (y & -> & _)%list_elem_of_fmap)%list_elem_of_fmap. done. }
    rewrite Hb5 in Hb. repeat (apply elem_of_cons in Hm as [->|Hm]).
    + rewrite lookup_insert_ne, Hb4, Hb3, Hb2, lookup_insert_ne, lookup_insert_eq in Hb by (done || by apply Htags).
      congruence.
    + rewrite lookup_insert_eq in Hb. congruence.
    + rewrite lookup_insert_ne, Hb4, Hb3, lookup_insert_eq in Hb by (done || by apply Htags). congruence.
    + by apply not_elem_of_nil in Hm.
  - rewrite app_nil_r in Hg. rewrite Hg, pick_app. cbn. by rewrite map_id.
Qed.

(** The temporary directories are not there: the suffix of each is new. *)
Definition unused (w : World) : Prop :=
  ∀ m, m ∈ MODALITIES → dir_at (m, tmp_prefix sid +:+ uid m) w = None.

Lemma make_writers_fresh w :
  size = Z.max 1 (en_output_buffer_rows en) → unused w →
  ∃ w', each (make_writer uid en sid) MODALITIES (mk_world (w_disk w) (w_past w) (w_ops w) ∅) = (Ok tt, w') ∧
    all (stage MODALITIES [] (λ _, [])) w'.
Proof.
  intros Hsz Hun. destruct (make_writers_run uid en sid w) as (f & Hf & ->). eexists. split; [done |]. cbv zeta. split.
  - repeat (apply map_Forall_insert_2; [done |]). apply map_Forall_empty.
  - intros m Hm. unfold stage. rewrite decide_True by done. cbn [holds w_writers].
    exists (mk_writer sid m (uid m) (Z.max 1 (en_output_buffer_rows en)) (f m) [] 0 0). split_and!.
    + by repeat (apply elem_of_cons in Hm as [->|Hm]; [done |]); apply not_elem_of_nil in Hm.
    + by apply Hun.
    + split; cbn; try done; try lia. unfold columns. by rewrite Hf.
Qed.

Lemma t_extract_into_store pcap telemetry :
  size = Z.max 1 (en_output_buffer_rows en) → clean pcap telemetry ∨ Ex →
  triple unused (extract_into_store faults uid en sid pcap telemetry)
    (λ b w, ∃ f, extracted pcap telemetry b f ∧
       ∀ m, m ∈ MODALITIES → ∃ dir, dir_at (m, sid) w = Some dir ∧ stored size dir (f m)).
Proof.
  intros Hsz Hclean w out w' Hun. unfold extract_into_store, modify, mbind at 1, M_bind at 1. cbv beta iota.
  destruct (make_writers_fresh w Hsz Hun) as (w1 & Hw1 & Hall). unfold mbind, M_bind. rewrite Hw1.
  revert Hall. generalize w1. clear w Hun w1 Hw1. intros w Hall. revert w out w' Hall.
  match goal with |- ∀ w out w', _ → ?op w = _ → _ => change (triple (all (stage MODALITIES [] (λ _, []))) op
    (λ b w, ∃ f, extracted pcap telemetry b f ∧
       ∀ m, m ∈ MODALITIES → ∃ dir, dir_at (m, sid) w = Some dir ∧ stored size dir (f m))) end.
  eapply h_post.
  { apply (t_with_writer "network" _ ["behavior"; "communication"] ["behavior"; "communication"] (extracted pcap telemetry));
      [set_solver.. |].
    apply (t_with_writer "behavior" _ ["communication"] ["communication"]); [set_solver.. |].
    apply (t_with_writer "communication" _ [] []); [set_solver.. |]. by apply t_extract_rows. }
  intros b w2 (f & Hf & _ & Ha). exists f. split; [done |]. intros m Hm. specialize (Ha m Hm). unfold stage in Ha.
  rewrite decide_False in Ha by apply not_elem_of_nil. by rewrite decide_True in Ha by done.
Qed.
End runs.

(** ** The disk a crash leaves *)
Definition completed (sid : string) (d : Disk) : Prop :=
  ∃ st, dk_states d !! sid = Some st ∧ ss_status st = "completed".

(** A completed session has in each modality the rows its state counts. *)
Definition intact (sid : string) (d : Disk) : Prop :=
  ∀ st, dk_states d !! sid = Some st → ss_status st = "completed" →
  ∀ m, m ∈ MODALITIES → ∃ rows, iter_parts d sid m = Ok rows ∧ ss_record_counts st !! m = Some (Z.of_nat (length rows)).

(** Only the state of the session changes, and directories it reaches. *)
Definition confined (sid : string) (d d' : Disk) : Prop :=
  (∀ s, s ≠ sid → dk_states d' !! s = dk_states d !! s) ∧ ∀ k, ¬ reached sid k → dk_dirs d' !! k = dk_dirs d !! k.

#[export] Instance confined_preorder sid : PreOrder (confined sid).
Proof.
  split; [by intros d |]. intros d1 d2 d3 [S1 D1] [S2 D2].
  split; [intros s Hs; by rewrite S2, S1 | intros k Hk; by rewrite D2, D1].
Qed.

(** Every other session keeps its state, its stored output (unless it is named like a
    temporary directory of this session), and its temporary directories (unless its
    name is this session's with a dash and more). *)
Definition others_stand (sid : string) (d d' : Disk) : Prop := ∀ s, s ≠ sid →
  dk_states d' !! s = dk_states d !! s ∧
  (String.prefix (tmp_prefix sid) s = false → ∀ m, dk_dirs d' !! (m, s) = dk_dirs d !! (m, s)) ∧
  (String.prefix (sid +:+ "-") s = false → String.prefix ".tmp-" sid = false → ∀ m u, dash_free u →
     dk_dirs d' !! (m, tmp_prefix s +:+ u) = dk_dirs d !! (m, tmp_prefix s +:+ u)).

Lemma confined_others sid d d' : confined sid d d' → others_stand sid d d'.
Proof.
  intros [Hs Hd] s Hne. split_and!; [by apply Hs | |].
  - intros Hp m. apply Hd. intros [Heq|Heq]; cbn in Heq; congruence.
  - intros Hp Hn m u Hu. apply Hd. intros [Heq|Heq]; cbn in Heq.
    + rewrite <-Heq in Hn. change (String.prefix ".tmp-" (".tmp-" +:+ ((s +:+ "-") +:+ u)) = false) in Hn.
      by rewrite prefix_app in Hn.
    + by rewrite tmp_apart in Heq.
Qed.

(** What happens to a session before it is completed. *)
Definition pending (sid : string) (d d' : Disk) : Prop :=
  confined sid d d' ∧ (completed sid d' → completed sid d).

#[export] Instance pending_preorder sid : PreOrder (pending sid).
Proof.
  split; [by intros d |]. intros d1 d2 d3 [U1 C1] [U2 C2]. split; [by etrans | auto].
Qed.

Lemma quiet_pending sid P d d' : (∀ k, P k → reached sid k) → quiet P d d' → pending sid d d'.
Proof.
  intros HP [Hs Hd]. split; [split|].
  - intros s _. by rewrite Hs.
  - intros k Hk. apply Hd. auto.
  - unfold completed. by rewrite Hs.
Qed.

Lemma set_state_pending sid st d : ss_status st ≠ "completed" → pending sid d (set_state sid st d).
Proof.
  intros Hst. split; [split; [|done]|].
  - intros s Hs. by apply lookup_insert_ne.
  - intros (st' & Hl & Hc). cbn in Hl. rewrite lookup_insert_eq in Hl. congruence.
Qed.

Lemma log_pending sid e d : pending sid d (log_event e d).
Proof. split; [by split |]. intros Hc. exact Hc. Qed.

(** No directory appears. *)
Definition no_new (d d' : Disk) : Prop := ∀ k, dk_dirs d !! k = None → dk_dirs d' !! k = None.
#[export] Instance no_new_preorder : PreOrder no_new.
Proof. split; [intros d k Hk; exact Hk | intros d1 d2 d3 H1 H2 k Hk; auto]. Qed.

Lemma no_new_op faults f :
  (∀ ds k, ds !! k = None → f ds !! k = None) → steps (along no_new) (disk_op faults (on_dirs f)).
Proof. intros Hf. apply steps_disk_op; [apply _ |]. intros d k. apply Hf. Qed.
Lemma no_new_alter faults f k : steps (along no_new) (disk_op faults (on_dirs (alter f k))).
Proof. apply no_new_op. intros ds k' Hk'. by apply lookup_alter_None. Qed.
Lemma no_new_delete faults k : steps (along no_new) (disk_op faults (on_dirs (delete k))).
Proof. apply no_new_op. intros ds k' Hk'. apply lookup_delete_None. by right. Qed.
#[export] Hint Resolve no_new_alter no_new_delete : steps.

Lemma no_new_rmtree faults k : steps (along no_new) (rmtree faults k).
Proof. unfold rmtree, rmdir, unlink. walk. Qed.
Lemma no_new_rmtree_ignoring faults k : steps (along no_new) (rmtree_ignoring faults k).
Proof. unfold rmtree_ignoring, rmdir, unlink. walk. Qed.
#[export] Hint Resolve no_new_rmtree no_new_rmtree_ignoring : steps.

Section sessions.
Context (faults : nat → bool) (uid : string → string) (en : EngineSettings) (sid : string).

Lemma stale_reached m w k : k ∈ stale_dirs sid m w → reached sid k.
Proof. intros [[_ Hk] _]%list_elem_of_filter. by right. Qed.

Lemma cleanup_quiet : steps (along (quiet (within sid any))) (cleanup_partial_output faults sid).
Proof.
  unfold cleanup_partial_output, remove_final. walk.
  - apply quiet_rmtree. split; [done | by left].
  - unfold remove_stale. intros w. unfold gets, mbind, M_bind. cbn.
    apply (steps_each (along (quiet (within sid any)))). intros k Hk%stale_reached.
    by apply quiet_rmtree_ignoring.
Qed.

Lemma cleanup_no_new : steps (along no_new) (cleanup_partial_output faults sid).
Proof. unfold cleanup_partial_output, remove_final, remove_stale. walk. Qed.

Lemma log_quiet P e s : steps (along (quiet P)) (manifest_append faults e s).
Proof. apply steps_disk_op; [apply _ | by intros d]. Qed.

Lemma prepare_quiet action reason : steps (along (quiet (within sid any))) (prepare_disk faults sid action reason).
Proof. unfold prepare_disk. walk; first [apply cleanup_quiet | apply log_quiet]. Qed.

Lemma prepare_no_new action reason : steps (along no_new) (prepare_disk faults sid action reason).
Proof. unfold prepare_disk. walk; first [apply cleanup_no_new | apply steps_disk_op; [apply _ | intros d k Hk; exact Hk]]. Qed.

Lemma extract_quiet pcap telemetry :
  steps (along (quiet (within sid any))) (extract_into_store faults uid en sid pcap telemetry).
Proof.
  intros w. unfold extract_into_store, modify, mbind, M_bind. cbv beta iota.
  destruct (make_writers_run uid en sid w) as (f & _ & ->). cbv zeta iota beta.
  match goal with |- along _ _ (?op ?w1).2 => assert (HF : frame sid any w1 (op w1).2);
    [|assert (Hn : named sid w1); [|exact (proj2 (proj2 (HF Hn)))]] end.
  - repeat (apply (frame_with_writer _ _ any); [done |]). apply frame_extract_rows.
  - repeat (apply map_Forall_insert_2; [done |]). apply map_Forall_empty.
Qed.

Lemma save_pending st : ss_status st ≠ "completed" → steps (along (pending sid)) (save_atomic faults sid st).
Proof.
  intros Hst. unfold save_atomic. apply steps_bind; [apply _ | by apply steps_disk_op; [apply _ |] | intros _].
  apply steps_disk_op; [apply _ |]. intros d. by apply set_state_pending.
Qed.
Lemma log_steps e s : steps (along (pending sid)) (manifest_append faults e s).
Proof. apply steps_disk_op; [apply _ |]. intros d. apply log_pending. Qed.

Lemma quiet_steps {A} (m : FS A) : steps (along (quiet (within sid any))) m → steps (along (pending sid)) m.
Proof.
  apply steps_mono. intros w w'. apply along_mono. intros d d'. apply quiet_pending. by intros k [_ ?].
Qed.

(** A session that is extracted is not completed, unless that is forced. *)
Lemma resume_pending d action reason :
  decide_resume d sid en = Ok (action, reason) → action ≠ Skip → en_force_regenerate en = false → ¬ completed sid d.
Proof.
  unfold decide_resume. intros Hr Hskip Hforce (st & Hst & Hc). rewrite Hst, Hc, Hforce in Hr.
  rewrite bool_decide_true in Hr by done. cbn [negb] in Hr. by destruct (_ && _); [injection Hr as <- <- |].
Qed.
End sessions.

(** ** A session, whatever fails *)
Lemma along_apart (R1 R2 R : Disk → Disk → Prop) w1 w2 w3 :
  along R1 w1 w2 → along R2 w2 w3 → (∀ d, R1 (w_disk w1) d → R (w_disk w1) d) →
  (∀ d, R1 (w_disk w1) (w_disk w2) → R2 (w_disk w2) d → R (w_disk w1) d) → along R w1 w3.
Proof.
  intros (n1 & H1 & [D1 F1]%Forall_cons) (n2 & H2 & [D2 F2]%Forall_cons) Ha Hb.
  exists (n1 ++ n2). rewrite H2, H1, app_assoc. split; [done |]. constructor; [by apply Hb |].
  apply Forall_app. split; (eapply Forall_impl; [eassumption |]; cbn; auto).
Qed.

(** What an ending session does: it may save one state. *)
Definition ends (sid : string) (st : SessionState) (d d' : Disk) : Prop :=
  confined sid d d' ∧ dk_dirs d' = dk_dirs d ∧
  (dk_states d' !! sid = dk_states d !! sid ∨ dk_states d' !! sid = Some st).

#[export] Instance ends_preorder sid st : PreOrder (ends sid st).
Proof.
  split; [intros d; by repeat split; auto |].
  intros d1 d2 d3 (U1 & D1 & S1) (U2 & D2 & S2). split_and!; [by etrans | congruence |].
  destruct S2 as [S2|S2]; [rewrite S2; destruct S1; auto | by right].
Qed.

Lemma save_ends faults sid st : steps (along (ends sid st)) (save_atomic faults sid st).
Proof.
  unfold save_atomic. apply steps_bind; [apply _ | apply steps_disk_op; [apply _ | done] | intros _].
  apply steps_disk_op; [apply _ |]. intros d. split_and!; [split; [|done] | done |].
  - intros s Hs. by apply lookup_insert_ne.
  - right. apply lookup_insert_eq.
Qed.

Lemma log_ends faults sid st e s : steps (along (ends sid st)) (manifest_append faults e s).
Proof. apply steps_disk_op; [apply _ |]. intros d. by repeat split; auto. Qed.

Lemma complete_ends faults sid b st :
  steps (along (ends sid (completed_state (bt_counts b) st))) (complete_session faults sid b st).
Proof.
  unfold complete_session. apply steps_bind; [apply _ | apply save_ends | intros _].
  apply steps_bind; [apply _ | apply log_ends | intros _]. apply steps_ret, _.
Qed.

Section sessions.
Context (faults : nat → bool) (uid : string → string) (en : EngineSettings) (sid : string).
Let size := Z.max 1 (en_output_buffer_rows en).

(** The disk changes of a session: those of others stay, and it stays intact. *)
Definition safe (d d' : Disk) : Prop := confined sid d d' ∧ intact sid d'.

Lemma pending_safe d d' : ¬ completed sid d → pending sid d d' → safe d d'.
Proof. intros Hc [Hu Hc']. split; [done |]. intros st Hst Hs. exfalso. apply Hc, Hc'. by exists st. Qed.

Lemma pending_along_safe w w' : ¬ completed sid (w_disk w) → along (pending sid) w w' → along safe w w'.
Proof.
  intros Hc (n & Hn & F). exists n. split; [done |]. eapply Forall_impl; [exact F |]. intros d. by apply pending_safe.
Qed.

Lemma iter_parts_at d m dir :
  dk_dirs d !! (m, sid) = Some dir → iter_parts d sid m = Ok (part_files dir ≫= λ f, default [] (od_get f dir)).
Proof.
  intros Hd. exact (f_equal (λ o : option Directory, match o with
    | None => raise FileNotFoundError ("no stored " +:+ m +:+ " output for " +:+ sid)
    | Some dir => Ok (part_files dir ≫= λ f, default [] (od_get f dir)) end) Hd).
Qed.

(** The directories are in place: what is read back, and counted. *)
Lemma extracted_read pcap telemetry b f w st :
  extracted pcap telemetry b f →
  (∀ m, m ∈ MODALITIES → ∃ dir, dir_at (m, sid) w = Some dir ∧ stored size dir (f m)) →
  ∀ m, m ∈ MODALITIES → ∃ rows,
    iter_parts (w_disk w) sid m = Ok rows ∧
    ss_record_counts (completed_state (bt_counts b) st) !! m = Some (Z.of_nat (length rows)) ∧
    length rows = length (f m) ∧ (Z.of_nat (length (f m)) ≤ 100000 * size → rows = f m).
Proof.
  intros (ps & ts & _ & _ & Hf) Hdir m Hm. destruct (Hdir m Hm) as (dir & Hd & Hst).
  destruct (stored_read _ _ _ Hst) as (rows & Hrows & Hp & Heq). exists rows.
  rewrite (iter_parts_at _ _ _ Hd), Hrows. destruct (Hf m Hm) as [_ Hc].
  split_and!; [done | | by rewrite Hp | done].
  cbn. rewrite (lookup_union_Some_l _ _ _ _ Hc). by rewrite Hp.
Qed.

Lemma unused_dirs w w' : unused sid uid w → no_new (w_disk w) (w_disk w') → unused sid uid w'.
Proof. intros Hu Hn m Hm. by apply Hn, Hu. Qed.

Lemma along_last R w w' : along R w w' → R (w_disk w) (w_disk w').
Proof. by intros (n & _ & [? _]%Forall_cons). Qed.

Lemma save_same st : steps (along (λ d d', dk_dirs d' = dk_dirs d)) (save_atomic faults sid st).
Proof.
  assert (PreOrder (λ d d' : Disk, dk_dirs d' = dk_dirs d)) by (split; [by intros ? | intros ? ? ?; congruence]).
  unfold save_atomic. apply steps_bind; [apply _ | |intros _]; by apply steps_disk_op.
Qed.

Lemma start_safe st pcap telemetry w :
  ss_status st = "in_progress" → unused sid uid w → ¬ completed sid (w_disk w) →
  along safe w (start_session faults uid en sid st pcap telemetry w).2.
Proof.
  intros Hst Hun Hnc. unfold start_session.
  assert (Hpend : ∀ w', along (pending sid) w w' → along safe w w') by (intros w'; by apply pending_along_safe).
  assert (Hsave : ∀ st, ss_status st ≠ "completed" → steps (along (pending sid)) (save_atomic faults sid st))
    by (intros; by apply save_pending).
  unfold mbind, M_bind. pose proof (Hsave st ltac:(by rewrite Hst) w) as A1. pose proof (save_same st w) as D1.
  destruct (save_atomic faults sid st w) as [[[]|e] w1]; [|by apply Hpend]. cbn in A1, D1.
  pose proof (log_steps faults sid "start" sid w1) as A2.
  assert (D2 : dk_dirs (w_disk (manifest_append faults "start" sid w1).2) = dk_dirs (w_disk w1))
    by (unfold manifest_append, disk_op; by destruct (faults _)).
  destruct (manifest_append faults "start" sid w1) as [[[]|e] w2]; [|apply Hpend; by etrans]. cbn in A2, D2.
  assert (Hun2 : unused sid uid w2).
  { apply along_last in D1. intros m Hm. unfold dir_at. rewrite D2, D1. by apply Hun. }
  pose proof (quiet_steps sid _ (extract_quiet faults uid en sid pcap telemetry) w2) as A3.
  unfold on_exit. pose proof (t_extract_into_store faults sid uid size ltac:(unfold size; lia) True ltac:(done) en
    pcap telemetry eq_refl ltac:(by right) w2 _ _ Hun2 (surjective_pairing _)) as Hex.
  destruct (extract_into_store faults uid en sid pcap telemetry w2) as [[b|e] w3]; cbn in A3, Hex.
  - destruct Hex as (f & Hf & Hdir).
    apply (along_apart (pending sid) (ends sid (completed_state (bt_counts b) st)) _ _ w3).
    + etrans; [exact A1 |]. by etrans.
    + apply complete_ends.
    + intros d. by apply pending_safe.
    + intros d [Hu Hc] (Hu' & Hd & Hs). split; [by etrans |]. intros st' Hst' Hcs. destruct Hs as [Hs|Hs].
      * exfalso. apply Hnc, Hc. exists st'. split; [by rewrite <-Hs | done].
      * assert (st' = completed_state (bt_counts b) st) as -> by congruence. intros m Hm.
        destruct (extracted_read _ _ _ _ _ st Hf Hdir m Hm) as (rows & Hr & Hn & _). exists rows.
        split; [|done]. revert Hr. unfold iter_parts. by rewrite Hd.
  - apply Hpend. etrans; [exact A1 |]. etrans; [exact A2 |]. etrans; [exact A3 |].
    assert (Hfail : steps (along (pending sid)) (_ ← save_atomic faults sid (failed_state e st);
        manifest_append faults "failed" sid)).
    { apply steps_bind; [apply _ | by apply Hsave | intros _]. apply log_steps. }
    exact (steps_bind (along (pending sid)) _ (λ _, lift (Raise e)) Hfail (λ _, steps_lift _ _) w3).
Qed.
End sessions.

(** ** The rows of the passes fit their writers *)
Definition fits (x : string * FeatureRow) : Prop :=
  (x.1 = "network" ∧ x.2.*1 = network_fields) ∨ (x.1 = "communication" ∧ x.2.*1 = COMMUNICATION_FIELDS).

Definition same_names (l1 l2 : list string) : bool :=
  forallb (λ f, existsb (String.eqb f) l2) l1 && forallb (λ f, existsb (String.eqb f) l1) l2.

Lemma same_names_set l1 l2 : same_names l1 l2 = true → list_to_set (C := gset string) l1 = list_to_set l2.
Proof.
  assert (H : ∀ l l', forallb (λ f, existsb (String.eqb f) l') l = true → ∀ f, f ∈ l → f ∈ l').
  { intros l l' Hl f Hf%list_elem_of_In. rewrite forallb_forall in Hl. specialize (Hl f Hf).
    apply existsb_exists in Hl as (f' & Hf' & ->%String.eqb_eq). by apply list_elem_of_In. }
  intros [H1 H2]%andb_true_iff. apply set_eq. intros f. rewrite !elem_of_list_to_set. split; eauto.
Qed.

Lemma network_accepted row : row.*1 = network_fields → accepted "network" row.
Proof.
  intros Hr. unfold accepted. rewrite Hr. change (columns "network") with (list_to_set (C := gset string) network_columns).
  apply same_names_set. vm_compute. reflexivity.
Qed.
Lemma behavior_accepted row : row.*1 = behavior_fields → accepted "behavior" row.
Proof.
  intros Hr. unfold accepted. rewrite Hr. change (columns "behavior") with (list_to_set (C := gset string) behavior_columns).
  apply same_names_set. vm_compute. reflexivity.
Qed.

Lemma fits_good x : fits x → good x.
Proof.
  destruct x as [m row]. unfold fits, good. cbn [fst snd]. intros [[-> Hr]|[-> Hr]].
  - split; [by left | by apply network_accepted].
  - split; [by right; right; left |]. unfold accepted. rewrite Hr. reflexivity.
Qed.

Lemma Forall2_fields {A} (P : A → FeatureRow → Prop) fields es rows :
  (∀ a row, P a row → row.*1 = fields) → Forall2 P es rows → Forall (λ row, row.*1 = fields) rows.
Proof. intros HP. induction 1; constructor; eauto. Qed.

Section yields.
Definition fit_so_far (s : PcapRun) : Prop := Forall fits (pn_yielded s).
#[local] Notation keeps m Q := (hoare fit_so_far m (λ a s, Q a ∧ fit_so_far s) fit_so_far).

Lemma net_rows_fit cfg p s rows s' :
  add_packet cfg p s = (Ok rows, s') → Forall (λ row, row.*1 = network_fields) rows.
Proof.
  intros Ha. pose proof (add_packet_live cfg p s) as Hl. rewrite Ha in Hl. destruct Hl as (out & _ & Hr).
  eapply Forall2_fields, Hr. intros a row Hf. by apply finalize_device_fields in Hf as [? _].
Qed.
Lemma net_last_fit cfg s rows s' : net_finish cfg s = (Ok rows, s') → Forall (λ row, row.*1 = network_fields) rows.
Proof.
  intros Ha. pose proof (net_finish_live cfg s) as Hl. rewrite Ha in Hl.
  eapply Forall2_fields, Hl. intros a row Hf. by apply finalize_device_fields in Hf as [? _].
Qed.
Lemma comm_rows_fit cfg p s rows s' :
  comm_add_packet cfg p s = (Ok rows, s') → Forall (λ row, row.*1 = COMMUNICATION_FIELDS) rows.
Proof.
  intros Ha. pose proof (comm_add_packet_live cfg p s) as Hl. rewrite Ha in Hl. destruct Hl as (out & _ & Hr).
  eapply Forall2_fields, Hr. intros a row Hf. by apply finalize_edge_fields in Hf as [? _].
Qed.
Lemma comm_last_fit cfg s rows s' : comm_finish cfg s = (Ok rows, s') → Forall (λ row, row.*1 = COMMUNICATION_FIELDS) rows.
Proof.
  unfold comm_finish. destruct (finish_rows _ _) as [rows'|] eqn:Hf; [|done]. intros [= <- _].
  apply finish_rows_ok in Hf. eapply Forall2_fields, Hf. intros a row Hr. by apply finalize_edge_fields in Hr as [? _].
Qed.

Lemma k_with_net {A} (m : NM A) Q : (∀ n a n', m n = (Ok a, n') → Q a) → keeps (with_net m) Q.
Proof.
  intros HQ s out s' Hs. unfold with_net. destruct (m (pn_net s)) as [[a|e] n] eqn:Hm; intros [= <- <-]; [|done].
  split; [by eapply HQ | done].
Qed.
Lemma k_with_comm {A} (m : CM A) Q : (∀ n a n', m n = (Ok a, n') → Q a) → keeps (with_comm m) Q.
Proof.
  intros HQ s out s' Hs. unfold with_comm. destruct (m (pn_comm s)) as [[a|e] n] eqn:Hm; intros [= <- <-]; [|done].
  split; [by eapply HQ | done].
Qed.
Lemma k_yield_network rows :
  Forall (λ row, row.*1 = network_fields) rows → hoare fit_so_far (yield_network rows) (λ _, fit_so_far) fit_so_far.
Proof.
  intros Hr. apply h_modify. intros s Hs. apply Forall_app. split; [done |]. apply Forall_map.
  eapply Forall_impl; [exact Hr |]. intros row Hrow. by left.
Qed.
Lemma k_yield_communication rows :
  Forall (λ row, row.*1 = COMMUNICATION_FIELDS) rows →
  hoare fit_so_far (yield_communication rows) (λ _, fit_so_far) fit_so_far.
Proof.
  intros Hr. apply h_modify. intros s Hs. apply Forall_app. split; [done |]. apply Forall_map.
  eapply Forall_impl; [exact Hr |]. intros row Hrow. by right.
Qed.

Lemma k_take_record ncfg ccfg rec : hoare fit_so_far (take_record ncfg ccfg rec) (λ _, fit_so_far) fit_so_far.
Proof.
  unfold take_record. eapply h_bind; [by apply h_lift |]. intros view. apply h_pure. intros _.
  destruct (pr_ts_ns rec) as [ts|]; [|by apply h_ret]. destruct view as [view|].
  2:{ eapply h_post; [by apply (k_with_net _ (λ _, True)) | by intros ? ? [_ ?]]. }
  eapply (h_seq _ fit_so_far); [by apply h_modify |].
  eapply h_bind; [apply k_with_net; intros; by eapply net_rows_fit |]. intros rows. apply h_pure. intros Hrows.
  eapply h_seq; [by apply k_yield_network |].
  eapply h_bind; [apply k_with_comm; intros; by eapply comm_rows_fit |]. intros edges. apply h_pure. intros Hedges.
  by apply k_yield_communication.
Qed.

Lemma k_generate ncfg ccfg recs : hoare fit_so_far (generate_pcap ncfg ccfg recs) (λ _, fit_so_far) fit_so_far.
Proof.
  unfold generate_pcap. eapply h_seq.
  { induction recs as [|rec recs IH]; cbn [take_records]; [by apply h_ret |]. eapply h_seq; [apply k_take_record | exact IH]. }
  eapply h_bind; [apply k_with_net; intros; by eapply net_last_fit |]. intros rows. apply h_pure. intros Hrows.
  eapply h_seq; [by apply k_yield_network |].
  eapply h_bind; [apply k_with_comm; intros; by eapply comm_last_fit |]. intros edges. apply h_pure. intros Hedges.
  eapply h_seq; [by apply k_yield_communication |].
  unfold fill_missing. intros s out s' Hs. cbv zeta. revert s out s' Hs. intros s. generalize (pn_presence s). intros p.
  generalize (missing (network_universe (nc_inventory ncfg) p) (min_window (nm_tracker (pn_net s))) (max_window (nm_tracker (pn_net s))) p).
  intros pairs out s'. revert s. induction pairs as [|[d w] pairs IH]; intros s Hs; cbn [fill_network]; [by intros [= <- <-] |].
  unfold mbind, M_bind, lift. destruct (empty_network_row _ d w _) as [row|e] eqn:He; [|by intros [= <- <-]].
  cbn. apply IH. apply Forall_app. split; [done |]. constructor; [|constructor]. left.
  by apply empty_network_row_fields in He as [? _].
Qed.
End yields.

Lemma pcap_rows_fit session inv set r yielded :
  iter_pcap_feature_rows session inv set = Ok (r, yielded) → Forall fits yielded.
Proof.
  unfold iter_pcap_feature_rows. destruct (si_capture session); [|done]. destruct (si_session_start_ns session); [|done].
  intros (grid & _ & H)%result_bind_ok. apply result_bind_ok in H as (net & _ & H).
  apply result_bind_ok in H as (comm & _ & H). destruct (generate_pcap _ _ _ _) as [out s] eqn:Hg.
  injection H as _ <-.
  pose proof (k_generate _ _ _ _ _ _ (Forall_nil_2 _ : fit_so_far (mk_pcap_run net comm empty_bitmap ∅ None None [])) Hg) as Hk.
  by destruct out.
Qed.

Section behavior_yields.
Context `{PyRuntime} `{LibM} `{IsoFormat}.
Definition cols_so_far (s : BehaviorRun) : Prop := Forall (λ row, row.*1 = behavior_fields) (br_yielded s).
#[local] Notation keeps m := (hoare cols_so_far m (λ _, cols_so_far) cols_so_far).

Lemma k_with_sorter {A} (m : SM A) : keeps (with_sorter m).
Proof. intros s out s' Hs. unfold with_sorter. destruct (m _) as [r w]. intros [= <- <-]. by destruct r. Qed.

Lemma k_with_manager (m : BM (list FeatureRow)) :
  (∀ b rows b', m b = (Ok rows, b') → Forall (λ row, row.*1 = behavior_fields) rows) →
  hoare cols_so_far (with_manager m) (λ rows s, Forall (λ row, row.*1 = behavior_fields) rows ∧ cols_so_far s) cols_so_far.
Proof.
  intros Hm s out s' Hs. unfold with_manager. destruct (m _) as [[rows|e] b] eqn:Hb; intros [= <- <-]; [|done].
  split; [by eapply Hm | done].
Qed.

Lemma sensor_row_fields cfg es rows : Forall2 (sensor_row cfg) es rows → Forall (λ row, row.*1 = behavior_fields) rows.
Proof. apply Forall2_fields. intros a row (gap & Hg). by apply finalize_sensor_fields in Hg as [? _]. Qed.

Lemma k_yield rows : Forall (λ row, row.*1 = behavior_fields) rows → keeps (yield_behavior rows).
Proof. intros Hr. apply h_modify. intros s Hs. by apply Forall_app. Qed.

Lemma k_take_rows cfg rows : keeps (take_rows cfg rows).
Proof.
  induction rows as [|row rows IH]; cbn [take_rows]; [by apply h_ret |].
  eapply h_bind; [by apply h_lift |]. intros ev. apply h_pure. intros _.
  eapply h_bind; [apply k_with_manager |].
  { intros b out b' Ha. pose proof (add_event_live cfg ev b) as Hl. rewrite Ha in Hl.
    destruct Hl as (es & _ & Hr). by eapply sensor_row_fields. }
  intros out. apply h_pure. intros Hout. eapply h_seq; [by apply k_yield | exact IH].
Qed.

Lemma empty_behavior_row_fields sc dev wid g b row : empty_behavior_row sc dev wid g b = Ok row → row.*1 = behavior_fields.
Proof.
  unfold empty_behavior_row. destruct (window_bounds _ _) as [s e]. intros Hr.
  do 2 (apply result_bind_ok in Hr as (? & _ & Hr)). by injection Hr as <-.
Qed.

Lemma k_finally (m : RM unit) : keeps m → keeps (finally_cleanup m).
Proof.
  intros Hm s out s' Hs. unfold finally_cleanup. destruct (m s) as [r s1] eqn:Hr. intros [= <- <-].
  specialize (Hm _ _ _ Hs Hr). assert (Hs1 : cols_so_far s1) by by destruct r.
  pose proof (k_with_sorter cleanup s1 _ _ Hs1 (surjective_pairing _)) as Hc.
  destruct (with_sorter cleanup s1) as [rc sc]. cbn in Hc |- *. by destruct rc, r.
Qed.

Lemma k_generate_behavior cfg events : keeps (generate_behavior cfg events).
Proof.
  unfold generate_behavior. eapply h_seq.
  - apply k_finally. eapply h_seq; [apply k_with_sorter |]. eapply h_bind; [apply k_with_sorter |]. intros sorted.
    eapply h_seq; [apply k_take_rows |]. eapply h_seq; [apply k_with_sorter |].
    eapply h_bind; [apply k_with_manager |].
    { intros b rows b' Ha. pose proof (wm_finish_ok _ _ _ _ _ (behavior_manager cfg) b rows b' Ha) as Hl.
      exact (sensor_row_fields cfg _ _ Hl). }
    intros rows. apply h_pure. intros Hrows. by apply k_yield.
  - intros s out s' Hs. unfold fill_sensors. destruct (tr_max_wid_seen _) as [wid|]; [|by intros [= <- <-]].
    generalize (missing (supported_sensor_names (bc_inventory cfg)) (min_window (bm_tracker (br_manager s)))
      (max_window (bm_tracker (br_manager s))) (br_presence s)). intros pairs. revert s Hs.
    induction pairs as [|[d w] pairs IH]; intros s Hs; cbn [fill_behavior]; [by intros [= <- <-] |].
    unfold mbind, M_bind, lift. destruct (empty_behavior_row _ d w _ _) as [row|e] eqn:He; [|by intros [= <- <-]].
    cbn. apply IH. apply Forall_app. split; [done |]. constructor; [|constructor]. by apply empty_behavior_row_fields in He.
Qed.

Lemma behavior_rows_accepted sc start inv set events r s :
  iter_behavior_rows sc start inv set events = Ok (r, s) → Forall (accepted "behavior") (br_yielded s).
Proof.
  unfold iter_behavior_rows. intros (grid & _ & Hi)%result_bind_ok. apply result_bind_ok in Hi as (manager & _ & Hi).
  apply result_bind_ok in Hi as (sorter & _ & Hi). injection Hi as Hi.
  pose proof (k_generate_behavior _ _ _ _ _ (Forall_nil_2 _ : cols_so_far (mk_behavior_run manager sorter empty_bitmap [])) Hi) as Hk.
  assert (Hc : cols_so_far s) by by destruct r.
  eapply Forall_impl; [exact Hc |]. intros row. apply behavior_accepted.
Qed.
End behavior_yields.

(** The rows of a session by modality, straight from its passes. *)
Definition direct_rows (yielded : list (string * FeatureRow)) (behavior : list FeatureRow) (m : string) : list FeatureRow :=
  if decide (m = "network") then iter_network_rows_direct yielded
  else if decide (m = "communication") then iter_communication_rows yielded
  else behavior.

Lemma direct_rows_length yielded behavior m n :
  (length yielded ≤ n)%nat → (length behavior ≤ n)%nat → (length (direct_rows yielded behavior m) ≤ n)%nat.
Proof.
  assert (Htag : ∀ t, (length (rows_tagged t yielded) ≤ length yielded)%nat).
  { intros t. induction yielded as [|[t' row] l IH]; [done |]. unfold rows_tagged in *. cbn.
    case_bool_decide; cbn; lia. }
  intros Hy Hb. unfold direct_rows. pose proof (Htag "network"). pose proof (Htag "communication").
  repeat case_decide; unfold iter_network_rows_direct, iter_communication_rows; lia.
Qed.

Lemma existsb_Exists {A} (f : A → bool) (P : A → Prop) l :
  (∀ x, f x = true → P x) → existsb f l = true → Exists P l.
Proof.
  intros HP. induction l as [|x l IH]; [done |]. cbn. intros [Hx|Hl]%orb_true_iff; [left; auto | right; auto].
Qed.

Lemma pick_tagged m rows : pick m rows = rows_tagged m rows.
Proof.
  induction rows as [|[t row] rows IH]; [done |]. unfold pick, rows_tagged in *. cbn [omap list_omap fst snd].
  destruct (decide (t = m)) as [->|Hne].
  - rewrite filter_cons_True by done. rewrite bool_decide_true by done. cbn. by rewrite IH.
  - rewrite filter_cons_False by done. by rewrite bool_decide_false.
Qed.

Lemma pick_tag m t (rows : list FeatureRow) : pick m (map (pair t) rows) = if decide (m = t) then rows else [].
Proof.
  induction rows as [|row rows IH]; [by case_decide |]. unfold pick in *. cbn [map].
  destruct (decide (m = t)) as [->|Hne].
  - rewrite filter_cons_True by done. cbn. by rewrite IH.
  - by rewrite filter_cons_False by (cbn; congruence).
Qed.

Lemma pick_direct yielded behavior m :
  Forall fits yielded → m ∈ MODALITIES →
  pick m (yielded ++ map (pair "behavior") behavior) = direct_rows yielded behavior m.
Proof.
  intros Hf Hm. rewrite pick_app, pick_tag.
  repeat (apply elem_of_cons in Hm as [->|Hm]); [| | |by apply not_elem_of_nil in Hm].
  - cbn [decide]. rewrite decide_False by done. by rewrite app_nil_r, pick_tagged.
  - rewrite decide_True by done. change (direct_rows yielded behavior "behavior") with behavior.
    assert (pick "behavior" yielded = []) as ->; [|done]. unfold pick.
    induction Hf as [|x l Hx _ IH]; [done |]. rewrite filter_cons_False; [done |].
    destruct Hx as [[-> _]|[-> _]]; done.
  - rewrite decide_False by done. by rewrite app_nil_r, pick_tagged.
Qed.

(** ** A session from its start *)
Section session_runs.
Context (faults : nat → bool) (uid : string → string) (en : EngineSettings) (sid : string).

(** Whatever fails, forced or not, nothing else is reached. *)
Lemma run_confined pcap telemetry : steps (along (confined sid)) (run_session faults uid en sid pcap telemetry).
Proof.
  assert (Hq : ∀ A (m : FS A), steps (along (quiet (within sid any))) m → steps (along (confined sid)) m).
  { intros A m. apply steps_mono. intros w w'. apply along_mono. intros d d' Hd.
    by apply (quiet_pending sid (within sid any)); [intros k [_ ?] |]. }
  assert (Hlog : ∀ e s, steps (along (confined sid)) (manifest_append faults e s))
    by (intros e s; apply steps_disk_op; [apply _ | by intros d]).
  assert (Hsave : ∀ st, steps (along (confined sid)) (save_atomic faults sid st)).
  { intros st. unfold save_atomic. apply steps_bind; [apply _ | by apply steps_disk_op; [apply _ |] | intros _].
    apply steps_disk_op; [apply _ |]. intros d. split; [|done]. intros s Hs. by apply lookup_insert_ne. }
  unfold run_session. apply steps_bind; [apply _ | apply steps_gets, _ | intros w].
  apply steps_bind; [apply _ | apply steps_lift, _ | intros [action reason]].
  destruct action; [apply steps_ret, _ | |];
    (apply steps_bind; [apply _ | apply Hq, prepare_quiet | intros _]; unfold start_session;
     apply steps_bind; [apply _ | apply Hsave | intros _]; apply steps_bind; [apply _ | apply Hlog | intros _];
     apply steps_on_exit; [apply _ | apply Hq, extract_quiet | |];
     [ intros b; unfold complete_session; apply steps_bind; [apply _ | apply Hsave | intros _];
       apply steps_bind; [apply _ | apply Hlog | intros _]; apply steps_ret, _
     | intros e; apply steps_bind; [apply _ | apply Hsave | intros _]; apply Hlog]).
Qed.

(** Whatever fails, at every moment, a session that counts as completed is. *)
Lemma run_safe pcap telemetry w :
  intact sid (w_disk w) → unused sid uid w →
  (en_force_regenerate en = false ∨ ¬ completed sid (w_disk w)) →
  along (safe sid) w (run_session faults uid en sid pcap telemetry w).2.
Proof.
  intros Hint Hun Hforce. unfold run_session, gets, lift, mbind, M_bind, id. cbv beta iota.
  assert (Hsame : along (safe sid) w w) by (exists []; rewrite app_nil_r; split; [done |]; by repeat constructor).
  destruct (decide_resume (w_disk w) sid en) as [[action reason]|e] eqn:Hr; [|done]. cbn [snd].
  assert (Hgo : action ≠ Skip → ¬ completed sid (w_disk w)).
  { intros Hne. destruct Hforce; [by eapply resume_pending | done]. }
  assert (Hrun : action ≠ Skip → along (safe sid) w
    (match prepare_disk faults sid action reason w with
     | (Ok _, w1) => start_session faults uid en sid (started_state en (dk_states (w_disk w) !! sid)) pcap telemetry w1
     | (Raise e, w1) => (Raise e, w1)
     end).2).
  { intros Hne. specialize (Hgo Hne). pose proof (quiet_steps sid _ (prepare_quiet faults sid action reason) w) as A.
    pose proof (along_last _ _ _ (prepare_no_new faults sid action reason w)) as Hnew.
    destruct (prepare_disk faults sid action reason w) as [[[]|e] w1]; cbn [snd] in A, Hnew |- *;
      [|by apply pending_along_safe].
    pose proof (along_last _ _ _ A) as [Hu Hc].
    apply (along_apart (pending sid) (safe sid) _ _ w1); [exact A | | intros d; by apply pending_safe |].
    - apply start_safe; [done | by eapply unused_dirs | auto].
    - intros d _ [Hu' Hi]. split; [by etrans | done]. }
  destruct action; [exact Hsame | exact (Hrun ltac:(done)) | exact (Hrun ltac:(done))].
Qed.
End session_runs.

(** *** Without faults *)
Section no_faults.
Context (uid : string → string) (en : EngineSettings) (sid : string).
Let size := Z.max 1 (en_output_buffer_rows en).
Let none : nat → bool := λ _, false.
#[local] Notation total P m Q := (hoare P m Q (λ _ : World, False)).

Lemma none_false n : none n = true → False.
Proof. done. Qed.

Lemma total_ignore (m : FS unit) : total (λ _, True) (ignore_errors m) (λ _ _, True).
Proof. by intros w out w' _ [= <- <-]. Qed.

Lemma total_each {A} (f : A → FS unit) l :
  (∀ x, total (λ _, True) (f x) (λ _ _, True)) → total (λ _, True) (each f l) (λ _ _, True).
Proof.
  intros Hf. induction l as [|x l IH]; cbn [each]; [by apply h_ret |]. eapply h_seq; [apply Hf | exact IH].
Qed.

Lemma total_prepare action reason : total (λ _, True) (prepare_disk none sid action reason) (λ _ _, True).
Proof.
  assert (Hlog : ∀ e s, total (λ _, True) (manifest_append none e s) (λ _ _, True))
    by (intros e s; by apply (t_op none False none_false (λ _, True) (λ _, True))).
  assert (Hclean : total (λ _, True) (cleanup_partial_output none sid) (λ _ _, True)).
  { unfold cleanup_partial_output. eapply h_seq; apply total_each; intros m.
    - unfold remove_final. eapply (h_bind _ (λ b w, True ∧ exists_dir (m, sid) w = b)); [by intros w out w' _ [= <- <-] |].
      intros []; [|by apply h_ret].
      eapply h_post; [apply (t_rmtree none False none_false (m, sid) (λ _, True)) |]; done.
    - unfold remove_stale. eapply h_bind; [apply h_gets |]. intros stale. eapply h_pre; [apply total_each | done].
      intros k. unfold rmtree_ignoring. eapply h_bind; [apply h_gets |]. intros dir.
      eapply h_pre; [eapply h_seq; [apply total_each; intros f |]; apply total_ignore | done]. }
  unfold prepare_disk. destruct (_ || _); [|by apply h_ret]. eapply h_seq; [exact Hclean |].
  destruct action; first [apply Hlog | by apply h_ret].
Qed.

(** The state of a session that has just completed. *)
Lemma start_total prior pcap telemetry :
  clean pcap telemetry →
  total (unused sid uid) (start_session none uid en sid (started_state en prior) pcap telemetry)
    (λ st w, ∃ b f, st = completed_state (bt_counts b) (started_state en prior) ∧ extracted pcap telemetry b f ∧
       dk_states (w_disk w) !! sid = Some st ∧
       ∀ m, m ∈ MODALITIES → ∃ dir, dir_at (m, sid) w = Some dir ∧ stored size dir (f m)).
Proof.
  intros Hclean. unfold start_session, save_atomic.
  eapply h_seq; [eapply h_seq; apply (t_op none False none_false _ (unused sid uid)); by intros w past ops Hw m Hm; apply Hw |].
  eapply h_seq; [apply (t_op none False none_false _ (unused sid uid)); by intros w past ops Hw m Hm; apply Hw |].
  eapply t_on_exit.
  { apply (t_extract_into_store none sid uid size); [lia | done | done | by left]. }
  intros b. unfold complete_session, save_atomic. apply h_ex. intros f. apply h_pure. intros Hf.
  set (st := completed_state (bt_counts b) (started_state en prior)).
  set (P := λ w, ∀ m, m ∈ MODALITIES → ∃ dir, dir_at (m, sid) w = Some dir ∧ stored size dir (f m)).
  eapply (h_seq _ (λ w, dk_states (w_disk w) !! sid = Some st ∧ P w)).
  { eapply h_seq; [by apply (t_op none False none_false _ P) |]. apply t_op; [done |]. intros w past ops Hw.
    split; [apply lookup_insert_eq | exact Hw]. }
  eapply h_seq; [by apply (t_op none False none_false _ (λ w, dk_states (w_disk w) !! sid = Some st ∧ P w)) |].
  apply h_ret. intros w [Hs Hw]. by exists b, f.
Qed.

(** A window that is a number close to itself. *)
Definition finite_window : Prop := f_ltb (SFabs (f_sub (en_window_seconds en) (en_window_seconds en))) f_1e_9 = true.

Lemma finite_close s m e : en_window_seconds en = S754_finite s m e → finite_window.
Proof. unfold finite_window, f_sub, SFsub. intros ->. by rewrite Z.sub_diag. Qed.

Lemma skip_completed d counts prior :
  dk_states d !! sid = Some (completed_state counts (started_state en prior)) →
  (∀ m, m ∈ MODALITIES → is_Some (dk_dirs d !! (m, sid))) → finite_window →
  decide_resume d sid en = Ok (Skip, "complete and compatible").
Proof.
  intros Hst Hdirs Hw. unfold decide_resume. rewrite Hst. cbn [completed_state started_state ss_status ss_versions
    ss_clock_alignment_tolerance_ns ss_max_event_lateness_ns default from_option id].
  rewrite !bool_decide_true by done. cbn [negb]. rewrite !Z.eqb_refl.
  assert (forallb (λ m, bool_decide (is_Some (dk_dirs d !! (m, sid)))) MODALITIES = true) as ->.
  { apply forallb_forall. intros m Hm. apply bool_decide_eq_true. by apply Hdirs, list_elem_of_In. }
  unfold window_matches. cbn [completed_state started_state ss_window_seconds default from_option id]. by rewrite Hw.
Qed.

Lemma read_completed d m rows counts prior :
  dk_states d !! sid = Some (completed_state counts (started_state en prior)) →
  m ∈ MODALITIES → iter_parts d sid m = Ok rows → iter_records d sid m = Ok rows.
Proof.
  intros Hst Hm Hrows. unfold iter_records, check_compatible. rewrite bool_decide_true by done. rewrite Hst. cbn.
  rewrite bool_decide_true; [exact Hrows |]. by intros k v Hk.
Qed.

Lemma run_total pcap telemetry w action reason :
  clean pcap telemetry → decide_resume (w_disk w) sid en = Ok (action, reason) → action ≠ Skip → unused sid uid w →
  ∃ st w', run_session none uid en sid pcap telemetry w = (Ok st, w') ∧ ss_status st = "completed" ∧
    (∀ m, m ∈ MODALITIES → ∃ rows ps ts,
       pcap = Ok (Ok tt, ps) ∧ telemetry = Ok (Ok tt, ts) ∧
       iter_records (w_disk w') sid m = Ok rows ∧ ss_record_counts st !! m = Some (Z.of_nat (length rows)) ∧
       let all := pick m (ps ++ map (pair "behavior") ts) in
       length rows = length all ∧ (Z.of_nat (length all) ≤ 100000 * size → rows = all)) ∧
    (finite_window → ∀ faults pcap telemetry, run_session faults uid en sid pcap telemetry w' = (Ok st, w')).
Proof.
  intros Hclean Hr Hne Hun. unfold run_session at 1, gets, lift, mbind, M_bind, id. cbv beta iota. rewrite Hr. cbv beta iota.
  set (prior := dk_states (w_disk w) !! sid).
  pose proof (total_prepare action reason w _ _ I (surjective_pairing _)) as Hprep.
  pose proof (along_last _ _ _ (prepare_no_new none sid action reason w)) as Hnew.
  destruct (prepare_disk none sid action reason w) as [[[]|e] w1] eqn:Hp; cbn in Hprep, Hnew; [|done].
  assert (Hun1 : unused sid uid w1) by by eapply unused_dirs.
  pose proof (start_total prior pcap telemetry Hclean w1 _ _ Hun1 (surjective_pairing _)) as Hs.
  destruct (start_session none uid en sid (started_state en prior) pcap telemetry w1) as [[st|e] w2] eqn:Hst; cbn in Hs; [|done].
  destruct Hs as (b & f & Heq & Hf & Hstate & Hdir). exists st, w2. rewrite Heq in *. split_and!.
  - destruct action; [done | |]; by rewrite Hp.
  - done.
  - intros m Hm. destruct Hf as (ps & ts & Hps & Hts & Hrows). destruct (Hrows m Hm) as [Hfm _].
    destruct (extracted_read en sid pcap telemetry b f w2 (started_state en prior)
      ltac:(by exists ps, ts) Hdir m Hm) as (rows & Hread & Hn & Hl & Hall). exists rows, ps, ts.
    cbv zeta. rewrite <-Hfm. split_and!; try done. by eapply read_completed.
  - intros Hw faults pcap' telemetry'. unfold run_session, gets, lift, mbind, M_bind, id. cbv beta iota.
    rewrite (skip_completed _ _ _ Hstate); [by rewrite Hstate | | done].
    intros m Hm. destruct (Hdir m Hm) as (dir & Hd & _). by exists dir.
Qed.
End no_faults.
