(* ===== verification/DsPcap.v ===== *)
(** * The capture reader

    Models [datasets/datasense/pcap_reader.py]: the sequential readers of classic
    libpcap and PCAPNG captures, which turn the bytes of a file into the records the
    feature pass takes, over bytes as integers.

    A file is its bytes; a read takes from the front what is asked for, or what is
    left.  A generator is the list of the records it yielded and its outcome, so a
    malformed block ends it with the exception after the records before it. *)

From S2P Require Import Prelude PyString DsFrames DsExtraction.

Definition PCAP_MAGIC_LE_US : list Z := [212; 195; 178; 161].
Definition PCAP_MAGIC_BE_US : list Z := [161; 178; 195; 212].
Definition PCAP_MAGIC_LE_NS : list Z := [77; 60; 178; 161].
Definition PCAP_MAGIC_BE_NS : list Z := [161; 178; 60; 77].
Definition PCAPNG_MAGIC : list Z := [10; 13; 13; 10].

Definition BLOCK_SHB : Z := 168627466.
Definition BLOCK_IDB : Z := 1.
Definition BLOCK_EPB : Z := 6.
Definition BLOCK_SPB : Z := 3.
Definition MAX_SANE_RECORD : Z := 268435456.

Definition PcapFormatError : exn_class := OtherError "PcapFormatError".

Record ReaderStats := mk_reader_stats {
  rs_packets_yielded : Z;
  rs_records_without_timestamp : Z;
  rs_truncated_tail : bool;
  rs_sections_seen : Z;
  rs_interfaces_seen : Z;
}.
Definition reader_stats0 : ReaderStats := mk_reader_stats 0 0 false 0 0.

(** A reader and its file: the bytes not yet read, the byte order ([Some true] is big
    endian), the time resolutions of the section's interfaces, and what was yielded. *)
Record Reader := mk_reader {
  rd_rest : list Z;
  rd_stats : ReaderStats;
  rd_endian : option bool;
  rd_iface_resolutions : list (Z * Z);
  rd_yielded : list PcapRecord;
}.
Definition new_reader (bytes : list Z) : Reader := mk_reader bytes reader_stats0 None [] [].

Definition RM (A : Type) : Type := M Reader A.

(** ** Reading *)
Definition with_rest (rest : list Z) (s : Reader) : Reader :=
  mk_reader rest (rd_stats s) (rd_endian s) (rd_iface_resolutions s) (rd_yielded s).

(** [fh.read(n)], and [_read_exact], which reads until it has [n] bytes or there are no
    more. *)
Definition read_exact (n : Z) : RM (list Z) := λ s,
  let k := Z.to_nat (Z.min n (py_len_of (rd_rest s))) in
  (Ok (take k (rd_rest s)), with_rest (drop k (rd_rest s)) s).

(** [_skip] *)
Definition skip (n : Z) : RM bool := λ s,
  let k := Z.to_nat (Z.min n (py_len_of (rd_rest s))) in
  (Ok (n <=? py_len_of (rd_rest s)), with_rest (drop k (rd_rest s)) s).

(** [struct.unpack] of 16- and 32-bit fields. *)
Definition uint (big : bool) (raw : list Z) : Z :=
  foldl (λ acc b, acc * 256 + b) 0 (if big then raw else rev raw).

Fixpoint fields (big : bool) (widths : list nat) (raw : list Z) : list Z :=
  match widths with
  | [] => []
  | w :: widths => uint big (take w raw) :: fields big widths (drop w raw)
  end.
Definition unpack (big : bool) (widths : list nat) (raw : list Z) : result (list Z) :=
  if (length raw =? sum_list widths)%nat then Ok (fields big widths raw)
  else raise struct_error "unpack requires a buffer of another size".

(** ** Diagnostics *)
Definition on_stats (f : ReaderStats → ReaderStats) : RM unit := modify (λ s,
  mk_reader (rd_rest s) (f (rd_stats s)) (rd_endian s) (rd_iface_resolutions s) (rd_yielded s)).
Definition set_truncated : RM unit := on_stats (λ st,
  mk_reader_stats (rs_packets_yielded st) (rs_records_without_timestamp st) true (rs_sections_seen st)
    (rs_interfaces_seen st)).

(** [self.stats.truncated_tail = True; break]: the loop stops. *)
Definition truncated : RM bool := _ ← set_truncated; mret false.

(** [yield self._finish_packet(rec)] *)
Definition finish_packet (rec : PcapRecord) : RM unit :=
  _ ← on_stats (λ st,
    mk_reader_stats (rs_packets_yielded st + 1)
      (rs_records_without_timestamp st + (match pr_ts_ns rec with Some _ => 0 | None => 1 end)) (rs_truncated_tail st)
      (rs_sections_seen st) (rs_interfaces_seen st));
  modify (λ s, mk_reader (rd_rest s) (rd_stats s) (rd_endian s) (rd_iface_resolutions s) (rd_yielded s ++ [rec])).

(** A loop body says whether to go on; every turn that goes on has read something. *)
Fixpoint repeat_read (fuel : nat) (body : RM bool) : RM unit :=
  match fuel with
  | O => throw (OtherError "out of fuel") "loop"
  | S fuel => go_on ← body; if go_on : bool then repeat_read fuel body else mret tt
  end.
Definition read_all (body : RM bool) : RM unit := λ s, repeat_read (S (length (rd_rest s))) body s.

(** ** Classic captures *)
Section classic.
Context (big nanoseconds : bool).

Definition frac_to_ns : Z := if nanoseconds then 1 else 1000.

Definition classic_record : RM bool :=
  hdr ← read_exact 16;
  if (length hdr =? 0)%nat then mret false
  else if (length hdr <? 16)%nat then truncated
  else
    fs ← lift (unpack big [4; 4; 4; 4]%nat hdr);
    match fs with
    | [tsec; tfrac; caplen; wirelen] =>
        if MAX_SANE_RECORD <? caplen
        then throw PcapFormatError ("implausible record caplen " +:+ fmt_int caplen)
        else
          data ← read_exact caplen;
          if py_len_of data <? caplen then truncated
          else
            _ ← finish_packet (mk_pcap_record (Some (tsec * 1000000000 + tfrac * frac_to_ns)) data caplen wirelen);
            mret true
    | _ => throw struct_error "unpack"
    end.

Definition resolution_message (actual_ns : bool) : string :=
  let name (b : bool) := if b then "ns" else "us" in
  "timestamp resolution mismatch: header magic says " +:+ name actual_ns +:+ " but reader configured for "
    +:+ name nanoseconds.

(** [ClassicPcapReader._generate] *)
Definition classic_generate : RM unit :=
  header ← read_exact 24;
  if (length header <? 24)%nat then set_truncated
  else
    _ ← lift (unpack big [2; 2]%nat (py_slice 4 8 header));
    _ ← lift (unpack big [4; 4]%nat (py_slice 16 24 header));
    let magic := take 4 header in
    let actual_ns := bool_decide (magic = PCAP_MAGIC_LE_NS) || bool_decide (magic = PCAP_MAGIC_BE_NS) in
    if negb (eqb nanoseconds actual_ns) then throw PcapFormatError (resolution_message actual_ns)
    else read_all classic_record.
End classic.

(** ** PCAPNG *)

(** [_tsresol_to_scale] *)
Definition tsresol_to_scale (resol : Z) : Z * Z :=
  if negb (Z.land resol 128 =? 0) then (10 ^ 9, Z.shiftl 1 (Z.land resol 127))
  else let exponent := Z.land resol 127 in
       if exponent <=? 9 then (10 ^ (9 - exponent), 1) else (1, 10 ^ (exponent - 9)).

(** [(n + 3) & ~3] *)
Definition padded (n : Z) : Z := Z.land (n + 3) (Z.lnot 3).

(** The four bytes after a block. *)
Definition trailer_missing : RM bool := trailer ← read_exact 4; mret (length trailer <? 4)%nat.

Definition set_section (big : bool) : RM unit := modify (λ s,
  mk_reader (rd_rest s) (rd_stats s) (Some big) (rd_iface_resolutions s) (rd_yielded s)).
Definition set_resolutions (rs : list (Z * Z)) : RM unit := modify (λ s,
  mk_reader (rd_rest s) (rd_stats s) (rd_endian s) rs (rd_yielded s)).

Definition section_header (body_len : Z) : RM bool :=
  raw ← read_exact 4;
  fs ← lift (unpack false [4]%nat raw);
  match fs with
  | [bom] =>
      _ ← (if bom =? 439041101 then set_section false
           else if bom =? 1295788826 then set_section true
           else throw PcapFormatError ("bad byte-order magic " +:+ fmt_int bom));
      _ ← skip (body_len - 4);
      missing ← trailer_missing;
      if missing : bool then truncated
      else
        _ ← on_stats (λ st, mk_reader_stats (rs_packets_yielded st) (rs_records_without_timestamp st)
               (rs_truncated_tail st) (rs_sections_seen st + 1) (rs_interfaces_seen st));
        _ ← set_resolutions [];
        mret true
  | _ => throw struct_error "unpack"
  end.

(** The options of an interface: the time resolution. *)
Fixpoint idb_options (fuel : nat) (big : bool) (body : list Z) (pos resol_byte : Z) : result Z :=
  match fuel with
  | O => out_of_fuel
  | S fuel =>
      if py_len_of body <? pos + 4 then Ok resol_byte
      else
        fs ← unpack big [2; 2]%nat (py_slice pos (pos + 4) body);
        match fs with
        | [code; olen] =>
            if code =? 0 then Ok resol_byte
            else
              resol_byte ← (if (code =? 9) && (1 <=? olen) && (pos + 4 <? py_len_of body)
                            then byte_at body (pos + 4) else Ok resol_byte);
              idb_options fuel big body (pos + (4 + padded olen)) resol_byte
        | _ => raise struct_error "unpack"
        end
  end.

Definition interface_block (big : bool) (body_len : Z) : RM bool :=
  body ← read_exact (Z.min body_len 512);
  there ← skip (body_len - Z.min body_len 512);
  if negb there then truncated
  else
    missing ← trailer_missing;
    if missing : bool then truncated
    else
      _ ← lift (unpack big [2; 2; 4]%nat (py_slice 0 8 body));
      resol_byte ← lift (idb_options (S (length body)) big body 8 6);
      resolutions ← gets rd_iface_resolutions;
      _ ← set_resolutions (resolutions ++ [tsresol_to_scale resol_byte]);
      _ ← on_stats (λ st, mk_reader_stats (rs_packets_yielded st) (rs_records_without_timestamp st)
             (rs_truncated_tail st) (rs_sections_seen st) (rs_interfaces_seen st + 1));
      mret true.

(** The padding of packet data, and the trailer: whether either is missing. *)
Definition packet_tail_missing (n : Z) : RM bool :=
  there ← (if n <? padded n then skip (padded n - n) else mret true);
  if negb there then mret true else trailer_missing.

Definition enhanced_packet (big : bool) : RM bool :=
  body_head ← read_exact 20;
  if (length body_head <? 20)%nat then truncated
  else
    fs ← lift (unpack big [4; 4; 4; 4; 4]%nat body_head);
    match fs with
    | [iface_id; ts_hi; ts_lo; caplen; wirelen] =>
        if MAX_SANE_RECORD <? caplen
        then throw PcapFormatError ("implausible EPB caplen " +:+ fmt_int caplen)
        else
          data ← read_exact caplen;
          missing ← packet_tail_missing caplen;
          if missing : bool then truncated
          else
            resolutions ← gets rd_iface_resolutions;
            let '(mult, div) := default (1000000, 1) (resolutions !! Z.to_nat iface_id) in
            let ticks := Z.lor (Z.shiftl ts_hi 32) ts_lo in
            _ ← finish_packet (mk_pcap_record (Some (ticks * mult / div)) data caplen wirelen);
            mret true
    | _ => throw struct_error "unpack"
    end.

Definition simple_packet (big : bool) : RM bool :=
  body_head ← read_exact 4;
  if (length body_head <? 4)%nat then truncated
  else
    fs ← lift (unpack big [4]%nat body_head);
    match fs with
    | [wirelen] =>
        if MAX_SANE_RECORD <? wirelen
        then throw PcapFormatError ("implausible SPB len " +:+ fmt_int wirelen)
        else
          data ← read_exact wirelen;
          missing ← packet_tail_missing wirelen;
          if missing : bool then truncated
          else _ ← finish_packet (mk_pcap_record None data wirelen wirelen); mret true
    | _ => throw struct_error "unpack"
    end.

Definition other_block (body_len : Z) : RM bool :=
  there ← skip body_len;
  if negb there then truncated
  else
    missing ← trailer_missing;
    if missing : bool then truncated else mret true.

(** The first block of a file must be a section header, read as little endian. *)
Definition probe_section (hdr : list Z) : RM unit :=
  endian ← gets rd_endian;
  match endian with
  | Some _ => mret tt
  | None =>
      fs ← lift (unpack false [4; 4]%nat hdr);
      if bool_decide (head fs = Some BLOCK_SHB) then mret tt
      else throw PcapFormatError "PCAPNG must start with a Section Header Block"
  end.

Definition dispatch_block (btype body_len : Z) : RM bool :=
  big ← gets (default false ∘ rd_endian);
  if btype =? BLOCK_SHB then section_header body_len
  else if btype =? BLOCK_IDB then interface_block big body_len
  else if btype =? BLOCK_EPB then enhanced_packet big
  else if btype =? BLOCK_SPB then simple_packet big
  else other_block body_len.

Definition read_block : RM bool :=
  hdr ← read_exact 8;
  if (length hdr =? 0)%nat then mret false
  else if (length hdr <? 8)%nat then truncated
  else
    _ ← probe_section hdr;
    big ← gets (default false ∘ rd_endian);
    fs ← lift (unpack big [4; 4]%nat hdr);
    match fs with
    | [btype; blen] =>
        if (blen <? 12) || (MAX_SANE_RECORD <? blen)
        then throw PcapFormatError ("implausible block length " +:+ fmt_int blen)
        else dispatch_block btype (blen - 12)
    | _ => throw struct_error "unpack"
    end.

(** [PcapngReader._generate] *)
Definition pcapng_generate : RM unit := read_all read_block.

(** ** Streams *)
Inductive CaptureFormat := Pcapng | ClassicPcap.

(** [detect_pcap_format] *)
Definition detect_pcap_format (bytes : list Z) : result CaptureFormat :=
  let magic := take 4 bytes in
  if bool_decide (magic = PCAPNG_MAGIC) then Ok Pcapng
  else if bool_decide (magic ∈ [PCAP_MAGIC_LE_US; PCAP_MAGIC_BE_US; PCAP_MAGIC_LE_NS; PCAP_MAGIC_BE_NS])
  then Ok ClassicPcap
  else raise PcapFormatError "unrecognized capture format magic".

(** [PcapPacketStream]: the reader for a file. *)
Definition reader_for (bytes : list Z) : result (RM unit) :=
  fmt ← detect_pcap_format bytes;
  let magic := take 4 bytes in
  match fmt with
  | Pcapng => Ok pcapng_generate
  | ClassicPcap =>
      if bool_decide (magic ∈ [PCAP_MAGIC_LE_US; PCAP_MAGIC_LE_NS])
      then Ok (classic_generate false (bool_decide (magic = PCAP_MAGIC_LE_NS)))
      else Ok (classic_generate true (bool_decide (magic = PCAP_MAGIC_BE_NS)))
  end.

(** [iter_packets], iterated to its end. *)
Definition iter_packets (bytes : list Z) : result (result unit * Reader) :=
  generate ← reader_for bytes; Ok (generate (new_reader bytes)).

(** * Facts about the capture reader

    What a reader keeps on any bytes, with its rules; and the captures a writer
    produces, classic ones whole or cut anywhere, and PCAPNG ones: each block is read
    back, padding and trailer included. *)
(** ** What a reader always keeps

    For the bytes of any file, well formed or not. *)
Record kept (s : Reader) : Prop := {
  kp_bytes : Forall is_byte (rd_rest s);
  kp_count : rs_packets_yielded (rd_stats s) = Z.of_nat (length (rd_yielded s));
  kp_untimed : rs_records_without_timestamp (rd_stats s)
    = Z.of_nat (length (filter (λ r, pr_ts_ns r = None) (rd_yielded s)));
  kp_data : Forall (λ r, py_len_of (pr_data r) = pr_caplen r ∧ Forall is_byte (pr_data r)) (rd_yielded s);
}.

Definition reader_error (e : exn) : Prop := exn_type e ∈ [PcapFormatError; struct_error].

(** [m] keeps [kept] and ends in [Q], or raises a reader's error. *)
Definition ends {A} (P : Reader → Prop) (m : RM A) (Q : A → Reader → Prop) : Prop :=
  ∀ s, kept s → P s →
  match m s with
  | (Ok a, s') => kept s' ∧ Q a s'
  | (Raise e, s') => kept s' ∧ reader_error e
  end.

Definition unread (s : Reader) : Z := py_len_of (rd_rest s).

Lemma ends_bind {A B} P R Q (m : RM A) (f : A → RM B) :
  ends P m R → (∀ a, ends (R a) (f a) Q) → ends P (m ≫= f) Q.
Proof.
  intros Hm Hf s Hk Hp. specialize (Hm s Hk Hp). unfold mbind, M_bind.
  destruct (m s) as [[a|e] s']; [|done]. destruct Hm as [Hk' Hr]. by apply Hf.
Qed.
Lemma ends_ret {A} (P : Reader → Prop) (a : A) (Q : A → Reader → Prop) : (∀ s, P s → Q a s) → ends P (mret a) Q.
Proof. intros Hq s Hk Hp. split; [done | by apply Hq]. Qed.
Lemma ends_weaken {A} (P P' : Reader → Prop) (m : RM A) (Q Q' : A → Reader → Prop) :
  ends P m Q → (∀ s, P' s → P s) → (∀ a s, Q a s → Q' a s) → ends P' m Q'.
Proof.
  intros Hm Hp Hq s Hk Hs. specialize (Hm s Hk (Hp s Hs)).
  destruct (m s) as [[a|e] s']; [|done]. destruct Hm. split; [done | by apply Hq].
Qed.
Lemma ends_throw {A} (P : Reader → Prop) c msg (Q : A → Reader → Prop) :
  c ∈ [PcapFormatError; struct_error] → ends P (throw c msg) Q.
Proof. by intros Hc s Hk Hp. Qed.
Lemma ends_gets {A} (f : Reader → A) (P : Reader → Prop) : ends P (gets f) (λ _, P).
Proof. by intros s Hk Hp. Qed.

Lemma fields_length big ws raw : length (fields big ws raw) = length ws.
Proof. revert raw. induction ws as [|w ws IH]; intros raw; cbn; [done | by rewrite IH]. Qed.
Lemma fold_nonneg l acc : Forall is_byte l → 0 ≤ acc → 0 ≤ foldl (λ acc b, acc * 256 + b) acc l.
Proof.
  intros Hl. revert acc. induction Hl as [|b l Hb _ IH]; intros acc Hacc; cbn; [done |].
  apply IH. unfold is_byte in Hb. lia.
Qed.
Lemma uint_nonneg big raw : Forall is_byte raw → 0 ≤ uint big raw.
Proof. intros Hraw. apply fold_nonneg; [|lia]. destruct big; [done | by rewrite rev_alt; apply Forall_reverse]. Qed.
Lemma fields_nonneg big ws raw : Forall is_byte raw → Forall (λ z, 0 ≤ z) (fields big ws raw).
Proof.
  revert raw. induction ws as [|w ws IH]; intros raw Hraw; cbn; [done |].
  constructor; [by apply uint_nonneg, Forall_take | by apply IH, Forall_drop].
Qed.

(** The rules for the operations of a reader. *)
Lemma ends_unpack (P : Reader → Prop) big ws raw :
  Forall is_byte raw →
  ends P (lift (unpack big ws raw)) (λ fs s, length fs = length ws ∧ Forall (λ z, 0 ≤ z) fs ∧ P s).
Proof.
  intros Hraw s Hk Hp. unfold lift, unpack. destruct (_ =? _)%nat.
  - split; [done |]. by rewrite fields_length; split_and!; [|apply fields_nonneg |].
  - split; [done | unfold reader_error; cbn; set_solver].
Qed.

(** A read: what it takes is no longer there; short only at the end of the file. *)
Lemma ends_read k n :
  ends (λ s, unread s ≤ n) (read_exact k)
    (λ a s, Forall is_byte a ∧ unread s ≤ n - py_len_of a ∧ py_len_of a ≤ Z.max 0 k ∧
            (k ≤ py_len_of a ∨ rd_rest s = [])).
Proof.
  intros s Hk Hn. unfold read_exact, unread in *. cbn.
  set (j := Z.to_nat (Z.min k (py_len_of (rd_rest s)))).
  assert (Hj : (j ≤ length (rd_rest s))%nat) by (unfold j, py_len_of; lia).
  destruct Hk as [Hb Hc Hu Hd]. split; [split; [by apply Forall_drop | done..] |].
  unfold py_len_of in *. rewrite length_drop, length_take. split_and!; [by apply Forall_take | lia | lia |].
  destruct (decide (k ≤ Z.of_nat (length (rd_rest s)))); [left; lia |]. right.
  apply length_zero_iff_nil. rewrite length_drop. lia.
Qed.

Lemma ends_skip k n : ends (λ s, unread s ≤ n) (skip k) (λ _ s, unread s ≤ n).
Proof.
  intros s [Hb Hc Hu Hd] Hn. unfold skip, unread, py_len_of in *. cbn. rewrite length_drop.
  split; [split; [by apply Forall_drop | done..] | lia].
Qed.

Lemma ends_stats f (P : Reader → Prop) :
  (∀ st, rs_packets_yielded (f st) = rs_packets_yielded st ∧
         rs_records_without_timestamp (f st) = rs_records_without_timestamp st) →
  (∀ s, P s → P (mk_reader (rd_rest s) (f (rd_stats s)) (rd_endian s) (rd_iface_resolutions s) (rd_yielded s))) →
  ends P (on_stats f) (λ _, P).
Proof.
  intros Hf Hp s [Hb Hc Hu Hd] Hs. destruct (Hf (rd_stats s)) as [H1 H2]. split; [|by apply Hp].
  split; cbn; [done | by rewrite H1 | by rewrite H2 | done].
Qed.

Lemma ends_finish rec n :
  py_len_of (pr_data rec) = pr_caplen rec → Forall is_byte (pr_data rec) →
  ends (λ s, unread s ≤ n) (finish_packet rec) (λ _ s, unread s ≤ n).
Proof.
  intros Hr Hrb s [Hb Hc Hu Hd] Hs. cbn. split; [|done]. split; cbn; [done | rewrite length_app; cbn; lia | |].
  - rewrite Hu, filter_app, length_app, filter_cons.
    destruct (pr_ts_ns rec) eqn:E; case_decide; try congruence; cbn; lia.
  - apply Forall_app. split; [done |]. constructor; [done | constructor].
Qed.

(** The end of a loop: the file is used up, or the tail is reported as cut. *)
Definition finished (s : Reader) : Prop := rd_rest s = [] ∨ rs_truncated_tail (rd_stats s) = true.
Definition turned (n : Z) (go_on : bool) (s : Reader) : Prop := if go_on then unread s ≤ n else finished s.

Lemma ends_truncated (P : Reader → Prop) n : ends P truncated (turned n).
Proof. intros s [Hb Hc Hu Hd] Hs. split; [by split | by right]. Qed.

Lemma ends_pure {A} (φ : Prop) P (m : RM A) Q : (φ → ends P m Q) → ends (λ s, φ ∧ P s) m Q.
Proof. intros Hm s Hk [Hphi Hp]. by apply Hm. Qed.

Section turns.
Context (n : Z).
Implicit Types (Q : bool → Reader → Prop).
#[local] Abbreviation within := (λ s, unread s ≤ n).

Lemma read_then k (f : list Z → RM bool) Q :
  (∀ raw, Forall is_byte raw → py_len_of raw ≤ Z.max 0 k →
     ends (λ s, unread s ≤ n - py_len_of raw ∧ (k ≤ py_len_of raw ∨ rd_rest s = [])) (f raw) Q) →
  ends within (raw ← read_exact k; f raw) Q.
Proof.
  intros Hf. eapply ends_bind; [apply ends_read |]. intros raw.
  apply ends_pure. intros Hraw. eapply ends_weaken; [apply (ends_pure (py_len_of raw ≤ Z.max 0 k)) | |].
  - intros Hlen. by apply Hf.
  - intros s (? & ? & ?). by split_and!.
  - done.
Qed.

Lemma read_within' k (f : list Z → RM bool) Q :
  (∀ raw, Forall is_byte raw → py_len_of raw ≤ Z.max 0 k → ends within (f raw) Q) → ends within (raw ← read_exact k; f raw) Q.
Proof.
  intros Hf. apply read_then. intros raw Hraw Hlen. eapply ends_weaken; [by apply Hf | | done].
  intros s [Hs _]. pose proof (py_len_nonneg raw). lia.
Qed.

(** What is left after a read is within the bound before it. *)
Lemma read_within k (f : list Z → RM bool) Q :
  (∀ raw, Forall is_byte raw → ends within (f raw) Q) → ends within (raw ← read_exact k; f raw) Q.
Proof.
  intros Hf. apply read_within'. intros raw Hraw _. by apply Hf.
Qed.

Lemma unpack_then {A} (P : Reader → Prop) big ws raw (f : list Z → RM A) (Q : A → Reader → Prop) :
  Forall is_byte raw →
  (∀ fs, length fs = length ws → Forall (λ z, 0 ≤ z) fs → ends P (f fs) Q) →
  ends P (fs ← lift (unpack big ws raw); f fs) Q.
Proof.
  intros Hraw Hf. eapply ends_bind; [by apply ends_unpack |]. intros fs.
  apply ends_pure. intros Hlen. apply ends_pure. intros Hpos. by apply Hf.
Qed.

Lemma lift_then {A B} (P : Reader → Prop) (r : result A) (f : A → RM B) (Q : B → Reader → Prop) :
  (∀ e, r = Raise e → reader_error e) → (∀ a, r = Ok a → ends P (f a) Q) → ends P (a ← lift r; f a) Q.
Proof.
  intros He Hf s Hk Hp. unfold mbind, M_bind, lift. destruct r as [a|e]; [by apply Hf | split; [done | by apply He]].
Qed.

Lemma ends_trailer : ends within trailer_missing (λ b s, unread s ≤ n ∧ (b = false → rd_rest s ≠ [] ∨ 4 ≤ n)).
Proof.
  unfold trailer_missing. eapply ends_bind; [apply (ends_read 4 n) |]. intros raw. apply ends_ret.
  intros s (_ & Hs & Hl & _). pose proof (py_len_nonneg raw). pose proof (py_len_nonneg (rd_rest s)).
  unfold unread in *. split; [lia |]. intros Hb. apply Nat.leb_gt in Hb || apply Nat.ltb_ge in Hb.
  right. unfold py_len_of in *. lia.
Qed.

(** After the trailer of a block: go on, or report the cut. *)
Lemma trailer_then (m : RM bool) :
  ends within m (turned n) → ends within (missing ← trailer_missing; if missing : bool then truncated else m) (turned n).
Proof.
  intros Hm. eapply ends_bind; [apply ends_trailer |]. intros [].
  - apply ends_truncated.
  - eapply ends_weaken; [exact Hm | by intros s [] | done].
Qed.

Lemma skip_then k (f : bool → RM bool) Q : (∀ b, ends within (f b) Q) → ends within (b ← skip k; f b) Q.
Proof. intros Hf. eapply ends_bind; [apply ends_skip | done]. Qed.

Lemma modify_then (f : Reader → Reader) (m : RM bool) Q :
  (∀ s, rd_rest (f s) = rd_rest s ∧ rd_stats (f s) = rd_stats s ∧ rd_yielded (f s) = rd_yielded s) →
  ends within m Q → ends within (_ ← modify f; m) Q.
Proof.
  intros Hf Hm. eapply (ends_bind _ (λ _, within)); [|done]. intros s [Hb Hc Hu Hd] Hs.
  destruct (Hf s) as (H1 & H2 & H3). cbn. unfold unread in *. rewrite H1.
  split; [|done]. by split; rewrite ?H1, ?H2, ?H3.
Qed.

Lemma stats_then (f : ReaderStats → ReaderStats) (m : RM bool) Q :
  (∀ st, rs_packets_yielded (f st) = rs_packets_yielded st ∧
         rs_records_without_timestamp (f st) = rs_records_without_timestamp st) →
  ends within m Q → ends within (_ ← on_stats f; m) Q.
Proof. intros Hf Hm. eapply (ends_bind _ (λ _, within)); [by apply ends_stats | done]. Qed.

Lemma go_on_within : ends within (mret true) (turned n).
Proof. by apply ends_ret. Qed.

Lemma ends_other k : ends within (other_block k) (turned n).
Proof.
  apply skip_then. intros []; [|apply ends_truncated]. apply trailer_then, go_on_within.
Qed.

Lemma ends_section k : ends within (section_header k) (turned n).
Proof.
  apply read_within. intros raw Hraw. apply unpack_then; [done |]. intros fs Hfs _.
  destruct fs as [|bom [|]]; [done | | done].
  assert (Hrest : ends within (_ ← skip (k - 4); missing ← trailer_missing;
    if missing : bool then truncated else
      _ ← on_stats (λ st, mk_reader_stats (rs_packets_yielded st) (rs_records_without_timestamp st)
            (rs_truncated_tail st) (rs_sections_seen st + 1) (rs_interfaces_seen st));
      _ ← set_resolutions []; mret true) (turned n)).
  { apply skip_then. intros _. apply trailer_then, stats_then; [done |]. apply modify_then; [done | apply go_on_within]. }
  destruct (bom =? 439041101); [by apply modify_then |]. destruct (bom =? 1295788826); [by apply modify_then |].
  eapply (ends_bind _ (λ _ _, False)); [apply ends_throw; set_solver |]. by intros ? s _ [].
Qed.

Lemma padded_eq k : 0 ≤ k → padded k = (k + 3) / 4 * 4.
Proof.
  intros Hk. unfold padded. rewrite <-Z.ldiff_land. change 3 with (Z.ones 2) at 2.
  rewrite Z.ldiff_ones_r, Z.shiftl_mul_pow2, Z.shiftr_div_pow2 by lia. done.
Qed.
Lemma padded_bounds k : 0 ≤ k → k ≤ padded k < k + 4.
Proof. intros Hk. rewrite padded_eq by done. pose proof (Z.div_mod (k + 3) 4). pose proof (Z.mod_pos_bound (k + 3) 4). lia. Qed.

Lemma unpack_error big ws raw e : unpack big ws raw = Raise e → reader_error e.
Proof. unfold unpack. destruct (_ =? _)%nat; [done |]. intros [= <-]. unfold reader_error. cbn. set_solver. Qed.

Lemma bind_raise {A B} (m : result A) (f : A → result B) e :
  (m ≫= f) = Raise e → m = Raise e ∨ ∃ a, m = Ok a ∧ f a = Raise e.
Proof. destruct m as [a|e']; cbn; intros H; [right; by exists a | left; congruence]. Qed.

(** The options of an interface: the loop ends, because every option has a header. *)
Lemma idb_options_error fuel big body pos resol e :
  Forall is_byte body → 0 ≤ pos → Z.max 0 (py_len_of body - pos) < Z.of_nat fuel →
  idb_options fuel big body pos resol = Raise e → reader_error e.
Proof.
  intros Hb. revert pos resol. induction fuel as [|fuel IH]; intros pos resol Hpos Hfuel; cbn [idb_options].
  - lia.
  - destruct (Z.ltb_spec (py_len_of body) (pos + 4)) as [_|Hpos4]; [done |]. intros [H|(fs & Hfs & H)]%bind_raise; [by eapply unpack_error |].
    destruct fs as [|code [|olen [|]]]; try (injection H as <-; unfold reader_error; cbn; set_solver).
    destruct (code =? 0); [done |]. apply bind_raise in H as [H|(resol' & _ & H)].
    + destruct (_ && _) eqn:Hc; [|done]. apply andb_prop in Hc as [_ Hc].
      destruct (byte_at_returns body Hb (pos + 4)) as (b & Hb' & _); [lia |]. congruence.
    + unfold unpack in Hfs. destruct (_ =? _)%nat; [|done]. cbn in Hfs. injection Hfs as _ <-.
      assert (Holen : 0 ≤ uint big (take 2 (drop 2 (py_slice pos (pos + 4) body)))).
      { by apply uint_nonneg, Forall_take, Forall_drop, slice_bytes. }
      pose proof (padded_bounds _ Holen). eapply IH; [| | exact H]; lia.
Qed.

Lemma ends_interface big k : ends within (interface_block big k) (turned n).
Proof.
  apply read_within. intros body Hbody. apply skip_then. intros []; [|apply ends_truncated].
  apply trailer_then, unpack_then; [by apply slice_bytes |]. intros _ _ _. apply lift_then.
  { intros e. apply idb_options_error; [done | lia |]. pose proof (py_len_nonneg body). unfold py_len_of in *. lia. }
  intros resol _. eapply ends_bind; [apply ends_gets |]. intros resolutions.
  apply modify_then; [done |]. apply stats_then; [done | apply go_on_within].
Qed.
End turns.

(** The data of a packet, its padding and the trailer: complete, or the tail is cut. *)
Section tail.
Context (n k : Z) (data : list Z).
#[local] Abbreviation data_read := (λ s, unread s ≤ n ∧ (k ≤ py_len_of data ∨ rd_rest s = [])).

Lemma skip_tail j : ends data_read (skip j) (λ _, data_read).
Proof.
  intros s Hk [Hs Hd]. destruct (ends_skip j n s Hk Hs) as [Hk' Hs']. split; [done |]. split; [done |].
  destruct Hd as [?|Hd]; [by left | right]. cbn. by rewrite Hd, drop_nil.
Qed.

Lemma trailer_tail : ends data_read trailer_missing (λ missing s, unread s ≤ n ∧ (missing = false → k ≤ py_len_of data)).
Proof.
  intros s Hk [Hs Hd]. pose proof (ends_trailer n s Hk Hs) as Ht. unfold trailer_missing, mbind, M_bind, read_exact in *.
  cbn -[Nat.ltb] in *. destruct Ht as [Hk' [Hs' _]]. split; [done |]. split; [done |].
  destruct Hd as [?|Hd]; [done |]. rewrite Hd. by destruct (Z.to_nat _).
Qed.

Lemma ends_tail :
  ends data_read (packet_tail_missing k) (λ missing s, unread s ≤ n ∧ (missing = false → k ≤ py_len_of data)).
Proof.
  unfold packet_tail_missing. apply (ends_bind _ (λ _, data_read)).
  - destruct (k <? padded k); [apply skip_tail | by apply ends_ret].
  - intros []; [apply trailer_tail | by apply ends_ret; intros s []].
Qed.

(** A packet of a block is handed on with all its data, or not at all. *)
Lemma packet_then (m : RM bool) :
  (k ≤ py_len_of data → ends (λ s, unread s ≤ n) m (turned n)) →
  ends data_read (missing ← packet_tail_missing k; if missing : bool then truncated else m) (turned n).
Proof.
  intros Hm. eapply ends_bind; [apply ends_tail |]. intros [].
  - apply ends_truncated.
  - intros s Hk [Hs Hd]. apply Hm; [by apply Hd | done | done].
Qed.
End tail.

Lemma finish_then n rec :
  py_len_of (pr_data rec) = pr_caplen rec → Forall is_byte (pr_data rec) →
  ends (λ s, unread s ≤ n) (_ ← finish_packet rec; mret true) (turned n).
Proof. intros Hr Hrb. eapply ends_bind; [by apply ends_finish | intros ?; apply go_on_within]. Qed.

Lemma ends_shrink {A} n n' (m : RM A) (Q : A → Reader → Prop) (R : Reader → Prop) :
  n' ≤ n → ends (λ s, unread s ≤ n ∧ R s) m Q → ends (λ s, unread s ≤ n' ∧ R s) m Q.
Proof. intros Hn Hm. eapply ends_weaken; [exact Hm | | done]. intros s [Hs Hr]. split; [lia | done]. Qed.

Lemma ends_enhanced n big : ends (λ s, unread s ≤ n) (enhanced_packet big) (turned n).
Proof.
  apply read_within. intros head Hhead. destruct (length head <? 20)%nat; [apply ends_truncated |].
  apply unpack_then; [done |]. intros fs _ Hpos.
  destruct fs as [|iface [|hi [|lo [|caplen [|wirelen [|]]]]]]; try (apply ends_throw; set_solver).
  destruct (MAX_SANE_RECORD <? caplen); [apply ends_throw; set_solver |].
  assert (0 ≤ caplen) by (rewrite !Forall_cons in Hpos; tauto).
  apply read_then. intros data Hdata Hlen. pose proof (py_len_nonneg data). apply (ends_shrink n); [lia |].
  apply packet_then. intros Hfull. eapply ends_bind; [apply ends_gets |]. intros resolutions.
  destruct (default _ _) as [mult div]. apply finish_then; [cbn; lia | done].
Qed.

Lemma ends_simple n big : ends (λ s, unread s ≤ n) (simple_packet big) (turned n).
Proof.
  apply read_within. intros head Hhead. destruct (length head <? 4)%nat; [apply ends_truncated |].
  apply unpack_then; [done |]. intros fs _ Hpos. destruct fs as [|wirelen [|]]; try (apply ends_throw; set_solver).
  destruct (MAX_SANE_RECORD <? wirelen); [apply ends_throw; set_solver |].
  assert (0 ≤ wirelen) by (rewrite !Forall_cons in Hpos; tauto).
  apply read_then. intros data Hdata Hlen. pose proof (py_len_nonneg data). apply (ends_shrink n); [lia |].
  apply packet_then. intros Hfull. apply finish_then; [cbn; lia | done].
Qed.

Lemma ends_dispatch n btype body_len : ends (λ s, unread s ≤ n) (dispatch_block btype body_len) (turned n).
Proof.
  eapply ends_bind; [apply ends_gets |]. intros big.
  destruct (btype =? BLOCK_SHB); [apply ends_section |]. destruct (btype =? BLOCK_IDB); [apply ends_interface |].
  destruct (btype =? BLOCK_EPB); [apply ends_enhanced |]. destruct (btype =? BLOCK_SPB); [apply ends_simple |].
  apply ends_other.
Qed.

Lemma ends_probe n hdr : Forall is_byte hdr → ends (λ s, unread s ≤ n) (probe_section hdr) (λ _ s, unread s ≤ n).
Proof.
  intros Hhdr. eapply ends_bind; [apply ends_gets |]. intros [big|]; [by apply ends_ret |].
  apply unpack_then; [done |]. intros fs _ _. destruct (bool_decide _); [by apply ends_ret | apply ends_throw; set_solver].
Qed.

(** A turn of a loop that goes on has taken bytes from the file. *)
Definition turns (body : RM bool) : Prop := ∀ n, ends (λ s, unread s ≤ n) body (turned (n - 1)).

Lemma read_header n k (f : list Z → RM bool) :
  0 < k → (∀ hdr, Forall is_byte hdr → hdr ≠ [] → ends (λ s, unread s ≤ n - 1) (f hdr) (turned (n - 1))) →
  ends (λ s, unread s ≤ n) (hdr ← read_exact k; if (length hdr =? 0)%nat then mret false else f hdr) (turned (n - 1)).
Proof.
  intros Hk Hf. apply read_then. intros hdr Hhdr _. destruct hdr as [|b hdr]; cbn [length Nat.eqb].
  - apply ends_ret. intros s [_ [Hlen|Hnil]]; [unfold py_len_of in Hlen; cbn in Hlen; lia | by left].
  - eapply ends_weaken; [by apply Hf | | done]. intros s [Hs _]. rewrite py_len_cons in Hs.
    pose proof (py_len_nonneg hdr). lia.
Qed.

Lemma read_block_turns : turns read_block.
Proof.
  intros n. apply read_header; [done |]. intros hdr Hhdr _. destruct (length hdr <? 8)%nat; [apply ends_truncated |].
  eapply ends_bind; [by apply ends_probe |]. intros ?. eapply ends_bind; [apply ends_gets |]. intros big.
  apply unpack_then; [done |]. intros fs _ _. destruct fs as [|btype [|blen [|]]]; try (apply ends_throw; set_solver).
  destruct (_ || _); [apply ends_throw; set_solver | apply ends_dispatch].
Qed.

Lemma classic_record_turns big ns : turns (classic_record big ns).
Proof.
  intros n. apply read_header; [done |]. intros hdr Hhdr _. destruct (length hdr <? 16)%nat; [apply ends_truncated |].
  apply unpack_then; [done |]. intros fs _ Hpos.
  destruct fs as [|tsec [|tfrac [|caplen [|wirelen [|]]]]]; try (apply ends_throw; set_solver).
  destruct (MAX_SANE_RECORD <? caplen); [apply ends_throw; set_solver |].
  assert (0 ≤ caplen) by (rewrite !Forall_cons in Hpos; tauto).
  apply read_within'. intros data Hdata Hlen. destruct (Z.ltb_spec (py_len_of data) caplen); [apply ends_truncated |].
  apply finish_then; [cbn; lia | done].
Qed.

Lemma read_all_ends body n :
  turns body → ends (λ s, unread s ≤ n) (read_all body) (λ _, finished).
Proof.
  intros Hbody. assert (Hloop : ∀ fuel s, kept s → unread s < Z.of_nat fuel →
    match repeat_read fuel body s with
    | (Ok a, s') => kept s' ∧ finished s'
    | (Raise e, s') => kept s' ∧ reader_error e
    end).
  { induction fuel as [|fuel IH]; intros s Hk Hs; [pose proof (py_len_nonneg (rd_rest s)); unfold unread in Hs; lia |].
    cbn. pose proof (Hbody (unread s) s Hk (Z.le_refl _)) as Ht. unfold mbind, M_bind.
    destruct (body s) as [[[]|e] s1]; [| done | done]. destruct Ht as [Hk1 Hs1]. cbn in Hs1. apply IH; [done | lia]. }
  intros s Hk _. apply Hloop; [done |]. unfold unread, py_len_of. lia.
Qed.

Lemma classic_ends n big ns : ends (λ s, unread s ≤ n) (classic_generate big ns) (λ _, finished).
Proof.
  eapply ends_bind; [apply (ends_read 24 n) |]. intros header. apply ends_pure. intros Hh.
  destruct (length header <? 24)%nat.
  { intros s [Hb Hc Hu Hd] Hs. split; [by split | by right]. }
  apply (ends_weaken (λ s, unread s ≤ n - py_len_of header) _ _ (λ _, finished)); [|by intros s [] | done].
  apply unpack_then; [by apply slice_bytes |]. intros _ _ _. apply unpack_then; [by apply slice_bytes |]. intros _ _ _.
  cbn zeta. destruct (negb _); [apply ends_throw; set_solver |].
  apply (read_all_ends _ _ (classic_record_turns big ns)).
Qed.

Lemma reader_for_cases bytes :
  (∃ msg, reader_for bytes = raise PcapFormatError msg) ∨
  reader_for bytes = Ok pcapng_generate ∨ ∃ big ns, reader_for bytes = Ok (classic_generate big ns).
Proof.
  unfold reader_for, detect_pcap_format. destruct (bool_decide (take 4 bytes = PCAPNG_MAGIC)); [by right; left |].
  destruct (bool_decide (take 4 bytes ∈ [PCAP_MAGIC_LE_US; PCAP_MAGIC_BE_US; PCAP_MAGIC_LE_NS; PCAP_MAGIC_BE_NS]));
    [|by left; eexists]. right; right. cbn [mbind result_bind].
  destruct (bool_decide (take 4 bytes ∈ [PCAP_MAGIC_LE_US; PCAP_MAGIC_LE_NS])); by do 2 eexists.
Qed.

(** A reader over any bytes. *)
Lemma iter_packets_ends bytes :
  Forall is_byte bytes →
  match iter_packets bytes with
  | Ok (Ok _, r) => kept r ∧ finished r
  | Ok (Raise e, r) => kept r ∧ reader_error e
  | Raise e => exn_type e = PcapFormatError
  end.
Proof.
  intros Hb. assert (Hk : kept (new_reader bytes)) by (split; cbn; [done | done | done | constructor]).
  assert (Hrun : ∀ m : RM unit, ends (λ s, unread s ≤ py_len_of bytes) m (λ _, finished) →
    match m (new_reader bytes) with
    | (Ok _, r) => kept r ∧ finished r
    | (Raise e, r) => kept r ∧ reader_error e
    end) by (intros m Hm; apply (Hm _ Hk); apply Z.le_refl).
  unfold iter_packets. destruct (reader_for_cases bytes) as [(msg & ->)|[->|(big & ns & ->)]]; cbn [mbind result_bind].
  - done.
  - specialize (Hrun pcapng_generate (read_all_ends _ _ read_block_turns)). by destruct (pcapng_generate _) as [[]].
  - specialize (Hrun _ (classic_ends _ big ns)). by destruct (classic_generate _ _ _) as [[]].
Qed.

(** ** Files that were written *)

(** An unsigned field of [w] bytes. *)
Fixpoint le_bytes (w : nat) (z : Z) : list Z :=
  match w with O => [] | S w => z mod 256 :: le_bytes w (z / 256) end.
Definition enc_uint (big : bool) (w : nat) (z : Z) : list Z :=
  if big then rev (le_bytes w z) else le_bytes w z.
Definition enc_fields (big : bool) (fs : list (nat * Z)) : list Z := fs ≫= λ f, enc_uint big f.1 f.2.
Definition fits (f : nat * Z) : Prop := 0 ≤ f.2 < 256 ^ Z.of_nat f.1.

Lemma le_bytes_length w z : length (le_bytes w z) = w.
Proof. revert z. induction w as [|w IH]; intros z; cbn; [done | by rewrite IH]. Qed.
Lemma enc_uint_length big w z : length (enc_uint big w z) = w.
Proof. unfold enc_uint. destruct big; rewrite ?length_rev; apply le_bytes_length. Qed.

Lemma fold_bytes w z : 0 ≤ z < 256 ^ Z.of_nat w → foldl (λ acc b, acc * 256 + b) 0 (rev (le_bytes w z)) = z.
Proof.
  revert z. induction w as [|w IH]; intros z Hz; cbn [le_bytes rev].
  - cbn in *. lia.
  - rewrite foldl_app. cbn. rewrite IH.
    + pose proof (Z.div_mod z 256). lia.
    + rewrite Nat2Z.inj_succ, Z.pow_succ_r in Hz by lia. split; [apply Z.div_pos; lia | apply Z.div_lt_upper_bound; lia].
Qed.
Lemma uint_enc big w z : fits (w, z) → uint big (enc_uint big w z) = z.
Proof. intros Hz. unfold uint, enc_uint. destruct big; by apply fold_bytes. Qed.

Lemma enc_fields_length big fs : length (enc_fields big fs) = sum_list fs.*1.
Proof. unfold enc_fields. induction fs as [|[w z] fs IH]; cbn; [done |]. by rewrite length_app, enc_uint_length, IH. Qed.

Lemma unpack_enc big fs : Forall fits fs → unpack big fs.*1 (enc_fields big fs) = Ok fs.*2.
Proof.
  intros Hfs. unfold unpack. rewrite enc_fields_length, Nat.eqb_refl. f_equal.
  induction Hfs as [|[w z] fs Hz _ IH]; [done |]. unfold enc_fields in *. cbn [fmap list_fmap mbind list_bind fst snd fields].
  rewrite take_app_length', drop_app_length' by (by rewrite enc_uint_length). by rewrite uint_enc, IH.
Qed.

Lemma bind_run {A B} (m : RM A) (f : A → RM B) s a s' : m s = (Ok a, s') → (m ≫= f) s = f a s'.
Proof. intros H. unfold mbind, M_bind. by rewrite H. Qed.

Lemma unpack_run {A} big fs (f : list Z → RM A) s :
  Forall fits fs → (x ← lift (unpack big fs.*1 (enc_fields big fs)); f x) s = f fs.*2 s.
Proof. intros Hfs. apply bind_run. unfold lift. by rewrite unpack_enc. Qed.

Lemma read_run {A} k a b st e ifs ys (f : list Z → RM A) :
  k = py_len_of a →
  (raw ← read_exact k; f raw) (mk_reader (a ++ b) st e ifs ys) = f a (mk_reader b st e ifs ys).
Proof.
  intros ->. apply bind_run. unfold read_exact, with_rest. cbn. rewrite py_len_app.
  pose proof (py_len_nonneg b). rewrite Z.min_l by lia. unfold py_len_of at 1 2. rewrite Nat2Z.id.
  by rewrite take_app_length, drop_app_length.
Qed.

(** At the end of the file a read takes what there is. *)
Lemma read_short {A} k a st e ifs ys (f : list Z → RM A) :
  py_len_of a ≤ k → (raw ← read_exact k; f raw) (mk_reader a st e ifs ys) = f a (mk_reader [] st e ifs ys).
Proof.
  intros Hk. apply bind_run. unfold read_exact, with_rest. cbn. rewrite Z.min_r by lia.
  unfold py_len_of. by rewrite Nat2Z.id, firstn_all, skipn_all.
Qed.

Lemma skip_run {A} k a b st e ifs ys (f : bool → RM A) :
  k = py_len_of a → (x ← skip k; f x) (mk_reader (a ++ b) st e ifs ys) = f true (mk_reader b st e ifs ys).
Proof.
  intros ->. apply bind_run. unfold skip, with_rest. cbn. rewrite py_len_app. pose proof (py_len_nonneg b).
  rewrite Z.min_l by lia. replace (Z.to_nat (py_len_of a)) with (length a) by (unfold py_len_of; lia).
  rewrite drop_app_length. by destruct (Z.leb_spec (py_len_of a) (py_len_of a + py_len_of b)); [|lia].
Qed.

Lemma finish_run {A} rec rest st e ifs ys (m : RM A) :
  (_ ← finish_packet rec; m) (mk_reader rest st e ifs ys) =
  m (mk_reader rest
       (mk_reader_stats (rs_packets_yielded st + 1)
          (rs_records_without_timestamp st + (match pr_ts_ns rec with Some _ => 0 | None => 1 end)) (rs_truncated_tail st)
          (rs_sections_seen st) (rs_interfaces_seen st)) e ifs (ys ++ [rec])).
Proof. done. Qed.

(** ** Classic captures, whole or cut *)
Record ClassicPacket := mk_classic {
  cl_tsec : Z;
  cl_tfrac : Z;
  cl_wirelen : Z;
  cl_data : list Z;
}.
Definition classic_fields (p : ClassicPacket) : list (nat * Z) :=
  [(4%nat, cl_tsec p); (4%nat, cl_tfrac p); (4%nat, py_len_of (cl_data p)); (4%nat, cl_wirelen p)].
Definition enc_classic (big : bool) (p : ClassicPacket) : list Z := enc_fields big (classic_fields p) ++ cl_data p.
Definition classic_ok (p : ClassicPacket) : Prop :=
  Forall fits (classic_fields p) ∧ py_len_of (cl_data p) ≤ MAX_SANE_RECORD.
Definition classic_magic (big nanoseconds : bool) : list Z :=
  match big, nanoseconds with
  | false, false => PCAP_MAGIC_LE_US
  | true, false => PCAP_MAGIC_BE_US
  | false, true => PCAP_MAGIC_LE_NS
  | true, true => PCAP_MAGIC_BE_NS
  end.

(** The record of a packet: its time in nanoseconds since the epoch. *)
Definition classic_of (nanoseconds : bool) (p : ClassicPacket) : PcapRecord :=
  mk_pcap_record (Some (cl_tsec p * 10 ^ 9 + cl_tfrac p * (if nanoseconds then 1 else 10 ^ 3)))
    (cl_data p) (py_len_of (cl_data p)) (cl_wirelen p).

(** Statistics after [n] more packets with a time stamp, and a tail that is cut or not. *)
Definition counted (n : nat) (cut : bool) (st : ReaderStats) : ReaderStats :=
  mk_reader_stats (rs_packets_yielded st + Z.of_nat n) (rs_records_without_timestamp st)
    (rs_truncated_tail st || cut) (rs_sections_seen st) (rs_interfaces_seen st).

Section classic_roundtrip.
Context (big ns : bool).

Lemma classic_header_length p : length (enc_fields big (classic_fields p)) = 16%nat.
Proof. apply enc_fields_length. Qed.
Lemma enc_classic_length p : length (enc_classic big p) = (16 + length (cl_data p))%nat.
Proof. unfold enc_classic. by rewrite length_app, classic_header_length. Qed.

Lemma classic_record_run p more st e ifs ys :
  classic_ok p →
  classic_record big ns (mk_reader (enc_classic big p ++ more) st e ifs ys)
    = (Ok true, mk_reader more (counted 1 false st) e ifs (ys ++ [classic_of ns p])).
Proof.
  intros [Hfits Hmax]. unfold classic_record, enc_classic. rewrite <-app_assoc.
  rewrite read_run by (unfold py_len_of; by rewrite classic_header_length).
  rewrite classic_header_length. cbn [Nat.eqb Nat.ltb Nat.leb].
  change [4%nat; 4%nat; 4%nat; 4%nat] with (classic_fields p).*1. rewrite unpack_run by done. cbn [classic_fields fmap list_fmap snd].
  rewrite (proj2 (Z.ltb_ge MAX_SANE_RECORD (py_len_of (cl_data p)))) by done. rewrite read_run by done.
  rewrite Z.ltb_irrefl.
  rewrite finish_run. unfold counted, classic_of, frac_to_ns. cbn -[Z.add Z.mul]. by rewrite orb_false_r, Z.add_0_r.
Qed.

Lemma classic_record_cut p n st e ifs ys :
  classic_ok p → (n < length (enc_classic big p))%nat →
  let cut := take n (enc_classic big p) in
  classic_record big ns (mk_reader cut st e ifs ys)
    = (Ok false, mk_reader [] (counted 0 (negb (bool_decide (cut = []))) st) e ifs ys).
Proof.
  intros [Hfits Hmax] Hn cut. rewrite enc_classic_length in Hn. unfold classic_record, counted. rewrite Z.add_0_r.
  destruct (decide (n < 16)%nat) as [Hshort|Hlong].
  - assert (Hlen : length cut = n) by (unfold cut; rewrite length_take, enc_classic_length; lia).
    rewrite read_short by (unfold py_len_of; lia). destruct cut as [|b cut]; cbn [length] in *.
    + cbn. by rewrite orb_false_r; destruct st.
    + rewrite (proj2 (Nat.eqb_neq _ _)) by done. rewrite (proj2 (Nat.ltb_lt _ _)) by lia. cbn. by rewrite orb_true_r.
  - assert (Hcut : cut = enc_fields big (classic_fields p) ++ take (n - 16) (cl_data p)).
    { unfold cut, enc_classic. rewrite take_app, classic_header_length, take_ge by (rewrite classic_header_length; lia). done. }
    assert (Hne : cut ≠ []).
    { intros Hnil. apply (f_equal length) in Hnil. rewrite Hcut, length_app, classic_header_length in Hnil. cbn in Hnil. lia. }
    rewrite (bool_decide_false (cut = [])) by done.
    rewrite Hcut, read_run by (unfold py_len_of; by rewrite classic_header_length).
    rewrite classic_header_length. cbn [Nat.eqb Nat.ltb Nat.leb].
    change [4%nat; 4%nat; 4%nat; 4%nat] with (classic_fields p).*1. rewrite unpack_run by done.
    cbn [classic_fields fmap list_fmap snd].
    rewrite (proj2 (Z.ltb_ge MAX_SANE_RECORD (py_len_of (cl_data p)))) by done.
    assert (Hdata : py_len_of (take (n - 16) (cl_data p)) < py_len_of (cl_data p)).
    { unfold py_len_of. rewrite length_take. lia. }
    rewrite read_short by lia. rewrite (proj2 (Z.ltb_lt _ _)) by done. cbn. by rewrite orb_true_r.
Qed.

Lemma classic_loop fuel ps p n st e ifs ys :
  Forall classic_ok ps → classic_ok p → (n < length (enc_classic big p))%nat →
  let cut := take n (enc_classic big p) in
  (length (concat (map (enc_classic big) ps) ++ cut) < fuel)%nat →
  repeat_read fuel (classic_record big ns) (mk_reader (concat (map (enc_classic big) ps) ++ cut) st e ifs ys)
    = (Ok tt, mk_reader [] (counted (length ps) (negb (bool_decide (cut = []))) st) e ifs (ys ++ map (classic_of ns) ps)).
Proof.
  intros Hps Hp Hn cut. revert fuel st ys. induction Hps as [|q ps Hq Hps IH]; intros fuel st ys Hfuel.
  - destruct fuel as [|fuel]; [lia |]. cbn [repeat_read map concat app length].
    rewrite (bind_run _ _ _ _ _ (classic_record_cut p n st e ifs ys Hp Hn)). by rewrite app_nil_r.
  - destruct fuel as [|fuel]; [lia |]. cbn [repeat_read map concat]. rewrite <-app_assoc.
    rewrite (bind_run _ _ _ _ _ (classic_record_run q _ st e ifs ys Hq)). rewrite IH.
    + unfold counted. cbn -[Z.of_nat Z.add]. rewrite orb_false_r, <-app_assoc. cbn -[Z.of_nat Z.add].
      by replace (rs_packets_yielded st + Z.of_nat 1 + Z.of_nat (length ps))
        with (rs_packets_yielded st + Z.of_nat (S (length ps))) by lia.
    + cbn [map concat] in Hfuel. rewrite <-app_assoc, length_app, enc_classic_length in Hfuel. lia.
Qed.

Lemma classic_file body ps p n :
  length body = 20%nat → Forall classic_ok ps → classic_ok p → (n < length (enc_classic big p))%nat →
  let cut := take n (enc_classic big p) in
  iter_packets (classic_magic big ns ++ body ++ concat (map (enc_classic big) ps) ++ cut)
    = Ok (Ok tt, mk_reader [] (mk_reader_stats (Z.of_nat (length ps)) 0 (negb (bool_decide (cut = []))) 0 0) None []
        (map (classic_of ns) ps)).
Proof.
  intros Hbody Hps Hp Hn cut. unfold iter_packets.
  set (file := classic_magic big ns ++ body ++ concat (map (enc_classic big) ps) ++ cut).
  assert (Hreader : reader_for file = Ok (classic_generate big ns)) by (destruct big, ns; reflexivity).
  rewrite Hreader. cbn [mbind result_bind]. f_equal. unfold classic_generate, new_reader, file. rewrite app_assoc.
  assert (Hlen : length (classic_magic big ns ++ body) = 24%nat) by (rewrite length_app, Hbody; by destruct big, ns).
  rewrite read_run by (unfold py_len_of; by rewrite Hlen). rewrite Hlen. cbn [Nat.ltb Nat.leb].
  assert (Hunpack : ∀ ws a b, (a + Z.of_nat (sum_list ws) = b) → 0 ≤ a → b ≤ 24 →
    ∃ fs, unpack big ws (py_slice a b (classic_magic big ns ++ body)) = Ok fs).
  { intros ws a b Hab Ha Hb. unfold unpack. eexists. rewrite (proj2 (Nat.eqb_eq _ _)); [done |].
    apply Nat2Z.inj. rewrite py_slice_length by lia. lia. }
  destruct (Hunpack [2; 2]%nat 4 8) as [fs1 ->]; [done..|]. destruct (Hunpack [4; 4]%nat 16 24) as [fs2 ->]; [done..|].
  assert (Hmagic : take 4 (classic_magic big ns ++ body) = classic_magic big ns) by by destruct big, ns.
  rewrite Hmagic. rewrite !(bind_run _ _ _ _ _ (eq_refl : lift (Ok _) _ = _)). cbv zeta.
  assert (Hns : bool_decide (classic_magic big ns = PCAP_MAGIC_LE_NS) || bool_decide (classic_magic big ns = PCAP_MAGIC_BE_NS) = ns)
    by by destruct big, ns.
  rewrite Hns, eqb_reflx. cbn [negb]. unfold read_all. cbn [rd_rest].
  rewrite (classic_loop _ ps p n _ _ _ _ Hps Hp Hn) by apply Nat.lt_succ_diag_r. done.
Qed.
End classic_roundtrip.

(** ** PCAPNG captures *)

(** Blocks of little-endian sections; a time is a count of ticks. *)
Inductive Block :=
  | SectionHeader (options : list Z)
  | Interface (linktype reserved snaplen : Z) (tsresol : option Z)
  | EnhancedPacket (iface : nat) (ticks wirelen : Z) (data : list Z)
  | SimplePacket (data : list Z)
  | OtherBlock (btype : Z) (body : list Z).

Definition padding (data : list Z) : list Z := replicate (Z.to_nat (padded (py_len_of data) - py_len_of data)) 0.

Definition block_type (b : Block) : Z :=
  match b with
  | SectionHeader _ => BLOCK_SHB
  | Interface _ _ _ _ => BLOCK_IDB
  | EnhancedPacket _ _ _ _ => BLOCK_EPB
  | SimplePacket _ => BLOCK_SPB
  | OtherBlock btype _ => btype
  end.
Definition interface_fields (linktype reserved snaplen : Z) : list (nat * Z) :=
  [(2%nat, linktype); (2%nat, reserved); (4%nat, snaplen)].
Definition packet_fields (iface : nat) (ticks wirelen : Z) (data : list Z) : list (nat * Z) :=
  [(4%nat, Z.of_nat iface); (4%nat, ticks / 2 ^ 32); (4%nat, ticks mod 2 ^ 32); (4%nat, py_len_of data); (4%nat, wirelen)].
Definition block_body (b : Block) : list Z :=
  match b with
  | SectionHeader options => enc_uint false 4 439041101 ++ options
  | Interface linktype reserved snaplen tsresol =>
      enc_fields false (interface_fields linktype reserved snaplen) ++
      match tsresol with
      | Some resol => [9; 0; 1; 0; resol; 0; 0; 0; 0; 0; 0; 0]
      | None => []
      end
  | EnhancedPacket iface ticks wirelen data =>
      enc_fields false (packet_fields iface ticks wirelen data) ++ data ++ padding data
  | SimplePacket data => enc_uint false 4 (py_len_of data) ++ data ++ padding data
  | OtherBlock _ body => body
  end.
Definition block_length (b : Block) : Z := 12 + py_len_of (block_body b).
Definition enc_block (b : Block) : list Z :=
  enc_fields false [(4%nat, block_type b); (4%nat, block_length b)] ++ block_body b ++ enc_uint false 4 (block_length b).

(** Ticks of an interface to nanoseconds, after the format: a resolution byte is a
    negative power of ten, or of two when its high bit is set. *)
Definition ticks_ns (resol ticks : Z) : Z :=
  ticks * 10 ^ 9 / (if resol <? 128 then 10 ^ resol else 2 ^ (resol - 128)).

(** The resolutions of the interfaces of a section, and the packets of its blocks.  The
    format's default resolution is microseconds. *)
Definition next_resolutions (resols : list Z) (b : Block) : list Z :=
  match b with
  | SectionHeader _ => []
  | Interface _ _ _ tsresol => resols ++ [default 6 tsresol]
  | _ => resols
  end.
Definition block_packets (resols : list Z) (b : Block) : list PcapRecord :=
  match b with
  | EnhancedPacket iface ticks wirelen data =>
      [mk_pcap_record (Some (ticks_ns (nth iface resols 6) ticks)) data (py_len_of data) wirelen]
  | SimplePacket data => [mk_pcap_record None data (py_len_of data) (py_len_of data)]
  | _ => []
  end.
Fixpoint capture_packets (resols : list Z) (bs : list Block) : list PcapRecord :=
  match bs with
  | [] => []
  | b :: bs => block_packets resols b ++ capture_packets (next_resolutions resols b) bs
  end.

Definition block_ok (resols : list Z) (b : Block) : Prop :=
  block_length b ≤ MAX_SANE_RECORD ∧
  match b with
  | SectionHeader _ => True
  | Interface linktype reserved snaplen tsresol =>
      Forall fits (interface_fields linktype reserved snaplen) ∧
      match tsresol with Some resol => 0 ≤ resol < 256 | None => True end
  | EnhancedPacket iface ticks wirelen data =>
      (iface < length resols)%nat ∧ 0 ≤ ticks < 2 ^ 64 ∧ Forall fits (packet_fields iface ticks wirelen data)
  | SimplePacket data => True
  | OtherBlock btype _ => fits (4%nat, btype) ∧ btype ∉ [BLOCK_SHB; BLOCK_IDB; BLOCK_EPB; BLOCK_SPB]
  end.
Fixpoint capture_ok (resols : list Z) (bs : list Block) : Prop :=
  match bs with
  | [] => True
  | b :: bs => block_ok resols b ∧ capture_ok (next_resolutions resols b) bs
  end.

(** *** Arithmetic of the format *)
Lemma scale_ticks resol ticks :
  0 ≤ resol < 256 → let '(mult, div) := tsresol_to_scale resol in ticks * mult / div = ticks_ns resol ticks.
Proof.
  intros Hr. unfold tsresol_to_scale, ticks_ns.
  assert (Hbit : Z.land resol 128 = if resol <? 128 then 0 else 128).
  { assert (Hall : forallb (λ r, Z.land r 128 =? (if r <? 128 then 0 else 128)) (seqZ 0 256) = true) by reflexivity.
    rewrite forallb_forall in Hall. apply Z.eqb_eq, Hall, list_elem_of_In, elem_of_seqZ. lia. }
  assert (Hlow : Z.land resol 127 = if resol <? 128 then resol else resol - 128).
  { assert (Hall : forallb (λ r, Z.land r 127 =? (if r <? 128 then r else r - 128)) (seqZ 0 256) = true) by reflexivity.
    rewrite forallb_forall in Hall. apply Z.eqb_eq, Hall, list_elem_of_In, elem_of_seqZ. lia. }
  rewrite Hbit, Hlow. destruct (Z.ltb_spec resol 128); cbn [Z.eqb negb].
  - destruct (Z.leb_spec resol 9).
    + rewrite Z.div_1_r. replace (10 ^ 9) with (10 ^ (9 - resol) * 10 ^ resol) by (rewrite <-Z.pow_add_r by lia; f_equal; lia).
      rewrite Z.mul_assoc, Z.div_mul; [done |]. pose proof (Z.pow_pos_nonneg 10 resol). lia.
    + replace (10 ^ resol) with (10 ^ (resol - 9) * 10 ^ 9) by (rewrite <-Z.pow_add_r by lia; f_equal; lia).
      rewrite Z.mul_1_r, Z.div_mul_cancel_r; [done | pose proof (Z.pow_pos_nonneg 10 (resol - 9)); lia | done].
  - rewrite Z.shiftl_1_l. done.
Qed.

Lemma join_ticks ticks : 0 ≤ ticks → Z.lor (Z.shiftl (ticks / 2 ^ 32) 32) (ticks mod 2 ^ 32) = ticks.
Proof.
  intros Ht. rewrite <-Z.shiftr_div_pow2, <-Z.land_ones by lia.
  apply Z.bits_inj'. intros i Hi. rewrite Z.lor_spec, Z.land_spec, Z.testbit_ones_nonneg by lia.
  destruct (Z.ltb_spec i 32).
  - rewrite Z.shiftl_spec_low by lia. by rewrite andb_true_r.
  - rewrite Z.shiftl_spec, Z.shiftr_spec by lia. rewrite andb_false_r, orb_false_r. f_equal. lia.
Qed.

Lemma padding_length data : py_len_of (padding data) = padded (py_len_of data) - py_len_of data.
Proof.
  unfold padding. pose proof (padded_bounds (py_len_of data) (py_len_nonneg data)).
  unfold py_len_of at 1. rewrite length_replicate. lia.
Qed.

(** *** Reading a block *)
Section block.
Context (st : ReaderStats) (ifs : list (Z * Z)) (ys : list PcapRecord).

Lemma enc4_length z : py_len_of (enc_uint false 4 z) = 4.
Proof. unfold py_len_of. by rewrite enc_uint_length. Qed.

Lemma trailer_there z more e :
  trailer_missing (mk_reader (enc_uint false 4 z ++ more) st e ifs ys) = (Ok false, mk_reader more st e ifs ys).
Proof.
  unfold trailer_missing. rewrite read_run by (by rewrite enc4_length). by rewrite enc_uint_length.
Qed.
Lemma trailer_run z more e {A} (f : bool → RM A) :
  (missing ← trailer_missing; f missing) (mk_reader (enc_uint false 4 z ++ more) st e ifs ys)
    = f false (mk_reader more st e ifs ys).
Proof. apply bind_run, trailer_there. Qed.

Lemma tail_run data z more e {A} (f : bool → RM A) :
  (missing ← packet_tail_missing (py_len_of data); f missing)
      (mk_reader (padding data ++ enc_uint false 4 z ++ more) st e ifs ys)
    = f false (mk_reader more st e ifs ys).
Proof.
  apply bind_run. unfold packet_tail_missing. pose proof (padding_length data) as Hp.
  destruct (Z.ltb_spec (py_len_of data) (padded (py_len_of data))).
  - rewrite skip_run by lia. apply trailer_there.
  - assert (padding data = []) as ->.
    { pose proof (py_len_nonneg (padding data)). assert (Hz : py_len_of (padding data) = 0) by lia.
      apply length_zero_iff_nil. unfold py_len_of in Hz. lia. }
    rewrite (bind_run (mret true) _ _ true _ eq_refl). apply trailer_there.
Qed.

Lemma resolutions_run f e rest (m : RM bool) :
  (_ ← set_resolutions f; m) (mk_reader rest st e ifs ys) = m (mk_reader rest st e f ys).
Proof. done. Qed.

Lemma section_run options z more e :
  section_header (4 + py_len_of options) (mk_reader ((enc_uint false 4 439041101 ++ options) ++ enc_uint false 4 z ++ more) st e ifs ys)
    = (Ok true, mk_reader more (mk_reader_stats (rs_packets_yielded st) (rs_records_without_timestamp st)
         (rs_truncated_tail st) (rs_sections_seen st + 1) (rs_interfaces_seen st)) (Some false) [] ys).
Proof.
  unfold section_header. rewrite <-app_assoc, read_run by (by rewrite enc4_length).
  pose proof (unpack_run (A := bool) false [(4%nat, 439041101)]) as Hu. cbn [fmap list_fmap fst snd] in Hu.
  unfold enc_fields in Hu. cbn [mbind list_bind fst snd] in Hu. rewrite app_nil_r in Hu.
  rewrite Hu by (repeat constructor; cbn; lia). cbv beta iota.
  rewrite Z.eqb_refl.
  match goal with |- (?m ≫= ?f) _ = _ => rewrite (bind_run m f _ tt (mk_reader (options ++ enc_uint false 4 z ++ more) st (Some false) ifs ys)) by done end.
  rewrite skip_run by lia. rewrite trailer_run. done.
Qed.

Lemma options_none linktype reserved snaplen :
  idb_options 9 false (enc_fields false (interface_fields linktype reserved snaplen) ++ []) 8 6 = Ok 6.
Proof. reflexivity. Qed.
Lemma options_some linktype reserved snaplen resol :
  idb_options 21 false (enc_fields false (interface_fields linktype reserved snaplen)
    ++ [9; 0; 1; 0; resol; 0; 0; 0; 0; 0; 0; 0]) 8 6 = Ok resol.
Proof. reflexivity. Qed.

Lemma interface_run linktype reserved snaplen tsresol z more :
  Forall fits (interface_fields linktype reserved snaplen) →
  interface_block false (py_len_of (block_body (Interface linktype reserved snaplen tsresol)))
      (mk_reader (block_body (Interface linktype reserved snaplen tsresol) ++ enc_uint false 4 z ++ more) st (Some false) ifs ys)
    = (Ok true, mk_reader more (mk_reader_stats (rs_packets_yielded st) (rs_records_without_timestamp st)
         (rs_truncated_tail st) (rs_sections_seen st) (rs_interfaces_seen st + 1)) (Some false)
         (ifs ++ [tsresol_to_scale (default 6 tsresol)]) ys).
Proof.
  intros Hfits. set (body := block_body _).
  assert (Hlen : py_len_of body = match tsresol with Some _ => 20 | None => 8 end) by (unfold body; by destruct tsresol).
  unfold interface_block. rewrite Z.min_l by (rewrite Hlen; by destruct tsresol). rewrite read_run by done.
  rewrite Z.sub_diag. pose proof (skip_run (A := bool) 0 []) as Hskip. cbn [app] in Hskip. rewrite Hskip by done.
  cbn [negb]. rewrite trailer_run.
  assert (Hhead : py_slice 0 8 body = enc_fields false (interface_fields linktype reserved snaplen))
    by (unfold body; by destruct tsresol).
  rewrite Hhead. change [2%nat; 2%nat; 4%nat] with (interface_fields linktype reserved snaplen).*1.
  rewrite unpack_run by done.
  assert (Hopts : idb_options (S (length body)) false body 8 6 = Ok (default 6 tsresol)).
  { unfold body. destruct tsresol; [apply options_some | apply options_none]. }
  rewrite Hopts. done.
Qed.

Lemma enhanced_run iface ticks wirelen data z more resols :
  ifs = map tsresol_to_scale resols → Forall (λ r, 0 ≤ r < 256) resols →
  (iface < length resols)%nat → 0 ≤ ticks < 2 ^ 64 → Forall fits (packet_fields iface ticks wirelen data) →
  py_len_of data ≤ MAX_SANE_RECORD →
  enhanced_packet false (mk_reader (block_body (EnhancedPacket iface ticks wirelen data) ++ enc_uint false 4 z ++ more)
      st (Some false) ifs ys)
    = (Ok true, mk_reader more (counted 1 false st) (Some false) ifs
        (ys ++ [mk_pcap_record (Some (ticks_ns (nth iface resols 6) ticks)) data (py_len_of data) wirelen])).
Proof.
  intros Hifs Hres Hiface Hticks Hfits Hmax. unfold enhanced_packet. cbn [block_body]. rewrite <-!app_assoc.
  rewrite read_run by (unfold py_len_of; by rewrite enc_fields_length). rewrite enc_fields_length.
  change (sum_list (packet_fields iface ticks wirelen data).*1) with 20%nat. cbn [Nat.ltb Nat.leb].
  change [4%nat; 4%nat; 4%nat; 4%nat; 4%nat] with (packet_fields iface ticks wirelen data).*1. rewrite unpack_run by done.
  cbn [packet_fields fmap list_fmap snd]. rewrite (proj2 (Z.ltb_ge MAX_SANE_RECORD (py_len_of data))) by done.
  rewrite read_run by done. rewrite tail_run.
  destruct (lookup_lt_is_Some_2 resols iface) as [resol Hr]; [done |].
  assert (Hscale : ifs !! iface = Some (tsresol_to_scale resol)) by (rewrite Hifs; by rewrite list_lookup_fmap, Hr).
  assert (Hnth : nth iface resols 6 = resol) by (by apply nth_lookup_Some with (d := 6) in Hr).
  match goal with |- (?m ≫= ?f) _ = _ => rewrite (bind_run m f _ ifs (mk_reader more st (Some false) ifs ys)) by done end.
  rewrite Nat2Z.id, Hscale. cbn [default]. pose proof (scale_ticks resol ticks) as Hns.
  destruct (tsresol_to_scale resol) as [mult div]. cbn [id].
  rewrite (join_ticks ticks) by lia. cbn zeta beta iota.
  rewrite finish_run, Hnth, <-Hns by exact (Forall_lookup_1 _ _ _ _ Hres Hr). unfold counted. cbn -[Z.add]. by rewrite orb_false_r, Z.add_0_r.
Qed.

Lemma simple_run data z more :
  fits (4%nat, py_len_of data) → py_len_of data ≤ MAX_SANE_RECORD →
  simple_packet false (mk_reader (block_body (SimplePacket data) ++ enc_uint false 4 z ++ more) st (Some false) ifs ys)
    = (Ok true, mk_reader more (mk_reader_stats (rs_packets_yielded st + 1) (rs_records_without_timestamp st + 1)
         (rs_truncated_tail st) (rs_sections_seen st) (rs_interfaces_seen st)) (Some false) ifs
        (ys ++ [mk_pcap_record None data (py_len_of data) (py_len_of data)])).
Proof.
  intros Hfits Hmax. unfold simple_packet. cbn [block_body]. rewrite <-!app_assoc, read_run by (by rewrite enc4_length).
  rewrite enc_uint_length. cbn [Nat.ltb Nat.leb].
  pose proof (unpack_run (A := bool) false [(4%nat, py_len_of data)]) as Hu. cbn [fmap list_fmap fst snd] in Hu.
  unfold enc_fields in Hu. cbn [mbind list_bind fst snd] in Hu. rewrite app_nil_r in Hu.
  rewrite Hu by (constructor; [exact Hfits | constructor]). cbv beta iota.
  rewrite (proj2 (Z.ltb_ge MAX_SANE_RECORD (py_len_of data))) by done.
  rewrite read_run by done. rewrite tail_run. by rewrite finish_run.
Qed.

Lemma other_run body z more e :
  other_block (py_len_of body) (mk_reader (body ++ enc_uint false 4 z ++ more) st e ifs ys)
    = (Ok true, mk_reader more st e ifs ys).
Proof. unfold other_block. rewrite skip_run by done. cbn [negb]. by rewrite trailer_run. Qed.
End block.

(** *** Reading a file *)
Definition block_stats (b : Block) (st : ReaderStats) : ReaderStats :=
  mk_reader_stats (rs_packets_yielded st + Z.of_nat (length (block_packets [] b)))
    (rs_records_without_timestamp st + (match b with SimplePacket _ => 1 | _ => 0 end)) (rs_truncated_tail st)
    (rs_sections_seen st + (match b with SectionHeader _ => 1 | _ => 0 end))
    (rs_interfaces_seen st + (match b with Interface _ _ _ _ => 1 | _ => 0 end)).

(** The reader between blocks: in a section with its interfaces, or at the start. *)
Definition between (e : option bool) (b : Block) : Prop :=
  e = Some false ∨ e = None ∧ ∃ options, b = SectionHeader options.

Lemma max_fits z : 0 ≤ z ≤ MAX_SANE_RECORD → fits (4%nat, z).
Proof. unfold fits, MAX_SANE_RECORD. cbn. lia. Qed.

Lemma block_data_bound resols b :
  block_ok resols b →
  match b with EnhancedPacket _ _ _ data | SimplePacket data => py_len_of data ≤ MAX_SANE_RECORD | _ => True end.
Proof.
  intros [Hlen _]. unfold block_length in Hlen. destruct b; try done; cbn [block_body] in Hlen;
    rewrite !py_len_app in Hlen; pose proof (py_len_nonneg (padding data)).
  - pose proof (py_len_nonneg (enc_fields false (packet_fields iface ticks wirelen data))). lia.
  - pose proof (py_len_nonneg (enc_uint false 4 (py_len_of data))). lia.
Qed.

Lemma dispatch_run resols b z more st ys e :
  block_ok resols b → Forall (λ r, 0 ≤ r < 256) resols → between e b →
  dispatch_block (block_type b) (py_len_of (block_body b))
      (mk_reader (block_body b ++ enc_uint false 4 z ++ more) st e (map tsresol_to_scale resols) ys)
    = (Ok true, mk_reader more (block_stats b st) (Some false) (map tsresol_to_scale (next_resolutions resols b))
        (ys ++ block_packets resols b)).
Proof.
  intros Hok Hres He. pose proof (block_data_bound _ _ Hok) as Hdata. destruct Hok as [Hlen Hok].
  unfold dispatch_block, block_stats.
  assert (Hgets : ∀ (f : bool → RM bool) s, rd_endian s = e → (big ← gets (default false ∘ rd_endian); f big) s = f false s).
  { intros f s Hs. apply bind_run. unfold gets. cbn. rewrite Hs. by destruct He as [->|[-> _]]. }
  rewrite Hgets by done. destruct b as [options|linktype reserved snaplen tsresol|iface ticks wirelen data|data|btype body];
    cbn [block_type next_resolutions block_packets length].
  - rewrite Z.eqb_refl. cbn [block_body]. rewrite py_len_app, enc4_length, section_run. cbn.
    by rewrite !Z.add_0_r, app_nil_r.
  - destruct He as [->|[_ [? [=]]]]. rewrite (proj2 (Z.eqb_neq _ _)) by done. rewrite Z.eqb_refl.
    rewrite interface_run by apply Hok. cbn. by rewrite !Z.add_0_r, app_nil_r, map_app.
  - destruct He as [->|[_ [? [=]]]]. do 2 rewrite (proj2 (Z.eqb_neq _ _)) by done. rewrite Z.eqb_refl.
    destruct Hok as (Hi & Ht & Hf). rewrite (enhanced_run _ _ _ _ _ _ _ _ _ resols) by done.
    unfold counted. cbn. by rewrite !Z.add_0_r, orb_false_r.
  - destruct He as [->|[_ [? [=]]]]. do 3 rewrite (proj2 (Z.eqb_neq _ _)) by done. rewrite Z.eqb_refl.
    rewrite simple_run by (try done; apply max_fits; pose proof (py_len_nonneg data); lia).
    cbn. by rewrite !Z.add_0_r.
  - destruct He as [->|[_ [? [=]]]]. destruct Hok as [_ Hne].
    rewrite !(proj2 (Z.eqb_neq _ _)) by set_solver. rewrite other_run. cbn. rewrite !Z.add_0_r, app_nil_r. by destruct st.
Qed.

Lemma block_header_length b : length (enc_fields false [(4%nat, block_type b); (4%nat, block_length b)]) = 8%nat.
Proof. apply enc_fields_length. Qed.

Lemma type_fits resols b : block_ok resols b → fits (4%nat, block_type b).
Proof. intros [_ Hok]. destruct b; try apply Hok; unfold fits, block_type, BLOCK_SHB, BLOCK_IDB, BLOCK_EPB, BLOCK_SPB; cbn; lia. Qed.

Lemma read_block_run resols b more st ys e :
  block_ok resols b → Forall (λ r, 0 ≤ r < 256) resols → between e b →
  read_block (mk_reader (enc_block b ++ more) st e (map tsresol_to_scale resols) ys)
    = (Ok true, mk_reader more (block_stats b st) (Some false) (map tsresol_to_scale (next_resolutions resols b))
        (ys ++ block_packets resols b)).
Proof.
  intros Hok Hres He. unfold read_block, enc_block. rewrite <-!app_assoc.
  rewrite read_run by (unfold py_len_of; by rewrite block_header_length). rewrite block_header_length.
  cbn [Nat.eqb Nat.ltb Nat.leb].
  set (fs := [(4%nat, block_type b); (4%nat, block_length b)]).
  assert (Hbound : 12 ≤ block_length b ≤ MAX_SANE_RECORD).
  { unfold block_length. pose proof (py_len_nonneg (block_body b)). destruct Hok as [Hok _]. unfold block_length in Hok. lia. }
  assert (Hfits : Forall fits fs).
  { apply Forall_cons; split; [by eapply type_fits |]. apply Forall_cons; split; [apply max_fits; lia | constructor]. }
  assert (Hunpack : unpack false [4; 4]%nat (enc_fields false fs) = Ok [block_type b; block_length b])
    by apply (unpack_enc false fs Hfits).
  set (s := mk_reader (block_body b ++ enc_uint false 4 (block_length b) ++ more) st e (map tsresol_to_scale resols) ys).
  assert (Hprobe : probe_section (enc_fields false fs) s = (Ok tt, s)).
  { unfold probe_section, mbind, M_bind, gets, lift. cbn [rd_endian s].
    destruct He as [->|[-> [options ->]]]; [done |]. rewrite Hunpack. done. }
  rewrite (bind_run _ _ _ _ _ Hprobe).
  assert (Hgets : gets (default false ∘ rd_endian) s = (Ok false, s)).
  { unfold gets. cbn. by destruct He as [->|[-> _]]. }
  rewrite (bind_run _ _ _ _ _ Hgets), Hunpack. rewrite (bind_run (lift (Ok _)) _ s _ s eq_refl).
  rewrite (proj2 (Z.ltb_ge (block_length b) 12)), (proj2 (Z.ltb_ge MAX_SANE_RECORD (block_length b))) by lia. cbn [orb].
  replace (block_length b - 12) with (py_len_of (block_body b)) by (unfold block_length; lia).
  by apply dispatch_run.
Qed.

Definition capture_stats (bs : list Block) (st : ReaderStats) : ReaderStats := foldl (λ st b, block_stats b st) st bs.

Lemma enc_block_length b : (8 ≤ length (enc_block b))%nat.
Proof. unfold enc_block. rewrite length_app, block_header_length. lia. Qed.

Lemma next_bytes resols b :
  block_ok resols b → Forall (λ r, 0 ≤ r < 256) resols → Forall (λ r, 0 ≤ r < 256) (next_resolutions resols b).
Proof.
  intros [_ Hok] Hres. destruct b; cbn [next_resolutions]; try done. apply Forall_app. split; [done |].
  constructor; [|constructor]. destruct Hok as [_ Hok]. destruct tsresol; cbn; lia.
Qed.

Lemma blocks_loop fuel bs : ∀ resols st ys e,
  capture_ok resols bs → Forall (λ r, 0 ≤ r < 256) resols →
  match bs with b :: _ => between e b | [] => True end →
  (length (concat (map enc_block bs)) < fuel)%nat →
  ∃ e' ifs', repeat_read fuel read_block (mk_reader (concat (map enc_block bs)) st e (map tsresol_to_scale resols) ys)
    = (Ok tt, mk_reader [] (capture_stats bs st) e' ifs' (ys ++ capture_packets resols bs)).
Proof.
  revert fuel. induction bs as [|b bs IH]; intros fuel resols st ys e Hok Hres He Hfuel; destruct fuel as [|fuel]; try lia.
  - cbn [map concat repeat_read]. unfold read_block. eexists e, _. rewrite app_nil_r. cbn. reflexivity.
  - destruct Hok as [Hb Hok]. cbn [map concat repeat_read capture_stats foldl] in *.
    rewrite (bind_run _ _ _ _ _ (read_block_run resols b _ st ys e Hb Hres He)).
    pose proof (enc_block_length b). rewrite length_app in Hfuel.
    edestruct (IH fuel (next_resolutions resols b) (block_stats b st) (ys ++ block_packets resols b) (Some false))
      as (e' & ifs' & Hr); [done | by eapply next_bytes | destruct bs; [done | by left] | lia |].
    exists e', ifs'. rewrite Hr. cbn [capture_packets]. by rewrite app_assoc.
Qed.

Lemma pcapng_file options bs :
  capture_ok [] (SectionHeader options :: bs) →
  ∃ e ifs, iter_packets (concat (map enc_block (SectionHeader options :: bs)))
    = Ok (Ok tt, mk_reader [] (capture_stats (SectionHeader options :: bs) reader_stats0) e ifs (capture_packets [] bs)).
Proof.
  intros Hok. set (file := concat _).
  assert (Hreader : reader_for file = Ok pcapng_generate) by reflexivity.
  destruct (blocks_loop (S (length file)) (SectionHeader options :: bs) [] reader_stats0 [] None Hok)
    as (e & ifs & Hr); [constructor | right; by eauto | apply Nat.lt_succ_diag_r |].
  exists e, ifs. unfold iter_packets. rewrite Hreader. cbn [mbind result_bind]. f_equal. exact Hr.
Qed.

(** What the statistics of a capture say. *)
Lemma stats_untruncated bs st : rs_truncated_tail (foldl (λ st b, block_stats b st) st bs) = rs_truncated_tail st.
Proof. revert st. induction bs as [|b bs IH]; intros st; cbn; [done |]. by rewrite IH. Qed.
Lemma block_packets_length resols resols' b : length (block_packets resols b) = length (block_packets resols' b).
Proof. by destruct b. Qed.
Lemma stats_packets bs resols st :
  rs_packets_yielded (capture_stats bs st) = rs_packets_yielded st + Z.of_nat (length (capture_packets resols bs)).
Proof.
  unfold capture_stats. revert resols st. induction bs as [|b bs IH]; intros resols st; cbn [foldl capture_packets]; [cbn; lia |].
  rewrite (IH (next_resolutions resols b)), length_app. cbn [rs_packets_yielded block_stats].
  rewrite (block_packets_length [] resols). lia.
Qed.
