(* ===== verification/DsProperties.v ===== *)
(** * The datasets pipeline: properties

    What the external sort promises to its readers, what the frame decoder makes of
    any bytes, what the streams of a session say of its capture and of its telemetry,
    and what the feature store keeps of them. *)

From Stdlib Require Import SpecFloat.
From S2P Require Import Prelude PyString Json BbWitness DsWindowSort DsWindowing DsFrames DsWindowSortFacts.
From S2P Require Import SimDevices DsNetwork DsBehavior DsExtraction DsStore DsStoreFacts DsStoreRuns DsPcap.

(** C27: the external sort is the stable sort.  A sorter made with any positive
    chunk size and any fan-in accepts every row, and its buffer stays below the
    chunk size; consuming the iterator returns exactly the stable sort of the rows
    by window, whatever number of chunks and of merging passes it took.  No more
    chunk readers than the fan-in were ever open together and none stays open; no
    temporary file is left; rows and inversions were counted exactly; and a second
    iteration is refused. *)
Theorem external_sort_stable chunk_rows fan_in s0 rows :
  new_sorter chunk_rows fan_in = Ok s0 →
  ∃ s1 s2,
    add_all rows s0 = (Ok tt, s1) ∧ Z.of_nat (length (ws_buffer s1)) < chunk_rows ∧
    iter_sorted s1 = (Ok (isort window_leb rows), s2) ∧
    Z.of_nat (ws_max_open_readers s2) ≤ Z.max 2 fan_in ∧ ws_open_readers s2 = 0%nat ∧
    ws_files s2 = ∅ ∧ ws_rows_seen s2 = Z.of_nat (length rows) ∧ ws_inversions s2 = inversions rows ∧
    (iter_sorted s2).1 = raise RuntimeError "WindowSorter already consumed".
Proof.
  intros Hnew. destruct (new_sorter_fed _ _ _ Hnew) as (Hfed & Hb & Hc & Hf).
  destruct (add_all_fed rows [] s0 Hfed) as (s1 & Hrun & Hfed1 & Hb1 & Hc1 & Hf1).
  { rewrite Hb. cbn. unfold new_sorter in Hnew.
    apply result_bind_ok in Hnew as (u & H1%check_ok & _). lia. }
  destruct (iter_sorted_run _ s1 Hfed1) as (s2 & Hrun2 & Hfiles & _ & Ho & Hm & Hcons & Hr & Hi).
  exists s1, s2. split_and!; try done; try lia.
  unfold iter_sorted, mbind, M_bind, gets. by rewrite Hcons.
Qed.

Definition sort_row (wid : Z) (device : string) : Row := mk_sort_row wid [("device", JStr device)].
Definition sort_rows : list Row :=
  [sort_row 3 "a"; sort_row 1 "a"; sort_row 2 "a"; sort_row 1 "b"; sort_row 0 "a"; sort_row 3 "b";
   sort_row 2 "b"].

Lemma external_sort_stable_witness :
  ∃ s0 s1 s2, new_sorter 1 2 = Ok s0 ∧ add_all sort_rows s0 = (Ok tt, s1) ∧
    length (ws_chunks s1) = 7%nat ∧ ws_merge_passes s2 = 2%nat ∧
    iter_sorted s1 = (Ok [sort_row 0 "a"; sort_row 1 "a"; sort_row 1 "b"; sort_row 2 "a";
      sort_row 2 "b"; sort_row 3 "a"; sort_row 3 "b"], s2) ∧ ws_files s2 = ∅.
Proof.
  set (s0 := match new_sorter 1 2 with Ok s => s | Raise _ => mk_sorter 0 0 ∅ [] ∅ 0 0 0 0 0 0 0 0 None [] false end).
  assert (Hs0 : new_sorter 1 2 = Ok s0) by reflexivity.
  destruct (external_sort_stable 1 2 s0 sort_rows Hs0) as (s1 & s2 & H1 & _ & H2 & _ & _ & H3 & _).
  exists s0, s1, s2.
  assert (s1 = (add_all sort_rows s0).2) as -> by (rewrite H1; reflexivity).
  assert (s2 = (iter_sorted (add_all sort_rows s0).2).2) as -> by (rewrite H2; reflexivity).
  split; [exact Hs0 | split; [exact H1 | split; [vm_compute; reflexivity | split; [vm_compute; reflexivity |]]]].
  split; [exact H2 | exact H3].
Defined.

(** ** Frames *)

(** Any frame decodes.  Whatever bytes a frame holds, the decoder returns: it never
    reads past the end, unpacks a slice of the wrong length or loops; it returns no
    view exactly for frames shorter than an Ethernet header; and the fields of a view
    fit the widths of their header fields, a transport header belonging to its
    protocol and a later fragment having none. *)
Theorem decode_frame_reads buf :
  Forall is_byte buf →
  ∃ o, decode_frame buf = Ok o ∧
    match o with
    | None => py_len_of buf < 14
    | Some v => 14 ≤ py_len_of buf ∧ view_ok (py_len_of buf) v ∧
                0 ≤ payload_length v < 65576 ∧ fv_l2_header_len v ≤ header_length v ≤ fv_l2_header_len v + 120
    end.
Proof.
  intros Hbuf. destruct (decode_frame_returns buf Hbuf) as (o & -> & Ho). exists o. split; [done |].
  destruct o as [v|]; [|done]. destruct Ho as [Hlen Hv]. split; [done |]. split; [done |].
  apply view_ok_lengths in Hv as [? ?]. done.
Qed.

(** C33: decoding inverts encoding.  A frame built from its header fields, with any
    number of VLAN tags, IPv4 options, TCP options and padding, and followed by any
    payload, decodes to exactly those fields; the announced segment size is that of
    the last MSS option. *)
Theorem frame_roundtrip dst src tags ip tcp payload :
  length dst = 6%nat → length src = 6%nat → Forall tag_ok tags → ipv4_ok ip → tcp_ok tcp →
  decode_frame (enc_frame dst src tags ip tcp payload) = Ok (Some (view_of dst src tags ip tcp)).
Proof. apply decode_enc_frame. Qed.

(** ** Captures *)

(** C34: no file crashes the reader.  Whatever its bytes, a capture is either refused at
    once for its magic, or read to an outcome: the end, and then every byte was read or
    the tail is reported as cut, or one of the two exceptions of a malformed block.  The
    counters agree with the packets handed on; each of these has all the data its
    header announces, and its frame decodes, to no view exactly when it is shorter than
    an Ethernet header, or to fields within their widths. *)
Theorem reader_total bytes :
  Forall is_byte bytes →
  match iter_packets bytes with
  | Raise e => exn_type e = PcapFormatError
  | Ok (out, r) =>
      match out with
      | Ok _ => rd_rest r = [] ∨ rs_truncated_tail (rd_stats r) = true
      | Raise e => exn_type e ∈ [PcapFormatError; struct_error]
      end ∧
      rs_packets_yielded (rd_stats r) = Z.of_nat (length (rd_yielded r)) ∧
      rs_records_without_timestamp (rd_stats r)
        = Z.of_nat (length (filter (λ rec, pr_ts_ns rec = None) (rd_yielded r))) ∧
      Forall (λ rec, py_len_of (pr_data rec) = pr_caplen rec ∧
        ∃ o, decode_frame (pr_data rec) = Ok o ∧
          match o with
          | None => pr_caplen rec < 14
          | Some v => 14 ≤ pr_caplen rec ∧ view_ok (pr_caplen rec) v
          end) (rd_yielded r)
  end.
Proof.
  intros Hb. pose proof (iter_packets_ends bytes Hb) as Hends.
  destruct (iter_packets bytes) as [[out r]|e]; [|done].
  assert (Hkept : kept r) by (by destruct out, Hends). split_and!.
  - destruct out, Hends; done.
  - apply Hkept.
  - apply Hkept.
  - eapply Forall_impl; [apply Hkept |]. intros rec [Hlen Hrec]. split; [done |].
    destruct (decode_frame_returns _ Hrec) as (o & Ho & Hv). rewrite Hlen in Hv. by exists o.
Qed.

(** C35: a classic capture is read back, whole or cut.  Take any packets, a byte order and
    a resolution; write the file and cut it off anywhere behind the file header: inside
    a record header, inside the data, or between two packets.  The reader returns
    exactly the packets that are whole, with their times in nanoseconds, consumes the
    file and reports a cut tail just when the last packet is not whole. *)
Theorem classic_capture big ns body ps p n :
  length body = 20%nat → Forall classic_ok ps → classic_ok p → (n < length (enc_classic big p))%nat →
  let cut := take n (enc_classic big p) in
  iter_packets (classic_magic big ns ++ body ++ concat (map (enc_classic big) ps) ++ cut)
    = Ok (Ok tt, mk_reader [] (mk_reader_stats (Z.of_nat (length ps)) 0 (negb (bool_decide (cut = []))) 0 0) None []
        (map (classic_of ns) ps)).
Proof. apply classic_file. Qed.

(** A PCAPNG capture is read back.  Take any little-endian sections with interfaces of
    any resolution, enhanced packets without options, simple packets and blocks of other
    types.  The reader returns exactly the packets, in order, each enhanced one with the
    time its ticks mean at the resolution of its section's interface, whatever blocks
    stand between; it consumes the file, reports no cut tail and counts the packets. *)
Theorem pcapng_capture options bs :
  capture_ok [] (SectionHeader options :: bs) →
  ∃ r, iter_packets (concat (map enc_block (SectionHeader options :: bs))) = Ok (Ok tt, r) ∧
    rd_rest r = [] ∧ rd_yielded r = capture_packets [] bs ∧
    rs_truncated_tail (rd_stats r) = false ∧
    rs_packets_yielded (rd_stats r) = Z.of_nat (length (capture_packets [] bs)).
Proof.
  intros Hok. destruct (pcapng_file options bs Hok) as (e & ifs & Hrun). eexists. split; [exact Hrun |].
  split; [done |]. split; [done |]. cbn [rd_stats]. split.
  - unfold capture_stats. by rewrite stats_untruncated.
  - rewrite (stats_packets _ []). cbn. lia.
Qed.

Lemma swapped_length len : 28 ≤ len < 256 → (MAX_SANE_RECORD <? uint false [0; 0; 0; len]) = true.
Proof. intros Hlen. cbn. unfold MAX_SANE_RECORD. apply Z.ltb_lt. lia. Qed.

(** A section in big-endian order, which the reader's documentation includes: its length
    is read in the other order before the byte-order magic is known, and is implausible
    for every header block of less than 256 bytes. *)
Theorem big_endian_refused len rest :
  28 ≤ len < 256 →
  ∃ msg r, iter_packets ([10; 13; 13; 10; 0; 0; 0; len; 26; 43; 60; 77] ++ rest) = Ok (raise PcapFormatError msg, r).
Proof.
  intros Hlen. set (file := _ ++ rest).
  assert (Hrun : ∃ msg r, read_block (new_reader file) = (raise PcapFormatError msg, r)).
  { change file with ([10; 13; 13; 10; 0; 0; 0; len] ++ ([26; 43; 60; 77] ++ rest)).
    unfold read_block, new_reader. rewrite read_run by done. cbn [length Nat.eqb Nat.ltb Nat.leb].
    set (s := mk_reader _ _ _ _ _).
    rewrite (bind_run (probe_section _) _ s tt s) by reflexivity.
    rewrite (bind_run (gets _) _ s false s) by reflexivity.
    rewrite (bind_run (lift _) _ s [BLOCK_SHB; uint false [0; 0; 0; len]] s) by reflexivity.
    rewrite (swapped_length len Hlen), orb_true_r. by do 2 eexists. }
  destruct Hrun as (msg & r & Hrun). exists msg, r. unfold iter_packets.
  change (reader_for file) with (Ok pcapng_generate : result (RM unit)). cbn [mbind result_bind]. f_equal.
  unfold pcapng_generate, read_all. cbn [repeat_read]. unfold mbind, M_bind. by rewrite Hrun.
Qed.

(** A section header, an interface and a packet. *)
Definition preamble : list Block := [SectionHeader []; Interface 1 0 262144 None].
Definition file_of (bs : list Block) : list Z := concat (map enc_block bs).

(** An enhanced packet with the usual option for its flags: only four bytes are taken
    for the trailer, the next header is read inside the options. *)
Definition flagged_packet : list Z :=
  enc_fields false [(4%nat, 6); (4%nat, 48); (4%nat, 0); (4%nat, 0); (4%nat, 5); (4%nat, 4); (4%nat, 4)]
  ++ [1; 2; 3; 4] ++ [2; 0; 4; 0; 0; 0; 0; 0; 0; 0; 0; 0] ++ enc_uint false 4 48.
Lemma packet_options_misread :
  match iter_packets (file_of preamble ++ flagged_packet ++ file_of [EnhancedPacket 0 6 4 [5; 6; 7; 8]]) with
  | Ok (out, r) =>
      out = raise PcapFormatError "implausible block length 0" ∧
      rd_yielded r = [mk_pcap_record (Some 5000) [1; 2; 3; 4] 4 4]
  | Raise _ => False
  end.
Proof. vm_compute. split; reflexivity. Qed.

(** A packet of an interface the section has not described: one tick is a millisecond,
    where the format and the comment say a microsecond. *)
Lemma default_resolution_milliseconds :
  match iter_packets (file_of [SectionHeader []] ++ file_of [EnhancedPacket 0 1 4 [5; 6; 7; 8]]) with
  | Ok (out, r) => out = Ok tt ∧ map pr_ts_ns (rd_yielded r) = [Some (10 ^ 6)]
  | Raise _ => False
  end.
Proof. vm_compute. split; reflexivity. Qed.

(** A frame of the example network, to be decoded again. *)
Definition mac_a : list Z := [2; 0; 0; 0; 0; 1].
Definition mac_b : list Z := [2; 0; 0; 0; 0; 2].
Definition ip_ab : Ipv4Header :=
  mk_ipv4 0 56 1 true false 64 0 (10, 0, 0, 1) (10, 0, 0, 2) [1; 1; 1; 0].
Definition tcp_ab : TcpHeader :=
  mk_tcp 40000 1883 (0, 1) (0, 2) 24 512 0 0 [OptNop; OptData 2 [5; 180]; OptData 3 [7]] [].
Definition frame_ab : list Z := enc_frame mac_b mac_a [(33024, 7)] ip_ab tcp_ab [1; 2; 3].

Lemma decode_frame_reads_witness :
  Forall is_byte (take 40 frame_ab) ∧
  ∃ v, decode_frame (take 40 frame_ab) = Ok (Some v) ∧ view_ok 40 v ∧ fv_l3_proto v = "tcp" ∧ fv_sport v = None.
Proof.
  assert (Hb : Forall is_byte (take 40 frame_ab)) by (vm_compute; repeat constructor; discriminate).
  split; [exact Hb |]. destruct (decode_frame_reads (take 40 frame_ab) Hb) as (o & Ho & Hv).
  set (o' := match decode_frame (take 40 frame_ab) with Ok o => o | Raise _ => None end).
  assert (o = o') as -> by (unfold o'; rewrite Ho; reflexivity).
  destruct (is_Some_dec o') as [Hs|Hn]; [|exfalso; apply Hn; vm_compute; eexists; reflexivity].
  destruct o' as [v|] eqn:E; [|destruct Hs as [? [=]]].
  exists v. split; [exact Ho |]. split; [exact (proj1 (proj2 Hv)) |].
  unfold o' in E. vm_compute in E. injection E as <-. split; reflexivity.
Defined.

(** The interface of a 32-bit binary clock, a block of another type, and a capture cut in
    its second packet. *)
Definition blocks1 : list Block :=
  [Interface 1 0 0 (Some 160); OtherBlock 5 [1; 2; 3]; EnhancedPacket 0 (3 * 2 ^ 31) 90 frame_ab;
   SimplePacket [7]; SectionHeader [0; 0]; Interface 1 0 0 None; EnhancedPacket 0 12 3 [1; 2; 3]].
Definition classic1 : ClassicPacket := mk_classic 1000 250000 90 frame_ab.
Definition classic2 : ClassicPacket := mk_classic 1001 7 64 [1; 2; 3; 4].

Lemma reader_total_witness :
  ∃ out r, iter_packets (PCAP_MAGIC_LE_US ++ replicate 20 0 ++ enc_classic false classic1 ++ [9; 9]) = Ok (out, r) ∧
    rs_packets_yielded (rd_stats r) = Z.of_nat (length (rd_yielded r)).
Proof.
  set (bytes := PCAP_MAGIC_LE_US ++ _).
  assert (Hb : Forall is_byte bytes) by (vm_compute; repeat constructor; discriminate).
  pose proof (reader_total bytes Hb) as Ht. destruct (iter_packets bytes) as [[out r]|e] eqn:Hrun.
  - exists out, r. split; [reflexivity | exact (proj1 (proj2 Ht))].
  - exfalso. assert (Hok : is_ok (iter_packets bytes) = true) by (vm_compute; reflexivity). rewrite Hrun in Hok. discriminate.
Defined.

Lemma classic_capture_witness :
  ∃ r, iter_packets (PCAP_MAGIC_BE_US ++ replicate 20 0 ++ enc_classic true classic1 ++ take 18 (enc_classic true classic2))
      = Ok (Ok tt, r) ∧
    rd_yielded r = [mk_pcap_record (Some 1000250000000) frame_ab (py_len_of frame_ab) 90] ∧
    rs_truncated_tail (rd_stats r) = true.
Proof.
  eexists. split; [|split].
  - apply (classic_capture true false (replicate 20 0) [classic1] classic2 18).
    + reflexivity.
    + constructor; [|constructor]. split; [|vm_compute; discriminate].
      repeat constructor; vm_compute; try discriminate; reflexivity.
    + split; [|vm_compute; discriminate]. repeat constructor; vm_compute; try discriminate; reflexivity.
    + vm_compute. repeat constructor.
  - reflexivity.
  - reflexivity.
Defined.

Lemma pcapng_capture_witness :
  ∃ r, iter_packets (concat (map enc_block (SectionHeader [] :: blocks1))) = Ok (Ok tt, r) ∧
    map pr_ts_ns (rd_yielded r) = [Some 1500000000; None; Some 12000].
Proof.
  destruct (pcapng_capture [] blocks1) as (r & Hrun & _ & Hy & _).
  - repeat split; try (vm_compute; try discriminate; try reflexivity; lia);
      repeat constructor; vm_compute; try discriminate; try reflexivity; try lia.
    apply (bool_decide_eq_true_1 (5 ∉ [168627466; 1; 6; 3])). reflexivity.
  - exists r. split; [exact Hrun |]. rewrite Hy. vm_compute. reflexivity.
Defined.

Lemma frame_roundtrip_witness :
  ∃ v, decode_frame frame_ab = Ok (Some v) ∧ fv_src_mac v = "02:00:00:00:00:01" ∧ fv_vlan_tags v = 1 ∧
    fv_dst_ip v = Some "10.0.0.2" ∧ fv_dport v = Some 1883 ∧ fv_mss v = Some 1460.
Proof.
  exists (view_of mac_b mac_a [(33024, 7)] ip_ab tcp_ab). split; [|vm_compute; tauto].
  apply (frame_roundtrip mac_b mac_a [(33024, 7)] ip_ab tcp_ab [1; 2; 3]);
    [reflexivity | reflexivity | repeat constructor | constructor | constructor]; vm_compute;
    repeat split; try discriminate; repeat constructor; try discriminate.
Defined.

(** ** The capture of a session *)

(** A complete pass: what it started from, and what it yielded. *)
Lemma capture_run sc start recs inv set c yielded :
  iter_pcap_feature_rows (mk_session sc (Some recs) (Some start)) inv set = Ok (Ok c, yielded) →
  ∃ grid, new_grid start (es_window_seconds set) = Ok grid ∧
  let ncfg := net_config set grid sc inv in
  let ccfg := comm_config set grid sc inv in
  let packets := packets_of recs in
  ∃ observed filled p,
    iter_network_rows_direct yielded = observed ++ filled ∧
    Forall2 (finalized (finalize_device ncfg)) (sorted_entries (group (map (net_arrival ncfg) packets))) observed ∧
    Forall2 (edge_row ccfg) (sorted_entries (group (map (comm_arrival ccfg) packets))) (iter_communication_rows yielded) ∧
    Forall2 (λ dw row, empty_network_row sc dw.1 dw.2 grid = Ok row)
      (missing (network_universe inv p) (pc_min_window_id c) (pc_max_window_id c) p) filled ∧
    (∀ d w, has d w p = true ↔ (d, w) ∈ map row_key observed) ∧
    pc_min_window_id c ≤ 0 ≤ pc_max_window_id c ∧
    pc_edge_count c
      = Z.of_nat (size (list_to_set (map edge_of_row (iter_communication_rows yielded)) : gset (Z * string * string))).
Proof.
  unfold iter_pcap_feature_rows. cbn [si_capture si_session_start_ns si_scenario_id].
  intros (grid & Hgrid & H)%result_bind_ok. apply result_bind_ok in H as (net & Hnet & H).
  apply result_bind_ok in H as (comm & Hcomm & H). exists grid. split; [done |].
  destruct (generate_pcap _ _ recs _) as [[[]|e] s] eqn:Hgen; [|done]. injection H as <- <-.
  apply (new_network_manager_fresh (net_config set grid sc inv)) in Hnet.
  apply (new_communication_manager_fresh (comm_config set grid sc inv)) in Hcomm.
  apply generate_pcap_rows in Hgen as (observed & filled & t & p & H1 & H2 & H3 & H4 & H5 & H6 & _ & H7).
  { cbv zeta. exists observed, filled, p. unfold collect_pcap. cbn [pc_min_window_id pc_max_window_id pc_edge_count].
    rewrite H6, H7. split_and!; try done; unfold min_window, max_window; lia. }
  split; cbn [pn_net pn_comm pn_presence pn_yielded].
  - exists []. split; [apply (fresh_streamed _ _ Hnet) | done].
  - exists []. split; [apply (fresh_streamed _ _ Hcomm) | done].
  - intros d w. rewrite has_empty. set_solver.
  - done.
Qed.

(** C28: streaming is batch.  When the pass over a capture completes, whatever order
    the packets came in within the allowed lateness and however the windows were
    finalized meanwhile, the communication rows are those of grouping all packets by
    window and edge at once, taken in key order; the network rows are those of
    grouping by window and device at once, in key order, followed by empty rows. *)
Theorem capture_batch sc start recs inv set c yielded :
  iter_pcap_feature_rows (mk_session sc (Some recs) (Some start)) inv set = Ok (Ok c, yielded) →
  ∃ grid observed filled,
    new_grid start (es_window_seconds set) = Ok grid ∧
    let ncfg := net_config set grid sc inv in
    let ccfg := comm_config set grid sc inv in
    iter_network_rows_direct yielded = observed ++ filled ∧
    Forall2 (finalized (finalize_device ncfg))
      (sorted_entries (group (map (net_arrival ncfg) (packets_of recs)))) observed ∧
    Forall2 (edge_row ccfg) (sorted_entries (group (map (comm_arrival ccfg) (packets_of recs))))
      (iter_communication_rows yielded) ∧
    Forall (λ row, ∃ d w, (d, w) ∉ map row_key observed ∧ empty_network_row sc d w grid = Ok row) filled.
Proof.
  intros (grid & Hgrid & observed & filled & p & H1 & H2 & H3 & H4 & H5 & _)%capture_run.
  exists grid, observed, filled. split; [done |]. split; [done | split; [done | split; [done |]]].
  apply Forall_forall. intros row Hrow.
  apply list_elem_of_lookup in Hrow as [i Hrow].
  destruct (Forall2_lookup_r _ _ _ _ _ H4 Hrow) as ([d w] & Hdw & Hempty).
  apply list_elem_of_lookup_2 in Hdw. exists d, w. split; [|done].
  apply elem_of_missing in Hdw as (_ & _ & Hno). rewrite <-H5, Hno. done.
Qed.

(** C29: the network rows of a session fill a rectangle.  No two rows of a completed
    pass have the same device and window; each has exactly the columns of the schema;
    every protected device of the inventory has a row in every window from the
    smallest to the largest the diagnostics report, window 0 included, and so has
    every device in every window where it was a participant of a packet; and a row
    says it was observed exactly when it was. *)
Theorem network_rectangle sc start recs inv set c yielded :
  iter_pcap_feature_rows (mk_session sc (Some recs) (Some start)) inv set = Ok (Ok c, yielded) →
  ∃ grid,
    new_grid start (es_window_seconds set) = Ok grid ∧
    let cfg := net_config set grid sc inv in
    let rows := iter_network_rows_direct yielded in
    let seen := device_seen cfg (packets_of recs) in
    NoDup (map row_key rows) ∧
    pc_min_window_id c ≤ 0 ≤ pc_max_window_id c ∧
    (∀ d w, d ∈ protected_inventory_names inv → pc_min_window_id c ≤ w ≤ pc_max_window_id c →
       (d, w) ∈ map row_key rows) ∧
    (∀ dw, seen dw → dw ∈ map row_key rows) ∧
    Forall (λ row, row.*1 = network_fields ∧
      ∃ b, od_get "network_observed" row = Some (JBool b) ∧ (b = true ↔ seen (row_key row))) rows.
Proof.
  intros (grid & Hgrid & observed & filled & p & Hrows & Hobs & _ & Hfill & Hp & Hzero & _)%capture_run.
  exists grid. split; [done |]. cbv zeta. rewrite Hrows, map_app.
  apply network_row_keys in Hobs as [Hkeys Hobs]. apply filled_keys in Hfill as [Hfkeys Hfill].
  assert (Hseen : ∀ dw, dw ∈ map row_key observed ↔ device_seen (net_config set grid sc inv) (packets_of recs) dw).
  { intros [d w]. rewrite Hkeys, list_elem_of_fmap. setoid_rewrite net_observed. split.
    - intros (k & -> & Hk). done.
    - intros Hk. exists (w, d). done. }
  assert (Hnot : ∀ dw, dw ∈ map row_key filled → dw ∉ map row_key observed).
  { intros [d w]. rewrite Hfkeys, elem_of_missing. intros (_ & _ & Hno) Hin%Hp. congruence. }
  split_and!.
  - apply NoDup_app. split_and!; [| intros dw Ha Hb; by apply (Hnot dw) | rewrite Hfkeys; apply missing_nodup, network_universe_nodup].
    rewrite Hkeys. apply NoDup_fmap_2; [by intros [] [] [= -> ->] | apply sorted_keys_nodup].
  - apply Hzero.
  - apply Hzero.
  - intros d w Hd Hw. apply elem_of_app. destruct (has d w p) eqn:Hh; [left; by apply Hp | right].
    rewrite Hfkeys, elem_of_missing. split; [by apply elem_of_universe | done].
  - intros dw Hdw. apply elem_of_app. left. by apply Hseen.
  - apply Forall_app. split.
    + apply Forall_forall. intros row Hrow. rewrite Forall_forall in Hobs. destruct (Hobs row Hrow) as [? ?].
      split; [done |]. exists true. split; [done |]. split; [intros _ | done].
      apply Hseen. by apply list_elem_of_fmap_2.
    + apply Forall_forall. intros row Hrow. rewrite Forall_forall in Hfill. destruct (Hfill row Hrow) as [? ?].
      split; [done |]. exists false. split; [done |]. split; [done |]. intros Hs%Hseen.
      exfalso. apply (Hnot (row_key row)); [by apply list_elem_of_fmap_2 | done].
Qed.

(** The edges account for every packet.  When a pass completes, there is one
    communication row for each window and ordered pair of endpoints between which a
    packet with a time stamp passed, in order of window, source and destination, and
    no other; their number is the reported edge count; and the packet, captured-byte
    and wire-byte counts of the rows add up to those of the packets of the capture:
    none is dropped or counted twice. *)
Theorem edges_conserve sc start recs inv set c yielded :
  iter_pcap_feature_rows (mk_session sc (Some recs) (Some start)) inv set = Ok (Ok c, yielded) →
  ∃ grid,
    new_grid start (es_window_seconds set) = Ok grid ∧
    let rows := iter_communication_rows yielded in
    let cfg := comm_config set grid sc inv in
    let packets := timed_packets cfg (packets_of recs) in
    NoDup (map edge_of_row rows) ∧ StronglySorted key_leb (map edge_of_row rows) ∧
    (∀ k, k ∈ map edge_of_row rows ↔ ∃ wp, wp ∈ packets ∧ packet_edge cfg wp = k) ∧
    pc_edge_count c = Z.of_nat (length rows) ∧
    zsum (map (row_int "packet_count") rows) = Z.of_nat (length packets) ∧
    zsum (map (row_int "captured_byte_count") rows) = zsum (map (pk_caplen ∘ snd) packets) ∧
    zsum (map (row_int "wire_byte_count") rows) = zsum (map (pk_wirelen ∘ snd) packets).
Proof.
  intros (grid & Hgrid & observed & filled & p & _ & _ & Hedges & _ & _ & _ & Hcount)%capture_run.
  exists grid. split; [done |]. cbv zeta.
  apply edge_rows in Hedges as (Hkeys & Hp & Hc & Hw).
  assert (Hnd : NoDup (map edge_of_row (iter_communication_rows yielded))) by (rewrite Hkeys; apply sorted_keys_nodup).
  split_and!; try done.
  - rewrite Hkeys. apply sorted_keys_sorted.
  - intros k. rewrite Hkeys, elem_of_sorted_keys. apply edges_observed.
  - by rewrite Hcount, size_list_to_set, length_map.
Qed.

(** ** Watermark and memory *)

(** The lateness in windows: [ceil(max_event_lateness_ns / window_ns)]. *)
Definition lateness (grid : WindowGrid) (max_event_lateness_ns : Z) : Z :=
  - (- max_event_lateness_ns / window_ns grid).

(** C30: the watermark refuses exactly the streams that are out of order.  For each of
    the three extractors, fresh and given any events: if the session completes, no
    event was more than the lateness, in windows, behind one before it; and if it
    raises the older-than-watermark error, some event was.  So a stream in order is
    never refused as late, and one that is not never completes. *)
Theorem watermark_exact `{PyRuntime} `{LibM} ncfg ccfg bcfg grid late_ns net comm beh packets events :
  new_network_manager grid late_ns = Ok net →
  new_communication_manager grid late_ns = Ok comm →
  new_behavior_manager grid late_ns = Ok beh →
  let K := lateness grid late_ns in
  judged K (timed_wids (map (net_arrival ncfg) packets)) (extract (network_manager ncfg) packets net).1 ∧
  judged K (timed_wids (map (comm_arrival ccfg) packets)) (extract (communication_manager ccfg) packets comm).1 ∧
  judged K (timed_wids (map (beh_arrival bcfg) events)) (extract (behavior_manager bcfg) events beh).1.
Proof.
  intros Hn Hc Hb.
  pose proof (extract_judged (network_manager ncfg) packets net (new_network_manager_fresh _ _ _ _ Hn)) as H1.
  pose proof (extract_judged (communication_manager ccfg) packets comm (new_communication_manager_fresh _ _ _ _ Hc)) as H2.
  pose proof (extract_judged (behavior_manager bcfg) events beh (new_behavior_manager_fresh _ _ _ _ Hb)) as H3.
  apply result_bind_ok in Hn as (t1 & Ht1%new_tracker_lateness & [= <-]).
  apply result_bind_ok in Hc as (t2 & Ht2%new_tracker_lateness & [= <-]).
  apply result_bind_ok in Hb as (t3 & Ht3%new_tracker_lateness & [= <-]).
  unfold lateness. rewrite <-Ht1 at 1. rewrite <-Ht2 at 1. rewrite <-Ht3. done.
Qed.

(** C31: the memory of a session is bounded by its devices, not by its length.  After
    any number of accepted events the live accumulators of the network and of the
    behaviour extractor lie in at most lateness + 1 consecutive windows, one for
    each device or sensor of the inventory at most; and whatever happened, the
    communication extractor never holds more live edges than its capacity. *)
Theorem live_windows_bounded `{PyRuntime} `{LibM} records ncfg ccfg bcfg grid late_ns net comm beh packets events :
  nc_inventory ncfg = new_inventory records → bc_inventory bcfg = new_inventory records →
  0 ≤ cc_active_window_capacity ccfg →
  new_network_manager grid late_ns = Ok net →
  new_communication_manager grid late_ns = Ok comm →
  new_behavior_manager grid late_ns = Ok beh →
  let bound := (lateness grid late_ns + 1) * Z.of_nat (length records) in
  (∀ rows s, feed (network_manager ncfg) packets net = (Ok rows, s) → Z.of_nat (size (nm_windows s)) ≤ bound) ∧
  (∀ rows s, feed (behavior_manager bcfg) events beh = (Ok rows, s) → Z.of_nat (size (bm_windows s)) ≤ bound) ∧
  Z.of_nat (size (cm_edges (feed (communication_manager ccfg) packets comm).2)) ≤ cc_active_window_capacity ccfg.
Proof.
  intros Hni Hbi Hcap Hn Hc Hb bound.
  assert (HK : ∀ t, new_tracker (window_ns grid) late_ns = Ok t →
    tr_lateness_windows t = lateness grid late_ns ∧ 0 ≤ lateness grid late_ns).
  { intros t Ht. pose proof (new_tracker_lateness _ _ _ Ht) as HK. apply new_tracker_ok in Ht as [Ht _].
    pose proof (tko_lateness _ Ht). unfold lateness. lia. }
  unfold bound. rewrite <-(length_map dv_device_name). split_and!.
  - intros rows s Hf. apply feed_live in Hf as [b Hl]; [|by eapply new_network_manager_fresh].
    apply result_bind_ok in Hn as (t & [Ht HK0]%HK & [= <-]).
    apply (keys_within _ b); [done |]. intros k a Hk. destruct (Hl k a Hk) as [Hw Hk'].
    rewrite <-Ht. split; [exact Hw |].
    apply (net_names ncfg packets); [done | exact Hk'].
  - intros rows s Hf. apply feed_live in Hf as [b Hl]; [|by eapply new_behavior_manager_fresh].
    apply result_bind_ok in Hb as (t & [Ht HK0]%HK & [= <-]).
    apply (keys_within _ b); [done |]. intros k a Hk. destruct (Hl k a Hk) as [Hw Hk'].
    rewrite <-Ht. split; [exact Hw |].
    apply (sensor_names_in bcfg events); [done | exact Hk'].
  - apply comm_feed_capacity. apply result_bind_ok in Hc as (t & _ & [= <-]). exact Hcap.
Qed.

(** ** The telemetry of a session *)

(** C32: sorted telemetry is never late.  For events in any order, when their stamps
    read back to the millisecond and the tolerance and that millisecond fit in a
    window, and at least one window of lateness is allowed: the telemetry stream
    never raises the older-than-watermark error, although each event is truncated to
    the millisecond between the sort and the watermark; and when it completes, its
    rows are those of all the events, taken once each in an order sorted by window
    and grouped by window and sensor at once, followed by empty rows of supported
    sensors for windows without one. *)
Theorem behavior_stream `{PyRuntime} `{LibM} `{IsoFormat} sc start inv set events grid r s :
  Forall stamp_reads events →
  new_grid start (es_window_seconds set) = Ok grid →
  0 ≤ es_clock_tolerance_ns set → es_clock_tolerance_ns set + 1000000 ≤ window_ns grid →
  1 ≤ lateness grid (es_max_event_lateness_ns set) →
  iter_behavior_rows sc start inv set events = Ok (r, s) →
  let cfg := mk_beh_config grid sc inv (es_clock_tolerance_ns set) (Z.max 1 (es_active_window_capacity set)) in
  never_late r ∧
  ∃ evs, evs ≡ₚ events ∧
    StronglySorted (λ a b, (assign grid (es_clock_tolerance_ns set) (me_ts_ns a)).1
                         ≤ (assign grid (es_clock_tolerance_ns set) (me_ts_ns b)).1) evs ∧
    (r = Ok tt → behavior_rows_of cfg evs (br_yielded s)).
Proof.
  intros Hevs Hgrid Htol Hw HK Hrun cfg. unfold iter_behavior_rows in Hrun.
  apply result_bind_ok in Hrun as (g & Hg & Hrun). assert (g = grid) as -> by congruence.
  apply result_bind_ok in Hrun as (manager & Hman & Hrun).
  apply result_bind_ok in Hrun as (sorter & Hsort & [= Hrun]).
  pose proof (new_behavior_manager_fresh cfg _ _ _ Hman) as Hfresh.
  apply result_bind_ok in Hman as (t & Ht%new_tracker_lateness & [= <-]).
  destruct (new_sorter_fed _ _ _ Hsort) as (Hfed & Hb & Hc & Hf).
  eapply (generate_behavior_spec cfg); [done | done | done | exact Hfresh | | exact Hfed | | exact Hrun].
  - change (1 ≤ tr_lateness_windows t). by rewrite Ht.
  - rewrite Hb. cbn. lia.
Qed.

(** C36: a crash leaves no half-written session that counts as completed.  Whatever
    disk operations fail during a session, and at whichever of them the process dies,
    the disk that is left is one on which
    - every other session has the state it had, its stored output unless it is named
      like a temporary directory of this session, and its temporary directories unless
      its name is this session's followed by a dash ([others_stand]; this session's own
      name must not begin with [.tmp-]);
    - and, unless a completed session was being regenerated by force, the session, if
      its state says it is completed, has in each of the three modalities exactly as
      many rows as that state counts.
    This needs the session to be intact before and the suffixes of the temporary
    directories to be new.  Both exceptions are real: see
    [forced_regeneration_loses_rows] and [cleanup_takes_longer_names]. *)
Theorem extraction_crash_safe faults uid en sid pcap telemetry w :
  intact sid (w_disk w) → unused sid uid w →
  let w' := (run_session faults uid en sid pcap telemetry w).2 in
  ∃ new, w_past w' = w_past w ++ new ∧
    Forall (λ d, others_stand sid (w_disk w) d ∧
      (en_force_regenerate en = false ∨ ¬ completed sid (w_disk w) → intact sid d)) (w_disk w' :: new).
Proof.
  intros Hi Hu. cbv zeta. destruct (run_confined faults uid en sid pcap telemetry w) as (new & Hp & Hc).
  exists new. split; [done |]. apply Forall_forall. intros d Hd. rewrite Forall_forall in Hc.
  split; [by apply confined_others, Hc |]. intros Hf.
  destruct (run_safe faults uid en sid pcap telemetry w Hi Hu Hf) as (new' & Hp' & Hs).
  assert (new' = new) as -> by (rewrite Hp in Hp'; by apply app_inv_head in Hp').
  rewrite Forall_forall in Hs. by apply Hs.
Qed.

(** C37: the store is the direct stream.  When the disk does not fail and the passes
    over the capture and the telemetry complete, a session that is run or regenerated
    always completes: every row fits the columns of its writer, and the reader
    returns for each modality exactly the rows of the pass, in order, as many as the
    state counts, as long as there are at most 100000 parts.  Running the session
    again returns the same state and touches nothing, even over a failing disk. *)
Theorem store_matches_direct `{PyRuntime} `{LibM} `{IsoFormat} uid en sid start recs inv set events c yielded s
    w action reason :
  iter_pcap_feature_rows (mk_session sid (Some recs) (Some start)) inv set = Ok (Ok c, yielded) →
  iter_behavior_rows sid start inv set events = Ok (Ok tt, s) →
  decide_resume (w_disk w) sid en = Ok (action, reason) → action ≠ Skip → unused sid uid w →
  let direct := direct_rows yielded (br_yielded s) in
  (∀ m, Z.of_nat (length (direct m)) ≤ 100000 * Z.max 1 (en_output_buffer_rows en)) →
  ∃ st w',
    run_session (λ _, false) uid en sid (Ok (Ok tt, yielded)) (Ok (Ok tt, br_yielded s)) w = (Ok st, w') ∧
    ss_status st = "completed" ∧
    (∀ m, m ∈ MODALITIES → iter_records (w_disk w') sid m = Ok (direct m) ∧
       ss_record_counts st !! m = Some (Z.of_nat (length (direct m)))) ∧
    ((∃ sign m e, en_window_seconds en = S754_finite sign m e) →
     ∀ faults pcap telemetry, run_session faults uid en sid pcap telemetry w' = (Ok st, w')).
Proof.
  intros Hpcap Hbeh Hr Hne Hun direct Hlen. pose proof (pcap_rows_fit _ _ _ _ _ Hpcap) as Hfit.
  destruct (run_total uid en sid (Ok (Ok tt, yielded)) (Ok (Ok tt, br_yielded s)) w action reason)
    as (st & w' & Hrun & Hst & Hrows & Hagain); [| done | done | done |].
  { split; [exists yielded | exists (br_yielded s)]; (split; [done |]).
    - eapply Forall_impl; [exact Hfit | apply fits_good].
    - by eapply behavior_rows_accepted. }
  exists st, w'. split; [exact Hrun |]. split; [done |]. split.
  - intros m Hm. destruct (Hrows m Hm) as (rows & ps & ts & [= <-] & [= <-] & Hread & Hcount & _ & Hall).
    rewrite pick_direct in Hall by done. assert (rows = direct m) as -> by apply Hall, Hlen. done.
  - intros (sign & m & e & Hfin). apply Hagain. by eapply finite_close.
Qed.

(** ** A concrete session

    A light sensor and its broker; five-second windows from the second 1000, with one
    window of lateness. *)
Definition site_records : list DeviceRecord :=
  [mk_device "light-sensor" "02:00:00:00:00:01" "10.0.0.1" "sensor" "light" "site/light";
   mk_device "broker" "02:00:00:00:00:02" "10.0.0.2" "broker" "server" ""].
Definition site : DeviceInventory := new_inventory site_records.
Definition settings5 : ExtractionSettings := mk_settings (f_of_Z 5) 2000000000 5000000000 64.
Definition grid5 : WindowGrid := mk_grid 1000000000000 (f_of_Z 5).
Definition second (s : Z) : Z := 1000000000000 + s * 1000000000.

Definition ip_ba : Ipv4Header := mk_ipv4 0 44 2 true false 63 0 (10, 0, 0, 2) (10, 0, 0, 1) [].
Definition tcp_ba : TcpHeader := mk_tcp 1883 40000 (0, 2) (0, 4) 16 510 0 0 [] [].
Definition frame_ba : list Z := enc_frame mac_a mac_b [] ip_ba tcp_ba [9; 9; 9; 9].
Definition rec_at (ts : option Z) (frame : list Z) : PcapRecord :=
  mk_pcap_record ts frame (py_len_of frame) (py_len_of frame + 4).

(** One packet just before the start, one late but not too late, one without a time
    stamp, one cut short, and an empty window. *)
Definition capture1 : list PcapRecord :=
  [rec_at (Some (second (-1))) frame_ab; rec_at (Some (second 6)) frame_ba;
   rec_at (Some (second 1)) frame_ba; rec_at None frame_ab; rec_at (Some (second 7)) (take 12 frame_ab);
   rec_at (Some (second 17)) frame_ab].
#[local] Notation session1 := (mk_session "s1" (Some capture1) (Some (second 0))).
#[local] Notation pass1 := (iter_pcap_feature_rows session1 site settings5).

Lemma pass1_runs :
  ∃ c yielded, pass1 = Ok (Ok c, yielded) ∧
    map row_key (iter_network_rows_direct yielded) =
      [("broker", 0); ("light-sensor", 0); ("broker", 1); ("light-sensor", 1);
       ("broker", 3); ("light-sensor", 3); ("broker", 2); ("light-sensor", 2)] ∧
    map edge_of_row (iter_communication_rows yielded) =
      [(0, "broker", "light-sensor"); (0, "light-sensor", "broker"); (1, "broker", "light-sensor");
       (3, "light-sensor", "broker")] ∧
    pc_max_window_id c = 3.
Proof.
  destruct pass1 as [[[c|e] y]|e] eqn:E.
  2,3: exfalso; assert (match pass1 with Ok (Ok _, _) => True | _ => False end) as Hp by (vm_compute; exact I);
    rewrite E in Hp; exact Hp.
  exists c, y. split; [done |].
  assert (match pass1 with
    | Ok (Ok c, yielded) =>
        map row_key (iter_network_rows_direct yielded) =
          [("broker", 0); ("light-sensor", 0); ("broker", 1); ("light-sensor", 1);
           ("broker", 3); ("light-sensor", 3); ("broker", 2); ("light-sensor", 2)] ∧
        map edge_of_row (iter_communication_rows yielded) =
          [(0, "broker", "light-sensor"); (0, "light-sensor", "broker"); (1, "broker", "light-sensor");
           (3, "light-sensor", "broker")] ∧ pc_max_window_id c = 3
    | _ => False
    end) as Hp by (vm_compute; split_and!; reflexivity).
  by rewrite E in Hp.
Qed.

Lemma capture_batch_witness :
  ∃ c yielded observed filled,
    iter_pcap_feature_rows session1 site settings5 = Ok (Ok c, yielded) ∧
    iter_network_rows_direct yielded = observed ++ filled ∧
    Forall2 (edge_row (comm_config settings5 grid5 "s1" site))
      (sorted_entries (group (map (comm_arrival (comm_config settings5 grid5 "s1" site)) (packets_of capture1))))
      (iter_communication_rows yielded).
Proof.
  destruct pass1_runs as (c & y & Hrun & _ & _).
  destruct (capture_batch "s1" (second 0) capture1 site settings5 c y Hrun)
    as (grid & observed & filled & Hg & Hrows & _ & Hedges & _).
  assert (grid = grid5) as -> by (vm_compute in Hg; injection Hg as <-; reflexivity).
  exists c, y, observed, filled. split; [exact Hrun |]. split; [exact Hrows | exact Hedges].
Defined.

Lemma network_rectangle_witness :
  ∃ c yielded,
    iter_pcap_feature_rows session1 site settings5 = Ok (Ok c, yielded) ∧
    ("broker", 2) ∈ map row_key (iter_network_rows_direct yielded) ∧
    NoDup (map row_key (iter_network_rows_direct yielded)).
Proof.
  destruct pass1_runs as (c & y & Hrun & _ & _ & Hmax).
  destruct (network_rectangle "s1" (second 0) capture1 site settings5 c y Hrun)
    as (grid & Hg & Hnd & Hzero & Hcover & _).
  exists c, y. split; [exact Hrun |]. split; [|exact Hnd]. apply Hcover.
  - vm_compute. by repeat constructor.
  - rewrite Hmax. lia.
Defined.

Lemma edges_conserve_witness :
  ∃ c yielded,
    iter_pcap_feature_rows session1 site settings5 = Ok (Ok c, yielded) ∧ pc_edge_count c = 4 ∧
    zsum (map (row_int "packet_count") (iter_communication_rows yielded)) = 4.
Proof.
  destruct pass1_runs as (c & y & Hrun & _ & Hedges & _).
  destruct (edges_conserve "s1" (second 0) capture1 site settings5 c y Hrun)
    as (grid & Hg & _ & _ & _ & Hcount & Hpackets & _).
  assert (grid = grid5) as -> by (vm_compute in Hg; injection Hg as <-; reflexivity).
  exists c, y. split; [exact Hrun |]. rewrite Hcount, Hpackets. split.
  - rewrite <-(length_map edge_of_row), Hedges. reflexivity.
  - vm_compute. reflexivity.
Defined.

(** Stand-ins for [math.log2], right on powers of two, and for [fromisoformat], right
    on the stamps the pipeline prints. *)
#[local] Instance powers_log2 : LibM := {
  math_log2 x := match x with
                 | S754_finite _ m e => f_of_Z (Z.log2 (Zpos m) + e)
                 | _ => f_zero
                 end;
}.

Definition days_of_civil (y m d : Z) : Z :=
  let y := if m <=? 2 then y - 1 else y in
  let era := y / 400 in
  let yoe := y mod 400 in
  let doy := (153 * (if 2 <? m then m - 3 else m + 9) + 2) / 5 + d - 1 in
  era * 146097 + (yoe * 365 + yoe / 4 - yoe / 100 + doy) - 719468.

Definition read_digits (l : list ascii) : Z := foldl (λ n c, n * 10 + (code c - 48)) 0 l.

#[local] Instance stamp_parser : IsoFormat := {
  fromisoformat_us s :=
    let at_ i n := read_digits (take n (drop i (chars s))) in
    Some ((((days_of_civil (at_ 0%nat 4%nat) (at_ 5%nat 2%nat) (at_ 8%nat 2%nat) * 24
             + at_ 11%nat 2%nat) * 60 + at_ 14%nat 2%nat) * 60 + at_ 17%nat 2%nat) * 1000000
          + at_ 20%nat 3%nat * 1000);
}.

Definition reading (ts : Z) (value : json) : MqttEvent :=
  mk_event ts (Some "light-1") (Some "site") (Some "10.0.0.1") (Some "02:00:00:00:00:01") None
    (Some "site/light") (Some "float") value (Some 1) (Some false) (Some false) None 0.

(** Unordered telemetry; the last event is microseconds into its window. *)
Definition telemetry1 : list MqttEvent :=
  [reading (second 12) (JInt 3); reading (second 1) (JInt 1); reading (second 3) (JFloat f_one);
   reading (second 5 + 250000) (JInt 2)].

Definition behavior_cfg (grid : WindowGrid) : BehaviorConfig := mk_beh_config grid "s1" site 2000000000 64.
Definition network_cfg : NetworkConfig := net_config settings5 grid5 "s1" site.
Definition edges_cfg : CommConfig := comm_config settings5 grid5 "s1" site.
Definition fresh_network : NetworkWindowManager :=
  match new_network_manager grid5 5000000000 with Ok m => m | Raise _ => mk_net_manager ∅ (mk_tracker 0 0 None None None None 0) ∅ end.
Definition fresh_edges : CommunicationWindowManager :=
  match new_communication_manager grid5 5000000000 with Ok m => m | Raise _ => mk_comm_manager ∅ (mk_tracker 0 0 None None None None 0) ∅ end.
Definition fresh_behavior : BehaviorWindowManager :=
  match new_behavior_manager grid5 5000000000 with Ok m => m | Raise _ => mk_beh_manager ∅ (mk_tracker 0 0 None None None None 0) ∅ ∅ end.

(** The third packet is two windows behind the second: more than the lateness. *)
Definition late_packets : list PacketEvent :=
  packets_of [rec_at (Some (second 1)) frame_ab; rec_at (Some (second 12)) frame_ba; rec_at (Some (second 2)) frame_ab].

Lemma watermark_exact_witness :
  lateness grid5 5000000000 = 1 ∧
  ¬ in_order 1 (timed_wids (map (net_arrival network_cfg) late_packets)) ∧
  in_order 1 (timed_wids (map (beh_arrival (behavior_cfg grid5)) (take 1 telemetry1))).
Proof.
  destruct (watermark_exact network_cfg edges_cfg (behavior_cfg grid5) grid5 5000000000 fresh_network fresh_edges
    fresh_behavior late_packets (take 1 telemetry1) eq_refl eq_refl eq_refl) as (Hn & _ & Hb).
  assert (HK : lateness grid5 5000000000 = 1) by (vm_compute; reflexivity). rewrite HK in Hn, Hb.
  split; [exact HK |]. split.
  - assert (match (extract (network_manager network_cfg) late_packets fresh_network).1 with
            | Raise e => exn_type e = EventOlderThanWatermarkError | Ok _ => False end) as Hr by (vm_compute; reflexivity).
    revert Hn Hr. generalize (extract (network_manager network_cfg) late_packets fresh_network).1.
    intros [rows|e] Hn Hr; [destruct Hr | exact (Hn Hr)].
  - assert (match (extract (behavior_manager (behavior_cfg grid5)) (take 1 telemetry1) fresh_behavior).1 with
            | Raise e => False | Ok _ => True end) as Hr by (vm_compute; exact I).
    revert Hb Hr. generalize (extract (behavior_manager (behavior_cfg grid5)) (take 1 telemetry1) fresh_behavior).1.
    intros [rows|e] Hb Hr; [exact Hb | destruct Hr].
Defined.

Lemma live_windows_bounded_witness :
  Z.of_nat (size (cm_edges (feed (communication_manager edges_cfg) late_packets fresh_edges).2)) ≤ 64 ∧
  ∃ rows s, feed (network_manager network_cfg) (take 2 late_packets) fresh_network = (Ok rows, s) ∧
    Z.of_nat (size (nm_windows s)) ≤ 4.
Proof.
  pose proof (live_windows_bounded site_records network_cfg edges_cfg (behavior_cfg grid5) grid5 5000000000
    fresh_network fresh_edges fresh_behavior) as Hbound.
  split.
  - destruct (Hbound late_packets []) as (_ & _ & Hc); try reflexivity; [vm_compute; discriminate | exact Hc].
  - destruct (Hbound (take 2 late_packets) []) as (Hn & _ & _); try reflexivity; [vm_compute; discriminate |].
    assert (match (feed (network_manager network_cfg) (take 2 late_packets) fresh_network).1 with
            | Raise e => False | Ok _ => True end) as Hr by (vm_compute; exact I).
    revert Hn Hr. generalize (feed (network_manager network_cfg) (take 2 late_packets) fresh_network).
    intros [[rows|e] s] Hn Hr; [|destruct Hr].
    exists rows, s. split; [reflexivity |]. exact (Hn rows s eq_refl).
Defined.

Lemma behavior_stream_witness :
  ∃ s evs, iter_behavior_rows "s1" (second 0) site settings5 telemetry1 = Ok (Ok tt, s) ∧
    evs ≡ₚ telemetry1 ∧ behavior_rows_of (behavior_cfg grid5) evs (br_yielded s).
Proof.
  assert (Hreads : Forall stamp_reads telemetry1).
  { repeat constructor; (eexists; split; [vm_compute; reflexivity | vm_compute; reflexivity]). }
  assert (Hrun : match iter_behavior_rows "s1" (second 0) site settings5 telemetry1 with
    | Ok (Ok tt, s) => True | _ => False end) by (vm_compute; exact I).
  destruct (iter_behavior_rows "s1" (second 0) site settings5 telemetry1) as [[[[]|e] s]|e] eqn:E;
    [|destruct Hrun | destruct Hrun].
  destruct (behavior_stream "s1" (second 0) site settings5 telemetry1 grid5 (Ok tt) s Hreads) as (_ & evs & Hp & _ & Hrows);
    [vm_compute; reflexivity | vm_compute; discriminate | vm_compute; discriminate | vm_compute; discriminate | exact E |].
  exists s, evs. split; [reflexivity |]. split; [exact Hp |]. exact (Hrows eq_refl).
Defined.

(** ** The store of a concrete session *)
Definition engine5 : EngineSettings := mk_engine (f_of_Z 5) 2000000000 5000000000 2 false.
Definition empty_world : World := mk_world (mk_disk ∅ ∅ []) [] 0 ∅.
Definition suffix (m : string) : string := "3f2a" +:+ m.

Definition blank (fields : list string) : FeatureRow := map (λ f, (f, JNull)) fields.
Definition blank_rows : RowStream (string * FeatureRow) :=
  Ok (Ok tt, [("network", blank network_fields); ("communication", blank COMMUNICATION_FIELDS);
              ("network", blank network_fields); ("network", blank network_fields)]).
Definition blank_telemetry : RowStream FeatureRow := Ok (Ok tt, [blank behavior_fields]).

Lemma suffix_unused : unused "s1" suffix empty_world.
Proof. intros m _. reflexivity. Qed.

(** The twenty-second disk operation fails: two of the three directories are there. *)
Lemma extraction_crash_safe_witness :
  let w' := (run_session (Nat.eqb 21) suffix engine5 "s1" blank_rows blank_telemetry empty_world).2 in
  (ss_status <$> dk_states (w_disk w') !! "s1") = Some "failed" ∧
  ∃ new, w_past w' = [] ++ new ∧
    Forall (λ d, others_stand "s1" (w_disk empty_world) d ∧
      (en_force_regenerate engine5 = false ∨ ¬ completed "s1" (w_disk empty_world) → intact "s1" d))
      (w_disk w' :: new).
Proof.
  split; [vm_compute; reflexivity |].
  apply (extraction_crash_safe (Nat.eqb 21) suffix engine5 "s1" blank_rows blank_telemetry empty_world).
  - intros st Hst. discriminate Hst.
  - exact suffix_unused.
Defined.

Lemma store_matches_direct_witness :
  ∃ c yielded s st w',
    iter_pcap_feature_rows session1 site settings5 = Ok (Ok c, yielded) ∧
    iter_behavior_rows "s1" (second 0) site settings5 telemetry1 = Ok (Ok tt, s) ∧
    run_session (λ _, false) suffix engine5 "s1" (Ok (Ok tt, yielded)) (Ok (Ok tt, br_yielded s)) empty_world
      = (Ok st, w') ∧
    iter_records (w_disk w') "s1" "network" = Ok (iter_network_rows_direct yielded) ∧
    run_session (λ _, true) suffix engine5 "s1" (Ok (Ok tt, [])) (Ok (Ok tt, [])) w' = (Ok st, w').
Proof.
  assert (Hp : match pass1, iter_behavior_rows "s1" (second 0) site settings5 telemetry1 with
    | Ok (Ok _, yielded), Ok (Ok tt, s) => (length yielded <=? 100)%nat && (length (br_yielded s) <=? 100)%nat = true
    | _, _ => False end) by (vm_compute; reflexivity).
  destruct pass1 as [[[c|e] yielded]|e] eqn:E1; [|destruct Hp | destruct Hp].
  destruct (iter_behavior_rows "s1" (second 0) site settings5 telemetry1) as [[[[]|e] s]|e] eqn:E2;
    [|destruct Hp | destruct Hp].
  apply andb_true_iff in Hp as [Hy%Nat.leb_le Hs%Nat.leb_le].
  destruct (store_matches_direct suffix engine5 "s1" (second 0) capture1 site settings5 telemetry1 c yielded s
    empty_world Run "no prior state" E1 E2) as (st & w' & Hrun & _ & Hread & Hagain).
  - vm_compute. reflexivity.
  - discriminate.
  - exact suffix_unused.
  - intros m. transitivity 100; [|cbn; lia].
    assert (length (direct_rows yielded (br_yielded s) m) ≤ 100)%nat; [|lia]. by apply direct_rows_length.
  - exists c, yielded, s, st, w'. split; [reflexivity |]. split; [reflexivity |]. split; [exact Hrun |]. split.
    + apply (Hread "network"). by left.
    + apply Hagain. by repeat eexists.
Defined.

(** ** What the streams do not promise *)

(** Rows of the light sensor: window and [seconds_since_previous_event]. *)
Definition gaps (r : result (result unit * BehaviorRun)) : list (Z * json) :=
  match r with
  | Ok (_, s) => map (λ row, ((row_key row).2, field "seconds_since_previous_event" row)) (br_yielded s)
  | Raise _ => []
  end.

(** The cross-window gap of a window depends on events of later windows: whether the
    previous window was finalized before this one, which prunes its history. *)
Theorem gap_depends_on_later_events :
  gaps (iter_behavior_rows "s1" (second 0) site settings5
          [reading (second 1) (JInt 1); reading (second 6) (JInt 2); reading (second 11) (JInt 3)])
    = [(0, JNull); (1, JNull); (2, JFloat (f_of_Z 5))] ∧
  gaps (iter_behavior_rows "s1" (second 0) site settings5
          [reading (second 1) (JInt 1); reading (second 6) (JInt 2); reading (second 16) (JInt 3)])
    = [(0, JNull); (1, JFloat (f_of_Z 5)); (3, JNull); (2, JNull)].
Proof. vm_compute. split; reflexivity. Qed.

(** Two messages of a sensor at the same instant, one an empty list and one a list of
    numbers, end the session: the sorted insertion compares [None] with a float. *)
Theorem simultaneous_arrays_raise :
  (λ r, fst r) <$> iter_behavior_rows "s1" (second 0) site settings5
    [reading (second 1) (JList []); reading (second 1) (JList [JInt 2])]
  = Ok (raise TypeError "'<' not supported between instances of the two types").
Proof. vm_compute. reflexivity. Qed.

(** A session whose first packet is three windows before the start, beyond the clock
    tolerance, has rows in window -3; but finalizing them raised the smallest window
    of the watermark, so the report starts at window 0 and windows -3 to -1 are not
    filled. *)
Theorem reported_min_window_too_high :
  match iter_pcap_feature_rows (mk_session "s1" (Some [rec_at (Some (second (-15))) frame_ab;
            rec_at (Some (second 1)) frame_ba; rec_at (Some (second 6)) frame_ba]) (Some (second 0))) site settings5 with
  | Ok (Ok c, yielded) =>
      pc_min_window_id c = 0 ∧
      map row_key (iter_network_rows_direct yielded) =
        [("broker", -3); ("light-sensor", -3); ("broker", 0); ("light-sensor", 0); ("broker", 1); ("light-sensor", 1)]
  | _ => False
  end.
Proof. vm_compute. split; reflexivity. Qed.

(** A network row says that the sensor supports behaviour when it was observed, and
    that it does not when the row was filled in. *)
Theorem behavior_supported_varies :
  match iter_pcap_feature_rows (mk_session "s1" (Some capture1) (Some (second 0))) site settings5 with
  | Ok (Ok _, yielded) =>
      map (λ row, ((row_key row).2, field "behavior_supported" row))
        (filter (λ row, (row_key row).1 = "light-sensor") (iter_network_rows_direct yielded))
      = [(0, JBool true); (1, JBool true); (3, JBool true); (2, JBool false)]
  | _ => False
  end.
Proof. vm_compute. reflexivity. Qed.

(** Regenerating a completed session by force removes its directories while its state
    still says it is completed: a process that dies there leaves a session the reader
    accepts and finds empty. *)
Definition engine10 : EngineSettings := mk_engine (f_of_Z 10) 2000000000 5000000000 2 true.

Theorem forced_regeneration_loses_rows :
  let stored := (run_session (λ _, false) suffix engine5 "s1" blank_rows blank_telemetry empty_world).2 in
  let regenerated := (run_session (λ _, false) suffix engine10 "s1" blank_rows blank_telemetry stored).2 in
  (length <$> iter_records (w_disk stored) "s1" "network") = Ok 3%nat ∧
  Exists (λ d, iter_records d "s1" "network" = Ok []) (w_past regenerated).
Proof.
  split; [vm_compute; reflexivity |].
  apply (existsb_Exists (λ d, match iter_records d "s1" "network" with Ok [] => true | _ => false end)).
  - intros d Hd. by destruct (iter_records d "s1" "network") as [[|]|].
  - vm_compute. reflexivity.
Qed.

(** A session whose name is another's with a dash and more: running the shorter one
    again after a failure removes the temporary directory the longer one is writing. *)
Definition writing_ab : World := mk_world
  (mk_disk {[ ("network", tmp_prefix "a-b" +:+ "3f2a") := [("part-00000.jsonl", [])] ]}
     {[ "a" := failed_state (Exn OSError "disk") (started_state engine5 None) ]} []) [] 0 ∅.

Theorem cleanup_takes_longer_names :
  exists_dir ("network", tmp_prefix "a-b" +:+ "3f2a") writing_ab = true ∧
  let w' := (run_session (λ _, false) suffix engine5 "a" blank_rows blank_telemetry writing_ab).2 in
  exists_dir ("network", tmp_prefix "a-b" +:+ "3f2a") w' = false ∧
  (ss_status <$> dk_states (w_disk w') !! "a") = Some "completed".
Proof. split; [vm_compute; reflexivity |]. cbv zeta. split; vm_compute; reflexivity. Qed.

(** Beyond 100000 parts the order of the names is not that of the parts. *)
Theorem parts_out_of_order :
  sort_strings [part_name 99998; part_name 99999; part_name 100000]
  = [part_name 100000; part_name 99998; part_name 99999].
Proof. vm_compute. reflexivity. Qed.
