(* ===== verification/SimGateway.v ===== *)
(** * Finding gateway and device-only SREP

    Models [agents/finding_gateway.py], the one way findings reach the device
    ABM, and [srep/device_srep.py], the report over the ABM's states. *)

From S2P Require Import Prelude PyString Json SimDevices.

(** ** Gateway *)
Record Rejection := mk_rejection_note {
  rj_reason : string;
  rj_finding_type : string;
  rj_entity_id : string;
}.

Record GatewayStats := mk_gateway_stats {
  gs_submitted : Z;
  gs_accepted_network : Z;
  gs_accepted_behavior : Z;
  gs_rejected_unknown_entity : Z;
  gs_rejected_schema : Z;
  gs_rejected_timestamp : Z;
  gs_recent_rejections : list Rejection;
}.

(** What a caller may submit: a finding, or an object of another class with the
    attributes the gateway looks at. *)
Inductive Submission :=
  | SubNetwork (f : NetworkFinding)
  | SubBehavior (f : BehaviorFinding)
  | SubOther (finding_type timestamp_utc entity_id : option string).

Definition sub_type (s : Submission) : option string :=
  match s with
  | SubNetwork _ => Some NETWORK_FINDING_TYPE
  | SubBehavior _ => Some BEHAVIOR_FINDING_TYPE
  | SubOther t _ _ => t
  end.
Definition sub_timestamp (s : Submission) : option string :=
  match s with
  | SubNetwork f => Some (nf_timestamp_utc f)
  | SubBehavior f => Some (bf_timestamp_utc f)
  | SubOther _ t _ => t
  end.
Definition sub_entity (s : Submission) : string :=
  match s with
  | SubNetwork f => nf_entity_id f
  | SubBehavior f => bf_entity_id f
  | SubOther _ _ e => default "?" e
  end.

Record AcceptedEntry := mk_accepted {
  ac_finding_type : string;
  ac_entity_id : string;
  ac_window_id : Z;
  ac_timestamp_utc : string;
  ac_provenance : list (string * json);
  ac_source_model : string;
}.

(** Subscribers are callbacks; one that raises stops the submission there. *)
Record FindingGateway := mk_gateway {
  gw_abm : DeviceABM;
  gw_stats : GatewayStats;
  gw_history_limit : nat;
  gw_accepted_log : list AcceptedEntry;
  gw_subscribers : list (Submission → result unit);
}.

Definition new_gateway (abm : DeviceABM) (history_limit : nat) : FindingGateway :=
  mk_gateway abm (mk_gateway_stats 0 0 0 0 0 0 []) history_limit [] [].

Definition RECENT_REJECTIONS : nat := 64.

Definition on_stats (f : GatewayStats → GatewayStats) : M FindingGateway unit :=
  modify (λ g, mk_gateway (gw_abm g) (f (gw_stats g)) (gw_history_limit g) (gw_accepted_log g)
    (gw_subscribers g)).
Definition on_abm {A} (f : M DeviceABM A) : M FindingGateway A := λ g,
  let '(out, abm) := f (gw_abm g) in
  (out, mk_gateway abm (gw_stats g) (gw_history_limit g) (gw_accepted_log g) (gw_subscribers g)).

Definition subscribe (callback : Submission → result unit) : M FindingGateway unit :=
  modify (λ g, mk_gateway (gw_abm g) (gw_stats g) (gw_history_limit g) (gw_accepted_log g)
    (gw_subscribers g ++ [callback])).

Definition count_stats (submitted network behavior unknown schema timestamp : Z)
    (note : option Rejection) (s : GatewayStats) : GatewayStats :=
  mk_gateway_stats (gs_submitted s + submitted) (gs_accepted_network s + network)
    (gs_accepted_behavior s + behavior) (gs_rejected_unknown_entity s + unknown)
    (gs_rejected_schema s + schema) (gs_rejected_timestamp s + timestamp)
    (match note with
     | Some r => push_bounded RECENT_REJECTIONS r (gs_recent_rejections s)
     | None => gs_recent_rejections s
     end).

(** [_reject]: [str(None)] is ["None"]. *)
Definition gateway_reject (kind : string) (ftype : option string) (entity : string)
    : M FindingGateway unit :=
  on_stats (count_stats 0 0 0 0 1 0 (Some (mk_rejection_note kind (default "None" ftype) entity))).

Definition log_accepted (entry : AcceptedEntry) : M FindingGateway unit :=
  modify (λ g, mk_gateway (gw_abm g) (gw_stats g) (gw_history_limit g)
    (push_bounded (gw_history_limit g) entry (gw_accepted_log g)) (gw_subscribers g)).

Fixpoint call_subscribers (s : Submission) (l : list (Submission → result unit)) : result unit :=
  match l with
  | [] => Ok tt
  | cb :: l => match cb s with Ok _ => call_subscribers s l | Raise e => Raise e end
  end.

Definition notify_subscribers (s : Submission) : M FindingGateway unit := λ g,
  (call_subscribers s (gw_subscribers g), g).

Section gateway.
Context `{PyRuntime}.

Definition timestamp_ok (s : Submission) : bool :=
  match sub_timestamp s with
  | Some ts => is_ok (validate_timestamp ts)
  | None => false
  end.

Definition accepted_entry (s : Submission) : AcceptedEntry :=
  match s with
  | SubNetwork f => mk_accepted NETWORK_FINDING_TYPE (nf_entity_id f) (nf_window_id f)
      (nf_timestamp_utc f) (nf_provenance f) (nf_source_model f)
  | SubBehavior f => mk_accepted BEHAVIOR_FINDING_TYPE (bf_entity_id f) (bf_window_id f)
      (bf_timestamp_utc f) (bf_provenance f) (bf_source_model f)
  | SubOther _ _ _ => mk_accepted "" "" 0 "" [] ""
  end.

(** Evidence of a registered finding, and its counter. *)
Definition apply_evidence (s : Submission) : M FindingGateway unit :=
  match s with
  | SubNetwork f => _ ← on_abm (apply_network_evidence f); on_stats (count_stats 0 1 0 0 0 0 None)
  | SubBehavior f => _ ← on_abm (apply_behavior_evidence f); on_stats (count_stats 0 0 1 0 0 0 None)
  | SubOther _ _ _ => mret tt
  end.

Definition gateway_submit (s : Submission) : M FindingGateway bool :=
  _ ← on_stats (count_stats 1 0 0 0 0 0 None);
  let ftype := sub_type s in
  if negb (bool_decide (ftype = Some NETWORK_FINDING_TYPE)
           || bool_decide (ftype = Some BEHAVIOR_FINDING_TYPE))
  then _ ← gateway_reject "schema" ftype "?"; mret false
  else if negb (timestamp_ok s) then
    _ ← on_stats (count_stats 0 0 0 0 0 1
          (Some (mk_rejection_note "invalid_timestamp" (default "None" ftype) (sub_entity s))));
    mret false
  else match s with
  | SubOther _ _ _ => _ ← on_stats (count_stats 0 0 0 0 1 0 None); mret false
  | _ =>
      state ← gets (λ g, abm_resolve (sub_entity s) (gw_abm g));
      match state with
      | None =>
          _ ← on_stats (count_stats 0 0 0 1 0 0
                (Some (mk_rejection_note "unknown_entity" (default "None" ftype) (sub_entity s))));
          mret false
      | Some _ =>
          _ ← apply_evidence s;
          _ ← log_accepted (accepted_entry s);
          _ ← notify_subscribers s;
          mret true
      end
  end.

(** ** SREP over the device graph *)
Record SrepNode := mk_srep_node {
  sn_node_id : string;
  sn_role : string;
  sn_is_protected_asset : bool;
  sn_is_attacker : bool;
  sn_network_risk : option f64;
  sn_behavior_risk : option f64;
  sn_propagated_risk : f64;
  sn_systemic_risk : f64;
  sn_criticality : f64;
  sn_defended_contribution : f64;
  sn_compromised : bool;
}.

Record SrepReport := mk_srep_report {
  sr_generated_at : string;
  sr_mode : string;
  sr_parameters : SrepParams;
  sr_defended_blast_radius : f64;
  sr_compromised_protected_assets : list string;
  sr_top_risky_protected_nodes : list SrepNode;
  sr_observed_edges : Z;
  sr_observed_nodes : Z;
  sr_device_risk_nodes : list SrepNode;
  sr_last_window_id : option Z;
  sr_steps_replayed : Z;
}.

Definition srep_node (p : SrepParams) (name : string) (st : DeviceState) : SrepNode :=
  let crit := criticality p (ds_role st) in
  mk_srep_node name (ds_role st) (ds_is_protected_asset st) (ds_is_attacker st)
    (ds_network_risk st) (ds_behavior_risk st) (float_round (ds_propagated_risk st) 6)
    (float_round (ds_systemic_risk st) 6) crit
    (if ds_is_protected_asset st then float_round (f_mul (ds_systemic_risk st) crit) 6 else f_zero)
    (ds_compromised st).

(** The sort key [(-systemic_risk, node_id)]. *)
Definition srep_leb (a b : SrepNode) : bool :=
  let x := f_opp (sn_systemic_risk a) in
  let y := f_opp (sn_systemic_risk b) in
  if f_eqb x y then str_leb (sn_node_id a) (sn_node_id b) else negb (f_ltb y x).

(** [comm] is the number of edges and nodes of the communication graph, [None]
    when there is none; any agent trust graph is refused. *)
Definition srep_run (generated_at : string) (agent_trust_graph : bool) (comm : option (Z * Z))
    (params : SrepParams) (a : DeviceABM) : result SrepReport :=
  _ ← check (negb agent_trust_graph) (OtherError "TrustGraphUnsupportedError")
        "An agent-trust graph was supplied, but genuine trust validation and fusion are not implemented";
  let nodes := map (λ ns, srep_node params ns.1 ns.2) (abm_states a) in
  let defended := isort srep_leb (filter (λ n, Is_true (sn_is_protected_asset n)) nodes) in
  Ok (mk_srep_report generated_at "DEVICE_ONLY" params (defended_blast_radius a)
        (sort_strings (map sn_node_id
           (filter (λ n, Is_true (sn_compromised n && sn_is_protected_asset n)) nodes)))
        (take 10 defended) (default 0 (fst <$> comm)) (default 0 (snd <$> comm)) nodes
        (abm_current_window_id a) (abm_steps a)).
End gateway.
