(* ===== verification/SimFacts.v ===== *)
(** * Invariant of the device ABM

    Which evidence a device can carry, that every operation keeps the invariant,
    and that the propagation search ends: each protected device enters its queue
    at most once. *)

From S2P Require Import Prelude PyString Json SimDevices SimGateway.

(** ** States *)
Record state_ok (k : string) (s : DeviceState) : Prop := {
  st_key : ds_node_id s = k;
  st_protected : ds_is_protected_asset s = negb (bool_decide (ds_role s ∈ ["attacker"; "cloud"]));
  st_attacker : ds_is_attacker s = bool_decide (ds_role s = "attacker");
  st_supported : ds_behavior_supported s = bool_decide (ds_role s = "sensor");
  st_behavior : ds_behavior_supported s = false → ds_behavior_risk s = None;
  st_observed : ds_network_observed s = bool_decide (is_Some (ds_network_risk s)) ∧
    ds_behavior_observed s = bool_decide (is_Some (ds_behavior_risk s));
  st_propagated : ds_is_protected_asset s = false → ds_propagated_risk s = f_zero;
  st_compromised : ds_compromised s = true → ds_is_protected_asset s = true;
}.

Record abm_ok (a : DeviceABM) : Prop := {
  ao_nodup : NoDup (abm_states a).*1;
  ao_states : Forall (λ ns, state_ok ns.1 ns.2) (abm_states a);
  ao_history : (length (abm_history a) ≤ abm_history_limit a)%nat;
}.

Lemma abm_ok_get a k s : abm_ok a → od_get k (abm_states a) = Some s → state_ok k s.
Proof.
  intros [_ Hs _] Hg. rewrite Forall_forall in Hs. by apply (Hs (k, s)), od_get_Some_elem.
Qed.

Lemma initial_state_ok inv rec : state_ok (dv_device_name rec) (initial_state inv rec).
Proof. by constructor. Qed.

Lemma new_abm_ok inv params limit : abm_ok (new_abm inv params limit).
Proof.
  constructor; cbn; [| | lia].
  - assert (Hg : ∀ d, NoDup d.*1 → NoDup (foldl (λ d rec, od_set (dv_device_name rec)
      (initial_state inv rec) d) d (iv_records inv)).*1); [|apply Hg, NoDup_nil_2].
    induction (iv_records inv) as [|rec l IH]; intros d Hd; cbn; [done |]. by apply IH, od_set_nodup.
  - assert (Hg : ∀ d, Forall (λ ns, state_ok ns.1 ns.2) d → Forall (λ ns, state_ok ns.1 ns.2)
      (foldl (λ d rec, od_set (dv_device_name rec) (initial_state inv rec) d) d (iv_records inv)));
      [|by apply Hg].
    induction (iv_records inv) as [|rec l IH]; intros d Hd; cbn; [done |].
    apply IH, (od_set_Forall state_ok); [apply initial_state_ok | done].
Qed.

(** One state replaced by a good one. *)
Lemma set_state_ok a k s w :
  abm_ok a → state_ok k s → abm_ok (set_window w (set_states (od_set k s (abm_states a)) a)).
Proof.
  intros [Hnd Hs Hh] Hk. constructor; [by apply od_set_nodup | by apply (od_set_Forall state_ok) | done].
Qed.

Lemma apply_network_evidence_ok f a out a' :
  abm_ok a → apply_network_evidence f a = (out, a') → abm_ok a'.
Proof.
  intros Ha. unfold apply_network_evidence.
  destruct (od_get (nf_entity_id f) (abm_states a)) as [s|] eqn:Hg; [|by intros [= <- <-]].
  intros [= <- <-]. apply set_state_ok; [done |].
  destruct (abm_ok_get _ _ _ Ha Hg). constructor; try done; cbn.
  - split; [done | apply st_observed0].
  - rewrite orb_true_iff, andb_true_iff. intros [?|[? _]]; auto.
Qed.

Lemma apply_behavior_evidence_ok f a out a' :
  abm_ok a → apply_behavior_evidence f a = (out, a') → abm_ok a'.
Proof.
  intros Ha. unfold apply_behavior_evidence.
  destruct (od_get (bf_entity_id f) (abm_states a)) as [s|] eqn:Hg; [|by intros [= <- <-]].
  destruct (ds_behavior_supported s) eqn:Hsup; cbn [negb]; [|by intros [= <- <-]].
  intros [= <- <-]. apply set_state_ok; [done |].
  destruct (abm_ok_get _ _ _ Ha Hg). constructor; try done; cbn; [congruence |].
  split; [apply st_observed0 | done].
Qed.

Lemma record_step_ok `{PyRuntime} at_ a out a' :
  abm_ok a → record_step at_ a = (out, a') → abm_ok a'.
Proof.
  intros [Hnd Hs Hh] [= <- <-]. constructor; try done. apply push_bounded_length.
Qed.

Section propagation.
Context `{PyRuntime}.
Variable neighbors : string → result (list string).

(** ** The search ends *)
Definition unvisited (states : list (string * DeviceState)) (visited : gset string) : nat :=
  length (filter (λ k, k ∉ visited) states.*1).

Lemma unvisited_add states visited n :
  n ∈ states.*1 → n ∉ visited →
  (S (unvisited states ({[n]} ∪ visited)) ≤ unvisited states visited)%nat.
Proof.
  unfold unvisited. intros Hin Hn. induction (states.*1) as [|k ks IH]; [set_solver |].
  assert (Hmono : (length (filter (λ k, k ∉ {[n]} ∪ visited) ks)
    ≤ length (filter (λ k, k ∉ visited) ks))%nat).
  { clear. induction ks as [|x ks IH]; [done |]. rewrite !filter_cons.
    repeat case_decide; cbn; try lia. set_solver. }
  rewrite !filter_cons. destruct (decide (k = n)) as [->|Hkn].
  - rewrite decide_False, decide_True by set_solver. cbn. lia.
  - assert (n ∈ ks) by set_solver. specialize (IH H0).
    destruct (decide (k ∈ visited)).
    + rewrite !decide_False by set_solver. done.
    + rewrite !decide_True by set_solver. cbn. lia.
Qed.

Definition spread_measure (states : list (string * DeviceState)) (s : Spread) : nat :=
  (length (sd_frontier s) + unvisited states (sd_visited s))%nat.

Lemma push_neighbor_measure p states r hops s n :
  (spread_measure states (push_neighbor p states r hops s n) ≤ spread_measure states s)%nat.
Proof.
  unfold push_neighbor. case_bool_decide as Hv; [done |].
  destruct (od_get n states) as [st|] eqn:Hg; [|done].
  destruct (negb (ds_is_protected_asset st)); [done |]. destruct (f_leb _ _); [done |].
  unfold spread_measure. cbn [sd_frontier sd_visited]. rewrite length_app. cbn [length].
  pose proof (unvisited_add states (sd_visited s) n) as Hu.
  apply od_get_Some_elem in Hg. apply (list_elem_of_fmap_2 fst) in Hg. cbn in Hg.
  specialize (Hu Hg Hv). lia.
Qed.

Lemma push_all_measure p states r hops ns s :
  (spread_measure states (foldl (push_neighbor p states r hops) s ns) ≤ spread_measure states s)%nat.
Proof.
  revert s. induction ns as [|n ns IH]; intros s; cbn [foldl]; [done |].
  etrans; [apply IH | apply push_neighbor_measure].
Qed.

(** ** What the search reaches: [walk src n k], a path of [k] edges from [src]
    through protected devices. *)
Inductive walk (states : list (string * DeviceState)) (src : string) : string → Z → Prop :=
  | walk_here : walk states src src 0
  | walk_step n l m k st :
      walk states src n k → neighbors n = Ok l → m ∈ l → od_get m states = Some st →
      ds_is_protected_asset st = true → walk states src m (k + 1).

(** Every queued device is on a walk, and every risk was there before or is at
    the end of one. *)
Record spread_ok (p : SrepParams) (states : list (string * DeviceState)) (src : string)
    (before : gmap string f64) (s : Spread) : Prop := {
  so_frontier : Forall (λ x, walk states src x.1.1 x.2 ∧ x.2 ≤ Z.max 0 (sp_max_hops p))
    (sd_frontier s);
  so_risk : ∀ n x, sd_propagated s !! n = Some x → before !! n = Some x ∨
    ∃ k st, walk states src n k ∧ 0 < k ≤ sp_max_hops p ∧
      od_get n states = Some st ∧ ds_is_protected_asset st = true;
}.

Lemma walk_length states src n k : walk states src n k → 0 ≤ k.
Proof. induction 1; lia. Qed.

Lemma push_neighbor_ok p states src before s n l m r hops :
  spread_ok p states src before s → walk states src n hops → hops < sp_max_hops p →
  neighbors n = Ok l → m ∈ l → spread_ok p states src before (push_neighbor p states r hops s m).
Proof.
  intros [Hf Hp] Hw Hh Hn Hin. unfold push_neighbor. case_bool_decide; [by constructor |].
  destruct (od_get m states) as [st|] eqn:Hg; [|by constructor].
  destruct (ds_is_protected_asset st) eqn:Hprot; cbn [negb]; [|by constructor].
  destruct (f_leb _ _); [by constructor |].
  assert (Hw' : walk states src m (hops + 1)) by (by eapply walk_step).
  pose proof (walk_length _ _ _ _ Hw). constructor; cbn [sd_frontier sd_propagated].
  - apply Forall_app. split; [done |]. repeat constructor; cbn; [done | lia].
  - intros n' x. destruct (f_gtb _ _); [|apply Hp].
    destruct (decide (n' = m)) as [->|Hne].
    + intros _. right. exists (hops + 1), st. split_and!; [done | lia | lia | done | done].
    + rewrite lookup_insert_ne by done. apply Hp.
Qed.

Lemma push_all_ok p states src before s n l ns r hops :
  spread_ok p states src before s → walk states src n hops → hops < sp_max_hops p →
  neighbors n = Ok l → (∀ m, m ∈ ns → m ∈ l) →
  spread_ok p states src before (foldl (push_neighbor p states r hops) s ns).
Proof.
  intros Hs Hw Hh Hn Hsub. revert s Hs.
  induction ns as [|m ns IH]; intros s Hs; cbn [foldl]; [done |].
  apply IH; [set_solver |]. eapply push_neighbor_ok; [done | done | done | done | set_solver].
Qed.

Lemma walk_known states src n k : src ∈ states.*1 → walk states src n k → n ∈ states.*1.
Proof.
  intros Hsrc [|n0 l m k0 st _ _ _ Hg _]; [done |].
  apply od_get_Some_elem in Hg. by apply (list_elem_of_fmap_2 fst) in Hg.
Qed.

(** Enough fuel empties the queue. *)
Lemma spread_loop_ends p states src before fuel s :
  src ∈ states.*1 → (∀ n, n ∈ states.*1 → is_ok (neighbors n) = true) →
  spread_ok p states src before s → (spread_measure states s < fuel)%nat →
  ∃ s', spread_loop neighbors fuel p states s = Ok s' ∧ sd_frontier s' = [] ∧
    spread_ok p states src before s'.
Proof.
  intros Hsrc Hn. revert s. induction fuel as [|fuel IH]; intros s Hs Hm; [lia |]. cbn [spread_loop].
  destruct (sd_frontier s) as [|[[node r] hops] rest] eqn:Hf; [by exists s |].
  pose proof (so_frontier _ _ _ _ _ Hs) as Hfr. rewrite Hf in Hfr. apply Forall_cons in Hfr as [[Hw Hk] Hrest].
  cbn [fst snd] in Hw, Hk. set (s1 := mk_spread rest (sd_visited s) (sd_propagated s)).
  assert (Hs1 : spread_ok p states src before s1) by (constructor; [done | apply Hs]).
  assert (Hm1 : (S (spread_measure states s1) ≤ spread_measure states s)%nat).
  { unfold spread_measure, s1. rewrite Hf. cbn. lia. }
  destruct (Z.leb_spec (sp_max_hops p) hops); [apply IH; [done | lia] |].
  specialize (Hn node (walk_known _ _ _ _ Hsrc Hw)). destruct (neighbors node) as [ns|e] eqn:Hns; [|done].
  apply IH; [by eapply push_all_ok |].
  pose proof (push_all_measure p states r hops ns s1). lia.
Qed.

Lemma first_search_ends p states src risk before :
  src ∈ states.*1 → (∀ n, n ∈ states.*1 → is_ok (neighbors n) = true) →
  ∃ s', spread_loop neighbors (spread_fuel states) p states
      (mk_spread [(src, risk, 0)] {[src]} before) = Ok s' ∧ sd_frontier s' = [] ∧
    spread_ok p states src before s'.
Proof.
  intros Hsrc Hn. apply spread_loop_ends; [done | done | |].
  - constructor; cbn; [|by left]. repeat constructor; cbn; lia.
  - unfold spread_measure, spread_fuel, unvisited. cbn [sd_frontier sd_visited length].
    pose proof (length_filter (λ k, k ∉ ({[src]} : gset string)) states.*1).
    rewrite length_fmap in *. lia.
Qed.

(** All searches, one after the other. *)
Lemma spread_all_ends p states sources before :
  (∀ n, n ∈ states.*1 → is_ok (neighbors n) = true) → (∀ s, s ∈ sources.*1 → s ∈ states.*1) →
  ∃ result, spread_all neighbors p states sources before = Ok result ∧
    ∀ n x, result !! n = Some x → before !! n = Some x ∨
      ∃ src k st, src ∈ sources.*1 ∧ walk states src n k ∧ 0 < k ≤ sp_max_hops p ∧
        od_get n states = Some st ∧ ds_is_protected_asset st = true.
Proof.
  intros Hn. revert before. induction sources as [|[src risk] sources IH]; intros before Hsub; cbn [spread_all].
  { exists before. split; [done |]. by left. }
  destruct (first_search_ends p states src risk before) as (s' & E & _ & Hs'); [set_solver | done |].
  rewrite E. cbn [mbind result_bind]. destruct (IH (sd_propagated s')) as (res & Er & Hr); [set_solver |].
  exists res. split; [exact Er |]. intros n x Hx. destruct (Hr n x Hx) as [Hb|(src' & k & st & ? & ?)].
  - destruct (so_risk _ _ _ _ _ Hs' n x Hb) as [?|(k & st & ?)]; [by left |].
    right. exists src, k, st. split; [set_solver | done].
  - right. exists src', k, st. split; [set_solver | done].
Qed.

(** ** Propagation *)
Lemma sources_known states s : s ∈ (propagation_sources states).*1 → s ∈ states.*1.
Proof.
  intros ([s' d] & -> & Hin)%list_elem_of_fmap. unfold propagation_sources in Hin.
  apply list_elem_of_omap in Hin as ([n st] & Hin & Hs). cbn in Hs.
  destruct (negb _); [done |]. destruct (f_gtb _ _); [|done]. injection Hs as <- _.
  by apply (list_elem_of_fmap_2 fst) in Hin.
Qed.

Lemma source_protected states s d :
  (s, d) ∈ propagation_sources states →
  ∃ st, (s, st) ∈ states ∧ ds_is_protected_asset st = true ∧ f_gtb d f_zero = true ∧
    d = f_max (or_zero (ds_network_risk st)) (default f_zero (ds_behavior_risk st)).
Proof.
  unfold propagation_sources. intros ([n st] & Hin & Hs)%list_elem_of_omap. cbn in Hs.
  destruct (ds_is_protected_asset st) eqn:Hp; cbn in Hs; [|done].
  destruct (f_gtb _ _) eqn:Hg; [|done]. injection Hs as <- <-. by exists st.
Qed.

Lemma refresh_states_get propagated k states :
  od_get k (map (refresh_risk propagated) states) =
  (λ s, (refresh_risk propagated (k, s)).2) <$> od_get k states.
Proof.
  induction states as [|[k' s] states IH]; cbn; [done |]. by case_decide; subst.
Qed.

Lemma refresh_states_keys propagated states :
  (map (refresh_risk propagated) states).*1 = states.*1.
Proof. induction states as [|[k s] states IH]; cbn; [done |]. by f_equal. Qed.

Lemma abm_propagate_run a :
  abm_ok a → (∀ n, n ∈ (abm_states a).*1 → is_ok (neighbors n) = true) →
  ∃ propagated, abm_propagate neighbors a =
      (Ok tt, set_states (map (refresh_risk propagated) (abm_states a)) a) ∧
    ∀ n x, propagated !! n = Some x →
      ∃ src d k st, (src, d) ∈ propagation_sources (abm_states a) ∧
        walk (abm_states a) src n k ∧ 0 < k ≤ sp_max_hops (abm_params a) ∧
        od_get n (abm_states a) = Some st ∧ ds_is_protected_asset st = true.
Proof.
  intros Ha Hn. unfold abm_propagate.
  destruct (spread_all_ends (abm_params a) (abm_states a) (propagation_sources (abm_states a)) ∅ Hn)
    as (res & E & Hr); [apply sources_known |].
  rewrite E. exists res. split; [done |]. intros n x Hx.
  destruct (Hr n x Hx) as [?|(src & k & st & Hsrc & Hw)]; [set_solver |].
  apply list_elem_of_fmap in Hsrc as ([src' d] & -> & Hin). by exists src', d, k, st.
Qed.

Lemma abm_propagate_ok a out a' :
  abm_ok a → (∀ n, n ∈ (abm_states a).*1 → is_ok (neighbors n) = true) →
  abm_propagate neighbors a = (out, a') → abm_ok a'.
Proof.
  intros Ha Hn Hrun. destruct (abm_propagate_run a Ha Hn) as (prop & E & Hp).
  rewrite E in Hrun. injection Hrun as <- <-. destruct Ha as [Hnd Hs Hh]. constructor; [| | done].
  - cbn. by rewrite refresh_states_keys.
  - cbn. apply Forall_fmap. rewrite Forall_forall in Hs |- *. intros [k s] Hin.
    destruct (Hs _ Hin). constructor; try done. cbn in *. intros Hprot.
    destruct (prop !! k) as [x|] eqn:Hx; [|done]. exfalso.
    destruct (Hp k x Hx) as (_ & _ & _ & st & _ & _ & _ & Hg & Hprot').
    apply od_elem_get in Hin; [|done]. congruence.
Qed.
End propagation.

(** ** The gateway *)
Definition total_rejected (s : GatewayStats) : Z :=
  gs_rejected_unknown_entity s + gs_rejected_schema s + gs_rejected_timestamp s.
Definition total_accepted (s : GatewayStats) : Z := gs_accepted_network s + gs_accepted_behavior s.

(** Every submission that returned is counted once. *)
Definition balanced (s : GatewayStats) : Prop :=
  gs_submitted s = total_accepted s + total_rejected s.

(** The evidence a registered finding brings, on the ABM. *)
Definition evidence_of (s : Submission) : M DeviceABM unit :=
  match s with
  | SubNetwork f => apply_network_evidence f
  | SubBehavior f => apply_behavior_evidence f
  | SubOther _ _ _ => mret tt
  end.

Section gateway.
Context `{PyRuntime}.

Lemma apply_evidence_run s g :
  apply_evidence s g =
    match evidence_of s (gw_abm g) with
    | (Ok _, abm) => (Ok tt, mk_gateway abm
        (match s with
         | SubNetwork _ => count_stats 0 1 0 0 0 0 None (gw_stats g)
         | SubBehavior _ => count_stats 0 0 1 0 0 0 None (gw_stats g)
         | SubOther _ _ _ => gw_stats g
         end) (gw_history_limit g) (gw_accepted_log g) (gw_subscribers g))
    | (Raise e, abm) => (Raise e, mk_gateway abm (gw_stats g) (gw_history_limit g)
        (gw_accepted_log g) (gw_subscribers g))
    end.
Proof.
  destruct s as [f|f|]; cbn [apply_evidence evidence_of]; [| |by destruct g];
    unfold mbind, M_bind, on_abm, on_stats, modify;
    [destruct (apply_network_evidence f (gw_abm g)) as [[[]|e] abm]
    |destruct (apply_behavior_evidence f (gw_abm g)) as [[[]|e] abm]]; done.
Qed.

Lemma call_subscribers_spec s l :
  match call_subscribers s l with
  | Ok _ => ∀ cb, cb ∈ l → is_ok (cb s) = true
  | Raise e => ∃ cb, cb ∈ l ∧ cb s = Raise e
  end.
Proof.
  induction l as [|cb l IH]; cbn; [set_solver |]. destruct (cb s) as [u|e] eqn:Hc.
  - destruct (call_subscribers s l).
    + intros cb' [->|Hin]%elem_of_cons; [by rewrite Hc | by apply IH].
    + destruct IH as (cb' & ? & ?). exists cb'. set_solver.
  - exists cb. set_solver.
Qed.

(** What the three answers of [submit] mean. *)
Lemma gateway_submit_cases s g out g' :
  gateway_submit s g = (out, g') →
  match out with
  | Ok false => gw_abm g' = gw_abm g ∧ gw_accepted_log g' = gw_accepted_log g ∧
      gs_submitted (gw_stats g') = gs_submitted (gw_stats g) + 1 ∧
      total_rejected (gw_stats g') = total_rejected (gw_stats g) + 1 ∧
      total_accepted (gw_stats g') = total_accepted (gw_stats g)
  | Ok true => timestamp_ok s = true ∧ is_Some (abm_resolve (sub_entity s) (gw_abm g)) ∧
      evidence_of s (gw_abm g) = (Ok tt, gw_abm g') ∧
      gw_accepted_log g' = push_bounded (gw_history_limit g) (accepted_entry s) (gw_accepted_log g) ∧
      gs_submitted (gw_stats g') = gs_submitted (gw_stats g) + 1 ∧
      total_accepted (gw_stats g') = total_accepted (gw_stats g) + 1 ∧
      total_rejected (gw_stats g') = total_rejected (gw_stats g)
  | Raise e => (evidence_of s (gw_abm g)).1 = Raise e ∧ gw_accepted_log g' = gw_accepted_log g ∨
      evidence_of s (gw_abm g) = (Ok tt, gw_abm g') ∧
      (∃ cb, cb ∈ gw_subscribers g ∧ cb s = Raise e)
  end.
Proof.
  intros Hrun. unfold gateway_submit in Hrun.
  unfold mbind at 1, M_bind, on_stats at 1, modify in Hrun. cbn zeta in Hrun.
  destruct (negb (_ || _)).
  { unfold gateway_reject, mbind, M_bind, on_stats, modify in Hrun. injection Hrun as <- <-.
    unfold total_rejected, total_accepted. cbn. split_and!; [done | done | lia | lia | lia]. }
  destruct (timestamp_ok s) eqn:Hts; cbn [negb] in Hrun.
  2:{ unfold mbind, M_bind, on_stats, modify in Hrun. injection Hrun as <- <-.
      unfold total_rejected, total_accepted. cbn. split_and!; [done | done | lia | lia | lia]. }
  assert (Hgo : match s with SubOther _ _ _ => False | _ => True end ∧
    (state ← gets (λ g, abm_resolve (sub_entity s) (gw_abm g));
     match state with
     | None =>
        _ ← on_stats (count_stats 0 0 0 1 0 0
              (Some (mk_rejection_note "unknown_entity" (default "None" (sub_type s)) (sub_entity s))));
        mret false
     | Some _ =>
        _ ← apply_evidence s; _ ← log_accepted (accepted_entry s); _ ← notify_subscribers s; mret true
     end) (mk_gateway (gw_abm g) (count_stats 1 0 0 0 0 0 None (gw_stats g)) (gw_history_limit g)
             (gw_accepted_log g) (gw_subscribers g)) = (out, g') ∨
    (out = Ok false ∧ g' = mk_gateway (gw_abm g)
       (count_stats 0 0 0 0 1 0 None (count_stats 1 0 0 0 0 0 None (gw_stats g))) (gw_history_limit g)
       (gw_accepted_log g) (gw_subscribers g))).
  { destruct s; [left; by split | left; by split |].
    unfold mbind, M_bind, on_stats, modify in Hrun. injection Hrun as <- <-. right. done. }
  destruct Hgo as [[Hreg Hgo]|[-> ->]].
  2:{ unfold total_rejected, total_accepted. cbn. split_and!; [done | done | lia | lia | lia]. }
  clear Hrun. unfold mbind at 1, M_bind, gets in Hgo. cbn [gw_abm] in Hgo.
  destruct (abm_resolve (sub_entity s) (gw_abm g)) as [st|] eqn:Hres.
  2:{ unfold mbind, M_bind, on_stats, modify in Hgo. injection Hgo as <- <-.
      unfold total_rejected, total_accepted. cbn. split_and!; [done | done | lia | lia | lia]. }
  unfold mbind at 1, M_bind in Hgo. rewrite apply_evidence_run in Hgo. cbn [gw_abm] in Hgo.
  destruct (evidence_of s (gw_abm g)) as [[[]|e] abm] eqn:Hev; [|by injection Hgo as <- <-; left].
  unfold mbind, M_bind, log_accepted, modify, notify_subscribers in Hgo.
  cbn [gw_abm gw_stats gw_history_limit gw_accepted_log gw_subscribers] in Hgo.
  pose proof (call_subscribers_spec s (gw_subscribers g)) as Hcb.
  destruct (call_subscribers s (gw_subscribers g)) as [u|e]; injection Hgo as <- <-.
  - unfold total_rejected, total_accepted. cbn [gw_stats gw_abm gw_accepted_log].
    split_and!; [done | done | done | done |..]; destruct s; cbn; try lia; done.
  - right. done.
Qed.

(** The device model afterwards: as it was, or with the evidence. *)
Lemma gateway_submit_abm s g out g' :
  gateway_submit s g = (out, g') →
  gw_abm g' = gw_abm g ∨ gw_abm g' = (evidence_of s (gw_abm g)).2.
Proof.
  intros Hrun. unfold gateway_submit, gateway_reject, mbind, M_bind, on_stats, modify, gets in Hrun.
  destruct (negb _); [injection Hrun as _ <-; by left |].
  destruct (negb _); [injection Hrun as _ <-; by left |].
  assert (Hgo : ∀ g1, gw_abm g1 = gw_abm g → ∀ o g2, apply_evidence s g1 = (o, g2) →
    gw_abm g2 = (evidence_of s (gw_abm g)).2).
  { intros g1 Hg1 o g2. rewrite apply_evidence_run, Hg1.
    destruct (evidence_of s (gw_abm g)) as [[] abm]; by intros [= _ <-]. }
  destruct s as [f|f|]; [| |injection Hrun as _ <-; by left];
    (destruct (abm_resolve _ _); [|injection Hrun as _ <-; by left]); right;
    (destruct (apply_evidence _ _) as [[u|e] g2] eqn:Hev; apply Hgo in Hev as <-; [| done |
       by injection Hrun as _ <- | done]).
  all: unfold log_accepted, modify, notify_subscribers in Hrun; cbn [gw_subscribers] in Hrun.
  all: match type of Hrun with context [call_subscribers ?x ?l] => destruct (call_subscribers x l) end.
  all: by injection Hrun as _ <-.
Qed.

Lemma evidence_of_ok s a out a' : abm_ok a → evidence_of s a = (out, a') → abm_ok a'.
Proof.
  destruct s; cbn; intros Ha Hrun; [by eapply apply_network_evidence_ok
    | by eapply apply_behavior_evidence_ok | by injection Hrun as <- <-].
Qed.
End gateway.
