(* ===== verification/AgContracts.v ===== *)
(** * Agentic workflow contracts

    Models [agentic_workflow/contracts.py]: the identities, enumerations and
    frozen records the five specialists exchange, each with the dictionary its
    [model_dump()] gives and the validation its constructor runs.  Fields whose
    type has a single value (schema versions, [Literal[False]] flags, the
    controller mode) are printed by the dumps and have no record field. *)

From S2P Require Import Prelude PyString Json Firewall.

(** ** Identities and enumerations *)
Inductive AgentId :=
  | network_anomaly_detector
  | iot_behavioral_profiler
  | threat_intelligence_correlator
  | risk_propagation_analyst
  | trust_access_controller.

#[export] Instance agent_id_eq_dec : EqDecision AgentId.
Proof. solve_decision. Defined.

Definition agent_id_value (a : AgentId) : string :=
  match a with
  | network_anomaly_detector => "network_anomaly_detector"
  | iot_behavioral_profiler => "iot_behavioral_profiler"
  | threat_intelligence_correlator => "threat_intelligence_correlator"
  | risk_propagation_analyst => "risk_propagation_analyst"
  | trust_access_controller => "trust_access_controller"
  end.

(** [for aid in AgentId]: the declaration order. *)
Definition all_agents : list AgentId :=
  [network_anomaly_detector; iot_behavioral_profiler; threat_intelligence_correlator;
   risk_propagation_analyst; trust_access_controller].

Definition AGENT_IDS : list string := map agent_id_value all_agents.

Lemma elem_of_all_agents a : a ∈ all_agents.
Proof. destruct a; set_solver. Qed.

#[export] Program Instance agent_id_countable : Countable AgentId :=
  inj_countable' agent_id_value
    (λ s, if decide (s = "network_anomaly_detector") then network_anomaly_detector
          else if decide (s = "iot_behavioral_profiler") then iot_behavioral_profiler
          else if decide (s = "threat_intelligence_correlator") then threat_intelligence_correlator
          else if decide (s = "risk_propagation_analyst") then risk_propagation_analyst
          else trust_access_controller) _.
Next Obligation. by intros []. Qed.

Inductive ActionType := ALLOW | MONITOR | BLOCK.

#[export] Instance action_type_eq_dec : EqDecision ActionType.
Proof. solve_decision. Defined.

Definition action_value (a : ActionType) : string :=
  match a with ALLOW => "ALLOW" | MONITOR => "MONITOR" | BLOCK => "BLOCK" end.

Inductive MappingStatus := MATCHED | UNMAPPED | UNSUPPORTED.

#[export] Instance mapping_status_eq_dec : EqDecision MappingStatus.
Proof. solve_decision. Defined.

Definition mapping_status_value (m : MappingStatus) : string :=
  match m with MATCHED => "MATCHED" | UNMAPPED => "UNMAPPED" | UNSUPPORTED => "UNSUPPORTED" end.

Definition PRE_LZTAF_DEVICE_EVIDENCE : string := "PRE_LZTAF_DEVICE_EVIDENCE".

(** [_check_id]: [_WORKFLOW_RE.match], whose [$] also matches before a final
    newline. *)
Definition is_workflow_char (c : ascii) : bool :=
  is_alnum c || Ascii.eqb c "_" || Ascii.eqb c "." || Ascii.eqb c "-".
Definition check_id (name v : string) : result unit :=
  first_error
    [check (negb (is_blank v)) ValueError (name +:+ " must be non-empty string");
     check (py_len v <=? 128) ValueError (name +:+ " must be <=128 chars");
     check (id_pattern is_workflow_char 127 true v) ValueError
       (name +:+ " must match workflow id pattern")].

(** Field checks, then the model validator; either becomes a [ValidationError]. *)
Definition validated (fields : list (result unit)) (model : result unit) : result unit :=
  as_validation_error (_ ← first_error fields; model).

Definition json_strings (l : list string) : json := JList (map JStr l).
Definition json_opt_float (o : option f64) : json :=
  match o with Some x => JFloat x | None => JNull end.

(** ** Dispatch and execution *)
Record AgentDispatchV1 := mk_dispatch {
  dsp_dispatch_id : string;
  dsp_workflow_id : string;
  dsp_agent_id : AgentId;
  dsp_window_id : Z;
  dsp_logical_timestamp : string;
  dsp_entity_id : option string;
  dsp_input_refs : list string;
  dsp_source_component : string;
  dsp_provenance : list (string * json);
}.

Definition dispatch_dump (d : AgentDispatchV1) : json :=
  JDict [("schema_version", JStr "agent_dispatch_v1");
         ("dispatch_id", JStr (dsp_dispatch_id d));
         ("workflow_id", JStr (dsp_workflow_id d));
         ("agent_id", JStr (agent_id_value (dsp_agent_id d)));
         ("window_id", JInt (dsp_window_id d));
         ("logical_timestamp", JStr (dsp_logical_timestamp d));
         ("entity_id", json_opt_str (dsp_entity_id d));
         ("input_refs", json_strings (dsp_input_refs d));
         ("source_component", JStr (dsp_source_component d));
         ("provenance", JDict (dsp_provenance d))].

Definition dispatch_validate (d : AgentDispatchV1) : result unit :=
  validated
    [str_field "dispatch_id" 1 128 (dsp_dispatch_id d); check_id "id" (dsp_dispatch_id d);
     str_field "workflow_id" 1 128 (dsp_workflow_id d); check_id "id" (dsp_workflow_id d);
     ge_field "window_id" 0 (dsp_window_id d);
     str_field "logical_timestamp" 1 64 (dsp_logical_timestamp d);
     opt_str_field "entity_id" 128 (dsp_entity_id d);
     str_field "source_component" 1 128 (dsp_source_component d)]
    (assert_agentic_safe (dispatch_dump d) "AgentDispatchV1").

Record AgentExecutionResultV1 := mk_execution {
  exe_execution_id : string;
  exe_dispatch_id : string;
  exe_workflow_id : string;
  exe_agent_id : AgentId;
  exe_window_id : Z;
  exe_logical_timestamp : string;
  exe_entity_id : option string;
  exe_input_refs : list string;
  exe_output_refs : list string;
  exe_duration_ms : f64;
  exe_source_component : string;
  exe_provenance : list (string * json);
  exe_output_summary : list (string * json);
}.

Definition execution_dump (x : AgentExecutionResultV1) : json :=
  JDict [("schema_version", JStr "agent_execution_result_v1");
         ("execution_id", JStr (exe_execution_id x));
         ("dispatch_id", JStr (exe_dispatch_id x));
         ("workflow_id", JStr (exe_workflow_id x));
         ("agent_id", JStr (agent_id_value (exe_agent_id x)));
         ("window_id", JInt (exe_window_id x));
         ("logical_timestamp", JStr (exe_logical_timestamp x));
         ("entity_id", json_opt_str (exe_entity_id x));
         ("input_refs", json_strings (exe_input_refs x));
         ("output_refs", json_strings (exe_output_refs x));
         ("duration_ms", JFloat (exe_duration_ms x));
         ("source_component", JStr (exe_source_component x));
         ("provenance", JDict (exe_provenance x));
         ("output_summary", JDict (exe_output_summary x))].

Definition execution_validate (x : AgentExecutionResultV1) : result unit :=
  validated
    [str_field "execution_id" 1 128 (exe_execution_id x); check_id "id" (exe_execution_id x);
     str_field "dispatch_id" 1 128 (exe_dispatch_id x); check_id "id" (exe_dispatch_id x);
     str_field "workflow_id" 1 128 (exe_workflow_id x); check_id "id" (exe_workflow_id x);
     ge_field "window_id" 0 (exe_window_id x);
     str_field "logical_timestamp" 1 64 (exe_logical_timestamp x);
     opt_str_field "entity_id" 128 (exe_entity_id x);
     float_field "duration_ms" (exe_duration_ms x);
     str_field "source_component" 1 128 (exe_source_component x)]
    (assert_agentic_safe (execution_dump x) "AgentExecutionResultV1").

(** ** Threat correlation *)
Record ThreatCorrelationV1 := mk_threat {
  thr_correlation_id : string;
  thr_workflow_id : string;
  thr_entity_id : string;
  thr_window_id : Z;
  thr_logical_timestamp : string;
  thr_source_finding_ids : list string;
  thr_mapping_status : MappingStatus;
  thr_threat_behavior_id : option string;
  thr_threat_behavior_name : option string;
  thr_mapping_catalog_version : string;
  thr_mapping_rule_id : option string;
  thr_mapping_basis : option string;
  thr_evidence_refs : list string;
  thr_confidence : option f64;
  thr_provenance : list (string * json);
}.

Definition threat_dump (t : ThreatCorrelationV1) : json :=
  JDict [("schema_version", JStr "threat_correlation_v1");
         ("correlation_id", JStr (thr_correlation_id t));
         ("workflow_id", JStr (thr_workflow_id t));
         ("entity_id", JStr (thr_entity_id t));
         ("window_id", JInt (thr_window_id t));
         ("logical_timestamp", JStr (thr_logical_timestamp t));
         ("source_finding_ids", json_strings (thr_source_finding_ids t));
         ("mapping_status", JStr (mapping_status_value (thr_mapping_status t)));
         ("threat_behavior_id", json_opt_str (thr_threat_behavior_id t));
         ("threat_behavior_name", json_opt_str (thr_threat_behavior_name t));
         ("mapping_catalog_version", JStr (thr_mapping_catalog_version t));
         ("mapping_rule_id", json_opt_str (thr_mapping_rule_id t));
         ("mapping_basis", json_opt_str (thr_mapping_basis t));
         ("evidence_refs", json_strings (thr_evidence_refs t));
         ("confidence", json_opt_float (thr_confidence t));
         ("provenance", JDict (thr_provenance t))].

(** A truthy optional string. *)
Definition opt_truthy (o : option string) : bool :=
  match o with Some s => negb (bool_decide (s = "")) | None => false end.

(** A match names its threat; anything else names none. *)
Definition threat_consistent (t : ThreatCorrelationV1) : result unit :=
  match thr_mapping_status t with
  | MATCHED =>
      check (opt_truthy (thr_threat_behavior_id t) && opt_truthy (thr_threat_behavior_name t)
             && opt_truthy (thr_mapping_rule_id t)) ValueError
        "MATCHED requires threat_behavior and rule_id"
  | status =>
      check (bool_decide (thr_threat_behavior_id t = None)
             && bool_decide (thr_threat_behavior_name t = None)) ValueError
        (mapping_status_value status +:+ " must not carry threat_behavior")
  end.

Definition threat_validate (t : ThreatCorrelationV1) : result unit :=
  validated
    [str_field "correlation_id" 1 128 (thr_correlation_id t);
     str_field "workflow_id" 1 128 (thr_workflow_id t);
     str_field "entity_id" 1 128 (thr_entity_id t);
     ge_field "window_id" 0 (thr_window_id t);
     str_field "logical_timestamp" 1 64 (thr_logical_timestamp t);
     opt_str_field "threat_behavior_id" 64 (thr_threat_behavior_id t);
     opt_str_field "threat_behavior_name" 128 (thr_threat_behavior_name t);
     str_field "mapping_catalog_version" 1 32 (thr_mapping_catalog_version t);
     opt_str_field "mapping_rule_id" 64 (thr_mapping_rule_id t);
     opt_str_field "mapping_basis" 256 (thr_mapping_basis t);
     opt_unit_field "confidence" (thr_confidence t)]
    (_ ← assert_agentic_safe (threat_dump t) "ThreatCorrelationV1"; threat_consistent t).
