(* ===== verification/AgRecords.v ===== *)
(** * Recommendations and decisions

    The second half of [agentic_workflow/contracts.py]: risk and access
    recommendations, enforcement decisions, confirmed feedback and window
    results. *)

From S2P Require Import Prelude PyString Json Firewall AgContracts.

(** ** Risk recommendation *)
Record RiskRecommendationV1 := mk_risk {
  rsk_recommendation_id : string;
  rsk_workflow_id : string;
  rsk_entity_id : string;
  rsk_window_id : Z;
  rsk_logical_timestamp : string;
  rsk_network_risk : option f64;
  rsk_behavior_risk : option f64;
  rsk_behavior_supported : bool;
  rsk_direct_risk : option f64;
  rsk_propagated_risk : f64;
  rsk_systemic_risk : f64;
  rsk_threat_correlation_refs : list string;
  rsk_evidence_complete : bool;
  rsk_reason_codes : list string;
  rsk_recommended_escalation : string;
  rsk_provenance : list (string * json);
  rsk_source_component : string;
}.

Definition risk_dump (r : RiskRecommendationV1) : json :=
  JDict [("schema_version", JStr "risk_recommendation_v1");
         ("recommendation_id", JStr (rsk_recommendation_id r));
         ("workflow_id", JStr (rsk_workflow_id r));
         ("entity_id", JStr (rsk_entity_id r));
         ("window_id", JInt (rsk_window_id r));
         ("logical_timestamp", JStr (rsk_logical_timestamp r));
         ("network_risk", json_opt_float (rsk_network_risk r));
         ("behavior_risk", json_opt_float (rsk_behavior_risk r));
         ("behavior_supported", JBool (rsk_behavior_supported r));
         ("direct_risk", json_opt_float (rsk_direct_risk r));
         ("propagated_risk", JFloat (rsk_propagated_risk r));
         ("systemic_risk", JFloat (rsk_systemic_risk r));
         ("threat_correlation_refs", json_strings (rsk_threat_correlation_refs r));
         ("evidence_complete", JBool (rsk_evidence_complete r));
         ("reason_codes", json_strings (rsk_reason_codes r));
         ("recommended_escalation", JStr (rsk_recommended_escalation r));
         ("agent_trust_graph_supported", JBool false);
         ("agent_workflow_risk_supported", JBool false);
         ("device_risk_supported", JBool true);
         ("provenance", JDict (rsk_provenance r));
         ("source_component", JStr (rsk_source_component r))].

Definition risk_validate (r : RiskRecommendationV1) : result unit :=
  validated
    [str_field "recommendation_id" 1 128 (rsk_recommendation_id r);
     str_field "workflow_id" 1 128 (rsk_workflow_id r);
     str_field "entity_id" 1 128 (rsk_entity_id r);
     ge_field "window_id" 0 (rsk_window_id r);
     str_field "logical_timestamp" 1 64 (rsk_logical_timestamp r);
     opt_unit_field "network_risk" (rsk_network_risk r);
     opt_unit_field "behavior_risk" (rsk_behavior_risk r);
     opt_unit_field "direct_risk" (rsk_direct_risk r);
     unit_field "propagated_risk" (rsk_propagated_risk r);
     unit_field "systemic_risk" (rsk_systemic_risk r);
     str_field "recommended_escalation" 1 32 (rsk_recommended_escalation r);
     str_field "source_component" 1 128 (rsk_source_component r)]
    (_ ← assert_agentic_safe (risk_dump r) "RiskRecommendationV1";
     check (rsk_behavior_supported r || bool_decide (rsk_behavior_risk r = None)) ValueError
       "behavior_risk must be None when behavior_supported is False").

(** ** Access recommendation *)
Record AccessRecommendationV1 := mk_access {
  acc_recommendation_id : string;
  acc_workflow_id : string;
  acc_entity_id : string;
  acc_window_id : Z;
  acc_logical_timestamp : string;
  acc_action : ActionType;
  acc_policy_id : string;
  acc_policy_version : string;
  acc_evidence_refs : list string;
  acc_evidence_complete : bool;
  acc_behavior_supported : bool;
  acc_reason_codes : list string;
  acc_provenance : list (string * json);
  acc_source_component : string;
}.

Definition access_dump (a : AccessRecommendationV1) : json :=
  JDict [("schema_version", JStr "access_recommendation_v1");
         ("recommendation_id", JStr (acc_recommendation_id a));
         ("workflow_id", JStr (acc_workflow_id a));
         ("entity_id", JStr (acc_entity_id a));
         ("window_id", JInt (acc_window_id a));
         ("logical_timestamp", JStr (acc_logical_timestamp a));
         ("action", JStr (action_value (acc_action a)));
         ("policy_id", JStr (acc_policy_id a));
         ("policy_version", JStr (acc_policy_version a));
         ("controller_mode", JStr PRE_LZTAF_DEVICE_EVIDENCE);
         ("evidence_refs", json_strings (acc_evidence_refs a));
         ("evidence_complete", JBool (acc_evidence_complete a));
         ("behavior_supported", JBool (acc_behavior_supported a));
         ("reason_codes", json_strings (acc_reason_codes a));
         ("trust_vector_supported", JBool false);
         ("agent_trust_supported", JBool false);
         ("credential_controls_supported", JBool false);
         ("provenance", JDict (acc_provenance a));
         ("source_component", JStr (acc_source_component a))].

Definition access_validate (a : AccessRecommendationV1) : result unit :=
  validated
    [str_field "recommendation_id" 1 128 (acc_recommendation_id a);
     str_field "workflow_id" 1 128 (acc_workflow_id a);
     str_field "entity_id" 1 128 (acc_entity_id a);
     ge_field "window_id" 0 (acc_window_id a);
     str_field "logical_timestamp" 1 64 (acc_logical_timestamp a);
     str_field "policy_id" 1 64 (acc_policy_id a);
     str_field "policy_version" 1 32 (acc_policy_version a);
     str_field "source_component" 1 128 (acc_source_component a)]
    (assert_agentic_safe (access_dump a) "AccessRecommendationV1").

(** ** Enforcement decision *)
Record EnforcementDecisionV1 := mk_enforcement {
  enf_decision_id : string;
  enf_workflow_id : string;
  enf_replay_id : string;
  enf_window_id : Z;
  enf_logical_timestamp : string;
  enf_entity_id : string;
  enf_action : ActionType;
  enf_controller_recommendation_id : string;
  enf_policy_id : string;
  enf_policy_version : string;
  enf_evidence_refs : list string;
  enf_reason_codes : list string;
  enf_evidence_complete : bool;
  enf_behavior_supported : bool;
  enf_source_agent : AgentId;
  enf_source_component : string;
  enf_provenance : list (string * json);
}.

Definition enforcement_fields (e : EnforcementDecisionV1) : list (string * json) :=
  [("schema_version", JStr "enforcement_decision_v1");
   ("decision_id", JStr (enf_decision_id e));
   ("workflow_id", JStr (enf_workflow_id e));
   ("replay_id", JStr (enf_replay_id e));
   ("window_id", JInt (enf_window_id e));
   ("logical_timestamp", JStr (enf_logical_timestamp e));
   ("entity_id", JStr (enf_entity_id e));
   ("action", JStr (action_value (enf_action e)));
   ("controller_recommendation_id", JStr (enf_controller_recommendation_id e));
   ("controller_mode", JStr PRE_LZTAF_DEVICE_EVIDENCE);
   ("policy_id", JStr (enf_policy_id e));
   ("policy_version", JStr (enf_policy_version e));
   ("evidence_refs", json_strings (enf_evidence_refs e));
   ("reason_codes", json_strings (enf_reason_codes e));
   ("evidence_complete", JBool (enf_evidence_complete e));
   ("behavior_supported", JBool (enf_behavior_supported e));
   ("source_agent", JStr (agent_id_value (enf_source_agent e)));
   ("source_component", JStr (enf_source_component e));
   ("physical_enforcement_claimed", JBool false);
   ("counterfactual_effect_applied", JBool false);
   ("provenance", JDict (enf_provenance e))].

Definition enforcement_dump (e : EnforcementDecisionV1) : json := JDict (enforcement_fields e).

Definition enforcement_validate (e : EnforcementDecisionV1) : result unit :=
  validated
    [str_field "decision_id" 1 128 (enf_decision_id e);
     str_field "workflow_id" 1 128 (enf_workflow_id e);
     str_field "replay_id" 1 128 (enf_replay_id e);
     ge_field "window_id" 0 (enf_window_id e);
     str_field "logical_timestamp" 1 64 (enf_logical_timestamp e);
     str_field "entity_id" 1 128 (enf_entity_id e);
     str_field "controller_recommendation_id" 1 128 (enf_controller_recommendation_id e);
     str_field "policy_id" 1 64 (enf_policy_id e);
     str_field "policy_version" 1 32 (enf_policy_version e);
     str_field "source_component" 1 128 (enf_source_component e)]
    (assert_agentic_safe (enforcement_dump e) "EnforcementDecisionV1").

(** ** Confirmed feedback *)
Record ConfirmedFeedbackV1 := mk_feedback {
  fbk_feedback_id : string;
  fbk_replay_id : string;
  fbk_window_id : Z;
  fbk_entity_id : string;
  fbk_related_action_id : string;
  fbk_related_finding_ids : list string;
  fbk_feedback_source : string;
  fbk_verdict : string;
  fbk_reason_code : string;
  fbk_note : option string;
  fbk_submitted_at : string;
  fbk_provenance : list (string * json);
  fbk_source_component : string;
}.

Definition feedback_fields (f : ConfirmedFeedbackV1) : list (string * json) :=
  [("schema_version", JStr "confirmed_feedback_v1");
   ("feedback_id", JStr (fbk_feedback_id f));
   ("replay_id", JStr (fbk_replay_id f));
   ("window_id", JInt (fbk_window_id f));
   ("entity_id", JStr (fbk_entity_id f));
   ("related_action_id", JStr (fbk_related_action_id f));
   ("related_finding_ids", json_strings (fbk_related_finding_ids f));
   ("feedback_source", JStr (fbk_feedback_source f));
   ("confirmed", JBool true);
   ("verdict", JStr (fbk_verdict f));
   ("reason_code", JStr (fbk_reason_code f));
   ("note", json_opt_str (fbk_note f));
   ("submitted_at", JStr (fbk_submitted_at f));
   ("provenance", JDict (fbk_provenance f));
   ("source_component", JStr (fbk_source_component f))].

Definition feedback_dump (f : ConfirmedFeedbackV1) : json := JDict (feedback_fields f).

Definition feedback_validate (f : ConfirmedFeedbackV1) : result unit :=
  validated
    [str_field "feedback_id" 1 128 (fbk_feedback_id f);
     str_field "replay_id" 1 128 (fbk_replay_id f);
     ge_field "window_id" 0 (fbk_window_id f);
     str_field "entity_id" 1 128 (fbk_entity_id f);
     str_field "related_action_id" 1 128 (fbk_related_action_id f);
     str_field "feedback_source" 1 64 (fbk_feedback_source f);
     str_field "verdict" 1 32 (fbk_verdict f);
     str_field "reason_code" 1 64 (fbk_reason_code f);
     opt_str_field "note" 512 (fbk_note f);
     str_field "submitted_at" 1 64 (fbk_submitted_at f);
     str_field "source_component" 1 128 (fbk_source_component f)]
    (assert_agentic_safe (feedback_dump f) "ConfirmedFeedbackV1").

(** ** Window result *)
Record WorkflowWindowResultV1 := mk_window_result {
  wwr_workflow_id : string;
  wwr_window_id : Z;
  wwr_logical_timestamp : string;
  wwr_entity_id : string;
  wwr_dispatch_ids : list string;
  wwr_execution_ids : list string;
  wwr_threat_correlation_id : option string;
  wwr_risk_recommendation_id : option string;
  wwr_access_recommendation_id : option string;
  wwr_enforcement_decision_id : option string;
  wwr_provenance : list (string * json);
  wwr_source_component : string;
}.

Definition window_result_dump (w : WorkflowWindowResultV1) : json :=
  JDict [("schema_version", JStr "workflow_window_result_v1");
         ("workflow_id", JStr (wwr_workflow_id w));
         ("window_id", JInt (wwr_window_id w));
         ("logical_timestamp", JStr (wwr_logical_timestamp w));
         ("entity_id", JStr (wwr_entity_id w));
         ("dispatch_ids", json_strings (wwr_dispatch_ids w));
         ("execution_ids", json_strings (wwr_execution_ids w));
         ("threat_correlation_id", json_opt_str (wwr_threat_correlation_id w));
         ("risk_recommendation_id", json_opt_str (wwr_risk_recommendation_id w));
         ("access_recommendation_id", json_opt_str (wwr_access_recommendation_id w));
         ("enforcement_decision_id", json_opt_str (wwr_enforcement_decision_id w));
         ("provenance", JDict (wwr_provenance w));
         ("source_component", JStr (wwr_source_component w))].

Definition window_result_validate (w : WorkflowWindowResultV1) : result unit :=
  validated
    [str_field "workflow_id" 1 128 (wwr_workflow_id w);
     ge_field "window_id" 0 (wwr_window_id w);
     str_field "logical_timestamp" 1 64 (wwr_logical_timestamp w);
     str_field "entity_id" 1 128 (wwr_entity_id w);
     str_field "source_component" 1 128 (wwr_source_component w)]
    (assert_agentic_safe (window_result_dump w) "WorkflowWindowResultV1").
