(* ===== verification/AgCore.v ===== *)
(** * Workflow order, routes, policy and instrumentation

    Models [agentic_workflow/readiness.py], [registry.py],
    [orchestration_port.py], [action_policy.py], [hooks.py] and
    [instrumentation.py]. *)

From Stdlib Require Import SpecFloat.
From S2P Require Import Prelude PyString Json AgContracts.

(** ** Readiness *)
Definition DEPENDENCIES (a : AgentId) : gset AgentId :=
  match a with
  | network_anomaly_detector | iot_behavioral_profiler => ∅
  | threat_intelligence_correlator => {[network_anomaly_detector; iot_behavioral_profiler]}
  | risk_propagation_analyst => {[threat_intelligence_correlator]}
  | trust_access_controller => {[risk_propagation_analyst]}
  end.

Definition is_ready (agent_id : AgentId) (completed : gset AgentId)
    (device_risk_available risk_recommendation_available : bool) : bool :=
  match agent_id with
  | risk_propagation_analyst =>
      if bool_decide (threat_intelligence_correlator ∈ completed)
      then device_risk_available else false
  | trust_access_controller =>
      if bool_decide (risk_propagation_analyst ∈ completed)
      then risk_recommendation_available else false
  | _ => bool_decide (DEPENDENCIES agent_id ⊆ completed)
  end.

Definition ready_agents (completed : gset AgentId)
    (device_risk_available risk_recommendation_available : bool) : gset AgentId :=
  list_to_set (filter (λ aid, aid ∉ completed ∧
    Is_true (is_ready aid completed device_risk_available risk_recommendation_available))
    all_agents).

(** ** Routes *)
Definition ROUTE_TO_AGENT : list (string * AgentId) :=
  [("agent.network_anomaly_detector", network_anomaly_detector);
   ("agent.iot_behavioral_profiler", iot_behavioral_profiler);
   ("agent.threat_intelligence_correlator", threat_intelligence_correlator);
   ("agent.risk_propagation_analyst", risk_propagation_analyst);
   ("agent.trust_access_controller", trust_access_controller)].

Definition AGENT_TO_ROUTE : list (AgentId * string) :=
  map (λ kv, (kv.2, kv.1)) ROUTE_TO_AGENT.

Definition REGISTERED_ROUTES : list string := sort_strings (map fst ROUTE_TO_AGENT).

Definition resolve_route (route_id : string) : result AgentId :=
  of_option (od_get route_id ROUTE_TO_AGENT) ValueError ("unknown route " +:+ py_repr route_id).

Definition is_registered_route (route_id : string) : bool :=
  bool_decide (route_id ∈ map fst ROUTE_TO_AGENT).

(** [should_execute] on a decision's outcome text and selected route. *)
Definition should_execute (outcome : string) (selected_route_id : option string) : option AgentId :=
  if negb (bool_decide (outcome = "DECIDED")) then None
  else match selected_route_id with
       | None => None
       | Some route =>
           if bool_decide (route = "") then None
           else match resolve_route route with Ok a => Some a | Raise _ => None end
       end.

(** ** Policy *)
Record Stage8PolicyConfig := mk_policy_config {
  pc_policy_id : string;
  pc_policy_version : string;
  pc_monitor_threshold : f64;
  pc_block_threshold : f64;
  pc_missing_evidence_policy : string;
}.

(** The binary64 values of the literals 0.1, 0.4, 0.5, 0.6, 0.7 and 0.8. *)
Definition f_0_1 : f64 := S754_finite false 7205759403792794 (-56).
Definition f_0_4 : f64 := S754_finite false 7205759403792794 (-54).
Definition f_0_6 : f64 := S754_finite false 5404319552844595 (-53).
Definition f_0_7 : f64 := S754_finite false 6305039478318694 (-53).
Definition f_0_8 : f64 := S754_finite false 7205759403792794 (-53).

Definition POLICY_CONFIG : Stage8PolicyConfig :=
  mk_policy_config "stage8_access_policy_v1" "1" f_0_4 f_0_7 "MONITOR".

(** ** Hooks *)
Inductive AgHookPoint := AGENT_INPUT | AGENT_OUTPUT | ACTION_COMMIT.

Record AgHookContext := mk_ag_hook_context {
  ahc_hook_point : AgHookPoint;
  ahc_agent_id : option string;
  ahc_workflow_id : option string;
  ahc_window_id : option Z;
}.

(** [AgenticHooks]: the pass-through default. *)
Definition ag_observe_input {A} (context : AgHookContext) (payload : A) : A := payload.
Definition ag_observe_output {A} (context : AgHookContext) (payload : A) : A := payload.
Definition ag_observe_commit {A} (context : AgHookContext) (payload : A) : A := payload.

(** ** Instrumentation *)
Definition AG_COUNTERS : list string :=
  ["agent_executions"; "agent_failures"; "threat_matched"; "threat_unmapped";
   "threat_unsupported"; "risk_recommendations"; "access_allow"; "access_monitor";
   "access_block"; "action_commits"; "action_duplicates"; "action_conflicts"].
Definition AG_LATENCIES : list string :=
  ["network_agent_ms"; "behavior_agent_ms"; "threat_correlator_ms"; "risk_analyst_ms";
   "access_controller_ms"].

Record AgenticInstrumentation := mk_ag_instr {
  ai_latency_limit : nat;
  ai_history_limit : nat;
  ai_counters : list (string * Z);
  ai_latencies : list (string * list f64);
  ai_recent : list (list (string * json));
}.

Definition new_ag_instrumentation (latency_limit history_limit : Z)
    : result AgenticInstrumentation :=
  _ ← check ((1 <=? latency_limit) && (1 <=? history_limit)) ValueError "limits must be positive";
  Ok (mk_ag_instr (Z.to_nat latency_limit) (Z.to_nat history_limit)
        (map (λ k, (k, 0)) AG_COUNTERS) (map (λ k, (k, [])) AG_LATENCIES) []).

Definition ag_increment (key : string) (amount : Z) : M AgenticInstrumentation unit := λ i,
  match od_get key (ai_counters i) with
  | None => (raise KeyError (py_repr key), i)
  | Some n => (Ok tt, mk_ag_instr (ai_latency_limit i) (ai_history_limit i)
      (od_set key (n + amount) (ai_counters i)) (ai_latencies i) (ai_recent i))
  end.

Definition ag_record_latency (key : string) (ms : f64) : M AgenticInstrumentation unit := λ i,
  match od_get key (ai_latencies i) with
  | None => (raise KeyError (py_repr key), i)
  | Some l => (Ok tt, mk_ag_instr (ai_latency_limit i) (ai_history_limit i) (ai_counters i)
      (od_set key (push_bounded (ai_latency_limit i) ms l) (ai_latencies i)) (ai_recent i))
  end.

Definition ag_note (entry : list (string * json)) : M AgenticInstrumentation unit := λ i,
  (Ok tt, mk_ag_instr (ai_latency_limit i) (ai_history_limit i) (ai_counters i) (ai_latencies i)
    (push_bounded (ai_history_limit i) entry (ai_recent i))).

Record AgLatencySummary := mk_ag_latency {
  als_count : Z;
  als_mean_ms : f64;
  als_p50_ms : f64;
  als_p95_ms : f64;
  als_max_ms : f64;
}.

(** The binary64 value of 0.95, and [int(x)] for a float that is not negative:
    the greatest integer below. *)
Definition f_0_95 : f64 := S754_finite false 8556839292003942 (-53).
Definition f_trunc (x : f64) : Z :=
  match x with
  | S754_finite s m e =>
      let a := if 0 <=? e then Z.shiftl (Zpos m) e else Z.shiftr (Zpos m) (- e) in
      if s then - a else a
  | _ => 0
  end.

Section snapshot.
Context `{PyRuntime}.

(** [None] is the summary [{"count": 0}] of no samples; the list is not empty
    where it is indexed, so both indices are in range. *)
Definition ag_latency_summary (samples : list f64) : option AgLatencySummary :=
  let vals := isort (λ x y, negb (f_ltb y x)) samples in
  match last vals with
  | None => None
  | Some top =>
      let n := Z.of_nat (length vals) in
      Some (mk_ag_latency n (float_round (f_div (float_sum vals) (f_of_Z n)) 3)
        (float_round (nth (Z.to_nat (n / 2)) vals f_zero) 3)
        (float_round (nth (Z.to_nat (f_trunc (f_mul (f_of_Z n) f_0_95))) vals f_zero) 3)
        (float_round top 3))
  end.

Definition ag_snapshot (i : AgenticInstrumentation)
    : list (string * Z) * list (string * option AgLatencySummary)
      * list (list (string * json)) * (nat * nat) :=
  (ai_counters i, map (λ kv, (kv.1, ag_latency_summary kv.2)) (ai_latencies i), ai_recent i,
   (ai_latency_limit i, ai_history_limit i)).
End snapshot.
