(* ===== verification/AgSpecialists.v ===== *)
(** * The specialists

    Models [agentic_workflow/threat_correlator.py], [risk_analyst.py]
    and [access_controller.py].  Each
    call runs on the specialist's instrumentation; the fresh identifier and the
    two clock readings it takes are its [CallClock]. *)

From S2P Require Import Prelude PyString Json Firewall SimDevices AgContracts AgRecords AgCore.

Record CallClock := mk_clock {
  cc_uuid : string;
  cc_start : f64;
  cc_end : f64;
}.

(** [(time.monotonic() - start) * 1000] *)
Definition duration_ms (k : CallClock) : f64 := f_mul (f_sub (cc_end k) (cc_start k)) (f_of_Z 1000).

Definition AI (A : Type) : Type := M AgenticInstrumentation A.

(** [provenance or {"source_component": ...}] *)
Definition provenance_or (provenance : option (list (string * json))) (component : string)
    : list (string * json) :=
  match provenance with
  | Some ((_ :: _) as p) => p
  | _ => [("source_component", JStr component)]
  end.

(** ** Threat correlation *)
Definition CATALOG_VERSION : string := "threat_catalog_v1".

Record CatalogRule := mk_rule {
  rule_id : string;
  rule_threat_behavior_id : string;
  rule_threat_behavior_name : string;
  rule_mapping_basis : string;
}.

Definition RULE_NETWORK : CatalogRule :=
  mk_rule "rule_network_attack_high_confidence" "TB-NET-01" "network_anomaly_confirmed"
    "network_detector_attack_with_confidence_threshold".
Definition RULE_BEHAVIOR : CatalogRule :=
  mk_rule "rule_behavior_high_deviation" "TB-BEH-01" "behavioral_deviation_confirmed"
    "behavior_profiler_high_deviation_score".

Definition finding_ref (f : FindingObject) : string :=
  default "?" (fo_entity_id f) +:+ ":" +:+ from_option fmt_int "?" (fo_window_id f).
Definition evidence_ref (f : FindingObject) : string :=
  "finding:" +:+ default "?" (fo_entity_id f).

Definition correlation_of (k : CallClock) (catalog_version workflow_id entity_id : string)
    (window_id : Z) (logical_timestamp : string) (findings : list FindingObject)
    (provenance : option (list (string * json))) (status : MappingStatus)
    (rule : option CatalogRule) : ThreatCorrelationV1 :=
  mk_threat (cc_uuid k) workflow_id entity_id window_id logical_timestamp
    (map finding_ref findings) status (rule_threat_behavior_id <$> rule)
    (rule_threat_behavior_name <$> rule) catalog_version (rule_id <$> rule)
    (rule_mapping_basis <$> rule) (map evidence_ref findings) None
    (provenance_or provenance "agentic_workflow.threat_correlator").

(** One finding of the validation loop: [Ok true] when its type is supported. *)
Definition check_finding (entity_id : string) (window_id : Z) (f : FindingObject) : result bool :=
  _ ← check (bool_decide (fo_entity_id f = Some entity_id)) ValueError "finding entity_id mismatch";
  _ ← check (bool_decide (fo_window_id f = Some window_id)) ValueError "finding window_id mismatch";
  Ok (bool_decide (fo_finding_type f = Some NETWORK_FINDING_TYPE)
      || bool_decide (fo_finding_type f = Some BEHAVIOR_FINDING_TYPE)).

(** The loop stops at the first unsupported finding ([false]) or mismatch. *)
Fixpoint check_findings (entity_id : string) (window_id : Z) (fs : list FindingObject)
    : result bool :=
  match fs with
  | [] => Ok true
  | f :: fs =>
      supported ← check_finding entity_id window_id f;
      if supported : bool then check_findings entity_id window_id fs else Ok false
  end.

(** The rule a finding triggers; [getattr] defaults to 0. *)
Definition finding_rule (f : FindingObject) : option CatalogRule :=
  if bool_decide (fo_finding_type f = Some NETWORK_FINDING_TYPE)
     && bool_decide (fo_predicted_class f = Some "attack")
     && f_geb (default f_zero (fo_confidence f)) f_0_6
  then Some RULE_NETWORK
  else if bool_decide (fo_finding_type f = Some BEHAVIOR_FINDING_TYPE)
     && f_geb (default f_zero (fo_deviation_score f)) f_0_8
  then Some RULE_BEHAVIOR
  else None.

Definition matched_rule (findings : list FindingObject) : option CatalogRule :=
  head (omap finding_rule findings).

(** [vars] of every finding, as the firewall walks them. *)
Definition findings_json (findings : list FindingObject) : json :=
  JList (map (λ f, JDict (fo_vars f)) findings).

Definition correlate (k : CallClock) (catalog_version workflow_id entity_id : string)
    (window_id : Z) (logical_timestamp : string) (findings : list FindingObject)
    (provenance : option (list (string * json))) : AI ThreatCorrelationV1 :=
  let build status rule :=
    let t := correlation_of k catalog_version workflow_id entity_id window_id logical_timestamp
               findings provenance status rule in
    _ ← threat_validate t; Ok t in
  _ ← lift (assert_agentic_safe (findings_json findings) "threat_correlator findings");
  _ ← lift (match provenance with
            | Some p => assert_agentic_safe (JDict p) "threat_correlator provenance"
            | None => Ok tt
            end);
  supported ← lift (check_findings entity_id window_id findings);
  if negb (supported : bool) then
    _ ← ag_increment "threat_unsupported" 1;
    _ ← ag_record_latency "threat_correlator_ms" (duration_ms k);
    lift (build UNSUPPORTED None)
  else
    let rule := matched_rule findings in
    _ ← match rule with
        | Some _ => ag_increment "threat_matched" 1
        | None => if bool_decide (findings = []) then mret tt else ag_increment "threat_unmapped" 1
        end;
    unmapped ← gets (λ i, default 0 (od_get "threat_unmapped" (ai_counters i)));
    _ ← (if negb (is_some rule) && (unmapped =? 0) then ag_increment "threat_unmapped" 1
         else mret tt);
    _ ← ag_record_latency "threat_correlator_ms" (duration_ms k);
    lift (build (if is_some rule then MATCHED else UNMAPPED) rule).

(** ** Risk analysis *)

(** What the analyst reads of a device state (an object or a dictionary; a
    missing field reads as its default), and [vars] of it for the firewall. *)
Record DeviceView := mk_device_view {
  dw_vars : list (string * json);
  dw_node_id : option string;
  dw_network_risk : option f64;
  dw_behavior_risk : option f64;
  dw_behavior_supported : bool;
  dw_propagated_risk : f64;
  dw_systemic_risk : f64;
  dw_network_observed : bool;
  dw_behavior_observed : bool;
}.

Definition device_vars (s : DeviceState) : list (string * json) :=
  [("node_id", JStr (ds_node_id s)); ("role", JStr (ds_role s));
   ("device_type", JStr (ds_device_type s)); ("ip", JStr (ds_ip s)); ("mac", JStr (ds_mac s));
   ("is_protected_asset", JBool (ds_is_protected_asset s));
   ("is_attacker", JBool (ds_is_attacker s));
   ("behavior_supported", JBool (ds_behavior_supported s));
   ("behavior_profile_type", json_opt_str (ds_behavior_profile_type s));
   ("network_risk", json_opt_float (ds_network_risk s));
   ("behavior_risk", json_opt_float (ds_behavior_risk s));
   ("network_observed", JBool (ds_network_observed s));
   ("behavior_observed", JBool (ds_behavior_observed s));
   ("propagated_risk", JFloat (ds_propagated_risk s));
   ("systemic_risk", JFloat (ds_systemic_risk s)); ("operational", JBool (ds_operational s));
   ("compromised", JBool (ds_compromised s));
   ("last_network_update", json_opt_str (ds_last_network_update s));
   ("last_behavior_update", json_opt_str (ds_last_behavior_update s));
   ("last_network_window", json_opt_int (ds_last_network_window s));
   ("last_behavior_window", json_opt_int (ds_last_behavior_window s))].

Definition device_view (s : DeviceState) : DeviceView :=
  mk_device_view (device_vars s) (Some (ds_node_id s)) (ds_network_risk s) (ds_behavior_risk s)
    (ds_behavior_supported s) (ds_propagated_risk s) (ds_systemic_risk s)
    (ds_network_observed s) (ds_behavior_observed s).

(** A correlation is bound to the call's workflow, entity, window and time. *)
Definition correlation_bound (workflow_id entity_id : string) (window_id : Z)
    (logical_timestamp : string) (t : ThreatCorrelationV1) : result unit :=
  first_error
    [check (bool_decide (thr_workflow_id t = workflow_id)) ValueError
       "threat correlation workflow_id mismatch";
     check (bool_decide (thr_entity_id t = entity_id)) ValueError
       "threat correlation entity_id mismatch";
     check (thr_window_id t =? window_id) ValueError "threat correlation window_id mismatch";
     check (bool_decide (thr_logical_timestamp t = logical_timestamp)) ValueError
       "threat correlation logical_timestamp mismatch"].

Definition view_direct_risk (v : DeviceView) : option f64 :=
  match dw_network_risk v, dw_behavior_risk v with
  | Some n, Some b => Some (f_max n b)
  | Some n, None => Some n
  | None, Some b => Some b
  | None, None => None
  end.

Definition evidence_complete_of (v : DeviceView) : bool :=
  if dw_behavior_supported v then dw_network_observed v && dw_behavior_observed v
  else dw_network_observed v.

Definition at_least (o : option f64) (x : f64) : bool :=
  match o with Some y => f_geb y x | None => false end.

Definition risk_reason_codes (v : DeviceView) : list string :=
  (if at_least (dw_network_risk v) f_half then ["network_risk_elevated"] else [])
  ++ (if at_least (dw_behavior_risk v) f_half then ["behavior_risk_elevated"] else [])
  ++ (if f_gtb (dw_propagated_risk v) f_0_1 then ["propagated_risk_present"] else [])
  ++ [if f_geb (dw_systemic_risk v) f_0_7 then "systemic_risk_high"
      else if f_geb (dw_systemic_risk v) f_0_4 then "systemic_risk_medium"
      else "systemic_risk_low"]
  ++ (if evidence_complete_of v then [] else ["incomplete_evidence"]).

Definition escalation_of (v : DeviceView) : string :=
  if f_geb (dw_systemic_risk v) f_0_7 then "BLOCK"
  else if f_geb (dw_systemic_risk v) f_0_4 || negb (evidence_complete_of v) then "MONITOR"
  else "ALLOW".

Definition risk_of (k : CallClock) (workflow_id entity_id : string) (window_id : Z)
    (logical_timestamp : string) (v : DeviceView) (correlations : list ThreatCorrelationV1)
    (provenance : option (list (string * json))) : RiskRecommendationV1 :=
  mk_risk (cc_uuid k) workflow_id entity_id window_id logical_timestamp (dw_network_risk v)
    (dw_behavior_risk v) (dw_behavior_supported v) (view_direct_risk v) (dw_propagated_risk v)
    (dw_systemic_risk v) (map thr_correlation_id correlations) (evidence_complete_of v)
    (risk_reason_codes v) (escalation_of v)
    (provenance_or provenance "agentic_workflow.risk_analyst") "agentic_workflow.risk_analyst".

Definition analyze (k : CallClock) (workflow_id entity_id : string) (window_id : Z)
    (logical_timestamp : string) (v : DeviceView) (correlations : list ThreatCorrelationV1)
    (provenance : option (list (string * json))) : AI RiskRecommendationV1 :=
  _ ← lift (assert_agentic_safe (JDict (dw_vars v)) "risk_analyst device_state");
  _ ← lift (first_error (map (correlation_bound workflow_id entity_id window_id logical_timestamp)
        correlations));
  _ ← guardM (match dw_node_id v with Some n => bool_decide (n = entity_id) | None => true end)
        ValueError "device_state entity_id mismatch";
  _ ← guardM (dw_behavior_supported v || bool_decide (dw_behavior_risk v = None)) ValueError
        "behavior_risk must be None when behavior_supported is False";
  _ ← ag_record_latency "risk_analyst_ms" (duration_ms k);
  _ ← ag_increment "risk_recommendations" 1;
  let rec := risk_of k workflow_id entity_id window_id logical_timestamp v correlations provenance in
  _ ← lift (risk_validate rec);
  mret (ag_observe_output (mk_ag_hook_context AGENT_OUTPUT
    (Some (agent_id_value risk_propagation_analyst)) (Some workflow_id) (Some window_id)) rec).

(** ** Access control *)
Definition access_action (policy : Stage8PolicyConfig) (systemic : f64) (evidence_complete : bool)
    : ActionType :=
  if negb evidence_complete then
    if f_geb systemic (pc_block_threshold policy) then BLOCK else MONITOR
  else if f_geb systemic (pc_block_threshold policy) then BLOCK
  else if f_geb systemic (pc_monitor_threshold policy) then MONITOR
  else ALLOW.

Definition risk_bound (workflow_id entity_id : string) (window_id : Z) (logical_timestamp : string)
    (r : RiskRecommendationV1) : result unit :=
  first_error
    [check (bool_decide (rsk_workflow_id r = workflow_id)) ValueError
       "risk recommendation workflow_id mismatch";
     check (bool_decide (rsk_entity_id r = entity_id)) ValueError
       "risk recommendation entity_id mismatch";
     check (rsk_window_id r =? window_id) ValueError "risk recommendation window_id mismatch";
     check (bool_decide (rsk_logical_timestamp r = logical_timestamp)) ValueError
       "risk recommendation logical_timestamp mismatch"].

Definition action_counter (a : ActionType) : string :=
  match a with ALLOW => "access_allow" | MONITOR => "access_monitor" | BLOCK => "access_block" end.

Definition access_of (k : CallClock) (policy : Stage8PolicyConfig) (workflow_id entity_id : string)
    (window_id : Z) (logical_timestamp : string) (r : RiskRecommendationV1)
    (correlations : list ThreatCorrelationV1) (provenance : option (list (string * json)))
    : AccessRecommendationV1 :=
  mk_access (cc_uuid k) workflow_id entity_id window_id logical_timestamp
    (access_action policy (rsk_systemic_risk r) (rsk_evidence_complete r))
    (pc_policy_id policy) (pc_policy_version policy)
    (rsk_recommendation_id r :: map thr_correlation_id correlations)
    (rsk_evidence_complete r) (rsk_behavior_supported r)
    (rsk_reason_codes r
     ++ (if rsk_evidence_complete r then [] else ["missing_evidence_conservative"]))
    (provenance_or provenance "agentic_workflow.access_controller")
    "agentic_workflow.access_controller".

Definition decide_access (k : CallClock) (policy : Stage8PolicyConfig)
    (workflow_id entity_id : string) (window_id : Z) (logical_timestamp : string)
    (r : RiskRecommendationV1) (correlations : list ThreatCorrelationV1)
    (provenance : option (list (string * json))) : AI AccessRecommendationV1 :=
  _ ← lift (assert_agentic_safe (risk_dump r) "access_controller risk_recommendation");
  _ ← lift (risk_bound workflow_id entity_id window_id logical_timestamp r);
  _ ← lift (first_error (map (correlation_bound workflow_id entity_id window_id logical_timestamp)
        correlations));
  let rec := access_of k policy workflow_id entity_id window_id logical_timestamp r correlations
    provenance in
  _ ← ag_record_latency "access_controller_ms" (duration_ms k);
  _ ← ag_increment (action_counter (acc_action rec)) 1;
  _ ← lift (access_validate rec);
  mret (ag_observe_output (mk_ag_hook_context AGENT_OUTPUT
    (Some (agent_id_value trust_access_controller)) (Some workflow_id) (Some window_id)) rec).

(** * Model agents

    Models [agentic_workflow/network_agent.py] and [behavior_agent.py]: adapters
    that call the pipeline's detector or profiler once per dispatched record and
    report the execution. *)
(** A feature record: the fields the agents read. *)
Record FeatureRecord := mk_feature_record {
  fr_network_observed : bool;
  fr_source_mode : option string;
  fr_session_trace : option string;
  fr_device_id : option string;
  fr_fields : list (string * json);
}.

Definition agent_context (point : AgHookPoint) (d : AgentDispatchV1) : AgHookContext :=
  mk_ag_hook_context point (Some (agent_id_value (dsp_agent_id d))) (Some (dsp_workflow_id d))
    (Some (dsp_window_id d)).

Definition note_execution (k : CallClock) (d : AgentDispatchV1) (latency : string) : AI unit :=
  _ ← ag_record_latency latency (duration_ms k);
  _ ← ag_increment "agent_executions" 1;
  ag_note [("agent_id", JStr (agent_id_value (dsp_agent_id d)));
           ("window_id", JInt (dsp_window_id d)); ("duration_ms", JFloat (duration_ms k))].

Definition execution_of (k : CallClock) (d : AgentDispatchV1) (entity : option string)
    (output_refs : list string) (component : string) (provenance summary : list (string * json))
    : AgentExecutionResultV1 :=
  mk_execution (cc_uuid k) (dsp_dispatch_id d) (dsp_workflow_id d) (dsp_agent_id d)
    (dsp_window_id d) (dsp_logical_timestamp d) entity (dsp_input_refs d) output_refs
    (duration_ms k) component provenance summary.

Section agents.
(** [detector.finding_from_record(record, source_mode, session_trace)] *)
Variable detector : FeatureRecord → string → option string → result NetworkFinding.
(** [profiler.predict_record(record, source_mode, telemetry_context_active,
    current_window_id, session_trace)] *)
Variable profiler :
  FeatureRecord → string → bool → Z → option string → result (option BehaviorFinding).

Definition network_execute (k : CallClock) (dispatch : AgentDispatchV1) (record : FeatureRecord)
    : AI (AgentExecutionResultV1 * NetworkFinding) :=
  _ ← guardM (bool_decide (dsp_agent_id dispatch = network_anomaly_detector)) ValueError
        ("dispatch agent mismatch " +:+ agent_id_value (dsp_agent_id dispatch));
  let record := ag_observe_input (agent_context AGENT_INPUT dispatch) record in
  _ ← guardM (fr_network_observed record) ValueError
        "network_observed False must not invoke NetworkAgent";
  finding ← lift (detector record (default "feature_store" (fr_source_mode record))
        (fr_session_trace record));
  let finding := ag_observe_output (agent_context AGENT_OUTPUT dispatch) finding in
  _ ← note_execution k dispatch "network_agent_ms";
  let out := execution_of k dispatch (Some (nf_entity_id finding))
    ["finding:" +:+ nf_entity_id finding +:+ ":" +:+ fmt_int (nf_window_id finding)]
    "agentic_workflow.network_agent"
    [("detector_model_id", JStr (nf_source_model finding))]
    [("attack_probability", JFloat (nf_attack_probability finding));
     ("predicted_class", JStr (nf_predicted_class finding))] in
  _ ← lift (execution_validate out);
  mret (out, finding).

Definition behavior_execute (k : CallClock) (dispatch : AgentDispatchV1) (record : FeatureRecord)
    (telemetry_context_active : bool) : AI (AgentExecutionResultV1 * option BehaviorFinding) :=
  _ ← guardM (bool_decide (dsp_agent_id dispatch = iot_behavioral_profiler)) ValueError
        ("dispatch agent mismatch " +:+ agent_id_value (dsp_agent_id dispatch));
  let record := ag_observe_input (agent_context AGENT_INPUT dispatch) record in
  finding ← lift (profiler record (default "feature_store" (fr_source_mode record))
        telemetry_context_active (dsp_window_id dispatch) (fr_session_trace record));
  let finding := ag_observe_output (agent_context AGENT_OUTPUT dispatch) finding in
  _ ← note_execution k dispatch "behavior_agent_ms";
  let out := match finding with
    | None => execution_of k dispatch (fr_device_id record) [] "agentic_workflow.behavior_agent"
        [("behavior_supported", JBool false)] [("finding", JNull)]
    | Some f => execution_of k dispatch (Some (bf_entity_id f))
        ["finding:" +:+ bf_entity_id f +:+ ":" +:+ fmt_int (bf_window_id f)]
        "agentic_workflow.behavior_agent" [("profiler_model_id", JStr (bf_source_model f))]
        [("deviation_score", JFloat (bf_deviation_score f));
         ("profile_type", JStr (bf_profile_type f))]
    end in
  _ ← lift (execution_validate out);
  mret (out, finding).
End agents.
