(* ===== verification/AgCommit.v ===== *)
(** * Action commit

    Models [agentic_workflow/action_commit.py]: the [Ledger] protocol as a type
    class, the bounded in-memory ledger, and the committer, whose code is the
    same over any ledger. *)

From S2P Require Import Prelude PyString Json Firewall AgContracts AgRecords AgCore AgSpecialists.

(** [(workflow_id, replay_id, window_id, entity_id)] *)
Definition ActionKey : Type := string * string * Z * string.

(** ** The protocol *)
Class Ledger (L : Type) := {
  ledger_put : ActionKey → EnforcementDecisionV1 → M L EnforcementDecisionV1;
  ledger_get : ActionKey → M L (option EnforcementDecisionV1);
}.

(** What the committer relies on.  [ledger_holds l k] is the decision a ledger
    answers for a key.  A lookup that returns says what is held and forgets
    nothing; a put into a free key stores exactly the decision, and a put that
    raises stores no other. *)
Class LedgerLaws (L : Type) `{Ledger L} := {
  ledger_ok : L → Prop;
  ledger_holds : L → ActionKey → option EnforcementDecisionV1;
  ledger_get_law l k out l' :
    ledger_ok l → ledger_get k l = (out, l') →
    ledger_ok l' ∧ (∀ k', ledger_holds l' k' = ledger_holds l k') ∧
    match out with Ok r => r = ledger_holds l k | Raise _ => True end;
  ledger_put_law l k d out l' :
    ledger_ok l → ledger_holds l k = None → ledger_put k d l = (out, l') →
    ledger_ok l' ∧
    match out with
    | Ok d' => d' = d ∧ ledger_holds l' k = Some d
    | Raise _ => ∀ d', ledger_holds l' k = Some d' → d' = d
    end ∧
    (∀ k' d', k' ≠ k → ledger_holds l' k' = Some d' → ledger_holds l k' = Some d');
}.

(** ** In memory *)
Record InMemoryLedger := mk_memory_ledger {
  ml_limit : nat;
  ml_store : gmap ActionKey EnforcementDecisionV1;
  ml_order : list ActionKey;
}.

Definition new_memory_ledger (limit : Z) : result InMemoryLedger :=
  _ ← check (1 <=? limit) ValueError "limit must be positive";
  Ok (mk_memory_ledger (Z.to_nat limit) ∅ []).

(** [while len(self._order) > self.limit: old = self._order.pop(0); ...] *)
Fixpoint evict_actions (n : nat) (order : list ActionKey)
    (store : gmap ActionKey EnforcementDecisionV1)
    : list ActionKey * gmap ActionKey EnforcementDecisionV1 :=
  match n, order with
  | S n, old :: order => evict_actions n order (delete old store)
  | _, _ => (order, store)
  end.

Definition memory_put (key : ActionKey) (decision : EnforcementDecisionV1)
    : M InMemoryLedger EnforcementDecisionV1 := λ l,
  let '(order, store) :=
    match ml_store l !! key with
    | Some _ => (ml_order l, ml_store l)
    | None =>
        let order := ml_order l ++ [key] in
        evict_actions (length order - ml_limit l) order (ml_store l)
    end in
  (Ok decision, mk_memory_ledger (ml_limit l) (<[key := decision]> store) order).

Definition memory_get (key : ActionKey) : M InMemoryLedger (option EnforcementDecisionV1) :=
  gets (λ l, ml_store l !! key).

#[export] Instance in_memory_ledger : Ledger InMemoryLedger := {
  ledger_put := memory_put;
  ledger_get := memory_get;
}.

(** ** The committer *)
Record ActionCommitter (L : Type) := mk_committer {
  cm_ledger : L;
  cm_instrumentation : AgenticInstrumentation;
}.
Arguments mk_committer {_} _ _.
Arguments cm_ledger {_} _.
Arguments cm_instrumentation {_} _.

Section committer.
Context {L : Type} `{Ledger L}.

Definition CT (A : Type) : Type := M (ActionCommitter L) A.

Definition on_ledger {A} (f : M L A) : CT A := λ c,
  let '(out, l) := f (cm_ledger c) in (out, mk_committer l (cm_instrumentation c)).
Definition on_counter (name : string) : CT unit := λ c,
  let '(out, i) := ag_increment name 1 (cm_instrumentation c) in
  (out, mk_committer (cm_ledger c) i).

Definition same_action (existing : EnforcementDecisionV1) (rec : AccessRecommendationV1) : bool :=
  bool_decide (enf_action existing = acc_action rec)
  && bool_decide (enf_controller_recommendation_id existing = acc_recommendation_id rec).

Definition recommendation_bound (rec : AccessRecommendationV1) (workflow_id : string)
    (window_id : Z) (logical_timestamp entity_id : string) : result unit :=
  first_error
    [check (bool_decide (acc_workflow_id rec = workflow_id)) ValueError "workflow_id mismatch";
     check (acc_window_id rec =? window_id) ValueError "window_id mismatch";
     check (bool_decide (acc_entity_id rec = entity_id)) ValueError "entity_id mismatch";
     check (bool_decide (acc_logical_timestamp rec = logical_timestamp)) ValueError
       "logical_timestamp mismatch"].

(** The decision copies the recommendation; nothing is recalculated. *)
Definition enforcement_of (decision_id : string) (rec : AccessRecommendationV1)
    (workflow_id replay_id : string) (window_id : Z) (logical_timestamp entity_id : string)
    : EnforcementDecisionV1 :=
  mk_enforcement decision_id workflow_id replay_id window_id logical_timestamp entity_id
    (acc_action rec) (acc_recommendation_id rec) (acc_policy_id rec) (acc_policy_version rec)
    (acc_evidence_refs rec) (acc_reason_codes rec) (acc_evidence_complete rec)
    (acc_behavior_supported rec) trust_access_controller "agentic_workflow.action_commit"
    [("source_component", JStr "agentic_workflow.action_commit")].

(** An action is already recorded for the key: the same one, or a conflict. *)
Definition retry_or_conflict (existing : EnforcementDecisionV1) (rec : AccessRecommendationV1)
    (message : string) : CT EnforcementDecisionV1 :=
  if same_action existing rec
  then _ ← on_counter "action_duplicates"; mret existing
  else _ ← on_counter "action_conflicts"; throw ValueError message.

Definition conflict_message (existing : EnforcementDecisionV1) (rec : AccessRecommendationV1)
    : string :=
  "conflicting action: existing " +:+ action_value (enf_action existing) +:+ " vs new "
  +:+ action_value (acc_action rec).

Definition commit_action (decision_id : string) (rec : AccessRecommendationV1)
    (workflow_id replay_id : string) (window_id : Z) (logical_timestamp entity_id : string)
    : CT EnforcementDecisionV1 :=
  _ ← lift (assert_agentic_safe (access_dump rec) "action_commit recommendation");
  _ ← lift (recommendation_bound rec workflow_id window_id logical_timestamp entity_id);
  let key := (workflow_id, replay_id, window_id, entity_id) in
  existing ← on_ledger (ledger_get key);
  match existing with
  | Some e => retry_or_conflict e rec (conflict_message e rec)
  | None =>
      let rec := ag_observe_commit (mk_ag_hook_context ACTION_COMMIT
        (Some (acc_source_component rec)) (Some workflow_id) (Some window_id)) rec in
      let decision := enforcement_of decision_id rec workflow_id replay_id window_id
        logical_timestamp entity_id in
      _ ← lift (enforcement_validate decision);
      existing2 ← on_ledger (ledger_get key);
      match existing2 with
      | Some e => retry_or_conflict e rec "conflicting action retry"
      | None =>
          decision ← on_ledger (ledger_put key decision);
          _ ← on_counter "action_commits";
          mret decision
      end
  end.
End committer.
