(* ===== verification/BsService.v ===== *)
(** * The Blackboard service

    Models [backend/app/services/blackboard_service.py], the process-level
    facade of one three-replica coordinator, with the parts of the contracts
    [device_state_v1.py], [srep_snapshot_v1.py] and [blackboard_v1.py] it reads
    or builds; its snapshot is at the end of the file.  The coordinator is created lazily in the source; here the service
    holds it from the start.  What a write or read takes from outside is a
    [ServiceEnv]: the surroundings of each attempt and of each head lookup.  The
    events the phase listener publishes while a write is running are left out;
    a listener cannot influence the write. *)

From S2P Require Import Prelude PyString Json Firewall BbContracts BbStorage BbAuthorization BbReplica.
From S2P Require Import BbInstrumentation BbCoordinator BbReads SimDevices AgRecords.

Definition MAX_PROPOSE_RETRIES : nat := 5.

(** ** Events *)
Record BlackboardEvent := mk_bb_event {
  be_event_type : string;
  be_payload : list (string * json);
  be_replay_id : option string;
  be_window_id : option Z;
  be_logical_timestamp : option string;
  be_entity_id : option string;
}.

(** [OUTCOME_EVENT] *)
Definition outcome_event (o : WriteOutcome) : string :=
  match o with
  | COMMITTED => "BLACKBOARD_WRITE_COMMITTED"
  | PARTIAL_COMMIT => "BLACKBOARD_WRITE_PARTIAL"
  | REJECTED_STALE => "BLACKBOARD_STALE_WRITE"
  | REJECTED_CONFLICT => "BLACKBOARD_CONFLICT"
  | REJECTED_SCHEMA => "BLACKBOARD_WRITE_REJECTED"
  | REJECTED_AUTHORIZATION => "BLACKBOARD_WRITE_REJECTED"
  | FAILED_QUORUM => "BLACKBOARD_QUORUM_FAILED"
  | FAILED_STORAGE => "BLACKBOARD_STORAGE_FAILED"
  end.

Definition sync_state_value (s : ReplicationSyncState) : string :=
  match s with
  | SYNCED => "SYNCED"
  | DIVERGENT_REQUIRES_RECONCILIATION => "DIVERGENT_REQUIRES_RECONCILIATION"
  | NOT_PREPARED => "NOT_PREPARED"
  | SYNC_ABORTED => "ABORTED"
  | SYNC_UNAVAILABLE => "UNAVAILABLE"
  end.

Definition read_outcome_value (o : ReadOutcome) : string :=
  match o with
  | CONSISTENT => "CONSISTENT"
  | DEGRADED_CONSISTENT => "DEGRADED_CONSISTENT"
  | NOT_FOUND => "NOT_FOUND"
  | INSUFFICIENT_QUORUM => "INSUFFICIENT_QUORUM"
  | INCONSISTENT => "INCONSISTENT"
  | READ_UNAVAILABLE => "UNAVAILABLE"
  | AUTHORIZATION_REJECTED => "AUTHORIZATION_REJECTED"
  end.

(** ** State *)
Record BlackboardService := mk_service {
  bs_coordinator : BlackboardCoordinator;
  bs_settings : BlackboardSettings;
  bs_enabled : bool;
  bs_publisher : option (BlackboardEvent → result unit);
  (** what the publisher was called with, oldest first *)
  bs_published : list BlackboardEvent;
  bs_integration_errors : Z;
  bs_network_recorded : Z;
  bs_behavior_recorded : Z;
  bs_last_health : option (list (string * string));
}.

Definition BSM (A : Type) : Type := M BlackboardService A.

Definition set_service (coordinator : BlackboardCoordinator) (published : list BlackboardEvent)
    (errors network behavior : Z) (last_health : option (list (string * string)))
    (s : BlackboardService) : BlackboardService :=
  mk_service coordinator (bs_settings s) (bs_enabled s) (bs_publisher s) published errors network
    behavior last_health.

Definition on_coordinator {A} (f : CM A) : BSM A := λ s,
  let '(out, c) := f (bs_coordinator s) in
  (out, set_service c (bs_published s) (bs_integration_errors s) (bs_network_recorded s)
          (bs_behavior_recorded s) (bs_last_health s) s).

Definition count_error : BSM unit :=
  modify (λ s, set_service (bs_coordinator s) (bs_published s) (bs_integration_errors s + 1)
    (bs_network_recorded s) (bs_behavior_recorded s) (bs_last_health s) s).

Definition count_recorded (network behavior : Z) : BSM unit :=
  modify (λ s, set_service (bs_coordinator s) (bs_published s) (bs_integration_errors s)
    (bs_network_recorded s + network) (bs_behavior_recorded s + behavior) (bs_last_health s) s).

Definition set_last_health (h : list (string * string)) : BSM unit :=
  modify (λ s, set_service (bs_coordinator s) (bs_published s) (bs_integration_errors s)
    (bs_network_recorded s) (bs_behavior_recorded s) (Some h) s).

(** [try: ... except Exception: ...] *)
Definition or_else {A} (f handler : BSM A) : BSM A := λ s,
  match f s with
  | (Ok a, s') => (Ok a, s')
  | (Raise _, s') => handler s'
  end.

Definition publish_event (event_type : string) (payload : list (string * json))
    (replay_id : option string) (window_id : option Z) (logical_timestamp entity_id : option string)
    : BSM unit := λ s,
  match bs_publisher s with
  | None => (Ok tt, s)
  | Some publisher =>
      let e := mk_bb_event event_type payload replay_id window_id logical_timestamp entity_id in
      let s := set_service (bs_coordinator s) (bs_published s ++ [e]) (bs_integration_errors s)
                 (bs_network_recorded s) (bs_behavior_recorded s) (bs_last_health s) s in
      match publisher e with
      | Ok _ => (Ok tt, s)
      | Raise _ => count_error s
      end
  end.

(** The [ctx] dictionary of a write; [setdefault] keeps a value that is there. *)
Record WriteCtx := mk_write_ctx {
  cx_replay_id : option string;
  cx_entity_id : option string;
  cx_author_id : option string;
  cx_source_component : option string;
  cx_window_id : option (option Z);
  cx_logical_timestamp : option (option string);
}.

Definition ctx_of (replay_id entity_id : option string) : WriteCtx :=
  mk_write_ctx replay_id entity_id None None None None.

Definition ctx_defaults (author component : string) (window_id : option Z)
    (logical_timestamp : option string) (c : WriteCtx) : WriteCtx :=
  mk_write_ctx (cx_replay_id c) (cx_entity_id c) (Some author) (Some component)
    (Some (default window_id (cx_window_id c)))
    (Some (default logical_timestamp (cx_logical_timestamp c))).

Section service.
Context `{PyRuntime}.

Definition terminal_payload (required : Z) (r : WriteResultV1) (c : WriteCtx)
    : list (string * json) :=
  let durable := filter (λ a, a_ack_status a = ACK_COMMITTED ∧ a_operation_kind a = "COMMIT")
                   (w_acks r) in
  [("outcome", JStr (write_outcome_value (w_outcome r)));
   ("operation_id", JStr (w_operation_id r));
   ("record_id", json_opt_str (w_record_id r));
   ("record_key", json_opt_str (w_record_key r));
   ("record_type", json_opt_str (w_record_type r));
   ("record_version", json_opt_int (w_record_version r));
   ("content_hash", json_opt_str (w_content_hash r));
   ("ack_count", JInt (Z.of_nat (length durable)));
   ("required_quorum", JInt required);
   ("acknowledgements", JList (map (λ a, JDict
      [("replica_id", JStr (a_replica_id a)); ("operation_kind", JStr (a_operation_kind a));
       ("ack_status", JStr (ack_status_value (a_ack_status a)))]) (w_acks r)));
   ("author_id", json_opt_str (cx_author_id c));
   ("source_component", json_opt_str (cx_source_component c));
   ("logical_timestamp", json_opt_str (default None (cx_logical_timestamp c)));
   ("window_id", json_opt_int (default None (cx_window_id c)));
   ("commit_latency_ms", JFloat (float_round (w_duration_ms r) 3))]
  ++ (if bool_decide (w_outcome r = COMMITTED) then []
      else [("reason", json_opt_str (w_reason r))])
  ++ [("replica_sync", JDict (map (λ kv, (kv.1, JStr (sync_state_value kv.2))) (w_replica_sync r)))].

Definition emit_terminal (r : WriteResultV1) (c : WriteCtx) : BSM unit :=
  required ← gets (quorum_size ∘ bs_settings);
  _ ← publish_event (outcome_event (w_outcome r)) (terminal_payload required r c) (cx_replay_id c)
        (default None (cx_window_id c)) (default None (cx_logical_timestamp c)) (cx_entity_id c);
  let aborted := map a_replica_id
    (filter (λ a, a_ack_status a = ABORTED ∧ a_operation_kind a = "ABORT") (w_acks r)) in
  if bool_decide (aborted = []) then mret tt
  else publish_event "BLACKBOARD_WRITE_ABORTED"
         [("operation_id", JStr (w_operation_id r)); ("record_key", json_opt_str (w_record_key r));
          ("aborted_replicas", JList (map JStr aborted));
          ("outcome", JStr (write_outcome_value (w_outcome r)))]
         (cx_replay_id c) (default None (cx_window_id c)) None (cx_entity_id c).

Definition health_values (c : BlackboardCoordinator) : list (string * string) :=
  map (λ kv, (kv.1, hr_health kv.2)) (replica_health c).

Definition status_payload (rid : string) (h : HealthReport) : list (string * json) :=
  [("replica_id", JStr rid); ("health", JStr (hr_health h));
   ("storage_error_count", JInt (hr_storage_error_count h));
   ("last_error", json_opt_str (hr_last_error h));
   ("divergence_history", JList (map JStr (py_slice (-5) (Z.of_nat (length (hr_divergence_history h)))
      (hr_divergence_history h))))].

(** A status event for every replica whose health changed since the last look. *)
Definition watch_replica_health (replay_id : option string) : BSM unit :=
  c ← gets bs_coordinator;
  last ← gets bs_last_health;
  _ ← match last with
      | None => mret tt
      | Some previous =>
          foldM (λ _ kv,
            if bool_decide (od_get kv.1 previous = Some (hr_health kv.2)) then mret tt
            else publish_event "BLACKBOARD_REPLICA_STATUS" (status_payload kv.1 kv.2) replay_id
                   None None None) tt (replica_health c)
      end;
  set_last_health (health_values c).

(** ** Writes *)
Record ServiceEnv := mk_service_env {
  se_attempt : nat → OpEnv;
  se_head : nat → OpEnv;
}.

Definition propose_explicit (env : OpEnv) (draft : BlackboardRecordDraft) (principal : string)
    (c : WriteCtx) : BSM WriteResultV1 :=
  r ← on_coordinator (propose AllowAll env None (ProposeDraft draft) principal);
  let c := ctx_defaults (d_author_id draft) (d_source_component draft) (d_window_id draft)
             (d_logical_timestamp draft) c in
  _ ← emit_terminal r c;
  _ ← watch_replica_health (cx_replay_id c);
  mret r.

(** At most [tries] attempts, each at the version after the current head; only a
    stale rejection is retried.  A draft that breaks a rule of its model raises. *)
Fixpoint propose_attempts (env : ServiceEnv) (attempt tries : nat) (key : string)
    (record_type : BlackboardRecordType) (author_id source_component : string)
    (payload provenance : list (string * json)) (logical_timestamp : option string)
    (window_id : option Z) (c : WriteCtx) (principal : string) (last : option WriteResultV1)
    : BSM (option WriteResultV1) :=
  match tries with
  | O => mret last
  | S tries =>
      head ← on_coordinator (head_version (se_head env attempt) key);
      draft ← lift (validate_draft (mk_draft key record_type (head + 1) logical_timestamp window_id
                     author_id source_component payload provenance));
      let c := ctx_defaults author_id source_component window_id logical_timestamp c in
      r ← propose_explicit (se_attempt env attempt) draft principal c;
      if bool_decide (w_outcome r = REJECTED_STALE)
      then propose_attempts env (S attempt) tries key record_type author_id source_component payload
             provenance logical_timestamp window_id c principal (Some r)
      else mret (Some r)
  end.

Definition propose_next_version (env : ServiceEnv) (key : string)
    (record_type : BlackboardRecordType) (author_id source_component : string)
    (payload provenance : list (string * json)) (logical_timestamp : option string)
    (window_id : option Z) (c : WriteCtx) (principal : option string)
    : BSM (option WriteResultV1) :=
  propose_attempts env 0 MAX_PROPOSE_RETRIES key record_type author_id source_component payload
    provenance logical_timestamp window_id c
    (match principal with
     | Some p => if bool_decide (p = "") then author_id else p
     | None => author_id
     end) None.

(** ** Accepted findings *)
Inductive AcceptedFinding :=
  | AFNetwork (f : NetworkFinding)
  | AFBehavior (f : BehaviorFinding).

Definition af_entity (f : AcceptedFinding) : string :=
  match f with AFNetwork f => nf_entity_id f | AFBehavior f => bf_entity_id f end.

Definition finding_key (replay_id : string) (f : AcceptedFinding) : string :=
  match f with
  | AFNetwork f => "finding/network/" +:+ replay_id +:+ "/" +:+ nf_entity_id f
  | AFBehavior f => "finding/behavior/" +:+ replay_id +:+ "/" +:+ bf_entity_id f
  end.

Definition finding_payload (f : AcceptedFinding) : list (string * json) :=
  match f with
  | AFNetwork f =>
      [("evidence_kind", JStr "network"); ("entity_id", JStr (nf_entity_id f));
       ("attack_probability", JFloat (nf_attack_probability f));
       ("predicted_class", JStr (nf_predicted_class f)); ("confidence", JFloat (nf_confidence f));
       ("source_model", JStr (nf_source_model f))]
  | AFBehavior f =>
      [("evidence_kind", JStr "behavior"); ("entity_id", JStr (bf_entity_id f));
       ("deviation_score", JFloat (bf_deviation_score f));
       ("profile_type", JStr (bf_profile_type f)); ("confidence", JFloat (bf_confidence f));
       ("explanation", JStr (bf_explanation f)); ("source_model", JStr (bf_source_model f))]
  end.

Definition write_finding (env : ServiceEnv) (replay_id : string) (f : AcceptedFinding)
    : BSM (option WriteResultV1) :=
  let c := ctx_of (Some replay_id) (Some (af_entity f)) in
  match f with
  | AFNetwork nf =>
      propose_next_version env (finding_key replay_id f) NETWORK_FINDING_RECORD "network_detector"
        "pipeline.network_detector" (finding_payload f) (nf_provenance nf)
        (Some (nf_timestamp_utc nf)) (Some (nf_window_id nf)) c None
  | AFBehavior bf =>
      propose_next_version env (finding_key replay_id f) BEHAVIOR_FINDING_RECORD
        "behavior_profiler" "pipeline.behavior_profiler" (finding_payload f) (bf_provenance bf)
        (Some (bf_timestamp_utc bf)) (Some (bf_window_id bf)) c None
  end.

Definition recorded (o : WriteOutcome) : bool :=
  bool_decide (o = COMMITTED) || bool_decide (o = PARTIAL_COMMIT).

(** Any exception is counted and reported as a rejected write. *)
Definition record_finding (env : ServiceEnv) (replay_id : string) (f : AcceptedFinding)
    : BSM (option WriteResultV1) :=
  enabled ← gets bs_enabled;
  if negb enabled then mret None
  else or_else
    (r ← write_finding env replay_id f;
     _ ← match r with
         | Some w => if recorded (w_outcome w)
                     then match f with
                          | AFNetwork _ => count_recorded 1 0
                          | AFBehavior _ => count_recorded 0 1
                          end
                     else mret tt
         | None => mret tt
         end;
     mret r)
    (_ ← count_error;
     _ ← publish_event "BLACKBOARD_WRITE_REJECTED"
           [("outcome", JStr "REJECTED_SCHEMA"); ("reason", JStr "integration error");
            ("record_key", JStr (af_entity f)); ("replay_id", JStr replay_id)]
           (Some replay_id) None None (Some (af_entity f));
     mret None).

(** ** Final state *)
Record DeviceStateV1 := mk_device_state_v1 {
  dx_replay_id : string;
  dx_entity_id : string;
  dx_logical_timestamp : option string;
  dx_window_id : option Z;
  dx_network_observed : bool;
  dx_behavior_observed : bool;
  dx_behavior_supported : bool;
  dx_propagated_risk : option f64;
  dx_is_attacker : bool;
  dx_is_protected_asset : bool;
  dx_operational_state : option bool;
  dx_compromise_state : option bool;
  dx_provenance : list (string * json);
}.

Definition json_opt_f64 (o : option f64) : json := match o with Some x => JFloat x | None => JNull end.
Definition json_opt_bool (o : option bool) : json := match o with Some b => JBool b | None => JNull end.

Definition device_state_payload (d : DeviceStateV1) : list (string * json) :=
  [("network_observed", JBool (dx_network_observed d));
   ("behavior_observed", JBool (dx_behavior_observed d));
   ("behavior_supported", JBool (dx_behavior_supported d));
   ("propagated_risk", json_opt_f64 (dx_propagated_risk d));
   ("is_attacker", JBool (dx_is_attacker d));
   ("is_protected_asset", JBool (dx_is_protected_asset d));
   ("operational_state", json_opt_bool (dx_operational_state d));
   ("compromise_state", json_opt_bool (dx_compromise_state d))].

(** [try: self._propose_next_version(...) except Exception: errors += 1] *)
Definition swallow (f : BSM (option WriteResultV1)) : BSM unit :=
  enabled ← gets bs_enabled;
  if negb enabled then mret tt else or_else (_ ← f; mret tt) count_error.

Definition record_device_state (env : ServiceEnv) (replay_id : string) (d : DeviceStateV1)
    : BSM unit :=
  swallow (propose_next_version env ("device_state/" +:+ replay_id +:+ "/" +:+ dx_entity_id d)
    DEVICE_STATE_RECORD "device_abm" "simulation.abm" (device_state_payload d) (dx_provenance d)
    (dx_logical_timestamp d) (dx_window_id d) (ctx_of (Some replay_id) (Some (dx_entity_id d))) None).

Record SrepSnapshotV1 := mk_srep_snapshot_v1 {
  sx_replay_id : string;
  sx_mode : string;
  sx_mode_note : option string;
  sx_window_id : option Z;
  sx_steps_replayed : option Z;
  sx_defended_blast_radius : option f64;
  sx_compromised_protected_assets : list string;
  sx_top_risky_protected_nodes : list (list (string * json));
}.

Definition srep_payload (s : SrepSnapshotV1) : list (string * json) :=
  [("mode", JStr (sx_mode s)); ("mode_note", json_opt_str (sx_mode_note s));
   ("defended_blast_radius", json_opt_f64 (sx_defended_blast_radius s));
   ("compromised_protected_assets", JList (map JStr (sx_compromised_protected_assets s)));
   ("top_risky_protected_nodes", JList (map JDict (take 10 (sx_top_risky_protected_nodes s))));
   ("steps_replayed", json_opt_int (sx_steps_replayed s));
   ("last_window_id", json_opt_int (sx_window_id s))].

Definition record_srep_snapshot (env : ServiceEnv) (replay_id : string) (s : SrepSnapshotV1)
    : BSM unit :=
  swallow (propose_next_version env ("srep_snapshot/" +:+ replay_id) DEVICE_ONLY_SREP_RECORD
    "device_srep" "srep.device_srep" (srep_payload s) [] None (sx_window_id s)
    (ctx_of (Some replay_id) None) None).

(** ** Workflow outputs *)
Definition workflow_prefix (t : BlackboardRecordType) : string :=
  match t with
  | THREAT_CORRELATION_RECORD => "workflow/threat"
  | RISK_RECOMMENDATION_RECORD => "workflow/risk"
  | ACCESS_RECOMMENDATION_RECORD => "workflow/access"
  | ENFORCEMENT_DECISION_RECORD => "workflow/action"
  | CONFIRMED_FEEDBACK_RECORD => "workflow/feedback"
  | _ => "workflow/unknown"
  end.

(** [payload.get("feedback_id", entity_id)], a string in every payload written. *)
Definition feedback_ref (payload : list (string * json)) (entity_id : string) : string :=
  match od_get "feedback_id" payload with Some (JStr s) => s | _ => entity_id end.

Definition workflow_key (t : BlackboardRecordType) (replay_id : string) (window_id : Z)
    (entity_id : string) (payload : list (string * json)) : string :=
  if bool_decide (t = CONFIRMED_FEEDBACK_RECORD)
  then workflow_prefix t +:+ "/" +:+ replay_id +:+ "/" +:+ feedback_ref payload entity_id
  else workflow_prefix t +:+ "/" +:+ replay_id +:+ "/" +:+ fmt_int window_id +:+ "/" +:+ entity_id.

Definition record_workflow_output (env : ServiceEnv) (replay_id : string) (window_id : Z)
    (entity_id : string) (t : BlackboardRecordType) (payload provenance : list (string * json))
    (logical_timestamp : option string) (author_id source_component : string)
    : BSM (option WriteResultV1) :=
  enabled ← gets bs_enabled;
  if negb enabled then mret None
  else or_else
    (propose_next_version env (workflow_key t replay_id window_id entity_id payload) t author_id
       source_component payload provenance logical_timestamp (Some window_id)
       (ctx_of (Some replay_id) (Some entity_id)) None)
    (_ ← count_error; mret None).

Definition record_confirmed_feedback (env : ServiceEnv) (replay_id : string)
    (feedback : ConfirmedFeedbackV1) (principal : string) : BSM (option WriteResultV1) :=
  enabled ← gets bs_enabled;
  if negb enabled then mret None
  else or_else
    (record_workflow_output env replay_id (fbk_window_id feedback) (fbk_entity_id feedback)
       CONFIRMED_FEEDBACK_RECORD (feedback_fields feedback) (fbk_provenance feedback)
       (Some (fbk_submitted_at feedback)) principal "agentic_workflow.confirmed_feedback")
    (_ ← count_error; mret None).

(** ** Reads *)
Definition read_event (key : string) (r : ReadResultV1) (requested_version : option Z) : BSM unit :=
  publish_event
    (if bool_decide (rd_outcome r = INCONSISTENT) then "BLACKBOARD_READ_INCONSISTENT"
     else "BLACKBOARD_READ")
    [("read_operation_id", JStr (rd_read_operation_id r)); ("record_key", JStr key);
     ("requested_version", json_opt_int requested_version);
     ("outcome", JStr (read_outcome_value (rd_outcome r)));
     ("observations", JList (map (λ o, JDict
        [("replica_id", JStr (po_replica_id o)); ("responded", JBool (po_responded o));
         ("found", JBool (po_found o)); ("record_version", json_opt_int (po_record_version o));
         ("content_hash", json_opt_str (po_content_hash o))]) (rd_observations r)));
     ("divergent_replicas", JList (map JStr (rd_divergent_replicas r)));
     ("unavailable_replicas", JList (map JStr (rd_unavailable_replicas r)))] None None None None.

Definition service_read (env : OpEnv) (key : string) (version : option Z) (principal : string)
    : BSM ReadResultV1 :=
  r ← on_coordinator (read AllowAll env principal key version);
  _ ← (if bool_decide (rd_outcome r = AUTHORIZATION_REJECTED) then mret tt
       else read_event key r version);
  _ ← watch_replica_health None;
  mret r.

Definition service_read_latest (env : OpEnv) (key principal : string) : BSM ReadResultV1 :=
  service_read env key None principal.
Definition service_read_version (env : OpEnv) (key : string) (version : Z) (principal : string)
    : BSM ReadResultV1 := service_read env key (Some version) principal.

(** ** Development writes *)
Definition BLACKBOARD_DEV_WRITE_PAYLOAD_MAX_BYTES : Z := 65536.

Record DevWriteRequestV1 := mk_dev_write {
  dw_record_key : string;
  dw_payload : list (string * json);
  dw_provenance : list (string * json);
  dw_logical_timestamp : option string;
  dw_window_id : option Z;
}.

Record DevWriteResponseV1 := mk_dev_response {
  dr_outcome : string;
  dr_operation_id : string;
  dr_record_id : option string;
  dr_record_key : option string;
  dr_record_version : option Z;
  dr_content_hash : option string;
  dr_reason : option string;
  dr_replica_sync : list (string * string);
  dr_durable_commit_ack_count : Z;
}.

(** [payload_length] is [len(repr(request.payload))].  A loop that never ran would
    leave no result to report; it runs at least once. *)
Definition dev_write (env : ServiceEnv) (payload_length : Z) (request : DevWriteRequestV1)
    (principal : string) : BSM DevWriteResponseV1 :=
  _ ← guardM (payload_length <=? BLACKBOARD_DEV_WRITE_PAYLOAD_MAX_BYTES)
        (OtherError "BlackboardServiceError") "payload_too_large";
  r ← propose_next_version env (dw_record_key request) SYSTEM_RECORD principal
        "api.development_write" (dw_payload request) (dw_provenance request)
        (dw_logical_timestamp request) (dw_window_id request) (ctx_of None None) (Some principal);
  w ← lift (of_option r (OtherError "AttributeError") "'NoneType' object has no attribute 'acks'");
  let durable := filter (λ a, a_ack_status a = ACK_COMMITTED ∧ a_operation_kind a = "COMMIT")
                   (w_acks w) in
  mret (mk_dev_response (write_outcome_value (w_outcome w)) (w_operation_id w) (w_record_id w)
    (w_record_key w) (w_record_version w) (w_content_hash w) (w_reason w)
    (map (λ kv, (kv.1, sync_state_value kv.2)) (w_replica_sync w)) (Z.of_nat (length durable))).

(** ** Status and listing *)
Record ReplicaStatusV1 := mk_replica_status {
  rs_replica_id : string;
  rs_health : string;
  rs_available : bool;
  rs_storage_error_count : Z;
  rs_last_error : option string;
  rs_committed_record_count : Z;
  rs_pending_record_count : Z;
  rs_divergence_history : list string;
}.

Definition replica_status (r : BlackboardReplica) : ReplicaStatusV1 :=
  mk_replica_status (replica_id r) (replica_health_value (health r))
    (negb (bool_decide (health r = HEALTH_UNAVAILABLE))) (storage_error_count r) (last_error r)
    (count_committed (replica_db r) None) (count_pending (replica_db r)) (divergence_history r).

Definition replica_statuses (s : BlackboardService) : list ReplicaStatusV1 :=
  map replica_status (co_replicas (bs_coordinator s)).

Definition service_counters (s : BlackboardService) : list (string * Z) :=
  i_counters (co_instrumentation (bs_coordinator s)).

Record BlackboardHealthV1 := mk_bb_health {
  bh_status : string;
  bh_replicas_available : Z;
  bh_replicas_total : Z;
  bh_divergent_replicas : list string;
  bh_counters : list (string * Z);
}.

Definition service_health (s : BlackboardService) : BlackboardHealthV1 :=
  let statuses := replica_statuses s in
  let available := Z.of_nat (length (filter (λ x, Is_true (rs_available x)) statuses)) in
  let total := Z.of_nat (length statuses) in
  let divergent := map rs_replica_id (filter (λ x, rs_health x = "DIVERGED") statuses) in
  mk_bb_health
    (if (available =? total) && bool_decide (divergent = []) then "ok"
     else if quorum_size (bs_settings s) <=? available then "degraded" else "offline")
    available total divergent (service_counters s).

Record RecordPage := mk_page {
  pg_items : list ViewItem;
  pg_total : Z;
  pg_limit : Z;
  pg_offset : Z;
  pg_view : CommittedView;
}.

Definition list_records (record_type key_prefix : option string) (limit offset : Z)
    (s : BlackboardService) : RecordPage :=
  let view := committed_view (bs_coordinator s) key_prefix
                (committed_scan_max_rows (bs_settings s)) 0 None in
  let items := match record_type with
               | None => v_items view
               | Some t => filter (λ i, vi_record_type i = t) (v_items view)
               end in
  mk_page (py_slice offset (offset + limit) items) (Z.of_nat (length items)) limit offset view.

(** ** Reopening *)

(** The replicas the lazy property builds: the stores as they are on disk. *)
Definition reopen_replica (settings : BlackboardSettings) (r : BlackboardReplica)
    : BlackboardReplica :=
  new_replica (replica_id r) (replica_db r) (max_record_canonical_bytes settings)
    (pending_lease_seconds settings) 16.

(** [close] and the next use of [coordinator]. *)
Definition reopen_coordinator : BSM unit := λ s,
  match new_coordinator (map (reopen_replica (bs_settings s)) (co_replicas (bs_coordinator s)))
          (bs_settings s) None with
  | Raise e => (Raise e, s)
  | Ok c => (Ok tt, set_service c (bs_published s) (bs_integration_errors s) (bs_network_recorded s)
               (bs_behavior_recorded s) (bs_last_health s) s)
  end.

Definition committed_counts (s : BlackboardService) : list Z :=
  map (λ r, count_committed (replica_db r) None) (co_replicas (bs_coordinator s)).

Definition restart_persistence_check : BSM bool :=
  before ← gets committed_counts;
  _ ← reopen_coordinator;
  after ← gets committed_counts;
  mret (bool_decide (before = after)).
End service.

(** * The Blackboard snapshot

    Models [BlackboardService.snapshot]: the bounded operational projection of the
    committed view, and the ground-truth check of what it returns.  The snapshot
    number, the random part of its identifier and the time are arguments. *)
Definition BLACKBOARD_SNAPSHOT_SCHEMA_VERSION : string := "blackboard_snapshot_v1".
Definition BLACKBOARD_SNAPSHOT_RECENT_LIMIT : Z := 100.
Definition BLACKBOARD_SNAPSHOT_MAX_KEYS : nat := 500.

(** The last item of each key, for the first [max_keys] keys. *)
Definition latest_by_key (max_keys : nat) (items : list ViewItem) : list (string * ViewItem) :=
  foldl (λ latest i,
    if is_some (od_get (vi_record_key i) latest) || (length latest <? max_keys)%nat
    then od_set (vi_record_key i) i latest else latest) [] items.

(** [latencies]: the two global series, then one per replica and operation. *)
Definition instr_latencies `{PyRuntime} (i : BlackboardInstrumentation)
    : list (string * option LatencySnapshot) :=
  map (λ kv, (kv.1, latency_snapshot kv.2))
    (("write_global_ms", i_write_series i) :: ("read_global_ms", i_read_series i)
     :: i_replica_series i).

Record BlackboardSnapshotV1 := mk_bb_snapshot {
  bn_snapshot_id : string;
  bn_generated_at_utc : string;
  bn_latest_by_key : list (string * ViewItem);
  bn_recent_records : list ViewItem;
  bn_replica_statuses : list ReplicaStatusV1;
  bn_divergent_replicas : list string;
  bn_counters : list (string * Z);
  bn_latencies : list (string * option LatencySnapshot);
  bn_recent_rejections : list (list (string * json));
  bn_unverified_rows_excluded : Z;
  bn_truncated : bool;
  bn_truncated_replicas : list string;
  bn_bounds : list (string * json);
}.

(** ** [model_dump] *)
Definition view_item_dump (i : ViewItem) : json :=
  JDict [("record_key", JStr (vi_record_key i)); ("record_type", JStr (vi_record_type i));
         ("record_version", JInt (vi_record_version i)); ("record_id", JStr (vi_record_id i));
         ("content_hash", JStr (vi_content_hash i)); ("author_id", JStr (vi_author_id i));
         ("source_component", JStr (vi_source_component i));
         ("logical_timestamp", json_opt_str (vi_logical_timestamp i));
         ("window_id", json_opt_int (vi_window_id i));
         ("supporting_replicas", JList (map JStr (vi_supporting_replicas i)))].

Definition replica_status_dump (r : ReplicaStatusV1) : json :=
  JDict [("replica_id", JStr (rs_replica_id r)); ("health", JStr (rs_health r));
         ("available", JBool (rs_available r));
         ("storage_error_count", JInt (rs_storage_error_count r));
         ("last_error", json_opt_str (rs_last_error r));
         ("committed_record_count", JInt (rs_committed_record_count r));
         ("pending_record_count", JInt (rs_pending_record_count r));
         ("divergence_history", JList (map JStr (rs_divergence_history r))); ("head", JNull)].

Definition latency_dump (o : option LatencySnapshot) : json :=
  match o with
  | None => JDict [("count", JInt 0)]
  | Some l => JDict [("count", JInt (ls_count l)); ("p50_ms", JFloat (ls_p50_ms l));
      ("p95_ms", JFloat (ls_p95_ms l)); ("max_ms", JFloat (ls_max_ms l));
      ("mean_ms", JFloat (ls_mean_ms l))]
  end.

Definition snapshot_dump (n : BlackboardSnapshotV1) : json :=
  JDict [("schema_version", JStr BLACKBOARD_SNAPSHOT_SCHEMA_VERSION);
         ("snapshot_id", JStr (bn_snapshot_id n));
         ("generated_at_utc", JStr (bn_generated_at_utc n)); ("scope_replay_id", JNull);
         ("latest_by_key", JDict (map (λ kv, (kv.1, view_item_dump kv.2)) (bn_latest_by_key n)));
         ("recent_records", JList (map view_item_dump (bn_recent_records n)));
         ("replica_statuses", JList (map replica_status_dump (bn_replica_statuses n)));
         ("divergent_replicas", JList (map JStr (bn_divergent_replicas n)));
         ("counters", JDict (map (λ kv, (kv.1, JInt kv.2)) (bn_counters n)));
         ("latencies", JDict (map (λ kv, (kv.1, latency_dump kv.2)) (bn_latencies n)));
         ("recent_rejections", JList (map JDict (bn_recent_rejections n)));
         ("unverified_rows_excluded", JInt (bn_unverified_rows_excluded n));
         ("truncated", JBool (bn_truncated n));
         ("truncated_replicas", JList (map JStr (bn_truncated_replicas n)));
         ("bounds", JDict (bn_bounds n));
         ("provenance", JDict
            [("source_component", JStr "backend.app.services.blackboard_service");
             ("note", JStr "operational projection of the Stage-4A replicated core")])].

Section snapshot.
Context `{PyRuntime}.

Definition snapshot_bounds (settings : BlackboardSettings) (truncated : bool)
    : list (string * json) :=
  [("snapshot_recent_limit", JInt BLACKBOARD_SNAPSHOT_RECENT_LIMIT);
   ("snapshot_max_keys", JInt (Z.of_nat BLACKBOARD_SNAPSHOT_MAX_KEYS));
   ("committed_scan_max_rows", JInt (committed_scan_max_rows settings));
   ("committed_scan_chunk_size", JInt (committed_scan_chunk_size settings));
   ("view_complete", JBool (negb truncated))].

(** The number is printed with at least six digits. *)
Definition service_snapshot (number : Z) (uuid8 generated_at : string) (s : BlackboardService)
    : result BlackboardSnapshotV1 :=
  let view := committed_view (bs_coordinator s) None (committed_scan_max_rows (bs_settings s)) 0
                None in
  let items := v_items view in
  let instr := co_instrumentation (bs_coordinator s) in
  let snap := mk_bb_snapshot
    ("bbsnap-" +:+ fmt_06d number +:+ "-" +:+ uuid8) generated_at
    (latest_by_key BLACKBOARD_SNAPSHOT_MAX_KEYS items)
    (py_slice (- BLACKBOARD_SNAPSHOT_RECENT_LIMIT) (Z.of_nat (length items)) items)
    (replica_statuses s)
    (map rs_replica_id (filter (λ x, rs_health x = "DIVERGED") (replica_statuses s)))
    (service_counters s) (instr_latencies instr) (i_recent_rejections instr)
    (v_unverified_excluded view) (v_truncated view) (v_truncated_replicas view)
    (snapshot_bounds (bs_settings s) (v_truncated view)) in
  _ ← assert_no_ground_truth (snapshot_dump snap) "blackboard_snapshot";
  Ok snap.
End snapshot.
