(* ===== verification/BsFacts.v ===== *)
(** * Facts on the Blackboard service and the action ledger

    A small logic for the service's computations: they only take steps of the
    replica cluster and keep the service well formed, whatever they answer.  On
    it: what a write the service reports COMMITTED means, and that every action
    the ledger hands out is held by a quorum of replicas. *)

From S2P Require Import Prelude PyString Json BbContracts BbStorage BbAuthorization BbReplica BbReplicaFacts.
From S2P Require Import BbInstrumentation BbCoordinator BbCluster BbWriteFacts BbReads BbReadFacts.
From S2P Require Import BbConsistency SimDevices AgRecords BsService.

(** What a computation returns, whatever the state. *)
Definition returns {S A} (m : M S A) (Q : A → Prop) : Prop := ∀ s a s', m s = (Ok a, s') → Q a.

Lemma returns_bind {S A B} (m : M S A) (f : A → M S B) Q :
  (∀ a, returns (f a) Q) → returns (m ≫= f) Q.
Proof.
  intros Hf s b s'. unfold mbind, M_bind. destruct (m s) as [[a|e] s1]; [|done]. apply Hf.
Qed.

Section service.
Context `{PyRuntime}.

(** ** What a proposal names *)
Definition result_names (draft : Proposal) (res : WriteResultV1) : Prop :=
  w_outcome res ≠ COMMITTED ∨
  ∃ record max, proposal_record max draft = Ok record ∧
    w_record_key res = Some (r_record_key record) ∧
    w_record_version res = Some (r_record_version record) ∧
    w_record_id res = Some (r_record_id record).

Lemma write_result_names env op principal outcome reason record acks sync draft :
  match record with
  | Some r => ∃ max, proposal_record max draft = Ok r
  | None => outcome ≠ COMMITTED
  end →
  returns (write_result env op principal outcome reason record acks sync) (result_names draft).
Proof.
  intros Hr. apply returns_bind. intros u s res s' [= <- <-].
  destruct record as [r|]; [|by left]. destruct Hr as [max Hr]. right. by exists r, max.
Qed.

Lemma propose_names `{Authorizer Auth} (auth : Auth) env listener draft principal :
  returns (propose auth env listener draft principal) (result_names draft).
Proof.
  unfold propose. do 2 (apply returns_bind; intros ?). apply returns_bind. intros max.
  destruct (is_blank principal); [by apply write_result_names |].
  destruct (proposal_record max draft) as [record|e] eqn:Hr; [|by apply write_result_names].
  assert (Hw : ∀ env op p o rs acks sync,
    returns (write_result env op p o rs (Some record) acks sync) (result_names draft))
    by (intros; apply write_result_names; by exists max).
  apply returns_bind. intros decision.
  destruct (negb _); [by apply write_result_names; eexists |].
  apply returns_bind. intros u. unfold replicate. do 4 (apply returns_bind; intros ?).
  destruct (filter _ _); [by destruct (classify_total_rejection _) |].
  apply returns_bind. intros required. case_decide.
  - unfold commit_phase. do 7 (apply returns_bind; intros ?).
    by destruct (commit_outcome _ _ _ _ _).
  - unfold abort_phase. do 3 (apply returns_bind; intros ?). done.
Qed.

(** ** Computations of the service *)
Context (settings : BlackboardSettings) (ids : list string) (Hquorum : 1 ≤ quorum_size settings).

Abbreviation replicas s := (co_replicas (bs_coordinator s)).

Definition service_ok (s : BlackboardService) : Prop :=
  coord_ok settings ids (bs_coordinator s) ∧ bs_settings s = settings.

(** From a good service in [P]: only cluster steps, a good service of the same
    switch, and [Q] of what is returned. *)
Definition svc {A} (P : list BlackboardReplica → Prop) (m : BSM A)
    (Q : A → list BlackboardReplica → Prop) : Prop :=
  ∀ s out s', service_ok s → P (replicas s) → m s = (out, s') →
    rtc cluster_step (replicas s) (replicas s') ∧ service_ok s' ∧ bs_enabled s' = bs_enabled s ∧
    match out with Ok a => Q a (replicas s') | Raise _ => True end.

Lemma svc_ret {A} (P : list BlackboardReplica → Prop) (a : A) Q :
  (∀ rs, P rs → Q a rs) → svc P (mret a) Q.
Proof. intros HPQ s out s' Hs HP [= <- <-]. split_and!; try done. by apply HPQ. Qed.

Lemma svc_bind {A B} P R Q (m : BSM A) (f : A → BSM B) :
  svc P m R → (∀ a, svc (R a) (f a) Q) → svc P (m ≫= f) Q.
Proof.
  intros Hm Hf s out s' Hs HP. unfold mbind, M_bind. destruct (m s) as [[a|e] s1] eqn:Hms;
    destruct (Hm _ _ _ Hs HP Hms) as (H1 & Hs1 & He1 & HR); [|by intros [= <- <-]].
  intros Hfs. destruct (Hf a _ _ _ Hs1 HR Hfs) as (H2 & ? & ? & ?).
  split_and!; [by etrans | done | congruence | done].
Qed.

Lemma svc_weaken {A} (P P' : list BlackboardReplica → Prop) (Q Q' : A → list BlackboardReplica → Prop) m :
  (∀ rs, P' rs → P rs) → (∀ a rs, Q a rs → Q' a rs) → svc P m Q → svc P' m Q'.
Proof.
  intros HP HQ Hm s out s' Hs HP' Hrun. destruct (Hm _ _ _ Hs (HP _ HP') Hrun) as (? & ? & ? & Ha).
  split_and!; try done. destruct out; auto.
Qed.

Lemma svc_pure {A} (φ : Prop) (m : BSM A) Q :
  (φ → svc (λ _, True) m Q) → svc (λ _, φ) m Q.
Proof. intros Hm s out s' Hs Hφ. by apply (Hm Hφ). Qed.

(** What leaves the coordinator, the settings and the switch alone. *)
Lemma svc_frame {A} P (m : BSM A) :
  (∀ s, let s' := (m s).2 in bs_coordinator s' = bs_coordinator s ∧ bs_settings s' = bs_settings s ∧
     bs_enabled s' = bs_enabled s) →
  svc P m (λ _, P).
Proof.
  intros Hm s out s' [Hc Hset] HP Hrun. specialize (Hm s). rewrite Hrun in Hm. cbn in Hm.
  destruct Hm as (Ec & Es & Ee). unfold service_ok. rewrite Ec, Es, Ee.
  split_and!; try done. by destruct out.
Qed.

Lemma svc_publish P event_type payload replay_id window_id ts entity_id :
  svc P (publish_event event_type payload replay_id window_id ts entity_id) (λ _, P).
Proof.
  apply svc_frame. intros s. unfold publish_event. destruct (bs_publisher s) as [pub|]; [|done].
  cbn. by destruct (pub _).
Qed.

Lemma svc_gets {A} P (f : BlackboardService → A) : svc P (gets f) (λ _, P).
Proof. by apply svc_frame. Qed.

Lemma svc_foldM {A B} P (f : B → A → BSM B) l :
  (∀ acc x, svc P (f acc x) (λ _, P)) → ∀ acc, svc P (foldM f acc l) (λ _, P).
Proof.
  intros Hf. induction l as [|x l IH]; intros acc; cbn; [by apply svc_ret |].
  apply (svc_bind P (λ _, P) (λ _, P) (f acc x) (λ acc', foldM f acc' l)); [done |]. apply IH.
Qed.

Lemma svc_watch P replay_id : svc P (watch_replica_health replay_id) (λ _, P).
Proof.
  unfold watch_replica_health. eapply svc_bind; [apply svc_gets |]. intros c.
  eapply svc_bind; [apply svc_gets |]. intros last. eapply svc_bind; [|intros u; by apply svc_frame].
  destruct last as [previous|]; [|by apply svc_ret]. apply svc_foldM. intros acc kv.
  case_bool_decide; [by apply svc_ret | apply svc_publish].
Qed.

Lemma svc_emit P r c : svc P (emit_terminal r c) (λ _, P).
Proof.
  unfold emit_terminal. eapply svc_bind; [apply svc_gets |]. intros required.
  eapply svc_bind; [apply svc_publish |]. intros u. case_bool_decide; [by apply svc_ret | apply svc_publish].
Qed.

Lemma svc_coordinator {A} P (m : CM A) Q :
  triple settings ids (λ _, True) P m Q → svc P (on_coordinator m) Q.
Proof.
  intros Hm s out s' [Hc Hset] HP. unfold on_coordinator.
  destruct (m (bs_coordinator s)) as [o c] eqn:Hrun. intros [= <- <-].
  destruct (Hm _ _ _ Hc HP Hrun) as (Hr & Hs & Ho). cbn.
  split; [exact Hr |]. split; [split; [by eapply coord_ok_steps | done] |]. by destruct o.
Qed.

(** ** Writes *)

(** The write [w] put a valid record of this key and payload on a quorum. *)
Definition written (key : string) (payload : list (string * json)) (w : WriteResultV1)
    (rs : list BlackboardReplica) : Prop :=
  ∃ record, record_valid record ∧ r_record_key record = key ∧ r_payload record = payload ∧
    w_record_key w = Some key ∧ w_record_version w = Some (r_record_version record) ∧
    w_record_id w = Some (r_record_id record) ∧
    committed_on rs (quorum_size settings) key (r_record_version record) (r_record_id record).

(** What a recorded write promises. *)
Definition promises (key : string) (payload : list (string * json)) (o : option WriteResultV1)
    (rs : list BlackboardReplica) : Prop :=
  ∀ w, o = Some w → w_outcome w = COMMITTED → written key payload w rs.

Lemma proposal_record_draft max d record :
  proposal_record max (ProposeDraft d) = Ok record →
  record_valid record ∧ r_record_key record = d_record_key d ∧ r_payload record = d_payload d ∧
  r_record_version record = d_record_version d.
Proof.
  unfold proposal_record. rewrite result_bind_ok. intros (r & Hr & Hb).
  apply result_bind_ok in Hb as (u & _ & [= <-]).
  destruct (to_record_fields _ _ Hr) as (? & ? & ? & ?). split_and!; try done.
  unfold to_record in Hr. apply build_record_ok in Hr as (_ & Hf & Hv). by apply model_validate_ok.
Qed.

Lemma svc_propose env draft principal c :
  svc (λ _, True) (propose_explicit env draft principal c)
    (λ w rs, w_outcome w = COMMITTED → written (d_record_key draft) (d_payload draft) w rs).
Proof.
  unfold propose_explicit. eapply svc_bind.
  - intros s out s' Hs _ Hrun. destruct Hs as [(Hset & Hids & Hnd & Hwf) Hbs].
    pose proof (svc_coordinator (λ rs, rs = replicas s)
      (propose AllowAll env None (ProposeDraft draft) principal)
      (λ w rs, write_post settings ids (replicas s) w rs)
      (triple_propose (Auth := AllowAllDevelopmentAuthorizer) settings ids (λ _, True) Hnd
         (replicas s) ltac:(done) AllowAll env None
         (ProposeDraft draft) principal ltac:(done) ltac:(done)) s out s') as Hp.
    destruct Hp as (Hr & Hs' & He & Ho); [by split | done | done |].
    split; [exact Hr |]. split; [exact Hs' |]. split; [exact He |].
    instantiate (1 := λ w rs, w_outcome w = COMMITTED → written (d_record_key draft) (d_payload draft) w rs).
    destruct out as [w|e]; [|done]. cbn. intros Hcom.
    destruct (write_post_committed settings ids _ _ _ Hids Hquorum Ho Hcom) as
      (k & v & id & Ek & Ev & Ei & Hc).
    unfold on_coordinator in Hrun. destruct (propose _ _ _ _ _ _) as [o c1] eqn:Hpr.
    injection Hrun as -> _. destruct (propose_names (Auth := AllowAllDevelopmentAuthorizer) _ _ _ _ _ _ _ _ Hpr) as [Hn|(rec & max & Hrec & ? & ? & ?)];
      [done |]. apply proposal_record_draft in Hrec as (Hval & Hk & Hpay & Hver).
    exists rec. assert (k = d_record_key draft ∧ v = r_record_version rec ∧ id = r_record_id rec)
      as (-> & -> & ->) by (split_and!; congruence). split_and!; congruence || done.
  - intros w. cbn. eapply svc_bind; [apply svc_emit |]. intros u.
    eapply svc_bind; [apply svc_watch |]. intros u2. by apply svc_ret.
Qed.

Lemma svc_attempts env attempt tries key t author component payload provenance ts window c principal last :
  svc (λ rs, ∀ w, last = Some w → w_outcome w ≠ COMMITTED)
    (propose_attempts env attempt tries key t author component payload provenance ts window c
       principal last)
    (promises key payload).
Proof.
  revert attempt last c. induction tries as [|tries IH]; intros attempt last c; cbn [propose_attempts].
  { apply svc_ret. intros rs Hl w Hw Hc. by destruct (Hl w Hw). }
  eapply (svc_bind _ (λ _ _, True)).
  { intros s out s' Hs _ [= <- <-]. split_and!; [done | done | done |].
    by destruct (head_version_of _ _ _). }
  intros head. eapply (svc_bind _ (λ d _, d_record_key d = key ∧ d_payload d = payload)).
  { intros s out s' Hs _ [= <- <-]. split_and!; [done | done | done |].
    destruct (validate_draft _) as [d|e] eqn:Hd; [|done].
    apply result_bind_ok in Hd as (u & _ & [= <-]). done. }
  intros d. cbv beta. apply svc_pure. intros [Hkey Hpay].
  eapply svc_bind; [apply svc_propose |]. intros w. cbn. rewrite Hkey, Hpay.
  case_bool_decide as Ho.
  - eapply svc_weaken; [|intros a rs Hq; exact Hq | apply IH]. intros rs _ w' [= <-]. by rewrite Ho.
  - apply svc_ret. intros rs Hw w' [= <-]. done.
Qed.

Lemma svc_next_version env key t author component payload provenance ts window c principal :
  svc (λ _, True)
    (propose_next_version env key t author component payload provenance ts window c principal)
    (promises key payload).
Proof.
  unfold propose_next_version. eapply svc_weaken; [|intros o rs Ho; exact Ho | apply svc_attempts]. done.
Qed.

(** [try] with a handler that only touches the service's own fields. *)
Lemma svc_or_else {A} P (m handler : BSM A) Q :
  svc P m Q → svc (λ _, True) handler Q → svc P (or_else m handler) Q.
Proof.
  intros Hm Hh s out s' Hs HP. unfold or_else. destruct (m s) as [[a|e] s1] eqn:Hms;
    destruct (Hm _ _ _ Hs HP Hms) as (H1 & Hs1 & He1 & HR); [by intros [= <- <-] |].
  intros Hrun. destruct (Hh _ _ _ Hs1 I Hrun) as (? & ? & ? & ?). split_and!; [by etrans | done | congruence | done].
Qed.

(** ** The operations *)

Lemma svc_mret_none P key payload : svc P (mret None) (promises key payload).
Proof. apply svc_ret. by intros rs _ w. Qed.

Lemma svc_none {A} (m : BSM A) key payload :
  svc (λ _, True) m (λ _ _, True) → svc (λ _, True) (_ ← m; mret None) (promises key payload).
Proof. intros Hm. eapply svc_bind; [exact Hm |]. intros a. apply svc_mret_none. Qed.

Lemma svc_write_finding env replay_id f :
  svc (λ _, True) (write_finding env replay_id f)
    (promises (finding_key replay_id f) (finding_payload f)).
Proof. destruct f; apply svc_next_version. Qed.

Lemma svc_finding env replay_id f :
  svc (λ _, True) (record_finding env replay_id f)
    (promises (finding_key replay_id f) (finding_payload f)).
Proof.
  unfold record_finding. eapply svc_bind; [apply svc_gets |]. intros enabled. cbv beta.
  destruct (negb enabled); [apply svc_mret_none |]. apply svc_or_else.
  - eapply svc_bind; [apply svc_write_finding |]. intros r.
    set (P := promises _ _ r). apply (svc_bind _ (λ _, P)); [|intros u; by apply svc_ret].
    destruct r as [w|]; [|by apply svc_ret]. destruct (recorded _); [|by apply svc_ret].
    destruct f; by apply svc_frame.
  - apply (svc_bind _ (λ _ _, True)); [by apply svc_frame |]. intros u.
    apply svc_none, svc_publish.
Qed.

Lemma svc_workflow_output env replay_id window_id entity_id t payload provenance ts author component :
  svc (λ _, True)
    (record_workflow_output env replay_id window_id entity_id t payload provenance ts author component)
    (promises (workflow_key t replay_id window_id entity_id payload) payload).
Proof.
  unfold record_workflow_output. eapply svc_bind; [apply svc_gets |]. intros enabled. cbv beta.
  destruct (negb enabled); [apply svc_mret_none |]. apply svc_or_else; [apply svc_next_version |].
  apply svc_none. by apply svc_frame.
Qed.

Lemma svc_swallow f : svc (λ _, True) f (λ _ _, True) → svc (λ _, True) (swallow f) (λ _ _, True).
Proof.
  intros Hf. unfold swallow. eapply svc_bind; [apply svc_gets |]. intros enabled. cbv beta.
  destruct (negb enabled); [by apply svc_ret |]. apply svc_or_else; [|by apply svc_frame].
  eapply svc_bind; [exact Hf |]. intros a. by apply svc_ret.
Qed.

Lemma svc_device_state env replay_id d :
  svc (λ _, True) (record_device_state env replay_id d) (λ _ _, True).
Proof.
  apply svc_swallow. eapply svc_weaken; [intros rs Hrs; exact Hrs | |apply svc_next_version]. done.
Qed.

Lemma svc_srep_snapshot env replay_id s :
  svc (λ _, True) (record_srep_snapshot env replay_id s) (λ _ _, True).
Proof.
  apply svc_swallow. eapply svc_weaken; [intros rs Hrs; exact Hrs | |apply svc_next_version]. done.
Qed.

(** A handler that cannot raise makes the whole return. *)
Lemma or_else_returns {A} (m handler : BSM A) s :
  (∀ s1, is_ok (handler s1).1 = true) → is_ok (or_else m handler s).1 = true.
Proof. intros Hh. unfold or_else. destruct (m s) as [[a|e] s1]; [done | apply Hh]. Qed.

Lemma publish_returns event_type payload replay_id window_id ts entity_id s :
  ∃ s', publish_event event_type payload replay_id window_id ts entity_id s = (Ok tt, s').
Proof.
  unfold publish_event. destruct (bs_publisher s) as [pub|]; [|by eexists].
  destruct (pub _); by eexists.
Qed.

Lemma record_finding_returns env replay_id f s : is_ok (record_finding env replay_id f s).1 = true.
Proof.
  unfold record_finding, mbind at 1, M_bind, gets. cbn. destruct (negb _); [done |].
  apply or_else_returns. intros s1. unfold mbind, M_bind, count_error, modify.
  by edestruct publish_returns as [s2 ->].
Qed.

Lemma record_workflow_output_returns env replay_id window_id entity_id t payload provenance ts author
    component s :
  is_ok (record_workflow_output env replay_id window_id entity_id t payload provenance ts author
           component s).1 = true.
Proof.
  unfold record_workflow_output, mbind at 1, M_bind, gets. cbn. destruct (negb _); [done |].
  by apply or_else_returns.
Qed.

(** An authoritative read. *)
Definition authoritative (key : string) (version : option Z) (r : ReadResultV1)
    (rs : list BlackboardReplica) : Prop :=
  ∀ record, rd_record r = Some record →
    record_valid record ∧ r_record_key record = key ∧
    (∀ v, version = Some v → r_record_version record = v) ∧
    committed_on rs (quorum_size settings) key (r_record_version record) (r_record_id record).

Lemma svc_read env key version principal :
  svc (λ _, True) (service_read env key version principal) (authoritative key version).
Proof.
  unfold service_read. eapply svc_bind with (R := authoritative key version).
  - intros s out s' Hs _ Hrun. pose proof Hs as [(Hset & Hids & Hnd & Hwf) Hbs].
    pose proof (svc_coordinator (λ rs, rs = replicas s) (read AllowAll env principal key version) _
      (triple_read (Auth := AllowAllDevelopmentAuthorizer) settings ids (λ _, True) (replicas s)
         AllowAll env principal key version ltac:(done) ltac:(done)) s out s' Hs eq_refl Hrun)
      as (Hr & Hs' & He & Ho).
    split; [exact Hr |]. split; [exact Hs' |]. split; [exact He |].
    destruct out as [r|e]; [|done]. destruct Ho as [Hle [[_ Hn]|Hv]]; intros record Hrec; [congruence |].
    rewrite Hrec in Hv. symmetry in Hv.
    destruct (read_record_committed settings ids _ _ _ _ _ _ _ Hids Hnd Hwf Hv)
      as (_ & Hval & Hk & Hver & Hc).
    split_and!; [done | done | done | by eapply committed_on_mono].
  - intros r. set (P := authoritative key version r). apply (svc_bind _ (λ _, P)).
    + case_bool_decide; [by apply svc_ret | apply svc_publish].
    + intros u. apply (svc_bind _ (λ _, P)); [apply svc_watch |]. intros u2. by apply svc_ret.
Qed.

(** ** Reopening *)
Lemma cluster_steps_map (f : BlackboardReplica → BlackboardReplica) pre rs :
  (∀ r, replica_step r (f r)) → rtc cluster_step (pre ++ rs) (pre ++ map f rs).
Proof.
  intros Hf. revert pre. induction rs as [|r rs IH]; intros pre; cbn [map]; [done |].
  eapply rtc_l; [exists (length pre), r, (f r); split_and!; [by apply list_lookup_middle | apply Hf | done] |].
  rewrite insert_app_r_alt, Nat.sub_diag by done. cbn.
  rewrite !(cons_middle (f r)), !app_assoc. apply IH.
Qed.

(** A restart loses nothing that was committed, and takes no other step. *)
Lemma restart_check s :
  service_ok s → length ids = 3%nat →
  ∃ s', restart_persistence_check s = (Ok true, s') ∧ service_ok s' ∧
    rtc cluster_step (replicas s) (replicas s').
Proof.
  intros [(Hset & Hids & Hnd & Hwf) Hbs] Hlen.
  set (rs' := map (reopen_replica (bs_settings s)) (replicas s)).
  assert (Hst : rtc cluster_step (replicas s) rs').
  { apply (cluster_steps_map _ []). intros r. apply step_restart. }
  assert (Hi' : map replica_id rs' = ids).
  { unfold rs'. rewrite map_map. exact Hids. }
  assert (Hnew : ∃ c, new_coordinator rs' (bs_settings s) None = Ok c ∧ co_replicas c = rs' ∧
    co_settings c = bs_settings s).
  { unfold new_coordinator. rewrite Hi'. unfold check.
    rewrite <-(length_map replica_id), Hi', Hlen. rewrite bool_decide_eq_true_2 by done. by eexists. }
  destruct Hnew as (c & Hc & Hcr & Hcs).
  exists (set_service c (bs_published s) (bs_integration_errors s) (bs_network_recorded s)
           (bs_behavior_recorded s) (bs_last_health s) s).
  unfold restart_persistence_check, reopen_coordinator, mbind, M_bind, gets. fold rs'. rewrite Hc.
  split_and!.
  - rewrite bool_decide_eq_true_2; [done |]. unfold committed_counts.
    cbn [set_service bs_coordinator]. rewrite Hcr. unfold rs'. by rewrite map_map.
  - split; [|done]. unfold coord_ok, replica_ids. cbn. rewrite Hcr, Hcs.
    split_and!; [done | done | done | by destruct (cluster_steps_le _ _ Hst Hwf)].
  - cbn. by rewrite Hcr.
Qed.

Lemma svc_feedback env replay_id f principal :
  svc (λ _, True) (record_confirmed_feedback env replay_id f principal)
    (promises (workflow_key CONFIRMED_FEEDBACK_RECORD replay_id (fbk_window_id f) (fbk_entity_id f)
       (feedback_fields f)) (feedback_fields f)).
Proof.
  unfold record_confirmed_feedback. eapply svc_bind; [apply svc_gets |]. intros enabled. cbv beta.
  destruct (negb enabled); [apply svc_mret_none |]. apply svc_or_else; [apply svc_workflow_output |].
  apply svc_none. by apply svc_frame.
Qed.
End service.
