(* ===== verification/AgLedger.v ===== *)
(** * The Blackboard action ledger

    Models [agentic_workflow/blackboard_ledger.py]: a ledger that answers from a
    bounded cache and otherwise reads and writes the replicated Blackboard
    through its service.  Decoding a stored payload is pydantic's
    [model_validate]: the argument [decode].  The surroundings of the n-th
    Blackboard call of a ledger are given by its [LedgerEnv]; one process-wide
    lock serialises [put], so one operation runs at a time. *)

From S2P Require Import Prelude PyString Json Firewall BbContracts BbCoordinator BbReads AgContracts.
From S2P Require Import AgRecords AgCore AgCommit BsService.

(** [(workflow_id, replay_id, window_id, entity_id)]; a three-part key has no
    workflow. *)
Definition CacheKey : Type := option string * string * Z * string.

Record BlackboardActionLedger := mk_action_ledger {
  al_blackboard : option BlackboardService;
  al_cache_limit : nat;
  al_cache : list (CacheKey * EnforcementDecisionV1);
  (** Blackboard calls so far *)
  al_calls : nat;
}.

Definition new_action_ledger (blackboard : option BlackboardService) (cache_limit : Z)
    : result BlackboardActionLedger :=
  _ ← check (1 <=? cache_limit) ValueError "cache_limit must be positive";
  Ok (mk_action_ledger blackboard (Z.to_nat cache_limit) [] 0).

Definition LM (A : Type) : Type := M BlackboardActionLedger A.

Record LedgerEnv := mk_ledger_env {
  le_read : nat → OpEnv;
  le_write : nat → ServiceEnv;
}.

Definition record_key_of (replay_id : string) (window_id : Z) (entity_id : string) : string :=
  "workflow/action/" +:+ replay_id +:+ "/" +:+ fmt_int window_id +:+ "/" +:+ entity_id.

(** Insert, then drop the oldest entries beyond the limit. *)
Definition cache_store (key : CacheKey) (d : EnforcementDecisionV1) : LM unit :=
  modify (λ l, let cache := od_set key d (al_cache l) in
    mk_action_ledger (al_blackboard l) (al_cache_limit l)
      (drop (length cache - al_cache_limit l) cache) (al_calls l)).

Definition cache_lookup (key : CacheKey) : LM (option EnforcementDecisionV1) := λ l,
  match od_get key (al_cache l) with
  | None => (Ok None, l)
  | Some d => (Ok (Some d), mk_action_ledger (al_blackboard l) (al_cache_limit l)
                 (od_move_to_end key (al_cache l)) (al_calls l))
  end.

(** The service, if there is one and it is enabled. *)
Definition require_blackboard (message : string) : LM unit := λ l,
  (check (match al_blackboard l with Some s => bs_enabled s | None => false end) RuntimeError message,
   l).

Definition on_blackboard {A} (f : nat → BSM A) : LM A := λ l,
  match al_blackboard l with
  | None => (raise RuntimeError "Blackboard not available", l)
  | Some s =>
      let '(out, s') := f (al_calls l) s in
      (out, mk_action_ledger (Some s') (al_cache_limit l) (al_cache l) (S (al_calls l)))
  end.

(** [except RuntimeError: raise; except Exception: raise RuntimeError(message)] *)
Definition as_runtime_error {A} (message : string) (f : LM A) : LM A := λ l,
  match f l with
  | (Raise e, l') =>
      (if bool_decide (exn_type e = RuntimeError) then Raise e else raise RuntimeError message, l')
  | (Ok a, l') => (Ok a, l')
  end.

Section ledger.
Context `{PyRuntime}.
Variable env : LedgerEnv.
(** [EnforcementDecisionV1.model_validate(payload)] *)
Variable decode : list (string * json) → result EnforcementDecisionV1.

(** The decision stored under a key, checked against the key that was asked. *)
Definition stored_decision (workflow_id : option string) (replay_id : string) (window_id : Z)
    (entity_id : string) (payload : list (string * json)) : LM (option EnforcementDecisionV1) :=
  as_runtime_error "stored action payload is invalid"
    (dec ← lift (decode payload);
     _ ← guardM (bool_decide (enf_replay_id dec = replay_id) && (enf_window_id dec =? window_id)
                 && bool_decide (enf_entity_id dec = entity_id)) RuntimeError
           "stored action binding mismatch";
     _ ← guardM (match workflow_id with
                 | Some w => bool_decide (enf_workflow_id dec = w)
                 | None => true
                 end) RuntimeError "stored action workflow mismatch";
     _ ← cache_store (workflow_id, replay_id, window_id, entity_id) dec;
     mret (Some dec)).

Definition action_get (key : CacheKey) : LM (option EnforcementDecisionV1) :=
  let '(workflow_id, replay_id, window_id, entity_id) := key in
  cached ← cache_lookup key;
  match cached with
  | Some d => mret (Some d)
  | None =>
      _ ← require_blackboard "Blackboard not available for authoritative action read";
      as_runtime_error "authoritative action read failed"
        (res ← on_blackboard (λ n, service_read_latest (le_read env n)
                 (record_key_of replay_id window_id entity_id) "action_ledger_reader");
         if bool_decide (rd_outcome res = NOT_FOUND) then mret None
         else if negb (bool_decide (rd_outcome res = CONSISTENT)
                       || bool_decide (rd_outcome res = DEGRADED_CONSISTENT))
         then throw RuntimeError
                ("non-authoritative action read: " +:+ read_outcome_value (rd_outcome res))
         else match rd_record res with
              | None => throw RuntimeError "authoritative action read returned no record"
              | Some record =>
                  stored_decision workflow_id replay_id window_id entity_id (r_payload record)
              end)
  end.

Definition same_decision (existing decision : EnforcementDecisionV1) : bool :=
  bool_decide (enf_action existing = enf_action decision)
  && bool_decide (enf_controller_recommendation_id existing
                  = enf_controller_recommendation_id decision).

(** The write of a decision: only COMMITTED is success. *)
Definition write_action (decision : EnforcementDecisionV1) : LM unit :=
  result ← on_blackboard (λ n, record_workflow_output (le_write env n) (enf_replay_id decision)
    (enf_window_id decision) (enf_entity_id decision) ENFORCEMENT_DECISION_RECORD
    (enforcement_fields decision) (enf_provenance decision)
    (Some (enf_logical_timestamp decision)) "action_committer" "agentic_workflow.action_commit");
  match result with
  | None => throw RuntimeError "blackboard put returned None"
  | Some w =>
      guardM (bool_decide (w_outcome w = COMMITTED)) RuntimeError
        ("blackboard put not COMMITTED: " +:+ write_outcome_value (w_outcome w))
  end.

Definition action_put (key : CacheKey) (decision : EnforcementDecisionV1)
    : LM EnforcementDecisionV1 :=
  existing ← action_get key;
  match existing with
  | Some e =>
      if same_decision e decision then mret e
      else throw ValueError "conflicting action"
  | None =>
      _ ← require_blackboard "Blackboard not available for action ledger";
      _ ← as_runtime_error "blackboard put failed" (write_action decision);
      _ ← cache_store (key.1.1.1, enf_replay_id decision, enf_window_id decision,
            enf_entity_id decision) decision;
      mret decision
  end.

#[export] Instance blackboard_action_ledger : Ledger BlackboardActionLedger := {
  ledger_put key d := action_put (Some key.1.1.1, key.1.1.2, key.1.2, key.2) d;
  ledger_get key := action_get (Some key.1.1.1, key.1.1.2, key.1.2, key.2);
}.
End ledger.
