(* ===== verification/AgGateway.v ===== *)
(** * Workflow output gateway

    Models [agentic_workflow/workflow_gateway.py]: the checks every downstream
    output passes before it counts, and the references between outputs. *)

From S2P Require Import Prelude PyString Json Firewall AgContracts AgRecords.

(** What may be submitted: the five accepted models, or another object with its
    class name, dump and entity. *)
Inductive WorkflowOutput :=
  | WThreat (t : ThreatCorrelationV1)
  | WRisk (r : RiskRecommendationV1)
  | WAccess (a : AccessRecommendationV1)
  | WEnforcement (e : EnforcementDecisionV1)
  | WFeedback (f : ConfirmedFeedbackV1)
  | WOther (class_name : string) (dump : json) (entity_id : option string).

Definition output_class (o : WorkflowOutput) : string :=
  match o with
  | WThreat _ => "ThreatCorrelationV1"
  | WRisk _ => "RiskRecommendationV1"
  | WAccess _ => "AccessRecommendationV1"
  | WEnforcement _ => "EnforcementDecisionV1"
  | WFeedback _ => "ConfirmedFeedbackV1"
  | WOther c _ _ => c
  end.

Definition output_dump (o : WorkflowOutput) : json :=
  match o with
  | WThreat t => threat_dump t
  | WRisk r => risk_dump r
  | WAccess a => access_dump a
  | WEnforcement e => enforcement_dump e
  | WFeedback f => feedback_dump f
  | WOther _ d _ => d
  end.

Definition output_entity (o : WorkflowOutput) : string :=
  match o with
  | WThreat t => thr_entity_id t
  | WRisk r => rsk_entity_id r
  | WAccess a => acc_entity_id a
  | WEnforcement e => enf_entity_id e
  | WFeedback f => fbk_entity_id f
  | WOther _ _ e => default "?" e
  end.

(** [getattr(output, name, None)] *)
Definition output_workflow (o : WorkflowOutput) : option string :=
  match o with
  | WThreat t => Some (thr_workflow_id t)
  | WRisk r => Some (rsk_workflow_id r)
  | WAccess a => Some (acc_workflow_id a)
  | WEnforcement e => Some (enf_workflow_id e)
  | WFeedback _ | WOther _ _ _ => None
  end.
Definition output_replay (o : WorkflowOutput) : option string :=
  match o with
  | WEnforcement e => Some (enf_replay_id e)
  | WFeedback f => Some (fbk_replay_id f)
  | _ => None
  end.
Definition output_window (o : WorkflowOutput) : option Z :=
  match o with
  | WThreat t => Some (thr_window_id t)
  | WRisk r => Some (rsk_window_id r)
  | WAccess a => Some (acc_window_id a)
  | WEnforcement e => Some (enf_window_id e)
  | WFeedback f => Some (fbk_window_id f)
  | WOther _ _ _ => None
  end.

(** [(workflow_id, window_id, entity_id)] *)
Definition Binding : Type := string * Z * string.

Definition output_binding (o : WorkflowOutput) : Binding :=
  (default "" (output_workflow o), default 0 (output_window o), output_entity o).

Record WorkflowRejection := mk_workflow_rejection {
  wr_reason : string;
  wr_output_type : string;
  wr_entity_id : string;
}.

Record WorkflowGatewayStats := mk_wg_stats {
  wg_submitted : Z;
  wg_accepted_threat : Z;
  wg_accepted_risk : Z;
  wg_accepted_access : Z;
  wg_accepted_enforcement : Z;
  wg_accepted_feedback : Z;
  wg_rejected_schema : Z;
  wg_rejected_binding : Z;
  wg_recent_rejections : list WorkflowRejection;
}.

Record WorkflowOutputGateway := mk_output_gateway {
  og_stats : WorkflowGatewayStats;
  og_output_bindings : gmap string Binding;
}.

Definition new_output_gateway : WorkflowOutputGateway :=
  mk_output_gateway (mk_wg_stats 0 0 0 0 0 0 0 0 []) ∅.

Definition GM (A : Type) : Type := M WorkflowOutputGateway A.

Definition WG_RECENT_LIMIT : nat := 64.

Definition count_submitted : GM unit :=
  modify (λ g, let s := og_stats g in
    mk_output_gateway (mk_wg_stats (wg_submitted s + 1) (wg_accepted_threat s)
      (wg_accepted_risk s) (wg_accepted_access s) (wg_accepted_enforcement s)
      (wg_accepted_feedback s) (wg_rejected_schema s) (wg_rejected_binding s)
      (wg_recent_rejections s)) (og_output_bindings g)).

(** A rejection, of the schema or of a binding. *)
Definition reject_output (schema : bool) (reason : string) (o : WorkflowOutput) : GM bool := λ g,
  let s := og_stats g in
  (Ok false, mk_output_gateway
    (mk_wg_stats (wg_submitted s) (wg_accepted_threat s) (wg_accepted_risk s)
       (wg_accepted_access s) (wg_accepted_enforcement s) (wg_accepted_feedback s)
       (wg_rejected_schema s + (if schema then 1 else 0))
       (wg_rejected_binding s + (if schema then 0 else 1))
       (push_bounded WG_RECENT_LIMIT
          (mk_workflow_rejection reason (output_class o) (output_entity o))
          (wg_recent_rejections s))) (og_output_bindings g)).

(** The first expected binding the output does not have. *)
Definition binding_mismatch (workflow_id replay_id : option string) (window_id : option Z)
    (entity_id : option string) (o : WorkflowOutput) : option string :=
  let differs {A} `{EqDecision A} (expected actual : option A) :=
    is_some expected && negb (bool_decide (actual = expected)) in
  if differs workflow_id (output_workflow o) then Some "workflow_id_mismatch"
  else if differs replay_id (output_replay o) then Some "replay_id_mismatch"
  else if differs window_id (output_window o) then Some "window_id_mismatch"
  else if differs entity_id (Some (output_entity o)) then Some "entity_id_mismatch"
  else None.

(** All references are to accepted outputs with the same binding. *)
Definition refs_bound (bindings : gmap string Binding) (b : Binding) (refs : list string) : bool :=
  forallb (λ ref, bool_decide (bindings !! ref = Some b)) refs.

(** The reference check of an output, and the identity it registers. *)
Definition reference_check (bindings : gmap string Binding) (o : WorkflowOutput)
    : option string * option string :=
  let b := output_binding o in
  match o with
  | WThreat t =>
      (if forallb (startswith (thr_entity_id t +:+ ":")) (thr_source_finding_ids t)
          && forallb (λ ref, bool_decide (ref = "finding:" +:+ thr_entity_id t))
               (thr_evidence_refs t)
       then None else Some "finding_reference_mismatch", Some (thr_correlation_id t))
  | WRisk r =>
      (if refs_bound bindings b (rsk_threat_correlation_refs r) then None
       else Some "threat_reference_mismatch", Some (rsk_recommendation_id r))
  | WAccess a =>
      (if refs_bound bindings b (acc_evidence_refs a) then None
       else Some "evidence_reference_mismatch", Some (acc_recommendation_id a))
  | WEnforcement e =>
      (if negb (bool_decide (bindings !! enf_controller_recommendation_id e = Some b))
       then Some "controller_reference_mismatch"
       else if refs_bound bindings b (enf_evidence_refs e) then None
       else Some "evidence_reference_mismatch", Some (enf_decision_id e))
  | WFeedback _ | WOther _ _ _ => (None, None)
  end.

Definition accept_output (id : option string) (o : WorkflowOutput) : GM bool := λ g,
  let s := og_stats g in
  let n (b : bool) : Z := if b then 1 else 0 in
  (Ok true, mk_output_gateway
    (mk_wg_stats (wg_submitted s)
       (wg_accepted_threat s + n (match o with WThreat _ => true | _ => false end))
       (wg_accepted_risk s + n (match o with WRisk _ => true | _ => false end))
       (wg_accepted_access s + n (match o with WAccess _ => true | _ => false end))
       (wg_accepted_enforcement s + n (match o with WEnforcement _ => true | _ => false end))
       (wg_accepted_feedback s + n (match o with WFeedback _ => true | _ => false end))
       (wg_rejected_schema s) (wg_rejected_binding s) (wg_recent_rejections s))
    (match id with
     | Some id => <[id := output_binding o]> (og_output_bindings g)
     | None => og_output_bindings g
     end)).

Definition submit_output (o : WorkflowOutput) (workflow_id replay_id : option string)
    (window_id : option Z) (entity_id : option string) : GM bool :=
  _ ← count_submitted;
  if negb (is_ok (assert_agentic_safe (output_dump o) "workflow_output"))
  then reject_output true "firewall" o
  else match o with
  | WOther _ _ _ => reject_output true "unsupported_schema" o
  | _ =>
      match binding_mismatch workflow_id replay_id window_id entity_id o with
      | Some reason => reject_output false reason o
      | None =>
          bindings ← gets og_output_bindings;
          match reference_check bindings o with
          | (Some reason, _) => reject_output false reason o
          | (None, id) => accept_output id o
          end
      end
  end.
