(* ===== verification/AgFacts.v ===== *)
(** * Facts on the agentic workflow

    The order of binary64 values, the policy, the workflow order, what the
    specialists return, and the in-memory ledger against the [Ledger] interface. *)

From Stdlib Require Import SpecFloat.
From S2P Require Import Prelude PyString Json Firewall SimDevices AgContracts AgRecords AgCore.
From S2P Require Import AgSpecialists AgCommit AgGateway.

(** ** Floats *)
Lemma f_leb_trans x y z : f_leb x y = true → f_leb y z = true → f_leb x z = true.
Proof.
  unfold f_leb, SFleb, SFcompare.
  destruct x as [sx|sx| |sx mx ex], y as [sy|sy| |sy my ey], z as [sz|sz| |sz mz ez];
    try destruct sx; try destruct sy; try destruct sz; cbn; try done;
    change (PosDef.Pos.compare_cont Eq ?a ?b) with (Pos.compare a b);
    destruct (Z.compare_spec ex ey), (Z.compare_spec ey ez), (Z.compare_spec ex ez);
    try done; try lia;
    destruct (Pos.compare_spec mx my), (Pos.compare_spec my mz), (Pos.compare_spec mx mz);
    cbn; try done; try lia.
Qed.

(** ** The policy *)

(** ALLOW below MONITOR below BLOCK. *)
Definition severity (a : ActionType) : Z := match a with ALLOW => 0 | MONITOR => 1 | BLOCK => 2 end.

Lemma access_action_monotone policy x y complete complete' :
  f_leb x y = true → (complete' = true → complete = true) →
  severity (access_action policy x complete) ≤ severity (access_action policy y complete').
Proof.
  intros Hxy Hc. unfold access_action, f_geb in *.
  assert (Hm : ∀ t, SFleb t x = true → SFleb t y = true).
  { intros t Ht. by apply (f_leb_trans t x y). }
  pose proof (Hm (pc_block_threshold policy)) as Hb.
  pose proof (Hm (pc_monitor_threshold policy)) as Hmo.
  destruct complete, complete'; cbn [negb]; try (specialize (Hc eq_refl); done);
    destruct (SFleb (pc_block_threshold policy) x), (SFleb (pc_block_threshold policy) y);
    try (specialize (Hb eq_refl); done);
    destruct (SFleb (pc_monitor_threshold policy) x), (SFleb (pc_monitor_threshold policy) y);
    try (specialize (Hmo eq_refl); done); cbn; lia.
Qed.

Lemma escalation_is_action k wf e w ts v cs prov :
  let r := risk_of k wf e w ts v cs prov in
  rsk_recommended_escalation r =
    action_value (access_action POLICY_CONFIG (rsk_systemic_risk r) (rsk_evidence_complete r)).
Proof.
  cbn. unfold escalation_of, access_action. cbn [pc_block_threshold pc_monitor_threshold POLICY_CONFIG].
  destruct (f_geb (dw_systemic_risk v) f_0_7), (f_geb (dw_systemic_risk v) f_0_4),
    (evidence_complete_of v); done.
Qed.

(** ** The order of the workflow *)

(** One agent that is ready runs and completes. *)
Inductive workflow_step : gset AgentId → gset AgentId → Prop :=
  | step_agent a device risk completed :
      a ∈ ready_agents completed device risk → workflow_step completed ({[a]} ∪ completed).

Lemma elem_of_ready a completed device risk :
  a ∈ ready_agents completed device risk ↔
  a ∉ completed ∧ is_ready a completed device risk = true.
Proof.
  unfold ready_agents. rewrite elem_of_list_to_set, list_elem_of_filter, Is_true_true.
  pose proof (elem_of_all_agents a). tauto.
Qed.

(** Completed agents always have their dependencies completed. *)
Definition closed (completed : gset AgentId) : Prop :=
  ∀ a, a ∈ completed → DEPENDENCIES a ⊆ completed.

Lemma is_ready_deps a completed device risk :
  is_ready a completed device risk = true → DEPENDENCIES a ⊆ completed.
Proof.
  destruct a; cbn [is_ready DEPENDENCIES].
  1-3: by intros ?%bool_decide_eq_true.
  all: case_bool_decide; [|done]; intros _; set_solver.
Qed.

Lemma workflow_step_closed c c' : workflow_step c c' → closed c → closed c'.
Proof.
  intros [a device risk completed [_ Hr]%elem_of_ready] Hc b [->%elem_of_singleton|Hb]%elem_of_union.
  - apply is_ready_deps in Hr. set_solver.
  - specialize (Hc b Hb). set_solver.
Qed.

Lemma workflow_step_size c c' : workflow_step c c' → size c' = S (size c).
Proof.
  intros [a device risk completed [Hn _]%elem_of_ready]. rewrite size_union by set_solver.
  by rewrite size_singleton.
Qed.

Lemma completed_bound (c : gset AgentId) : (size c ≤ 5)%nat.
Proof.
  transitivity (size (list_to_set all_agents : gset AgentId)); [|by vm_compute; lia].
  apply subseteq_size. intros a _. apply elem_of_list_to_set, elem_of_all_agents.
Qed.

(** With the external evidence there, some agent is ready until all are done. *)
Lemma workflow_progress c :
  closed c → (∃ a, a ∉ c) → ∃ a, a ∈ ready_agents c true true.
Proof.
  intros Hc [a Ha]. setoid_rewrite elem_of_ready.
  destruct (decide (network_anomaly_detector ∈ c)) as [H1|H1];
    [|exists network_anomaly_detector; split; [done |]; cbn; apply bool_decide_eq_true; set_solver].
  destruct (decide (iot_behavioral_profiler ∈ c)) as [H2|H2];
    [|exists iot_behavioral_profiler; split; [done |]; cbn; apply bool_decide_eq_true; set_solver].
  destruct (decide (threat_intelligence_correlator ∈ c)) as [H3|H3];
    [|exists threat_intelligence_correlator; split; [done |]; cbn; apply bool_decide_eq_true; set_solver].
  destruct (decide (risk_propagation_analyst ∈ c)) as [H4|H4];
    [|exists risk_propagation_analyst; split; [done |]; cbn; by rewrite bool_decide_true].
  destruct (decide (trust_access_controller ∈ c)) as [H5|H5];
    [|exists trust_access_controller; split; [done |]; cbn; by rewrite bool_decide_true].
  destruct a; done.
Qed.

(** ** Runs of the monad of the specialists *)
Lemma lift_ok {S A} (r : result A) (s : S) a s' : lift r s = (Ok a, s') ↔ r = Ok a ∧ s' = s.
Proof. unfold lift. naive_solver. Qed.

Lemma guardM_ok {S} b c m (s : S) u s' : guardM b c m s = (Ok u, s') ↔ b = true ∧ s' = s.
Proof. unfold guardM. destruct b, u; cbn; naive_solver. Qed.

(** Peels [m >>= f] runs that ended well. *)
Ltac run_ok H :=
  repeat (apply M_bind_ok in H as (? & ? & ?Hstep & H));
  repeat match goal with
  | Hs : lift _ _ = (Ok _, _) |- _ => apply lift_ok in Hs as [Hs ->]
  | Hs : guardM _ _ _ _ = (Ok _, _) |- _ => apply guardM_ok in Hs as [Hs ->]
  end.

(** ** What the specialists return *)
Lemma correlate_ok k cv wf e w ts fs prov i t i' :
  correlate k cv wf e w ts fs prov i = (Ok t, i') →
  threat_validate t = Ok tt ∧ thr_workflow_id t = wf ∧ thr_entity_id t = e ∧
  thr_window_id t = w ∧ thr_logical_timestamp t = ts ∧
  assert_agentic_safe (findings_json fs) "threat_correlator findings" = Ok tt ∧
  (thr_mapping_status t = MATCHED ↔
     check_findings e w fs = Ok true ∧ is_Some (matched_rule fs)) ∧
  thr_threat_behavior_id t =
    match thr_mapping_status t with
    | MATCHED => rule_threat_behavior_id <$> matched_rule fs
    | _ => None
    end.
Proof.
  intros Hrun. unfold correlate in Hrun.
  apply M_bind_ok in Hrun as ([] & s1 & [Hsafe ->]%lift_ok & Hrun).
  apply M_bind_ok in Hrun as (u1 & s2 & [Hprov ->]%lift_ok & Hrun).
  apply M_bind_ok in Hrun as (sup & s3 & [Hcheck ->]%lift_ok & Hrun).
  destruct sup; cbn [negb] in Hrun.
  - apply M_bind_ok in Hrun as (u2 & s4 & _ & Hrun). apply M_bind_ok in Hrun as (n & s5 & _ & Hrun).
    apply M_bind_ok in Hrun as (u3 & s6 & _ & Hrun). apply M_bind_ok in Hrun as (u4 & s7 & _ & Hrun).
    apply lift_ok in Hrun as [Hb ->]. apply result_bind_ok in Hb as ([] & Hv & [= <-]).
    split_and!; try done; destruct (matched_rule fs) as [rule|] eqn:Hm; cbn.
    + split; [intros _; split; [done | by eexists] | done].
    + split; [done | intros [_ [? ?]]; done].
    + done.
    + done.
  - apply M_bind_ok in Hrun as (u2 & s4 & _ & Hrun). apply M_bind_ok in Hrun as (u3 & s5 & _ & Hrun).
    apply lift_ok in Hrun as [Hb ->]. apply result_bind_ok in Hb as ([] & Hv & [= <-]).
    split_and!; try done. cbn. split; [done |]. intros [? _]. congruence.
Qed.

Lemma analyze_ok k wf e w ts v cs prov i r i' :
  analyze k wf e w ts v cs prov i = (Ok r, i') →
  r = risk_of k wf e w ts v cs prov ∧ risk_validate r = Ok tt ∧
  Forall (λ t, correlation_bound wf e w ts t = Ok tt) cs.
Proof.
  intros Hrun. unfold analyze in Hrun.
  apply M_bind_ok in Hrun as ([] & s1 & [_ ->]%lift_ok & Hrun).
  apply M_bind_ok in Hrun as ([] & s2 & [Hcs ->]%lift_ok & Hrun).
  apply M_bind_ok in Hrun as (u1 & s3 & _ & Hrun). apply M_bind_ok in Hrun as (u2 & s4 & _ & Hrun).
  apply M_bind_ok in Hrun as (u3 & s5 & _ & Hrun). apply M_bind_ok in Hrun as (u4 & s6 & _ & Hrun).
  apply M_bind_ok in Hrun as ([] & s7 & [Hv ->]%lift_ok & [= <- <-]).
  split_and!; [done | done |]. by apply first_error_ok, Forall_fmap in Hcs.
Qed.

Lemma decide_access_ok k p wf e w ts r cs prov i a i' :
  decide_access k p wf e w ts r cs prov i = (Ok a, i') →
  a = access_of k p wf e w ts r cs prov ∧ access_validate a = Ok tt ∧ risk_bound wf e w ts r = Ok tt.
Proof.
  intros Hrun. unfold decide_access in Hrun.
  apply M_bind_ok in Hrun as ([] & s1 & [_ ->]%lift_ok & Hrun).
  apply M_bind_ok in Hrun as ([] & s2 & [Hb ->]%lift_ok & Hrun).
  apply M_bind_ok in Hrun as ([] & s3 & [_ ->]%lift_ok & Hrun).
  apply M_bind_ok in Hrun as (u1 & s4 & _ & Hrun). apply M_bind_ok in Hrun as (u2 & s5 & _ & Hrun).
  apply M_bind_ok in Hrun as ([] & s6 & [Hv ->]%lift_ok & [= <- <-]). done.
Qed.

(** ** The in-memory ledger keeps its promise *)
Record memory_ok (l : InMemoryLedger) : Prop := {
  mo_limit : (1 ≤ ml_limit l)%nat;
  mo_order : NoDup (ml_order l);
  mo_dom : dom (ml_store l) = list_to_set (ml_order l);
  mo_length : (length (ml_order l) ≤ ml_limit l)%nat;
}.

Lemma evict_actions_spec n order store :
  NoDup order →
  let '(order', store') := evict_actions n order store in
  order' = drop n order ∧ ∀ k, store' !! k = if decide (k ∈ take n order) then None else store !! k.
Proof.
  revert order store. induction n as [|n IH]; intros order store Hnd; cbn [evict_actions].
  { split; [done |]. intros k. rewrite take_0. by rewrite decide_False by set_solver. }
  destruct order as [|old order]; [split; [done |]; intros k; by rewrite decide_False by set_solver |].
  apply NoDup_cons in Hnd as [Hni Hnd]. specialize (IH order (delete old store) Hnd).
  destruct (evict_actions n order (delete old store)) as [order' store']. destruct IH as [-> IH].
  split; [done |]. intros k. rewrite IH. cbn [take].
  destruct (decide (k = old)) as [->|Hne].
  - rewrite (decide_True (P := old ∈ old :: _)) by set_solver. case_decide; [done |].
    apply lookup_delete_eq.
  - rewrite lookup_delete_ne by done.
    destruct (decide (k ∈ take n order)); [rewrite decide_True by set_solver | rewrite decide_False by set_solver]; done.
Qed.

Lemma memory_put_law l k d out l' :
  memory_ok l → ml_store l !! k = None → memory_put k d l = (out, l') →
  memory_ok l' ∧ out = Ok d ∧ ml_store l' !! k = Some d ∧
  ∀ k' d', k' ≠ k → ml_store l' !! k' = Some d' → ml_store l !! k' = Some d'.
Proof.
  intros [Hlim Hord Hdom Hlen] Hk Hrun. unfold memory_put in Hrun. rewrite Hk in Hrun.
  assert (Hnew : k ∉ ml_order l).
  { intros Hin. apply not_elem_of_dom in Hk. set_solver. }
  assert (Hnd : NoDup (ml_order l ++ [k])).
  { apply NoDup_app. split_and!; [done | set_solver | apply NoDup_singleton]. }
  pose proof (evict_actions_spec (length (ml_order l ++ [k]) - ml_limit l) (ml_order l ++ [k])
    (ml_store l) Hnd) as Hev.
  destruct (evict_actions _ _ _) as [order store]. destruct Hev as [-> Hst].
  injection Hrun as <- <-. set (n := (length (ml_order l ++ [k]) - ml_limit l)%nat) in *.
  assert (Hn : (n ≤ length (ml_order l))%nat).
  { unfold n. rewrite length_app. cbn. lia. }
  split_and!; [constructor; cbn [ml_limit ml_order ml_store] | done | apply lookup_insert_eq |].
  - done.
  - eapply sublist_NoDup; [exact Hnd | apply sublist_drop].
  - rewrite dom_insert_L. apply set_eq. intros x. rewrite elem_of_union, elem_of_singleton,
      elem_of_dom, Hst, elem_of_list_to_set.
    rewrite drop_app_le by done. rewrite take_app_le by done.
    assert (Hin : is_Some (ml_store l !! x) ↔ x ∈ ml_order l)
      by (rewrite <-elem_of_dom, Hdom; set_solver).
    rewrite elem_of_app, list_elem_of_singleton.
    pose proof (take_drop n (ml_order l)) as Htd. rewrite <-Htd in Hord. apply NoDup_app in Hord as (_ & Hdis & _).
    assert (Hsplit : x ∈ ml_order l ↔ x ∈ take n (ml_order l) ∨ x ∈ drop n (ml_order l))
      by (rewrite <-Htd at 1; apply elem_of_app).
    case_decide as Ht.
    + split; [intros [->|[H1 H2]]; [by right | done] | intros [Hd| ->]; [by destruct (Hdis x Ht) | by left]].
    + rewrite Hin, Hsplit. tauto.
  - rewrite length_drop. unfold n. lia.
  - intros k' d' Hne Hg. cbn in Hg. rewrite lookup_insert_ne in Hg by done. rewrite Hst in Hg.
    by case_decide.
Qed.

#[export] Program Instance memory_ledger_laws : LedgerLaws InMemoryLedger := {
  ledger_ok := memory_ok;
  ledger_holds l k := ml_store l !! k;
}.
Next Obligation. intros l k out l' Hl [= <- <-]. done. Qed.
Next Obligation.
  intros l k d out l' Hl Hk Hrun. cbn in Hrun.
  destruct (memory_put_law l k d out l' Hl Hk Hrun) as (? & -> & ? & ?). done.
Qed.

(** * The committer over any ledger, and the output gateway

    At most one action per key, proved against the [Ledger] interface; and that
    every accepted output only refers to outputs accepted before it with the same
    workflow, window and entity. *)
Section committer.
Context {L : Type} `{LedgerLaws L}.

(** What an operation may do to the actions held: at most record [d] under a free
    [key]; other keys may only be forgotten. *)
Definition records (key : ActionKey) (d : EnforcementDecisionV1) (l l' : L) : Prop :=
  (∀ d0, ledger_holds l key = Some d0 → ledger_holds l' key = Some d0) ∧
  (∀ d', ledger_holds l' key = Some d' → ledger_holds l key = Some d' ∨ d' = d) ∧
  (∀ k d', k ≠ key → ledger_holds l' k = Some d' → ledger_holds l k = Some d').

Lemma records_same key d l l' : (∀ k, ledger_holds l' k = ledger_holds l k) → records key d l l'.
Proof. intros Hs. unfold records. setoid_rewrite Hs. naive_solver. Qed.

Lemma records_trans key d l1 l2 l3 :
  (∀ k, ledger_holds l2 k = ledger_holds l1 k) → records key d l2 l3 → records key d l1 l3.
Proof. intros Hs. unfold records. by setoid_rewrite Hs. Qed.

Lemma on_counter_ledger name (c c' : ActionCommitter L) out :
  on_counter name c = (out, c') → cm_ledger c' = cm_ledger c.
Proof. unfold on_counter. destruct (ag_increment _ _ _). by intros [= _ <-]. Qed.

Lemma retry_spec existing rec message (c c' : ActionCommitter L) out :
  retry_or_conflict existing rec message c = (out, c') →
  cm_ledger c' = cm_ledger c ∧
  match out with Ok d => d = existing ∧ same_action existing rec = true | Raise _ => True end.
Proof.
  unfold retry_or_conflict. destruct (same_action existing rec) eqn:Hs; unfold mbind, M_bind;
    destruct (on_counter _ c) as [[u|e] c1] eqn:Hc; apply on_counter_ledger in Hc;
    cbn; intros [= <- <-]; done.
Qed.

(** A lookup of the committer. *)
Lemma get_spec key (c c' : ActionCommitter L) out :
  ledger_ok (cm_ledger c) → on_ledger (ledger_get key) c = (out, c') →
  ledger_ok (cm_ledger c') ∧ (∀ k, ledger_holds (cm_ledger c') k = ledger_holds (cm_ledger c) k) ∧
  match out with Ok r => r = ledger_holds (cm_ledger c) key | Raise _ => True end.
Proof.
  intros Hok. unfold on_ledger. destruct (ledger_get key (cm_ledger c)) as [o l] eqn:Hg.
  intros [= <- <-]. by apply ledger_get_law in Hg.
Qed.

Lemma same_action_spec existing rec :
  same_action existing rec = true ↔
  enf_action existing = acc_action rec ∧
  enf_controller_recommendation_id existing = acc_recommendation_id rec.
Proof. unfold same_action. by rewrite andb_true_iff, !bool_decide_eq_true. Qed.

Lemma commit_action_spec id rec wf rp w ts e (c c' : ActionCommitter L) out :
  ledger_ok (cm_ledger c) → commit_action id rec wf rp w ts e c = (out, c') →
  let key := (wf, rp, w, e) in
  let d0 := enforcement_of id rec wf rp w ts e in
  ledger_ok (cm_ledger c') ∧ records key d0 (cm_ledger c) (cm_ledger c') ∧
  match out with
  | Ok d => ledger_holds (cm_ledger c') key = Some d ∧ enf_action d = acc_action rec ∧
      enf_controller_recommendation_id d = acc_recommendation_id rec ∧
      (ledger_holds (cm_ledger c) key = Some d ∨
       ledger_holds (cm_ledger c) key = None ∧ d = d0 ∧ enforcement_validate d = Ok tt)
  | Raise _ => True
  end.
Proof.
  intros Hok Hrun. cbn zeta. set (key := (wf, rp, w, e)). set (d0 := enforcement_of id rec wf rp w ts e).
  assert (Hnone : ∀ ex, out = Raise ex → c' = c →
    ledger_ok (cm_ledger c') ∧ records key d0 (cm_ledger c) (cm_ledger c') ∧
    match out with Ok _ => False | Raise _ => True end).
  { intros ex -> ->. split_and!; [done | by apply records_same | done]. }
  unfold commit_action in Hrun. unfold mbind at 1, M_bind, lift in Hrun.
  destruct (assert_agentic_safe _ _) as [u1|ex]; [|injection Hrun as <- <-; by apply (Hnone ex)].
  unfold mbind at 1, M_bind, lift in Hrun.
  destruct (recommendation_bound _ _ _ _ _) as [u2|ex]; [|injection Hrun as <- <-; by apply (Hnone ex)].
  clear Hnone. fold key in Hrun. cbn zeta in Hrun. unfold mbind at 1, M_bind in Hrun.
  destruct (on_ledger (ledger_get key) c) as [o1 c1] eqn:Hg1.
  destruct (get_spec key c c1 o1 Hok Hg1) as (Hok1 & Hs1 & Ho1).
  destruct o1 as [[d|]|ex]; [| |injection Hrun as <- <-; split_and!; [done | by apply records_same | done]].
  { apply retry_spec in Hrun as [Hl Ho]. rewrite Hl. split_and!; [done | by apply records_same |].
    destruct out as [d'|]; [|done]. destruct Ho as [-> [Ha Hid]%same_action_spec].
    rewrite Hs1. split_and!; [done | done | done | by left]. }
  change (ag_observe_commit _ rec) with rec in Hrun. fold d0 in Hrun.
  unfold mbind at 1, M_bind, lift in Hrun.
  destruct (enforcement_validate d0) as [[]|ex] eqn:Hv;
    [|injection Hrun as <- <-; split_and!; [done | by apply records_same | done]].
  unfold mbind at 1, M_bind in Hrun.
  destruct (on_ledger (ledger_get key) c1) as [o2 c2] eqn:Hg2.
  destruct (get_spec key c1 c2 o2 Hok1 Hg2) as (Hok2 & Hs2 & Ho2).
  assert (Hs : ∀ k, ledger_holds (cm_ledger c2) k = ledger_holds (cm_ledger c) k)
    by (intros k; by rewrite Hs2).
  destruct o2 as [[d|]|ex]; [| |injection Hrun as <- <-; split_and!; [done | by apply records_same | done]].
  { apply retry_spec in Hrun as [Hl Ho]. rewrite Hl. split_and!; [done | by apply records_same |].
    destruct out as [d'|]; [|done]. destruct Ho as [-> [Ha Hid]%same_action_spec].
    rewrite Hs. split_and!; [congruence | done | done | left; congruence]. }
  unfold mbind at 1, M_bind, on_ledger at 1 in Hrun.
  destruct (ledger_put key d0 (cm_ledger c2)) as [o3 l3] eqn:Hp.
  apply ledger_put_law in Hp as (Hok3 & Ho3 & Hother); [|done | congruence].
  assert (Hfree : ledger_holds (cm_ledger c) key = None) by congruence.
  assert (Hrec : records key d0 (cm_ledger c) l3).
  { apply (records_trans _ _ _ (cm_ledger c2)); [done |]. split_and!; [congruence | | done].
    intros d' Hd'. right. destruct o3 as [d3|ex]; [|by apply Ho3].
    destruct Ho3 as [_ Ho3]. congruence. }
  destruct o3 as [d3|ex]; [|by injection Hrun as <- <-].
  destruct Ho3 as [-> Hheld]. unfold mbind, M_bind in Hrun.
  destruct (on_counter _ _) as [[u|ex] c4] eqn:Hc; apply on_counter_ledger in Hc; cbn in Hc;
    injection Hrun as <- <-; rewrite Hc; split_and!; try done. right. done.
Qed.
End committer.

(** ** The output gateway *)

(** Submissions one after the other; the outputs accepted so far, newest first. *)
Inductive gateway_runs : WorkflowOutputGateway → list WorkflowOutput → Prop :=
  | runs_new : gateway_runs new_output_gateway []
  | runs_accept o wf rp w e g g' accepted :
      gateway_runs g accepted → submit_output o wf rp w e g = (Ok true, g') →
      gateway_runs g' (o :: accepted)
  | runs_reject o wf rp w e out g g' accepted :
      gateway_runs g accepted → submit_output o wf rp w e g = (out, g') → out ≠ Ok true →
      gateway_runs g' accepted.

(** The identity an output is referred to by. *)
Definition output_id (o : WorkflowOutput) : option string :=
  match o with
  | WThreat t => Some (thr_correlation_id t)
  | WRisk r => Some (rsk_recommendation_id r)
  | WAccess a => Some (acc_recommendation_id a)
  | WEnforcement e => Some (enf_decision_id e)
  | WFeedback _ | WOther _ _ _ => None
  end.

(** What an output refers to. *)
Definition output_refs (o : WorkflowOutput) : list string :=
  match o with
  | WRisk r => rsk_threat_correlation_refs r
  | WAccess a => acc_evidence_refs a
  | WEnforcement e => enf_controller_recommendation_id e :: enf_evidence_refs e
  | _ => []
  end.

(** A reference resolves to an accepted output of the same binding. *)
Definition resolves (accepted : list WorkflowOutput) (b : Binding) (ref : string) : Prop :=
  ∃ o, o ∈ accepted ∧ output_id o = Some ref ∧ output_binding o = b.

Lemma reference_check_id bindings o reason id :
  reference_check bindings o = (reason, id) → id = output_id o.
Proof. destruct o; cbn; by intros [= _ <-]. Qed.

Lemma submit_output_cases o wf rp w e g out g' :
  submit_output o wf rp w e g = (out, g') →
  (∃ b, out = Ok b ∧ (b = false → og_output_bindings g' = og_output_bindings g)) ∧
  wg_submitted (og_stats g') = wg_submitted (og_stats g) + 1 ∧
  (length (wg_recent_rejections (og_stats g')) ≤ WG_RECENT_LIMIT ∨
   wg_recent_rejections (og_stats g') = wg_recent_rejections (og_stats g))%nat ∧
  (out = Ok true →
     assert_agentic_safe (output_dump o) "workflow_output" = Ok tt ∧
     binding_mismatch wf rp w e o = None ∧
     reference_check (og_output_bindings g) o = (None, output_id o) ∧
     og_output_bindings g' =
       match output_id o with
       | Some id => <[id := output_binding o]> (og_output_bindings g)
       | None => og_output_bindings g
       end).
Proof.
  intros Hrun. unfold submit_output in Hrun. unfold mbind at 1, M_bind, count_submitted, modify in Hrun.
  cbn zeta in Hrun. set (g1 := mk_output_gateway _ _) in Hrun.
  assert (Hreject : ∀ schema reason, reject_output schema reason o g1 = (out, g') →
    (∃ b, out = Ok b ∧ (b = false → og_output_bindings g' = og_output_bindings g)) ∧
    wg_submitted (og_stats g') = wg_submitted (og_stats g) + 1 ∧
    (length (wg_recent_rejections (og_stats g')) ≤ WG_RECENT_LIMIT ∨
     wg_recent_rejections (og_stats g') = wg_recent_rejections (og_stats g))%nat ∧ out ≠ Ok true).
  { intros schema reason [= <- <-]. split_and!; [by exists false | done | left; apply push_bounded_length | done]. }
  destruct (assert_agentic_safe _ _) as [[]|ex]; cbn [is_ok negb] in Hrun;
    [|apply Hreject in Hrun as (? & ? & ? & ?); by split_and!].
  destruct o as [t|r|a|en|f|cl d en]; try (apply Hreject in Hrun as (? & ? & ? & ?); by split_and!);
    (destruct (binding_mismatch wf rp w e _) as [reason|] eqn:Hb;
      [apply Hreject in Hrun as (? & ? & ? & ?); by split_and! |]);
    unfold mbind, M_bind, gets in Hrun;
    match type of Hrun with context [reference_check ?b ?o] =>
      destruct (reference_check b o) as [[reason|] id] eqn:Hc end;
    try (apply Hreject in Hrun as (? & ? & ? & ?); by split_and!);
    injection Hrun as <- <-; cbn [og_output_bindings g1] in Hc;
    (assert (Hid : id = output_id _) by (apply (reference_check_id _ _ _ _ Hc)));
    rewrite Hid in Hc |- *; (split; [by exists true |]); (split; [done |]); (split; [by right |]);
    intros _; by split_and!.
Qed.

Lemma refs_bound_ok bindings b refs :
  refs_bound bindings b refs = true ↔ Forall (λ ref, bindings !! ref = Some b) refs.
Proof.
  unfold refs_bound. rewrite forallb_forall, Forall_forall. setoid_rewrite list_elem_of_In.
  by setoid_rewrite bool_decide_eq_true.
Qed.

(** A passed reference check: every reference has the output's binding. *)
Lemma reference_check_refs bindings o id :
  reference_check bindings o = (None, id) →
  Forall (λ ref, bindings !! ref = Some (output_binding o)) (output_refs o).
Proof.
  destruct o as [t|r|a|e|f|]; cbn [reference_check output_refs]; try by constructor.
  - destruct (refs_bound _ _ _) eqn:Hr; [|done]. intros _. by apply refs_bound_ok.
  - destruct (refs_bound _ _ _) eqn:Hr; [|done]. intros _. by apply refs_bound_ok.
  - case_bool_decide as Hc; cbn [negb]; [|done].
    destruct (refs_bound _ _ _) eqn:Hr; [|done]. intros _. constructor; [done |]. by apply refs_bound_ok.
Qed.

(** What the bindings table holds. *)
Lemma gateway_runs_bindings g accepted :
  gateway_runs g accepted →
  ∀ id b, og_output_bindings g !! id = Some b → resolves accepted b id.
Proof.
  induction 1 as [|o wf rp w e g g' accepted _ IH Hrun|o wf rp w e out g g' accepted _ IH Hrun Hne];
    intros id b Hg.
  - done.
  - apply submit_output_cases in Hrun as (_ & _ & _ & Hacc).
    destruct (Hacc eq_refl) as (_ & _ & _ & Hb). rewrite Hb in Hg.
    assert (Hold : og_output_bindings g !! id = Some b → resolves (o :: accepted) b id).
    { intros Hg'. destruct (IH id b Hg') as (o' & ? & ?). exists o'. split; [set_solver | done]. }
    destruct (output_id o) as [oid|] eqn:Hid; [|by apply Hold].
    destruct (decide (oid = id)) as [->|Hneq].
    + rewrite lookup_insert_eq in Hg. injection Hg as <-. exists o. split; [set_solver | done].
    + rewrite lookup_insert_ne in Hg by done. by apply Hold.
  - apply submit_output_cases in Hrun as ((b' & -> & Hb) & _).
    destruct b'; [done |]. rewrite Hb in Hg by done. by apply IH.
Qed.

(** Accepted before: the suffix of the outputs after [o] in the newest-first list. *)
Lemma gateway_runs_refs g accepted :
  gateway_runs g accepted →
  ∀ newer o older, accepted = newer ++ o :: older →
    Forall (resolves older (output_binding o)) (output_refs o) ∧
    assert_agentic_safe (output_dump o) "workflow_output" = Ok tt.
Proof.
  induction 1 as [|o wf rp w e g g' accepted Hruns IH Hrun|o wf rp w e out g g' accepted _ IH Hrun Hne];
    intros newer o' older Heq.
  - by destruct newer.
  - apply submit_output_cases in Hrun as (_ & _ & _ & Hacc).
    destruct (Hacc eq_refl) as (Hsafe & _ & Hc & _).
    destruct newer as [|o1 newer]; cbn in Heq; injection Heq as -> Heq; [|by apply (IH newer)].
    subst accepted. split; [|done]. apply reference_check_refs in Hc.
    eapply Forall_impl; [exact Hc |]. intros ref Hg. by apply (gateway_runs_bindings _ _ Hruns).
  - by apply (IH newer).
Qed.
