(* ===== verification/AgLedgerFacts.v ===== *)
(** * Durable actions

    The action ledger over the replicated Blackboard: everything in its cache and
    everything it answers is held by a quorum of replicas under the action's key. *)

From S2P Require Import Prelude PyString Json BbContracts BbStorage BbAuthorization BbReplica BbReplicaFacts.
From S2P Require Import BbCoordinator BbCluster BbReads BbConsistency AgContracts AgRecords AgCore.
From S2P Require Import AgSpecialists AgCommit BsService BsFacts AgLedger AgFacts.

Section ledger.
Context `{PyRuntime} (settings : BlackboardSettings) (ids : list string).
Context (Hquorum : 1 ≤ quorum_size settings).
Context (env : LedgerEnv) (decode : list (string * json) → result EnforcementDecisionV1).

Abbreviation replicas s := (co_replicas (bs_coordinator s)).
Abbreviation svc := (svc settings ids).

(** A quorum holds a valid record under the action's key, whose payload is the
    decision's fields or decodes to the decision. *)
Definition backed (replay_id : string) (window_id : Z) (entity_id : string)
    (d : EnforcementDecisionV1) (rs : list BlackboardReplica) : Prop :=
  ∃ record, record_valid record ∧ r_record_key record = record_key_of replay_id window_id entity_id ∧
    (decode (r_payload record) = Ok d ∨ r_payload record = enforcement_fields d) ∧
    committed_on rs (quorum_size settings) (record_key_of replay_id window_id entity_id)
      (r_record_version record) (r_record_id record).

Definition backed_key (key : CacheKey) (d : EnforcementDecisionV1) (rs : list BlackboardReplica)
    : Prop := backed key.1.1.2 key.1.2 key.2 d rs.

(** The ledger [l] over the service [s]. *)
Record durable (l : BlackboardActionLedger) (s : BlackboardService) : Prop := {
  du_blackboard : al_blackboard l = Some s;
  du_service : service_ok settings ids s;
  du_cache : Forall (λ kd, backed_key kd.1 kd.2 (replicas s)) (al_cache l);
}.

(** Steps of the cluster, the switch untouched. *)
Definition service_steps (s s' : BlackboardService) : Prop :=
  rtc cluster_step (replicas s) (replicas s') ∧ bs_enabled s' = bs_enabled s.

#[local] Instance service_steps_preorder : PreOrder service_steps.
Proof.
  split; [by intros s |]. intros s1 s2 s3 [H1 E1] [H2 E2]. split; [by etrans | congruence].
Qed.

Definition lgr {A} (P : list BlackboardReplica → Prop) (m : LM A)
    (Q : A → list BlackboardReplica → Prop) : Prop :=
  ∀ l s out l', durable l s → P (replicas s) → m l = (out, l') →
    ∃ s', durable l' s' ∧ service_steps s s' ∧
      match out with Ok a => Q a (replicas s') | Raise _ => True end.

Lemma backed_steps rp w e d s rs' :
  service_ok settings ids s → rtc cluster_step (replicas s) rs' →
  backed rp w e d (replicas s) → backed rp w e d rs'.
Proof.
  intros [(_ & _ & _ & Hwf) _] Hst (record & ? & ? & ? & Hc). exists record. split_and!; try done.
  destruct (cluster_steps_le _ _ Hst Hwf) as [_ Hle]. by eapply committed_on_mono.
Qed.

Lemma lgr_ret {A} (P : list BlackboardReplica → Prop) (a : A) Q :
  (∀ rs, P rs → Q a rs) → lgr P (mret a) Q.
Proof. intros HPQ l s out l' Hl HP [= <- <-]. exists s. split_and!; [done | done | by apply HPQ]. Qed.

Lemma lgr_raise {A} P c m Q : lgr P (@throw _ A c m) Q.
Proof. intros l s out l' Hl HP [= <- <-]. by exists s. Qed.

Lemma lgr_bind {A B} P R Q (m : LM A) (f : A → LM B) :
  lgr P m R → (∀ a, lgr (R a) (f a) Q) → lgr P (m ≫= f) Q.
Proof.
  intros Hm Hf l s out l' Hl HP. unfold mbind, M_bind. destruct (m l) as [[a|e] l1] eqn:Hml;
    destruct (Hm _ _ _ _ Hl HP Hml) as (s1 & Hl1 & H1 & HR); [|intros [= <- <-]; by exists s1].
  intros Hfl. destruct (Hf a _ _ _ _ Hl1 HR Hfl) as (s2 & ? & ? & ?).
  exists s2. split_and!; [done | by etrans | done].
Qed.

Lemma lgr_weaken {A} (P P' : list BlackboardReplica → Prop) (Q Q' : A → list BlackboardReplica → Prop) m :
  (∀ rs, P' rs → P rs) → (∀ a rs, Q a rs → Q' a rs) → lgr P m Q → lgr P' m Q'.
Proof.
  intros HP HQ Hm l s out l' Hl HP' Hrun.
  destruct (Hm _ _ _ _ Hl (HP _ HP') Hrun) as (s' & ? & ? & Ha).
  exists s'. split_and!; try done. destruct out; auto.
Qed.

Lemma lgr_pure {A} (φ : Prop) P (m : LM A) Q : (φ → lgr P m Q) → lgr (λ rs, φ ∧ P rs) m Q.
Proof. intros Hm l s out l' Hl [Hφ HP]. by apply (Hm Hφ). Qed.

Lemma lgr_lift {A} P (r : result A) : lgr P (lift r) (λ a rs, r = Ok a ∧ P rs).
Proof. intros l s out l' Hl HP [= <- <-]. exists s. split_and!; [done | done |]. by destruct r. Qed.

Lemma lgr_guard P b c m : lgr P (guardM b c m) (λ _ rs, b = true ∧ P rs).
Proof. intros l s out l' Hl HP [= <- <-]. exists s. split_and!; [done | done |]. by destruct b. Qed.

Lemma lgr_require P m : lgr P (require_blackboard m) (λ _ _, True).
Proof.
  intros l s out l' Hl HP [= <- <-]. exists s. split_and!; [done | done |]. by destruct (check _ _ _).
Qed.

Lemma lgr_runtime {A} P (m : LM A) msg Q : lgr P m Q → lgr P (as_runtime_error msg m) Q.
Proof.
  intros Hm l s out l' Hl HP. unfold as_runtime_error. destruct (m l) as [[a|e] l1] eqn:Hml;
    destruct (Hm _ _ _ _ Hl HP Hml) as (s1 & Hl1 & H1 & HR); intros [= <- <-]; exists s1;
    split_and!; try done. by case_bool_decide.
Qed.

(** A call of the service. *)
Lemma lgr_blackboard {A} P (f : nat → BSM A) Q : (∀ n, svc P (f n) Q) → lgr P (on_blackboard f) Q.
Proof.
  intros Hf l s out l' [Hb Hs Hc] HP. unfold on_blackboard. rewrite Hb.
  destruct (f (al_calls l) s) as [o s'] eqn:Hrun. intros [= <- <-].
  destruct (Hf _ _ _ _ Hs HP Hrun) as (Hst & Hs' & He & Ho). exists s'. split_and!; try done.
  constructor; try done. cbn. eapply Forall_impl; [exact Hc |]. intros kd.
  by apply (backed_steps _ _ _ _ s).
Qed.

(** *** The cache *)
Lemma lgr_lookup key : lgr (λ _, True) (cache_lookup key)
  (λ o rs, ∀ d, o = Some d → backed_key key d rs).
Proof.
  intros l s out l' [Hb Hs Hc] _. unfold cache_lookup.
  destruct (od_get key (al_cache l)) as [d|] eqn:Hg; intros [= <- <-]; exists s.
  - split_and!; [|done|].
    + constructor; [done | done |]. by apply od_move_to_end_Forall.
    + intros d' [= <-]. rewrite Forall_forall in Hc. by apply (Hc (key, d)), od_get_Some_elem.
  - split_and!; [done | done |]. by intros d.
Qed.

Lemma lgr_store key d :
  lgr (backed_key key d) (cache_store key d) (λ _, backed_key key d).
Proof.
  intros l s out l' [Hb Hs Hc] HP [= <- <-]. exists s. split_and!; [|done | done].
  constructor; [done | done |]. cbn. apply Forall_drop.
  by apply (od_set_Forall (λ k d, backed_key k d (replicas s))).
Qed.

(** ** Lookups and puts *)
Lemma lgr_stored wf rp w e payload record :
  lgr (λ rs, (record_valid record ∧ r_record_key record = record_key_of rp w e ∧
              payload = r_payload record) ∧
     committed_on rs (quorum_size settings) (record_key_of rp w e) (r_record_version record)
       (r_record_id record))
    (stored_decision decode wf rp w e payload) (λ o rs, ∀ d, o = Some d → backed rp w e d rs).
Proof.
  apply lgr_pure. intros (Hv & Hk & ->). apply lgr_runtime. eapply lgr_bind; [apply lgr_lift |].
  intros dec. apply lgr_pure. intros Hdec. do 2 (eapply lgr_bind; [apply lgr_guard |];
    intros ?; apply lgr_pure; intros _).
  apply (lgr_bind _ (λ _, backed_key (wf, rp, w, e) dec)).
  - intros l s out l' Hl Hc Hrun. apply (lgr_store _ _ _ _ _ _ Hl); [|done].
    exists record. split_and!; [done | done | by left | done].
  - intros u. apply lgr_ret. by intros rs Hb d [= <-].
Qed.

Lemma lgr_get key :
  lgr (λ _, True) (action_get env decode key) (λ o rs, ∀ d, o = Some d → backed_key key d rs).
Proof.
  destruct key as [[[wf rp] w] e]. unfold action_get. eapply lgr_bind; [apply lgr_lookup |].
  intros [d|]; [by apply lgr_ret |]. eapply lgr_bind; [apply lgr_require |]. intros u. apply lgr_runtime. eapply lgr_bind; [apply lgr_blackboard; intros n; by apply svc_read |].
  intros res. case_bool_decide; [by apply lgr_ret |]. destruct (negb _); [apply lgr_raise |].
  destruct (rd_record res) as [record|] eqn:Hr; [|apply lgr_raise].
  intros l s out l' Hl HP Hrun. destruct (HP record Hr) as (Hv & Hk & _ & Hc).
  eapply (lgr_stored wf rp w e (r_payload record) record); [exact Hl | by split_and! | exact Hrun].
Qed.

Lemma lgr_write d :
  lgr (λ _, True) (write_action env d)
    (λ _, backed (enf_replay_id d) (enf_window_id d) (enf_entity_id d) d).
Proof.
  unfold write_action. eapply lgr_bind.
  { apply lgr_blackboard. intros n. by apply svc_workflow_output. }
  intros [w|]; [|apply lgr_raise].
  eapply lgr_weaken; [intros rs Hp; exact Hp | |apply lgr_guard]. cbv beta.
  intros u rs [Hw%bool_decide_eq_true Hp]. destruct (Hp w eq_refl Hw) as
    (record & Hv & Hk & Hpay & _ & _ & _ & Hc).
  exists record. split_and!; [done | exact Hk | by right | exact Hc].
Qed.

(** A put of a decision under its own binding. *)
Lemma lgr_put wf d :
  let key := (wf, enf_replay_id d, enf_window_id d, enf_entity_id d) in
  lgr (λ _, True) (action_put env decode key d) (backed_key key).
Proof.
  cbv zeta. unfold action_put. eapply lgr_bind; [apply lgr_get |]. intros [e|].
  - destruct (same_decision e d); [|apply lgr_raise]. apply lgr_ret. intros rs He. by apply He.
  - eapply lgr_bind; [apply lgr_require |]. intros u. eapply lgr_bind; [apply lgr_runtime, lgr_write |]. intros u2.
    eapply lgr_bind; [apply (lgr_store (wf, enf_replay_id d, enf_window_id d, enf_entity_id d)) |].
    intros u3. by apply lgr_ret.
Qed.

(** ** The committer over this ledger *)
#[local] Opaque action_put action_get.

#[local] Instance env_ledger : Ledger BlackboardActionLedger := blackboard_action_ledger env decode.

Lemma on_counter_frame name (c c' : ActionCommitter BlackboardActionLedger) out :
  on_counter name c = (out, c') → cm_ledger c' = cm_ledger c.
Proof. unfold on_counter. destruct (ag_increment _ _ _). by intros [= _ <-]. Qed.

(** What a run of the committer preserves and promises. *)
Definition committer_run {A} (P : list BlackboardReplica → Prop)
    (m : CT (L := BlackboardActionLedger) A) (Q : A → list BlackboardReplica → Prop) : Prop :=
  ∀ c s out c', durable (cm_ledger c) s → P (replicas s) → m c = (out, c') →
    ∃ s', durable (cm_ledger c') s' ∧ service_steps s s' ∧
      match out with Ok a => Q a (replicas s') | Raise _ => True end.

Lemma run_bind {A B} P R Q (m : CT A) (f : A → CT B) :
  committer_run P m R → (∀ a, committer_run (R a) (f a) Q) → committer_run P (m ≫= f) Q.
Proof.
  intros Hm Hf c s out c' Hl HP. unfold mbind, M_bind. destruct (m c) as [[a|e] c1] eqn:Hml;
    destruct (Hm _ _ _ _ Hl HP Hml) as (s1 & Hl1 & H1 & HR); [|intros [= <- <-]; by exists s1].
  intros Hfl. destruct (Hf a _ _ _ _ Hl1 HR Hfl) as (s2 & ? & ? & ?).
  exists s2. split_and!; [done | by etrans | done].
Qed.

Lemma run_frame {A} P (m : CT A) :
  (∀ c, cm_ledger (m c).2 = cm_ledger c) → committer_run P m (λ _, P).
Proof.
  intros Hm c s out c' Hl HP Hrun. specialize (Hm c). rewrite Hrun in Hm. cbn in Hm.
  exists s. rewrite Hm. split_and!; [done | done |]. by destruct out.
Qed.

Lemma run_ledger {A} P (m : LM A) Q : lgr P m Q → committer_run P (on_ledger m) Q.
Proof.
  intros Hm c s out c' Hl HP. unfold on_ledger. destruct (m (cm_ledger c)) as [o l] eqn:Hrun.
  intros [= <- <-]. by apply (Hm _ _ _ _ Hl HP Hrun).
Qed.

Lemma run_counter P name : committer_run P (on_counter name) (λ _, P).
Proof.
  apply run_frame. intros c. destruct (on_counter name c) as [o c'] eqn:Hrun.
  by apply on_counter_frame in Hrun.
Qed.

Lemma run_retry (Q : EnforcementDecisionV1 → list BlackboardReplica → Prop) e rec m :
  committer_run (Q e) (retry_or_conflict e rec m) Q.
Proof.
  unfold retry_or_conflict. destruct (same_action e rec).
  - eapply run_bind; [apply run_counter |]. intros u c s out c' Hl HP [= <- <-].
    by exists s.
  - eapply run_bind; [apply run_counter |]. intros u c s out c' Hl HP [= <- <-].
    by exists s.
Qed.

Lemma run_commit id rec wf rp w ts e :
  committer_run (λ _, True) (commit_action id rec wf rp w ts e) (backed rp w e).
Proof.
  unfold commit_action. do 2 (eapply run_bind; [by apply run_frame |]; intros ?).
  eapply run_bind; [apply run_ledger, lgr_get |]. intros [d|].
  { intros c s out c' Hl HP. apply (run_retry (backed rp w e)); [done |]. by apply HP. }
  eapply run_bind; [by apply run_frame |]. intros ?.
  apply (run_bind _ (λ o rs, ∀ d, o = Some d → backed rp w e d rs)).
  { intros c s out c' Hl _ Hrun.
    exact (run_ledger _ _ _ (lgr_get (Some wf, rp, w, e)) c s out c' Hl I Hrun). }
  intros [d|].
  { intros c s out c' Hl HP. apply (run_retry (backed rp w e)); [done |]. by apply HP. }
  apply (run_bind _ (backed rp w e)).
  { intros c s out c' Hl _ Hrun.
    exact (run_ledger _ _ _ (lgr_put (Some wf) (enforcement_of id rec wf rp w ts e)) c s out c' Hl I
      Hrun). }
  intros d. eapply run_bind; [apply run_counter |]. intros u c s out c' Hl HP [= <- <-].
  by exists s.
Qed.

(** What is committed repeats the recommendation's action and names it. *)
Definition enacts (rec : AccessRecommendationV1) (d : EnforcementDecisionV1) : Prop :=
  enf_action d = acc_action rec ∧ enf_controller_recommendation_id d = acc_recommendation_id rec.

Lemma retry_enacts rec e m : returns (retry_or_conflict (L := BlackboardActionLedger) e rec m) (enacts rec).
Proof.
  unfold retry_or_conflict. destruct (same_action e rec) eqn:Hs; apply returns_bind; intros u; [|done].
  intros c d c' [= <- <-]. apply andb_true_iff in Hs as [?%bool_decide_eq_true ?%bool_decide_eq_true].
  by split.
Qed.

#[local] Transparent action_put.
Lemma put_enacts key rec id wf rp w ts e :
  returns (action_put env decode key (enforcement_of id rec wf rp w ts e)) (enacts rec).
Proof.
  unfold action_put. apply returns_bind. intros [d|].
  - destruct (same_decision _ _) eqn:Hs; [|done]. intros l d' l' [= <- <-].
    by apply andb_true_iff in Hs as [?%bool_decide_eq_true ?%bool_decide_eq_true].
  - do 3 (apply returns_bind; intros ?). intros l d' l' [= <- <-]. by split.
Qed.

Lemma commit_enacts id rec wf rp w ts e :
  returns (commit_action (L := BlackboardActionLedger) id rec wf rp w ts e) (enacts rec).
Proof.
  unfold commit_action. do 2 (apply returns_bind; intros ?). apply returns_bind. intros [d|];
    [apply retry_enacts |]. apply returns_bind. intros ?. apply returns_bind. intros [d|]; [apply retry_enacts |].
  intros c d c' Hrun. apply M_bind_ok in Hrun as (d1 & c1 & H1 & Hrun).
  apply M_bind_ok in Hrun as (u & c2 & _ & [= <- <-]). unfold on_ledger in H1.
  destruct (ledger_put _ _ _) as [o l] eqn:Hput in H1. injection H1 as -> <-.
  by apply put_enacts in Hput.
Qed.
End ledger.
