(* ===== verification/AgWitness.v ===== *)
(** * A concrete workflow run

    One window of one device through the specialists, the committer and the
    output gateway, and the same action over the replicated Blackboard; used by
    the concrete instances of the workflow's properties. *)

From S2P Require Import Prelude PyString Json Firewall BbContracts BbAuthorization BbCoordinator BbWitness.
From S2P Require Import SimDevices AgContracts AgRecords AgCore AgSpecialists AgCommit BsService BsFacts.
From S2P Require Import AgLedger AgGateway AgLedgerFacts.

Definition device1 : string := "weather-sensor".
Definition clock1 (id : string) : CallClock := mk_clock id f_zero f_one.

Definition finding1 : NetworkFinding :=
  mk_network_finding device1 3 t0_utc f_0_8 "attack" f_0_8 "detector-1" [].

Definition state1 : DeviceState :=
  mk_device_state device1 "sensor" "sensor" "10.0.0.7" "aa:bb" true false true (Some "continuous")
    (Some f_0_8) (Some f_0_1) true true f_zero f_0_8 true true (Some t0_utc) (Some t0_utc)
    (Some 3) (Some 3).

Definition agi0 : AgenticInstrumentation := Eval vm_compute in
  ok_or (mk_ag_instr 0 0 [] [] []) (new_ag_instrumentation 8 8).

(** ** The specialists *)
Definition threat1 : ThreatCorrelationV1 := Eval vm_compute in
  correlation_of (clock1 "threat-1") CATALOG_VERSION "wf-1" device1 3 t0_utc
    [network_object finding1] None MATCHED (Some RULE_NETWORK).
Definition agi1 : AgenticInstrumentation := Eval vm_compute in
  (correlate (clock1 "threat-1") CATALOG_VERSION "wf-1" device1 3 t0_utc [network_object finding1]
     None agi0).2.
Lemma threat1_run :
  correlate (clock1 "threat-1") CATALOG_VERSION "wf-1" device1 3 t0_utc [network_object finding1]
    None agi0 = (Ok threat1, agi1).
Proof. vm_compute. reflexivity. Qed.

Definition risk1 : RiskRecommendationV1 := Eval vm_compute in
  risk_of (clock1 "risk-1") "wf-1" device1 3 t0_utc (device_view state1) [threat1] None.
Definition agi2 : AgenticInstrumentation := Eval vm_compute in
  (analyze (clock1 "risk-1") "wf-1" device1 3 t0_utc (device_view state1) [threat1] None agi1).2.
Lemma risk1_run :
  analyze (clock1 "risk-1") "wf-1" device1 3 t0_utc (device_view state1) [threat1] None agi1 =
    (Ok risk1, agi2).
Proof. vm_compute. reflexivity. Qed.

Definition access1 : AccessRecommendationV1 := Eval vm_compute in
  access_of (clock1 "access-1") POLICY_CONFIG "wf-1" device1 3 t0_utc risk1 [threat1] None.
Definition agi3 : AgenticInstrumentation := Eval vm_compute in
  (decide_access (clock1 "access-1") POLICY_CONFIG "wf-1" device1 3 t0_utc risk1 [threat1] None
     agi2).2.
Lemma access1_run :
  decide_access (clock1 "access-1") POLICY_CONFIG "wf-1" device1 3 t0_utc risk1 [threat1] None
    agi2 = (Ok access1, agi3).
Proof. vm_compute. reflexivity. Qed.

(** ** The committer, in memory *)
Definition memory0 : InMemoryLedger := Eval vm_compute in
  ok_or (mk_memory_ledger 0 ∅ []) (new_memory_ledger 4).
Definition committer0 : ActionCommitter InMemoryLedger := mk_committer memory0 agi3.
Definition enforcement1 : EnforcementDecisionV1 := Eval vm_compute in
  enforcement_of "action-1" access1 "wf-1" "replay-1" 3 t0_utc device1.
Definition committer1 : ActionCommitter InMemoryLedger := Eval vm_compute in
  (commit_action "action-1" access1 "wf-1" "replay-1" 3 t0_utc device1 committer0).2.
Lemma commit1_memory_run :
  commit_action "action-1" access1 "wf-1" "replay-1" 3 t0_utc device1 committer0 =
    (Ok enforcement1, committer1).
Proof. vm_compute. reflexivity. Qed.

(** ** The committer, over the Blackboard *)
Definition service0 : BlackboardService :=
  mk_service coordinator0 default_settings true None [] 0 0 0 None.
Definition ledger_env1 : LedgerEnv :=
  mk_ledger_env (λ _, op_env) (λ _, mk_service_env (λ _, op_env) (λ _, op_env)).
(** A decoder that knows the one action. *)
Definition decode1 (payload : list (string * json)) : result EnforcementDecisionV1 :=
  if bool_decide (payload = enforcement_fields enforcement1) then Ok enforcement1
  else raise ValidationError "unknown action".
Definition bb_ledger0 : BlackboardActionLedger := mk_action_ledger (Some service0) 4 [] 0.
Definition bb_committer0 : ActionCommitter BlackboardActionLedger := mk_committer bb_ledger0 agi3.
Definition bb_commit1 : result EnforcementDecisionV1 * ActionCommitter BlackboardActionLedger :=
  commit_action (H := blackboard_action_ledger ledger_env1 decode1) "action-1" access1 "wf-1"
    "replay-1" 3 t0_utc device1 bb_committer0.
Lemma bb_commit1_run : bb_commit1.1 = Ok enforcement1.
Proof. vm_compute. reflexivity. Qed.

Lemma bb_ledger0_durable :
  durable default_settings DEFAULT_REPLICA_IDS decode1 bb_ledger0 service0.
Proof. constructor; [done | split; [apply fresh_ok | done] | constructor]. Qed.

(** ** The output gateway *)
Definition gateway1 : WorkflowOutputGateway := Eval vm_compute in
  (submit_output (WThreat threat1) (Some "wf-1") None (Some 3) (Some device1) new_output_gateway).2.
Definition gateway2 : WorkflowOutputGateway := Eval vm_compute in
  (submit_output (WRisk risk1) (Some "wf-1") None (Some 3) (Some device1) gateway1).2.
Lemma gateway1_run :
  submit_output (WThreat threat1) (Some "wf-1") None (Some 3) (Some device1) new_output_gateway =
    (Ok true, gateway1).
Proof. vm_compute. reflexivity. Qed.
Lemma gateway2_run :
  submit_output (WRisk risk1) (Some "wf-1") None (Some 3) (Some device1) gateway1 =
    (Ok true, gateway2).
Proof. vm_compute. reflexivity. Qed.
