(* ===== verification/AgProperties.v ===== *)
(** * Properties of the agentic workflow

    The theorems about the policy, the order of the workflow, the specialists,
    the action committer and its ledgers, and the output gateway, each with a
    concrete instance.  The numbering continues that of the orchestration. *)

From S2P Require Import Prelude PyString Json Firewall BbContracts BbAuthorization BbCoordinator BbCluster.
From S2P Require Import BbWitness SimDevices AgContracts AgRecords AgCore AgSpecialists AgCommit BsService.
From S2P Require Import BsFacts AgLedger AgGateway AgFacts AgLedgerFacts AgWitness.

(** C18: the access policy.  When the controller decides on the analyst's
    recommendation for a device: it blocks exactly when the systemic risk reaches
    0.7; it allows exactly when the risk is below 0.4 and the evidence is
    complete; its action is the escalation the analyst recommended; and, for any
    thresholds, neither a higher risk nor the loss of evidence ever makes the
    action milder. *)
Theorem access_policy k1 k2 wf e w ts v cs prov i r i' i2 a i3 :
  analyze k1 wf e w ts v cs prov i = (Ok r, i') →
  decide_access k2 POLICY_CONFIG wf e w ts r cs prov i2 = (Ok a, i3) →
  (acc_action a = BLOCK ↔ f_geb (dw_systemic_risk v) f_0_7 = true) ∧
  (acc_action a = ALLOW ↔ f_geb (dw_systemic_risk v) f_0_7 = false ∧
     f_geb (dw_systemic_risk v) f_0_4 = false ∧ evidence_complete_of v = true) ∧
  action_value (acc_action a) = rsk_recommended_escalation r ∧
  (∀ policy x y complete complete', f_leb x y = true → (complete' = true → complete = true) →
     severity (access_action policy x complete) ≤ severity (access_action policy y complete')).
Proof.
  intros (-> & _ & _)%analyze_ok (-> & _ & _)%decide_access_ok.
  split_and!; [| | symmetry; apply escalation_is_action | intros; by apply access_action_monotone];
    cbn [access_of acc_action risk_of rsk_systemic_risk rsk_evidence_complete access_action
      POLICY_CONFIG pc_block_threshold pc_monitor_threshold];
    unfold access_action; cbn [pc_block_threshold pc_monitor_threshold POLICY_CONFIG];
    destruct (f_geb (dw_systemic_risk v) f_0_7), (f_geb (dw_systemic_risk v) f_0_4),
      (evidence_complete_of v); naive_solver.
Qed.

(** The order of the workflow.  However ready agents are picked, an agent
    only completes after all its dependencies, no agent completes twice, so a run
    has at most five completions; and while some agent has not completed and the
    external evidence is there, one is ready: a run that cannot go on has
    completed all five. *)
Theorem workflow_order n completed :
  nsteps workflow_step n ∅ completed →
  (∀ a, a ∈ completed → DEPENDENCIES a ⊆ completed) ∧ n = size completed ∧ (n ≤ 5)%nat ∧
  ((∃ a, a ∉ completed) ↔ ∃ a, a ∈ ready_agents completed true true) ∧
  (¬ (∃ completed', workflow_step completed completed') → n = 5%nat).
Proof.
  intros Hrun. assert (Hc : closed completed ∧ n = size completed).
  { clear -Hrun. revert completed Hrun. induction n as [|n IH]; intros completed Hrun.
    - inversion Hrun; subst. split; [by intros a | by rewrite size_empty].
    - apply nsteps_inv_r in Hrun as (c & [Hcl Hn]%IH & Hs).
      split; [by eapply workflow_step_closed |]. by rewrite (workflow_step_size _ _ Hs), Hn. }
  destruct Hc as [Hc ->].
  assert (Hiff : (∃ a, a ∉ completed) ↔ ∃ a, a ∈ ready_agents completed true true).
  { split; [by apply workflow_progress | intros [a [Hn _]%elem_of_ready]; by exists a]. }
  split_and!; [done | done | apply completed_bound | done |].
  intros Hstuck. assert (Hall : ∀ a, a ∈ completed).
  { intros a. destruct (decide (a ∈ completed)) as [|Hn]; [done |].
    destruct (proj1 Hiff (ex_intro _ a Hn)) as [b Hb]. destruct Hstuck. eexists. by eapply step_agent. }
  apply (anti_symm (≤)%nat); [apply completed_bound |].
  change 5%nat with (size (list_to_set all_agents : gset AgentId)). apply subseteq_size. set_solver.
Qed.

(** C19: what the specialists may return.  An output that comes back is valid
    under every rule of its contract, is bound to the workflow, entity, window
    and time of the call, and was made from inputs with the same binding and
    without ground truth; the correlator reports MATCHED exactly when every
    finding is supported and one meets a catalogue rule, and names that rule's
    behaviour. *)
Theorem specialist_outputs k cv wf e w ts fs prov i out i' k2 v cs prov2 i2 out2 i2' k3 p r cs3 prov3
    i3 out3 i3' :
  correlate k cv wf e w ts fs prov i = (out, i') →
  analyze k2 wf e w ts v cs prov2 i2 = (out2, i2') →
  decide_access k3 p wf e w ts r cs3 prov3 i3 = (out3, i3') →
  match out with
  | Ok t => threat_validate t = Ok tt ∧ correlation_bound wf e w ts t = Ok tt ∧
      assert_agentic_safe (findings_json fs) "threat_correlator findings" = Ok tt ∧
      (thr_mapping_status t = MATCHED ↔ check_findings e w fs = Ok true ∧ is_Some (matched_rule fs)) ∧
      thr_threat_behavior_id t =
        match thr_mapping_status t with
        | MATCHED => rule_threat_behavior_id <$> matched_rule fs
        | _ => None
        end
  | Raise _ => True
  end ∧
  match out2 with
  | Ok r2 => risk_validate r2 = Ok tt ∧ risk_bound wf e w ts r2 = Ok tt ∧
      Forall (λ t, correlation_bound wf e w ts t = Ok tt) cs
  | Raise _ => True
  end ∧
  match out3 with
  | Ok a => access_validate a = Ok tt ∧ recommendation_bound a wf w ts e = Ok tt ∧
      risk_bound wf e w ts r = Ok tt
  | Raise _ => True
  end.
Proof.
  intros H1 H2 H3. split_and!.
  - destruct out as [t|]; [|done]. apply correlate_ok in H1 as (? & <- & <- & <- & <- & ? & ? & ?).
    split_and!; try done. unfold correlation_bound. rewrite Z.eqb_refl, !bool_decide_eq_true_2 by done.
    done.
  - destruct out2 as [r2|]; [|done]. apply analyze_ok in H2 as (-> & ? & ?). split_and!; try done.
    unfold risk_bound. cbn. by rewrite Z.eqb_refl, !bool_decide_eq_true_2.
  - destruct out3 as [a|]; [|done]. apply decide_access_ok in H3 as (-> & ? & ?). split_and!; try done.
    unfold recommendation_bound. cbn. by rewrite Z.eqb_refl, !bool_decide_eq_true_2.
Qed.


(** The in-memory ledger.  It keeps at most [limit] actions, one per key,
    its order is exactly its keys, and it implements the [Ledger] interface: a
    put into a free key stores the decision, and evicts only the oldest. *)
Theorem memory_ledger_bounded limit l0 l k d out l' :
  new_memory_ledger limit = Ok l0 → memory_ok l → ml_store l !! k = None →
  memory_put k d l = (out, l') →
  memory_ok l0 ∧ memory_ok l' ∧ out = Ok d ∧ (memory_get k l').1 = Ok (Some d) ∧
  Z.of_nat (size (ml_store l')) ≤ Z.of_nat (ml_limit l) ∧
  (∀ k' d', k' ≠ k → ml_store l' !! k' = Some d' → ml_store l !! k' = Some d').
Proof.
  intros Hnew Hl Hk Hrun. destruct (memory_put_law _ _ _ _ _ Hl Hk Hrun) as (Hl' & -> & Hd & Hother).
  assert (Hlim : ml_limit l' = ml_limit l).
  { unfold memory_put in Hrun. rewrite Hk in Hrun. destruct (evict_actions _ _ _).
    by injection Hrun as <-. }
  split_and!; [|done | done | | | done].
  - unfold new_memory_ledger in Hnew. apply result_bind_ok in Hnew as (u & Hc & [= <-]).
    apply check_ok, Z.leb_le in Hc. constructor; cbn; [lia | apply NoDup_nil_2 | done | lia].
  - unfold memory_get, gets. cbn. by rewrite Hd.
  - rewrite <-size_dom, (mo_dom _ Hl'), size_list_to_set by apply (mo_order _ Hl').
    pose proof (mo_length _ Hl'). lia.
Qed.

(** References between outputs.  Whatever is submitted, in any order and
    against any expectations, an accepted output holds no ground truth and only
    refers to outputs accepted earlier with the same workflow, window and
    entity; a rejected one leaves the references as they were. *)
Theorem accepted_outputs_chain g accepted :
  gateway_runs g accepted →
  (∀ newer o older, accepted = newer ++ o :: older →
     Forall (resolves older (output_binding o)) (output_refs o) ∧
     assert_agentic_safe (output_dump o) "workflow_output" = Ok tt) ∧
  (∀ id b, og_output_bindings g !! id = Some b → resolves accepted b id) ∧
  (∀ o wf rp w e g', submit_output o wf rp w e g = (Ok false, g') →
     og_output_bindings g' = og_output_bindings g).
Proof.
  intros Hruns. split_and!.
  - intros newer o older. by apply (gateway_runs_refs _ _ Hruns).
  - by apply gateway_runs_bindings.
  - intros o wf rp w e g' Hrun. apply submit_output_cases in Hrun as ((b & [= <-] & Hb) & _).
    by apply Hb.
Qed.

(** C21: durable actions.  A committer over the replicated Blackboard that
    returns an action, fresh or repeated, has it on a quorum of replicas: a valid
    record under the action's key whose payload is the action.  The commit only
    takes steps of the replica cluster, and everything the ledger has cached
    stays backed by a quorum, also when the commit fails. *)
Theorem durable_actions `{PyRuntime} settings ids env decode id rec wf rp w ts e l i s out c' :
  1 ≤ quorum_size settings → durable settings ids decode l s →
  commit_action (H := blackboard_action_ledger env decode) id rec wf rp w ts e (mk_committer l i) =
    (out, c') →
  ∃ s', durable settings ids decode (cm_ledger c') s' ∧
    rtc cluster_step (co_replicas (bs_coordinator s)) (co_replicas (bs_coordinator s')) ∧
    match out with
    | Ok d => backed settings decode rp w e d (co_replicas (bs_coordinator s'))
    | Raise _ => True
    end.
Proof.
  intros Hq Hl Hrun. destruct (run_commit settings ids Hq env decode id rec wf rp w ts e
    (mk_committer l i) s out c' Hl I Hrun) as (s' & Hl' & [Hst _] & Hout). by exists s'.
Qed.

(** Recorded findings.  Recording an accepted finding never raises, whatever
    the publisher, the replicas and the hooks do; it only takes cluster steps and
    keeps the service well formed; and a write it reports as COMMITTED has put a
    valid record with the finding's payload, under the key of the finding's
    device in this replay, on a quorum.  Closing and reopening the service then
    loses no committed row. *)
Theorem finding_recorded `{PyRuntime} settings ids env replay_id f s out s' :
  1 ≤ quorum_size settings → service_ok settings ids s →
  record_finding env replay_id f s = (out, s') →
  service_ok settings ids s' ∧
  rtc cluster_step (co_replicas (bs_coordinator s)) (co_replicas (bs_coordinator s')) ∧
  (∃ o, out = Ok o ∧ ∀ w, o = Some w → w_outcome w = COMMITTED →
     written settings (finding_key replay_id f) (finding_payload f) w
       (co_replicas (bs_coordinator s'))) ∧
  (length ids = 3%nat → ∃ s2, restart_persistence_check s' = (Ok true, s2) ∧
     service_ok settings ids s2).
Proof.
  intros Hq Hs Hrun.
  destruct (svc_finding settings ids Hq env replay_id f s out s' Hs I Hrun) as (Hst & Hs' & _ & Ho).
  pose proof (record_finding_returns env replay_id f s) as Hr. rewrite Hrun in Hr.
  destruct out as [o|e]; [|done]. split_and!; [done | done | by exists o |].
  intros Hlen. destruct (restart_check settings ids s' Hs' Hlen) as (s2 & ? & ? & _). by exists s2.
Qed.

(** * Concrete instances *)

Lemma access_policy_witness : acc_action access1 = BLOCK.
Proof.
  refine (proj2 (proj1 (access_policy (clock1 "risk-1") (clock1 "access-1") "wf-1" device1 3 t0_utc
    (device_view state1) [threat1] None agi1 risk1 agi2 agi2 access1 agi3 _ _)) _).
  - apply risk1_run.
  - apply access1_run.
  - vm_compute. reflexivity.
Defined.

Lemma workflow_order_witness :
  DEPENDENCIES iot_behavioral_profiler ⊆ ({[iot_behavioral_profiler]} ∪ ∅ : gset AgentId).
Proof.
  refine (proj1 (workflow_order 1 ({[iot_behavioral_profiler]} ∪ ∅) _) iot_behavioral_profiler _).
  - apply nsteps_once, (step_agent _ false false). apply (bool_decide_unpack _). vm_compute. exact I.
  - apply elem_of_union_l, elem_of_singleton_2. reflexivity.
Defined.

Lemma specialist_outputs_witness : threat_validate threat1 = Ok tt ∧
  correlation_bound "wf-1" device1 3 t0_utc threat1 = Ok tt.
Proof.
  destruct (specialist_outputs _ _ _ _ _ _ _ _ _ _ _ _ _ _ _ _ _ _ _ _ _ _ _ _ _ _
    threat1_run risk1_run access1_run) as ((Hv & Hb & _) & _ & _).
  exact (conj Hv Hb).
Defined.


Lemma memory_ledger_bounded_witness :
  (memory_get ("wf-1", "replay-1", 3, device1) (cm_ledger committer1)).1 = Ok (Some enforcement1).
Proof.
  refine (proj1 (proj2 (proj2 (proj2 (memory_ledger_bounded 4 memory0 memory0
    ("wf-1", "replay-1", 3, device1) enforcement1 (Ok enforcement1) (cm_ledger committer1) _ _ _ _))))).
  - vm_compute. reflexivity.
  - constructor; [apply (bool_decide_unpack _); vm_compute; exact I | apply NoDup_nil_2 | reflexivity
      | apply (bool_decide_unpack _); vm_compute; exact I].
  - vm_compute. reflexivity.
  - vm_compute. reflexivity.
Defined.

Lemma accepted_outputs_chain_witness :
  Forall (resolves [WThreat threat1] (output_binding (WRisk risk1))) (output_refs (WRisk risk1)).
Proof.
  refine (proj1 (proj1 (accepted_outputs_chain gateway2 [WRisk risk1; WThreat threat1] _)
    [] (WRisk risk1) [WThreat threat1] eq_refl)).
  eapply runs_accept; [eapply runs_accept; [apply runs_new | apply gateway1_run] | apply gateway2_run].
Defined.

Lemma durable_actions_witness : ∃ s',
  durable default_settings DEFAULT_REPLICA_IDS decode1 (cm_ledger bb_commit1.2) s' ∧
  rtc cluster_step fresh_replicas (co_replicas (bs_coordinator s')) ∧
  backed default_settings decode1 "replay-1" 3 device1 enforcement1 (co_replicas (bs_coordinator s')).
Proof.
  refine (durable_actions default_settings DEFAULT_REPLICA_IDS ledger_env1 decode1 "action-1" access1
    "wf-1" "replay-1" 3 t0_utc device1 bb_ledger0 agi3 service0 (Ok enforcement1) bb_commit1.2 _ _ _).
  - vm_compute. discriminate.
  - apply bb_ledger0_durable.
  - rewrite <-bb_commit1_run. apply surjective_pairing.
Defined.

Lemma finding_recorded_witness :
  service_ok default_settings DEFAULT_REPLICA_IDS
    (record_finding (mk_service_env (λ _, op_env) (λ _, op_env)) "replay-1" (AFNetwork finding1)
       service0).2.
Proof.
  refine (proj1 (finding_recorded default_settings DEFAULT_REPLICA_IDS
    (mk_service_env (λ _, op_env) (λ _, op_env)) "replay-1" (AFNetwork finding1) service0
    (record_finding (mk_service_env (λ _, op_env) (λ _, op_env)) "replay-1" (AFNetwork finding1)
       service0).1 _ _ _ _)).
  - vm_compute. discriminate.
  - split; [apply fresh_ok | reflexivity].
  - apply surjective_pairing.
Defined.
