(* ===== verification/SimReplay.v ===== *)
(** * The replay of a session

    Models [simulation/communication_graph.py] (the aggregate graph of observed
    traffic and the deltas of the current window) and the runner of
    [simulation/replay.py]: the sorted streams of a session are merged window by
    window, each window's communication rows go to the graph, its network and
    behaviour rows to the detector and the profiler, or to the workflow, their
    findings to the gateway, and the device model takes a step.

    The graph is a map of nodes and a map of edges.  The detector, the profiler, the
    workflow callback, the event sink and the controller are arguments of the
    runner, as in the code; the runner's device model is the gateway's, as its
    callers build it.  A sorted stream is the list its sorter returns.  The on-disk
    copy of the records is left out. *)

From Stdlib Require Import SpecFloat.
From S2P Require Import Prelude PyString Json DsWindowSort DsWindowing DsWindowSortFacts SimDevices.
From S2P Require Import DsNetwork SimGateway SimFacts AgCore.

(** ** Rows *)
Definition row_get (name : string) (r : Row) : option json := od_get name (row_fields r).

(** [bool(x)] *)
Definition truthy_json (j : json) : bool :=
  match j with
  | JNull => false
  | JBool b => b
  | JInt z => negb (z =? 0)
  | JFloat x => negb (f_eqb x f_zero)
  | JStr s => negb (bool_decide (s = ""))
  | JList l => negb (bool_decide (l = []))
  | JDict d => negb (bool_decide (d.*1 = []))
  end.

(** [bool(row.get(name))] *)
Definition row_flag (name : string) (r : Row) : bool :=
  match row_get name r with Some j => truthy_json j | None => false end.

(** [int(x)] *)
Definition int_json (j : json) : result Z :=
  match j with
  | JInt z => Ok z
  | JBool b => Ok (if b then 1 else 0)
  | JFloat x =>
      match x with
      | S754_infinity _ => raise OverflowError "cannot convert float infinity to integer"
      | S754_nan => raise ValueError "cannot convert float NaN to integer"
      | _ => Ok (f_trunc x)
      end
  | JStr s => of_option (py_int s) ValueError "invalid literal for int() with base 10"
  | _ => raise TypeError "int() argument must be a string or a number"
  end.

(** [row[name]], an entity. *)
Definition entity_of (name : string) (r : Row) : result string :=
  match row_get name r with
  | None => raise KeyError name
  | Some (JStr s) => Ok s
  | Some _ => raise TypeError "entity ids are strings"
  end.

(** [int(row[name])] and [int(row.get(name, 0))] *)
Definition int_item (name : string) (r : Row) : result Z :=
  match row_get name r with Some j => int_json j | None => raise KeyError name end.
Definition int_get (name : string) (r : Row) : result Z :=
  match row_get name r with Some j => int_json j | None => Ok 0 end.

(** [row.get("protocols") or []]: names. *)
Definition protocol_names (r : Row) : result (list string) :=
  match row_get "protocols" r with
  | None => Ok []
  | Some j =>
      if negb (truthy_json j) then Ok []
      else match j with
           | JList l => mapM_result (λ x, match x with
                                          | JStr s => Ok s
                                          | _ => raise TypeError "protocols are strings"
                                          end) l
           | _ => raise TypeError "protocols are a list"
           end
  end.

(** ** The communication graph *)
Definition PROTOCOL_CAP : nat := 32.

Record NodeAttrs := mk_node_attrs {
  na_is_protected_asset : bool;
  na_is_attacker : bool;
  na_role : string;
}.

Record EdgeData := mk_edge_data {
  gd_packet_count_total : Z;
  gd_captured_byte_total : Z;
  gd_first_window_id : Z;
  gd_last_window_id : Z;
  gd_first_timestamp_utc : json;
  gd_last_timestamp_utc : json;
  gd_protocols_ever : list string;
  gd_broadcast_ever : bool;
  gd_multicast_ever : bool;
}.

Record WindowDelta := mk_delta {
  dl_packet_count_delta : Z;
  dl_captured_byte_delta : Z;
  dl_protocols_in_window : gset string;
}.

Definition Pair : Type := string * string.

Record CommunicationGraph := mk_graph {
  cg_inventory : DeviceInventory;
  cg_nodes : gmap string NodeAttrs;
  cg_edges : gmap Pair EdgeData;
  cg_records_applied : Z;
  cg_current_window_id : option Z;
  cg_window_deltas : gmap Pair WindowDelta;
}.

Definition build_comm_graph (inv : DeviceInventory) : CommunicationGraph :=
  mk_graph inv ∅ ∅ 0 None ∅.

Definition node_attrs (inv : DeviceInventory) (entity_id : string) : NodeAttrs :=
  match iv_by_name inv !! entity_id with
  | Some rec => mk_node_attrs (negb (bool_decide (dv_role rec ∈ ["attacker"; "cloud"])))
                  (bool_decide (dv_role rec = "attacker")) (dv_role rec)
  | None =>
      let named := bool_decide (entity_id ∈ ["broadcast"; "multicast"]) in
      mk_node_attrs false false
        (if named then entity_id
         else if String.prefix "mac:" entity_id || String.prefix "ip:" entity_id then "external"
         else "unknown")
  end.

Definition ensure_node (entity_id : string) (g : CommunicationGraph) : CommunicationGraph :=
  match cg_nodes g !! entity_id with
  | Some _ => g
  | None => mk_graph (cg_inventory g) (<[entity_id := node_attrs (cg_inventory g) entity_id]> (cg_nodes g))
              (cg_edges g) (cg_records_applied g) (cg_current_window_id g) (cg_window_deltas g)
  end.

(** [begin_window], and the start of [apply]. *)
Definition begin_window (wid : Z) (g : CommunicationGraph) : CommunicationGraph :=
  if bool_decide (cg_current_window_id g = Some wid) then g
  else mk_graph (cg_inventory g) (cg_nodes g) (cg_edges g) (cg_records_applied g) (Some wid) ∅.

Definition window_start (r : Row) : json := default JNull (row_get "window_start_utc" r).

Definition new_edge_data (r : Row) : EdgeData :=
  let wid := row_window_id r in
  mk_edge_data 0 0 wid wid (window_start r) (window_start r) [] false false.

Definition ensure_edge (k : Pair) (r : Row) (g : CommunicationGraph) : CommunicationGraph :=
  match cg_edges g !! k with
  | Some _ => g
  | None => mk_graph (cg_inventory g) (cg_nodes g) (<[k := new_edge_data r]> (cg_edges g))
              (cg_records_applied g) (cg_current_window_id g) (cg_window_deltas g)
  end.

Definition on_edge (k : Pair) (f : EdgeData → EdgeData) (g : CommunicationGraph) : CommunicationGraph :=
  mk_graph (cg_inventory g) (cg_nodes g) (alter f k (cg_edges g)) (cg_records_applied g)
    (cg_current_window_id g) (cg_window_deltas g).

Definition count_packets (n : Z) (d : EdgeData) : EdgeData :=
  mk_edge_data (gd_packet_count_total d + n) (gd_captured_byte_total d) (gd_first_window_id d)
    (gd_last_window_id d) (gd_first_timestamp_utc d) (gd_last_timestamp_utc d) (gd_protocols_ever d)
    (gd_broadcast_ever d) (gd_multicast_ever d).
Definition count_bytes (n : Z) (d : EdgeData) : EdgeData :=
  mk_edge_data (gd_packet_count_total d) (gd_captured_byte_total d + n) (gd_first_window_id d)
    (gd_last_window_id d) (gd_first_timestamp_utc d) (gd_last_timestamp_utc d) (gd_protocols_ever d)
    (gd_broadcast_ever d) (gd_multicast_ever d).

(** The window range and its stamps. *)
Definition span_window (r : Row) (d : EdgeData) : EdgeData :=
  let wid := row_window_id r in
  let '(first, first_ts) := if wid <? gd_first_window_id d then (wid, window_start r)
                            else (gd_first_window_id d, gd_first_timestamp_utc d) in
  let '(last, last_ts) := if gd_last_window_id d <? wid then (wid, window_start r)
                          else (gd_last_window_id d, gd_last_timestamp_utc d) in
  mk_edge_data (gd_packet_count_total d) (gd_captured_byte_total d) first last first_ts last_ts
    (gd_protocols_ever d) (gd_broadcast_ever d) (gd_multicast_ever d).

Definition add_protocol (protos : list string) (proto : string) : list string :=
  if bool_decide (proto ∈ protos) then protos
  else if (length protos <? PROTOCOL_CAP)%nat then sort_strings (protos ++ [proto]) else protos.

Definition note_traffic (protos : list string) (r : Row) (d : EdgeData) : EdgeData :=
  mk_edge_data (gd_packet_count_total d) (gd_captured_byte_total d) (gd_first_window_id d)
    (gd_last_window_id d) (gd_first_timestamp_utc d) (gd_last_timestamp_utc d)
    (foldl add_protocol (gd_protocols_ever d) protos)
    (gd_broadcast_ever d || row_flag "broadcast_indicator" r)
    (gd_multicast_ever d || row_flag "multicast_indicator" r).

Definition add_delta (k : Pair) (packets bytes : Z) (protos : list string) (g : CommunicationGraph)
    : CommunicationGraph :=
  let d := default (mk_delta 0 0 ∅) (cg_window_deltas g !! k) in
  mk_graph (cg_inventory g) (cg_nodes g) (cg_edges g) (cg_records_applied g + 1) (cg_current_window_id g)
    (<[k := mk_delta (dl_packet_count_delta d + packets) (dl_captured_byte_delta d + bytes)
              (list_to_set protos ∪ dl_protocols_in_window d)]> (cg_window_deltas g)).

Definition GM (A : Type) : Type := M CommunicationGraph A.

(** [apply] *)
Definition apply_record (r : Row) : GM unit :=
  src ← lift (entity_of "src_entity_id" r);
  dst ← lift (entity_of "dst_entity_id" r);
  _ ← modify (begin_window (row_window_id r));
  _ ← modify (λ g, ensure_edge (src, dst) r (ensure_node dst (ensure_node src g)));
  packets ← lift (int_item "packet_count" r);
  _ ← modify (on_edge (src, dst) (count_packets packets));
  bytes ← lift (int_get "captured_byte_count" r);
  _ ← modify (on_edge (src, dst) (span_window r ∘ count_bytes bytes));
  protos ← lift (protocol_names r);
  _ ← modify (on_edge (src, dst) (note_traffic protos r));
  modify (add_delta (src, dst) packets bytes protos).

Fixpoint apply_many (rows : list Row) : GM unit :=
  match rows with
  | [] => mret tt
  | r :: rows => _ ← apply_record r; apply_many rows
  end.

(** [get_window_delta] *)
Definition get_window_delta (k : Pair) (g : CommunicationGraph) : Z * Z * list string :=
  match cg_window_deltas g !! k with
  | None => (0, 0, [])
  | Some d => (dl_packet_count_delta d, dl_captured_byte_delta d,
               sort_strings (elements (dl_protocols_in_window d)))
  end.

(** ** The runner *)
Record SinkEvent := mk_sink_event {
  se_type : string;
  se_window_id : option Z;
  se_entity_id : option string;
  se_payload : list (string * json);
}.

(** What the workflow callback is given, and the counts it returns. *)
Record WindowInput := mk_window_input {
  wi_window_id : Z;
  wi_logical_timestamp : option json;
  wi_net_rows : list Row;
  wi_beh_rows : list Row;
  wi_context_active : bool;
}.

Record CallbackCounts := mk_counts {
  cb_network : Z;
  cb_behavior : Z;
  cb_findings_network : Z;
  cb_behavior_observed : Z;
  cb_behavior_absence : Z;
}.

(** The callback publishes through [emit] and works on the gateway and its device
    model; it may return something else than counts, or raise. *)
Definition WorkflowCallback : Type :=
  WindowInput → FindingGateway → result (option CallbackCounts) * list SinkEvent * FindingGateway.

(** The arguments of the runner and of [run].  The controller is asked before and
    after each window with the number of completed ones, and returns when the replay
    may go on. *)
Record ReplayRunner := mk_runner {
  rr_detector : option (list Row → result (list NetworkFinding));
  rr_profiler : option (Row → bool → Z → result (option BehaviorFinding));
  rr_workflow_callback : option WorkflowCallback;
  rr_source_mode : string;
  rr_replay_speed : string;
  rr_recorded_at : Z → string;
  rr_event_sink : option (SinkEvent → result unit);
  rr_control : option (bool → Z → result unit);
}.

(** The counters of the runner and [accepted]; [rn_events] is what the sink was given,
    [rn_delays] the seconds slept. *)
Record RunnerState := mk_run {
  rn_graph : option CommunicationGraph;
  rn_gateway : FindingGateway;
  rn_window_ids_seen : Z;
  rn_min_processed_wid : option Z;
  rn_last_processed_wid : option Z;
  rn_findings_network : Z;
  rn_findings_behavior_observed : Z;
  rn_findings_behavior_absence : Z;
  rn_accepted_network : Z;
  rn_accepted_behavior : Z;
  rn_events : list SinkEvent;
  rn_delays : list f64;
}.

Definition new_run (graph : option CommunicationGraph) (gateway : FindingGateway) : RunnerState :=
  mk_run graph gateway 0 None None 0 0 0 0 0 [] [].

Definition XM (A : Type) : Type := M RunnerState A.

Definition with_gateway (gw : FindingGateway) (s : RunnerState) : RunnerState :=
  mk_run (rn_graph s) gw (rn_window_ids_seen s) (rn_min_processed_wid s) (rn_last_processed_wid s)
    (rn_findings_network s) (rn_findings_behavior_observed s) (rn_findings_behavior_absence s)
    (rn_accepted_network s) (rn_accepted_behavior s) (rn_events s) (rn_delays s).
Definition on_gateway {A} (m : M FindingGateway A) : XM A := λ s,
  let '(r, gw) := m (rn_gateway s) in (r, with_gateway gw s).

Definition with_graph (g : CommunicationGraph) (s : RunnerState) : RunnerState :=
  mk_run (Some g) (rn_gateway s) (rn_window_ids_seen s) (rn_min_processed_wid s) (rn_last_processed_wid s)
    (rn_findings_network s) (rn_findings_behavior_observed s) (rn_findings_behavior_absence s)
    (rn_accepted_network s) (rn_accepted_behavior s) (rn_events s) (rn_delays s).
(** [if self.comm_graph is not None: ...] *)
Definition on_graph (m : GM unit) : XM unit := λ s,
  match rn_graph s with
  | None => (Ok tt, s)
  | Some g => let '(r, g') := m g in (r, with_graph g' s)
  end.

(** The counters go up by the given amounts. *)
Definition count_findings (network observed absence acc_network acc_behavior : Z) : XM unit := modify (λ s,
  mk_run (rn_graph s) (rn_gateway s) (rn_window_ids_seen s) (rn_min_processed_wid s)
    (rn_last_processed_wid s) (rn_findings_network s + network)
    (rn_findings_behavior_observed s + observed) (rn_findings_behavior_absence s + absence)
    (rn_accepted_network s + acc_network) (rn_accepted_behavior s + acc_behavior) (rn_events s) (rn_delays s)).

Definition log_events (es : list SinkEvent) : XM unit := modify (λ s,
  mk_run (rn_graph s) (rn_gateway s) (rn_window_ids_seen s) (rn_min_processed_wid s)
    (rn_last_processed_wid s) (rn_findings_network s) (rn_findings_behavior_observed s)
    (rn_findings_behavior_absence s) (rn_accepted_network s) (rn_accepted_behavior s) (rn_events s ++ es)
    (rn_delays s)).

(** [set_completed]: the bookkeeping after a window. *)
Definition finish_window (target : Z) : XM unit := modify (λ s,
  mk_run (rn_graph s) (rn_gateway s) (rn_window_ids_seen s + 1)
    (Some (default target (rn_min_processed_wid s))) (Some target) (rn_findings_network s)
    (rn_findings_behavior_observed s) (rn_findings_behavior_absence s) (rn_accepted_network s)
    (rn_accepted_behavior s) (rn_events s) (rn_delays s)).

Section runner.
Context `{PyRuntime} (neighbors : string → result (list string)) (rr : ReplayRunner).

Definition emit (e : SinkEvent) : XM unit :=
  match rr_event_sink rr with
  | None => mret tt
  | Some sink => _ ← log_events [e]; lift (sink e)
  end.

Definition window_event (type : string) (target : Z) : SinkEvent := mk_sink_event type (Some target) None [].

Definition checkpoint (after : bool) (windows_completed : Z) : XM unit :=
  match rr_control rr with
  | None => mret tt
  | Some control => lift (control after windows_completed)
  end.

(** [_pace]: 5.0 / speed *)
Definition pace : XM unit :=
  let delay := od_get (rr_replay_speed rr)
                 [("1x", f_of_Z 5); ("5x", f_one); ("10x", f_half)] in
  match delay with
  | None => mret tt
  | Some d => modify (λ s,
      mk_run (rn_graph s) (rn_gateway s) (rn_window_ids_seen s) (rn_min_processed_wid s)
        (rn_last_processed_wid s) (rn_findings_network s) (rn_findings_behavior_observed s)
        (rn_findings_behavior_absence s) (rn_accepted_network s) (rn_accepted_behavior s) (rn_events s)
        (rn_delays s ++ [d]))
  end.

Definition network_payload (f : NetworkFinding) : list (string * json) :=
  [("attack_probability", JFloat (nf_attack_probability f)); ("predicted_class", JStr (nf_predicted_class f));
   ("confidence", JFloat (nf_confidence f)); ("timestamp_utc", JStr (nf_timestamp_utc f))].
Definition behavior_payload (f : BehaviorFinding) : list (string * json) :=
  [("deviation_score", JFloat (bf_deviation_score f)); ("profile_type", JStr (bf_profile_type f));
   ("confidence", JFloat (bf_confidence f)); ("explanation", JStr (bf_explanation f));
   ("timestamp_utc", JStr (bf_timestamp_utc f))].

Definition verdict_event (accepted : bool) (target : Z) (entity kind : string) : SinkEvent :=
  mk_sink_event (if accepted then "GATEWAY_ACCEPTED" else "GATEWAY_REJECTED") (Some target) (Some entity)
    [("evidence_kind", JStr kind)].

(** [self.gateway.submit(finding)] and its event. *)
Definition submit_finding (target : Z) (sub : Submission) (kind : string) : XM bool :=
  accepted ← on_gateway (gateway_submit sub);
  _ ← emit (verdict_event accepted target (sub_entity sub) kind);
  mret accepted.

Definition take_network_finding (target : Z) (f : NetworkFinding) : XM unit :=
  _ ← emit (mk_sink_event "NETWORK_FINDING" (Some target) (Some (nf_entity_id f)) (network_payload f));
  accepted ← submit_finding target (SubNetwork f) "network";
  if accepted : bool then count_findings 0 0 0 1 0 else mret tt.

Fixpoint take_network_findings (target : Z) (fs : list NetworkFinding) : XM unit :=
  match fs with
  | [] => mret tt
  | f :: fs => _ ← take_network_finding target f; take_network_findings target fs
  end.

Definition detect (target : Z) (net_rows : list Row) : XM unit :=
  match rr_detector rr with
  | None => mret tt
  | Some detector =>
      match filter (λ r, row_flag "network_observed" r = true) net_rows with
      | [] => mret tt
      | eligible =>
          findings ← lift (detector eligible);
          _ ← count_findings (Z.of_nat (length findings)) 0 0 0 0;
          take_network_findings target findings
      end
  end.

Definition is_absence (f : BehaviorFinding) : bool := String.prefix "unexpected_absence" (bf_explanation f).

Definition take_behavior_finding (target : Z) (f : BehaviorFinding) : XM unit :=
  _ ← (if is_absence f then count_findings 0 0 1 0 0 else count_findings 0 1 0 0 0);
  _ ← emit (mk_sink_event "BEHAVIOR_FINDING" (Some target) (Some (bf_entity_id f)) (behavior_payload f));
  accepted ← submit_finding target (SubBehavior f) "behavior";
  if accepted : bool then count_findings 0 0 0 0 1 else mret tt.

Fixpoint profile_rows (profiler : Row → bool → Z → result (option BehaviorFinding)) (target : Z)
    (context_active : bool) (rows : list Row) : XM unit :=
  match rows with
  | [] => mret tt
  | r :: rows =>
      finding ← lift (profiler r context_active target);
      _ ← (match finding with Some f => take_behavior_finding target f | None => mret tt end);
      profile_rows profiler target context_active rows
  end.

Definition profile (target : Z) (context_active : bool) (beh_rows : list Row) : XM unit :=
  match rr_profiler rr with
  | None => mret tt
  | Some profiler => profile_rows profiler target context_active beh_rows
  end.

(** The step of the device model: [current_window_id = target], [propagate],
    [record_step]. *)
Definition enter_window (target : Z) : XM unit := on_gateway (on_abm (modify (set_window (Some target)))).
Definition propagate_risk : XM unit := on_gateway (on_abm (abm_propagate neighbors)).
Definition record_window : XM unit := λ s,
  (snapshot ← on_gateway (on_abm (record_step (rr_recorded_at rr (rn_window_ids_seen s)))); mret tt) s.

Definition attempt (m : XM unit) : XM unit := λ s, (Ok tt, (m s).2).

(** [workflow_callback] given: whatever it raises is dropped. *)
Definition orchestrate (callback : WorkflowCallback) (input : WindowInput) : XM unit := λ s,
  let '(r, events, gw) := callback input (rn_gateway s) in
  (_ ← (match rr_event_sink rr with Some _ => log_events events | None => mret tt end);
   _ ← (match r with
        | Ok (Some c) => count_findings (cb_findings_network c) (cb_behavior_observed c)
                           (cb_behavior_absence c) (cb_network c) (cb_behavior c)
        | _ => mret tt
        end);
   entered ← gets (λ s, bool_decide (abm_current_window_id (gw_abm (rn_gateway s)) = Some (wi_window_id input)));
   if entered : bool then mret tt
   else _ ← enter_window (wi_window_id input);
        _ ← attempt propagate_risk;
        record_window) (with_gateway gw s).

Definition logical_timestamp (net_rows beh_rows : list Row) : option json :=
  match net_rows, beh_rows with
  | r :: _, _ => row_get "window_start_utc" r
  | [], r :: _ => row_get "window_start_utc" r
  | [], [] => None
  end.

(** A window with its rows. *)
Definition process_window (target : Z) (net_rows beh_rows comm_rows : list Row) : XM unit :=
  _ ← on_graph (apply_many comm_rows);
  let context_active := existsb (row_flag "behavior_observed") beh_rows in
  match rr_workflow_callback rr with
  | Some callback =>
      orchestrate callback
        (mk_window_input target (logical_timestamp net_rows beh_rows) net_rows beh_rows context_active)
  | None =>
      _ ← detect target net_rows;
      _ ← profile target context_active beh_rows;
      _ ← enter_window target;
      _ ← propagate_risk;
      record_window
  end.

(** ** The merge of the streams *)
Definition Heads : Type := list (string * list Row).

(** [min(h.peek_wid() for h in live_heads)] *)
Definition min_opt (a b : option Z) : option Z :=
  match a, b with Some x, Some y => Some (Z.min x y) | Some x, None => Some x | None, b => b end.
Definition next_window (heads : Heads) : option Z :=
  foldr (λ h m, min_opt (row_window_id <$> head h.2) m) None heads.

(** [_drain]: the rows of the window at the front of a stream, and the rest. *)
Fixpoint drain_rows (wid : Z) (rows : list Row) : list Row * list Row :=
  match rows with
  | [] => ([], [])
  | r :: rest =>
      if row_window_id r =? wid then let '(front, rest) := drain_rows wid rest in (r :: front, rest)
      else ([], rows)
  end.

Definition drain_head (tag : string) (wid : Z) (heads : Heads) : result (list Row * Heads) :=
  match od_get tag heads with
  | None => raise KeyError tag
  | Some rows => let '(front, rest) := drain_rows wid rows in Ok (front, od_set tag rest heads)
  end.

Definition ReplayOrderingError : exn_class := OtherError "ReplayOrderingError".

Definition ordering_message (target last : Z) : string :=
  "sorted streams produced window " +:+ fmt_int target +:+ " after " +:+ fmt_int last +:+ "; ordering violation".

(** [target < self.last_processed_wid] *)
Definition check_order (target : Z) : XM unit :=
  last ← gets rn_last_processed_wid;
  match last with
  | Some w => if target <? w then throw ReplayOrderingError (ordering_message target w) else mret tt
  | None => mret tt
  end.

Definition open_window (target : Z) : XM unit :=
  _ ← emit (window_event "WINDOW_STARTED" target);
  on_graph (modify (begin_window target)).

Definition drain_window (target : Z) (heads : Heads) : result (list Row * list Row * list Row * Heads) :=
  '(net_rows, heads) ← drain_head "network" target heads;
  '(beh_rows, heads) ← drain_head "behavior" target heads;
  '(comm_rows, heads) ← drain_head "communication" target heads;
  Ok (net_rows, beh_rows, comm_rows, heads).

(** The rest of a window, to the pause after it. *)
Definition replay_window (target : Z) (net_rows beh_rows comm_rows : list Row) (windows_completed : Z) : XM unit :=
  _ ← process_window target net_rows beh_rows comm_rows;
  _ ← finish_window target;
  _ ← emit (window_event "WINDOW_COMPLETED" target);
  _ ← checkpoint true (windows_completed + 1);
  pace.

(** The loop of [run]. *)
Fixpoint run_windows (fuel : nat) (heads : Heads) (windows_completed : Z) : XM unit :=
  match fuel with
  | O => throw RuntimeError "out of fuel"
  | S fuel =>
      _ ← checkpoint false windows_completed;
      match next_window heads with
      | None => mret tt
      | Some target =>
          _ ← check_order target;
          _ ← open_window target;
          '(net_rows, beh_rows, comm_rows, heads) ← lift (drain_window target heads);
          _ ← replay_window target net_rows beh_rows comm_rows windows_completed;
          run_windows fuel heads (windows_completed + 1)
      end
  end.

(** Enough: a window takes at least one row. *)
Definition run_fuel (heads : Heads) : nat := S (sum_list (map (length ∘ snd) heads)).

Definition run (heads : Heads) : XM unit :=
  _ ← emit (mk_sink_event "REPLAY_STARTED" None None [("source_mode", JStr (rr_source_mode rr))]);
  run_windows (run_fuel heads) heads 0.
End runner.

(** [make_stream] on the three record streams: each is fed to a sorter and read back. *)
Definition make_stream (chunk_rows merge_fan_in : Z) (rows : list Row) : result (list Row) :=
  sorter ← new_sorter chunk_rows merge_fan_in;
  ((_ ← add_all rows; iter_sorted) sorter).1.

Definition make_heads (chunk_rows merge_fan_in : Z) (network behavior communication : list Row) : result Heads :=
  net ← make_stream chunk_rows merge_fan_in network;
  beh ← make_stream chunk_rows merge_fan_in behavior;
  comm ← make_stream chunk_rows merge_fan_in communication;
  Ok [("network", net); ("behavior", beh); ("communication", comm)].

(** The fused stream: one sorter per tag that occurs, in order of tag, then the
    behaviour stream. *)
Definition tags_of (fused : list (string * Row)) : list string :=
  sort_strings (elements (list_to_set (map fst fused) : gset string)).
Definition rows_of (tag : string) (fused : list (string * Row)) : list Row :=
  omap (λ tr, if bool_decide (tr.1 = tag) then Some tr.2 else None) fused.

Definition fused_heads (chunk_rows merge_fan_in : Z) (fused : list (string * Row)) (behavior : list Row)
    : result Heads :=
  tagged ← mapM_result (λ tag, rows ← make_stream chunk_rows merge_fan_in (rows_of tag fused); Ok (tag, rows))
             (tags_of fused);
  beh ← make_stream chunk_rows merge_fan_in behavior;
  Ok (od_set "behavior" beh tagged).

(** ** The summary *)
Record ReplaySummary := mk_summary {
  rm_source_mode : string;
  rm_replay_speed : string;
  rm_windows : Z;
  rm_window_id_range : option Z * option Z;
  rm_findings_emitted : Z * Z * Z;
  rm_findings_accepted : Z * Z;
  rm_gateway_stats : Z * Z * Z * Z;
  rm_communication_edges : Z;
  rm_communication_nodes : Z;
  rm_abm_final_digest : FinalDigest;
  rm_history_length : Z;
  rm_history_limit : Z;
}.

Definition summarize `{PyRuntime} (rr : ReplayRunner) (s : RunnerState) : ReplaySummary :=
  let st := gw_stats (rn_gateway s) in
  let abm := gw_abm (rn_gateway s) in
  mk_summary (rr_source_mode rr) (rr_replay_speed rr) (rn_window_ids_seen s)
    (rn_min_processed_wid s, rn_last_processed_wid s)
    (rn_findings_network s, rn_findings_behavior_observed s + rn_findings_behavior_absence s,
     rn_findings_behavior_absence s)
    (rn_accepted_network s, rn_accepted_behavior s)
    (gs_submitted st, gs_rejected_unknown_entity st, gs_rejected_schema st, gs_rejected_timestamp st)
    (match rn_graph s with Some g => Z.of_nat (size (cg_edges g)) | None => 0 end)
    (match rn_graph s with Some g => Z.of_nat (size (cg_nodes g)) | None => 0 end)
    (final_digest abm) (Z.of_nat (length (abm_history abm))) (Z.of_nat (abm_history_limit abm)).
