(* ===== verification/SimReplayFacts.v ===== *)
(** * Facts about the replay of a session

    The merge of the sorted streams hands out the windows in order, each with the
    rows the streams have for it, and its fuel is enough; what the rows leave in the
    communication graph; and the accounts of the runner and of the gateway. *)

From S2P Require Import Prelude PyString Json DsWindowSort DsWindowing DsWindowSortFacts SimDevices.
From S2P Require Import DsNetwork SimGateway SimFacts AgCore SimReplay.

(** ** The merge is a batch by window *)

(** The windows of some rows, in order, and the rows of one. *)
Definition window_ids (rows : list Row) : list Z :=
  isort Z.leb (elements (list_to_set (map row_window_id rows) : gset Z)).
Definition at_window (w : Z) (rows : list Row) : list Row := filter (λ r, row_window_id r = w) rows.

Section filters.
Context {A : Type} (P : A → Prop) `{∀ x, Decision (P x)}.
Lemma filter_keeps_all (l : list A) : (∀ x, x ∈ l → P x) → filter P l = l.
Proof.
  induction l as [|x l IH]; intros Hl; [done |]. rewrite filter_cons_True by (apply Hl; set_solver).
  by rewrite IH by set_solver.
Qed.
Lemma filter_drops_all (l : list A) : (∀ x, x ∈ l → ¬ P x) → filter P l = [].
Proof.
  induction l as [|x l IH]; intros Hl; [done |]. rewrite filter_cons_False by (apply Hl; set_solver).
  apply IH. set_solver.
Qed.
End filters.

Lemma elem_of_window_ids w rows : w ∈ window_ids rows ↔ ∃ r, r ∈ rows ∧ row_window_id r = w.
Proof.
  unfold window_ids. rewrite elem_of_isort, elem_of_elements, elem_of_list_to_set, list_elem_of_fmap.
  naive_solver.
Qed.

(** Two collections of the same windows have the same list of windows. *)
Lemma window_ids_ext rows1 rows2 :
  (∀ w, w ∈ map row_window_id rows1 ↔ w ∈ map row_window_id rows2) → window_ids rows1 = window_ids rows2.
Proof.
  intros Hw. unfold window_ids. f_equal. f_equal. apply set_eq. intros w. by rewrite !elem_of_list_to_set.
Qed.

Lemma window_ids_cons t rows :
  t ∈ map row_window_id rows → (∀ r, r ∈ rows → t ≤ row_window_id r) →
  window_ids rows = t :: window_ids (filter (λ r, row_window_id r ≠ t) rows).
Proof.
  intros Ht Hmin. set (rest := filter _ rows).
  assert (Hrest : ∀ w, w ∈ map row_window_id rest ↔ w ∈ map row_window_id rows ∧ w ≠ t).
  { intros w. rewrite !list_elem_of_fmap. unfold rest. setoid_rewrite list_elem_of_filter. naive_solver. }
  unfold window_ids. apply (sorted_perm_eq Z.leb Z_leb_total Z_leb_trans).
  - intros x y _ _. apply Z_leb_antisym.
  - apply isort_sorted; [apply Z_leb_total | apply Z_leb_trans].
  - constructor; [apply isort_sorted; [apply Z_leb_total | apply Z_leb_trans] |].
    apply Forall_forall. intros w. rewrite elem_of_isort, elem_of_elements, elem_of_list_to_set, Hrest.
    intros [(r & -> & Hr)%list_elem_of_fmap _]. apply Is_true_true, Z.leb_le. by apply Hmin.
  - rewrite !isort_perm.
    assert (list_to_set (map row_window_id rows) = {[t]} ∪ (list_to_set (map row_window_id rest) : gset Z)) as ->.
    { apply set_eq. intros w. rewrite elem_of_union, elem_of_singleton, !elem_of_list_to_set, Hrest.
      destruct (decide (w = t)) as [->|]; naive_solver. }
    rewrite elements_union_singleton; [done |]. rewrite elem_of_list_to_set, Hrest. naive_solver.
Qed.

(** Sorting is stable. *)
Lemma at_window_isort w rows : at_window w (isort window_leb rows) = at_window w rows.
Proof.
  unfold at_window. induction rows as [|r rows IH]; [done |]. cbn [isort].
  assert (Hins : ∀ l, filter (λ r, row_window_id r = w) (insert_sorted window_leb r l)
    = filter (λ r, row_window_id r = w) (r :: l)).
  { induction l as [|y l IHl]; [done |]. cbn [insert_sorted].
    destruct (window_leb r y) eqn:Hry; [done |]. unfold window_leb in Hry.
    rewrite filter_cons, IHl, !filter_cons.
    destruct (decide (row_window_id y = w)), (decide (row_window_id r = w)); try done. lia. }
  rewrite Hins, !filter_cons, IH. done.
Qed.

Lemma drain_sorted t rows :
  StronglySorted window_leb rows → (∀ r, r ∈ rows → t ≤ row_window_id r) →
  drain_rows t rows = (at_window t rows, filter (λ r, row_window_id r ≠ t) rows).
Proof.
  unfold at_window. induction 1 as [|r rows Hs IH Hall]; intros Hmin; [done |].
  cbn [drain_rows]. rewrite !filter_cons. destruct (Z.eqb_spec (row_window_id r) t) as [Ht|Ht].
  - rewrite IH by set_solver. rewrite decide_True by done. rewrite decide_False by tauto. done.
  - rewrite decide_False by done. rewrite (decide_True (P := row_window_id r ≠ t)) by done.
    assert (Hgt : ∀ y, y ∈ rows → row_window_id y ≠ t).
    { intros y Hy. rewrite Forall_forall in Hall. specialize (Hall y Hy). apply Is_true_true in Hall.
      unfold window_leb in Hall. pose proof (Hmin r). specialize (Hmin r ltac:(set_solver)). lia. }
    f_equal.
    + symmetry. by apply filter_drops_all.
    + f_equal. symmetry. by apply filter_keeps_all.
Qed.

(** The rows that are left stay sorted. *)
Lemma rest_sorted t rows :
  StronglySorted window_leb rows → StronglySorted window_leb (filter (λ r, row_window_id r ≠ t) rows).
Proof.
  induction 1 as [|r rows Hs IH Hall]; [constructor |]. rewrite filter_cons.
  case_decide; [|done]. constructor; [done |]. apply Forall_forall. intros y [_ Hy]%list_elem_of_filter.
  by apply (proj1 (Forall_forall _ _) Hall).
Qed.

Definition three_heads (net beh comm : list Row) : Heads :=
  [("network", net); ("behavior", beh); ("communication", comm)].

Lemma next_window_spec net beh comm :
  StronglySorted window_leb net → StronglySorted window_leb beh → StronglySorted window_leb comm →
  match next_window (three_heads net beh comm) with
  | None => net ++ beh ++ comm = []
  | Some t => t ∈ map row_window_id (net ++ beh ++ comm) ∧
      ∀ r, r ∈ net ++ beh ++ comm → t ≤ row_window_id r
  end.
Proof.
  assert (Hhead : ∀ rows, StronglySorted window_leb rows →
    match head rows with
    | None => rows = []
    | Some r => r ∈ rows ∧ ∀ y, y ∈ rows → row_window_id r ≤ row_window_id y
    end).
  { intros [|r rows]; [done |]. intros [_ Hall]%StronglySorted_inv. cbn. split; [set_solver |].
    intros y [->|Hy]%elem_of_cons; [lia |]. rewrite Forall_forall in Hall. specialize (Hall y Hy).
    apply Is_true_true in Hall. unfold window_leb in Hall. lia. }
  intros Hn%Hhead Hb%Hhead Hc%Hhead. unfold next_window, three_heads. cbn [foldr snd].
  destruct (head net) as [rn|], (head beh) as [rb|], (head comm) as [rc|]; cbn [fmap option_fmap option_map min_opt];
    repeat match goal with H : _ ∧ _ |- _ => destruct H | H : _ = [] |- _ => rewrite H end; try done;
    (split; [|intros r; rewrite !elem_of_app; intros; destruct_or?;
       repeat match goal with H : ∀ y, _ → _ ≤ _, H' : r ∈ _ |- _ => pose proof (H r H'); clear H end; try set_solver; lia]);
    rewrite list_elem_of_fmap; setoid_rewrite elem_of_app; setoid_rewrite elem_of_app.
  all: try (edestruct Z.min_spec as [[_ ->]|[_ ->]]); try (edestruct Z.min_spec as [[_ ->]|[_ ->]]); eauto 8.
Qed.

(** A window and its rows of each kind. *)
Record Batch := mk_batch {
  ba_target : Z;
  ba_net : list Row;
  ba_beh : list Row;
  ba_comm : list Row;
}.

Definition batches (net beh comm : list Row) : list Batch :=
  map (λ w, mk_batch w (at_window w net) (at_window w beh) (at_window w comm))
    (window_ids (net ++ beh ++ comm)).

Lemma batches_cons t net beh comm :
  let rest := filter (λ r, row_window_id r ≠ t) in
  t ∈ map row_window_id (net ++ beh ++ comm) → (∀ r, r ∈ net ++ beh ++ comm → t ≤ row_window_id r) →
  batches net beh comm =
    mk_batch t (at_window t net) (at_window t beh) (at_window t comm) :: batches (rest net) (rest beh) (rest comm).
Proof.
  intros rest Ht Hmin. unfold batches. rewrite (window_ids_cons t) by done. cbn [map]. f_equal.
  rewrite !filter_app. fold rest. apply map_ext_in. intros w Hw%list_elem_of_In.
  apply elem_of_window_ids in Hw as (r & Hr & <-).
  assert (row_window_id r ≠ t) as Hne.
  { rewrite !elem_of_app in Hr. unfold rest in Hr. rewrite !list_elem_of_filter in Hr. tauto. }
  assert (Hat : ∀ rows, at_window (row_window_id r) (rest rows) = at_window (row_window_id r) rows).
  { intros rows. unfold at_window, rest. rewrite list_filter_filter_l; [done |]. congruence. }
  by rewrite !Hat.
Qed.

(** Every row is in exactly one batch. *)
Lemma batches_nil net beh comm : net ++ beh ++ comm = [] → batches net beh comm = [].
Proof. intros H. unfold batches. by rewrite H. Qed.

Section batch.
Context `{PyRuntime} (neighbors : string → result (list string)) (rr : ReplayRunner).

Fixpoint replay_batches (bs : list Batch) (windows_completed : Z) : XM unit :=
  match bs with
  | [] => checkpoint rr false windows_completed
  | b :: bs =>
      _ ← checkpoint rr false windows_completed;
      _ ← open_window rr (ba_target b);
      _ ← replay_window neighbors rr (ba_target b) (ba_net b) (ba_beh b) (ba_comm b) windows_completed;
      replay_batches bs (windows_completed + 1)
  end.

(** *** The graph and the bookkeeping of windows *)
Definition rn_core (s : RunnerState) : option CommunicationGraph * Z * option Z * option Z :=
  (rn_graph s, rn_window_ids_seen s, rn_min_processed_wid s, rn_last_processed_wid s).

Lemma core_last s s' : rn_core s' = rn_core s → rn_last_processed_wid s' = rn_last_processed_wid s.
Proof. intros Hcore. by injection Hcore. Qed.

Definition keeps_core {A} (m : XM A) : Prop := ∀ s r s', m s = (r, s') → rn_core s' = rn_core s.

Lemma keeps_core_bind {A B} (m : XM A) (f : A → XM B) :
  keeps_core m → (∀ a, keeps_core (f a)) → keeps_core (m ≫= f).
Proof.
  intros Hm Hf s r s'. unfold mbind, M_bind. destruct (m s) as [[a|e] s1] eqn:E.
  - intros Hr. rewrite (Hf _ _ _ _ Hr). by eapply Hm.
  - intros [= <- <-]. by eapply Hm.
Qed.
Lemma keeps_core_ret {A} (a : A) : keeps_core (mret a).
Proof. by intros s r s' [= <- <-]. Qed.
Lemma keeps_core_lift {A} (x : result A) : keeps_core (lift x).
Proof. by intros s r s' [= <- <-]. Qed.
Lemma keeps_core_gets {A} (f : RunnerState → A) : keeps_core (gets f).
Proof. by intros s r s' [= <- <-]. Qed.
Lemma keeps_core_gateway {A} (m : M FindingGateway A) : keeps_core (on_gateway m).
Proof. intros s r s'. unfold on_gateway. destruct (m _). by intros [= <- <-]. Qed.
Lemma keeps_core_count a b c d e : keeps_core (count_findings a b c d e).
Proof. by intros s r s' [= <- <-]. Qed.
Lemma keeps_core_log es : keeps_core (log_events es).
Proof. by intros s r s' [= <- <-]. Qed.
Lemma keeps_core_attempt m : keeps_core m → keeps_core (attempt m).
Proof. intros Hm s r s' [= <- <-]. destruct (m s) as [r1 s1] eqn:E. by eapply Hm. Qed.
Lemma keeps_core_pace : keeps_core (pace rr).
Proof. unfold pace. case_match; [|apply keeps_core_ret]. by intros s0 r s' [= <- <-]. Qed.
Lemma keeps_core_checkpoint after n : keeps_core (checkpoint rr after n).
Proof. unfold checkpoint. case_match; [apply keeps_core_lift | apply keeps_core_ret]. Qed.
End batch.

Create HintDb keeps_core.
#[export] Hint Resolve keeps_core_ret keeps_core_lift keeps_core_gets keeps_core_gateway
  keeps_core_count keeps_core_log keeps_core_attempt keeps_core_pace keeps_core_checkpoint : keeps_core.

Ltac keeps_core :=
  repeat first
    [ solve [auto with keeps_core]
    | apply keeps_core_bind; [|intros ?]
    | match goal with |- keeps_core (match ?x with _ => _ end) => destruct x eqn:? end
    | match goal with |- keeps_core (if ?x then _ else _) => destruct x eqn:? end ].

Section equivalence.
Context `{PyRuntime} (neighbors : string → result (list string)) (rr : ReplayRunner).

Lemma keeps_core_emit e : keeps_core (emit rr e).
Proof. unfold emit. keeps_core. Qed.
#[local] Hint Resolve keeps_core_emit : keeps_core.

Lemma keeps_core_submit target sub kind : keeps_core (submit_finding rr target sub kind).
Proof. unfold submit_finding. keeps_core. Qed.
#[local] Hint Resolve keeps_core_submit : keeps_core.

Lemma keeps_core_network target fs : keeps_core (take_network_findings rr target fs).
Proof. induction fs; cbn; unfold take_network_finding; keeps_core. Qed.
Lemma keeps_core_profile profiler target ctx rows : keeps_core (profile_rows rr profiler target ctx rows).
Proof. induction rows; cbn; unfold take_behavior_finding; keeps_core. Qed.
#[local] Hint Resolve keeps_core_network keeps_core_profile : keeps_core.

Lemma keeps_core_record : keeps_core (record_window rr).
Proof.
  intros s r s'. unfold record_window. generalize (rr_recorded_at rr (rn_window_ids_seen s)). intros at_.
  assert (Hk : keeps_core (snapshot ← on_gateway (on_abm (record_step at_)); mret tt : XM unit)) by keeps_core.
  apply Hk.
Qed.
#[local] Hint Resolve keeps_core_record : keeps_core.

Lemma keeps_core_orchestrate cb input : keeps_core (orchestrate neighbors rr cb input).
Proof.
  intros s r s'. unfold orchestrate. destruct (cb input (rn_gateway s)) as [[cr events] gw].
  intros Hr. change (rn_core s) with (rn_core (with_gateway gw s)).
  revert Hr. generalize (with_gateway gw s). intros s0 Hr. revert s0 r s' Hr.
  match goal with |- ∀ s0 r s', ?m s0 = _ → _ => change (keeps_core m) end.
  unfold enter_window, propagate_risk. keeps_core.
Qed.
#[local] Hint Resolve keeps_core_orchestrate : keeps_core.

(** A window after its communication rows. *)
Lemma process_window_core t net beh comm s s' :
  process_window neighbors rr t net beh comm s = (Ok tt, s') →
  ∃ s1, on_graph (apply_many comm) s = (Ok tt, s1) ∧ rn_core s' = rn_core s1.
Proof.
  unfold process_window. intros ([] & s1 & H1 & H2)%M_bind_ok. exists s1. split; [done |].
  match type of H2 with ?m _ = _ =>
    assert (Hk : keeps_core m) by (unfold detect, profile, enter_window, propagate_risk; keeps_core) end.
  by apply Hk in H2.
Qed.

(** Two programs that agree after their common first step. *)
Lemma bind_cong {A B} (m : XM A) (f g : A → XM B) s :
  (∀ a s1, m s = (Ok a, s1) → f a s1 = g a s1) → (m ≫= f) s = (m ≫= g) s.
Proof. intros Hfg. unfold mbind, M_bind. destruct (m s) as [[a|e] s1]; [by apply Hfg | done]. Qed.
Lemma bind_assoc {A B C} (m : XM A) (f : A → XM B) (g : B → XM C) s :
  ((m ≫= f) ≫= g) s = (m ≫= λ a, f a ≫= g) s.
Proof. unfold mbind, M_bind. by destruct (m s) as [[a|e] s1]. Qed.
Lemma bind_lift_ok {A B} (r : result A) (f : A → XM B) a s : r = Ok a → (lift r ≫= f) s = f a s.
Proof. by intros ->. Qed.

Lemma check_order_ok {B} t (f : unit → XM B) s :
  (∀ w, rn_last_processed_wid s = Some w → w ≤ t) → (check_order t ≫= f) s = f tt s.
Proof.
  intros Hw. unfold check_order. rewrite bind_assoc. unfold mbind at 1, M_bind at 1, gets.
  destruct (rn_last_processed_wid s) as [w|]; [|done]. specialize (Hw w eq_refl).
  destruct (Z.ltb_spec t w); [lia | done].
Qed.

Lemma replay_window_last t net beh comm n s s' :
  replay_window neighbors rr t net beh comm n s = (Ok tt, s') → rn_last_processed_wid s' = Some t.
Proof.
  unfold replay_window. intros ([] & s1 & _ & ([] & s2 & [= <-] & Hr)%M_bind_ok)%M_bind_ok.
  match type of Hr with ?m ?s0 = _ => assert (Hk : keeps_core m) by keeps_core; apply Hk, core_last in Hr end.
  by rewrite Hr.
Qed.

Lemma drain_three t net beh comm :
  let rest := filter (λ r, row_window_id r ≠ t) in
  StronglySorted window_leb net → StronglySorted window_leb beh → StronglySorted window_leb comm →
  (∀ r, r ∈ net ++ beh ++ comm → t ≤ row_window_id r) →
  drain_window t (three_heads net beh comm)
    = Ok (at_window t net, at_window t beh, at_window t comm, three_heads (rest net) (rest beh) (rest comm)).
Proof.
  intros rest Hn Hb Hc Hmin. setoid_rewrite elem_of_app in Hmin. setoid_rewrite elem_of_app in Hmin.
  assert (Hhead : ∀ tag rows heads, od_get tag heads = Some rows → StronglySorted window_leb rows →
    (∀ r, r ∈ rows → t ≤ row_window_id r) →
    drain_head tag t heads = Ok (at_window t rows, od_set tag (rest rows) heads)).
  { intros tag rows heads Hget Hs Hm. unfold drain_head. rewrite Hget. by rewrite drain_sorted by eauto. }
  unfold drain_window. rewrite (Hhead "network" net) by eauto. cbn [mbind result_bind].
  change (od_set "network" _ _) with (three_heads (rest net) beh comm).
  rewrite (Hhead "behavior" beh) by eauto. cbn [mbind result_bind].
  change (od_set "behavior" _ _) with (three_heads (rest net) (rest beh) comm).
  by rewrite (Hhead "communication" comm) by eauto.
Qed.

Lemma rest_shorter t net beh comm :
  let rest := filter (λ r, row_window_id r ≠ t) in
  t ∈ map row_window_id (net ++ beh ++ comm) →
  (length (rest net) + length (rest beh) + length (rest comm) < length net + length beh + length comm)%nat.
Proof.
  intros rest (r & -> & Hr)%list_elem_of_fmap.
  assert (Hlt : (length (rest (net ++ beh ++ comm)) < length (net ++ beh ++ comm))%nat).
  { unfold rest. apply (length_filter_lt _ _ r); [done | tauto]. }
  unfold rest in *. rewrite !filter_app, !length_app in Hlt. lia.
Qed.

(** The loop over sorted streams is the batch, with every fuel that covers the rows. *)
Lemma run_windows_batch fuel net beh comm n s :
  StronglySorted window_leb net → StronglySorted window_leb beh → StronglySorted window_leb comm →
  (length net + length beh + length comm < fuel)%nat →
  (∀ w, rn_last_processed_wid s = Some w → ∀ r, r ∈ net ++ beh ++ comm → w < row_window_id r) →
  run_windows neighbors rr fuel (three_heads net beh comm) n s
    = replay_batches neighbors rr (batches net beh comm) n s.
Proof.
  revert net beh comm n s. induction fuel as [|fuel IH]; intros net beh comm n s Hn Hb Hc Hfuel Hlast; [lia |].
  pose proof (next_window_spec net beh comm Hn Hb Hc) as Hnext. cbn [run_windows].
  destruct (next_window (three_heads net beh comm)) as [t|].
  2:{ rewrite batches_nil by done. cbn [replay_batches]. unfold mbind at 1, M_bind at 1.
      unfold checkpoint. destruct (rr_control rr); [|done]. unfold lift. by destruct (r false n) as [[]|]. }
  destruct Hnext as [Ht Hmin]. rewrite (batches_cons t) by done. cbn [replay_batches].
  set (rest := filter (λ r, row_window_id r ≠ t)).
  apply bind_cong. intros [] s0 Hk%keeps_core_checkpoint%core_last. rewrite check_order_ok.
  2:{ intros w Hw. rewrite Hk in Hw. apply list_elem_of_fmap in Ht as (r & -> & Hr).
      specialize (Hlast w Hw r Hr). lia. }
  cbn [ba_target ba_net ba_beh ba_comm]. apply bind_cong. intros [] s1 Hopen.
  rewrite (bind_lift_ok _ _ (at_window t net, at_window t beh, at_window t comm,
    three_heads (rest net) (rest beh) (rest comm))) by (by apply drain_three).
  apply bind_cong. intros [] s2 Hs2%replay_window_last. apply IH; [by apply rest_sorted.. | |].
  - pose proof (rest_shorter t net beh comm Ht) as Hshort. fold rest in Hshort. lia.
  - rewrite Hs2. intros w [= <-] r Hr. unfold rest in Hr. rewrite <-!filter_app in Hr.
    apply list_elem_of_filter in Hr as [Hne Hr]. specialize (Hmin r Hr). lia.
Qed.

(** A sorter returns the stable sort of its rows. *)
Lemma make_stream_sorted chunk_rows fan_in rows l :
  make_stream chunk_rows fan_in rows = Ok l → l = isort window_leb rows.
Proof.
  unfold make_stream. intros (s0 & Hnew & H1)%result_bind_ok.
  destruct (new_sorter_fed _ _ _ Hnew) as (Hfed & Hb & Hc & _).
  assert (Hchunk : 1 ≤ chunk_rows).
  { apply result_bind_ok in Hnew as (u & Hck%check_ok & _). lia. }
  destruct (add_all_fed rows [] s0 Hfed) as (s1 & Hadd & Hfed1 & _); [rewrite Hb; cbn; lia |].
  destruct (iter_sorted_run _ s1 Hfed1) as (s2 & Hiter & _). cbn [app] in Hiter.
  unfold mbind, M_bind in H1. rewrite Hadd, Hiter in H1. by injection H1 as <-.
Qed.

Lemma batches_sorted net beh comm :
  batches (isort window_leb net) (isort window_leb beh) (isort window_leb comm) = batches net beh comm.
Proof.
  unfold batches. rewrite (window_ids_ext _ (net ++ beh ++ comm)).
  - apply map_ext. intros w. by rewrite !at_window_isort.
  - intros w. by rewrite !map_app, !isort_perm.
Qed.

(** The replay of the three record streams of a new runner. *)
Lemma run_batch chunk_rows fan_in net beh comm heads s :
  make_heads chunk_rows fan_in net beh comm = Ok heads → rn_last_processed_wid s = None →
  run neighbors rr heads s =
  (_ ← emit rr (mk_sink_event "REPLAY_STARTED" None None [("source_mode", JStr (rr_source_mode rr))]);
   replay_batches neighbors rr (batches net beh comm) 0) s.
Proof.
  unfold make_heads. intros (n & Hn%make_stream_sorted & H1)%result_bind_ok Hlast.
  apply result_bind_ok in H1 as (b & Hb%make_stream_sorted & H1).
  apply result_bind_ok in H1 as (c & Hc%make_stream_sorted & [= <-]). subst n b c.
  unfold run. apply bind_cong. intros [] s1 Hs1%keeps_core_emit%core_last.
  rewrite <-batches_sorted. change (?m _ _ 0 s1 = _) with (m (run_fuel (three_heads (isort window_leb net)
    (isort window_leb beh) (isort window_leb comm))) (three_heads (isort window_leb net)
    (isort window_leb beh) (isort window_leb comm)) 0 s1 = replay_batches neighbors rr
      (batches (isort window_leb net) (isort window_leb beh) (isort window_leb comm)) 0 s1).
  apply run_windows_batch.
  - apply isort_sorted; [apply window_leb_total | apply window_leb_trans].
  - apply isort_sorted; [apply window_leb_total | apply window_leb_trans].
  - apply isort_sorted; [apply window_leb_total | apply window_leb_trans].
  - unfold run_fuel, three_heads. cbn. lia.
  - intros w Hw. congruence.
Qed.
End equivalence.

(** ** What a replay leaves in the graph *)
Definition row_pair (r : Row) : option Pair :=
  match entity_of "src_entity_id" r, entity_of "dst_entity_id" r with
  | Ok src, Ok dst => Some (src, dst)
  | _, _ => None
  end.
Definition row_packets (r : Row) : Z := match int_item "packet_count" r with Ok n => n | Raise _ => 0 end.
Definition row_bytes (r : Row) : Z := match int_get "captured_byte_count" r with Ok n => n | Raise _ => 0 end.

(** The rows of a pair. *)
Definition of_pair (k : Pair) (rows : list Row) : list Row := filter (λ r, row_pair r = Some k) rows.

(** The edge of a pair is what its rows say. *)
Record edge_of (k : Pair) (rows : list Row) (d : EdgeData) : Prop := {
  eo_packets : gd_packet_count_total d = zsum (map row_packets (of_pair k rows));
  eo_bytes : gd_captured_byte_total d = zsum (map row_bytes (of_pair k rows));
  eo_first : gd_first_window_id d ∈ map row_window_id (of_pair k rows);
  eo_last : gd_last_window_id d ∈ map row_window_id (of_pair k rows);
  eo_span : Forall (λ r, gd_first_window_id d ≤ row_window_id r ≤ gd_last_window_id d) (of_pair k rows);
}.

(** The graph after the records [rows]. *)
Record graph_of (rows : list Row) (g : CommunicationGraph) : Prop := {
  go_pairs : Forall (λ r, is_Some (row_pair r)) rows;
  go_edges : ∀ k, match cg_edges g !! k with
                  | Some d => of_pair k rows ≠ [] ∧ edge_of k rows d
                  | None => of_pair k rows = []
                  end;
  go_nodes : ∀ n, is_Some (cg_nodes g !! n) ↔
    ∃ r k, r ∈ rows ∧ row_pair r = Some k ∧ (n = k.1 ∨ n = k.2);
  go_packets : msum gd_packet_count_total (cg_edges g) = zsum (map row_packets rows);
  go_bytes : msum gd_captured_byte_total (cg_edges g) = zsum (map row_bytes rows);
  go_applied : cg_records_applied g = Z.of_nat (length rows);
}.

(** [apply] on the edge of its pair. *)
Definition apply_edge (packets bytes : Z) (protos : list string) (r : Row) (d : EdgeData) : EdgeData :=
  note_traffic protos r (span_window r (count_bytes bytes (count_packets packets d))).

Lemma apply_record_ok r g g' :
  apply_record r g = (Ok tt, g') →
  ∃ k protos, row_pair r = Some k ∧
    cg_edges g' = <[k := apply_edge (row_packets r) (row_bytes r) protos r
                           (default (new_edge_data r) (cg_edges g !! k))]> (cg_edges g) ∧
    (∀ n, is_Some (cg_nodes g' !! n) ↔ is_Some (cg_nodes g !! n) ∨ n = k.1 ∨ n = k.2) ∧
    cg_records_applied g' = cg_records_applied g + 1 ∧ cg_current_window_id g' = Some (row_window_id r) ∧
    let deltas := if bool_decide (cg_current_window_id g = Some (row_window_id r)) then cg_window_deltas g else ∅ in
    let d := default (mk_delta 0 0 ∅) (deltas !! k) in
    cg_window_deltas g' = <[k := mk_delta (dl_packet_count_delta d + row_packets r)
      (dl_captured_byte_delta d + row_bytes r) (list_to_set protos ∪ dl_protocols_in_window d)]> deltas.
Proof.
  unfold apply_record. intros (src & g0 & [= Hsrc <-] & H1)%M_bind_ok.
  apply M_bind_ok in H1 as (dst & g0 & [= Hdst <-] & H1).
  apply M_bind_ok in H1 as ([] & g1 & [= <-] & H1). apply M_bind_ok in H1 as ([] & g2 & [= <-] & H1).
  apply M_bind_ok in H1 as (packets & g3 & [= Hp <-] & H1). apply M_bind_ok in H1 as ([] & g4 & [= <-] & H1).
  apply M_bind_ok in H1 as (bytes & g5 & [= Hb <-] & H1). apply M_bind_ok in H1 as ([] & g6 & [= <-] & H1).
  apply M_bind_ok in H1 as (protos & g7 & [= Hpr <-] & H1). apply M_bind_ok in H1 as ([] & g8 & [= <-] & [= <-]).
  pose (k := (src, dst) : Pair). exists k, protos. change (src, dst) with k. unfold row_pair, row_packets, row_bytes. rewrite Hsrc, Hdst, Hp, Hb.
  split; [done |]. set (g0 := begin_window (row_window_id r) g).
  assert (Hbw : cg_edges g0 = cg_edges g ∧ cg_nodes g0 = cg_nodes g ∧
    cg_records_applied g0 = cg_records_applied g ∧ cg_current_window_id g0 = Some (row_window_id r) ∧
    cg_window_deltas g0 = if bool_decide (cg_current_window_id g = Some (row_window_id r)) then cg_window_deltas g else ∅).
  { unfold g0, begin_window. by case_bool_decide. }
  destruct Hbw as (He0 & Hn0 & Ha0 & Hc0 & Hd0).
  assert (Hnode : ∀ x h, cg_edges (ensure_node x h) = cg_edges h ∧
    cg_records_applied (ensure_node x h) = cg_records_applied h ∧
    cg_current_window_id (ensure_node x h) = cg_current_window_id h ∧
    cg_window_deltas (ensure_node x h) = cg_window_deltas h ∧
    (∀ n, is_Some (cg_nodes (ensure_node x h) !! n) ↔ is_Some (cg_nodes h !! n) ∨ n = x)).
  { intros x h. unfold ensure_node. destruct (cg_nodes h !! x) eqn:Hx; cbn.
    - split_and!; [done..|]. intros m. split; [by left |]. intros [?| ->]; [done | eauto].
    - split_and!; [done..|]. intros m. rewrite lookup_insert_is_Some'. naive_solver. }
  destruct (Hnode src g0) as (He1 & Ha1 & Hc1 & Hd1 & Hn1).
  destruct (Hnode dst (ensure_node src g0)) as (He2 & Ha2 & Hc2 & Hd2 & Hn2).
  set (g2 := ensure_node dst (ensure_node src g0)) in *.
  assert (Hedge : cg_edges (ensure_edge k r g2) = <[k := default (new_edge_data r) (cg_edges g !! k)]> (cg_edges g)
    ∧ cg_nodes (ensure_edge k r g2) = cg_nodes g2
    ∧ cg_records_applied (ensure_edge k r g2) = cg_records_applied g2
    ∧ cg_current_window_id (ensure_edge k r g2) = cg_current_window_id g2
    ∧ cg_window_deltas (ensure_edge k r g2) = cg_window_deltas g2).
  { unfold ensure_edge. rewrite He2, He1, He0. destruct (cg_edges g !! k) eqn:Hx; cbn; [|done].
    rewrite He2, He1, He0, insert_id by done. done. }
  destruct Hedge as (He3 & Hn3 & Ha3 & Hc3 & Hd3).
  cbn [on_edge add_delta cg_edges cg_nodes cg_records_applied cg_current_window_id cg_window_deltas].
  rewrite He3, Hn3, Ha3, Hc3, Hd3, Ha2, Hc2, Hd2, Ha1, Hc1, Hd1, Ha0, Hc0, Hd0. split_and!; [| | done..].
  - rewrite !alter_insert_eq. done.
  - intros n. rewrite Hn2, Hn1, Hn0. cbn. tauto.
Qed.

Lemma of_pair_snoc k rows r :
  of_pair k (rows ++ [r]) = of_pair k rows ++ (if bool_decide (row_pair r = Some k) then [r] else []).
Proof.
  unfold of_pair. rewrite filter_app. f_equal. rewrite filter_cons.
  by destruct (decide (row_pair r = Some k)); [rewrite bool_decide_true | rewrite bool_decide_false].
Qed.

Lemma zsum_snoc (f : Row → Z) rows r : zsum (map f (rows ++ [r])) = zsum (map f rows) + f r.
Proof. rewrite map_app, zsum_app. cbn. rewrite zsum_cons. change (zsum []) with 0. lia. Qed.

(** The first and the next record of an edge. *)
Lemma apply_edge_of k rows packets bytes protos r d :
  row_pair r = Some k → packets = row_packets r → bytes = row_bytes r →
  (of_pair k rows = [] ∧ d = new_edge_data r ∨ edge_of k rows d) →
  edge_of k (rows ++ [r]) (apply_edge packets bytes protos r d).
Proof.
  intros Hk -> -> Hd.
  assert (Hfields : gd_packet_count_total (apply_edge (row_packets r) (row_bytes r) protos r d)
      = gd_packet_count_total d + row_packets r ∧
    gd_captured_byte_total (apply_edge (row_packets r) (row_bytes r) protos r d)
      = gd_captured_byte_total d + row_bytes r ∧
    gd_first_window_id (apply_edge (row_packets r) (row_bytes r) protos r d)
      = Z.min (row_window_id r) (gd_first_window_id d) ∧
    gd_last_window_id (apply_edge (row_packets r) (row_bytes r) protos r d)
      = Z.max (row_window_id r) (gd_last_window_id d)).
  { unfold apply_edge, span_window. cbn [gd_first_window_id gd_last_window_id count_bytes count_packets].
    destruct (Z.ltb_spec (row_window_id r) (gd_first_window_id d)),
      (Z.ltb_spec (gd_last_window_id d) (row_window_id r)); cbn; split_and!; lia. }
  destruct Hfields as (Hp & Hb & Hf & Hl).
  assert (Hsnoc : of_pair k (rows ++ [r]) = of_pair k rows ++ [r]) by by rewrite of_pair_snoc, bool_decide_true.
  destruct Hd as [[Hnil ->]|[H1 H2 H3 H4 H5]].
  - split; rewrite ?Hp, ?Hb, ?Hf, ?Hl, Hsnoc, Hnil; cbn -[Z.add].
    + rewrite zsum_cons. change (zsum []) with 0. lia.
    + rewrite zsum_cons. change (zsum []) with 0. lia.
    + rewrite Z.min_id. set_solver.
    + rewrite Z.max_id. set_solver.
    + repeat constructor; lia.
  - split; rewrite ?Hp, ?Hb, ?Hf, ?Hl, Hsnoc, ?zsum_snoc, ?map_app; [by rewrite H1 | by rewrite H2 | | |].
    + apply elem_of_app. destruct (Z.min_spec (row_window_id r) (gd_first_window_id d)) as [[_ ->]|[_ ->]];
        [right; set_solver | by left].
    + apply elem_of_app. destruct (Z.max_spec (row_window_id r) (gd_last_window_id d)) as [[_ ->]|[_ ->]];
        [by left | right; set_solver].
    + apply Forall_app. split; [|repeat constructor; lia].
      eapply Forall_impl; [exact H5 |]. cbn. intros; lia.
Qed.

Lemma apply_record_of rows r g g' :
  graph_of rows g → apply_record r g = (Ok tt, g') → graph_of (rows ++ [r]) g'.
Proof.
  intros [Hpairs Hedges Hnodes Hp Hb Ha] (k & protos & Hk & He & Hn & Happ & _ & _)%apply_record_ok.
  split.
  - apply Forall_app. split; [done |]. rewrite Forall_singleton, Hk. done.
  - intros k'. rewrite He. destruct (decide (k = k')) as [<-|Hne].
    + rewrite lookup_insert_eq. split.
      { rewrite of_pair_snoc, bool_decide_true by done. by destruct (of_pair k rows). }
      specialize (Hedges k). destruct (cg_edges g !! k) as [d|]; apply apply_edge_of; try done.
      * right. apply Hedges.
      * by left.
    + rewrite lookup_insert_ne by done. rewrite of_pair_snoc, bool_decide_false, app_nil_r by congruence.
      specialize (Hedges k'). destruct (cg_edges g !! k') as [d|]; [|done]. destruct Hedges as [? []].
      split; [done |]. split; rewrite of_pair_snoc, bool_decide_false, app_nil_r by congruence; done.
  - intros n. rewrite Hn, Hnodes. split.
    + intros [(r0 & k0 & Hr0 & ?)|Hnk]; [exists r0, k0; split; [set_solver | done] | exists r, k; set_solver].
    + intros (r0 & k0 & [Hr0|Hr0%list_elem_of_singleton]%elem_of_app & Hk0 & Hnk); [left; eauto |].
      subst r0. rewrite Hk in Hk0. injection Hk0 as <-. by right.
  - rewrite He, zsum_snoc, <-Hp. destruct (cg_edges g !! k) as [d|] eqn:Hg.
    + rewrite (msum_update _ _ _ d) by done. unfold apply_edge, note_traffic, span_window. cbn.
      repeat case_match; cbn; lia.
    + rewrite msum_insert by done. unfold apply_edge, note_traffic, span_window. cbn. repeat case_match; cbn; lia.
  - rewrite He, zsum_snoc, <-Hb. destruct (cg_edges g !! k) as [d|] eqn:Hg.
    + rewrite (msum_update _ _ _ d) by done. unfold apply_edge, note_traffic, span_window. cbn.
      repeat case_match; cbn; lia.
    + rewrite msum_insert by done. unfold apply_edge, note_traffic, span_window. cbn. repeat case_match; cbn; lia.
  - rewrite Happ, Ha, length_app. cbn. lia.
Qed.

Lemma graph_of_pairs rows g k : graph_of rows g → is_Some (cg_edges g !! k) ↔ of_pair k rows ≠ [].
Proof.
  intros [_ Hedges _ _ _ _]. specialize (Hedges k). destruct (cg_edges g !! k) as [d|].
  - split; [by destruct Hedges | by eexists].
  - split; [by intros [] | done].
Qed.

(** ** The deltas of the current window *)
Record deltas_of (w : Z) (rows : list Row) (g : CommunicationGraph) : Prop := {
  do_current : cg_current_window_id g = Some w;
  do_counts : ∀ k, (get_window_delta k g).1
    = (zsum (map row_packets (of_pair k rows)), zsum (map row_bytes (of_pair k rows)));
}.

Lemma begin_window_deltas w g : cg_current_window_id g ≠ Some w → deltas_of w [] (begin_window w g).
Proof. intros Hw. unfold begin_window. rewrite bool_decide_false by done. by split. Qed.

Lemma begin_window_graph w rows g : graph_of rows g → graph_of rows (begin_window w g).
Proof. intros []. unfold begin_window. case_bool_decide; by split. Qed.

Lemma window_delta_counts k g :
  let d := default (mk_delta 0 0 ∅) (cg_window_deltas g !! k) in
  (get_window_delta k g).1 = (dl_packet_count_delta d, dl_captured_byte_delta d).
Proof. unfold get_window_delta. by destruct (cg_window_deltas g !! k). Qed.

Lemma apply_record_deltas rows r g g' :
  deltas_of (row_window_id r) rows g → apply_record r g = (Ok tt, g') → deltas_of (row_window_id r) (rows ++ [r]) g'.
Proof.
  intros [Hw Hd] (k & protos & Hk & _ & _ & _ & Hcur & Hdl)%apply_record_ok. split; [done |].
  rewrite bool_decide_true in Hdl by done. intros k'. specialize (Hd k').
  rewrite window_delta_counts in Hd |- *. rewrite Hdl, of_pair_snoc. destruct (decide (k = k')) as [<-|Hne].
  - rewrite lookup_insert_eq, bool_decide_true by done. cbn in *. injection Hd as -> ->. by rewrite !zsum_snoc.
  - by rewrite lookup_insert_ne, bool_decide_false, app_nil_r by congruence.
Qed.

Lemma apply_many_of w rows all cur g g' :
  Forall (λ r, row_window_id r = w) rows → graph_of all g → deltas_of w cur g →
  apply_many rows g = (Ok tt, g') → graph_of (all ++ rows) g' ∧ deltas_of w (cur ++ rows) g'.
Proof.
  intros Hrows. revert all cur g. induction Hrows as [|r rows Hr _ IH]; intros all cur g Hg Hd H.
  - injection H as <-. by rewrite !app_nil_r.
  - cbn in H. apply M_bind_ok in H as ([] & g1 & H1 & H2). subst w.
    rewrite (cons_middle r all rows), (cons_middle r cur rows), !app_assoc.
    eapply IH; [by eapply apply_record_of | by eapply apply_record_deltas | done].
Qed.

Lemma of_pair_perm k rows1 rows2 : rows1 ≡ₚ rows2 → of_pair k rows1 ≡ₚ of_pair k rows2.
Proof. intros H. unfold of_pair. by rewrite H. Qed.
Lemma zsum_map_perm {A} (f : A → Z) l1 l2 : l1 ≡ₚ l2 → zsum (map f l1) = zsum (map f l2).
Proof. intros H. by apply zsum_perm, Permutation_map. Qed.

(** The order of the records makes no difference. *)
Lemma graph_of_perm rows1 rows2 g : rows1 ≡ₚ rows2 → graph_of rows1 g → graph_of rows2 g.
Proof.
  intros Hp [H1 H2 H3 H4 H5 H6]. split.
  - by rewrite <-Hp.
  - intros k. specialize (H2 k). pose proof (of_pair_perm k _ _ Hp) as Hk.
    destruct (cg_edges g !! k) as [d|].
    + destruct H2 as [Hne []]. split; [intros Hnil; apply Hne; rewrite Hnil in Hk; by apply Permutation_nil_r in Hk |].
      split; [by rewrite <-(zsum_map_perm _ _ _ Hk) | by rewrite <-(zsum_map_perm _ _ _ Hk) | by rewrite <-Hk | by rewrite <-Hk | by rewrite <-Hk].
    + rewrite H2 in Hk. by apply Permutation_nil_l in Hk.
  - intros n. rewrite H3. by setoid_rewrite Hp.
  - by rewrite H4, (zsum_map_perm _ _ _ Hp).
  - by rewrite H5, (zsum_map_perm _ _ _ Hp).
  - by rewrite H6, Hp.
Qed.

(** ** The run and its graph *)
#[export] Hint Resolve keeps_core_emit keeps_core_submit keeps_core_network keeps_core_profile keeps_core_record
  keeps_core_orchestrate : keeps_core.

Section run_graph.
Context `{PyRuntime} (neighbors : string → result (list string)) (rr : ReplayRunner).

Lemma replay_window_core t net beh comm n s s' :
  replay_window neighbors rr t net beh comm n s = (Ok tt, s') →
  ∃ s1, on_graph (apply_many comm) s = (Ok tt, s1) ∧
    rn_core s' = (rn_graph s1, rn_window_ids_seen s1 + 1, Some (default t (rn_min_processed_wid s1)), Some t).
Proof.
  unfold replay_window. intros ([] & s2 & H1 & H2)%M_bind_ok. apply M_bind_ok in H2 as ([] & s3 & [= <-] & H2).
  apply process_window_core in H1 as (s1 & Hs1 & Hc). exists s1. split; [done |].
  match type of H2 with ?m ?s0 = _ => assert (Hk : keeps_core m) by keeps_core; apply Hk in H2 end.
  rewrite H2. unfold rn_core in *. cbn. by injection Hc as -> -> -> _.
Qed.

Lemma on_graph_some m s s' g :
  rn_graph s = Some g → on_graph m s = (Ok tt, s') →
  ∃ g', m g = (Ok tt, g') ∧
    rn_core s' = (Some g', rn_window_ids_seen s, rn_min_processed_wid s, rn_last_processed_wid s).
Proof.
  unfold on_graph. intros ->. destruct (m g) as [r g'] eqn:Hm. intros [= -> <-]. by exists g'.
Qed.

(** What the runner's state says of the batches it went through: [all] the
    communication rows, those of the [current] window, the counters. *)
Record run_of (all current : list Row) (n : Z) (first last : option Z) (s : RunnerState) : Prop := {
  ro_graph : ∃ g, rn_graph s = Some g ∧ graph_of all g ∧ cg_current_window_id g = last ∧
    (∀ w, last = Some w → deltas_of w current g);
  ro_seen : rn_window_ids_seen s = n;
  ro_first : rn_min_processed_wid s = first;
  ro_last : rn_last_processed_wid s = last;
}.

Lemma batch_run all current n first last t net beh comm k s s' :
  Forall (λ r, row_window_id r = t) comm → last ≠ Some t → run_of all current n first last s →
  (_ ← open_window rr t; replay_window neighbors rr t net beh comm k) s = (Ok tt, s') →
  run_of (all ++ comm) comm (n + 1) (Some (default t first)) (Some t) s'.
Proof.
  intros Hcomm Hlast [(g & Hg & Hall & Hcur & _) Hn Hf Hl] ([] & s1 & Ho & Hr)%M_bind_ok.
  unfold open_window in Ho. apply M_bind_ok in Ho as ([] & s0 & He & Ho).
  apply keeps_core_emit in He. unfold rn_core in He. injection He as Hg0 Hn0 Hf0 Hl0.
  rewrite Hg in Hg0. apply (on_graph_some _ _ _ _ Hg0) in Ho as (g1 & [= <-] & Hc1).
  apply replay_window_core in Hr as (s2 & Hs2 & Hc2). unfold rn_core in Hc1. injection Hc1 as Hg1 Hn1 Hf1 Hl1.
  apply (on_graph_some _ _ _ _ Hg1) in Hs2 as (g2 & Hg2 & Hc3).
  eapply (apply_many_of t comm all []) in Hg2 as [Hall2 Hd2];
    [| done | by apply begin_window_graph | apply begin_window_deltas; congruence].
  unfold rn_core in Hc2, Hc3. injection Hc2 as Hs1 Hs2 Hs3 Hs4. injection Hc3 as Ht1 Ht2 Ht3 Ht4.
  split; [| congruence | | done].
  - exists g2. split_and!; [congruence | done | by destruct Hd2 |]. intros w [= <-]. done.
  - rewrite Hs3, Ht3, Hf1, Hf0, Hf. done.
Qed.

Lemma replay_batches_run bs : ∀ all current n first last k s s',
  Forall (λ b, Forall (λ r, row_window_id r = ba_target b) (ba_comm b)) bs →
  NoDup (map ba_target bs) → Forall (λ b, last ≠ Some (ba_target b)) bs →
  run_of all current n first last s → replay_batches neighbors rr bs k s = (Ok tt, s') →
  run_of (all ++ concat (map ba_comm bs)) (foldl (λ _ b, ba_comm b) current bs) (n + Z.of_nat (length bs))
    (foldl (λ f b, Some (default (ba_target b) f)) first bs) (foldl (λ _ b, Some (ba_target b)) last bs) s'.
Proof.
  induction bs as [|b bs IH]; intros all current n first last k s s' Hrows Hnd Hne Hs Hr.
  - cbn in *. rewrite app_nil_r, Z.add_0_r. apply keeps_core_checkpoint in Hr. unfold rn_core in Hr.
    injection Hr as Hg Hn Hf Hl. destruct Hs as [(g & ? & ?) ? ? ?]. split; [exists g; split; [congruence | done] | congruence..].
  - cbn [replay_batches] in Hr. apply M_bind_ok in Hr as ([] & s1 & Hc & Hr).
    assert (Hs1 : run_of all current n first last s1).
    { apply keeps_core_checkpoint in Hc. unfold rn_core in Hc. injection Hc as Hg Hn Hf Hl.
      destruct Hs as [(g & ? & ?) ? ? ?]. split; [exists g; split; [congruence | done] | congruence..]. }
    rewrite Forall_cons in Hrows, Hne. destruct Hrows as [Hrow Hrows], Hne as [Hb Hne].
    cbn in Hnd. apply NoDup_cons in Hnd as [Hnotin Hnd].
    rewrite <-bind_assoc in Hr. apply M_bind_ok in Hr as ([] & s2 & H1 & H2).
    eapply batch_run in H1; [| done | done | done].
    eapply IH in H2; [| done | done | | done].
    + cbn [map concat foldl length]. rewrite app_assoc.
      replace (n + Z.of_nat (S (length bs))) with (n + 1 + Z.of_nat (length bs)) by lia. done.
    + apply Forall_forall. intros b' Hb' [= Heq]. apply Hnotin. rewrite Heq. by apply list_elem_of_fmap_2.
Qed.
End run_graph.

Lemma window_ids_nodup rows : NoDup (window_ids rows).
Proof. unfold window_ids. rewrite isort_perm. apply NoDup_elements. Qed.

(** The rows of the windows, put together. *)
Lemma windows_perm ws rows :
  NoDup ws → (∀ r, r ∈ rows → row_window_id r ∈ ws) → concat (map (λ w, at_window w rows) ws) ≡ₚ rows.
Proof.
  intros Hws. revert rows. induction Hws as [|w ws Hw _ IH]; intros rows Hin.
  - destruct rows as [|r rows]; [done |]. specialize (Hin r ltac:(left)). by apply not_elem_of_nil in Hin.
  - cbn [map concat]. transitivity (filter (λ r, row_window_id r = w) rows ++ filter (λ r, ¬ row_window_id r = w) rows);
      [|apply filter_app_complement].
    apply Permutation_app_head. rewrite <-(IH (filter (λ r, ¬ row_window_id r = w) rows)).
    + apply reflexive_eq. f_equal. apply map_ext_in. intros w' Hw'%list_elem_of_In. unfold at_window.
      rewrite list_filter_filter. apply list_filter_iff. intros r. split; [|tauto]. intros <-. split; [done |].
      intros Heq. by rewrite Heq in Hw'.
    + intros r [Hne Hr]%list_elem_of_filter. by destruct (proj1 (elem_of_cons _ _ _) (Hin r Hr)).
Qed.

Lemma batches_targets net beh comm : map ba_target (batches net beh comm) = window_ids (net ++ beh ++ comm).
Proof. unfold batches. rewrite map_map. apply map_id. Qed.

Lemma batches_comm net beh comm : concat (map ba_comm (batches net beh comm)) ≡ₚ comm.
Proof.
  unfold batches. rewrite map_map. apply (windows_perm (window_ids _)); [apply window_ids_nodup |].
  intros r Hr. apply elem_of_window_ids. exists r. split; [|done]. rewrite !elem_of_app. tauto.
Qed.

Lemma fold_current (f : Batch → list Row) bs current b : last bs = Some b → foldl (λ _ b, f b) current bs = f b.
Proof. revert current. induction bs as [|b0 [|b1 bs] IH]; intros current; [done | by intros [= ->] | apply IH]. Qed.
Lemma fold_last bs prev b : last bs = Some b → foldl (λ _ b, Some (ba_target b)) prev bs = Some (ba_target b).
Proof. revert prev. induction bs as [|b0 [|b1 bs] IH]; intros prev; [done | by intros [= ->] | apply IH]. Qed.
Lemma fold_first bs w : foldl (λ f b, Some (default (ba_target b) f)) (Some w) bs = Some w.
Proof. induction bs as [|b bs IH]; [done | apply IH]. Qed.

Lemma batches_last net beh comm :
  foldl (λ _ b, Some (ba_target b)) None (batches net beh comm) = last (window_ids (net ++ beh ++ comm)).
Proof.
  rewrite <-batches_targets. destruct (last (batches net beh comm)) as [b|] eqn:Hl.
  - by rewrite (fold_last _ _ _ Hl), fmap_last, Hl.
  - apply last_None in Hl. by rewrite Hl.
Qed.
Lemma batches_first net beh comm :
  foldl (λ f b, Some (default (ba_target b) f)) None (batches net beh comm) = head (window_ids (net ++ beh ++ comm)).
Proof. rewrite <-batches_targets. destruct (batches net beh comm) as [|b bs]; [done |]. apply fold_first. Qed.

Lemma graph_of_new inv : graph_of [] (build_comm_graph inv).
Proof.
  split; [constructor | | | done..].
  - intros k. cbn. by rewrite lookup_empty.
  - intros n. cbn. rewrite lookup_empty. split; [by intros [] |].
    intros (r & k & Hr & _). by apply not_elem_of_nil in Hr.
Qed.

Section run_theorems.
Context `{PyRuntime} (neighbors : string → result (list string)) (rr : ReplayRunner).

Lemma run_graph chunk_rows fan_in net beh comm heads inv gw s :
  make_heads chunk_rows fan_in net beh comm = Ok heads →
  run neighbors rr heads (new_run (Some (build_comm_graph inv)) gw) = (Ok tt, s) →
  let windows := window_ids (net ++ beh ++ comm) in
  rn_window_ids_seen s = Z.of_nat (length windows) ∧
  rn_min_processed_wid s = head windows ∧ rn_last_processed_wid s = last windows ∧
  ∃ g, rn_graph s = Some g ∧ graph_of comm g ∧ ∀ w, last windows = Some w → deltas_of w (at_window w comm) g.
Proof.
  intros Hheads Hrun. cbn zeta. rewrite (run_batch _ _ _ _ _ _ _ _ _ Hheads) in Hrun by done.
  apply M_bind_ok in Hrun as ([] & s1 & He & Hr). apply keeps_core_emit in He.
  unfold rn_core in He. injection He as Hg Hn Hf Hl.
  assert (Hs1 : run_of [] [] 0 None None s1).
  { split; [exists (build_comm_graph inv); split_and!; [done | apply graph_of_new | done | done] | done..]. }
  eapply (replay_batches_run neighbors rr (batches net beh comm) [] [] 0 None None) in Hr; [| | rewrite batches_targets; apply window_ids_nodup | by apply Forall_true | done].
  2:{ unfold batches. rewrite Forall_map. apply Forall_forall. intros w _. cbn. apply Forall_forall.
      by intros r [? _]%list_elem_of_filter. }
  rewrite batches_last, batches_first in Hr. destruct Hr as [(g & Hgs & Hgraph & _ & Hd) Hn' Hf' Hl'].
  split_and!; [| done | done |].
  - rewrite Hn', <-batches_targets, length_map. lia.
  - exists g. split_and!; [done | by eapply graph_of_perm; [apply batches_comm |] |]. intros w Hw.
    specialize (Hd w Hw). rewrite <-batches_targets, fmap_last in Hw.
    destruct (last (batches net beh comm)) as [b|] eqn:Hb; [|done]. injection Hw as <-.
    rewrite (fold_current _ _ _ _ Hb) in Hd. apply last_Some_elem_of in Hb.
    unfold batches in Hb. apply list_elem_of_fmap in Hb as (w & -> & _). done.
Qed.
End run_theorems.

(** ** The accounts of a run *)
Ltac books_eq := repeat apply (f_equal2 pair); lia.

Section accounts.
Context `{PyRuntime} (neighbors : string → result (list string)) (rr : ReplayRunner).

Definition findings_emitted (s : RunnerState) : Z :=
  rn_findings_network s + rn_findings_behavior_observed s + rn_findings_behavior_absence s.
Definition findings_accepted (s : RunnerState) : Z := rn_accepted_network s + rn_accepted_behavior s.
Definition stats_of (s : RunnerState) : GatewayStats := gw_stats (rn_gateway s).

(** The findings not yet submitted, the answers not yet counted, the windows not yet
    counted, and what the gateway itself is off by. *)
Definition books (s : RunnerState) : Z * Z * Z * Z :=
  (findings_emitted s - gs_submitted (stats_of s), total_accepted (stats_of s) - findings_accepted s,
   abm_steps (gw_abm (rn_gateway s)) - rn_window_ids_seen s,
   gs_submitted (stats_of s) - total_accepted (stats_of s) - total_rejected (stats_of s)).

(** A completed [m] moves the first three by [d]. *)
Definition drift {A} (m : XM A) (d : Z * Z * Z) : Prop :=
  ∀ s a s', m s = (Ok a, s') → books s' =
    ((books s).1.1.1 + d.1.1, (books s).1.1.2 + d.1.2, (books s).1.2 + d.2, (books s).2).

Lemma drift_bind {A B} (m : XM A) (f : A → XM B) d1 d2 d :
  drift m d1 → (∀ a, drift (f a) d2) → d = (d1.1.1 + d2.1.1, d1.1.2 + d2.1.2, d1.2 + d2.2) → drift (m ≫= f) d.
Proof.
  intros Hm Hf -> s b s' (a & s1 & H1 & H2)%M_bind_ok. apply Hm in H1. apply Hf in H2. rewrite H2, H1. cbn.
  books_eq.
Qed.
Lemma drift_still {A} (m : XM A) : (∀ s a s', m s = (Ok a, s') → books s' = books s) → drift m (0, 0, 0).
Proof. intros Hm s a s' Hr. rewrite (Hm _ _ _ Hr). destruct (books s) as [[[x y] z] w]. cbn. by rewrite !Z.add_0_r. Qed.
(** A bind that moves nothing first, or last. *)
Lemma drift_then {A B} (m : XM A) (f : A → XM B) d : drift m (0, 0, 0) → (∀ a, drift (f a) d) → drift (m ≫= f) d.
Proof. intros Hm Hf. eapply drift_bind; [done..|]. destruct d as [[x y] z]. done. Qed.
Lemma drift_lift {A} (r : result A) : drift (lift r) (0, 0, 0).
Proof. apply drift_still. by intros s a s' [= _ <-]. Qed.
Lemma drift_ret {A} (a : A) : drift (mret a) (0, 0, 0).
Proof. apply drift_still. by intros s b s' [= _ <-]. Qed.
Lemma drift_gets {A} (f : RunnerState → A) : drift (gets f) (0, 0, 0).
Proof. apply drift_still. by intros s b s' [= _ <-]. Qed.
Lemma drift_count a b c d e : drift (count_findings a b c d e) (a + b + c, - (d + e), 0).
Proof.
  intros s u s' [= _ <-]. unfold books, findings_emitted, findings_accepted, stats_of. cbn.
  books_eq.
Qed.
Lemma drift_graph (m : GM unit) : drift (on_graph m) (0, 0, 0).
Proof.
  apply drift_still. intros s a s'. unfold on_graph. destruct (rn_graph s) as [g|]; [|by intros [= _ <-]].
  destruct (m g). by intros [= _ <-].
Qed.
Lemma drift_abm {A} (m : M DeviceABM A) n :
  (∀ a x a', m a = (x, a') → abm_steps a' = abm_steps a + n) → drift (on_gateway (on_abm m)) (0, 0, n).
Proof.
  intros Hm s x s'. unfold on_gateway, on_abm. destruct (m _) as [r a'] eqn:Hr. intros [= -> <-].
  apply Hm in Hr. unfold books, findings_emitted, findings_accepted, stats_of. cbn.
  rewrite Hr. books_eq.
Qed.
Lemma drift_checkpoint after n : drift (checkpoint rr after n) (0, 0, 0).
Proof. unfold checkpoint. destruct (rr_control rr); [apply drift_lift | apply drift_ret]. Qed.
Lemma drift_pace : drift (pace rr) (0, 0, 0).
Proof. unfold pace. cbn zeta. destruct (od_get _ _) as [d|]; [|apply drift_ret]. apply drift_still. by intros s a s' [= _ <-]. Qed.
Lemma drift_emit e : drift (emit rr e) (0, 0, 0).
Proof.
  unfold emit. destruct (rr_event_sink rr); [|apply drift_ret]. apply drift_then; [|intros; apply drift_lift].
  apply drift_still. by intros s a s' [= _ <-].
Qed.
Lemma drift_finish t : drift (finish_window t) (0, 0, -1).
Proof.
  intros s a s' [= _ <-]. unfold books, findings_emitted, findings_accepted, stats_of. cbn.
  books_eq.
Qed.

Lemma evidence_steps sub a : abm_steps (evidence_of sub a).2 = abm_steps a.
Proof.
  destruct sub as [f|f|]; cbn; [unfold apply_network_evidence | unfold apply_behavior_evidence | done];
    destruct (od_get _ _) as [s|]; try done. by destruct (negb _).
Qed.

(** A submission, with what its caller counts for the answer. *)
Lemma submit_then {A} target sub kind (f : bool → XM A) d :
  (∀ b : bool, drift (f b) (d.1.1 + 1, d.1.2 - (if b then 1 else 0), d.2)) →
  drift (b ← submit_finding rr target sub kind; f b) d.
Proof.
  intros Hf s x s' (b & s1 & H1 & H2)%M_bind_ok. apply Hf in H2. rewrite H2. unfold submit_finding in H1.
  apply M_bind_ok in H1 as (b' & s0 & Hs & H1). apply M_bind_ok in H1 as ([] & s2 & He & [= -> <-]).
  apply drift_emit in He. rewrite He. cbn. unfold on_gateway in Hs.
  destruct (gateway_submit sub (rn_gateway s)) as [r gw] eqn:Hg. injection Hs as -> <-.
  pose proof (gateway_submit_abm _ _ _ _ Hg) as Habm. apply gateway_submit_cases in Hg.
  assert (Hst : abm_steps (gw_abm gw) = abm_steps (gw_abm (rn_gateway s))).
  { destruct Habm as [->| ->]; [done | apply evidence_steps]. }
  unfold books, findings_emitted, findings_accepted, stats_of. cbn. rewrite Hst.
  destruct b; cbn in Hg; books_eq.
Qed.

Lemma drift_eq {A} (m : XM A) d d' : drift m d → d = d' → drift m d'.
Proof. by intros Hd ->. Qed.

Lemma drift_network target fs : drift (take_network_findings rr target fs) (- Z.of_nat (length fs), 0, 0).
Proof.
  induction fs as [|f fs IH]; [apply drift_ret |]. cbn [take_network_findings length].
  eapply (drift_bind _ _ (-1, 0, 0)); [| intros _; exact IH | cbn; f_equal; f_equal; lia].
  unfold take_network_finding. apply drift_then; [apply drift_emit |]. intros _. apply submit_then. cbn.
  intros []; [apply (drift_eq _ _ _ (drift_count 0 0 0 1 0)) | apply drift_ret]; done.
Qed.

Lemma drift_detect target rows : drift (detect rr target rows) (0, 0, 0).
Proof.
  unfold detect. destruct (rr_detector rr) as [detector|]; [|apply drift_ret].
  destruct (filter _ rows) as [|r rs]; [apply drift_ret |]. apply drift_then; [apply drift_lift |]. intros fs.
  eapply drift_bind; [apply drift_count | intros _; apply drift_network | cbn; f_equal; f_equal; lia].
Qed.

Lemma drift_behavior target f : drift (take_behavior_finding rr target f) (0, 0, 0).
Proof.
  unfold take_behavior_finding. eapply (drift_bind _ _ (1, 0, 0) (-1, 0, 0)); [| | done].
  - destruct (is_absence f); by eapply drift_eq; [apply drift_count |].
  - intros _. apply drift_then; [apply drift_emit |]. intros _. apply submit_then. cbn.
    intros []; [apply (drift_eq _ _ _ (drift_count 0 0 0 0 1)) | apply drift_ret]; done.
Qed.

Lemma drift_profile target context rows : drift (profile rr target context rows) (0, 0, 0).
Proof.
  unfold profile. destruct (rr_profiler rr) as [profiler|]; [|apply drift_ret].
  induction rows as [|r rows IH]; [apply drift_ret |]. cbn [profile_rows].
  apply drift_then; [apply drift_lift |]. intros [f|]; apply drift_then; try done; [apply drift_behavior | apply drift_ret].
Qed.

Lemma drift_record : drift (record_window rr) (0, 0, 1).
Proof.
  intros s a s' Hr. unfold record_window in Hr. revert Hr.
  generalize (rr_recorded_at rr (rn_window_ids_seen s)). intros at_ Hr. revert s a s' Hr.
  change (drift (snapshot ← on_gateway (on_abm (record_step at_)); mret tt : XM unit) (0, 0, 1)).
  eapply drift_bind; [apply (drift_abm _ 1) | intros; apply drift_ret | done].
  by intros a x a' [= _ <-].
Qed.

Lemma drift_process t net beh comm :
  rr_workflow_callback rr = None → drift (process_window neighbors rr t net beh comm) (0, 0, 1).
Proof.
  intros Hcb. unfold process_window. apply drift_then; [apply drift_graph |]. intros _. cbn zeta. rewrite Hcb.
  apply drift_then; [apply drift_detect |]. intros _. apply drift_then; [apply drift_profile |]. intros _.
  apply drift_then; [apply (drift_abm _ 0); intros a x a' [= _ <-]; cbn; lia |]. intros _.
  apply drift_then; [|intros _; apply drift_record]. apply (drift_abm _ 0). intros a x a'. unfold abm_propagate.
  destruct (spread_all _ _ _ _ _); intros [= _ <-]; cbn; lia.
Qed.

Lemma drift_batches bs k : rr_workflow_callback rr = None → drift (replay_batches neighbors rr bs k) (0, 0, 0).
Proof.
  intros Hcb. revert k. induction bs as [|b bs IH]; intros k; cbn [replay_batches]; [apply drift_checkpoint |].
  apply drift_then; [apply drift_checkpoint |]. intros _. apply drift_then.
  { unfold open_window. apply drift_then; [apply drift_emit |]. intros _. apply drift_graph. }
  intros _. apply drift_then; [|intros _; apply IH]. unfold replay_window.
  eapply (drift_bind _ _ (0, 0, 1) (0, 0, -1)); [by apply drift_process | | done]. intros _.
  eapply (drift_bind _ _ (0, 0, -1) (0, 0, 0)); [apply drift_finish | | done]. intros _.
  apply drift_then; [apply drift_emit |]. intros _. apply drift_then; [apply drift_checkpoint |]. intros _.
  apply drift_pace.
Qed.
End accounts.

(** *** The accounts of a run with a workflow *)

Definition window_of (gw : FindingGateway) : option Z := abm_current_window_id (gw_abm gw).

(** What a workflow must do with the window it is given, when the model is not at that
    window yet: what it returns counts exactly the findings it submitted and those that
    were accepted, nothing when it raises; and it either takes one step of the model and
    leaves it at the window, or takes none and does not. *)
Definition counts_of (r : result (option CallbackCounts)) : CallbackCounts :=
  match r with Ok (Some c) => c | _ => mk_counts 0 0 0 0 0 end.
Definition counted_findings (c : CallbackCounts) : Z :=
  cb_findings_network c + cb_behavior_observed c + cb_behavior_absence c.
Definition counted_accepted (c : CallbackCounts) : Z := cb_network c + cb_behavior c.

Definition keeps_accounts (callback : WorkflowCallback) : Prop := ∀ input gw r events gw',
  window_of gw ≠ Some (wi_window_id input) → callback input gw = (r, events, gw') →
  gs_submitted (gw_stats gw') = gs_submitted (gw_stats gw) + counted_findings (counts_of r) ∧
  total_accepted (gw_stats gw') = total_accepted (gw_stats gw) + counted_accepted (counts_of r) ∧
  total_rejected (gw_stats gw') =
    total_rejected (gw_stats gw) + counted_findings (counts_of r) - counted_accepted (counts_of r) ∧
  abm_steps (gw_abm gw') = abm_steps (gw_abm gw) +
    (if decide (window_of gw' = Some (wi_window_id input)) then 1 else 0).

(** The gateway is not touched. *)
Definition steady {A} (m : XM A) : Prop := ∀ s a s', m s = (Ok a, s') → rn_gateway s' = rn_gateway s.
Lemma steady_bind {A B} (m : XM A) (f : A → XM B) : steady m → (∀ a, steady (f a)) → steady (m ≫= f).
Proof. intros Hm Hf s b s' (a & s1 & H1 & H2)%M_bind_ok. by rewrite (Hf _ _ _ _ H2), (Hm _ _ _ H1). Qed.
Lemma steady_ret {A} (a : A) : steady (mret a).
Proof. by intros s b s' [= _ <-]. Qed.
Lemma steady_lift {A} (r : result A) : steady (lift r).
Proof. by intros s b s' [= _ <-]. Qed.
Lemma steady_graph (m : GM unit) : steady (on_graph m).
Proof.
  intros s a s'. unfold on_graph. destruct (rn_graph s) as [g|]; [|by intros [= _ <-]].
  destruct (m g). by intros [= _ <-].
Qed.

Section workflow_accounts.
Context `{PyRuntime} (neighbors : string → result (list string)) (rr : ReplayRunner).

Lemma steady_emit e : steady (emit rr e).
Proof.
  unfold emit. destruct (rr_event_sink rr); [|apply steady_ret].
  apply steady_bind; [by intros s a s' [= _ <-] | intros; apply steady_lift].
Qed.
Lemma steady_checkpoint after n : steady (checkpoint rr after n).
Proof. unfold checkpoint. destruct (rr_control rr); [apply steady_lift | apply steady_ret]. Qed.
Lemma steady_pace : steady (pace rr).
Proof. unfold pace. cbn zeta. destruct (od_get _ _) as [d|]; [by intros s a s' [= _ <-] | apply steady_ret]. Qed.
Lemma steady_open t : steady (open_window rr t).
Proof. apply steady_bind; [apply steady_emit | intros _; apply steady_graph]. Qed.
Lemma drift_open t : drift (open_window rr t) (0, 0, 0).
Proof. apply drift_then; [apply drift_emit | intros _; apply drift_graph]. Qed.

(** The runner's own step, when the workflow did not take it. *)
Lemma fallback_step t s a s' :
  (_ ← enter_window t; _ ← attempt (propagate_risk neighbors); record_window rr) s = (Ok a, s') →
  books s' = ((books s).1.1.1, (books s).1.1.2, (books s).1.2 + 1, (books s).2) ∧
  window_of (rn_gateway s') = Some t.
Proof.
  intros ([] & s1 & [= <-] & ([] & s2 & [= <-] & [= _ <-])%M_bind_ok)%M_bind_ok.
  unfold books, findings_emitted, findings_accepted, stats_of, window_of, propagate_risk, on_gateway, on_abm,
    abm_propagate. cbn.
  destruct (spread_all _ _ _ _ _); cbn; split; try done; books_eq.
Qed.

Lemma orchestrate_accounts callback input s a s' :
  keeps_accounts callback → window_of (rn_gateway s) ≠ Some (wi_window_id input) →
  orchestrate neighbors rr callback input s = (Ok a, s') →
  books s' = ((books s).1.1.1, (books s).1.1.2, (books s).1.2 + 1, (books s).2) ∧
  window_of (rn_gateway s') = Some (wi_window_id input).
Proof.
  intros Hcb Hw. unfold orchestrate. destruct (callback input (rn_gateway s)) as [[r events] gw'] eqn:Hc.
  apply Hcb in Hc as (Hs & Ha & Hr & Hn); [|done]. intros ([] & s1 & H1 & Hrest)%M_bind_ok.
  assert (Hb1 : books s1 = books (with_gateway gw' s) ∧ rn_gateway s1 = gw').
  { destruct (rr_event_sink rr); by injection H1 as <-. }
  apply M_bind_ok in Hrest as ([] & s2 & H2 & Hrest).
  assert (Hb2 : books s2 = ((books s).1.1.1, (books s).1.1.2,
    (books s).1.2 + (if decide (window_of gw' = Some (wi_window_id input)) then 1 else 0), (books s).2) ∧
    rn_gateway s2 = gw').
  { assert (∃ c, counts_of r = c ∧ books s2 = ((books s1).1.1.1 + counted_findings c,
      (books s1).1.1.2 - counted_accepted c, (books s1).1.2, (books s1).2) ∧ rn_gateway s2 = rn_gateway s1)
      as (c & Hcnt & Hb & Hg).
    { exists (counts_of r). split; [done |]. destruct r as [[c|]|]; cbn [counts_of].
      - split; [|by injection H2 as <-]. apply drift_count in H2. rewrite H2. cbn. unfold counted_findings, counted_accepted.
        books_eq.
      - injection H2 as <-. split; [|done]. destruct (books s1) as [[[x y] z] w]. unfold counted_findings, counted_accepted. cbn. books_eq.
      - injection H2 as <-. split; [|done]. destruct (books s1) as [[[x y] z] w]. unfold counted_findings, counted_accepted. cbn. books_eq. }
    rewrite Hg, Hb. destruct Hb1 as [-> ->]. rewrite <-Hcnt. split; [|done].
    unfold books, findings_emitted, findings_accepted, stats_of in *. cbn. books_eq. }
  destruct Hb2 as [Hb2 Hg2]. apply M_bind_ok in Hrest as (entered & s3 & [= <- <-] & Hrest).
  rewrite Hg2 in Hrest. fold (window_of gw') in Hrest.
  destruct (decide (window_of gw' = Some (wi_window_id input))) as [He|He].
  - rewrite bool_decide_true in Hrest by done. injection Hrest as _ <-. by rewrite Hg2.
  - rewrite bool_decide_false in Hrest by done. apply fallback_step in Hrest as [-> ?]. split; [|done].
    rewrite Hb2. cbn. books_eq.
Qed.

Lemma workflow_process callback t net beh comm s a s' :
  rr_workflow_callback rr = Some callback → keeps_accounts callback → window_of (rn_gateway s) ≠ Some t →
  process_window neighbors rr t net beh comm s = (Ok a, s') →
  books s' = ((books s).1.1.1, (books s).1.1.2, (books s).1.2 + 1, (books s).2) ∧
  window_of (rn_gateway s') = Some t.
Proof.
  intros Hcb Hk Hw. unfold process_window. intros ([] & s1 & H1 & H2)%M_bind_ok. cbn zeta in H2. rewrite Hcb in H2.
  pose proof (steady_graph _ _ _ _ H1) as Hg. apply drift_graph in H1.
  apply orchestrate_accounts in H2 as [-> ?]; [|done | by rewrite Hg]. split; [|done]. rewrite H1. cbn. books_eq.
Qed.

(** What follows a window. *)
Lemma window_tail t k s a s' :
  (_ ← finish_window t; _ ← emit rr (window_event "WINDOW_COMPLETED" t);
   _ ← checkpoint rr true (k + 1); pace rr) s = (Ok a, s') →
  books s' = ((books s).1.1.1, (books s).1.1.2, (books s).1.2 - 1, (books s).2) ∧ rn_gateway s' = rn_gateway s.
Proof.
  intros Hr. split.
  - assert (Hd : drift (_ ← finish_window t; _ ← emit rr (window_event "WINDOW_COMPLETED" t);
      _ ← checkpoint rr true (k + 1); pace rr) (0, 0, -1)).
    { eapply (drift_bind _ _ (0, 0, -1) (0, 0, 0)); [apply drift_finish | | done]. intros _.
      apply drift_then; [apply drift_emit |]. intros _. apply drift_then; [apply drift_checkpoint |]. intros _.
      apply drift_pace. }
    rewrite (Hd _ _ _ Hr). cbn. books_eq.
  - revert s a s' Hr. apply steady_bind; [by intros s a s' [= _ <-] |]. intros _.
    apply steady_bind; [apply steady_emit |]. intros _. apply steady_bind; [apply steady_checkpoint |].
    intros _. apply steady_pace.
Qed.

Lemma workflow_batches callback bs : ∀ k s a s',
  rr_workflow_callback rr = Some callback → keeps_accounts callback → NoDup (map ba_target bs) →
  Forall (λ b, window_of (rn_gateway s) ≠ Some (ba_target b)) bs →
  replay_batches neighbors rr bs k s = (Ok a, s') → books s' = books s.
Proof.
  assert (Hzero : ∀ s s1 : RunnerState, books s1 = ((books s).1.1.1 + 0, (books s).1.1.2 + 0, (books s).1.2 + 0,
    (books s).2) → books s1 = books s).
  { intros s s1 ->. destruct (books s) as [[[x y] z] w]. cbn. books_eq. }
  induction bs as [|b bs IH]; intros k s a s' Hcb Hk Hnd Hw Hr; cbn [replay_batches] in Hr.
  { by apply drift_checkpoint, Hzero in Hr. }
  apply M_bind_ok in Hr as ([] & s1 & H1 & Hr). apply M_bind_ok in Hr as ([] & s2 & H2 & Hr).
  pose proof (steady_checkpoint _ _ _ _ _ H1) as G1. apply drift_checkpoint, Hzero in H1.
  pose proof (steady_open _ _ _ _ H2) as G2. apply drift_open, Hzero in H2.
  apply M_bind_ok in Hr as ([] & s3 & H3 & Hr). unfold replay_window in H3.
  apply M_bind_ok in H3 as ([] & s4 & H4 & H3). apply NoDup_cons in Hnd as [Hnotin Hnd].
  apply Forall_cons in Hw as [Hwb _].
  eapply workflow_process in H4 as [H4 Hw4]; [|done..|by rewrite G2, G1].
  apply window_tail in H3 as [H3 G3]. apply IH in Hr; [| done | done | done |].
  - rewrite Hr, H3, H4, H2, H1. destruct (books s) as [[[x y] z] w]. cbn. books_eq.
  - apply Forall_forall. intros b' Hb'. rewrite G3, Hw4. intros [= Heq]. apply Hnotin. rewrite Heq.
    by apply list_elem_of_fmap_2.
Qed.
End workflow_accounts.

(** Streams that agree window by window. *)
Lemma batches_same net1 beh1 comm1 net2 beh2 comm2 :
  (∀ w, at_window w net1 = at_window w net2 ∧ at_window w beh1 = at_window w beh2 ∧
        at_window w comm1 = at_window w comm2) →
  batches net1 beh1 comm1 = batches net2 beh2 comm2.
Proof.
  intros Hsame. unfold batches. rewrite (window_ids_ext _ (net2 ++ beh2 ++ comm2)).
  - apply map_ext. intros w. by destruct (Hsame w) as (-> & -> & ->).
  - assert (Hin : ∀ w rows, w ∈ map row_window_id rows ↔ at_window w rows ≠ []).
    { intros w rows. rewrite list_elem_of_fmap. split.
      - intros (r & -> & Hr) Hnil. eapply (filter_nil_not_elem_of _ _ r Hnil); done.
      - intros Hne. destruct (at_window w rows) as [|r l] eqn:Hl; [done |]. exists r.
        assert (Hr : r ∈ at_window w rows) by (rewrite Hl; left). apply list_elem_of_filter in Hr as [<- ?]. done. }
    intros w. rewrite !map_app, !elem_of_app, !Hin. by destruct (Hsame w) as (-> & -> & ->).
Qed.

(** ** The rows of a feature pass *)

(** A row of the pass, on its way through the sorter. *)
Definition as_sort_row (row : FeatureRow) : Row := mk_sort_row (row_int "window_id" row) row.

Lemma edge_sort_rows cfg entries rows r :
  Forall2 (edge_row cfg) entries rows → r ∈ rows →
  row_packets (as_sort_row r) = row_int "packet_count" r ∧
  row_bytes (as_sort_row r) = row_int "captured_byte_count" r ∧
  row_pair (as_sort_row r) = Some ((edge_of_row r).1.2, (edge_of_row r).2).
Proof.
  intros Hrows Hr. apply list_elem_of_lookup in Hr as (i & Hr).
  destruct (Forall2_lookup_r _ _ _ _ _ Hrows Hr) as ([k e] & _ & Hf).
  apply finalize_edge_fields in Hf as (_ & _ & Hsrc & Hdst & Hp & Hb & _).
  unfold row_packets, row_bytes, row_pair, edge_of_row, int_item, int_get, entity_of, row_get, row_int, row_str. cbn.
  by rewrite Hsrc, Hdst, Hp, Hb.
Qed.

Lemma of_pair_rows cfg entries rows a b :
  Forall2 (edge_row cfg) entries rows →
  of_pair (a, b) (map as_sort_row rows) ≠ [] ↔ ∃ w, (w, a, b) ∈ map edge_of_row rows.
Proof.
  intros Hrows. setoid_rewrite list_elem_of_fmap. split.
  - intros Hne. destruct (of_pair (a, b) (map as_sort_row rows)) as [|s l] eqn:Hl; [done |].
    assert (Hs : s ∈ of_pair (a, b) (map as_sort_row rows)) by (rewrite Hl; left).
    apply list_elem_of_filter in Hs as [Hs (r & -> & Hr)%list_elem_of_fmap].
    destruct (edge_sort_rows _ _ _ _ Hrows Hr) as (_ & _ & Hpair). rewrite Hpair in Hs. injection Hs as <- <-.
    by exists (edge_of_row r).1.1, r.
  - intros (w & r & Hw & Hr) Hnil. eapply (filter_nil_not_elem_of _ _ (as_sort_row r) Hnil).
    + destruct (edge_sort_rows _ _ _ _ Hrows Hr) as (_ & _ & ->). by rewrite <-Hw.
    + by apply list_elem_of_fmap_2.
Qed.
