(* ===== verification/SimProperties.v ===== *)
(** * Properties of the finding pipeline

    The finding gateway and the device risk model, each with a concrete instance.
    The numbering continues that of the agentic workflow. *)

From S2P Require Import Prelude PyString Json BbWitness DsWindowSort DsWindowing SimDevices DsNetwork.
From S2P Require Import DsExtraction DsProperties SimGateway SimFacts AgCore SimReplay SimReplayFacts.

Section properties.
Context `{PyRuntime}.

(** The finding gateway.  Every submission that returns is counted once, as
    accepted or as rejected.  A rejected one leaves the device model and the log
    of accepted findings alone; an accepted one has a valid timestamp and a
    registered device, applied exactly its evidence, and is logged last; an
    exception is the device model's or a subscriber's.  Whatever the answer, the
    device model keeps its invariant. *)
Theorem gateway_submit_spec s g out g' :
  abm_ok (gw_abm g) → balanced (gw_stats g) → gateway_submit s g = (out, g') →
  abm_ok (gw_abm g') ∧
  match out with
  | Ok false => balanced (gw_stats g') ∧ gw_abm g' = gw_abm g ∧
      gw_accepted_log g' = gw_accepted_log g ∧
      total_rejected (gw_stats g') = total_rejected (gw_stats g) + 1
  | Ok true => balanced (gw_stats g') ∧ timestamp_ok s = true ∧
      is_Some (abm_resolve (sub_entity s) (gw_abm g)) ∧
      evidence_of s (gw_abm g) = (Ok tt, gw_abm g') ∧
      gw_accepted_log g' = push_bounded (gw_history_limit g) (accepted_entry s) (gw_accepted_log g) ∧
      total_accepted (gw_stats g') = total_accepted (gw_stats g) + 1
  | Raise e => (evidence_of s (gw_abm g)).1 = Raise e ∨ ∃ cb, cb ∈ gw_subscribers g ∧ cb s = Raise e
  end.
Proof.
  intros Ha Hb Hrun. pose proof (gateway_submit_abm s g out g' Hrun) as Habm.
  apply gateway_submit_cases in Hrun. unfold balanced in *. split.
  - destruct Habm as [->|Hev]; [done |].
    destruct (evidence_of s (gw_abm g)) as [o a] eqn:Ho. cbn in Hev. rewrite Hev.
    by eapply evidence_of_ok.
  - destruct out as [[]|e].
    + destruct Hrun as (? & ? & ? & ? & ? & ? & ?). split_and!; try done. lia.
    + destruct Hrun as (? & ? & ? & ? & ?). split_and!; try done. lia.
    + destruct Hrun as [[? _]|[_ ?]]; [by left | by right].
Qed.

(** C22: propagation of risk.  On a topology that knows every device, propagation
    always returns: each search empties its queue, because a device enters it at
    most once.  It changes no evidence; the systemic risk of a device is the
    maximum of its direct and its propagated risk; and a device has propagated
    risk only if it is protected and a risky protected device reaches it through
    protected devices within [max_hops] hops. *)
Theorem propagation_sound neighbors a :
  abm_ok a → (∀ n, n ∈ (abm_states a).*1 → is_ok (neighbors n) = true) →
  (∀ src d before, (src, d) ∈ propagation_sources (abm_states a) →
     ∃ s, spread_loop neighbors (spread_fuel (abm_states a)) (abm_params a) (abm_states a)
            (mk_spread [(src, d, 0)] {[src]} before) = Ok s ∧ sd_frontier s = []) ∧
  ∃ a', abm_propagate neighbors a = (Ok tt, a') ∧ abm_ok a' ∧
    (abm_states a').*1 = (abm_states a).*1 ∧
    ∀ n s', od_get n (abm_states a') = Some s' →
      ∃ s, od_get n (abm_states a) = Some s ∧
        s' = with_risk (ds_propagated_risk s') (ds_systemic_risk s') s ∧
        ds_systemic_risk s' =
          match direct_risk s with
          | Some d => f_max d (ds_propagated_risk s')
          | None => ds_propagated_risk s'
          end ∧
        (ds_propagated_risk s' ≠ f_zero →
           ds_is_protected_asset s = true ∧
           ∃ src d k, (src, d) ∈ propagation_sources (abm_states a) ∧
             walk neighbors (abm_states a) src n k ∧ 0 < k ≤ sp_max_hops (abm_params a)).
Proof.
  intros Ha Hn. split.
  { intros src d before Hsrc. apply (list_elem_of_fmap_2 fst), sources_known in Hsrc. cbn in Hsrc.
    destruct (first_search_ends neighbors (abm_params a) (abm_states a) src d before Hsrc Hn)
      as (s & ? & ? & _). by exists s. }
  destruct (abm_propagate_run neighbors a Ha Hn) as (prop & Hrun & Hp).
  eexists. split; [exact Hrun |]. split; [by apply (abm_propagate_ok neighbors a _ _ Ha Hn Hrun) |].
  split; [apply refresh_states_keys |].
  intros n s' Hg. cbn [abm_states set_states] in Hg. rewrite refresh_states_get in Hg.
  destruct (od_get n (abm_states a)) as [s|] eqn:Hs; [|done]. injection Hg as <-.
  exists s. cbn. split_and!; [done | done | done |].
  intros Hne. destruct (prop !! n) as [x|] eqn:Hx; [|done].
  destruct (Hp n x Hx) as (src & d & k & st & Hsrc & Hw & Hk & Hg & Hprot).
  assert (st = s) as -> by congruence. split; [done |]. by exists src, d, k.
Qed.
End properties.

(** ** The replay of a session *)
Section replay.
Context `{PyRuntime} (neighbors : string → result (list string)) (rr : ReplayRunner).

(** C23: a replay is a batch by window.  Whatever the detector, the profiler, the
    workflow, the sink and the controller do, a fresh runner over the externally
    sorted streams of a session behaves, state and outcome, as a loop over the windows
    that occur in the session, each once and in increasing order, with the rows the
    streams have for the window in the order they came: the ordering error is never
    raised and the loop never stops early.  So two sessions whose streams agree window
    by window replay alike, however their windows are interleaved and whatever the
    chunk sizes and the merge fan-ins. *)
Theorem replay_batch chunk_rows fan_in net beh comm heads s :
  make_heads chunk_rows fan_in net beh comm = Ok heads → rn_last_processed_wid s = None →
  run neighbors rr heads s =
    (_ ← emit rr (mk_sink_event "REPLAY_STARTED" None None [("source_mode", JStr (rr_source_mode rr))]);
     replay_batches neighbors rr (batches net beh comm) 0) s ∧
  ∀ chunk_rows' fan_in' net' beh' comm' heads',
    make_heads chunk_rows' fan_in' net' beh' comm' = Ok heads' →
    (∀ w, at_window w net' = at_window w net ∧ at_window w beh' = at_window w beh ∧
          at_window w comm' = at_window w comm) →
    run neighbors rr heads' s = run neighbors rr heads s.
Proof.
  intros Hheads Hs. split; [by eapply run_batch |].
  intros chunk_rows' fan_in' net' beh' comm' heads' Hheads' Hsame.
  rewrite (run_batch _ _ _ _ _ _ _ _ _ Hheads Hs), (run_batch _ _ _ _ _ _ _ _ _ Hheads' Hs).
  by rewrite (batches_same net' beh' comm' net beh comm Hsame).
Qed.

(** C24: what a replay leaves in the communication graph.  When a run from an empty
    graph completes, the nodes are the end points of the communication rows; there is
    an edge for each ordered pair of end points with a row and no other; its totals
    are the sums of the packets and bytes of the rows of the pair, and its first and
    last window those of its first and last row in time; the deltas are those of the
    last window alone; and the runner counted each window that occurs once. *)
Theorem replay_graph chunk_rows fan_in net beh comm heads inv gw s :
  make_heads chunk_rows fan_in net beh comm = Ok heads →
  run neighbors rr heads (new_run (Some (build_comm_graph inv)) gw) = (Ok tt, s) →
  let windows := window_ids (net ++ beh ++ comm) in
  rn_window_ids_seen s = Z.of_nat (length windows) ∧
  rn_min_processed_wid s = head windows ∧ rn_last_processed_wid s = last windows ∧
  ∃ g, rn_graph s = Some g ∧
    (∀ n, is_Some (cg_nodes g !! n) ↔ ∃ r k, r ∈ comm ∧ row_pair r = Some k ∧ (n = k.1 ∨ n = k.2)) ∧
    (∀ k, is_Some (cg_edges g !! k) ↔ of_pair k comm ≠ []) ∧
    (∀ k d, cg_edges g !! k = Some d →
       gd_packet_count_total d = zsum (map row_packets (of_pair k comm)) ∧
       gd_captured_byte_total d = zsum (map row_bytes (of_pair k comm)) ∧
       gd_first_window_id d ∈ map row_window_id (of_pair k comm) ∧
       gd_last_window_id d ∈ map row_window_id (of_pair k comm) ∧
       Forall (λ r, gd_first_window_id d ≤ row_window_id r ≤ gd_last_window_id d) (of_pair k comm)) ∧
    cg_records_applied g = Z.of_nat (length comm) ∧
    (∀ w k, last windows = Some w → (get_window_delta k g).1 =
       (zsum (map row_packets (of_pair k (at_window w comm))), zsum (map row_bytes (of_pair k (at_window w comm))))).
Proof.
  intros Hheads Hrun. destruct (run_graph _ _ _ _ _ _ _ _ _ _ _ Hheads Hrun) as (? & ? & ? & g & Hg & Hgraph & Hd).
  cbv zeta. split_and!; [done..|]. exists g. pose proof (λ k, graph_of_pairs _ _ k Hgraph) as Hpairs.
  destruct Hgraph as [_ Hedges Hnodes _ _ Happ]. split_and!; [done | done | done | | done |].
  - intros k d Hk. specialize (Hedges k). rewrite Hk in Hedges. by destruct Hedges as [_ []].
  - intros w k Hw. apply (Hd w Hw).
Qed.

(** C25: the accounts of a replay, with the direct detectors or with a workflow.  A run
    starts over a fresh gateway and a device model that has taken no step; if it has a
    workflow callback, the model is at no window yet and the callback keeps its own
    accounts ([keeps_accounts]: its counts are the findings it submitted and had
    accepted, and it takes the step of its window exactly when it leaves the model at
    that window).  When such a run completes, every finding it says it emitted was
    submitted to the gateway, once; the findings it says were accepted are those the
    gateway accepted, the others those it rejected; and the device model took one step
    for each window.  [failed_workflow_loses_step] shows a callback that does not keep
    its accounts and a window without its step. *)
Theorem replay_accounts chunk_rows fan_in net beh comm heads graph abm limit s :
  make_heads chunk_rows fan_in net beh comm = Ok heads → abm_steps abm = 0 →
  match rr_workflow_callback rr with
  | None => True
  | Some callback => abm_current_window_id abm = None ∧ keeps_accounts callback
  end →
  run neighbors rr heads (new_run graph (new_gateway abm limit)) = (Ok tt, s) →
  let st := gw_stats (rn_gateway s) in
  gs_submitted st = findings_emitted s ∧ total_accepted st = findings_accepted s ∧
  total_rejected st = findings_emitted s - findings_accepted s ∧
  abm_steps (gw_abm (rn_gateway s)) = rn_window_ids_seen s.
Proof.
  intros Hheads Hsteps Hwf Hrun. rewrite (run_batch _ _ _ _ _ _ _ _ _ Hheads) in Hrun by done.
  apply M_bind_ok in Hrun as ([] & s1 & He & Hr). pose proof (steady_emit _ _ _ _ _ He) as Hg. apply drift_emit in He.
  assert (Hb : books s = books s1).
  { destruct (rr_workflow_callback rr) as [callback|] eqn:Hcb.
    - destruct Hwf as [Hw Hk]. eapply workflow_batches in Hr; [done..| rewrite batches_targets; apply window_ids_nodup |].
      apply Forall_forall. intros b _. rewrite Hg. unfold window_of. cbn. by rewrite Hw.
    - apply drift_batches in Hr; [|done]. rewrite Hr. destruct (books s1) as [[[x y] z] w]. cbn. books_eq. }
  rewrite He in Hb. cbv zeta.
  unfold books, stats_of, findings_emitted, findings_accepted, total_accepted, total_rejected in *. cbn in Hb.
  rewrite Hsteps in Hb. injection Hb as H1 H2 H3 H4. lia.
Qed.

(** C26: from a capture to its graph.  When the feature pass over a capture completes
    and a replay of the rows it yielded completes, no packet is lost on the way: the
    totals of the edges add up to the packets of the capture with a time stamp and to
    their captured bytes, and there is an edge from one end point to another just when
    a packet went from the one to the other. *)
Theorem capture_to_graph sc start recs inv set c yielded chunk_rows fan_in beh heads gw s :
  iter_pcap_feature_rows (mk_session sc (Some recs) (Some start)) inv set = Ok (Ok c, yielded) →
  make_heads chunk_rows fan_in (map as_sort_row (iter_network_rows_direct yielded)) beh
    (map as_sort_row (iter_communication_rows yielded)) = Ok heads →
  run neighbors rr heads (new_run (Some (build_comm_graph inv)) gw) = (Ok tt, s) →
  ∃ grid g,
    new_grid start (es_window_seconds set) = Ok grid ∧ rn_graph s = Some g ∧
    let cfg := comm_config set grid sc inv in
    let packets := timed_packets cfg (packets_of recs) in
    msum gd_packet_count_total (cg_edges g) = Z.of_nat (length packets) ∧
    msum gd_captured_byte_total (cg_edges g) = zsum (map (pk_caplen ∘ snd) packets) ∧
    ∀ a b, is_Some (cg_edges g !! (a, b)) ↔ ∃ wp, wp ∈ packets ∧ packet_edge cfg wp = (wp.1, a, b).
Proof.
  intros (grid & Hgrid & _ & _ & _ & _ & _ & Hrows & _)%capture_run Hheads Hrun. exists grid.
  destruct (run_graph _ _ _ _ _ _ _ _ _ _ _ Hheads Hrun) as (_ & _ & _ & g & Hg & Hgraph & _).
  exists g. split; [done |]. split; [done |]. cbv zeta. pose proof (go_packets _ _ Hgraph) as Hp.
  pose proof (go_bytes _ _ Hgraph) as Hb.
  assert (Hfields := λ r, edge_sort_rows _ _ _ r Hrows). assert (Hpairs := λ a b, of_pair_rows _ _ _ a b Hrows).
  apply edge_rows in Hrows as (Hkeys & Hpackets & Hbytes & _). split_and!.
  - rewrite Hp, <-Hpackets, map_map. f_equal. apply map_ext_in. intros r Hr%list_elem_of_In. by apply Hfields.
  - rewrite Hb, <-Hbytes, map_map. f_equal. apply map_ext_in. intros r Hr%list_elem_of_In. by apply Hfields.
  - intros a b. transitivity (of_pair (a, b) (map as_sort_row (iter_communication_rows yielded)) ≠ []).
    { apply (graph_of_pairs _ _ (a, b) Hgraph). }
    rewrite Hpairs, Hkeys. setoid_rewrite elem_of_sorted_keys. setoid_rewrite edges_observed. split.
    + intros (w & wp & Hwp & Hk). exists wp. rewrite Hk. split; [done |].
      unfold packet_edge in Hk. destruct (endpoints _ _) as [[] []]. by injection Hk as -> _ _.
    + intros (wp & Hwp & Hk). by exists wp.1, wp.
Qed.
End replay.

(** * Concrete instances *)

Definition sensor1 : DeviceRecord :=
  mk_device "weather-sensor" "aa:bb:cc:dd:ee:01" "10.0.0.1" "sensor" "weather" "t/1".
Definition broker1 : DeviceRecord :=
  mk_device "broker" "aa:bb:cc:dd:ee:02" "10.0.0.2" "infrastructure" "broker" "".
Definition params1 : SrepParams := mk_srep_params f_half f_half 2 [] f_one.
Definition abm0 : DeviceABM := new_abm (new_inventory [sensor1; broker1]) params1 None.
Definition finding_a : NetworkFinding :=
  mk_network_finding "weather-sensor" 3 t0_utc f_one "attack" f_one "detector-1" [].
Definition gateway0 : FindingGateway := new_gateway abm0 8.
Definition gateway_a : FindingGateway := (gateway_submit (SubNetwork finding_a) gateway0).2.

Definition links1 (n : string) : result (list string) :=
  Ok (if bool_decide (n = "broker") then ["weather-sensor"] else ["broker"]).

Lemma gateway_submit_spec_witness :
  evidence_of (SubNetwork finding_a) abm0 = (Ok tt, gw_abm gateway_a).
Proof.
  destruct (gateway_submit_spec (SubNetwork finding_a) gateway0 (Ok true) gateway_a) as
    (_ & _ & _ & _ & Hev & _).
  - apply new_abm_ok.
  - reflexivity.
  - vm_compute. reflexivity.
  - exact Hev.
Defined.

Lemma propagation_sound_witness : ∃ a',
  abm_propagate links1 (gw_abm gateway_a) = (Ok tt, a') ∧ abm_ok a'.
Proof.
  destruct (propagation_sound links1 (gw_abm gateway_a)) as (_ & a' & Hrun & Hok & _).
  - eapply (evidence_of_ok (SubNetwork finding_a)); [apply (new_abm_ok (new_inventory [sensor1; broker1]) params1 None) |].
    vm_compute. reflexivity.
  - intros n _. reflexivity.
  - exists a'. exact (conj Hrun Hok).
Defined.

(** ** A concrete replay

    A detector that accuses the sensor in every observed row; rows of three windows,
    fed out of order to sorters of two rows. *)
Definition net_row (w : Z) (observed : bool) : Row :=
  mk_sort_row w [("network_observed", JBool observed); ("window_start_utc", JStr t0_utc)].
Definition comm_row (w : Z) (src dst : string) (packets bytes : Z) : Row :=
  mk_sort_row w [("src_entity_id", JStr src); ("dst_entity_id", JStr dst); ("packet_count", JInt packets);
    ("captured_byte_count", JInt bytes); ("protocols", JList [JStr "tcp"])].
Definition accuse (r : Row) : NetworkFinding :=
  mk_network_finding "weather-sensor" (row_window_id r) t0_utc f_one "attack" f_one "detector-1" [].
Definition stranger (r : Row) : NetworkFinding :=
  mk_network_finding "printer" (row_window_id r) t0_utc f_one "attack" f_one "detector-1" [].
Definition runner1 : ReplayRunner :=
  mk_runner (Some (λ rows, Ok (map accuse rows ++ map stranger rows))) None None "feature_store" "5x"
    (λ _, t0_utc) (Some (λ _, Ok tt)) (Some (λ _ _, Ok tt)).
Definition net1 : list Row := [net_row 7 true; net_row 3 false; net_row 3 true].
Definition comm1 : list Row :=
  [comm_row 7 "weather-sensor" "broker" 2 200; comm_row 3 "weather-sensor" "broker" 4 400;
   comm_row 3 "broker" "weather-sensor" 1 60; comm_row 4 "weather-sensor" "broker" 1 90].
Definition heads1 : Heads := three_heads (isort window_leb net1) [] (isort window_leb comm1).
Definition replayed : RunnerState :=
  (run links1 runner1 heads1 (new_run (Some (build_comm_graph (new_inventory [sensor1; broker1]))) gateway0)).2.

Lemma heads1_made : make_heads 2 2 net1 [] comm1 = Ok heads1.
Proof. vm_compute. reflexivity. Qed.
Lemma replayed_ok :
  run links1 runner1 heads1 (new_run (Some (build_comm_graph (new_inventory [sensor1; broker1]))) gateway0)
    = (Ok tt, replayed).
Proof. vm_compute. reflexivity. Qed.

Lemma replay_batch_witness :
  run links1 runner1 heads1 (new_run None gateway0) =
    (_ ← emit runner1 (mk_sink_event "REPLAY_STARTED" None None [("source_mode", JStr "feature_store")]);
     replay_batches links1 runner1
       [mk_batch 3 [net_row 3 false; net_row 3 true] []
          [comm_row 3 "weather-sensor" "broker" 4 400; comm_row 3 "broker" "weather-sensor" 1 60];
        mk_batch 4 [] [] [comm_row 4 "weather-sensor" "broker" 1 90];
        mk_batch 7 [net_row 7 true] [] [comm_row 7 "weather-sensor" "broker" 2 200]] 0) (new_run None gateway0).
Proof.
  destruct (replay_batch links1 runner1 2 2 net1 [] comm1 heads1 (new_run None gateway0) heads1_made eq_refl) as [Hrun _].
  rewrite Hrun. clear Hrun.
  assert (batches net1 [] comm1 =
    [mk_batch 3 [net_row 3 false; net_row 3 true] []
       [comm_row 3 "weather-sensor" "broker" 4 400; comm_row 3 "broker" "weather-sensor" 1 60];
     mk_batch 4 [] [] [comm_row 4 "weather-sensor" "broker" 1 90];
     mk_batch 7 [net_row 7 true] [] [comm_row 7 "weather-sensor" "broker" 2 200]]) as Hb by (vm_compute; reflexivity).
  rewrite Hb. reflexivity.
Defined.

Lemma replay_graph_witness :
  ∃ g d, rn_graph replayed = Some g ∧ cg_edges g !! (("weather-sensor", "broker") : Pair) = Some d ∧
    gd_packet_count_total d = 7 ∧ gd_captured_byte_total d = 690 ∧
    (get_window_delta ("weather-sensor", "broker") g).1 = (2, 200) ∧ rn_window_ids_seen replayed = 3.
Proof.
  destruct (replay_graph links1 runner1 2 2 net1 [] comm1 heads1 (new_inventory [sensor1; broker1]) gateway0 replayed
    heads1_made replayed_ok) as (Hseen & _ & _ & g & Hg & _ & Hpairs & Hedges & _ & Hdeltas).
  destruct (proj2 (Hpairs ("weather-sensor", "broker"))) as [d Hd]; [vm_compute; discriminate |].
  exists g, d. destruct (Hedges _ _ Hd) as (Hp & Hb & _). split_and!; [exact Hg | exact Hd | | | |].
  - rewrite Hp. vm_compute. reflexivity.
  - rewrite Hb. vm_compute. reflexivity.
  - rewrite (Hdeltas 7); [vm_compute; reflexivity | vm_compute; reflexivity].
  - rewrite Hseen. vm_compute. reflexivity.
Defined.

(** A workflow that submits a finding for its window, then takes the step of the model;
    it works on a copy, which it drops when the gateway raises. *)
Definition workflow1 : WorkflowCallback := λ input gw,
  let w := wi_window_id input in
  match gateway_submit (SubNetwork (accuse (mk_sort_row w []))) gw with
  | (Ok accepted, gw1) =>
      (Ok (Some (mk_counts (if accepted : bool then 1 else 0) 0 1 0 0)), [],
       (on_abm (_ ← modify (set_window (Some w)); record_step t0_utc) gw1).2)
  | (Raise e, _) => (Raise e, [], gw)
  end.
Definition runner5 : ReplayRunner :=
  mk_runner None None (Some workflow1) "feature_store" "5x" (λ _, t0_utc) (Some (λ _, Ok tt)) None.
Definition replayed5 : RunnerState := (run links1 runner5 heads1 (new_run None gateway0)).2.
Lemma replayed5_ok : run links1 runner5 heads1 (new_run None gateway0) = (Ok tt, replayed5).
Proof. vm_compute. reflexivity. Qed.

Lemma workflow1_accounts : keeps_accounts workflow1.
Proof.
  intros input gw r events gw' Hw. unfold workflow1.
  destruct (gateway_submit _ gw) as [[b|e] gw1] eqn:Hg; intros [= <- _ <-]; cbn [counts_of].
  - pose proof (gateway_submit_abm _ _ _ _ Hg) as Habm. apply gateway_submit_cases in Hg.
    assert (Hst : abm_steps (gw_abm gw1) = abm_steps (gw_abm gw)).
    { destruct Habm as [->| ->]; [done | apply evidence_steps]. }
    unfold window_of, counted_findings, counted_accepted. cbn. rewrite decide_True by done.
    destruct b; cbn; destruct_and!; lia.
  - unfold counted_findings, counted_accepted. cbn. rewrite decide_False by done. lia.
Qed.

(** Both ways: the detectors of [runner1], and a workflow. *)
Lemma replay_accounts_witness :
  (findings_emitted replayed = 4 ∧ findings_accepted replayed = 2 ∧
   total_rejected (gw_stats (rn_gateway replayed)) = 2 ∧ abm_steps (gw_abm (rn_gateway replayed)) = 3) ∧
  findings_emitted replayed5 = 3 ∧ gs_submitted (gw_stats (rn_gateway replayed5)) = 3 ∧
  abm_steps (gw_abm (rn_gateway replayed5)) = 3.
Proof.
  destruct (replay_accounts links1 runner1 2 2 net1 [] comm1 heads1
    (Some (build_comm_graph (new_inventory [sensor1; broker1]))) abm0 8 replayed
    heads1_made eq_refl I replayed_ok) as (_ & _ & Hrej & Hsteps).
  destruct (replay_accounts links1 runner5 2 2 net1 [] comm1 heads1 None abm0 8 replayed5
    heads1_made eq_refl (conj eq_refl workflow1_accounts) replayed5_ok) as (Hsub & _ & _ & Hsteps5).
  rewrite Hrej, Hsteps, Hsub, Hsteps5. vm_compute. split_and!; reflexivity.
Defined.

Definition runner2 : ReplayRunner :=
  mk_runner None None None "feature_store" "max" (λ _, t0_utc) None None.

Lemma capture_to_graph_witness :
  ∃ g, msum gd_packet_count_total (cg_edges g) = 4 ∧ is_Some (cg_edges g !! (("broker", "light-sensor") : Pair)).
Proof.
  destruct pass1_runs as (c & y & Hrun & _).
  assert (∃ heads s,
    make_heads 3 2 (map as_sort_row (iter_network_rows_direct y)) [] (map as_sort_row (iter_communication_rows y)) = Ok heads ∧
    run links1 runner2 heads (new_run (Some (build_comm_graph site)) gateway0) = (Ok tt, s)) as (heads & s & Hheads & Hs).
  { assert (match iter_pcap_feature_rows (mk_session "s1" (Some capture1) (Some (second 0))) site settings5 with
      | Ok (Ok c, y) =>
          match make_heads 3 2 (map as_sort_row (iter_network_rows_direct y)) []
                  (map as_sort_row (iter_communication_rows y)) with
          | Ok heads => (run links1 runner2 heads (new_run (Some (build_comm_graph site)) gateway0)).1 = Ok tt
          | _ => False
          end
      | _ => False
      end) as Hp by (vm_compute; reflexivity).
    rewrite Hrun in Hp. destruct (make_heads _ _ _ _ _) as [heads|]; [|destruct Hp].
    destruct (run _ _ heads _) as [r s] eqn:Hs. exists heads, s. split; [reflexivity |]. rewrite Hs. cbn in Hp. by rewrite Hp. }
  destruct (capture_to_graph links1 runner2 "s1" (second 0) capture1 site settings5 c y 3 2 [] heads gateway0 s Hrun
    Hheads Hs) as (grid & g & Hgrid & _ & Hp & _ & Hpairs).
  assert (grid = grid5) as -> by (vm_compute in Hgrid; injection Hgrid as <-; reflexivity).
  exists g. rewrite Hp. split; [vm_compute; reflexivity |]. apply Hpairs.
  set (cfg := comm_config settings5 grid5 "s1" site).
  assert (existsb (λ wp, bool_decide (packet_edge cfg wp = (wp.1, "broker", "light-sensor")))
    (timed_packets cfg (packets_of capture1)) = true) as Hwp by (vm_compute; reflexivity).
  apply existsb_exists in Hwp as (wp & Hin%list_elem_of_In & Hwp%bool_decide_eq_true). exists wp. exact (conj Hin Hwp).
Defined.

(** ** What the runner leaves undone *)

(** A fused stream without communication rows, as of a capture in which nothing was
    decoded, ends the run at its first window. *)
Lemma fused_needs_communication :
  let heads := [("network", [net_row 3 true]); ("behavior", [])] in
  fused_heads 2 2 [("network", net_row 3 true)] [] = Ok heads ∧
  (run links1 runner2 heads (new_run None gateway0)).1 = raise KeyError "communication".
Proof. split; vm_compute; reflexivity. Qed.

(** A workflow that submits its evidence and then raises: the evidence has already set
    the model's window, so the fallback sees nothing to do and the window has neither a
    propagation nor a step. *)
Definition runner3 : ReplayRunner :=
  mk_runner None None
    (Some (λ _ gw, (raise RuntimeError "agent failed", [], (gateway_submit (SubNetwork finding_a) gw).2)))
    "feature_store" "max" (λ _, t0_utc) None None.

Lemma failed_workflow_loses_step :
  let '(r, s) := process_window links1 runner3 3 [] [] [] (new_run None gateway0) in r = Ok tt ∧
    abm_current_window_id (gw_abm (rn_gateway s)) = Some 3 ∧
    abm_steps (gw_abm (rn_gateway s)) = 0 ∧ abm_history (gw_abm (rn_gateway s)) = [].
Proof. vm_compute. split_and!; reflexivity. Qed.

(** One that raises before it submits anything leaves the step to the fallback. *)
Definition runner4 : ReplayRunner :=
  mk_runner None None (Some (λ _ gw, (raise RuntimeError "agent failed", [], gw)))
    "feature_store" "max" (λ _, t0_utc) None None.
Lemma failed_workflow_step :
  let '(r, s) := process_window links1 runner4 3 [] [] [] (new_run None gateway0) in r = Ok tt ∧
    abm_current_window_id (gw_abm (rn_gateway s)) = Some 3 ∧ abm_steps (gw_abm (rn_gateway s)) = 1.
Proof. vm_compute. split_and!; reflexivity. Qed.
