(* ===== verification/EvBroker.v ===== *)
(** * Events and the event broker

    Models [backend/app/contracts/events_v1.py] (the event envelope and its
    validators) and [backend/app/services/event_broker.py]: a bounded ring of
    recent events and one bounded queue per subscriber.  The broker's lock makes
    each operation atomic. *)

From S2P Require Import Prelude PyString Json Firewall.

(** ** Envelopes *)
Inductive ReplayEventType :=
  | REPLAY_CREATED | REPLAY_STARTED | REPLAY_PAUSED | REPLAY_RESUMED | REPLAY_STEPPED
  | REPLAY_COMPLETED | REPLAY_FAILED
  | WINDOW_STARTED | WINDOW_COMPLETED
  | NETWORK_FINDING | BEHAVIOR_FINDING
  | GATEWAY_ACCEPTED | GATEWAY_REJECTED
  | DEVICE_STATE
  | DEVICE_RISK_GRAPH_SNAPSHOT | COMMUNICATION_GRAPH_SNAPSHOT
  | SREP_SNAPSHOT
  | BLACKBOARD_WRITE_PROPOSED | BLACKBOARD_REPLICA_ACK | BLACKBOARD_WRITE_COMMITTED
  | BLACKBOARD_WRITE_PARTIAL | BLACKBOARD_WRITE_ABORTED | BLACKBOARD_WRITE_REJECTED
  | BLACKBOARD_STALE_WRITE | BLACKBOARD_CONFLICT | BLACKBOARD_QUORUM_FAILED
  | BLACKBOARD_STORAGE_FAILED | BLACKBOARD_READ | BLACKBOARD_READ_INCONSISTENT
  | BLACKBOARD_REPLICA_STATUS
  | ORCHESTRATION_REQUEST_RECEIVED | ORCHESTRATOR_PROPOSAL | ORCHESTRATOR_VOTE
  | ORCHESTRATOR_TIMEOUT | ORCHESTRATOR_DELAYED | ORCHESTRATOR_OMISSION | ORCHESTRATOR_STATUS
  | ORCHESTRATION_QUORUM_REACHED | ORCHESTRATION_NO_QUORUM | ORCHESTRATION_DECISION
  | WORKFLOW_WINDOW_STARTED | AGENT_DISPATCHED | AGENT_EXECUTION_STARTED
  | AGENT_EXECUTION_COMPLETED | AGENT_EXECUTION_FAILED | AGENT_EXECUTION_SKIPPED
  | THREAT_CORRELATION_PRODUCED | RISK_RECOMMENDATION_PRODUCED
  | ACCESS_RECOMMENDATION_PRODUCED | ENFORCEMENT_DECISION_COMMITTED
  | CONFIRMED_FEEDBACK_RECORDED | WORKFLOW_WINDOW_COMPLETED | WORKFLOW_WINDOW_FAILED.

#[export] Instance replay_event_type_eq_dec : EqDecision ReplayEventType.
Proof. solve_decision. Defined.

(** The [schema_version] field has one accepted value, which is its default. *)
Record EventEnvelopeV1 := mk_event {
  ev_replay_id : string;
  ev_event_id : string;
  ev_sequence_number : Z;
  ev_event_type : ReplayEventType;
  ev_logical_timestamp : option string;
  ev_window_id : option Z;
  ev_source_component : string;
  ev_entity_id : option string;
  ev_payload : list (string * json);
  ev_provenance : list (string * json);
}.

Definition event_validate (e : EventEnvelopeV1) : result unit :=
  as_validation_error (first_error [
    check (0 <=? ev_sequence_number e) ValueError "greater_than_equal";
    assert_no_ground_truth (JDict (ev_payload e)) "EventEnvelopeV1";
    assert_no_ground_truth (JDict (ev_provenance e)) "EventEnvelopeV1"]).

(** ** The broker *)
Inductive SubscriberState := ACTIVE | LAGGED | CLOSED.
#[export] Instance subscriber_state_eq_dec : EqDecision SubscriberState.
Proof. solve_decision. Defined.

Record Subscriber := mk_subscriber {
  sub_subscriber_id : Z;
  sub_replay_id : string;
  sub_queue : list EventEnvelopeV1;
  sub_state : SubscriberState;
}.

(** [eb_next_id] is what [itertools.count(1)] yields next. *)
Record EventBroker := mk_broker {
  eb_ring_size : nat;
  eb_subscriber_queue_size : nat;
  eb_ring : list EventEnvelopeV1;
  eb_subs : gmap Z Subscriber;
  eb_next_id : Z;
}.

Definition new_broker (ring_size subscriber_queue_size : Z) : result EventBroker :=
  _ ← check (negb ((ring_size <? 1) || (subscriber_queue_size <? 1))) ValueError
        "buffer sizes must be >= 1";
  Ok (mk_broker (Z.to_nat ring_size) (Z.to_nat subscriber_queue_size) [] ∅ 1).

(** What [publish] does to one subscriber. *)
Definition offer (size : nat) (envelope : EventEnvelopeV1) (sub : Subscriber) : Subscriber :=
  if bool_decide (sub_state sub = CLOSED) ||
     negb (bool_decide (sub_replay_id sub = ev_replay_id envelope)) then sub
  else if (size <=? length (sub_queue sub))%nat then
    mk_subscriber (sub_subscriber_id sub) (sub_replay_id sub) (sub_queue sub) LAGGED
  else mk_subscriber (sub_subscriber_id sub) (sub_replay_id sub)
         (push_bounded size envelope (sub_queue sub)) (sub_state sub).

Definition broker_publish (envelope : EventEnvelopeV1) : M EventBroker unit := modify (λ b,
  mk_broker (eb_ring_size b) (eb_subscriber_queue_size b)
    (push_bounded (eb_ring_size b) envelope (eb_ring b))
    (offer (eb_subscriber_queue_size b) envelope <$> eb_subs b) (eb_next_id b)).

Definition of_replay (replay_id : string) (l : list EventEnvelopeV1) : list EventEnvelopeV1 :=
  filter (λ env, ev_replay_id env = replay_id) l.

(** [recent[-size:]] for a positive [size]. *)
Definition last_n {A} (n : nat) (l : list A) : list A := drop (length l - n) l.

Definition subscribe (replay_id : string) : M EventBroker (Z * Subscriber) := λ b,
  let sid := eb_next_id b in
  let recent := of_replay replay_id (eb_ring b) in
  let sub := mk_subscriber sid replay_id (last_n (eb_subscriber_queue_size b) recent) ACTIVE in
  (Ok (sid, sub),
   mk_broker (eb_ring_size b) (eb_subscriber_queue_size b) (eb_ring b) (<[sid := sub]> (eb_subs b))
     (sid + 1)).

(** The removed subscriber is closed and emptied; nothing refers to it again. *)
Definition unsubscribe (subscriber_id : Z) : M EventBroker unit := modify (λ b,
  mk_broker (eb_ring_size b) (eb_subscriber_queue_size b) (eb_ring b)
    (delete subscriber_id (eb_subs b)) (eb_next_id b)).

Definition drain (subscriber_id : Z) : M EventBroker (list EventEnvelopeV1 * bool) := λ b,
  match eb_subs b !! subscriber_id with
  | None => (Ok ([], false), b)
  | Some sub =>
      let lagged := bool_decide (sub_state sub = LAGGED) in
      let sub' := mk_subscriber (sub_subscriber_id sub) (sub_replay_id sub) []
                    (if lagged then ACTIVE else sub_state sub) in
      (Ok (sub_queue sub, lagged),
       mk_broker (eb_ring_size b) (eb_subscriber_queue_size b) (eb_ring b)
         (<[subscriber_id := sub']> (eb_subs b)) (eb_next_id b))
  end.

Definition oldest_available_sequence (replay_id : string) (b : EventBroker) : option Z :=
  ev_sequence_number <$> head (of_replay replay_id (eb_ring b)).

Definition broker_len (b : EventBroker) : nat := length (eb_ring b).

(** ** Histories of operations *)
Inductive BrokerOp :=
  | OpPublish (envelope : EventEnvelopeV1)
  | OpSubscribe (replay_id : string)
  | OpUnsubscribe (subscriber_id : Z)
  | OpDrain (subscriber_id : Z).

(** What the operation answers, when it is a drain, and the next state. *)
Definition broker_op (op : BrokerOp) (b : EventBroker)
    : option (Z * (list EventEnvelopeV1 * bool)) * EventBroker :=
  match op with
  | OpPublish env => (None, (broker_publish env b).2)
  | OpSubscribe replay_id => (None, (subscribe replay_id b).2)
  | OpUnsubscribe sid => (None, (unsubscribe sid b).2)
  | OpDrain sid =>
      let '(out, b') := drain sid b in
      (match out with Ok a => Some (sid, a) | Raise _ => None end, b')
  end.

(** The drains of one subscriber over a history. *)
Fixpoint watch (sid : Z) (ops : list BrokerOp) (b : EventBroker)
    : list (list EventEnvelopeV1 * bool) * EventBroker :=
  match ops with
  | [] => ([], b)
  | op :: ops =>
      let '(out, b1) := broker_op op b in
      let '(answers, b2) := watch sid ops b1 in
      (match out with
       | Some (i, a) => if bool_decide (i = sid) then a :: answers else answers
       | None => answers
       end, b2)
  end.

(** The events of a replay published in a history. *)
Definition published (replay_id : string) (ops : list BrokerOp) : list EventEnvelopeV1 :=
  of_replay replay_id (omap (λ op, match op with OpPublish env => Some env | _ => None end) ops).

(** ** Delivery

    [follows T D gap sub]: of the events [T] of its replay since it subscribed,
    the subscriber was handed [D] and still queues the rest; [gap] says that a
    drain already reported a loss. *)
Record follows (size : nat) (T D : list EventEnvelopeV1) (gap : bool) (sub : Subscriber) : Prop := {
  fo_open : sub_state sub ≠ CLOSED;
  fo_room : (length (sub_queue sub) ≤ size)%nat;
  fo_full : sub_state sub = LAGGED → length (sub_queue sub) = size;
  fo_order : D ++ sub_queue sub `sublist_of` T;
  fo_prefix : gap = false → D ++ sub_queue sub `prefix_of` T;
  fo_exact : D ++ sub_queue sub = T ↔ gap = false ∧ sub_state sub ≠ LAGGED;
}.

Lemma offer_follows size T D gap sub env :
  follows size T D gap sub → ev_replay_id env = sub_replay_id sub →
  follows size (T ++ [env]) D gap (offer size env sub).
Proof.
  intros [Ho Hr Hf Hs Hp Hl] He. unfold offer.
  rewrite bool_decide_eq_false_2, bool_decide_eq_true_2 by done. cbn [orb negb].
  destruct (Nat.leb_spec size (length (sub_queue sub))) as [Hle|Hgt].
  - constructor; cbn; try done.
    + lia.
    + by apply sublist_inserts_r.
    + intros Hg. by apply prefix_app_r, Hp.
    + split; [|by intros [_ []]]. intros Heq. apply sublist_length in Hs.
      rewrite Heq, length_app in Hs. cbn in Hs. lia.
  - rewrite push_bounded_room by done. constructor; cbn; rewrite ?app_assoc; try done.
    + rewrite length_app. cbn. lia.
    + intros Hlag. specialize (Hf Hlag). lia.
    + by apply sublist_app.
    + intros Hg. rewrite (proj2 Hl); [done |]. split; [done |]. intros Hlag. specialize (Hf Hlag). lia.
    + rewrite <-Hl. split; [by intros [? _]%app_inj_tail | by intros ->].
Qed.

Lemma drain_follows size T D gap sub :
  (0 < size)%nat → follows size T D gap sub →
  follows size T (D ++ sub_queue sub) (gap || bool_decide (sub_state sub = LAGGED))
    (mk_subscriber (sub_subscriber_id sub) (sub_replay_id sub) []
       (if bool_decide (sub_state sub = LAGGED) then ACTIVE else sub_state sub)).
Proof.
  intros Hsz [Ho Hr Hf Hs Hp Hl]. constructor; cbn; rewrite ?app_nil_r; try done.
  - by case_bool_decide.
  - lia.
  - by case_bool_decide.
  - intros [Hg _]%orb_false_iff. by apply Hp.
  - rewrite Hl, orb_false_iff. case_bool_decide; naive_solver.
Qed.

(** What an operation that does not remove the subscriber does to it. *)
Lemma broker_op_sub sid op b sub :
  eb_subs b !! sid = Some sub → sid < eb_next_id b → op ≠ OpUnsubscribe sid →
  let '(out, b') := broker_op op b in
  sid < eb_next_id b' ∧ eb_subscriber_queue_size b' = eb_subscriber_queue_size b ∧
  eb_subs b' !! sid = Some
    match op with
    | OpPublish env => offer (eb_subscriber_queue_size b) env sub
    | OpDrain i => if decide (i = sid) then
        mk_subscriber (sub_subscriber_id sub) (sub_replay_id sub) []
          (if bool_decide (sub_state sub = LAGGED) then ACTIVE else sub_state sub)
        else sub
    | _ => sub
    end ∧
  out = match op with
        | OpDrain i => Some (i, match eb_subs b !! i with
                                | Some s => (sub_queue s, bool_decide (sub_state s = LAGGED))
                                | None => ([], false)
                                end)
        | _ => None
        end.
Proof.
  intros Hs Hid Hop. destruct op as [env|rid|i|i]; cbn.
  - split_and!; [done | done | by rewrite lookup_fmap, Hs | done].
  - split_and!; [lia | done | rewrite lookup_insert_ne by lia; done | done].
  - split_and!; [done | done | rewrite lookup_delete_ne by congruence; done | done].
  - unfold drain. destruct (eb_subs b !! i) as [s|] eqn:Hi; cbn.
    + split_and!; [done | done | | done].
      destruct (decide (i = sid)) as [->|Hne]; [|by rewrite lookup_insert_ne].
      rewrite lookup_insert_eq. by simplify_eq.
    + split_and!; [done | done | | done]. destruct (decide (i = sid)); [congruence | done].
Qed.

Lemma offer_other size env sub :
  sub_replay_id sub ≠ ev_replay_id env → offer size env sub = sub.
Proof. intros Hne. unfold offer. rewrite (bool_decide_eq_false_2 _ Hne). by rewrite orb_true_r. Qed.

Lemma offer_replay size env sub : sub_replay_id (offer size env sub) = sub_replay_id sub.
Proof. unfold offer. by repeat case_match. Qed.

Lemma watch_follows sid ops : ∀ b sub T D gap,
  (0 < eb_subscriber_queue_size b)%nat → eb_subs b !! sid = Some sub → sid < eb_next_id b →
  OpUnsubscribe sid ∉ ops → follows (eb_subscriber_queue_size b) T D gap sub →
  let '(answers, b') := watch sid ops b in
  ∃ sub', eb_subs b' !! sid = Some sub' ∧
    follows (eb_subscriber_queue_size b) (T ++ published (sub_replay_id sub) ops)
      (D ++ concat answers.*1) (gap || existsb snd answers) sub'.
Proof.
  induction ops as [|op ops IH]; intros b sub T D gap Hsz Hs Hid Hun Hf; cbn [watch].
  { exists sub. cbn. by rewrite !app_nil_r, orb_false_r. }
  apply not_elem_of_cons in Hun as [Hne Hun].
  pose proof (broker_op_sub sid op b sub Hs Hid (not_eq_sym Hne)) as Hop.
  destruct (broker_op op b) as [out b1]. destruct Hop as (Hid1 & Hsz1 & Hs1 & Hout).
  assert (Hstep : ∀ sub1 T1 D1 gap1,
    eb_subs b1 !! sid = Some sub1 → sub_replay_id sub1 = sub_replay_id sub →
    follows (eb_subscriber_queue_size b) T1 D1 gap1 sub1 →
    let '(answers, b') := watch sid ops b1 in
    ∃ sub', eb_subs b' !! sid = Some sub' ∧
      follows (eb_subscriber_queue_size b) (T1 ++ published (sub_replay_id sub) ops)
        (D1 ++ concat answers.*1) (gap1 || existsb snd answers) sub').
  { intros sub1 T1 D1 gap1 Hg Hr Hf1. rewrite <-Hsz1, <-Hr. apply IH; rewrite ?Hsz1; done. }
  destruct (watch sid ops b1) as [answers b2] eqn:Hw.
  destruct op as [env|rid|i|i]; subst out; cbn in Hs1 |- *.
  - unfold published. cbn [omap list_omap of_replay filter list_filter].
    destruct (decide (ev_replay_id env = sub_replay_id sub)) as [He|He].
    + rewrite cons_middle, app_assoc.
      apply (Hstep _ _ _ _ Hs1); [apply offer_replay | by apply offer_follows].
    + apply (Hstep _ _ _ _ Hs1); [apply offer_replay |].
      by rewrite offer_other by congruence.
  - by apply (Hstep _ _ _ _ Hs1).
  - by apply (Hstep _ _ _ _ Hs1).
  - destruct (decide (i = sid)) as [->|Hi].
    2:{ rewrite bool_decide_eq_false_2 by done. by apply (Hstep _ _ _ _ Hs1). }
    rewrite bool_decide_eq_true_2, Hs by done. cbn.
    rewrite app_assoc, orb_assoc. apply (Hstep _ _ _ _ Hs1); [done | by apply drain_follows].
Qed.
