(* ===== verification/EvReplay.v ===== *)
(** * The replay controller

    Models [backend/app/services/replay_controller.py] with the replay contracts
    [replay_v1.py], and [ReplayControl] of [simulation/replay.py].  Every block the
    source runs under its lock is one atomic step; a replay's worker thread, the
    operation that holds the lifecycle lock, and the other requests interleave.
    The worker reads the control's fields without a lock, one at a time, so
    [checkpoint] is a sequence of steps.  Run objects are kept in [ct_objects] by
    their identifier: one that is no longer registered may still be used by its
    worker.  Snapshots of the scientific state and what is recorded on the
    Blackboard at the end of a replay are events whose contents are arguments. *)

From S2P Require Import Prelude PyString Json Firewall EvBroker.

(** ** Contracts *)
Inductive ReplayState := CREATED | RUNNING | PAUSED | COMPLETED | FAILED.
#[export] Instance replay_state_eq_dec : EqDecision ReplayState.
Proof. solve_decision. Defined.

Inductive PacingSpeed := X1 | X5 | X10 | MAX.
#[export] Instance pacing_speed_eq_dec : EqDecision PacingSpeed.
Proof. solve_decision. Defined.

Definition pacing_value (p : PacingSpeed) : string :=
  match p with X1 => "1x" | X5 => "5x" | X10 => "10x" | MAX => "max" end.
(** [PacingSpeed(text)]. *)
Definition parse_pacing (s : string) : result PacingSpeed :=
  of_option (list_find (λ p, pacing_value p = s) [X1; X5; X10; MAX] ≫= λ x, Some x.2)
    ValueError (s +:+ " is not a valid PacingSpeed").

(** ** Control, runtime and run *)
Record ReplayControl := mk_control {
  rc_pause_event : bool;
  rc_step_limit : option Z;
  rc_cancelled : bool;
}.
Definition new_control (start_paused : bool) : ReplayControl := mk_control (negb start_paused) None false.
Definition control_cancel (k : ReplayControl) : ReplayControl := mk_control true (rc_step_limit k) true.
Definition set_pause (b : bool) (k : ReplayControl) : ReplayControl :=
  mk_control b (rc_step_limit k) (rc_cancelled k).
(** [control.step_limit = n; control.pause_event.set()]. *)
Definition set_running (limit : option Z) (k : ReplayControl) : ReplayControl :=
  mk_control true limit (rc_cancelled k).

(** The part of the scientific runtime the controller reads and writes. *)
Record Runtime := mk_runtime {
  rt_control : ReplayControl;
  rt_windows_seen : Z;
  rt_last_wid : option Z;
  rt_replay_speed : string;
  rt_summary_windows : option Z;
  rt_closed : bool;
}.
Record ReplaySummary := mk_summary {
  rs_windows : Z;
  rs_network : Z;
  rs_behavior : Z;
  rs_defended_blast_radius : f64;
}.

Record EventData := mk_event_data {
  ed_payload : list (string * json);
  ed_window_id : option Z;
  ed_logical_timestamp : option string;
  ed_entity_id : option string;
  ed_source_component : string;
}.
Definition CONTROLLER_COMPONENT : string := "backend.app.services.replay_controller".
Definition ADAPTER_COMPONENT : string := "backend.app.adapters.stage2_replay_adapter".
Definition plain_event (payload : list (string * json)) : EventData :=
  mk_event_data payload None None None CONTROLLER_COMPONENT.

(** The lines of [ReplayControl.checkpoint], in order: the test of [_cancelled],
    the two reads of [step_limit], [clear()], [is_set()], [wait()] and the last
    test. *)
Inductive CheckpointPc := CpCancelled | CpLimit | CpCompare | CpClear | CpTest | CpWait | CpRecheck.
Inductive WorkerPc :=
  | WkStart
  | WkBuild
  | WkAttach (rt : Runtime)
  | WkEnter
  | WkStarted
  | WkCheckpoint (after_window : bool) (windows_completed : Z) (at_ : CheckpointPc)
  | WkTop (windows_completed : Z)
  | WkWindow (windows_completed wid : Z)
  | WkWindowDone (windows_completed wid : Z)
  | WkComplete (summary : ReplaySummary)
  | WkSnapshots (summary : ReplaySummary) (events : list (ReplayEventType * EventData))
  | WkFail (e : exn)
  | WkClose
  | WkDone.

Record Run := mk_run {
  run_replay_id : string;
  run_scenario_id : string;
  run_session_trace : string;
  run_source_mode : string;
  run_state : ReplayState;
  run_pacing : PacingSpeed;
  run_sequence : Z;
  run_error : option string;
  run_runtime : option Runtime;
  run_thread : option WorkerPc;
  run_step_target : option Z;
  run_pending_resume : bool;
  run_pending_steps : Z;
  run_findings_emitted : list (string * Z);
  run_windows_total : option Z;
  run_cancel_requested : bool;
}.
Definition new_run (replay_id scenario_id trace source_mode : string) (pacing : PacingSpeed)
    (windows_total : option Z) : Run :=
  mk_run replay_id scenario_id trace source_mode CREATED pacing 0 None None None None false 0 []
    windows_total false.

(** Field updates. *)
Definition with_state (st : ReplayState) (r : Run) : Run :=
  mk_run (run_replay_id r) (run_scenario_id r) (run_session_trace r) (run_source_mode r) st
    (run_pacing r) (run_sequence r) (run_error r) (run_runtime r) (run_thread r) (run_step_target r)
    (run_pending_resume r) (run_pending_steps r) (run_findings_emitted r) (run_windows_total r)
    (run_cancel_requested r).
Definition with_pacing (p : PacingSpeed) (r : Run) : Run :=
  mk_run (run_replay_id r) (run_scenario_id r) (run_session_trace r) (run_source_mode r)
    (run_state r) p (run_sequence r) (run_error r) (run_runtime r) (run_thread r) (run_step_target r)
    (run_pending_resume r) (run_pending_steps r) (run_findings_emitted r) (run_windows_total r)
    (run_cancel_requested r).
Definition with_sequence (n : Z) (r : Run) : Run :=
  mk_run (run_replay_id r) (run_scenario_id r) (run_session_trace r) (run_source_mode r)
    (run_state r) (run_pacing r) n (run_error r) (run_runtime r) (run_thread r) (run_step_target r)
    (run_pending_resume r) (run_pending_steps r) (run_findings_emitted r) (run_windows_total r)
    (run_cancel_requested r).
Definition with_error (e : string) (r : Run) : Run :=
  mk_run (run_replay_id r) (run_scenario_id r) (run_session_trace r) (run_source_mode r)
    (run_state r) (run_pacing r) (run_sequence r) (Some e) (run_runtime r) (run_thread r)
    (run_step_target r) (run_pending_resume r) (run_pending_steps r) (run_findings_emitted r)
    (run_windows_total r) (run_cancel_requested r).
Definition with_runtime (rt : option Runtime) (r : Run) : Run :=
  mk_run (run_replay_id r) (run_scenario_id r) (run_session_trace r) (run_source_mode r)
    (run_state r) (run_pacing r) (run_sequence r) (run_error r) rt (run_thread r) (run_step_target r)
    (run_pending_resume r) (run_pending_steps r) (run_findings_emitted r) (run_windows_total r)
    (run_cancel_requested r).
Definition with_thread (pc : WorkerPc) (r : Run) : Run :=
  mk_run (run_replay_id r) (run_scenario_id r) (run_session_trace r) (run_source_mode r)
    (run_state r) (run_pacing r) (run_sequence r) (run_error r) (run_runtime r) (Some pc)
    (run_step_target r) (run_pending_resume r) (run_pending_steps r) (run_findings_emitted r)
    (run_windows_total r) (run_cancel_requested r).
Definition with_step_target (n : Z) (r : Run) : Run :=
  mk_run (run_replay_id r) (run_scenario_id r) (run_session_trace r) (run_source_mode r)
    (run_state r) (run_pacing r) (run_sequence r) (run_error r) (run_runtime r) (run_thread r)
    (Some n) (run_pending_resume r) (run_pending_steps r) (run_findings_emitted r)
    (run_windows_total r) (run_cancel_requested r).
Definition with_pending (resume : bool) (steps : Z) (r : Run) : Run :=
  mk_run (run_replay_id r) (run_scenario_id r) (run_session_trace r) (run_source_mode r)
    (run_state r) (run_pacing r) (run_sequence r) (run_error r) (run_runtime r) (run_thread r)
    (run_step_target r) resume steps (run_findings_emitted r) (run_windows_total r)
    (run_cancel_requested r).
Definition with_findings (l : list (string * Z)) (r : Run) : Run :=
  mk_run (run_replay_id r) (run_scenario_id r) (run_session_trace r) (run_source_mode r)
    (run_state r) (run_pacing r) (run_sequence r) (run_error r) (run_runtime r) (run_thread r)
    (run_step_target r) (run_pending_resume r) (run_pending_steps r) l (run_windows_total r)
    (run_cancel_requested r).
Definition with_cancel_requested (r : Run) : Run :=
  mk_run (run_replay_id r) (run_scenario_id r) (run_session_trace r) (run_source_mode r)
    (run_state r) (run_pacing r) (run_sequence r) (run_error r) (run_runtime r) (run_thread r)
    (run_step_target r) (run_pending_resume r) (run_pending_steps r) (run_findings_emitted r)
    (run_windows_total r) true.

Definition map_control (f : ReplayControl → ReplayControl) (rt : Runtime) : Runtime :=
  mk_runtime (f (rt_control rt)) (rt_windows_seen rt) (rt_last_wid rt) (rt_replay_speed rt)
    (rt_summary_windows rt) (rt_closed rt).
Definition on_control (f : ReplayControl → ReplayControl) (r : Run) : Run :=
  with_runtime (map_control f <$> run_runtime r) r.

(** [_Run.status]. *)
Record ReplayStatusV1 := mk_status {
  st_replay_id : string;
  st_session_trace : string;
  st_state : ReplayState;
  st_source_mode : string;
  st_pacing : PacingSpeed;
  st_windows_total : option Z;
  st_windows_processed : Z;
  st_last_window_id : option Z;
  st_sequence_number : Z;
  st_findings_emitted : list (string * Z);
  st_error : option string;
}.
Definition run_status (r : Run) : ReplayStatusV1 :=
  let diag := run_runtime r ≫= rt_summary_windows in
  mk_status (run_replay_id r) (run_session_trace r) (run_state r) (run_source_mode r) (run_pacing r)
    (match diag with Some n => Some n | None => run_windows_total r end)
    (match run_runtime r with Some rt => rt_windows_seen rt | None => 0 end)
    (run_runtime r ≫= rt_last_wid) (run_sequence r) (run_findings_emitted r) (run_error r).

(** ** The controller *)
Definition BLACKBOARD_OPS_RUN_ID : string := "blackboard-ops".
Definition ORCHESTRATION_OPS_RUN_ID : string := "orchestration-ops".

Record Controller := mk_controller {
  ct_broker : EventBroker;
  ct_operational_sequences : gmap string Z;
  ct_objects : gmap string Run;
  ct_runs : gset string;
  ct_active_id : option string;
}.
Definition new_controller (broker : EventBroker) : Controller :=
  mk_controller broker {[BLACKBOARD_OPS_RUN_ID := 0; ORCHESTRATION_OPS_RUN_ID := 0]} ∅ ∅ None.

Definition CM (A : Type) : Type := M Controller A.

Definition with_objects (f : gmap string Run → gmap string Run) (c : Controller) : Controller :=
  mk_controller (ct_broker c) (ct_operational_sequences c) (f (ct_objects c)) (ct_runs c)
    (ct_active_id c).
Definition with_broker (b : EventBroker) (c : Controller) : Controller :=
  mk_controller b (ct_operational_sequences c) (ct_objects c) (ct_runs c) (ct_active_id c).
Definition with_registered (runs : gset string) (active : option string) (c : Controller)
    : Controller :=
  mk_controller (ct_broker c) (ct_operational_sequences c) (ct_objects c) runs active.

Definition update_run (replay_id : string) (f : Run → Run) : CM unit :=
  modify (with_objects (alter f replay_id)).

(** [ControllerError(code, message)]; the status code is left out. *)
Definition controller_error {A} (code message : string) : CM A :=
  throw (OtherError ("ControllerError/" +:+ code)) message.

(** [_require]. *)
Definition require_run (replay_id : string) : CM Run := λ c,
  match ct_objects c !! replay_id with
  | Some r => if bool_decide (replay_id ∈ ct_runs c) then (Ok r, c)
              else controller_error "unknown_replay" ("unknown replay " +:+ replay_id) c
  | None => controller_error "unknown_replay" ("unknown replay " +:+ replay_id) c
  end.

(** ** Publishing *)
Definition event_id_of (stream : string) (seq : Z) : string := stream +:+ "-" +:+ fmt_int seq.

Definition envelope_of (r : Run) (et : ReplayEventType) (d : EventData) : EventEnvelopeV1 :=
  mk_event (run_replay_id r) (event_id_of (run_replay_id r) (run_sequence r)) (run_sequence r) et
    (ed_logical_timestamp d) (ed_window_id d) (ed_source_component d) (ed_entity_id d)
    (ed_payload d)
    [("session_trace", JStr (run_session_trace r)); ("source_mode", JStr (run_source_mode r))].

(** [_publish]: the number is taken before the envelope is validated. *)
Definition publish (replay_id : string) (et : ReplayEventType) (d : EventData)
    : CM EventEnvelopeV1 := λ c,
  match ct_objects c !! replay_id with
  | None => throw KeyError "run" c
  | Some r =>
      let envelope := envelope_of r et d in
      let c1 := with_objects <[replay_id := with_sequence (run_sequence r + 1) r]> c in
      match event_validate envelope with
      | Raise e => (Raise e, c1)
      | Ok _ => (Ok envelope, with_broker (broker_publish envelope (ct_broker c1)).2 c1)
      end
  end.

Definition operational_envelope (stream : string) (seq : Z) (et : ReplayEventType) (d : EventData)
    (provenance_namespace : string) : EventEnvelopeV1 :=
  mk_event stream (event_id_of stream seq) seq et (ed_logical_timestamp d) (ed_window_id d)
    (ed_source_component d) (ed_entity_id d) (ed_payload d)
    [("namespace", JStr provenance_namespace)].

Definition publish_operational_event (stream : string) (et : ReplayEventType) (d : EventData)
    (provenance_namespace : string) : CM EventEnvelopeV1 := λ c,
  match ct_operational_sequences c !! stream with
  | None => throw ValueError ("unknown operational event stream " +:+ stream) c
  | Some seq =>
      let envelope := operational_envelope stream seq et d provenance_namespace in
      let c1 := mk_controller (ct_broker c) (<[stream := seq + 1]> (ct_operational_sequences c))
                  (ct_objects c) (ct_runs c) (ct_active_id c) in
      match event_validate envelope with
      | Raise e => (Raise e, c1)
      | Ok _ => (Ok envelope, with_broker (broker_publish envelope (ct_broker c1)).2 c1)
      end
  end.

(** [_publish_blackboard_event]: to the replay's stream while it is registered. *)
Definition publish_blackboard_event (et : ReplayEventType) (d : EventData)
    (replay_id : option string) : CM unit := λ c,
  let registered := match replay_id with
                    | Some id => bool_decide (id ∈ ct_runs c)
                    | None => false
                    end in
  let d := mk_event_data (ed_payload d) (ed_window_id d) (ed_logical_timestamp d) (ed_entity_id d)
             "backend.app.services.blackboard_service" in
  match replay_id, registered with
  | Some id, true => (_ ← publish id et d; mret tt) c
  | _, _ => (_ ← publish_operational_event BLACKBOARD_OPS_RUN_ID et d "blackboard-operational";
             mret tt) c
  end.

Definition publish_orchestration_event (et : ReplayEventType) (d : EventData) : CM unit :=
  _ ← publish_operational_event ORCHESTRATION_OPS_RUN_ID et
        (mk_event_data (ed_payload d) (ed_window_id d) (ed_logical_timestamp d) (ed_entity_id d)
           "backend.app.services.orchestration_service") "orchestration-operational";
  mret tt.

Definition event_stream_exists (stream : string) (c : Controller) : bool :=
  bool_decide (stream ∈ ct_runs c) || is_some (ct_operational_sequences c !! stream).

(** ** Controls

    Each is the block under the lock; [play], [pause] and [step] then publish,
    which other threads may precede. *)
Definition thread_alive (r : Run) : bool :=
  match run_thread r with Some WkDone | None => false | Some _ => true end.

Definition ensure_active_runnable (r : Run) : CM unit :=
  if run_cancel_requested r then
    controller_error "replay_stopping" ("replay " +:+ run_replay_id r +:+ " is stopping")
  else if bool_decide (run_state r = FAILED) then
    controller_error "replay_failed"
      ("replay " +:+ run_replay_id r +:+ " has failed; restart required")
  else if bool_decide (run_state r = COMPLETED) then
    controller_error "replay_completed"
      ("replay " +:+ run_replay_id r +:+ " already completed; restart required")
  else mret tt.

Definition assert_runtime (r : Run) : CM unit :=
  guardM (is_some (run_runtime r)) AssertionError "PAUSED implies a live runtime".

Definition play_block (replay_id : string) : CM (option ReplayEventType) :=
  r ← require_run replay_id;
  _ ← ensure_active_runnable r;
  if bool_decide (run_state r = RUNNING) then
    controller_error "invalid_transition" "replay already running"
  else if bool_decide (run_state r = CREATED) then
    if thread_alive r then controller_error "invalid_transition" "replay already running"
    else _ ← update_run replay_id (with_thread WkStart); mret None
  else
    _ ← assert_runtime r;
    _ ← update_run replay_id (λ r, with_state RUNNING (on_control (set_running None) r));
    mret (Some REPLAY_RESUMED).
Definition play (replay_id : string) : CM unit :=
  et ← play_block replay_id;
  match et with
  | Some et => _ ← publish replay_id et (plain_event []); mret tt
  | None => mret tt
  end.
Definition resume (replay_id : string) : CM unit := play replay_id.

Definition pause_block (replay_id : string) : CM unit :=
  r ← require_run replay_id;
  _ ← ensure_active_runnable r;
  if negb (bool_decide (run_state r = RUNNING)) then
    controller_error "invalid_transition" "pause requires RUNNING state"
  else update_run replay_id (λ r, with_state PAUSED (on_control (set_pause false) r)).
Definition pause (replay_id : string) : CM unit :=
  _ ← pause_block replay_id;
  _ ← publish replay_id REPLAY_PAUSED (plain_event []); mret tt.

Definition step_block (replay_id : string) : CM Z :=
  r ← require_run replay_id;
  _ ← ensure_active_runnable r;
  if negb (bool_decide (run_state r = PAUSED)) then
    controller_error "invalid_transition" "step requires PAUSED"
  else
    _ ← assert_runtime r;
    let target := match run_runtime r with Some rt => rt_windows_seen rt + 1 | None => 0 end in
    _ ← update_run replay_id (λ r, with_step_target target (on_control (set_running (Some target)) r));
    mret target.
Definition step_replay (replay_id : string) : CM unit :=
  target ← step_block replay_id;
  _ ← publish replay_id REPLAY_STEPPED (plain_event [("requested_windows", JInt target)]);
  mret tt.

Definition set_pacing (replay_id : string) (speed : string + PacingSpeed) : CM unit :=
  speed ← lift (match speed with inl s => parse_pacing s | inr p => Ok p end);
  r ← require_run replay_id;
  _ ← ensure_active_runnable r;
  update_run replay_id (λ r, with_pacing speed
    (with_runtime ((λ rt, mk_runtime (rt_control rt) (rt_windows_seen rt) (rt_last_wid rt)
       (pacing_value speed) (rt_summary_windows rt) (rt_closed rt)) <$> run_runtime r) r)).

Definition status (replay_id : string) : CM ReplayStatusV1 :=
  r ← require_run replay_id; mret (run_status r).

(** [run.cancel_requested = True], and [control.cancel()] on a live runtime. *)
Definition request_cancel (r : Run) : Run := with_cancel_requested (on_control control_cancel r).

(** The first block of [shutdown]. *)
Definition shutdown_block : CM unit := modify (λ c,
  with_objects (map_imap (λ id r,
    Some (if bool_decide (id ∈ ct_runs c) then request_cancel r else r))) c).

(** ** Creation and restart

    The operation that holds the lifecycle lock is at a [LifecyclePc]; its blocks
    and its two joins interleave with everything else.  A join that ends by its
    timeout sees the thread still alive. *)
Record SessionCapabilities := mk_caps {
  cap_supported_source_modes : list string;
  cap_window_count : option Z;
}.
Record CreateArgs := mk_create_args {
  ca_session_id : string;
  ca_source_mode : string;
  ca_pacing : string + PacingSpeed;
}.
(** The overrides of [restart]. *)
Record RestartArgs := mk_restart_args {
  ra_session_id : option string;
  ra_source_mode : option string;
  ra_pacing : option (string + PacingSpeed);
}.

Inductive LifecyclePc :=
  | LcReturn (out : result string)
  | LcCancel (replay_id : string) (a : RestartArgs)
  | LcRestartJoin (replay_id : string) (a : RestartArgs)
  | LcRestartPop (replay_id : string) (a : RestartArgs)
  | LcCheck (restart : bool) (a : CreateArgs)
  | LcJoin (restart : bool) (a : CreateArgs) (terminal : string) (windows : option Z)
  | LcPop (restart : bool) (a : CreateArgs) (terminal : string) (windows : option Z)
  | LcRegister (restart : bool) (a : CreateArgs) (windows : option Z)
  | LcCreated (restart : bool) (replay_id : string)
  | LcPlay (replay_id : string).

(** Unregister a run and clear the active identifier if it is this one. *)
Definition pop_run (replay_id : string) : CM unit := modify (λ c,
  with_registered (ct_runs c ∖ {[replay_id]})
    (if bool_decide (ct_active_id c = Some replay_id) then None else ct_active_id c) c).

Section lifecycle.
Context (capabilities : string → option SessionCapabilities).
(** [opaque_session_trace]. *)
Context (session_trace : string → string).

Definition is_terminal (s : ReplayState) : bool :=
  match s with COMPLETED | FAILED => true | _ => false end.

(** The checks of [_create_replay] under the lock: the terminal run to join, if
    any, and the catalogue's window count. *)
Definition create_check (a : CreateArgs) : CM (option string * option Z) := λ c,
  let active := match ct_active_id c with
                | Some id => if bool_decide (id ∈ ct_runs c)
                             then r ← ct_objects c !! id; Some (id, r) else None
                | None => None
                end in
  (_ ← match active with
       | Some (id, r) =>
           if negb (is_terminal (run_state r))
           then controller_error "replay_already_active" ("replay " +:+ id +:+ " is already active")
           else mret tt
       | None => mret tt
       end;
   match capabilities (ca_session_id a) with
   | None => controller_error "unknown_session" ("unknown session " +:+ ca_session_id a)
   | Some caps =>
       if negb (bool_decide (ca_source_mode a ∈ cap_supported_source_modes caps)) then
         controller_error "unsupported_source_mode"
           ("source mode " +:+ ca_source_mode a +:+ " unavailable for this session")
       else mret (fst <$> active, cap_window_count caps)
   end) c.

Definition create_register (fresh : string) (a : CreateArgs) (windows : option Z) : CM string :=
  pacing ← lift (match ca_pacing a with inl s => parse_pacing s | inr p => Ok p end);
  let r := new_run fresh (ca_session_id a) (session_trace (ca_session_id a)) (ca_source_mode a)
             pacing windows in
  _ ← modify (λ c, with_registered ({[fresh]} ∪ ct_runs c) (Some fresh)
                     (with_objects <[fresh := r]> c));
  mret fresh.

(** The run a [restart] creates: the overrides over the old run's values. *)
Definition restart_target (r : Run) (a : RestartArgs) : result CreateArgs :=
  pacing ← match ra_pacing a with
           | Some (inl s) => inr <$> parse_pacing s
           | Some p => Ok p
           | None => Ok (inr (run_pacing r))
           end;
  Ok (mk_create_args (default (run_scenario_id r) (ra_session_id a))
        (default (run_source_mode r) (ra_source_mode a)) pacing).

(** One block of the lifecycle operation; an exception ends it. *)
Definition lifecycle_block (fresh : string) (pc : LifecyclePc) : CM LifecyclePc :=
  match pc with
  | LcReturn out => mret (LcReturn out)
  | LcCancel id a =>
      r ← require_run id;
      _ ← update_run id request_cancel;
      mret (LcRestartJoin id a)
  | LcRestartJoin id a => λ c,
      match ct_objects c !! id with
      | Some r => if thread_alive r
                  then controller_error "restart_timeout"
                         ("replay " +:+ id +:+ " did not stop before restart timeout") c
                  else (Ok (LcRestartPop id a), c)
      | None => (Ok (LcRestartPop id a), c)
      end
  | LcRestartPop id a =>
      r ← gets (λ c, ct_objects c !! id);
      _ ← pop_run id;
      match r with
      | Some r => a ← lift (restart_target r a); mret (LcCheck true a)
      | None => throw KeyError "run"
      end
  | LcCheck restart a =>
      '(terminal, windows) ← create_check a;
      mret match terminal with
           | Some id => LcJoin restart a id windows
           | None => LcRegister restart a windows
           end
  | LcJoin restart a id windows => λ c,
      match ct_objects c !! id with
      | Some r => if thread_alive r
                  then controller_error "replay_stopping"
                         ("replay " +:+ id +:+ " is still finalizing") c
                  else (Ok (LcPop restart a id windows), c)
      | None => (Ok (LcPop restart a id windows), c)
      end
  | LcPop restart a id windows => _ ← pop_run id; mret (LcRegister restart a windows)
  | LcRegister restart a windows =>
      id ← create_register fresh a windows; mret (LcCreated restart id)
  | LcCreated restart id =>
      trace ← gets (λ c, match ct_objects c !! id with Some r => run_session_trace r | None => "" end);
      _ ← publish id REPLAY_CREATED (plain_event [("session_trace", JStr trace)]);
      mret (if restart then LcPlay id else LcReturn (Ok id))
  | LcPlay id => _ ← play_block id; mret (LcReturn (Ok id))
  end.

Definition lifecycle_step (fresh : string) (pc : LifecyclePc) (c : Controller)
    : LifecyclePc * Controller :=
  match lifecycle_block fresh pc c with
  | (Ok pc', c') => (pc', c')
  | (Raise e, c') => (LcReturn (Raise e), c')
  end.
End lifecycle.

(** ** The worker *)
Inductive WorkerChoice :=
  | ChNext
  | ChBuild (out : result Runtime)
  | ChEmit (et : ReplayEventType) (d : EventData)
  | ChWindow (wid : Z)
  | ChSummary (summary : ReplaySummary)
  | ChSnapshots (events : list (ReplayEventType * EventData))
  | ChRaise (e : exn).

Definition ReplayCancelledError : exn_class := OtherError "ReplayCancelledError".
Definition cancelled (msg : string) : exn := Exn ReplayCancelledError msg.
Definition is_cancelled (e : exn) : bool := bool_decide (exn_type e = ReplayCancelledError).

Definition goto (replay_id : string) (pc : WorkerPc) : CM unit :=
  update_run replay_id (with_thread pc).
(** Publish and go on; a refused envelope fails the replay. *)
Definition emit_then (replay_id : string) (et : ReplayEventType) (d : EventData) (pc : WorkerPc)
    : CM unit := λ c,
  match publish replay_id et d c with
  | (Ok _, c') => goto replay_id pc c'
  | (Raise e, c') => goto replay_id (WkFail e) c'
  end.

(** One line of [checkpoint]: [None] when [wait()] blocks. *)
Definition checkpoint_line (n : Z) (pc : CheckpointPc) (k : ReplayControl)
    : option (result (option CheckpointPc) * ReplayControl) :=
  let stop := raise ReplayCancelledError "replay cancelled by controller" in
  match pc with
  | CpCancelled => Some (if rc_cancelled k then stop else Ok (Some CpLimit), k)
  | CpLimit => Some (Ok (Some match rc_step_limit k with Some _ => CpCompare | None => CpTest end), k)
  | CpCompare => Some (match rc_step_limit k with
                       | Some limit => Ok (Some (if limit <=? n then CpClear else CpTest))
                       | None => raise TypeError "'>=' not supported between instances"
                       end, k)
  | CpClear => Some (Ok (Some CpTest), set_pause false k)
  | CpTest => Some (Ok (Some (if rc_pause_event k then CpRecheck else CpWait)), k)
  | CpWait => if rc_pause_event k then Some (Ok (Some CpRecheck), k) else None
  | CpRecheck => Some (if rc_cancelled k then stop else Ok None, k)
  end.

(** The block in which the worker enters the running phase. *)
Definition enter_run (r : Run) : Run :=
  let r := if bool_decide (run_state r = CREATED) then with_state RUNNING r else r in
  let r := if run_pending_resume r then
             let r := with_pending false (run_pending_steps r) (on_control (set_running None) r) in
             if bool_decide (run_state r = PAUSED) then with_state RUNNING r else r
           else r in
  if negb (run_pending_steps r =? 0) && bool_decide (run_state r = PAUSED) then
    with_pending (run_pending_resume r) 0
      (on_control (set_running (Some (run_pending_steps r))) r)
  else r.

Definition complete_run (summary : ReplaySummary) (r : Run) : Run :=
  with_findings [("network", rs_network summary); ("behavior", rs_behavior summary)]
    (with_state COMPLETED
       (with_runtime ((λ rt, mk_runtime (rt_control rt) (rt_windows_seen rt) (rt_last_wid rt)
          (rt_replay_speed rt) (Some (rs_windows summary)) (rt_closed rt)) <$> run_runtime r) r)).

Definition fail_run (e : exn) (r : Run) : Run :=
  with_error (if is_cancelled e then "cancelled by restart"
              else exn_class_name (exn_type e) +:+ ": " +:+ exn_msg e) (with_state FAILED r).

Definition saw_window (wid : Z) (r : Run) : Run :=
  with_runtime ((λ rt, mk_runtime (rt_control rt) (rt_windows_seen rt + 1) (Some wid)
    (rt_replay_speed rt) (rt_summary_windows rt) (rt_closed rt)) <$> run_runtime r) r.
Definition close_runtime (r : Run) : Run :=
  with_runtime ((λ rt, mk_runtime (rt_control rt) (rt_windows_seen rt) (rt_last_wid rt)
    (rt_replay_speed rt) (rt_summary_windows rt) true) <$> run_runtime r) r.

Definition window_event (wid : Z) : EventData :=
  mk_event_data [] (Some wid) None None CONTROLLER_COMPONENT.

(** One step of the worker of [replay_id] at [pc]; [None] when the choice is not
    one the worker has there, or it is blocked. *)
Definition worker_step (ch : WorkerChoice) (replay_id : string) (c : Controller)
    : option Controller :=
  r ← ct_objects c !! replay_id;
  pc ← run_thread r;
  let go (f : Run → Run) (pc : WorkerPc) :=
    Some (update_run replay_id (λ r, with_thread pc (f r)) c).2 in
  let run (m : CM unit) := Some (m c).2 in
  match pc, ch with
  | WkStart, ChNext =>
      go id (if run_cancel_requested r then WkFail (cancelled "cancelled before runtime build")
             else WkBuild)
  | WkBuild, ChBuild (Ok rt) => go id (WkAttach rt)
  | WkBuild, ChBuild (Raise e) => go id (WkFail e)
  | WkAttach rt, ChNext =>
      if run_cancel_requested r then go id (WkFail (cancelled "cancelled after runtime build"))
      else go (with_runtime (Some rt)) WkEnter
  | WkEnter, ChNext => go enter_run WkStarted
  | WkStarted, ChNext =>
      run (emit_then replay_id REPLAY_STARTED (plain_event [("source_mode", JStr (run_source_mode r))])
             (WkCheckpoint false 0 CpCancelled))
  | WkCheckpoint after n cp, ChNext =>
      rt ← run_runtime r;
      '(out, k) ← checkpoint_line n cp (rt_control rt);
      go (on_control (λ _, k))
        match out with
        | Raise e => WkFail e
        | Ok (Some cp') => WkCheckpoint after n cp'
        | Ok None => if after then WkCheckpoint false n CpCancelled else WkTop n
        end
  | WkTop n, ChSummary summary => go id (WkComplete summary)
  | WkTop n, ChWindow wid =>
      run (emit_then replay_id WINDOW_STARTED (window_event wid) (WkWindow n wid))
  | WkWindow n wid, ChEmit et d => run (emit_then replay_id et d (WkWindow n wid))
  | WkWindow n wid, ChNext => go (saw_window wid) (WkWindowDone (n + 1) wid)
  | WkWindowDone n wid, ChNext =>
      run (emit_then replay_id WINDOW_COMPLETED (window_event wid) (WkCheckpoint true n CpCancelled))
  | WkComplete summary, ChSnapshots events => go (complete_run summary) (WkSnapshots summary events)
  | WkSnapshots summary ((et, d) :: events), ChNext =>
      run (emit_then replay_id et d (WkSnapshots summary events))
  | WkSnapshots summary [], ChNext =>
      run (emit_then replay_id REPLAY_COMPLETED
             (plain_event [("windows", JInt (rs_windows summary));
                           ("defended_blast_radius", JFloat (rs_defended_blast_radius summary))])
             WkClose)
  | (WkStarted | WkTop _ | WkWindow _ _ | WkSnapshots _ _), ChRaise e => go id (WkFail e)
  | WkFail e, ChNext =>
      let c1 := (update_run replay_id (λ r, with_thread WkClose (fail_run e r)) c).2 in
      if is_cancelled e then Some c1
      else Some (publish replay_id REPLAY_FAILED
                   (plain_event [("error", JStr (exn_class_name (exn_type e) +:+ ": " +:+ exn_msg e))]) c1).2
  | WkClose, ChNext => go close_runtime WkDone
  | _, _ => None
  end.

(** ** Interleaving *)
Section steps.
Context (capabilities : string → option SessionCapabilities).
Context (session_trace : string → string).

Inductive controller_step : LifecyclePc * Controller → LifecyclePc * Controller → Prop :=
  | step_create a out c :
      controller_step (LcReturn out, c) (LcCheck false a, c)
  | step_restart id a out c :
      controller_step (LcReturn out, c) (LcCancel id a, c)
  | step_lifecycle fresh pc c :
      ct_objects c !! fresh = None → ct_operational_sequences c !! fresh = None →
      controller_step (pc, c) (lifecycle_step capabilities session_trace fresh pc c)
  | step_worker ch id pc c c' :
      worker_step ch id c = Some c' → controller_step (pc, c) (pc, c')
  | step_play id pc c : controller_step (pc, c) (pc, (play_block id c).2)
  | step_pause id pc c : controller_step (pc, c) (pc, (pause_block id c).2)
  | step_step id pc c : controller_step (pc, c) (pc, (step_block id c).2)
  | step_pacing id speed pc c : controller_step (pc, c) (pc, (set_pacing id speed c).2)
  | step_shutdown pc c : controller_step (pc, c) (pc, (shutdown_block c).2)
  | step_publish id et d pc c : controller_step (pc, c) (pc, (publish id et d c).2)
  | step_operational stream et d ns pc c :
      controller_step (pc, c) (pc, (publish_operational_event stream et d ns c).2)
  | step_broker op pc c :
      (∀ env, op ≠ OpPublish env) →
      controller_step (pc, c) (pc, with_broker (broker_op op (ct_broker c)).2 c).

(** What can happen to a controller over a new broker. *)
Definition reachable (ring queue : Z) (s : LifecyclePc * Controller) : Prop :=
  ∃ broker out, new_broker ring queue = Ok broker ∧
    rtc controller_step (LcReturn out, new_controller broker) s.
End steps.
