(* ===== verification/EvReplayFacts.v ===== *)
(** * Invariant of the replay controller

    What one run can do ([run_step]), that every step of the controller but the
    lifecycle operation's is such a step of each run ([objects_step]), and the
    invariant of all reachable states: at most one registered run, no worker
    outside it, states that agree with the worker's position. *)

From S2P Require Import Prelude PyString Json Firewall EvBroker EvReplay.

(** ** Runs *)
Definition dead (r : Run) : Prop := thread_alive r = false.

(** The state agrees with the worker's position. *)
Definition state_at (pc : option WorkerPc) (s : ReplayState) : Prop :=
  match pc with
  | None | Some (WkStart | WkBuild | WkAttach _ | WkEnter) => s = CREATED
  | Some (WkStarted | WkCheckpoint _ _ _ | WkTop _ | WkWindow _ _ | WkWindowDone _ _ | WkComplete _) =>
      s = RUNNING ∨ s = PAUSED
  | Some (WkSnapshots _ _) => s = COMPLETED
  | Some (WkFail _) => s ≠ FAILED
  | Some (WkClose | WkDone) => is_terminal s = true
  end.
Definition needs_runtime (pc : option WorkerPc) : bool :=
  match pc with
  | Some (WkEnter | WkStarted | WkCheckpoint _ _ _ | WkTop _ | WkWindow _ _ | WkWindowDone _ _
         | WkComplete _ | WkSnapshots _ _) => true
  | _ => false
  end.

Record run_ok (id : string) (r : Run) : Prop := {
  ro_id : run_replay_id r = id;
  ro_state : state_at (run_thread r) (run_state r);
  ro_runtime : needs_runtime (run_thread r) = true ∨ run_state r = RUNNING ∨ run_state r = PAUSED →
    is_some (run_runtime r) = true;
  ro_pending : run_pending_resume r = false ∧ run_pending_steps r = 0;
  ro_sequence : 0 ≤ run_sequence r;
}.

(** The state changes a run can make, and what makes them: a worker that enters its
    running phase, a pause, a resumption, a worker that completes, and one that fails.
    The last leads to FAILED from any other state, COMPLETED included. *)
Inductive transition (r : Run) (s : ReplayState) : Prop :=
  | tr_stays : s = run_state r → transition r s
  | tr_starts : run_thread r = Some WkEnter → run_state r = CREATED → s = RUNNING → transition r s
  | tr_pauses : run_state r = RUNNING → s = PAUSED → transition r s
  | tr_resumes : run_state r = PAUSED → s = RUNNING → transition r s
  | tr_completes summary : run_thread r = Some (WkComplete summary) →
      run_state r = RUNNING ∨ run_state r = PAUSED → s = COMPLETED → transition r s
  | tr_fails e : run_thread r = Some (WkFail e) → run_state r ≠ FAILED → s = FAILED → transition r s.
Ltac stays := solve [done | by apply tr_stays | by apply tr_pauses | by apply tr_resumes].

(** Where a request to cancel reaches the worker: outside the part of
    [checkpoint] between its first test and [clear()]. *)
Definition safe_pc (pc : WorkerPc) : bool :=
  match pc with WkCheckpoint _ _ (CpLimit | CpCompare | CpClear) => false | _ => true end.

(** Cancellation was requested and has reached the control. *)
Record stopping (r : Run) : Prop := {
  sp_requested : run_cancel_requested r = true;
  sp_safe : ∀ pc, run_thread r = Some pc → safe_pc pc = true;
  sp_control : ∀ rt, run_runtime r = Some rt →
    rc_cancelled (rt_control rt) = true ∧ rc_pause_event (rt_control rt) = true;
}.

Record run_step (registered : bool) (id : string) (r r' : Run) : Prop := {
  rn_ok : run_ok id r';
  rn_transition : transition r (run_state r');
  rn_cancel : run_cancel_requested r = true → run_cancel_requested r' = true;
  rn_sequence : run_sequence r ≤ run_sequence r';
  rn_dead : dead r → dead r' ∨
    registered = true ∧ run_cancel_requested r = false ∧ is_terminal (run_state r) = false;
  rn_stopping : stopping r → stopping r';
}.

Lemma stopping_same r r' :
  run_cancel_requested r' = run_cancel_requested r → run_thread r' = run_thread r →
  run_runtime r' = run_runtime r → stopping r → stopping r'.
Proof. intros Hc Ht Hr [? ? ?]. constructor; rewrite ?Hc, ?Ht, ?Hr; done. Qed.

Lemma running_not_stopping r : run_cancel_requested r = false → ¬ stopping r.
Proof. intros Hc [Hs _ _]. congruence. Qed.

Lemma stopping_moves r r' pc :
  run_cancel_requested r' = run_cancel_requested r → run_thread r' = Some pc → safe_pc pc = true →
  (∀ rt', run_runtime r' = Some rt' → ∃ rt, run_runtime r = Some rt ∧ rt_control rt' = rt_control rt) →
  stopping r → stopping r'.
Proof.
  intros Hc Ht Hpc Hr [S1 S2 S3]. constructor.
  - congruence.
  - rewrite Ht. by intros ? [= <-].
  - intros rt' Hrt'. destruct (Hr rt' Hrt') as (rt & Hrt & ->). by apply S3.
Qed.

Lemma run_step_refl b id r : run_ok id r → run_step b id r r.
Proof. intros Hr. constructor; try stays. by left. Qed.

Ltac run_cases r := destruct r as [rid sc tr mo st pa sq er rt th tg pr ps fi wt ca]; cbn in *.

Lemma with_sequence_step b id r : run_ok id r → run_step b id r (with_sequence (run_sequence r + 1) r).
Proof.
  intros [Hi Hs Hr Hp Hq]. run_cases r. constructor; cbn; try stays; [| lia | by left | by apply stopping_same].
  constructor; cbn; try done. lia.
Qed.

(** ** Objects *)
Record objects_step (c c' : Controller) : Prop := {
  os_runs : ct_runs c' = ct_runs c;
  os_active : ct_active_id c' = ct_active_id c;
  os_dom : dom (ct_objects c') = dom (ct_objects c);
  os_step : ∀ id r, ct_objects c !! id = Some r → run_ok id r →
    ∃ r', ct_objects c' !! id = Some r' ∧ run_step (bool_decide (id ∈ ct_runs c)) id r r';
}.

Lemma objects_step_refl c : objects_step c c.
Proof.
  constructor; [done.. |]. intros id r Hr Hok. exists r. split; [done |]. by apply run_step_refl.
Qed.

(** Changing one run. *)
Lemma update_run_step id f c :
  (∀ r, ct_objects c !! id = Some r → run_ok id r → run_step (bool_decide (id ∈ ct_runs c)) id r (f r)) →
  objects_step c (update_run id f c).2.
Proof.
  intros Hf. constructor; cbn; try done.
  - apply dom_alter_L.
  - intros id' r Hr Hok. destruct (decide (id = id')) as [->|Hne].
    + exists (f r). rewrite lookup_alter_eq, Hr. split; [done |]. by apply Hf.
    + exists r. rewrite lookup_alter_ne by done. split; [done |]. by apply run_step_refl.
Qed.

Lemma with_broker_step c c' b : objects_step c c' → objects_step c (with_broker b c').
Proof. by intros [? ? ? ?]. Qed.

Lemma publish_state id et d c :
  ∃ out b, publish id et d c = (out, match ct_objects c !! id with
    | Some r => with_broker b (update_run id (λ r, with_sequence (run_sequence r + 1) r) c).2
    | None => c
    end) ∧ (ct_objects c !! id = None → out = raise KeyError "run").
Proof.
  unfold publish. destruct (ct_objects c !! id) as [r|] eqn:Hr; [|by exists (raise KeyError "run"), (ct_broker c)].
  assert (Hc : with_objects <[id:=with_sequence (run_sequence r + 1) r]> c =
    (update_run id (λ r, with_sequence (run_sequence r + 1) r) c).2).
  { cbn. unfold with_objects. f_equal. apply map_eq. intros i. destruct (decide (i = id)) as [->|].
    - by rewrite lookup_insert_eq, lookup_alter_eq, Hr.
    - by rewrite lookup_insert_ne, lookup_alter_ne. }
  rewrite Hc. destruct (event_validate _).
  - eexists _, _. split; [reflexivity | done].
  - exists (Raise e), (ct_broker c). split; [|done]. by destruct c.
Qed.

Lemma publish_step id et d c : objects_step c (publish id et d c).2.
Proof.
  destruct (publish_state id et d c) as (out & b & -> & _). cbn.
  destruct (ct_objects c !! id) eqn:Hr; [|apply objects_step_refl].
  apply with_broker_step, update_run_step. intros r' _ Hok. by apply with_sequence_step.
Qed.

Lemma objects_step_publish c c1 id et d :
  objects_step c c1 → objects_step c (publish id et d c1).2.
Proof.
  intros [R A D S]. destruct (publish_state id et d c1) as (out & b & -> & _). cbn.
  destruct (ct_objects c1 !! id) as [r1|] eqn:Hr1; [|by constructor].
  constructor; cbn; [done | done | by rewrite dom_alter_L |].
  intros id' r Hr Hok. destruct (S id' r Hr Hok) as (r' & Hr' & [O L C Q X Y]).
  destruct (decide (id = id')) as [->|Hne]; [|rewrite lookup_alter_ne by done; by exists r'].
  exists (with_sequence (run_sequence r' + 1) r'). rewrite lookup_alter_eq, Hr'. split; [done |].
  constructor; try done.
  - destruct O. constructor; cbn; try done. lia.
  - cbn. lia.
  - intros Hst. apply (stopping_same r'); auto.
Qed.

(** ** Controls *)
Lemma require_run_ok id c out c' :
  require_run id c = (out, c') → c' = c ∧
  match out with
  | Ok r => ct_objects c !! id = Some r ∧ id ∈ ct_runs c
  | Raise e => True
  end.
Proof.
  unfold require_run. destruct (ct_objects c !! id) as [r|]; [case_bool_decide|]; intros [= <- <-]; done.
Qed.

Lemma ensure_runnable_ok r c out c' :
  ensure_active_runnable r c = (out, c') → c' = c ∧
  match out with
  | Ok _ => run_cancel_requested r = false ∧ is_terminal (run_state r) = false
  | Raise e => True
  end.
Proof.
  unfold ensure_active_runnable, controller_error, throw. destruct (run_cancel_requested r); [by intros [= <- <-] |].
  do 2 (case_bool_decide; [by intros [= <- <-] |]). intros [= <- <-]. split; [done |].
  split; [done |]. by destruct (run_state r).
Qed.

(** A block that requires a runnable run and then changes it. *)
Lemma runnable_block {A} (k : Run → CM A) id c :
  (∀ r, ct_objects c !! id = Some r → id ∈ ct_runs c → run_cancel_requested r = false →
        is_terminal (run_state r) = false → objects_step c (k r c).2) →
  objects_step c ((r ← require_run id; _ ← ensure_active_runnable r; k r) c).2.
Proof.
  intros Hk. unfold mbind, M_bind. destruct (require_run id c) as [out c1] eqn:Hr.
  apply require_run_ok in Hr as [-> Hr]. destruct out as [r|]; [|apply objects_step_refl].
  destruct Hr as [Hr Hin]. destruct (ensure_active_runnable r c) as [out c2] eqn:He.
  apply ensure_runnable_ok in He as [-> He]. destruct out; [|apply objects_step_refl].
  destruct He. by apply Hk.
Qed.

Lemma play_block_step id c : objects_step c (play_block id c).2.
Proof.
  apply runnable_block. intros r Hr Hin Hc Ht.
  case_bool_decide as H1; [apply objects_step_refl |].
  case_bool_decide as H2; [destruct (thread_alive r) eqn:Ha; [apply objects_step_refl |] |].
  - apply update_run_step. intros r' Hr' [Hi Hs Hrt Hp Hq]. assert (r' = r) as -> by congruence. unfold dead in *.
    pose proof (running_not_stopping r Hc) as Hns. run_cases r. subst st. constructor; cbn; try stays.
    + constructor; cbn; try stays. by intros [|[]].
    + intros _. right. by rewrite bool_decide_eq_true_2.
  - unfold mbind, M_bind, assert_runtime, guardM. destruct (is_some (run_runtime r)) eqn:Hs;
      [|apply objects_step_refl].
    apply update_run_step. intros r' Hr' [Hi Hst Hrt Hp Hq]. assert (r' = r) as -> by congruence.
    assert (Hpa : run_state r = PAUSED) by (by destruct (run_state r)).
    pose proof (running_not_stopping r Hc) as Hns. run_cases r. subst st. destruct rt as [rt|]; [|done]. constructor; cbn; try stays.
    + constructor; cbn; try stays. destruct th as [[]|]; naive_solver.
    + by left.
Qed.

Lemma pause_block_step id c : objects_step c (pause_block id c).2.
Proof.
  apply runnable_block. intros r Hr Hin Hc Ht.
  case_bool_decide as H1; cbn [negb]; [|apply objects_step_refl].
  apply update_run_step. intros r' Hr' [Hi Hs Hrt Hp Hq]. assert (r' = r) as -> by congruence.
  pose proof (running_not_stopping r Hc) as Hns. run_cases r. subst st. destruct rt as [rt|]; [|naive_solver]. constructor; cbn; try stays.
  - constructor; cbn; try stays. destruct th as [[]|]; naive_solver.
  - by left.
Qed.

Lemma step_block_step id c : objects_step c (step_block id c).2.
Proof.
  apply runnable_block. intros r Hr Hin Hc Ht.
  case_bool_decide as H1; cbn [negb]; [|apply objects_step_refl].
  unfold mbind, M_bind, assert_runtime, guardM. destruct (is_some (run_runtime r)) eqn:Hsome;
    [|apply objects_step_refl].
  apply update_run_step. intros r' Hr' [Hi Hs Hrt Hp Hq]. assert (r' = r) as -> by congruence.
  pose proof (running_not_stopping r Hc) as Hns. run_cases r. subst st. destruct rt as [rt|]; [|done]. constructor; cbn; try stays.
  by left.
Qed.

Lemma set_pacing_step id speed c : objects_step c (set_pacing id speed c).2.
Proof.
  unfold set_pacing. unfold mbind at 1, M_bind at 1, lift.
  destruct (match speed with inl s => parse_pacing s | inr p => Ok p end) as [p|e];
    [|apply objects_step_refl].
  apply runnable_block. intros r Hr Hin Hc Ht. apply update_run_step.
  intros r' Hr' [Hi Hs Hrt Hp Hq]. assert (r' = r) as -> by congruence.
  pose proof (running_not_stopping r Hc) as Hns. run_cases r. constructor; cbn; try stays.
  - constructor; cbn; try stays. destruct rt; naive_solver.
  - by left.
Qed.

Lemma request_cancel_step b id r : run_ok id r → run_step b id r (request_cancel r).
Proof.
  intros [Hi Hs Hrt Hp Hq]. run_cases r. constructor; cbn; try stays.
  - constructor; cbn; try stays. destruct rt; naive_solver.
  - by left.
  - intros [S1 S2 S3]. constructor; cbn; try stays. destruct rt; [|done]. by intros ? [= <-].
Qed.

Lemma shutdown_block_step c : objects_step c (shutdown_block c).2.
Proof.
  constructor; cbn; try stays.
  - apply set_eq. intros id. rewrite !elem_of_dom, map_lookup_imap.
    destruct (ct_objects c !! id); cbn; [split; by eexists | done].
  - intros id r Hr Hok. rewrite map_lookup_imap, Hr. cbn. eexists. split; [done |].
    case_bool_decide; [by apply request_cancel_step | by apply run_step_refl].
Qed.

(** ** The worker *)

(** A worker that moves on. *)
Lemma worker_moves b id r f pc :
  run_ok id r → thread_alive r = true → transition r (run_state (f r)) →
  run_ok id (with_thread pc (f r)) → run_cancel_requested (f r) = run_cancel_requested r →
  run_sequence r ≤ run_sequence (f r) → (stopping r → stopping (with_thread pc (f r))) →
  run_step b id r (with_thread pc (f r)).
Proof.
  intros Hok Ha Hl Hok' Hc Hs Hstop. constructor; try done.
  - cbn. by rewrite Hc.
  - unfold dead. congruence.
Qed.

Lemma emit_then_state id et d pc c r :
  ct_objects c !! id = Some r →
  ∃ b pc', (emit_then id et d pc c).2 =
    with_broker b (update_run id (λ r, with_thread pc' (with_sequence (run_sequence r + 1) r)) c).2 ∧
    (pc' = pc ∨ ∃ e, pc' = WkFail e).
Proof.
  intros Hr. unfold emit_then. destruct (publish_state id et d c) as (out & b & -> & _). rewrite Hr.
  assert (Hgo : ∀ pc', (goto id pc' (with_broker b
      (update_run id (λ r, with_sequence (run_sequence r + 1) r) c).2)).2 =
    with_broker b (update_run id (λ r, with_thread pc' (with_sequence (run_sequence r + 1) r)) c).2).
  { intros pc'. unfold goto, update_run, modify, with_objects, with_broker. cbn. f_equal.
    apply map_eq. intros i. destruct (decide (i = id)) as [->|].
    - by rewrite !lookup_alter_eq, Hr.
    - by rewrite !lookup_alter_ne. }
  destruct out; eexists b, _; (split; [apply Hgo |]); [by left | right; by eexists].
Qed.

Lemma emit_moves id et d pc c :
  safe_pc pc = true → (∀ r, ct_objects c !! id = Some r → thread_alive r = true ∧
     (run_ok id r → state_at (Some pc) (run_state r) ∧ run_state r ≠ FAILED ∧
        (needs_runtime (Some pc) = true → is_some (run_runtime r) = true))) →
  objects_step c (emit_then id et d pc c).2.
Proof.
  intros Hsafe H. destruct (ct_objects c !! id) as [r|] eqn:Hr.
  2:{ unfold emit_then. destruct (publish_state id et d c) as (out & b & -> & Hout). rewrite Hr.
      rewrite (Hout Hr). cbn. apply update_run_step. intros r' Hr'. congruence. }
  destruct (emit_then_state id et d pc c r Hr) as (b & pc' & -> & Hpc).
  apply with_broker_step, update_run_step. intros r' Hr' Hok.
  assert (r' = r) as -> by congruence.
  destruct (H r eq_refl) as [Ha Hst]. destruct (Hst Hok) as (Hs1 & Hs2 & Hs3).
  apply worker_moves; try done.
  - stays.
  - destruct Hok as [Hi Hs Hrt Hp Hq]. constructor; cbn; try done.
    + destruct Hpc as [->|[e ->]]; done.
    + intros [Hn|Hn]; [|by apply Hrt; right].
      destruct Hpc as [->|[e ->]]; [by apply Hs3 | done].
    + lia.
  - cbn. lia.
  - apply (stopping_moves _ _ pc'); try done; [by destruct Hpc as [->|[e ->]] |]. intros rt. by exists rt.
Qed.

Lemma fail_state r id : run_ok id r → thread_alive r = true → ∀ e, run_thread r = Some (WkFail e) →
  ∀ b, run_step b id r (with_thread WkClose (fail_run e r)).
Proof.
  intros [Hi Hs Hrt Hp Hq] Ha e He b.
  apply worker_moves; try done; [| | apply (stopping_moves _ _ WkClose); try done; intros rt; by exists rt];
    [by apply (tr_fails _ _ e); [done | by rewrite He in Hs |] |]. run_cases r.
  constructor; cbn; try done. naive_solver.
Qed.

Lemma goto_moves id f pc c r :
  ct_objects c !! id = Some r → thread_alive r = true →
  (run_ok id r → transition r (run_state (f r)) ∧ run_ok id (with_thread pc (f r)) ∧
     run_cancel_requested (f r) = run_cancel_requested r ∧ run_sequence r ≤ run_sequence (f r)) →
  (stopping r → stopping (with_thread pc (f r))) →
  objects_step c (update_run id (λ r, with_thread pc (f r)) c).2.
Proof.
  intros Hr Ha H Hstop. apply update_run_step. intros r' Hr' Hok. assert (r' = r) as -> by congruence.
  destruct (H Hok) as (? & ? & ? & ?). by apply worker_moves.
Qed.

Lemma enter_run_running id r :
  run_ok id r → run_state r = CREATED → enter_run r = with_state RUNNING r.
Proof.
  intros [_ _ _ [Hp1 Hp2] _] Hs. unfold enter_run. rewrite (bool_decide_eq_true_2 _ Hs).
  run_cases r. by rewrite Hp1, Hp2.
Qed.

Lemma worker_step_step ch id c c' :
  (∀ r, ct_objects c !! id = Some r → run_ok id r) → worker_step ch id c = Some c' → objects_step c c'.
Proof.
  intros Hall Hstep. unfold worker_step in Hstep.
  apply bind_Some in Hstep as (r & Hr & Hstep). apply bind_Some in Hstep as (pc & Hpc & Hstep).
  pose proof (Hall r Hr) as [Hi Hs Hrt Hp Hq]. rewrite Hpc in Hs, Hrt.
  assert (Hgo : ∀ f pc', pc ≠ WkDone → transition r (run_state (f r)) →
    run_ok id (with_thread pc' (f r)) → run_cancel_requested (f r) = run_cancel_requested r →
    run_sequence r ≤ run_sequence (f r) → (stopping r → stopping (with_thread pc' (f r))) →
    objects_step c (update_run id (λ r, with_thread pc' (f r)) c).2).
  { intros f pc' Hne ? ? ? ? ?. apply (goto_moves id f pc' c r Hr); [|done | done].
    unfold thread_alive. rewrite Hpc. by destruct pc. }
  assert (Hst : ∀ f pc', safe_pc pc' = true → run_cancel_requested (f r) = run_cancel_requested r →
    (∀ rt', run_runtime (f r) = Some rt' → ∃ rt, run_runtime r = Some rt ∧ rt_control rt' = rt_control rt) →
    stopping r → stopping (with_thread pc' (f r))).
  { intros f pc' Hsafe Hc Hctl. by apply (stopping_moves _ _ pc'). }
  assert (Hkeep : ∀ pc', pc ≠ WkDone → safe_pc pc' = true → state_at (Some pc') (run_state r) →
    (needs_runtime (Some pc') = true → is_some (run_runtime r) = true) →
    objects_step c (update_run id (λ r, with_thread pc' (Datatypes.id r)) c).2).
  { intros pc' Hne Hsafe Hat Hn.
    apply Hgo; try done; [stays | | apply Hst; try done; intros rt'; by exists rt'].
    constructor; cbn; try done. intros [?|?]; [by apply Hn |]. apply Hrt. by right. }
  assert (Hem : ∀ et d pc', pc ≠ WkDone → safe_pc pc' = true → state_at (Some pc') (run_state r) → run_state r ≠ FAILED →
    is_some (run_runtime r) = true → objects_step c (emit_then id et d pc' c).2).
  { intros et d pc' Hne ? ? ? ?. apply emit_moves; [done |]. intros r' Hr'. assert (r' = r) as -> by congruence.
    split; [|done]. unfold thread_alive. rewrite Hpc. by destruct pc. }
  assert (Hrun : needs_runtime (Some pc) = true → is_some (run_runtime r) = true) by auto.
  assert (Hnf : run_state r = RUNNING ∨ run_state r = PAUSED → run_state r ≠ FAILED).
  { by intros [-> | ->]. }
  assert (Hctl : ∀ (g : Runtime → Runtime) rt', (g <$> run_runtime r) = Some rt' →
    (∀ rt, rt_control (g rt) = rt_control rt) →
    ∃ rt, run_runtime r = Some rt ∧ rt_control rt' = rt_control rt).
  { intros g rt' Hg Hsame. destruct (run_runtime r) as [rt|]; [|done]. injection Hg as <-. by exists rt. }
  destruct pc as [| |rt| | |after n cp|n|n wid|n wid|sm|sm [|[et' d'] events]|e| |]; try done;
    destruct ch as [|[rt'|e']|et d|wid'|sm'|evs|e']; try done; cbn in Hs, Hrun.
  - injection Hstep as <-. destruct (run_cancel_requested r); apply Hkeep; cbn; try done. by rewrite Hs.
  - injection Hstep as <-. by apply Hkeep.
  - injection Hstep as <-. apply Hkeep; cbn; try done. by rewrite Hs.
  - destruct (run_cancel_requested r) eqn:Hc; injection Hstep as <-.
    + apply Hkeep; cbn; try done. by rewrite Hs.
    + apply Hgo; try done; try stays.
      by intros ?%(running_not_stopping r Hc).
  - injection Hstep as <-. assert (Hent := enter_run_running id r (Hall r Hr) Hs).
    apply Hgo; rewrite ?Hent; try done.
    + by apply tr_starts.
    + constructor; cbn; try done; auto.
    + apply (stopping_moves r _ WkStarted); try done. intros rt'. by exists rt'.
  - injection Hstep as <-. apply Hem; auto.
  - injection Hstep as <-. apply Hkeep; cbn; auto; done.
  - apply bind_Some in Hstep as (rt & Hrt' & Hstep).
    apply bind_Some in Hstep as ([out k] & Hline & Hstep). injection Hstep as <-.
    set (pc' := match out with Raise e => WkFail e | Ok (Some cp') => WkCheckpoint after n cp'
                | Ok None => if after then WkCheckpoint false n CpCancelled else WkTop n end).
    assert (Hpc' : state_at (Some pc') (run_state r)).
    { unfold pc'. destruct out as [[cp'|]|]; cbn; [done | by destruct after |].
      intros Hf. rewrite Hf in Hs. by destruct Hs. }
    apply Hgo; try done; try stays.
    { constructor; cbn; try done. intros _. by rewrite Hrt'. }
    intros [S1 S2 S3]. specialize (S2 _ Hpc). destruct (S3 rt Hrt') as [Hcan Hset].
    assert (Hk : k = rt_control rt ∧ safe_pc pc' = true).
    { unfold pc'. destruct cp; cbn in Hline, S2; rewrite ?Hcan, ?Hset in Hline; try done;
        by injection Hline as <- <-. }
    destruct Hk as [-> Hsafe]. constructor; cbn; [done | by intros ? [= <-] |].
    rewrite Hrt'. cbn. by intros ? [= <-].
  - injection Hstep as <-. apply Hem; auto.
  - injection Hstep as <-. apply Hkeep; cbn; auto.
  - injection Hstep as <-. apply Hkeep; cbn; auto; done.
  - injection Hstep as <-. apply Hgo; try done; try stays; [|apply Hst; try done; intros rt' Hrt'; by apply (Hctl _ rt' Hrt')].
    constructor; cbn; try done. intros _. specialize (Hrun eq_refl). by destruct (run_runtime r).
  - injection Hstep as <-. apply Hem; auto.
  - injection Hstep as <-. apply Hkeep; cbn; auto; done.
  - injection Hstep as <-. apply Hem; auto.
  - injection Hstep as <-. apply Hgo; try done; [by eapply tr_completes | | apply Hst; try done; intros rt' Hrt'; by apply (Hctl _ rt' Hrt')].
    constructor; cbn; try done. intros _. specialize (Hrun eq_refl). by destruct (run_runtime r).
  - injection Hstep as <-. apply Hem; cbn; auto; by rewrite Hs.
  - injection Hstep as <-. apply Hkeep; cbn; auto; by rewrite Hs.
  - injection Hstep as <-. apply Hem; cbn; auto; by rewrite Hs.
  - injection Hstep as <-. apply Hkeep; cbn; auto; by rewrite Hs.
  - assert (Hf : objects_step c (update_run id (λ r, with_thread WkClose (fail_run e r)) c).2).
    { apply update_run_step. intros r' Hr' Hok. assert (r' = r) as -> by congruence.
      apply fail_state; try done. unfold thread_alive. by rewrite Hpc. }
    destruct (is_cancelled e); injection Hstep as <-; [exact Hf |].
    by apply objects_step_publish.
  - injection Hstep as <-. apply Hgo; try done; try stays; [|apply Hst; try done; intros rt' Hrt'; by apply (Hctl _ rt' Hrt')].
    constructor; cbn; try done. intros [?|?]; [done |]. destruct (run_state r); naive_solver.
Qed.

(** ** The controller's invariant *)
Definition lifecycle_ok (pc : LifecyclePc) (c : Controller) : Prop :=
  match pc with
  | LcReturn _ | LcCancel _ _ | LcCheck false _ | LcPlay _ | LcCreated _ _ => True
  | LcRestartJoin id _ => id ∈ ct_runs c ∧ ∃ r, ct_objects c !! id = Some r ∧ run_cancel_requested r = true
  | LcRestartPop id _ => id ∈ ct_runs c ∧
      ∃ r, ct_objects c !! id = Some r ∧ run_cancel_requested r = true ∧ dead r
  | LcJoin _ _ id _ => id ∈ ct_runs c ∧ ∃ r, ct_objects c !! id = Some r ∧ is_terminal (run_state r) = true
  | LcPop _ _ id _ => id ∈ ct_runs c ∧
      ∃ r, ct_objects c !! id = Some r ∧ is_terminal (run_state r) = true ∧ dead r
  | LcCheck true _ | LcRegister _ _ _ => ct_runs c = ∅
  end.

Record controller_ok (pc : LifecyclePc) (c : Controller) : Prop := {
  ck_runs : ∀ id r, ct_objects c !! id = Some r → run_ok id r;
  ck_registered : ∀ id, id ∈ ct_runs c → is_Some (ct_objects c !! id) ∧ ct_active_id c = Some id;
  ck_retired : ∀ id r, ct_objects c !! id = Some r → id ∉ ct_runs c → dead r;
  ck_lifecycle : lifecycle_ok pc c;
}.

Lemma transition_terminal r s : transition r s → is_terminal (run_state r) = true → is_terminal s = true.
Proof. destruct 1 as [Hs|? H1 Hs|H1 Hs|H1 Hs|? ? [H1|H1] Hs|? ? ? Hs]; rewrite Hs; try rewrite H1; done. Qed.

Lemma objects_step_back c c' id r' :
  objects_step c c' → (∀ id r, ct_objects c !! id = Some r → run_ok id r) →
  ct_objects c' !! id = Some r' →
  ∃ r, ct_objects c !! id = Some r ∧ run_step (bool_decide (id ∈ ct_runs c)) id r r'.
Proof.
  intros [R A D S] Hok Hr'. assert (Hin : id ∈ dom (ct_objects c')) by (apply elem_of_dom; by eexists).
  rewrite D in Hin. apply elem_of_dom in Hin as [r Hr].
  destruct (S id r Hr (Hok id r Hr)) as (r2 & Hr2 & Hst). exists r. split; [done |].
  assert (r2 = r') as <- by congruence. done.
Qed.

Lemma objects_step_ok pc c c' : objects_step c c' → controller_ok pc c → controller_ok pc c'.
Proof.
  intros Hos [K1 K2 K3 K4]. pose proof Hos as [R A D S].
  assert (Hfwd : ∀ id r, ct_objects c !! id = Some r → ∃ r', ct_objects c' !! id = Some r' ∧
    run_step (bool_decide (id ∈ ct_runs c)) id r r') by (intros id r Hr; by apply S, K1).
  constructor; rewrite ?R, ?A.
  - intros id r' Hr'. destruct (objects_step_back c c' id r' Hos K1 Hr') as (r & _ & [O _ _ _ _ _]). done.
  - intros id Hin. destruct (K2 id Hin) as [[r Hr] Ha]. split; [|done].
    destruct (Hfwd id r Hr) as (r' & ? & _). by exists r'.
  - intros id r' Hr' Hni. destruct (objects_step_back c c' id r' Hos K1 Hr') as (r & Hr & [_ _ _ _ X _]).
    destruct (X (K3 id r Hr Hni)) as [|(Hb & _)]; [done |]. by rewrite bool_decide_eq_false_2 in Hb.
  - destruct pc as [| |id ?|id ?|[] ?|? ? id ?|? ? id ?| | |]; cbn in *; rewrite ?R; try done.
    + destruct K4 as (Hin & r & Hr & Hc). destruct (Hfwd id r Hr) as (r' & Hr' & [_ _ C _ _ _]).
      split; [done |]. exists r'. auto.
    + destruct K4 as (Hin & r & Hr & Hc & Hd). destruct (Hfwd id r Hr) as (r' & Hr' & [_ _ C _ X _]).
      split; [done |]. exists r'. split_and!; [done | auto |].
      destruct (X Hd) as [|(_ & Hc' & _)]; [done | congruence].
    + destruct K4 as (Hin & r & Hr & Ht). destruct (Hfwd id r Hr) as (r' & Hr' & [_ L _ _ _ _]).
      split; [done |]. exists r'. split; [done |]. by eapply transition_terminal.
    + destruct K4 as (Hin & r & Hr & Ht & Hd). destruct (Hfwd id r Hr) as (r' & Hr' & [_ L _ _ X _]).
      split; [done |]. exists r'. split_and!; [done | by eapply transition_terminal |].
      destruct (X Hd) as [|(_ & _ & Ht')]; [done | congruence].
Qed.

Lemma lifecycle_ok_change pc pc' c : controller_ok pc c → lifecycle_ok pc' c → controller_ok pc' c.
Proof. by intros [? ? ? ?] ?; constructor. Qed.

Lemma returned_ok pc c out : controller_ok pc c → controller_ok (LcReturn out) c.
Proof. intros H. by eapply lifecycle_ok_change. Qed.

(** Unregistering the run of the lifecycle operation leaves none. *)
Lemma pop_run_ok pc pc' id c r :
  controller_ok pc c → id ∈ ct_runs c → ct_objects c !! id = Some r → dead r →
  (ct_runs (pop_run id c).2 = ∅ → lifecycle_ok pc' (pop_run id c).2) → controller_ok pc' (pop_run id c).2.
Proof.
  intros [K1 K2 K3 K4] Hin Hr Hd Hpc.
  assert (Hruns : ct_runs (pop_run id c).2 = ∅).
  { cbn. apply set_eq. intros id'. rewrite elem_of_difference, elem_of_singleton, elem_of_empty.
    split; [|done]. intros [Hin' Hne]. destruct (K2 _ Hin) as [_ H1], (K2 _ Hin') as [_ H2]. congruence. }
  constructor; [done | | | by apply Hpc].
  - rewrite Hruns. set_solver.
  - intros id' r' Hr' _. cbn in Hr'. destruct (decide (id' ∈ ct_runs c)) as [Hin'|]; [|by eapply K3].
    destruct (K2 _ Hin) as [_ H1], (K2 _ Hin') as [_ H2]. by assert (r' = r) as -> by congruence.
Qed.

Section lifecycle.
Context (capabilities : string → option SessionCapabilities) (session_trace : string → string).

Lemma create_check_ok a c out c' pc :
  controller_ok pc c → create_check capabilities a c = (out, c') → c' = c ∧
  match out with
  | Ok (Some id, _) => id ∈ ct_runs c ∧ ∃ r, ct_objects c !! id = Some r ∧ is_terminal (run_state r) = true
  | Ok (None, _) => ct_runs c = ∅
  | Raise _ => True
  end.
Proof.
  intros [K1 K2 K3 K4]. unfold create_check.
  set (active := match ct_active_id c with Some _ => _ | None => None end).
  assert (Hact : match active with
    | Some (id, r) => id ∈ ct_runs c ∧ ct_objects c !! id = Some r
    | None => ct_runs c = ∅
    end).
  { unfold active. assert (Hnone : ∀ id, (id ∈ ct_runs c → False) → ct_active_id c = Some id → ct_runs c = ∅).
    { intros id Hn Ha. apply set_eq. intros id'. split; [|set_solver]. intros Hin.
      destruct (K2 _ Hin) as [_ Ha']. assert (id' = id) as -> by congruence. by destruct Hn. }
    destruct (ct_active_id c) as [id|] eqn:Ha.
    - case_bool_decide as Hin; [|by apply (Hnone id)].
      destruct (K2 _ Hin) as [[r Hr] _]. by rewrite Hr.
    - apply set_eq. intros id'. split; [|set_solver]. intros Hin. by destruct (K2 _ Hin) as [_ ?]. }
  destruct active as [[id r]|]; unfold mbind, M_bind, controller_error, throw, mret, M_ret.
  - destruct (is_terminal (run_state r)) eqn:Ht; cbn [negb]; [|by intros [= <- <-]].
    destruct (capabilities (ca_session_id a)) as [caps|]; [|by intros [= <- <-]].
    destruct (bool_decide _); cbn [negb]; intros [= <- <-]; [|done]. destruct Hact. by eauto.
  - destruct (capabilities (ca_session_id a)) as [caps|]; [|by intros [= <- <-]].
    destruct (bool_decide _); cbn [negb]; intros [= <- <-]; done.
Qed.

Lemma new_run_ok id sc tr mo p w : run_ok id (new_run id sc tr mo p w).
Proof. constructor; cbn; try done. by intros [|[]]. Qed.

Lemma create_register_ok fresh a w pc out c c' :
  controller_ok pc c → ct_runs c = ∅ → ct_objects c !! fresh = None →
  create_register session_trace fresh a w c = (out, c') →
  controller_ok (LcReturn (raise KeyError "")) c' ∧ (∀ id, out = Ok id → id = fresh).
Proof.
  intros [K1 K2 K3 K4] Hempty Hfresh. unfold create_register, mbind, M_bind, lift.
  destruct (match ca_pacing a with inl s => parse_pacing s | inr p => Ok p end) as [p|e].
  2:{ intros [= <- <-]. split; [by constructor | done]. }
  intros [= <- <-]. split; [|by intros ? [= ->]]. constructor; cbn; rewrite ?Hempty; try done.
  - intros id r. rewrite lookup_insert_Some. intros [[<- <-]|[_ ?]]; [apply new_run_ok | by apply K1].
  - intros id Hin. assert (id = fresh) as -> by set_solver. split; [|done].
    rewrite lookup_insert_eq. by eexists.
  - intros id r. rewrite lookup_insert_Some. intros [[<- <-]|[Hne Hr]] Hni; [done |].
    apply (K3 id r Hr). rewrite Hempty. set_solver.
Qed.

Lemma lifecycle_step_ok fresh pc c :
  controller_ok pc c → ct_objects c !! fresh = None →
  let s := lifecycle_step capabilities session_trace fresh pc c in controller_ok s.1 s.2.
Proof.
  intros Hok Hfresh. pose proof Hok as [K1 K2 K3 K4]. unfold lifecycle_step.
  destruct pc as [out|id a|id a|id a|restart a|restart a id w|restart a id w|restart a w|restart id|id]; cbn [lifecycle_block].
  - done.
  - unfold mbind, M_bind. destruct (require_run id c) as [out c1] eqn:Hr.
    apply require_run_ok in Hr as [-> Hr]. destruct out as [r|e]; [|by eapply returned_ok].
    destruct Hr as [Hr Hin]. cbn -[update_run].
    eapply lifecycle_ok_change; [eapply objects_step_ok; [|exact Hok] |].
    + apply update_run_step. intros r' _ Hok'. by apply request_cancel_step.
    + cbn. split; [done |]. exists (request_cancel r). by rewrite lookup_alter_eq, Hr.
  - destruct K4 as (Hin & r & Hr & Hc). rewrite Hr. destruct (thread_alive r) eqn:Ha; [by eapply returned_ok |].
    eapply lifecycle_ok_change; [exact Hok |]. cbn. split; [done |]. by exists r.
  - destruct K4 as (Hin & r & Hr & Hc & Hd). unfold mbind, M_bind, gets. rewrite Hr.
    change (pop_run id c) with (Ok (A := unit) tt, (pop_run id c).2). cbv beta iota. unfold lift.
    destruct (restart_target r a); by eapply pop_run_ok.
  - unfold mbind, M_bind. destruct (create_check capabilities a c) as [out c1] eqn:Hc.
    apply (create_check_ok _ _ _ _ _ Hok) in Hc as [-> Hc].
    destruct out as [[[id|] w]|e]; [| |by eapply returned_ok].
    + by eapply lifecycle_ok_change.
    + by eapply lifecycle_ok_change.
  - destruct K4 as (Hin & r & Hr & Ht). rewrite Hr. destruct (thread_alive r) eqn:Ha; [by eapply returned_ok |].
    eapply lifecycle_ok_change; [exact Hok |]. cbn. split; [done |]. by exists r.
  - destruct K4 as (Hin & r & Hr & Ht & Hd). unfold mbind, M_bind.
    change (pop_run id c) with (Ok (A := unit) tt, (pop_run id c).2). cbv beta iota.
    by eapply pop_run_ok.
  - unfold mbind, M_bind. destruct (create_register session_trace fresh a w c) as [out c1] eqn:Hc.
    apply (create_register_ok _ _ _ _ _ _ _ Hok K4 Hfresh) in Hc as [Hc _].
    destruct out; by eapply lifecycle_ok_change.
  - unfold mbind, M_bind, gets. pose proof (publish_step id REPLAY_CREATED
      (plain_event [("session_trace", JStr match ct_objects c !! id with
        | Some r => run_session_trace r | None => "" end)]) c) as Hos.
    destruct (publish _ _ _ c) as [out c1]. cbn in Hos.
    eapply objects_step_ok in Hok; [|exact Hos].
    destruct out; [destruct restart |]; by eapply lifecycle_ok_change.
  - unfold mbind, M_bind. pose proof (play_block_step id c) as Hos.
    destruct (play_block id c) as [out c1]. cbn in Hos.
    eapply objects_step_ok in Hok; [|exact Hos]. destruct out; by eapply lifecycle_ok_change.
Qed.
End lifecycle.

Lemma publish_operational_objects stream et d ns c :
  objects_step c (publish_operational_event stream et d ns c).2.
Proof.
  unfold publish_operational_event.
  destruct (ct_operational_sequences c !! stream); [|apply objects_step_refl].
  destruct (event_validate _); constructor; try done; intros id r Hr Hok; exists r;
    (split; [done | by apply run_step_refl]).
Qed.

Section reachable.
Context (capabilities : string → option SessionCapabilities) (session_trace : string → string).
Abbreviation controller_step := (controller_step capabilities session_trace).

(** Every step keeps the invariant, and changes each run by a transition. *)
Lemma controller_step_ok s s' :
  controller_step s s' → controller_ok s.1 s.2 → controller_ok s'.1 s'.2.
Proof.
  intros Hstep Hok. pose proof Hok as [K1 _ _ _]. destruct Hstep; cbn [fst snd] in *;
    try (eapply objects_step_ok; [|exact Hok]).
  - by eapply lifecycle_ok_change.
  - by eapply lifecycle_ok_change.
  - by apply lifecycle_step_ok.
  - by eapply worker_step_step, H => r; apply K1.
  - apply play_block_step.
  - apply pause_block_step.
  - apply step_block_step.
  - apply set_pacing_step.
  - apply shutdown_block_step.
  - apply publish_step.
  - apply publish_operational_objects.
  - apply with_broker_step, objects_step_refl.
Qed.

Lemma lifecycle_step_objects fresh pc c id r :
  ct_objects c !! id = Some r → run_ok id r → ct_objects c !! fresh = None →
  ∃ r', ct_objects (lifecycle_step capabilities session_trace fresh pc c).2 !! id = Some r' ∧
    run_step (bool_decide (id ∈ ct_runs c)) id r r'.
Proof.
  intros Hr Hok Hfresh. unfold lifecycle_step.
  assert (Hsame : ∃ r', ct_objects c !! id = Some r' ∧ run_step (bool_decide (id ∈ ct_runs c)) id r r').
  { exists r. split; [done | by apply run_step_refl]. }
  assert (Hobj : ∀ c', objects_step c c' → ∃ r', ct_objects c' !! id = Some r' ∧
    run_step (bool_decide (id ∈ ct_runs c)) id r r') by (intros c' Hos; by apply Hos).
  destruct pc as [out|id' a|id' a|id' a|restart a|restart a id' w|restart a id' w|restart a w|restart id'|id'];
    cbn [lifecycle_block].
  - done.
  - unfold mbind, M_bind. destruct (require_run id' c) as [out c1] eqn:Hr'.
    apply require_run_ok in Hr' as [-> _]. destruct out; [|done].
    apply Hobj, update_run_step. intros r' _ Hok'. by apply request_cancel_step.
  - by destruct (ct_objects c !! id') as [r'|]; [destruct (thread_alive r')|].
  - unfold mbind, M_bind, gets. change (pop_run id' c) with (Ok (A := unit) tt, (pop_run id' c).2).
    cbv beta iota. destruct (ct_objects c !! id') as [r'|]; [|done]. unfold lift.
    by destruct (restart_target r' a).
  - assert (Hc : (create_check capabilities a c).2 = c).
    { unfold create_check, controller_error, throw, mbind, M_bind, mret, M_ret.
      repeat case_match; simplify_eq; done. }
    unfold mbind, M_bind. destruct (create_check capabilities a c) as [[[[]]|] c1]; cbn in Hc; by subst.
  - by destruct (ct_objects c !! id') as [r'|]; [destruct (thread_alive r')|].
  - done.
  - unfold create_register, mbind, M_bind, lift.
    destruct (match ca_pacing a with inl s => parse_pacing s | inr p => Ok p end); [|done].
    cbn. rewrite lookup_insert_ne by congruence. done.
  - unfold mbind, M_bind, gets. specialize (Hobj _ (publish_step id' REPLAY_CREATED
      (plain_event [("session_trace", JStr match ct_objects c !! id' with
        | Some r => run_session_trace r | None => "" end)]) c)).
    destruct (publish _ _ _ c) as [[] c1]; [by destruct restart | done].
  - unfold mbind, M_bind. specialize (Hobj _ (play_block_step id' c)).
    by destruct (play_block id' c) as [[] c1].
Qed.

Lemma controller_step_runs s s' id r :
  controller_step s s' → controller_ok s.1 s.2 → ct_objects s.2 !! id = Some r →
  ∃ r', ct_objects s'.2 !! id = Some r' ∧ run_step (bool_decide (id ∈ ct_runs s.2)) id r r'.
Proof.
  intros Hstep [K1 _ _ _] Hr. pose proof (K1 id r Hr) as Hok.
  assert (Hobj : ∀ c', objects_step s.2 c' → ∃ r', ct_objects c' !! id = Some r' ∧
    run_step (bool_decide (id ∈ ct_runs s.2)) id r r') by (intros c' Hos; by apply Hos).
  destruct Hstep; cbn [fst snd] in *;
    lazymatch goal with
    | |- context [lifecycle_step _ _ _ _ _] => by apply lifecycle_step_objects
    | _ => apply Hobj
    end.
  - apply objects_step_refl.
  - apply objects_step_refl.
  - by eapply worker_step_step, H => r'; apply K1.
  - apply play_block_step.
  - apply pause_block_step.
  - apply step_block_step.
  - apply set_pacing_step.
  - apply shutdown_block_step.
  - apply publish_step.
  - apply publish_operational_objects.
  - apply with_broker_step, objects_step_refl.
Qed.

Lemma new_controller_ok broker out : controller_ok (LcReturn out) (new_controller broker).
Proof. constructor; cbn; set_solver. Qed.

Lemma reachable_ok ring queue s :
  reachable capabilities session_trace ring queue s → controller_ok s.1 s.2.
Proof.
  intros (broker & out & _ & Hsteps).
  assert (Hok : controller_ok (LcReturn out, new_controller broker).1 (LcReturn out, new_controller broker).2)
    by apply new_controller_ok.
  induction Hsteps as [|s1 s2 s3 Hs _ IH]; [done |]. by eapply IH, controller_step_ok.
Qed.

(** One step of the controller changes the state of a run by a transition. *)
Lemma controller_step_transition s s' id r :
  controller_step s s' → controller_ok s.1 s.2 → ct_objects s.2 !! id = Some r →
  ∃ r', ct_objects s'.2 !! id = Some r' ∧ transition r (run_state r').
Proof.
  intros Hs Hok Hr. destruct (controller_step_runs s s' id r Hs Hok Hr) as (r' & Hr' & [_ T _ _ _ _]). by exists r'.
Qed.

(** What stays of a run along a history. *)
Record outlives (r r' : Run) : Prop := {
  ol_terminal : is_terminal (run_state r) = true → is_terminal (run_state r') = true;
  ol_failed : run_state r = FAILED → run_state r' = FAILED;
  ol_final : is_terminal (run_state r) = true → dead r → run_state r' = run_state r ∧ dead r';
  ol_sequence : run_sequence r ≤ run_sequence r';
  ol_cancel : run_cancel_requested r = true → run_cancel_requested r' = true;
}.

#[export] Instance outlives_preorder : PreOrder outlives.
Proof.
  split; [by intros r; constructor |]. intros r1 r2 r3 [T1 F1 D1 S1 C1] [T2 F2 D2 S2 C2].
  constructor; [auto | auto | | lia | auto]. intros Ht Hd. destruct (D1 Ht Hd) as [H1 Hd2].
  destruct (D2 ltac:(by rewrite H1) Hd2) as [H2 Hd3]. split; [congruence | done].
Qed.

Lemma run_step_outlives b id r r' : run_step b id r r' → outlives r r'.
Proof.
  intros [O T C S X _]. constructor; try done.
  - by apply transition_terminal.
  - intros Hf. destruct T as [->|? Hs _|Hs _|Hs _|? _ Hs _|e _ Hs _]; [done | congruence.. | | congruence].
    destruct Hs; congruence.
  - intros Ht Hd. split; [|by destruct (X Hd) as [|(_ & _ & Ht')]; [|congruence]].
    unfold dead, thread_alive in Hd. destruct T as [->|Hw|Hs _|Hs _|? Hw|e Hw]; try done.
    all: try (by rewrite Hw in Hd). all: by rewrite Hs in Ht.
Qed.

Lemma history_runs s s' id r :
  rtc controller_step s s' → controller_ok s.1 s.2 → ct_objects s.2 !! id = Some r →
  ∃ r', ct_objects s'.2 !! id = Some r' ∧ outlives r r'.
Proof.
  intros Hsteps. revert r. induction Hsteps as [s|s1 s2 s3 Hs _ IH]; intros r Hok Hr; [by exists r |].
  destruct (controller_step_runs s1 s2 id r Hs Hok Hr) as (r2 & Hr2 & Hst%run_step_outlives).
  destruct (IH r2 (controller_step_ok _ _ Hs Hok) Hr2) as (r3 & Hr3 & Ho).
  exists r3. split; [done | by etrans].
Qed.
End reachable.

(** A stopping run keeps stopping. *)
Lemma history_stopping capabilities session_trace s s' id r :
  rtc (controller_step capabilities session_trace) s s' → controller_ok s.1 s.2 →
  ct_objects s.2 !! id = Some r → stopping r →
  ∃ r', ct_objects s'.2 !! id = Some r' ∧ stopping r' ∧ run_ok id r'.
Proof.
  intros Hsteps. revert r. induction Hsteps as [s|s1 s2 s3 Hs _ IH]; intros r Hok Hr Hst.
  { exists r. split_and!; [done | done | by apply (ck_runs _ _ Hok)]. }
  destruct (controller_step_runs _ _ s1 s2 id r Hs Hok Hr) as (r2 & Hr2 & [_ _ _ _ _ Y]).
  apply (IH r2); [by eapply controller_step_ok | done | by apply Y].
Qed.

(** The assertions of the controls hold. *)
Lemma runnable_error {A} (k : Run → CM A) id c e c' :
  (r ← require_run id; _ ← ensure_active_runnable r; k r) c = (Raise e, c') →
  (∀ r, ct_objects c !! id = Some r → is_terminal (run_state r) = false →
     (k r c).1 = Raise e → exn_type e ≠ AssertionError) → exn_type e ≠ AssertionError.
Proof.
  intros Hrun Hk. unfold mbind, M_bind in Hrun. unfold require_run in Hrun.
  destruct (ct_objects c !! id) as [r|] eqn:Hr; [|injection Hrun as <- _; done].
  case_bool_decide; [|injection Hrun as <- _; done].
  destruct (ensure_active_runnable r c) as [out c1] eqn:He.
  pose proof (ensure_runnable_ok _ _ _ _ He) as [-> Ho]. destruct out.
  - eapply Hk; [done | apply Ho |]. by rewrite Hrun.
  - injection Hrun as <- _. unfold ensure_active_runnable, controller_error, throw in He.
    unfold raise in He. repeat case_match; try discriminate He; by injection He as <-.
Qed.

Lemma play_no_assertion id c e c' :
  (∀ id r, ct_objects c !! id = Some r → run_ok id r) → play_block id c = (Raise e, c') →
  exn_type e ≠ AssertionError.
Proof.
  intros Hall Hrun. eapply runnable_error; [exact Hrun |]. intros r Hr Ht.
  destruct (Hall id r Hr) as [_ _ Hrt _ _].
  case_bool_decide as H1; [by cbn; intros [= <-] |].
  case_bool_decide as H2; [destruct (thread_alive r); [by cbn; intros [= <-] | done] |].
  unfold assert_runtime, guardM, mbind, M_bind. rewrite Hrt; [done |].
  by destruct (run_state r); auto.
Qed.

Lemma step_no_assertion id c e c' :
  (∀ id r, ct_objects c !! id = Some r → run_ok id r) → step_block id c = (Raise e, c') →
  exn_type e ≠ AssertionError.
Proof.
  intros Hall Hrun. eapply runnable_error; [exact Hrun |]. intros r Hr Ht.
  destruct (Hall id r Hr) as [_ _ Hrt _ _].
  case_bool_decide as H1; cbn [negb]; [|by cbn; intros [= <-]].
  unfold assert_runtime, guardM, mbind, M_bind. rewrite Hrt; [done | auto].
Qed.
