(* ===== verification/EvStreams.v ===== *)
(** * Event streams

    Every stream of events (a replay's, or an operational one) numbers its events
    in the order of publication: in the broker's ring and in every subscriber's
    queue the numbers of a stream increase, below the number the stream takes
    next, and every event passed the envelope's validation.  And what a
    cancellation does to a worker inside [checkpoint]. *)

From S2P Require Import Prelude PyString Json Firewall EvBroker EvReplay EvReplayFacts.

(** The number the stream takes next. *)
Definition stream_next (c : Controller) (stream : string) : option Z :=
  match ct_objects c !! stream with
  | Some r => Some (run_sequence r)
  | None => ct_operational_sequences c !! stream
  end.

Definition event_lt (e e' : EventEnvelopeV1) : Prop := ev_sequence_number e < ev_sequence_number e'.

(** A list of events of one stream whose next number is [n]. *)
Record stream_ok (stream : string) (n : Z) (l : list EventEnvelopeV1) : Prop := {
  so_event : Forall (λ e, ev_replay_id e = stream ∧ 0 ≤ ev_sequence_number e < n ∧
    ev_event_id e = event_id_of stream (ev_sequence_number e) ∧ event_validate e = Ok tt) l;
  so_sorted : StronglySorted event_lt l;
}.

Lemma stream_ok_nil stream n : stream_ok stream n [].
Proof. split; constructor. Qed.

Lemma sublist_Forall {A} (P : A → Prop) l l' : l `sublist_of` l' → Forall P l' → Forall P l.
Proof.
  rewrite !Forall_forall. intros Hs Hl x Hx. by eapply Hl, elem_of_sublist.
Qed.

Lemma of_replay_sublist stream l l' : l `sublist_of` l' → of_replay stream l `sublist_of` of_replay stream l'.
Proof.
  unfold of_replay. induction 1 as [|x l l' _ IH|x l l' _ IH]; [done | |]; rewrite !filter_cons;
    case_decide; by constructor || done.
Qed.

Lemma sorted_sublist l l' : l `sublist_of` l' → StronglySorted event_lt l' → StronglySorted event_lt l.
Proof.
  induction 1 as [|x l l' Hs IH|x l l' Hs IH]; intros Hl; [constructor | |];
    inversion Hl as [|? ? Hl' Hall]; subst; [|by apply IH].
  constructor; [by apply IH |]. by eapply sublist_Forall.
Qed.

Lemma stream_ok_sublist stream n l l' : l `sublist_of` l' → stream_ok stream n l' → stream_ok stream n l.
Proof. intros Hs [E S]. split; [by eapply sublist_Forall | by eapply sorted_sublist]. Qed.

Lemma stream_ok_mono stream n n' l : n ≤ n' → stream_ok stream n l → stream_ok stream n' l.
Proof. intros Hn [E S]. split; [|done]. eapply Forall_impl; [exact E |]. cbn. intros e He. intuition lia. Qed.

Lemma stream_ok_snoc stream n l e :
  stream_ok stream n l → 0 ≤ n → ev_replay_id e = stream → ev_sequence_number e = n →
  ev_event_id e = event_id_of stream n → event_validate e = Ok tt →
  stream_ok stream (n + 1) (l ++ [e]).
Proof.
  intros [E S] Hn Hr Hs Hi Hv. split.
  - apply Forall_app. split; [eapply Forall_impl; [exact E |]; cbn; intros x Hx; intuition lia |].
    constructor; [|constructor]. rewrite Hs. split_and!; done || lia.
  - clear Hv Hi Hr. induction S as [|x l S IH Hall]; cbn; [by repeat constructor |].
    apply Forall_cons in E as [Hx E]. constructor; [by apply IH |].
    apply Forall_app. split; [done |]. constructor; [|constructor]. unfold event_lt. lia.
Qed.

(** ** The invariant *)
Definition next_ok (c : Controller) (stream : string) (l : list EventEnvelopeV1) : Prop :=
  match stream_next c stream with Some n => 0 ≤ n ∧ stream_ok stream n l | None => l = [] end.

Record streams_ok (c : Controller) : Prop := {
  sk_ring : ∀ stream, next_ok c stream (of_replay stream (eb_ring (ct_broker c)));
  sk_subs : ∀ sid sub, eb_subs (ct_broker c) !! sid = Some sub →
    next_ok c (sub_replay_id sub) (sub_queue sub);
  sk_names : ∀ stream, is_Some (ct_operational_sequences c !! stream) → ct_objects c !! stream = None;
}.

Lemma next_ok_sublist c stream l l' : l `sublist_of` l' → next_ok c stream l' → next_ok c stream l.
Proof.
  intros Hs. unfold next_ok. destruct (stream_next c stream).
  - intros [? ?]. split; [done |]. by eapply stream_ok_sublist.
  - intros ->. by apply sublist_nil_r.
Qed.

(** Streams only advance, and the broker is unchanged. *)
Definition advances (c c' : Controller) : Prop :=
  ∀ stream n, stream_next c stream = Some n → ∃ n', stream_next c' stream = Some n' ∧ n ≤ n'.

Lemma next_ok_advances c c' stream l :
  advances c c' → (stream_next c stream = None → ∀ n, stream_next c' stream = Some n → 0 ≤ n) →
  next_ok c stream l → next_ok c' stream l.
Proof.
  intros Ha Hnew. unfold next_ok. destruct (stream_next c stream) as [n|] eqn:Hn.
  - intros [Hpos Hl]. destruct (Ha stream n Hn) as (n' & -> & Hle). split; [lia |].
    by eapply stream_ok_mono.
  - intros ->. destruct (stream_next c' stream) as [n|] eqn:Hn'; [|done].
    split; [by apply Hnew | apply stream_ok_nil].
Qed.

Lemma streams_advance c c' :
  advances c c' → (∀ stream n, stream_next c stream = None → stream_next c' stream = Some n → 0 ≤ n) →
  ct_broker c' = ct_broker c →
  (∀ stream, is_Some (ct_operational_sequences c' !! stream) → ct_objects c' !! stream = None) →
  streams_ok c → streams_ok c'.
Proof.
  intros Ha Hnew Hb Hnames [R S N]. constructor; rewrite ?Hb; try done.
  - intros stream. eapply next_ok_advances; eauto.
  - intros sid sub Hs. eapply next_ok_advances; eauto.
Qed.

Lemma update_run_streams id f c :
  (∀ r, run_sequence (f r) = run_sequence r) → streams_ok c → streams_ok (update_run id f c).2.
Proof.
  intros Hf Hok.
  assert (Hn : ∀ stream, stream_next (update_run id f c).2 stream = stream_next c stream).
  { intros stream. unfold stream_next. cbn. destruct (decide (id = stream)) as [->|Hne].
    - rewrite lookup_alter_eq. destruct (ct_objects c !! stream); cbn; by rewrite ?Hf.
    - by rewrite lookup_alter_ne. }
  apply (streams_advance c); try done.
  - intros stream n. rewrite Hn. intros ->. by exists n.
  - intros stream n. rewrite Hn. congruence.
  - intros stream Hs. cbn. destruct (decide (id = stream)) as [->|Hne].
    + by rewrite lookup_alter_eq, (sk_names c Hok stream Hs).
    + rewrite lookup_alter_ne by done. by apply Hok.
Qed.

(** Appending a valid event with its stream's number. *)
Lemma offer_queue size e sub :
  sub_queue (offer size e sub) `sublist_of` sub_queue sub ∨
  ev_replay_id e = sub_replay_id sub ∧ sub_queue (offer size e sub) `sublist_of` sub_queue sub ++ [e].
Proof.
  unfold offer. case_bool_decide as Hc; [by left |]. case_bool_decide as He; cbn; [|by left].
  case_match; cbn; [by left |]. right. split; [done |]. apply sublist_drop.
Qed.

Lemma of_replay_snoc stream l e :
  of_replay stream (l ++ [e]) = of_replay stream l ++ (if decide (ev_replay_id e = stream) then [e] else []).
Proof. unfold of_replay. rewrite filter_app. cbn. unfold filter. cbn. by case_decide. Qed.

Lemma append_streams c c1 stream n e :
  streams_ok c → stream_next c stream = Some n → 0 ≤ n →
  stream_next c1 stream = Some (n + 1) → (∀ s, s ≠ stream → stream_next c1 s = stream_next c s) →
  ct_broker c1 = ct_broker c →
  (∀ s, is_Some (ct_operational_sequences c1 !! s) → ct_objects c1 !! s = None) →
  ev_replay_id e = stream → ev_sequence_number e = n → ev_event_id e = event_id_of stream n →
  event_validate e = Ok tt → streams_ok (with_broker (broker_publish e (ct_broker c1)).2 c1).
Proof.
  intros [R S N] Hn Hpos Hn1 Hother Hb Hnames Hr Hs Hi Hv. rewrite Hb.
  assert (Hsnoc : ∀ s l l', next_ok c s l →
    (l' `sublist_of` l ∨ s = stream ∧ l' `sublist_of` l ++ [e]) → next_ok c1 s l').
  { intros s l l' Hl Hl'. destruct (decide (s = stream)) as [->|Hne].
    - unfold next_ok in *. rewrite Hn in Hl. rewrite Hn1. destruct Hl as [_ Hl]. split; [lia |].
      eapply stream_ok_sublist; [|by apply (stream_ok_snoc _ _ _ e Hl)].
      destruct Hl' as [Hl'|[_ Hl']]; [by apply sublist_inserts_r | done].
    - destruct Hl' as [Hl'|[? _]]; [|done]. eapply next_ok_sublist; [exact Hl' |].
      unfold next_ok in *. by rewrite Hother. }
  constructor; cbn; try done.
  - intros s. change (next_ok c1 s (of_replay s (push_bounded (eb_ring_size (ct_broker c)) e
      (eb_ring (ct_broker c))))).
    assert (Hsub : of_replay s (push_bounded (eb_ring_size (ct_broker c)) e (eb_ring (ct_broker c)))
      `sublist_of` of_replay s (eb_ring (ct_broker c) ++ [e])).
    { apply of_replay_sublist, sublist_drop. }
    rewrite of_replay_snoc in Hsub. apply (Hsnoc s _ _ (R s)).
    case_decide as Hd; [right; split; [congruence | done] | left; by rewrite app_nil_r in Hsub].
  - intros sid sub Hsub. rewrite lookup_fmap in Hsub.
    destruct (eb_subs (ct_broker c) !! sid) as [sub0|] eqn:H0; [|done]. injection Hsub as <-.
    change (next_ok c1 (sub_replay_id (offer (eb_subscriber_queue_size (ct_broker c)) e sub0))
      (sub_queue (offer (eb_subscriber_queue_size (ct_broker c)) e sub0))).
    rewrite offer_replay. apply (Hsnoc _ _ _ (S sid sub0 H0)).
    destruct (offer_queue (eb_subscriber_queue_size (ct_broker c)) e sub0) as [?|[? ?]]; [by left |].
    right. split; [congruence | done].
Qed.

(** What a publication does: the number is consumed in any case; the event is
    published exactly when its envelope is valid. *)
Lemma publish_cases id et d c r :
  ct_objects c !! id = Some r →
  let e := envelope_of r et d in
  let c1 := (update_run id (λ r, with_sequence (run_sequence r + 1) r) c).2 in
  publish id et d c =
    match event_validate e with
    | Ok _ => (Ok e, with_broker (broker_publish e (ct_broker c)).2 c1)
    | Raise x => (Raise x, c1)
    end.
Proof.
  intros Hr. unfold publish. rewrite Hr. cbn.
  assert (Hc : with_objects <[id:=with_sequence (run_sequence r + 1) r]> c =
    with_objects (alter (λ r, with_sequence (run_sequence r + 1) r) id) c).
  { unfold with_objects. f_equal. apply map_eq. intros i. destruct (decide (i = id)) as [->|].
    - by rewrite lookup_insert_eq, lookup_alter_eq, Hr.
    - by rewrite lookup_insert_ne, lookup_alter_ne. }
  by rewrite Hc.
Qed.

Lemma event_validate_ok e u : event_validate e = Ok u → event_validate e = Ok tt.
Proof. by destruct u. Qed.

Lemma advance_one id c r :
  ct_objects c !! id = Some r →
  let c1 := (update_run id (λ r, with_sequence (run_sequence r + 1) r) c).2 in
  stream_next c1 id = Some (run_sequence r + 1) ∧ (∀ s, s ≠ id → stream_next c1 s = stream_next c s).
Proof.
  intros Hr. unfold stream_next. cbn. split; [by rewrite lookup_alter_eq, Hr |].
  intros s Hs. by rewrite lookup_alter_ne.
Qed.

Lemma advance_streams c c1 stream n :
  streams_ok c → stream_next c stream = Some n → stream_next c1 stream = Some (n + 1) →
  (∀ s, s ≠ stream → stream_next c1 s = stream_next c s) → ct_broker c1 = ct_broker c →
  (∀ s, is_Some (ct_operational_sequences c1 !! s) → ct_objects c1 !! s = None) → streams_ok c1.
Proof.
  intros Hok Hn Hn1 Hother Hb Hnames. apply (streams_advance c); try done.
  - intros s m Hm. destruct (decide (s = stream)) as [->|Hne]; [|exists m; rewrite Hother by done; done || lia].
    exists (n + 1). split; [done |]. assert (m = n) as -> by congruence. lia.
  - intros s m Hm Hm1. destruct (decide (s = stream)) as [->|Hne]; [congruence |].
    rewrite Hother in Hm1 by done. congruence.
Qed.

Lemma next_nonneg c stream n : streams_ok c → stream_next c stream = Some n → 0 ≤ n.
Proof. intros Hok Hn. pose proof (sk_ring c Hok stream) as H. unfold next_ok in H. rewrite Hn in H. apply H. Qed.

Lemma publish_streams id et d c :
  (∀ r, ct_objects c !! id = Some r → run_replay_id r = id) → streams_ok c →
  streams_ok (publish id et d c).2.
Proof.
  intros Hid Hok. destruct (ct_objects c !! id) as [r|] eqn:Hr.
  2:{ unfold publish. by rewrite Hr. }
  rewrite (publish_cases id et d c r Hr). destruct (advance_one id c r Hr) as [Hn1 Hother].
  assert (Hn : stream_next c id = Some (run_sequence r)) by (unfold stream_next; by rewrite Hr).
  set (c1 := (update_run id (λ r, with_sequence (run_sequence r + 1) r) c).2) in *.
  assert (Hnames : ∀ s, is_Some (ct_operational_sequences c1 !! s) → ct_objects c1 !! s = None).
  { intros s Hs. cbn in *. pose proof (sk_names c Hok s Hs) as Hnone.
    destruct (decide (s = id)) as [->|]; [congruence |]. by rewrite lookup_alter_ne. }
  pose proof (next_nonneg c id _ Hok Hn) as Hpos.
  destruct (event_validate (envelope_of r et d)) as [u|x] eqn:Hv; cbn [snd].
  - change (ct_broker c) with (ct_broker c1).
    apply (append_streams c c1 id (run_sequence r) (envelope_of r et d)); cbn; rewrite ?Hid by done; try done.
    by eapply event_validate_ok.
  - by apply (advance_streams c c1 id (run_sequence r)).
Qed.

Lemma operational_streams stream et d ns c :
  streams_ok c → streams_ok (publish_operational_event stream et d ns c).2.
Proof.
  intros Hok. unfold publish_operational_event.
  destruct (ct_operational_sequences c !! stream) as [n|] eqn:Hn; [|done].
  set (c1 := mk_controller _ _ _ _ _).
  assert (Hobj : ct_objects c !! stream = None) by (apply Hok; by eexists).
  assert (Hs : stream_next c stream = Some n) by (unfold stream_next; by rewrite Hobj).
  assert (Hs1 : stream_next c1 stream = Some (n + 1)).
  { unfold stream_next, c1. cbn. by rewrite Hobj, lookup_insert_eq. }
  assert (Hother : ∀ s, s ≠ stream → stream_next c1 s = stream_next c s).
  { intros s Hne. unfold stream_next, c1. cbn. by rewrite lookup_insert_ne. }
  assert (Hnames : ∀ s, is_Some (ct_operational_sequences c1 !! s) → ct_objects c1 !! s = None).
  { intros s. cbn. destruct (decide (s = stream)) as [->|]; [done |].
    rewrite lookup_insert_ne by done. apply Hok. }
  pose proof (next_nonneg c stream n Hok Hs) as Hpos.
  destruct (event_validate (operational_envelope stream n et d ns)) as [u|x] eqn:Hv; cbn [snd].
  - eapply (append_streams c c1 stream n (operational_envelope stream n et d ns)); try done.
    by eapply event_validate_ok.
  - by apply (advance_streams c c1 stream n).
Qed.

Lemma broker_op_streams op c :
  (∀ env, op ≠ OpPublish env) → streams_ok c →
  streams_ok (with_broker (broker_op op (ct_broker c)).2 c).
Proof.
  intros Hop [R S N]. destruct op as [env|rid|i|i]; [by destruct (Hop env) | | |];
    constructor; cbn; try done; try (intros stream; apply R).
  - intros sid sub. rewrite lookup_insert_Some. intros [[<- <-]|[_ Hs]]; [|by apply (S sid)].
    cbn. eapply next_ok_sublist; [|apply (R rid)]. apply sublist_drop.
  - intros sid sub. rewrite lookup_delete_Some. intros [_ Hs]. by apply (S sid).
  - intros stream. unfold drain. destruct (eb_subs (ct_broker c) !! i); apply R.
  - intros sid sub. unfold drain. destruct (eb_subs (ct_broker c) !! i) as [sub0|] eqn:H0; cbn.
    + rewrite lookup_insert_Some. intros [[<- <-]|[_ Hs]]; [|by apply (S sid)].
      cbn. eapply next_ok_sublist; [|apply (S i sub0 H0)]. apply sublist_nil_l.
    + apply (S sid).
Qed.

(** ** Every reachable state *)
Lemma runnable_streams {A} (k : Run → CM A) id c :
  (∀ r, streams_ok (k r c).2) → streams_ok c →
  streams_ok ((r ← require_run id; _ ← ensure_active_runnable r; k r) c).2.
Proof.
  intros Hk Hok. unfold mbind, M_bind. destruct (require_run id c) as [out c1] eqn:Hr.
  apply require_run_ok in Hr as [-> _]. destruct out as [r|]; [|done].
  destruct (ensure_active_runnable r c) as [out c2] eqn:He.
  apply ensure_runnable_ok in He as [-> _]. by destruct out.
Qed.

Lemma play_block_streams id c : streams_ok c → streams_ok (play_block id c).2.
Proof.
  intros Hok. apply runnable_streams; [|done]. intros r.
  case_bool_decide; [done |]. case_bool_decide.
  - destruct (thread_alive r); [done |]. by apply update_run_streams.
  - unfold mbind, M_bind, assert_runtime, guardM. destruct (check _ _ _); [|done].
    by apply update_run_streams.
Qed.

Lemma pause_block_streams id c : streams_ok c → streams_ok (pause_block id c).2.
Proof.
  intros Hok. apply runnable_streams; [|done]. intros r.
  case_bool_decide; [|done]. by apply update_run_streams.
Qed.

Lemma step_block_streams id c : streams_ok c → streams_ok (step_block id c).2.
Proof.
  intros Hok. apply runnable_streams; [|done]. intros r. case_bool_decide; [|done].
  unfold mbind, M_bind, assert_runtime, guardM. cbn [negb].
  destruct (check _ _ _); [|done]. by apply update_run_streams.
Qed.

Lemma set_pacing_streams id speed c : streams_ok c → streams_ok (set_pacing id speed c).2.
Proof.
  intros Hok. unfold set_pacing. unfold mbind at 1, M_bind at 1, lift.
  destruct (match speed with inl s => parse_pacing s | inr p => Ok p end); [|done].
  apply runnable_streams; [|done]. intros r. by apply update_run_streams.
Qed.

Lemma shutdown_block_streams c : streams_ok c → streams_ok (shutdown_block c).2.
Proof.
  intros Hok.
  assert (Hn : ∀ stream, stream_next (shutdown_block c).2 stream = stream_next c stream).
  { intros stream. unfold stream_next. cbn. rewrite map_lookup_imap.
    destruct (ct_objects c !! stream); cbn; [|done]. by case_bool_decide. }
  apply (streams_advance c); try done.
  - intros stream n. rewrite Hn. intros ->. by exists n.
  - intros stream n. rewrite Hn. congruence.
  - intros stream Hs. cbn. rewrite map_lookup_imap. by rewrite (sk_names c Hok stream Hs).
Qed.

Lemma registered_streams c runs active : streams_ok c → streams_ok (with_registered runs active c).
Proof. by intros [? ? ?]. Qed.

Lemma emit_then_streams id et d pc c :
  (∀ r, ct_objects c !! id = Some r → run_replay_id r = id) → streams_ok c →
  streams_ok (emit_then id et d pc c).2.
Proof.
  intros Hid Hok. pose proof (publish_streams id et d c Hid Hok) as Hp. unfold emit_then.
  destruct (publish id et d c) as [[] c1]; by apply update_run_streams.
Qed.

Lemma worker_streams ch id c c' :
  (∀ r, ct_objects c !! id = Some r → run_replay_id r = id) → worker_step ch id c = Some c' →
  streams_ok c → streams_ok c'.
Proof.
  intros Hid Hstep Hok. unfold worker_step in Hstep.
  apply bind_Some in Hstep as (r & Hr & Hstep). apply bind_Some in Hstep as (pc & Hpc & Hstep).
  assert (Hem : ∀ et d pc', streams_ok (emit_then id et d pc' c).2) by (intros; by apply emit_then_streams).
  assert (Hup : ∀ f pc', (∀ r, run_sequence (f r) = run_sequence r) →
    streams_ok (update_run id (λ r, with_thread pc' (f r)) c).2) by (intros; by apply update_run_streams).
  destruct pc as [| |rt| | |after n cp|n|n wid|n wid|sm|sm [|[et' d'] events]|e| |]; try done;
    destruct ch as [|[rt'|e']|et d|wid'|sm'|evs|e']; try done.
  all: try (injection Hstep as <-; (apply Hem || (apply Hup; done))).
  - destruct (run_cancel_requested r); injection Hstep as <-; by apply Hup.
  - injection Hstep as <-. apply Hup. intros r'. unfold enter_run.
    destruct (bool_decide (run_state r' = CREATED)), (run_pending_resume r') eqn:Hp; cbn;
      rewrite ?Hp; cbn; repeat case_match; done.
  - apply bind_Some in Hstep as (rt & Hrt & Hstep).
    apply bind_Some in Hstep as ([out k] & Hline & Hstep). injection Hstep as <-. by apply Hup.
  - assert (Hf : streams_ok (update_run id (λ r, with_thread WkClose (fail_run e r)) c).2) by (by apply Hup).
    destruct (is_cancelled e); injection Hstep as <-; [done |].
    apply publish_streams; [|done]. intros r'. cbn. rewrite lookup_alter_eq, Hr. cbn.
    intros [= <-]. cbn. by apply Hid.
Qed.

Section reachable.
Context (capabilities : string → option SessionCapabilities) (session_trace : string → string).
Abbreviation controller_step := (controller_step capabilities session_trace).

Lemma lifecycle_streams fresh pc c :
  (∀ id r, ct_objects c !! id = Some r → run_replay_id r = id) → ct_objects c !! fresh = None →
  ct_operational_sequences c !! fresh = None → streams_ok c →
  streams_ok (lifecycle_step capabilities session_trace fresh pc c).2.
Proof.
  intros Hid Hfresh Hop Hok. unfold lifecycle_step.
  destruct pc as [out|id' a|id' a|id' a|restart a|restart a id' w|restart a id' w|restart a w|restart id'|id'];
    cbn [lifecycle_block].
  - done.
  - unfold mbind, M_bind. destruct (require_run id' c) as [out c1] eqn:Hr'.
    apply require_run_ok in Hr' as [-> _]. destruct out; [|done]. by apply update_run_streams.
  - by destruct (ct_objects c !! id') as [r'|]; [destruct (thread_alive r')|].
  - unfold mbind, M_bind, gets. change (pop_run id' c) with (Ok (A := unit) tt, (pop_run id' c).2).
    cbv beta iota. destruct (ct_objects c !! id') as [r'|]; [|by apply registered_streams]. unfold lift.
    destruct (restart_target r' a); by apply registered_streams.
  - assert (Hc : (create_check capabilities a c).2 = c).
    { unfold create_check, controller_error, throw, mbind, M_bind, mret, M_ret.
      repeat case_match; simplify_eq; done. }
    unfold mbind, M_bind. destruct (create_check capabilities a c) as [[[[]]|] c1]; cbn in Hc; by subst.
  - by destruct (ct_objects c !! id') as [r'|]; [destruct (thread_alive r')|].
  - by apply registered_streams.
  - unfold create_register, mbind, M_bind, lift.
    destruct (match ca_pacing a with inl s => parse_pacing s | inr p => Ok p end); [|done].
    apply registered_streams. cbn [snd].
    set (c1 := with_objects <[fresh:=_]> c).
    assert (Hn : ∀ s, s ≠ fresh → stream_next c1 s = stream_next c s).
    { intros s Hne. unfold stream_next, c1. cbn. by rewrite lookup_insert_ne. }
    assert (Hf : stream_next c fresh = None) by (unfold stream_next; by rewrite Hfresh, Hop).
    apply (streams_advance c); try done.
    + intros s n Hs. exists n. rewrite Hn by congruence. done || lia.
    + intros s n Hs. destruct (decide (s = fresh)) as [->|Hne]; [|rewrite Hn; congruence].
      unfold stream_next, c1. cbn. rewrite lookup_insert_eq. cbn. intros [= <-]. lia.
    + intros s Hs. unfold c1 in *. cbn in *. destruct (decide (s = fresh)) as [->|Hne].
      * rewrite Hop in Hs. by destruct Hs.
      * rewrite lookup_insert_ne by done. by apply Hok.
  - unfold mbind, M_bind, gets. pose proof (publish_streams id' REPLAY_CREATED
      (plain_event [("session_trace", JStr match ct_objects c !! id' with
        | Some r => run_session_trace r | None => "" end)]) c (Hid id') Hok) as Hp.
    destruct (publish _ _ _ c) as [[] c1]; [by destruct restart | done].
  - unfold mbind, M_bind. pose proof (play_block_streams id' c Hok) as Hp.
    by destruct (play_block id' c) as [[] c1].
Qed.

Lemma controller_step_streams s s' :
  controller_step s s' → controller_ok s.1 s.2 → streams_ok s.2 → streams_ok s'.2.
Proof.
  intros Hstep [K1 _ _ _] Hok.
  assert (Hid : ∀ id r, ct_objects s.2 !! id = Some r → run_replay_id r = id).
  { intros id r Hr. apply (K1 id r Hr). }
  destruct Hstep; cbn [fst snd] in *; try done.
  - by apply lifecycle_streams.
  - eapply worker_streams; [|eassumption|done]. intros r Hr. by apply Hid.
  - by apply play_block_streams.
  - by apply pause_block_streams.
  - by apply step_block_streams.
  - by apply set_pacing_streams.
  - by apply shutdown_block_streams.
  - apply publish_streams; [|done]. intros r Hr. by apply Hid.
  - by apply operational_streams.
  - by apply broker_op_streams.
Qed.

Lemma new_controller_streams ring queue broker :
  new_broker ring queue = Ok broker → streams_ok (new_controller broker).
Proof.
  unfold new_broker. intros (u & _ & [= <-])%result_bind_ok. constructor; cbn; try done.
  intros stream. unfold next_ok. destruct (stream_next _ stream) as [n|] eqn:Hn; [|done].
  split; [|apply stream_ok_nil]. unfold stream_next in Hn. cbn in Hn. rewrite lookup_empty in Hn.
  rewrite !lookup_insert_Some in Hn. rewrite lookup_empty in Hn. naive_solver lia.
Qed.

Lemma reachable_streams ring queue s :
  reachable capabilities session_trace ring queue s → streams_ok s.2.
Proof.
  intros (broker & out & Hb & Hsteps).
  assert (Hok : controller_ok (LcReturn out, new_controller broker).1 (LcReturn out, new_controller broker).2)
    by apply new_controller_ok.
  assert (Hst : streams_ok (LcReturn out, new_controller broker).2) by by eapply new_controller_streams.
  induction Hsteps as [|s1 s2 s3 Hs _ IH]; [done |].
  apply IH; [by eapply controller_step_ok | by eapply controller_step_streams].
Qed.
End reachable.

(** * Cancelling a replay

    After a cancellation the worker of a replay cannot block and goes on for at
    most one window, provided the request does not reach it between its first test
    in [checkpoint] and the [clear()] there ([safe_pc]): the worker reads and
    clears without a lock.  Inside that interval the request is lost until it is
    repeated, and a resumption can fail the replay; [exec] replays such
    interleavings. *)
Lemma request_cancel_stopping r :
  (∀ pc, run_thread r = Some pc → safe_pc pc = true) → stopping (request_cancel r).
Proof.
  intros Hs. constructor; cbn; try done. destruct (run_runtime r); cbn; [|done]. by intros ? [= <-].
Qed.

(** Steps left before the worker of a stopping run ends, events apart. *)
Definition stop_rank (pc : WorkerPc) : nat :=
  match pc with
  | WkStart => 20 | WkBuild => 19 | WkAttach _ => 18 | WkEnter => 17 | WkStarted => 16
  | WkTop _ => 15 | WkWindow _ _ => 14 | WkWindowDone _ _ => 13
  | WkCheckpoint _ _ CpTest => 12 | WkCheckpoint _ _ CpWait => 11
  | WkCheckpoint _ _ _ => 10
  | WkComplete _ => 9 | WkSnapshots _ _ => 8
  | WkFail _ => 2 | WkClose => 1 | WkDone => 0
  end.

(** The steps that emit an event and stay. *)
Definition is_emission (ch : WorkerChoice) (pc : WorkerPc) : bool :=
  match pc, ch with
  | WkWindow _ _, ChEmit _ _ => true
  | WkSnapshots _ (_ :: _), ChNext => true
  | _, _ => false
  end.

Lemma emit_then_thread id et d pc c r :
  ct_objects c !! id = Some r →
  ∃ r' pc', ct_objects (emit_then id et d pc c).2 !! id = Some r' ∧ run_thread r' = Some pc' ∧
    (pc' = pc ∨ ∃ e, pc' = WkFail e).
Proof.
  intros Hr. destruct (emit_then_state id et d pc c r Hr) as (b & pc' & -> & Hpc). cbn.
  rewrite lookup_alter_eq, Hr. eexists _, pc'. done.
Qed.

(** Every step of the worker of a stopping run ends it or brings it closer. *)
Lemma stopping_worker ch id c c' r pc :
  ct_objects c !! id = Some r → run_thread r = Some pc → stopping r →
  worker_step ch id c = Some c' →
  ∃ r' pc', ct_objects c' !! id = Some r' ∧ run_thread r' = Some pc' ∧
    ((stop_rank pc' < stop_rank pc)%nat ∨ is_emission ch pc = true ∧ stop_rank pc' = stop_rank pc).
Proof.
  intros Hr Hpc [S1 S2 S3] Hstep. unfold worker_step in Hstep. rewrite Hr in Hstep. cbn in Hstep.
  rewrite Hpc in Hstep. cbn in Hstep. specialize (S2 pc Hpc).
  pose (closer pc' := (stop_rank pc' < stop_rank pc)%nat ∨
    is_emission ch pc = true ∧ stop_rank pc' = stop_rank pc).
  change (∃ r' pc', ct_objects c' !! id = Some r' ∧ run_thread r' = Some pc' ∧ closer pc').
  assert (Hgo : ∀ f pc2, (stop_rank pc2 < stop_rank pc)%nat →
    ∃ r' pc', ct_objects (update_run id (λ r, with_thread pc2 (f r)) c).2 !! id = Some r' ∧
      run_thread r' = Some pc' ∧ closer pc').
  { intros f pc2 Hlt. cbn. rewrite lookup_alter_eq, Hr. cbn. eexists _, pc2.
    split_and!; [done | done | by left]. }
  assert (Hem : ∀ et d pc2, (2 < stop_rank pc)%nat → closer pc2 →
    ∃ r' pc', ct_objects (emit_then id et d pc2 c).2 !! id = Some r' ∧
      run_thread r' = Some pc' ∧ closer pc').
  { intros et d pc2 H2 Hlt. destruct (emit_then_thread id et d pc2 c r Hr) as (r' & pc3 & Hr' & Ht & Hp).
    exists r', pc3. split_and!; [done | done |]. destruct Hp as [->|[e ->]]; [done | by left]. }
  destruct pc as [| |rt| | |after n cp|n|n wid|n wid|sm|sm [|[et' d'] events]|e| |]; try done;
    destruct ch as [|[rt'|e']|et d|wid'|sm'|evs|e']; try done.
  all: try (injection Hstep as <-; first
    [ apply Hgo; cbn; lia | apply Hem; [cbn; lia |]; (left; cbn; lia) || (right; split; reflexivity) ]).
  - rewrite S1 in Hstep. injection Hstep as <-. apply Hgo. cbn. lia.
  - rewrite S1 in Hstep. injection Hstep as <-. apply Hgo. cbn. lia.
  - apply bind_Some in Hstep as (rt & Hrt & Hstep).
    apply bind_Some in Hstep as ([out k] & Hline & Hstep). injection Hstep as <-.
    destruct (S3 rt Hrt) as [Hcan Hset]. apply Hgo.
    destruct cp; cbn in Hline, S2; rewrite ?Hcan, ?Hset in Hline; try done;
      injection Hline as <- <-; cbn; lia.
  - destruct (is_cancelled e); injection Hstep as <-; [apply Hgo; cbn; lia |].
    match goal with |- context [publish id REPLAY_FAILED ?d ?c1] =>
      destruct (publish_state id REPLAY_FAILED d c1) as (out & b & -> & _) end.
    cbn. rewrite lookup_alter_eq, Hr. cbn. rewrite !lookup_alter_eq, ?Hr. cbn.
    eexists _, WkClose. split_and!; [done | done | left; cbn; lia].
Qed.

(** ... and it is never blocked. *)
Lemma stopping_not_blocked id c r :
  ct_objects c !! id = Some r → run_ok id r → stopping r → thread_alive r = true →
  ∃ ch c', worker_step ch id c = Some c'.
Proof.
  intros Hr [Hi Hs Hrt Hp Hq] [S1 S2 S3] Ha. unfold thread_alive in Ha.
  destruct (run_thread r) as [pc|] eqn:Hpc; [|done]. specialize (S2 pc eq_refl).
  assert (Hw : ∀ ch, worker_step ch id c = worker_step ch id c) by done.
  unfold worker_step. rewrite Hr. cbn. rewrite Hpc. cbn.
  destruct pc as [| |rt| | |after n cp|n|n wid|n wid|sm|sm [|[et' d'] events]|e| |]; try done;
    try (exists ChNext; by eexists).
  - exists (ChBuild (raise RuntimeError "")). by eexists.
  - exists ChNext. rewrite S1. by eexists.
  - exists ChNext. cbn in Hrt. destruct (run_runtime r) as [rt|] eqn:Hr'; [|naive_solver].
    destruct (S3 rt eq_refl) as [Hcan Hset]. cbn.
    destruct cp; cbn in *; rewrite ?Hcan, ?Hset; try done; by eexists.
  - exists (ChWindow 0). by eexists.
  - exists (ChSnapshots []). by eexists.
  - exists ChNext. destruct (is_cancelled e); by eexists.
Qed.

(** ** Scripts: sequences of steps to replay *)
Inductive Act :=
  | ActCreate (a : CreateArgs)
  | ActRestart (id : string) (a : RestartArgs)
  | ActLifecycle (fresh : string)
  | ActWork (id : string) (ch : WorkerChoice)
  | ActPlay (id : string)
  | ActPause (id : string)
  | ActStep (id : string)
  | ActPublish (id : string) (et : ReplayEventType) (d : EventData).

Section exec.
Context (capabilities : string → option SessionCapabilities) (session_trace : string → string).

Definition exec (a : Act) (s : LifecyclePc * Controller) : option (LifecyclePc * Controller) :=
  let '(pc, c) := s in
  match a, pc with
  | ActCreate a, LcReturn _ => Some (LcCheck false a, c)
  | ActRestart id a, LcReturn _ => Some (LcCancel id a, c)
  | ActLifecycle fresh, _ =>
      match ct_objects c !! fresh, ct_operational_sequences c !! fresh with
      | None, None => Some (lifecycle_step capabilities session_trace fresh pc c)
      | _, _ => None
      end
  | ActWork id ch, _ => c' ← worker_step ch id c; Some (pc, c')
  | ActPlay id, _ => Some (pc, (play_block id c).2)
  | ActPause id, _ => Some (pc, (pause_block id c).2)
  | ActStep id, _ => Some (pc, (step_block id c).2)
  | ActPublish id et d, _ => Some (pc, (publish id et d c).2)
  | _, _ => None
  end.

Fixpoint exec_all (script : list Act) (s : LifecyclePc * Controller)
    : option (LifecyclePc * Controller) :=
  match script with
  | [] => Some s
  | a :: script => s' ← exec a s; exec_all script s'
  end.

Lemma exec_step a s s' : exec a s = Some s' → controller_step capabilities session_trace s s'.
Proof.
  destruct s as [pc c]. unfold exec. destruct a as [a|id a|fresh|id ch|id|id|id|id et d].
  - destruct pc; try done. intros [= <-]. constructor.
  - destruct pc; try done. intros [= <-]. constructor.
  - destruct (ct_objects c !! fresh) eqn:H1; [done |].
    destruct (ct_operational_sequences c !! fresh) eqn:H2; [done |].
    intros [= <-]. by constructor.
  - intros (c' & Hw & [= <-])%bind_Some. by eapply step_worker.
  - intros [= <-]. constructor.
  - intros [= <-]. constructor.
  - intros [= <-]. constructor.
  - intros [= <-]. constructor.
Qed.

Lemma exec_all_steps script : ∀ s s',
  exec_all script s = Some s' → rtc (controller_step capabilities session_trace) s s'.
Proof.
  induction script as [|a script IH]; cbn; intros s s'.
  - by intros [= <-].
  - intros (s1 & H1 & H2)%bind_Some. eapply rtc_l; [by eapply exec_step | by apply IH].
Qed.

Lemma exec_reachable ring queue broker out script s :
  new_broker ring queue = Ok broker →
  exec_all script (LcReturn out, new_controller broker) = Some s →
  reachable capabilities session_trace ring queue s.
Proof. intros Hb Hs. exists broker, out. split; [done | by eapply exec_all_steps]. Qed.
End exec.
