(* ===== verification/EvProperties.v ===== *)
(** * Properties of the replay controller and its events

    Delivery of events to subscribers, the numbering of the streams, the life of
    a replay, and its cancellation; each with a concrete instance.  Further theorems
    show the races in [checkpoint] and a completed replay that fails. *)

From S2P Require Import Prelude PyString Json Firewall EvBroker EvReplay EvReplayFacts EvStreams.

Definition capabilities1 (session_id : string) : option SessionCapabilities :=
  if bool_decide (session_id = "session-1") then Some (mk_caps ["feature_store"] (Some 2)) else None.
Definition trace1 (session_id : string) : string := "0a1b2c3d4e5f6071".
Definition broker1 : EventBroker := mk_broker 8 4 [] ∅ 1.
Definition start1 : LifecyclePc * Controller := (LcReturn (Ok ""), new_controller broker1).
Definition runtime1 : Runtime := mk_runtime (new_control false) 0 None "max" None false.
Definition create1 : CreateArgs := mk_create_args "session-1" "feature_store" (inl "max").
Definition no_overrides : RestartArgs := mk_restart_args None None None.

Definition creating : list Act :=
  [ActCreate create1; ActLifecycle "r1"; ActLifecycle "r1"; ActLifecycle "x"].
Definition next : Act := ActWork "r1" ChNext.
(** Up to the first window. *)
Definition starting : list Act :=
  [ActPlay "r1"; next; ActWork "r1" (ChBuild (Ok runtime1)); next; next; next; next; next; next; next].
(** Pause, ask for one window, process it, and go to the [clear()] of the
    checkpoint after it. *)
Definition stepping : list Act :=
  [ActPause "r1"; ActStep "r1"; ActWork "r1" (ChWindow 7); next; next; next; next].

Definition run_script (script : list Act) : option (LifecyclePc * Controller) :=
  exec_all capabilities1 trace1 script start1.
Definition run_of (s : option (LifecyclePc * Controller)) : option Run :=
  s ≫= λ s, ct_objects s.2 !! "r1".

Lemma script_reachable script s :
  run_script script = Some s → reachable capabilities1 trace1 8 4 s.
Proof. apply exec_reachable. reflexivity. Qed.

Definition outcome (s : option (LifecyclePc * Controller)) : option (ReplayState * option WorkerPc) :=
  r ← run_of s; Some (run_state r, run_thread r).

(** * Properties *)

(** C38: delivery.  A new subscriber is given the newest events of its replay that
    the ring still holds.  From then on, whatever else the broker does, what its
    drains return, in order, followed by what it still queues, is a sublist of
    those events and the events published since; it is all of them exactly when
    no drain has reported a loss and the subscriber is not marked as lagging; and
    up to the first report it is a prefix.  Its queue never exceeds its limit. *)
Theorem subscriber_delivery replay_id b sid sub b1 ops answers b2 :
  (0 < eb_subscriber_queue_size b)%nat → subscribe replay_id b = (Ok (sid, sub), b1) →
  OpUnsubscribe sid ∉ ops → watch sid ops b1 = (answers, b2) →
  sub_queue sub = last_n (eb_subscriber_queue_size b) (of_replay replay_id (eb_ring b)) ∧
  ∃ sub', eb_subs b2 !! sid = Some sub' ∧
    let given := concat answers.*1 ++ sub_queue sub' in
    let stream := sub_queue sub ++ published replay_id ops in
    (length (sub_queue sub') ≤ eb_subscriber_queue_size b)%nat ∧ given `sublist_of` stream ∧
    (given = stream ↔ existsb snd answers = false ∧ sub_state sub' ≠ LAGGED) ∧
    (existsb snd answers = false → given `prefix_of` stream).
Proof.
  intros Hsz Hsub Hun Hw. unfold subscribe in Hsub. injection Hsub as <- <- <-. split; [done |].
  set (sub := mk_subscriber _ _ _ _) in *. set (b1 := mk_broker _ _ _ _ _) in *.
  assert (Hf : follows (eb_subscriber_queue_size b1) (sub_queue sub) [] false sub).
  { constructor; cbn; try done. unfold last_n. rewrite length_drop. lia. }
  pose proof (watch_follows (eb_next_id b) ops b1 sub (sub_queue sub) [] false) as H.
  rewrite Hw in H. destruct H as (sub' & Hs' & [Ho Hr Hfull Hs Hp Hl]); try done.
  - apply lookup_insert_eq.
  - cbn. lia.
  - exists sub'. done.
Qed.

Section replay.
Context (capabilities : string → option SessionCapabilities) (session_trace : string → string).

(** C39: the life of a replay.  In every state the controller can reach, by any
    interleaving of its requests, its workers and the lifecycle operation: at most
    one replay is registered, it is the active one, and no other replay has a live
    worker; a running or paused replay has a runtime, so that no control fails its
    assertion.  The next step changes the state of a replay only by a [transition]:
    CREATED to RUNNING when its worker enters the running phase, RUNNING to PAUSED and
    back, RUNNING or PAUSED to COMPLETED when its worker completes, and any state but
    FAILED to FAILED when its worker fails.  Along any further history a terminal
    replay stays terminal, a failed one stays failed, one whose worker has ended keeps
    its terminal state, sequence numbers never go back and a cancellation is never
    taken back.  A completed replay whose worker still lives can become failed:
    [completed_can_become_failed]. *)
Theorem replay_lifecycle ring queue s :
  reachable capabilities session_trace ring queue s →
  (∀ id id', id ∈ ct_runs s.2 → id' ∈ ct_runs s.2 → id = id' ∧ ct_active_id s.2 = Some id) ∧
  (∀ id r, ct_objects s.2 !! id = Some r → thread_alive r = true → id ∈ ct_runs s.2) ∧
  (∀ id out c', (play_block id s.2 = (Raise out, c') ∨ ∃ o, step_block id s.2 = (o, c') ∧ o = Raise out) →
     exn_type out ≠ AssertionError) ∧
  (∀ s' id r, controller_step capabilities session_trace s s' → ct_objects s.2 !! id = Some r →
     ∃ r', ct_objects s'.2 !! id = Some r' ∧ transition r (run_state r')) ∧
  (∀ s' id r, rtc (controller_step capabilities session_trace) s s' → ct_objects s.2 !! id = Some r →
     ∃ r', ct_objects s'.2 !! id = Some r' ∧
       (is_terminal (run_state r) = true → is_terminal (run_state r') = true) ∧
       (run_state r = FAILED → run_state r' = FAILED) ∧
       (is_terminal (run_state r) = true → thread_alive r = false → run_state r' = run_state r) ∧
       run_sequence r ≤ run_sequence r' ∧
       (run_cancel_requested r = true → run_cancel_requested r' = true)).
Proof.
  intros Hreach. pose proof (reachable_ok _ _ _ _ _ Hreach) as Hok. pose proof Hok as [K1 K2 K3 K4].
  split_and!.
  - intros id id' H1 H2. destruct (K2 _ H1) as [_ A1], (K2 _ H2) as [_ A2]. split; congruence.
  - intros id r Hr Ha. destruct (decide (id ∈ ct_runs s.2)) as [|Hn]; [done |].
    specialize (K3 id r Hr Hn). unfold dead in K3. congruence.
  - intros id out c' [Hrun|(o & Hrun & ->)].
    + by apply (play_no_assertion id s.2 out c' K1).
    + by apply (step_no_assertion id s.2 out c' K1).
  - intros s' id r Hs Hr. by eapply controller_step_transition.
  - intros s' id r Hs Hr. destruct (history_runs _ _ s s' id r Hs Hok Hr) as (r' & Hr' & [Ot Of Od Os Oc]).
    exists r'. split_and!; try done. intros Ht Hd. by apply Od.
Qed.

(** Event streams.  In every reachable state, the events of a stream that the
    ring holds, and those a subscriber queues, have increasing sequence numbers
    below the stream's next number, distinct identifiers made from them, and no
    ground truth in payload or provenance; no stream has events before it
    exists.  A publication consumes exactly one number; the event is published
    exactly when its envelope is valid, and an invalid one leaves a gap. *)
Theorem stream_numbering ring queue s :
  reachable capabilities session_trace ring queue s →
  (∀ stream, let l := of_replay stream (eb_ring (ct_broker s.2)) in
     match stream_next s.2 stream with Some n => 0 ≤ n ∧ stream_ok stream n l | None => l = [] end) ∧
  (∀ sid sub, eb_subs (ct_broker s.2) !! sid = Some sub →
     ∃ n, (stream_next s.2 (sub_replay_id sub) = Some n ∨ sub_queue sub = []) ∧
       stream_ok (sub_replay_id sub) n (sub_queue sub)) ∧
  (∀ id et d r, ct_objects s.2 !! id = Some r →
     let '(out, c') := publish id et d s.2 in
     stream_next c' id = Some (run_sequence r + 1) ∧
     match out with
     | Ok e => ev_sequence_number e = run_sequence r ∧ ev_replay_id e = id ∧ event_validate e = Ok tt ∧
         eb_ring (ct_broker c') = push_bounded (eb_ring_size (ct_broker s.2)) e (eb_ring (ct_broker s.2))
     | Raise _ => ct_broker c' = ct_broker s.2
     end).
Proof.
  intros Hreach. pose proof (reachable_streams _ _ _ _ _ Hreach) as [R S _].
  pose proof (reachable_ok _ _ _ _ _ Hreach) as [K1 _ _ _]. split_and!.
  - exact R.
  - intros sid sub Hs. specialize (S sid sub Hs). unfold next_ok in S.
    destruct (stream_next s.2 (sub_replay_id sub)) as [n|].
    + exists n. split; [by left | apply S].
    + exists 0. split; [by right |]. rewrite S. apply stream_ok_nil.
  - intros id et d r Hr. rewrite (publish_cases id et d s.2 r Hr).
    destruct (advance_one id s.2 r Hr) as [Hn _].
    destruct (event_validate (envelope_of r et d)) as [u|x] eqn:Hv; [|done].
    split; [exact Hn |]. split_and!; [done | apply (K1 id r Hr) | by eapply event_validate_ok | done].
Qed.

(** C40: cancellation.  A request to cancel that finds the worker outside the
    unprotected part of [checkpoint] makes the replay stop: from then on, whatever
    else happens, the worker is never blocked, and each of its steps lowers its
    rank or emits an event of the window it is in; so it finishes at most that
    window before it ends. *)
Theorem cancellation_stops ring queue s s' id r :
  reachable capabilities session_trace ring queue s →
  ct_objects s.2 !! id = Some r → (∀ pc, run_thread r = Some pc → safe_pc pc = true) →
  rtc (controller_step capabilities session_trace)
    (s.1, (update_run id request_cancel s.2).2) s' →
  ∃ r', ct_objects s'.2 !! id = Some r' ∧ stopping r' ∧
    (thread_alive r' = true → ∃ ch c', worker_step ch id s'.2 = Some c') ∧
    (∀ ch c' pc, worker_step ch id s'.2 = Some c' → run_thread r' = Some pc →
       ∃ r2 pc2, ct_objects c' !! id = Some r2 ∧ run_thread r2 = Some pc2 ∧
         ((stop_rank pc2 < stop_rank pc)%nat ∨
          is_emission ch pc = true ∧ stop_rank pc2 = stop_rank pc)).
Proof.
  intros Hreach Hr Hsafe Hsteps.
  pose proof (reachable_ok _ _ _ _ _ Hreach) as Hok.
  assert (Hok1 : controller_ok s.1 (update_run id request_cancel s.2).2).
  { eapply objects_step_ok; [|exact Hok]. apply update_run_step. intros r' _ Hr'. by apply request_cancel_step. }
  assert (Hr1 : ct_objects (update_run id request_cancel s.2).2 !! id = Some (request_cancel r)).
  { cbn. by rewrite lookup_alter_eq, Hr. }
  destruct (history_stopping _ _ _ _ id _ Hsteps Hok1 Hr1 (request_cancel_stopping r Hsafe))
    as (r' & Hr' & Hst & Hok').
  exists r'. split_and!; [done | done | by apply stopping_not_blocked |].
  intros ch c' pc Hw Hpc. by eapply stopping_worker.
Qed.
End replay.

(** * What the unprotected part of [checkpoint] allows *)

(** A cancellation that reaches the worker between its first test and [clear()] is
    lost: the restart that requested it times out while the worker waits, blocked,
    with the cancellation set and its event cleared. *)
Definition lost_cancel_script : list Act :=
  creating ++ starting ++ stepping ++
  [next; ActRestart "r1" no_overrides; ActLifecycle "x"; next; next; ActLifecycle "x"].

Theorem lost_cancellation : ∃ s r rt,
  reachable capabilities1 trace1 8 4 s ∧ ct_objects s.2 !! "r1" = Some r ∧
  run_runtime r = Some rt ∧ run_cancel_requested r = true ∧ rc_cancelled (rt_control rt) = true ∧
  rc_pause_event (rt_control rt) = false ∧ (∀ ch, worker_step ch "r1" s.2 = None) ∧
  s.1 = LcReturn (raise (OtherError "ControllerError/restart_timeout")
                    "replay r1 did not stop before restart timeout").
Proof.
  destruct (run_script lost_cancel_script) as [s|] eqn:Hs; [|vm_compute in Hs; discriminate Hs].
  pose proof (script_reachable _ _ Hs) as Hreach. vm_compute in Hs. injection Hs as <-.
  eexists _, _, _. split; [exact Hreach |].
  split; [vm_compute; reflexivity |]. split; [reflexivity |].
  split_and!; try reflexivity. intros []; vm_compute; try reflexivity.
  all: by destruct out.
Qed.

(** A play between the two reads of [step_limit] fails the replay. *)
Definition failing_play_script : list Act :=
  creating ++ starting ++ stepping ++ [ActPlay "r1"; next; next; next].

Theorem play_can_fail_replay : ∃ s r,
  reachable capabilities1 trace1 8 4 s ∧ ct_objects s.2 !! "r1" = Some r ∧
  run_state r = FAILED ∧ run_error r = Some "TypeError: '>=' not supported between instances".
Proof.
  destruct (run_script failing_play_script) as [s|] eqn:Hs; [|vm_compute in Hs; discriminate Hs].
  pose proof (script_reachable _ _ Hs) as Hreach. vm_compute in Hs. injection Hs as <-.
  eexists _, _. split; [exact Hreach |]. split; [vm_compute; reflexivity |]. done.
Qed.

(** * What the worker may do after the end *)

(** A replay is COMPLETED before its last snapshots are published; when one of them
    raises, the same replay is FAILED. *)
Definition summary1 : ReplaySummary := mk_summary 0 0 0 f_zero.
Definition completing_script : list Act :=
  creating ++ starting ++ [ActWork "r1" (ChSummary summary1); ActWork "r1" (ChSnapshots [])].
Definition undoing_script : list Act :=
  [ActWork "r1" (ChRaise (Exn ValueError "no snapshot")); next; next].

Theorem completed_can_become_failed : ∃ s s' r r',
  reachable capabilities1 trace1 8 4 s ∧ ct_objects s.2 !! "r1" = Some r ∧ run_state r = COMPLETED ∧
  rtc (controller_step capabilities1 trace1) s s' ∧ ct_objects s'.2 !! "r1" = Some r' ∧
  run_state r' = FAILED ∧ thread_alive r' = false ∧ run_error r' = Some "ValueError: no snapshot".
Proof.
  destruct (run_script completing_script) as [s|] eqn:Hs; [|vm_compute in Hs; discriminate Hs].
  pose proof (script_reachable _ _ Hs) as Hreach. vm_compute in Hs. injection Hs as <-.
  match type of Hreach with reachable _ _ _ _ ?s => set (s1 := s) in * end.
  destruct (exec_all capabilities1 trace1 undoing_script s1) as [s'|] eqn:Hs'; [|vm_compute in Hs'; discriminate Hs'].
  pose proof (exec_all_steps _ _ _ _ _ Hs') as Hsteps. vm_compute in Hs'. injection Hs' as <-.
  eexists s1, _, _, _. split; [exact Hreach |]. split; [vm_compute; reflexivity |]. split; [reflexivity |].
  split; [exact Hsteps |]. split; [vm_compute; reflexivity |]. split_and!; reflexivity.
Qed.

(** * Concrete instances *)

Definition event1 (n : Z) : EventEnvelopeV1 :=
  mk_event "r1" (event_id_of "r1" n) n WINDOW_STARTED None (Some n) CONTROLLER_COMPONENT None [] [].
Definition ops1 : list BrokerOp :=
  [OpPublish (event1 2); OpDrain 1; OpPublish (event1 3); OpSubscribe "r2"; OpPublish (event1 4)].
Definition broker2 : EventBroker := mk_broker 2 2 [event1 0; event1 1] ∅ 1.

Lemma subscriber_delivery_witness :
  ∃ sub', eb_subs (watch 1 ops1 (subscribe "r1" broker2).2).2 !! 1 = Some sub' ∧
    [event1 0; event1 1] ++ sub_queue sub' `sublist_of` map event1 [0; 1; 2; 3; 4].
Proof.
  destruct (subscriber_delivery "r1" broker2 1 (mk_subscriber 1 "r1" [event1 0; event1 1] ACTIVE)
    (subscribe "r1" broker2).2 ops1 [([event1 0; event1 1], true)]
    (watch 1 ops1 (subscribe "r1" broker2).2).2) as (_ & sub' & Hs & _ & Hsub & _).
  - vm_compute. constructor. constructor.
  - vm_compute. reflexivity.
  - unfold ops1. set_solver.
  - vm_compute. reflexivity.
  - exists sub'. exact (conj Hs Hsub).
Defined.

Definition running_script : list Act := creating ++ starting.
Definition running1 : LifecyclePc * Controller := default start1 (run_script running_script).
Lemma running1_run : run_script running_script = Some running1.
Proof. vm_compute. reflexivity. Qed.
Definition run1 : Run := default (new_run "" "" "" "" MAX None) (ct_objects running1.2 !! "r1").
Lemma run1_found : ct_objects running1.2 !! "r1" = Some run1.
Proof. vm_compute. reflexivity. Qed.
Lemma running1_reachable : reachable capabilities1 trace1 8 4 running1.
Proof. apply (script_reachable running_script), running1_run. Qed.

Definition paused1 : LifecyclePc * Controller := (running1.1, (pause_block "r1" running1.2).2).
Lemma paused1_step : controller_step capabilities1 trace1 running1 paused1.
Proof. unfold paused1. destruct running1 as [pc c]. apply step_pause. Qed.
Lemma paused1_state : run_state <$> ct_objects paused1.2 !! "r1" = Some PAUSED.
Proof. vm_compute. reflexivity. Qed.

(** The running replay is registered, and pausing it is a transition. *)
Lemma replay_lifecycle_witness : "r1" ∈ ct_runs running1.2 ∧
  ∃ r', ct_objects paused1.2 !! "r1" = Some r' ∧ transition run1 (run_state r') ∧
    run_state run1 = RUNNING ∧ run_state r' = PAUSED.
Proof.
  destruct (replay_lifecycle capabilities1 trace1 8 4 running1 running1_reachable) as (_ & Hreg & _ & Hstep & _).
  split; [apply (Hreg "r1" run1 run1_found); vm_compute; reflexivity |].
  destruct (Hstep paused1 "r1" run1 paused1_step run1_found) as (r' & Hr' & Ht).
  exists r'. split; [exact Hr' |]. split; [exact Ht |]. split; [vm_compute; reflexivity |].
  pose proof paused1_state as Hp. rewrite Hr' in Hp. injection Hp as Hp. exact Hp.
Defined.

Lemma stream_numbering_witness :
  stream_ok "r1" 2 (of_replay "r1" (eb_ring (ct_broker running1.2))) ∧
  length (of_replay "r1" (eb_ring (ct_broker running1.2))) = 2%nat.
Proof.
  pose proof (proj1 (stream_numbering capabilities1 trace1 8 4 running1 running1_reachable) "r1") as H.
  cbv zeta in H. assert (Hn : stream_next running1.2 "r1" = Some 2) by (vm_compute; reflexivity).
  rewrite Hn in H. split; [apply H | vm_compute; reflexivity].
Defined.

Lemma cancellation_stops_witness : ∃ r',
  ct_objects (update_run "r1" request_cancel running1.2).2 !! "r1" = Some r' ∧ stopping r'.
Proof.
  destruct (cancellation_stops capabilities1 trace1 8 4 running1
    (running1.1, (update_run "r1" request_cancel running1.2).2) "r1" run1) as (r' & Hr' & Hs & _).
  - apply running1_reachable.
  - apply run1_found.
  - intros pc. vm_compute. intros [= <-]. reflexivity.
  - apply rtc_refl.
  - exists r'. exact (conj Hr' Hs).
Defined.
