(* ===== verification/WfState.v ===== *)
(** * The workflow service: its state

    Models the first part of [backend/app/services/workflow_service.py]: the
    state of a window and of a replay's workflow, the bounded table of window
    states, the per-replay action committer and the publication of workflow
    events.  Window states are shared objects (a window is in the table, among
    the recent windows and in the hands of the running window at once), so they
    live in a heap, [wr_windows], and are referred to by their address.  The
    committer's ledger and instrumentation are the service's Blackboard and the
    replay's instrumentation: only the rest of the ledger is kept per replay. *)

From S2P Require Import Prelude PyString Json BbContracts BbCoordinator BbReads OrCoordinator SimGateway.
From S2P Require Import AgContracts AgRecords AgCore AgSpecialists AgCommit BsService AgLedger AgGateway.
From S2P Require Import EvBroker EvReplay.

(** ** Data *)
Inductive WindowStatus := WINDOW_OPEN | WINDOW_DONE | WINDOW_BROKEN.
#[export] Instance window_status_eq_dec : EqDecision WindowStatus.
Proof. solve_decision. Defined.

Definition window_status_value (s : WindowStatus) : string :=
  match s with WINDOW_OPEN => "STARTED" | WINDOW_DONE => "COMPLETED" | WINDOW_BROKEN => "FAILED" end.

(** One entry of [agent_executions]. *)
Record AgentExecution := mk_agent_execution {
  ax_agent_id : AgentId;
  ax_dispatch_id : string;
  ax_execution_id : string;
}.

(** The four single-entity identifiers, of the event-attribution entity. *)
Record EntityProjection := mk_projection {
  pj_threat_correlation_id : option string;
  pj_risk_recommendation_id : option string;
  pj_access_recommendation_id : option string;
  pj_enforcement_decision_id : option string;
}.

Record WorkflowWindowState := mk_window_state {
  ws_window_id : Z;
  ws_workflow_id : string;
  ws_replay_id : string;
  ws_entity_id : string;
  ws_logical_timestamp : option string;
  ws_status : WindowStatus;
  ws_dispatch_ids : list string;
  ws_execution_ids : list string;
  ws_agent_executions : list AgentExecution;
  ws_threat_correlation_ids : list (string * string);
  ws_risk_recommendation_ids : list (string * string);
  ws_access_recommendation_ids : list (string * string);
  ws_enforcement_decision_ids : list (string * string);
  ws_projection : EntityProjection;
  ws_failures : list string;
  ws_entity_ids : list string;
}.

Definition new_window_state (window_id : Z) (workflow_id replay_id entity_id : string)
    (logical_timestamp : option string) : WorkflowWindowState :=
  mk_window_state window_id workflow_id replay_id entity_id logical_timestamp WINDOW_OPEN [] [] []
    [] [] [] [] (mk_projection None None None None) [] [].

Definition set_status (st : WindowStatus) (w : WorkflowWindowState) : WorkflowWindowState :=
  mk_window_state (ws_window_id w) (ws_workflow_id w) (ws_replay_id w) (ws_entity_id w)
    (ws_logical_timestamp w) st (ws_dispatch_ids w) (ws_execution_ids w) (ws_agent_executions w)
    (ws_threat_correlation_ids w) (ws_risk_recommendation_ids w) (ws_access_recommendation_ids w)
    (ws_enforcement_decision_ids w) (ws_projection w) (ws_failures w) (ws_entity_ids w).

Definition add_failure (text : string) (w : WorkflowWindowState) : WorkflowWindowState :=
  mk_window_state (ws_window_id w) (ws_workflow_id w) (ws_replay_id w) (ws_entity_id w)
    (ws_logical_timestamp w) (ws_status w) (ws_dispatch_ids w) (ws_execution_ids w)
    (ws_agent_executions w) (ws_threat_correlation_ids w) (ws_risk_recommendation_ids w)
    (ws_access_recommendation_ids w) (ws_enforcement_decision_ids w) (ws_projection w)
    (ws_failures w ++ [text]) (ws_entity_ids w).

Definition add_dispatch (dispatch_id : string) (w : WorkflowWindowState) : WorkflowWindowState :=
  mk_window_state (ws_window_id w) (ws_workflow_id w) (ws_replay_id w) (ws_entity_id w)
    (ws_logical_timestamp w) (ws_status w) (ws_dispatch_ids w ++ [dispatch_id])
    (ws_execution_ids w) (ws_agent_executions w) (ws_threat_correlation_ids w)
    (ws_risk_recommendation_ids w) (ws_access_recommendation_ids w)
    (ws_enforcement_decision_ids w) (ws_projection w) (ws_failures w) (ws_entity_ids w).

Definition add_execution (agent : AgentId) (dispatch_id execution_id : string)
    (w : WorkflowWindowState) : WorkflowWindowState :=
  mk_window_state (ws_window_id w) (ws_workflow_id w) (ws_replay_id w) (ws_entity_id w)
    (ws_logical_timestamp w) (ws_status w) (ws_dispatch_ids w)
    (ws_execution_ids w ++ [execution_id])
    (ws_agent_executions w ++ [mk_agent_execution agent dispatch_id execution_id])
    (ws_threat_correlation_ids w) (ws_risk_recommendation_ids w) (ws_access_recommendation_ids w)
    (ws_enforcement_decision_ids w) (ws_projection w) (ws_failures w) (ws_entity_ids w).

Definition set_entity_ids (ids : list string) (w : WorkflowWindowState) : WorkflowWindowState :=
  mk_window_state (ws_window_id w) (ws_workflow_id w) (ws_replay_id w) (ws_entity_id w)
    (ws_logical_timestamp w) (ws_status w) (ws_dispatch_ids w) (ws_execution_ids w)
    (ws_agent_executions w) (ws_threat_correlation_ids w) (ws_risk_recommendation_ids w)
    (ws_access_recommendation_ids w) (ws_enforcement_decision_ids w) (ws_projection w)
    (ws_failures w) ids.

(** The four maps from an entity to the identifier of its output; each also
    fills the projection when the entity is the primary one. *)
Definition set_outputs (threats risks accesses enforcements : list (string * string))
    (projection : EntityProjection) (w : WorkflowWindowState) : WorkflowWindowState :=
  mk_window_state (ws_window_id w) (ws_workflow_id w) (ws_replay_id w) (ws_entity_id w)
    (ws_logical_timestamp w) (ws_status w) (ws_dispatch_ids w) (ws_execution_ids w)
    (ws_agent_executions w) threats risks accesses enforcements projection (ws_failures w)
    (ws_entity_ids w).

Definition note_threat (primary entity id : string) (w : WorkflowWindowState) : WorkflowWindowState :=
  let p := ws_projection w in
  set_outputs (od_set entity id (ws_threat_correlation_ids w)) (ws_risk_recommendation_ids w)
    (ws_access_recommendation_ids w) (ws_enforcement_decision_ids w)
    (if bool_decide (entity = primary)
     then mk_projection (Some id) (pj_risk_recommendation_id p) (pj_access_recommendation_id p)
            (pj_enforcement_decision_id p)
     else p) w.

Definition note_risk (primary entity id : string) (w : WorkflowWindowState) : WorkflowWindowState :=
  let p := ws_projection w in
  set_outputs (ws_threat_correlation_ids w) (od_set entity id (ws_risk_recommendation_ids w))
    (ws_access_recommendation_ids w) (ws_enforcement_decision_ids w)
    (if bool_decide (entity = primary)
     then mk_projection (pj_threat_correlation_id p) (Some id) (pj_access_recommendation_id p)
            (pj_enforcement_decision_id p)
     else p) w.

Definition note_access (primary entity id : string) (w : WorkflowWindowState) : WorkflowWindowState :=
  let p := ws_projection w in
  set_outputs (ws_threat_correlation_ids w) (ws_risk_recommendation_ids w)
    (od_set entity id (ws_access_recommendation_ids w)) (ws_enforcement_decision_ids w)
    (if bool_decide (entity = primary)
     then mk_projection (pj_threat_correlation_id p) (pj_risk_recommendation_id p) (Some id)
            (pj_enforcement_decision_id p)
     else p) w.

Definition note_enforcement (primary entity id : string) (w : WorkflowWindowState)
    : WorkflowWindowState :=
  let p := ws_projection w in
  set_outputs (ws_threat_correlation_ids w) (ws_risk_recommendation_ids w)
    (ws_access_recommendation_ids w) (od_set entity id (ws_enforcement_decision_ids w))
    (if bool_decide (entity = primary)
     then mk_projection (pj_threat_correlation_id p) (pj_risk_recommendation_id p)
            (pj_access_recommendation_id p) (Some id)
     else p) w.

(** A terminal window may be evicted. *)
Definition is_settled (w : WorkflowWindowState) : bool :=
  match ws_status w with WINDOW_OPEN => false | _ => true end.

(** [deque(maxlen=64)] *)
Definition WF_RECENT : nat := 64.

(** The bounded histories of a replay; [rc_windows] holds addresses. *)
Record WorkflowHistory := mk_wf_history {
  rc_windows : list nat;
  rc_correlations : list ThreatCorrelationV1;
  rc_risks : list RiskRecommendationV1;
  rc_access : list AccessRecommendationV1;
  rc_actions : list EnforcementDecisionV1;
  rc_feedback : list ConfirmedFeedbackV1;
  rc_failures : list (list (string * json));
}.

Record WorkflowReplayState := mk_wf_replay {
  wr_replay_id : string;
  wr_workflow_id : string;
  wr_history : WorkflowHistory;
  wr_instrumentation : AgenticInstrumentation;
  wr_gateway : WorkflowOutputGateway;
  (** [window_states], from window identifiers to addresses *)
  wr_window_states : list (Z * nat);
  wr_window_states_limit : nat;
  (** the window states themselves *)
  wr_windows : list WorkflowWindowState;
}.

(** [AgenticInstrumentation()]: the default bounds are accepted. *)
Definition default_ag_instrumentation : AgenticInstrumentation :=
  match new_ag_instrumentation 256 64 with Ok i => i | Raise _ => mk_ag_instr 0 0 [] [] [] end.

Definition new_wf_replay (replay_id : string) (limit : nat) : WorkflowReplayState :=
  mk_wf_replay replay_id (replay_id +:+ "-workflow") (mk_wf_history [] [] [] [] [] [] [])
    default_ag_instrumentation new_output_gateway [] limit [].

Definition RS (A : Type) : Type := M WorkflowReplayState A.

Definition with_history (f : WorkflowHistory → WorkflowHistory) : RS unit :=
  modify (λ s, mk_wf_replay (wr_replay_id s) (wr_workflow_id s) (f (wr_history s))
    (wr_instrumentation s) (wr_gateway s) (wr_window_states s) (wr_window_states_limit s)
    (wr_windows s)).

Definition on_specialist {A} (f : AI A) : RS A := λ s,
  let '(out, i) := f (wr_instrumentation s) in
  (out, mk_wf_replay (wr_replay_id s) (wr_workflow_id s) (wr_history s) i (wr_gateway s)
     (wr_window_states s) (wr_window_states_limit s) (wr_windows s)).

Definition on_output_gateway {A} (f : GM A) : RS A := λ s,
  let '(out, g) := f (wr_gateway s) in
  (out, mk_wf_replay (wr_replay_id s) (wr_workflow_id s) (wr_history s) (wr_instrumentation s) g
     (wr_window_states s) (wr_window_states_limit s) (wr_windows s)).

Definition with_table (table : list (Z * nat)) (windows : list WorkflowWindowState)
    (s : WorkflowReplayState) : WorkflowReplayState :=
  mk_wf_replay (wr_replay_id s) (wr_workflow_id s) (wr_history s) (wr_instrumentation s)
    (wr_gateway s) table (wr_window_states_limit s) windows.

(** Change the window state at an address. *)
Definition on_window (k : nat) (f : WorkflowWindowState → WorkflowWindowState) : RS unit :=
  modify (λ s, with_table (wr_window_states s) (alter f k (wr_windows s)) s).

(** ** The bounded histories *)
Definition recent_window (k : nat) : RS unit := with_history (λ h,
  mk_wf_history (push_bounded WF_RECENT k (rc_windows h)) (rc_correlations h) (rc_risks h)
    (rc_access h) (rc_actions h) (rc_feedback h) (rc_failures h)).
Definition recent_correlation (t : ThreatCorrelationV1) : RS unit := with_history (λ h,
  mk_wf_history (rc_windows h) (push_bounded WF_RECENT t (rc_correlations h)) (rc_risks h)
    (rc_access h) (rc_actions h) (rc_feedback h) (rc_failures h)).
Definition recent_risk (r : RiskRecommendationV1) : RS unit := with_history (λ h,
  mk_wf_history (rc_windows h) (rc_correlations h) (push_bounded WF_RECENT r (rc_risks h))
    (rc_access h) (rc_actions h) (rc_feedback h) (rc_failures h)).
Definition recent_access (a : AccessRecommendationV1) : RS unit := with_history (λ h,
  mk_wf_history (rc_windows h) (rc_correlations h) (rc_risks h)
    (push_bounded WF_RECENT a (rc_access h)) (rc_actions h) (rc_feedback h) (rc_failures h)).
Definition recent_action (e : EnforcementDecisionV1) : RS unit := with_history (λ h,
  mk_wf_history (rc_windows h) (rc_correlations h) (rc_risks h) (rc_access h)
    (push_bounded WF_RECENT e (rc_actions h)) (rc_feedback h) (rc_failures h)).
Definition recent_feedback (f : ConfirmedFeedbackV1) : RS unit := with_history (λ h,
  mk_wf_history (rc_windows h) (rc_correlations h) (rc_risks h) (rc_access h) (rc_actions h)
    (push_bounded WF_RECENT f (rc_feedback h)) (rc_failures h)).
Definition recent_failure (entry : list (string * json)) : RS unit := with_history (λ h,
  mk_wf_history (rc_windows h) (rc_correlations h) (rc_risks h) (rc_access h) (rc_actions h)
    (rc_feedback h) (push_bounded WF_RECENT entry (rc_failures h))).

(** ** The table of window states *)
Definition settled_at (s : WorkflowReplayState) (k : nat) : bool :=
  match wr_windows s !! k with Some w => is_settled w | None => false end.

(** The oldest terminal window of the table. *)
Definition terminal_key (s : WorkflowReplayState) : option Z :=
  fst <$> List.find (λ kv, settled_at s kv.2) (wr_window_states s).

(** The eviction loop; every round drops one entry, so the length of the table
    is enough fuel. *)
Fixpoint evict_windows (fuel : nat) : RS unit := λ s,
  if (wr_window_states_limit s <=? length (wr_window_states s))%nat then
    match fuel, terminal_key s with
    | S fuel, Some key =>
        evict_windows fuel (with_table (od_del key (wr_window_states s)) (wr_windows s) s)
    | _, _ => throw RuntimeError "window_states capacity exhausted by active windows" s
    end
  else (Ok tt, s).

(** Put a new window state on the heap, in the table and among the recent ones. *)
Definition remember_window_state (w : WorkflowWindowState) : RS nat :=
  table ← gets wr_window_states;
  _ ← guardM (negb (is_some (od_get (ws_window_id w) table))) RuntimeError
        ("duplicate workflow window " +:+ fmt_int (ws_window_id w));
  _ ← evict_windows (length table);
  k ← gets (λ s, length (wr_windows s));
  _ ← modify (λ s, with_table (od_set (ws_window_id w) k (wr_window_states s))
        (wr_windows s ++ [w]) s);
  _ ← recent_window k;
  mret k.

(** ** The service *)

(** What is kept of the ledger of a replay's committer. *)
Record LedgerMemo := mk_ledger_memo {
  lm_cache_limit : nat;
  lm_cache : list (CacheKey * EnforcementDecisionV1);
  lm_calls : nat;
}.

(** The service with the objects it shares.  The ABM and the gateway of findings
    are arguments of [execute_window]; the gateway holds the ABM, as the replay
    adapter builds it. *)
Record WorkflowService := mk_workflow {
  wf_blackboard : option BlackboardService;
  wf_orchestration : option OrchestrationCoordinator;
  wf_controller : option Controller;
  wf_findings : FindingGateway;
  wf_window_states_limit : nat;
  wf_states : gmap string WorkflowReplayState;
  wf_committers : gmap string LedgerMemo;
  (** calls of the clock, of [uuid4] and of other sources of variation so far *)
  wf_ticks : nat;
}.

Definition new_workflow (blackboard : option BlackboardService)
    (orchestration : option OrchestrationCoordinator) (controller : option Controller)
    (findings : FindingGateway) (window_states_limit : Z) : result WorkflowService :=
  _ ← check (1 <=? window_states_limit) ValueError "window_states_limit must be positive";
  Ok (mk_workflow blackboard orchestration controller findings (Z.to_nat window_states_limit) ∅ ∅ 0).

Definition WM (A : Type) : Type := M WorkflowService A.

Definition attribute_error {A} : WM A := throw (OtherError "AttributeError") "NoneType".

(** The next value of an outside source. *)
Definition outside {A} (source : nat → A) : WM A := λ w,
  (Ok (source (wf_ticks w)),
   mk_workflow (wf_blackboard w) (wf_orchestration w) (wf_controller w) (wf_findings w)
     (wf_window_states_limit w) (wf_states w) (wf_committers w) (S (wf_ticks w))).

Definition on_service {A} (f : BSM A) : WM A := λ w,
  match wf_blackboard w with
  | None => attribute_error w
  | Some s =>
      let '(out, s') := f s in
      (out, mk_workflow (Some s') (wf_orchestration w) (wf_controller w) (wf_findings w)
         (wf_window_states_limit w) (wf_states w) (wf_committers w) (wf_ticks w))
  end.

Definition on_orchestration {A} (f : OM A) : WM A := λ w,
  match wf_orchestration w with
  | None => attribute_error w
  | Some c =>
      let '(out, c') := f c in
      (out, mk_workflow (wf_blackboard w) (Some c') (wf_controller w) (wf_findings w)
         (wf_window_states_limit w) (wf_states w) (wf_committers w) (wf_ticks w))
  end.

Definition on_controller {A} (f : EvReplay.CM A) : WM A := λ w,
  match wf_controller w with
  | None => attribute_error w
  | Some c =>
      let '(out, c') := f c in
      (out, mk_workflow (wf_blackboard w) (wf_orchestration w) (Some c') (wf_findings w)
         (wf_window_states_limit w) (wf_states w) (wf_committers w) (wf_ticks w))
  end.

Definition on_findings {A} (f : M FindingGateway A) : WM A := λ w,
  let '(out, g) := f (wf_findings w) in
  (out, mk_workflow (wf_blackboard w) (wf_orchestration w) (wf_controller w) g
     (wf_window_states_limit w) (wf_states w) (wf_committers w) (wf_ticks w)).

(** Run on the state object of a replay, which exists once it was asked for. *)
Definition on_replay {A} (replay_id : string) (f : RS A) : WM A := λ w,
  match wf_states w !! replay_id with
  | None => throw KeyError (py_repr replay_id) w
  | Some s =>
      let '(out, s') := f s in
      (out, mk_workflow (wf_blackboard w) (wf_orchestration w) (wf_controller w) (wf_findings w)
         (wf_window_states_limit w) (<[replay_id := s']> (wf_states w)) (wf_committers w)
         (wf_ticks w))
  end.

(** [_get_state]: create the state of a replay at its first use. *)
Definition get_state (replay_id : string) : WM unit := modify (λ w,
  match wf_states w !! replay_id with
  | Some _ => w
  | None => mk_workflow (wf_blackboard w) (wf_orchestration w) (wf_controller w) (wf_findings w)
      (wf_window_states_limit w)
      (<[replay_id := new_wf_replay replay_id (wf_window_states_limit w)]> (wf_states w))
      (wf_committers w) (wf_ticks w)
  end).

Definition replay_state {A} (replay_id : string) (f : WorkflowReplayState → A) : WM A :=
  on_replay replay_id (gets f).

(** [_get_committer] *)
Definition get_committer (replay_id : string) : WM unit :=
  memo ← gets (λ w, wf_committers w !! replay_id);
  match memo with
  | Some _ => mret tt
  | None =>
      _ ← get_state replay_id;
      modify (λ w, mk_workflow (wf_blackboard w) (wf_orchestration w) (wf_controller w)
        (wf_findings w) (wf_window_states_limit w) (wf_states w)
        (<[replay_id := mk_ledger_memo 64 [] 0]> (wf_committers w)) (wf_ticks w))
  end.

(** The committer of a replay: its ledger reads and writes the service's
    Blackboard, its counters are the replay's. *)
Definition the_ledger (w : WorkflowService) (m : LedgerMemo) : BlackboardActionLedger :=
  mk_action_ledger (wf_blackboard w) (lm_cache_limit m) (lm_cache m) (lm_calls m).

Definition on_committer {A} (replay_id : string) (f : CT (L := BlackboardActionLedger) A) : WM A :=
  λ w,
  match wf_committers w !! replay_id, wf_states w !! replay_id with
  | Some m, Some s =>
      let '(out, c) := f (mk_committer (the_ledger w m) (wr_instrumentation s)) in
      let l := cm_ledger c in
      (out, mk_workflow (al_blackboard l) (wf_orchestration w) (wf_controller w) (wf_findings w)
         (wf_window_states_limit w)
         (<[replay_id := mk_wf_replay (wr_replay_id s) (wr_workflow_id s) (wr_history s)
              (cm_instrumentation c) (wr_gateway s) (wr_window_states s)
              (wr_window_states_limit s) (wr_windows s)]> (wf_states w))
         (<[replay_id := mk_ledger_memo (al_cache_limit l) (al_cache l) (al_calls l)]>
            (wf_committers w)) (wf_ticks w))
  | _, _ => throw KeyError (py_repr replay_id) w
  end.

(** [self.blackboard is not None and self.blackboard.enabled] *)
Definition blackboard_on (w : WorkflowService) : bool :=
  match wf_blackboard w with Some s => bs_enabled s | None => false end.

(** ** Events *)
Definition WF_COMPONENT : string := "agentic_workflow.workflow_service".

(** [model_dump(mode="json")] as a dictionary. *)
Definition json_fields (j : json) : list (string * json) :=
  match j with JDict l => l | _ => [] end.
(** [{**first, **second}] *)
Definition dict_merge (first second : list (string * json)) : list (string * json) :=
  foldl (λ d kv, od_set kv.1 kv.2 d) first second.

Section publishing.
Context `{PyRuntime}.

(** [_publish]: only a registered replay has a stream; there is no fallback. *)
Definition wf_publish (replay_id : string) (et : ReplayEventType) (payload : list (string * json))
    (window_id : option Z) (entity_id logical_timestamp : option string) : WM bool :=
  registered ← gets (λ w, match wf_controller w with
                          | Some c => bool_decide (replay_id ∈ ct_runs c)
                          | None => false
                          end);
  if registered : bool then
    _ ← on_controller (publish replay_id et
          (mk_event_data payload window_id logical_timestamp entity_id WF_COMPONENT));
    mret true
  else mret false.
End publishing.
