(* ===== verification/WfWindow.v ===== *)
(** * The workflow service: one window

    Models [WorkflowService.execute_window] of
    [backend/app/services/workflow_service.py]: the dispatch loop over the
    orchestration coordinator and the work of the five agents, with the output
    gateway, the Blackboard writes, the action committer and the events.  The
    local variables of the method are the second half of the state of an
    execution, since they outlive an exception of an agent.  The detector and the
    profiler are arguments of the method, as in the source; whatever a replay
    subscribed to the gateway of findings is a callback of [SimGateway.v]. *)

From Stdlib Require Import SpecFloat.
From S2P Require Import Prelude PyString Json BbContracts BbCoordinator BbReads OrContracts OrCoordinator.
From S2P Require Import SimDevices SimGateway AgContracts AgRecords AgCore AgSpecialists AgCommit BsService.
From S2P Require Import AgLedger AgGateway EvBroker EvReplay WfState.

(** A feature row. *)
Definition Row : Type := list (string * json).

(** [bool(value)] of a JSON value. *)
Definition json_truthy (v : json) : bool :=
  match v with
  | JNull => false
  | JBool b => b
  | JInt z => negb (z =? 0)
  | JFloat x => negb (f_eqb x f_zero)
  | JStr s => negb (bool_decide (s = ""))
  | JList l => match l with [] => false | _ => true end
  | JDict d => match d with [] => false | _ => true end
  end.
(** [row.get(key)] as a condition. *)
Definition row_truthy (key : string) (r : Row) : bool :=
  match od_get key r with Some v => json_truthy v | None => false end.

(** The detector and the profiler; the first argument counts the calls of
    outside sources, for models that keep a state. *)
Record Models := mk_models {
  md_findings_from_records : nat → list Row → string → option string → result (list Submission);
  md_predict_record : nat → Row → string → bool → Z → option string → result (option Submission);
}.

(** The outside sources: identifiers, clocks, the surroundings of the calls of
    other services, and the iteration order of a set of agents. *)
Record WfEnv := mk_wf_env {
  we_uuid : nat → string;
  we_short : nat → string;
  we_now : nat → string;
  we_clock : nat → CallClock;
  we_adjudicate : nat → AdjEnv;
  we_write : nat → ServiceEnv;
  we_read : nat → OpEnv;
  we_ledger : string → LedgerEnv;
  we_set_order : gset AgentId → list AgentId;
}.

(** The local variables of [execute_window] that change. *)
Record Locals := mk_locals {
  lo_completed : gset AgentId;
  lo_findings : list Submission;
  lo_device_risk_available : bool;
  lo_risk_rec_available : bool;
  lo_threat_corrs : list (string * ThreatCorrelationV1);
  lo_risk_recs : list (string * RiskRecommendationV1);
}.

Definition no_locals : Locals := mk_locals ∅ [] false false [] [].

Definition complete_agent (a : AgentId) (l : Locals) : Locals :=
  mk_locals ({[a]} ∪ lo_completed l) (lo_findings l) (lo_device_risk_available l)
    (lo_risk_rec_available l) (lo_threat_corrs l) (lo_risk_recs l).
Definition keep_finding (s : Submission) (l : Locals) : Locals :=
  mk_locals (lo_completed l) (lo_findings l ++ [s]) (lo_device_risk_available l)
    (lo_risk_rec_available l) (lo_threat_corrs l) (lo_risk_recs l).
Definition device_risk_ready (l : Locals) : Locals :=
  mk_locals (lo_completed l) (lo_findings l) true (lo_risk_rec_available l) (lo_threat_corrs l)
    (lo_risk_recs l).
Definition risk_rec_ready (l : Locals) : Locals :=
  mk_locals (lo_completed l) (lo_findings l) (lo_device_risk_available l) true (lo_threat_corrs l)
    (lo_risk_recs l).
Definition keep_threat (entity : string) (t : ThreatCorrelationV1) (l : Locals) : Locals :=
  mk_locals (lo_completed l) (lo_findings l) (lo_device_risk_available l) (lo_risk_rec_available l)
    (od_set entity t (lo_threat_corrs l)) (lo_risk_recs l).
Definition keep_risk (entity : string) (r : RiskRecommendationV1) (l : Locals) : Locals :=
  mk_locals (lo_completed l) (lo_findings l) (lo_device_risk_available l) (lo_risk_rec_available l)
    (lo_threat_corrs l) (od_set entity r (lo_risk_recs l)).

Definition Execution : Type := WorkflowService * Locals.
Definition XM (A : Type) : Type := M Execution A.

Definition on_wf {A} (f : WM A) : XM A := λ x,
  let '(out, w) := f x.1 in (out, (w, x.2)).
Definition local (f : Locals → Locals) : XM unit := modify (λ x, (x.1, f x.2)).
Definition locals {A} (f : Locals → A) : XM A := gets (f ∘ snd).

(** [try: f; except Exception: pass] *)
Definition quietly (f : XM unit) : XM unit := λ x, (Ok tt, (f x).2).

(** The finding as the correlator sees it; only findings are ever accepted. *)
Definition submission_object (s : Submission) : option FindingObject :=
  match s with
  | SubNetwork f => Some (network_object f)
  | SubBehavior f => Some (behavior_object f)
  | SubOther _ _ _ => None
  end.

(** [by_entity]: the findings of each entity, entities in order of appearance. *)
Definition group_by_entity (fs : list FindingObject) : list (string * list FindingObject) :=
  foldl (λ groups f, match fo_entity_id f with
    | Some e => if bool_decide (e = "") then groups
                else od_set e (default [] (od_get e groups) ++ [f]) groups
    | None => groups
    end) [] fs.

(** 0.25 *)
Definition f_0_25 : f64 := S754_finite false 4503599627370496 (-54).
Definition PRIMARY_ENTITY : string := "window-scope".
Definition MAX_ITERATIONS : nat := 6.

Definition agent_repr (a : AgentId) : string :=
  "<AgentId." +:+ agent_id_value a +:+ ": " +:+ py_repr (agent_id_value a) +:+ ">".

Definition route_of (a : AgentId) : string := default "" (od_get a AGENT_TO_ROUTE).
Definition sorted_agents (ready : gset AgentId) : list AgentId :=
  isort (λ a b, str_leb (agent_id_value a) (agent_id_value b)) (elements ready).

(** [result is None or str(result.outcome.value) != "COMMITTED"], and the text
    of [getattr(result, "outcome", None)]. *)
Definition committed_result (r : option WriteResultV1) : bool :=
  match r with Some w => bool_decide (w_outcome w = COMMITTED) | None => false end.
Definition outcome_text (r : option WriteResultV1) : string :=
  match r with Some w => "WriteOutcome." +:+ write_outcome_value (w_outcome w) | None => "None" end.

Section window.
Context `{PyRuntime}.
Variable env : WfEnv.
Variable decode : list (string * json) → result EnforcementDecisionV1.
(** The arguments of [execute_window]; [logical_timestamp] after its default. *)
Variable models : Models.
(** The ABM's neighbours of a device: the communication graph of the window. *)
Variable neighbors : string → result (list string).
Variables (replay_id : string) (window_id : Z) (logical_timestamp : string).
Variables (net_rows beh_rows : list Row) (source_mode : string) (session_trace : option string).
Variable workflow_id : string.
(** The address of [window_state]. *)
Variable k : nat.

#[local] Instance committer_ledger : Ledger BlackboardActionLedger :=
  blackboard_action_ledger (we_ledger env replay_id) decode.

Definition window_event (et : ReplayEventType) (payload : list (string * json)) : XM unit :=
  _ ← on_wf (wf_publish replay_id et payload (Some window_id) (Some PRIMARY_ENTITY) None); mret tt.
Definition entity_event (et : ReplayEventType) (payload : list (string * json)) (entity : string)
    : XM unit :=
  _ ← on_wf (wf_publish replay_id et payload (Some window_id) (Some entity) None); mret tt.
Definition on_state {A} (f : RS A) : XM A := on_wf (on_replay replay_id f).
Definition in_window (f : WorkflowWindowState → WorkflowWindowState) : XM unit :=
  on_state (on_window k f).
Definition fresh_uuid : XM string := on_wf (outside (we_uuid env)).

(** ** Dispatch *)
Definition trace_event (et : ReplayEventType) (payload : list (string * json)) (entity : option string)
    (request : OrchestrationRequestV1) : WM unit :=
  _ ← wf_publish replay_id et payload (Some window_id) entity (rq_logical_timestamp request);
  mret tt.

Definition each {A} (f : A → WM unit) (l : list A) : WM unit := foldM (λ _ x, f x) tt l.

(** [_publish_orchestration_trace] *)
Definition publish_orchestration_trace (d : OrchestrationDecisionV1)
    (request : OrchestrationRequestV1) : WM unit :=
  let common := [("request_id", JStr (rq_request_id request));
                 ("round_id", JStr (rq_round_id request));
                 ("decision_id", JStr (dec_decision_id d))] in
  let concerning key text oid := dict_merge common
    [("orchestrator_id", JStr oid); ("window_id", JInt window_id); (key, JStr text)] in
  _ ← each (λ p, trace_event ORCHESTRATOR_PROPOSAL
        (dict_merge (json_fields (proposal_summary_dump p)) common)
        (Some (ps_orchestrator_id p)) request) (dec_proposal_summaries d);
  _ ← each (λ v, trace_event ORCHESTRATOR_VOTE
        (dict_merge (json_fields (vote_summary_dump v)) common)
        (Some (vs_orchestrator_id v)) request) (dec_vote_summaries d);
  _ ← each (λ oid, trace_event ORCHESTRATOR_TIMEOUT
        (concerning "reason" "NO_QUORUM_TIMEOUT" oid) (Some oid) request)
        (dec_timed_out_orchestrators d);
  _ ← each (λ oid, trace_event ORCHESTRATOR_DELAYED
        (concerning "reason" "DELAYED" oid) (Some oid) request) (dec_delayed_orchestrators d);
  _ ← each (λ oid, trace_event ORCHESTRATOR_OMISSION
        (concerning "reason" "OMITTED" oid) (Some oid) request) (dec_omitted_orchestrators d);
  _ ← each (λ oid, trace_event ORCHESTRATOR_STATUS
        (concerning "status" "UNAVAILABLE" oid) (Some oid) request)
        (dec_unavailable_orchestrators d);
  _ ← (if dec_quorum_formed d
       then trace_event ORCHESTRATION_QUORUM_REACHED (dict_merge common
         [("quorum_formed", JBool true);
          ("supporting_orchestrators", json_strs (dec_supporting_orchestrators d));
          ("selected_route_id", json_opt_str (dec_selected_route_id d));
          ("selected_proposal_digest", json_opt_str (dec_selected_proposal_digest d));
          ("required_quorum", JInt (Z.of_nat REQUIRED_QUORUM));
          ("quorum_latency_ms", json_opt_float (dec_quorum_latency_ms d));
          ("window_id", JInt window_id)]) None request
       else trace_event ORCHESTRATION_NO_QUORUM (dict_merge common
         [("quorum_formed", JBool false);
          ("outcome", JStr (orchestration_outcome_text (dec_outcome d)));
          ("required_quorum", JInt (Z.of_nat REQUIRED_QUORUM));
          ("reason", JStr (dec_reason d));
          ("decision_latency_ms", JFloat (dec_decision_latency_ms d));
          ("window_id", JInt window_id)]) None request);
  trace_event ORCHESTRATION_DECISION (json_fields (decision_dump d)) None request.

Definition dispatch_request (request_uuid round_uuid : string) (ready : gset AgentId)
    : OrchestrationRequestV1 :=
  let prefix := replay_id +:+ "-" +:+ fmt_int window_id +:+ "-" in
  mk_request (prefix +:+ request_uuid) 1 (prefix +:+ round_uuid) "WORKFLOW_DISPATCH"
    (map (λ a, mk_route (route_of a) 0) (sorted_agents ready)) (Some logical_timestamp)
    (Some window_id) None WF_COMPONENT
    [("replay_id", JStr replay_id); ("workflow_dispatch", JBool true)].

(** [_dispatch_via_orchestration]: no decision when there is no coordinator or
    when it raises. *)
Definition dispatch_via_orchestration (ready : gset AgentId) : WM (option OrchestrationDecisionV1) :=
  if bool_decide (ready = ∅) then mret None
  else
    request_uuid ← outside (we_short env);
    round_uuid ← outside (we_short env);
    let request := dispatch_request request_uuid round_uuid ready in
    _ ← lift (request_validate request);
    present ← gets (is_some ∘ wf_orchestration);
    if negb (present : bool) then mret None
    else
      published ← wf_publish replay_id ORCHESTRATION_REQUEST_RECEIVED
        (json_fields (request_dump request)) (Some window_id) None (rq_logical_timestamp request);
      adj ← outside (we_adjudicate env);
      decision ← (λ w, match on_orchestration (adjudicate adj request f_0_25) w with
                       | (Ok d, w') => (Ok (inl d), w')
                       | (Raise e, w') => (Ok (inr e), w')
                       end);
      match decision with
      | inr e =>
          _ ← (if published : bool
               then trace_event ORCHESTRATION_NO_QUORUM
                 [("request_id", JStr (rq_request_id request));
                  ("round_id", JStr (rq_round_id request)); ("quorum_formed", JBool false);
                  ("outcome", JStr "ADJUDICATION_ERROR");
                  ("reason", JStr (exn_class_name (exn_type e)));
                  ("window_id", JInt window_id)] None request
               else mret tt);
          mret None
      | inl d =>
          _ ← (if published : bool then publish_orchestration_trace d request else mret tt);
          mret (Some d)
      end.

(** ** The model agents *)
Definition on_abm_of {A} (f : M DeviceABM A) : XM A := on_wf (on_findings (on_abm f)).

(** Once both model agents are through: propagate and record one ABM step; any
    exception leaves the device risk unavailable. *)
Definition abm_step : XM unit := quietly
  (_ ← on_abm_of (modify (set_window (Some window_id)));
   _ ← on_abm_of (abm_propagate neighbors);
   recorded_at ← on_wf (outside (we_now env));
   _ ← on_abm_of (record_step recorded_at);
   local device_risk_ready).

Definition finish_model_agent (agent : AgentId) : XM unit :=
  _ ← local (complete_agent agent);
  completed ← locals lo_completed;
  if bool_decide (network_anomaly_detector ∈ completed)
     && bool_decide (iot_behavioral_profiler ∈ completed)
  then abm_step else mret tt.

(** A finding goes to the gateway; an accepted one is kept for the window. *)
Definition submit_finding (s : Submission) : XM bool :=
  ok ← on_wf (on_findings (gateway_submit s));
  _ ← (if ok : bool then local (keep_finding s) else mret tt);
  mret ok.

(** The record and the event of a completed execution. *)
Definition execution_completed (agent : AgentId) (dispatch_id : string)
    (extra : list (string * json)) : XM unit :=
  exec_id ← fresh_uuid;
  _ ← in_window (add_execution agent dispatch_id exec_id);
  window_event AGENT_EXECUTION_COMPLETED
    ([("agent_id", JStr (agent_id_value agent)); ("execution_id", JStr exec_id)] ++ extra).

Definition run_network (dispatch_id : string) : XM unit :=
  let agent := network_anomaly_detector in
  let eligible := filter (λ r, row_truthy "network_observed" r = true) net_rows in
  _ ← (if bool_decide (eligible = []) then
         window_event AGENT_EXECUTION_SKIPPED
           [("agent_id", JStr (agent_id_value agent)); ("reason", JStr "NO_ELIGIBLE_ROWS")]
       else
         found ← on_wf (outside (λ n, md_findings_from_records models n eligible source_mode
                   session_trace));
         findings ← lift found;
         _ ← foldM (λ _ s, _ ← submit_finding s; mret tt) tt findings;
         execution_completed agent dispatch_id
           [("findings", JInt (Z.of_nat (length findings)))]);
  finish_model_agent agent.

(** One row of the profiler; the count is of accepted findings. *)
Definition profile_row (context_active : bool) (count : Z) (row : Row) : XM Z :=
  found ← on_wf (outside (λ n, md_predict_record models n row source_mode context_active window_id
            session_trace));
  finding ← lift found;
  match finding with
  | None => mret count
  | Some s => ok ← submit_finding s; mret (if ok : bool then count + 1 else count)
  end.

Definition run_behavior (dispatch_id : string) : XM unit :=
  let agent := iot_behavioral_profiler in
  let context_active := existsb (row_truthy "behavior_observed") beh_rows in
  count ← foldM (profile_row context_active) 0 beh_rows;
  _ ← execution_completed agent dispatch_id [("findings", JInt count)];
  finish_model_agent agent.

(** ** The downstream agents *)

(** The gateway of outputs; [which] names the agent in the message. *)
Definition submit_downstream (which : string) (o : WorkflowOutput) (replay : option string)
    (entity : string) : XM unit :=
  ok ← on_state (on_output_gateway (submit_output o (Some workflow_id) replay (Some window_id)
         (Some entity)));
  on_wf (guardM ok ValueError (which +:+ " gateway rejected for " +:+ entity)).

(** The Blackboard write of an output, when there is a Blackboard: anything but
    COMMITTED fails the agent. *)
Definition write_downstream (which : string) (t : BlackboardRecordType) (entity : string)
    (payload provenance : list (string * json)) (author component : string) : XM unit :=
  enabled ← gets (blackboard_on ∘ fst);
  if enabled : bool then
    senv ← on_wf (outside (we_write env));
    r ← on_wf (on_service (record_workflow_output senv replay_id window_id entity t payload
          provenance (Some logical_timestamp) author component));
    on_wf (guardM (committed_result r) RuntimeError
      (which +:+ " blackboard failed for " +:+ entity +:+ ": " +:+ outcome_text r))
  else mret tt.

Definition device_state (entity : string) : XM (option DeviceState) :=
  on_wf (on_findings (gets (λ g, od_get entity (abm_states (gw_abm g))))).

Definition protected_state (o : option DeviceState) : option DeviceState :=
  match o with
  | Some st => if ds_is_protected_asset st then Some st else None
  | None => None
  end.

Definition threat_entity (fins : list FindingObject) (entity : string) : XM unit :=
  st ← device_state entity;
  match protected_state st with
  | None => mret tt
  | Some _ =>
      clock ← on_wf (outside (we_clock env));
      corr ← on_state (on_specialist (correlate clock CATALOG_VERSION workflow_id entity window_id
               logical_timestamp fins None));
      _ ← submit_downstream "threat" (WThreat corr) None entity;
      _ ← write_downstream "threat" THREAT_CORRELATION_RECORD entity
            (json_fields (threat_dump corr)) (thr_provenance corr) "threat_intelligence_correlator"
            "agentic_workflow.threat_correlator";
      _ ← on_state (recent_correlation corr);
      _ ← local (keep_threat entity corr);
      _ ← in_window (note_threat PRIMARY_ENTITY entity (thr_correlation_id corr));
      entity_event THREAT_CORRELATION_PRODUCED (json_fields (threat_dump corr)) entity
  end.

Definition run_threat (dispatch_id : string) : XM unit :=
  findings ← locals lo_findings;
  let groups := group_by_entity (omap submission_object findings) in
  let entities := sort_strings groups.*1 in
  _ ← in_window (set_entity_ids entities);
  _ ← foldM (λ _ entity, threat_entity (default [] (od_get entity groups)) entity) tt entities;
  _ ← execution_completed threat_intelligence_correlator dispatch_id [];
  local (complete_agent threat_intelligence_correlator).

Definition risk_entity (entity : string) : XM unit :=
  st ← device_state entity;
  match protected_state st with
  | None => mret tt
  | Some st =>
      corr ← locals (od_get entity ∘ lo_threat_corrs);
      clock ← on_wf (outside (we_clock env));
      rec ← on_state (on_specialist (analyze clock workflow_id entity window_id logical_timestamp
              (device_view st) (option_list corr) None));
      _ ← submit_downstream "risk" (WRisk rec) None entity;
      _ ← write_downstream "risk" RISK_RECOMMENDATION_RECORD entity (json_fields (risk_dump rec))
            (rsk_provenance rec) "risk_propagation_analyst" "agentic_workflow.risk_analyst";
      _ ← on_state (recent_risk rec);
      _ ← in_window (note_risk PRIMARY_ENTITY entity (rsk_recommendation_id rec));
      _ ← local (keep_risk entity rec);
      entity_event RISK_RECOMMENDATION_PRODUCED (json_fields (risk_dump rec)) entity
  end.

Definition run_risk (dispatch_id : string) : XM unit :=
  _ ← quietly (on_abm_of (abm_propagate neighbors));
  _ ← local device_risk_ready;
  corrs ← locals lo_threat_corrs;
  _ ← foldM (λ _ entity, risk_entity entity) tt (sort_strings corrs.*1);
  _ ← execution_completed risk_propagation_analyst dispatch_id [];
  _ ← local (complete_agent risk_propagation_analyst);
  _ ← local device_risk_ready;
  local risk_rec_ready.

Definition enforce (entity : string) (rec : AccessRecommendationV1) : XM unit :=
  decision_id ← fresh_uuid;
  enforcement ← on_wf (on_committer replay_id (commit_action decision_id rec workflow_id replay_id
    window_id logical_timestamp entity));
  _ ← submit_downstream "enforcement" (WEnforcement enforcement) (Some replay_id) entity;
  _ ← on_state (recent_action enforcement);
  _ ← in_window (note_enforcement PRIMARY_ENTITY entity (enf_decision_id enforcement));
  entity_event ENFORCEMENT_DECISION_COMMITTED (enforcement_fields enforcement) entity.

Definition access_entity (entity : string) : XM unit :=
  risk ← locals (od_get entity ∘ lo_risk_recs);
  match risk with
  | None => mret tt
  | Some risk =>
      corr ← locals (od_get entity ∘ lo_threat_corrs);
      clock ← on_wf (outside (we_clock env));
      rec ← on_state (on_specialist (decide_access clock POLICY_CONFIG workflow_id entity window_id
              logical_timestamp risk (option_list corr) None));
      _ ← submit_downstream "access" (WAccess rec) None entity;
      _ ← write_downstream "access" ACCESS_RECOMMENDATION_RECORD entity
            (json_fields (access_dump rec)) (acc_provenance rec) "trust_access_controller"
            "agentic_workflow.access_controller";
      _ ← on_state (recent_access rec);
      _ ← in_window (note_access PRIMARY_ENTITY entity (acc_recommendation_id rec));
      _ ← entity_event ACCESS_RECOMMENDATION_PRODUCED (json_fields (access_dump rec)) entity;
      enforce entity rec
  end.

Definition run_access (dispatch_id : string) : XM unit :=
  risks ← locals lo_risk_recs;
  _ ← on_wf (get_committer replay_id);
  _ ← foldM (λ _ entity, access_entity entity) tt (sort_strings risks.*1);
  _ ← execution_completed trust_access_controller dispatch_id [];
  _ ← local (complete_agent trust_access_controller);
  local risk_rec_ready.

Definition run_agent (agent : AgentId) (dispatch_id : string) : XM unit :=
  match agent with
  | network_anomaly_detector => run_network dispatch_id
  | iot_behavioral_profiler => run_behavior dispatch_id
  | threat_intelligence_correlator => run_threat dispatch_id
  | risk_propagation_analyst => run_risk dispatch_id
  | trust_access_controller => run_access dispatch_id
  end.
(** ** The dispatch loop *)
Definition fail_window (text : string) : XM unit :=
  _ ← in_window (add_failure text);
  in_window (set_status WINDOW_BROKEN).

(** The text of the set [ready], and its elements in iteration order. *)
Definition ready_repr (ready : gset AgentId) : string :=
  "{" +:+ String.concat ", " (map agent_repr (we_set_order env ready)) +:+ "}".

Definition no_quorum (ready : gset AgentId) : XM unit :=
  _ ← fail_window ("orchestration_no_quorum:" +:+ ready_repr ready);
  _ ← window_event WORKFLOW_WINDOW_FAILED
        [("reason", JStr "ORCHESTRATION_NO_QUORUM");
         ("ready", json_strings (map agent_id_value (we_set_order env ready)))];
  on_state (recent_failure [("window_id", JInt window_id); ("reason", JStr "no_quorum")]).

Definition option_text (o : option string) : string := default "None" o.

Definition selected_not_ready (selected : option string) : XM unit :=
  _ ← fail_window ("selected_not_ready:" +:+ option_text selected);
  window_event WORKFLOW_WINDOW_FAILED
    [("reason", JStr "SELECTED_NOT_READY"); ("selected", json_opt_str selected)].

Definition announce_dispatch (agent : AgentId) (dispatch_id selected : string)
    (d : OrchestrationDecisionV1) : XM unit :=
  _ ← in_window (add_dispatch dispatch_id);
  _ ← window_event AGENT_DISPATCHED
        [("agent_id", JStr (agent_id_value agent)); ("dispatch_id", JStr dispatch_id);
         ("workflow_id", JStr workflow_id); ("request_id", JStr (dec_request_id d));
         ("round_id", JStr (dec_round_id d)); ("decision_id", JStr (dec_decision_id d));
         ("selected_route_id", JStr selected)];
  window_event AGENT_EXECUTION_STARTED
    [("agent_id", JStr (agent_id_value agent)); ("dispatch_id", JStr dispatch_id)].

(** The agent the orchestrators chose among the ready ones, announced; [None]
    when the window failed instead. *)
Definition choose_agent (ready : gset AgentId) : XM (option (AgentId * string)) :=
  decision ← on_wf (dispatch_via_orchestration ready);
  match decision with
  | Some d =>
      if bool_decide (dec_outcome d = DECIDED) then
        match dec_selected_route_id d with
        | Some selected =>
            if bool_decide (selected ∈ map route_of (elements ready)) then
              match od_get selected ROUTE_TO_AGENT with
              | Some agent =>
                  if bool_decide (agent ∈ ready) then
                    dispatch_id ← fresh_uuid;
                    _ ← announce_dispatch agent dispatch_id selected d;
                    mret (Some (agent, dispatch_id))
                  else _ ← fail_window "not_ready"; mret None
              | None => on_wf (throw KeyError (py_repr selected))
              end
            else _ ← selected_not_ready (Some selected); mret None
        | None => _ ← selected_not_ready None; mret None
        end
      else _ ← no_quorum ready; mret None
  | None => _ ← no_quorum ready; mret None
  end.

(** An exception of an agent fails the window. *)
Definition agent_failed (agent : AgentId) (e : exn) : XM unit :=
  _ ← in_window (add_failure (agent_id_value agent +:+ ":" +:+ exn_class_name (exn_type e) +:+ ":"
        +:+ exn_msg e));
  _ ← window_event AGENT_EXECUTION_FAILED
        [("agent_id", JStr (agent_id_value agent)); ("error", JStr (exn_msg e))];
  _ ← in_window (set_status WINDOW_BROKEN);
  on_state (recent_failure [("window_id", JInt window_id); ("agent", JStr (agent_id_value agent));
                            ("error", JStr (exn_msg e))]).

(** [true]: the agent finished; [false]: it failed and the loop stops. *)
Definition execute_agent (agent : AgentId) (dispatch_id : string) : XM bool := λ x,
  match run_agent agent dispatch_id x with
  | (Ok _, x') => (Ok true, x')
  | (Raise e, x') => (_ ← agent_failed agent e; mret false) x'
  end.

Fixpoint workflow_loop (iterations : nat) : XM unit :=
  match iterations with
  | O => mret tt
  | S iterations =>
      ready ← locals (λ l, ready_agents (lo_completed l) (lo_device_risk_available l)
        (lo_risk_rec_available l));
      if bool_decide (ready = ∅) then mret tt
      else
        chosen ← choose_agent ready;
        match chosen with
        | None => mret tt
        | Some (agent, dispatch_id) =>
            finished ← execute_agent agent dispatch_id;
            if finished : bool then workflow_loop iterations else mret tt
        end
  end.

(** The last event of a window. *)
Definition settle_window : XM unit :=
  found ← on_state (gets (λ s, wr_windows s !! k));
  match found with
  | None => on_wf attribute_error
  | Some w =>
      let common := [("workflow_id", JStr workflow_id); ("entity_id", JStr PRIMARY_ENTITY)] in
      if bool_decide (ws_status w = WINDOW_BROKEN)
      then window_event WORKFLOW_WINDOW_FAILED (common ++ [("failures", json_strings (ws_failures w))])
      else
        _ ← in_window (set_status WINDOW_DONE);
        window_event WORKFLOW_WINDOW_COMPLETED
          (common ++ [("dispatch_ids", json_strings (ws_dispatch_ids w))])
  end.
End window.

(** ** The report *)
Record WindowReport := mk_window_report {
  rep_workflow_id : string;
  rep_window_id : Z;
  rep_entity_id : string;
  rep_status : WindowStatus;
  rep_executions : list AgentExecution;
  rep_failures : list string;
  rep_network : Z;
  rep_behavior : Z;
  rep_behavior_observed : Z;
  rep_behavior_absence : Z;
}.

Definition count_findings (p : Submission → bool) (l : list Submission) : Z :=
  Z.of_nat (length (filter (λ s, p s = true) l)).
Definition is_network (s : Submission) : bool := bool_decide (sub_type s = Some NETWORK_FINDING_TYPE).
Definition is_behavior (s : Submission) : bool := bool_decide (sub_type s = Some BEHAVIOR_FINDING_TYPE).
Definition is_absence (s : Submission) : bool :=
  match s with SubBehavior f => startswith "unexpected_absence" (bf_explanation f) | _ => false end.

Definition window_report (w : WorkflowWindowState) (findings : list Submission) : WindowReport :=
  let behavior := count_findings is_behavior findings in
  let absence := count_findings is_absence findings in
  mk_window_report (ws_workflow_id w) (ws_window_id w) (ws_entity_id w) (ws_status w)
    (ws_agent_executions w) (ws_failures w) (count_findings is_network findings) behavior
    (behavior - absence) absence.

(** ** [execute_window] *)
Section execute.
Context `{PyRuntime}.
Variable env : WfEnv.
Variable decode : list (string * json) → result EnforcementDecisionV1.
Variable models : Models.
Variable neighbors : string → result (list string).

(** [logical_timestamp or _utc_now()] *)
Definition timestamp_or_now (logical_timestamp : option string) : WM string :=
  match logical_timestamp with
  | Some ts => if bool_decide (ts = "") then outside (we_now env) else mret ts
  | None => outside (we_now env)
  end.

(** The part before the loop: the state of the new window is remembered and
    announced.  Returns the timestamp, the workflow and the window's address. *)
Definition open_window (replay_id : string) (window_id : Z) (logical_timestamp : option string)
    : WM (string * string * nat) :=
  _ ← on_findings (on_abm (modify (set_window (Some window_id))));
  _ ← get_state replay_id;
  workflow_id ← replay_state replay_id wr_workflow_id;
  ts ← timestamp_or_now logical_timestamp;
  k ← on_replay replay_id (remember_window_state
        (new_window_state window_id workflow_id replay_id PRIMARY_ENTITY (Some ts)));
  _ ← wf_publish replay_id WORKFLOW_WINDOW_STARTED
        [("workflow_id", JStr workflow_id); ("entity_id", JStr PRIMARY_ENTITY)] (Some window_id)
        (Some PRIMARY_ENTITY) (Some ts);
  mret (ts, workflow_id, k).

Definition execute_window (replay_id : string) (window_id : Z) (logical_timestamp : option string)
    (net_rows beh_rows : list Row) (session_trace : option string) (source_mode : string)
    : WM WindowReport := λ w,
  match open_window replay_id window_id logical_timestamp w with
  | (Raise e, w) => (Raise e, w)
  | (Ok (ts, workflow_id, k), w) =>
      let '(out, (w, l)) :=
        (_ ← workflow_loop env decode models neighbors replay_id window_id ts net_rows beh_rows
               source_mode session_trace workflow_id k MAX_ITERATIONS;
         settle_window replay_id window_id workflow_id k) (w, no_locals) in
      match out with
      | Raise e => (Raise e, w)
      | Ok _ =>
          match wf_states w !! replay_id ≫= λ s, wr_windows s !! k with
          | Some state => (Ok (window_report state (lo_findings l)), w)
          | None => attribute_error w
          end
      end
  end.
End execute.
