(* ===== verification/WfReads.v ===== *)
(** * The workflow service: snapshots, actions and feedback

    Models [snapshot], [list_actions], [get_action] and [submit_feedback] of
    [backend/app/services/workflow_service.py]. *)

From S2P Require Import Prelude PyString Json BbContracts BbCoordinator BbReads OrCoordinator SimGateway.
From S2P Require Import AgContracts AgRecords AgCore AgSpecialists AgCommit BsService AgLedger AgGateway.
From S2P Require Import EvBroker EvReplay WfState WfWindow.

(** ** Snapshots *)
Record WindowSummary := mk_window_summary {
  wn_window_id : Z;
  wn_entity_id : string;
  wn_entity_ids : list string;
  wn_status : WindowStatus;
  wn_dispatch_ids : list string;
  wn_execution_ids : list string;
}.

Definition window_summary (w : WorkflowWindowState) : WindowSummary :=
  mk_window_summary (ws_window_id w) (ws_entity_id w) (ws_entity_ids w) (ws_status w)
    (ws_dispatch_ids w) (ws_execution_ids w).

Record WorkflowSnapshot := mk_wf_snapshot {
  sn_replay_id : string;
  sn_workflow_id : string;
  sn_current_window_id : option Z;
  sn_recent_windows : list WindowSummary;
  sn_five_agent_statuses : list (string * string);
  sn_latest_threat_correlations : list json;
  sn_latest_risk_recommendations : list json;
  sn_latest_access_recommendations : list json;
  sn_latest_enforcement_decisions : list json;
  sn_recent_failures : list (list (string * json));
  (** of [bounds]: the entries that are not constants *)
  sn_window_states_limit : nat;
  sn_window_states_current : nat;
  sn_instrumentation : list (string * Z) * list (string * option AgLatencySummary)
                       * list (list (string * json)) * (nat * nat);
}.

(** [l[-n:]] *)
Definition last_items {A} (n : Z) (l : list A) : list A := py_slice (- n) (Z.of_nat (length l)) l.

Definition agent_status (windows : list WorkflowWindowState) (agent : AgentId) : string * string :=
  (agent_id_value agent,
   if existsb (λ w, existsb (λ a, bool_decide (ax_agent_id a = agent)) (ws_agent_executions w)) windows
   then "COMPLETED" else "PENDING").

(** The window states among the recent ones; every address is on the heap. *)
Definition recent_window_states (s : WorkflowReplayState) : list WorkflowWindowState :=
  omap (λ k, wr_windows s !! k) (rc_windows (wr_history s)).

Section reads.
Context `{PyRuntime}.
Variable env : WfEnv.
Variable decode : list (string * json) → result EnforcementDecisionV1.

Definition replay_snapshot (s : WorkflowReplayState) : WorkflowSnapshot :=
  let windows := last_items 64 (recent_window_states s) in
  let h := wr_history s in
  mk_wf_snapshot (wr_replay_id s) (wr_workflow_id s) (ws_window_id <$> last windows)
    (map window_summary windows) (map (agent_status windows) all_agents)
    (map threat_dump (last_items 5 (rc_correlations h))) (map risk_dump (last_items 5 (rc_risks h)))
    (map access_dump (last_items 5 (rc_access h)))
    (map enforcement_dump (last_items 5 (rc_actions h))) (last_items 10 (rc_failures h))
    (wr_window_states_limit s) (length (wr_window_states s)) (ag_snapshot (wr_instrumentation s)).

Definition wf_snapshot (replay_id : string) : WM WorkflowSnapshot :=
  _ ← get_state replay_id;
  replay_state replay_id replay_snapshot.

(** ** Actions *)
Record ActionListing := mk_action_listing {
  li_actions : list json;
  li_total : Z;
  li_limit : Z;
  li_offset : Z;
}.

Definition action_matches (entity_id action : option string) (e : EnforcementDecisionV1) : bool :=
  match entity_id with Some i => bool_decide (enf_entity_id e = i) | None => true end
  && match action with Some a => bool_decide (action_value (enf_action e) = a) | None => true end.

Definition list_actions (replay_id : string) (entity_id action : option string) (limit offset : Z)
    : WM ActionListing :=
  _ ← get_state replay_id;
  actions ← replay_state replay_id (rc_actions ∘ wr_history);
  let filtered := filter (λ e, action_matches entity_id action e = true) actions in
  mret (mk_action_listing (map enforcement_dump (py_slice offset (offset + limit) filtered))
    (Z.of_nat (length filtered)) limit offset).

(** [try: f; except Exception: None] *)
Definition or_none {A} (f : WM (option A)) : WM (option A) := λ w,
  match f w with
  | (Ok o, w') => (Ok o, w')
  | (Raise _, w') => (Ok None, w')
  end.

(** One listed record: the decision, when it has this identifier and parses. *)
Definition read_action (decision_id key : string) : WM (option EnforcementDecisionV1) :=
  renv ← outside (we_read env);
  res ← on_service (service_read_latest renv key "action_reader");
  match rd_record res with
  | Some record =>
      if bool_decide (od_get "decision_id" (r_payload record) = Some (JStr decision_id))
      then d ← lift (decode (r_payload record)); mret (Some d)
      else mret None
  | None => mret None
  end.

Fixpoint search_actions (decision_id : string) (items : list ViewItem)
    : WM (option EnforcementDecisionV1) :=
  match items with
  | [] => mret None
  | item :: items =>
      found ← or_none (read_action decision_id (vi_record_key item));
      match found with
      | Some d => mret (Some d)
      | None => search_actions decision_id items
      end
  end.

Definition search_blackboard (replay_id decision_id : string) : WM (option EnforcementDecisionV1) :=
  or_none
    (_ ← get_committer replay_id;
     service ← gets wf_blackboard;
     match service with
     | None => mret None
     | Some s => search_actions decision_id
         (pg_items (list_records None (Some "workflow/action/") 200 0 s))
     end).

Definition get_action (replay_id decision_id : string) : WM (option EnforcementDecisionV1) :=
  _ ← get_state replay_id;
  actions ← replay_state replay_id (rc_actions ∘ wr_history);
  match List.find (λ e, bool_decide (enf_decision_id e = decision_id)) actions with
  | Some e => mret (Some e)
  | None => search_blackboard replay_id decision_id
  end.

(** ** Feedback *)
Record FeedbackArgs := mk_feedback_args {
  fa_replay_id : string;
  fa_window_id : Z;
  fa_entity_id : string;
  fa_related_action_id : string;
  fa_related_finding_ids : list string;
  fa_feedback_source : string;
  fa_verdict : string;
  fa_reason_code : string;
  fa_note : option string;
  fa_provenance : option (list (string * json));
  fa_principal : string;
}.

Definition feedback_of (feedback_id submitted_at : string) (a : FeedbackArgs) : ConfirmedFeedbackV1 :=
  mk_feedback feedback_id (fa_replay_id a) (fa_window_id a) (fa_entity_id a)
    (fa_related_action_id a) (fa_related_finding_ids a) (fa_feedback_source a) (fa_verdict a)
    (fa_reason_code a) (fa_note a) submitted_at
    (od_set "feedback_source" (JStr (fa_feedback_source a)) (default [] (fa_provenance a)))
    "api.feedback".

Definition feedback_bound (a : FeedbackArgs) (e : EnforcementDecisionV1) : bool :=
  bool_decide (enf_replay_id e = fa_replay_id a) && (enf_window_id e =? fa_window_id a)
  && bool_decide (enf_entity_id e = fa_entity_id a).

(** The write of a feedback, when there is a Blackboard. *)
Definition write_feedback (a : FeedbackArgs) (fb : ConfirmedFeedbackV1) : WM unit :=
  enabled ← gets blackboard_on;
  if enabled : bool then
    senv ← outside (we_write env);
    r ← on_service (record_confirmed_feedback senv (fa_replay_id a) fb (fa_principal a));
    guardM (committed_result r) RuntimeError ("feedback blackboard failed: " +:+ outcome_text r)
  else mret tt.

(** The action is looked up twice; the binding is checked on the second answer,
    when there is one. *)
Definition check_related_action (a : FeedbackArgs) : WM unit :=
  known ← get_action (fa_replay_id a) (fa_related_action_id a);
  _ ← guardM (is_some known) ValueError "unknown related_action_id";
  action ← get_action (fa_replay_id a) (fa_related_action_id a);
  guardM (match action with Some e => feedback_bound a e | None => true end) ValueError
    "binding mismatch for feedback".

Definition submit_feedback (a : FeedbackArgs) : WM ConfirmedFeedbackV1 :=
  feedback_id ← outside (we_uuid env);
  submitted_at ← outside (we_now env);
  let fb := feedback_of feedback_id submitted_at a in
  _ ← lift (feedback_validate fb);
  _ ← get_state (fa_replay_id a);
  ok ← on_replay (fa_replay_id a) (on_output_gateway (submit_output (WFeedback fb) None
         (Some (fa_replay_id a)) (Some (fa_window_id a)) (Some (fa_entity_id a))));
  _ ← guardM ok ValueError "feedback gateway rejected";
  _ ← check_related_action a;
  _ ← write_feedback a fb;
  _ ← on_replay (fa_replay_id a) (recent_feedback fb);
  _ ← wf_publish (fa_replay_id a) CONFIRMED_FEEDBACK_RECORDED (feedback_fields fb)
        (Some (fa_window_id a)) (Some (fa_entity_id a)) None;
  mret fb.
End reads.
