(* ===== verification/WfFacts.v ===== *)
(** * Facts on the workflow service

    What the operations of the service leave alone, and a predicate [core] on the
    state of a running window: the Blackboard service is well formed, the action
    ledgers are durable, no window but the running one has changed, and a relation
    holds between the replicas, the running window and the local variables.  Each
    operation has a rule that says how it changes that relation. *)

From S2P Require Import Prelude PyString Json BbContracts BbStorage BbAuthorization BbReplica BbReplicaFacts.
From S2P Require Import BbCoordinator BbCluster BbReads BbConsistency OrContracts OrCoordinator SimDevices.
From S2P Require Import SimGateway AgContracts AgRecords AgCore AgSpecialists AgCommit BsService BsFacts.
From S2P Require Import AgLedger AgGateway AgFacts AgLedgerFacts EvBroker EvReplay WfState WfWindow.

(** ** Bounded histories *)
Record history_ok (h : WorkflowHistory) : Prop := {
  ho_windows : (length (rc_windows h) ≤ WF_RECENT)%nat;
  ho_correlations : (length (rc_correlations h) ≤ WF_RECENT)%nat;
  ho_risks : (length (rc_risks h) ≤ WF_RECENT)%nat;
  ho_access : (length (rc_access h) ≤ WF_RECENT)%nat;
  ho_actions : (length (rc_actions h) ≤ WF_RECENT)%nat;
  ho_feedback : (length (rc_feedback h) ≤ WF_RECENT)%nat;
  ho_failures : (length (rc_failures h) ≤ WF_RECENT)%nat;
}.

(** ** Frames *)

(** The states of a replay differ in nothing the windows depend on. *)
Record same_replay (s s' : WorkflowReplayState) : Prop := {
  sr_windows : wr_windows s' = wr_windows s;
  sr_table : wr_window_states s' = wr_window_states s;
  sr_limit : wr_window_states_limit s' = wr_window_states_limit s;
  sr_workflow : wr_workflow_id s' = wr_workflow_id s;
  sr_history : history_ok (wr_history s) → history_ok (wr_history s');
}.

Lemma same_replay_refl s : same_replay s s.
Proof. by constructor. Qed.

Record untouched (w w' : WorkflowService) : Prop := {
  un_blackboard : wf_blackboard w' = wf_blackboard w;
  un_committers : wf_committers w' = wf_committers w;
  un_limit : wf_window_states_limit w' = wf_window_states_limit w;
  un_dom : dom (wf_states w') = dom (wf_states w);
  un_states : ∀ r s', wf_states w' !! r = Some s' → ∃ s, wf_states w !! r = Some s ∧ same_replay s s';
}.

Lemma untouched_same w w' :
  wf_blackboard w' = wf_blackboard w → wf_committers w' = wf_committers w →
  wf_window_states_limit w' = wf_window_states_limit w →
  wf_states w' = wf_states w → untouched w w'.
Proof.
  intros Hb Hc Hl Hs. constructor; [done | done | done | by rewrite Hs |].
  intros r s'. rewrite Hs. intros Hr. exists s'. split; [done | apply same_replay_refl].
Qed.

(** A computation that leaves the service alone, in the sense above. *)
Definition frame {A} (m : WM A) : Prop := ∀ w, untouched w (m w).2.

Lemma frame_bind {A B} (m : WM A) (f : A → WM B) :
  frame m → (∀ a, frame (f a)) → frame (m ≫= f).
Proof.
  intros Hm Hf w. unfold mbind, M_bind. specialize (Hm w).
  destruct (m w) as [[a|e] w1]; [|done]. specialize (Hf a w1).
  destruct Hm as [Hb Hc Hl Hd Hs], Hf as [Hb' Hc' Hl' Hd' Hs']. cbn in *. constructor; [congruence.. |].
  intros r s2 H2. destruct (Hs' _ _ H2) as (s1 & H1 & []). destruct (Hs _ _ H1) as (s0 & H0 & []).
  exists s0. split; [done |]. constructor; try congruence. auto.
Qed.

Lemma frame_pure {A} (m : WM A) : (∀ w, (m w).2 = w) → frame m.
Proof. intros Hm w. rewrite Hm. by apply untouched_same. Qed.

Lemma frame_ret {A} (a : A) : frame (mret a).
Proof. by apply frame_pure. Qed.

Lemma frame_gets {A} (f : WorkflowService → A) : frame (gets f).
Proof. by apply frame_pure. Qed.

Lemma frame_lift {A} (r : result A) : frame (lift r).
Proof. by apply frame_pure. Qed.

Lemma frame_guard b c msg : frame (guardM b c msg).
Proof. by apply frame_pure. Qed.

Lemma frame_throw {A} c msg : frame (@throw _ A c msg).
Proof. by apply frame_pure. Qed.

Lemma frame_outside {A} (source : nat → A) : frame (outside source).
Proof. intros w. by apply untouched_same. Qed.

Lemma frame_orchestration {A} (f : OM A) : frame (on_orchestration f).
Proof.
  intros w. unfold on_orchestration. destruct (wf_orchestration w) as [c|]; [|by apply untouched_same].
  destruct (f c). by apply untouched_same.
Qed.

Lemma frame_controller {A} (f : EvReplay.CM A) : frame (on_controller f).
Proof.
  intros w. unfold on_controller. destruct (wf_controller w) as [c|]; [|by apply untouched_same].
  destruct (f c). by apply untouched_same.
Qed.

Lemma frame_findings {A} (f : M FindingGateway A) : frame (on_findings f).
Proof. intros w. unfold on_findings. destruct (f _). by apply untouched_same. Qed.

Lemma frame_replay {A} rid (f : RS A) : (∀ s, same_replay s (f s).2) → frame (on_replay rid f).
Proof.
  intros Hf w. unfold on_replay. destruct (wf_states w !! rid) as [s|] eqn:Hs; [|by apply untouched_same].
  specialize (Hf s). destruct (f s) as [out s']. cbn in *. constructor; try done.
  - cbn. rewrite dom_insert_L. apply elem_of_dom_2 in Hs. set_solver.
  - cbn. intros r t. rewrite lookup_insert_Some. intros [[<- <-]|[Hne Ht]].
    + by exists s.
    + exists t. split; [done | apply same_replay_refl].
Qed.

Lemma frame_specialist {A} rid (f : AI A) : frame (on_replay rid (on_specialist f)).
Proof. apply frame_replay. intros s. unfold on_specialist. by destruct (f _). Qed.

Lemma frame_output_gateway {A} rid (f : GM A) : frame (on_replay rid (on_output_gateway f)).
Proof. apply frame_replay. intros s. unfold on_output_gateway. by destruct (f _). Qed.

Lemma frame_history rid f : (∀ h, history_ok h → history_ok (f h)) → frame (on_replay rid (with_history f)).
Proof. intros Hf. apply frame_replay. intros s. by constructor; cbn; auto. Qed.

Ltac history_bounded :=
  apply frame_history; intros h []; constructor; cbn; (assumption || apply push_bounded_length).

Lemma frame_recent_window rid k : frame (on_replay rid (recent_window k)).
Proof. history_bounded. Qed.
Lemma frame_recent_correlation rid t : frame (on_replay rid (recent_correlation t)).
Proof. history_bounded. Qed.
Lemma frame_recent_risk rid r : frame (on_replay rid (recent_risk r)).
Proof. history_bounded. Qed.
Lemma frame_recent_access rid a : frame (on_replay rid (recent_access a)).
Proof. history_bounded. Qed.
Lemma frame_recent_action rid e : frame (on_replay rid (recent_action e)).
Proof. history_bounded. Qed.
Lemma frame_recent_feedback rid f : frame (on_replay rid (recent_feedback f)).
Proof. history_bounded. Qed.
Lemma frame_recent_failure rid e : frame (on_replay rid (recent_failure e)).
Proof. history_bounded. Qed.

Lemma frame_publish `{PyRuntime} rid et payload wid entity ts :
  frame (wf_publish rid et payload wid entity ts).
Proof.
  unfold wf_publish. apply frame_bind; [apply frame_gets |]. intros [|]; [|apply frame_ret].
  apply frame_bind; [apply frame_controller |]. intros u. apply frame_ret.
Qed.

Create HintDb wf_frame.
#[export] Hint Resolve frame_ret frame_gets frame_lift frame_guard frame_throw frame_outside
  frame_orchestration frame_controller frame_findings frame_specialist frame_output_gateway
  frame_recent_correlation frame_recent_risk frame_recent_access frame_recent_action
  frame_recent_feedback frame_recent_failure frame_recent_window frame_publish : wf_frame.

Lemma frame_each {A} (f : A → WM unit) l : (∀ x, frame (f x)) → frame (each f l).
Proof.
  intros Hf. unfold each. induction l as [|x l IH]; [apply frame_ret |].
  apply (frame_bind (f x) (λ acc, foldM (λ _ x, f x) acc l)); [done |]. by intros [].
Qed.

Section dispatch.
Context `{PyRuntime}.

Lemma frame_trace_event rid wid et payload entity request :
  frame (trace_event rid wid et payload entity request).
Proof. apply frame_bind; auto with wf_frame. Qed.

Lemma frame_trace rid wid d request : frame (publish_orchestration_trace rid wid d request).
Proof.
  unfold publish_orchestration_trace. do 6 (apply frame_bind;
    [apply frame_each; intros x; apply frame_trace_event | intros ?]).
  apply frame_bind; [destruct (dec_quorum_formed d); apply frame_trace_event | intros ?].
  apply frame_trace_event.
Qed.

(** Asking the orchestrators touches no window and writes nothing. *)
Lemma frame_dispatch env rid wid ts ready : frame (dispatch_via_orchestration env rid wid ts ready).
Proof.
  unfold dispatch_via_orchestration. case_bool_decide; [apply frame_ret |].
  do 2 (apply frame_bind; [apply frame_outside | intros ?]). apply frame_bind; [apply frame_lift | intros ?].
  apply frame_bind; [apply frame_gets | intros [|]]; [|apply frame_ret].
  apply frame_bind; [apply frame_publish | intros published].
  apply frame_bind; [apply frame_outside | intros adj]. apply frame_bind.
  - intros w. pose proof (frame_orchestration (adjudicate adj (dispatch_request rid wid ts a a0 ready) f_0_25) w).
    by destruct (on_orchestration _ w) as [[?|?] ?].
  - intros [d|e]; (apply frame_bind; [destruct published; [|apply frame_ret] | intros ?; apply frame_ret]).
    + apply frame_trace.
    + apply frame_trace_event.
Qed.
End dispatch.
#[export] Hint Resolve frame_trace_event frame_trace frame_dispatch : wf_frame.

(** ** The state of a running window *)
Section core.
Context `{PyRuntime} (settings : BlackboardSettings) (ids : list string).
Context (env : WfEnv) (decode : list (string * json) → result EnforcementDecisionV1).
Context (rid : string) (wid : Z) (ts wf : string) (k : nat) (w0 : WorkflowService).

Abbreviation replicas s := (co_replicas (bs_coordinator s)).
Abbreviation Board := (option (list BlackboardReplica)).

(** The replicas of an enabled Blackboard. *)
Definition board (w : WorkflowService) : Board :=
  match wf_blackboard w with Some s => if bs_enabled s then Some (replicas s) else None | None => None end.

(** Whatever a quorum held is still held. *)
Definition board_le (o o' : Board) : Prop :=
  match o, o' with
  | Some rs, Some rs' => ∀ key v id, committed_on rs (quorum_size settings) key v id →
      committed_on rs' (quorum_size settings) key v id
  | None, None => True
  | _, _ => False
  end.

#[export] Instance board_le_preorder : PreOrder board_le.
Proof.
  split; [intros [rs|]; cbn; auto |]. intros [rs1|] [rs2|] [rs3|]; cbn; try done. auto.
Qed.

(** A quorum holds a valid record with this key and payload. *)
Definition held (o : Board) (key : string) (payload : list (string * json)) : Prop :=
  match o with
  | Some rs => ∃ record, record_valid record ∧ r_record_key record = key ∧
      r_payload record = payload ∧
      committed_on rs (quorum_size settings) key (r_record_version record) (r_record_id record)
  | None => True
  end.

Definition action_backed (o : Board) (entity : string) (d : EnforcementDecisionV1) : Prop :=
  match o with Some rs => backed settings decode rid wid entity d rs | None => True end.

Lemma held_le o o' key payload : board_le o o' → held o key payload → held o' key payload.
Proof.
  destruct o as [rs|], o' as [rs'|]; cbn; try done. intros Hle (r & ? & ? & ? & Hc).
  exists r. split_and!; try done. by apply Hle.
Qed.

Lemma action_backed_le o o' e d : board_le o o' → action_backed o e d → action_backed o' e d.
Proof.
  destruct o as [rs|], o' as [rs'|]; cbn; try done. intros Hle (r & ? & ? & ? & Hc).
  exists r. split_and!; try done. by apply Hle.
Qed.

(** The service is well formed and every action ledger is durable over it. *)
Definition bb_ok (w : WorkflowService) : Prop := ∃ s,
  wf_blackboard w = Some s ∧ service_ok settings ids s ∧
  map_Forall (λ _ m, durable settings ids decode (the_ledger w m) s) (wf_committers w).

Definition window_at (w : WorkflowService) : option WorkflowWindowState :=
  wf_states w !! rid ≫= λ s, wr_windows s !! k.

(** A replay's state as it was in [w0], the running window apart. *)
Record other_replay (r : string) (s s' : WorkflowReplayState) : Prop := {
  or_table : wr_window_states s' = wr_window_states s;
  or_limit : wr_window_states_limit s' = wr_window_states_limit s;
  or_workflow : wr_workflow_id s' = wr_workflow_id s;
  or_history : history_ok (wr_history s) → history_ok (wr_history s');
  or_windows : ∀ k', (r, k') ≠ (rid, k) → wr_windows s' !! k' = wr_windows s !! k';
}.

(** The Blackboard of [w'] is that of [w] after steps of the cluster. *)
Definition board_steps (w w' : WorkflowService) : Prop := ∃ s s',
  wf_blackboard w = Some s ∧ wf_blackboard w' = Some s' ∧ service_steps s s'.

Record others (w : WorkflowService) : Prop := {
  ot_board : board_steps w0 w;
  ot_limit : wf_window_states_limit w = wf_window_states_limit w0;
  ot_dom : dom (wf_states w) = dom (wf_states w0);
  ot_states : ∀ r s', wf_states w !! r = Some s' →
    ∃ s, wf_states w0 !! r = Some s ∧ other_replay r s s';
}.

(** A relation between the Blackboard, the running window and the locals. *)
Definition Relation : Type := Board → WorkflowWindowState → Locals → Prop.

Definition core (Φ : Relation) (x : Execution) : Prop :=
  bb_ok x.1 ∧ others x.1 ∧ ∃ win, window_at x.1 = Some win ∧ Φ (board x.1) win x.2.

Definition mono (Φ : Relation) : Prop := ∀ o o' win l, board_le o o' → Φ o win l → Φ o' win l.
Definition implies (Φ Ψ : Relation) : Prop := ∀ o win l, Φ o win l → Ψ o win l.

Lemma core_implies Φ Ψ x : implies Φ Ψ → core Φ x → core Ψ x.
Proof. intros Hi (? & ? & win & ? & ?). split_and!; [done | done |]. exists win. auto. Qed.

Lemma core_untouched Φ w w' l : untouched w w' → core Φ (w, l) → core Φ (w', l).
Proof.
  intros [Hb Hc Hl' Hd Hs] ((s & Hw & Hok & Hcm) & [Hbd Hlim Hdom Hot] & win & Hwin & HΦ). cbn in *. split_and!.
  - exists s. cbn. rewrite Hb, Hc. split_and!; [done | done |]. unfold the_ledger. rewrite Hb. exact Hcm.
  - constructor; cbn; [unfold board_steps; by rewrite Hb | by rewrite Hl' | by rewrite Hd |]. intros r s2 H2. destruct (Hs _ _ H2) as (s1 & H1 & []).
    destruct (Hot _ _ H1) as (s0 & H0 & []). exists s0. split; [done |]. constructor; try congruence; auto.
    intros k' Hk. rewrite <-or_windows0 by done. congruence.
  - exists win. split; [|unfold board; cbn; by rewrite Hb]. unfold window_at in *.
    destruct (wf_states w !! rid) as [s1|] eqn:E1; [|done].
    assert (is_Some (wf_states w' !! rid)) as [s2 E2].
    { apply elem_of_dom. rewrite Hd. by apply elem_of_dom_2 in E1. }
    cbn in *. rewrite E2. destruct (Hs _ _ E2) as (s1' & E1' & []).
    assert (s1' = s1) as -> by congruence. cbn. congruence.
Qed.

(** ** Rules *)
Context (Ψ : Relation).

Lemma c_frame {A} Φ (m : WM A) :
  frame m → implies Φ Ψ → hoare (core Φ) (on_wf m) (λ _, core Φ) (core Ψ).
Proof.
  intros Hm Hi [w l] out x' Hx. unfold on_wf. specialize (Hm w). cbn.
  destruct (m w) as [o w'] eqn:Hrun. intros [= <- <-].
  apply (core_untouched Φ w w' l) in Hx; [|done]. destruct o; [done | by eapply core_implies].
Qed.

Lemma c_local Φ Φ' f E :
  (∀ o win l, Φ o win l → Φ' o win (f l)) → hoare (core Φ) (local f) (λ _, core Φ') E.
Proof.
  intros Hf. apply h_modify. intros [w l] (? & ? & win & ? & ?). split_and!; [done | done |].
  exists win. cbn in *. auto.
Qed.

Lemma c_locals {A} Φ (f : Locals → A) E :
  hoare (core Φ) (locals f) (λ a, core (λ o win l, a = f l ∧ Φ o win l)) E.
Proof. intros [w l] out x' (? & ? & win & ? & ?) [= <- <-]. split_and!; [done | done |]. by exists win. Qed.

Lemma c_pure {A} (φ : Prop) Φ (m : XM A) Q E :
  (φ → hoare (core Φ) m Q E) → hoare (core (λ o win l, φ ∧ Φ o win l)) m Q E.
Proof.
  intros Hm x out x' (Hb & Ho & win & Hwin & Hφ & HΦ). apply (Hm Hφ).
  split_and!; [done | done |]. by exists win.
Qed.

Lemma c_pre {A} Φ Φ' (m : XM A) Q E :
  implies Φ' Φ → hoare (core Φ) m Q E → hoare (core Φ') m Q E.
Proof. intros Hi Hm. eapply h_pre; [exact Hm |]. intros x. by apply core_implies. Qed.

(** The state of the running window changes. *)
Lemma c_window Φ Φ' f :
  implies Φ Ψ → (∀ o win l, Φ o win l → Φ' o (f win) l) →
  hoare (core Φ) (in_window rid k f) (λ _, core Φ') (core Ψ).
Proof.
  intros Hi Hf [w l] out x' (Hb & [Hbd Hlim Hdom Hot] & win & Hwin & HΦ). unfold in_window, on_state, on_wf, on_replay.
  unfold window_at in Hwin. cbn in *. destruct (wf_states w !! rid) as [s|] eqn:Hs; [|done]. cbn in Hwin.
  cbn. intros [= <- <-]. split_and!.
  - exact Hb.
  - constructor; [exact Hbd | exact Hlim | cbn; rewrite dom_insert_L; apply elem_of_dom_2 in Hs; set_solver |]. cbn.
    intros r s2. rewrite lookup_insert_Some. intros [[<- <-]|[Hne H2]]; [|by apply Hot].
    destruct (Hot _ _ Hs) as (s0 & H0 & []). exists s0. split; [done |]. constructor; try done.
    intros k' Hk. cbn. rewrite <-or_windows0 by done. apply list_lookup_alter_ne. intros ->. by apply Hk.
  - exists (f win). cbn. unfold window_at. cbn. rewrite lookup_insert_eq. cbn.
    split; [by rewrite list_lookup_alter_eq, Hwin | by apply Hf].
Qed.

(** ** The Blackboard *)
Lemma steps_board s s' :
  service_ok settings ids s → service_steps s s' →
  board_le (if bs_enabled s then Some (replicas s) else None)
    (if bs_enabled s' then Some (replicas s') else None).
Proof.
  intros [(_ & _ & _ & Hwf) _] [Hst He]. rewrite He. destruct (bs_enabled s); [|done].
  destruct (cluster_steps_le _ _ Hst Hwf) as [_ Hle]. intros key v id Hc. by eapply committed_on_mono.
Qed.

Lemma durable_steps s s' m :
  service_ok settings ids s → service_ok settings ids s' → service_steps s s' →
  durable settings ids decode (mk_action_ledger (Some s) (lm_cache_limit m) (lm_cache m) (lm_calls m)) s →
  durable settings ids decode (mk_action_ledger (Some s') (lm_cache_limit m) (lm_cache m) (lm_calls m)) s'.
Proof.
  intros Hs Hs' [Hst _] [_ _ Hc]. constructor; [done | done |]. cbn in *.
  eapply Forall_impl; [exact Hc |]. intros kd. by apply (backed_steps settings ids decode _ _ _ _ s).
Qed.

Lemma board_steps_trans w w1 s s' w' :
  wf_blackboard w1 = Some s → wf_blackboard w' = Some s' → service_steps s s' →
  board_steps w w1 → board_steps w w'.
Proof.
  intros H1 H' [Hst He] (s0 & s1 & H0 & H1' & [Hst0 He0]). exists s0, s'. split_and!; [done | done |].
  assert (s1 = s) as -> by congruence. split; [by etrans | congruence].
Qed.

(** A call of the Blackboard service. *)
Lemma c_service {A} Φ (f : BSM A) Qs :
  svc settings ids (λ _, True) f Qs → mono Φ → implies Φ Ψ →
  hoare (core Φ) (on_wf (on_service f))
    (λ a, core (λ o win l, (∀ rs, o = Some rs → Qs a rs) ∧ Φ o win l)) (core Ψ).
Proof.
  intros Hf Hm Hi [w l] out x' ((s & Hw & Hok & Hcm) & [Hbd Hlim Hdom Hot] & win & Hwin & HΦ). cbn in *.
  unfold on_wf, on_service. cbn [fst snd]. rewrite Hw. destruct (f s) as [o s'] eqn:Hrun.
  destruct (Hf _ _ _ Hok I Hrun) as (Hst & Hok' & He & Ho). intros [= <- <-].
  assert (Hst' : service_steps s s') by (by split).
  set (w' := mk_workflow (Some s') (wf_orchestration w) (wf_controller w) (wf_findings w)
    (wf_window_states_limit w) (wf_states w) (wf_committers w) (wf_ticks w)).
  assert (Hb' : bb_ok w').
  { exists s'. split_and!; [done | done |]. intros r m Hr. specialize (Hcm r m Hr).
    unfold the_ledger in *. rewrite Hw in Hcm. by apply (durable_steps s s'). }
  assert (Hle : board_le (board w) (board w')).
  { unfold board. rewrite Hw. by apply steps_board. }
  assert (HΦ' : Φ (board w') win l) by (by apply (Hm (board w))).
  assert (Hot' : others w').
  { by constructor; [apply (board_steps_trans w0 w s s' w') | ..]. }
  destruct o as [a|e]; (split_and!; [done | done |]); exists win; split; try done.
  - split; [|done]. cbn. destruct (bs_enabled s'); [|done]. by intros rs [= <-].
  - by apply Hi.
Qed.

Lemma c_enabled Φ E :
  hoare (core Φ) (gets (blackboard_on ∘ fst))
    (λ b, core (λ o win l, b = is_some o ∧ Φ o win l)) E.
Proof.
  intros [w l] out x' ((s & Hw & Hok & Hcm) & Ho & win & Hwin & HΦ) [= <- <-]. cbn in *.
  split_and!; [by exists s | done |]. exists win. split_and!; [done | | done].
  unfold blackboard_on, board. cbn. rewrite Hw. by destruct (bs_enabled s).
Qed.

Lemma mono_and (φ : Board → Prop) Φ :
  (∀ o o', board_le o o' → φ o → φ o') → mono Φ → mono (λ o win l, φ o ∧ Φ o win l).
Proof. intros Hφ HΦ o o' win l Hle [? ?]. split; [by eapply Hφ | by eapply HΦ]. Qed.

Lemma implies_and (φ : Board → Prop) Φ : implies Φ Ψ → implies (λ o win l, φ o ∧ Φ o win l) Ψ.
Proof. intros Hi o win l [_ ?]. by apply Hi. Qed.

Context (Hquorum : 1 ≤ quorum_size settings).

(** The write of a downstream output, when it does not raise: a quorum of an
    enabled Blackboard holds it. *)
Lemma c_write Φ which t entity payload prov author component :
  mono Φ → implies Φ Ψ →
  hoare (core Φ) (write_downstream env rid wid ts which t entity payload prov author component)
    (λ _, core (λ o win l, held o (workflow_key t rid wid entity payload) payload ∧ Φ o win l))
    (core Ψ).
Proof.
  intros Hm Hi. unfold write_downstream. eapply h_bind; [apply c_enabled |]. intros [|].
  - assert (Hm' : mono (λ o win l, true = is_some o ∧ Φ o win l)).
    { apply (mono_and (λ o, true = is_some o)); [|done]. by intros [|] [|]. }
    assert (Hi' : implies (λ o win l, true = is_some o ∧ Φ o win l) Ψ)
      by (apply (implies_and (λ o, true = is_some o)); done).
    eapply h_bind; [apply c_frame; [apply frame_outside | exact Hi'] |]. intros senv.
    eapply h_bind; [apply (c_service _ _ _ (svc_workflow_output settings ids Hquorum senv rid wid entity
      t payload prov (Some ts) author component) Hm' Hi') |]. intros r x out x' Hx Hrun.
    destruct x as [w l]. injection Hrun as <- <-. destruct (committed_result r) eqn:Hr; cbn.
    + unfold committed_result in Hr. destruct r as [res|]; [|done]. apply bool_decide_eq_true in Hr.
      eapply core_implies; [|exact Hx]. intros o win l' (Hp & Hen & HΦ). split; [|done].
      destruct o as [rs|]; [|done]. destruct (Hp rs eq_refl res eq_refl Hr) as
        (record & ? & ? & ? & _ & _ & _ & ?). by exists record.
    + eapply core_implies; [|exact Hx]. intros o win l' (_ & _ & HΦ). by apply Hi.
  - apply h_ret. intros x. apply core_implies. intros o win l [Ho HΦ]. split; [|done]. by destruct o.
Qed.

(** ** The committer *)
Lemma lookup_window_at w s : wf_states w !! rid = Some s → window_at w = wr_windows s !! k.
Proof. unfold window_at. by intros ->. Qed.

(** A committer's run leaves the service with the committer's Blackboard. *)
Lemma c_commit Φ decision_id rec e :
  mono Φ → implies Φ Ψ →
  hoare (core Φ)
    (on_wf (on_committer rid (commit_action (H := committer_ledger env decode rid) decision_id rec wf
      rid wid ts e)))
    (λ d, core (λ o win l, action_backed o e d ∧ enacts rec d ∧ Φ o win l)) (core Ψ).
Proof.
  intros Hm Hi [w l] out x' ((s & Hw & Hok & Hcm) & [Hbd Hlim Hdom Hot] & win & Hwin & HΦ). cbn [fst snd] in *.
  unfold on_wf, on_committer. cbn [fst snd].
  assert (Hkey : core Ψ (w, l)).
  { split_and!; [by exists s | done |]. exists win. split; [done | by apply Hi]. }
  destruct (wf_committers w !! rid) as [m|] eqn:Hmemo; [|by intros [= <- <-]].
  destruct (wf_states w !! rid) as [st|] eqn:Hst; [|by intros [= <- <-]].
  specialize (Hcm rid m Hmemo) as Hl. destruct (commit_action _ _ _ _ _ _ _ _) as [o c] eqn:Hrun.
  destruct (run_commit settings ids Hquorum (we_ledger env rid) decode decision_id rec wf rid wid ts e
    (mk_committer (the_ledger w m) (wr_instrumentation st)) s o c Hl I Hrun) as
    (s' & [Hb' Hok' Hc'] & Hsteps & Ho). intros [= <- <-].
  set (w' := mk_workflow _ _ _ _ _ _ _ _). assert (Hb : bb_ok w').
  { exists s'. split_and!; [done | done |]. intros r m' Hr. unfold w' in Hr. cbn in Hr.
    apply lookup_insert_Some in Hr as [[<- <-]|[Hne Hr]].
    - unfold the_ledger, w'. cbn. rewrite Hb'. by constructor.
    - specialize (Hcm r m' Hr). unfold the_ledger, w' in *. cbn in *. rewrite Hw in Hcm. rewrite Hb'.
      by apply (durable_steps s s'). }
  assert (Hle : board_le (board w) (board w')).
  { unfold board, w'. cbn. rewrite Hw, Hb'. by apply steps_board. }
  assert (HΦ' : Φ (board w') win l) by (by apply (Hm (board w))).
  assert (Hot' : others w').
  { constructor; [by apply (board_steps_trans w0 w s s' w') | exact Hlim
      | cbn; rewrite dom_insert_L; apply elem_of_dom_2 in Hst; set_solver |]. cbn.
    intros r s2. rewrite lookup_insert_Some. intros [[<- <-]|[Hne H2]]; [|by apply Hot].
    destruct (Hot _ _ Hst) as (s0 & H0 & []). exists s0. split; [done | by constructor]. }
  assert (Hwin' : window_at w' = Some win).
  { rewrite <-Hwin. unfold window_at, w'. cbn. by rewrite lookup_insert_eq, Hst. }
  destruct o as [d|ex]; (split_and!; [exact Hb | exact Hot' |]); exists win; split; try exact Hwin'.
  - split_and!; [|by apply (commit_enacts (we_ledger env rid) decode _ _ _ _ _ _ _ _ _ _ Hrun) | done].
    unfold action_backed, board, w'. cbn. rewrite Hb'. by destruct (bs_enabled s').
  - by apply Hi.
Qed.

Lemma c_committer Φ E : hoare (core Φ) (on_wf (get_committer rid)) (λ _, core Φ) E.
Proof.
  intros [w l] out x' ((s & Hw & Hok & Hcm) & Ho & win & Hwin & HΦ). cbn in *.
  unfold on_wf, get_committer, gets, mbind, M_bind. cbn [fst snd].
  destruct (wf_committers w !! rid) as [m|] eqn:Hmemo.
  { intros [= <- <-]. split_and!; [by exists s | done |]. by exists win. }
  assert (Hst : ∃ st, wf_states w !! rid = Some st).
  { unfold window_at in Hwin. destruct (wf_states w !! rid) as [st|]; [by exists st | done]. }
  destruct Hst as [st Hst]. unfold get_state, modify. rewrite Hst. intros [= <- <-].
  split_and!; [|by destruct Ho; constructor |].
  - exists s. split_and!; [done | done |]. intros r m. unfold the_ledger. cbn.
    rewrite lookup_insert_Some. intros [[<- <-]|[_ Hr]]; [|by apply (Hcm r m)]. rewrite Hw.
    constructor; [done | done | by apply Forall_nil].
  - by exists win.
Qed.
End core.
