(* ===== verification/WfChain.v ===== *)
(** * The evidence behind a window's decisions

    The invariant of a running window: every output it has recorded is bound to
    the window and its device, names the outputs it was computed from, and is
    held by the Blackboard; agents run in the order of their dependencies. *)

From S2P Require Import Prelude PyString Json BbContracts BbStorage BbAuthorization BbReplica BbReplicaFacts.
From S2P Require Import BbCoordinator BbCluster BbReads BbConsistency OrContracts OrCoordinator SimDevices.
From S2P Require Import SimGateway AgContracts AgRecords AgCore AgSpecialists AgCommit BsService BsFacts.
From S2P Require Import AgLedger AgGateway AgFacts AgLedgerFacts EvBroker EvReplay WfState WfWindow.
From S2P Require Import WfFacts.

(** ** The order of agents *)
Definition executed (win : WorkflowWindowState) : list AgentId :=
  map ax_agent_id (ws_agent_executions win).

(** No agent twice, none before one it depends on. *)
Definition respects (l : list AgentId) : Prop :=
  NoDup l ∧ ∀ i j a b, l !! i = Some a → l !! j = Some b → b ∈ DEPENDENCIES a → (j < i)%nat.

Lemma respects_snoc (C : gset AgentId) l a :
  (∀ b, b ∈ l → b ∈ C) → closed C → a ∉ C → respects l → respects (l ++ [a]).
Proof.
  intros Hl Hc Ha [Hnd Hr]. split.
  { apply NoDup_app. split_and!; [done | | apply NoDup_singleton].
    intros x Hx ->%list_elem_of_singleton. auto. }
  intros i j x y Hi Hj Hd. apply lookup_app_Some in Hi as [Hi|[Hi0 Hi]], Hj as [Hj|[Hj0 Hj]].
  - by eapply Hr.
  - apply list_lookup_singleton_Some in Hj as [_ <-]. destruct Ha.
    by apply (Hc x); [apply Hl; eapply list_elem_of_lookup_2 |].
  - apply lookup_lt_Some in Hj. lia.
  - apply list_lookup_singleton_Some in Hi as [_ <-], Hj as [_ <-]. by destruct a; set_solver.
Qed.

Lemma ready_empty C device risk_rec :
  closed C → (risk_propagation_analyst ∈ C → risk_rec = true) →
  ready_agents C device risk_rec = ∅ → size C = 3%nat ∨ size C = 5%nat.
Proof.
  intros Hc Hrec He.
  assert (Hall : ∀ a, a ∈ C ∨ is_ready a C device risk_rec = false).
  { intros a. destruct (decide (a ∈ C)) as [|Hn]; [by left | right].
    destruct (is_ready a C device risk_rec) eqn:Hr; [|done].
    assert (a ∈ (∅ : gset AgentId)) by (rewrite <-He; by apply elem_of_ready). set_solver. }
  assert (Hn : network_anomaly_detector ∈ C).
  { destruct (Hall network_anomaly_detector) as [|Hr]; [done |]. cbn in Hr.
    apply bool_decide_eq_false in Hr. set_solver. }
  assert (Hb : iot_behavioral_profiler ∈ C).
  { destruct (Hall iot_behavioral_profiler) as [|Hr]; [done |]. cbn in Hr.
    apply bool_decide_eq_false in Hr. set_solver. }
  assert (Ht : threat_intelligence_correlator ∈ C).
  { destruct (Hall threat_intelligence_correlator) as [|Hr]; [done |]. cbn in Hr.
    apply bool_decide_eq_false in Hr. set_solver. }
  destruct (decide (risk_propagation_analyst ∈ C)) as [Hr|Hr].
  - right. assert (Ha : trust_access_controller ∈ C).
    { destruct (Hall trust_access_controller) as [|Ha]; [done |]. cbn in Ha.
      rewrite bool_decide_eq_true_2 in Ha by done. rewrite Hrec in Ha; done. }
    replace C with (list_to_set all_agents : gset AgentId); [by vm_compute |].
    apply set_eq. intros a. split; intros _; [by destruct a | apply elem_of_list_to_set, elem_of_all_agents].
  - left. assert (Ha : trust_access_controller ∉ C).
    { intros Ha. apply Hr, (Hc _ Ha). set_solver. }
    replace C with ({[network_anomaly_detector; iot_behavioral_profiler;
      threat_intelligence_correlator]} : gset AgentId); [by vm_compute |].
    apply set_eq. intros a. split; [set_solver |]. destruct a; set_solver.
Qed.

(** ** Links *)
Section chain.
Context `{PyRuntime} (settings : BlackboardSettings) (ids : list string).
Context (Hquorum : 1 ≤ quorum_size settings).
Context (env : WfEnv) (decode : list (string * json) → result EnforcementDecisionV1).
Context (models : Models) (neighbors : string → result (list string)).
Context (rid : string) (wid : Z) (ts wf : string) (k : nat) (w0 : WorkflowService).

Abbreviation Board := (option (list BlackboardReplica)).

(** A quorum of an enabled Blackboard holds this output of an agent. *)
Definition held_output (o : Board) (t : BlackboardRecordType) (entity : string) (dump : json) : Prop :=
  held settings o (workflow_key t rid wid entity (json_fields dump)) (json_fields dump).

Record threat_link (o : Board) (e : string) (t : ThreatCorrelationV1) : Prop := {
  tl_bound : correlation_bound wf e wid ts t = Ok tt;
  tl_held : held_output o THREAT_CORRELATION_RECORD e (threat_dump t);
}.
Record risk_link (o : Board) (e : string) (t : ThreatCorrelationV1) (r : RiskRecommendationV1) : Prop := {
  rl_bound : risk_bound wf e wid ts r = Ok tt;
  rl_refs : rsk_threat_correlation_refs r = [thr_correlation_id t];
  rl_held : held_output o RISK_RECOMMENDATION_RECORD e (risk_dump r);
}.
Record access_link (o : Board) (e : string) (t : ThreatCorrelationV1) (r : RiskRecommendationV1)
    (a : AccessRecommendationV1) : Prop := {
  al_bound : recommendation_bound a wf wid ts e = Ok tt;
  al_refs : acc_evidence_refs a = [rsk_recommendation_id r; thr_correlation_id t];
  al_action : acc_action a = access_action POLICY_CONFIG (rsk_systemic_risk r) (rsk_evidence_complete r);
  al_held : held_output o ACCESS_RECOMMENDATION_RECORD e (access_dump a);
}.
Record action_link (o : Board) (e : string) (a : AccessRecommendationV1) (d : EnforcementDecisionV1)
    : Prop := {
  en_bound : enf_workflow_id d = wf ∧ enf_replay_id d = rid ∧ enf_window_id d = wid ∧ enf_entity_id d = e;
  en_enacts : enacts a d;
  en_backed : action_backed settings decode rid wid o e d;
}.

(** The window's record for a device leads from the decision back to the threat. *)
Definition chain (o : Board) (win : WorkflowWindowState) (e id : string) : Prop :=
  ∃ t r a d, od_get e (ws_threat_correlation_ids win) = Some (thr_correlation_id t) ∧
    od_get e (ws_risk_recommendation_ids win) = Some (rsk_recommendation_id r) ∧
    od_get e (ws_access_recommendation_ids win) = Some (acc_recommendation_id a) ∧
    id = enf_decision_id d ∧
    threat_link o e t ∧ risk_link o e t r ∧ access_link o e t r a ∧ action_link o e a d.

Definition linked (o : Board) (win : WorkflowWindowState) : Prop :=
  ∀ e id, od_get e (ws_enforcement_decision_ids win) = Some id → chain o win e id.

Abbreviation ble := (board_le settings).

Lemma threat_link_le o o' e t : ble o o' → threat_link o e t → threat_link o' e t.
Proof. intros Hle []. constructor; [done | by eapply held_le]. Qed.
Lemma risk_link_le o o' e t r : ble o o' → risk_link o e t r → risk_link o' e t r.
Proof. intros Hle []. constructor; [done | done | by eapply held_le]. Qed.
Lemma access_link_le o o' e t r a : ble o o' → access_link o e t r a → access_link o' e t r a.
Proof. intros Hle []. constructor; [done | done | done | by eapply held_le]. Qed.
Lemma action_link_le o o' e a d : ble o o' → action_link o e a d → action_link o' e a d.
Proof. intros Hle []. constructor; [done | done | by eapply action_backed_le]. Qed.

Lemma linked_le o o' win : ble o o' → linked o win → linked o' win.
Proof.
  intros Hle Hl e id He. destruct (Hl e id He) as (t & r & a & d & ? & ? & ? & ? & ? & ? & ? & ?).
  exists t, r, a, d. split_and!; try done.
  - by eapply threat_link_le. - by eapply risk_link_le. - by eapply access_link_le.
  - by eapply action_link_le.
Qed.

(** ** The invariant *)
Definition identity (win : WorkflowWindowState) : Prop :=
  ws_window_id win = wid ∧ ws_workflow_id win = wf ∧ ws_logical_timestamp win = Some ts.

(** [C] has completed, [n] agents were dispatched, the executions recorded are
    of agents in [A]. *)
Record body (C : gset AgentId) (n : nat) (A : gset AgentId) (o : Board) (win : WorkflowWindowState)
    (l : Locals) : Prop := {
  bo_completed : lo_completed l = C;
  bo_closed : closed C;
  bo_window : identity win;
  bo_status : ws_status win = WINDOW_OPEN;
  bo_dispatches : length (ws_dispatch_ids win) = n;
  bo_bound : (n ≤ 5)%nat;
  bo_executed : ∀ a, a ∈ executed win → a ∈ A;
  bo_order : respects (executed win);
  bo_threats : ∀ e t, od_get e (lo_threat_corrs l) = Some t →
    threat_link o e t ∧ od_get e (ws_threat_correlation_ids win) = Some (thr_correlation_id t);
  bo_risks : ∀ e r, od_get e (lo_risk_recs l) = Some r →
    od_get e (ws_risk_recommendation_ids win) = Some (rsk_recommendation_id r) ∧
    ∃ t, od_get e (lo_threat_corrs l) = Some t ∧ risk_link o e t r;
  bo_keys : NoDup (lo_risk_recs l).*1;
  bo_no_risks : threat_intelligence_correlator ∉ C → lo_risk_recs l = [];
  bo_linked : linked o win;
}.

(** What holds whenever the window stops. *)
Definition stopped : Relation := λ o win _,
  identity win ∧ linked o win ∧ respects (executed win) ∧ (length (ws_dispatch_ids win) ≤ 5)%nat.

Definition no_actions : Relation := λ _ win _, ws_enforcement_decision_ids win = [].

(** Between iterations, and once an agent was dispatched. *)
Definition loop_inv (C : gset AgentId) (n : nat) (A : gset AgentId) : Relation := λ o win l,
  body C n A o win l ∧ (trust_access_controller ∉ C → no_actions o win l) ∧
  (risk_propagation_analyst ∈ C → lo_risk_rec_available l = true).

Abbreviation core := (core settings ids decode rid k w0).
Abbreviation mono := (mono settings).
#[local] Notation "P ⟹ Q" := (implies P Q) (at level 70).

Lemma body_le C n A : mono (body C n A).
Proof.
  intros o o' win l Hle []. constructor; try done.
  - intros e t Ht. destruct (bo_threats0 e t Ht). split; [by eapply threat_link_le | done].
  - intros e r Hr. destruct (bo_risks0 e r Hr) as (? & t & ? & ?). split; [done |]. exists t.
    split; [done | by eapply risk_link_le].
  - by eapply linked_le.
Qed.

Lemma body_stopped C n A : body C n A ⟹ stopped.
Proof. intros o win l []. split_and!; [done | done | done | lia]. Qed.

Lemma body_weaken C n A A' : (∀ a, a ∈ A → a ∈ A') → body C n A ⟹ body C n A'.
Proof. intros HA o win l []. by constructor; auto. Qed.

Lemma loop_inv_le C n A : mono (loop_inv C n A).
Proof. intros o o' win l Hle (Hb & Hn & Hr). split_and!; [by eapply body_le | exact Hn | done]. Qed.

Lemma loop_inv_stopped C n A : loop_inv C n A ⟹ stopped.
Proof. intros o win l (Hb & _). by eapply body_stopped. Qed.

Lemma stopped_le : mono stopped.
Proof. intros o o' win l Hle (? & ? & ? & ?). split_and!; [done | by eapply linked_le | done | done]. Qed.

(** ** Steps *)
Lemma stopped_refl : stopped ⟹ stopped.
Proof. by intros o win l. Qed.

Lemma c_event Φ et payload : Φ ⟹ stopped →
  hoare (core Φ) (window_event rid wid et payload) (λ _, core Φ) (core stopped).
Proof. intros Hi. eapply h_seq; [apply c_frame; auto with wf_frame | by apply h_ret]. Qed.

Lemma c_entity_event Φ et payload e : Φ ⟹ stopped →
  hoare (core Φ) (entity_event rid wid et payload e) (λ _, core Φ) (core stopped).
Proof. intros Hi. eapply h_seq; [apply c_frame; auto with wf_frame | by apply h_ret]. Qed.

Lemma c_execution Φ Φ' a dispatch_id extra :
  Φ ⟹ stopped → Φ' ⟹ stopped →
  (∀ exec o win l, Φ o win l → Φ' o (add_execution a dispatch_id exec win) l) →
  hoare (core Φ) (execution_completed env rid wid k a dispatch_id extra) (λ _, core Φ') (core stopped).
Proof.
  intros Hi Hi' Hf. eapply h_bind; [apply c_frame; auto with wf_frame |]. intros exec.
  eapply h_seq; [apply (c_window settings ids decode rid k w0 stopped Φ Φ'); auto |]. by apply c_event.
Qed.

Lemma h_quietly Φ m E :
  hoare (core Φ) m (λ _, core Φ) (core Φ) → hoare (core Φ) (quietly m) (λ _, core Φ) E.
Proof.
  intros Hm x out x' Hx [= <- <-]. destruct (m x) as [o x'] eqn:Hrun.
  specialize (Hm x o x' Hx Hrun). by destruct o.
Qed.

(** What a computation leaves alone, with a property of its answer. *)
Lemma c_frame_returns {A} Φ (m : WM A) Q :
  frame m → returns m Q → Φ ⟹ stopped →
  hoare (core Φ) (on_wf m) (λ a, core (λ o win l, Q a ∧ Φ o win l)) (core stopped).
Proof.
  intros Hm Hq Hi x out x' Hx Hrun.
  pose proof (c_frame settings ids decode rid k w0 stopped Φ m Hm Hi x out x' Hx Hrun) as Hc.
  destruct out as [a|e]; [|done]. eapply core_implies; [|exact Hc]. intros o win l HΦ. split; [|done].
  destruct x as [w l']. unfold on_wf in Hrun. cbn in Hrun. destruct (m w) as [o' w'] eqn:Hmw.
  injection Hrun as -> _. by eapply Hq.
Qed.

Lemma returns_replay {A} r (f : RS A) Q : returns f Q → returns (on_replay r f) Q.
Proof.
  intros Hf w a w'. unfold on_replay. destruct (wf_states w !! r) as [s|]; [|done].
  destruct (f s) as [o s'] eqn:Hrun. intros [= -> _]. by eapply Hf.
Qed.

Lemma returns_specialist {A} (f : AI A) Q : returns f Q → returns (on_specialist f) Q.
Proof.
  intros Hf s a s'. unfold on_specialist. destruct (f _) as [o i] eqn:Hrun. intros [= -> _]. by eapply Hf.
Qed.

(** A specialist's answer, by what [Hf] says of it. *)
Lemma c_specialist {A} Φ (f : AI A) Q :
  returns f Q → Φ ⟹ stopped →
  hoare (core Φ) (on_state rid (on_specialist f)) (λ a, core (λ o win l, Q a ∧ Φ o win l)) (core stopped).
Proof.
  intros Hf Hi. apply c_frame_returns; [apply frame_specialist | | done].
  by apply returns_replay, returns_specialist.
Qed.

(** An output the gateway accepted has the bindings it was checked against. *)
Lemma c_submit Φ which o replay e :
  Φ ⟹ stopped →
  hoare (core Φ) (submit_downstream rid wid wf which o replay e)
    (λ _, core (λ b win l, binding_mismatch (Some wf) replay (Some wid) (Some e) o = None ∧ Φ b win l))
    (core stopped).
Proof.
  intros Hi. eapply h_bind.
  - apply (c_frame_returns _ _ (λ ok, ok = true →
      binding_mismatch (Some wf) replay (Some wid) (Some e) o = None)); [auto with wf_frame | | done].
    apply returns_replay. intros s ok s'. unfold on_output_gateway.
    destruct (submit_output _ _ _ _ _ _) as [out g] eqn:Hrun. intros [= -> _] ->.
    by apply submit_output_cases in Hrun as (_ & _ & _ & [_ [? _]]%(λ f, f eq_refl)).
  - intros ok x out x' Hx Hrun. destruct x as [w l]. unfold on_wf, guardM in Hrun. injection Hrun as <- <-.
    destruct ok; cbn.
    + eapply core_implies; [|exact Hx]. intros b win l' [Hq HΦ]. split; [by apply Hq | done].
    + eapply core_implies; [|exact Hx]. intros b win l' [_ HΦ]. by apply Hi.
Qed.
End chain.
