(* ===== verification/WfRuns.v ===== *)
(** * What the agents of a window preserve

    One rule for each agent of [WfWindow.v], for a failing agent, for the dispatch
    loop and for the end of the window. *)

From S2P Require Import Prelude PyString Json BbContracts BbStorage BbAuthorization BbReplica BbReplicaFacts.
From S2P Require Import BbCoordinator BbReads OrContracts OrCoordinator SimDevices SimGateway AgContracts.
From S2P Require Import AgRecords AgCore AgSpecialists AgCommit BsService BsFacts AgLedger AgGateway.
From S2P Require Import AgFacts AgLedgerFacts EvBroker EvReplay WfState WfWindow WfFacts WfChain.

Section runs.
Context `{PyRuntime} (settings : BlackboardSettings) (ids : list string).
Context (env : WfEnv) (decode : list (string * json) → result EnforcementDecisionV1).
Context (models : Models) (neighbors : string → result (list string)).
Context (rid : string) (wid : Z) (ts wf : string) (k : nat) (w0 : WorkflowService).
Context (net_rows beh_rows : list Row) (source_mode : string) (session_trace : option string).

Abbreviation core := (core settings ids decode rid k w0).
Abbreviation mono := (mono settings).
Abbreviation stopped := (stopped settings decode rid wid ts wf).
Abbreviation body := (body settings decode rid wid ts wf).
Abbreviation loop_inv := (loop_inv settings decode rid wid ts wf).
#[local] Notation "P ⟹ Q" := (implies P Q) (at level 70).

Lemma loop_stopped C n A : loop_inv C n A ⟹ stopped.
Proof. apply loop_inv_stopped. Qed.
#[local] Hint Resolve loop_stopped : core.

(** ** The relations an agent keeps *)
Lemma body_locals C n A o win l l' :
  lo_completed l' = lo_completed l → lo_threat_corrs l' = lo_threat_corrs l →
  lo_risk_recs l' = lo_risk_recs l → body C n A o win l → body C n A o win l'.
Proof.
  intros Hc Ht Hr []. constructor; try done; try congruence.
  - intros e t. rewrite Ht. apply bo_threats.
  - intros e r. rewrite Hr, Ht. apply bo_risks.
  - intros Hn. rewrite Hr. by apply bo_no_risks.
Qed.

Lemma loop_locals C n A o win l l' :
  lo_completed l' = lo_completed l → lo_threat_corrs l' = lo_threat_corrs l →
  lo_risk_recs l' = lo_risk_recs l →
  (lo_risk_rec_available l = true → lo_risk_rec_available l' = true) →
  loop_inv C n A o win l → loop_inv C n A o win l'.
Proof.
  intros Hc Ht Hr Ha (Hb & Hn & Hrec). split_and!; [by eapply body_locals | exact Hn | auto].
Qed.

Lemma body_execution C n a dispatch_id exec o win l :
  a ∉ C → body C n C o win l → body C n ({[a]} ∪ C) o (add_execution a dispatch_id exec win) l.
Proof.
  intros Ha []. constructor; try done.
  - intros b. unfold executed. cbn. rewrite map_app, elem_of_app. intros [Hb|Hb].
    + apply elem_of_union_r, bo_executed, Hb.
    + apply list_elem_of_singleton in Hb as ->. by apply elem_of_union_l, elem_of_singleton_2.
  - unfold executed. cbn. rewrite map_app. by apply (respects_snoc C).
Qed.

Lemma body_complete C n A a o win l :
  (∀ b, b ∈ DEPENDENCIES a → b ∈ C) → (∀ b, b ∈ A → b ∈ ({[a]} ∪ C : gset AgentId)) →
  body C n A o win l → body ({[a]} ∪ C) n ({[a]} ∪ C) o win (complete_agent a l).
Proof.
  intros Hd HA []. constructor; try done; cbn.
  - by rewrite bo_completed.
  - intros b [->%elem_of_singleton|Hb]%elem_of_union c Hc; apply elem_of_union_r; [by apply Hd |].
    by apply (bo_closed b).
  - auto.
  - intros Hn. apply bo_no_risks. set_solver.
Qed.

Lemma loop_execution C n a dispatch_id exec o win l :
  a ∉ C → loop_inv C n C o win l → loop_inv C n ({[a]} ∪ C) o (add_execution a dispatch_id exec win) l.
Proof. intros Ha (Hb & Hn & Hr). split_and!; [by apply body_execution | exact Hn | done]. Qed.

Lemma loop_complete C n A a o win l :
  a ≠ risk_propagation_analyst → (∀ b, b ∈ DEPENDENCIES a → b ∈ C) →
  (∀ b, b ∈ A → b ∈ ({[a]} ∪ C : gset AgentId)) →
  loop_inv C n A o win l → loop_inv ({[a]} ∪ C) n ({[a]} ∪ C) o win (complete_agent a l).
Proof.
  intros Ha Hd HA (Hb & Hn & Hr). split_and!; [by eapply body_complete | |].
  - intros Hni. apply Hn. set_solver.
  - intros [<-%elem_of_singleton|Hi]%elem_of_union; [done | by apply Hr].
Qed.

(** ** The model agents *)
Lemma c_submit_finding C n A s :
  hoare (core (loop_inv C n A)) (submit_finding s) (λ _, core (loop_inv C n A)) (core stopped).
Proof.
  eapply h_bind; [apply c_frame; auto with wf_frame |]. intros ok.
  eapply h_seq; [|by apply h_ret]. destruct ok; [|by apply h_ret].
  apply c_local. intros o win l. by apply loop_locals.
Qed.

Lemma c_abm_step C n A E :
  hoare (core (loop_inv C n A)) (abm_step env neighbors wid) (λ _, core (loop_inv C n A)) E.
Proof.
  apply h_quietly. do 2 (eapply h_bind; [apply c_frame; [auto with wf_frame | by intros ?] | intros ?]).
  eapply h_bind; [apply c_frame; [auto with wf_frame | by intros ?] |]. intros recorded.
  eapply h_bind; [apply c_frame; [auto with wf_frame | by intros ?] |]. intros u.
  apply c_local. intros o win l. by apply loop_locals.
Qed.

Lemma c_finish_model C n A a :
  a ≠ risk_propagation_analyst → (∀ b, b ∈ DEPENDENCIES a → b ∈ C) →
  (∀ b, b ∈ A → b ∈ ({[a]} ∪ C : gset AgentId)) →
  hoare (core (loop_inv C n A)) (finish_model_agent env neighbors wid a)
    (λ _, core (loop_inv ({[a]} ∪ C) n ({[a]} ∪ C))) (core stopped).
Proof.
  intros Ha Hd HA. eapply h_seq.
  { apply c_local. intros o win l. by apply (loop_complete C n A). }
  eapply h_bind; [apply c_locals |]. intros completed. apply (c_pre _ _ _ _ _ _ (loop_inv ({[a]} ∪ C) n
    ({[a]} ∪ C))); [by intros o win l [_ ?] |].
  destruct (_ && _); [apply c_abm_step | by apply h_ret].
Qed.

Lemma c_run_network C n dispatch_id :
  network_anomaly_detector ∉ C →
  hoare (core (loop_inv C n C))
    (run_network env models neighbors rid wid net_rows source_mode session_trace k dispatch_id)
    (λ _, core (loop_inv ({[network_anomaly_detector]} ∪ C) n ({[network_anomaly_detector]} ∪ C)))
    (core stopped).
Proof.
  intros Ha. unfold run_network.
  apply (h_bind _ (λ _, core (loop_inv C n ({[network_anomaly_detector]} ∪ C)))).
  - case_bool_decide.
    + eapply h_post; [by apply c_event |]. intros u s. apply core_implies. intros o win l (Hb & Hn & Hr).
      split_and!; [|exact Hn | exact Hr]. eapply body_weaken; [|exact Hb]. set_solver.
    + eapply h_bind; [apply c_frame; auto with wf_frame |]. intros found.
      eapply h_bind; [apply h_lift; intros x; by apply core_implies |]. intros findings. apply h_pure. intros _.
      eapply h_bind; [apply h_loop; intros acc s; eapply h_seq; [apply c_submit_finding | by apply h_ret] |].
      intros u. apply c_execution with (Φ := loop_inv C n C); auto. intros exec o win l. by apply loop_execution.
  - intros u. apply c_finish_model; [done | by intros b | done].
Qed.

Lemma c_run_behavior C n dispatch_id :
  iot_behavioral_profiler ∉ C →
  hoare (core (loop_inv C n C))
    (run_behavior env models neighbors rid wid beh_rows source_mode session_trace k dispatch_id)
    (λ _, core (loop_inv ({[iot_behavioral_profiler]} ∪ C) n ({[iot_behavioral_profiler]} ∪ C)))
    (core stopped).
Proof.
  intros Ha. unfold run_behavior. eapply h_bind.
  { apply h_loop. intros count row. eapply h_bind; [apply c_frame; auto with wf_frame |]. intros found.
    eapply h_bind; [apply h_lift; intros x; by apply core_implies |]. intros [s|]; apply h_pure; intros _;
      [|by apply h_ret]. eapply h_bind; [apply c_submit_finding |]. intros ok. by apply h_ret. }
  intros count. eapply h_bind.
  - apply c_execution with (Φ := loop_inv C n C) (Φ' := loop_inv C n ({[iot_behavioral_profiler]} ∪ C)); auto. intros exec o win l. by apply loop_execution.
  - intros u. apply c_finish_model; [done | by intros b | done].
Qed.

(** ** The correlator *)
Context (Hquorum : 1 ≤ quorum_size settings).

Abbreviation held_output := (held_output settings rid wid).

Lemma implies_held t e dump Φ :
  Φ ⟹ stopped → (λ o win l, held_output o t e dump ∧ Φ o win l) ⟹ stopped.
Proof. intros Hi o win l [_ Hl]. by apply Hi. Qed.

Lemma c_output which t e dump prov author component Φ :
  mono Φ → Φ ⟹ stopped →
  hoare (core Φ)
    (write_downstream env rid wid ts which t e (json_fields dump) prov author component)
    (λ _, core (λ o win l, held_output o t e dump ∧ Φ o win l)) (core stopped).
Proof. intros Hm Hi. by apply c_write. Qed.

Lemma correlate_bound clock cv e fins prov :
  returns (correlate clock cv wf e wid ts fins prov) (λ t, correlation_bound wf e wid ts t = Ok tt).
Proof.
  intros i t i' Hrun. apply correlate_ok in Hrun as (_ & Hw & He & Hi & Ht & _).
  unfold correlation_bound. rewrite Hw, He, Hi, Ht, !bool_decide_eq_true_2, Z.eqb_refl by done. done.
Qed.

(** Without the controller nothing was decided. *)
Lemma undecided C n A o win l a :
  loop_inv C n A o win l → a ∉ C → a = threat_intelligence_correlator ∨ a = risk_propagation_analyst →
  ws_enforcement_decision_ids win = [].
Proof.
  intros (Hb & Hn & _) Ha Hor. apply Hn. intros Hin. destruct Hb.
  assert (Hr : risk_propagation_analyst ∈ C).
  { apply (bo_closed _ Hin). cbn. set_solver. }
  destruct Hor as [->| ->]; [|done]. apply Ha. apply (bo_closed _ Hr). cbn. set_solver.
Qed.

Lemma note_threat_inv C n o win l e t :
  threat_intelligence_correlator ∉ C → correlation_bound wf e wid ts t = Ok tt →
  held_output o THREAT_CORRELATION_RECORD e (threat_dump t) → loop_inv C n C o win l →
  loop_inv C n C o (note_threat PRIMARY_ENTITY e (thr_correlation_id t) win) (keep_threat e t l).
Proof.
  intros Ha Hbound Hheld Hl. pose proof (undecided _ _ _ _ _ _ _ Hl Ha (or_introl eq_refl)) as Hun.
  destruct Hl as ([] & Hn & Hr). split_and!; [|by intros _ | done]. constructor; try done.
  - intros e' t'. cbn. rewrite !od_get_set. case_decide as Hd; [|apply bo_threats].
    intros [= <-]. split; [by subst; constructor | done].
  - intros e' r. cbn. by rewrite bo_no_risks by done.
  - intros e' id. cbn. by rewrite Hun.
Qed.

Lemma c_threat_entity C n fins e :
  threat_intelligence_correlator ∉ C →
  hoare (core (loop_inv C n C)) (threat_entity env rid wid ts wf k fins e)
    (λ _, core (loop_inv C n C)) (core stopped).
Proof.
  intros Ha. eapply h_bind; [apply c_frame; auto with wf_frame |]. intros st.
  destruct (protected_state st); [|by apply h_ret].
  eapply h_bind; [apply c_frame; auto with wf_frame |]. intros clock.
  eapply h_bind; [apply c_specialist; [apply correlate_bound | auto] |]. intros corr. apply c_pure. intros Hbound.
  eapply h_bind; [apply c_submit; auto |]. intros u. apply c_pure. intros _.
  eapply h_bind; [apply c_output; [apply loop_inv_le | auto] |]. intros u2.
  eapply h_bind; [apply c_frame; [auto with wf_frame | by apply implies_held] |]. intros u3.
  eapply h_bind.
  { apply c_local with (Φ' := λ o win l, ∃ l0, l = keep_threat e corr l0 ∧
      held_output o THREAT_CORRELATION_RECORD e (threat_dump corr) ∧ loop_inv C n C o win l0).
    intros o win l Hl. by exists l. }
  intros u4. eapply h_seq; [apply c_window with (Φ' := loop_inv C n C) | by apply c_entity_event].
  - intros o win l (l0 & -> & _ & Hl). by apply loop_stopped in Hl.
  - intros o win l (l0 & -> & Hh & Hl). by apply note_threat_inv.
Qed.

Lemma set_entities_inv C n o win l ids' :
  loop_inv C n C o win l → loop_inv C n C o (set_entity_ids ids' win) l.
Proof. intros ([] & Hn & Hr). split_and!; [by constructor | exact Hn | done]. Qed.

Lemma c_run_threat C n dispatch_id :
  threat_intelligence_correlator ∉ C →
  (∀ b, b ∈ DEPENDENCIES threat_intelligence_correlator → b ∈ C) →
  hoare (core (loop_inv C n C)) (run_threat env rid wid ts wf k dispatch_id)
    (λ _, core (loop_inv ({[threat_intelligence_correlator]} ∪ C) n
                  ({[threat_intelligence_correlator]} ∪ C))) (core stopped).
Proof.
  intros Ha Hd. eapply h_bind; [apply c_locals |]. intros findings.
  apply (c_pre _ _ _ _ _ _ (loop_inv C n C)); [by intros o win l [_ ?] |].
  eapply h_bind; [apply c_window with (Φ' := loop_inv C n C); auto using set_entities_inv |]. intros u.
  eapply h_bind; [apply h_loop; intros acc e; by apply c_threat_entity |]. intros u2.
  eapply h_bind.
  { apply c_execution with (Φ := loop_inv C n C)
      (Φ' := loop_inv C n ({[threat_intelligence_correlator]} ∪ C)); auto.
    intros exec o win l. by apply loop_execution. }
  intros u3. apply c_local. intros o win l. by apply loop_complete.
Qed.

(** ** The risk analyst *)
Lemma analyze_bound clock e v cs prov :
  returns (analyze clock wf e wid ts v cs prov)
    (λ r, risk_bound wf e wid ts r = Ok tt ∧ rsk_threat_correlation_refs r = map thr_correlation_id cs).
Proof.
  intros i r i' Hrun. apply analyze_ok in Hrun as (-> & _). split; [|done].
  unfold risk_bound. cbn. by rewrite !bool_decide_eq_true_2, Z.eqb_refl by done.
Qed.

Lemma note_risk_inv C n o win l e t r :
  threat_intelligence_correlator ∈ C → risk_propagation_analyst ∉ C →
  od_get e (lo_threat_corrs l) = Some t → risk_bound wf e wid ts r = Ok tt →
  rsk_threat_correlation_refs r = [thr_correlation_id t] →
  held_output o RISK_RECOMMENDATION_RECORD e (risk_dump r) → loop_inv C n C o win l →
  loop_inv C n C o (note_risk PRIMARY_ENTITY e (rsk_recommendation_id r) win) (keep_risk e r l).
Proof.
  intros Ht Ha He Hbound Hrefs Hheld Hl.
  pose proof (undecided _ _ _ _ _ _ _ Hl Ha (or_intror eq_refl)) as Hun.
  destruct Hl as ([] & Hn & Hr). split_and!; [|by intros _ | done]. constructor; try done.
  - intros e' r'. cbn. rewrite !od_get_set. case_decide as Hd; [|apply bo_risks].
    intros [= <-]. split; [by subst |]. subst. exists t. split; [done | by constructor].
  - by apply od_set_nodup.
  - intros e' id. cbn. by rewrite Hun.
Qed.

(** The correlations the analyst works through. *)
Definition analysing (corrs : list (string * ThreatCorrelationV1)) (C : gset AgentId) (n : nat) : Relation :=
  λ o win l, lo_threat_corrs l = corrs ∧ loop_inv C n C o win l.

Lemma analysing_le corrs C n : mono (analysing corrs C n).
Proof. intros o o' win l Hle [? Hl]. split; [done | by eapply loop_inv_le]. Qed.

Lemma analysing_stopped corrs C n : analysing corrs C n ⟹ stopped.
Proof. intros o win l [_ Hl]. by eapply loop_stopped. Qed.
#[local] Hint Resolve analysing_stopped : core.

Lemma c_risk_entity corrs C n e :
  threat_intelligence_correlator ∈ C → risk_propagation_analyst ∉ C → is_Some (od_get e corrs) →
  hoare (core (analysing corrs C n)) (risk_entity env rid wid ts wf k e)
    (λ _, core (analysing corrs C n)) (core stopped).
Proof.
  intros Ht Ha [t He]. eapply h_bind; [apply c_frame; auto with wf_frame |]. intros st.
  destruct (protected_state st) as [dev|]; [|by apply h_ret].
  eapply h_bind; [apply c_locals |]. intros corr.
  apply (c_pre _ _ _ _ _ _ (λ o win l, corr = Some t ∧ analysing corrs C n o win l)).
  { intros o win l [-> [Hc Hl]]. split; [cbn; by rewrite Hc | done]. }
  apply c_pure. intros ->.
  eapply h_bind; [apply c_frame; auto with wf_frame |]. intros clock.
  eapply h_bind; [apply c_specialist; [apply analyze_bound | auto] |]. intros rec. apply c_pure. intros [Hb Hr].
  eapply h_bind; [apply c_submit; auto |]. intros u. apply c_pure. intros _.
  eapply h_bind; [apply c_output; [apply analysing_le | auto] |]. intros u2.
  eapply h_bind; [apply c_frame; [auto with wf_frame | by apply implies_held] |]. intros u3.
  eapply h_bind.
  { apply c_window with (Φ' := λ o win l, ∃ win0, win = note_risk PRIMARY_ENTITY e (rsk_recommendation_id rec) win0 ∧
      held_output o RISK_RECOMMENDATION_RECORD e (risk_dump rec) ∧ analysing corrs C n o win0 l);
      [by apply implies_held |]. intros o win l Hl. by exists win. }
  intros u4. eapply h_seq; [apply c_local with (Φ' := analysing corrs C n) | by apply c_entity_event].
  intros o win l (win0 & -> & Hh & Hc & Hl). split; [done |]. apply (note_risk_inv _ _ _ _ _ _ t); try done.
  by rewrite Hc.
Qed.

Lemma od_get_key {V} e (d : list (string * V)) : e ∈ sort_strings d.*1 → is_Some (od_get e d).
Proof.
  unfold sort_strings. rewrite elem_of_isort. intros Hin. induction d as [|[e' v] d IH]; [by apply elem_of_nil in Hin |].
  cbn in *. case_decide; [by eexists |]. apply IH. by apply elem_of_cons in Hin as [?|?].
Qed.

Lemma c_run_risk C n dispatch_id :
  risk_propagation_analyst ∉ C →
  (∀ b, b ∈ DEPENDENCIES risk_propagation_analyst → b ∈ C) →
  hoare (core (loop_inv C n C)) (run_risk env neighbors rid wid ts wf k dispatch_id)
    (λ _, core (loop_inv ({[risk_propagation_analyst]} ∪ C) n ({[risk_propagation_analyst]} ∪ C)))
    (core stopped).
Proof.
  intros Ha Hd. assert (Ht : threat_intelligence_correlator ∈ C) by (apply Hd; cbn; set_solver).
  eapply h_bind; [apply h_quietly, c_frame; [auto with wf_frame | by intros ?] |]. intros u.
  eapply h_bind; [apply c_local with (Φ' := loop_inv C n C); intros o win l; by apply loop_locals |]. intros u2.
  eapply h_bind; [apply c_locals |]. intros corrs.
  set (I := λ (rest : list string) (_ : unit), core (λ o win l,
    (∀ e, e ∈ rest → is_Some (od_get e corrs)) ∧ analysing corrs C n o win l)).
  eapply h_pre with (P := I (sort_strings corrs.*1) tt).
  2:{ intros x. apply core_implies. intros o win l [-> ?]. split; [intros e; apply od_get_key | done]. }
  eapply h_bind.
  { apply (h_foldM I). intros acc e rest. apply c_pure. intros Hrest.
    eapply h_post; [apply c_risk_entity; auto |]. 
    - apply Hrest. by left.
    - intros v x. apply core_implies. intros o win l Hl. split; [|done]. intros e' He'. apply Hrest. by right. }
  intros u3. apply c_pure. intros _. eapply h_bind.
  { apply c_execution with (Φ := analysing corrs C n)
      (Φ' := loop_inv C n ({[risk_propagation_analyst]} ∪ C)); auto.
    intros exec o win l [_ Hl]. by apply loop_execution. }
  intros u4. set (C' := {[risk_propagation_analyst]} ∪ C). eapply h_bind.
  { apply c_local with (Φ' := λ o win l, body C' n C' o win l ∧ no_actions o win l).
    intros o win l Hl. pose proof (undecided _ _ _ _ _ _ _ Hl Ha (or_intror eq_refl)) as Hun.
    destruct Hl as (Hb & _). split; [by eapply body_complete | exact Hun]. }
  intros u5. eapply h_bind.
  { apply c_local with (Φ' := λ o win l, body C' n C' o win l ∧ no_actions o win l).
    intros o win l [Hb Hn]. split; [by apply (body_locals _ _ _ _ _ l) | exact Hn]. }
  intros u6. apply c_local. intros o win l [Hb Hn]. split_and!; [by apply (body_locals _ _ _ _ _ l) | by intros _ | done].
Qed.

(** ** The access controller *)

(** While decisions are made: the risk recommendations are fixed, and the
    devices left to decide on have no decision yet. *)
Definition deciding (risks : list (string * RiskRecommendationV1)) (C : gset AgentId) (n : nat)
    (rest : list string) : Relation := λ o win l,
  lo_risk_recs l = risks ∧ body C n C o win l ∧
  ∀ e, e ∈ rest → od_get e (ws_enforcement_decision_ids win) = None.

(** A recommendation was made for the next device. *)
Definition recommended (risks : list (string * RiskRecommendationV1)) (C : gset AgentId) (n : nat)
    (e : string) (rest : list string) (a : AccessRecommendationV1) : Relation := λ o win l,
  (∃ t r, od_get e (lo_threat_corrs l) = Some t ∧ od_get e (lo_risk_recs l) = Some r ∧
     access_link settings rid wid ts wf o e t r a) ∧
  od_get e (ws_access_recommendation_ids win) = Some (acc_recommendation_id a) ∧
  deciding risks C n (e :: rest) o win l.

Lemma deciding_le risks C n rest : mono (deciding risks C n rest).
Proof. intros o o' win l Hle (? & Hb & ?). split_and!; [done | by eapply body_le | done]. Qed.

Lemma deciding_stopped risks C n rest : deciding risks C n rest ⟹ stopped.
Proof. intros o win l (_ & Hb & _). by eapply body_stopped. Qed.

Lemma recommended_le risks C n e rest a : mono (recommended risks C n e rest a).
Proof.
  intros o o' win l Hle ((t & r & ? & ? & ?) & ? & Hd). split_and!; [|done | by eapply deciding_le].
  exists t, r. split_and!; [done | done | by eapply access_link_le].
Qed.

Lemma recommended_stopped risks C n e rest a : recommended risks C n e rest a ⟹ stopped.
Proof. intros o win l (_ & _ & Hd). by eapply deciding_stopped. Qed.
#[local] Hint Resolve deciding_stopped recommended_stopped : core.

Lemma decide_bound clock e r cs prov :
  returns (decide_access clock POLICY_CONFIG wf e wid ts r cs prov)
    (λ a, recommendation_bound a wf wid ts e = Ok tt ∧
       acc_evidence_refs a = rsk_recommendation_id r :: map thr_correlation_id cs ∧
       acc_action a = access_action POLICY_CONFIG (rsk_systemic_risk r) (rsk_evidence_complete r)).
Proof.
  intros i a i' Hrun. apply decide_access_ok in Hrun as (-> & _). split; [|done].
  unfold recommendation_bound. cbn. by rewrite !bool_decide_eq_true_2, Z.eqb_refl by done.
Qed.

Lemma note_access_inv risks C n e rest o win l t r a :
  od_get e (lo_threat_corrs l) = Some t → od_get e (lo_risk_recs l) = Some r →
  access_link settings rid wid ts wf o e t r a → deciding risks C n (e :: rest) o win l →
  recommended risks C n e rest a o (note_access PRIMARY_ENTITY e (acc_recommendation_id a) win) l.
Proof.
  intros Ht Hr Ha (Hrisks & [] & Hrest). split; [by exists t, r |].
  split; [cbn; by rewrite od_get_set, decide_True |].
  split; [done |]. split; [|exact Hrest]. constructor; try done.
  intros e' id He'. destruct (bo_linked e' id He') as (t' & r' & a' & d & ? & ? & ? & ? & ? & ? & ? & ?).
  exists t', r', a', d. split_and!; try done. cbn. rewrite od_get_set, decide_False; [done |].
  intros ->. cbn in He'. rewrite Hrest in He' by (by left). done.
Qed.

Lemma note_enforcement_inv risks C n e rest o win l a d :
  e ∉ rest → action_link settings decode rid wid wf o e a d →
  recommended risks C n e rest a o win l →
  deciding risks C n rest o (note_enforcement PRIMARY_ENTITY e (enf_decision_id d) win) l.
Proof.
  intros Hni Hd ((t & r & Ht & Hr & Ha) & Hacc & Hrisks & [] & Hrest). split_and!; [done | |].
  - constructor; try done. intros e' id. cbn. rewrite od_get_set. case_decide as Hee; [|apply bo_linked].
    intros [= <-]. subst e'. destruct (bo_threats _ _ Ht), (bo_risks _ _ Hr) as (? & t' & ? & ?).
    assert (t' = t) as -> by congruence. exists t, r, a, d. by split_and!.
  - intros e' He'. cbn. rewrite od_get_set, decide_False by (by intros ->). apply Hrest. by right.
Qed.

Lemma c_enforce risks C n e rest a :
  e ∉ rest →
  hoare (core (recommended risks C n e rest a)) (enforce env decode rid wid ts wf k e a)
    (λ _, core (deciding risks C n rest)) (core stopped).
Proof.
  intros Hni. eapply h_bind; [apply c_frame; auto with wf_frame |]. intros id.
  eapply h_bind; [apply c_commit; [done | apply recommended_le | auto] |]. intros d. cbv beta.
  set (Φ := λ o win l, action_backed settings decode rid wid o e d ∧ enacts a d ∧ recommended risks C n e rest a o win l).
  assert (Hi : Φ ⟹ stopped) by (intros o win l (_ & _ & Hr); by eapply recommended_stopped).
  eapply h_bind; [apply c_submit with (Φ := Φ); exact Hi |]. intros u. apply c_pure. intros Hbind.
  eapply h_bind; [apply c_frame; auto with wf_frame |]. intros u2.
  eapply h_seq; [apply c_window with (Φ' := deciding risks C n rest); [exact Hi |] | by apply c_entity_event].
  intros o win l (Hback & Hen & Hr). apply (note_enforcement_inv _ _ _ _ _ _ _ _ a); [done | | done].
  constructor; [|done | done]. unfold binding_mismatch in Hbind. cbn in Hbind.
  repeat (case_bool_decide; cbn in Hbind; [|done]). naive_solver.
Qed.

Lemma c_access_entity risks C n e rest :
  e ∉ rest → is_Some (od_get e risks) →
  hoare (core (deciding risks C n (e :: rest))) (access_entity env decode rid wid ts wf k e)
    (λ _, core (deciding risks C n rest)) (core stopped).
Proof.
  intros Hni [r Hr]. eapply h_bind; [apply c_locals |]. intros risk.
  apply (c_pre _ _ _ _ _ _ (λ o win l, risk = Some r ∧ deciding risks C n (e :: rest) o win l)).
  { intros o win l [-> [Hrisks Hd]]. split; [cbn; by rewrite Hrisks | done]. }
  apply c_pure. intros ->. eapply h_bind; [apply c_locals |]. intros corr. cbv beta.
  set (Φ := λ o win l, (∃ t, corr = Some t ∧ od_get e (lo_threat_corrs l) = Some t) ∧
    deciding risks C n (e :: rest) o win l).
  apply (c_pre _ _ _ _ _ _ Φ).
  { intros o win l [-> (Hrisks & Hb & Hrest)]. split; [|done]. cbn.
    destruct (bo_risks _ _ _ _ _ _ _ _ _ _ _ _ Hb e r) as (_ & t & Ht & _); [by rewrite Hrisks |]. by exists t. }
  assert (Hi : Φ ⟹ stopped) by (intros o win l [_ Hd]; by eapply deciding_stopped).
  assert (Hm : mono Φ) by (intros o o' win l Hle [? Hd]; split; [done | by eapply deciding_le]).
  eapply h_bind; [apply c_frame; auto with wf_frame |]. intros clock.
  eapply h_bind; [apply c_specialist; [apply decide_bound | exact Hi] |]. intros a. apply c_pure.
  intros (Hbound & Hrefs & Hact).
  eapply h_bind; [apply c_submit; exact Hi |]. intros u. apply c_pure. intros _.
  eapply h_bind; [apply c_output; [exact Hm | exact Hi] |]. intros u2.
  eapply h_bind; [apply c_frame; [auto with wf_frame | by apply implies_held] |]. intros u3.
  eapply h_bind; [apply c_window with (Φ' := recommended risks C n e rest a); [by apply implies_held |] |].
  - intros o win l (Hheld & (t & -> & Ht) & Hd). apply (note_access_inv _ _ _ _ _ _ _ _ t r); [done | | | done].
    + by destruct Hd as [-> _].
    + by constructor.
  - intros u4. eapply h_seq; [by apply c_entity_event | by apply c_enforce].
Qed.

Lemma c_run_access C n dispatch_id :
  trust_access_controller ∉ C →
  (∀ b, b ∈ DEPENDENCIES trust_access_controller → b ∈ C) →
  hoare (core (loop_inv C n C)) (run_access env decode rid wid ts wf k dispatch_id)
    (λ _, core (loop_inv ({[trust_access_controller]} ∪ C) n ({[trust_access_controller]} ∪ C)))
    (core stopped).
Proof.
  intros Ha Hd. eapply h_bind; [apply c_locals |]. intros risks. cbv beta.
  set (I := λ (rest : list string) (_ : unit), core (λ o win l,
    (NoDup rest ∧ ∀ e, e ∈ rest → is_Some (od_get e risks)) ∧ deciding risks C n rest o win l)).
  eapply h_bind; [apply c_committer |]. intros u.
  eapply h_pre with (P := I (sort_strings risks.*1) tt).
  2:{ intros x. apply core_implies. intros o win l [-> (Hb & Hn & _)]. split; [split; [|intros e; apply od_get_key] | split; [done | split; [done |]]].
      - unfold sort_strings. rewrite isort_perm. apply Hb.
      - intros e _. by rewrite Hn. }
  eapply h_bind.
  { apply (h_foldM I). intros acc e rest. apply c_pure. intros [[Hni Hnd]%NoDup_cons Hrest].
    eapply h_post; [apply c_access_entity; [done | apply Hrest; by left] |].
    intros v x. apply core_implies. intros o win l Hl. split; [split; [done |] | done].
    intros e' He'. apply Hrest. by right. }
  intros u2. apply c_pure. intros _. set (C' := {[trust_access_controller]} ∪ C). eapply h_bind.
  { apply c_execution with (Φ := deciding risks C n []) (Φ' := body C n C'); [auto | intros o win l; apply body_stopped |].
    intros exec o win l (_ & Hb & _). by apply body_execution. }
  intros u3. eapply h_bind.
  { apply c_local with (Φ' := body C' n C'). intros o win l Hb. by eapply body_complete. }
  intros u4. apply c_local. intros o win l Hb. split; [by apply (body_locals _ _ _ _ _ l) |]. split; [|done].
  intros Hni. destruct Hni. by apply elem_of_union_l, elem_of_singleton_2.
Qed.

(** ** Any agent *)
Lemma c_run_agent C n a dispatch_id :
  a ∉ C → (∀ b, b ∈ DEPENDENCIES a → b ∈ C) →
  hoare (core (loop_inv C n C))
    (run_agent env decode models neighbors rid wid ts net_rows beh_rows source_mode session_trace wf k
       a dispatch_id)
    (λ _, core (loop_inv ({[a]} ∪ C) n ({[a]} ∪ C))) (core stopped).
Proof.
  intros Ha Hd. destruct a.
  - by apply c_run_network.
  - by apply c_run_behavior.
  - by apply c_run_threat.
  - by apply c_run_risk.
  - by apply c_run_access.
Qed.

(** The window failed, or not. *)
Definition ended (Φ : WorkflowWindowState → Prop) : Relation := λ o win l, stopped o win l ∧ Φ win.
Definition broken (win : WorkflowWindowState) : Prop := ws_status win = WINDOW_BROKEN.

Lemma ended_stopped Φ : ended Φ ⟹ stopped.
Proof. by intros o win l [? _]. Qed.
#[local] Hint Resolve ended_stopped : core.

Lemma c_agent_failed a e :
  hoare (core stopped) (agent_failed rid wid k a e) (λ _, core (ended broken)) (core stopped).
Proof.
  eapply h_bind; [apply c_window with (Φ' := stopped); [by intros ? | by intros o win l ?] |]. intros u.
  eapply h_bind; [apply c_event; by intros ? |]. intros u2.
  eapply h_bind; [apply c_window with (Φ' := ended broken); [by intros ? | by intros o win l ?] |]. intros u3.
  apply c_frame; auto with wf_frame.
Qed.

Lemma c_execute_agent C n a dispatch_id :
  a ∉ C → (∀ b, b ∈ DEPENDENCIES a → b ∈ C) →
  hoare (core (loop_inv C n C))
    (execute_agent env decode models neighbors rid wid ts net_rows beh_rows source_mode session_trace
       wf k a dispatch_id)
    (λ b, if b : bool then core (loop_inv ({[a]} ∪ C) n ({[a]} ∪ C)) else core (ended broken))
    (core stopped).
Proof.
  intros Ha Hd x out x' Hx. unfold execute_agent.
  destruct (run_agent _ _ _ _ _ _ _ _ _ _ _ _ _ _ _ x) as [o x1] eqn:Hrun.
  pose proof (c_run_agent C n a dispatch_id Ha Hd x o x1 Hx Hrun) as H1.
  destruct o as [u|e]; [by intros [= <- <-] |]. intros Hfail.
  eapply (h_bind _ _ (λ b, if b : bool then core (loop_inv ({[a]} ∪ C) n ({[a]} ∪ C)) else core (ended broken))
    _ _ _ (c_agent_failed a e)); [|exact H1 | exact Hfail].
  intros v. by apply h_ret.
Qed.

(** ** The dispatch loop *)
Lemma c_fail_window text :
  hoare (core stopped) (fail_window rid k text) (λ _, core (ended broken)) (core stopped).
Proof.
  eapply h_bind; [apply c_window with (Φ' := stopped); [by intros ? | by intros o win l ?] |]. intros u.
  apply c_window; [by intros ? | by intros o win l ?].
Qed.

Lemma c_no_quorum ready :
  hoare (core stopped) (no_quorum env rid wid k ready) (λ _, core (ended broken)) (core stopped).
Proof.
  eapply h_seq; [apply c_fail_window |]. eapply h_seq; [by apply c_event |].
  apply c_frame; auto with wf_frame.
Qed.

Lemma c_selected_not_ready o :
  hoare (core stopped) (selected_not_ready rid wid k o) (λ _, core (ended broken)) (core stopped).
Proof. eapply h_seq; [apply c_fail_window | by apply c_event]. Qed.

Lemma add_dispatch_inv C n o win l id :
  (n < 5)%nat → loop_inv C n C o win l → loop_inv C (S n) C o (add_dispatch id win) l.
Proof.
  intros Hlt ([] & Hn & Hr). split; [|by split]. constructor; try done; try lia.
  cbn. rewrite length_app. cbn. lia.
Qed.

Definition chosen_inv (ready C : gset AgentId) (n : nat) (c : option (AgentId * string)) : Execution → Prop :=
  match c with
  | Some (a, _) => λ x, a ∈ ready ∧ core (loop_inv C (S n) C) x
  | None => core (ended broken)
  end.

Lemma c_announce C n a id selected d :
  (n < 5)%nat →
  hoare (core (loop_inv C n C)) (announce_dispatch rid wid wf k a id selected d)
    (λ _, core (loop_inv C (S n) C)) (core stopped).
Proof.
  intros Hlt. eapply h_seq.
  { apply c_window with (Φ' := loop_inv C (S n) C); [auto |]. intros o win l. by apply add_dispatch_inv. }
  eapply h_seq; apply c_event; auto.
Qed.

Lemma c_choose_agent ready C n :
  (ready ≠ ∅ → n < 5)%nat →
  hoare (core (loop_inv C n C)) (choose_agent env rid wid ts wf k ready) (chosen_inv ready C n) (core stopped).
Proof.
  intros Hlt. unfold choose_agent.
  assert (Hfail : ∀ (f : XM unit), hoare (core stopped) f (λ _, core (ended broken)) (core stopped) →
    hoare (core (loop_inv C n C)) (_ ← f; mret None) (chosen_inv ready C n) (core stopped)).
  { intros f Hf. apply (c_pre _ _ _ _ _ _ stopped); [auto |]. eapply h_seq; [exact Hf | by apply h_ret]. }
  eapply h_bind; [apply c_frame; auto with wf_frame |]. intros [d|]; [|apply Hfail, c_no_quorum].
  case_bool_decide; [|apply Hfail, c_no_quorum].
  destruct (dec_selected_route_id d) as [selected|]; [|apply Hfail, c_selected_not_ready].
  case_bool_decide; [|apply Hfail, c_selected_not_ready].
  destruct (od_get selected ROUTE_TO_AGENT) as [a|].
  2:{ intros [w l] out x' Hx [= <- <-]. eapply core_implies; [|exact Hx]. auto. }
  case_bool_decide as Hin; [|apply Hfail; by apply c_fail_window].
  eapply h_bind; [apply c_frame; auto with wf_frame |]. intros id.
  eapply h_seq; [apply c_announce, Hlt; set_solver |]. apply h_ret. by intros x Hx.
Qed.

Definition done_well (win : WorkflowWindowState) : Prop :=
  ws_status win ≠ WINDOW_BROKEN ∧
  (length (ws_dispatch_ids win) = 3%nat ∨ length (ws_dispatch_ids win) = 5%nat).
Definition loop_post : Relation := ended (λ win, broken win ∨ done_well win).

(** Six iterations are enough: the loop only ends when no agent is ready or the
    window has failed. *)
Lemma c_workflow_loop iterations C :
  (iterations + size C = 6)%nat →
  hoare (core (loop_inv C (size C) C))
    (workflow_loop env decode models neighbors rid wid ts net_rows beh_rows source_mode session_trace
       wf k iterations) (λ _, core loop_post) (core stopped).
Proof.
  revert C. induction iterations as [|it IH]; intros C Hsize.
  { pose proof (completed_bound C). lia. }
  cbn [workflow_loop]. eapply h_bind; [apply c_locals |]. intros ready.
  apply (c_pre _ _ _ _ _ _ (λ o win l, (∃ device risk_rec, ready = ready_agents C device risk_rec ∧
    (risk_propagation_analyst ∈ C → risk_rec = true)) ∧ loop_inv C (size C) C o win l)).
  { intros o win l [-> Hl]. split; [|done]. destruct Hl as ([] & _ & Hr). rewrite bo_completed.
    by exists (lo_device_risk_available l), (lo_risk_rec_available l). }
  apply c_pure. intros (device & risk_rec & -> & Hrec). case_bool_decide as He.
  - apply h_ret. intros x. apply core_implies. intros o win l Hl. split; [by apply loop_stopped in Hl |].
    right. destruct Hl as ([] & _). split; [by rewrite bo_status |]. rewrite bo_dispatches.
    by apply (ready_empty C device risk_rec).
  - assert (Hnew : ∀ a, a ∈ ready_agents C device risk_rec →
      a ∉ C ∧ (∀ b, b ∈ DEPENDENCIES a → b ∈ C) ∧ size ({[a]} ∪ C) = S (size C)).
    { intros a Ha'. apply elem_of_ready in Ha' as [Ha Hr]. split_and!; [done | |].
      - intros b Hb. by apply (is_ready_deps a C device risk_rec Hr).
      - rewrite size_union by set_solver. by rewrite size_singleton. }
    eapply h_bind; [apply c_choose_agent |].
    { intros (a & Ha)%set_choose_L. destruct (Hnew a Ha) as (_ & _ & Hsz).
      pose proof (completed_bound ({[a]} ∪ C)). lia. }
    intros [[a id]|]; cbn [chosen_inv].
    + apply h_pure. intros Ha. destruct (Hnew a Ha) as (Hni & Hd & Hsz).
      eapply h_bind; [by apply c_execute_agent |]. intros [|].
      * rewrite <-Hsz. apply IH. lia.
      * apply h_ret. intros x. apply core_implies. intros o win l [? ?]. split; [done | by left].
    + apply h_ret. intros x. apply core_implies. intros o win l [? ?]. split; [done | by left].
Qed.

(** ** The end of the window *)
Definition settled_well (win : WorkflowWindowState) : Prop :=
  (ws_status win = WINDOW_BROKEN) ∨
  (ws_status win = WINDOW_DONE ∧
   (length (ws_dispatch_ids win) = 3%nat ∨ length (ws_dispatch_ids win) = 5%nat)).

(** Reading the running window. *)
Lemma c_find_window Φ E :
  hoare (core Φ) (on_state rid (gets (λ s, wr_windows s !! k)))
    (λ found, core (λ o win l, found = Some win ∧ Φ o win l)) E.
Proof.
  intros [w l] out x' (Hb & Ho & win & Hwin & HΦ) Hrun.
  assert (Hf : frame (on_replay rid (gets (λ s, wr_windows s !! k)))).
  { apply frame_replay. intros s. apply same_replay_refl. }
  specialize (Hf w). unfold on_state, on_wf in Hrun. cbn [fst snd] in Hrun.
  assert (Hout : out = Ok (Some win) ∧ x' = ((on_replay rid (gets (λ s, wr_windows s !! k)) w).2, l)).
  { unfold window_at, on_replay in *. cbn in Hwin. destruct (wf_states w !! rid) as [s|]; [|done].
    cbn in *. rewrite Hwin in Hrun. by injection Hrun as <- <-. }
  destruct Hout as [-> ->]. apply (core_untouched _ _ _ _ _ _ _ w); [done |].
  split_and!; [done | done |]. by exists win.
Qed.

Lemma c_settle :
  hoare (core loop_post) (settle_window rid wid wf k) (λ _, core (ended settled_well)) (core stopped).
Proof.
  assert (Hi : loop_post ⟹ stopped) by (intros o win l; apply ended_stopped).
  eapply h_bind; [apply c_find_window |]. intros [win|].
  2:{ apply (c_pre _ _ _ _ _ _ (λ o win l, False ∧ loop_post o win l)); [by intros o win l [? ?] |].
      by apply c_pure. }
  cbv beta. set (Φ := λ o win' l, Some win = Some win' ∧ loop_post o win' l).
  assert (HΦ : Φ ⟹ stopped) by (intros o win' l [_ Hl]; by apply Hi). case_bool_decide as Hst.
  - eapply h_post; [by apply c_event with (Φ := Φ) |]. intros u x. apply core_implies.
    intros o win' l [[= <-] [Hs _]]. split; [exact Hs | by left].
  - eapply h_seq; [apply c_window with (Φ' := ended settled_well); [exact HΦ |] | by apply c_event].
    intros o win' l [[= <-] [Hs [Hb|[_ Hd]]]]; [by destruct Hst |]. split; [exact Hs |].
    right. by split.
Qed.
End runs.
