(* ===== verification/WfMemory.v ===== *)
(** * The table of window states

    The invariant of a replay's table (bounded, no window twice, every entry an
    existing window state), what remembering a window does to it, and the part of
    [execute_window] before the dispatch loop. *)

From S2P Require Import Prelude PyString Json BbContracts BbStorage BbAuthorization BbReplica BbReplicaFacts.
From S2P Require Import BbCoordinator BbReads OrContracts OrCoordinator SimDevices SimGateway AgContracts.
From S2P Require Import AgRecords AgCore AgSpecialists AgCommit BsService BsFacts AgLedger AgGateway.
From S2P Require Import AgFacts AgLedgerFacts EvBroker EvReplay WfState WfWindow WfFacts WfChain.
From S2P Require Import WfRuns.

Record replay_ok (s : WorkflowReplayState) : Prop := {
  rk_limit : (1 ≤ wr_window_states_limit s)%nat;
  rk_bound : (length (wr_window_states s) ≤ wr_window_states_limit s)%nat;
  rk_keys : NoDup (wr_window_states s).*1;
  rk_windows : ∀ key k, od_get key (wr_window_states s) = Some k →
    ws_window_id <$> wr_windows s !! k = Some key;
  rk_history : history_ok (wr_history s);
}.

(** Entries of open windows are kept; nothing else is added. *)
Definition keeps_open (s s' : WorkflowReplayState) : Prop :=
  ∀ key k, od_get key (wr_window_states s) = Some k → settled_at s k = false →
    od_get key (wr_window_states s') = Some k.

(** ** Eviction *)
Lemma terminal_key_settled s key :
  NoDup (wr_window_states s).*1 → terminal_key s = Some key →
  ∃ k, od_get key (wr_window_states s) = Some k ∧ settled_at s k = true.
Proof.
  intros Hnd. unfold terminal_key. destruct (List.find _ _) as [[key' k]|] eqn:Hf; [|done].
  intros [= ->]. apply List.find_some in Hf as [Hin Hs]. exists k. split; [|done].
  apply od_elem_get; [done | by apply list_elem_of_In].
Qed.

Lemma terminal_key_none s :
  terminal_key s = None → ∀ kv, kv ∈ wr_window_states s → settled_at s kv.2 = false.
Proof.
  unfold terminal_key. destruct (List.find _ _) as [kv|] eqn:Hf; [done |]. intros _ kv Hin.
  apply (List.find_none _ _ Hf). by apply list_elem_of_In.
Qed.

Lemma od_get_del_ne {V} key key' (d : list (Z * V)) :
  key ≠ key' → od_get key (od_del key' d) = od_get key d.
Proof.
  intros Hne. induction d as [|[key1 v1] d IH]; cbn; [done |].
  case_decide as H1; [subst; by rewrite decide_False |]. cbn. case_decide; [done | exact IH].
Qed.

Lemma od_get_del_some {V} key key' (v : V) (d : list (Z * V)) :
  NoDup d.*1 → od_get key (od_del key' d) = Some v → od_get key d = Some v.
Proof.
  intros Hnd Hg. destruct (decide (key = key')) as [->|]; [|by rewrite od_get_del_ne in Hg].
  exfalso. induction d as [|[key1 v1] d IH]; cbn in Hg; [done |].
  rewrite fmap_cons in Hnd. apply NoDup_cons in Hnd as [Hni Hnd]. case_decide as H1.
  - subst. apply od_get_Some_elem in Hg. apply Hni. by apply (list_elem_of_fmap_2 fst _ (key1, v)).
  - cbn in Hg. rewrite decide_False in Hg by done. by apply IH.
Qed.

Record evicted (s s' : WorkflowReplayState) : Prop := {
  ev_windows : wr_windows s' = wr_windows s;
  ev_limit : wr_window_states_limit s' = wr_window_states_limit s;
  ev_workflow : wr_workflow_id s' = wr_workflow_id s;
  ev_history : wr_history s' = wr_history s;
  ev_keys : NoDup (wr_window_states s').*1;
  ev_sub : ∀ key k, od_get key (wr_window_states s') = Some k → od_get key (wr_window_states s) = Some k;
  ev_length : (length (wr_window_states s') ≤ length (wr_window_states s))%nat;
  ev_open : keeps_open s s';
}.

Lemma evicted_refl s : NoDup (wr_window_states s).*1 → evicted s s.
Proof. intros Hnd. constructor; try done. by intros key k ? _. Qed.

(** Eviction stops with room, or with a full table of open windows. *)
Lemma evict_windows_spec fuel s out s' :
  (length (wr_window_states s) ≤ fuel)%nat → (1 ≤ wr_window_states_limit s)%nat →
  NoDup (wr_window_states s).*1 → evict_windows fuel s = (out, s') →
  evicted s s' ∧
  match out with
  | Ok _ => (length (wr_window_states s') < wr_window_states_limit s)%nat
  | Raise e => exn_type e = RuntimeError ∧ (wr_window_states_limit s ≤ length (wr_window_states s'))%nat ∧
      ∀ kv, kv ∈ wr_window_states s' → settled_at s kv.2 = false
  end.
Proof.
  revert s. induction fuel as [|fuel IH]; intros s Hfuel Hlim Hnd; cbn [evict_windows];
    destruct (Nat.leb_spec (wr_window_states_limit s) (length (wr_window_states s))) as [Hle|Hlt].
  - lia.
  - intros [= <- <-]. split; [by apply evicted_refl | done].
  - destruct (terminal_key s) as [key|] eqn:Ht.
    + destruct (terminal_key_settled s key Hnd Ht) as (k & Hk & Hset). intros Hrun.
      set (s1 := with_table (od_del key (wr_window_states s)) (wr_windows s) s) in Hrun.
      pose proof (od_del_length _ _ _ Hk) as Hlen.
      assert (Hnd1 : NoDup (wr_window_states s1).*1) by (eapply sublist_NoDup; [exact Hnd | apply fmap_sublist, od_del_sublist]).
      destruct (IH s1) as [[] Hout]; [cbn; lia | done | exact Hnd1 | exact Hrun |].
      split; [|destruct out; [done | exact Hout]]. constructor; try done.
      * intros key' k' Hk'. apply ev_sub0 in Hk'. exact (od_get_del_some key' key k' _ Hnd Hk').
      * cbn in *. lia.
      * intros key' k' Hk' Hns. apply ev_open0; [|exact Hns]. cbn. rewrite od_get_del_ne; [done |].
        intros ->. congruence.
    + intros [= <- <-]. split; [by apply evicted_refl |]. split_and!; [done | done |].
      by apply terminal_key_none.
  - intros [= <- <-]. split; [by apply evicted_refl | done].
Qed.

(** ** Remembering a window *)
Lemma settled_at_windows s s' k :
  wr_windows s' !! k = wr_windows s !! k → settled_at s' k = settled_at s k.
Proof. unfold settled_at. by intros ->. Qed.

Lemma evicted_ok s s' : evicted s s' → replay_ok s → replay_ok s'.
Proof.
  intros [] []. constructor; try congruence; try lia.
  intros key k Hk. rewrite ev_windows0. auto.
Qed.

(** What the loop of windows relies on, and what a refusal means. *)
Definition remembered (w : WorkflowWindowState) (s : WorkflowReplayState) (out : result nat)
    (s' : WorkflowReplayState) : Prop :=
  replay_ok s' ∧ keeps_open s s' ∧ wr_workflow_id s' = wr_workflow_id s ∧
  wr_window_states_limit s' = wr_window_states_limit s ∧
  (∀ key k, key ≠ ws_window_id w → od_get key (wr_window_states s') = Some k →
     od_get key (wr_window_states s) = Some k) ∧
  match out with
  | Ok k => wr_windows s' = wr_windows s ++ [w] ∧ k = length (wr_windows s) ∧
      od_get (ws_window_id w) (wr_window_states s) = None ∧
      od_get (ws_window_id w) (wr_window_states s') = Some k
  | Raise e => wr_windows s' = wr_windows s ∧ exn_type e = RuntimeError ∧
      (is_Some (od_get (ws_window_id w) (wr_window_states s)) ∨
       (length (wr_window_states s') = wr_window_states_limit s ∧
        ∀ kv, kv ∈ wr_window_states s' → settled_at s kv.2 = false))
  end.

Lemma remember_full w s e s1 :
  replay_ok s → evict_windows (length (wr_window_states s)) s = (Raise e, s1) →
  remembered w s (Raise e) s1.
Proof.
  intros Hs Hev. pose proof (rk_keys s Hs) as Hnd. pose proof (rk_bound s Hs) as Hb.
  destruct (evict_windows_spec _ s _ s1 (le_n _) (rk_limit s Hs) Hnd Hev) as (He & Ht & Hle & Hop).
  pose proof (evicted_ok _ _ He Hs) as Hs1. pose proof (rk_bound s1 Hs1) as Hb1. destruct He.
  split; [exact Hs1 |]. split; [exact ev_open0 |]. do 2 (split; [done |]). split; [intros key k _; apply ev_sub0 |].
  split; [done |]. split; [done |]. right. split; [|exact Hop]. rewrite ev_limit0 in Hb1. lia.
Qed.

Lemma remember_room w s s1 :
  replay_ok s → evicted s s1 → (length (wr_window_states s1) < wr_window_states_limit s)%nat →
  od_get (ws_window_id w) (wr_window_states s) = None →
  let k := length (wr_windows s1) in
  remembered w s (Ok k) (recent_window k
    (with_table (od_set (ws_window_id w) k (wr_window_states s1)) (wr_windows s1 ++ [w]) s1)).2.
Proof.
  intros Hs He Hroom Hnew k. pose proof (evicted_ok _ _ He Hs) as Hs1. destruct He, Hs1.
  assert (Hnone : od_get (ws_window_id w) (wr_window_states s1) = None).
  { destruct (od_get _ (wr_window_states s1)) as [k'|] eqn:Hg; [|done]. apply ev_sub0 in Hg. congruence. }
  split; [|split; [|split; [done | split; [done | split]]]].
  - constructor; cbn.
    + done.
    + rewrite od_set_length, Hnone. lia.
    + by apply od_set_nodup.
    + intros key k'. rewrite od_get_set. case_decide as Hd.
      * intros [= <-]. subst key. by rewrite list_lookup_middle.
      * intros Hk. specialize (rk_windows0 key k' Hk). rewrite lookup_app.
        by destruct (wr_windows s1 !! k').
    + destruct rk_history0. constructor; cbn; try done. apply push_bounded_length.
  - intros key k' Hk Hns. cbn. rewrite od_get_set, decide_False; [by apply ev_open0 |]. intros ->. congruence.
  - intros key k' Hne. cbn. rewrite od_get_set, decide_False by done. apply ev_sub0.
  - cbn. rewrite od_get_set, decide_True by done. unfold k. rewrite ev_windows0. by split_and!.
Qed.

Lemma remember_window_spec w s out s' :
  replay_ok s → remember_window_state w s = (out, s') → remembered w s out s'.
Proof.
  intros Hs. unfold remember_window_state, gets, guardM, modify, mbind, M_bind.
  destruct (od_get (ws_window_id w) (wr_window_states s)) as [k0|] eqn:Hdup; cbn [is_some negb check].
  - intros [= <- <-]. split; [done |]. split; [by intros key k ? _ |]. do 3 (split; [done |]).
    split_and!; [done | done |]. left. by rewrite Hdup.
  - destruct (evict_windows _ s) as [[u|e] s1] eqn:Hev; [|intros [= <- <-]; by apply remember_full].
    destruct (evict_windows_spec _ s _ s1 (le_n _) (rk_limit s Hs) (rk_keys s Hs) Hev) as [He Hroom].
    intros [= <- <-]. by apply remember_room.
Qed.

(** ** The whole service *)
Record memory_ok (w : WorkflowService) : Prop := {
  mo_limit : (1 ≤ wf_window_states_limit w)%nat;
  mo_replays : ∀ r s, wf_states w !! r = Some s → replay_ok s;
}.

(** Everything of [s] is still in [s'], settled windows of the table apart. *)
Definition extends (s s' : WorkflowReplayState) : Prop :=
  keeps_open s s' ∧ wr_workflow_id s' = wr_workflow_id s ∧
  ∀ k win, wr_windows s !! k = Some win → wr_windows s' !! k = Some win.

(** A window just opened for the replay [r]. *)
Definition fresh_window (r : string) (win : WorkflowWindowState) : Prop :=
  ∃ wid wf ts, win = new_window_state wid wf r PRIMARY_ENTITY (Some ts).

(** From [w] to [w'] windows were only opened. *)
Record opened (w w' : WorkflowService) : Prop := {
  op_blackboard : wf_blackboard w' = wf_blackboard w;
  op_committers : wf_committers w' = wf_committers w;
  op_memory : memory_ok w';
  op_states : ∀ r s, wf_states w !! r = Some s → ∃ s', wf_states w' !! r = Some s' ∧ extends s s';
  op_windows : ∀ r s' k win, wf_states w' !! r = Some s' → wr_windows s' !! k = Some win →
    (∃ s, wf_states w !! r = Some s ∧ wr_windows s !! k = Some win) ∨ fresh_window r win;
}.

Lemma extends_refl s : extends s s.
Proof. split; [by intros key k ? _ | done]. Qed.

Lemma extends_settled s s' key k :
  replay_ok s → extends s s' → od_get key (wr_window_states s) = Some k → settled_at s' k = settled_at s k.
Proof.
  intros Hs (_ & _ & Hw) Hk. apply (rk_windows s Hs) in Hk. destruct (wr_windows s !! k) as [win|] eqn:Hwin; [|done].
  apply settled_at_windows. rewrite Hwin. by apply Hw.
Qed.

Lemma extends_trans s1 s2 s3 : replay_ok s1 → extends s1 s2 → extends s2 s3 → extends s1 s3.
Proof.
  intros Hs H12 H23. pose proof (λ key k, extends_settled s1 s2 key k Hs H12) as Hset.
  destruct H12 as (Hk & Hi & Hw), H23 as (Hk' & Hi' & Hw'). split_and!; [|congruence | auto].
  intros key k Hg Hns. apply Hk'; [by apply Hk |]. rewrite (Hset key k Hg). exact Hns.
Qed.

Lemma same_replay_ok s s' : same_replay s s' → replay_ok s → replay_ok s'.
Proof.
  intros [] []. constructor; try congruence; auto.
  intros key k Hk. rewrite sr_windows. apply rk_windows0. congruence.
Qed.

Lemma same_extends s s' : same_replay s s' → extends s s'.
Proof.
  intros []. split_and!; [|done | by rewrite sr_windows]. intros key k Hk _. by rewrite sr_table.
Qed.

Lemma untouched_memory w w' : untouched w w' → memory_ok w → memory_ok w'.
Proof.
  intros [] [Hl Hr]. constructor; [by rewrite un_limit |]. intros r s' Hs'.
  destruct (un_states r s' Hs') as (s & Hs & Hsame). eapply same_replay_ok; [done | by eapply Hr].
Qed.

Lemma opened_untouched w w1 w2 : memory_ok w → opened w w1 → untouched w1 w2 → opened w w2.
Proof.
  intros Hm [Hb Hc Hm1 Hs Hw] Hu. pose proof (untouched_memory _ _ Hu Hm1) as Hm2. destruct Hu.
  constructor; [congruence.. | done | |].
  2:{ intros r s2 k win H2 Hk. destruct (un_states r s2 H2) as (s1 & H1 & Hsame).
      rewrite (sr_windows _ _ Hsame) in Hk. by eapply Hw. }
  intros r s Hr. destruct (Hs r s Hr) as (s1 & H1 & He).
  assert (is_Some (wf_states w2 !! r)) as [s2 H2].
  { apply elem_of_dom. rewrite un_dom. by apply elem_of_dom_2 in H1. }
  exists s2. split; [done |]. destruct (un_states _ _ H2) as (s1' & H1' & Hsame).
  assert (s1' = s1) as -> by congruence. apply (extends_trans s s1); [by apply (mo_replays w Hm r) | done |].
  by apply same_extends.
Qed.

Lemma opened_refl w : memory_ok w → opened w w.
Proof.
  intros Hm. constructor; try done.
  - intros r s Hs. exists s. split; [done | apply extends_refl].
  - intros r s k win Hs Hk. left. by exists s.
Qed.

Lemma o_frame {A} w (m : WM A) :
  memory_ok w → frame m → hoare (opened w) m (λ _, opened w) (opened w).
Proof.
  intros Hm Hf w1 out w2 Hw Hrun. specialize (Hf w1). rewrite Hrun in Hf.
  assert (opened w w2) by (by eapply opened_untouched). by destruct out.
Qed.

Lemma new_replay_ok rid limit : (1 ≤ limit)%nat → replay_ok (new_wf_replay rid limit).
Proof.
  intros Hl. constructor; cbn; [done | lia | apply NoDup_nil_2 | done |]. constructor; cbn; unfold WF_RECENT; lia.
Qed.

Lemma o_get_state w rid :
  memory_ok w →
  hoare (opened w) (get_state rid) (λ _ w', opened w w' ∧ is_Some (wf_states w' !! rid)) (opened w).
Proof.
  intros Hm w1 out w2 Hw. unfold get_state, modify. intros [= <- <-].
  destruct (wf_states w1 !! rid) as [s|] eqn:Hs; [split; [done | by exists s] |].
  destruct Hw as [Hb Hc [Hl Hr] Hst Hwn]. split; [|cbn; rewrite lookup_insert_eq; by eexists].
  constructor; [done | done | | |].
  3:{ cbn. intros r s' k win. rewrite lookup_insert_Some. intros [[<- <-]|[_ H1]]; [done | by apply Hwn]. }
  - constructor; [done |]. cbn. intros r s. rewrite lookup_insert_Some.
    intros [[<- <-]|[_ H1]]; [by apply new_replay_ok | by eapply Hr].
  - intros r s Hrs. destruct (Hst r s Hrs) as (s1 & H1 & He). exists s1. split; [|done]. cbn.
    rewrite lookup_insert_ne; [done |]. congruence.
Qed.

(** The new window is on the heap and in the table, at an address of its own. *)
Record opened_at (w w' : WorkflowService) (rid : string) (k : nat) (win : WorkflowWindowState) : Prop := {
  oa_opened : opened w w';
  oa_window : window_at rid k w' = Some win;
  oa_fresh : ∀ s, wf_states w !! rid = Some s → (length (wr_windows s) ≤ k)%nat;
}.

Lemma o_remember w rid win :
  memory_ok w → fresh_window rid win →
  hoare (opened w) (on_replay rid (remember_window_state win))
    (λ k w', opened_at w w' rid k win) (opened w).
Proof.
  intros Hm Hfresh w1 out w2 [Hb Hc [Hl Hr] Hst Hwn] Hrun. unfold on_replay in Hrun.
  destruct (wf_states w1 !! rid) as [s1|] eqn:Hs1.
  2:{ injection Hrun as <- <-. by constructor. }
  destruct (remember_window_state win s1) as [o s2] eqn:Hrem. injection Hrun as <- <-.
  destruct (remember_window_spec win s1 o s2 (Hr _ _ Hs1) Hrem) as (Hok & Hkeep & Hid & _ & _ & Ho).
  assert (He : extends s1 s2).
  { split_and!; [done | done |]. destruct o as [k|e]; [|by destruct Ho as [-> _]].
    destruct Ho as [-> _]. intros k' win' Hk'. by apply lookup_app_l_Some. }
  set (w2 := mk_workflow _ _ _ _ _ _ _ _).
  assert (Hop : opened w w2).
  { constructor; [done | done | | |].
    3:{ cbn. intros r s' k win'. rewrite lookup_insert_Some. intros [[<- <-]|[_ H1]]; [|by apply Hwn].
        intros Hk. destruct o as [k'|e]; [|destruct Ho as [Hw _]; rewrite Hw in Hk; by apply (Hwn rid s1)].
        destruct Ho as [Hw _]. rewrite Hw in Hk. apply lookup_app_Some in Hk as [Hk|[_ Hk]].
        - by apply (Hwn rid s1).
        - apply list_lookup_singleton_Some in Hk as [_ <-]. by right. }
    - constructor; [done |]. cbn. intros r s. rewrite lookup_insert_Some.
      intros [[<- <-]|[_ H1]]; [done | by eapply Hr].
    - intros r s Hrs. destruct (Hst r s Hrs) as (s1' & H1 & He1). cbn.
      destruct (decide (r = rid)) as [->|Hne]; [|exists s1'; by rewrite lookup_insert_ne].
      exists s2. rewrite lookup_insert_eq. split; [done |]. assert (s1' = s1) as -> by congruence.
      apply (extends_trans s s1); [by apply (mo_replays w Hm rid) | done | done]. }
  destruct o as [k|e]; [|done]. destruct Ho as (Hw & -> & Hnew & _). constructor; [done | |].
  - unfold window_at, w2. cbn. rewrite lookup_insert_eq. cbn. rewrite Hw. by apply list_lookup_middle.
  - intros s Hs. destruct (Hst _ _ Hs) as (s1' & H1 & Hk1 & _ & Hw1).
    assert (s1' = s1) as -> by congruence.
    destruct (decide (length (wr_windows s) ≤ length (wr_windows s1))%nat) as [|Hlt]; [done | exfalso].
    destruct (lookup_lt_is_Some_2 (wr_windows s) (length (wr_windows s1))) as [x Hx]; [lia |].
    apply Hw1, lookup_lt_Some in Hx. lia.
Qed.

(** * A whole window

    [execute_window] from a well-formed service: the window is opened, runs under
    the invariant of [WfChain.v] and settles, or the method raises with the
    invariant in place. *)
Section execute.
Context `{PyRuntime} (settings : BlackboardSettings) (ids : list string).
Context (env : WfEnv) (decode : list (string * json) → result EnforcementDecisionV1).
Context (models : Models) (neighbors : string → result (list string)).

Abbreviation bb_ok := (bb_ok settings ids decode).

(** ** Opening *)
Lemma opened_bb w w' : opened w w' → bb_ok w → bb_ok w'.
Proof.
  intros [Hb Hc _ _] (s & Hw & Hok & Hcm). exists s. rewrite Hb, Hc. split_and!; [done | done |].
  unfold the_ledger. rewrite Hb. exact Hcm.
Qed.

Lemma opened_at_untouched w w1 w2 rid k win :
  memory_ok w → opened_at w w1 rid k win → untouched w1 w2 → opened_at w w2 rid k win.
Proof.
  intros Hm [Hop Hwin Hf] Hu. constructor; [by eapply opened_untouched | | done].
  unfold window_at in *. destruct (wf_states w1 !! rid) as [s1|] eqn:H1; [|done].
  destruct Hu. assert (is_Some (wf_states w2 !! rid)) as [s2 H2].
  { apply elem_of_dom. rewrite un_dom. by apply elem_of_dom_2 in H1. }
  rewrite H2. destruct (un_states _ _ H2) as (s1' & H1' & Hsame). cbn in *.
  assert (s1' = s1) as -> by congruence. by rewrite (sr_windows _ _ Hsame).
Qed.

Definition opening (w : WorkflowService) (rid : string) (wid : Z) (r : string * string * nat)
    (w' : WorkflowService) : Prop :=
  opened_at w w' rid r.2 (new_window_state wid r.1.2 rid PRIMARY_ENTITY (Some r.1.1)).

Lemma o_open_window w rid wid ts0 :
  memory_ok w →
  hoare (opened w) (open_window env rid wid ts0) (opening w rid wid) (opened w).
Proof.
  intros Hm. eapply h_bind; [apply o_frame; auto with wf_frame |]. intros u.
  eapply h_bind; [by apply o_get_state |]. intros u2.
  eapply h_pre with (P := opened w); [|by intros w1 [? _]].
  eapply h_bind; [apply o_frame; [done |]; apply frame_replay; intros s; apply same_replay_refl |]. intros wf.
  eapply h_bind.
  { apply o_frame; [done |]. unfold timestamp_or_now. destruct ts0; [case_bool_decide |]; auto with wf_frame. }
  intros ts. eapply h_bind; [apply o_remember; [done | by eexists _, _, _] |]. intros k.
  apply (h_bind _ (λ _ w', opening w rid wid (ts, wf, k) w')); [|intros u3; by apply h_ret].
  intros w1 out w2 Hw Hrun. pose proof (frame_publish rid WORKFLOW_WINDOW_STARTED
    [("workflow_id", JStr wf); ("entity_id", JStr PRIMARY_ENTITY)] (Some wid) (Some PRIMARY_ENTITY)
    (Some ts) w1) as Hf. rewrite Hrun in Hf. cbn in Hf.
  assert (Hat : opening w rid wid (ts, wf, k) w2) by (by eapply opened_at_untouched).
  destruct out; [done | apply Hat].
Qed.

(** A new window starts under the invariant. *)
Lemma core_open w w1 rid wid ts wf k :
  bb_ok w → opened_at w w1 rid k (new_window_state wid wf rid PRIMARY_ENTITY (Some ts)) →
  core settings ids decode rid k w1 (loop_inv settings decode rid wid ts wf ∅ 0 ∅) (w1, no_locals).
Proof.
  intros Hb [Hop Hwin _]. pose proof (opened_bb w w1 Hop Hb) as Hb1. split; [done |]. split.
  { constructor; [|done|done|].
    { destruct Hb1 as (s & Hs & _). exists s, s. split_and!; [done | done | by split]. } intros r s Hs. exists s. split; [done | by constructor]. }
  exists (new_window_state wid wf rid PRIMARY_ENTITY (Some ts)). split; [exact Hwin |].
  split; [|split; [done | by intros ?%not_elem_of_empty]]. constructor; cbn; try done.
  all: try lia. all: try apply NoDup_nil_2.
  - intros a Ha. by apply elem_of_nil in Ha.
  - split; [apply NoDup_nil_2 | done].
Qed.

(** ** Running *)
Context (Hquorum : 1 ≤ quorum_size settings).

Lemma execute_window_run rid wid ts0 net beh trace mode w out w' :
  bb_ok w → memory_ok w →
  execute_window env decode models neighbors rid wid ts0 net beh trace mode w = (out, w') →
  (opened w w' ∧ ∃ e, out = Raise e ∧ (open_window env rid wid ts0 w).1 = Raise e) ∨
  ∃ ts wf k w1 l, opened_at w w1 rid k (new_window_state wid wf rid PRIMARY_ENTITY (Some ts)) ∧
    match out with
    | Raise _ => core settings ids decode rid k w1 (stopped settings decode rid wid ts wf) (w', l)
    | Ok rep => core settings ids decode rid k w1 (λ o win l,
        rep = window_report win (lo_findings l) ∧
        ended settings decode rid wid ts wf settled_well o win l) (w', l)
    end.
Proof.
  intros Hb Hm. unfold execute_window.
  destruct (open_window env rid wid ts0 w) as [[[[ts wf] k]|e] w1] eqn:Hopen;
    pose proof (o_open_window w rid wid ts0 Hm w _ w1 (opened_refl _ Hm) Hopen) as Hop;
    [|intros [= <- <-]; left; split; [done | by exists e]].
  intros Hex. right. exists ts, wf, k, w1. pose proof (core_open w w1 rid wid ts wf k Hb Hop) as Hcore.
  destruct ((workflow_loop env decode models neighbors rid wid ts net beh mode trace wf k MAX_ITERATIONS
    ≫= λ _, settle_window rid wid wf k) (w1, no_locals)) as [o [w2 l]] eqn:Hrun. revert Hex.
  assert (Hpost : hoare (core settings ids decode rid k w1 (loop_inv settings decode rid wid ts wf ∅ (size (∅ : gset AgentId)) ∅))
    (workflow_loop env decode models neighbors rid wid ts net beh mode trace wf k MAX_ITERATIONS
       ≫= λ _, settle_window rid wid wf k)
    (λ _, core settings ids decode rid k w1 (ended settings decode rid wid ts wf settled_well))
    (core settings ids decode rid k w1 (stopped settings decode rid wid ts wf))).
  { eapply h_bind; [by apply c_workflow_loop |]. intros u. by apply c_settle. }
  specialize (Hpost (w1, no_locals) o (w2, l) Hcore Hrun).
  destruct o as [u|e]; [|intros [= <- <-]; by exists l].
  destruct Hpost as (H1 & H2 & win & Hwin & Hend). unfold window_at in Hwin. cbn in Hwin.
  rewrite Hwin. intros [= <- <-]. exists l. split; [done |]. split_and!; [done | done |].
  exists win. by split.
Qed.

(** ** Refusals *)

(** No room for the window: it is there already, or every window of a full table
    is running. *)
Definition no_room (wid : Z) (s : WorkflowReplayState) : Prop :=
  is_Some (od_get wid (wr_window_states s)) ∨
  (length (wr_window_states s) = wr_window_states_limit s ∧
   ∀ kv, kv ∈ wr_window_states s → settled_at s kv.2 = false).

Lemma remember_refuses w s out s' :
  replay_ok s → no_room (ws_window_id w) s → remember_window_state w s = (out, s') →
  ∃ e, out = Raise e ∧ exn_type e = RuntimeError.
Proof.
  intros Hs Hno Hrun. destruct (remember_window_spec w s out s' Hs Hrun) as (Hs' & Hkeep & _ & Hlim & _ & Ho).
  destruct out as [k|e]; [exfalso | exists e; split; [done | apply Ho]].
  destruct Ho as (Hw & Hk & Hnew & Hnew'). destruct Hno as [[k' Hdup]|[Hfull Hopen]]; [congruence |].
  assert (Hsub : (ws_window_id w :: (wr_window_states s).*1) ⊆+ (wr_window_states s').*1).
  { apply NoDup_submseteq.
    - apply NoDup_cons. split; [|apply Hs]. intros ([key k1] & Hkey & Hin)%list_elem_of_fmap.
      apply od_elem_get in Hin; [|apply Hs]. cbn in *. congruence.
    - intros x [->|Hin]%elem_of_cons.
      + apply od_get_Some_elem in Hnew'. by apply (list_elem_of_fmap_2 fst _ (ws_window_id w, k)).
      + apply list_elem_of_fmap in Hin as ([key k1] & -> & Hin). pose proof (Hopen _ Hin) as Hns.
        apply od_elem_get in Hin; [|apply Hs]. apply (Hkeep key k1 Hin), od_get_Some_elem in Hns.
        by apply (list_elem_of_fmap_2 fst _ (key, k1)). }
  apply submseteq_length in Hsub. cbn in Hsub. rewrite !length_fmap in Hsub. pose proof (rk_bound s' Hs').
  lia.
Qed.

Lemma raise_bind {A B} (m : WM A) (f : A → WM B) P w :
  (∃ a w', m w = (Ok a, w') ∧ P w') →
  (∀ a w', P w' → ∃ e, (f a w').1 = Raise e ∧ exn_type e = RuntimeError) →
  ∃ e, ((m ≫= f) w).1 = Raise e ∧ exn_type e = RuntimeError.
Proof. intros (a & w' & Hm & HP) Hf. unfold mbind, M_bind. rewrite Hm. by apply Hf. Qed.

Lemma open_refuses rid wid ts0 s w :
  replay_ok s → no_room wid s → wf_states w !! rid = Some s →
  ∃ e, (open_window env rid wid ts0 w).1 = Raise e ∧ exn_type e = RuntimeError.
Proof.
  intros Hs Hno. set (P := λ w', wf_states w' !! rid = Some s).
  change (wf_states w !! rid = Some s) with (P w). intros Hw. unfold open_window.
  apply (raise_bind _ _ P); [by eexists _, _ |]. clear w Hw. intros u w Hw.
  apply (raise_bind _ _ P).
  { exists tt, w. unfold get_state, modify. unfold P in Hw. by rewrite Hw. }
  clear w Hw. intros u2 w Hw. apply (raise_bind _ _ P).
  { unfold replay_state, on_replay, gets. unfold P in *. rewrite Hw. eexists _, _. split; [done |]. cbn.
    apply lookup_insert_eq. }
  clear w Hw. intros wf w Hw. apply (raise_bind _ _ P).
  { unfold timestamp_or_now. destruct ts0 as [ts|]; [case_bool_decide |]; by eexists _, _. }
  clear w Hw. intros ts w Hw. unfold mbind, M_bind, on_replay. unfold P in Hw. rewrite Hw.
  destruct (remember_window_state _ s) as [out s'] eqn:Hrun.
  apply remember_refuses in Hrun as (e & -> & He); [by exists e | done | done].
Qed.
End execute.
