(* ===== verification/WfInvariant.v ===== *)
(** * The invariant of the workflow service

    A well-formed service over its lifetime: a good Blackboard under durable
    ledgers, bounded tables of windows, and behind every window that was ever
    opened the chain of evidence of [WfChain.v].  Every operation keeps it, and
    takes nothing away that was there before. *)

From S2P Require Import Prelude PyString Json BbContracts BbStorage BbAuthorization BbReplica BbReplicaFacts.
From S2P Require Import BbCoordinator BbCluster BbReads BbConsistency OrContracts OrCoordinator SimDevices.
From S2P Require Import SimGateway AgContracts AgRecords AgCore AgSpecialists AgCommit BsService BsFacts.
From S2P Require Import AgLedger AgGateway AgFacts AgLedgerFacts EvBroker EvReplay WfState WfWindow.
From S2P Require Import WfReads WfFacts WfChain WfRuns WfMemory.

Section invariant.
Context `{PyRuntime} (settings : BlackboardSettings) (ids : list string).
Context (decode : list (string * json) → result EnforcementDecisionV1).

Abbreviation replicas s := (co_replicas (bs_coordinator s)).
Abbreviation bb_ok := (bb_ok settings ids decode).

(** The window is what its replay's agents made of it, in order. *)
Definition window_ok (o : option (list BlackboardReplica)) (r : string) (win : WorkflowWindowState) : Prop :=
  ∃ ts, stopped settings decode r (ws_window_id win) ts (ws_workflow_id win) o win no_locals.

Record workflow_ok (w : WorkflowService) : Prop := {
  wk_blackboard : bb_ok w;
  wk_memory : memory_ok w;
  wk_windows : ∀ r s k win, wf_states w !! r = Some s → wr_windows s !! k = Some win →
    window_ok (board w) r win;
}.

(** Nothing of [w] is lost in [w']: the Blackboard only took steps, every replay
    keeps its windows as they were, and the table its open ones. *)
Record kept (w w' : WorkflowService) : Prop := {
  kp_board : board_steps w w';
  kp_states : ∀ r s, wf_states w !! r = Some s → ∃ s', wf_states w' !! r = Some s' ∧ extends s s';
}.

Lemma kept_refl w : workflow_ok w → kept w w.
Proof.
  intros [(s & Hs & _) _ _]. constructor; [by exists s, s; split_and! |].
  intros r st Hst. exists st. split; [done | apply extends_refl].
Qed.

Lemma kept_trans w1 w2 w3 : workflow_ok w1 → kept w1 w2 → kept w2 w3 → kept w1 w3.
Proof.
  intros Hok [Hb12 Hs12] [(s2 & s3 & H2 & H3 & Hst) Hs23]. constructor.
  - by apply (board_steps_trans w1 w2 s2 s3 w3).
  - intros r s Hs. destruct (Hs12 r s Hs) as (s' & Hs' & He). destruct (Hs23 r s' Hs') as (s'' & Hs'' & He').
    exists s''. split; [done |]. apply (extends_trans s s'); [|done | done].
    by apply (mo_replays w1 (wk_memory w1 Hok) r).
Qed.

Lemma kept_le w w' : bb_ok w → kept w w' → board_le settings (board w) (board w').
Proof.
  intros (s & Hs & Hok & _) [(s0 & s' & H0 & H' & Hst) _]. assert (s0 = s) as -> by congruence.
  unfold board. rewrite H0, H'. by apply (steps_board settings ids).
Qed.

Lemma window_ok_le o o' r win : board_le settings o o' → window_ok o r win → window_ok o' r win.
Proof. intros Hle [ts Hs]. exists ts. by eapply stopped_le. Qed.

Lemma fresh_window_ok o r win : fresh_window r win → window_ok o r win.
Proof.
  intros (wid & wf & ts & ->). exists ts. split; [done |]. split; [done |].
  split; [split; [apply NoDup_nil_2 | done] | cbn; lia].
Qed.

(** A step that only adds or rewrites windows that are fine. *)
Lemma workflow_ok_step w w' :
  workflow_ok w → bb_ok w' → memory_ok w' → kept w w' →
  (∀ r s' k win, wf_states w' !! r = Some s' → wr_windows s' !! k = Some win →
     (∃ s, wf_states w !! r = Some s ∧ wr_windows s !! k = Some win) ∨ window_ok (board w') r win) →
  workflow_ok w'.
Proof.
  intros [Hb Hm Hw] Hb' Hm' Hk Hall. constructor; [done | done |]. intros r s' k win Hs' Hwin.
  destruct (Hall r s' k win Hs' Hwin) as [(s & Hs & Hk')|]; [|done].
  apply (window_ok_le (board w)); [by apply kept_le | by eapply Hw].
Qed.

Lemma opened_ok w w' : workflow_ok w → opened w w' → workflow_ok w' ∧ kept w w'.
Proof.
  intros Hok Hop. pose proof (opened_bb settings ids decode w w' Hop (wk_blackboard w Hok)) as Hb'.
  assert (Hk : kept w w').
  { destruct Hop. constructor; [|done]. destruct Hb' as (s & Hs & _). exists s, s.
    split_and!; [congruence | done | by split]. }
  split; [|done]. apply (workflow_ok_step w); [done | done | by destruct Hop | done |].
  intros r s' k win Hs' Hwin. destruct Hop. destruct (op_windows r s' k win Hs' Hwin); [by left | right].
  by apply fresh_window_ok.
Qed.

(** ** A window *)
Section window.
Context (rid : string) (wid : Z) (ts wf : string) (k : nat).

(** Whatever the window became, it is what [stopped] says. *)
Lemma core_ok w w1 w' l :
  workflow_ok w → opened_at w w1 rid k (new_window_state wid wf rid PRIMARY_ENTITY (Some ts)) →
  core settings ids decode rid k w1 (stopped settings decode rid wid ts wf) (w', l) →
  workflow_ok w' ∧ kept w w'.
Proof.
  intros Hok [Hop Hwin1 Hfresh] (Hb' & [Hbd Hlim Hdom Hot] & win & Hwin & Hst). cbn in Hb', Hbd, Hlim, Hdom, Hot, Hwin, Hst.
  destruct (opened_ok w w1 Hok Hop) as [Hok1 Hk1]. pose proof Hst as ((Hid & Hwf & Hts) & _).
  assert (Hwindow : ∀ r s' k' win', wf_states w' !! r = Some s' → wr_windows s' !! k' = Some win' →
    ((r, k') = (rid, k) ∧ win' = win) ∨ (r, k') ≠ (rid, k) ∧ ∃ s, wf_states w1 !! r = Some s ∧ other_replay rid k r s s' ∧
      wr_windows s !! k' = Some win').
  { intros r s' k' win' Hs' Hk'. destruct (decide ((r, k') = (rid, k))) as [[= -> ->]|Hne].
    - left. split; [done |]. unfold window_at in Hwin. rewrite Hs' in Hwin. cbn in Hwin. congruence.
    - right. split; [done |]. destruct (Hot r s' Hs') as (s & Hs & Ho). exists s. split_and!; [done | done |].
      by rewrite <-(or_windows _ _ _ _ _ Ho). }
  assert (Hm' : memory_ok w').
  { constructor; [rewrite Hlim; apply Hok1 |]. intros r s' Hs'. destruct (Hot r s' Hs') as (s & Hs & Ho).
    destruct (mo_replays _ (wk_memory _ Hok1) r s Hs), Ho. constructor; try congruence; [|by apply or_history].
    intros key k' Hk'. rewrite or_table in Hk'. pose proof (rk_windows _ _ Hk') as Hw.
    destruct (decide ((r, k') = (rid, k))) as [[= -> ->]|Hne]; [|by rewrite or_windows].
    unfold window_at in Hwin, Hwin1. rewrite Hs' in Hwin. rewrite Hs in Hwin1. cbn in Hwin, Hwin1.
    rewrite Hwin1 in Hw. injection Hw as <-. rewrite Hwin. cbn. by rewrite Hid. }
  assert (Hk : kept w w').
  { constructor.
    - destruct Hbd as (s1 & s' & H1 & H' & Hst'). by apply (board_steps_trans w w1 s1 s' w'); [..| apply Hk1].
    - intros r s Hs. destruct (kp_states _ _ Hk1 r s Hs) as (s1 & Hs1 & He).
      assert (is_Some (wf_states w' !! r)) as [s' Hs'].
      { apply elem_of_dom. rewrite Hdom. by apply elem_of_dom_2 in Hs1. }
      exists s'. split; [done |]. destruct (Hot r s' Hs') as (s1' & Hs1' & Ho).
      assert (s1' = s1) as -> by congruence. destruct He as (Hkeep & Hwid & Hwins), Ho.
      split_and!; [|congruence |].
      + intros key k' Hk' Hns. rewrite or_table. by apply Hkeep.
      + intros k' win' Hk'. rewrite or_windows; [by apply Hwins |]. intros [= -> ->].
        apply Hfresh in Hs. apply lookup_lt_Some in Hk'. lia. }
  split; [|done]. apply (workflow_ok_step w); [done | exact Hb' | done | done |].
  intros r s' k' win' Hs' Hk'. destruct (Hwindow r s' k' win' Hs' Hk') as [[[= -> ->] ->]|(_ & s1 & Hs1 & _ & Hw1)].
  - right. exists ts. rewrite Hid, Hwf. exact Hst.
  - destruct (op_windows _ _ Hop r s1 k' win' Hs1 Hw1) as [|Hf]; [by left | right; by apply fresh_window_ok].
Qed.
End window.
End invariant.

(** * What every call of the service keeps

    The invariant of [WfInvariant.v] through the parts of the calls that
    [WfReads.v] models and through [execute_window], and what a feedback that was
    accepted rests on. *)
Section reads.
Context `{PyRuntime} (settings : BlackboardSettings) (ids : list string).
Context (Hquorum : 1 ≤ quorum_size settings).
Context (env : WfEnv) (decode : list (string * json) → result EnforcementDecisionV1).
Context (w0 : WorkflowService).

Abbreviation replicas s := (co_replicas (bs_coordinator s)).
Abbreviation workflow_ok := (workflow_ok settings ids decode).

(** A service that was [w0] and has kept all of it. *)
Definition good (w : WorkflowService) : Prop := workflow_ok w ∧ kept w0 w.

Lemma good_next w w' : workflow_ok w0 → good w → workflow_ok w' ∧ kept w w' → good w'.
Proof. intros H0 [Hw Hk] [Hw' Hk']. split; [done | by eapply kept_trans]. Qed.

Context (Hok0 : workflow_ok w0).

Lemma good_start : good w0.
Proof. split; [done | by eapply kept_refl]. Qed.

Lemma g_opened {A} (m : WM A) :
  (∀ w out w', memory_ok w → m w = (out, w') → opened w w') → hoare good m (λ _, good) good.
Proof.
  intros Hm w out w' Hg Hrun. pose proof Hg as [Hw _].
  assert (Hop : opened w w') by (eapply Hm; [exact (wk_memory _ _ _ _ Hw) | exact Hrun]).
  pose proof (good_next w w' Hok0 Hg (opened_ok settings ids decode w w' Hw Hop)). by destruct out.
Qed.

Lemma g_frame {A} (m : WM A) : frame m → hoare good m (λ _, good) good.
Proof.
  intros Hf. apply g_opened. intros w out w' Hm Hrun. specialize (Hf w). rewrite Hrun in Hf.
  eapply opened_untouched; [done | by apply opened_refl | done].
Qed.

Lemma g_get_state rid : hoare good (get_state rid) (λ _, good) good.
Proof.
  apply g_opened. intros w out w' Hm Hrun.
  pose proof (o_get_state w rid Hm w out w' (opened_refl w Hm) Hrun) as Ho. by destruct out; [destruct Ho |].
Qed.

Lemma g_committer rid : hoare good (get_committer rid) (λ _, good) good.
Proof.
  eapply h_bind; [apply h_gets |]. intros [m|]; [apply h_ret; by intros w [_ ?] |].
  eapply h_bind; [eapply h_pre; [apply g_get_state |]; by intros w [_ ?] |]. intros u.
  apply h_modify. intros w [[(s & Hw & Hs & Hcm) Hm Hwn] [Hb Hst]]. split; [|by constructor].
  constructor; [|by destruct Hm; constructor | done]. exists s. split_and!; [done | done |].
  intros r m. unfold the_ledger. cbn. rewrite lookup_insert_Some. intros [[<- <-]|[_ Hr]].
  - constructor; [done | done | by apply Forall_nil].
  - by apply (Hcm r m).
Qed.

(** A call of the Blackboard service. *)
Lemma g_service {A} (f : BSM A) Q :
  svc settings ids (λ _, True) f Q →
  hoare good (on_service f)
    (λ a w, (∃ s, wf_blackboard w = Some s ∧ Q a (replicas s)) ∧ good w) good.
Proof.
  intros Hf w out w' Hg Hrun. pose proof Hg as [[(s & Hw & Hs & Hcm) Hm Hwn] _].
  unfold on_service in Hrun. rewrite Hw in Hrun. destruct (f s) as [o s'] eqn:Hfs.
  destruct (Hf _ _ _ Hs I Hfs) as (Hst & Hs' & He & Ho). injection Hrun as <- <-.
  assert (Hsteps : service_steps s s') by done. set (w' := mk_workflow _ _ _ _ _ _ _ _).
  assert (Hk : kept w w').
  { constructor; [by exists s, s' |]. intros r st Hr. exists st. split; [done | apply extends_refl]. }
  assert (Hb' : bb_ok settings ids decode w').
  { exists s'. split_and!; [done | done |]. intros r m Hr. specialize (Hcm r m Hr).
    unfold the_ledger in *. rewrite Hw in Hcm. by apply (durable_steps settings ids decode s s'). }
  assert (Hg' : good w').
  { eapply good_next; [done | exact Hg |]. split; [|done].
    apply (workflow_ok_step settings ids decode w); [apply Hg | done | by destruct Hm; constructor | done |].
    intros r st k win Hr Hwin. left. by exists st. }
  destruct o; [split; [by exists s' | done] | done].
Qed.

Lemma g_or_none {A} (m : WM (option A)) (Q : A → WorkflowService → Prop) :
  hoare good m (λ o w, (∀ a, o = Some a → Q a w) ∧ good w) good →
  hoare good (or_none m) (λ o w, (∀ a, o = Some a → Q a w) ∧ good w) good.
Proof.
  intros Hm w out w' Hg. unfold or_none. destruct (m w) as [[o|e] w1] eqn:Hrun;
    specialize (Hm w _ w1 Hg Hrun); intros [= <- <-]; [done | by split].
Qed.

(** ** Actions *)

(** A quorum holds a record that decodes to this decision and has its identifier. *)
Definition action_held (decision_id : string) (d : EnforcementDecisionV1) (w : WorkflowService) : Prop :=
  ∃ s record, wf_blackboard w = Some s ∧ record_valid record ∧ decode (r_payload record) = Ok d ∧
    od_get "decision_id" (r_payload record) = Some (JStr decision_id) ∧
    committed_on (replicas s) (quorum_size settings) (r_record_key record) (r_record_version record)
      (r_record_id record).

Lemma action_held_kept did d w w' : workflow_ok w → kept w w' → action_held did d w → action_held did d w'.
Proof.
  intros [(s0 & Hs0 & Hok & _) _ _] [(s1 & s' & H1 & H' & [Hst _]) _] (s & record & Hs & ? & ? & ? & Hc).
  exists s', record. split_and!; try done. assert (s1 = s) as -> by congruence. assert (s0 = s) as -> by congruence.
  destruct Hok as [(_ & _ & _ & Hwf) _]. destruct (cluster_steps_le _ _ Hst Hwf) as [_ Hle].
  by eapply committed_on_mono.
Qed.

Lemma g_read_action did key :
  hoare good (read_action env decode did key) (λ o w, (∀ d, o = Some d → action_held did d w) ∧ good w) good.
Proof.
  eapply h_bind; [apply g_frame, frame_outside |]. intros renv.
  eapply h_bind; [apply g_service, (svc_read settings ids renv key None) |]. intros res.
  destruct (rd_record res) as [record|] eqn:Hrec; [|apply h_ret; intros w [_ Hg]; by split].
  case_bool_decide as Hid; [|apply h_ret; intros w [_ Hg]; by split].
  eapply h_bind; [apply h_lift; by intros w [_ Hg] |]. intros d. apply h_ret.
  intros w (Hd & (s & Hs & Ha) & Hg). split; [|done]. intros d' [= <-].
  destruct (Ha record Hrec) as (Hv & Hk & _ & Hc). exists s, record. rewrite Hk. by split_and!.
Qed.

Lemma g_search_actions did items :
  hoare good (search_actions env decode did items) (λ o w, (∀ d, o = Some d → action_held did d w) ∧ good w) good.
Proof.
  induction items as [|item items IH]; cbn [search_actions]; [apply h_ret; intros w Hg; by split |].
  eapply h_bind; [apply g_or_none, g_read_action |]. intros [d|]; [by apply h_ret |].
  eapply h_pre; [exact IH |]. by intros w [_ Hg].
Qed.

Lemma g_search_blackboard rid did :
  hoare good (search_blackboard env decode rid did) (λ o w, (∀ d, o = Some d → action_held did d w) ∧ good w) good.
Proof.
  apply g_or_none. eapply h_bind; [apply g_committer |]. intros u.
  eapply h_bind; [apply h_gets |]. intros [s|].
  - eapply h_pre; [apply g_search_actions |]. by intros w [_ Hg].
  - apply h_ret. by intros w [_ Hg].
Qed.

(** *** The recent actions *)
Section quiet.
Context (rid : string).

Definition recent_actions (w : WorkflowService) : list EnforcementDecisionV1 :=
  match wf_states w !! rid with Some s => rc_actions (wr_history s) | None => [] end.

Definition recent_with (did : string) (w : WorkflowService) : option EnforcementDecisionV1 :=
  List.find (λ e, bool_decide (enf_decision_id e = did)) (recent_actions w).

(** The computation records no action. *)
Definition quiet {A} (m : WM A) : Prop := ∀ w, recent_actions (m w).2 = recent_actions w.

Lemma quiet_bind {A B} (m : WM A) (f : A → WM B) : quiet m → (∀ a, quiet (f a)) → quiet (m ≫= f).
Proof.
  intros Hm Hf w. unfold mbind, M_bind. specialize (Hm w). destruct (m w) as [[a|e] w1]; [|done].
  cbn in *. by rewrite (Hf a w1).
Qed.

Lemma quiet_states {A} (m : WM A) : (∀ w, wf_states (m w).2 = wf_states w) → quiet m.
Proof. intros Hm w. unfold recent_actions. by rewrite Hm. Qed.

Lemma quiet_pure {A} (m : WM A) : (∀ w, (m w).2 = w) → quiet m.
Proof. intros Hm. apply quiet_states. intros w. by rewrite Hm. Qed.

Lemma quiet_service {A} (f : BSM A) : quiet (on_service f).
Proof. apply quiet_states. intros w. unfold on_service. destruct (wf_blackboard w); [by destruct (f _) | done]. Qed.

Lemma quiet_replay {A} r (f : RS A) :
  (∀ s, rc_actions (wr_history (f s).2) = rc_actions (wr_history s)) → quiet (on_replay r f).
Proof.
  intros Hf w. unfold on_replay, recent_actions. destruct (wf_states w !! r) as [s|] eqn:Hs; [|done].
  specialize (Hf s). destruct (f s) as [o s']. cbn in *.
  destruct (decide (rid = r)) as [->|Hne]; [by rewrite lookup_insert_eq, Hs | by rewrite lookup_insert_ne].
Qed.

Lemma quiet_get_state r : quiet (get_state r).
Proof.
  intros w. unfold get_state, modify, recent_actions. cbn. destruct (wf_states w !! r) as [s|] eqn:Hs; [done |].
  cbn. destruct (decide (rid = r)) as [->|Hne]; [by rewrite lookup_insert_eq, Hs | by rewrite lookup_insert_ne].
Qed.

Lemma quiet_or_none {A} (m : WM (option A)) : quiet m → quiet (or_none m).
Proof. intros Hm w. specialize (Hm w). unfold or_none. by destruct (m w) as [[o|e] w1]. Qed.

Lemma quiet_committer r : quiet (get_committer r).
Proof.
  apply quiet_bind; [by apply quiet_pure |]. intros [m|]; [by apply quiet_pure |].
  apply quiet_bind; [apply quiet_get_state |]. intros u. by apply quiet_states.
Qed.

Lemma quiet_publish r et payload wid entity ts : quiet (wf_publish r et payload wid entity ts).
Proof.
  apply quiet_bind; [by apply quiet_pure |]. intros [|]; [|by apply quiet_pure].
  apply quiet_bind; [|intros u; by apply quiet_pure]. apply quiet_states. intros w. unfold on_controller.
  destruct (wf_controller w); [by destruct (publish _ _ _ _) | done].
Qed.

Lemma quiet_search r did : quiet (search_blackboard env decode r did).
Proof.
  apply quiet_or_none, quiet_bind; [apply quiet_committer |]. intros u.
  apply quiet_bind; [by apply quiet_pure |]. intros [s|]; [|by apply quiet_pure].
  induction (pg_items _) as [|item items IH]; cbn [search_actions]; [by apply quiet_pure |].
  apply quiet_bind; [|intros [d|]; [by apply quiet_pure | exact IH]]. apply quiet_or_none.
  apply quiet_bind; [by apply quiet_states |]. intros renv. apply quiet_bind; [apply quiet_service |]. intros res.
  destruct (rd_record res); [|by apply quiet_pure]. case_bool_decide; [|by apply quiet_pure].
  apply quiet_bind; intros; by apply quiet_pure.
Qed.
End quiet.
End reads.
