(* ===== verification/WfLife.v ===== *)
(** * The life of the workflow service

    The calls of the service as steps, what a feedback that was accepted rests
    on, and the invariant of [WfInvariant.v] for every service that can be
    reached. *)

From S2P Require Import Prelude PyString Json BbContracts BbStorage BbAuthorization BbReplica BbReplicaFacts.
From S2P Require Import BbCoordinator BbCluster BbReads BbConsistency OrContracts OrCoordinator SimDevices.
From S2P Require Import SimGateway AgContracts AgRecords AgCore AgSpecialists AgCommit BsService BsFacts.
From S2P Require Import AgLedger AgGateway AgFacts AgLedgerFacts EvBroker EvReplay WfState WfWindow.
From S2P Require Import WfReads WfFacts WfChain WfRuns WfMemory WfInvariant.

Section life.
Context `{PyRuntime} (settings : BlackboardSettings) (ids : list string).
Context (Hquorum : 1 ≤ quorum_size settings).
Context (decode : list (string * json) → result EnforcementDecisionV1).

Abbreviation workflow_ok := (workflow_ok settings ids decode).
Abbreviation kept := kept.

(** ** Feedback *)
Section feedback.
Context (env : WfEnv) (w0 : WorkflowService) (Hok0 : workflow_ok w0) (a : FeedbackArgs).

Abbreviation rid := (fa_replay_id a).
Abbreviation did := (fa_related_action_id a).
Abbreviation good := (good settings ids decode w0).
Abbreviation held_action := (action_held settings decode).

(** Good, with these recent actions. *)
Definition with_actions (acts : list EnforcementDecisionV1) (w : WorkflowService) : Prop :=
  good w ∧ recent_actions rid w = acts.

Lemma a_quiet {A} acts (m : WM A) (Q : A → WorkflowService → Prop) :
  quiet rid m → hoare good m (λ x w, Q x w ∧ good w) good →
  hoare (with_actions acts) m (λ x w, Q x w ∧ with_actions acts w) good.
Proof.
  intros Hq Hm w out w' [Hg Ha] Hrun. specialize (Hm w out w' Hg Hrun). specialize (Hq w).
  rewrite Hrun in Hq. cbn in Hq. destruct out; [|done]. destruct Hm. split; [done |].
  split; [done | congruence].
Qed.

Lemma a_keeps {A} acts (m : WM A) :
  quiet rid m → hoare good m (λ _, good) good →
  hoare (with_actions acts) m (λ _, with_actions acts) good.
Proof.
  intros Hq Hm. eapply h_post; [apply (a_quiet acts m (λ _ _, True) Hq) |].
  - eapply h_post; [exact Hm |]. by split.
  - by intros x w [_ ?].
Qed.

Lemma a_good acts (w : WorkflowService) : with_actions acts w → good w.
Proof. by intros []. Qed.

(** The action a lookup may answer with. *)
Definition answers (acts : list EnforcementDecisionV1) (o : option EnforcementDecisionV1)
    (w : WorkflowService) : Prop :=
  match List.find (λ e, bool_decide (enf_decision_id e = did)) acts with
  | Some e => o = Some e
  | None => ∀ d, o = Some d → held_action did d w
  end.

Lemma a_get_action acts :
  hoare (with_actions acts) (get_action env decode rid did) (λ o w, answers acts o w ∧ with_actions acts w)
    good.
Proof.
  eapply h_bind; [apply a_keeps; [apply quiet_get_state | by apply g_get_state] |]. intros u.
  apply (h_bind _ (λ l w, l = acts ∧ with_actions acts w)).
  { intros w out w' Hw Hrun. pose proof Hw as [Hg Ha]. unfold replay_state, on_replay, gets in Hrun.
    unfold recent_actions in Ha. destruct (wf_states w !! rid) as [s|] eqn:Hs; injection Hrun as <- <-.
    - split; [done |].
      assert (<[rid:=s]> (wf_states w) = wf_states w) as -> by (by apply insert_id). by destruct w.
    - done. }
  intros l. apply h_pure. intros ->. unfold answers. destruct (List.find _ acts) as [e|]; [by apply h_ret |].
  apply a_quiet; [by apply quiet_search |]. by apply (g_search_blackboard settings ids).
Qed.

(** The action a feedback refers to: a recent one it is bound to, or one a quorum
    of the Blackboard holds. *)
Definition refers (acts : list EnforcementDecisionV1) (w : WorkflowService) : Prop :=
  match List.find (λ e, bool_decide (enf_decision_id e = did)) acts with
  | Some e => feedback_bound a e = true
  | None => ∃ d, held_action did d w
  end.

Lemma a_get_action_keeps acts :
  hoare (with_actions acts) (get_action env decode rid did) (λ _, with_actions acts) good.
Proof. eapply h_post; [apply a_get_action |]. by intros o w [_ ?]. Qed.
End feedback.

Section submit.
Context (env : WfEnv) (w0 : WorkflowService) (Hok0 : workflow_ok w0) (a : FeedbackArgs).

Abbreviation rid := (fa_replay_id a).
Abbreviation did := (fa_related_action_id a).
Abbreviation good := (good settings ids decode w0).
Abbreviation held_action := (action_held settings decode).
Abbreviation acting := (with_actions w0 a).
Abbreviation known acts := (List.find (λ e, bool_decide (enf_decision_id e = did)) acts).

(** A later lookup takes back no held action. *)
Lemma a_later acts d :
  hoare (λ w, held_action did d w ∧ acting acts w) (get_action env decode rid did)
    (λ _ w, held_action did d w ∧ acting acts w) good.
Proof.
  intros w out w' [Hd Hw] Hrun. pose proof (a_get_action_keeps env w0 Hok0 a acts w out w' Hw Hrun) as Hpost.
  destruct Hw as [[Hw _] Ha].
  pose proof (a_get_action_keeps env w Hw a acts w out w' (conj (good_start _ _ _ w Hw) Ha) Hrun) as Hkept.
  destruct out; [|done]. destruct Hkept as [[_ Hk] _]. split; [|done]. by eapply action_held_kept.
Qed.

Lemma a_related acts :
  hoare (acting acts) (check_related_action env decode a) (λ _ w, refers a acts w ∧ acting acts w) good.
Proof.
  unfold check_related_action. eapply h_bind; [by apply a_get_action |]. intros first.
  eapply h_bind; [apply h_guard; by intros w [_ [Hw _]] |]. intros u. apply h_pure. intros Hk.
  destruct first as [d|]; [|done]. unfold answers, refers. destruct (known acts) as [e|] eqn:Hf.
  - eapply h_pre with (P := acting acts); [|by intros w [_ ?]].
    eapply h_bind; [by apply a_get_action |]. intros second. unfold answers. rewrite Hf.
    apply h_pure. intros ->. eapply h_post; [apply h_guard; by intros w [Hw _] |]. done.
  - eapply h_bind; [eapply h_pre; [apply (a_later acts d) |]; intros w [Hd Hw]; split; [by apply Hd | done] |].
    intros second. eapply h_post; [apply h_guard; by intros w [_ [Hw _]] |].
    intros u2 w (_ & Hd & Hw). split; [by exists d | done].
Qed.

(** What later steps cannot take back. *)
Definition stable (R : WorkflowService → Prop) : Prop :=
  ∀ w w', workflow_ok w → kept w w' → R w → R w'.

Lemma refers_stable acts : stable (refers a acts).
Proof.
  intros w w' Hw Hk. unfold refers. destruct (known acts); [done |]. intros [d Hd]. exists d.
  by eapply action_held_kept.
Qed.

Lemma held_stable key payload : stable (λ w, held settings (board w) key payload).
Proof.
  intros w w' Hw Hk. apply held_le. apply (kept_le settings ids decode); [apply Hw | done].
Qed.

Lemma carry {A} (m : WM A) Q R :
  stable R → (∀ w1, workflow_ok w1 → hoare (WfInvariant.good settings ids decode w1) m (λ x w, Q x w ∧ (WfInvariant.good settings ids decode) w1 w) (WfInvariant.good settings ids decode w1)) →
  hoare (λ w, R w ∧ good w) m (λ x w, Q x w ∧ R w ∧ good w) good.
Proof.
  intros HR Hm w out w' [Hr Hg] Hrun. pose proof (Hm w0 Hok0 w out w' Hg Hrun) as H1. destruct Hg as [Hw _].
  pose proof (Hm w Hw w out w' (good_start _ _ _ w Hw) Hrun) as H2.
  destruct out; [|done]. destruct H1, H2 as [_ [_ Hk]]. split_and!; [done | | done]. by eapply HR.
Qed.

Lemma carry_keeps {A} (m : WM A) R :
  stable R → (∀ w1, workflow_ok w1 → hoare (WfInvariant.good settings ids decode w1) m (λ _, (WfInvariant.good settings ids decode) w1) (WfInvariant.good settings ids decode w1)) →
  hoare (λ w, R w ∧ good w) m (λ _ w, R w ∧ good w) good.
Proof.
  intros HR Hm. eapply h_post; [apply (carry m (λ _ _, True) R HR) |].
  - intros w1 H1. eapply h_post; [by apply Hm |]. by split.
  - by intros x w [_ ?].
Qed.

(** A quorum of an enabled Blackboard holds the feedback. *)
Definition recorded_feedback (fb : ConfirmedFeedbackV1) (w : WorkflowService) : Prop :=
  held settings (board w)
    (workflow_key CONFIRMED_FEEDBACK_RECORD rid (fbk_window_id fb) (fbk_entity_id fb) (feedback_fields fb))
    (feedback_fields fb).

Lemma g_write_feedback fb w1 :
  workflow_ok w1 →
  hoare (WfInvariant.good settings ids decode w1) (write_feedback env a fb)
    (λ _ w, recorded_feedback fb w ∧ WfInvariant.good settings ids decode w1 w)
    (WfInvariant.good settings ids decode w1).
Proof.
  intros H1. clear Hok0.
  set (good1 := WfInvariant.good settings ids decode w1).
  unfold write_feedback. eapply h_bind; [apply h_gets |]. intros b w out w' [Hb Hg] Hrun.
  destruct b.
  - assert (Hp : hoare good1 (senv ← outside (we_write env);
        r ← on_service (record_confirmed_feedback senv rid fb (fa_principal a));
        guardM (committed_result r) RuntimeError ("feedback blackboard failed: " +:+ outcome_text r))
      (λ _ w, recorded_feedback fb w ∧ good1 w) good1); [|by apply (Hp w)].
    eapply h_bind; [apply g_frame; [done | apply frame_outside] |]. intros senv.
    eapply h_bind; [apply g_service; [done |]; apply (svc_feedback settings ids Hquorum) |]. intros r.
    eapply h_post; [apply h_guard; by intros w2 [_ ?] |].
    intros u w2 (Hr & (s & Hs & Hp) & Hg1). split; [|done]. unfold recorded_feedback, held, board. rewrite Hs.
    destruct (bs_enabled s); [|done]. unfold committed_result in Hr. destruct r as [res|]; [|done].
    apply bool_decide_eq_true in Hr. destruct (Hp res eq_refl Hr) as (record & ? & ? & ? & _ & _ & _ & ?).
    by exists record.
  - injection Hrun as <- <-. split; [|done]. unfold recorded_feedback, held, board, blackboard_on in *.
    destruct (wf_blackboard w); [|done]. by rewrite <-Hb.
Qed.

Lemma a_submit_feedback acts :
  hoare (acting acts) (submit_feedback env decode a)
    (λ fb w, (∃ id at_, fb = feedback_of id at_ a) ∧ feedback_validate fb = Ok tt ∧ refers a acts w ∧
       recorded_feedback fb w ∧ good w) good.
Proof.
  unfold submit_feedback.
  do 2 (eapply h_bind; [apply a_keeps; [by apply quiet_states | by apply g_frame, frame_outside] | intros ?]).
  eapply h_bind; [apply h_lift; by intros w [] |]. intros []. apply h_pure. intros Hv.
  eapply h_bind; [apply a_keeps; [apply quiet_get_state | by apply g_get_state] |]. intros u1.
  eapply h_bind.
  { apply a_keeps; [|by apply g_frame, frame_output_gateway]. apply quiet_replay. intros s.
    unfold on_output_gateway. by destruct (submit_output _ _ _ _ _ _). }
  intros ok. eapply h_bind; [apply h_guard; by intros w [] |]. intros u2. apply h_pure. intros _.
  eapply h_bind; [apply a_related |]. intros u3.
  set (fb := feedback_of _ _ a) in *.
  eapply h_bind; [eapply h_pre; [apply (carry _ (λ _, recorded_feedback fb) (refers a acts)) |] |].
  - apply refers_stable.
  - intros w1 H1. by apply g_write_feedback.
  - by intros w [? []].
  - intros u4. cbv beta. set (R := λ w, recorded_feedback fb w ∧ refers a acts w).
    assert (HR : stable R).
    { intros w w' Hw Hk [? ?]. split; [by eapply held_stable | by eapply refers_stable]. }
    eapply h_pre with (P := λ w, R w ∧ good w); [|by intros w (? & ? & ?)].
    eapply h_bind; [apply carry_keeps; [done |]; intros w1 H1; apply g_frame; auto with wf_frame |]. intros u5.
    eapply h_bind; [eapply h_weaken; [apply (carry_keeps _ R HR) | done | done |] |].
    + intros w1 H1. apply g_frame; [done | apply frame_publish].
    + done.
    + intros u6. apply h_ret. intros w ([? ?] & ?). split_and!; try done. by eexists _, _.
Qed.
End submit.

(** ** The calls *)

(** A call of the service, whatever its arguments and its surroundings and
    whether it returns or raises, or a step of the rest of the program: the other
    clients of the Blackboard, and the state of the other components. *)
Inductive service_call (w : WorkflowService) : WorkflowService → Prop :=
  | call_window env models neighbors rid wid ts net beh trace mode :
      service_call w (execute_window env decode models neighbors rid wid ts net beh trace mode w).2
  | call_feedback env a : service_call w (submit_feedback env decode a w).2
  | call_action env rid did : service_call w (get_action env decode rid did w).2
  | call_actions rid entity action limit offset :
      service_call w (list_actions rid entity action limit offset w).2
  | call_snapshot rid : service_call w (wf_snapshot rid w).2
  | call_rest s s' orchestration controller findings ticks :
      wf_blackboard w = Some s → service_ok settings ids s' → service_steps s s' →
      service_call w (mk_workflow (Some s') orchestration controller findings
        (wf_window_states_limit w) (wf_states w) (wf_committers w) ticks).

Lemma window_keeps env models neighbors rid wid ts net beh trace mode w :
  workflow_ok w →
  let w' := (execute_window env decode models neighbors rid wid ts net beh trace mode w).2 in
  workflow_ok w' ∧ kept w w'.
Proof.
  intros Hw. destruct (execute_window _ _ _ _ _ _ _ _ _ _ _ w) as [out w'] eqn:Hrun. cbn.
  pose proof (execute_window_run settings ids env decode models neighbors Hquorum rid wid ts net beh
    trace mode w out w' (wk_blackboard _ _ _ _ Hw) (wk_memory _ _ _ _ Hw) Hrun) as
    [[Hop _]|(ts1 & wf & k & w1 & l & Hat & Hcore)]; [by apply opened_ok |].
  apply (core_ok settings ids decode rid wid ts1 wf k w w1 w' l); [done | done |].
  destruct out as [rep|e]; [|done]. eapply core_implies; [|exact Hcore].
  by intros o win l' [_ [Hst _]].
Qed.

Lemma good_keeps {A} (m : WM A) w :
  workflow_ok w → (hoare (good settings ids decode w) m (λ _, good settings ids decode w)
    (good settings ids decode w)) → workflow_ok (m w).2 ∧ kept w (m w).2.
Proof.
  intros Hw Hm. destruct (m w) as [out w'] eqn:Hrun.
  pose proof (Hm w out w' (good_start _ _ _ _ Hw) Hrun). by destruct out.
Qed.

Lemma rest_keeps w s s' orchestration controller findings ticks :
  workflow_ok w → wf_blackboard w = Some s → service_ok settings ids s' → service_steps s s' →
  let w' := mk_workflow (Some s') orchestration controller findings
    (wf_window_states_limit w) (wf_states w) (wf_committers w) ticks in
  workflow_ok w' ∧ kept w w'.
Proof.
  intros Hw Hs Hs' Hst w'. pose proof Hw as [(s0 & H0 & Hs0 & Hcm) Hm Hwn].
  assert (s0 = s) as -> by congruence.
  assert (Hk : kept w w').
  { constructor; [by exists s, s' |]. intros r st Hr. exists st. split; [done | apply extends_refl]. }
  split; [|done]. apply (workflow_ok_step settings ids decode w); [done | | by destruct Hm | done |].
  - exists s'. split_and!; [done | done |]. intros r m Hr. specialize (Hcm r m Hr).
    unfold the_ledger in *. rewrite H0 in Hcm. by apply (durable_steps settings ids decode s s').
  - intros r st k win Hr Hk'. left. by exists st.
Qed.

Lemma call_keeps w w' : workflow_ok w → service_call w w' → workflow_ok w' ∧ kept w w'.
Proof.
  intros Hw [env models neighbors rid wid ts net beh trace mode|env a|env rid did
    |rid entity action limit offset|rid|s s' orchestration controller findings ticks Hs Hs' Hst].
  - by apply window_keeps.
  - apply good_keeps; [done |]. intros w1 out w2 Hg Hrun.
    pose proof (a_submit_feedback env w Hw a _ w1 out w2 (conj Hg eq_refl) Hrun) as Hpost.
    destruct out; [apply Hpost | done].
  - apply good_keeps; [done |]. intros w1 out w2 Hg Hrun.
    pose proof (a_get_action_keeps env w Hw (mk_feedback_args rid 0 "" did [] "" "" "" None None "")
      _ w1 out w2 (conj Hg eq_refl) Hrun) as Hpost. destruct out; [apply Hpost | done].
  - apply good_keeps; [done |]. eapply h_seq; [by apply g_get_state |].
    apply (h_bind _ (λ _, good settings ids decode w)); [|intros l; by apply h_ret].
    apply g_frame; [done |]. apply frame_replay. intros s. apply same_replay_refl.
  - apply good_keeps; [done |]. eapply h_seq; [by apply g_get_state |].
    apply g_frame; [done |]. apply frame_replay. intros s. apply same_replay_refl.
  - by apply (rest_keeps w s s').
Qed.

Lemma calls_keep w w' : workflow_ok w → rtc service_call w w' → workflow_ok w' ∧ kept w w'.
Proof.
  intros Hw Hs. revert Hw. induction Hs as [w|w w1 w' Hs _ IH]; intros Hw.
  - split; [done | by eapply kept_refl].
  - destruct (call_keeps w w1 Hw Hs) as [Hw1 Hk]. destruct (IH Hw1) as [Hw' Hk'].
    split; [done | by eapply kept_trans].
Qed.

(** A new service. *)
Lemma new_workflow_ok s orchestration controller findings limit w :
  service_ok settings ids s → new_workflow (Some s) orchestration controller findings limit = Ok w →
  workflow_ok w.
Proof.
  intros Hs. unfold new_workflow. rewrite result_bind_ok. intros (u & Hc%check_ok%Z.leb_le & [= <-]).
  constructor.
  - exists s. by split_and!.
  - constructor; [cbn; lia |]. by intros r st.
  - by intros r st.
Qed.
End life.
