(* ===== verification/WfWitness.v ===== *)
(** * A concrete window

    A service over a fresh Blackboard and three orchestrators, one window in which
    the detector accuses one device, and a feedback on the action that follows.
    The run goes through all five agents; it is computed once. *)

From S2P Require Import Prelude PyString Json Firewall BbContracts BbAuthorization BbCoordinator BbWitness.
From S2P Require Import OrContracts OrReplica OrCoordinator OrWitness SimDevices SimGateway AgContracts.
From S2P Require Import AgRecords AgCore AgSpecialists AgCommit BsService BsFacts AgLedger AgGateway.
From S2P Require Import AgLedgerFacts AgWitness EvBroker EvReplay WfState WfWindow WfReads WfFacts.
From S2P Require Import WfMemory WfInvariant WfLife.

Definition abm1 : DeviceABM :=
  mk_abm (new_inventory []) (mk_srep_params f_0_8 f_0_8 2 [] f_one) 8 [(device1, state1)] [] None 0.

Definition numbered (text : string) (n : nat) : string := text +:+ fmt_int (Z.of_nat n).

(** Every adjudication has three observation points: the proposals complete at the
    first, the votes at the second; every message has an identifier of its own. *)
Definition adj_env_of (n : nat) : AdjEnv :=
  mk_adj_env (λ _, f_zero)
    (λ k, let first := (6 * (k / 3) + 3 * (k mod 3))%nat in
          if bool_decide (k mod 3 = 2)%nat then []
          else map (λ f, (f, worker_env (numbered "message-" f))) (seq first 3))
    [] (numbered "decision-" n) t0_utc.

Definition wf_env1 : WfEnv :=
  mk_wf_env (numbered "id-") (numbered "rq-") (λ _, t0_utc) (λ n, clock1 (numbered "spec-" n)) adj_env_of
    (λ _, mk_service_env (λ _, op_env) (λ _, op_env)) (λ _, op_env) (λ _, ledger_env1) elements.

Definition models1 : Models := mk_models (λ _ _ _ _, Ok [SubNetwork finding1]) (λ _ _ _ _ _ _, Ok None).

(** No record of this run is read back, so nothing needs decoding. *)
Definition decode0 (payload : list (string * json)) : result EnforcementDecisionV1 :=
  raise ValidationError "not an action".

Definition workflow0 : WorkflowService :=
  mk_workflow (Some service0) (Some or_coordinator1) None (new_gateway abm1 8) 4 ∅ ∅ 0.
Lemma workflow0_new :
  new_workflow (Some service0) (Some or_coordinator1) None (new_gateway abm1 8) 4 = Ok workflow0.
Proof. reflexivity. Qed.

Abbreviation execute1 := (execute_window wf_env1 decode0 models1 (λ _, Ok []) "replay-1" 3 (Some t0_utc)
  [[("network_observed", JBool true)]] [] None "feature_store").

Definition feedback_args1 : FeedbackArgs :=
  mk_feedback_args "replay-1" 3 device1 "id-32" [] "operator" "CONFIRMED" "reviewed" None None "operator-1".

(** What the run comes to. *)
Definition run1_ok (w : result WindowReport * WorkflowService) : bool :=
  match w, wf_states w.2 !! "replay-1" with
  | (Ok rep, _), Some st =>
      bool_decide (rep_status rep = WINDOW_DONE) && (length (rep_executions rep) =? 5)%nat &&
      match wr_windows st with
      | [win] => bool_decide (od_get device1 (ws_enforcement_decision_ids win) = Some "id-32")
      | _ => false
      end && bool_decide (od_get 3 (wr_window_states st) = Some 0%nat)
  | _, _ => false
  end && is_ok (submit_feedback wf_env1 decode0 feedback_args1 w.2).1.

Lemma run1_computed : run1_ok (execute1 workflow0) = true.
Proof. vm_compute. reflexivity. Qed.

(** A run with these facts; the rest of the development does not look inside. *)
Record Run1 (rep : WindowReport) (w' : WorkflowService) (st : WorkflowReplayState)
    (win : WorkflowWindowState) (fb : ConfirmedFeedbackV1) (w'' : WorkflowService) : Prop := {
  r1_run : execute1 workflow0 = (Ok rep, w');
  r1_state : wf_states w' !! "replay-1" = Some st;
  r1_status : rep_status rep = WINDOW_DONE;
  r1_executions : length (rep_executions rep) = 5%nat;
  r1_windows : wr_windows st = [win];
  r1_enforced : od_get device1 (ws_enforcement_decision_ids win) = Some "id-32";
  r1_entry : od_get 3 (wr_window_states st) = Some 0%nat;
  r1_feedback : submit_feedback wf_env1 decode0 feedback_args1 w' = (Ok fb, w'');
}.

Lemma run1 : ∃ rep w' st win fb w'', Run1 rep w' st win fb w''.
Proof.
  pose proof run1_computed as Hrun. destruct (execute1 workflow0) as [out w'] eqn:Hex. unfold run1_ok in Hrun.
  destruct out as [rep|e]; [|done]. cbn [snd] in Hrun. apply andb_true_iff in Hrun as [Hrun Hf].
  destruct (wf_states w' !! "replay-1") as [st|] eqn:Hst; [|done].
  apply andb_true_iff in Hrun as [[[Hs Hx]%andb_true_iff Hw]%andb_true_iff Ht].
  destruct (wr_windows st) as [|win [|]] eqn:Hwin; [done | | done].
  destruct (submit_feedback _ _ _ _) as [[fb|e] w''] eqn:Hfb; [|done]. exists rep, w', st, win, fb, w''.
  apply bool_decide_eq_true in Hs, Hw, Ht. apply Nat.eqb_eq in Hx. constructor; assumption.
Qed.
