(* ===== verification/WfProperties.v ===== *)
(** * Properties of the workflow service

    The theorems about a service over its lifetime, a window, the table of windows
    and a feedback, each with a concrete instance. *)

From S2P Require Import Prelude PyString Json BbContracts BbAuthorization BbReplica BbCoordinator BbReads.
From S2P Require Import BbWitness OrCoordinator OrWitness SimDevices SimGateway AgContracts AgRecords AgCore.
From S2P Require Import AgSpecialists AgCommit BsService BsFacts AgLedger AgGateway AgLedgerFacts AgWitness.
From S2P Require Import EvBroker EvReplay WfState WfWindow WfReads WfFacts WfChain WfRuns.
From S2P Require Import WfMemory WfInvariant WfLife WfWitness.

Section properties.
Context `{PyRuntime}.

(** C1: the evidence behind every enforcement.  Take a service from its start
    through any calls (windows of any replays with any detector, profiler,
    orchestration answers and faults, feedback, reads, each returning or raising)
    while other clients use the Blackboard.  For every window it has ever opened:
    its agents ran at most once each, never before one they depend on, in at most
    five dispatches; and an enforcement recorded for a device enacts the access
    recommendation the window recorded for the device, which is the policy's
    answer to the risk recommendation recorded for it and cites it, which cites
    the threat correlation recorded for it; all four are bound to the window, its
    workflow, its time and the device, and a quorum of an enabled Blackboard holds
    each of them. *)
Theorem workflow_evidence settings ids decode s orchestration controller findings limit w0 w :
  1 ≤ quorum_size settings → service_ok settings ids s →
  new_workflow (Some s) orchestration controller findings limit = Ok w0 →
  rtc (service_call settings ids decode) w0 w →
  ∀ r st k win, wf_states w !! r = Some st → wr_windows st !! k = Some win →
  ∃ ts, ws_logical_timestamp win = Some ts ∧ respects (executed win) ∧
    (length (ws_dispatch_ids win) ≤ 5)%nat ∧
    ∀ e id, od_get e (ws_enforcement_decision_ids win) = Some id →
      chain settings decode r (ws_window_id win) ts (ws_workflow_id win) (board w) win e id.
Proof.
  intros Hq Hs Hnew Hcalls r st k win Hst Hwin.
  destruct (calls_keep settings ids Hq decode w0 w) as [[_ _ Hw] _]; [by eapply new_workflow_ok | done |].
  destruct (Hw r st k win Hst Hwin) as (ts & (_ & _ & Hts) & Hlinked & Hr & Hd). by exists ts.
Qed.

(** C2: a window settles.  When [execute_window] returns, in a service in any
    reachable state, its report is of a new window of the replay; the window has
    failed, or it is complete after three dispatches (when the device risk was
    not available) or five, when no agent is ready any more; no agent ran twice or
    before one it depends on. *)
Theorem window_settles settings ids env decode models neighbors rid wid ts net beh trace mode w rep w' :
  1 ≤ quorum_size settings → workflow_ok settings ids decode w →
  execute_window env decode models neighbors rid wid ts net beh trace mode w = (Ok rep, w') →
  ∃ k st win findings, wf_states w' !! rid = Some st ∧ wr_windows st !! k = Some win ∧
    rep = window_report win findings ∧ ws_window_id win = wid ∧
    (∀ st0, wf_states w !! rid = Some st0 → wr_windows st0 !! k = None) ∧
    (ws_status win = WINDOW_BROKEN ∨
     ws_status win = WINDOW_DONE ∧
     (length (ws_dispatch_ids win) = 3%nat ∨ length (ws_dispatch_ids win) = 5%nat)) ∧
    respects (executed win).
Proof.
  intros Hq Hw Hrun. destruct (execute_window_run settings ids env decode models neighbors Hq rid wid ts
    net beh trace mode w _ w' (wk_blackboard _ _ _ _ Hw) (wk_memory _ _ _ _ Hw) Hrun) as
    [(_ & e & He & _)|(ts1 & wf & k & w1 & l & Hat & _ & _ & win & Hwin & -> & Hst & Hend)]; [done |].
  unfold window_at in Hwin. cbn in Hwin. destruct (wf_states w' !! rid) as [st|] eqn:Hs; [|done].
  exists k, st, win, (lo_findings l). destruct Hst as ((Hid & _) & _ & Hr & _).
  split_and!; try done. intros st0 H0. apply lookup_ge_None_2. by apply (oa_fresh _ _ _ _ _ Hat).
Qed.

(** C3: the table of windows.  In every reachable state the table of a replay is
    within its limit, names no window twice and only windows of that identifier,
    and the histories keep at most 64 entries.  No call changes a window another
    call has left, and a window that is still open keeps its entry.  A window
    that is already in the table, or that finds the table full of open windows,
    is refused with [RuntimeError]. *)
Theorem window_memory settings ids decode w w' :
  1 ≤ quorum_size settings → workflow_ok settings ids decode w →
  rtc (service_call settings ids decode) w w' →
  (∀ r st, wf_states w' !! r = Some st →
     (length (wr_window_states st) ≤ wr_window_states_limit st)%nat ∧ NoDup (wr_window_states st).*1 ∧
     (∀ key k, od_get key (wr_window_states st) = Some k → ws_window_id <$> wr_windows st !! k = Some key) ∧
     history_ok (wr_history st)) ∧
  (∀ r st, wf_states w !! r = Some st → ∃ st', wf_states w' !! r = Some st' ∧
     (∀ k win, wr_windows st !! k = Some win → wr_windows st' !! k = Some win) ∧
     (∀ key k win, od_get key (wr_window_states st) = Some k → wr_windows st !! k = Some win →
        ws_status win = WINDOW_OPEN → od_get key (wr_window_states st') = Some k)) ∧
  (∀ env models neighbors r wid ts net beh trace mode st, wf_states w' !! r = Some st →
     is_Some (od_get wid (wr_window_states st)) ∨
     (length (wr_window_states st) = wr_window_states_limit st ∧
      ∀ kv win, kv ∈ wr_window_states st → wr_windows st !! kv.2 = Some win →
        ws_status win = WINDOW_OPEN) →
     ∃ e, (execute_window env decode models neighbors r wid ts net beh trace mode w').1 = Raise e ∧
       exn_type e = RuntimeError).
Proof.
  intros Hq Hw Hcalls. destruct (calls_keep settings ids Hq decode w w' Hw Hcalls) as [[_ [_ Hm] _] [_ Hk]].
  split_and!.
  - intros r st Hst. destruct (Hm r st Hst). by split_and!.
  - intros r st Hst. destruct (Hk r st Hst) as (st' & Hst' & Hopen & _ & Hwin). exists st'.
    split_and!; [done | done |]. intros key k win Hkey Hwk Hop. apply Hopen; [done |]. unfold settled_at, is_settled.
    by rewrite Hwk, Hop.
  - intros env models neighbors r wid ts net beh trace mode st Hst Hno.
    assert (Hno' : no_room wid st).
    { destruct Hno as [|[Hl Ho]]; [by left | right; split; [done |]]. intros kv Hin. unfold settled_at, is_settled.
      destruct (wr_windows st !! kv.2) as [win|] eqn:Hwin; [|done]. by rewrite (Ho kv win Hin Hwin). }
    destruct (open_refuses env r wid ts st w' (Hm r st Hst) Hno' Hst) as (e & He & Ht). exists e.
    split; [|done]. unfold execute_window. by destruct (open_window _ _ _ _ _) as [[[[? ?] ?]|?] ?];
      cbn in *; simplify_eq.
Qed.

(** C4: what a feedback rests on.  A feedback that is accepted is valid, is made
    from the caller's arguments, and refers to a known action: a recent action of
    the replay with that identifier, which is then of the feedback's own replay,
    window and device, or one a quorum of the Blackboard holds; and a quorum of an
    enabled Blackboard holds the feedback. *)
Theorem feedback_rests settings ids env decode a w fb w' :
  1 ≤ quorum_size settings → workflow_ok settings ids decode w →
  submit_feedback env decode a w = (Ok fb, w') →
  (∃ id submitted_at, fb = feedback_of id submitted_at a) ∧ feedback_validate fb = Ok tt ∧
  match recent_with (fa_replay_id a) (fa_related_action_id a) w with
  | Some e => enf_replay_id e = fa_replay_id a ∧ enf_window_id e = fa_window_id a ∧
      enf_entity_id e = fa_entity_id a
  | None => ∃ d, action_held settings decode (fa_related_action_id a) d w'
  end ∧
  held settings (board w')
    (workflow_key CONFIRMED_FEEDBACK_RECORD (fa_replay_id a) (fa_window_id a) (fa_entity_id a)
       (feedback_fields fb)) (feedback_fields fb).
Proof.
  intros Hq Hw Hrun. pose proof (a_submit_feedback settings ids Hq decode env w Hw a _ w _ w'
    (conj (good_start _ _ _ w Hw) eq_refl) Hrun) as ((id & at_ & ->) & Hv & Hr & Hheld & _).
  split; [by exists id, at_ |]. split; [done |]. split; [|exact Hheld]. unfold refers, recent_with in *.
  destruct (List.find _ _) as [e|]; [|done]. unfold feedback_bound in Hr.
  apply andb_true_iff in Hr as [[Hr%bool_decide_eq_true Hz%Z.eqb_eq]%andb_true_iff He%bool_decide_eq_true].
  by split_and!.
Qed.
End properties.

(** ** Concrete instances *)
Lemma quorum1 : 1 ≤ quorum_size default_settings.
Proof. done. Qed.

Lemma service0_ok : service_ok default_settings DEFAULT_REPLICA_IDS service0.
Proof. split; [apply fresh_ok | done]. Qed.

Lemma workflow0_ok : workflow_ok default_settings DEFAULT_REPLICA_IDS decode0 workflow0.
Proof. apply (new_workflow_ok _ _ _ service0 (Some or_coordinator1) None (new_gateway abm1 8) 4); [apply service0_ok | reflexivity]. Qed.

Lemma run1_call rep w' st win fb w'' : Run1 rep w' st win fb w'' →
  rtc (service_call default_settings DEFAULT_REPLICA_IDS decode0) workflow0 w'.
Proof.
  intros [Hrun _ _ _ _ _ _ _]. replace w' with (execute1 workflow0).2 by (by rewrite Hrun).
  apply rtc_once, call_window.
Qed.

Lemma run1_keeps rep w' st win fb w'' : Run1 rep w' st win fb w'' →
  workflow_ok default_settings DEFAULT_REPLICA_IDS decode0 w'.
Proof. intros Hr. by apply (calls_keep _ _ quorum1 _ workflow0); [apply workflow0_ok | eapply run1_call]. Qed.

Lemma workflow_evidence_witness : ∃ w' win ts, (execute1 workflow0).2 = w' ∧
  chain default_settings decode0 "replay-1" (ws_window_id win) ts (ws_workflow_id win) (board w') win
    device1 "id-32".
Proof.
  destruct run1 as (rep & w' & st & win & fb & w'' & Hr). pose proof (run1_call _ _ _ _ _ _ Hr) as Hcall.
  destruct Hr. destruct (workflow_evidence default_settings DEFAULT_REPLICA_IDS decode0 service0
    (Some or_coordinator1) None (new_gateway abm1 8) 4 workflow0 w' quorum1 service0_ok workflow0_new Hcall
    "replay-1" st 0%nat win) as (ts & _ & _ & _ & Hc); [done | by rewrite r1_windows |].
  exists w', win, ts. split; [by rewrite r1_run | by apply Hc].
Defined.

Lemma window_settles_witness : ∃ rep w' st win, execute1 workflow0 = (Ok rep, w') ∧
  wf_states w' !! "replay-1" = Some st ∧ win ∈ wr_windows st ∧ ws_status win = WINDOW_DONE ∧
  (length (ws_dispatch_ids win) = 3%nat ∨ length (ws_dispatch_ids win) = 5%nat) ∧ respects (executed win).
Proof.
  destruct run1 as (rep & w' & st0 & win0 & fb & w'' & []).
  destruct (window_settles default_settings DEFAULT_REPLICA_IDS _ _ _ _ _ _ _ _ _ _ _ workflow0 rep w'
    quorum1 workflow0_ok r1_run) as (k & st & win & fs & Hst & Hwin & -> & _ & _ & Hend & Hr).
  exists (window_report win fs), w', st, win. split; [exact r1_run |]. split; [exact Hst |].
  split; [by eapply list_elem_of_lookup_2 |]. destruct Hend as [Hb|[Hd Hn]]; [|by split_and!].
  cbn in r1_status. congruence.
Defined.

(** Running the same window again is refused. *)
Lemma window_memory_witness : ∃ rep w' e, execute1 workflow0 = (Ok rep, w') ∧
  (execute1 w').1 = Raise e ∧ exn_type e = RuntimeError.
Proof.
  destruct run1 as (rep & w' & st & win & fb & w'' & Hr). pose proof (run1_call _ _ _ _ _ _ Hr) as Hcall.
  destruct Hr. destruct (window_memory default_settings DEFAULT_REPLICA_IDS decode0 workflow0 w' quorum1
    workflow0_ok Hcall) as (_ & _ & Hno).
  destruct (Hno wf_env1 models1 (λ _, Ok []) "replay-1" 3 (Some t0_utc) [[("network_observed", JBool true)]]
    [] None "feature_store" st r1_state) as (e & He & Ht); [left; by rewrite r1_entry |].
  exists rep, w', e. split; [exact r1_run | split; [exact He | exact Ht]].
Defined.

Lemma feedback_rests_witness : ∃ w fb w', submit_feedback wf_env1 decode0 feedback_args1 w = (Ok fb, w') ∧
  held default_settings (board w')
    (workflow_key CONFIRMED_FEEDBACK_RECORD "replay-1" 3 device1 (feedback_fields fb)) (feedback_fields fb).
Proof.
  destruct run1 as (rep & w & st & win & fb & w' & Hr). pose proof (run1_keeps _ _ _ _ _ _ Hr) as Hok.
  destruct Hr. exists w, fb, w'. split; [exact r1_feedback |].
  apply (feedback_rests default_settings DEFAULT_REPLICA_IDS _ _ _ _ _ _ quorum1 Hok r1_feedback).
Defined.
